(* ===== verification/_CoqProject ===== *)
-Q . S2P
Prelude.v
Machine.v
Pt.v
PtSpec.v
PtFrames.v
Spinlock.v
Kernel.v
Vmstats.v
Tlb.v
Swapfile.v
PtTable.v
Coremap.v
Addrspace.v
Vm.v
VmInv.v
VmSpec.v
VmDemo.v
VmProps.v
PtProps.v
SwapProps.v
MemBlock.v
Str.v
Copyinout.v
Uio.v
Bitmap.v
Array.v
Endian.v
LongLong.v
Qdivrem.v
Threadlist.v
Synch.v
Proc.v
Syscalls.v
ProcLife.v
Files.v
SynchProps.v
LibProps.v
Menu.v
ProcProps.v
Loadelf.v
LoadProps.v
Syscall.v
Kmalloc.v
KmallocInv.v
KmallocOps.v
KmallocRefs.v
KmallocAlloc.v
KmallocFree.v
KmallocSpec.v
KmallocKernel.v
KmallocProps.v
Xfer.v
Lhd.v
Sfs.v
SfsInv.v
SfsOk.v
SfsBmap.v
SfsFile.v
SfsIo.v
SfsTrunc.v
SfsDir.v
SfsMeta.v
SfsNode.v
Vnode.v
SfsSpec.v
SfsOps.v
SfsRefine.v
SfsMount.v
SfsClient.v
SfsProps.v
Device.v
Vfs.v
VfsPath.v
OneDisk.v
VfsRefine.v
VfsVolume.v
VfsAdd.v
VfsClient.v
VfsProps.v
