(* ===== verification/Prelude.v ===== *)
(** * OS/161 with demand paging: a verification development

    The program is a teaching kernel in C ([src/kern], [src/common]) whose
    virtual memory was rewritten for demand paging.  Its parts, and the files
    that model them:

    - The pager.  A hashed inverted page table with a FIFO queue of victims
      ([kern/vm/pt.c]: [Pt]); frames and eviction ([coremap.c]: [Coremap]); the
      swap file ([swapfile.c]: [Swapfile]); the TLB ([vm_tlb.c]: [Tlb]);
      counters ([vmstats.c]: [Vmstats]); segments and address spaces
      ([segments.c], [addrspace.c]: [Addrspace]); page faults, start and stop
      ([vm.c]: [Vm]); memory at boot ([arch/mips/vm/ram.c]: [Coremap]); interrupt
      levels and spinlocks ([thread/spl.c], [thread/spinlock.c]: [Spinlock]).
      [Machine] has the constants and the memory, [Kernel] the state all of
      them share: the record [kernel] holds the global variables of these
      files, the processor, memory and the processes.
    - Processes ([kern/proc/proc.c], [kern/vfs/vnode.c]: [Proc]) and the
      system calls of processes and files ([kern/syscall]: [Syscalls]), on the
      record [psys] that extends [kernel] with the process table, the vnodes
      and the open files.
    - The kernel heap ([kern/vm/kmalloc.c]: [Kmalloc]), on a class
      [PageSource] for the pages, the memory and the lock it uses, and
      [KmallocKernel], which implements that class with the coremap.
    - Loading of programs ([kern/syscall/loadelf.c], [runprogram.c]:
      [Loadelf]) and the dispatch of system calls
      ([kern/arch/mips/syscall/syscall.c]: [Syscall]).
    - Synchronisation ([kern/thread/synch.c] and the wait channels of
      [thread.c]: [Synch]), and the lists of threads ([threadlist.c]:
      [Threadlist]).
    - The file system SFS ([kern/fs/sfs]): blocks, the map from the blocks of a
      file to those of the disk, reading and writing ([sfs_balloc.c],
      [sfs_bmap.c], [sfs_io.c]: [Sfs]); directories and inodes ([sfs_dir.c],
      [sfs_inode.c]: [SfsDir]); operations on files and volumes
      ([sfs_vnops.c], [sfs_fsops.c]: [SfsOps]).  It runs on the disk driver
      ([kern/dev/lamebus/lhd.c]: [Lhd]) and behind the tables of operations
      of [kern/include/vnode.h] and [fs.h] ([Vnode]).  The record [sfs_st] is
      a volume with its disk and its vnodes; [Machine] has the layout of words
      in bytes, and [Xfer] a transfer as drivers and file systems see it.
    - The VFS layer ([kern/vfs]): devices and file systems by name
      ([vfslist.c]: [Vfs]), paths, the current directory and the boot file
      system ([vfslookup.c], [vfspath.c], [vfscwd.c]: [VfsPath]), vnodes of
      devices ([device.c], [devnull.c]: [Device]).  The record [vfs] holds the
      list of devices, the boot file system and what the layer uses of the
      process; it is generic in the system below, the class [VfsSys], and
      [OneDisk] is the instance with an SFS volume and devices.
    - Access to user memory ([kern/vm/copyinout.c]: [Copyinout]) and data
      transfers ([kern/lib/uio.c]: [Uio]).
    - The library: memory blocks and strings ([common/libc]: [MemBlock],
      [Str]), bitmaps, arrays, byte order and time ([kern/lib]: [Bitmap],
      [Array], [Endian]), 64-bit arithmetic ([common/gcc-millicode]:
      [LongLong], [Qdivrem]); and the command line of the kernel menu
      ([kern/main/menu.c]: [Menu]).

    ** How code is modelled

    A C function is a Rocq function of the same name in the monad [M] of this
    file: it takes the state and returns a value and the new state, or the
    reason why the machine stops ([panic], a failed [KASSERT], an access out of
    bounds or through NULL, a wait nothing can end).  Integers are [Z] with the
    conversions of C written out ([u32], [s32], [u64], ...).  A [for] over a
    fixed range is [for_list]; any other loop is [while], which is bounded by
    2^40 turns and stops with [OutOfFuel] after that: each theorem about a
    loop shows that it ends before ([wp_while] asks for a measure below the
    bound), and all modelled loops are bounded by the size of a table or of an
    address space of 2^32 bytes.  [wp m Q s] says that [m] returns from state
    [s] with [Q]; it is total correctness.  Locks are modelled for one
    processor in the sequential files, where a lock that is not free is a
    hang; [Synch] is a transition system in which the steps of any number of
    threads interleave.

    ** What the theorems show

    - [VmSpec], [VmProps]: a page fault keeps the invariant of the whole
      system ([VmInv]), changes the contents of no page that exists, of any
      process and wherever it is, maps the page with the right permission, and
      keeps the statistics consistent; what a page holds when it is first
      touched, including what is wrong with it: the part behind the end of the
      program file is not cleared but shows what the frame held, and the first
      page of a segment adjacent to the other one is read from the wrong place.
      Kernel pages can be allocated and freed; what happens when memory is full.
      The invariant asks for two program segments and a stack that do not
      overlap, of files that can be read and are not the swap file; the files may
      be of any length.  [VmDemo] gives a concrete machine and a memory file
      system that satisfy every assumption.
    - [PtSpec], [PtFrames], [PtTable], [PtProps]: the page table refines a
      queue of pages, its operations are those of the queue, and frames are
      found first fit.
    - [SwapProps]: pages survive a stay in the swap file; saving and reading
      back are insertion and deletion in a finite map.
    - [ProcLife], [Files], [ProcProps]: pids are unique, an exit reaches the
      process that waits and leaves no page and no pid behind (but its files stay
      open, and the status is not encoded as the manual says), reference counts
      of open files are the number of descriptors; a failed [open] that keeps
      an entry taken, a [fork] that empties the table of the parent, and other
      defects of the system calls.
    - [KmallocSpec]: the kernel heap implements a map of disjoint blocks, over
      any source of pages with the laws of [PageLaws]; the files
      [KmallocInv] to [KmallocFree] have its invariant and what each routine
      does to it.  [KmallocKernel] proves the laws for the kernel, and
      [KmallocProps] that the heap leaves user pages alone.
    - [LoadProps], [Syscall]: [load_elf] compared with a definition of the ELF
      format (errors, entry point, pages, and the bytes of the part in the file
      for segments aligned to pages; the part behind [p_filesz] and segments
      that are not aligned are not treated as the format says), [runprogram]
      enters user mode with an address space page faults can serve, and a
      system call as user mode sees it.
    - [SfsSpec] describes an abstract file system: names, contents, links and
      references.  [SfsInv], [SfsOk], [SfsBmap], [SfsFile], [SfsIo],
      [SfsTrunc], [SfsMeta] and [SfsNode] have the invariant of a
      volume (no block is used twice, the free map marks what is used, vnodes
      and inodes agree) and what each routine does to it.  [SfsRefine] proves
      each operation against its specification.  [SfsClient] has the class
      [Calls], an interface of calls with their conditions and effects, which
      is lifted to programs, and its instance for vnodes of a volume.  [SfsMount] shows that a
      volume survives being unmounted and mounted, and [SfsProps] collects
      the theorems, with a concrete disk; three of them are
      about data that is lost or comes back.
    - [VfsRefine] says what a path means and that the loops of the
      VFS layer compute it; [VfsVolume] lifts the operations of the volume to
      paths, with the current directory, [VfsAdd] has the registration of
      devices, [VfsClient] the instance of [Calls] for paths and vnodes,
      and [VfsProps] the theorems.
    - [SynchProps]: in every interleaving no assertion of the lock routines
      fails, no wakeup and no update of a count is lost although an update is
      a load and a store, locks are held by one thread, and the routines do not
      deadlock.
    - [Threadlist]: the linked lists are sequences.
    - [LibProps], [Menu], [Uio]: functional behaviour of the library, user
      memory is checked and copied faithfully, division and multiplication on
      digits are those of the integers, command lines are cut into words.

    ** What is not modelled

    Where the pager, the loader and the system calls use files, the file system
    is behind the class [VnodeOps], with the documented behaviour of regular
    files as [VnodeLaws], and the arguments [vfs_open] and [vfs_close]; the
    VFS layer is not connected to them.  In the VFS layer, [vfs_bootstrap] is
    not modelled, and the theorems about paths are about one mounted volume:
    [vfs_link], [vfs_mount] and their like are modelled without theorems.  Outside
    of the heap's own files [kmalloc] is an argument or a list of outcomes.
    Thread creation, context switches and the scheduler depend on assembly and
    are not modelled, nor are device drivers other than the disk, trap
    handling, output formatting, tests and user programs.  The code
    is modelled in the configuration with waitpid, fork, files and demand
    paging. *)

From stdpp Require Export base tactics list list_numbers option strings gmap.
From Stdlib Require Export ZArith Lia.

#[global] Open Scope Z_scope.

(** ** Outcomes of kernel code

    A kernel routine either returns or stops the machine.  [Panic] is a call
    of [panic()], [AssertFail] a failed [KASSERT], [BadAccess] a null or
    out-of-range access or a division by zero (undefined in C, a trap on the
    machine), [Hang] a wait that nothing can end in a sequential run,
    [Exited] the non-returning exit of the current thread, and [OutOfFuel]
    the exhaustion of the bound given to an unbounded C loop. *)
Inductive stop : Type :=
  | Panic (msg : string)
  | AssertFail (msg : string)
  | BadAccess
  | Hang
  | Exited (status : Z)
  | OutOfFuel.

Inductive result (A : Type) : Type :=
  | Ok (a : A)
  | Stop (why : stop).
Arguments Ok {A} a.
Arguments Stop {A} why.

#[global] Instance stop_eq_dec : EqDecision stop.
Proof. solve_decision. Defined.

(** ** The state and error monad of kernel code *)
Definition M (S A : Type) : Type := S → result (A * S).

#[global] Instance M_ret S : MRet (M S) := λ A a s, Ok (a, s).
#[global] Instance M_bind S : MBind (M S) := λ A B k m s,
  match m s with
  | Ok (a, s') => k a s'
  | Stop e => Stop e
  end.

Definition halt {S A} (e : stop) : M S A := λ _, Stop e.
Definition gets {S A} (f : S → A) : M S A := λ s, Ok (f s, s).
Definition modify {S} (f : S → S) : M S () := λ s, Ok (tt, f s).
Definition kassert {S} (b : bool) (msg : string) : M S () :=
  if b then mret tt else halt (AssertFail msg).

(** An array element or a dereference: absent means an invalid access. *)
Definition deref {S A} (o : option A) : M S A :=
  match o with
  | Some a => mret a
  | None => halt BadAccess
  end.

(** [KASSERT(p != NULL)] for a pointer that is used afterwards *)
Definition assert_some {S A} (o : option A) (msg : string) : M S A :=
  match o with
  | Some a => mret a
  | None => halt (AssertFail msg)
  end.

(** Run code of a component on its part of a larger state. *)
Definition zoom {S T A} (get : S → T) (set : T → S → S) (m : M T A) : M S A :=
  λ s, match m (get s) with
       | Ok (a, t) => Ok (a, set t s)
       | Stop e => Stop e
       end.

(** A bounded [for (i = lo; i < hi; i++) body], in the order of [i]. *)
Fixpoint for_list {S A} (l : list A) (body : A → M S ()) : M S () :=
  match l with
  | [] => mret tt
  | i :: l' => body i ;; for_list l' body
  end.

(** A bounded loop with a local variable *)
Fixpoint fold_list {S A B} (l : list A) (body : A → B → M S B) (b : B) : M S B :=
  match l with
  | [] => mret b
  | i :: l' => b ← body i b; fold_list l' body b
  end.

(** A bounded loop whose body may return from the function: [Some b] returns
    [b], [None] goes on. *)
Fixpoint for_some {S A B} (l : list A) (body : A → M S (option B)) : M S (option B) :=
  match l with
  | [] => mret None
  | i :: l' =>
      r ← body i;
      match r with
      | Some b => mret (Some b)
      | None => for_some l' body
      end
  end.

(** An unbounded C loop.  The body returns [inl a] to go round again with the
    loop variables [a] and [inr b] to leave with [b].  [turns n] makes at most
    [2 ^ n] turns and is evaluated lazily, so that the bound of [while] costs
    nothing; [2 ^ 40] turns are more than any loop over 32-bit indexes makes. *)
Fixpoint turns {S A B} (n : nat) (body : A → M S (A + B)) (a : A) : M S (A + B) :=
  match n with
  | O => body a
  | S n =>
      r ← turns n body a;
      match r with
      | inl a' => turns n body a'
      | inr b => mret (inr b)
      end
  end.

Definition while {S A B} (body : A → M S (A + B)) (a : A) : M S B :=
  r ← turns 40 body a;
  match r with
  | inl _ => halt OutOfFuel
  | inr b => mret b
  end.

(** ** Total correctness

    [wp m Q s] says that [m] run from [s] returns, and that its result and
    final state satisfy [Q]. *)
Definition wp {S A} (m : M S A) (Q : A → S → Prop) (s : S) : Prop :=
  match m s with
  | Ok (a, s') => Q a s'
  | Stop _ => False
  end.

Section wp.
Context {S : Type}.

Lemma wp_ret {A} (a : A) Q (s : S) : wp (mret a) Q s ↔ Q a s.
Proof. done. Qed.

Lemma wp_bind {A B} (m : M S A) (k : A → M S B) Q s :
  wp (m ≫= k) Q s ↔ wp m (λ a s', wp (k a) Q s') s.
Proof.
  unfold wp, mbind, M_bind. by destruct (m s) as [[a s']|e].
Qed.

Lemma wp_mono {A} (m : M S A) (P Q : A → S → Prop) s :
  wp m P s → (∀ a s', P a s' → Q a s') → wp m Q s.
Proof. unfold wp. destruct (m s) as [[a s']|e]; eauto. Qed.

Lemma wp_run {A} (m : M S A) Q s :
  wp m Q s ↔ ∃ a s', m s = Ok (a, s') ∧ Q a s'.
Proof.
  unfold wp. destruct (m s) as [[a s']|e]; split.
  - eauto.
  - intros (? & ? & [= -> ->] & ?). done.
  - done.
  - intros (? & ? & [=] & _).
Qed.

Lemma wp_eq {A} (m : M S A) Q s a s' :
  m s = Ok (a, s') → wp m Q s ↔ Q a s'.
Proof. unfold wp. by intros ->. Qed.

Lemma wp_gets {A} (f : S → A) Q s : wp (gets f) Q s ↔ Q (f s) s.
Proof. done. Qed.

Lemma wp_modify f Q (s : S) : wp (modify f) Q s ↔ Q tt (f s).
Proof. done. Qed.

Lemma wp_kassert b msg Q (s : S) : wp (kassert b msg) Q s ↔ b = true ∧ Q tt s.
Proof. destruct b; cbn; split; [auto|by intros []|done|by intros []]. Qed.

Lemma wp_deref {A} (o : option A) Q (s : S) :
  wp (deref o) Q s ↔ ∃ a, o = Some a ∧ Q a s.
Proof.
  destruct o as [x|]; cbn; split; [eauto|by intros (? & [= ->] & ?)|done|by intros (? & ? & _)].
Qed.

Lemma wp_zoom {T A} get set (m : M T A) Q (s : S) :
  wp (zoom get set m) Q s ↔ wp m (λ a t, Q a (set t s)) (get s).
Proof. unfold wp, zoom. by destruct (m (get s)) as [[a t]|e]. Qed.

(** Running a bind whose first part is known to return. *)
Lemma bind_ok {A B} (m : M S A) (k : A → M S B) s a s' :
  m s = Ok (a, s') → (m ≫= k) s = k a s'.
Proof. unfold mbind, M_bind. by intros ->. Qed.

Lemma bind_assoc {A B C} (m : M S A) (k : A → M S B) (k' : B → M S C) s :
  ((m ≫= k) ≫= k') s = (m ≫= (λ a, k a ≫= k')) s.
Proof. unfold mbind, M_bind. by destruct (m s) as [[a s']|e]. Qed.

Lemma bind_stop {A B} (m : M S A) (k : A → M S B) s e :
  m s = Stop e → (m ≫= k) s = Stop e.
Proof. unfold mbind, M_bind. by intros ->. Qed.

(** The loop rule: an invariant indexed by what is left to do. *)
Lemma wp_for_list {A} (l : list A) (body : A → M S ()) (I : list A → S → Prop) Q s :
  I l s →
  (∀ i l' s', I (i :: l') s' → wp (body i) (λ _, I l') s') →
  (∀ s', I [] s' → Q tt s') →
  wp (for_list l body) Q s.
Proof.
  intros HI Hstep HQ. revert s HI. induction l as [|i l IH]; intros s HI; cbn.
  - by apply HQ.
  - apply wp_bind. eapply wp_mono; [by apply Hstep|]. intros [] s' Hs'. by apply IH.
Qed.

Lemma wp_for_some {A B} (l : list A) (body : A → M S (option B)) (I : list A → S → Prop) Q s :
  I l s →
  (∀ i l' s', I (i :: l') s' → wp (body i) (λ r s'', match r with Some b => Q (Some b) s'' | None => I l' s'' end) s') →
  (∀ s', I [] s' → Q None s') →
  wp (for_some l body) Q s.
Proof.
  intros HI Hstep HQ. revert s HI. induction l as [|i l IH]; intros s HI; cbn.
  - by apply HQ.
  - apply wp_bind. eapply wp_mono; [by apply Hstep|]. intros [b|] s' Hs'; [by apply wp_ret|by apply IH].
Qed.

Lemma wp_fold_list {A B} (l : list A) (body : A → B → M S B) (I : list A → B → S → Prop) Q b s :
  I l b s →
  (∀ i l' b' s', I (i :: l') b' s' → wp (body i b') (I l') s') →
  (∀ b' s', I [] b' s' → Q b' s') →
  wp (fold_list l body b) Q s.
Proof.
  intros HI Hstep HQ. revert b s HI. induction l as [|i l IH]; intros b s HI; cbn.
  - by apply HQ.
  - apply wp_bind. eapply wp_mono; [by apply Hstep|]. intros b' s' Hs'. by apply IH.
Qed.

(** A loop over [seqZ 0 n] with an invariant indexed by the turn *)
Lemma wp_for_seqZ (n : Z) (body : Z → M S ()) (I : Z → S → Prop) s :
  0 ≤ n → I 0 s → (∀ k s, 0 ≤ k < n → I k s → wp (body k) (λ _, I (k + 1)) s) →
  wp (for_list (seqZ 0 n) body) (λ _, I n) s.
Proof.
  intros Hn HI Hbody.
  apply (wp_for_list _ _ (λ l s, ∃ k, l = seqZ k (n - k) ∧ 0 ≤ k ≤ n ∧ I k s)).
  - exists 0. by rewrite Z.sub_0_r.
  - intros i l s' (k & Hl & Hk & HIk). destruct (decide (k = n)) as [->|Hne].
    { by rewrite Z.sub_diag in Hl. }
    rewrite seqZ_cons in Hl by lia. injection Hl as -> ->.
    eapply wp_mono; [apply Hbody; [lia|done]|]. intros [] s'' HI'. exists (k + 1).
    split; [f_equal; lia|]. split; [lia|done].
  - intros s' (k & Hl & Hk & HIk). destruct (decide (k = n)) as [->|Hne]; [done|].
    rewrite seqZ_cons in Hl by lia. done.
Qed.

Lemma wp_for_fmap {A B} (f : A → B) l (body : B → M S ()) Q s :
  wp (for_list (f <$> l) body) Q s ↔ wp (for_list l (λ a, body (f a))) Q s.
Proof.
  revert s. induction l as [|a l IH]; intros s; [done|]. cbn. rewrite !wp_bind. split;
    intros H; (eapply wp_mono; [exact H|]); intros [] s'; apply IH.
Qed.

Lemma for_list_ext {A} (l : list A) (f g : A → M S ()) s :
  (∀ a, f a = g a) → for_list l f s = for_list l g s.
Proof.
  intros H. revert s. induction l as [|a l IH]; intros s; [done|]. cbn. rewrite H.
  unfold mbind, M_bind. destruct (g a s) as [[]|]; [apply IH|done].
Qed.

Lemma wp_result {A} (m : M S A) s a s' :
  wp m (λ a1 s1, a1 = a ∧ s1 = s') s ↔ m s = Ok (a, s').
Proof.
  rewrite wp_run. split; [by intros (? & ? & ? & -> & ->)|]. intros H. by exists a, s'.
Qed.

(** The rule of unbounded loops: an invariant and a measure that goes down at
    each turn.  It gives termination: [wp] excludes [OutOfFuel]. *)
Lemma wp_turns {A B} n (body : A → M S (A + B)) (I : A → S → Prop) (μ : A → S → Z) Q a s :
  I a s →
  (∀ a s, I a s → wp (body a) (λ r s', match r with
    | inl a' => I a' s' ∧ μ a' s' + 1 ≤ μ a s
    | inr b => Q b s' end) s) →
  wp (turns n body a) (λ r s', match r with
    | inl a' => I a' s' ∧ μ a' s' + 2 ^ Z.of_nat n ≤ μ a s
    | inr b => Q b s' end) s.
Proof.
  intros HI Hbody. revert a s HI. induction n as [|n IH]; intros a s HI; cbn [turns].
  { by apply Hbody. }
  apply wp_bind. eapply wp_mono; [by apply IH|]. intros [a'|b] s' Hr; [|done].
  destruct Hr as [HI' Hle]. eapply wp_mono; [by apply IH|]. intros [a''|b] s'' Hr'; [|done].
  destruct Hr' as [HI'' Hle']. split; [done|]. rewrite Nat2Z.inj_succ, Z.pow_succ_r by lia. lia.
Qed.

Lemma wp_while {A B} (body : A → M S (A + B)) (I : A → S → Prop) (μ : A → S → Z) Q a s :
  I a s → (∀ a s, I a s → 0 ≤ μ a s) → μ a s < 2 ^ 40 →
  (∀ a s, I a s → wp (body a) (λ r s', match r with
    | inl a' => I a' s' ∧ μ a' s' + 1 ≤ μ a s
    | inr b => Q b s' end) s) →
  wp (while body a) Q s.
Proof.
  intros HI Hpos Hlt Hbody. unfold while. apply wp_bind.
  eapply wp_mono; [by apply (wp_turns 40 body I μ Q)|].
  intros [a'|b] s' Hr; [|done]. destruct Hr as [HI' Hle]. pose proof (Hpos _ _ HI').
  change (Z.of_nat 40) with 40 in Hle. lia.
Qed.

(** The rule with the number of turns left in the invariant, for loops over
    lists and other data that the loop variables only point to *)
Lemma wp_turns_left {A B} k (body : A → M S (A + B)) (I : Z → A → S → Prop) Q n a s :
  I n a s →
  (∀ n a s, I n a s → 0 ≤ n ∧ wp (body a) (λ r s', match r with
    | inl a' => ∃ n', n' + 1 ≤ n ∧ I n' a' s'
    | inr b => Q b s' end) s) →
  wp (turns k body a) (λ r s', match r with
    | inl a' => ∃ n', n' + 2 ^ Z.of_nat k ≤ n ∧ I n' a' s'
    | inr b => Q b s' end) s.
Proof.
  intros HI Hbody. revert n a s HI. induction k as [|k IH]; intros n a s HI; cbn [turns].
  { by apply Hbody. }
  apply wp_bind. eapply wp_mono; [by apply IH|]. intros [a'|b] s' Hr; [|done].
  destruct Hr as (n' & Hle & HI'). eapply wp_mono; [by apply IH|]. intros [a''|b] s'' Hr'; [|done].
  destruct Hr' as (n'' & Hle' & HI''). exists n''. split; [|done]. rewrite Nat2Z.inj_succ, Z.pow_succ_r by lia. lia.
Qed.

Lemma wp_while_left {A B} (body : A → M S (A + B)) (I : Z → A → S → Prop) Q n a s :
  I n a s → n < 2 ^ 40 →
  (∀ n a s, I n a s → 0 ≤ n ∧ wp (body a) (λ r s', match r with
    | inl a' => ∃ n', n' + 1 ≤ n ∧ I n' a' s'
    | inr b => Q b s' end) s) →
  wp (while body a) Q s.
Proof.
  intros HI Hlt Hbody. unfold while. apply wp_bind. eapply wp_mono; [by apply (wp_turns_left 40 body I Q n)|].
  intros [a'|b] s' Hr; [|done]. destruct Hr as (n' & Hle & HI'). destruct (Hbody _ _ _ HI') as [Hpos _].
  change (Z.of_nat 40) with 40 in Hle. lia.
Qed.
End wp.

(** Symbolic execution of a monadic goal, one operation per step. *)
Ltac wp_step :=
  lazymatch goal with
  | |- wp (mbind _ _) _ _ => apply wp_bind
  | |- wp (mret _) _ _ => apply wp_ret
  | |- wp (gets _) _ _ => apply wp_gets
  | |- wp (modify _) _ _ => apply wp_modify
  | |- wp (kassert _ _) _ _ => apply wp_kassert
  | |- wp (deref _) _ _ => apply wp_deref
  | |- wp (zoom _ _ _) _ _ => apply wp_zoom
  end; cbn beta.
Ltac wp_steps := repeat wp_step.

(** Reduce the monad's operations, and nothing else. *)
Ltac mred := cbv [mbind M_bind mret M_ret gets modify halt kassert].

(** Run the first operation of a sequence with an equation for it. *)
Ltac run_with H := rewrite (bind_ok _ _ _ _ _ H).

(** ** Integers at machine width *)
Definition u8 (z : Z) : Z := z `mod` 2 ^ 8.
Definition u32 (z : Z) : Z := z `mod` 2 ^ 32.
Definition u64 (z : Z) : Z := z `mod` 2 ^ 64.

(** Conversion of a 32-bit pattern to a signed [int]. *)
Definition s32 (z : Z) : Z := (z + 2 ^ 31) `mod` 2 ^ 32 - 2 ^ 31.

Definition s64 (z : Z) : Z := (z + 2 ^ 63) `mod` 2 ^ 64 - 2 ^ 63.

(** Conversion to a (signed) [char]. *)
Definition s8 (z : Z) : Z := (z + 2 ^ 7) `mod` 2 ^ 8 - 2 ^ 7.

#[global] Arguments s8 : simpl never.
#[global] Arguments u8 : simpl never.
#[global] Arguments u32 : simpl never.
#[global] Arguments u64 : simpl never.
#[global] Arguments s32 : simpl never.
#[global] Arguments s64 : simpl never.

Definition u32_ok (z : Z) : Prop := 0 ≤ z < 2 ^ 32.

Lemma u32_id z : 0 ≤ z < 2 ^ 32 → u32 z = z.
Proof. apply Z.mod_small. Qed.

Lemma u32_range z : 0 ≤ u32 z < 2 ^ 32.
Proof. by apply Z.mod_pos_bound. Qed.

Lemma s32_id z : - 2 ^ 31 ≤ z < 2 ^ 31 → s32 z = z.
Proof. intros. unfold s32. rewrite Z.mod_small; lia. Qed.

Lemma s64_id z : - 2 ^ 63 ≤ z < 2 ^ 63 → s64 z = z.
Proof. intros. unfold s64. rewrite Z.mod_small; lia. Qed.

Lemma u64_id z : 0 ≤ z < 2 ^ 64 → u64 z = z.
Proof. apply Z.mod_small. Qed.

Lemma u64_range z : 0 ≤ u64 z < 2 ^ 64.
Proof. by apply Z.mod_pos_bound. Qed.

(** A signed value depends on the bit pattern only. *)
Lemma s64_u64 z : s64 (u64 z) = s64 z.
Proof. unfold s64, u64. by rewrite Zplus_mod_idemp_l. Qed.

Lemma u64_s64 z : u64 (s64 z) = u64 z.
Proof.
  unfold s64, u64. rewrite Zminus_mod_idemp_l. f_equal. lia.
Qed.

Lemma s64_congr a b : u64 a = u64 b → s64 a = s64 b.
Proof. intros H. by rewrite <-(s64_u64 a), H, s64_u64. Qed.

Lemma s32_u32 z : s32 (u32 z) = s32 z.
Proof. unfold s32, u32. by rewrite Zplus_mod_idemp_l. Qed.

(** A sum of parts that do not overlap is their [or]. *)
Lemma lor_add a b n : 0 ≤ n → 0 ≤ b < 2 ^ n → Z.lor (a * 2 ^ n) b = a * 2 ^ n + b.
Proof.
  intros Hn Hb. rewrite <-Z.lxor_lor; [symmetry; apply Z.add_nocarry_lxor|];
    apply Z.bits_inj'; intros i Hi; rewrite Z.land_spec, Z.bits_0;
    (destruct (decide (i < n)); [by rewrite Z.mul_pow2_bits_low|
      rewrite <-(Z.mod_small b (2 ^ n)), Z.mod_pow2_bits_high, andb_false_r by lia; done]).
Qed.

(** The bits of a number made of two parts *)
Lemma testbit_parts a b n i :
  0 ≤ n → 0 ≤ b < 2 ^ n → 0 ≤ i →
  Z.testbit (a * 2 ^ n + b) i = if decide (i < n) then Z.testbit b i else Z.testbit a (i - n).
Proof.
  intros Hn Hb Hi. rewrite <-lor_add by done. rewrite Z.lor_spec. case_decide.
  - by rewrite Z.mul_pow2_bits_low.
  - rewrite Z.mul_pow2_bits by lia.
    rewrite <-(Z.mod_small b (2 ^ n)), Z.mod_pow2_bits_high, orb_false_r by lia. done.
Qed.

(** Lengths of lists *)
Create Rewrite HintDb len.
#[export] Hint Rewrite @length_app @length_cons @length_take @length_drop @length_fmap @length_replicate @length_insert @length_seqZ @length_seq
  @length_delete @length_nil : len.
Ltac len := autorewrite with len; lia.

(** Bit operations stay in range *)
Lemma land_u32 x y : 0 ≤ x < 2 ^ 32 → 0 ≤ Z.land x y < 2 ^ 32.
Proof.
  intros Hx. rewrite <-(Z.mod_small x (2 ^ 32)) by done. rewrite <-Z.land_ones, <-Z.land_assoc, (Z.land_comm _ y), Z.land_assoc, Z.land_ones by lia.
  by apply Z.mod_pos_bound.
Qed.

Lemma lor_u32 x y : 0 ≤ x < 2 ^ 32 → 0 ≤ y < 2 ^ 32 → 0 ≤ Z.lor x y < 2 ^ 32.
Proof.
  intros Hx Hy. rewrite <-(Z.mod_small x (2 ^ 32)), <-(Z.mod_small y (2 ^ 32)) by done.
  rewrite <-!Z.land_ones, <-Z.land_lor_distr_l, Z.land_ones by lia. by apply Z.mod_pos_bound.
Qed.

(** Testing a bit with a mask *)
Lemma land_pow2 w o : 0 ≤ o → (Z.land w (2 ^ o) =? 0) = negb (Z.testbit w o).
Proof.
  intros Ho. destruct (Z.testbit w o) eqn:E; cbn.
  - apply Z.eqb_neq. intros H. apply (f_equal (λ x, Z.testbit x o)) in H.
    by rewrite Z.land_spec, E, Z.pow2_bits_true, Z.bits_0 in H.
  - apply Z.eqb_eq, Z.bits_inj'. intros n Hn. rewrite Z.land_spec, Z.bits_0, Z.pow2_bits_eqb by done.
    destruct (Z.eqb_spec o n) as [<-|]; [by rewrite E|by rewrite andb_false_r].
Qed.

Lemma u32_u32 a : u32 (u32 a) = u32 a.
Proof. unfold u32. by rewrite Z.mod_mod. Qed.

Lemma u32_add_l a b : u32 (u32 a + b) = u32 (a + b).
Proof. unfold u32. by rewrite Zplus_mod_idemp_l. Qed.

Lemma u32_add_r a b : u32 (a + u32 b) = u32 (a + b).
Proof. unfold u32. by rewrite Zplus_mod_idemp_r. Qed.

Lemma u32_add_congr a b c : u32 a = u32 b → u32 (a + c) = u32 (b + c).
Proof. intros H. by rewrite <-u32_add_l, H, u32_add_l. Qed.

Create HintDb kernel.
Create Rewrite HintDb kernel.
#[export] Hint Resolve u32_range : kernel.
#[export] Hint Rewrite u32_id s32_id using lia : kernel.

(** ** Lists *)
Section lists.
Context {A : Type}.
Implicit Types l : list A.

Lemma lookup_insert_cases l i j x y :
  <[i:=x]> l !! j = Some y →
  (i = j ∧ y = x ∧ (i < length l)%nat) ∨ (i ≠ j ∧ l !! j = Some y).
Proof.
  intros H. apply list_lookup_insert_Some in H as [(-> & -> & ?)|[? ?]]; auto.
Qed.

Lemma lookup_some_lt l i x : l !! i = Some x → (i < length l)%nat.
Proof. apply lookup_lt_Some. Qed.

Lemma list_alter_as_insert (f : A → A) l i x :
  l !! i = Some x → alter f i l = <[i := f x]> l.
Proof.
  intros Hi. apply list_eq. intros k. destruct (decide (i = k)) as [->|Hne].
  - rewrite list_lookup_alter_eq, Hi, list_lookup_insert_eq; [done|by eapply lookup_lt_Some].
  - by rewrite list_lookup_alter_ne, list_lookup_insert_ne.
Qed.

Lemma NoDup_mid l1 x l2 : NoDup (l1 ++ x :: l2) → x ∉ l1 ++ l2.
Proof.
  intros (_ & Hdis & [Hni _]%NoDup_cons)%NoDup_app [Hin|Hin]%elem_of_app; [|done].
  apply (Hdis x); [done|apply list_elem_of_here].
Qed.

Lemma last_app_ne l k : k ≠ [] → last (l ++ k) = last k.
Proof.
  intros Hk. rewrite last_app. destruct (last k) eqn:E; [done|].
  by apply last_None in E.
Qed.

Lemma filter_ext_in (P Q : A → Prop) `{!∀ x, Decision (P x), !∀ x, Decision (Q x)} l :
  (∀ x, x ∈ l → P x ↔ Q x) → filter P l = filter Q l.
Proof.
  intros HP. induction l as [|x l IH]; [done|]. rewrite !filter_cons.
  rewrite IH by (intros y Hy; apply HP; by apply list_elem_of_further).
  destruct (HP x ltac:(apply list_elem_of_here)). do 2 case_decide; naive_solver.
Qed.

Lemma filter_all (P : A → Prop) `{!∀ x, Decision (P x)} l :
  (∀ x, x ∈ l → P x) → filter P l = l.
Proof.
  intros HP. induction l as [|x l IH]; [done|]. rewrite filter_cons_True by (apply HP; apply list_elem_of_here).
  rewrite IH; [done|]. intros y Hy. apply HP. by apply list_elem_of_further.
Qed.
End lists.

(** ** Loops that update an array

    [for (i = n; i < n + m; i++) a[i] = f(i, a[i])] *)
Definition update_range {A} (n m : nat) (f : nat → A → A) (l : list A) : list A :=
  imap (λ i x, if decide (n ≤ i < n + m)%nat then f i x else x) l.

Lemma update_range_step {A} n m (f : nat → A → A) l x :
  l !! n = Some x →
  update_range n (S m) f l = update_range (S n) m f (<[n := f n x]> l).
Proof.
  intros Hn. apply list_eq. intros i. unfold update_range. rewrite !list_lookup_imap.
  destruct (decide (i = n)) as [->|Hi].
  - rewrite Hn, list_lookup_insert_eq by (by eapply lookup_lt_Some). cbn.
    rewrite decide_True, decide_False by lia. done.
  - rewrite list_lookup_insert_ne by done. destruct (l !! i) as [y|]; [|done]. cbn.
    f_equal. do 2 case_decide; (done || lia).
Qed.

Lemma update_range_0 {A} n (f : nat → A → A) l : update_range n 0 f l = l.
Proof.
  apply list_eq. intros i. unfold update_range. rewrite list_lookup_imap.
  destruct (l !! i) as [y|]; [|done]. cbn. f_equal. case_decide; [lia|done].
Qed.

Lemma update_range_all {A} (f : nat → A → A) l : update_range 0 (length l) f l = imap f l.
Proof.
  apply list_eq. intros i. unfold update_range. rewrite !list_lookup_imap.
  destruct (l !! i) as [y|] eqn:E; [|done]. cbn. f_equal.
  rewrite decide_True; [done|]. apply lookup_lt_Some in E. lia.
Qed.

Lemma length_update_range {A} n m (f : nat → A → A) l : length (update_range n m f l) = length l.
Proof. apply length_imap. Qed.

Lemma for_update {S A} (get : S → list A) (put : list A → S → S) (body : Z → M S ())
    (f : nat → A → A) n m s :
  (∀ l s, get (put l s) = l) → (∀ l l' s, put l (put l' s) = put l s) → (∀ s, put (get s) s = s) →
  (∀ i s x, get s !! i = Some x → body (Z.of_nat i) s = Ok (tt, put (<[i := f i x]> (get s)) s)) →
  (n + m ≤ length (get s))%nat →
  for_list (seqZ (Z.of_nat n) (Z.of_nat m)) body s = Ok (tt, put (update_range n m f (get s)) s).
Proof.
  intros Hgp Hpp Hpg Hbody. revert n s. induction m as [|m IH]; intros n s Hlen.
  { cbn. by rewrite update_range_0, Hpg. }
  rewrite Nat2Z.inj_succ, seqZ_cons, Z.pred_succ by lia. cbn [for_list].
  destruct (lookup_lt_is_Some_2 (get s) n ltac:(lia)) as [x Hx].
  run_with (Hbody n s x Hx). rewrite <-Nat2Z.inj_succ.
  rewrite IH by (rewrite Hgp, length_insert; lia).
  by rewrite Hgp, Hpp, (update_range_step _ _ _ _ _ Hx).
Qed.

Lemma imap_const {A B} (b : B) (l : list A) : imap (λ _ _, b) l = replicate (length l) b.
Proof. induction l as [|x l IH]; [done|]. cbn. by rewrite <-IH. Qed.
