(* ===== verification/Machine.v ===== *)
(** * The machine as the VM code sees it

    Constants of [kern/arch/mips/include/vm.h], [kern/include/vm.h] and
    [kern/include/kern/errno.h], physical memory, and words in bytes. *)

From S2P Require Import Prelude.

(** ** Memory layout ([kern/arch/mips/include/vm.h]) *)
Definition PAGE_SIZE : Z := 4096.
Definition PAGE_FRAME : Z := 0xfffff000.
Definition MIPS_KSEG0 : Z := 0x80000000.
Definition USERSPACETOP : Z := MIPS_KSEG0.
Definition USERSTACK : Z := USERSPACETOP.
Definition STACKPAGES : Z := 18.
Definition PADDR_TO_KVADDR (paddr : Z) : Z := u32 (paddr + MIPS_KSEG0).

(** ** Error codes ([kern/include/kern/errno.h]) *)
Definition ENOSYS : Z := 1.
Definition ENOMEM : Z := 3.
Definition EAGAIN : Z := 4.
Definition EINTR : Z := 5.
Definition EFAULT : Z := 6.
Definition ENAMETOOLONG : Z := 7.
Definition EINVAL : Z := 8.
Definition EPERM : Z := 9.
Definition EACCES : Z := 10.
Definition EMPROC : Z := 11.
Definition ENPROC : Z := 12.
Definition ENOEXEC : Z := 13.
Definition E2BIG : Z := 14.
Definition ESRCH : Z := 15.
Definition ECHILD : Z := 16.
Definition ENOTDIR : Z := 17.
Definition EISDIR : Z := 18.
Definition ENOENT : Z := 19.
Definition ELOOP : Z := 20.
Definition ENOTEMPTY : Z := 21.
Definition EEXIST : Z := 22.
Definition EMLINK : Z := 23.
Definition EXDEV : Z := 24.
Definition ENODEV : Z := 25.
Definition ENXIO : Z := 26.
Definition EBUSY : Z := 27.
Definition EMFILE : Z := 28.
Definition ENFILE : Z := 29.
Definition EBADF : Z := 30.
Definition EIOCTL : Z := 31.
Definition EIO : Z := 32.
Definition ESPIPE : Z := 33.
Definition EPIPE : Z := 34.
Definition EROFS : Z := 35.
Definition ENOSPC : Z := 36.
Definition EDQUOT : Z := 37.
Definition EFBIG : Z := 38.
Definition EFTYPE : Z := 39.
Definition EDOM : Z := 40.
Definition ERANGE : Z := 41.
Definition EILSEQ : Z := 42.
Definition ENOTSOCK : Z := 43.
Definition EISSOCK : Z := 44.
Definition EISCONN : Z := 45.
Definition ENOTCONN : Z := 46.
Definition ESHUTDOWN : Z := 47.
Definition EPFNOSUPPORT : Z := 48.
Definition ESOCKTNOSUPPORT : Z := 49.
Definition EPROTONOSUPPORT : Z := 50.
Definition EPROTOTYPE : Z := 51.
Definition EAFNOSUPPORT : Z := 52.
Definition ENOPROTOOPT : Z := 53.
Definition EADDRINUSE : Z := 54.
Definition EADDRNOTAVAIL : Z := 55.
Definition ENETDOWN : Z := 56.
Definition ENETUNREACH : Z := 57.
Definition EHOSTDOWN : Z := 58.
Definition EHOSTUNREACH : Z := 59.
Definition ECONNREFUSED : Z := 60.
Definition ETIMEDOUT : Z := 61.
Definition ECONNRESET : Z := 62.
Definition EMSGSIZE : Z := 63.
Definition ENOTSUP : Z := 64.

(** Flags of [open] ([kern/fcntl.h]) *)
Definition O_RDONLY : Z := 0.
Definition O_ACCMODE : Z := 3.
Definition O_WRONLY : Z := 1.
Definition O_RDWR : Z := 2.
Definition O_CREAT : Z := 4.
Definition O_EXCL : Z := 8.
Definition O_TRUNC : Z := 16.
Definition O_APPEND : Z := 32.

(** ** Physical memory: one byte per physical address *)
Definition memory : Type := Z → Z.

Definition mem_read (m : memory) (a n : Z) : list Z := (λ i, m (a + i)) <$> seqZ 0 n.

Definition mem_write (m : memory) (a : Z) (bs : list Z) : memory := λ x,
  if decide (a ≤ x < a + Z.of_nat (length bs))
  then default 0 (bs !! Z.to_nat (x - a))
  else m x.

Lemma length_mem_read m a n : length (mem_read m a n) = Z.to_nat n.
Proof. unfold mem_read. by rewrite length_fmap, length_seqZ. Qed.

Lemma mem_read_ext m m' a n :
  (∀ x, a ≤ x < a + n → m x = m' x) → mem_read m a n = mem_read m' a n.
Proof.
  intros H. apply list_eq. intros i. unfold mem_read. rewrite !list_lookup_fmap.
  destruct (seqZ 0 n !! i) as [x|] eqn:E; [|done]. cbn. f_equal.
  apply lookup_seqZ in E. apply H. lia.
Qed.

Lemma mem_read_write m a bs :
  mem_read (mem_write m a bs) a (Z.of_nat (length bs)) = bs.
Proof.
  apply list_eq. intros i. unfold mem_read. rewrite list_lookup_fmap.
  destruct (seqZ 0 (Z.of_nat (length bs)) !! i) as [x|] eqn:E; cbn.
  - apply lookup_seqZ in E as [-> Hi]. unfold mem_write.
    rewrite decide_True by lia. rewrite Z.add_simpl_l.
    rewrite Z.add_0_l, Nat2Z.id. destruct (bs !! i) eqn:Eb; [done|].
    apply lookup_ge_None in Eb. lia.
  - symmetry. apply lookup_ge_None. apply lookup_ge_None in E.
    rewrite length_seqZ in E. lia.
Qed.

(** A write leaves every disjoint range alone. *)
Lemma mem_read_write_ne m a bs b n :
  b + n ≤ a ∨ a + Z.of_nat (length bs) ≤ b →
  mem_read (mem_write m a bs) b n = mem_read m b n.
Proof.
  intros H. apply mem_read_ext. intros x Hx. unfold mem_write.
  rewrite decide_False by lia. done.
Qed.

(** Content of the page frame that starts at [a]. *)
Definition page_at (m : memory) (a : Z) : list Z := mem_read m a PAGE_SIZE.

Lemma page_at_write m a bs :
  Z.of_nat (length bs) = PAGE_SIZE → page_at (mem_write m a bs) a = bs.
Proof. intros H. unfold page_at. rewrite <-H. apply mem_read_write. Qed.

(** New bytes at the start of a page; the rest of it stays. *)
Definition overlay (new old : list Z) : list Z := new ++ drop (length new) old.

Lemma length_overlay new old : (length new ≤ length old)%nat → length (overlay new old) = length old.
Proof. intros H. unfold overlay. rewrite length_app, length_drop. lia. Qed.

Lemma overlay_full new old : length new = length old → overlay new old = new.
Proof. intros H. unfold overlay. rewrite drop_ge by lia. apply app_nil_r. Qed.

Lemma page_at_write_part m a bs :
  Z.of_nat (length bs) ≤ PAGE_SIZE → page_at (mem_write m a bs) a = overlay bs (page_at m a).
Proof.
  intros H. unfold page_at, overlay, mem_read. apply list_eq. intros i. rewrite lookup_app, lookup_drop, !list_lookup_fmap.
  destruct (bs !! i) as [b|] eqn:Eb.
  - pose proof (lookup_lt_Some _ _ _ Eb). rewrite lookup_seqZ_lt by lia. cbn. unfold mem_write.
    rewrite decide_True by lia. rewrite Z.add_simpl_l, Z.add_0_l, Nat2Z.id. by rewrite Eb.
  - apply lookup_ge_None in Eb. replace (length bs + (i - length bs))%nat with i by lia.
    destruct (seqZ 0 PAGE_SIZE !! i) as [x|] eqn:E; [|done]. cbn. f_equal. apply lookup_seqZ in E as [-> Hi]. unfold mem_write.
    by rewrite decide_False by lia.
Qed.

(** Writing one whole frame leaves the other frames alone. *)
Lemma page_at_write_ne m i j bs :
  i ≠ j → Z.of_nat (length bs) ≤ PAGE_SIZE →
  page_at (mem_write m (i * PAGE_SIZE) bs) (j * PAGE_SIZE) = page_at m (j * PAGE_SIZE).
Proof. intros. apply mem_read_write_ne. unfold PAGE_SIZE in *. lia. Qed.

Lemma length_page_at m a : Z.of_nat (length (page_at m a)) = PAGE_SIZE.
Proof. unfold page_at. rewrite length_mem_read. done. Qed.

(** ** Page alignment *)
Definition aligned (a : Z) : Prop := a `mod` PAGE_SIZE = 0.

(** [a & PAGE_FRAME] rounds a 32-bit address down to its page. *)
Lemma land_PAGE_FRAME a :
  0 ≤ a < 2 ^ 32 → Z.land a PAGE_FRAME = a - a `mod` PAGE_SIZE.
Proof.
  intros Ha. change PAGE_FRAME with (Z.ldiff (Z.ones 32) (Z.ones 12)).
  assert (Z.land a (Z.ldiff (Z.ones 32) (Z.ones 12)) = Z.ldiff a (Z.ones 12)) as ->.
  { rewrite <-(Z.mod_small a (2 ^ 32)) at 2 by lia.
    rewrite <-Z.land_ones by lia. apply Z.bits_inj'. intros n Hn.
    rewrite !Z.land_spec, !Z.ldiff_spec, Z.land_spec.
    by destruct (Z.testbit a n), (Z.testbit (Z.ones 32) n). }
  rewrite Z.ldiff_ones_r by lia. rewrite Z.shiftl_mul_pow2, Z.shiftr_div_pow2 by lia.
  change PAGE_SIZE with (2 ^ 12). pose proof (Z.div_mod a (2 ^ 12)). lia.
Qed.

Lemma land_PAGE_FRAME_aligned a : 0 ≤ a < 2 ^ 32 → aligned (Z.land a PAGE_FRAME).
Proof.
  intros Ha. rewrite land_PAGE_FRAME by done. unfold aligned.
  by rewrite Zminus_mod_idemp_r, Z.sub_diag.
Qed.

Lemma land_PAGE_FRAME_id a : 0 ≤ a < 2 ^ 32 → aligned a → Z.land a PAGE_FRAME = a.
Proof. intros Ha Hal. rewrite land_PAGE_FRAME by done. unfold aligned in Hal. lia. Qed.

(** ** Words in bytes

    The processor is big-endian: the fields of structures that are read from or
    written to files and disks are found with these functions. *)

(** A [uint16_t] *)
Definition u16 (x : Z) : Z := x `mod` 2 ^ 16.
Lemma u16_range x : 0 ≤ u16 x < 2 ^ 16.
Proof. by apply Z.mod_pos_bound. Qed.
Lemma u16_id x : 0 ≤ x < 2 ^ 16 → u16 x = x.
Proof. apply Z.mod_small. Qed.

Definition byte_of (l : list Z) (i : nat) : Z := default 0 (l !! i).
Definition be16 (l : list Z) (i : nat) : Z := byte_of l i * 2 ^ 8 + byte_of l (i + 1).
Definition be32 (l : list Z) (i : nat) : Z := be16 l i * 2 ^ 16 + be16 l (i + 2).

Definition be16_bytes (z : Z) : list Z := [(z / 2 ^ 8) `mod` 256; z `mod` 256].
Definition be32_bytes (z : Z) : list Z := be16_bytes (z / 2 ^ 16) ++ be16_bytes (z `mod` (2 ^ 16)).

(** An array of [n] words, and its bytes *)
Definition words_of (n : nat) (l : list Z) : list Z := (λ i, be32 l (4 * i)) <$> seq 0 n.
Definition bytes_of (ws : list Z) : list Z := ws ≫= be32_bytes.

Lemma be16_bytes_value z l : 0 ≤ z < 2 ^ 16 → be16 (be16_bytes z ++ l) 0 = z.
Proof.
  intros Hz. unfold be16, be16_bytes, byte_of. cbn. pose proof (Z.div_mod z (2 ^ 8) ltac:(lia)). change (2 ^ 8) with 256 in *.
  rewrite (Z.mod_small (z / 256)); [lia|]. split; [apply Z.div_pos; lia|apply Z.div_lt_upper_bound; lia].
Qed.

Lemma byte_of_skip l1 l i : byte_of (l1 ++ l) (length l1 + i) = byte_of l i.
Proof. unfold byte_of. by rewrite lookup_app_r, Nat.add_comm, Nat.add_sub by lia. Qed.

Lemma be16_skip l1 l i : be16 (l1 ++ l) (length l1 + i) = be16 l i.
Proof. unfold be16. by rewrite <-Nat.add_assoc, !byte_of_skip. Qed.

Lemma be32_skip l1 l i : be32 (l1 ++ l) (length l1 + i) = be32 l i.
Proof. unfold be32. by rewrite <-Nat.add_assoc, !be16_skip. Qed.

Lemma be32_bytes_value z l : 0 ≤ z < 2 ^ 32 → be32 (be32_bytes z ++ l) 0 = z.
Proof.
  intros Hz. unfold be32, be32_bytes. rewrite <-app_assoc. change (0 + 2)%nat with (length (be16_bytes (z / 2 ^ 16)) + 0)%nat at 1.
  rewrite be16_skip, !be16_bytes_value; [pose proof (Z.div_mod z (2 ^ 16) ltac:(lia)); lia|by apply Z.mod_pos_bound|].
  split; [apply Z.div_pos; lia|apply Z.div_lt_upper_bound; lia].
Qed.

Lemma length_be32_bytes z : length (be32_bytes z) = 4%nat.
Proof. done. Qed.

Lemma length_words_of n l : length (words_of n l) = n.
Proof. unfold words_of. by rewrite length_fmap, length_seq. Qed.

Lemma length_bytes_of ws : length (bytes_of ws) = (4 * length ws)%nat.
Proof. unfold bytes_of. induction ws as [|w ws IH]; [done|]. rewrite bind_cons, length_app, IH, length_be32_bytes. cbn. lia. Qed.
#[export] Hint Rewrite length_words_of length_bytes_of length_be32_bytes : len.

(** The words of bytes of words *)
Lemma words_bytes ws l : Forall (λ w, 0 ≤ w < 2 ^ 32) ws → words_of (length ws) (bytes_of ws ++ l) = ws.
Proof.
  induction 1 as [|w ws Hw _ IH]; [done|]. unfold bytes_of, words_of in *. cbn [length seq]. rewrite bind_cons, <-app_assoc. cbn [fmap list_fmap].
  rewrite Nat.mul_0_r, be32_bytes_value by done. f_equal. rewrite <-fmap_S_seq, <-list_fmap_compose. rewrite <-IH at 2. apply list_fmap_ext.
  intros i x Hx. cbn [compose]. replace (4 * S x)%nat with (length (be32_bytes w) + 4 * x)%nat by (rewrite length_be32_bytes; lia). apply be32_skip.
Qed.
