(* ===== verification/Pt.v ===== *)
(** * The hashed inverted page table ([kern/vm/pt.c], [kern/include/pt.h])

    One [ptpage] per physical frame.  A [struct ptpage *] is [NULL] or points
    to an element of the table, so it is modelled as [option nat].  Collision
    lists ([next]) and the victim queue ([fifonext]) are threaded through the
    elements, as in the source; their termination and their shape are theorems
    about the representation predicate [pt_rep].

    The abstract specification is a queue of (key, frame) pairs in order of
    allocation, with a key the pair (pid, vaddr): [setptentry] enqueues,
    [freeuser] deletes by key, [getpageaddr] looks a key up.  Frame allocation
    is specified by a map of free frames, [free_map], and [getfreeframes] is
    first fit on it. *)

From S2P Require Import Prelude Machine.

(** ** Data *)

(** [struct ptpage] *)
Record ptpage : Type := mk_ptpage {
  pg_pid : Z;
  pg_vaddr : Z;
  pg_numpages : Z;
  pg_fifonext : option nat;
  pg_next : option nat
}.

(** The arrays and the two queue pointers the functions of pt.c receive. *)
Record ptst : Type := mk_ptst {
  pagetable : list ptpage;
  hashedpt : list (option nat);
  firstvictim : option nat;
  lastallocateduser : option nat
}.

Definition set_pagetable (v : list ptpage) (st : ptst) : ptst :=
  mk_ptst v (hashedpt st) (firstvictim st) (lastallocateduser st).
Definition set_hashedpt (v : list (option nat)) (st : ptst) : ptst :=
  mk_ptst (pagetable st) v (firstvictim st) (lastallocateduser st).
Definition set_firstvictim (v : option nat) (st : ptst) : ptst :=
  mk_ptst (pagetable st) (hashedpt st) v (lastallocateduser st).
Definition set_lastallocateduser (v : option nat) (st : ptst) : ptst :=
  mk_ptst (pagetable st) (hashedpt st) (firstvictim st) v.

Definition set_next (v : option nat) (pg : ptpage) : ptpage :=
  mk_ptpage (pg_pid pg) (pg_vaddr pg) (pg_numpages pg) (pg_fifonext pg) v.
Definition set_fifonext (v : option nat) (pg : ptpage) : ptpage :=
  mk_ptpage (pg_pid pg) (pg_vaddr pg) (pg_numpages pg) v (pg_next pg).

(** ** Memory accesses *)

(** [*p] for a [struct ptpage *] *)
Definition load_page (p : option nat) : M ptst ptpage :=
  i ← deref p;
  pt ← gets pagetable;
  deref (pt !! i).

(** [*(&pagetable[i]) = pg] *)
Definition store_page (i : nat) (pg : ptpage) : M ptst () :=
  pt ← gets pagetable;
  if decide (i < length pt)%nat
  then modify (set_pagetable (<[i := pg]> pt))
  else halt BadAccess.

(** [(vaddr|pid) % hashedptsize] *)
Definition hash_index (hashedptsize pid vaddr : Z) : M ptst nat :=
  if hashedptsize =? 0 then halt BadAccess
  else mret (Z.to_nat (Z.lor vaddr (u32 pid) `mod` hashedptsize)).

(** ** Operations *)

Definition gethashedentry (hashedptsize pid vaddr : Z) : M ptst (option nat) :=
  h ← hash_index hashedptsize pid vaddr;
  ht ← gets hashedpt;
  deref (ht !! h).

Definition sethashedptentry (hashedptsize pid vaddr : Z) (node : option nat) : M ptst () :=
  h ← hash_index hashedptsize pid vaddr;
  ht ← gets hashedpt;
  if decide (h < length ht)%nat
  then modify (set_hashedpt (<[h := node]> ht))
  else halt BadAccess.

Definition clearhashedptentry (hashedptsize pid vaddr : Z) : M ptst () :=
  sethashedptentry hashedptsize pid vaddr None.

(** The inner loop of [getfreeframes]: are [numpages] entries free from [i]?
    [j] is the running index. *)
Fixpoint getfreeframes_run (fuel : nat) (pt : list ptpage) (ptsize i numpages j : Z)
    : result bool :=
  match fuel with
  | O => Stop OutOfFuel
  | S fuel =>
      if j <? ptsize then
        match pt !! Z.to_nat j with
        | None => Stop BadAccess
        | Some pg =>
            if negb (pg_pid pg =? -1) then Ok false
            else if u32 (j - i + 1) =? numpages then Ok true
            else getfreeframes_run fuel pt ptsize i numpages (u32 (j + 1))
        end
      else Ok false
  end.

(** The outer loop: allocated blocks are skipped by their [numpages]. *)
Fixpoint getfreeframes_loop (fuel : nat) (pt : list ptpage) (ptsize numpages i : Z)
    : result Z :=
  match fuel with
  | O => Stop OutOfFuel
  | S fuel' =>
      if i <? ptsize then
        match pt !! Z.to_nat i with
        | None => Stop BadAccess
        | Some pg =>
            if pg_pid pg =? -1 then
              match getfreeframes_run fuel pt ptsize i numpages i with
              | Ok true => Ok (s32 i)
              | Ok false => getfreeframes_loop fuel' pt ptsize numpages (u32 (i + 1))
              | Stop e => Stop e
              end
            else if 0 <? pg_numpages pg then
              getfreeframes_loop fuel' pt ptsize numpages
                (u32 (u32 (i + (pg_numpages pg - 1)) + 1))
            else getfreeframes_loop fuel' pt ptsize numpages (u32 (i + 1))
        end
      else Ok (-1)
  end.

Definition getfreeframes (ptsize numpages : Z) : M ptst Z := λ st,
  match getfreeframes_loop (S (Z.to_nat ptsize)) (pagetable st) ptsize numpages 0 with
  | Ok i => Ok (i, st)
  | Stop e => Stop e
  end.

(** [for(n=hashednode;n;n=n->next) if(n->next==NULL){n->next=node;break;}] *)
Fixpoint append_next (fuel : nat) (n node : nat) : M ptst () :=
  match fuel with
  | O => halt OutOfFuel
  | S fuel =>
      pg ← load_page (Some n);
      match pg_next pg with
      | None => store_page n (set_next (Some node) pg)
      | Some n' => append_next fuel n' node
      end
  end.

Definition table_fuel (st : ptst) : nat := S (length (pagetable st)).

(** Hook [node] at the end of the collision list of (pid, vaddr). *)
Definition link_hashed (hashedptsize pid vaddr : Z) (node : nat) : M ptst () :=
  hashednode ← gethashedentry hashedptsize pid vaddr;
  match hashednode with
  | None => sethashedptentry hashedptsize pid vaddr (Some node)
  | Some n => fuel ← gets table_fuel; append_next fuel n node
  end.

(** Put [node] at the end of the victim queue. *)
Definition link_fifo (node : nat) : M ptst () :=
  last ← gets lastallocateduser;
  match last with
  | None => mret tt
  | Some l => pg ← load_page (Some l); store_page l (set_fifonext (Some node) pg)
  end ;;
  first ← gets firstvictim;
  match first with
  | None => modify (set_firstvictim (Some node))
  | Some _ => mret tt
  end ;;
  modify (set_lastallocateduser (Some node)).

Definition setptentry (hashedptsize index numpages pid vaddr : Z) : M ptst Z :=
  let node := Z.to_nat index in
  store_page node (mk_ptpage pid vaddr numpages None None) ;;
  (if 0 <? pid then
     link_hashed hashedptsize pid vaddr node ;;
     link_fifo node
   else mret tt) ;;
  mret 0.

(** Does the element hold the page (pid, vaddr)? *)
Definition holds (pid vaddr : Z) (pg : ptpage) : bool :=
  (pg_pid pg =? pid) && (pg_vaddr pg =? vaddr).

(** First loop of [freeuser]: find the element and unlink it from its
    collision list.  [node] is the cursor, [prec] the element before it. *)
Fixpoint unlink_next (fuel : nat) (pid vaddr : Z) (node prec : option nat)
    : M ptst (option nat) :=
  match fuel with
  | O => halt OutOfFuel
  | S fuel =>
      match node with
      | None => mret None
      | Some n =>
          pg ← load_page (Some n);
          if holds pid vaddr pg then
            match prec with
            | None => mret tt
            | Some p => ppg ← load_page (Some p); store_page p (set_next (pg_next pg) ppg)
            end ;;
            mret (Some n)
          else unlink_next fuel pid vaddr (pg_next pg) (Some n)
      end
  end.

(** Second loop of [freeuser]: unlink the successor that holds (pid, vaddr)
    from the victim queue.  The test reads [node->fifonext->pid], an invalid
    access when [node] is the last element. *)
Fixpoint unlink_fifonext (fuel : nat) (pid vaddr : Z) (node : option nat) : M ptst () :=
  match fuel with
  | O => halt OutOfFuel
  | S fuel =>
      match node with
      | None => mret tt
      | Some n =>
          pg ← load_page (Some n);
          npg ← load_page (pg_fifonext pg);
          if holds pid vaddr npg
          then store_page n (set_fifonext (pg_fifonext npg) pg)
          else unlink_fifonext fuel pid vaddr (pg_fifonext pg)
      end
  end.

(** Third loop of [freeuser]: the last element of the victim queue. *)
Fixpoint find_fifo_last (fuel : nat) (node : option nat) : M ptst () :=
  match fuel with
  | O => halt OutOfFuel
  | S fuel =>
      match node with
      | None => mret tt
      | Some n =>
          pg ← load_page (Some n);
          match pg_fifonext pg with
          | None => modify (set_lastallocateduser (Some n))
          | Some n' => find_fifo_last fuel (Some n')
          end
      end
  end.

(** Take [n] out of the victim queue. *)
Definition unlink_fifo (fuel : nat) (pid vaddr : Z) (n : nat) : M ptst () :=
  first ← gets firstvictim;
  if decide (first ≠ Some n) then unlink_fifonext fuel pid vaddr first
  else pg ← load_page (Some n); modify (set_firstvictim (pg_fifonext pg)).

(** Repair [lastallocateduser] when [n] was the last of the queue. *)
Definition fix_lastallocateduser (fuel : nat) (n : nat) : M ptst () :=
  last ← gets lastallocateduser;
  if decide (last = Some n) then
    first ← gets firstvictim;
    match first with
    | None => modify (set_lastallocateduser None)
    | Some _ => find_fifo_last fuel first
    end
  else mret tt.

(** Take the page (pid, vaddr) out of its collision list, and out of the hash
    table when it was the first there. *)
Definition unlink_hashed (fuel : nat) (hashedptsize pid vaddr : Z) : M ptst (option nat) :=
  hashedentry ← gethashedentry hashedptsize pid vaddr;
  nodetoremove ← unlink_next fuel pid vaddr hashedentry None;
  match nodetoremove with
  | None => mret None
  | Some n =>
      (if decide (hashedentry = Some n) then
         pg ← load_page (Some n);
         sethashedptentry hashedptsize pid vaddr (pg_next pg)
       else mret tt) ;;
      mret (Some n)
  end.

Definition freeuser (hashedptsize pid vaddr : Z) : M ptst Z :=
  fuel ← gets table_fuel;
  nodetoremove ← unlink_hashed fuel hashedptsize pid vaddr;
  match nodetoremove with
  | None => mret (-1)
  | Some n =>
      unlink_fifo fuel pid vaddr n ;;
      fix_lastallocateduser fuel n ;;
      pg ← load_page (Some n);
      store_page n (mk_ptpage (-1) (pg_vaddr pg) 0 None None) ;;
      mret 0
  end.

Definition freekernel (index : Z) : M ptst Z :=
  pg ← load_page (Some (Z.to_nat index));
  store_page (Z.to_nat index) (mk_ptpage (-1) (pg_vaddr pg) 0 None None) ;;
  mret 0.

(** The search loop of [getpageaddr] *)
Fixpoint getpageaddr_loop (fuel : nat) (pid vaddr : Z) (node : option nat) : M ptst Z :=
  match fuel with
  | O => halt OutOfFuel
  | S fuel =>
      match node with
      | None => mret 0
      | Some n =>
          pg ← load_page (Some n);
          if holds pid vaddr pg then mret (u32 (Z.of_nat n * PAGE_SIZE))
          else getpageaddr_loop fuel pid vaddr (pg_next pg)
      end
  end.

Definition getpageaddr (hashedptsize pid vaddr : Z) : M ptst Z :=
  hashedentry ← gethashedentry hashedptsize pid vaddr;
  match hashedentry with
  | None => mret 0
  | Some _ => fuel ← gets table_fuel; getpageaddr_loop fuel pid vaddr hashedentry
  end.

(** ** Lists threaded through the table

    The two link fields share one theory: a [Link] is a pointer field with its
    update. *)
Class Link (get : ptpage → option nat) (set : option nat → ptpage → ptpage) : Prop := {
  link_get_set v pg : get (set v pg) = v;
  link_pid v pg : pg_pid (set v pg) = pg_pid pg;
  link_vaddr v pg : pg_vaddr (set v pg) = pg_vaddr pg;
  link_numpages v pg : pg_numpages (set v pg) = pg_numpages pg
}.
#[export] Instance next_link : Link pg_next set_next.
Proof. by split. Qed.
#[export] Instance fifonext_link : Link pg_fifonext set_fifonext.
Proof. by split. Qed.

(** [chain get pt p l]: from pointer [p], following [get], the elements of the
    list are [l] and the last one points to [NULL]. *)
Fixpoint chain (get : ptpage → option nat) (pt : list ptpage) (p : option nat)
    (l : list nat) : Prop :=
  match l with
  | [] => p = None
  | i :: l' => p = Some i ∧ ∃ pg, pt !! i = Some pg ∧ chain get pt (get pg) l'
  end.

Section chain.
Context (get : ptpage → option nat).
Implicit Types (pt : list ptpage) (l : list nat).

Lemma chain_det pt p l1 l2 : chain get pt p l1 → chain get pt p l2 → l1 = l2.
Proof.
  revert p l2. induction l1 as [|i l1 IH]; intros p [|j l2]; cbn; [done|naive_solver..|].
  intros (-> & pg & Hi & Hc) ([= <-] & pg' & Hi' & Hc').
  simplify_eq. f_equal. eauto.
Qed.

Lemma chain_split pt p l1 i l2 :
  chain get pt p (l1 ++ i :: l2) → ∃ pg, pt !! i = Some pg ∧ chain get pt (get pg) l2.
Proof. revert p. induction l1 as [|j l1 IH]; cbn; naive_solver. Qed.

Lemma chain_lookup pt p l i : chain get pt p l → i ∈ l → ∃ pg, pt !! i = Some pg.
Proof.
  intros Hc (l1 & l2 & ->)%list_elem_of_split.
  apply chain_split in Hc as (pg & ? & _). eauto.
Qed.

(** An element that occurred twice would start two different lists. *)
Lemma chain_nodup pt p l : chain get pt p l → NoDup l.
Proof.
  revert p. induction l as [|i l IH]; intros p; cbn; [constructor|].
  intros (-> & pg & Hi & Hc). constructor; [|by eapply IH].
  intros (l1 & l2 & ->)%list_elem_of_split.
  apply chain_split in Hc as Hs. destruct Hs as (pg' & Hi' & Hc2). simplify_eq.
  pose proof (chain_det _ _ _ _ Hc Hc2) as Heq.
  apply (f_equal length) in Heq. rewrite length_app in Heq. cbn in Heq. lia.
Qed.

Lemma chain_length pt p l : chain get pt p l → (length l ≤ length pt)%nat.
Proof.
  intros Hc. pose proof (chain_nodup _ _ _ Hc) as Hnd.
  rewrite <-(length_seq (length pt) 0). apply submseteq_length.
  apply NoDup_submseteq; [done|]. intros i Hi.
  destruct (chain_lookup _ _ _ _ Hc Hi) as [pg Hpg].
  apply elem_of_seq. apply lookup_lt_Some in Hpg. lia.
Qed.

(** Changing elements outside the list, or not their link, keeps it. *)
Lemma chain_insert pt p l i pg' :
  chain get pt p l →
  (∀ pg, i ∈ l → pt !! i = Some pg → get pg' = get pg) →
  chain get (<[i := pg']> pt) p l.
Proof.
  revert p. induction l as [|j l IH]; intros p; cbn; [done|].
  intros (-> & pg & Hj & Hc) Hg. split; [done|].
  assert (chain get (<[i:=pg']> pt) (get pg) l) as Hc'.
  { apply IH; [done|]. intros pg0 Hin. apply Hg. set_solver. }
  destruct (decide (i = j)) as [->|Hne].
  - exists pg'. rewrite list_lookup_insert_eq by (by eapply lookup_lt_Some).
    split; [done|]. rewrite (Hg pg) by (set_solver || done). done.
  - exists pg. by rewrite list_lookup_insert_ne.
Qed.

Lemma chain_agree pt pt' p l :
  (∀ i, i ∈ l → pt' !! i = pt !! i) → chain get pt p l → chain get pt' p l.
Proof.
  revert p. induction l as [|j l IH]; intros p Hag; cbn; [done|].
  intros (-> & pg & Hj & Hc). split; [done|]. exists pg. split.
  - rewrite Hag by set_solver. done.
  - apply IH; [|done]. intros i Hi. apply Hag. set_solver.
Qed.

Lemma chain_insert_out pt p l i pg' :
  chain get pt p l → i ∉ l → chain get (<[i := pg']> pt) p l.
Proof. intros. apply chain_insert; naive_solver. Qed.

Lemma chain_app_inv pt p l1 l2 :
  chain get pt p (l1 ++ l2) →
  match last l1 with
  | None => chain get pt p l2
  | Some i => ∃ pg, pt !! i = Some pg ∧ chain get pt (get pg) l2
  end.
Proof.
  destruct l1 as [|i l1 _] using rev_ind; [done|].
  rewrite last_snoc, <-app_assoc. cbn. apply chain_split.
Qed.

Context {set : option nat → ptpage → ptpage} `{!Link get set}.

(** Pointing the last element of a prefix at the head of another list. *)
Lemma chain_relink pt p l1 i pg l2 q l3 :
  chain get pt p (l1 ++ i :: l2) →
  pt !! i = Some pg →
  chain get pt q l3 → i ∉ l3 →
  chain get (<[i := set q pg]> pt) p (l1 ++ i :: l3).
Proof.
  intros Hc Hi Hq Hni. pose proof (chain_nodup _ _ _ Hc) as Hnd.
  apply NoDup_app in Hnd as (_ & Hdis & _). revert p Hc.
  induction l1 as [|j l1 IH]; intros p; cbn.
  - intros (-> & _). split; [done|]. exists (set q pg).
    rewrite list_lookup_insert_eq by (by eapply lookup_lt_Some).
    split; [done|]. rewrite link_get_set. by apply chain_insert_out.
  - intros (-> & pgj & Hj & Hc). split; [done|].
    assert (i ≠ j) by (intros ->; apply (Hdis j); set_solver).
    exists pgj. rewrite list_lookup_insert_ne by done. split; [done|].
    apply IH; [|done]. intros x Hx. apply Hdis. set_solver.
Qed.

(** Unlinking an element that is not the first. *)
Lemma chain_unlink pt p l1 j pgj i pgi l2 :
  chain get pt p (l1 ++ j :: i :: l2) →
  pt !! j = Some pgj → pt !! i = Some pgi →
  chain get (<[j := set (get pgi) pgj]> pt) p (l1 ++ j :: l2).
Proof.
  intros Hc Hj Hi. pose proof (chain_nodup _ _ _ Hc) as Hnd.
  eapply chain_relink; [done|done| |].
  - destruct (chain_split pt p (l1 ++ [j]) i l2) as (pg & Hpg & ?);
      [by rewrite <-app_assoc|]. by simplify_eq.
  - apply NoDup_app in Hnd as (_ & _ & Hnd).
    apply NoDup_cons in Hnd as [Hnd _]. set_solver.
Qed.
End chain.

(** ** The loops terminate, and what they do *)

Lemma load_page_ok st i pg :
  pagetable st !! i = Some pg → load_page (Some i) st = Ok (pg, st).
Proof.
  intros Hi. change (deref (pagetable st !! i) st = Ok (pg, st)). by rewrite Hi.
Qed.

Lemma store_page_ok st i pg :
  (i < length (pagetable st))%nat →
  store_page i pg st = Ok (tt, set_pagetable (<[i := pg]> (pagetable st)) st).
Proof. intros Hi. unfold store_page. mred. by rewrite decide_True. Qed.


Lemma append_next_ok fuel st n node l t pgt :
  chain pg_next (pagetable st) (Some n) l → (length l ≤ fuel)%nat →
  last l = Some t → pagetable st !! t = Some pgt →
  append_next fuel n node st =
    Ok (tt, set_pagetable (<[t := set_next (Some node) pgt]> (pagetable st)) st).
Proof.
  revert n l. induction fuel as [|fuel IH]; intros n [|i l]; cbn [length last]; try (done || lia).
  intros (Hn & pg & Hi & Hc) Hf Hl Ht. injection Hn as ->. cbn [append_next].
  run_with (load_page_ok st i pg Hi).
  destruct l as [|j l].
  - cbn in Hc. rewrite Hc. cbn in Hl. simplify_eq.
    apply store_page_ok. by eapply lookup_lt_Some.
  - pose proof Hc as [Hj _]. rewrite Hj.
    apply IH with (j :: l); [by rewrite <-Hj|cbn in *; lia|by rewrite last_cons_cons in Hl|done].
Qed.

Section search.
Context (pid vaddr : Z).

(** No element of [l] holds the page. *)
Definition none_holds (pt : list ptpage) (l : list nat) : Prop :=
  ∀ i pg, i ∈ l → pt !! i = Some pg → holds pid vaddr pg = false.

Lemma none_holds_cons pt i l :
  none_holds pt (i :: l) → none_holds pt l.
Proof. intros H j pg Hj. apply H. set_solver. Qed.

Lemma unlink_next_absent fuel st p prec l :
  chain pg_next (pagetable st) p l → (length l < fuel)%nat →
  none_holds (pagetable st) l →
  unlink_next fuel pid vaddr p prec st = Ok (None, st).
Proof.
  revert p prec l. induction fuel as [|fuel IH]; intros p prec [|i l]; cbn [length]; try lia.
  { intros Hp. cbn in Hp. by subst. }
  intros (-> & pg & Hi & Hc) Hf Hn. cbn [unlink_next].
  run_with (load_page_ok st i pg Hi). rewrite (Hn i pg) by (set_solver || done).
  apply IH with l; [done|lia|by eapply none_holds_cons].
Qed.

Lemma unlink_next_found fuel st p prec l1 i pgi l2 :
  chain pg_next (pagetable st) p (l1 ++ i :: l2) → (length l1 < fuel)%nat →
  none_holds (pagetable st) l1 →
  pagetable st !! i = Some pgi → holds pid vaddr pgi = true →
  (∀ j, prec = Some j → ∃ pgj, pagetable st !! j = Some pgj) →
  unlink_next fuel pid vaddr p prec st =
    Ok (Some i,
      match match last l1 with Some j => Some j | None => prec end with
      | None => st
      | Some j => set_pagetable (alter (set_next (pg_next pgi)) j (pagetable st)) st
      end).
Proof.
  revert p prec l1. induction fuel as [|fuel IH]; intros p prec [|j l1]; cbn [length]; try lia.
  - intros (-> & pg & Hi & Hc) Hf Hn Hi' Hh Hprec. simplify_eq. cbn [unlink_next last].
    run_with (load_page_ok st i pg Hi). rewrite Hh. destruct prec as [j|]; [|done].
    destruct (Hprec j eq_refl) as [pgj Hj].
    rewrite (bind_ok _ _ _ tt
      (set_pagetable (alter (set_next (pg_next pg)) j (pagetable st)) st)); [done|].
    run_with (load_page_ok st j pgj Hj).
    rewrite store_page_ok by (by eapply lookup_lt_Some).
    by erewrite list_alter_as_insert.
  - intros (-> & pg & Hj & Hc) Hf Hn Hi Hh Hprec. cbn [unlink_next].
    run_with (load_page_ok st j pg Hj). rewrite (Hn j pg) by (set_solver || done).
    rewrite (IH _ _ l1) by
      (done || lia || (by eapply none_holds_cons) || (intros ? [= <-]; eauto)).
    f_equal. f_equal. by destruct l1 as [|k l1 _] using rev_ind;
      [|rewrite app_comm_cons, !last_snoc].
Qed.

Lemma unlink_fifonext_ok fuel st p l1 j pgj i pgi l2 :
  chain pg_fifonext (pagetable st) p (l1 ++ j :: i :: l2) → (length l1 < fuel)%nat →
  none_holds (pagetable st) (l1 ++ [j]) →
  pagetable st !! j = Some pgj →
  pagetable st !! i = Some pgi → holds pid vaddr pgi = true →
  unlink_fifonext fuel pid vaddr p st =
    Ok (tt, set_pagetable (<[j := set_fifonext (pg_fifonext pgi) pgj]> (pagetable st)) st).
Proof.
  revert p l1. induction fuel as [|fuel IH]; intros p [|k l1]; cbn [length]; try lia.
  - intros (-> & pg & Hj & Hnext & pg' & Hi & _) Hf Hn Hj' Hi' Hh. simplify_eq.
    cbn [unlink_fifonext]. run_with (load_page_ok st j pg Hj). rewrite Hnext.
    run_with (load_page_ok st i pg' Hi). rewrite Hh.
    apply store_page_ok. by eapply lookup_lt_Some.
  - intros (-> & pg & Hk & Hc) Hf Hn Hj Hi Hh. cbn [unlink_fifonext].
    run_with (load_page_ok st k pg Hk).
    assert (∃ k', pg_fifonext pg = Some k' ∧ k' ∈ l1 ++ [j]) as (k' & Hk' & Hin).
    { destruct l1 as [|k' l1]; destruct Hc as [-> _]; eexists; (split; [done|set_solver]). }
    destruct (chain_lookup _ _ _ _ k' Hc) as [pgk' Hpgk'].
    { apply elem_of_app. apply elem_of_app in Hin. set_solver. }
    rewrite Hk'. run_with (load_page_ok st k' pgk' Hpgk').
    rewrite (Hn k' pgk') by (set_solver || done). rewrite <-Hk'.
    apply IH with l1; try done; [lia|]. intros x pgx Hx. apply Hn. set_solver.
Qed.

Lemma getpageaddr_loop_absent fuel st p l :
  chain pg_next (pagetable st) p l → (length l < fuel)%nat →
  none_holds (pagetable st) l →
  getpageaddr_loop fuel pid vaddr p st = Ok (0, st).
Proof.
  revert p l. induction fuel as [|fuel IH]; intros p [|i l]; cbn [length]; try lia.
  { intros Hp. cbn in Hp. by subst. }
  intros (-> & pg & Hi & Hc) Hf Hn. cbn [getpageaddr_loop].
  run_with (load_page_ok st i pg Hi). rewrite (Hn i pg) by (set_solver || done).
  apply IH with l; [done|lia|by eapply none_holds_cons].
Qed.

Lemma getpageaddr_loop_found fuel st p l1 i pgi l2 :
  chain pg_next (pagetable st) p (l1 ++ i :: l2) → (length l1 < fuel)%nat →
  none_holds (pagetable st) l1 →
  pagetable st !! i = Some pgi → holds pid vaddr pgi = true →
  getpageaddr_loop fuel pid vaddr p st = Ok (u32 (Z.of_nat i * PAGE_SIZE), st).
Proof.
  revert p l1. induction fuel as [|fuel IH]; intros p [|j l1]; cbn [length]; try lia.
  - intros (-> & pg & Hi & Hc) Hf Hn Hi' Hh. simplify_eq. cbn [getpageaddr_loop].
    run_with (load_page_ok st i pg Hi). by rewrite Hh.
  - intros (-> & pg & Hj & Hc) Hf Hn Hi Hh. cbn [getpageaddr_loop].
    run_with (load_page_ok st j pg Hj). rewrite (Hn j pg) by (set_solver || done).
    apply IH with l1; (done || lia || by eapply none_holds_cons).
Qed.
End search.

Lemma find_fifo_last_ok fuel st p l t :
  chain pg_fifonext (pagetable st) p l → (length l < fuel)%nat → last l = Some t →
  find_fifo_last fuel p st = Ok (tt, set_lastallocateduser (Some t) st).
Proof.
  revert p l. induction fuel as [|fuel IH]; intros p [|i l]; cbn [length last]; try (done || lia).
  intros (-> & pg & Hi & Hc) Hf Hl. cbn [find_fifo_last].
  run_with (load_page_ok st i pg Hi). destruct l as [|j l].
  - cbn in Hc. rewrite Hc. cbn in Hl. by simplify_eq.
  - pose proof Hc as [Hj _]. rewrite Hj. apply IH with (j :: l);
      [by rewrite <-Hj|cbn in *; lia|done].
Qed.
