(* ===== verification/PtSpec.v ===== *)
(** * Correctness of the page table ([kern/vm/pt.c])

    The abstract state of the table is the queue [q] of the resident user
    pages, oldest first: a list of (key, frame) pairs with distinct keys.
    [pt_rep] relates it to the table, its collision lists and its victim
    queue, and each operation of [Pt] is shown to implement the operation on
    [q].  The second half specifies frame allocation by [free_map]. *)

From S2P Require Import Prelude Machine Pt.

(** ** Keys and the abstract queue *)

Abbreviation key := (Z * Z)%type.
Abbreviation queue := (list (key * nat)).

Definition pg_key (pg : ptpage) : key := (pg_pid pg, pg_vaddr pg).

Definition bucket_of (hsz : Z) (k : key) : nat :=
  Z.to_nat (Z.lor k.2 (u32 k.1) `mod` hsz).

Fixpoint q_lookup (k : key) (q : queue) : option nat :=
  match q with
  | [] => None
  | (k', i) :: q' => if decide (k' = k) then Some i else q_lookup k q'
  end.

Definition q_remove (k : key) (q : queue) : queue := filter (λ e, e.1 ≠ k) q.

(** What [setptentry] stores that no link update changes. *)
Definition pg_hdr (pg : ptpage) : Z * Z * Z := (pg_pid pg, pg_vaddr pg, pg_numpages pg).

(** The entries of [q] are the user pages of the table. *)
Definition hdr_ok (hdrs : list (Z * Z * Z)) (q : queue) : Prop :=
  (∀ k i, (k, i) ∈ q → 0 < k.1 ∧ ∃ n, hdrs !! i = Some (k.1, k.2, n)) ∧
  (∀ i p v n, hdrs !! i = Some (p, v, n) → 0 < p → ((p, v), i) ∈ q).

Record pt_rep (hsz : Z) (st : ptst) (bkt : nat → list nat) (q : queue) : Prop := {
  rep_hsz : 0 < hsz;
  rep_hlen : length (hashedpt st) = Z.to_nat hsz;
  rep_bkt h p : hashedpt st !! h = Some p → chain pg_next (pagetable st) p (bkt h);
  rep_fifo : chain pg_fifonext (pagetable st) (firstvictim st) q.*2;
  rep_last : lastallocateduser st = last q.*2;
  rep_keys : NoDup q.*1;
  rep_hdr : hdr_ok (pg_hdr <$> pagetable st) q;
  rep_in_bkt k i : (k, i) ∈ q → i ∈ bkt (bucket_of hsz k);
  rep_bkt_in h i : (h < length (hashedpt st))%nat → i ∈ bkt h →
    ∃ k, (k, i) ∈ q ∧ bucket_of hsz k = h
}.

(** The table implements the queue [q]. *)
Definition pt_refines (hsz : Z) (st : ptst) (q : queue) : Prop :=
  ∃ bkt, pt_rep hsz st bkt q.

(** ** Facts about the abstract queue *)

Section queue.
Implicit Types (q : queue) (k : key).

Lemma q_lookup_Some k i q : NoDup q.*1 → q_lookup k q = Some i ↔ (k, i) ∈ q.
Proof.
  induction q as [|[k' j] q IH]; cbn [q_lookup fmap list_fmap]; [set_solver|].
  intros [Hni Hnd]%NoDup_cons. rewrite elem_of_cons. case_decide as Hk.
  - subst. split; [naive_solver|]. intros [[= ->]|Hin]; [done|].
    exfalso. apply Hni. apply list_elem_of_fmap. by exists (k, i).
  - rewrite IH by done. naive_solver.
Qed.

Lemma q_lookup_None k q : q_lookup k q = None ↔ k ∉ q.*1.
Proof.
  induction q as [|[k' j] q IH]; cbn [q_lookup fmap list_fmap]; [set_solver|].
  rewrite not_elem_of_cons. case_decide; naive_solver.
Qed.

Lemma q_remove_None k q : k ∉ q.*1 → q_remove k q = q.
Proof.
  intros Hk. unfold q_remove.
  induction q as [|[k' j] q IH]; [done|]. cbn in Hk. apply not_elem_of_cons in Hk as [? ?].
  rewrite filter_cons_True by (cbn; congruence). by rewrite IH.
Qed.

Lemma q_remove_split k i q1 q2 :
  NoDup (q1 ++ (k, i) :: q2).*1 → q_remove k (q1 ++ (k, i) :: q2) = q1 ++ q2.
Proof.
  rewrite fmap_app. cbn. intros (_ & Hdis & [Hni _]%NoDup_cons)%NoDup_app.
  unfold q_remove. rewrite filter_app. rewrite filter_cons_False by (cbn; naive_solver).
  f_equal; apply q_remove_None; [|done]. intros Hin. apply (Hdis k); set_solver.
Qed.
End queue.

Lemma holds_spec pid vaddr pg : holds pid vaddr pg = true ↔ pg_key pg = (pid, vaddr).
Proof.
  unfold holds, pg_key. rewrite andb_true_iff, !Z.eqb_eq. naive_solver.
Qed.

(** ** Link updates change nothing but the link *)

Section strip.
Context {A : Type} (f : ptpage → A).
Implicit Types (pt : list ptpage) (i : nat).

Lemma fmap_insert_same pt i pg pg' :
  pt !! i = Some pg → f pg' = f pg → f <$> <[i := pg']> pt = f <$> pt.
Proof.
  intros Hi Hf. rewrite list_fmap_insert, Hf. apply list_insert_id.
  by rewrite list_lookup_fmap, Hi.
Qed.

Lemma fmap_same_lookup pt pt' i pg :
  f <$> pt' = f <$> pt → pt !! i = Some pg → ∃ pg', pt' !! i = Some pg' ∧ f pg' = f pg.
Proof.
  intros Heq Hi. apply (f_equal (lookup i)) in Heq. rewrite !list_lookup_fmap, Hi in Heq.
  destruct (pt' !! i) as [pg'|]; naive_solver.
Qed.
End strip.

(** A list only depends on the links of its elements. *)
Lemma chain_same {A} (get : ptpage → option nat) (f : ptpage → A) (pt pt' : list ptpage) p l :
  (∀ pg pg', f pg = f pg' → get pg = get pg') →
  f <$> pt' = f <$> pt → chain get pt p l → chain get pt' p l.
Proof.
  intros Hget Heq. revert p. induction l as [|i l IH]; intros p; cbn; [done|].
  intros (-> & pg & Hi & Hc). split; [done|].
  destruct (fmap_same_lookup f pt pt' i pg Heq Hi) as (pg' & Hi' & Hf).
  exists pg'. split; [done|]. apply IH. by rewrite (Hget _ _ Hf).
Qed.

(** Everything but [next], and everything but [fifonext]. *)
Definition sans_next (pg : ptpage) := (pg_hdr pg, pg_fifonext pg).
Definition sans_fifo (pg : ptpage) := (pg_hdr pg, pg_next pg).

Lemma hdr_sans_next (pt pt' : list ptpage) :
  sans_next <$> pt' = sans_next <$> pt → pg_hdr <$> pt' = pg_hdr <$> pt.
Proof.
  intros H. apply (f_equal (fmap fst)) in H. by rewrite <-!list_fmap_compose in H.
Qed.
Lemma hdr_sans_fifo (pt pt' : list ptpage) :
  sans_fifo <$> pt' = sans_fifo <$> pt → pg_hdr <$> pt' = pg_hdr <$> pt.
Proof.
  intros H. apply (f_equal (fmap fst)) in H. by rewrite <-!list_fmap_compose in H.
Qed.

(** ** Consequences of the representation *)

Lemma rep_entry hsz st bkt q (R : pt_rep hsz st bkt q) k i :
  (k, i) ∈ q → ∃ pg, pagetable st !! i = Some pg ∧ pg_key pg = k ∧ 0 < k.1.
Proof.
  intros Hin. destruct (rep_hdr _ _ _ _ R) as [H _].
  destruct (H k i Hin) as (Hpos & n & Hn). rewrite list_lookup_fmap in Hn.
  destruct (pagetable st !! i) as [pg|]; [|done]. exists pg. split; [done|].
  split; [|done]. destruct k as [p v]. unfold pg_hdr in Hn. cbn in Hn. by injection Hn as <- <- _.
Qed.

Lemma rep_user hsz st bkt q (R : pt_rep hsz st bkt q) i pg :
  pagetable st !! i = Some pg → 0 < pg_pid pg → (pg_key pg, i) ∈ q.
Proof.
  intros Hi Hpos. destruct (rep_hdr _ _ _ _ R) as [_ H].
  apply (H i _ _ (pg_numpages pg)); [|done]. by rewrite list_lookup_fmap, Hi.
Qed.

Lemma bucket_lt hsz k : 0 < hsz → (bucket_of hsz k < Z.to_nat hsz)%nat.
Proof.
  intros H. unfold bucket_of. pose proof (Z.mod_pos_bound (Z.lor k.2 (u32 k.1)) hsz H). lia.
Qed.

Lemma hash_index_ok hsz pid vaddr st :
  0 < hsz → hash_index hsz pid vaddr st = Ok (bucket_of hsz (pid, vaddr), st).
Proof. intros H. unfold hash_index. by rewrite (proj2 (Z.eqb_neq hsz 0)) by lia. Qed.

Lemma gethashedentry_eq hsz pid vaddr st p :
  0 < hsz → hashedpt st !! bucket_of hsz (pid, vaddr) = Some p →
  gethashedentry hsz pid vaddr st = Ok (p, st).
Proof.
  intros H Hp. unfold gethashedentry. run_with (hash_index_ok hsz pid vaddr st H).
  change (deref (hashedpt st !! bucket_of hsz (pid, vaddr)) st = Ok (p, st)). by rewrite Hp.
Qed.

Lemma sethashedptentry_eq hsz pid vaddr node st :
  0 < hsz → (bucket_of hsz (pid, vaddr) < length (hashedpt st))%nat →
  sethashedptentry hsz pid vaddr node st =
    Ok (tt, set_hashedpt (<[bucket_of hsz (pid, vaddr) := node]> (hashedpt st)) st).
Proof.
  intros H Hlt. unfold sethashedptentry. run_with (hash_index_ok hsz pid vaddr st H).
  mred. by rewrite decide_True.
Qed.

Section rep.
Context (hsz : Z) (st : ptst) (bkt : nat → list nat) (q : queue).
Context (R : pt_rep hsz st bkt q).

Lemma rep_bucket_lt k : (bucket_of hsz k < length (hashedpt st))%nat.
Proof. rewrite (rep_hlen _ _ _ _ R). apply bucket_lt, R. Qed.

Lemma rep_head k :
  ∃ p, hashedpt st !! bucket_of hsz k = Some p ∧
       chain pg_next (pagetable st) p (bkt (bucket_of hsz k)).
Proof.
  destruct (lookup_lt_is_Some_2 _ _ (rep_bucket_lt k)) as [p Hp].
  exists p. split; [done|]. by apply (rep_bkt _ _ _ _ R).
Qed.

Lemma rep_key_fun k i j : (k, i) ∈ q → (k, j) ∈ q → i = j.
Proof.
  intros Hi Hj. apply q_lookup_Some in Hi; [|apply R]. apply q_lookup_Some in Hj; [|apply R].
  congruence.
Qed.

Lemma rep_frame_fun k k' i : (k, i) ∈ q → (k', i) ∈ q → k = k'.
Proof.
  intros H1 H2. apply (rep_entry _ _ _ _ R) in H1 as (? & ? & ? & _).
  apply (rep_entry _ _ _ _ R) in H2 as (? & ? & ? & _). congruence.
Qed.

Lemma rep_fifo_iff i pg :
  pagetable st !! i = Some pg → (i ∈ q.*2 ↔ 0 < pg_pid pg).
Proof.
  intros Hi. rewrite list_elem_of_fmap. split.
  - intros ([k j] & -> & Hin). apply (rep_entry _ _ _ _ R) in Hin as (? & ? & <- & ?).
    cbn in *. by simplify_eq.
  - intros Hpos. exists (pg_key pg, i). split; [done|]. by apply (rep_user _ _ _ _ R).
Qed.

Lemma rep_free_out i pg h :
  pagetable st !! i = Some pg → pg_pid pg ≤ 0 → (h < length (hashedpt st))%nat →
  (i ∉ q.*2) ∧ (i ∉ bkt h).
Proof.
  intros Hi Hpid Hh. assert (i ∉ q.*2) as Hq by (rewrite rep_fifo_iff by done; lia).
  split; [done|]. intros (k & Hin & _)%(rep_bkt_in _ _ _ _ R); [|done].
  apply Hq, list_elem_of_fmap. by exists (k, i).
Qed.

Lemma rep_disjoint h h' i :
  (h < length (hashedpt st))%nat → (h' < length (hashedpt st))%nat →
  i ∈ bkt h → i ∈ bkt h' → h = h'.
Proof.
  intros Hh Hh' (k & Hk & <-)%(rep_bkt_in _ _ _ _ R) (k' & Hk' & <-)%(rep_bkt_in _ _ _ _ R);
    [|done..]. by rewrite (rep_frame_fun k k' i).
Qed.

(** A page that the collision list of its bucket holds is in the queue. *)
Lemma rep_holds pid vaddr h i pg :
  (h < length (hashedpt st))%nat → i ∈ bkt h → pagetable st !! i = Some pg →
  holds pid vaddr pg = true → ((pid, vaddr), i) ∈ q.
Proof.
  intros Hh Hin Hi Hk%holds_spec. apply (rep_bkt_in _ _ _ _ R) in Hin as (k & Hin & _); [|done].
  pose proof Hin as (pg' & Hi' & <- & _)%(rep_entry _ _ _ _ R). simplify_eq. by rewrite <-Hk.
Qed.

Lemma rep_none_holds pid vaddr h l :
  (h < length (hashedpt st))%nat → (∀ i, i ∈ l → i ∈ bkt h ∧ ((pid, vaddr), i) ∉ q) →
  none_holds pid vaddr (pagetable st) l.
Proof.
  intros Hh Hl i pg Hin Hi. apply Hl in Hin as [Hb Hni].
  destruct (holds pid vaddr pg) eqn:E; [|done]. exfalso. eapply Hni, rep_holds; eauto.
Qed.

(** Where a resident page sits in its collision list. *)
Lemma rep_find pid vaddr i :
  ((pid, vaddr), i) ∈ q →
  ∃ p pgi l1 l2, hashedpt st !! bucket_of hsz (pid, vaddr) = Some p ∧
    bkt (bucket_of hsz (pid, vaddr)) = l1 ++ i :: l2 ∧
    chain pg_next (pagetable st) p (l1 ++ i :: l2) ∧
    none_holds pid vaddr (pagetable st) l1 ∧
    pagetable st !! i = Some pgi ∧ holds pid vaddr pgi = true.
Proof.
  intros Hin. destruct (rep_head (pid, vaddr)) as (p & Hp & Hc).
  pose proof (rep_in_bkt _ _ _ _ R _ _ Hin) as (l1 & l2 & Hb)%list_elem_of_split.
  destruct (rep_entry _ _ _ _ R _ _ Hin) as (pgi & Hi & Hk & _).
  pose proof (chain_nodup _ _ _ _ Hc) as Hnd. rewrite Hb in Hc, Hnd.
  exists p, pgi, l1, l2. split_and!; try done; [|by apply holds_spec].
  apply rep_none_holds with (bucket_of hsz (pid, vaddr)); [apply rep_bucket_lt|].
  intros j Hj. rewrite Hb. split; [set_solver|]. intros Hjq.
  assert (i = j) as <- by (by eapply rep_key_fun).
  apply NoDup_app in Hnd as (_ & Hdis & _). apply (Hdis i); set_solver.
Qed.

Lemma rep_absent pid vaddr :
  (pid, vaddr) ∉ q.*1 →
  none_holds pid vaddr (pagetable st) (bkt (bucket_of hsz (pid, vaddr))).
Proof.
  intros Hni. apply rep_none_holds with (bucket_of hsz (pid, vaddr)); [apply rep_bucket_lt|].
  intros i Hi. split; [done|]. intros Hin. apply Hni, list_elem_of_fmap. by exists ((pid, vaddr), i).
Qed.

Lemma rep_fuel get p l : chain get (pagetable st) p l → (length l < table_fuel st)%nat.
Proof. intros Hc. apply chain_length in Hc. unfold table_fuel. lia. Qed.
End rep.

(** ** Lookup *)

Lemma getpageaddr_rep hsz st bkt q pid vaddr :
  pt_rep hsz st bkt q →
  getpageaddr hsz pid vaddr st =
    Ok (match q_lookup (pid, vaddr) q with
        | Some i => u32 (Z.of_nat i * PAGE_SIZE)
        | None => 0
        end, st).
Proof.
  intros R. unfold getpageaddr. destruct (rep_head _ _ _ _ R (pid, vaddr)) as (p & Hp & Hc).
  run_with (gethashedentry_eq hsz pid vaddr st p (rep_hsz _ _ _ _ R) Hp).
  destruct (q_lookup (pid, vaddr) q) as [i|] eqn:E.
  - apply q_lookup_Some in E; [|apply R].
    destruct (rep_find _ _ _ _ R _ _ _ E) as (p' & pgi & l1 & l2 & Hp' & Hb & Hc' & Hn & Hi & Hh).
    rewrite Hp in Hp'. simplify_eq.
    destruct p' as [n|]; [|by destruct l1; destruct Hc' as [? _]].
    change ((gets table_fuel ≫= λ fuel, getpageaddr_loop fuel pid vaddr (Some n)) st =
      Ok (u32 (Z.of_nat i * PAGE_SIZE), st)).
    apply (getpageaddr_loop_found _ _ (table_fuel st) st (Some n) l1 i pgi l2); try done.
    pose proof (rep_fuel st _ _ _ Hc') as Hf. rewrite length_app in Hf. lia.
  - apply q_lookup_None in E. destruct p as [n|]; [|done].
    apply (getpageaddr_loop_absent _ _ (table_fuel st) st (Some n) _ Hc);
      [by eapply rep_fuel|by eapply rep_absent].
Qed.

(** ** Insertion *)

Lemma link_hashed_ok hsz pid vaddr st node pgn p b :
  0 < hsz → hashedpt st !! bucket_of hsz (pid, vaddr) = Some p →
  chain pg_next (pagetable st) p b → node ∉ b →
  pagetable st !! node = Some pgn → pg_next pgn = None →
  ∃ st' p', link_hashed hsz pid vaddr node st = Ok (tt, st') ∧
    hashedpt st' = <[bucket_of hsz (pid, vaddr) := p']> (hashedpt st) ∧
    chain pg_next (pagetable st') p' (b ++ [node]) ∧
    (∀ i, i ∉ b → pagetable st' !! i = pagetable st !! i) ∧
    sans_next <$> pagetable st' = sans_next <$> pagetable st ∧
    firstvictim st' = firstvictim st ∧ lastallocateduser st' = lastallocateduser st.
Proof.
  intros Hsz Hp Hc Hni Hn Hnn. unfold link_hashed.
  run_with (gethashedentry_eq hsz pid vaddr st p Hsz Hp).
  destruct b as [|t b _] using rev_ind.
  - cbn in Hc. subst p. eexists _, (Some node). split_and!.
    + apply sethashedptentry_eq; [done|]. by eapply lookup_lt_Some.
    + done.
    + cbn. eauto.
    + done.
    + done.
    + done.
    + done.
  - destruct (chain_split _ _ _ _ _ _ Hc) as (pgt & Ht & _).
    assert (∃ n, p = Some n) as [n ->] by (destruct b; destruct Hc as [-> _]; eauto).
    eexists _, (Some n). split_and!.
    + apply (append_next_ok (table_fuel st) st n node (b ++ [t]) t pgt Hc);
        [|apply last_snoc|done]. apply chain_length in Hc. unfold table_fuel. lia.
    + cbn. symmetry. by apply list_insert_id.
    + cbn [pagetable set_pagetable]. rewrite <-app_assoc.
      apply (chain_relink pg_next (set := set_next)) with (l2 := []); [done|done| |set_solver]. cbn. eauto.
    + intros i Hi. cbn. rewrite list_lookup_insert_ne by set_solver. done.
    + cbn. by eapply fmap_insert_same.
    + done.
    + done.
Qed.

Lemma link_fifo_ok st l node pgn :
  chain pg_fifonext (pagetable st) (firstvictim st) l →
  lastallocateduser st = last l → node ∉ l →
  pagetable st !! node = Some pgn → pg_fifonext pgn = None →
  ∃ st', link_fifo node st = Ok (tt, st') ∧
    hashedpt st' = hashedpt st ∧
    chain pg_fifonext (pagetable st') (firstvictim st') (l ++ [node]) ∧
    lastallocateduser st' = last (l ++ [node]) ∧
    sans_fifo <$> pagetable st' = sans_fifo <$> pagetable st.
Proof.
  intros Hc Hlast Hni Hn Hnn. unfold link_fifo. mred. rewrite Hlast.
  destruct l as [|t l _] using rev_ind.
  - cbn in Hc. cbn [last]. rewrite Hc. eexists. split; [done|]. split; [done|].
    split; [cbn; eauto|done].
  - rewrite last_snoc. destruct (chain_split _ _ _ _ _ _ Hc) as (pgt & Ht & _).
    assert (∃ n, firstvictim st = Some n) as [n Hfv] by (destruct l; destruct Hc as [-> _]; eauto).
    rewrite (load_page_ok st t pgt Ht), store_page_ok by (by eapply lookup_lt_Some).
    cbn. rewrite Hfv. eexists. split_and!; [done|done| | |].
    + cbn [pagetable firstvictim set_pagetable set_lastallocateduser].
      rewrite <-app_assoc. rewrite Hfv in *.
      apply (chain_relink pg_fifonext (set := set_fifonext)) with (l2 := []); [done|done| |set_solver]. cbn. eauto.
    + cbn. by rewrite last_snoc.
    + cbn. by eapply fmap_insert_same.
Qed.

(** Making a frame that holds no user page hold one. *)
Lemma hdr_ok_insert hdrs q i p v n :
  hdr_ok hdrs q → (i < length hdrs)%nat → 0 < p → i ∉ q.*2 →
  hdr_ok (<[i := (p, v, n)]> hdrs) (q ++ [((p, v), i)]).
Proof.
  intros [H1 H2] Hi Hp Hni. split.
  - intros k j [Hin|Hin]%elem_of_app.
    + assert (i ≠ j) by (intros ->; apply Hni, list_elem_of_fmap; by exists (k, j)).
      rewrite list_lookup_insert_ne by done. by apply H1.
    + apply list_elem_of_singleton in Hin. simplify_eq. split; [done|].
      rewrite list_lookup_insert_eq by done. cbn. eauto.
  - intros j p' v' n' [(-> & Heq & _)|[Hne Hj]]%lookup_insert_cases Hp'; simplify_eq.
    + set_solver.
    + apply elem_of_app. left. eauto.
Qed.

(** Putting a non-user header in a frame that holds no user page. *)
Lemma hdr_ok_insert_free hdrs q i p v n :
  hdr_ok hdrs q → p ≤ 0 → i ∉ q.*2 → hdr_ok (<[i := (p, v, n)]> hdrs) q.
Proof.
  intros [H1 H2] Hp Hni. split.
  - intros k j Hin.
    assert (i ≠ j) by (intros ->; apply Hni, list_elem_of_fmap; by exists (k, j)).
    rewrite list_lookup_insert_ne by done. by apply H1.
  - intros j p' v' n' [(-> & Heq & _)|[Hne Hj]]%lookup_insert_cases Hp'; simplify_eq; [lia|eauto].
Qed.

Lemma setptentry_user hsz st bkt q index numpages pid vaddr pg0 :
  pt_rep hsz st bkt q →
  pagetable st !! Z.to_nat index = Some pg0 → pg_pid pg0 ≤ 0 →
  0 < pid → (pid, vaddr) ∉ q.*1 →
  ∃ st' bkt', setptentry hsz index numpages pid vaddr st = Ok (0, st') ∧
    pt_rep hsz st' bkt' (q ++ [((pid, vaddr), Z.to_nat index)]) ∧
    pg_hdr <$> pagetable st' =
      <[Z.to_nat index := (pid, vaddr, numpages)]> (pg_hdr <$> pagetable st).
Proof.
  intros R Hi Hpid0 Hpid Hnew. set (node := Z.to_nat index) in *.
  set (h := bucket_of hsz (pid, vaddr)).
  pose proof (lookup_lt_Some _ _ _ Hi) as Hlt.
  pose proof (rep_bucket_lt _ _ _ _ R (pid, vaddr)) as Hh.
  assert (∀ h', (h' < length (hashedpt st))%nat → node ∉ bkt h') as Hnb
    by (intros h' Hh'; by eapply rep_free_out).
  assert (node ∉ q.*2) as Hnq by (by eapply rep_free_out).
  set (pg := mk_ptpage pid vaddr numpages None None).
  set (st1 := set_pagetable (<[node := pg]> (pagetable st)) st).
  assert (pagetable st1 !! node = Some pg) as Hpg by (by apply list_lookup_insert_eq).
  destruct (rep_head _ _ _ _ R (pid, vaddr)) as (p & Hp & Hc).
  destruct (link_hashed_ok hsz pid vaddr st1 node pg p (bkt h))
    as (st2 & p2 & Hrun2 & Hht2 & Hc2 & Hsame2 & Hsn2 & Hfv2 & Hla2); try done.
  { apply R. }
  { apply chain_insert_out; [done|by apply Hnb]. }
  { by apply Hnb. }
  destruct (fmap_same_lookup sans_next _ _ node pg Hsn2 Hpg) as (pg2 & Hpg2 & Heq2).
  destruct (link_fifo_ok st2 q.*2 node pg2)
    as (st3 & Hrun3 & Hht3 & Hc3 & Hla3 & Hsf3); try done.
  { rewrite Hfv2. apply (chain_same _ sans_next (pagetable st1)); [|done|].
    - intros ? ? Heq. by injection Heq.
    - apply chain_insert_out; [apply R|done]. }
  { rewrite Hla2. apply R. }
  { unfold sans_next in Heq2. by injection Heq2. }
  exists st3, (λ h', if decide (h' = h) then bkt h ++ [node] else bkt h').
  split.
  { unfold setptentry. fold node. fold pg.
    run_with (store_page_ok st node pg Hlt). rewrite (proj2 (Z.ltb_lt 0 pid)) by lia.
    erewrite bind_ok; [done|]. run_with Hrun2. exact Hrun3. }
  assert (pg_hdr <$> pagetable st3 = <[node := (pid, vaddr, numpages)]> (pg_hdr <$> pagetable st))
    as Hhdr.
  { rewrite (hdr_sans_fifo _ _ Hsf3), (hdr_sans_next _ _ Hsn2). cbn.
    by rewrite list_fmap_insert. }
  split; [|done]. split.
  - apply R.
  - rewrite Hht3, Hht2, length_insert. apply R.
  - intros h' p' Hh'. rewrite Hht3, Hht2 in Hh'.
    apply (chain_same _ sans_fifo (pagetable st2)); [|done|].
    { intros ? ? Heq. by injection Heq. }
    apply lookup_insert_cases in Hh' as [(<- & -> & _)|[Hne Hh']].
    + by rewrite decide_True.
    + rewrite decide_False by done.
      pose proof (lookup_lt_Some _ _ _ Hh') as Hlt'.
      apply (chain_agree _ (pagetable st1)).
      { intros i Hin. apply Hsame2. intros Hin2.
        apply Hne. symmetry. by eapply (rep_disjoint _ _ _ _ R). }
      apply chain_insert_out; [by apply R|by apply Hnb].
  - by rewrite fmap_app.
  - by rewrite fmap_app.
  - rewrite fmap_app. apply NoDup_app. split; [apply R|]. split; [|apply NoDup_singleton].
    intros x Hx ->%list_elem_of_singleton. done.
  - rewrite Hhdr. apply hdr_ok_insert; [apply R|by rewrite length_fmap|done|done].
  - intros k i [Hin|Hin]%elem_of_app.
    + apply (rep_in_bkt _ _ _ _ R) in Hin. case_decide as Hk; [|done]. rewrite Hk in Hin. set_solver.
    + apply list_elem_of_singleton in Hin. simplify_eq. rewrite decide_True by done. set_solver.
  - intros h' i Hh' Hin. rewrite Hht3, Hht2, length_insert in Hh'. case_decide as Hk.
    + subst h'. apply elem_of_app in Hin as [Hin|Hin].
      * apply (rep_bkt_in _ _ _ _ R) in Hin as (k & Hin & <-); [|done]. set_solver.
      * apply list_elem_of_singleton in Hin. subst. set_solver.
    + apply (rep_bkt_in _ _ _ _ R) in Hin as (k & Hin & <-); [|done]. set_solver.
Qed.

(** Storing a page that is not a user page in a frame that holds none. *)
Lemma store_free_rep hsz st bkt q i pg0 pg :
  pt_rep hsz st bkt q → pagetable st !! i = Some pg0 → pg_pid pg0 ≤ 0 → pg_pid pg ≤ 0 →
  pt_rep hsz (set_pagetable (<[i := pg]> (pagetable st)) st) bkt q.
Proof.
  intros R Hi H0 Hpid. assert (i ∉ q.*2) as Hnq.
  { eapply rep_free_out; [done|done|done|]. apply (rep_bucket_lt _ _ _ _ R (0, 0)). }
  split; try apply R.
  - intros h p Hp. pose proof (lookup_lt_Some _ _ _ Hp).
    apply chain_insert_out; [by apply R|]. by eapply rep_free_out.
  - apply chain_insert_out; [apply R|done].
  - cbn. rewrite list_fmap_insert. apply hdr_ok_insert_free; [apply R|done|done].
Qed.

Lemma setptentry_other hsz st bkt q index numpages pid vaddr pg0 :
  pt_rep hsz st bkt q →
  pagetable st !! Z.to_nat index = Some pg0 → pg_pid pg0 ≤ 0 → pid ≤ 0 →
  ∃ st', setptentry hsz index numpages pid vaddr st = Ok (0, st') ∧
    pt_rep hsz st' bkt q ∧
    pagetable st' = <[Z.to_nat index := mk_ptpage pid vaddr numpages None None]> (pagetable st).
Proof.
  intros R Hi H0 Hpid.
  exists (set_pagetable (<[Z.to_nat index := mk_ptpage pid vaddr numpages None None]>
    (pagetable st)) st).
  split; [|split; [by eapply store_free_rep|done]].
  unfold setptentry. run_with (store_page_ok st (Z.to_nat index)
    (mk_ptpage pid vaddr numpages None None) (lookup_lt_Some _ _ _ Hi)).
  rewrite (proj2 (Z.ltb_ge 0 pid)) by lia. done.
Qed.

Lemma freekernel_rep hsz st bkt q index pg0 :
  pt_rep hsz st bkt q →
  pagetable st !! Z.to_nat index = Some pg0 → pg_pid pg0 ≤ 0 →
  ∃ st', freekernel index st = Ok (0, st') ∧ pt_rep hsz st' bkt q ∧
    pagetable st' = <[Z.to_nat index := mk_ptpage (-1) (pg_vaddr pg0) 0 None None]> (pagetable st).
Proof.
  intros R Hi H0.
  exists (set_pagetable (<[Z.to_nat index := mk_ptpage (-1) (pg_vaddr pg0) 0 None None]>
    (pagetable st)) st).
  split; [|split; [by eapply store_free_rep|done]].
  unfold freekernel. run_with (load_page_ok _ _ _ Hi).
  by run_with (store_page_ok st (Z.to_nat index)
    (mk_ptpage (-1) (pg_vaddr pg0) 0 None None) (lookup_lt_Some _ _ _ Hi)).
Qed.

(** ** Removal *)

Lemma unlink_hashed_ok hsz st bkt q pid vaddr i :
  pt_rep hsz st bkt q → ((pid, vaddr), i) ∈ q →
  ∃ st' p' l1 l2, unlink_hashed (table_fuel st) hsz pid vaddr st = Ok (Some i, st') ∧
    bkt (bucket_of hsz (pid, vaddr)) = l1 ++ i :: l2 ∧
    hashedpt st' = <[bucket_of hsz (pid, vaddr) := p']> (hashedpt st) ∧
    chain pg_next (pagetable st') p' (l1 ++ l2) ∧
    (∀ j, j ∉ l1 → pagetable st' !! j = pagetable st !! j) ∧
    sans_next <$> pagetable st' = sans_next <$> pagetable st ∧
    firstvictim st' = firstvictim st ∧ lastallocateduser st' = lastallocateduser st.
Proof.
  intros R Hin.
  destruct (rep_find _ _ _ _ R _ _ _ Hin) as (p & pgi & l1 & l2 & Hp & Hb & Hc & Hn & Hi & Hh).
  pose proof (chain_nodup _ _ _ _ Hc) as Hnd. pose proof (rep_hsz _ _ _ _ R) as Hsz.
  pose proof (rep_fuel st _ _ _ Hc) as Hf. rewrite length_app in Hf.
  assert (unlink_next (table_fuel st) pid vaddr p None st =
    Ok (Some i, match last l1 with None => st
      | Some j => set_pagetable (alter (set_next (pg_next pgi)) j (pagetable st)) st end)) as Hrun.
  { erewrite unlink_next_found; try done; [|lia]. by destruct (last l1). }
  unfold unlink_hashed. run_with (gethashedentry_eq hsz pid vaddr st p Hsz Hp). run_with Hrun.
  destruct l1 as [|j l1 _] using rev_ind.
  - cbn in Hc. destruct Hc as (-> & pg & Hi' & Hc). simplify_eq.
    rewrite decide_True by done.
    exists (set_hashedpt (<[bucket_of hsz (pid, vaddr) := pg_next pg]> (hashedpt st)) st),
      (pg_next pg), [], l2. split_and!; try done.
    erewrite bind_ok; [done|]. run_with (load_page_ok st i pg Hi').
    apply sethashedptentry_eq; [done|]. by eapply lookup_lt_Some.
  - rewrite last_snoc. rewrite <-app_assoc in Hc. cbn in Hc.
    destruct (chain_split _ _ _ _ _ _ Hc) as (pgj & Hj & _).
    rewrite (list_alter_as_insert _ _ _ _ Hj). rewrite decide_False.
    2: { intros ->. rewrite <-app_assoc in Hnd. destruct l1; destruct Hc as [[= <-] _];
         cbn in Hnd; apply NoDup_cons in Hnd as [Hnd _]; set_solver. }
    eexists _, p, (l1 ++ [j]), l2. split; [done|]. split; [done|]. cbn [hashedpt set_pagetable].
    split; [by rewrite list_insert_id|]. split.
    { rewrite <-app_assoc. by apply (chain_unlink pg_next (set := set_next)) with (i := i). }
    split; [|split; [|done]].
    + intros k Hk. cbn. apply list_lookup_insert_ne. set_solver.
    + by eapply fmap_insert_same.
Qed.

Lemma unlink_hashed_absent hsz st bkt q pid vaddr :
  pt_rep hsz st bkt q → (pid, vaddr) ∉ q.*1 →
  unlink_hashed (table_fuel st) hsz pid vaddr st = Ok (None, st).
Proof.
  intros R Hni. destruct (rep_head _ _ _ _ R (pid, vaddr)) as (p & Hp & Hc).
  unfold unlink_hashed. run_with (gethashedentry_eq hsz pid vaddr st p (rep_hsz _ _ _ _ R) Hp).
  rewrite (bind_ok _ _ st None st); [done|].
  eapply unlink_next_absent; [done|by eapply rep_fuel|].
  by eapply rep_absent.
Qed.

Lemma unlink_fifo_ok st q1 i q2 pid vaddr pgi :
  chain pg_fifonext (pagetable st) (firstvictim st) (q1 ++ i :: q2) →
  none_holds pid vaddr (pagetable st) q1 →
  pagetable st !! i = Some pgi → holds pid vaddr pgi = true →
  ∃ st', unlink_fifo (table_fuel st) pid vaddr i st = Ok (tt, st') ∧
    hashedpt st' = hashedpt st ∧ lastallocateduser st' = lastallocateduser st ∧
    chain pg_fifonext (pagetable st') (firstvictim st') (q1 ++ q2) ∧
    sans_fifo <$> pagetable st' = sans_fifo <$> pagetable st.
Proof.
  intros Hc Hn Hi Hh. pose proof (chain_nodup _ _ _ _ Hc) as Hnd.
  unfold unlink_fifo. rewrite (bind_ok _ _ st (firstvictim st) st) by done.
  destruct q1 as [|j q1 _] using rev_ind.
  - cbn in Hc. destruct Hc as (Hf & pg & Hi' & Hc). simplify_eq. rewrite Hf.
    rewrite decide_False by naive_solver. run_with (load_page_ok st i pg Hi').
    by exists (set_firstvictim (pg_fifonext pg) st).
  - rewrite <-app_assoc in *. cbn in Hc.
    destruct (chain_split _ _ _ _ _ _ Hc) as (pgj & Hj & _).
    rewrite decide_True.
    2: { intros Hf. rewrite Hf in Hc. destruct q1; destruct Hc as [[= <-] _];
         cbn in Hnd; apply NoDup_cons in Hnd as [Hnd _]; set_solver. }
    eexists. split.
    { eapply (unlink_fifonext_ok pid vaddr _ st _ q1 j pgj i pgi q2 Hc); try done.
      apply chain_length in Hc. rewrite length_app in Hc. unfold table_fuel. lia. }
    split; [done|]. split; [done|]. split.
    + by apply (chain_unlink pg_fifonext (set := set_fifonext)) with (i := i).
    + by eapply fmap_insert_same.
Qed.

Lemma fix_lastallocateduser_ok fuel st l1 i l2 :
  chain pg_fifonext (pagetable st) (firstvictim st) (l1 ++ l2) →
  NoDup (l1 ++ i :: l2) →
  (length (l1 ++ l2) < fuel)%nat → lastallocateduser st = last (l1 ++ i :: l2) →
  fix_lastallocateduser fuel i st = Ok (tt, set_lastallocateduser (last (l1 ++ l2)) st).
Proof.
  intros Hc Hnd Hf Hl. unfold fix_lastallocateduser.
  rewrite (bind_ok _ _ st (last (l1 ++ i :: l2)) st) by (by rewrite <-Hl).
  destruct l2 as [|k l2 _] using rev_ind.
  - rewrite last_snoc, decide_True by done. rewrite app_nil_r in *.
    rewrite (bind_ok _ _ st (firstvictim st) st) by done.
    destruct l1 as [|j l1 _] using rev_ind.
    + cbn in Hc. by rewrite Hc.
    + rewrite last_snoc. destruct (firstvictim st) as [n|] eqn:E.
      * apply find_fifo_last_ok with (l1 ++ [j]); [done|done|apply last_snoc].
      * by destruct l1; destruct Hc as [? _].
  - rewrite app_comm_cons, !app_assoc, !last_snoc in *. rewrite decide_False.
    + destruct st. cbn in *. by rewrite Hl.
    + intros [= ->]. apply NoDup_app in Hnd as (_ & Hdis & _). apply (Hdis i); set_solver.
Qed.

(** Taking a user page out of its frame. *)
Lemma hdr_ok_remove hdrs q1 k i q2 v n :
  hdr_ok hdrs (q1 ++ (k, i) :: q2) → NoDup (q1 ++ (k, i) :: q2).*2 →
  hdr_ok (<[i := (-1, v, n)]> hdrs) (q1 ++ q2).
Proof.
  rewrite fmap_app. cbn. intros [H1 H2] Hnd.
  assert (∀ k', (k', i) ∉ q1 ++ q2) as Hout.
  { intros k' Hin. apply (list_elem_of_fmap_2 snd) in Hin. rewrite fmap_app in Hin.
    by apply (NoDup_mid _ _ _ Hnd). }
  split.
  - intros k' j Hin. assert (i ≠ j) by (intros ->; by apply (Hout k')).
    rewrite list_lookup_insert_ne by done. apply H1. set_solver.
  - intros j p' v' n' [(-> & Heq & _)|[Hne Hj]]%lookup_insert_cases Hp'; simplify_eq; [lia|].
    apply H2 in Hj; [|done]. apply elem_of_app. apply elem_of_app in Hj as [?|Hj]; [by left|].
    apply elem_of_cons in Hj as [?|?]; [congruence|by right].
Qed.

(** No page before the one to remove holds its key. *)
Lemma fifo_none_holds hsz st bkt q1 pid vaddr i q2 pt' :
  pt_rep hsz st bkt (q1 ++ ((pid, vaddr), i) :: q2) →
  pg_hdr <$> pt' = pg_hdr <$> pagetable st → none_holds pid vaddr pt' q1.*2.
Proof.
  intros R Hh j pgj Hj Hpgj. destruct (holds pid vaddr pgj) eqn:E; [|done]. exfalso.
  apply holds_spec in E.
  destruct (fmap_same_lookup pg_hdr _ _ j pgj (eq_sym Hh) Hpgj) as (pgj0 & Hpgj0 & Heq).
  assert (pg_key pgj0 = (pid, vaddr)) as Hkj by (unfold pg_key, pg_hdr in *; congruence).
  pose proof (rep_user _ _ _ _ R j pgj0 Hpgj0) as Hjq. rewrite Hkj in Hjq.
  pose proof (chain_nodup _ _ _ _ (rep_fifo _ _ _ _ R)) as Hnd. rewrite fmap_app in Hnd.
  assert (j = i) as ->.
  { eapply (rep_key_fun _ _ _ _ R); [apply Hjq|set_solver].
    apply (rep_fifo_iff _ _ _ _ R j pgj0 Hpgj0). rewrite fmap_app. set_solver. }
  apply NoDup_app in Hnd as (_ & Hdis & _). apply (Hdis i); set_solver.
Qed.

(** The unlinking steps of [freeuser], up to the final store. *)
Lemma freeuser_unlinked hsz st bkt q1 pid vaddr i q2 :
  pt_rep hsz st bkt (q1 ++ ((pid, vaddr), i) :: q2) →
  ∃ st' p' l1 l2 pgi, freeuser hsz pid vaddr st =
      Ok (0, set_pagetable (<[i := mk_ptpage (-1) vaddr 0 None None]> (pagetable st')) st') ∧
    bkt (bucket_of hsz (pid, vaddr)) = l1 ++ i :: l2 ∧
    hashedpt st' = <[bucket_of hsz (pid, vaddr) := p']> (hashedpt st) ∧
    chain pg_next (pagetable st') p' (l1 ++ l2) ∧
    (∀ h p, h ≠ bucket_of hsz (pid, vaddr) → hashedpt st !! h = Some p →
      chain pg_next (pagetable st') p (bkt h)) ∧
    chain pg_fifonext (pagetable st') (firstvictim st') (q1 ++ q2).*2 ∧
    lastallocateduser st' = last (q1 ++ q2).*2 ∧
    pagetable st' !! i = Some pgi ∧
    pg_hdr <$> pagetable st' = pg_hdr <$> pagetable st.
Proof.
  intros R. assert (((pid, vaddr), i) ∈ q1 ++ ((pid, vaddr), i) :: q2) as Hin by set_solver.
  destruct (unlink_hashed_ok _ _ _ _ _ _ _ R Hin)
    as (st2 & p' & l1 & l2 & Hrun2 & Hb & Hht2 & Hc2 & Hsame2 & Hsn2 & Hfv2 & Hla2).
  destruct (rep_entry _ _ _ _ R _ _ Hin) as (pgi & Hi & Hk & _).
  destruct (fmap_same_lookup sans_next _ _ i pgi Hsn2 Hi) as (pgi2 & Hi2 & Heq2).
  assert (pg_key pgi2 = (pid, vaddr)) as Hk2
    by (unfold pg_key, sans_next, pg_hdr in *; congruence).
  pose proof (rep_fifo _ _ _ _ R) as Hff. rewrite fmap_app in Hff. cbn in Hff.
  assert (table_fuel st2 = table_fuel st) as Hfu.
  { unfold table_fuel. f_equal. apply (f_equal length) in Hsn2. by rewrite !length_fmap in Hsn2. }
  destruct (unlink_fifo_ok st2 q1.*2 i q2.*2 pid vaddr pgi2)
    as (st3 & Hrun3 & Hht3 & Hla3 & Hc3 & Hsf3); try done.
  { rewrite Hfv2. apply (chain_same _ sans_next (pagetable st)); [|done|done].
    intros ? ? Heq. by injection Heq. }
  { apply (fifo_none_holds _ _ _ _ _ _ _ _ _ R). by apply hdr_sans_next. }
  { by apply holds_spec. }
  destruct (fmap_same_lookup sans_fifo _ _ i pgi2 Hsf3 Hi2) as (pgi3 & Hi3 & Heq3).
  set (st4 := set_lastallocateduser (last (q1.*2 ++ q2.*2)) st3).
  assert (fix_lastallocateduser (table_fuel st) i st3 = Ok (tt, st4)) as Hrun4.
  { apply (fix_lastallocateduser_ok _ _ q1.*2 i q2.*2); [done|by eapply chain_nodup| |].
    - apply chain_length in Hc3. apply (f_equal length) in Hsf3. rewrite !length_fmap in Hsf3.
      rewrite <-Hfu. unfold table_fuel. lia.
    - rewrite Hla3, Hla2, (rep_last _ _ _ _ R). by rewrite fmap_app. }
  exists st4, p', l1, l2, pgi3.
  assert (pg_vaddr pgi3 = vaddr) as Hv
    by (unfold pg_key, sans_fifo, pg_hdr in *; congruence).
  split_and!.
  - unfold freeuser. rewrite (bind_ok _ _ st (table_fuel st) st) by done. run_with Hrun2.
    rewrite <-Hfu. run_with Hrun3. rewrite Hfu. run_with Hrun4.
    rewrite (bind_ok _ _ st4 pgi3 st4 (load_page_ok st4 i pgi3 Hi3)). rewrite Hv.
    erewrite bind_ok; [done|]. apply store_page_ok. by eapply lookup_lt_Some.
  - done.
  - cbn. by rewrite Hht3.
  - cbn. apply (chain_same _ sans_fifo (pagetable st2)); [|done|done].
    intros ? ? Heq. by injection Heq.
  - intros h p Hne Hp. cbn. apply (chain_same _ sans_fifo (pagetable st2)); [|done|].
    { intros ? ? Heq. by injection Heq. }
    apply (chain_agree _ (pagetable st)); [|by apply R]. intros j Hj. apply Hsame2.
    intros Hj1. apply Hne. eapply (rep_disjoint _ _ _ _ R); [by eapply lookup_lt_Some| |done|].
    + eapply rep_bucket_lt, R.
    + rewrite Hb. set_solver.
  - cbn. by rewrite fmap_app.
  - cbn. by rewrite fmap_app.
  - done.
  - cbn. by rewrite (hdr_sans_fifo _ _ Hsf3), (hdr_sans_next _ _ Hsn2).
Qed.

Lemma freeuser_found hsz st bkt q1 pid vaddr i q2 :
  pt_rep hsz st bkt (q1 ++ ((pid, vaddr), i) :: q2) →
  ∃ st' bkt', freeuser hsz pid vaddr st = Ok (0, st') ∧
    pt_rep hsz st' bkt' (q1 ++ q2) ∧
    pg_hdr <$> pagetable st' = <[i := (-1, vaddr, 0)]> (pg_hdr <$> pagetable st).
Proof.
  intros R. destruct (freeuser_unlinked _ _ _ _ _ _ _ _ R)
    as (st1 & p' & l1 & l2 & pgi & Hrun & Hb & Hht & Hc & Hcs & Hff & Hla & Hi & Hhdr).
  pose proof (rep_fifo _ _ _ _ R) as Hff0. apply chain_nodup in Hff0.
  set (h0 := bucket_of hsz (pid, vaddr)) in *.
  assert (i ∉ l1 ++ l2) as Hnb.
  { destruct (rep_head _ _ _ _ R (pid, vaddr)) as (p & _ & Hc0). apply NoDup_mid.
    rewrite <-Hb. by eapply chain_nodup. }
  assert (i ∉ (q1 ++ q2).*2) as Hnq by (rewrite fmap_app in *; by apply NoDup_mid).
  eexists _, (λ h, if decide (h = h0) then l1 ++ l2 else bkt h).
  split; [exact Hrun|].
  assert (pg_hdr <$> <[i := mk_ptpage (-1) vaddr 0 None None]> (pagetable st1) =
    <[i := (-1, vaddr, 0)]> (pg_hdr <$> pagetable st)) as Hhdr'.
  { by rewrite list_fmap_insert, Hhdr. }
  split; [|done]. split; cbn.
  - apply R.
  - rewrite Hht, length_insert. apply R.
  - intros h p Hp. rewrite Hht in Hp.
    apply lookup_insert_cases in Hp as [(<- & -> & _)|[Hne Hp]].
    + rewrite decide_True by done. by apply chain_insert_out.
    + rewrite decide_False by done. apply chain_insert_out; [by apply Hcs|].
      intros Hin. apply Hne. symmetry. eapply (rep_disjoint _ _ _ _ R); [| |done|].
      * by eapply lookup_lt_Some.
      * apply (rep_bucket_lt _ _ _ _ R).
      * rewrite Hb. set_solver.
  - by apply chain_insert_out.
  - done.
  - pose proof (rep_keys _ _ _ _ R) as Hk. rewrite fmap_app in *. cbn in Hk.
    eapply sublist_NoDup; [exact Hk|]. apply sublist_app; [done|]. by apply sublist_cons.
  - rewrite Hhdr'. eapply hdr_ok_remove; [apply R|done].
  - intros k j Hin. assert (j ≠ i) by (intros ->; apply Hnq, list_elem_of_fmap; by exists (k, i)).
    assert (j ∈ bkt (bucket_of hsz k)) as Hj by (apply (rep_in_bkt _ _ _ _ R); set_solver).
    case_decide as Hk; [|done]. rewrite Hk, Hb in Hj. set_solver.
  - intros h j Hh Hin. rewrite Hht, length_insert in Hh.
    assert (j ≠ i ∧ j ∈ bkt h) as [Hne Hj].
    { case_decide as Hk.
      - subst h. rewrite Hb. split; [by intros ->|set_solver].
      - split; [|done]. intros ->. apply Hk. eapply (rep_disjoint _ _ _ _ R); [done| |done|].
        + apply (rep_bucket_lt _ _ _ _ R).
        + rewrite Hb. set_solver. }
    apply (rep_bkt_in _ _ _ _ R) in Hj as (k & Hk & <-); [|done]. exists k. split; [|done].
    apply elem_of_app in Hk as [Hk|[Hk|Hk]%elem_of_cons]; [set_solver|congruence|set_solver].
Qed.

Lemma freeuser_absent hsz st bkt q pid vaddr :
  pt_rep hsz st bkt q → (pid, vaddr) ∉ q.*1 → freeuser hsz pid vaddr st = Ok (-1, st).
Proof.
  intros R Hni. unfold freeuser. rewrite (bind_ok _ _ st (table_fuel st) st) by done.
  by rewrite (bind_ok _ _ st None st) by (by eapply unlink_hashed_absent).
Qed.
