(* ===== verification/PtFrames.v ===== *)
(** * Frame allocation in the page table ([getfreeframes], [kern/vm/pt.c])

    A block of frames is marked by its first entry only: [setptentry] writes
    the owner and the length there, and the other entries of the block keep
    pid -1.  [free_map] is the reference reading of such a table: which frames
    are really free.  [getfreeframes] is shown to be first fit on that map,
    and the updates of the table to be the updates of the map. *)

From S2P Require Import Prelude Machine Pt PtSpec.

(** ** The reference: a map of free frames and first fit *)

(** [skip] entries belong to a block that started before. *)
Fixpoint free_from (skip : nat) (pt : list ptpage) : list bool :=
  match pt with
  | [] => []
  | pg :: pt' =>
      match skip with
      | S k => false :: free_from k pt'
      | O =>
          if pg_pid pg =? -1 then true :: free_from 0 pt'
          else false :: free_from (Z.to_nat (pg_numpages pg) - 1) pt'
      end
  end.

Definition free_map (pt : list ptpage) : list bool := free_from 0 pt.

(** Are the [n] frames from [i] free? *)
Definition run_free (fm : list bool) (n i : nat) : bool :=
  (i + n <=? length fm)%nat && forallb id (take n (drop i fm)).

Definition first_fit (fm : list bool) (n : nat) : option nat :=
  List.find (run_free fm n) (seq 0 (length fm)).

(** Block lengths are small enough for the index arithmetic not to wrap. *)
Definition numpages_ok (pt : list ptpage) : Prop :=
  Z.of_nat (length pt) < 2 ^ 31 ∧ Forall (λ pg, 0 ≤ pg_numpages pg < 2 ^ 31) pt.

(** ** The map and first fit *)

Lemma length_free_from k pt : length (free_from k pt) = length pt.
Proof.
  revert k. induction pt as [|pg pt IH]; intros k; [done|].
  destruct k; cbn; [case_match; cbn|]; by rewrite IH.
Qed.

Lemma free_from_skip k pt : drop k (free_from k pt) = free_from 0 (drop k pt).
Proof.
  revert pt. induction k as [|k IH]; intros [|pg pt]; [by rewrite !drop_0..|done|].
  cbn. apply IH.
Qed.

Lemma free_from_skipped k pt j b :
  (j < k)%nat → free_from k pt !! j = Some b → b = false.
Proof.
  revert k j. induction pt as [|pg pt IH]; intros [|k] [|j]; cbn; try (done || lia).
  - by intros _ [= <-].
  - intros Hj. apply IH. lia.
Qed.

Lemma run_free_spec fm n i :
  run_free fm n i = true ↔
    (i + n ≤ length fm)%nat ∧ ∀ k, (i ≤ k < i + n)%nat → fm !! k = Some true.
Proof.
  unfold run_free. rewrite andb_true_iff, Nat.leb_le.
  split; intros [Hlen H]; (split; [done|]).
  - intros k Hk. rewrite forallb_forall in H.
    assert (is_Some (fm !! k)) as [b Hb] by (apply lookup_lt_is_Some_2; lia).
    rewrite Hb. f_equal.
    apply (H b). apply list_elem_of_In, list_elem_of_lookup. exists (k - i)%nat.
    rewrite lookup_take_lt, lookup_drop by lia. by replace (i + (k - i))%nat with k by lia.
  - apply forallb_forall. intros b Hb. apply list_elem_of_In, list_elem_of_lookup in Hb as [k Hk].
    apply lookup_take_Some in Hk as [Hk Hlt]. rewrite lookup_drop in Hk.
    rewrite H in Hk by lia. by injection Hk as <-.
Qed.

Lemma run_free_false fm n i k :
  (i ≤ k < i + n)%nat → fm !! k ≠ Some true → run_free fm n i = false.
Proof.
  intros Hk Hf. destruct (run_free fm n i) eqn:E; [|done]. exfalso.
  apply run_free_spec in E as [_ H]. by apply Hf, H.
Qed.

Lemma first_fit_Some fm n i :
  (0 < n)%nat → run_free fm n i = true → (∀ k, (k < i)%nat → run_free fm n k = false) →
  first_fit fm n = Some i.
Proof.
  intros Hn Hi Hlt. unfold first_fit.
  assert (i < length fm)%nat as Hlen by (apply run_free_spec in Hi as [? _]; lia).
  replace (length fm) with (i + S (length fm - i - 1))%nat by lia.
  rewrite seq_app. cbn. generalize (seq (S i) (length fm - i - 1)). intros rest.
  assert (∀ s m, (s + m ≤ i)%nat → List.find (run_free fm n) (seq s m ++ i :: rest) = Some i) as H;
    [|apply H; lia].
  intros s m. revert s. induction m as [|m IH]; intros s Hs; cbn.
  - by rewrite Hi.
  - rewrite Hlt by lia. apply IH. lia.
Qed.

Lemma first_fit_None fm n :
  (0 < n)%nat → (∀ k, (k < length fm)%nat → run_free fm n k = false) → first_fit fm n = None.
Proof.
  intros Hn H. unfold first_fit.
  destruct (List.find (run_free fm n) (seq 0 (length fm))) as [i|] eqn:E; [|done].
  apply find_some in E as [Hin Hi]. apply in_seq in Hin. rewrite H in Hi by lia. done.
Qed.

(** ** [getfreeframes] is first fit *)

Section getfreeframes.
Context (pt : list ptpage) (Hpt : numpages_ok pt).
Context (n : nat) (Hn : (0 < n)%nat) (Hn32 : Z.of_nat n < 2 ^ 32).

Abbreviation fm := (free_map pt).
Abbreviation len := (length pt).

(** [j] is not inside a block. *)
Definition boundary (j : nat) : Prop := drop j fm = free_from 0 (drop j pt).

Lemma boundary_lookup j pg :
  boundary j → pt !! j = Some pg → fm !! j = Some (pg_pid pg =? -1).
Proof.
  intros Hb Hj. rewrite <-(Nat.add_0_r j), <-lookup_drop, Hb. rewrite (drop_S _ _ _ Hj).
  cbn. by destruct (pg_pid pg =? -1).
Qed.

Lemma boundary_free j pg :
  boundary j → pt !! j = Some pg → pg_pid pg = -1 → boundary (S j).
Proof.
  intros Hb Hj Hfree. unfold boundary in *.
  replace (S j) with (j + 1)%nat by lia. rewrite <-!drop_drop, Hb, (drop_S _ _ _ Hj).
  cbn. by rewrite Hfree.
Qed.

(** The frame after a block, and the frames of the block. *)
Lemma boundary_block j pg m :
  boundary j → pt !! j = Some pg → pg_pid pg ≠ -1 → m = Nat.max 1 (Z.to_nat (pg_numpages pg)) →
  boundary (j + m) ∧ ∀ k, (j ≤ k < j + m)%nat → fm !! k ≠ Some true.
Proof.
  intros Hb Hj Hpid ->. unfold boundary in *.
  set (s := (Z.to_nat (pg_numpages pg) - 1)%nat).
  replace (Nat.max 1 (Z.to_nat (pg_numpages pg))) with (S s) by (unfold s; lia).
  assert (drop j fm = false :: free_from s (drop (S j) pt)) as Hd.
  { rewrite Hb, (drop_S _ _ _ Hj). cbn. by rewrite (proj2 (Z.eqb_neq _ _) Hpid). }
  split.
  - rewrite <-drop_drop, Hd. cbn. rewrite free_from_skip, drop_drop. do 2 f_equal. lia.
  - intros k Hk. replace k with (j + (k - j))%nat by lia. rewrite <-lookup_drop, Hd.
    destruct (k - j)%nat as [|d] eqn:E; cbn; [done|].
    intros H. apply free_from_skipped in H; [done|lia].
Qed.

Lemma getfreeframes_run_spec fuel i j :
  boundary j → (i ≤ j ≤ len)%nat → (j < i + n)%nat → (len - j < fuel)%nat →
  (∀ k, (i ≤ k < j)%nat → fm !! k = Some true) →
  getfreeframes_run fuel pt (Z.of_nat len) (Z.of_nat i) (Z.of_nat n) (Z.of_nat j) =
    Ok (run_free fm n i).
Proof.
  destruct Hpt as [Hlen _].
  revert j. induction fuel as [|fuel IH]; intros j Hb Hij Hjn Hf Hfree; [lia|].
  cbn [getfreeframes_run]. destruct (Z.ltb_spec (Z.of_nat j) (Z.of_nat len)) as [Hlt|Hge].
  - rewrite Nat2Z.id. assert (is_Some (pt !! j)) as [pg Hj] by (apply lookup_lt_is_Some_2; lia).
    rewrite Hj. pose proof (boundary_lookup j pg Hb Hj) as Hfm.
    destruct (Z.eqb_spec (pg_pid pg) (-1)) as [Hp|Hp]; cbn [negb].
    + rewrite u32_id by lia.
      assert (∀ k, (i ≤ k < S j)%nat → fm !! k = Some true) as Hfree'.
      { intros k Hk. destruct (decide (k = j)) as [->|]; [done|]. apply Hfree. lia. }
      destruct (Z.eqb_spec (Z.of_nat j - Z.of_nat i + 1) (Z.of_nat n)) as [Heq|Hne].
      * f_equal. symmetry. apply run_free_spec.
        split; [unfold free_map; rewrite length_free_from; lia|]. intros k Hk. apply Hfree'. lia.
      * rewrite u32_id by lia. replace (Z.of_nat j + 1) with (Z.of_nat (S j)) by lia.
        apply IH; [by eapply boundary_free|lia..|done].
    + f_equal. symmetry. apply run_free_false with j; [lia|]. by rewrite Hfm.
  - f_equal. symmetry. destruct (run_free fm n i) eqn:E; [|done].
    apply run_free_spec in E as [E _]. unfold free_map in E. rewrite length_free_from in E. lia.
Qed.

Definition fit_result (o : option nat) : Z :=
  match o with Some i => Z.of_nat i | None => -1 end.

Lemma getfreeframes_loop_spec fuel i :
  boundary i → (len - i < fuel)%nat → Z.of_nat i < 2 ^ 32 →
  (∀ k, (k < i)%nat → run_free fm n k = false) →
  getfreeframes_loop fuel pt (Z.of_nat len) (Z.of_nat n) (Z.of_nat i) =
    Ok (fit_result (first_fit fm n)).
Proof.
  destruct Hpt as [Hlen Hnum].
  revert i. induction fuel as [|fuel IH]; intros i Hb Hf Hi Hno; [lia|].
  cbn [getfreeframes_loop]. destruct (Z.ltb_spec (Z.of_nat i) (Z.of_nat len)) as [Hlt|Hge].
  2: { rewrite first_fit_None; [done|done|]. intros k Hk.
       unfold free_map in Hk. rewrite length_free_from in Hk. apply Hno. lia. }
  rewrite Nat2Z.id. assert (is_Some (pt !! i)) as [pg Hpg] by (apply lookup_lt_is_Some_2; lia).
  rewrite Hpg. destruct (Z.eqb_spec (pg_pid pg) (-1)) as [Hp|Hp].
  - rewrite getfreeframes_run_spec by (done || lia).
    destruct (run_free fm n i) eqn:E.
    + rewrite (first_fit_Some fm n i) by done. cbn. by rewrite s32_id by lia.
    + rewrite u32_id by lia. replace (Z.of_nat i + 1) with (Z.of_nat (S i)) by lia.
      apply IH; [by eapply boundary_free|lia..|].
      intros k Hk. destruct (decide (k = i)) as [->|]; [done|]. apply Hno. lia.
  - pose proof (proj1 (Forall_lookup _ _) Hnum i pg Hpg) as Hnp. cbn in Hnp.
    destruct (boundary_block i pg _ Hb Hpg Hp eq_refl) as [Hb' Hblk].
    set (m := Nat.max 1 (Z.to_nat (pg_numpages pg))) in *.
    assert (∀ k, (k < i + m)%nat → run_free fm n k = false) as Hno'.
    { intros k Hk. destruct (decide (k < i)%nat); [by apply Hno|].
      apply run_free_false with k; [lia|]. apply Hblk. lia. }
    destruct (Z.ltb_spec 0 (pg_numpages pg)) as [Hpos|Hzero].
    + rewrite !u32_id by (rewrite ?u32_id by lia; lia).
      replace (Z.of_nat i + (pg_numpages pg - 1) + 1) with (Z.of_nat (i + m)) by (unfold m; lia).
      apply IH; [done|unfold m; lia..|done].
    + rewrite u32_id by lia. replace (Z.of_nat i + 1) with (Z.of_nat (i + m)) by (unfold m; lia).
      apply IH; [done|unfold m; lia..|done].
Qed.
End getfreeframes.

Lemma getfreeframes_fit st n :
  numpages_ok (pagetable st) → (0 < n)%nat → Z.of_nat n < 2 ^ 32 →
  getfreeframes (Z.of_nat (length (pagetable st))) (Z.of_nat n) st =
    Ok (fit_result (first_fit (free_map (pagetable st)) n), st).
Proof.
  intros Hok Hn Hn32. unfold getfreeframes. change 0 with (Z.of_nat 0).
  rewrite getfreeframes_loop_spec; (done || lia).
Qed.

(** ** Blocks *)

(** How many entries after [pt] still belong to its last block. *)
Fixpoint skip_after (skip : nat) (pt : list ptpage) : nat :=
  match pt with
  | [] => skip
  | pg :: pt' =>
      match skip with
      | S k => skip_after k pt'
      | O => if pg_pid pg =? -1 then skip_after 0 pt'
             else skip_after (Z.to_nat (pg_numpages pg) - 1) pt'
      end
  end.

(** Entries inside a block look free, and blocks are not empty. *)
Fixpoint blocks_from (skip : nat) (pt : list ptpage) : Prop :=
  match pt with
  | [] => True
  | pg :: pt' =>
      match skip with
      | S k => pg_pid pg = -1 ∧ blocks_from k pt'
      | O => if pg_pid pg =? -1 then blocks_from 0 pt'
             else 0 < pg_numpages pg ∧ blocks_from (Z.to_nat (pg_numpages pg) - 1) pt'
      end
  end.

(** Moreover the last block ends inside the table. *)
Definition blocks_ok (pt : list ptpage) : Prop :=
  blocks_from 0 pt ∧ skip_after 0 pt = 0%nat.

Lemma free_from_app k l1 l2 :
  free_from k (l1 ++ l2) = free_from k l1 ++ free_from (skip_after k l1) l2.
Proof.
  revert k. induction l1 as [|pg l1 IH]; intros [|k]; cbn; try done.
  - case_match; cbn; by rewrite IH.
  - by rewrite IH.
Qed.

Lemma skip_after_app k l1 l2 : skip_after k (l1 ++ l2) = skip_after (skip_after k l1) l2.
Proof.
  revert k. induction l1 as [|pg l1 IH]; intros [|k]; cbn; try done. case_match; by rewrite IH.
Qed.

Lemma blocks_from_app k l1 l2 :
  blocks_from k (l1 ++ l2) ↔ blocks_from k l1 ∧ blocks_from (skip_after k l1) l2.
Proof.
  revert k. induction l1 as [|pg l1 IH]; intros [|k]; cbn; [naive_solver..| |].
  - case_match; rewrite IH; naive_solver.
  - rewrite IH. naive_solver.
Qed.

Lemma free_from_hdr k pt pt' :
  pg_hdr <$> pt = pg_hdr <$> pt' → free_from k pt = free_from k pt'.
Proof.
  revert k pt'. induction pt as [|pg pt IH]; intros k [|pg' pt']; try done.
  cbn. intros H. injection H as H1 H2 H3 H4. rewrite H1, H3. destruct k; [case_match|]; f_equal; auto.
Qed.

Lemma blocks_from_hdr k pt pt' :
  pg_hdr <$> pt = pg_hdr <$> pt' → blocks_from k pt → blocks_from k pt'.
Proof.
  revert k pt'. induction pt as [|pg pt IH]; intros k [|pg' pt']; try done.
  cbn. intros H. injection H as H1 H2 H3 H4. rewrite H1, H3.
  destruct k; [case_match|]; naive_solver.
Qed.

Lemma skip_after_hdr k pt pt' :
  pg_hdr <$> pt = pg_hdr <$> pt' → skip_after k pt = skip_after k pt'.
Proof.
  revert k pt'. induction pt as [|pg pt IH]; intros k [|pg' pt']; try done.
  cbn. intros H. injection H as H1 H2 H3 H4. rewrite H1, H3.
  destruct k; [case_match|]; auto.
Qed.

Lemma blocks_ok_hdr pt pt' :
  pg_hdr <$> pt = pg_hdr <$> pt' → blocks_ok pt → blocks_ok pt'.
Proof.
  intros H [H1 H2]. split; [by eapply blocks_from_hdr|]. by rewrite <-(skip_after_hdr _ _ _ H).
Qed.

(** A run of free entries, and a block laid over it. *)
Lemma free_run n pt :
  (n ≤ length pt)%nat → (∀ k, (k < n)%nat → free_from 0 pt !! k = Some true) →
  Forall (λ pg, pg_pid pg = -1) (take n pt) ∧ skip_after 0 (take n pt) = 0%nat.
Proof.
  revert pt. induction n as [|n IH]; intros [|pg pt] Hlen H; cbn in Hlen; try lia; [done..|].
  pose proof (H 0%nat ltac:(lia)) as H0. cbn in H0.
  destruct (Z.eqb_spec (pg_pid pg) (-1)) as [Hp|]; [|done].
  destruct (IH pt) as [IH1 IH2]; [lia| |].
  - intros k Hk. specialize (H (S k) ltac:(lia)). cbn in H. by rewrite (proj2 (Z.eqb_eq _ _) Hp) in H.
  - cbn. rewrite (proj2 (Z.eqb_eq _ _) Hp). auto.
Qed.

Lemma free_from_all_free l1 l2 :
  Forall (λ pg, pg_pid pg = -1) l1 →
  free_from 0 (l1 ++ l2) = replicate (length l1) true ++ free_from 0 l2.
Proof. induction 1 as [|pg l1 Hp _ IH]; cbn; [done|]. rewrite Hp. cbn. by rewrite IH. Qed.

Lemma free_from_covered l1 l2 :
  free_from (length l1) (l1 ++ l2) = replicate (length l1) false ++ free_from 0 l2.
Proof. induction l1 as [|pg l1 IH]; cbn; [done|]. by rewrite IH. Qed.

Lemma all_free_skip l : Forall (λ pg, pg_pid pg = -1) l →
  skip_after 0 l = 0%nat ∧ skip_after (length l) l = 0%nat ∧
  blocks_from 0 l ∧ blocks_from (length l) l.
Proof. induction 1 as [|pg l Hp _ IH]; cbn; [done|]. rewrite Hp. cbn. naive_solver. Qed.

Lemma covered_free k pt :
  blocks_from k pt → skip_after k pt = 0%nat →
  (k ≤ length pt)%nat ∧ Forall (λ pg, pg_pid pg = -1) (take k pt).
Proof.
  revert pt. induction k as [|k IH]; intros pt.
  { intros _ _. split; [lia|]. by rewrite take_0. }
  destruct pt as [|pg pt]; cbn; [done|]. intros [Hp Hb] Hs. destruct (IH pt Hb Hs). split; [lia|]. by constructor.
Qed.

Lemma free_boundary pt i : free_map pt !! i = Some true → skip_after 0 (take i pt) = 0%nat.
Proof.
  intros Hi. unfold free_map in Hi. rewrite <-(take_drop i pt), free_from_app in Hi.
  pose proof (lookup_lt_Some _ _ _ Hi) as Hlt.
  rewrite length_app, !length_free_from, <-length_app, take_drop in Hlt.
  rewrite lookup_app_r in Hi by (rewrite length_free_from, length_take; lia).
  rewrite length_free_from, length_take, Nat.min_l, Nat.sub_diag in Hi by lia.
  destruct (skip_after 0 (take i pt)) as [|s]; [done|]. by destruct (drop i pt).
Qed.

Lemma used_boundary pt i pg :
  blocks_ok pt → pt !! i = Some pg → pg_pid pg ≠ -1 → skip_after 0 (take i pt) = 0%nat.
Proof.
  intros [Hb _] Hi Hp. rewrite <-(take_drop i pt) in Hb. apply blocks_from_app in Hb as [_ Hb].
  rewrite (drop_S _ _ _ Hi) in Hb. destruct (skip_after 0 (take i pt)); [done|].
  cbn in Hb. by destruct Hb.
Qed.

(** A block [pb] and the same frames free, headed by [pf]. *)
Lemma block_toggle l1 pf pb l2 l3 :
  skip_after 0 l1 = 0%nat → Forall (λ pg, pg_pid pg = -1) l2 →
  pg_pid pf = -1 → pg_pid pb ≠ -1 → pg_numpages pb = Z.of_nat (S (length l2)) →
  free_map (l1 ++ pf :: l2 ++ l3) =
    free_from 0 l1 ++ replicate (S (length l2)) true ++ free_from 0 l3 ∧
  free_map (l1 ++ pb :: l2 ++ l3) =
    free_from 0 l1 ++ replicate (S (length l2)) false ++ free_from 0 l3 ∧
  (blocks_ok (l1 ++ pf :: l2 ++ l3) ↔ blocks_ok (l1 ++ pb :: l2 ++ l3)).
Proof.
  intros H0 Hl2 Hpf Hpb Hnum. apply Z.eqb_eq in Hpf. apply Z.eqb_neq in Hpb.
  assert (Z.to_nat (pg_numpages pb) - 1 = length l2)%nat as Hm by (rewrite Hnum; lia).
  destruct (all_free_skip l2 Hl2) as (Hk1 & Hk2 & Hk3 & Hk4).
  unfold free_map, blocks_ok. rewrite !free_from_app, !blocks_from_app, !skip_after_app, H0.
  cbn. rewrite Hpf, Hpb, Hm, free_from_covered, free_from_all_free by done.
  rewrite !blocks_from_app, !skip_after_app, Hk1, Hk2. naive_solver lia.
Qed.

Lemma insert_middle {A} (l1 : list A) x y l2 : <[length l1 := y]> (l1 ++ x :: l2) = l1 ++ y :: l2.
Proof. by rewrite insert_app_r_alt, Nat.sub_diag by done. Qed.

(** Splitting the two maps of [block_toggle] at the block. *)
Lemma toggle_split i (l1 : list bool) n b b' l3 :
  length l1 = i →
  l1 ++ replicate n b' ++ l3 =
    take i (l1 ++ replicate n b ++ l3) ++ replicate n b' ++ drop (i + n) (l1 ++ replicate n b ++ l3).
Proof.
  intros <-. rewrite take_app_length. do 2 f_equal. rewrite app_assoc, drop_app_length'; [done|].
  by rewrite length_app, length_replicate.
Qed.

(** Laying a block over free frames. *)
Lemma block_set pt i n np :
  blocks_ok pt → (0 < n)%nat → run_free (free_map pt) n i = true →
  pg_pid np ≠ -1 → pg_numpages np = Z.of_nat n →
  free_map (<[i := np]> pt) =
    take i (free_map pt) ++ replicate n false ++ drop (i + n) (free_map pt) ∧
  blocks_ok (<[i := np]> pt).
Proof.
  intros Hb Hn [Hlen Hrun]%run_free_spec Hpid Hnum.
  unfold free_map in Hlen. rewrite length_free_from in Hlen.
  pose proof (free_boundary pt i (Hrun i ltac:(lia))) as H0.
  assert (is_Some (pt !! i)) as [pg Hpg] by (apply lookup_lt_is_Some_2; lia).
  assert (length (take i pt) = i) as Hl1 by (rewrite length_take; lia).
  destruct (free_run n (drop i pt)) as [Hfree _].
  { rewrite length_drop. lia. }
  { intros k Hk. rewrite <-(Hrun (i + k)%nat) by lia. unfold free_map.
    rewrite <-(take_drop i pt) at 2. rewrite free_from_app, H0.
    rewrite lookup_app_r by (rewrite length_free_from; lia).
    f_equal. rewrite length_free_from. lia. }
  rewrite (drop_S _ _ _ Hpg) in Hfree. destruct n as [|n]; [lia|]. cbn in Hfree.
  apply Forall_cons in Hfree as [Hpg1 Hfree].
  assert (length (take n (drop (S i) pt)) = n) as Hl2 by (rewrite length_take, length_drop; lia).
  destruct (block_toggle (take i pt) pg np (take n (drop (S i) pt)) (drop n (drop (S i) pt)))
    as (Hf1 & Hf2 & Hf3); try done.
  { by rewrite Hl2. }
  assert (take i pt ++ pg :: take n (drop (S i) pt) ++ drop n (drop (S i) pt) = pt) as Hpt
    by (by rewrite take_drop, take_drop_middle).
  assert (<[i := np]> pt = take i pt ++ np :: take n (drop (S i) pt) ++ drop n (drop (S i) pt))
    as Hpt' by (rewrite <-Hpt at 1; rewrite <-Hl1 at 1; apply insert_middle).
  rewrite Hpt in Hf1, Hf3. rewrite Hpt'. split; [|by apply Hf3].
  rewrite Hf2, Hf1, Hl2. apply toggle_split. by rewrite length_free_from.
Qed.

(** Freeing a block. *)
Lemma block_clear pt i pg np :
  blocks_ok pt → pt !! i = Some pg → pg_pid pg ≠ -1 → pg_pid np = -1 →
  free_map (<[i := np]> pt) =
    take i (free_map pt) ++ replicate (Z.to_nat (pg_numpages pg)) true ++
    drop (i + Z.to_nat (pg_numpages pg)) (free_map pt) ∧
  blocks_ok (<[i := np]> pt).
Proof.
  intros Hb Hpg Hpid Hnp. pose proof (used_boundary pt i pg Hb Hpg Hpid) as H0.
  pose proof (lookup_lt_Some _ _ _ Hpg) as Hlt.
  assert (length (take i pt) = i) as Hl1 by (rewrite length_take; lia).
  assert (0 < pg_numpages pg ∧ blocks_from (Z.to_nat (pg_numpages pg) - 1) (drop (S i) pt) ∧
    skip_after (Z.to_nat (pg_numpages pg) - 1) (drop (S i) pt) = 0%nat) as (Hpos & Hb1 & Hs1).
  { destruct Hb as [Hb Hs]. rewrite <-(take_drop_middle pt i pg Hpg) in Hb, Hs.
    rewrite blocks_from_app, H0 in Hb. rewrite skip_after_app, H0 in Hs. cbn in Hb, Hs.
    rewrite (proj2 (Z.eqb_neq _ _) Hpid) in Hb, Hs. naive_solver. }
  destruct (Z.to_nat (pg_numpages pg)) as [|n] eqn:En; [lia|].
  replace (S n - 1)%nat with n in * by lia.
  destruct (covered_free n _ Hb1 Hs1) as [Hlen Hfree].
  assert (length (take n (drop (S i) pt)) = n) as Hl2 by (rewrite length_take; lia).
  destruct (block_toggle (take i pt) np pg (take n (drop (S i) pt)) (drop n (drop (S i) pt)))
    as (Hf1 & Hf2 & Hf3); try done.
  { rewrite Hl2. lia. }
  assert (take i pt ++ pg :: take n (drop (S i) pt) ++ drop n (drop (S i) pt) = pt) as Hpt
    by (by rewrite take_drop, take_drop_middle).
  assert (<[i := np]> pt = take i pt ++ np :: take n (drop (S i) pt) ++ drop n (drop (S i) pt))
    as Hpt' by (rewrite <-Hpt at 1; rewrite <-Hl1 at 1; apply insert_middle).
  rewrite Hpt in Hf2, Hf3. rewrite Hpt'. split; [|by apply Hf3].
  rewrite Hf2, Hf1, Hl2. apply toggle_split. by rewrite length_free_from.
Qed.
