(* ===== verification/Spinlock.v ===== *)
(** * Interrupt levels and spinlocks ([kern/thread/spl.c], [kern/thread/spinlock.c])

    The state is that of the processor the code runs on: the counters that
    [struct cpu] and the current [struct thread] keep, and whether interrupts
    are enabled.  A lock held by another processor makes [spinlock_acquire]
    wait for a step of that processor, which a sequential run does not have:
    the outcome is [Hang].  Memory barriers and the deadlock detector (option
    hangman, off in the PAGING configuration) have no sequential effect. *)

From S2P Require Import Prelude.

Definition IPL_NONE : Z := 0.
Definition IPL_HIGH : Z := 1.
#[global] Arguments IPL_NONE : simpl never.
#[global] Arguments IPL_HIGH : simpl never.

(** The fields of [curcpu] and [curthread] that these files use;
    [c_exists] is [CURCPU_EXISTS()], [irq_on] the interrupt enable bit. *)
Record cpu : Type := mk_cpu {
  c_exists : bool;
  c_self : nat;
  c_spinlocks : Z;
  t_iplhigh_count : Z;
  t_curspl : Z;
  t_in_interrupt : bool;
  irq_on : bool
}.

(** [struct spinlock] *)
Record spinlock : Type := mk_spinlock {
  splk_lock : Z;
  splk_holder : option nat
}.

Definition SPINLOCK_INITIALIZER : spinlock := mk_spinlock 0 None.

Definition set_irq (b : bool) (c : cpu) : cpu :=
  mk_cpu (c_exists c) (c_self c) (c_spinlocks c) (t_iplhigh_count c) (t_curspl c)
    (t_in_interrupt c) b.
Definition set_iplhigh (n : Z) (c : cpu) : cpu :=
  mk_cpu (c_exists c) (c_self c) (c_spinlocks c) n (t_curspl c) (t_in_interrupt c) (irq_on c).
Definition set_curspl (n : Z) (c : cpu) : cpu :=
  mk_cpu (c_exists c) (c_self c) (c_spinlocks c) (t_iplhigh_count c) n (t_in_interrupt c) (irq_on c).
Definition set_spinlocks (n : Z) (c : cpu) : cpu :=
  mk_cpu (c_exists c) (c_self c) n (t_iplhigh_count c) (t_curspl c) (t_in_interrupt c) (irq_on c).

(** ** Interrupt levels *)

Definition splraise (oldspl newspl : Z) : M cpu () :=
  kassert (oldspl =? IPL_NONE) "oldspl == IPL_NONE" ;;
  kassert (newspl =? IPL_HIGH) "newspl == IPL_HIGH" ;;
  c ← gets id;
  if negb (c_exists c) then mret tt
  else
    (if t_iplhigh_count c =? 0 then modify (set_irq false) else mret tt) ;;
    modify (λ c, set_iplhigh (s32 (t_iplhigh_count c + 1)) c).

Definition spllower (oldspl newspl : Z) : M cpu () :=
  kassert (oldspl =? IPL_HIGH) "oldspl == IPL_HIGH" ;;
  kassert (newspl =? IPL_NONE) "newspl == IPL_NONE" ;;
  c ← gets id;
  if negb (c_exists c) then mret tt
  else
    modify (λ c, set_iplhigh (s32 (t_iplhigh_count c - 1)) c) ;;
    n ← gets t_iplhigh_count;
    if n =? 0 then modify (set_irq true) else mret tt.

Definition splx (spl : Z) : M cpu Z :=
  c ← gets id;
  if negb (c_exists c) then mret spl
  else if t_curspl c <? spl then
    splraise (t_curspl c) spl ;;
    ret ← gets t_curspl;
    modify (set_curspl spl) ;;
    mret ret
  else if spl <? t_curspl c then
    ret ← gets t_curspl;
    modify (set_curspl spl) ;;
    spllower ret spl ;;
    mret ret
  else mret spl.

Definition splhigh : M cpu Z := splx IPL_HIGH.
Definition spl0 : M cpu Z := splx IPL_NONE.

(** ** Spinlocks *)

Definition on_cpu {A} (m : M cpu A) : M (cpu * spinlock) A :=
  zoom fst (λ c s, (c, s.2)) m.

Definition set_lock (v : Z) (l : spinlock) : spinlock := mk_spinlock v (splk_holder l).
Definition set_holder (v : option nat) (l : spinlock) : spinlock := mk_spinlock (splk_lock l) v.
Definition on_lock (f : spinlock → spinlock) : M (cpu * spinlock) () :=
  modify (λ s, (s.1, f s.2)).

Definition spinlock_init : M (cpu * spinlock) () :=
  on_lock (set_lock 0) ;;
  on_lock (set_holder None).

Definition spinlock_cleanup : M (cpu * spinlock) () :=
  s ← gets id;
  kassert (bool_decide (splk_holder s.2 = None)) "splk->splk_holder == NULL" ;;
  kassert (splk_lock s.2 =? 0) "spinlock_data_get(&splk->splk_lock) == 0".

Definition spinlock_acquire : M (cpu * spinlock) () :=
  on_cpu (splraise IPL_NONE IPL_HIGH) ;;
  s ← gets id;
  mycpu ←
    (if c_exists s.1 then
       if decide (splk_holder s.2 = Some (c_self s.1)) then halt (Panic "Deadlock on spinlock")
       else
         on_cpu (modify (λ c, set_spinlocks (u32 (c_spinlocks c + 1)) c)) ;;
         mret (Some (c_self s.1))
     else mret None);
  s ← gets id;
  (if splk_lock s.2 =? 0 then on_lock (set_lock 1) else halt Hang) ;;
  on_lock (set_holder mycpu).

Definition spinlock_release : M (cpu * spinlock) () :=
  s ← gets id;
  (if c_exists s.1 then
     kassert (bool_decide (splk_holder s.2 = Some (c_self s.1)))
       "splk->splk_holder == curcpu->c_self" ;;
     kassert (0 <? c_spinlocks s.1) "curcpu->c_spinlocks > 0" ;;
     on_cpu (modify (λ c, set_spinlocks (u32 (c_spinlocks c - 1)) c))
   else mret tt) ;;
  on_lock (set_holder None) ;;
  on_lock (set_lock 0) ;;
  on_cpu (spllower IPL_HIGH IPL_NONE).

Definition spinlock_do_i_hold : M (cpu * spinlock) bool :=
  s ← gets id;
  if negb (c_exists s.1) then mret true
  else mret (bool_decide (splk_holder s.2 = Some (c_self s.1))).

(** ** The invariant of the counters

    Interrupts are on exactly when nothing has raised the level; each held
    spinlock and a raised [t_curspl] count for one. *)
Record cpu_ok (c : cpu) : Prop := {
  cpu_exists : c_exists c = true;
  cpu_count : t_iplhigh_count c = c_spinlocks c + t_curspl c;
  cpu_spl : t_curspl c = IPL_NONE ∨ t_curspl c = IPL_HIGH;
  cpu_locks : 0 ≤ c_spinlocks c < 2 ^ 30;
  cpu_irq : irq_on c = (t_iplhigh_count c =? 0)
}.

(** A lock is free, or held by this processor. *)
Definition lock_free (l : spinlock) : Prop := l = SPINLOCK_INITIALIZER.
Definition lock_mine (c : cpu) (l : spinlock) : Prop := l = mk_spinlock 1 (Some (c_self c)).

(** The processor inside [n] more critical sections. *)
Definition cpu_raise (n : Z) (c : cpu) : cpu :=
  mk_cpu (c_exists c) (c_self c) (c_spinlocks c + n) (t_iplhigh_count c + n) (t_curspl c)
    (t_in_interrupt c) (t_iplhigh_count c + n =? 0).

Lemma cpu_raise_ok n c :
  cpu_ok c → 0 ≤ c_spinlocks c + n < 2 ^ 30 → cpu_ok (cpu_raise n c).
Proof. intros [? ? ? ? ?] ?. split; cbn; (done || lia). Qed.

Lemma cpu_raise_0 c : cpu_ok c → cpu_raise 0 c = c.
Proof.
  intros [? ? ? ? Hirq]. destruct c. unfold cpu_raise. cbn in *. rewrite !Z.add_0_r. by rewrite Hirq.
Qed.

Lemma cpu_raise_raise m n c : cpu_raise m (cpu_raise n c) = cpu_raise (n + m) c.
Proof. unfold cpu_raise. cbn. f_equal; [lia..|]. f_equal. lia. Qed.

(** ** What the operations do *)

Lemma splraise_ok c :
  cpu_ok c → c_spinlocks c + 1 < 2 ^ 30 →
  splraise IPL_NONE IPL_HIGH c =
    Ok (tt, set_irq false (set_iplhigh (t_iplhigh_count c + 1) c)).
Proof.
  intros [He Hc Hs Hl Hi] Hb. unfold splraise, IPL_NONE, IPL_HIGH in *. destruct c; cbn in *. subst.
  mred. cbn. destruct (Z.eqb_spec (c_spinlocks0 + t_curspl0) 0); cbn; by rewrite s32_id by lia.
Qed.

Lemma spllower_ok c :
  c_exists c = true → 0 < t_iplhigh_count c < 2 ^ 31 → irq_on c = false →
  spllower IPL_HIGH IPL_NONE c =
    Ok (tt, set_irq (t_iplhigh_count c - 1 =? 0) (set_iplhigh (t_iplhigh_count c - 1) c)).
Proof.
  intros He Hc Hi. unfold spllower, IPL_HIGH, IPL_NONE. destruct c; cbn in *. subst. mred. cbn.
  rewrite s32_id by lia. by destruct (Z.eqb_spec (t_iplhigh_count0 - 1) 0).
Qed.

Lemma spinlock_acquire_ok c l :
  cpu_ok c → c_spinlocks c + 1 < 2 ^ 30 → lock_free l →
  spinlock_acquire (c, l) = Ok (tt, (cpu_raise 1 c, mk_spinlock 1 (Some (c_self c)))).
Proof.
  intros Hok Hb ->. unfold spinlock_acquire.
  rewrite (bind_ok _ _ _ tt (set_irq false (set_iplhigh (t_iplhigh_count c + 1) c), SPINLOCK_INITIALIZER)).
  2: { unfold on_cpu, zoom. cbn [fst snd]. by rewrite splraise_ok. }
  destruct Hok as [He Hc Hs Hl Hi]. destruct c; cbn in *. subst.
  unfold on_cpu, on_lock. mred. unfold zoom. cbn.
  rewrite decide_False by done. cbn. rewrite u32_id by lia.
  unfold cpu_raise, set_spinlocks, set_irq. cbn. do 4 f_equal.
  symmetry. apply Z.eqb_neq. unfold IPL_NONE, IPL_HIGH in *. lia.
Qed.

Lemma spinlock_release_ok c l :
  cpu_ok c → 0 < c_spinlocks c → lock_mine c l →
  spinlock_release (c, l) = Ok (tt, (cpu_raise (-1) c, SPINLOCK_INITIALIZER)).
Proof.
  intros [He Hc Hs Hl Hi] Hb ->. unfold spinlock_release. unfold IPL_NONE, IPL_HIGH in Hs.
  destruct c; cbn in *. subst. unfold on_lock, on_cpu. mred. unfold zoom. cbn [fst snd c_exists id].
  rewrite bool_decide_true by done. cbn -[spllower].
  rewrite (proj2 (Z.ltb_lt 0 c_spinlocks0)) by lia. cbn -[spllower]. rewrite u32_id by lia.
  rewrite spllower_ok; [done|done|cbn; lia|cbn; apply Z.eqb_neq; lia].
Qed.

(** Taking a lock twice, or releasing one that is not held, stops the machine. *)
Lemma spinlock_acquire_deadlock c l :
  cpu_ok c → c_spinlocks c + 1 < 2 ^ 30 → splk_holder l = Some (c_self c) →
  spinlock_acquire (c, l) = Stop (Panic "Deadlock on spinlock").
Proof.
  intros Hok Hb Hh. unfold spinlock_acquire.
  rewrite (bind_ok _ _ _ tt (set_irq false (set_iplhigh (t_iplhigh_count c + 1) c), l)).
  2: { unfold on_cpu, zoom. cbn [fst snd]. by rewrite splraise_ok. }
  destruct Hok as [He _ _ _ _]. destruct c, l; cbn in *. subst.
  mred. cbn. by rewrite decide_True.
Qed.

Lemma spinlock_release_unheld c l :
  c_exists c = true → splk_holder l ≠ Some (c_self c) →
  spinlock_release (c, l) = Stop (AssertFail "splk->splk_holder == curcpu->c_self").
Proof.
  intros He Hh. unfold spinlock_release. mred. cbn. rewrite He.
  by rewrite bool_decide_false.
Qed.

(** [splhigh] and the [splx] that undoes it *)
Definition cpu_high (c : cpu) : cpu :=
  if t_curspl c =? IPL_HIGH then c
  else mk_cpu (c_exists c) (c_self c) (c_spinlocks c) (t_iplhigh_count c + 1) IPL_HIGH
         (t_in_interrupt c) false.

Lemma cpu_high_ok c : cpu_ok c → cpu_ok (cpu_high c).
Proof.
  intros [He Hc Hs Hl Hi]. unfold cpu_high, IPL_NONE, IPL_HIGH in *.
  destruct (Z.eqb_spec (t_curspl c) 1); split; cbn; try (done || lia).
  - by right.
Qed.

Lemma splhigh_ok c :
  cpu_ok c → c_spinlocks c + 1 < 2 ^ 30 → splhigh c = Ok (t_curspl c, cpu_high c).
Proof.
  intros Hok Hb. pose proof Hok as [He Hc Hs Hl Hi]. unfold splhigh, splx, cpu_high.
  mred. unfold id. rewrite He. cbn [negb]. destruct Hs as [Hs|Hs]; rewrite Hs.
  - change (IPL_NONE <? IPL_HIGH) with true. cbv beta iota. rewrite splraise_ok by done.
    cbn. rewrite Hs. destruct c; cbn in *. by subst.
  - done.
Qed.

Lemma splx_restore c c' :
  cpu_ok c → c' = cpu_high c → ∃ r, splx (t_curspl c) c' = Ok (r, c).
Proof.
  intros Hok ->. pose proof Hok as [He Hc Hs Hl Hi]. unfold splx, cpu_high.
  mred. unfold id. destruct Hs as [Hs|Hs]; rewrite Hs.
  - change (IPL_NONE =? IPL_HIGH) with false. cbn -[spllower]. rewrite He.
    cbn -[spllower]. change (IPL_HIGH <? IPL_NONE) with false.
    change (IPL_NONE <? IPL_HIGH) with true. cbn -[spllower]. exists IPL_HIGH.
    rewrite spllower_ok; cbn; [|done|unfold IPL_NONE, IPL_HIGH in *; lia|done].
    do 2 f_equal. destruct c; cbn in *. subst. unfold set_irq, set_iplhigh. cbn.
    f_equal; [lia|]. f_equal. lia.
  - change (IPL_HIGH =? IPL_HIGH) with true. cbv beta iota. rewrite He, Hs.
    change (IPL_HIGH <? IPL_HIGH) with false. cbn. eauto.
Qed.
