(* ===== verification/Kernel.v ===== *)
(** * The kernel state of the paging system

    The global variables of [kern/vm], the processor, physical memory, the
    processes, and the interface of files.  The file system is not part of
    the paging code: [VnodeOps] is the interface of [VOP_READ] and [VOP_WRITE]
    and [VnodeLaws] what [kern/include/vnode.h] documents of it for regular
    files. *)

From S2P Require Import Prelude Machine Spinlock Pt.

(** ** Data transfers ([kern/include/uio.h], [kern/lib/uio.c]) *)

Inductive uio_rw_t : Type := UIO_READ | UIO_WRITE.
#[export] Instance uio_rw_eq_dec : EqDecision uio_rw_t.
Proof. solve_decision. Defined.
Inductive uio_seg_t : Type := UIO_USERISPACE | UIO_USERSPACE | UIO_SYSSPACE.
#[export] Instance uio_seg_eq_dec : EqDecision uio_seg_t.
Proof. solve_decision. Defined.

(** [struct iovec]: a buffer *)
Record iovec : Type := mk_iovec { iov_base : Z; iov_len : Z }.

(** [struct uio]; [uio_iov] and [uio_iovcnt] are the buffers left to use *)
Record uio : Type := mk_uio {
  uio_iov : list iovec;
  uio_offset : Z;
  uio_resid : Z;
  uio_segflg : uio_seg_t;
  uio_rw : uio_rw_t;
  uio_space : option nat
}.

Definition uio_kinit (kbuf len pos : Z) (rw : uio_rw_t) : uio :=
  mk_uio [mk_iovec kbuf len] pos len UIO_SYSSPACE rw None.

(** ** The interface of files *)

(** [VOP_READ] and [VOP_WRITE] return an error code and update the transfer,
    memory and the file system. A [struct vnode *] is a number. *)
Class VnodeOps : Type := {
  fsstate : Type;
  vop_read : Z → uio → memory → fsstate → Z * uio * memory * fsstate;
  vop_write : Z → uio → memory → fsstate → Z * uio * memory * fsstate
}.

(** Bytes of a file of content [data], and the content after a write. *)
Definition file_read (off len : Z) (data : list Z) : list Z :=
  take (Z.to_nat len) (drop (Z.to_nat off) data).
Definition file_write (off : Z) (bs data : list Z) : list Z :=
  take (Z.to_nat off) data ++ replicate (Z.to_nat off - length data) 0 ++ bs ++
  drop (Z.to_nat off + length bs) data.

Lemma file_write_lookup off bs data n :
  0 ≤ off →
  file_write off bs data !! n =
    if decide (off ≤ Z.of_nat n < off + Z.of_nat (length bs)) then bs !! (n - Z.to_nat off)%nat
    else if decide (Z.of_nat n < off) then Some (default 0 (data !! n))
    else data !! n.
Proof.
  intros Hoff. unfold file_write. rewrite !lookup_app, length_take, length_replicate, lookup_drop.
  case_decide as H1; [|case_decide as H2].
  - rewrite lookup_ge_None_2 by (rewrite length_take; lia).
    rewrite lookup_ge_None_2 by (rewrite length_replicate; lia).
    replace (n - _ - _)%nat with (n - Z.to_nat off)%nat by lia.
    destruct (bs !! (n - Z.to_nat off)%nat) eqn:E; [done|]. apply lookup_ge_None in E. lia.
  - destruct (data !! n) as [x|] eqn:E.
    + apply lookup_lt_Some in E as Hlt. rewrite lookup_take_lt, E by lia. done.
    + apply lookup_ge_None in E. rewrite (lookup_ge_None_2 (take _ _)) by (rewrite length_take; lia).
      rewrite lookup_replicate_2 by lia. done.
  - rewrite lookup_ge_None_2 by (rewrite length_take; lia).
    rewrite lookup_ge_None_2 by (rewrite length_replicate; lia).
    rewrite lookup_ge_None_2 by lia. f_equal. lia.
Qed.

Lemma length_file_write off bs data :
  0 ≤ off → length (file_write off bs data) = Nat.max (length data) (Z.to_nat off + length bs).
Proof.
  intros. unfold file_write. rewrite !length_app, length_take, length_replicate, length_drop. lia.
Qed.

Lemma length_file_read_le off len data : 0 ≤ len → Z.of_nat (length (file_read off len data)) ≤ len.
Proof. intros H. unfold file_read. rewrite length_take. lia. Qed.

Lemma length_file_read off len data :
  0 ≤ off → 0 ≤ len → off + len ≤ Z.of_nat (length data) → Z.of_nat (length (file_read off len data)) = len.
Proof. intros. unfold file_read. rewrite length_take, length_drop. lia. Qed.

Lemma file_read_write off bs data :
  0 ≤ off → file_read off (Z.of_nat (length bs)) (file_write off bs data) = bs.
Proof.
  intros Hoff. apply list_eq. intros i. unfold file_read.
  destruct (decide (i < length bs)%nat) as [Hi|Hi].
  - rewrite lookup_take_lt, lookup_drop, file_write_lookup by lia.
    rewrite decide_True by lia. f_equal. lia.
  - rewrite !lookup_ge_None_2; [done|lia|rewrite length_take; lia].
Qed.

Lemma file_read_write_ne off bs data off' len :
  0 ≤ off → 0 ≤ off' → off' + len ≤ Z.of_nat (length data) →
  off' + len ≤ off ∨ off + Z.of_nat (length bs) ≤ off' →
  file_read off' len (file_write off bs data) = file_read off' len data.
Proof.
  intros H0 H0' Hlen Hdis. apply list_eq. intros i. unfold file_read.
  destruct (decide (Z.of_nat i < len)) as [Hi|Hi].
  - rewrite !lookup_take_lt, !lookup_drop, file_write_lookup by lia.
    rewrite decide_False by lia. case_decide; [|done].
    destruct (data !! _) eqn:E; [done|]. apply lookup_ge_None in E. lia.
  - rewrite !lookup_ge_None_2; [done|rewrite length_take; lia..].
Qed.

(** A kernel buffer in the directly mapped segment. *)
Definition kbuf_ok (kbuf len : Z) : Prop := MIPS_KSEG0 ≤ kbuf ∧ kbuf + len ≤ 2 ^ 32 ∧ 0 ≤ len.

(** What the paging code relies on: on a usable file, a kernel transfer
    succeeds, moves the bytes at the offset, and leaves the rest alone. *)
Class VnodeLaws (ops : VnodeOps) : Type := {
  file_data : fsstate → Z → list Z;
  vnode_ok : fsstate → Z → Prop;
  vop_read_law v kbuf len off m fs :
    vnode_ok fs v → kbuf_ok kbuf len → 0 ≤ off →
    ∃ u' fs', vop_read v (uio_kinit kbuf len off UIO_READ) m fs =
        (0, u', mem_write m (kbuf - MIPS_KSEG0) (file_read off len (file_data fs v)), fs') ∧
      uio_resid u' = len - Z.of_nat (length (file_read off len (file_data fs v))) ∧
      (∀ w, file_data fs' w = file_data fs w) ∧ (∀ w, vnode_ok fs w → vnode_ok fs' w);
  vop_write_law v kbuf len off m fs :
    vnode_ok fs v → kbuf_ok kbuf len → 0 ≤ off →
    ∃ u' fs', vop_write v (uio_kinit kbuf len off UIO_WRITE) m fs = (0, u', m, fs') ∧
      file_data fs' v = file_write off (mem_read m (kbuf - MIPS_KSEG0) len) (file_data fs v) ∧
      (∀ w, w ≠ v → file_data fs' w = file_data fs w) ∧ (∀ w, vnode_ok fs w → vnode_ok fs' w)
}.

(** ** Structures *)

(** [struct swappage] *)
Record swappage : Type := mk_swappage { sw_pid : Z; sw_addr : Z }.

(** The TLB (pairs of entryhi and entrylo) and the static variables of
    vm_tlb.c *)
Record tlbst : Type := mk_tlbst {
  tlb_entries : list (Z * Z);
  tlbindex : Z;
  tlbinvalidatedindex : Z;
  lastpid : Z
}.

(** [struct segment]; [loadedelf] is its array of [numpages] bytes *)
Record segment : Type := mk_segment {
  numpages : Z;
  elfdata : option Z;
  loadedelf : option (list Z);
  elfoffset : Z;
  startaddr : Z;
  stackseg : bool;
  permissions : Z
}.

(** [struct addrspace] *)
Record addrspace : Type := mk_addrspace {
  seg1 : option segment;
  seg2 : option segment;
  segstack : option segment
}.

(** [struct proc]; [p_sem] is the count of the semaphore [p_sem] points to,
    [fileTable] holds pointers into the system file table *)
Record proc : Type := mk_proc {
  p_name : string;
  p_lock : spinlock;
  p_numthreads : Z;
  p_addrspace : option addrspace;
  p_cwd : option Z;
  p_status : Z;
  p_pid : Z;
  p_sem : option Z;
  fileTable : list (option nat)
}.

(** The static variables of ram.c *)
Record ramst : Type := mk_ramst { firstpaddr : Z; lastpaddr : Z }.

(** The global spinlocks of kern/vm *)
Inductive lockid : Type := Ptspin | Stealmem_lock | Swapspin | Statspin.
Record locks : Type := mk_locks {
  ptspin : spinlock;
  stealmem_lock : spinlock;
  swapspin : spinlock;
  statspin : spinlock
}.

Section kernel.
Context {ops : VnodeOps}.

(** The whole state.  [k_mallocs] says which of the coming calls of [kmalloc]
    succeed (all of them once the list is used up). *)
Record kernel : Type := mk_kernel {
  k_cpu : cpu;
  k_locks : locks;
  k_ram : ramst;
  k_pt : ptst;
  k_ptsize : Z;
  k_hashedptsize : Z;
  k_isAct : Z;
  k_swapfile : Z;
  k_swapmap : list swappage;
  k_maxind : Z;
  k_stats : list Z;
  k_tlb : tlbst;
  k_mem : memory;
  k_fs : fsstate;
  k_procs : gmap nat proc;
  k_curproc : option nat;
  k_mallocs : list bool
}.

Definition set_k_cpu (v : cpu) (x : kernel) : kernel :=
  mk_kernel v (k_locks x) (k_ram x) (k_pt x) (k_ptsize x) (k_hashedptsize x) (k_isAct x) (k_swapfile x) (k_swapmap x) (k_maxind x) (k_stats x) (k_tlb x) (k_mem x) (k_fs x) (k_procs x) (k_curproc x) (k_mallocs x).
Definition set_k_locks (v : locks) (x : kernel) : kernel :=
  mk_kernel (k_cpu x) v (k_ram x) (k_pt x) (k_ptsize x) (k_hashedptsize x) (k_isAct x) (k_swapfile x) (k_swapmap x) (k_maxind x) (k_stats x) (k_tlb x) (k_mem x) (k_fs x) (k_procs x) (k_curproc x) (k_mallocs x).
Definition set_k_ram (v : ramst) (x : kernel) : kernel :=
  mk_kernel (k_cpu x) (k_locks x) v (k_pt x) (k_ptsize x) (k_hashedptsize x) (k_isAct x) (k_swapfile x) (k_swapmap x) (k_maxind x) (k_stats x) (k_tlb x) (k_mem x) (k_fs x) (k_procs x) (k_curproc x) (k_mallocs x).
Definition set_k_pt (v : ptst) (x : kernel) : kernel :=
  mk_kernel (k_cpu x) (k_locks x) (k_ram x) v (k_ptsize x) (k_hashedptsize x) (k_isAct x) (k_swapfile x) (k_swapmap x) (k_maxind x) (k_stats x) (k_tlb x) (k_mem x) (k_fs x) (k_procs x) (k_curproc x) (k_mallocs x).
Definition set_k_ptsize (v : Z) (x : kernel) : kernel :=
  mk_kernel (k_cpu x) (k_locks x) (k_ram x) (k_pt x) v (k_hashedptsize x) (k_isAct x) (k_swapfile x) (k_swapmap x) (k_maxind x) (k_stats x) (k_tlb x) (k_mem x) (k_fs x) (k_procs x) (k_curproc x) (k_mallocs x).
Definition set_k_hashedptsize (v : Z) (x : kernel) : kernel :=
  mk_kernel (k_cpu x) (k_locks x) (k_ram x) (k_pt x) (k_ptsize x) v (k_isAct x) (k_swapfile x) (k_swapmap x) (k_maxind x) (k_stats x) (k_tlb x) (k_mem x) (k_fs x) (k_procs x) (k_curproc x) (k_mallocs x).
Definition set_k_isAct (v : Z) (x : kernel) : kernel :=
  mk_kernel (k_cpu x) (k_locks x) (k_ram x) (k_pt x) (k_ptsize x) (k_hashedptsize x) v (k_swapfile x) (k_swapmap x) (k_maxind x) (k_stats x) (k_tlb x) (k_mem x) (k_fs x) (k_procs x) (k_curproc x) (k_mallocs x).
Definition set_k_swapfile (v : Z) (x : kernel) : kernel :=
  mk_kernel (k_cpu x) (k_locks x) (k_ram x) (k_pt x) (k_ptsize x) (k_hashedptsize x) (k_isAct x) v (k_swapmap x) (k_maxind x) (k_stats x) (k_tlb x) (k_mem x) (k_fs x) (k_procs x) (k_curproc x) (k_mallocs x).
Definition set_k_swapmap (v : list swappage) (x : kernel) : kernel :=
  mk_kernel (k_cpu x) (k_locks x) (k_ram x) (k_pt x) (k_ptsize x) (k_hashedptsize x) (k_isAct x) (k_swapfile x) v (k_maxind x) (k_stats x) (k_tlb x) (k_mem x) (k_fs x) (k_procs x) (k_curproc x) (k_mallocs x).
Definition set_k_maxind (v : Z) (x : kernel) : kernel :=
  mk_kernel (k_cpu x) (k_locks x) (k_ram x) (k_pt x) (k_ptsize x) (k_hashedptsize x) (k_isAct x) (k_swapfile x) (k_swapmap x) v (k_stats x) (k_tlb x) (k_mem x) (k_fs x) (k_procs x) (k_curproc x) (k_mallocs x).
Definition set_k_stats (v : list Z) (x : kernel) : kernel :=
  mk_kernel (k_cpu x) (k_locks x) (k_ram x) (k_pt x) (k_ptsize x) (k_hashedptsize x) (k_isAct x) (k_swapfile x) (k_swapmap x) (k_maxind x) v (k_tlb x) (k_mem x) (k_fs x) (k_procs x) (k_curproc x) (k_mallocs x).
Definition set_k_tlb (v : tlbst) (x : kernel) : kernel :=
  mk_kernel (k_cpu x) (k_locks x) (k_ram x) (k_pt x) (k_ptsize x) (k_hashedptsize x) (k_isAct x) (k_swapfile x) (k_swapmap x) (k_maxind x) (k_stats x) v (k_mem x) (k_fs x) (k_procs x) (k_curproc x) (k_mallocs x).
Definition set_k_mem (v : memory) (x : kernel) : kernel :=
  mk_kernel (k_cpu x) (k_locks x) (k_ram x) (k_pt x) (k_ptsize x) (k_hashedptsize x) (k_isAct x) (k_swapfile x) (k_swapmap x) (k_maxind x) (k_stats x) (k_tlb x) v (k_fs x) (k_procs x) (k_curproc x) (k_mallocs x).
Definition set_k_fs (v : fsstate) (x : kernel) : kernel :=
  mk_kernel (k_cpu x) (k_locks x) (k_ram x) (k_pt x) (k_ptsize x) (k_hashedptsize x) (k_isAct x) (k_swapfile x) (k_swapmap x) (k_maxind x) (k_stats x) (k_tlb x) (k_mem x) v (k_procs x) (k_curproc x) (k_mallocs x).
Definition set_k_procs (v : gmap nat proc) (x : kernel) : kernel :=
  mk_kernel (k_cpu x) (k_locks x) (k_ram x) (k_pt x) (k_ptsize x) (k_hashedptsize x) (k_isAct x) (k_swapfile x) (k_swapmap x) (k_maxind x) (k_stats x) (k_tlb x) (k_mem x) (k_fs x) v (k_curproc x) (k_mallocs x).
Definition set_k_curproc (v : option nat) (x : kernel) : kernel :=
  mk_kernel (k_cpu x) (k_locks x) (k_ram x) (k_pt x) (k_ptsize x) (k_hashedptsize x) (k_isAct x) (k_swapfile x) (k_swapmap x) (k_maxind x) (k_stats x) (k_tlb x) (k_mem x) (k_fs x) (k_procs x) v (k_mallocs x).
Definition set_k_mallocs (v : list bool) (x : kernel) : kernel :=
  mk_kernel (k_cpu x) (k_locks x) (k_ram x) (k_pt x) (k_ptsize x) (k_hashedptsize x) (k_isAct x) (k_swapfile x) (k_swapmap x) (k_maxind x) (k_stats x) (k_tlb x) (k_mem x) (k_fs x) (k_procs x) (k_curproc x) v.
End kernel.

Definition set_loadedelf (v : option (list Z)) (x : segment) : segment :=
  mk_segment (numpages x) (elfdata x) v (elfoffset x) (startaddr x) (stackseg x) (permissions x).
Definition set_seg1 (v : option segment) (x : addrspace) : addrspace :=
  mk_addrspace v (seg2 x) (segstack x).
Definition set_seg2 (v : option segment) (x : addrspace) : addrspace :=
  mk_addrspace (seg1 x) v (segstack x).
Definition set_segstack (v : option segment) (x : addrspace) : addrspace :=
  mk_addrspace (seg1 x) (seg2 x) v.
Definition set_p_name (v : string) (x : proc) : proc :=
  mk_proc v (p_lock x) (p_numthreads x) (p_addrspace x) (p_cwd x) (p_status x) (p_pid x) (p_sem x) (fileTable x).
Definition set_p_lock (v : spinlock) (x : proc) : proc :=
  mk_proc (p_name x) v (p_numthreads x) (p_addrspace x) (p_cwd x) (p_status x) (p_pid x) (p_sem x) (fileTable x).
Definition set_p_numthreads (v : Z) (x : proc) : proc :=
  mk_proc (p_name x) (p_lock x) v (p_addrspace x) (p_cwd x) (p_status x) (p_pid x) (p_sem x) (fileTable x).
Definition set_p_addrspace (v : option addrspace) (x : proc) : proc :=
  mk_proc (p_name x) (p_lock x) (p_numthreads x) v (p_cwd x) (p_status x) (p_pid x) (p_sem x) (fileTable x).
Definition set_p_cwd (v : option Z) (x : proc) : proc :=
  mk_proc (p_name x) (p_lock x) (p_numthreads x) (p_addrspace x) v (p_status x) (p_pid x) (p_sem x) (fileTable x).
Definition set_p_status (v : Z) (x : proc) : proc :=
  mk_proc (p_name x) (p_lock x) (p_numthreads x) (p_addrspace x) (p_cwd x) v (p_pid x) (p_sem x) (fileTable x).
Definition set_p_pid (v : Z) (x : proc) : proc :=
  mk_proc (p_name x) (p_lock x) (p_numthreads x) (p_addrspace x) (p_cwd x) (p_status x) v (p_sem x) (fileTable x).
Definition set_p_sem (v : option Z) (x : proc) : proc :=
  mk_proc (p_name x) (p_lock x) (p_numthreads x) (p_addrspace x) (p_cwd x) (p_status x) (p_pid x) v (fileTable x).
Definition set_fileTable (v : list (option nat)) (x : proc) : proc :=
  mk_proc (p_name x) (p_lock x) (p_numthreads x) (p_addrspace x) (p_cwd x) (p_status x) (p_pid x) (p_sem x) v.

(** ** Running components on the kernel state *)

#[export] Instance lockid_eq_dec : EqDecision lockid.
Proof. solve_decision. Defined.

Definition get_lock (L : lockid) (l : locks) : spinlock :=
  match L with
  | Ptspin => ptspin l | Stealmem_lock => stealmem_lock l
  | Swapspin => swapspin l | Statspin => statspin l
  end.
Definition put_lock (L : lockid) (v : spinlock) (l : locks) : locks :=
  match L with
  | Ptspin => mk_locks v (stealmem_lock l) (swapspin l) (statspin l)
  | Stealmem_lock => mk_locks (ptspin l) v (swapspin l) (statspin l)
  | Swapspin => mk_locks (ptspin l) (stealmem_lock l) v (statspin l)
  | Statspin => mk_locks (ptspin l) (stealmem_lock l) (swapspin l) v
  end.

Section run.
Context {ops : VnodeOps}.

Definition on_spinlock {A} (L : lockid) (m : M (cpu * spinlock) A) : M kernel A :=
  zoom (λ k, (k_cpu k, get_lock L (k_locks k)))
       (λ p k, set_k_cpu p.1 (set_k_locks (put_lock L p.2 (k_locks k)) k)) m.
Definition acquire (L : lockid) : M kernel () := on_spinlock L spinlock_acquire.
Definition release (L : lockid) : M kernel () := on_spinlock L spinlock_release.
Definition do_i_hold (L : lockid) : M kernel bool := on_spinlock L spinlock_do_i_hold.
Definition on_curcpu {A} (m : M cpu A) : M kernel A := zoom k_cpu set_k_cpu m.
Definition on_pt {A} (m : M ptst A) : M kernel A := zoom k_pt set_k_pt m.

(** Does the next [kmalloc] succeed? *)
Definition kmalloc_ok : M kernel bool := λ k,
  match k_mallocs k with
  | [] => Ok (true, k)
  | b :: bs => Ok (b, set_k_mallocs bs k)
  end.

(** [VOP_READ] and [VOP_WRITE] on the kernel state: the error code and the
    updated transfer. *)
Definition VOP_READ (v : Z) (u : uio) : M kernel (Z * uio) := λ k,
  let '(res, u', m, fs) := vop_read v u (k_mem k) (k_fs k) in
  Ok ((res, u'), set_k_mem m (set_k_fs fs k)).
Definition VOP_WRITE (v : Z) (u : uio) : M kernel (Z * uio) := λ k,
  let '(res, u', m, fs) := vop_write v u (k_mem k) (k_fs k) in
  Ok ((res, u'), set_k_mem m (set_k_fs fs k)).

(** The state with lock [L] just taken by this processor. *)
Definition hold (L : lockid) (k : kernel) : kernel :=
  set_k_cpu (cpu_raise 1 (k_cpu k))
    (set_k_locks (put_lock L (mk_spinlock 1 (Some (c_self (k_cpu k)))) (k_locks k)) k).
Definition unhold (L : lockid) (k : kernel) : kernel :=
  set_k_cpu (cpu_raise (-1) (k_cpu k)) (set_k_locks (put_lock L SPINLOCK_INITIALIZER (k_locks k)) k).

(** The processor is consistent, no spinlock of kern/vm is held. *)
Record quiet (k : kernel) : Prop := {
  quiet_cpu : cpu_ok (k_cpu k);
  quiet_count : c_spinlocks (k_cpu k) = 0;
  quiet_locks L : lock_free (get_lock L (k_locks k))
}.

(** Exactly lock [L] is held, taken from a quiet state. *)
Record holding (L : lockid) (k : kernel) : Prop := {
  holding_cpu : cpu_ok (k_cpu k);
  holding_count : c_spinlocks (k_cpu k) = 1;
  holding_lock : lock_mine (k_cpu k) (get_lock L (k_locks k));
  holding_others L' : L' ≠ L → lock_free (get_lock L' (k_locks k))
}.

Lemma get_put_lock L v l : get_lock L (put_lock L v l) = v.
Proof. by destruct L. Qed.
Lemma get_put_lock_ne L L' v l : L' ≠ L → get_lock L' (put_lock L v l) = get_lock L' l.
Proof. by destruct L, L'. Qed.
Lemma put_get_lock L v l : put_lock L (get_lock L l) (put_lock L v l) = l.
Proof. by destruct L, l. Qed.

Lemma acquire_quiet L k : quiet k → acquire L k = Ok (tt, hold L k).
Proof.
  intros [Hc Hn Hl]. unfold acquire, on_spinlock, zoom.
  rewrite spinlock_acquire_ok; [done|done|lia|done].
Qed.

Lemma holding_hold L k : quiet k → holding L (hold L k).
Proof.
  intros [Hc Hn Hl]. split; cbn.
  - apply cpu_raise_ok; [done|lia].
  - lia.
  - by rewrite get_put_lock.
  - intros L' HL. by rewrite get_put_lock_ne.
Qed.

Lemma release_holding L k : holding L k → release L k = Ok (tt, unhold L k).
Proof.
  intros [Hc Hn Hl _]. unfold release, on_spinlock, zoom.
  rewrite spinlock_release_ok; [done|done|lia|done].
Qed.

Lemma quiet_unhold L k : holding L k → quiet (unhold L k).
Proof.
  intros [Hc Hn Hl Ho]. split; cbn.
  - apply cpu_raise_ok; [done|lia].
  - lia.
  - intros L'. destruct (decide (L' = L)) as [->|HL].
    + by rewrite get_put_lock.
    + rewrite get_put_lock_ne by done. by apply Ho.
Qed.

(** Code that leaves the processor and the locks alone keeps lock [L], and
    releasing it gives back the state around the critical section. *)
Definition same_cpu (k k' : kernel) : Prop := k_cpu k' = k_cpu k ∧ k_locks k' = k_locks k.

Lemma holding_same L k k' : holding L k → same_cpu k k' → holding L k'.
Proof. intros [? ? ? ?] [Hc Hl]. split; by rewrite ?Hc, ?Hl. Qed.

Lemma quiet_same k k' : quiet k → same_cpu k k' → quiet k'.
Proof. intros [? ? ?] [Hc Hl]. split; by rewrite ?Hc, ?Hl. Qed.

Lemma unhold_restore L k k' :
  quiet k → same_cpu (hold L k) k' →
  unhold L k' = set_k_cpu (k_cpu k) (set_k_locks (k_locks k) k').
Proof.
  intros [Hok Hn Hl] [Hc Hk]. unfold unhold. rewrite Hc, Hk. cbn.
  rewrite cpu_raise_raise, cpu_raise_0 by done. f_equal. f_equal.
  rewrite <-(Hl L). apply put_get_lock.
Qed.

Lemma release_restore L k k' :
  quiet k → same_cpu (hold L k) k' →
  release L k' = Ok (tt, set_k_cpu (k_cpu k) (set_k_locks (k_locks k) k')).
Proof.
  intros Hq Hs. rewrite release_holding by (eapply holding_same; [by apply holding_hold|done]).
  by rewrite (unhold_restore L k k').
Qed.

(** The same facts in the form used around a critical section whose body
    leaves the processor and the locks alone. *)
Lemma release_hold L k : quiet k → release L (hold L k) = Ok (tt, k).
Proof. intros Hq. rewrite (release_restore L k) by done. by destruct k. Qed.

Lemma put_lock_id L k :
  set_k_cpu (k_cpu k) (set_k_locks (put_lock L (get_lock L (k_locks k)) (k_locks k)) k) = k.
Proof. destruct k as [? [] ?]. by destruct L. Qed.

Lemma do_i_hold_eq L k :
  c_exists (k_cpu k) = true →
  do_i_hold L k =
    Ok (bool_decide (splk_holder (get_lock L (k_locks k)) = Some (c_self (k_cpu k))), k).
Proof.
  intros He. unfold do_i_hold, on_spinlock, zoom, spinlock_do_i_hold. mred. unfold id.
  cbn [fst snd]. rewrite He. cbn [negb fst snd]. by rewrite put_lock_id.
Qed.

Lemma do_i_hold_quiet L k : quiet k → do_i_hold L k = Ok (false, k).
Proof.
  intros [Hok Hn Hl]. rewrite do_i_hold_eq by apply Hok. rewrite (Hl L).
  by rewrite bool_decide_false.
Qed.

Lemma do_i_hold_hold L k : quiet k → do_i_hold L (hold L k) = Ok (true, hold L k).
Proof.
  intros [Hok Hn Hl]. rewrite do_i_hold_eq by apply Hok. cbn. rewrite get_put_lock.
  by rewrite bool_decide_true.
Qed.

Lemma quiet_high k :
  quiet k → quiet (set_k_cpu (cpu_high (k_cpu k)) k).
Proof.
  intros [Hok Hn Hl]. split; cbn; [by apply cpu_high_ok| |done].
  unfold cpu_high. by destruct (_ =? _).
Qed.
End run.
