(* ===== verification/Vmstats.v ===== *)
(** * Paging statistics ([kern/vm/vmstats.c], [kern/include/vmstats.h]) *)

From S2P Require Import Prelude Machine Spinlock Pt Kernel.

Definition VMSTATSLEN : nat := 10.

(** The counters, in the order of the enumeration of vmstats.h *)
Definition TLBFAULT : nat := 0.
Definition TLBFAULTWITHFREE : nat := 1.
Definition TLBFAULTWITHREPLACE : nat := 2.
Definition TLBINVALIDATION : nat := 3.
Definition TLBRELOAD : nat := 4.
Definition PAGEFAULTZERO : nat := 5.
Definition PAGEFAULTDISK : nat := 6.
Definition PAGEFAULTELF : nat := 7.
Definition PAGEFAULTSWAP : nat := 8.
Definition SWAPWRITE : nat := 9.

Definition VMSTATNAME : list string := [
  "Tlb faults"; "Tlb faults with free"; "Tlb faults with replace"; "Tlb invalidations";
  "Tlb reloads"; "Page faults (Zeroed)"; "Page faults (Disk)"; "Page faults from ELF";
  "Page faults from swapfile"; "Swapfile writes"]%string.

(** What [printvmstats] writes on the console: a counter, or the warning that
    a sum (named by its position) is not what it should be. *)
Inductive pline : Type :=
  | PStat (name : string) (value : Z)
  | PWarnTlb
  | PWarnReload
  | PWarnDisk.

Section vmstats.
Context {ops : VnodeOps}.

(** [counter[i] = v], an invalid access out of the array *)
Definition set_counter (i : nat) (v : Z) : M kernel () :=
  l ← gets k_stats;
  if decide (i < length l)%nat then modify (set_k_stats (<[i := v]> l)) else halt BadAccess.

Definition vmstatsetup : M kernel () :=
  acquire Statspin ;;
  for_list (seqZ 0 (Z.of_nat VMSTATSLEN)) (λ i, set_counter (Z.to_nat i) 0) ;;
  release Statspin.

Definition vmstatincr (type : nat) : M kernel () :=
  acquire Statspin ;;
  l ← gets k_stats;
  v ← deref (l !! type);
  set_counter type (u32 (v + 1)) ;;
  release Statspin.

Definition counter (k : kernel) (i : nat) : Z := default 0 (k_stats k !! i).

Definition printvmstats : M kernel (Z * list pline) :=
  acquire Statspin ;;
  k ← gets id;
  let stats := imap (λ i name, PStat name (s32 (counter k i))) VMSTATNAME in
  let bad := negb (counter k TLBFAULT =?
               u32 (counter k TLBFAULTWITHFREE + counter k TLBFAULTWITHREPLACE)) in
  let out := stats ++ (if bad then [PWarnTlb] else [])
                   ++ (if bad then [PWarnReload] else [])
                   ++ (if bad then [PWarnDisk] else []) in
  release Statspin ;;
  mret (0, out).

(** ** What the operations do *)

Definition stats_incr (type : nat) (l : list Z) : list Z := alter (λ v, u32 (v + 1)) type l.

Lemma set_counter_ok k i v :
  (i < length (k_stats k))%nat → set_counter i v k = Ok (tt, set_k_stats (<[i := v]> (k_stats k)) k).
Proof. intros Hi. unfold set_counter. mred. by rewrite decide_True. Qed.

Lemma vmstatincr_ok k type :
  quiet k → (type < length (k_stats k))%nat →
  vmstatincr type k = Ok (tt, set_k_stats (stats_incr type (k_stats k)) k).
Proof.
  intros Hq Hlt. destruct (lookup_lt_is_Some_2 _ _ Hlt) as [v Hv].
  unfold vmstatincr. run_with (acquire_quiet Statspin k Hq).
  rewrite (bind_ok _ _ _ (k_stats k) (hold Statspin k)) by done.
  rewrite Hv. rewrite (bind_ok _ _ _ v (hold Statspin k)) by done.
  run_with (set_counter_ok (hold Statspin k) type (u32 (v + 1)) Hlt).
  rewrite (release_restore Statspin k) by done.
  unfold stats_incr. rewrite (list_alter_as_insert _ _ _ _ Hv). by destruct k.
Qed.

Lemma vmstatsetup_ok k :
  quiet k → length (k_stats k) = VMSTATSLEN →
  vmstatsetup k = Ok (tt, set_k_stats (replicate VMSTATSLEN 0) k).
Proof.
  intros Hq Hlen. unfold vmstatsetup. run_with (acquire_quiet Statspin k Hq).
  rewrite (bind_ok _ _ _ tt (hold Statspin (set_k_stats (replicate VMSTATSLEN 0) k))).
  - apply release_hold. by apply (quiet_same k).
  - etrans; [apply (for_update k_stats set_k_stats (λ i, set_counter (Z.to_nat i) 0) (λ _ _, 0) 0
      VMSTATSLEN (hold Statspin k))|]; [done|done|by intros []|
      |change (k_stats (hold Statspin k)) with (k_stats k); lia|].
    + intros i k' x Hi. rewrite Nat2Z.id. apply set_counter_ok. by eapply lookup_lt_Some.
    + change (k_stats (hold Statspin k)) with (k_stats k). rewrite <-Hlen, update_range_all, imap_const.
      done.
Qed.

(** ** The sums that the counters satisfy

    Each fault is with a free or a replaced entry; it is a reload, a page from
    disk or a zeroed page; a page from disk is from the program or from swap. *)
Definition stat (l : list Z) (i : nat) : Z := default 0 (l !! i).

Definition balanced (l : list Z) : Prop :=
  length l = VMSTATSLEN ∧
  u32 (stat l TLBFAULT) = u32 (stat l TLBFAULTWITHFREE + stat l TLBFAULTWITHREPLACE) ∧
  u32 (stat l TLBFAULT) = u32 (stat l TLBRELOAD + stat l PAGEFAULTDISK + stat l PAGEFAULTZERO) ∧
  u32 (stat l PAGEFAULTDISK) = u32 (stat l PAGEFAULTELF + stat l PAGEFAULTSWAP).

Lemma stat_incr l i j :
  (i < length l)%nat → stat (stats_incr i l) j = if decide (i = j) then u32 (stat l j + 1) else stat l j.
Proof.
  intros Hi. unfold stat, stats_incr. case_decide as Hij.
  - subst. rewrite list_lookup_alter_eq. destruct (lookup_lt_is_Some_2 _ _ Hi) as [x ->]. done.
  - by rewrite list_lookup_alter_ne.
Qed.

Lemma length_stats_incr i l : length (stats_incr i l) = length l.
Proof. apply length_alter. Qed.

(** The counters of a list of events incremented, the last event first *)
Definition counted (l : list nat) (stats : list Z) : list Z := foldr stats_incr stats l.

Fixpoint occurrences (i : nat) (l : list nat) : Z :=
  match l with
  | [] => 0
  | j :: l' => (if decide (j = i) then 1 else 0) + occurrences i l'
  end.

Lemma length_counted l stats : length (counted l stats) = length stats.
Proof. induction l as [|i l IH]; [done|]. cbn. by rewrite length_stats_incr. Qed.

Lemma counted_stat l stats i :
  Forall (λ j, (j < length stats)%nat) l →
  u32 (stat (counted l stats) i) = u32 (stat stats i + occurrences i l).
Proof.
  induction 1 as [|j l Hj _ IH]; [by rewrite Z.add_0_r|]. cbn [counted foldr occurrences].
  fold (counted l stats). rewrite stat_incr by (by rewrite length_counted).
  case_decide as Hji.
  - subst. rewrite u32_u32. rewrite (u32_add_congr _ _ 1 IH). f_equal. lia.
  - rewrite IH. f_equal.
Qed.

(** The sums of [balanced] hold after events that count the same on both
    sides. *)
Lemma balanced_counted l stats :
  balanced stats → Forall (λ j, (j < VMSTATSLEN)%nat) l →
  occurrences TLBFAULT l = occurrences TLBFAULTWITHFREE l + occurrences TLBFAULTWITHREPLACE l →
  occurrences TLBFAULT l =
    occurrences TLBRELOAD l + occurrences PAGEFAULTDISK l + occurrences PAGEFAULTZERO l →
  occurrences PAGEFAULTDISK l = occurrences PAGEFAULTELF l + occurrences PAGEFAULTSWAP l →
  balanced (counted l stats).
Proof.
  intros (Hlen & H1 & H2 & H3) Hl O1 O2 O3. rewrite <-Hlen in Hl.
  pose proof (λ i, counted_stat l stats i Hl) as Hc.
  assert (∀ a b, u32 (stat (counted l stats) a + stat (counted l stats) b) =
    u32 (stat stats a + stat stats b + (occurrences a l + occurrences b l))) as Hsum.
  { intros a b. rewrite <-u32_add_l, Hc, u32_add_l, <-u32_add_r, Hc, u32_add_r. f_equal. lia. }
  split_and!.
  - by rewrite length_counted.
  - rewrite Hc, Hsum, <-O1. by apply u32_add_congr.
  - rewrite Hc, <-(u32_add_l (stat (counted l stats) TLBRELOAD + _)), Hsum, u32_add_l.
    rewrite <-(u32_add_r _ (stat (counted l stats) PAGEFAULTZERO)), Hc, u32_add_r.
    rewrite O2, (u32_add_congr _ _ _ H2). f_equal. lia.
  - rewrite Hc, Hsum, <-O3. by apply u32_add_congr.
Qed.
End vmstats.
