(* ===== verification/Tlb.v ===== *)
(** * The TLB ([kern/vm/vm_tlb.c], [kern/arch/mips/include/tlb.h],
    [kern/arch/mips/vm/tlb-mips161.S])

    The hardware TLB is an array of [NUM_TLB] pairs of words.  [tlb_write]
    and [tlb_probe] are the [tlbwi] and [tlbp] instructions as tlb.h describes
    them.  [translate] is the lookup the processor makes for a user access:
    it is the specification side of this file. *)

From S2P Require Import Prelude Machine Spinlock Pt Kernel Vmstats.

Definition NUM_TLB : Z := 64.
Definition TLBHI_VPAGE : Z := 0xfffff000.
Definition TLBLO_PPAGE : Z := 0xfffff000.
Definition TLBLO_DIRTY : Z := 0x400.
Definition TLBLO_VALID : Z := 0x200.
Definition TLBLO_GLOBAL : Z := 0x100.
Definition TLBHI_INVALID (entryno : Z) : Z := u32 (Z.shiftl (0x80000 + entryno) 12).
Definition TLBLO_INVALID : Z := 0.

Definition set_tlb_entries (v : list (Z * Z)) (t : tlbst) : tlbst :=
  mk_tlbst v (tlbindex t) (tlbinvalidatedindex t) (lastpid t).
Definition set_tlbindex (v : Z) (t : tlbst) : tlbst :=
  mk_tlbst (tlb_entries t) v (tlbinvalidatedindex t) (lastpid t).
Definition set_tlbinvalidatedindex (v : Z) (t : tlbst) : tlbst :=
  mk_tlbst (tlb_entries t) (tlbindex t) v (lastpid t).
Definition set_lastpid (v : Z) (t : tlbst) : tlbst :=
  mk_tlbst (tlb_entries t) (tlbindex t) (tlbinvalidatedindex t) v.

(** Fields of an entry *)
Definition e_vpage (e : Z * Z) : Z := Z.land e.1 TLBHI_VPAGE.
Definition e_valid (e : Z * Z) : bool := negb (Z.land e.2 TLBLO_VALID =? 0).
Definition e_dirty (e : Z * Z) : bool := negb (Z.land e.2 TLBLO_DIRTY =? 0).
Definition e_ppage (e : Z * Z) : Z := Z.land e.2 TLBLO_PPAGE.

(** ** Operations *)

(** Write slot [index]; the index register only names existing slots. *)
Definition tlb_write (entryhi entrylo index : Z) : M tlbst () :=
  t ← gets id;
  if decide (0 ≤ index < Z.of_nat (length (tlb_entries t)))
  then modify (set_tlb_entries (<[Z.to_nat index := (entryhi, entrylo)]> (tlb_entries t)))
  else halt BadAccess.

(** The slot that matches the virtual page of [entryhi], or -1; a slot may
    match even if it is not valid. *)
Fixpoint probe_from (i : Z) (vpage : Z) (l : list (Z * Z)) : Z :=
  match l with
  | [] => -1
  | e :: l' => if e_vpage e =? vpage then i else probe_from (i + 1) vpage l'
  end.
Definition tlb_probe (entryhi : Z) : M tlbst Z :=
  t ← gets id;
  mret (probe_from 0 (Z.land entryhi TLBHI_VPAGE) (tlb_entries t)).

Section tlb.
Context {ops : VnodeOps}.

Definition on_tlb {A} (m : M tlbst A) : M kernel A := zoom k_tlb set_k_tlb m.

Definition vmtlb_invalidatepage (pid addr : Z) : M kernel () :=
  ind ← on_tlb (tlb_probe (Z.land addr TLBHI_VPAGE));
  if 0 <=? ind then
    on_tlb (tlb_write (TLBHI_INVALID ind) TLBLO_INVALID ind) ;;
    on_tlb (modify (set_tlbinvalidatedindex ind))
  else mret tt.

Definition vmtlb_invalidate (pid : Z) : M kernel () :=
  t ← gets k_tlb;
  if pid =? lastpid t then mret tt
  else
    on_tlb (for_list (seqZ 0 NUM_TLB) (λ i, tlb_write (TLBHI_INVALID i) TLBLO_INVALID i)) ;;
    on_tlb (modify (set_tlbinvalidatedindex (-1))) ;;
    on_tlb (modify (set_tlbindex 0)) ;;
    on_tlb (modify (set_lastpid 0)) ;;
    vmstatincr TLBINVALIDATION.

Definition vmtlb_write (pid addr paddr : Z) (writePriv : bool) : M kernel Z :=
  on_tlb (modify (set_lastpid pid)) ;;
  let hi := Z.land addr TLBHI_VPAGE in
  let lo := Z.lor (Z.lor (Z.land paddr TLBLO_PPAGE) TLBLO_VALID) TLBLO_GLOBAL in
  let lo := if writePriv then Z.lor lo TLBLO_DIRTY else lo in
  if Z.land lo TLBLO_VALID =? 0 then halt (Panic "Writing INVALID entry")
  else
    t ← gets k_tlb;
    (if 0 <=? tlbinvalidatedindex t then
       on_tlb (tlb_write hi lo (tlbinvalidatedindex t)) ;;
       on_tlb (modify (set_tlbinvalidatedindex (-1))) ;;
       vmstatincr (if tlbindex t <? NUM_TLB then TLBFAULTWITHFREE else TLBFAULTWITHREPLACE)
     else if tlbindex t <? NUM_TLB then
       on_tlb (tlb_write hi lo (tlbindex t)) ;;
       on_tlb (modify (set_tlbindex (u32 (tlbindex t + 1)))) ;;
       vmstatincr TLBFAULTWITHFREE
     else
       on_tlb (tlb_write hi lo (tlbindex t `mod` NUM_TLB)) ;;
       on_tlb (modify (set_tlbindex (u32 (tlbindex t + 1)))) ;;
       vmstatincr TLBFAULTWITHREPLACE) ;;
    mret 0.
End tlb.

(** ** What the processor does with the entries *)

(** A user access to [va]: the physical address and whether writes are
    allowed, or a TLB miss. *)
Definition translate (t : tlbst) (va : Z) : option (Z * bool) :=
  match List.find (λ e, e_vpage e =? Z.land va TLBHI_VPAGE) (tlb_entries t) with
  | Some e => if e_valid e then Some (e_ppage e + va `mod` PAGE_SIZE, e_dirty e) else None
  | None => None
  end.

(** The entry [vmtlb_write] builds *)
Definition entry_of (addr paddr : Z) (w : bool) : Z * Z :=
  (Z.land addr TLBHI_VPAGE,
   let lo := Z.lor (Z.lor (Z.land paddr TLBLO_PPAGE) TLBLO_VALID) TLBLO_GLOBAL in
   if w then Z.lor lo TLBLO_DIRTY else lo).

(** The slot [vmtlb_write] uses: the one just invalidated if there is one,
    else round robin. *)
Definition next_slot (t : tlbst) : nat :=
  Z.to_nat (if 0 <=? tlbinvalidatedindex t then tlbinvalidatedindex t
            else tlbindex t `mod` NUM_TLB).

(** Invalid slots hold addresses of the kernel's unmapped segment, which no
    access matches: the ones written by this file, or those of [tlb_reset]. *)
Definition slot_ok (i : nat) (e : Z * Z) : Prop :=
  0 ≤ e_vpage e < 2 ^ 32 ∧
  if e_valid e then e_vpage e < MIPS_KSEG0
  else e_vpage e = TLBHI_INVALID (Z.of_nat i) ∨ 0x81000000 ≤ e_vpage e.

Record tlb_wf (t : tlbst) : Prop := {
  tlb_len : length (tlb_entries t) = Z.to_nat NUM_TLB;
  tlb_slots i e : tlb_entries t !! i = Some e → slot_ok i e;
  tlb_nodup : NoDup (e_vpage <$> tlb_entries t);
  tlb_inval : -1 ≤ tlbinvalidatedindex t < NUM_TLB;
  tlb_inval_free e : 0 ≤ tlbinvalidatedindex t →
    tlb_entries t !! Z.to_nat (tlbinvalidatedindex t) = Some e → e_valid e = false;
  tlb_index : 0 ≤ tlbindex t < 2 ^ 32;
  tlb_inval_lt : tlbinvalidatedindex t < tlbindex t;
  tlb_fresh i e : tlbindex t ≤ Z.of_nat i → tlb_entries t !! i = Some e → e_valid e = false
}.

(** ** Entries *)

Lemma land_vpage_idem a : Z.land (Z.land a TLBHI_VPAGE) TLBHI_VPAGE = Z.land a TLBHI_VPAGE.
Proof. by rewrite <-Z.land_assoc. Qed.

Lemma entry_vpage a p w : e_vpage (entry_of a p w) = Z.land a TLBHI_VPAGE.
Proof. apply land_vpage_idem. Qed.

(** The flag bits of the low word do not meet the page number. *)
Lemma entry_lo_land p w mask :
  Z.land (entry_of 0 p w).2 mask =
    Z.lor (Z.lor (Z.land p (Z.land TLBLO_PPAGE mask)) (Z.land TLBLO_VALID mask))
      (Z.lor (Z.land TLBLO_GLOBAL mask) (if w then Z.land TLBLO_DIRTY mask else 0)).
Proof.
  unfold entry_of. cbn [snd]. destruct w;
    rewrite ?Z.land_lor_distr_l, <-?Z.land_assoc, ?Z.lor_0_r, ?Z.lor_assoc; done.
Qed.

Lemma entry_valid a p w : e_valid (entry_of a p w) = true.
Proof.
  unfold e_valid. change (entry_of a p w).2 with (entry_of 0 p w).2. rewrite entry_lo_land.
  change (Z.land TLBLO_PPAGE TLBLO_VALID) with 0. rewrite Z.land_0_r. by destruct w.
Qed.

Lemma entry_dirty a p w : e_dirty (entry_of a p w) = w.
Proof.
  unfold e_dirty. change (entry_of a p w).2 with (entry_of 0 p w).2. rewrite entry_lo_land.
  change (Z.land TLBLO_PPAGE TLBLO_DIRTY) with 0. rewrite Z.land_0_r. by destruct w.
Qed.

Lemma entry_ppage a p w : e_ppage (entry_of a p w) = Z.land p TLBLO_PPAGE.
Proof.
  unfold e_ppage. change (entry_of a p w).2 with (entry_of 0 p w).2. rewrite entry_lo_land.
  change (Z.land TLBLO_VALID TLBLO_PPAGE) with 0. change (Z.land TLBLO_GLOBAL TLBLO_PPAGE) with 0.
  change (Z.land TLBLO_DIRTY TLBLO_PPAGE) with 0. rewrite Z.land_diag.
  destruct w; by rewrite !Z.lor_0_r.
Qed.

Lemma TLBHI_INVALID_eq i : 0 ≤ i < NUM_TLB → TLBHI_INVALID i = MIPS_KSEG0 + i * PAGE_SIZE.
Proof.
  unfold NUM_TLB, TLBHI_INVALID, MIPS_KSEG0, PAGE_SIZE. intros Hi.
  rewrite Z.shiftl_mul_pow2 by lia. rewrite u32_id; lia.
Qed.

Definition invalid_entry (i : nat) : Z * Z := (TLBHI_INVALID (Z.of_nat i), TLBLO_INVALID).

Lemma invalid_vpage i :
  (i < Z.to_nat NUM_TLB)%nat → e_vpage (invalid_entry i) = TLBHI_INVALID (Z.of_nat i).
Proof.
  intros Hi. unfold NUM_TLB in Hi. unfold e_vpage, invalid_entry. cbn [fst].
  rewrite TLBHI_INVALID_eq by (unfold NUM_TLB; lia). apply land_PAGE_FRAME_id.
  - unfold MIPS_KSEG0, PAGE_SIZE. lia.
  - unfold aligned, MIPS_KSEG0, PAGE_SIZE. by rewrite Z.mod_add.
Qed.

Lemma invalid_slot_ok i : (i < Z.to_nat NUM_TLB)%nat → slot_ok i (invalid_entry i).
Proof.
  intros Hi. unfold slot_ok. rewrite invalid_vpage by done. split.
  - rewrite TLBHI_INVALID_eq by (unfold NUM_TLB in *; lia).
    unfold MIPS_KSEG0, PAGE_SIZE, NUM_TLB in *. lia.
  - by left.
Qed.

Lemma user_vpage va : 0 ≤ va < MIPS_KSEG0 → 0 ≤ Z.land va TLBHI_VPAGE < MIPS_KSEG0.
Proof.
  intros Hva. change TLBHI_VPAGE with PAGE_FRAME.
  rewrite land_PAGE_FRAME by (unfold MIPS_KSEG0 in *; lia).
  pose proof (Z.mod_pos_bound va PAGE_SIZE eq_refl) as Hm.
  pose proof (Z.mod_le va PAGE_SIZE ltac:(lia) eq_refl). lia.
Qed.

Lemma entry_slot_ok i a p w : 0 ≤ a < MIPS_KSEG0 → slot_ok i (entry_of a p w).
Proof.
  intros Ha. pose proof (user_vpage a Ha). unfold slot_ok. rewrite entry_valid, entry_vpage.
  unfold MIPS_KSEG0 in *. lia.
Qed.

(** ** Lookups *)

Lemma vpage_unique t i j e e' :
  tlb_wf t → tlb_entries t !! i = Some e → tlb_entries t !! j = Some e' →
  e_vpage e = e_vpage e' → i = j.
Proof.
  intros Hwf Hi Hj Heq. eapply (NoDup_lookup _ i j (e_vpage e) (tlb_nodup _ Hwf));
    rewrite list_lookup_fmap; [by rewrite Hi|by rewrite Hj, Heq].
Qed.

Lemma find_vpage (l : list (Z * Z)) i e v :
  NoDup (e_vpage <$> l) → l !! i = Some e → e_vpage e = v →
  List.find (λ e, e_vpage e =? v) l = Some e.
Proof.
  revert i. induction l as [|e' l IH]; intros [|i]; cbn; try done.
  - intros _ [= ->] <-. by rewrite Z.eqb_refl.
  - intros [Hni Hnd]%NoDup_cons Hi Hv. destruct (Z.eqb_spec (e_vpage e') v) as [Heq|]; [|eauto].
    exfalso. apply Hni. rewrite Heq, <-Hv. apply list_elem_of_fmap_2.
    by apply list_elem_of_lookup_2 in Hi.
Qed.

Lemma find_vpage_none (l : list (Z * Z)) v :
  (∀ i e, l !! i = Some e → e_vpage e ≠ v) → List.find (λ e, e_vpage e =? v) l = None.
Proof.
  intros H. destruct (List.find _ l) as [e|] eqn:E; [|done]. apply find_some in E as [Hin Heq].
  apply list_elem_of_In, list_elem_of_lookup in Hin as [i Hi]. apply Z.eqb_eq in Heq.
  by apply H in Hi.
Qed.

(** A user page that misses matches no slot at all. *)
Lemma miss_no_match t va i e :
  tlb_wf t → 0 ≤ va < MIPS_KSEG0 → translate t va = None →
  tlb_entries t !! i = Some e → e_vpage e ≠ Z.land va TLBHI_VPAGE.
Proof.
  intros Hwf Hva Hmiss Hi Heq. unfold translate in Hmiss.
  rewrite (find_vpage _ i e _ (tlb_nodup _ Hwf) Hi Heq) in Hmiss.
  destruct (e_valid e) eqn:E; [done|]. pose proof (user_vpage va Hva).
  destruct (tlb_slots _ Hwf i e Hi) as [_ Hs]. rewrite E in Hs.
  assert (i < Z.to_nat NUM_TLB)%nat
    by (rewrite <-(tlb_len _ Hwf); by eapply lookup_lt_Some).
  rewrite TLBHI_INVALID_eq in Hs by (unfold NUM_TLB in *; lia).
  unfold MIPS_KSEG0, PAGE_SIZE in *. lia.
Qed.

Lemma translate_hit t va i e :
  tlb_wf t → tlb_entries t !! i = Some e → e_valid e = true →
  e_vpage e = Z.land va TLBHI_VPAGE →
  translate t va = Some (e_ppage e + va `mod` PAGE_SIZE, e_dirty e).
Proof.
  intros Hwf Hi Hv Heq. unfold translate.
  by rewrite (find_vpage _ i e _ (tlb_nodup _ Hwf) Hi Heq), Hv.
Qed.

Lemma translate_inv t va r :
  translate t va = Some r →
  ∃ i e, tlb_entries t !! i = Some e ∧ e_valid e = true ∧ e_vpage e = Z.land va TLBHI_VPAGE ∧
    r = (e_ppage e + va `mod` PAGE_SIZE, e_dirty e).
Proof.
  unfold translate. destruct (List.find _ _) as [e|] eqn:E; [|done].
  apply find_some in E as [Hin Heq]. apply Z.eqb_eq in Heq.
  apply list_elem_of_In, list_elem_of_lookup in Hin as [i Hi].
  destruct (e_valid e) eqn:Ev; [|done]. intros [= <-]. eauto 10.
Qed.

(** ** Writing an entry *)

Definition tlb_after_write (pid addr paddr : Z) (w : bool) (t : tlbst) : tlbst :=
  mk_tlbst (<[next_slot t := entry_of addr paddr w]> (tlb_entries t))
    (if 0 <=? tlbinvalidatedindex t then tlbindex t else u32 (tlbindex t + 1))
    (-1) pid.

Definition write_stat (t : tlbst) : nat :=
  if tlbindex t <? NUM_TLB then TLBFAULTWITHFREE else TLBFAULTWITHREPLACE.

Lemma next_slot_lt t : tlb_wf t → (next_slot t < length (tlb_entries t))%nat.
Proof.
  intros Hwf. rewrite (tlb_len _ Hwf). unfold next_slot.
  pose proof (tlb_inval _ Hwf). pose proof (Z.mod_pos_bound (tlbindex t) NUM_TLB eq_refl).
  unfold NUM_TLB in *. case_match eqn:E; [apply Z.leb_le in E|]; lia.
Qed.

(** Replacing a slot keeps the table well formed when the page is new. *)
Lemma tlb_set_slots t i e :
  tlb_wf t → (i < length (tlb_entries t))%nat → slot_ok i e →
  (∀ j e', j ≠ i → tlb_entries t !! j = Some e' → e_vpage e' ≠ e_vpage e) →
  (∀ j e', <[i := e]> (tlb_entries t) !! j = Some e' → slot_ok j e') ∧
  NoDup (e_vpage <$> <[i := e]> (tlb_entries t)).
Proof.
  intros Hwf Hi Hok Hne. split.
  - intros j e' [(<- & -> & _)|[? Hj]]%lookup_insert_cases; [done|]. by apply (tlb_slots _ Hwf).
  - apply NoDup_alt. intros j1 j2 v. rewrite !list_lookup_fmap, !fmap_Some.
    intros (e1 & H1 & ->) (e2 & H2 & Heq).
    apply lookup_insert_cases in H1 as [(<- & -> & _)|[Hn1 H1]];
      apply lookup_insert_cases in H2 as [(<- & -> & _)|[Hn2 H2]]; [done| | |].
    + by destruct (Hne j2 e2 (not_eq_sym Hn2) H2).
    + by destruct (Hne j1 e1 (not_eq_sym Hn1) H1).
    + by eapply vpage_unique.
Qed.

Lemma tlb_after_write_wf t pid addr paddr w :
  tlb_wf t → 0 ≤ addr < MIPS_KSEG0 → translate t addr = None → tlbindex t + 1 < 2 ^ 32 →
  tlb_wf (tlb_after_write pid addr paddr w t).
Proof.
  intros Hwf Ha Hmiss Hidx. pose proof (next_slot_lt t Hwf) as Hlt.
  pose proof (tlb_index _ Hwf) as Hix.
  destruct (tlb_set_slots t (next_slot t) (entry_of addr paddr w) Hwf Hlt) as [Hs Hn].
  { by apply entry_slot_ok. }
  { intros j e' _ Hj. rewrite entry_vpage. by eapply miss_no_match. }
  pose proof (tlb_inval_lt _ Hwf) as Hil.
  split; cbn; [|exact Hs|exact Hn|unfold NUM_TLB; lia|lia| | |].
  - rewrite length_insert. apply Hwf.
  - case_match; [done|]. rewrite u32_id; lia.
  - case_match; [lia|]. rewrite u32_id; lia.
  - intros i e Hi Hl. pose proof (lookup_lt_Some _ _ _ Hl) as Hi64.
    rewrite length_insert, (tlb_len _ Hwf) in Hi64.
    apply lookup_insert_cases in Hl as [(<- & -> & _)|[? Hj]].
    + exfalso. unfold next_slot in *. unfold NUM_TLB in *.
      destruct (Z.leb_spec 0 (tlbinvalidatedindex t)); [lia|]. rewrite u32_id in Hi by lia.
      destruct (decide (tlbindex t < 64)); [rewrite Z.mod_small in Hi by lia|]; lia.
    + apply (tlb_fresh _ Hwf i e); [|done]. case_match; [done|]. rewrite u32_id in Hi by lia. lia.
Qed.

(** After the write the page is mapped, and no other page changes its
    mapping, except that the page of the reused slot is dropped. *)
Lemma translate_after_write t pid addr paddr w va :
  tlb_wf t → 0 ≤ addr < MIPS_KSEG0 → translate t addr = None → tlbindex t + 1 < 2 ^ 32 →
  translate (tlb_after_write pid addr paddr w t) va =
    if decide (Z.land va TLBHI_VPAGE = Z.land addr TLBHI_VPAGE)
    then Some (Z.land paddr TLBLO_PPAGE + va `mod` PAGE_SIZE, w)
    else match tlb_entries t !! next_slot t with
         | Some e => if decide (e_vpage e = Z.land va TLBHI_VPAGE) then None else translate t va
         | None => translate t va
         end.
Proof.
  intros Hwf Ha Hmiss Hidx. pose proof (next_slot_lt t Hwf) as Hlt.
  pose proof (tlb_after_write_wf t pid addr paddr w Hwf Ha Hmiss Hidx) as Hwf'.
  destruct (lookup_lt_is_Some_2 _ _ Hlt) as [e0 He0].
  set (e := entry_of addr paddr w).
  case_decide as Hva.
  - rewrite (translate_hit _ va (next_slot t) e Hwf').
    + unfold e. by rewrite entry_ppage, entry_dirty.
    + cbn. by apply list_lookup_insert_eq.
    + apply entry_valid.
    + unfold e. by rewrite entry_vpage.
  - rewrite He0. assert (e_vpage e ≠ Z.land va TLBHI_VPAGE) as Hne
      by (unfold e; rewrite entry_vpage; congruence).
    case_decide as H0.
    + unfold translate. rewrite find_vpage_none; [done|]. cbn. fold e.
      intros i e' [(<- & -> & _)|[Hi Hl]]%lookup_insert_cases; [done|].
      intros Heq. apply Hi. apply (vpage_unique t _ _ e0 e'); [done..|congruence].
    + destruct (translate t va) as [r|] eqn:E.
      * apply translate_inv in E as (i & e' & Hi & Hv & Hvp & ->).
        apply (translate_hit _ va i e' Hwf'); [|done|done]. cbn.
        rewrite list_lookup_insert_ne; [done|]. intros <-. congruence.
      * destruct (translate (tlb_after_write pid addr paddr w t) va) as [r|] eqn:E'; [|done].
        apply translate_inv in E' as (i & e' & Hi & Hv & Hvp & _). cbn in Hi. fold e in Hi.
        apply lookup_insert_cases in Hi as [(<- & -> & _)|[Hi Hl]]; [done|].
        by rewrite (translate_hit t va i e' Hwf Hl Hv Hvp) in E.
Qed.

Section run.
Context {ops : VnodeOps}.

Lemma tlb_write_ok t hi lo i :
  0 ≤ i < Z.of_nat (length (tlb_entries t)) →
  tlb_write hi lo i t = Ok (tt, set_tlb_entries (<[Z.to_nat i := (hi, lo)]> (tlb_entries t)) t).
Proof. intros Hi. unfold tlb_write. mred. unfold id. by rewrite decide_True. Qed.

Lemma on_tlb_ok {A} (m : M tlbst A) (k : kernel) a t :
  m (k_tlb k) = Ok (a, t) → on_tlb m k = Ok (a, set_k_tlb t k).
Proof. intros H. unfold on_tlb, zoom. by rewrite H. Qed.

Lemma on_tlb_set {A} (m : M tlbst A) (k : kernel) a t t' :
  m t = Ok (a, t') → on_tlb m (set_k_tlb t k) = Ok (a, set_k_tlb t' k).
Proof. intros H. unfold on_tlb, zoom. cbn. by rewrite H. Qed.

Lemma vmtlb_write_ok k pid addr paddr w :
  quiet k → tlb_wf (k_tlb k) → length (k_stats k) = VMSTATSLEN →
  vmtlb_write pid addr paddr w k =
    Ok (0, set_k_stats (stats_incr (write_stat (k_tlb k)) (k_stats k))
             (set_k_tlb (tlb_after_write pid addr paddr w (k_tlb k)) k)).
Proof.
  intros Hq Hwf Hst. pose proof (next_slot_lt _ Hwf) as Hlt.
  set (t := k_tlb k) in *. pose proof (tlb_inval _ Hwf) as Hinv.
  pose proof (tlb_index _ Hwf) as Hidx. rewrite (tlb_len _ Hwf) in Hlt.
  assert (∀ s t', (s < VMSTATSLEN)%nat →
    vmstatincr s (set_k_tlb t' k) = Ok (tt, set_k_stats (stats_incr s (k_stats k)) (set_k_tlb t' k)))
    as Hincr.
  { intros s t' Hs. rewrite (vmstatincr_ok (set_k_tlb t' k)); [done| |cbn; by rewrite Hst].
    by apply (quiet_same k). }
  assert (length (tlb_entries t) = Z.to_nat NUM_TLB) as Hlen by apply Hwf.
  assert (∀ hi lo i x p, 0 ≤ i < NUM_TLB →
    on_tlb (tlb_write hi lo i) (set_k_tlb (mk_tlbst (tlb_entries t) (tlbindex t) x p) k) =
    Ok (tt, set_k_tlb (mk_tlbst (<[Z.to_nat i := (hi, lo)]> (tlb_entries t)) (tlbindex t) x p) k))
    as Hwr.
  { intros hi lo i x p Hi. erewrite on_tlb_ok; [|apply tlb_write_ok]; [done|].
    cbn. rewrite Hlen. unfold NUM_TLB in *. lia. }
  unfold vmtlb_write.
  rewrite (bind_ok _ _ k tt (set_k_tlb (set_lastpid pid t) k)) by (by destruct k).
  pose proof (entry_valid addr paddr w) as Hv. unfold e_valid, entry_of in Hv. cbn [snd] in Hv.
  cbv zeta in Hv |- *. apply negb_true_iff in Hv. rewrite Hv.
  rewrite (bind_ok _ _ _ (set_lastpid pid t) (set_k_tlb (set_lastpid pid t) k)) by done.
  unfold tlb_after_write, next_slot, write_stat.
  cbn [tlbindex tlbinvalidatedindex set_lastpid].
  destruct (Z.leb_spec 0 (tlbinvalidatedindex t)) as [H0|H0]; [|destruct (Z.ltb_spec (tlbindex t) NUM_TLB)].
  - erewrite bind_ok; [done|]. erewrite bind_ok; [|apply Hwr; unfold NUM_TLB in *; lia].
    erewrite bind_ok; [|by apply on_tlb_set]. rewrite Hincr; [done|by destruct (_ <? _); cbv; lia].
  - erewrite bind_ok; [done|]. erewrite bind_ok; [|apply Hwr; unfold NUM_TLB in *; lia].
    erewrite bind_ok; [|by apply on_tlb_set]. rewrite Hincr by (cbv; lia).
    unfold set_tlbindex. cbn [tlbinvalidatedindex tlb_entries lastpid].
    rewrite Z.mod_small by lia. by replace (tlbinvalidatedindex t) with (-1) by lia.
  - pose proof (Z.mod_pos_bound (tlbindex t) NUM_TLB eq_refl).
    erewrite bind_ok; [done|]. erewrite bind_ok; [|by apply Hwr].
    erewrite bind_ok; [|by apply on_tlb_set]. rewrite Hincr by (cbv; lia).
    unfold set_tlbindex. cbn [tlbinvalidatedindex tlb_entries lastpid].
    by replace (tlbinvalidatedindex t) with (-1) by lia.
Qed.
(** *** Dropping one page *)

Definition find_page (v : Z) (l : list (Z * Z)) : option (nat * (Z * Z)) :=
  list_find (λ e, e_vpage e = v) l.

Definition tlb_after_invalpage (addr : Z) (t : tlbst) : tlbst :=
  match find_page (Z.land addr TLBHI_VPAGE) (tlb_entries t) with
  | Some (i, _) =>
      mk_tlbst (<[i := invalid_entry i]> (tlb_entries t)) (tlbindex t) (Z.of_nat i) (lastpid t)
  | None => t
  end.

Lemma probe_from_find i v l :
  probe_from i v l = match find_page v l with Some (j, _) => i + Z.of_nat j | None => -1 end.
Proof.
  revert i. induction l as [|e l IH]; intros i; [done|]. cbn.
  destruct (Z.eqb_spec (e_vpage e) v) as [Heq|Hne].
  - rewrite decide_True by done. lia.
  - rewrite decide_False by done. rewrite IH. unfold find_page.
    destruct (list_find _ l) as [[j e']|]; cbn; lia.
Qed.

Lemma vmtlb_invalidatepage_ok k pid addr :
  vmtlb_invalidatepage pid addr k = Ok (tt, set_k_tlb (tlb_after_invalpage addr (k_tlb k)) k).
Proof.
  unfold vmtlb_invalidatepage.
  rewrite (bind_ok _ _ k (probe_from 0 (Z.land addr TLBHI_VPAGE) (tlb_entries (k_tlb k))) k).
  2:{ unfold on_tlb, tlb_probe, zoom. mred. rewrite land_vpage_idem. by destruct k. }
  rewrite probe_from_find. unfold tlb_after_invalpage.
  destruct (find_page _ _) as [[i e]|] eqn:E; [|by destruct k].
  apply list_find_Some in E as (Hi & _ & _). apply lookup_lt_Some in Hi.
  rewrite Z.add_0_l. rewrite (proj2 (Z.leb_le 0 _)) by lia.
  erewrite bind_ok; [|apply on_tlb_ok, tlb_write_ok; lia].
  erewrite on_tlb_set; [|done]. unfold set_tlbinvalidatedindex. cbn.
  by rewrite Nat2Z.id.
Qed.

Lemma tlb_after_invalpage_wf t addr :
  tlb_wf t → 0 ≤ addr < MIPS_KSEG0 → tlb_wf (tlb_after_invalpage addr t).
Proof.
  intros Hwf Ha. unfold tlb_after_invalpage.
  destruct (find_page _ _) as [[i e]|] eqn:E; [|done].
  apply list_find_Some in E as (Hi & Hv & _). pose proof (lookup_lt_Some _ _ _ Hi) as Hlt.
  assert (e_valid e = true) as Hval.
  { destruct (e_valid e) eqn:Ev; [done|]. exfalso.
    eapply (miss_no_match t addr i e); try done. unfold translate.
    by rewrite (find_vpage _ i e _ (tlb_nodup _ Hwf) Hi Hv), Ev. }
  assert (Z.of_nat i < tlbindex t) as Hix.
  { destruct (decide (Z.of_nat i < tlbindex t)); [done|].
    rewrite (tlb_fresh _ Hwf i e) in Hval; [done|lia|done]. }
  rewrite (tlb_len _ Hwf) in Hlt.
  destruct (tlb_set_slots t i (invalid_entry i) Hwf) as [Hs Hn].
  { by rewrite (tlb_len _ Hwf). }
  { by apply invalid_slot_ok. }
  { intros j e' Hj He'. rewrite invalid_vpage by done. intros Heq.
    destruct (tlb_slots _ Hwf j e' He') as [_ Hok].
    pose proof (lookup_lt_Some _ _ _ He') as Hjlt. rewrite (tlb_len _ Hwf) in Hjlt.
    rewrite Heq in Hok. unfold NUM_TLB in *.
    rewrite !TLBHI_INVALID_eq in Hok by (unfold NUM_TLB; lia).
    unfold MIPS_KSEG0, PAGE_SIZE in Hok. destruct (e_valid e'); lia. }
  destruct Hwf. split; cbn; [by rewrite length_insert|exact Hs|exact Hn|unfold NUM_TLB in *; lia| |done|lia|].
  - intros e' _. rewrite Nat2Z.id. intros [(_ & -> & _)|[? _]]%lookup_insert_cases; [|done].
    done.
  - intros j e' Hj [(<- & -> & _)|[? Hl]]%lookup_insert_cases; [done|by eapply tlb_fresh0].
Qed.

Lemma translate_after_invalpage t addr va :
  tlb_wf t → 0 ≤ addr < MIPS_KSEG0 → 0 ≤ va < MIPS_KSEG0 →
  translate (tlb_after_invalpage addr t) va =
    if decide (Z.land va TLBHI_VPAGE = Z.land addr TLBHI_VPAGE) then None else translate t va.
Proof.
  intros Hwf Ha Hva. pose proof (tlb_after_invalpage_wf t addr Hwf Ha) as Hwf'.
  pose proof (user_vpage va Hva) as Huser.
  unfold tlb_after_invalpage in *.
  destruct (find_page _ _) as [[i e]|] eqn:E.
  - apply list_find_Some in E as (Hi & Hv & _). pose proof (lookup_lt_Some _ _ _ Hi) as Hlt.
    rewrite (tlb_len _ Hwf) in Hlt.
    assert (e_vpage (invalid_entry i) ≠ Z.land va TLBHI_VPAGE) as Hninv.
    { rewrite invalid_vpage by done.
      rewrite TLBHI_INVALID_eq by (unfold NUM_TLB in *; lia). unfold PAGE_SIZE. lia. }
    case_decide as Heq.
    + unfold translate. rewrite find_vpage_none; [done|]. cbn.
      intros j e' [(<- & -> & _)|[Hne Hl]]%lookup_insert_cases; [done|].
      intros Hc. apply Hne. apply (vpage_unique t i j e e'); [done..|congruence].
    + destruct (translate t va) as [r|] eqn:Er.
      * apply translate_inv in Er as (j & e' & Hj & Hjv & Hvp & ->).
        apply (translate_hit _ va j e' Hwf'); [|done|done]. cbn.
        rewrite list_lookup_insert_ne; [done|]. intros <-. congruence.
      * match goal with |- ?x = None => destruct x as [r|] eqn:E'; [|done] end.
        apply translate_inv in E' as (j & e' & Hj & Hjv & Hvp & _). cbn in Hj.
        apply lookup_insert_cases in Hj as [(<- & -> & _)|[_ Hl]]; [done|].
        by rewrite (translate_hit t va j e' Hwf Hl Hjv Hvp) in Er.
  - case_decide as Heq; [|done]. unfold translate. rewrite find_vpage_none; [done|].
    intros j e' Hj. unfold find_page in E. rewrite list_find_None, Forall_lookup in E.
    rewrite Heq. by apply (E j).
Qed.

(** *** Flushing *)

Definition invalid_entries : list (Z * Z) := invalid_entry <$> seq 0 (Z.to_nat NUM_TLB).
Definition tlb_flushed : tlbst := mk_tlbst invalid_entries 0 (-1) 0.

Lemma flush_loop t :
  length (tlb_entries t) = Z.to_nat NUM_TLB →
  for_list (seqZ 0 NUM_TLB) (λ i, tlb_write (TLBHI_INVALID i) TLBLO_INVALID i) t =
  Ok (tt, set_tlb_entries invalid_entries t).
Proof.
  intros Hlen.
  pose proof (for_update tlb_entries set_tlb_entries
    (λ i, tlb_write (TLBHI_INVALID i) TLBLO_INVALID i) (λ i _, invalid_entry i) 0 64 t) as H.
  etrans; [apply H|]; try done; [by intros []| |by rewrite Hlen|].
  - intros i t' x Hx. rewrite tlb_write_ok; [by rewrite Nat2Z.id|]. apply lookup_lt_Some in Hx. lia.
  - do 3 f_equal. change 64%nat with (Z.to_nat NUM_TLB). rewrite <-Hlen, update_range_all.
    apply list_eq. intros i. unfold invalid_entries. rewrite list_lookup_imap, list_lookup_fmap.
    destruct (tlb_entries t !! i) as [e|] eqn:E.
    + apply lookup_lt_Some in E. rewrite lookup_seq_lt by lia. done.
    + apply lookup_ge_None in E. rewrite lookup_seq_ge by lia. done.
Qed.

Lemma vmtlb_invalidate_ok k pid :
  quiet k → tlb_wf (k_tlb k) → length (k_stats k) = VMSTATSLEN →
  vmtlb_invalidate pid k =
    Ok (tt, if pid =? lastpid (k_tlb k) then k
            else set_k_stats (stats_incr TLBINVALIDATION (k_stats k)) (set_k_tlb tlb_flushed k)).
Proof.
  intros Hq Hwf Hst. unfold vmtlb_invalidate.
  rewrite (bind_ok _ _ k (k_tlb k) k) by done. destruct (_ =? _); [done|].
  pose proof (flush_loop (k_tlb k) (tlb_len _ Hwf)) as Hf.
  erewrite bind_ok; [|apply on_tlb_ok, Hf].
  do 3 (erewrite bind_ok; [|by apply on_tlb_set]).
  rewrite (vmstatincr_ok (set_k_tlb _ k)); [done|by apply (quiet_same k)|]. cbn.
  by rewrite Hst; cbv; lia.
Qed.

Lemma tlb_flushed_wf : tlb_wf tlb_flushed.
Proof.
  assert (∀ i e, tlb_entries tlb_flushed !! i = Some e →
    e = invalid_entry i ∧ (i < Z.to_nat NUM_TLB)%nat) as Hi.
  { intros i e. cbn. unfold invalid_entries. rewrite list_lookup_fmap, fmap_Some.
    intros (j & Hj%lookup_seq & ->). split; [|by apply Hj]. f_equal. lia. }
  split; cbn; try (unfold NUM_TLB; lia).
  - done.
  - intros i e H. apply Hi in H as [-> ?]. by apply invalid_slot_ok.
  - by apply (bool_decide_unpack _); vm_compute.
  - intros i e _ H. by apply Hi in H as [-> ?].
Qed.

Lemma translate_flushed va : 0 ≤ va < MIPS_KSEG0 → translate tlb_flushed va = None.
Proof.
  intros Hva. destruct (translate _ _) as [r|] eqn:E; [|done].
  apply translate_inv in E as (i & e & Hi & Hv & _).
  assert (0 ≤ Z.of_nat i) as H0 by lia. by rewrite (tlb_fresh _ tlb_flushed_wf i e H0 Hi) in Hv.
Qed.
End run.
