(* ===== verification/Swapfile.v ===== *)
(** * The swap file ([kern/vm/swapfile.c], [kern/include/swapfile.h])

    A table of [SWAPPAGES] slots names the page saved in each slot of the
    file.  The specification is the map [swap_contents] from keys (pid, vaddr)
    to page contents: [swapinpage] inserts a key, [swapoutpage] reads a key and
    deletes it, [removeswapentries] deletes the keys of a process. *)

From S2P Require Import Prelude Machine Spinlock Pt PtSpec Kernel Vmstats.

Definition SWAPFILESIZE : Z := 9 * 1024 * 1024.
Definition SWAPPAGES : Z := SWAPFILESIZE / PAGE_SIZE.

Definition no_page : swappage := mk_swappage (-1) 0.

Section swapfile.
Context {ops : VnodeOps}.

(** ** Operations *)

Definition getswapspin : M kernel () :=
  held ← do_i_hold Swapspin;
  if (held : bool) then mret tt
  else
    acquire Swapspin ;;
    held ← do_i_hold Swapspin;
    kassert held "spinlock_do_i_hold(&swapspin)".

Definition releaseswapspin : M kernel () :=
  held ← do_i_hold Swapspin;
  kassert held "spinlock_do_i_hold(&swapspin)" ;;
  release Swapspin ;;
  held ← do_i_hold Swapspin;
  kassert (negb held) "!spinlock_do_i_hold(&swapspin)".

(** [swappagesmap[i] = sp], an invalid access out of the array *)
Definition set_slot (i : nat) (sp : swappage) : M kernel () :=
  l ← gets k_swapmap;
  if decide (i < length l)%nat then modify (set_k_swapmap (<[i := sp]> l)) else halt BadAccess.

(** [open] is what [vfs_open] returned and the vnode it stored. *)
Definition swapinit (open : Z * option Z) : M kernel () :=
  if negb (open.1 =? 0) then halt (Panic "Could not open swapfile")
  else
    match open.2 with
    | None => halt (AssertFail "swapfile!=NULL")
    | Some vn => modify (set_k_swapfile vn)
    end ;;
    getswapspin ;;
    for_list (seqZ 0 SWAPPAGES) (λ i, set_slot (Z.to_nat i) no_page) ;;
    releaseswapspin.

(** The search loop of [swapinpage] over the slots left: take the first free
    one. *)
Fixpoint take_slot (l : list nat) (pid addr : Z) : M kernel Z :=
  match l with
  | [] => mret (-1)
  | i :: l' =>
      sm ← gets k_swapmap;
      sp ← deref (sm !! i);
      if sw_pid sp =? -1 then
        set_slot i (mk_swappage pid addr) ;;
        maxind ← gets k_maxind;
        (if maxind <=? Z.of_nat i then modify (set_k_maxind (Z.of_nat i)) else mret tt) ;;
        mret (Z.of_nat i)
      else take_slot l' pid addr
  end.

Definition swapinpage (pid addr readfrom : Z) : M kernel Z :=
  getswapspin ;;
  ind ← take_slot (seq 0 (Z.to_nat SWAPPAGES)) pid addr;
  releaseswapspin ;;
  if ind =? -1 then halt (Panic "Swapfile has reached the maximum memory allowed")
  else
    let offset := ind * PAGE_SIZE in
    let io := uio_kinit (PADDR_TO_KVADDR readfrom) PAGE_SIZE offset UIO_WRITE in
    vn ← gets k_swapfile;
    res ← VOP_WRITE vn io;
    if negb (res.1 =? 0) then halt (Panic "Write in swapfile didnt complete")
    else
      vmstatincr SWAPWRITE ;;
      mret 0.

(** The search loop of [swapoutpage] *)
Fixpoint find_slot (l : list nat) (pid addr : Z) : M kernel Z :=
  match l with
  | [] => mret (-1)
  | i :: l' =>
      sm ← gets k_swapmap;
      sp ← deref (sm !! i);
      if (sw_pid sp =? pid) && (sw_addr sp =? addr) then mret (Z.of_nat i)
      else find_slot l' pid addr
  end.

Definition swapoutpage (pid addr readin : Z) : M kernel Z :=
  getswapspin ;;
  ind ← find_slot (seq 0 (Z.to_nat SWAPPAGES)) pid addr;
  releaseswapspin ;;
  if ind =? -1 then mret EADDRNOTAVAIL
  else
    let offset := ind * PAGE_SIZE in
    let io := uio_kinit (PADDR_TO_KVADDR readin) PAGE_SIZE offset UIO_READ in
    vn ← gets k_swapfile;
    res ← VOP_READ vn io;
    if negb (res.1 =? 0) then halt (Panic "Error while swapping a page out")
    else
      getswapspin ;;
      set_slot (Z.to_nat ind) no_page ;;
      releaseswapspin ;;
      mret 0.

Definition removeswapentries (pid : Z) : M kernel () :=
  getswapspin ;;
  maxind ← gets k_maxind;
  for_list (seqZ 0 (maxind + 1)) (λ i,
    sm ← gets k_swapmap;
    sp ← deref (sm !! Z.to_nat i);
    if sw_pid sp =? pid then set_slot (Z.to_nat i) no_page else mret tt) ;;
  releaseswapspin.

(** [vfs_close] is the vfs operation on the vnode of the swap file. *)
Definition swapdest (vfs_close : Z → M kernel ()) : M kernel () :=
  vn ← gets k_swapfile;
  vfs_close vn ;;
  on_spinlock Swapspin spinlock_cleanup.
End swapfile.

(** ** Specification *)

Definition sw_key (sp : swappage) : key := (sw_pid sp, sw_addr sp).
Definition occupied (sp : swappage) : Prop := sw_pid sp ≠ -1.
#[export] Instance occupied_dec sp : Decision (occupied sp).
Proof. unfold occupied. apply _. Defined.

Definition free_slot (sm : list swappage) : option nat :=
  fst <$> list_find (λ sp, sw_pid sp = -1) sm.
Definition slot_of (key : key) (sm : list swappage) : option nat :=
  fst <$> list_find (λ sp, occupied sp ∧ sw_key sp = key) sm.

(** Each page is saved at most once. *)
Definition slots_ok (sm : list swappage) : Prop :=
  length sm = Z.to_nat SWAPPAGES ∧
  ∀ i j sp sp', sm !! i = Some sp → sm !! j = Some sp' →
    occupied sp → sw_key sp = sw_key sp' → i = j.

Lemma slot_of_Some key sm j :
  slots_ok sm → slot_of key sm = Some j ↔
    ∃ sp, sm !! j = Some sp ∧ occupied sp ∧ sw_key sp = key.
Proof.
  intros [_ Huniq]. unfold slot_of. rewrite fmap_Some. split.
  - intros ([i sp] & (Hi & [Ho Hk] & _)%list_find_Some & ->). eauto.
  - intros (sp & Hj & Ho & Hk). destruct (list_find _ sm) as [[i sp']|] eqn:E.
    + exists (i, sp'). split; [done|]. apply list_find_Some in E as (Hi & [Ho' Hk'] & _).
      cbn. apply (Huniq j i sp sp'); congruence.
    + exfalso. rewrite list_find_None, Forall_lookup in E. by apply (E j sp Hj).
Qed.

Lemma slot_of_None key sm :
  slot_of key sm = None ↔ ∀ j sp, sm !! j = Some sp → occupied sp → sw_key sp ≠ key.
Proof.
  unfold slot_of. rewrite fmap_None, list_find_None, Forall_lookup. naive_solver.
Qed.

Lemma free_slot_Some sm j :
  free_slot sm = Some j →
  (∃ sp, sm !! j = Some sp ∧ sw_pid sp = -1) ∧
  ∀ i sp, (i < j)%nat → sm !! i = Some sp → occupied sp.
Proof.
  unfold free_slot. rewrite fmap_Some.
  intros ([i sp] & (Hi & Hp & Hlt)%list_find_Some & ->). cbn. split; [eauto|].
  intros i' sp' Hi' Hl. by eapply Hlt.
Qed.

(** Taking and clearing a slot *)
Lemma slots_ok_take sm j key :
  slots_ok sm → slot_of key sm = None → slots_ok (<[j := mk_swappage key.1 key.2]> sm).
Proof.
  intros [Hlen Huniq] Hnone. rewrite slot_of_None in Hnone. split; [by rewrite length_insert|].
  intros i1 i2 sp1 sp2 H1 H2 Ho Hk.
  apply lookup_insert_cases in H1 as [(<- & -> & _)|[Hn1 H1]];
    apply lookup_insert_cases in H2 as [(<- & -> & _)|[Hn2 H2]]; [done| | |by eapply Huniq].
  - exfalso. apply (Hnone i2 sp2 H2); [|rewrite <-Hk; by destruct key].
    unfold occupied in *. unfold sw_key in Hk. cbn in *. congruence.
  - exfalso. apply (Hnone i1 sp1 H1 Ho). rewrite Hk. by destruct key.
Qed.

Lemma slots_ok_clear sm j : slots_ok sm → slots_ok (<[j := no_page]> sm).
Proof.
  intros [Hlen Huniq]. split; [by rewrite length_insert|].
  intros i1 i2 sp1 sp2 H1 H2 Ho Hk.
  apply lookup_insert_cases in H1 as [(<- & -> & _)|[Hn1 H1]]; [done|].
  apply lookup_insert_cases in H2 as [(<- & -> & _)|[Hn2 H2]]; [|by eapply Huniq].
  unfold occupied, sw_key in *. cbn in *. congruence.
Qed.

Lemma slot_of_take sm j sp key key' :
  slots_ok sm → slot_of key sm = None → sm !! j = Some sp → ¬ occupied sp → key.1 ≠ -1 →
  slot_of key' (<[j := mk_swappage key.1 key.2]> sm) =
    if decide (key' = key) then Some j else slot_of key' sm.
Proof.
  intros Hok Hnone Hj Hfree Hpid. pose proof (slots_ok_take sm j key Hok Hnone) as Hok'.
  case_decide as Hk.
  - subst. apply slot_of_Some; [done|]. exists (mk_swappage key.1 key.2).
    rewrite list_lookup_insert_eq by (by eapply lookup_lt_Some). by destruct key.
  - destruct (slot_of key' sm) as [i|] eqn:E.
    + apply slot_of_Some in E as (sp' & Hi & Ho & Hk'); [|done].
      apply slot_of_Some; [done|]. exists sp'. split; [|done].
      rewrite list_lookup_insert_ne; [done|]. intros ->. by simplify_eq.
    + apply slot_of_None. rewrite slot_of_None in E.
      intros i sp' [(<- & -> & _)|[? Hi]]%lookup_insert_cases Ho; [|by apply (E i)].
      intros <-. apply Hk. by destruct key.
Qed.

Lemma slot_of_clear sm j sp key' :
  slots_ok sm → sm !! j = Some sp → occupied sp →
  slot_of key' (<[j := no_page]> sm) =
    if decide (key' = sw_key sp) then None else slot_of key' sm.
Proof.
  intros Hok Hj Ho. pose proof (slots_ok_clear sm j Hok) as Hok'. case_decide as Hk.
  - subst. apply slot_of_None. intros i sp' [(<- & -> & _)|[Hne Hi]]%lookup_insert_cases Ho'; [done|].
    intros Heq. apply Hne. by apply (proj2 Hok j i sp sp').
  - destruct (slot_of key' sm) as [i|] eqn:E.
    + apply slot_of_Some in E as (sp' & Hi & Ho' & Hk'); [|done].
      apply slot_of_Some; [done|]. exists sp'. split; [|done].
      rewrite list_lookup_insert_ne; [done|]. intros ->. congruence.
    + apply slot_of_None. rewrite slot_of_None in E.
      intros i sp' [(<- & -> & _)|[? Hi]]%lookup_insert_cases Ho'; [done|by apply (E i)].
Qed.

Section run.
Context {ops : VnodeOps}.

Lemma getswapspin_ok k : quiet k → getswapspin k = Ok (tt, hold Swapspin k).
Proof.
  intros Hq. unfold getswapspin. run_with (do_i_hold_quiet Swapspin k Hq). cbv iota.
  run_with (acquire_quiet Swapspin k Hq). by run_with (do_i_hold_hold Swapspin k Hq).
Qed.

Lemma releaseswapspin_ok k : quiet k → releaseswapspin (hold Swapspin k) = Ok (tt, k).
Proof.
  intros Hq. unfold releaseswapspin. run_with (do_i_hold_hold Swapspin k Hq).
  rewrite (bind_ok _ _ _ tt (hold Swapspin k)) by done.
  run_with (release_hold Swapspin k Hq). by run_with (do_i_hold_quiet Swapspin k Hq).
Qed.

Lemma set_slot_ok k i sp :
  (i < length (k_swapmap k))%nat → set_slot i sp k = Ok (tt, set_k_swapmap (<[i := sp]> (k_swapmap k)) k).
Proof. intros Hi. unfold set_slot. mred. by rewrite decide_True. Qed.

(** The loops are the searches of the specification. *)
Lemma take_slot_ok k pre rest pid addr :
  k_swapmap k = pre ++ rest →
  take_slot (seq (length pre) (length rest)) pid addr k =
    match free_slot rest with
    | Some j => Ok (Z.of_nat (length pre + j),
        set_k_maxind (Z.max (k_maxind k) (Z.of_nat (length pre + j)))
          (set_k_swapmap (<[(length pre + j)%nat := mk_swappage pid addr]> (k_swapmap k)) k))
    | None => Ok (-1, k)
    end.
Proof.
  revert pre. induction rest as [|sp rest IH]; intros pre Hsm; [done|].
  cbn [length seq take_slot]. rewrite (bind_ok _ _ _ (k_swapmap k) k) by done.
  rewrite (bind_ok _ _ _ sp k) by (by rewrite Hsm, list_lookup_middle).
  unfold free_slot. cbn [list_find]. destruct (Z.eqb_spec (sw_pid sp) (-1)) as [Hp|Hp].
  - rewrite decide_True by done. cbn. rewrite Nat.add_0_r.
    run_with (set_slot_ok k (length pre) (mk_swappage pid addr)
      ltac:(rewrite Hsm, length_app; cbn; lia)).
    mred. cbn. destruct (Z.leb_spec (k_maxind k) (Z.of_nat (length pre))).
    + by rewrite Z.max_r by lia.
    + rewrite Z.max_l by lia. by destruct k.
  - rewrite decide_False by done. specialize (IH (pre ++ [sp])).
    rewrite length_app, <-app_assoc in IH. cbn [length app] in IH. rewrite Nat.add_1_r in IH.
    rewrite (IH Hsm). unfold free_slot. destruct (list_find _ rest) as [[j sp']|]; [|done]. cbn.
    by rewrite <-plus_n_Sm.
Qed.

Lemma find_slot_ok k pre rest pid addr :
  k_swapmap k = pre ++ rest → pid ≠ -1 →
  find_slot (seq (length pre) (length rest)) pid addr k =
    Ok (match slot_of (pid, addr) rest with Some j => Z.of_nat (length pre + j) | None => -1 end, k).
Proof.
  intros Hsm Hpid. revert pre Hsm. induction rest as [|sp rest IH]; intros pre Hsm; [done|].
  cbn [length seq find_slot]. rewrite (bind_ok _ _ _ (k_swapmap k) k) by done.
  rewrite (bind_ok _ _ _ sp k) by (by rewrite Hsm, list_lookup_middle).
  unfold slot_of. cbn [list_find].
  destruct ((sw_pid sp =? pid) && (sw_addr sp =? addr)) eqn:E.
  - apply andb_true_iff in E as [<-%Z.eqb_eq <-%Z.eqb_eq]. rewrite decide_True by done.
    cbn. by rewrite Nat.add_0_r.
  - rewrite decide_False.
    2:{ intros [_ [= <- <-]]. by rewrite !Z.eqb_refl in E. }
    specialize (IH (pre ++ [sp])).
    rewrite length_app, <-app_assoc in IH. cbn [length app] in IH. rewrite Nat.add_1_r in IH.
    rewrite (IH Hsm). unfold slot_of. destruct (list_find _ rest) as [[j sp']|]; [|done]. cbn.
    by rewrite <-plus_n_Sm.
Qed.

(** The pages of process [pid] are dropped. *)
Definition drop_pid (pid : Z) (sp : swappage) : swappage :=
  if sw_pid sp =? pid then no_page else sp.

Lemma remove_loop_ok k m pid :
  (m ≤ length (k_swapmap k))%nat →
  for_list (seqZ 0 (Z.of_nat m)) (λ i,
    sm ← gets k_swapmap;
    sp ← deref (sm !! Z.to_nat i);
    if sw_pid sp =? pid then set_slot (Z.to_nat i) no_page else mret tt) k =
  Ok (tt, set_k_swapmap (update_range 0 m (λ _, drop_pid pid) (k_swapmap k)) k).
Proof.
  intros Hm. eapply (for_update k_swapmap set_k_swapmap _ (λ _, drop_pid pid) 0 m k);
    [done|done|by intros []| |done].
  intros i k' sp Hi. rewrite (bind_ok _ _ _ (k_swapmap k') k') by done.
  rewrite Nat2Z.id. rewrite (bind_ok _ _ _ sp k') by (by rewrite Hi).
  unfold drop_pid. destruct (sw_pid sp =? pid).
  - apply set_slot_ok. by eapply lookup_lt_Some.
  - rewrite list_insert_id by done. by destruct k'.
Qed.
End run.

Section laws.
Context {ops : VnodeOps} {laws : VnodeLaws ops}.

Record swap_wf (k : kernel) : Prop := {
  swap_slots : slots_ok (k_swapmap k);
  swap_max j sp : k_swapmap k !! j = Some sp → occupied sp → Z.of_nat j ≤ k_maxind k;
  swap_maxind : 0 ≤ k_maxind k < SWAPPAGES;
  swap_file j sp : k_swapmap k !! j = Some sp → occupied sp →
    (Z.of_nat j + 1) * PAGE_SIZE ≤ Z.of_nat (length (file_data (k_fs k) (k_swapfile k)));
  swap_vnode : vnode_ok (k_fs k) (k_swapfile k)
}.

(** The page saved for a key *)
Definition swap_contents (k : kernel) (key : key) : option (list Z) :=
  (λ j, file_read (Z.of_nat j * PAGE_SIZE) PAGE_SIZE (file_data (k_fs k) (k_swapfile k))) <$>
    slot_of key (k_swapmap k).

Lemma swap_wf_slots k : swap_wf k → length (k_swapmap k) = Z.to_nat SWAPPAGES.
Proof. intros H. apply H. Qed.

Lemma swap_contents_length k key c :
  swap_wf k → swap_contents k key = Some c → Z.of_nat (length c) = PAGE_SIZE.
Proof.
  intros Hwf. unfold swap_contents. rewrite fmap_Some. intros (j & Hj & ->).
  apply slot_of_Some in Hj as (sp & Hj & Ho & _); [|apply Hwf].
  pose proof (swap_file _ Hwf j sp Hj Ho). apply length_file_read; unfold PAGE_SIZE in *; lia.
Qed.

(** The loops on the whole table *)
Lemma take_slot_all k pid addr :
  length (k_swapmap k) = Z.to_nat SWAPPAGES →
  take_slot (seq 0 (Z.to_nat SWAPPAGES)) pid addr k =
    match free_slot (k_swapmap k) with
    | Some j => Ok (Z.of_nat j, set_k_maxind (Z.max (k_maxind k) (Z.of_nat j))
        (set_k_swapmap (<[j := mk_swappage pid addr]> (k_swapmap k)) k))
    | None => Ok (-1, k)
    end.
Proof. intros <-. apply (take_slot_ok k [] (k_swapmap k)). done. Qed.

Lemma find_slot_all k pid addr :
  length (k_swapmap k) = Z.to_nat SWAPPAGES → pid ≠ -1 →
  find_slot (seq 0 (Z.to_nat SWAPPAGES)) pid addr k =
    Ok (match slot_of (pid, addr) (k_swapmap k) with Some j => Z.of_nat j | None => -1 end, k).
Proof. intros <- Hpid. by apply (find_slot_ok k [] (k_swapmap k)). Qed.

Lemma kvaddr_eq a : 0 ≤ a → a + PAGE_SIZE ≤ MIPS_KSEG0 →
  PADDR_TO_KVADDR a = a + MIPS_KSEG0 ∧ kbuf_ok (PADDR_TO_KVADDR a) PAGE_SIZE.
Proof.
  intros H0 H1. unfold PADDR_TO_KVADDR, kbuf_ok, PAGE_SIZE, MIPS_KSEG0 in *.
  rewrite u32_id; lia.
Qed.

(** *** Saving a page *)

Definition swapped_in (j : nat) (pid addr : Z) (fs : fsstate) (k : kernel) : kernel :=
  set_k_stats (stats_incr SWAPWRITE (k_stats k))
    (set_k_fs fs (set_k_maxind (Z.max (k_maxind k) (Z.of_nat j))
      (set_k_swapmap (<[j := mk_swappage pid addr]> (k_swapmap k)) k))).

Lemma swapinpage_run k pid addr readfrom j :
  quiet k → swap_wf k → length (k_stats k) = VMSTATSLEN →
  0 ≤ readfrom → readfrom + PAGE_SIZE ≤ MIPS_KSEG0 →
  free_slot (k_swapmap k) = Some j →
  ∃ fs', swapinpage pid addr readfrom k = Ok (0, swapped_in j pid addr fs' k) ∧
    file_data fs' (k_swapfile k) =
      file_write (Z.of_nat j * PAGE_SIZE) (page_at (k_mem k) readfrom)
        (file_data (k_fs k) (k_swapfile k)) ∧
    (∀ w, w ≠ k_swapfile k → file_data fs' w = file_data (k_fs k) w) ∧
    (∀ w, vnode_ok (k_fs k) w → vnode_ok fs' w).
Proof.
  intros Hq Hwf Hst H0 Htop Hj. destruct (kvaddr_eq readfrom H0 Htop) as [Hkv Hkb].
  destruct (vop_write_law (k_swapfile k) (PADDR_TO_KVADDR readfrom) PAGE_SIZE
    (Z.of_nat j * PAGE_SIZE) (k_mem k) (k_fs k) (swap_vnode _ Hwf) Hkb ltac:(unfold PAGE_SIZE; lia))
    as (u' & fs' & Hw & Hd & Ho & Hv).
  rewrite Hkv in Hd. rewrite Z.add_simpl_r in Hd.
  exists fs'. split; [|done]. unfold swapinpage.
  run_with (getswapspin_ok k Hq).
  set (k1 := set_k_maxind (Z.max (k_maxind k) (Z.of_nat j))
      (set_k_swapmap (<[j := mk_swappage pid addr]> (k_swapmap k)) k)).
  assert (quiet k1) as Hq1 by (by apply (quiet_same k)).
  rewrite (bind_ok _ _ _ (Z.of_nat j) (hold Swapspin k1)).
  2:{ rewrite take_slot_all by apply Hwf. cbn [k_swapmap hold set_k_cpu set_k_locks]. by rewrite Hj. }
  run_with (releaseswapspin_ok k1 Hq1).
  rewrite (proj2 (Z.eqb_neq (Z.of_nat j) (-1))) by lia. cbv zeta.
  rewrite (bind_ok _ _ _ (k_swapfile k) k1) by done.
  set (k2 := set_k_fs fs' k1).
  rewrite (bind_ok _ _ _ (0, u') k2).
  2:{ unfold VOP_WRITE. cbn [k_mem k_fs k1 set_k_maxind set_k_swapmap]. by rewrite Hw. }
  cbn [fst Z.eqb negb].
  assert (quiet k2) as Hq2 by (by apply (quiet_same k)).
  by run_with (vmstatincr_ok k2 SWAPWRITE Hq2 ltac:(cbn; rewrite Hst; cbv; lia)).
Qed.

Lemma swapinpage_full k pid addr readfrom :
  quiet k → length (k_swapmap k) = Z.to_nat SWAPPAGES → free_slot (k_swapmap k) = None →
  swapinpage pid addr readfrom k = Stop (Panic "Swapfile has reached the maximum memory allowed").
Proof.
  intros Hq Hlen Hj. unfold swapinpage. run_with (getswapspin_ok k Hq).
  rewrite (bind_ok _ _ _ (-1) (hold Swapspin k)).
  2:{ rewrite take_slot_all by done. cbn [k_swapmap hold set_k_cpu set_k_locks]. by rewrite Hj. }
  by run_with (releaseswapspin_ok k Hq).
Qed.

Lemma page_offsets i j : i ≠ j →
  (Z.of_nat i + 1) * PAGE_SIZE ≤ Z.of_nat j * PAGE_SIZE ∨
  Z.of_nat j * PAGE_SIZE + PAGE_SIZE ≤ Z.of_nat i * PAGE_SIZE.
Proof. unfold PAGE_SIZE. lia. Qed.

(** The saved pages after [swapinpage] *)
Lemma swapped_in_wf k pid addr j fs' bs :
  swap_wf k → free_slot (k_swapmap k) = Some j → slot_of (pid, addr) (k_swapmap k) = None →
  pid ≠ -1 → Z.of_nat (length bs) = PAGE_SIZE →
  file_data fs' (k_swapfile k) =
    file_write (Z.of_nat j * PAGE_SIZE) bs (file_data (k_fs k) (k_swapfile k)) →
  vnode_ok fs' (k_swapfile k) →
  swap_wf (swapped_in j pid addr fs' k) ∧
  ∀ key, swap_contents (swapped_in j pid addr fs' k) key =
    if decide (key = (pid, addr)) then Some bs else swap_contents k key.
Proof.
  intros Hwf Hj Hnew Hpid Hlen Hd Hv.
  destruct (free_slot_Some _ _ Hj) as ((sp0 & Hj0 & Hfree) & _).
  pose proof (lookup_lt_Some _ _ _ Hj0) as Hlt. rewrite (swap_wf_slots _ Hwf) in Hlt.
  pose proof (swap_maxind _ Hwf). assert (0 ≤ Z.of_nat j * PAGE_SIZE) by (unfold PAGE_SIZE; lia).
  split; [split; cbn|].
  - by apply (slots_ok_take _ j (pid, addr) (swap_slots _ Hwf)).
  - intros i sp [(<- & -> & _)|[? Hi]]%lookup_insert_cases Ho; [lia|].
    pose proof (swap_max _ Hwf i sp Hi Ho). lia.
  - unfold SWAPPAGES in *. lia.
  - intros i sp Hi Ho. rewrite Hd, length_file_write by lia.
    apply lookup_insert_cases in Hi as [(<- & -> & _)|[? Hi]]; [unfold PAGE_SIZE in *; lia|].
    pose proof (swap_file _ Hwf i sp Hi Ho). lia.
  - done.
  - intros key. unfold swap_contents, swapped_in.
    cbn [k_fs k_swapfile k_swapmap set_k_stats set_k_fs set_k_maxind set_k_swapmap].
    pose proof (slot_of_take _ j sp0 (pid, addr) key (swap_slots _ Hwf) Hnew Hj0
      ltac:(naive_solver) Hpid) as Hs. cbn [fst snd] in Hs. rewrite Hs.
    case_decide as Hk; cbn.
    + rewrite Hd, <-Hlen, file_read_write; [done|lia].
    + destruct (slot_of key (k_swapmap k)) as [i|] eqn:Ei; [|done]. cbn. f_equal.
      apply slot_of_Some in Ei as (sp & Hi & Ho & Hki); [|apply Hwf].
      assert (i ≠ j) as Hij by (intros ->; naive_solver).
      rewrite Hd. apply file_read_write_ne; [lia|unfold PAGE_SIZE; lia| |].
      * pose proof (swap_file _ Hwf i sp Hi Ho). unfold PAGE_SIZE in *. lia.
      * pose proof (page_offsets i j Hij). rewrite Hlen. lia.
Qed.
(** *** Bringing a page back *)

Definition swapped_out (j : nat) (readin : Z) (c : list Z) (fs : fsstate) (k : kernel) : kernel :=
  set_k_swapmap (<[j := no_page]> (k_swapmap k))
    (set_k_mem (mem_write (k_mem k) readin c) (set_k_fs fs k)).

Lemma swapoutpage_run k pid addr readin j c :
  quiet k → swap_wf k → pid ≠ -1 →
  0 ≤ readin → readin + PAGE_SIZE ≤ MIPS_KSEG0 →
  slot_of (pid, addr) (k_swapmap k) = Some j → swap_contents k (pid, addr) = Some c →
  ∃ fs', swapoutpage pid addr readin k = Ok (0, swapped_out j readin c fs' k) ∧
    (∀ w, file_data fs' w = file_data (k_fs k) w) ∧
    (∀ w, vnode_ok (k_fs k) w → vnode_ok fs' w).
Proof.
  intros Hq Hwf Hpid H0 Htop Hj Hc. destruct (kvaddr_eq readin H0 Htop) as [Hkv Hkb].
  unfold swap_contents in Hc. rewrite Hj in Hc. cbn in Hc. injection Hc as Hc.
  destruct (vop_read_law (k_swapfile k) (PADDR_TO_KVADDR readin) PAGE_SIZE
    (Z.of_nat j * PAGE_SIZE) (k_mem k) (k_fs k) (swap_vnode _ Hwf) Hkb ltac:(unfold PAGE_SIZE; lia))
    as (u' & fs' & Hr & _ & Hd & Hv).
  rewrite Hc, Hkv, Z.add_simpl_r, <-Hkv in Hr.
  pose proof Hj as (sp & Hl & _)%slot_of_Some; [|apply Hwf].
  exists fs'. split; [|done]. unfold swapoutpage.
  run_with (getswapspin_ok k Hq).
  rewrite (bind_ok _ _ _ (Z.of_nat j) (hold Swapspin k)).
  2:{ rewrite find_slot_all by (apply Hwf || done).
      cbn [k_swapmap hold set_k_cpu set_k_locks]. by rewrite Hj. }
  run_with (releaseswapspin_ok k Hq).
  rewrite (proj2 (Z.eqb_neq (Z.of_nat j) (-1))) by lia. cbv zeta.
  rewrite (bind_ok _ _ _ (k_swapfile k) k) by done.
  set (k1 := set_k_mem (mem_write (k_mem k) readin c) (set_k_fs fs' k)).
  rewrite (bind_ok _ _ _ (0, u') k1) by (unfold VOP_READ; by rewrite Hr).
  cbn [fst Z.eqb negb].
  assert (quiet k1) as Hq1 by (by apply (quiet_same k)).
  run_with (getswapspin_ok k1 Hq1).
  run_with (set_slot_ok (hold Swapspin k1) (Z.to_nat (Z.of_nat j)) no_page
    ltac:(cbn; rewrite Nat2Z.id; by eapply lookup_lt_Some)).
  rewrite Nat2Z.id.
  assert (quiet (swapped_out j readin c fs' k)) as Hq2 by (by apply (quiet_same k)).
  by run_with (releaseswapspin_ok (swapped_out j readin c fs' k) Hq2).
Qed.

Lemma swapoutpage_absent k pid addr readin :
  quiet k → swap_wf k → pid ≠ -1 → slot_of (pid, addr) (k_swapmap k) = None →
  swapoutpage pid addr readin k = Ok (EADDRNOTAVAIL, k).
Proof.
  intros Hq Hwf Hpid Hj. unfold swapoutpage. run_with (getswapspin_ok k Hq).
  rewrite (bind_ok _ _ _ (-1) (hold Swapspin k)).
  2:{ rewrite find_slot_all by (apply Hwf || done).
      cbn [k_swapmap hold set_k_cpu set_k_locks]. by rewrite Hj. }
  by run_with (releaseswapspin_ok k Hq).
Qed.

Lemma swapped_out_wf k pid addr j readin c fs' :
  swap_wf k → slot_of (pid, addr) (k_swapmap k) = Some j →
  (∀ w, file_data fs' w = file_data (k_fs k) w) → vnode_ok fs' (k_swapfile k) →
  swap_wf (swapped_out j readin c fs' k) ∧
  ∀ key, swap_contents (swapped_out j readin c fs' k) key =
    if decide (key = (pid, addr)) then None else swap_contents k key.
Proof.
  intros Hwf Hj Hd Hv. pose proof Hj as (sp & Hl & Ho & Hk)%slot_of_Some; [|apply Hwf].
  split; [split; cbn|].
  - apply slots_ok_clear, Hwf.
  - intros i sp' [(<- & -> & _)|[? Hi]]%lookup_insert_cases Ho'; [done|]. by eapply swap_max.
  - apply Hwf.
  - intros i sp' [(<- & -> & _)|[? Hi]]%lookup_insert_cases Ho'; [done|]. rewrite Hd.
    by eapply swap_file.
  - done.
  - intros key. unfold swap_contents, swapped_out.
    cbn [k_fs k_swapfile k_swapmap set_k_mem set_k_fs set_k_swapmap].
    rewrite (slot_of_clear _ j sp key (swap_slots _ Hwf) Hl Ho), Hk, Hd. by case_decide.
Qed.

(** *** Forgetting a process *)

Definition swap_removed (pid : Z) (k : kernel) : kernel :=
  set_k_swapmap (drop_pid pid <$> k_swapmap k) k.

Lemma removeswapentries_run k pid :
  quiet k → swap_wf k → pid ≠ -1 → removeswapentries pid k = Ok (tt, swap_removed pid k).
Proof.
  intros Hq Hwf Hpid. unfold removeswapentries. run_with (getswapspin_ok k Hq).
  rewrite (bind_ok _ _ _ (k_maxind k) (hold Swapspin k)) by done.
  pose proof (swap_maxind _ Hwf) as Hmax. set (n := Z.to_nat (k_maxind k + 1)).
  assert (quiet (swap_removed pid k)) as Hq1 by (by apply (quiet_same k)).
  rewrite (bind_ok _ _ _ tt (hold Swapspin (swap_removed pid k))).
  { by rewrite releaseswapspin_ok. }
  replace (k_maxind k + 1) with (Z.of_nat n) by lia.
  etrans; [apply (remove_loop_ok (hold Swapspin k) n pid); cbn; rewrite (swap_wf_slots _ Hwf); lia|].
  change (k_swapmap (hold Swapspin k)) with (k_swapmap k).
  assert (update_range 0 n (λ _, drop_pid pid) (k_swapmap k) = drop_pid pid <$> k_swapmap k) as ->;
    [|done].
  apply list_eq. intros i. unfold update_range.
  rewrite list_lookup_imap, list_lookup_fmap.
  destruct (k_swapmap k !! i) as [sp|] eqn:E; [|done]. cbn. f_equal. case_decide; [done|].
  unfold drop_pid. destruct (Z.eqb_spec (sw_pid sp) pid) as [Heq|]; [|done].
  assert (occupied sp) as Ho by (unfold occupied; congruence).
  pose proof (swap_max _ Hwf _ sp E Ho). lia.
Qed.

Lemma swap_removed_wf k pid :
  swap_wf k →
  swap_wf (swap_removed pid k) ∧
  ∀ key, swap_contents (swap_removed pid k) key =
    if decide (key.1 = pid) then None else swap_contents k key.
Proof.
  intros Hwf. assert (∀ j sp, (drop_pid pid <$> k_swapmap k) !! j = Some sp → occupied sp →
    k_swapmap k !! j = Some sp ∧ sw_pid sp ≠ pid) as Hl.
  { intros j sp. rewrite list_lookup_fmap, fmap_Some. intros (sp' & Hj & ->) Ho.
    unfold drop_pid in *. by destruct (Z.eqb_spec (sw_pid sp') pid). }
  assert (slots_ok (drop_pid pid <$> k_swapmap k)) as Hok.
  { split; [rewrite length_fmap; apply Hwf|]. intros i j sp sp' Hi Hj Ho Heq.
    assert (occupied sp') as Ho'.
    { unfold occupied, sw_key in *. congruence. }
    destruct (Hl i sp Hi Ho), (Hl j sp' Hj Ho').
    by eapply (proj2 (swap_slots _ Hwf)). }
  split; [split; cbn|].
  - done.
  - intros j sp Hj Ho. apply Hl in Hj as [Hj _]; [|done]. by eapply swap_max.
  - apply Hwf.
  - intros j sp Hj Ho. apply Hl in Hj as [Hj _]; [|done]. by eapply swap_file.
  - apply Hwf.
  - intros key. unfold swap_contents, swap_removed. cbn [k_fs k_swapfile k_swapmap set_k_swapmap].
    assert (slot_of key (drop_pid pid <$> k_swapmap k) =
      if decide (key.1 = pid) then None else slot_of key (k_swapmap k)) as ->; [|by case_decide].
    case_decide as Hk.
    + apply slot_of_None. intros j sp Hj Ho <-. apply Hl in Hj as [_ Hn]; done.
    + destruct (slot_of key (k_swapmap k)) as [j|] eqn:E.
      * apply slot_of_Some in E as (sp & Hj & Ho & <-); [|apply Hwf].
        apply slot_of_Some; [done|]. exists sp. rewrite list_lookup_fmap, Hj. cbn.
        unfold drop_pid. cbn in Hk. by rewrite (proj2 (Z.eqb_neq _ _) Hk).
      * apply slot_of_None. intros j sp Hj Ho. apply Hl in Hj as [Hj _]; [|done].
        rewrite slot_of_None in E. by eapply E.
Qed.

(** *** The empty swap file *)

Definition swap_ready (vn : Z) (k : kernel) : kernel :=
  set_k_swapmap (replicate (Z.to_nat SWAPPAGES) no_page) (set_k_swapfile vn k).

Lemma swapinit_run k vn :
  quiet k → length (k_swapmap k) = Z.to_nat SWAPPAGES →
  swapinit (0, Some vn) k = Ok (tt, swap_ready vn k).
Proof.
  intros Hq Hlen. unfold swapinit. cbn [fst snd].
  change (negb (0 =? 0)) with false. cbv iota.
  set (k1 := set_k_swapfile vn k). rewrite (bind_ok _ _ _ tt k1) by done.
  assert (quiet k1) as Hq1 by (by apply (quiet_same k)).
  run_with (getswapspin_ok k1 Hq1).
  rewrite (bind_ok _ _ _ tt (hold Swapspin (swap_ready vn k))).
  - apply releaseswapspin_ok. by apply (quiet_same k).
  - etrans; [apply (for_update k_swapmap set_k_swapmap (λ i, set_slot (Z.to_nat i) no_page)
      (λ _ _, no_page) 0 (Z.to_nat SWAPPAGES) (hold Swapspin k1))|];
      [done|done|by intros []| |change (k_swapmap (hold Swapspin k1)) with (k_swapmap k); lia|].
    + intros i k' x Hi. rewrite Nat2Z.id. apply set_slot_ok. by eapply lookup_lt_Some.
    + change (k_swapmap (hold Swapspin k1)) with (k_swapmap k).
      rewrite <-Hlen, update_range_all, imap_const, Hlen. done.
Qed.

Lemma swap_ready_wf k vn :
  vnode_ok (k_fs k) vn → 0 ≤ k_maxind k < SWAPPAGES →
  swap_wf (swap_ready vn k) ∧ ∀ key, slot_of key (k_swapmap (swap_ready vn k)) = None.
Proof.
  intros Hv Hmax.
  assert (∀ j sp, replicate (Z.to_nat SWAPPAGES) no_page !! j = Some sp → ¬ occupied sp) as Hfree.
  { intros j sp [-> _]%lookup_replicate. by intros []. }
  split; [split|].
  - split; [apply length_replicate|]. intros i j sp sp' Hi _ Ho. by apply Hfree in Hi.
  - intros j sp Hj Ho. by apply Hfree in Hj.
  - done.
  - intros j sp Hj Ho. by apply Hfree in Hj.
  - done.
  - intros key. apply slot_of_None. intros j sp Hj Ho. by apply Hfree in Hj.
Qed.
End laws.
