(* ===== verification/PtTable.v ===== *)
(** * The invariant of the page table and its operations together

    [pt_wf] joins the queue of resident pages ([PtSpec]) and the block
    structure of the frames ([PtFrames]): it is what the coremap keeps between
    its critical sections. *)

From S2P Require Import Prelude Machine Pt PtSpec PtFrames.


Record pt_wf (hsz : Z) (st : ptst) (q : queue) : Prop := {
  wf_refines : pt_refines hsz st q;
  wf_numpages : numpages_ok (pagetable st);
  wf_blocks : blocks_ok (pagetable st);
  wf_single i pg : pagetable st !! i = Some pg → 0 < pg_pid pg → pg_numpages pg = 1;
  wf_size : Z.of_nat (length (pagetable st)) * PAGE_SIZE ≤ 2 ^ 29;
  wf_frame0 : free_map (pagetable st) !! 0%nat = Some false ∧ 0%nat ∉ q.*2
}.

(** Facts that depend on the headers only *)
Lemma hdr_lookup (pt pt' : list ptpage) i pg :
  pg_hdr <$> pt = pg_hdr <$> pt' → pt !! i = Some pg →
  ∃ pg', pt' !! i = Some pg' ∧ pg_hdr pg' = pg_hdr pg.
Proof. intros H. by apply (fmap_same_lookup pg_hdr). Qed.

Lemma numpages_ok_hdr (pt pt' : list ptpage) :
  pg_hdr <$> pt = pg_hdr <$> pt' → numpages_ok pt → numpages_ok pt'.
Proof.
  intros H [Hlen Hall]. split.
  - apply (f_equal length) in H. rewrite !length_fmap in H. lia.
  - apply Forall_lookup. intros i pg Hi. symmetry in H.
    destruct (hdr_lookup _ _ _ _ H Hi) as (pg' & Hi' & Heq).
    rewrite Forall_lookup in Hall. specialize (Hall i pg' Hi').
    unfold pg_hdr in Heq. injection Heq as _ _ Heq. by rewrite <-Heq.
Qed.

Lemma numpages_ok_insert pt i pg :
  numpages_ok pt → 0 ≤ pg_numpages pg < 2 ^ 31 → numpages_ok (<[i := pg]> pt).
Proof.
  intros [Hlen Hall] Hp. split; [by rewrite length_insert|]. by apply Forall_insert.
Qed.

Lemma single_hdr (pt pt' : list ptpage) :
  pg_hdr <$> pt = pg_hdr <$> pt' →
  (∀ i pg, pt !! i = Some pg → 0 < pg_pid pg → pg_numpages pg = 1) →
  ∀ i pg, pt' !! i = Some pg → 0 < pg_pid pg → pg_numpages pg = 1.
Proof.
  intros H Hs i pg Hi Hpid. symmetry in H.
  destruct (hdr_lookup _ _ _ _ H Hi) as (pg' & Hi' & Heq).
  unfold pg_hdr in Heq. injection Heq as H1 _ H3. rewrite <-H3.
  eapply Hs; [done|]. by rewrite H1.
Qed.

(** One frame of [free_map] *)
Lemma take_drop_insert {A} (l : list A) i x :
  (i < length l)%nat → take i l ++ replicate 1 x ++ drop (i + 1) l = <[i := x]> l.
Proof. intros Hi. rewrite Nat.add_1_r. by rewrite insert_take_drop by done. Qed.

Lemma length_free_map pt : length (free_map pt) = length pt.
Proof. apply length_free_from. Qed.

Lemma free_map_user pt i pg :
  blocks_ok pt → pt !! i = Some pg → pg_pid pg ≠ -1 → free_map pt !! i = Some false.
Proof.
  intros Hb Hi Hp. pose proof (used_boundary pt i pg Hb Hi Hp) as H0.
  pose proof (lookup_lt_Some _ _ _ Hi) as Hlt.
  unfold free_map. rewrite <-(take_drop i pt), free_from_app, H0.
  assert (length (take i pt) = i) as Hl by (rewrite length_take; lia).
  rewrite lookup_app_r by (rewrite length_free_from; lia).
  rewrite length_free_from, Hl, Nat.sub_diag, (drop_S _ _ _ Hi). cbn.
  by rewrite (proj2 (Z.eqb_neq _ _) Hp).
Qed.

Lemma free_map_pid pt i : free_map pt !! i = Some true → ∃ pg, pt !! i = Some pg ∧ pg_pid pg = -1.
Proof.
  intros Hf. pose proof (free_boundary pt i Hf) as H0.
  pose proof (lookup_lt_Some _ _ _ Hf) as Hlt. rewrite length_free_map in Hlt.
  destruct (lookup_lt_is_Some_2 _ _ Hlt) as [pg Hi]. exists pg. split; [done|].
  unfold free_map in Hf. rewrite <-(take_drop i pt), free_from_app, H0 in Hf.
  assert (length (take i pt) = i) as Hl by (rewrite length_take; lia).
  rewrite lookup_app_r in Hf by (rewrite length_free_from; lia).
  rewrite length_free_from, Hl, Nat.sub_diag, (drop_S _ _ _ Hi) in Hf. cbn in Hf.
  by destruct (Z.eqb_spec (pg_pid pg) (-1)).
Qed.

Lemma run_free_1 fm i : run_free fm 1 i = true ↔ fm !! i = Some true.
Proof.
  rewrite run_free_spec. split.
  - intros [_ H]. apply H. lia.
  - intros H. split; [apply lookup_lt_Some in H; lia|]. intros k Hk. by replace k with i by lia.
Qed.

Lemma first_fit_run fm n i : first_fit fm n = Some i → run_free fm n i = true.
Proof. unfold first_fit. intros [_ H]%find_some. done. Qed.

Lemma find_seq_least (f : nat → bool) s m i :
  List.find f (seq s m) = Some i → ∀ j, (s ≤ j < i)%nat → f j = false.
Proof.
  revert s. induction m as [|m IH]; intros s; cbn; [done|]. destruct (f s) eqn:E.
  - intros [= <-] j Hj. lia.
  - intros Hf j Hj. destruct (decide (j = s)) as [->|]; [done|]. apply (IH (S s)); [done|lia].
Qed.

Lemma first_fit_least fm n i j :
  first_fit fm n = Some i → (j < i)%nat → run_free fm n j = false.
Proof. intros Hf Hj. eapply find_seq_least; [exact Hf|lia]. Qed.

Lemma first_fit_none_run fm n i : (0 < n)%nat → first_fit fm n = None → run_free fm n i = false.
Proof.
  unfold first_fit. intros Hn H. destruct (run_free fm n i) eqn:E; [|done].
  assert (i < length fm)%nat by (apply run_free_spec in E as [? _]; lia).
  rewrite (find_none _ _ H i) in E; [done|]. apply in_seq. lia.
Qed.

Section ops.
Context (hsz : Z) (st : ptst) (q : queue) (Hwf : pt_wf hsz st q).
Implicit Types (i n : nat) (pid vaddr : Z).

Lemma wf_length : Z.of_nat (length (pagetable st)) ≤ 2 ^ 17.
Proof. pose proof (wf_size _ _ _ Hwf). unfold PAGE_SIZE in *. lia. Qed.

Lemma wf_getfreeframes n :
  (0 < n)%nat → Z.of_nat n < 2 ^ 32 →
  getfreeframes (Z.of_nat (length (pagetable st))) (Z.of_nat n) st =
    Ok (fit_result (first_fit (free_map (pagetable st)) n), st).
Proof. apply getfreeframes_fit, Hwf. Qed.

Lemma wf_getpageaddr pid vaddr :
  getpageaddr hsz pid vaddr st =
    Ok (match q_lookup (pid, vaddr) q with Some i => Z.of_nat i * PAGE_SIZE | None => 0 end, st).
Proof.
  destruct (wf_refines _ _ _ Hwf) as [bkt R]. rewrite (getpageaddr_rep _ _ _ _ _ _ R).
  destruct (q_lookup _ q) as [i|] eqn:E; [|done]. rewrite u32_id; [done|].
  apply q_lookup_Some in E; [|apply R]. apply (rep_entry _ _ _ _ R) in E as (pg & Hi & _).
  apply lookup_lt_Some in Hi. pose proof wf_length. unfold PAGE_SIZE. lia.
Qed.

(** A resident page has a frame of its own, not frame 0. *)
Lemma wf_resident k i :
  (k, i) ∈ q → (0 < i < length (pagetable st))%nat ∧ 0 < k.1 ∧
    free_map (pagetable st) !! i = Some false.
Proof.
  destruct (wf_refines _ _ _ Hwf) as [bkt R]. intros Hin.
  destruct (rep_entry _ _ _ _ R _ _ Hin) as (pg & Hi & Hk & Hpos).
  pose proof (lookup_lt_Some _ _ _ Hi). split_and!; [|done|done|].
  - destruct i; [|lia]. destruct (wf_frame0 _ _ _ Hwf) as [_ H0]. exfalso. apply H0.
    apply list_elem_of_fmap. by exists (k, 0%nat).
  - eapply free_map_user; [apply Hwf|done|]. destruct k. unfold pg_key in Hk. cbn in *. naive_solver lia.
Qed.

Lemma wf_keys : NoDup q.*1.
Proof. destruct (wf_refines _ _ _ Hwf) as [bkt R]. apply R. Qed.

Lemma wf_frames : NoDup q.*2.
Proof.
  destruct (wf_refines _ _ _ Hwf) as [bkt R]. eapply chain_nodup. apply (rep_fifo _ _ _ _ R).
Qed.
End ops.

(** ** The operations keep the invariant *)

(** A user page enters a free frame. *)
Lemma wf_setptentry_user hsz st q i pid vaddr :
  pt_wf hsz st q → free_map (pagetable st) !! i = Some true →
  0 < pid → (pid, vaddr) ∉ q.*1 →
  ∃ st', setptentry hsz (Z.of_nat i) 1 pid vaddr st = Ok (0, st') ∧
    pt_wf hsz st' (q ++ [((pid, vaddr), i)]) ∧
    free_map (pagetable st') = <[i := false]> (free_map (pagetable st)) ∧
    length (pagetable st') = length (pagetable st).
Proof.
  intros Hwf Hf Hpid Hnew. destruct (wf_refines _ _ _ Hwf) as [bkt R].
  destruct (free_map_pid _ _ Hf) as (pg0 & Hi & Hp0).
  pose proof (lookup_lt_Some _ _ _ Hi) as Hlt.
  destruct (setptentry_user hsz st bkt q (Z.of_nat i) 1 pid vaddr pg0 R) as (st' & bkt' & Hrun & R' & Hhdr).
  { by rewrite Nat2Z.id. } { lia. } { done. } { done. }
  rewrite Nat2Z.id in R', Hhdr. exists st'. split; [done|].
  set (np := mk_ptpage pid vaddr 1 None None).
  assert (pg_hdr <$> <[i := np]> (pagetable st) = pg_hdr <$> pagetable st') as Heq
    by (by rewrite Hhdr, list_fmap_insert).
  destruct (block_set (pagetable st) i 1 np (wf_blocks _ _ _ Hwf) ltac:(lia)
    (proj2 (run_free_1 _ _) Hf) ltac:(cbn; lia) eq_refl) as [Hfm Hbl].
  rewrite take_drop_insert in Hfm by (by rewrite length_free_map).
  assert (free_map (pagetable st') = <[i := false]> (free_map (pagetable st))) as Hfm'
    by (rewrite <-Hfm; symmetry; by apply free_from_hdr).
  assert (length (pagetable st') = length (pagetable st)) as Hlen'.
  { apply (f_equal length) in Heq. by rewrite !length_fmap, length_insert in Heq. }
  assert (i ≠ 0%nat) as Hi0.
  { intros ->. destruct (wf_frame0 _ _ _ Hwf) as [H0 _]. congruence. }
  split_and!; [|done|done]. split.
  - by exists bkt'.
  - eapply numpages_ok_hdr; [done|]. apply numpages_ok_insert; [apply Hwf|cbn; lia].
  - by eapply blocks_ok_hdr.
  - eapply single_hdr; [done|]. intros j pg [(<- & -> & _)|[_ Hj]]%lookup_insert_cases; [done|].
    by eapply wf_single.
  - rewrite Hlen'. apply Hwf.
  - rewrite Hfm', list_lookup_insert_ne by done. split; [apply Hwf|].
    rewrite fmap_app. cbn. destruct (wf_frame0 _ _ _ Hwf) as [_ H0].
    intros [?|Heq0%list_elem_of_singleton]%elem_of_app; [done|by subst].
Qed.

(** A user page leaves its frame. *)
Lemma wf_freeuser hsz st q1 pid vaddr i q2 :
  pt_wf hsz st (q1 ++ ((pid, vaddr), i) :: q2) →
  ∃ st', freeuser hsz pid vaddr st = Ok (0, st') ∧
    pt_wf hsz st' (q1 ++ q2) ∧
    free_map (pagetable st') = <[i := true]> (free_map (pagetable st)) ∧
    length (pagetable st') = length (pagetable st) ∧
    pg_hdr <$> pagetable st' = <[i := (-1, vaddr, 0)]> (pg_hdr <$> pagetable st).
Proof.
  intros Hwf. destruct (wf_refines _ _ _ Hwf) as [bkt R].
  destruct (freeuser_found _ _ _ _ _ _ _ _ R) as (st' & bkt' & Hrun & R' & Hhdr).
  assert (((pid, vaddr), i) ∈ q1 ++ ((pid, vaddr), i) :: q2) as Hin by set_solver.
  destruct (rep_entry _ _ _ _ R _ _ Hin) as (pg0 & Hi & Hk & Hpos).
  unfold pg_key in Hk. injection Hk as Hk1 Hk2. cbn in Hpos.
  pose proof (lookup_lt_Some _ _ _ Hi) as Hlt.
  destruct (wf_resident _ _ _ Hwf _ _ Hin) as ([Hi0 _] & _ & _).
  exists st'. split; [done|]. set (np := mk_ptpage (-1) vaddr 0 None None).
  assert (pg_hdr <$> <[i := np]> (pagetable st) = pg_hdr <$> pagetable st') as Heq
    by (by rewrite Hhdr, list_fmap_insert).
  destruct (block_clear (pagetable st) i pg0 np (wf_blocks _ _ _ Hwf) Hi ltac:(lia) eq_refl) as [Hfm Hbl].
  rewrite (wf_single _ _ _ Hwf i pg0 Hi ltac:(lia)) in Hfm. change (Z.to_nat 1) with 1%nat in Hfm.
  rewrite take_drop_insert in Hfm by (by rewrite length_free_map).
  assert (free_map (pagetable st') = <[i := true]> (free_map (pagetable st))) as Hfm'
    by (rewrite <-Hfm; symmetry; by apply free_from_hdr).
  assert (length (pagetable st') = length (pagetable st)) as Hlen'.
  { apply (f_equal length) in Heq. by rewrite !length_fmap, length_insert in Heq. }
  split_and!; [|done|done|done]. split.
  - by exists bkt'.
  - eapply numpages_ok_hdr; [done|]. apply numpages_ok_insert; [apply Hwf|cbn; lia].
  - by eapply blocks_ok_hdr.
  - eapply single_hdr; [done|]. intros j pg [(<- & -> & _)|[_ Hj]]%lookup_insert_cases; [done|].
    by eapply wf_single.
  - rewrite Hlen'. apply Hwf.
  - rewrite Hfm', list_lookup_insert_ne by lia. destruct (wf_frame0 _ _ _ Hwf) as [? H0].
    split; [done|]. intros Hin0. apply H0. rewrite fmap_app in *. cbn. set_solver.
Qed.

Lemma wf_freeuser_absent hsz st q pid vaddr :
  pt_wf hsz st q → (pid, vaddr) ∉ q.*1 → freeuser hsz pid vaddr st = Ok (-1, st).
Proof. intros Hwf. destruct (wf_refines _ _ _ Hwf) as [bkt R]. by eapply freeuser_absent. Qed.

(** The kernel takes [n] contiguous free frames. *)
Lemma wf_setptentry_kernel hsz st q i n vaddr :
  pt_wf hsz st q → (0 < n)%nat → run_free (free_map (pagetable st)) n i = true →
  ∃ st', setptentry hsz (Z.of_nat i) (Z.of_nat n) 0 vaddr st = Ok (0, st') ∧
    pt_wf hsz st' q ∧
    free_map (pagetable st') =
      take i (free_map (pagetable st)) ++ replicate n false ++ drop (i + n) (free_map (pagetable st)) ∧
    pagetable st' = <[i := mk_ptpage 0 vaddr (Z.of_nat n) None None]> (pagetable st).
Proof.
  intros Hwf Hn Hrun. destruct (wf_refines _ _ _ Hwf) as [bkt R].
  pose proof Hrun as [Hlen Hfree]%run_free_spec. rewrite length_free_map in Hlen.
  destruct (free_map_pid _ _ (Hfree i ltac:(lia))) as (pg0 & Hi & Hp0).
  destruct (setptentry_other hsz st bkt q (Z.of_nat i) (Z.of_nat n) 0 vaddr pg0 R)
    as (st' & Hset & R' & Hpt); rewrite ?Nat2Z.id in *; [done|lia|done|].
  exists st'. split; [done|]. pose proof (wf_length _ _ _ Hwf).
  destruct (block_set (pagetable st) i n (mk_ptpage 0 vaddr (Z.of_nat n) None None)
    (wf_blocks _ _ _ Hwf) Hn Hrun ltac:(done) eq_refl) as [Hfm Hbl].
  destruct (wf_frame0 _ _ _ Hwf) as [H0 Hq0].
  assert (i ≠ 0%nat) as Hi0 by (intros ->; rewrite Hfree in H0 by lia; done).
  rewrite <-Hpt in Hfm, Hbl. split_and!; [|done|done]. split; [by exists bkt| |done| | |].
  - rewrite Hpt. apply numpages_ok_insert; [apply Hwf|cbn; lia].
  - rewrite Hpt. intros j pg [(<- & -> & _)|[_ Hj]]%lookup_insert_cases; [done|]. by eapply wf_single.
  - rewrite Hpt, length_insert. apply Hwf.
  - split; [|done]. rewrite Hfm, lookup_app_l, lookup_take_lt by (rewrite ?length_take, ?length_free_map; lia).
    done.
Qed.

(** The kernel gives back the block that starts at frame [i]. *)
Lemma wf_freekernel hsz st q i pg :
  pt_wf hsz st q → pagetable st !! i = Some pg → pg_pid pg = 0 → (0 < i)%nat →
  ∃ st', freekernel (Z.of_nat i) st = Ok (0, st') ∧
    pt_wf hsz st' q ∧
    free_map (pagetable st') =
      take i (free_map (pagetable st)) ++ replicate (Z.to_nat (pg_numpages pg)) true ++
      drop (i + Z.to_nat (pg_numpages pg)) (free_map (pagetable st)) ∧
    pagetable st' = <[i := mk_ptpage (-1) (pg_vaddr pg) 0 None None]> (pagetable st).
Proof.
  intros Hwf Hi Hp Hi0. destruct (wf_refines _ _ _ Hwf) as [bkt R].
  destruct (freekernel_rep hsz st bkt q (Z.of_nat i) pg R) as (st' & Hrun & R' & Hpt);
    rewrite ?Nat2Z.id in *; [done|lia|].
  exists st'. split; [done|]. pose proof (lookup_lt_Some _ _ _ Hi).
  destruct (block_clear (pagetable st) i pg (mk_ptpage (-1) (pg_vaddr pg) 0 None None)
    (wf_blocks _ _ _ Hwf) Hi ltac:(lia) eq_refl) as [Hfm Hbl].
  rewrite <-Hpt in Hfm, Hbl. split_and!; [|done|done]. split; [by exists bkt| |done| | |].
  - rewrite Hpt. apply numpages_ok_insert; [apply Hwf|cbn; lia].
  - rewrite Hpt. intros j pg' [(<- & -> & _)|[_ Hj]]%lookup_insert_cases; [done|]. by eapply wf_single.
  - rewrite Hpt, length_insert. apply Hwf.
  - destruct (wf_frame0 _ _ _ Hwf) as [H0 Hq0]. split; [|done].
    rewrite Hfm, lookup_app_l, lookup_take_lt by (rewrite ?length_take, ?length_free_map; lia). done.
Qed.

(** ** The table at boot *)

(** Blocks of one page *)
Lemma single_blocks pt :
  Forall (λ pg, pg_pid pg ≠ -1 → pg_numpages pg = 1) pt →
  blocks_ok pt ∧ free_map pt = (λ pg, pg_pid pg =? -1) <$> pt.
Proof.
  unfold blocks_ok, free_map. induction 1 as [|pg pt Hp _ [[IH1 IH2] IH3]]; [done|].
  cbn. destruct (Z.eqb_spec (pg_pid pg) (-1)) as [He|He].
  - by rewrite IH2, IH3.
  - rewrite (Hp He). change (Z.to_nat 1 - 1)%nat with 0%nat. by rewrite IH2, IH3.
Qed.

Definition boot_entry (first i : nat) : ptpage :=
  let va := PADDR_TO_KVADDR (u32 (Z.of_nat i * PAGE_SIZE)) in
  if decide (i < first)%nat then mk_ptpage 0 va 1 None None else mk_ptpage (-1) va 0 None None.

Definition boot_table (size first hsz : nat) : ptst :=
  mk_ptst (boot_entry first <$> seq 0 size) (replicate hsz None) None None.

Lemma boot_lookup size first hsz i pg :
  pagetable (boot_table size first hsz) !! i = Some pg → pg = boot_entry first i ∧ (i < size)%nat.
Proof.
  cbn. rewrite list_lookup_fmap, fmap_Some. intros (j & [-> ?]%lookup_seq & ->). done.
Qed.

Lemma boot_free_map size first hsz :
  (first ≤ size)%nat →
  free_map (pagetable (boot_table size first hsz)) = replicate first false ++ replicate (size - first) true ∧
  blocks_ok (pagetable (boot_table size first hsz)).
Proof.
  intros Hle. destruct (single_blocks (pagetable (boot_table size first hsz))) as [Hb ->].
  { apply Forall_lookup. intros i pg [-> _]%boot_lookup. unfold boot_entry. by case_decide. }
  split; [|done]. cbn. apply list_eq. intros i. rewrite !list_lookup_fmap.
  destruct (decide (i < size)%nat) as [Hi|Hi].
  - rewrite lookup_seq_lt by done. cbn. unfold boot_entry. case_decide as Hc; cbn.
    + rewrite lookup_app_l by (rewrite length_replicate; lia). by rewrite lookup_replicate_2.
    + rewrite lookup_app_r by (rewrite length_replicate; lia). rewrite length_replicate.
      by rewrite lookup_replicate_2 by lia.
  - rewrite lookup_seq_ge by lia. cbn. symmetry. apply lookup_ge_None.
    rewrite length_app, !length_replicate. lia.
Qed.

Lemma boot_table_wf size first hsz :
  (0 < first ≤ size)%nat → (0 < hsz)%nat → Z.of_nat size * PAGE_SIZE ≤ 2 ^ 29 →
  pt_wf (Z.of_nat hsz) (boot_table size first hsz) [].
Proof.
  intros [H0 Hle] Hh Hsize. destruct (boot_free_map size first hsz Hle) as [Hfm Hb].
  assert (∀ i pg, pagetable (boot_table size first hsz) !! i = Some pg →
    pg_pid pg ≤ 0 ∧ 0 ≤ pg_numpages pg ≤ 1) as Hpg.
  { intros i pg [-> _]%boot_lookup. unfold boot_entry. case_decide; cbn; lia. }
  unfold PAGE_SIZE in Hsize.
  split; [| | | | |].
  - exists (λ _, []). split; cbn; try (done || set_solver); [lia|by rewrite length_replicate, Nat2Z.id| | |].
    + intros h p [-> _]%lookup_replicate. done.
    + constructor.
    + split; [set_solver|]. intros i p v n Hi Hpos. rewrite list_lookup_fmap, fmap_Some in Hi.
      destruct Hi as (pg & Hi & Heq). apply Hpg in Hi as [? _]. injection Heq as -> _ _. lia.
  - split; [cbn; rewrite length_fmap, length_seq; lia|]. apply Forall_lookup.
    intros i pg Hi. apply Hpg in Hi as [_ ?]. lia.
  - done.
  - intros i pg Hi Hpos. apply Hpg in Hi as [? _]. lia.
  - cbn. rewrite length_fmap, length_seq. unfold PAGE_SIZE. lia.
  - rewrite Hfm. split; [|set_solver]. rewrite lookup_app_l by (rewrite length_replicate; lia).
    by rewrite lookup_replicate_2.
Qed.
