(* ===== verification/Coremap.v ===== *)
(** * The coremap ([kern/vm/coremap.c])

    The functions that take [ptspin] and run the page table: frame allocation
    for the kernel and for user pages, with eviction to the swap file.  Their
    theorems are equations: what each call returns and the state it leaves, in
    terms of the queue of resident pages and the map of free frames.  Before the
    page table is active, pages come from the bottom of memory. *)

From S2P Require Import Prelude Machine Pt PtSpec PtFrames Spinlock Kernel Vmstats Tlb Swapfile PtTable.

(** ** Physical memory before the VM system is up ([kern/arch/mips/vm/ram.c])

    Until the page table is active, [getppages] takes memory from the bottom
    of RAM with [ram_stealmem]; [ram_getfirstfree] hands the rest over. *)

Definition set_firstpaddr (v : Z) (r : ramst) : ramst := mk_ramst v (lastpaddr r).
Definition set_lastpaddr (v : Z) (r : ramst) : ramst := mk_ramst (firstpaddr r) v.

(** [ramsize] is what [mainbus_ramsize] returns and [firstfree] the address
    start.S saved.  The result is the number of kilobytes printed. *)
Definition ram_bootstrap (ramsize firstfree : Z) : M ramst Z :=
  let ramsize := if 512 * 1024 * 1024 <? ramsize then 512 * 1024 * 1024 else ramsize in
  modify (set_lastpaddr ramsize) ;;
  modify (set_firstpaddr (u32 (firstfree - MIPS_KSEG0))) ;;
  r ← gets id;
  mret (u32 (lastpaddr r - firstpaddr r) / 1024).

Definition ram_stealmem (npages : Z) : M ramst Z :=
  let size := u32 (npages * PAGE_SIZE) in
  r ← gets id;
  if lastpaddr r <? u32 (firstpaddr r + size) then mret 0
  else
    let paddr := firstpaddr r in
    modify (set_firstpaddr (u32 (firstpaddr r + size))) ;;
    mret paddr.

Definition ram_getsize : M ramst Z := gets lastpaddr.

Definition ram_getfirstfree : M ramst Z :=
  ret ← gets firstpaddr;
  modify (set_lastpaddr 0) ;;
  modify (set_firstpaddr 0) ;;
  mret ret.

(** *** What they do *)

(** RAM is what [ram_bootstrap] leaves: a range below 512 MB. *)
Record ram_wf (r : ramst) : Prop := {
  ram_first : 0 ≤ firstpaddr r ≤ lastpaddr r;
  ram_last : lastpaddr r ≤ 2 ^ 29
}.

(** The pages handed out are the bottom of the range, and the range shrinks by
    exactly these. *)
Lemma ram_stealmem_spec r npages :
  ram_wf r → 0 ≤ npages → npages * PAGE_SIZE < 2 ^ 31 →
  ∃ r', ram_stealmem npages r =
      Ok (if firstpaddr r + npages * PAGE_SIZE <=? lastpaddr r then firstpaddr r else 0, r') ∧
    ram_wf r' ∧ lastpaddr r' = lastpaddr r ∧
    firstpaddr r' = if firstpaddr r + npages * PAGE_SIZE <=? lastpaddr r
                    then firstpaddr r + npages * PAGE_SIZE else firstpaddr r.
Proof.
  intros [H1 H2] Hn Hb. unfold ram_stealmem. mred. unfold id. unfold PAGE_SIZE in *.
  rewrite !u32_id by (rewrite ?u32_id; lia).
  destruct (Z.leb_spec (firstpaddr r + npages * 4096) (lastpaddr r)) as [Hle|Hle].
  - rewrite (proj2 (Z.ltb_ge _ _)) by lia. eexists. split; [done|]. split; [split|split]; cbn; lia.
  - rewrite (proj2 (Z.ltb_lt _ _)) by lia. exists r. done.
Qed.

Section run.
Context {ops : VnodeOps}.
Definition on_ram {A} (m : M ramst A) : M kernel A := zoom k_ram set_k_ram m.
End run.

Section coremap.
Context {ops : VnodeOps}.

Definition isptactive : M kernel Z :=
  acquire Ptspin ;;
  active ← gets k_isAct;
  release Ptspin ;;
  mret active.

(** [kmalloc] is the kernel allocator (it returns 0 for [NULL]); [junk] and
    [junkh] are what the memory it returns holds. *)
Definition ptinit (kmalloc : Z → M kernel Z) (junk : nat → ptpage) (junkh : nat → option nat)
    : M kernel Z :=
  ramsize ← on_ram ram_getsize;
  modify (set_k_ptsize (ramsize / PAGE_SIZE)) ;;
  ptsize ← gets k_ptsize;
  modify (set_k_hashedptsize (ptsize / 32)) ;;
  hashedptsize ← gets k_hashedptsize;
  p ← kmalloc (u32 (ptsize * 20));
  if p =? 0 then mret ENOMEM
  else
    on_pt (modify (set_pagetable (junk <$> seq 0 (Z.to_nat ptsize)))) ;;
    p ← kmalloc (u32 (hashedptsize * 4));
    if p =? 0 then mret ENOMEM
    else
      on_pt (modify (set_hashedpt (junkh <$> seq 0 (Z.to_nat hashedptsize)))) ;;
      first ← on_ram ram_getfirstfree;
      let firstfree := first / PAGE_SIZE in
      acquire Ptspin ;;
      for_list (seqZ 0 hashedptsize) (λ i,
        on_pt (modify (λ st, set_hashedpt (<[Z.to_nat i := None]> (hashedpt st)) st))) ;;
      for_list (seqZ 0 firstfree) (λ i,
        on_pt (setptentry hashedptsize i 1 0 (PADDR_TO_KVADDR (u32 (i * PAGE_SIZE)))) ;; mret tt) ;;
      for_list (seqZ firstfree (ptsize - firstfree)) (λ i,
        on_pt (setptentry hashedptsize i 0 (-1) (PADDR_TO_KVADDR (u32 (i * PAGE_SIZE)))) ;; mret tt) ;;
      modify (set_k_isAct 1) ;;
      release Ptspin ;;
      mret 0.

(** [kfree_hashedpt] and [kfree_pt] give the memory of the two tables back to
    the kernel allocator. *)
Definition ptdest (kfree_hashedpt kfree_pt : M kernel ()) : M kernel () :=
  acquire Ptspin ;;
  modify (set_k_isAct 0) ;;
  release Ptspin ;;
  kfree_hashedpt ;;
  kfree_pt.

(** [*firstvictim] *)
Definition load_victim : M kernel ptpage :=
  p ← gets (λ k, firstvictim (k_pt k));
  on_pt (load_page p).

(** Save the page at the head of the queue in the swap file (ptspin not
    held), and take it out of the TLB and of the table. *)
Definition swap_victim : M kernel () :=
  hsz ← gets k_hashedptsize;
  v ← load_victim;
  pa ← on_pt (getpageaddr hsz (pg_pid v) (pg_vaddr v));
  swapinpage (pg_pid v) (pg_vaddr v) pa ;;
  mret tt.
Definition drop_victim : M kernel () :=
  hsz ← gets k_hashedptsize;
  spl ← on_curcpu splhigh;
  v ← load_victim;
  vmtlb_invalidatepage (pg_pid v) (pg_vaddr v) ;;
  on_curcpu (splx spl) ;;
  v ← load_victim;
  on_pt (freeuser hsz (pg_pid v) (pg_vaddr v)) ;;
  mret tt.

(** With a victim [ind] is still -1 when the entries are set: the write to
    [pagetable[-1]] is the outcome [BadAccess].  (In C it is undefined; code that
    survives it comes to the release of a lock that is not held, and stops
    there.) *)
Definition getfreeppages (npages : Z) : M kernel Z :=
  active ← isptactive;
  if active =? 0 then mret 0
  else
    acquire Ptspin ;;
    ptsize ← gets k_ptsize;
    hsz ← gets k_hashedptsize;
    ind ← on_pt (getfreeframes ptsize npages);
    (if ind =? -1 then
       victim ← gets (λ k, firstvictim (k_pt k));
       match victim with
       | None =>
           release Ptspin ;;
           halt (Panic "No space left on memory to allocate to kernel!!")
       | Some _ =>
           release Ptspin ;;
           swap_victim ;;
           drop_victim
       end
     else mret tt) ;;
    on_pt (setptentry hsz (u32 ind) npages 0 (PADDR_TO_KVADDR (u32 (ind * PAGE_SIZE)))) ;;
    release Ptspin ;;
    mret (u32 (ind * PAGE_SIZE)).

Definition pt_can_sleep : M kernel () :=
  c ← gets k_cpu;
  if c_exists c then
    kassert (c_spinlocks c =? 0) "curcpu->c_spinlocks == 0" ;;
    kassert (negb (t_in_interrupt c)) "curthread->t_in_interrupt == 0"
  else mret tt.

Definition getppages (npages : Z) : M kernel Z :=
  addr ← getfreeppages npages;
  if negb (addr =? 0) then mret addr
  else
    acquire Stealmem_lock ;;
    addr ← on_ram (ram_stealmem npages);
    release Stealmem_lock ;;
    mret addr.

Definition alloc_kpages (npages : Z) : M kernel Z :=
  pt_can_sleep ;;
  pa ← getppages npages;
  if pa =? 0 then mret 0 else mret (PADDR_TO_KVADDR pa).

Definition free_kpages (addr : Z) : M kernel () :=
  active ← isptactive;
  if active =? 0 then mret tt
  else
    let paddr := u32 (addr - MIPS_KSEG0) in
    let i := paddr / PAGE_SIZE in
    acquire Ptspin ;;
    on_pt (freekernel i) ;;
    release Ptspin.

Definition allocuserpage (pid addr : Z) : M kernel Z :=
  active ← isptactive;
  if active =? 0 then mret 0
  else
    acquire Ptspin ;;
    ptsize ← gets k_ptsize;
    hsz ← gets k_hashedptsize;
    ind ← on_pt (getfreeframes ptsize 1);
    if ind =? -1 then
      victim ← gets (λ k, firstvictim (k_pt k));
      match victim with
      | None => release Ptspin ;; mret 0
      | Some v =>
          release Ptspin ;;
          swap_victim ;;
          acquire Ptspin ;;
          drop_victim ;;
          on_pt (setptentry hsz (Z.of_nat v) 1 pid addr) ;;
          release Ptspin ;;
          mret (u32 (Z.of_nat v * PAGE_SIZE))
      end
    else
      on_pt (setptentry hsz (u32 ind) 1 pid addr) ;;
      release Ptspin ;;
      mret (u32 (ind * PAGE_SIZE)).

Definition freeuserpage (pid addr : Z) : M kernel Z :=
  active ← isptactive;
  if active =? 0 then mret EFAULT
  else
    acquire Ptspin ;;
    hsz ← gets k_hashedptsize;
    res ← on_pt (freeuser hsz pid addr);
    release Ptspin ;;
    mret res.

Definition pageaddr (pid addr : Z) : M kernel Z :=
  active ← isptactive;
  if active =? 0 then mret 0
  else
    acquire Ptspin ;;
    hsz ← gets k_hashedptsize;
    pagephysicaladdr ← on_pt (getpageaddr hsz pid addr);
    release Ptspin ;;
    mret pagephysicaladdr.

Definition removeptentries (pid : Z) : M kernel () :=
  active ← isptactive;
  if active =? 0 then mret tt
  else
    acquire Ptspin ;;
    ptsize ← gets k_ptsize;
    hsz ← gets k_hashedptsize;
    for_list (seqZ 0 ptsize) (λ i,
      pg ← on_pt (load_page (Some (Z.to_nat i)));
      if pg_pid pg =? pid then on_pt (freeuser hsz pid (pg_vaddr pg)) ;; mret tt
      else mret tt) ;;
    release Ptspin.
End coremap.

(** ** The invariant of the coremap *)
Section invariant.
Context {ops : VnodeOps}.

Record cm_wf (k : kernel) (q : queue) : Prop := {
  cm_act : k_isAct k = 1;
  cm_size : k_ptsize k = Z.of_nat (length (pagetable (k_pt k)));
  cm_pt : pt_wf (k_hashedptsize k) (k_pt k) q
}.

(** Only these fields matter. *)
Lemma cm_wf_same k k' q :
  cm_wf k q → k_isAct k' = k_isAct k → k_ptsize k' = k_ptsize k →
  k_hashedptsize k' = k_hashedptsize k → k_pt k' = k_pt k → cm_wf k' q.
Proof. intros [? ? ?] H1 H2 H3 H4. split; by rewrite ?H1, ?H2, ?H3, ?H4. Qed.

Lemma cm_wf_set_pt k q st q' :
  cm_wf k q → pt_wf (k_hashedptsize k) st q' → length (pagetable st) = length (pagetable (k_pt k)) →
  cm_wf (set_k_pt st k) q'.
Proof. intros [? ? ?] H1 H2. split; cbn; [done|by rewrite H2|done]. Qed.

(** Running the table *)
Lemma on_pt_ok {A} (m : M ptst A) k a st : m (k_pt k) = Ok (a, st) → on_pt m k = Ok (a, set_k_pt st k).
Proof. intros H. unfold on_pt, zoom. by rewrite H. Qed.
Lemma on_pt_read {A} (m : M ptst A) k a : m (k_pt k) = Ok (a, k_pt k) → on_pt m k = Ok (a, k).
Proof. intros H. rewrite (on_pt_ok _ _ _ _ H). by destruct k. Qed.
Lemma on_pt_hold {A} (m : M ptst A) k a st :
  m (k_pt k) = Ok (a, st) → on_pt m (hold Ptspin k) = Ok (a, hold Ptspin (set_k_pt st k)).
Proof. intros H. by rewrite (on_pt_ok _ _ a st). Qed.
Lemma on_pt_read_hold {A} (m : M ptst A) k a :
  m (k_pt k) = Ok (a, k_pt k) → on_pt m (hold Ptspin k) = Ok (a, hold Ptspin k).
Proof. intros H. by apply on_pt_read. Qed.

Lemma isptactive_ok k : quiet k → isptactive k = Ok (k_isAct k, k).
Proof.
  intros Hq. unfold isptactive. run_with (acquire_quiet Ptspin k Hq).
  rewrite (bind_ok _ _ _ (k_isAct k) (hold Ptspin k)) by done. by run_with (release_hold Ptspin k Hq).
Qed.

Lemma isptactive_act k q : quiet k → cm_wf k q → isptactive k = Ok (1, k).
Proof. intros Hq Hwf. rewrite isptactive_ok by done. by rewrite (cm_act _ _ Hwf). Qed.

Lemma quiet_set_pt st k : quiet k → quiet (set_k_pt st k).
Proof. intros. by apply (quiet_same k). Qed.

(** ** Lookup *)
Lemma pageaddr_run k q pid addr :
  quiet k → cm_wf k q →
  pageaddr pid addr k =
    Ok (match q_lookup (pid, addr) q with Some i => Z.of_nat i * PAGE_SIZE | None => 0 end, k).
Proof.
  intros Hq Hwf. unfold pageaddr. run_with (isptactive_act k q Hq Hwf). cbv iota beta.
  change (1 =? 0) with false. cbv iota.
  run_with (acquire_quiet Ptspin k Hq).
  rewrite (bind_ok _ _ _ (k_hashedptsize k) (hold Ptspin k)) by done.
  run_with (on_pt_read_hold _ k _ (wf_getpageaddr _ _ _ (cm_pt _ _ Hwf) pid addr)).
  by run_with (release_hold Ptspin k Hq).
Qed.

(** ** The victim *)
Lemma load_victim_run k p v i q :
  cm_wf k (((p, v), i) :: q) →
  firstvictim (k_pt k) = Some i ∧
  ∃ pg, load_page (Some i) (k_pt k) = Ok (pg, k_pt k) ∧ pg_pid pg = p ∧ pg_vaddr pg = v.
Proof.
  intros Hwf. destruct (wf_refines _ _ _ (cm_pt _ _ Hwf)) as [bkt R].
  pose proof (rep_fifo _ _ _ _ R) as Hc. cbn in Hc. destruct Hc as (Hf & pg & Hi & _).
  split; [done|]. exists pg.
  destruct (rep_entry _ _ _ _ R (p, v) i ltac:(set_solver)) as (pg' & Hi' & Hk & _).
  rewrite Hi in Hi'. injection Hi' as <-. unfold pg_key in Hk. injection Hk as Hk1 Hk2.
  split; [|done]. unfold load_page. mred. cbn. rewrite Hi. done.
Qed.

Lemma load_victim_ok k p v i q :
  cm_wf k (((p, v), i) :: q) →
  ∃ pg, load_victim k = Ok (pg, k) ∧ pg_pid pg = p ∧ pg_vaddr pg = v.
Proof.
  intros Hwf. destruct (load_victim_run k p v i q Hwf) as (Hf & pg & Hl & Hp & Hv).
  exists pg. split; [|done]. unfold load_victim.
  rewrite (bind_ok _ _ _ (firstvictim (k_pt k)) k) by done. rewrite Hf. by apply on_pt_read.
Qed.

(** The victim leaves the TLB and the table, whether or not a lock is held. *)
Lemma drop_victim_ok k p v i q :
  cpu_ok (k_cpu k) → c_spinlocks (k_cpu k) ≤ 1 → cm_wf k (((p, v), i) :: q) →
  ∃ st', drop_victim k =
      Ok (tt, set_k_pt st' (set_k_tlb (tlb_after_invalpage v (k_tlb k)) k)) ∧
    pt_wf (k_hashedptsize k) st' q ∧
    free_map (pagetable st') = <[i := true]> (free_map (pagetable (k_pt k))) ∧
    length (pagetable st') = length (pagetable (k_pt k)).
Proof.
  intros Hc Hn Hwf.
  destruct (wf_freeuser _ _ [] p v i q (cm_pt _ _ Hwf)) as (st' & Hrun & Hwf' & Hfm & Hlen & _).
  exists st'. split; [|done].
  unfold drop_victim. rewrite (bind_ok _ _ _ (k_hashedptsize k) k) by done.
  set (k2 := set_k_cpu (cpu_high (k_cpu k)) k).
  rewrite (bind_ok _ _ _ (t_curspl (k_cpu k)) k2).
  2:{ unfold on_curcpu, zoom. rewrite splhigh_ok; [done|done|lia]. }
  destruct (load_victim_ok k2 p v i q) as (pg & Hl & Hp & Hv).
  { by apply (cm_wf_same k). }
  run_with Hl. rewrite Hp, Hv. run_with (vmtlb_invalidatepage_ok k2 p v).
  destruct (splx_restore (k_cpu k) _ Hc eq_refl) as [r Hr].
  set (k3 := set_k_tlb (tlb_after_invalpage v (k_tlb k)) k).
  rewrite (bind_ok _ _ _ r k3).
  2:{ unfold on_curcpu, zoom. cbn [k_cpu set_k_tlb k2 set_k_cpu]. rewrite Hr. by destruct k. }
  destruct (load_victim_ok k3 p v i q) as (pg' & Hl' & Hp' & Hv').
  { by apply (cm_wf_same k). }
  run_with Hl'. rewrite Hp', Hv'.
  by run_with (on_pt_ok (freeuser (k_hashedptsize k) p v) k3 0 st' Hrun).
Qed.
End invariant.

(** ** User pages *)
Section user.
Context {ops : VnodeOps}.

(** What every allocation does first *)
Lemma alloc_start k q n :
  quiet k → cm_wf k q → (0 < n)%nat → Z.of_nat n < 2 ^ 32 →
  on_pt (getfreeframes (k_ptsize k) (Z.of_nat n)) (hold Ptspin k) =
    Ok (fit_result (first_fit (free_map (pagetable (k_pt k))) n), hold Ptspin k).
Proof.
  intros Hq Hwf Hn Hn32. apply on_pt_read_hold. rewrite (cm_size _ _ Hwf).
  by eapply wf_getfreeframes; [apply Hwf|..].
Qed.

Lemma frame_addr k q i :
  cm_wf k q → (i < length (pagetable (k_pt k)))%nat →
  u32 (Z.of_nat i) = Z.of_nat i ∧ u32 (Z.of_nat i * PAGE_SIZE) = Z.of_nat i * PAGE_SIZE ∧
  0 ≤ Z.of_nat i * PAGE_SIZE ∧ Z.of_nat i * PAGE_SIZE + PAGE_SIZE ≤ 2 ^ 29.
Proof.
  intros Hwf Hi. pose proof (wf_size _ _ _ (cm_pt _ _ Hwf)). unfold PAGE_SIZE in *.
  rewrite !u32_id; lia.
Qed.

(** [allocuserpage] up to the choice of the frame *)
Lemma allocuserpage_start k q pid addr :
  quiet k → cm_wf k q →
  allocuserpage pid addr k =
    match first_fit (free_map (pagetable (k_pt k))) 1 with
    | Some i =>
        (on_pt (setptentry (k_hashedptsize k) (u32 (Z.of_nat i)) 1 pid addr) ;;
         release Ptspin ;; mret (u32 (Z.of_nat i * PAGE_SIZE))) (hold Ptspin k)
    | None =>
        match firstvictim (k_pt k) with
        | None => (release Ptspin ;; mret 0) (hold Ptspin k)
        | Some v =>
            (release Ptspin ;; swap_victim ;; acquire Ptspin ;; drop_victim ;;
             on_pt (setptentry (k_hashedptsize k) (Z.of_nat v) 1 pid addr) ;;
             release Ptspin ;; mret (u32 (Z.of_nat v * PAGE_SIZE))) (hold Ptspin k)
        end
    end.
Proof.
  intros Hq Hwf. unfold allocuserpage. run_with (isptactive_act k q Hq Hwf).
  change (1 =? 0) with false. cbv iota. run_with (acquire_quiet Ptspin k Hq).
  rewrite (bind_ok _ _ _ (k_ptsize k) (hold Ptspin k)) by done.
  rewrite (bind_ok _ _ _ (k_hashedptsize k) (hold Ptspin k)) by done.
  run_with (alloc_start k q 1 Hq Hwf ltac:(lia) ltac:(lia)).
  destruct (first_fit _ 1) as [i|]; cbn [fit_result].
  - by rewrite (proj2 (Z.eqb_neq (Z.of_nat i) (-1))) by lia.
  - change (-1 =? -1) with true. cbv iota.
    rewrite (bind_ok _ _ _ (firstvictim (k_pt k)) (hold Ptspin k)) by done.
    by destruct (firstvictim (k_pt k)).
Qed.

(** A free frame is available: the first one is taken. *)
Lemma allocuserpage_free_run k q i pid addr :
  quiet k → cm_wf k q → first_fit (free_map (pagetable (k_pt k))) 1 = Some i →
  0 < pid → (pid, addr) ∉ q.*1 →
  ∃ st', allocuserpage pid addr k = Ok (Z.of_nat i * PAGE_SIZE, set_k_pt st' k) ∧
    cm_wf (set_k_pt st' k) (q ++ [((pid, addr), i)]) ∧
    free_map (pagetable st') = <[i := false]> (free_map (pagetable (k_pt k))).
Proof.
  intros Hq Hwf Hfit Hpid Hnew.
  pose proof (first_fit_run _ _ _ Hfit) as Hf%run_free_1.
  destruct (wf_setptentry_user _ _ _ i pid addr (cm_pt _ _ Hwf) Hf Hpid Hnew)
    as (st' & Hrun & Hwf' & Hfm & Hlen).
  exists st'. split; [|split; [by eapply cm_wf_set_pt|done]].
  rewrite (allocuserpage_start k q pid addr Hq Hwf), Hfit.
  pose proof (lookup_lt_Some _ _ _ Hf) as Hlt. rewrite length_free_map in Hlt.
  destruct (frame_addr k q i Hwf Hlt) as (-> & -> & _).
  run_with (on_pt_hold _ k 0 st' Hrun).
  by run_with (release_hold Ptspin (set_k_pt st' k) (quiet_set_pt st' k Hq)).
Qed.

(** No free frame and no user page to evict: the call fails. *)
Lemma allocuserpage_none_run k pid addr :
  quiet k → cm_wf k [] → first_fit (free_map (pagetable (k_pt k))) 1 = None →
  allocuserpage pid addr k = Ok (0, k).
Proof.
  intros Hq Hwf Hfit. destruct (wf_refines _ _ _ (cm_pt _ _ Hwf)) as [bkt R].
  pose proof (rep_fifo _ _ _ _ R) as Hc. cbn in Hc.
  rewrite (allocuserpage_start k [] pid addr Hq Hwf), Hfit, Hc.
  by run_with (release_hold Ptspin k Hq).
Qed.

(** The head of the queue is saved to the swap file and its frame reused. *)
Definition evicted (i j : nat) (key : key) (fs : fsstate) (st : ptst) (k : kernel) : kernel :=
  set_k_pt st (set_k_tlb (tlb_after_invalpage key.2 (k_tlb k)) (swapped_in j key.1 key.2 fs k)).
End user.

Section evict.
Context {ops : VnodeOps} {laws : VnodeLaws ops}.

Lemma swap_victim_run k p v i q j :
  quiet k → cm_wf k (((p, v), i) :: q) → swap_wf k → length (k_stats k) = VMSTATSLEN →
  free_slot (k_swapmap k) = Some j →
  ∃ fs', swap_victim k = Ok (tt, swapped_in j p v fs' k) ∧
    file_data fs' (k_swapfile k) =
      file_write (Z.of_nat j * PAGE_SIZE) (page_at (k_mem k) (Z.of_nat i * PAGE_SIZE))
        (file_data (k_fs k) (k_swapfile k)) ∧
    (∀ w, w ≠ k_swapfile k → file_data fs' w = file_data (k_fs k) w) ∧
    (∀ w, vnode_ok (k_fs k) w → vnode_ok fs' w).
Proof.
  intros Hq Hwf Hsw Hst Hj.
  destruct (wf_resident _ _ _ (cm_pt _ _ Hwf) (p, v) i ltac:(set_solver)) as (Hi & Hp & _).
  destruct (frame_addr k _ i Hwf ltac:(lia)) as (_ & _ & H0 & Htop).
  destruct (swapinpage_run k p v (Z.of_nat i * PAGE_SIZE) j Hq Hsw Hst H0
    ltac:(unfold MIPS_KSEG0; lia) Hj) as (fs' & Hrun & Hrest).
  exists fs'. split; [|done]. unfold swap_victim.
  rewrite (bind_ok _ _ _ (k_hashedptsize k) k) by done.
  destruct (load_victim_ok k p v i q Hwf) as (pg & Hl & Hp' & Hv').
  run_with Hl. rewrite Hp', Hv'.
  run_with (on_pt_read _ k _ (wf_getpageaddr _ _ _ (cm_pt _ _ Hwf) p v)).
  cbn [q_lookup]. rewrite decide_True by done. by run_with Hrun.
Qed.

Lemma swap_victim_full k p v i q :
  quiet k → cm_wf k (((p, v), i) :: q) → length (k_swapmap k) = Z.to_nat SWAPPAGES →
  free_slot (k_swapmap k) = None →
  swap_victim k = Stop (Panic "Swapfile has reached the maximum memory allowed").
Proof.
  intros Hq Hwf Hlen Hj. unfold swap_victim.
  rewrite (bind_ok _ _ _ (k_hashedptsize k) k) by done.
  destruct (load_victim_ok k p v i q Hwf) as (pg & Hl & Hp' & Hv').
  run_with Hl. rewrite Hp', Hv'.
  run_with (on_pt_read _ k _ (wf_getpageaddr _ _ _ (cm_pt _ _ Hwf) p v)).
  by rewrite (bind_stop _ _ _ _ (swapinpage_full k p v _ Hq Hlen Hj)).
Qed.

Lemma allocuserpage_evict_run k p v i q j pid addr :
  quiet k → cm_wf k (((p, v), i) :: q) → swap_wf k → length (k_stats k) = VMSTATSLEN →
  first_fit (free_map (pagetable (k_pt k))) 1 = None → free_slot (k_swapmap k) = Some j →
  0 < pid → (pid, addr) ∉ q.*1 →
  ∃ st' fs', allocuserpage pid addr k = Ok (Z.of_nat i * PAGE_SIZE, evicted i j (p, v) fs' st' k) ∧
    cm_wf (evicted i j (p, v) fs' st' k) (q ++ [((pid, addr), i)]) ∧
    free_map (pagetable st') = free_map (pagetable (k_pt k)) ∧
    file_data fs' (k_swapfile k) =
      file_write (Z.of_nat j * PAGE_SIZE) (page_at (k_mem k) (Z.of_nat i * PAGE_SIZE))
        (file_data (k_fs k) (k_swapfile k)) ∧
    (∀ w, w ≠ k_swapfile k → file_data fs' w = file_data (k_fs k) w) ∧
    (∀ w, vnode_ok (k_fs k) w → vnode_ok fs' w).
Proof.
  intros Hq Hwf Hsw Hst Hfit Hj Hpid Hnew.
  destruct (wf_resident _ _ _ (cm_pt _ _ Hwf) (p, v) i ltac:(set_solver)) as (Hi & Hp & Hused).
  destruct (frame_addr k _ i Hwf ltac:(lia)) as (_ & Hpa & _ & _).
  destruct (swap_victim_run k p v i q j Hq Hwf Hsw Hst Hj) as (fs' & Hswap & Hfs).
  set (k1 := swapped_in j p v fs' k).
  assert (quiet k1) as Hq1 by (by apply (quiet_same k)).
  assert (cm_wf k1 (((p, v), i) :: q)) as Hwf1 by (by apply (cm_wf_same k)).
  pose proof (holding_hold Ptspin k1 Hq1) as Hh.
  destruct (drop_victim_ok (hold Ptspin k1) p v i q (holding_cpu _ _ Hh)
    ltac:(by rewrite (holding_count _ _ Hh)) ltac:(by apply (cm_wf_same k))) as (st1 & Hdrop & Hwf2 & Hfm2 & Hlen2).
  change (k_pt (hold Ptspin k1)) with (k_pt k) in *.
  change (k_hashedptsize (hold Ptspin k1)) with (k_hashedptsize k) in *.
  destruct (wf_setptentry_user _ _ _ i pid addr Hwf2) as (st' & Hset & Hwf' & Hfm & Hlen); [|done..|].
  { rewrite Hfm2, list_lookup_insert_eq; [done|]. rewrite length_free_map. lia. }
  exists st', fs'. split; [|split; [|split; [|done]]].
  - rewrite (allocuserpage_start k _ pid addr Hq Hwf), Hfit.
    destruct (load_victim_run k p v i q Hwf) as [-> _].
    run_with (release_hold Ptspin k Hq). run_with Hswap. run_with (acquire_quiet Ptspin k1 Hq1).
    run_with Hdrop. rewrite Hpa.
    run_with (on_pt_hold (setptentry (k_hashedptsize k) (Z.of_nat i) 1 pid addr)
      (set_k_pt st1 (set_k_tlb (tlb_after_invalpage v (k_tlb k1)) k1)) 0 st' Hset).
    run_with (release_hold Ptspin (evicted i j (p, v) fs' st' k) ltac:(by apply (quiet_same k))).
    done.
  - apply (cm_wf_set_pt (set_k_tlb (tlb_after_invalpage v (k_tlb k)) k1) (((p, v), i) :: q)).
    + by apply (cm_wf_same k).
    + done.
    + cbn. lia.
  - rewrite Hfm, Hfm2, list_insert_insert_eq. apply list_insert_id. done.
Qed.

Lemma allocuserpage_full_run k p v i q pid addr :
  quiet k → cm_wf k (((p, v), i) :: q) → length (k_swapmap k) = Z.to_nat SWAPPAGES →
  first_fit (free_map (pagetable (k_pt k))) 1 = None → free_slot (k_swapmap k) = None →
  allocuserpage pid addr k = Stop (Panic "Swapfile has reached the maximum memory allowed").
Proof.
  intros Hq Hwf Hlen Hfit Hj. rewrite (allocuserpage_start k _ pid addr Hq Hwf), Hfit.
  destruct (load_victim_run k p v i q Hwf) as [-> _].
  run_with (release_hold Ptspin k Hq).
  by rewrite (bind_stop _ _ _ _ (swap_victim_full k p v i q Hq Hwf Hlen Hj)).
Qed.
End evict.

(** ** Kernel pages *)
Section kpages.
Context {ops : VnodeOps}.

Lemma getfreeppages_start k q n :
  quiet k → cm_wf k q → (0 < n)%nat → Z.of_nat n < 2 ^ 32 →
  getfreeppages (Z.of_nat n) k =
    match first_fit (free_map (pagetable (k_pt k))) n with
    | Some i =>
        (on_pt (setptentry (k_hashedptsize k) (u32 (Z.of_nat i)) (Z.of_nat n) 0
           (PADDR_TO_KVADDR (u32 (Z.of_nat i * PAGE_SIZE)))) ;;
         release Ptspin ;; mret (u32 (Z.of_nat i * PAGE_SIZE))) (hold Ptspin k)
    | None =>
        match firstvictim (k_pt k) with
        | None => Stop (Panic "No space left on memory to allocate to kernel!!")
        | Some _ =>
            ((swap_victim ;; drop_victim) ;;
             on_pt (setptentry (k_hashedptsize k) (u32 (-1)) (Z.of_nat n) 0
               (PADDR_TO_KVADDR (u32 (-1 * PAGE_SIZE)))) ;;
             release Ptspin ;; mret (u32 (-1 * PAGE_SIZE))) k
        end
    end.
Proof.
  intros Hq Hwf Hn Hn32. unfold getfreeppages. run_with (isptactive_act k q Hq Hwf).
  change (1 =? 0) with false. cbv iota. run_with (acquire_quiet Ptspin k Hq).
  rewrite (bind_ok _ _ _ (k_ptsize k) (hold Ptspin k)) by done.
  rewrite (bind_ok _ _ _ (k_hashedptsize k) (hold Ptspin k)) by done.
  run_with (alloc_start k q n Hq Hwf Hn Hn32).
  destruct (first_fit _ n) as [i|]; cbn [fit_result].
  - by rewrite (proj2 (Z.eqb_neq (Z.of_nat i) (-1))) by lia.
  - change (-1 =? -1) with true. cbv iota.
    destruct (firstvictim (k_pt k)) as [v|] eqn:Hv.
    + assert (∀ (m : M kernel ()) (f : () → M kernel Z),
        ((victim ← gets (λ k0, firstvictim (k_pt k0));
          match victim with
          | None => release Ptspin ;; halt (Panic "No space left on memory to allocate to kernel!!")
          | Some _ => release Ptspin ;; m
          end) ≫= f) (hold Ptspin k) = (m ≫= f) k) as Hx; [|by rewrite Hx].
      intros m f. unfold mbind, M_bind, gets. cbn [k_pt hold set_k_cpu set_k_locks]. rewrite Hv.
      by rewrite release_hold.
    + unfold mbind, M_bind, gets. cbn [k_pt hold set_k_cpu set_k_locks]. rewrite Hv.
      by rewrite release_hold.
Qed.

(** Enough contiguous frames: the first run is taken. *)
Lemma getfreeppages_run k q n i :
  quiet k → cm_wf k q → (0 < n)%nat → first_fit (free_map (pagetable (k_pt k))) n = Some i →
  ∃ st', getfreeppages (Z.of_nat n) k = Ok (Z.of_nat i * PAGE_SIZE, set_k_pt st' k) ∧
    cm_wf (set_k_pt st' k) q ∧ (0 < i)%nat ∧
    free_map (pagetable st') =
      take i (free_map (pagetable (k_pt k))) ++ replicate n false ++
      drop (i + n) (free_map (pagetable (k_pt k))) ∧
    pagetable st' = <[i := mk_ptpage 0 (MIPS_KSEG0 + Z.of_nat i * PAGE_SIZE) (Z.of_nat n) None None]>
      (pagetable (k_pt k)).
Proof.
  intros Hq Hwf Hn Hfit. pose proof (first_fit_run _ _ _ Hfit) as Hrf.
  pose proof Hrf as [Hlen Hfree]%run_free_spec. rewrite length_free_map in Hlen.
  destruct (frame_addr k q i Hwf ltac:(lia)) as (Hu1 & Hu2 & H0 & Htop).
  pose proof (wf_length _ _ _ (cm_pt _ _ Hwf)).
  destruct (wf_setptentry_kernel _ _ _ i n (MIPS_KSEG0 + Z.of_nat i * PAGE_SIZE) (cm_pt _ _ Hwf) Hn Hrf)
    as (st' & Hset & Hwf' & Hfm & Hpt).
  exists st'. split_and!; try done.
  - rewrite (getfreeppages_start k q n Hq Hwf Hn ltac:(lia)), Hfit, Hu1, Hu2.
    unfold PADDR_TO_KVADDR at 1.
    rewrite (u32_id (Z.of_nat i * PAGE_SIZE + MIPS_KSEG0)) by (unfold MIPS_KSEG0, PAGE_SIZE in *; lia).
    rewrite (Z.add_comm _ MIPS_KSEG0). run_with (on_pt_hold _ k 0 st' Hset).
    by run_with (release_hold Ptspin (set_k_pt st' k) (quiet_set_pt st' k Hq)).
  - eapply cm_wf_set_pt; [done|done|]. by rewrite Hpt, length_insert.
  - destruct i; [|lia]. destruct (wf_frame0 _ _ _ (cm_pt _ _ Hwf)) as [Hf0 _].
    rewrite Hfree in Hf0 by lia. done.
Qed.

(** No run of free frames and no user page. *)
Lemma getfreeppages_none_run k n :
  quiet k → cm_wf k [] → (0 < n)%nat → Z.of_nat n < 2 ^ 32 →
  first_fit (free_map (pagetable (k_pt k))) n = None →
  getfreeppages (Z.of_nat n) k = Stop (Panic "No space left on memory to allocate to kernel!!").
Proof.
  intros Hq Hwf Hn Hn32 Hfit. rewrite (getfreeppages_start k [] n Hq Hwf Hn Hn32), Hfit.
  destruct (wf_refines _ _ _ (cm_pt _ _ Hwf)) as [bkt R].
  pose proof (rep_fifo _ _ _ _ R) as Hc. cbn in Hc. by rewrite Hc.
Qed.

(** [alloc_kpages] when the table is active *)
Lemma alloc_kpages_run k q n i :
  quiet k → cm_wf k q → t_in_interrupt (k_cpu k) = false → (0 < n)%nat →
  first_fit (free_map (pagetable (k_pt k))) n = Some i →
  ∃ st', alloc_kpages (Z.of_nat n) k = Ok (MIPS_KSEG0 + Z.of_nat i * PAGE_SIZE, set_k_pt st' k) ∧
    cm_wf (set_k_pt st' k) q ∧ (0 < i)%nat ∧
    free_map (pagetable st') =
      take i (free_map (pagetable (k_pt k))) ++ replicate n false ++
      drop (i + n) (free_map (pagetable (k_pt k))) ∧
    pagetable st' = <[i := mk_ptpage 0 (MIPS_KSEG0 + Z.of_nat i * PAGE_SIZE) (Z.of_nat n) None None]>
      (pagetable (k_pt k)).
Proof.
  intros Hq Hwf Hint Hn Hfit.
  destruct (getfreeppages_run k q n i Hq Hwf Hn Hfit) as (st' & Hrun & Hwf' & Hi & Hrest).
  exists st'. split; [|done]. unfold alloc_kpages.
  rewrite (bind_ok _ _ k tt k).
  2:{ unfold pt_can_sleep. mred. rewrite (cpu_exists _ (quiet_cpu _ Hq)), (quiet_count _ Hq), Hint. done. }
  rewrite (bind_ok _ _ k (Z.of_nat i * PAGE_SIZE) (set_k_pt st' k)).
  2:{ unfold getppages. run_with Hrun.
      rewrite (proj2 (Z.eqb_neq _ 0)) by (unfold PAGE_SIZE; lia). done. }
  rewrite (proj2 (Z.eqb_neq _ 0)) by (unfold PAGE_SIZE; lia).
  pose proof (first_fit_run _ _ _ Hfit) as [Hlen _]%run_free_spec. rewrite length_free_map in Hlen.
  destruct (frame_addr k q i Hwf ltac:(lia)) as (Hu1 & Hu2 & H0 & Htop).
  unfold PADDR_TO_KVADDR. rewrite u32_id by (unfold MIPS_KSEG0, PAGE_SIZE in *; lia). by rewrite Z.add_comm.
Qed.

Lemma free_kpages_run k q i pg :
  quiet k → cm_wf k q → pagetable (k_pt k) !! i = Some pg → pg_pid pg = 0 → (0 < i)%nat →
  ∃ st', free_kpages (MIPS_KSEG0 + Z.of_nat i * PAGE_SIZE) k = Ok (tt, set_k_pt st' k) ∧
    cm_wf (set_k_pt st' k) q ∧
    free_map (pagetable st') =
      take i (free_map (pagetable (k_pt k))) ++ replicate (Z.to_nat (pg_numpages pg)) true ++
      drop (i + Z.to_nat (pg_numpages pg)) (free_map (pagetable (k_pt k))) ∧
    pagetable st' = <[i := mk_ptpage (-1) (pg_vaddr pg) 0 None None]> (pagetable (k_pt k)).
Proof.
  intros Hq Hwf Hi Hp Hi0. pose proof (lookup_lt_Some _ _ _ Hi) as Hlt.
  destruct (frame_addr k q i Hwf Hlt) as (Hu1 & Hu2 & H0 & Htop).
  destruct (wf_freekernel _ _ _ i pg (cm_pt _ _ Hwf) Hi Hp Hi0) as (st' & Hrun & Hwf' & Hfm & Hpt).
  exists st'. split_and!; [| |done|done].
  - unfold free_kpages. run_with (isptactive_act k q Hq Hwf). change (1 =? 0) with false. cbv iota zeta.
    run_with (acquire_quiet Ptspin k Hq). rewrite Z.add_simpl_l, Hu2, Z.div_mul by done.
    run_with (on_pt_hold _ k 0 st' Hrun).
    by rewrite (release_hold Ptspin (set_k_pt st' k) (quiet_set_pt st' k Hq)).
  - eapply cm_wf_set_pt; [done|done|]. by rewrite Hpt, length_insert.
Qed.

Lemma freeuserpage_run k q1 pid addr i q2 :
  quiet k → cm_wf k (q1 ++ ((pid, addr), i) :: q2) →
  ∃ st', freeuserpage pid addr k = Ok (0, set_k_pt st' k) ∧
    cm_wf (set_k_pt st' k) (q1 ++ q2) ∧
    free_map (pagetable st') = <[i := true]> (free_map (pagetable (k_pt k))).
Proof.
  intros Hq Hwf. destruct (wf_freeuser _ _ _ _ _ _ _ (cm_pt _ _ Hwf)) as (st' & Hrun & Hwf' & Hfm & Hlen & _).
  exists st'. split_and!; [|by eapply cm_wf_set_pt|done].
  unfold freeuserpage. run_with (isptactive_act k _ Hq Hwf). change (1 =? 0) with false. cbv iota.
  run_with (acquire_quiet Ptspin k Hq).
  rewrite (bind_ok _ _ _ (k_hashedptsize k) (hold Ptspin k)) by done.
  run_with (on_pt_hold _ k 0 st' Hrun).
  by run_with (release_hold Ptspin (set_k_pt st' k) (quiet_set_pt st' k Hq)).
Qed.
End kpages.

(** ** Kernel allocation when memory is full of user pages

    The eviction branch of [getfreeppages] keeps the index -1: the page is
    saved and dropped, and then the table is written out of its bounds. *)
Section kpages_evict.
Context {ops : VnodeOps} {laws : VnodeLaws ops}.

Lemma setptentry_bad hsz index n pid vaddr st :
  (length (pagetable st) ≤ Z.to_nat index)%nat → setptentry hsz index n pid vaddr st = Stop BadAccess.
Proof.
  intros H. unfold setptentry. apply bind_stop. unfold store_page. mred.
  by rewrite decide_False by lia.
Qed.

Lemma getfreeppages_evict_run k p v i q j n :
  quiet k → cm_wf k (((p, v), i) :: q) → swap_wf k → length (k_stats k) = VMSTATSLEN →
  (0 < n)%nat → Z.of_nat n < 2 ^ 32 →
  first_fit (free_map (pagetable (k_pt k))) n = None → free_slot (k_swapmap k) = Some j →
  getfreeppages (Z.of_nat n) k = Stop BadAccess.
Proof.
  intros Hq Hwf Hsw Hst Hn Hn32 Hfit Hj.
  rewrite (getfreeppages_start k _ n Hq Hwf Hn Hn32), Hfit.
  destruct (load_victim_run k p v i q Hwf) as [-> _].
  destruct (swap_victim_run k p v i q j Hq Hwf Hsw Hst Hj) as (fs' & Hswap & _).
  set (k1 := swapped_in j p v fs' k) in *.
  destruct (drop_victim_ok k1 p v i q (quiet_cpu _ Hq) ltac:(cbn; rewrite (quiet_count _ Hq); lia)
    ltac:(by apply (cm_wf_same k))) as (st' & Hdrop & Hwf' & _ & Hlen).
  set (k2 := set_k_pt st' (set_k_tlb (tlb_after_invalpage v (k_tlb k1)) k1)) in *.
  rewrite (bind_ok _ _ k tt k2) by (by run_with Hswap).
  pose proof (wf_length _ _ _ Hwf') as Hl.
  apply bind_stop. unfold on_pt, zoom. rewrite setptentry_bad; [done|].
  change (k_pt k2) with st'. change (u32 (-1)) with 4294967295. lia.
Qed.
End kpages_evict.

(** ** Forgetting a process *)
Section remove.
Context {ops : VnodeOps}.

(** The pages of other processes, and those in frames from [n] on *)
Definition kept (pid : Z) (n : nat) (e : key * nat) : Prop := e.1.1 ≠ pid ∨ (n ≤ e.2)%nat.
#[local] Instance kept_dec pid n e : Decision (kept pid n e).
Proof. unfold kept. apply _. Defined.

Lemma kept_step_ne pid n (q : queue) :
  (∀ k, (k, n) ∈ q → k.1 ≠ pid) →
  filter (kept pid (S n)) q = filter (kept pid n) q.
Proof.
  intros H. apply filter_ext_in. intros [k i] Hin. unfold kept. cbn. split; [naive_solver lia|].
  intros [?|?]; [by left|]. destruct (decide (i = n)) as [->|]; [left; by apply H|right; lia].
Qed.

Lemma kept_step_eq pid n v q1 q2 :
  NoDup (q1 ++ ((pid, v), n) :: q2).*2 →
  filter (kept pid n) (q1 ++ ((pid, v), n) :: q2) =
    filter (kept pid n) q1 ++ ((pid, v), n) :: filter (kept pid n) q2 ∧
  filter (kept pid (S n)) (q1 ++ ((pid, v), n) :: q2) =
    filter (kept pid n) q1 ++ filter (kept pid n) q2.
Proof.
  intros Hnd. rewrite fmap_app in Hnd. cbn in Hnd. apply NoDup_mid in Hnd as Hni.
  assert (∀ k, (k, n) ∈ q1 → k.1 ≠ pid) as H1.
  { intros k Hin. exfalso. apply Hni, elem_of_app. left. apply list_elem_of_fmap. by exists (k, n). }
  assert (∀ k, (k, n) ∈ q2 → k.1 ≠ pid) as H2.
  { intros k Hin. exfalso. apply Hni, elem_of_app. right. apply list_elem_of_fmap. by exists (k, n). }
  rewrite !filter_app. split.
  - rewrite filter_cons_True; [done|]. right. cbn. lia.
  - rewrite filter_cons_False; [|unfold kept; cbn; naive_solver lia].
    by rewrite !kept_step_ne.
Qed.

(** One round of the loop of [removeptentries] *)
Lemma remove_step k q pid n st :
  pt_wf (k_hashedptsize k) st (filter (kept pid n) q) → NoDup q.*2 → 0 < pid →
  (n < length (pagetable st))%nat →
  ∃ st', (pg ← on_pt (load_page (Some n));
          if pg_pid pg =? pid then on_pt (freeuser (k_hashedptsize k) pid (pg_vaddr pg)) ;; mret tt
          else mret tt) (hold Ptspin (set_k_pt st k)) = Ok (tt, hold Ptspin (set_k_pt st' k)) ∧
    pt_wf (k_hashedptsize k) st' (filter (kept pid (S n)) q) ∧
    length (pagetable st') = length (pagetable st).
Proof.
  intros Hwf Hnd Hpid Hlt. destruct (lookup_lt_is_Some_2 _ _ Hlt) as [pg Hn].
  destruct (wf_refines _ _ _ Hwf) as [bkt R].
  rewrite (bind_ok _ _ _ pg (hold Ptspin (set_k_pt st k))).
  2:{ apply (on_pt_read_hold _ (set_k_pt st k)). unfold load_page. mred. cbn. by rewrite Hn. }
  destruct (Z.eqb_spec (pg_pid pg) pid) as [Heq|Hne].
  - pose proof (rep_user _ _ _ _ R n pg Hn ltac:(lia)) as Hin.
    unfold pg_key in Hin. rewrite Heq in Hin.
    apply list_elem_of_filter in Hin as [_ (q1 & q2 & ->)%list_elem_of_split].
    destruct (kept_step_eq pid n (pg_vaddr pg) q1 q2 Hnd) as [H1 H2]. rewrite H1 in Hwf.
    destruct (wf_freeuser _ _ _ _ _ _ _ Hwf) as (st' & Hrun & Hwf' & _ & Hlen & _).
    exists st'. rewrite H2. split; [|done].
    by run_with (on_pt_hold _ (set_k_pt st k) 0 st' Hrun).
  - exists st. rewrite kept_step_ne; [done|]. intros k0 Hin Hk.
    assert ((k0, n) ∈ filter (kept pid n) q) as Hin'.
    { apply list_elem_of_filter. split; [right; cbn; lia|done]. }
    destruct (rep_entry _ _ _ _ R _ _ Hin') as (pg' & Hn' & Hkey & _).
    rewrite Hn in Hn'. injection Hn' as <-. apply Hne. by rewrite <-Hk, <-Hkey.
Qed.

Lemma remove_loop k q pid m n st :
  pt_wf (k_hashedptsize k) st (filter (kept pid n) q) → NoDup q.*2 → 0 < pid →
  (n + m = length (pagetable st))%nat →
  ∃ st', for_list (seqZ (Z.of_nat n) (Z.of_nat m)) (λ i,
      pg ← on_pt (load_page (Some (Z.to_nat i)));
      if pg_pid pg =? pid then on_pt (freeuser (k_hashedptsize k) pid (pg_vaddr pg)) ;; mret tt
      else mret tt) (hold Ptspin (set_k_pt st k)) = Ok (tt, hold Ptspin (set_k_pt st' k)) ∧
    pt_wf (k_hashedptsize k) st' (filter (kept pid (n + m)) q) ∧
    length (pagetable st') = length (pagetable st).
Proof.
  intros Hwf Hnd Hpid. revert n st Hwf. induction m as [|m IH]; intros n st Hwf Hlen.
  { exists st. by rewrite Nat.add_0_r. }
  rewrite Nat2Z.inj_succ, seqZ_cons, Z.pred_succ by lia. cbn [for_list]. rewrite Nat2Z.id.
  destruct (remove_step k q pid n st Hwf Hnd Hpid ltac:(lia)) as (st1 & Hrun & Hwf1 & Hlen1).
  run_with Hrun. rewrite <-Nat2Z.inj_succ.
  destruct (IH (S n) st1 Hwf1 ltac:(lia)) as (st' & Hrun' & Hwf' & Hlen').
  exists st'. rewrite Nat.add_succ_r. split_and!; [done|done|lia].
Qed.

(** All pages of the process leave, those of the others stay in order. *)
Lemma removeptentries_run k q pid :
  quiet k → cm_wf k q → 0 < pid →
  ∃ st', removeptentries pid k = Ok (tt, set_k_pt st' k) ∧
    cm_wf (set_k_pt st' k) (filter (λ e, e.1.1 ≠ pid) q).
Proof.
  intros Hq Hwf Hpid. pose proof (wf_frames _ _ _ (cm_pt _ _ Hwf)) as Hnd.
  destruct (remove_loop k q pid (length (pagetable (k_pt k))) 0 (k_pt k)) as (st' & Hrun & Hwf' & Hlen);
    [|done|done|done|].
  { rewrite filter_all; [apply Hwf|]. intros e _. right. lia. }
  cbn [plus] in *. exists st'. split.
  - unfold removeptentries. run_with (isptactive_act k q Hq Hwf). change (1 =? 0) with false. cbv iota.
    run_with (acquire_quiet Ptspin k Hq).
    rewrite (bind_ok _ _ _ (k_ptsize k) (hold Ptspin k)) by done.
    rewrite (bind_ok _ _ _ (k_hashedptsize k) (hold Ptspin k)) by done.
    rewrite (cm_size _ _ Hwf).
    rewrite (bind_ok _ _ _ tt (hold Ptspin (set_k_pt st' k))).
    + by rewrite (release_hold Ptspin (set_k_pt st' k) (quiet_set_pt st' k Hq)).
    + etrans; [|exact Hrun]. f_equal.
  - eapply cm_wf_set_pt; [done| |done].
    erewrite filter_ext_in; [exact Hwf'|]. intros [k0 i] Hin. cbn.
    apply (wf_resident _ _ _ (cm_pt _ _ Hwf)) in Hin as [? _]. unfold kept. cbn. split; [by left|].
    intros [?|?]; [done|lia].
Qed.
End remove.

(** ** Initialisation *)
Section init.
Context {ops : VnodeOps}.

Lemma setptentry_store hsz index n pid vaddr st :
  pid ≤ 0 → (Z.to_nat index < length (pagetable st))%nat →
  setptentry hsz index n pid vaddr st =
    Ok (0, set_pagetable (<[Z.to_nat index := mk_ptpage pid vaddr n None None]> (pagetable st)) st).
Proof.
  intros Hp Hlt. unfold setptentry.
  rewrite (bind_ok _ _ st tt (set_pagetable (<[Z.to_nat index := mk_ptpage pid vaddr n None None]>
    (pagetable st)) st)).
  - by rewrite (proj2 (Z.ltb_ge 0 pid)) by lia.
  - unfold store_page. mred. by rewrite decide_True.
Qed.

(** Filling a range of the table with free or kernel entries *)
Lemma fill_table k hsz np pid n m :
  pid ≤ 0 → (n + m ≤ length (pagetable (k_pt k)))%nat →
  for_list (seqZ (Z.of_nat n) (Z.of_nat m)) (λ i,
    on_pt (setptentry hsz i np pid (PADDR_TO_KVADDR (u32 (i * PAGE_SIZE)))) ;; mret tt) k =
  Ok (tt, set_k_pt (set_pagetable (update_range n m (λ i _,
      mk_ptpage pid (PADDR_TO_KVADDR (u32 (Z.of_nat i * PAGE_SIZE))) np None None)
    (pagetable (k_pt k))) (k_pt k)) k).
Proof.
  intros Hp Hlen.
  eapply (for_update (λ k, pagetable (k_pt k)) (λ l k, set_k_pt (set_pagetable l (k_pt k)) k) _
    (λ i _, mk_ptpage pid (PADDR_TO_KVADDR (u32 (Z.of_nat i * PAGE_SIZE))) np None None) n m k);
    [done|done|by intros [? ? ? []]| |done].
  intros i k' x Hi. apply lookup_lt_Some in Hi.
  run_with (on_pt_ok _ k' _ _ (setptentry_store hsz (Z.of_nat i) np pid
    (PADDR_TO_KVADDR (u32 (Z.of_nat i * PAGE_SIZE))) (k_pt k') Hp ltac:(by rewrite Nat2Z.id))).
  by rewrite Nat2Z.id.
Qed.

Lemma clear_hashed k n :
  length (hashedpt (k_pt k)) = n →
  for_list (seqZ 0 (Z.of_nat n)) (λ i,
    on_pt (modify (λ st, set_hashedpt (<[Z.to_nat i := None]> (hashedpt st)) st))) k =
  Ok (tt, set_k_pt (set_hashedpt (replicate n None) (k_pt k)) k).
Proof.
  intros <-. etrans.
  - apply (for_update (λ k, hashedpt (k_pt k)) (λ l k, set_k_pt (set_hashedpt l (k_pt k)) k) _
      (λ _ _, None) 0 (length (hashedpt (k_pt k))) k); [done|done|by intros [? ? ? []]| |done].
    intros i k' x _. unfold on_pt, zoom. mred. by rewrite Nat2Z.id.
  - by rewrite update_range_all, imap_const.
Qed.

Lemma boot_ranges (junk : nat → ptpage) size first :
  (first ≤ size)%nat →
  update_range first (size - first) (λ i _,
      mk_ptpage (-1) (PADDR_TO_KVADDR (u32 (Z.of_nat i * PAGE_SIZE))) 0 None None)
    (update_range 0 first (λ i _,
      mk_ptpage 0 (PADDR_TO_KVADDR (u32 (Z.of_nat i * PAGE_SIZE))) 1 None None)
      (junk <$> seq 0 size)) = boot_entry first <$> seq 0 size.
Proof.
  intros Hle. apply list_eq. intros i. unfold update_range.
  rewrite !list_lookup_imap, !list_lookup_fmap.
  destruct (seq 0 size !! i) as [j|] eqn:E; [|done]. apply lookup_seq in E as [-> Hi].
  cbn [fmap option_fmap option_map plus]. unfold boot_entry. f_equal. repeat case_decide; (done || lia).
Qed.

Definition booted (size first : nat) (k : kernel) : kernel :=
  set_k_isAct 1 (set_k_pt (boot_table size first (size / 32))
    (set_k_ram (mk_ramst 0 0)
      (set_k_hashedptsize (Z.of_nat (size / 32)) (set_k_ptsize (Z.of_nat size) k)))).

Lemma ptinit_run k kmalloc junk junkh size first r1 p1 r2 p2 :
  let k1 := set_k_hashedptsize (Z.of_nat (size / 32)) (set_k_ptsize (Z.of_nat size) k) in
  let k2 := set_k_pt (set_pagetable (junk <$> seq 0 size) (k_pt k)) (set_k_ram r1 k1) in
  quiet k → firstvictim (k_pt k) = None → lastallocateduser (k_pt k) = None →
  lastpaddr (k_ram k) / PAGE_SIZE = Z.of_nat size →
  kmalloc (u32 (Z.of_nat size * 20)) k1 = Ok (p1, set_k_ram r1 k1) → p1 ≠ 0 →
  kmalloc (u32 (Z.of_nat (size / 32) * 4)) k2 = Ok (p2, set_k_ram r2 k2) → p2 ≠ 0 →
  firstpaddr r2 / PAGE_SIZE = Z.of_nat first → (first ≤ size)%nat →
  ptinit kmalloc junk junkh k = Ok (0, booted size first k).
Proof.
  intros k1 k2 Hq Hfv Hla Hsize Hm1 Hp1 Hm2 Hp2 Hfirst Hle. unfold ptinit.
  rewrite (bind_ok _ _ k (lastpaddr (k_ram k)) k) by (by destruct k). rewrite Hsize.
  rewrite (bind_ok _ _ k tt (set_k_ptsize (Z.of_nat size) k)) by done.
  rewrite (bind_ok _ _ _ (Z.of_nat size) (set_k_ptsize (Z.of_nat size) k)) by done.
  change 32 with (Z.of_nat 32). rewrite <-Nat2Z.inj_div.
  rewrite (bind_ok _ _ _ tt k1) by done.
  rewrite (bind_ok _ _ _ (Z.of_nat (size / 32)) k1) by done.
  run_with Hm1. rewrite (proj2 (Z.eqb_neq p1 0)) by done. rewrite !Nat2Z.id.
  rewrite (bind_ok _ _ _ tt k2) by done. run_with Hm2. rewrite (proj2 (Z.eqb_neq p2 0)) by done.
  set (k3 := set_k_pt (set_hashedpt (junkh <$> seq 0 (size / 32)) (k_pt k2)) (set_k_ram r2 k2)).
  rewrite (bind_ok _ _ _ tt k3) by done.
  set (k4 := set_k_ram (mk_ramst 0 0) k3).
  rewrite (bind_ok _ _ _ (firstpaddr r2) k4) by done. cbv zeta. rewrite Hfirst.
  assert (quiet k4) as Hq4 by (by apply (quiet_same k)).
  run_with (acquire_quiet Ptspin k4 Hq4).
  run_with (clear_hashed (hold Ptspin k4) (size / 32) ltac:(cbn; by rewrite length_fmap, length_seq)).
  rewrite (bind_ok _ _ _ _ _ (fill_table (set_k_pt (set_hashedpt (replicate (size / 32) None)
      (k_pt (hold Ptspin k4))) (hold Ptspin k4)) (Z.of_nat (size / 32)) 1 0 0 first ltac:(lia)
    ltac:(cbn; rewrite length_fmap, length_seq; lia))).
  replace (Z.of_nat size - Z.of_nat first) with (Z.of_nat (size - first)) by lia.
  erewrite bind_ok; [|apply fill_table; [lia|cbn; rewrite length_imap, length_fmap, length_seq; lia]].
  cbn [k_pt set_k_pt pagetable set_pagetable set_hashedpt hashedpt firstvictim lastallocateduser
    hold set_k_cpu set_k_locks k4 k3 k2 k1 set_k_ram set_k_ptsize set_k_hashedptsize].
  rewrite boot_ranges by done.
  assert (boot_table size first (size / 32) =
    set_pagetable (boot_entry first <$> seq 0 size)
      (set_hashedpt (replicate (size / 32) None) (k_pt k))) as Hbt.
  { unfold set_pagetable, set_hashedpt. cbn [hashedpt firstvictim lastallocateduser].
    by rewrite Hfv, Hla. }
  rewrite (bind_ok _ _ _ tt (hold Ptspin (booted size first k))).
  2:{ unfold booted. by rewrite Hbt. }
  by run_with (release_hold Ptspin (booted size first k) ltac:(by apply (quiet_same k))).
Qed.

Lemma booted_wf k size first :
  (0 < first ≤ size)%nat → (32 ≤ size)%nat → Z.of_nat size * PAGE_SIZE ≤ 2 ^ 29 →
  cm_wf (booted size first k) [].
Proof.
  intros Hf Hs Hsize. split.
  - done.
  - cbn. by rewrite length_fmap, length_seq.
  - apply boot_table_wf; [lia| |done]. apply Nat.div_str_pos. lia.
Qed.
End init.
