(* ===== verification/Addrspace.v ===== *)
(** * Segments and address spaces ([kern/vm/segments.c], [kern/vm/addrspace.c])

    A [struct addrspace] belongs to one process, so the functions that fill
    one in take and return it; [vm_fault], which updates the one of the current
    process, is in [Vm].  [kmalloc] may fail: [kmalloc_ok] of the kernel state
    decides, and the places where the code does not look at the result fail
    accordingly. *)

From S2P Require Import Prelude Machine Spinlock Pt PtSpec PtFrames PtTable Kernel Vmstats.
From S2P Require Import Tlb Swapfile Coremap.

Definition RDFLAG : Z := 4.
Definition WRFLAG : Z := 2.
Definition EXFLAG : Z := 1.

(** ** Segments *)
Section segments.
Context {ops : VnodeOps}.

Definition segcreate : M kernel (option segment) :=
  ok ← kmalloc_ok;
  if (ok : bool) then mret (Some (mk_segment 0 None None 0 0 false 0)) else mret None.

(** [kmalloc] of the array of [npages] bytes, and the loop that clears it: a
    store through [NULL] when the allocation failed. *)
Definition clear_loaded (npages : Z) : M kernel (option (list Z)) :=
  ok ← kmalloc_ok;
  if (ok : bool) then mret (Some (replicate (Z.to_nat npages) 0))
  else if 0 <? npages then halt BadAccess
  else mret None.

Definition segdef (seg : option segment) (vaddr npages offset : Z) (elfnode : option Z) (stack : bool)
    (readable writable executable : Z) : M kernel segment :=
  match seg with
  | None => halt (AssertFail "seg!=NULL")
  | Some _ =>
      loaded ← clear_loaded npages;
      mret (mk_segment npages elfnode loaded offset vaddr stack
              (s8 (Z.lor (Z.lor (s8 readable) writable) executable)))
  end.

Definition segcopy (seg : option segment) : M kernel segment :=
  newseg ← segcreate;
  newseg ← deref newseg;
  seg ← deref seg;
  loaded ← clear_loaded (numpages seg);
  mret (mk_segment (numpages seg) (elfdata seg) loaded (elfoffset seg) (startaddr seg) (stackseg seg)
          (permissions seg)).

(** The segment and its array are freed: the fields die with it. *)
Definition segdes (seg : option segment) : M kernel () :=
  seg ← deref seg;
  mret tt.
End segments.

(** ** Address spaces *)
Section addrspace.
Context {ops : VnodeOps}.

Definition as_zero_region (paddr len : Z) : M kernel () :=
  modify (λ k, set_k_mem (mem_write (k_mem k) (PADDR_TO_KVADDR paddr - MIPS_KSEG0)
    (replicate (Z.to_nat len) 0)) k).

Definition as_create : M kernel (option addrspace) :=
  ok ← kmalloc_ok;
  if (ok : bool) then mret (Some (mk_addrspace None None None)) else mret None.

Definition as_copy (old : addrspace) : M kernel (Z * option addrspace) :=
  newas ← as_create;
  match newas with
  | None => mret (ENOMEM, None)
  | Some newas =>
      s1 ← segcopy (seg1 old);
      s2 ← segcopy (seg2 old);
      st ← segcopy (segstack old);
      mret (0, Some (mk_addrspace (Some s1) (Some s2) (Some st)))
  end.

(** [vfs_close] is the call of that name. *)
Definition as_destroy (vfs_close : Z → M kernel ()) (as_ : addrspace) (pid : Z) : M kernel () :=
  s1 ← deref (seg1 as_);
  match elfdata s1 with
  | Some vn => vfs_close vn
  | None => mret tt
  end ;;
  segdes (seg1 as_) ;;
  segdes (seg2 as_) ;;
  segdes (segstack as_) ;;
  removeptentries pid ;;
  removeswapentries pid.

(** The result is the error code and the updated address space. *)
Definition as_define_region (as_ : addrspace) (vaddr memsize offset : Z) (vnode : option Z)
    (readable writable executable : Z) : M kernel (Z * addrspace) :=
  pt_can_sleep ;;
  let sz := u32 (memsize + Z.land vaddr (Z.lxor PAGE_FRAME 0xffffffff)) in
  let vaddr := Z.land vaddr PAGE_FRAME in
  let sz := Z.land (u32 (sz + PAGE_SIZE - 1)) PAGE_FRAME in
  let npages := sz / PAGE_SIZE in
  match seg1 as_, seg2 as_ with
  | None, _ =>
      s ← segcreate;
      match s with
      | None => mret (ENOMEM, as_)
      | Some _ =>
          s ← segdef s vaddr npages offset vnode false readable writable executable;
          mret (0, set_seg1 (Some s) as_)
      end
  | Some _, None =>
      s ← segcreate;
      match s with
      | None => mret (ENOMEM, as_)
      | Some _ =>
          s ← segdef s vaddr npages offset vnode false readable writable executable;
          mret (0, set_seg2 (Some s) as_)
      end
  | Some _, Some _ => mret (ENOSYS, as_)
  end.

Definition as_prepare_load (as_ : addrspace) : M kernel Z := mret 0.
Definition as_complete_load (as_ : addrspace) : M kernel Z := mret 0.

(** The result is the error code, the address space and the stack pointer. *)
Definition as_define_stack (as_ : addrspace) : M kernel (Z * addrspace * Z) :=
  s ← segcreate;
  s ← segdef s (USERSTACK - STACKPAGES * PAGE_SIZE) STACKPAGES 0 None true RDFLAG WRFLAG 0;
  mret (0, set_segstack (Some s) as_, USERSTACK).

(** The test of [readfromelfto] that a page is in a segment *)
Definition in_elf_seg (s : segment) (vaddr : Z) : bool :=
  (startaddr s <=? vaddr) && (vaddr <=? u32 (u32 (numpages s * PAGE_SIZE) + startaddr s)).

(** Read the page at [vaddr] of segment [s] into frame [paddr]. *)
Definition read_seg_page (s : segment) (vaddr paddr : Z) : M kernel Z :=
  let io := uio_kinit (PADDR_TO_KVADDR paddr) PAGE_SIZE
              (u32 (vaddr - startaddr s) + elfoffset s) UIO_READ in
  vn ← deref (elfdata s);
  res ← VOP_READ vn io;
  mret res.1.

Definition readfromelfto (as_ : addrspace) (vaddr paddr : Z) : M kernel () :=
  let paddr := Z.land paddr PAGE_FRAME in
  s1 ← deref (seg1 as_);
  res ← (if in_elf_seg s1 vaddr then read_seg_page s1 vaddr paddr
         else
           s2 ← deref (seg2 as_);
           if in_elf_seg s2 vaddr then read_seg_page s2 vaddr paddr
           else
             st ← deref (segstack as_);
             if in_elf_seg st vaddr then read_seg_page st vaddr paddr
             else mret (-1));
  if negb (res =? 0) then halt (Panic "Could not read from elf") else mret tt.
End addrspace.

(** ** The current process ([kern/proc/proc.c], [proc_getas]) *)
Section proc.
Context {ops : VnodeOps}.

Definition get_proc (c : nat) : M kernel proc :=
  procs ← gets k_procs;
  deref (procs !! c).
Definition put_proc (c : nat) (p : proc) : M kernel () :=
  modify (λ k, set_k_procs (<[c := p]> (k_procs k)) k).

(** Run a spinlock operation on [p_lock] of process [c]. *)
Definition on_p_lock (c : nat) (m : M (cpu * spinlock) ()) : M kernel () :=
  p ← get_proc c;
  cpu_ ← gets k_cpu;
  match m (cpu_, p_lock p) with
  | Ok (_, (cpu', l')) =>
      modify (set_k_cpu cpu') ;;
      put_proc c (set_p_lock l' p)
  | Stop e => halt e
  end.

Definition proc_getas : M kernel (option addrspace) :=
  cur ← gets k_curproc;
  match cur with
  | None => mret None
  | Some c =>
      on_p_lock c spinlock_acquire ;;
      p ← get_proc c;
      on_p_lock c spinlock_release ;;
      mret (p_addrspace p)
  end.

Definition as_activate : M kernel () :=
  as_ ← proc_getas;
  match as_ with
  | None => mret tt
  | Some _ =>
      spl ← on_curcpu splhigh;
      c ← gets k_curproc;
      c ← deref c;
      p ← get_proc c;
      vmtlb_invalidate (p_pid p) ;;
      on_curcpu (splx spl) ;;
      mret tt
  end.

Definition as_deactivate : M kernel () := mret tt.

(** ** What they do *)

Lemma get_proc_ok k c p : k_procs k !! c = Some p → get_proc c k = Ok (p, k).
Proof. intros H. unfold get_proc. rewrite (bind_ok _ _ _ (k_procs k) k) by done. by rewrite H. Qed.

(** The lock is taken and released: nothing changes. *)
Lemma proc_getas_ok k c p :
  quiet k → k_curproc k = Some c → k_procs k !! c = Some p → lock_free (p_lock p) →
  proc_getas k = Ok (p_addrspace p, k).
Proof.
  intros Hq Hc Hp Hl.
  pose proof (quiet_cpu _ Hq) as Hok. pose proof (quiet_count _ Hq) as Hn.
  unfold proc_getas. rewrite (bind_ok _ _ _ (k_curproc k) k) by done. rewrite Hc.
  set (p1 := set_p_lock (mk_spinlock 1 (Some (c_self (k_cpu k)))) p).
  set (k1 := set_k_procs (<[c := p1]> (k_procs k)) (set_k_cpu (cpu_raise 1 (k_cpu k)) k)).
  rewrite (bind_ok _ _ _ tt k1).
  2:{ unfold on_p_lock. run_with (get_proc_ok k c p Hp).
      rewrite (bind_ok _ _ _ (k_cpu k) k) by done.
      by rewrite (spinlock_acquire_ok _ _ Hok ltac:(lia) Hl). }
  assert (k_procs k1 !! c = Some p1) as Hp1 by (cbn; by rewrite lookup_insert_eq).
  run_with (get_proc_ok k1 c p1 Hp1).
  rewrite (bind_ok _ _ _ tt k).
  2:{ unfold on_p_lock. run_with (get_proc_ok k1 c p1 Hp1).
      rewrite (bind_ok _ _ _ (k_cpu k1) k1) by done.
      rewrite spinlock_release_ok; [|apply cpu_raise_ok; [done|lia]|cbn; lia|done].
      cbn [k_cpu k1 set_k_procs set_k_cpu]. rewrite cpu_raise_raise, cpu_raise_0 by done.
      unfold put_proc. mred. cbn [k_procs set_k_cpu k1 set_k_procs].
      rewrite insert_insert_eq, insert_id; [by destruct k|].
      rewrite Hp. f_equal. unfold lock_free in Hl. rewrite <-Hl. by destruct p. }
  done.
Qed.

(** The TLB is flushed unless it belongs to the process already. *)
Lemma as_activate_ok k c p a :
  quiet k → k_curproc k = Some c → k_procs k !! c = Some p → lock_free (p_lock p) →
  p_addrspace p = Some a → tlb_wf (k_tlb k) → length (k_stats k) = VMSTATSLEN →
  as_activate k = Ok (tt, if p_pid p =? lastpid (k_tlb k) then k
    else set_k_stats (stats_incr TLBINVALIDATION (k_stats k)) (set_k_tlb tlb_flushed k)).
Proof.
  intros Hq Hc Hp Hl Ha Hwf Hst. unfold as_activate.
  run_with (proc_getas_ok k c p Hq Hc Hp Hl). rewrite Ha.
  set (k1 := set_k_cpu (cpu_high (k_cpu k)) k).
  rewrite (bind_ok _ _ _ (t_curspl (k_cpu k)) k1).
  2:{ unfold on_curcpu, zoom. rewrite splhigh_ok; [done|apply Hq|]. rewrite (quiet_count _ Hq). lia. }
  rewrite (bind_ok _ _ _ (k_curproc k) k1) by done. rewrite Hc.
  rewrite (bind_ok _ _ _ c k1) by done. run_with (get_proc_ok k1 c p Hp).
  run_with (vmtlb_invalidate_ok k1 (p_pid p) (quiet_high k Hq) Hwf Hst).
  destruct (splx_restore (k_cpu k) (cpu_high (k_cpu k)) (quiet_cpu _ Hq) eq_refl) as [r Hr].
  cbn [k_tlb k1 set_k_cpu]. destruct (p_pid p =? lastpid (k_tlb k)).
  - rewrite (bind_ok _ _ _ r k); [done|]. unfold on_curcpu, zoom. cbn. rewrite Hr. by destruct k.
  - erewrite (bind_ok _ _ _ r); [done|]. unfold on_curcpu, zoom. cbn. by rewrite Hr.
Qed.
End proc.
