(* ===== verification/VmInv.v ===== *)
(** * The invariant of the paging system

    [vm_inv] ties the page table, the swap file, the TLB and physical memory
    together.  [contents] is the abstraction: what is stored in each page
    (pid, vaddr), whether it is in a frame or in the swap file.  This file
    shows what the steps of a page fault do to both. *)

From S2P Require Import Prelude Machine Spinlock Pt PtSpec PtFrames PtTable Kernel Vmstats.
From S2P Require Import Tlb Swapfile Coremap.

Section inv.
Context {ops : VnodeOps} {laws : VnodeLaws ops}.

(** The stored pages *)
Definition contents (k : kernel) (q : queue) (key : key) : option (list Z) :=
  match q_lookup key q with
  | Some i => Some (page_at (k_mem k) (Z.of_nat i * PAGE_SIZE))
  | None => swap_contents k key
  end.

(** The TLB maps user pages of the process [lastpid] to their frames. *)
Definition tlb_maps (t : tlbst) (q : queue) : Prop :=
  ∀ va pa w, 0 ≤ va < MIPS_KSEG0 → translate t va = Some (pa, w) →
    ∃ i, q_lookup (lastpid t, Z.land va PAGE_FRAME) q = Some i ∧
      pa = Z.of_nat i * PAGE_SIZE + va `mod` PAGE_SIZE.

(** Resident pages are not in the swap file; [x] is a page for which this is
    not required, the one a fault is bringing in. *)
Record vm_inv (x : option key) (k : kernel) (q : queue) : Prop := {
  vi_quiet : quiet k;
  vi_cm : cm_wf k q;
  vi_swap : swap_wf k;
  vi_stats : length (k_stats k) = VMSTATSLEN;
  vi_tlb : tlb_wf (k_tlb k);
  vi_maps : tlb_maps (k_tlb k) q;
  vi_disj key : key ∈ q.*1 → Some key ≠ x → slot_of key (k_swapmap k) = None;
  vi_user key : key ∈ q.*1 → 0 ≤ key.2 < MIPS_KSEG0 ∧ Z.land key.2 PAGE_FRAME = key.2
}.

(** What no step of a fault changes *)
Record frame (k k' : kernel) : Prop := {
  fr_cpu : k_cpu k' = k_cpu k;
  fr_locks : k_locks k' = k_locks k;
  fr_curproc : k_curproc k' = k_curproc k;
  fr_swapfile : k_swapfile k' = k_swapfile k;
  fr_files w : w ≠ k_swapfile k → file_data (k_fs k') w = file_data (k_fs k) w;
  fr_vnode w : vnode_ok (k_fs k) w → vnode_ok (k_fs k') w
}.

Lemma frame_refl k : frame k k.
Proof. by split. Qed.
Lemma frame_trans k1 k2 k3 : frame k1 k2 → frame k2 k3 → frame k1 k3.
Proof.
  intros [] []. split; try congruence.
  - intros w Hw. rewrite fr_files1, fr_files0; congruence.
  - auto.
Qed.

(** Lookups in a queue *)
Lemma q_lookup_app key q q' :
  q_lookup key (q ++ q') = match q_lookup key q with Some i => Some i | None => q_lookup key q' end.
Proof. induction q as [|[k i] q IH]; [done|]. cbn. by case_decide. Qed.

Lemma q_lookup_elem key i q : q_lookup key q = Some i → (key, i) ∈ q.
Proof.
  induction q as [|[k j] q IH]; [done|]. cbn. case_decide as H.
  - intros [= ->]. subst. set_solver.
  - intros Hl. apply IH in Hl. set_solver.
Qed.

Lemma q_lookup_in key q : is_Some (q_lookup key q) ↔ key ∈ q.*1.
Proof.
  split.
  - intros [i Hi%q_lookup_elem]. apply list_elem_of_fmap. by exists (key, i).
  - intros Hin. destruct (q_lookup key q) eqn:E; [done|]. by apply q_lookup_None in E.
Qed.

(** Distinct resident pages are in distinct frames. *)
Lemma q_lookup_inj k q key key' i :
  cm_wf k q → q_lookup key q = Some i → q_lookup key' q = Some i → key = key'.
Proof.
  intros Hwf H1 H2. destruct (wf_refines _ _ _ (cm_pt _ _ Hwf)) as [bkt R].
  apply q_lookup_elem in H1, H2. by eapply rep_frame_fun.
Qed.

(** ** Counters *)
Lemma vmstatincr_inv x k q s :
  vm_inv x k q → (s < VMSTATSLEN)%nat →
  vmstatincr s k = Ok (tt, set_k_stats (stats_incr s (k_stats k)) k) ∧
  vm_inv x (set_k_stats (stats_incr s (k_stats k)) k) q ∧
  frame k (set_k_stats (stats_incr s (k_stats k)) k).
Proof.
  intros [] Hs. split; [|split; [|done]].
  - apply vmstatincr_ok; [done|]. by rewrite vi_stats0.
  - split; try done.
    + by apply (quiet_same k).
    + by apply (cm_wf_same k).
    + by destruct vi_swap0.
    + cbn. unfold stats_incr. by rewrite length_alter.
Qed.

(** ** Writing a frame *)

(** The page of a frame is overwritten, from its start; the file system may
    have changed, but not the files. *)
Definition frame_written (i : nat) (c : list Z) (fs : fsstate) (k : kernel) : kernel :=
  set_k_mem (mem_write (k_mem k) (Z.of_nat i * PAGE_SIZE) c) (set_k_fs fs k).

Lemma frame_written_inv x k q i key c fs :
  vm_inv x k q → q_lookup key q = Some i → Z.of_nat (length c) ≤ PAGE_SIZE →
  (∀ w, file_data fs w = file_data (k_fs k) w) → (∀ w, vnode_ok (k_fs k) w → vnode_ok fs w) →
  vm_inv x (frame_written i c fs k) q ∧ frame k (frame_written i c fs k) ∧
  ∀ key', contents (frame_written i c fs k) q key' =
    if decide (key' = key) then Some (overlay c (page_at (k_mem k) (Z.of_nat i * PAGE_SIZE))) else contents k q key'.
Proof.
  intros Hinv Hi Hlen Hfd Hvn. split; [|split].
  - destruct Hinv. split; try done.
    + by apply (quiet_same k).
    + by apply (cm_wf_same k).
    + split; try apply vi_swap0; cbn.
      * intros j sp Hj Ho. rewrite Hfd. by eapply (swap_file _ vi_swap0).
      * by apply Hvn, vi_swap0.
  - split; cbn; auto.
  - intros key'. unfold contents, swap_contents. cbn. case_decide as Hk.
    + subst. rewrite Hi. by rewrite page_at_write_part.
    + destruct (q_lookup key' q) as [j|] eqn:Ej.
      * rewrite page_at_write_ne; [done| |lia]. intros Hij%Nat2Z.inj. subst j.
        apply Hk. symmetry. eapply q_lookup_inj; [apply Hinv|done|done].
      * by rewrite Hfd.
Qed.

(** ** The page that comes back from the swap file *)
Lemma swapoutpage_inv k q i pid addr c :
  vm_inv (Some (pid, addr)) k q → q_lookup (pid, addr) q = Some i →
  swap_contents k (pid, addr) = Some c →
  ∃ k', swapoutpage pid addr (Z.of_nat i * PAGE_SIZE) k = Ok (0, k') ∧
    vm_inv None k' q ∧ frame k k' ∧ k_procs k' = k_procs k ∧
    k_stats k' = k_stats k ∧ k_tlb k' = k_tlb k ∧
    ∀ key', contents k' q key' = if decide (key' = (pid, addr)) then Some c else contents k q key'.
Proof.
  intros Hinv Hi Hc. pose proof (vi_swap _ _ _ Hinv) as Hsw.
  pose proof (swap_contents_length k _ c Hsw Hc) as Hlen.
  destruct (slot_of (pid, addr) (k_swapmap k)) as [j|] eqn:Hj.
  2:{ unfold swap_contents in Hc. by rewrite Hj in Hc. }
  apply q_lookup_elem in Hi as Hin.
  destruct (wf_resident _ _ _ (cm_pt _ _ (vi_cm _ _ _ Hinv)) _ _ Hin) as ([Hi0 Hi1] & Hpid & _).
  destruct (frame_addr k q i (vi_cm _ _ _ Hinv) Hi1) as (_ & _ & H0 & Htop). cbn in Hpid.
  destruct (swapoutpage_run k pid addr (Z.of_nat i * PAGE_SIZE) j c (vi_quiet _ _ _ Hinv) Hsw ltac:(lia)
    H0 ltac:(unfold MIPS_KSEG0; lia) Hj Hc) as (fs' & Hrun & Hfd & Hvn).
  destruct (frame_written_inv _ k q i (pid, addr) c fs' Hinv Hi ltac:(lia) Hfd Hvn) as (Hinv1 & Hfr & Hct).
  rewrite overlay_full in Hct by (pose proof (length_page_at (k_mem k) (Z.of_nat i * PAGE_SIZE)); lia).
  destruct (swapped_out_wf k pid addr j (Z.of_nat i * PAGE_SIZE) c fs' Hsw Hj Hfd
    (Hvn _ (swap_vnode _ Hsw))) as [Hwf' Hsc].
  set (k' := swapped_out j (Z.of_nat i * PAGE_SIZE) c fs' k) in *.
  assert (∀ key, slot_of key (k_swapmap k') =
    if decide (key = (pid, addr)) then None else slot_of key (k_swapmap k)) as Hslot.
  { intros key. pose proof Hj as (sp & Hl & Ho & Hk)%slot_of_Some; [|apply Hsw].
    rewrite <-Hk. apply slot_of_clear; [apply Hsw|done|done]. }
  exists k'. split_and!; [done| |by destruct Hfr|done|done|done|].
  - destruct Hinv1. split; try done.
    + apply (quiet_same k); [apply Hinv|done].
    + by apply (cm_wf_same (frame_written i c fs' k)).
    + intros key Hkey _. rewrite Hslot. case_decide as Hk; [done|]. apply vi_disj0; congruence.
  - intros key'. rewrite <-Hct. unfold contents. rewrite Hsc.
    destruct (q_lookup key' q) eqn:E; [done|]. rewrite decide_False by congruence.
    unfold swap_contents, frame_written. cbn. by rewrite Hfd.
Qed.

(** ** A frame for a page *)

(** There is a free frame, or a page to evict and a slot to save it in. *)
Definition can_alloc (k : kernel) (q : queue) : Prop :=
  is_Some (first_fit (free_map (pagetable (k_pt k))) 1) ∨
  (q ≠ [] ∧ is_Some (free_slot (k_swapmap k))).

(** The relation between the states around a successful [allocuserpage] *)
Record allocated (key : key) (k : kernel) (q : queue) (i : nat) (k' : kernel) (q' : queue) : Prop := {
  al_inv : vm_inv (Some key) k' q';
  al_lookup : q_lookup key q' = Some i;
  al_frame : frame k k';
  al_procs : k_procs k' = k_procs k;
  al_mem : k_mem k' = k_mem k;
  al_stats : k_stats k' = k_stats k ∨ k_stats k' = stats_incr SWAPWRITE (k_stats k);
  al_tlb va r : 0 ≤ va < MIPS_KSEG0 → translate (k_tlb k') va = Some r → translate (k_tlb k) va = Some r;
  al_lastpid : lastpid (k_tlb k') = lastpid (k_tlb k);
  al_tlbindex : tlbindex (k_tlb k') = tlbindex (k_tlb k);
  al_contents key' : key' ≠ key → contents k' q' key' = contents k q key';
  al_saved : swap_contents k' key = swap_contents k key
}.

Lemma invalpage_fields v t :
  lastpid (tlb_after_invalpage v t) = lastpid t ∧ tlbindex (tlb_after_invalpage v t) = tlbindex t.
Proof. unfold tlb_after_invalpage. by destruct (find_page _ _) as [[]|]. Qed.

(** Users of a queue with a page added at the end *)
Lemma user_keys_app (q : queue) pid addr (i : nat) :
  (∀ key, key ∈ q.*1 → 0 ≤ key.2 < MIPS_KSEG0 ∧ Z.land key.2 PAGE_FRAME = key.2) →
  0 ≤ addr < MIPS_KSEG0 → Z.land addr PAGE_FRAME = addr →
  ∀ key, key ∈ (q ++ [((pid, addr), i)]).*1 →
    0 ≤ key.2 < MIPS_KSEG0 ∧ Z.land key.2 PAGE_FRAME = key.2.
Proof.
  intros H Ha Hal key. rewrite fmap_app. cbn.
  intros [Hin|Heq%list_elem_of_singleton]%elem_of_app; [by apply H|by subst].
Qed.

Lemma allocuserpage_inv_free k q i pid addr :
  vm_inv None k q → 0 < pid → 0 ≤ addr < MIPS_KSEG0 → Z.land addr PAGE_FRAME = addr →
  (pid, addr) ∉ q.*1 → first_fit (free_map (pagetable (k_pt k))) 1 = Some i →
  ∃ k' q', allocuserpage pid addr k = Ok (Z.of_nat i * PAGE_SIZE, k') ∧
    allocated (pid, addr) k q i k' q'.
Proof.
  intros Hinv Hpid Ha Hal Hnew Hfit.
  destruct (allocuserpage_free_run k q i pid addr (vi_quiet _ _ _ Hinv) (vi_cm _ _ _ Hinv) Hfit Hpid Hnew)
    as (st' & Hrun & Hwf & _).
  exists (set_k_pt st' k), (q ++ [((pid, addr), i)]). split; [done|].
  pose proof Hnew as Hnone%q_lookup_None.
  assert (∀ key', key' ≠ (pid, addr) → q_lookup key' (q ++ [((pid, addr), i)]) = q_lookup key' q) as Hq.
  { intros key' Hk. rewrite q_lookup_app. destruct (q_lookup key' q); [done|]. cbn.
    by rewrite decide_False. }
  destruct Hinv. split; try done; [split; try done| |by left|].
  - by apply (quiet_same k).
  - by destruct vi_swap0.
  - intros va pa w Hva Ht. destruct (vi_maps0 va pa w Hva Ht) as (j & Hj & ->). exists j. split; [|done].
    cbn [k_tlb set_k_pt]. by rewrite q_lookup_app, Hj.
  - intros key Hin Hne. apply vi_disj0; [|done]. rewrite fmap_app in Hin. cbn in Hin.
    apply elem_of_app in Hin as [?|Heq%list_elem_of_singleton]; [done|congruence].
  - by apply user_keys_app.
  - rewrite q_lookup_app, Hnone. cbn. by rewrite decide_True.
  - intros key' Hk. unfold contents. by rewrite Hq.
Qed.

(** Evicting the oldest page *)
Lemma allocuserpage_inv_evict k p v i q j pid addr :
  vm_inv None k (((p, v), i) :: q) → 0 < pid → 0 ≤ addr < MIPS_KSEG0 → Z.land addr PAGE_FRAME = addr →
  (pid, addr) ∉ (((p, v), i) :: q).*1 → first_fit (free_map (pagetable (k_pt k))) 1 = None →
  free_slot (k_swapmap k) = Some j →
  ∃ k' q', allocuserpage pid addr k = Ok (Z.of_nat i * PAGE_SIZE, k') ∧
    allocated (pid, addr) k (((p, v), i) :: q) i k' q'.
Proof.
  intros Hinv Hpid Ha Hal Hnew Hfit Hj. cbn in Hnew. apply not_elem_of_cons in Hnew as [Hne Hnew].
  pose proof (vi_swap _ _ _ Hinv) as Hsw. pose proof (vi_cm _ _ _ Hinv) as Hcm.
  destruct (allocuserpage_evict_run k p v i q j pid addr (vi_quiet _ _ _ Hinv) Hcm Hsw
    (vi_stats _ _ _ Hinv) Hfit Hj Hpid Hnew) as (st' & fs' & Hrun & Hwf & _ & Hfd & Hfo & Hvn).
  set (k' := evicted i j (p, v) fs' st' k) in *. set (q' := q ++ [((pid, addr), i)]) in *.
  assert (((p, v), i) ∈ ((p, v), i) :: q) as Hin by set_solver.
  destruct (wf_resident _ _ _ (cm_pt _ _ Hcm) _ _ Hin) as (_ & Hp & _). cbn in Hp.
  assert ((p, v) ∉ q.*1) as Hpv.
  { pose proof (wf_keys _ _ _ (cm_pt _ _ Hcm)) as Hnd. cbn in Hnd. by apply NoDup_cons in Hnd as [? _]. }
  pose proof (vi_user _ _ _ Hinv (p, v) ltac:(set_solver)) as [Hv Hva]. cbn in Hv, Hva.
  pose proof (vi_disj _ _ _ Hinv (p, v) ltac:(set_solver) ltac:(done)) as Hnone.
  destruct (swapped_in_wf k p v j fs' (page_at (k_mem k) (Z.of_nat i * PAGE_SIZE)) Hsw Hj Hnone ltac:(lia)
    (length_page_at _ _) Hfd (Hvn _ (swap_vnode _ Hsw))) as [Hwf1 Hsc].
  assert (∀ key, key ≠ (p, v) → slot_of key (k_swapmap k') = slot_of key (k_swapmap k)) as Hslot.
  { intros key Hk. destruct (free_slot_Some _ _ Hj) as ((sp0 & Hj0 & Hf0) & _).
    etrans; [apply (slot_of_take _ j sp0 (p, v) key (swap_slots _ Hsw) Hnone Hj0); [naive_solver|cbn; lia]|].
    by rewrite decide_False. }
  destruct (invalpage_fields v (k_tlb k)) as [Hlp Hix].
  exists k', q'. split; [done|]. split; try done; [split; try done| | | | |].
  - apply (quiet_same k); [apply Hinv|done].
  - by destruct Hwf1.
  - cbn. unfold stats_incr. rewrite length_alter. apply Hinv.
  - cbn. apply tlb_after_invalpage_wf; [apply Hinv|done].
  - intros va pa w Hva0 Ht. cbn in Ht |- *. rewrite Hlp.
    rewrite translate_after_invalpage in Ht by (apply Hinv || done).
    case_decide as Hpg; [done|]. change TLBHI_VPAGE with PAGE_FRAME in Hpg. rewrite Hva in Hpg.
    destruct (vi_maps _ _ _ Hinv va pa w Hva0 Ht) as (i' & Hi' & ->). exists i'. split; [|done].
    cbn in Hi'. rewrite decide_False in Hi' by congruence. unfold q'. by rewrite q_lookup_app, Hi'.
  - intros key Hkin Hx. unfold q' in Hkin. rewrite fmap_app in Hkin. cbn in Hkin.
    apply elem_of_app in Hkin as [Hkin|Heq%list_elem_of_singleton]; [|congruence].
    rewrite Hslot by congruence. apply (vi_disj _ _ _ Hinv); [set_solver|done].
  - apply user_keys_app; [|done|done]. intros key Hk. apply (vi_user _ _ _ Hinv). set_solver.
  - unfold q'. apply q_lookup_None in Hnew. rewrite q_lookup_app, Hnew. cbn. by rewrite decide_True.
  - by right.
  - intros va r Hva0. cbn. rewrite translate_after_invalpage by (apply Hinv || done). by case_decide.
  - intros key' Hk. unfold contents. unfold q'. rewrite q_lookup_app.
    change (swap_contents k' key') with (swap_contents (swapped_in j p v fs' k) key').
    rewrite Hsc. cbn [q_lookup]. rewrite (decide_False (P := (pid, addr) = key')) by congruence.
    destruct (decide ((p, v) = key')) as [<-|Hkv].
    + apply q_lookup_None in Hpv. rewrite Hpv. by rewrite decide_True.
    + destruct (q_lookup key' q); [done|]. by rewrite decide_False by congruence.
  - change (swap_contents k' (pid, addr)) with (swap_contents (swapped_in j p v fs' k) (pid, addr)).
    rewrite Hsc. by rewrite decide_False by congruence.
Qed.

Lemma allocuserpage_inv k q pid addr :
  vm_inv None k q → 0 < pid → 0 ≤ addr < MIPS_KSEG0 → Z.land addr PAGE_FRAME = addr →
  (pid, addr) ∉ q.*1 → can_alloc k q →
  ∃ i k' q', allocuserpage pid addr k = Ok (Z.of_nat i * PAGE_SIZE, k') ∧
    allocated (pid, addr) k q i k' q'.
Proof.
  intros Hinv Hpid Ha Hal Hnew Hcan.
  destruct (first_fit (free_map (pagetable (k_pt k))) 1) as [i|] eqn:Hfit.
  - exists i. by apply allocuserpage_inv_free.
  - destruct Hcan as [[? ?]|[Hq [j Hj]]]; [congruence|].
    destruct q as [|[[p v] i] q]; [done|]. exists i. by eapply allocuserpage_inv_evict.
Qed.

(** ** Entering the page in the TLB *)
Definition tlb_owned (t : tlbst) (pid : Z) : Prop :=
  lastpid t = pid ∨ ∀ va, 0 ≤ va < MIPS_KSEG0 → translate t va = None.

Lemma frame_land k q i :
  cm_wf k q → (i < length (pagetable (k_pt k)))%nat →
  Z.land (Z.of_nat i * PAGE_SIZE) TLBLO_PPAGE = Z.of_nat i * PAGE_SIZE.
Proof.
  intros Hwf Hi. destruct (frame_addr k q i Hwf Hi) as (_ & _ & H0 & Htop).
  apply land_PAGE_FRAME_id; [unfold PAGE_SIZE in *; lia|]. unfold aligned. by rewrite Z.mod_mul.
Qed.

Lemma vmtlb_write_inv k q pid addr i w :
  vm_inv None k q → q_lookup (pid, addr) q = Some i →
  0 ≤ addr < MIPS_KSEG0 → Z.land addr PAGE_FRAME = addr → translate (k_tlb k) addr = None →
  tlb_owned (k_tlb k) pid → tlbindex (k_tlb k) + 1 < 2 ^ 32 →
  ∃ k', vmtlb_write pid addr (Z.of_nat i * PAGE_SIZE) w k = Ok (0, k') ∧
    vm_inv None k' q ∧ frame k k' ∧ k_procs k' = k_procs k ∧
    k_stats k' = stats_incr (write_stat (k_tlb k)) (k_stats k) ∧
    lastpid (k_tlb k') = pid ∧
    (∀ key, contents k' q key = contents k q key) ∧
    ∀ va, Z.land va PAGE_FRAME = addr →
      translate (k_tlb k') va = Some (Z.of_nat i * PAGE_SIZE + va `mod` PAGE_SIZE, w).
Proof.
  intros Hinv Hi Ha Hal Hmiss Hown Hidx. pose proof (vi_tlb _ _ _ Hinv) as Htw.
  pose proof (vi_cm _ _ _ Hinv) as Hcm.
  apply q_lookup_elem in Hi as Hin.
  destruct (wf_resident _ _ _ (cm_pt _ _ Hcm) _ _ Hin) as ([Hi0 Hi1] & Hpid & _).
  pose proof (frame_land k q i Hcm Hi1) as Hland.
  pose proof (translate_after_write (k_tlb k) pid addr (Z.of_nat i * PAGE_SIZE) w) as Htr.
  rewrite Hland in Htr.
  eexists. split; [by apply vmtlb_write_ok; apply Hinv|]. split_and!; try done.
  - destruct Hinv. split; try done.
    + by apply (quiet_same k).
    + by apply (cm_wf_same k).
    + by destruct vi_swap0.
    + cbn. unfold stats_incr. by rewrite length_alter.
    + by apply tlb_after_write_wf.
    + intros va pa w' Hva Ht. cbn in Ht |- *. rewrite Htr in Ht by done.
      change TLBHI_VPAGE with PAGE_FRAME in Ht. case_decide as Hpg.
      * injection Ht as <- <-. exists i. by rewrite Hpg, Hal.
      * assert (translate (k_tlb k) va = Some (pa, w')) as Ht'.
        { destruct (tlb_entries (k_tlb k) !! _) as [e|]; [|done]. by case_decide. }
        destruct Hown as [<-|Hempty]; [by apply vi_maps0 in Ht'|]. by rewrite Hempty in Ht'.
  - intros va Hva. cbn. rewrite Htr by done. change TLBHI_VPAGE with PAGE_FRAME.
    by rewrite decide_True by congruence.
Qed.
End inv.
