(* ===== verification/VmSpec.v ===== *)
(** * Correctness of page faults ([kern/vm/vm.c], [vm_fault])

    The invariant of an address space says which of its pages exist (have been
    touched); [vm_fault] keeps it, for the current process and for all others. *)

From S2P Require Import Prelude Machine Spinlock Pt PtSpec PtFrames PtTable Kernel Vmstats.
From S2P Require Import Tlb Swapfile Coremap Addrspace Vm VmInv.

(** ** Address spaces *)

Definition seg_end (s : segment) : Z := startaddr s + numpages s * PAGE_SIZE.

Record seg_wf (s : segment) : Prop := {
  sg_pages : 0 < numpages s;
  sg_aligned : aligned (startaddr s);
  sg_start : 0 ≤ startaddr s;
  sg_end : seg_end s ≤ USERSTACK;
  sg_loaded : ∃ l, loadedelf s = Some l ∧ length l = Z.to_nat (numpages s)
}.

(** The code and data segments below the stack, not overlapping *)
Record as_wf (a : addrspace) (s1 s2 st : segment) : Prop := {
  as_seg1 : seg1 a = Some s1;
  as_seg2 : seg2 a = Some s2;
  as_stack : segstack a = Some st;
  as_wf1 : seg_wf s1;
  as_wf2 : seg_wf s2;
  as_wfst : seg_wf st;
  as_kind : stackseg s1 = false ∧ stackseg s2 = false ∧ stackseg st = true;
  as_stackbase : startaddr st = USERSTACK - STACKPAGES * PAGE_SIZE ∧ numpages st = STACKPAGES;
  as_below : seg_end s1 ≤ startaddr st ∧ seg_end s2 ≤ startaddr st;
  as_order : seg_end s1 ≤ startaddr s2 ∨ seg_end s2 ≤ startaddr s1
}.

(** The [n]-th page of segment [w] has been loaded. *)
Definition mark_loaded (w : segid) (n : nat) (a : addrspace) : addrspace :=
  match get_seg w a with
  | Some s =>
      match loadedelf s with
      | Some l => put_seg w (set_loadedelf (Some (<[n := 1]> l)) s) a
      | None => a
      end
  | None => a
  end.

Lemma as_get_seg a s1 s2 st w :
  as_wf a s1 s2 st → ∃ s, get_seg w a = Some s ∧ seg_wf s ∧
    s = match w with Seg1 => s1 | Seg2 => s2 | SegStack => st end.
Proof. intros []. destruct w; eauto. Qed.

(** The end of a segment does not wrap around. *)
Lemma seg_top s : seg_wf s → u32 (startaddr s + u32 (numpages s * PAGE_SIZE)) = seg_end s.
Proof.
  intros [? ? ? ? ?]. unfold seg_end, USERSTACK, USERSPACETOP, MIPS_KSEG0, PAGE_SIZE in *.
  rewrite (u32_id (numpages s * 4096)) by lia. rewrite u32_id; lia.
Qed.

(** A faulting page is a page of the segment found. *)
Lemma fault_segment_inv a s1 s2 st fa w ind :
  as_wf a s1 s2 st → aligned fa → 0 ≤ fa < 2 ^ 32 → fault_segment s1 s2 fa = Some (w, ind) →
  ∃ s, get_seg w a = Some s ∧ 0 ≤ ind < numpages s ∧ fa = startaddr s + ind * PAGE_SIZE ∧
    startaddr s ≤ fa < USERSTACK ∧ fa < seg_end s.
Proof.
  intros [H1 H2 H3 W1 W2 W3 Hkind [Hsb Hsn] [Hb1 Hb2] Hord] Hal Hfa.
  assert (∀ s, seg_wf s → startaddr s ≤ fa < seg_end s →
    0 ≤ (fa - startaddr s) / PAGE_SIZE < numpages s ∧
    fa = startaddr s + (fa - startaddr s) / PAGE_SIZE * PAGE_SIZE ∧
    startaddr s ≤ fa < USERSTACK ∧ fa < seg_end s) as Hin.
  { intros s [Hp Has Hs0 He _] Hr. unfold seg_end, aligned in *.
    assert ((fa - startaddr s) `mod` PAGE_SIZE = 0) as Hm by (rewrite Zminus_mod, Hal, Has; done).
    pose proof (Z.div_mod (fa - startaddr s) PAGE_SIZE ltac:(done)). unfold PAGE_SIZE in *. lia. }
  unfold fault_segment. rewrite !seg_top by done. rewrite <-Hsb.
  destruct ((startaddr s1 <=? fa) && (fa <? seg_end s1)) eqn:E1;
    [|destruct ((startaddr s2 <=? fa) && (fa <? seg_end s2)) eqn:E2;
      [|destruct ((startaddr st <=? fa) && (fa <? USERSTACK)) eqn:E3; [|done]]];
    intros [= <- <-].
  - apply andb_true_iff in E1 as [?%Z.leb_le ?%Z.ltb_lt]. exists s1. split; [done|]. by apply Hin.
  - apply andb_true_iff in E2 as [?%Z.leb_le ?%Z.ltb_lt]. exists s2. split; [done|]. by apply Hin.
  - apply andb_true_iff in E3 as [?%Z.leb_le ?%Z.ltb_lt]. exists st. split; [done|].
    apply Hin; [done|]. unfold seg_end. rewrite Hsb, Hsn. lia.
Qed.

Section elf.
Context {ops : VnodeOps} {laws : VnodeLaws ops}.

(** The program file of a segment is readable and is not the swap file; it may
    end before the segment does. *)
Definition elf_ok (k : kernel) (s : segment) : Prop :=
  ∃ vn, elfdata s = Some vn ∧ vn ≠ k_swapfile k ∧ vnode_ok (k_fs k) vn ∧ 0 ≤ elfoffset s.

(** The bytes of the program file for the page at [va] of a segment: fewer than
    a page, or none, where the file ends *)
Definition file_bytes (k : kernel) (s : segment) (va : Z) : list Z :=
  file_read (va - startaddr s + elfoffset s) PAGE_SIZE (file_data (k_fs k) (default 0 (elfdata s))).

(** The segment [readfromelfto] takes the page from: its own, but the first one
    if the page is just behind that one *)
Definition source_seg (a : addrspace) (s : segment) (va : Z) : segment :=
  match seg1 a with
  | Some s1 => if decide (va = seg_end s1) then s1 else s
  | None => s
  end.

(** What is written to the frame of a page when it is first touched: zeros if
    it is on the stack, or the bytes of the program file *)
Definition initial_bytes (k : kernel) (a : addrspace) (s : segment) (va : Z) : list Z :=
  if stackseg s then replicate (Z.to_nat PAGE_SIZE) 0 else file_bytes k (source_seg a s va) va.

(** What the page then holds, in a frame that held [old] *)
Definition initial_page (k : kernel) (a : addrspace) (s : segment) (va : Z) (old : list Z) : list Z :=
  overlay (initial_bytes k a s va) old.

Lemma elf_ok_frame k k' s : frame k k' → elf_ok k s → elf_ok k' s.
Proof.
  intros Hfr (vn & He & Hne & Hv & Ho). exists vn.
  rewrite (fr_swapfile _ _ Hfr). pose proof (fr_vnode _ _ Hfr vn Hv). auto.
Qed.

Lemma file_bytes_frame k k' s va : frame k k' → elf_ok k s → file_bytes k' s va = file_bytes k s va.
Proof. intros Hfr (vn & He & Hne & _). unfold file_bytes. rewrite He. cbn. by rewrite (fr_files _ _ Hfr). Qed.

Lemma initial_bytes_length k a s va : Z.of_nat (length (initial_bytes k a s va)) ≤ PAGE_SIZE.
Proof.
  unfold initial_bytes. destruct (stackseg s); [by rewrite length_replicate|]. by apply length_file_read_le.
Qed.

(** Reading one page of a segment into a frame *)
Lemma read_seg_page_run k q i s va :
  cm_wf k q → (i < length (pagetable (k_pt k)))%nat → seg_wf s → elf_ok k s →
  startaddr s ≤ va ≤ seg_end s →
  ∃ fs', read_seg_page s va (Z.of_nat i * PAGE_SIZE) k =
      Ok (0, frame_written i (file_bytes k s va) fs' k) ∧
    (∀ w, file_data fs' w = file_data (k_fs k) w) ∧ (∀ w, vnode_ok (k_fs k) w → vnode_ok fs' w).
Proof.
  intros Hcm Hi Hwf (vn & He & Hne & Hv & Ho) Hva.
  destruct (frame_addr k q i Hcm Hi) as (_ & _ & H0 & Htop).
  destruct (kvaddr_eq (Z.of_nat i * PAGE_SIZE) H0 ltac:(unfold MIPS_KSEG0; lia)) as [Hkv Hkb].
  destruct (vop_read_law vn (PADDR_TO_KVADDR (Z.of_nat i * PAGE_SIZE)) PAGE_SIZE
    (va - startaddr s + elfoffset s) (k_mem k) (k_fs k) Hv Hkb ltac:(lia))
    as (u' & fs' & Hr & _ & Hd & Hvn).
  rewrite Hkv, Z.add_simpl_r, <-Hkv in Hr.
  exists fs'. split; [|done]. unfold read_seg_page. rewrite He.
  rewrite (bind_ok _ _ _ vn k) by done.
  pose proof (sg_end _ Hwf). pose proof (sg_start _ Hwf).
  rewrite (u32_id (va - startaddr s)) by (unfold USERSTACK, USERSPACETOP, MIPS_KSEG0 in *; lia).
  rewrite (bind_ok _ _ _ (0, u') (frame_written i (file_bytes k s va) fs' k)); [done|].
  unfold VOP_READ. rewrite Hr. unfold frame_written, file_bytes. by rewrite He.
Qed.

Lemma in_elf_seg_spec s va : seg_wf s → in_elf_seg s va = true ↔ startaddr s ≤ va ≤ seg_end s.
Proof.
  intros [? ? ? ? ?]. unfold in_elf_seg, seg_end, USERSTACK, USERSPACETOP, MIPS_KSEG0, PAGE_SIZE in *.
  rewrite (u32_id (numpages s * 4096)), u32_id by lia.
  rewrite andb_true_iff, !Z.leb_le. lia.
Qed.

Lemma readfromelfto_run k q i a s1 s2 st w s va :
  cm_wf k q → (i < length (pagetable (k_pt k)))%nat → as_wf a s1 s2 st →
  elf_ok k s1 → elf_ok k s2 → get_seg w a = Some s → w ≠ SegStack →
  startaddr s ≤ va < seg_end s →
  ∃ fs', readfromelfto a va (Z.of_nat i * PAGE_SIZE) k =
      Ok (tt, frame_written i (file_bytes k (source_seg a s va) va) fs' k) ∧
    (∀ w, file_data fs' w = file_data (k_fs k) w) ∧ (∀ w, vnode_ok (k_fs k) w → vnode_ok fs' w).
Proof.
  intros Hcm Hi Has He1 He2 Hs Hw Hva. destruct Has as [H1 H2 H3 W1 W2 W3 _ _ _ Hord].
  unfold readfromelfto, source_seg. change (Z.land (Z.of_nat i * PAGE_SIZE) PAGE_FRAME)
    with (Z.land (Z.of_nat i * PAGE_SIZE) TLBLO_PPAGE). rewrite (frame_land k q i Hcm Hi).
  rewrite H1. rewrite (bind_ok _ _ _ s1 k) by done.
  assert ((if decide (va = seg_end s1) then s1 else s) = (if in_elf_seg s1 va then s1 else s)) as ->.
  { destruct (in_elf_seg s1 va) eqn:E; case_decide as Hd; try done.
    - apply in_elf_seg_spec in E; [|done]. destruct w; cbn in Hs; [congruence| |done]. assert (s2 = s) as -> by congruence.
      pose proof (sg_pages _ W1). unfold seg_end, PAGE_SIZE in *. lia.
    - assert (in_elf_seg s1 va = true) as E'; [|congruence]. apply in_elf_seg_spec; [done|]. pose proof (sg_pages _ W1).
      unfold seg_end, PAGE_SIZE in *. lia. }
  destruct (in_elf_seg s1 va) eqn:E.
  - apply in_elf_seg_spec in E; [|done]. destruct (read_seg_page_run k q i s1 va Hcm Hi W1 He1 E) as (fs' & Hrun & Hrest).
    exists fs'. split; [|done]. by run_with Hrun.
  - assert (s2 = s) as ->.
    { destruct w; cbn in Hs; [|congruence|done]. assert (s1 = s) as -> by congruence. exfalso.
      assert (in_elf_seg s va = true) as E'; [|congruence]. apply in_elf_seg_spec; [done|lia]. }
    destruct (read_seg_page_run k q i s va Hcm Hi W2 He2 ltac:(lia)) as (fs' & Hrun & Hrest). exists fs'. split; [|done].
    rewrite (bind_ok _ _ _ 0 (frame_written i (file_bytes k s va) fs' k)); [done|].
    rewrite H2, (bind_ok _ _ _ s k) by done. by rewrite (proj2 (in_elf_seg_spec s va W2)) by lia.
Qed.

(** Zeroing a frame *)
Lemma as_zero_region_run k q i :
  cm_wf k q → (i < length (pagetable (k_pt k)))%nat →
  as_zero_region (Z.of_nat i * PAGE_SIZE) PAGE_SIZE k =
    Ok (tt, frame_written i (replicate (Z.to_nat PAGE_SIZE) 0) (k_fs k) k).
Proof.
  intros Hcm Hi. destruct (frame_addr k q i Hcm Hi) as (_ & _ & H0 & Htop).
  destruct (kvaddr_eq (Z.of_nat i * PAGE_SIZE) H0 ltac:(unfold MIPS_KSEG0; lia)) as [Hkv _].
  unfold as_zero_region, modify. rewrite Hkv, Z.add_simpl_r. by destruct k.
Qed.
End elf.

Section load.
Context {ops : VnodeOps} {laws : VnodeLaws ops}.

(** A page of the process exists (resident or saved) exactly when it is marked. *)
Definition loaded_ok (k : kernel) (q : queue) (pid : Z) (a : addrspace) : Prop :=
  ∀ w s l n b, get_seg w a = Some s → loadedelf s = Some l → l !! n = Some b →
    (b = 0 ∨ b = 1) ∧
    (b = 1 ↔ is_Some (contents k q (pid, startaddr s + Z.of_nat n * PAGE_SIZE))).

Lemma vm_inv_procs x k q m : vm_inv x k q → vm_inv x (set_k_procs m k) q.
Proof.
  intros [? ? Hsw ? ? ? ? ?]. split; try done.
  - by apply (quiet_same k).
  - by apply (cm_wf_same k).
  - by destruct Hsw.
Qed.

Lemma vm_inv_weaken key k q :
  vm_inv (Some key) k q → slot_of key (k_swapmap k) = None → vm_inv None k q.
Proof.
  intros [] Hs. split; try done. intros key' Hin _. destruct (decide (key' = key)) as [->|]; [done|].
  apply vi_disj; congruence.
Qed.

(** [seg->loadedelf[ind]] of a process *)
Lemma proc_seg_ok k c p a w s :
  k_procs k !! c = Some p → p_addrspace p = Some a → get_seg w a = Some s → proc_seg c w k = Ok (s, k).
Proof.
  intros Hp Ha Hs. unfold proc_seg. run_with (get_proc_ok k c p Hp). rewrite Ha.
  rewrite (bind_ok _ _ _ a k) by done. by rewrite Hs.
Qed.

Lemma get_loaded_ok k c p a w s l ind b :
  k_procs k !! c = Some p → p_addrspace p = Some a → get_seg w a = Some s →
  loadedelf s = Some l → l !! Z.to_nat ind = Some b → get_loaded c w ind k = Ok (b, k).
Proof.
  intros Hp Ha Hs Hl Hb. unfold get_loaded. run_with (proc_seg_ok k c p a w s Hp Ha Hs). rewrite Hl.
  rewrite (bind_ok _ _ _ l k) by done. by rewrite Hb.
Qed.

Definition marked (c : nat) (p : proc) (w : segid) (n : nat) (a : addrspace) (k : kernel) : kernel :=
  set_k_procs (<[c := set_p_addrspace (Some (mark_loaded w n a)) p]> (k_procs k)) k.

Lemma set_loaded_ok k c p a w s l ind b :
  k_procs k !! c = Some p → p_addrspace p = Some a → get_seg w a = Some s →
  loadedelf s = Some l → l !! Z.to_nat ind = Some b →
  set_loaded c w ind k = Ok (tt, marked c p w (Z.to_nat ind) a k).
Proof.
  intros Hp Ha Hs Hl Hb. unfold set_loaded. run_with (get_proc_ok k c p Hp). rewrite Ha.
  rewrite (bind_ok _ _ _ a k) by done. rewrite Hs. rewrite (bind_ok _ _ _ s k) by done. rewrite Hl.
  rewrite (bind_ok _ _ _ l k) by done. rewrite decide_True by (by eapply lookup_lt_Some).
  unfold marked, mark_loaded. by rewrite Hs, Hl.
Qed.

(** Marking a page again changes nothing. *)
Lemma mark_loaded_id w n a s l :
  get_seg w a = Some s → loadedelf s = Some l → l !! n = Some 1 → mark_loaded w n a = a.
Proof.
  intros Hs Hl Hn. unfold mark_loaded. rewrite Hs, Hl, list_insert_id by done.
  destruct a, s. cbn in Hl. subst. by destruct w; cbn in Hs; subst.
Qed.

(** The counters a page fault increments, latest first: where the page came
    from, after a write to the swap file if a page was evicted. *)
Definition evict_events (l : list nat) : Prop := l = [] ∨ l = [SWAPWRITE].
Inductive page_events : list nat → Prop :=
  | ev_reload : page_events [TLBRELOAD]
  | ev_swap l : evict_events l → page_events (PAGEFAULTSWAP :: PAGEFAULTDISK :: l)
  | ev_elf l : evict_events l → page_events (PAGEFAULTELF :: PAGEFAULTDISK :: l)
  | ev_zero l : evict_events l → page_events (PAGEFAULTZERO :: l).

(** What a fault does to the page and to the rest, before the TLB is written *)
Record page_in (c : nat) (p : proc) (a : addrspace) (w : segid) (s : segment) (n : nat)
    (key : key) (k : kernel) (q : queue) (i : nat) (k' : kernel) (q' : queue) : Prop := {
  pi_inv : vm_inv None k' q';
  pi_lookup : q_lookup key q' = Some i;
  pi_frame : frame k k';
  pi_procs : k_procs k' = <[c := set_p_addrspace (Some (mark_loaded w n a)) p]> (k_procs k);
  pi_tlb va r : 0 ≤ va < MIPS_KSEG0 → translate (k_tlb k') va = Some r → translate (k_tlb k) va = Some r;
  pi_lastpid : lastpid (k_tlb k') = lastpid (k_tlb k);
  pi_tlbindex : tlbindex (k_tlb k') = tlbindex (k_tlb k);
  pi_others key' : key' ≠ key → contents k' q' key' = contents k q key';
  pi_page : contents k' q' key =
    Some (default (initial_page k a s key.2 (page_at (k_mem k) (Z.of_nat i * PAGE_SIZE))) (contents k q key));
  pi_stats : ∃ evs, page_events evs ∧ k_stats k' = counted evs (k_stats k)
}.
End load.

Section load_page.
Context {ops : VnodeOps} {laws : VnodeLaws ops}.
Context (c : nat) (p : proc) (a : addrspace) (s1 s2 st : segment) (w : segid) (s : segment).
Context (k : kernel) (q : queue) (pid ind fa : Z) (l : list Z) (b : Z).
Context (Hinv : vm_inv None k q) (Hp : k_procs k !! c = Some p) (Ha : p_addrspace p = Some a).
Context (Has : as_wf a s1 s2 st) (He1 : elf_ok k s1) (He2 : elf_ok k s2) (Hlo : loaded_ok k q pid a).
Context (Hs : get_seg w a = Some s) (Hl : loadedelf s = Some l) (Hb : l !! Z.to_nat ind = Some b).
Context (Hind : 0 ≤ ind < numpages s) (Hfa : fa = startaddr s + ind * PAGE_SIZE).
Context (Hnew : (pid, fa) ∉ q.*1).

(** A page that is not resident is in the swap file exactly when it is marked. *)
Lemma absent_contents : contents k q (pid, fa) = swap_contents k (pid, fa).
Proof. unfold contents. apply q_lookup_None in Hnew. by rewrite Hnew. Qed.

Lemma loaded_flag : (b = 0 ∧ swap_contents k (pid, fa) = None) ∨
  (b = 1 ∧ is_Some (swap_contents k (pid, fa))).
Proof.
  destruct (Hlo w s l (Z.to_nat ind) b Hs Hl Hb) as [Hb01 Hiff].
  rewrite Z2Nat.id, <-Hfa, absent_contents in Hiff by lia.
  destruct Hb01 as [->| ->]; [left|right; naive_solver]. split; [done|].
  destruct (swap_contents k (pid, fa)) eqn:E; [|done]. exfalso.
  assert (0 = 1) by (apply Hiff; eauto). lia.
Qed.

Lemma segment_page : startaddr s ≤ fa < seg_end s ∧ fa + PAGE_SIZE ≤ seg_end s.
Proof. unfold seg_end, PAGE_SIZE in *. nia. Qed.

Lemma segment_elf : stackseg s = true ∧ w = SegStack ∨ stackseg s = false ∧ elf_ok k s ∧ w ≠ SegStack.
Proof.
  destruct Has as [H1 H2 H3 _ _ _ (K1 & K2 & K3) _ _ _]. destruct w; cbn in Hs.
  - right. assert (s = s1) as -> by congruence. done.
  - right. assert (s = s2) as -> by congruence. done.
  - left. assert (s = st) as -> by congruence. done.
Qed.

Lemma allocated_events i k1 q1 key :
  allocated key k q i k1 q1 → ∃ evs, evict_events evs ∧ k_stats k1 = counted evs (k_stats k).
Proof.
  intros [_ _ _ _ _ [Hst|Hst] _ _ _ _ _]; [exists []|exists [SWAPWRITE]]; (split; [|done]);
    unfold evict_events; auto.
Qed.

(** The first touch: the frame gets the initial contents, the page is marked. *)
Lemma first_touch i k1 q1 fs evs new :
  allocated (pid, fa) k q i k1 q1 → swap_contents k (pid, fa) = None →
  (∀ v, file_data fs v = file_data (k_fs k1) v) → (∀ v, vnode_ok (k_fs k1) v → vnode_ok fs v) →
  page_events (new ++ evs) → k_stats k1 = counted evs (k_stats k) →
  let k2 := marked c p w (Z.to_nat ind) a (frame_written i (initial_bytes k a s fa) fs k1) in
  vm_inv None k2 q1 ∧
  ∀ k3, (∀ v : list Z, k3 = set_k_stats v k2 → vm_inv None k3 q1 → k_stats k3 = counted (new ++ evs) (k_stats k) →
    page_in c p a w s (Z.to_nat ind) (pid, fa) k q i k3 q1).
Proof.
  intros Hal Hnone Hfd Hvn Hev Hst k2.
  pose proof (al_inv _ _ _ _ _ _ Hal) as Hinv1. pose proof (al_lookup _ _ _ _ _ _ Hal) as Hi.
  pose proof (al_frame _ _ _ _ _ _ Hal) as Hfr1.
  destruct (frame_written_inv _ k1 q1 i (pid, fa) (initial_bytes k a s fa) fs Hinv1 Hi (initial_bytes_length _ _ _ _) Hfd Hvn)
    as (Hinv2 & Hfr2 & Hct2).
  assert (slot_of (pid, fa) (k_swapmap k1) = None) as Hslot.
  { pose proof (al_saved _ _ _ _ _ _ Hal) as Hsv. rewrite Hnone in Hsv. unfold swap_contents in Hsv.
    by apply fmap_None in Hsv. }
  split; [by apply vm_inv_procs, (vm_inv_weaken (pid, fa))|].
  intros k3 v -> Hinv3 Hst3. split; try done.
  - eapply frame_trans; [exact Hfr1|]. by destruct Hfr2.
  - cbn. by rewrite (al_procs _ _ _ _ _ _ Hal).
  - apply (al_tlb _ _ _ _ _ _ Hal).
  - apply (al_lastpid _ _ _ _ _ _ Hal).
  - apply (al_tlbindex _ _ _ _ _ _ Hal).
  - intros key' Hk. rewrite <-(al_contents _ _ _ _ _ _ Hal key' Hk).
    etrans; [apply (Hct2 key')|]. by rewrite decide_False.
  - rewrite absent_contents, Hnone. cbn. etrans; [apply (Hct2 (pid, fa))|]. rewrite decide_True by done.
    by rewrite (al_mem _ _ _ _ _ _ Hal).
  - eauto.
Qed.

Context (Hpid : 0 < pid) (Hfa0 : 0 ≤ fa < MIPS_KSEG0) (Hfal : Z.land fa PAGE_FRAME = fa).
Context (Hcan : can_alloc k q).

(** One more counter *)
Lemma count_one k1 q1 e :
  vm_inv None k1 q1 → (e < VMSTATSLEN)%nat →
  vmstatincr e k1 = Ok (tt, set_k_stats (stats_incr e (k_stats k1)) k1) ∧
  vm_inv None (set_k_stats (stats_incr e (k_stats k1)) k1) q1.
Proof. intros H1 H2. by destruct (vmstatincr_inv None k1 q1 e H1 H2) as (? & ? & _). Qed.

(** The page is in the swap file. *)
Lemma load_swapped i k1 q1 :
  allocated (pid, fa) k q i k1 q1 → is_Some (swap_contents k (pid, fa)) → b = 1 →
  ∃ k2, (swapoutpage pid fa (Z.of_nat i * PAGE_SIZE) ;; vmstatincr PAGEFAULTDISK ;;
         vmstatincr PAGEFAULTSWAP) k1 = Ok (tt, k2) ∧
    page_in c p a w s (Z.to_nat ind) (pid, fa) k q i k2 q1.
Proof.
  intros Hal [cc Hcc] Hb1. destruct (allocated_events _ _ _ _ Hal) as (evs & Hev & Hst).
  pose proof (al_saved _ _ _ _ _ _ Hal) as Hsv. rewrite Hcc in Hsv.
  destruct (swapoutpage_inv k1 q1 i pid fa cc (al_inv _ _ _ _ _ _ Hal) (al_lookup _ _ _ _ _ _ Hal) Hsv)
    as (k2 & Hrun & Hinv2 & Hfr2 & Hpr2 & Hst2 & Htlb2 & Hct2).
  destruct (count_one k2 q1 PAGEFAULTDISK Hinv2 ltac:(cbv; lia)) as [Hrun3 Hinv3].
  destruct (count_one _ q1 PAGEFAULTSWAP Hinv3 ltac:(cbv; lia)) as [Hrun4 Hinv4].
  eexists. split; [run_with Hrun; run_with Hrun3; exact Hrun4|].
  split; try done.
  - apply Hal.
  - eapply frame_trans; [apply Hal|]. by destruct Hfr2.
  - cbn. rewrite Hpr2, (al_procs _ _ _ _ _ _ Hal). rewrite (mark_loaded_id w _ a s l) by congruence.
    rewrite insert_id; [done|]. rewrite Hp. f_equal. rewrite <-Ha. by destruct p.
  - intros va r Hva. cbn. rewrite Htlb2. by apply (al_tlb _ _ _ _ _ _ Hal).
  - cbn. rewrite Htlb2. apply Hal.
  - cbn. rewrite Htlb2. apply Hal.
  - intros key' Hk. rewrite <-(al_contents _ _ _ _ _ _ Hal key' Hk). etrans; [apply (Hct2 key')|].
    by rewrite decide_False.
  - rewrite absent_contents, Hcc. etrans; [apply (Hct2 (pid, fa))|]. by rewrite decide_True.
  - exists (PAGEFAULTSWAP :: PAGEFAULTDISK :: evs). split; [by constructor|].
    cbn [k_stats set_k_stats]. by rewrite Hst2, Hst.
Qed.

(** The page comes from the program file. *)
Lemma load_from_elf i k1 q1 :
  allocated (pid, fa) k q i k1 q1 → swap_contents k (pid, fa) = None → stackseg s = false →
  ∃ k2, (readfromelfto a fa (Z.of_nat i * PAGE_SIZE) ;; set_loaded c w ind ;;
         vmstatincr PAGEFAULTDISK ;; vmstatincr PAGEFAULTELF) k1 = Ok (tt, k2) ∧
    page_in c p a w s (Z.to_nat ind) (pid, fa) k q i k2 q1.
Proof.
  intros Hal Hnone Hss. destruct (allocated_events _ _ _ _ Hal) as (evs & Hev & Hst).
  pose proof (al_frame _ _ _ _ _ _ Hal) as Hfr1. pose proof segment_page as [Hr Hr'].
  destruct segment_elf as [[? _]|(_ & Hse & Hw)]; [congruence|].
  pose proof (vi_cm _ _ _ (al_inv _ _ _ _ _ _ Hal)) as Hcm1.
  pose proof (al_lookup _ _ _ _ _ _ Hal) as Hi%q_lookup_elem.
  destruct (wf_resident _ _ _ (cm_pt _ _ Hcm1) _ _ Hi) as ([_ Hi1] & _ & _).
  destruct (readfromelfto_run k1 q1 i a s1 s2 st w s fa Hcm1 Hi1 Has (elf_ok_frame _ _ _ Hfr1 He1)
    (elf_ok_frame _ _ _ Hfr1 He2) Hs Hw Hr) as (fs & Hrun & Hfd & Hvn).
  assert (file_bytes k1 (source_seg a s fa) fa = initial_bytes k a s fa) as Hib.
  { unfold initial_bytes. rewrite Hss. apply file_bytes_frame; [done|]. unfold source_seg. rewrite (as_seg1 _ _ _ _ Has).
    by case_decide. }
  rewrite Hib in Hrun.
  destruct (first_touch i k1 q1 fs evs [PAGEFAULTELF; PAGEFAULTDISK] Hal Hnone Hfd Hvn
    ltac:(by constructor) Hst) as [Hinv2 Hfin].
  set (k2 := marked c p w (Z.to_nat ind) a (frame_written i (initial_bytes k a s fa) fs k1)) in *.
  destruct (count_one k2 q1 PAGEFAULTDISK Hinv2 ltac:(cbv; lia)) as [Hrun3 Hinv3].
  destruct (count_one _ q1 PAGEFAULTELF Hinv3 ltac:(cbv; lia)) as [Hrun4 Hinv4].
  eexists. split.
  - run_with Hrun.
    rewrite (bind_ok _ _ _ tt k2); [run_with Hrun3; exact Hrun4|].
    apply (set_loaded_ok _ c p a w s l ind b); try done. cbn. by rewrite (al_procs _ _ _ _ _ _ Hal).
  - eapply Hfin; [done|done|]. cbn [k_stats set_k_stats k2 marked set_k_procs frame_written set_k_mem
      set_k_fs]. by rewrite Hst.
Qed.

(** A stack page starts with zeros. *)
Lemma load_zero i k1 q1 :
  allocated (pid, fa) k q i k1 q1 → swap_contents k (pid, fa) = None → stackseg s = true →
  ∃ k2, (as_zero_region (Z.of_nat i * PAGE_SIZE) PAGE_SIZE ;; set_loaded c w ind ;;
         vmstatincr PAGEFAULTZERO) k1 = Ok (tt, k2) ∧
    page_in c p a w s (Z.to_nat ind) (pid, fa) k q i k2 q1.
Proof.
  intros Hal Hnone Hss. destruct (allocated_events _ _ _ _ Hal) as (evs & Hev & Hst).
  pose proof (vi_cm _ _ _ (al_inv _ _ _ _ _ _ Hal)) as Hcm1.
  pose proof (al_lookup _ _ _ _ _ _ Hal) as Hi%q_lookup_elem.
  destruct (wf_resident _ _ _ (cm_pt _ _ Hcm1) _ _ Hi) as ([_ Hi1] & _ & _).
  pose proof (as_zero_region_run k1 q1 i Hcm1 Hi1) as Hrun.
  assert (initial_bytes k a s fa = replicate (Z.to_nat PAGE_SIZE) 0) as Hz
    by (unfold initial_bytes; by rewrite Hss). rewrite <-Hz in Hrun.
  destruct (first_touch i k1 q1 (k_fs k1) evs [PAGEFAULTZERO] Hal Hnone ltac:(done) ltac:(done)
    ltac:(by constructor) Hst) as [Hinv2 Hfin].
  set (k2 := marked c p w (Z.to_nat ind) a (frame_written i (initial_bytes k a s fa) (k_fs k1) k1)) in *.
  destruct (count_one k2 q1 PAGEFAULTZERO Hinv2 ltac:(cbv; lia)) as [Hrun3 Hinv3].
  eexists. split.
  - run_with Hrun.
    rewrite (bind_ok _ _ _ tt k2); [exact Hrun3|].
    apply (set_loaded_ok _ c p a w s l ind b); try done. cbn. by rewrite (al_procs _ _ _ _ _ _ Hal).
  - eapply Hfin; [done|done|]. cbn [k_stats set_k_stats k2 marked set_k_procs frame_written set_k_mem
      set_k_fs]. by rewrite Hst.
Qed.

Lemma load_fault_page_run :
  ∃ i k' q', load_fault_page c a w ind pid fa k = Ok (Z.of_nat i * PAGE_SIZE, k') ∧
    page_in c p a w s (Z.to_nat ind) (pid, fa) k q i k' q'.
Proof.
  destruct (allocuserpage_inv k q pid fa Hinv Hpid Hfa0 Hfal Hnew Hcan) as (i & k1 & q1 & Hrun & Hal).
  exists i. unfold load_fault_page. run_with Hrun.
  assert (k_procs k1 !! c = Some p) as Hp1 by (by rewrite (al_procs _ _ _ _ _ _ Hal)).
  run_with (get_loaded_ok k1 c p a w s l ind b Hp1 Ha Hs Hl Hb).
  run_with (proc_seg_ok k1 c p a w s Hp1 Ha Hs).
  destruct loaded_flag as [[Hb0 Hnone]|[Hb1 Hsome]]; [rewrite Hb0|rewrite Hb1].
  - change (0 =? 1) with false. change (0 =? 0) with true. cbv iota. rewrite !andb_true_r.
    destruct (stackseg s) eqn:Hss; cbn [negb].
    + destruct (load_zero i k1 q1 Hal Hnone Hss) as (k2 & Hr2 & Hpi). exists k2, q1. by run_with Hr2.
    + destruct (load_from_elf i k1 q1 Hal Hnone Hss) as (k2 & Hr2 & Hpi). exists k2, q1. by run_with Hr2.
  - change (1 =? 1) with true. cbv iota.
    destruct (load_swapped i k1 q1 Hal Hsome Hb1) as (k2 & Hr2 & Hpi). exists k2, q1. by run_with Hr2.
Qed.
End load_page.

(** ** Marking keeps the shape of the address space *)

(** Distinct pages of an address space have distinct addresses. *)
Lemma page_unique a s1 s2 st w s n w' s' n' :
  as_wf a s1 s2 st → get_seg w a = Some s → get_seg w' a = Some s' →
  0 ≤ n < numpages s → 0 ≤ n' < numpages s' →
  startaddr s + n * PAGE_SIZE = startaddr s' + n' * PAGE_SIZE → w = w' ∧ n = n'.
Proof.
  intros [H1 H2 H3 W1 W2 W3 Hkind [Hsb Hsn] [Hb1 Hb2] Hord] Hs Hs' Hn Hn' Heq.
  assert (w = w') as ->.
  { unfold seg_end, PAGE_SIZE in *. destruct w, w'; cbn in Hs, Hs'; try done; exfalso;
      rewrite ?H1, ?H2, ?H3 in *; simplify_eq; nia. }
  split; [done|]. rewrite Hs in Hs'. injection Hs' as <-. unfold PAGE_SIZE in *. lia.
Qed.

Lemma fault_segment_complete a s1 s2 st w s n :
  as_wf a s1 s2 st → get_seg w a = Some s → 0 ≤ n < numpages s →
  fault_segment s1 s2 (startaddr s + n * PAGE_SIZE) = Some (w, n).
Proof.
  intros Has Hs Hn. pose proof Has as [H1 H2 H3 W1 W2 W3 Hkind [Hsb Hsn] [Hb1 Hb2] Hord].
  set (fa := startaddr s + n * PAGE_SIZE).
  assert (aligned fa) as Hal.
  { destruct (as_get_seg _ _ _ _ w Has) as (s' & Hs' & [? Ha ? ? ?] & _). rewrite Hs in Hs'.
    injection Hs' as <-. unfold fa, aligned in *. by rewrite Z.mod_add. }
  assert (0 ≤ fa < USERSTACK ∧ startaddr s ≤ fa < seg_end s) as [Hr Hr'].
  { destruct (as_get_seg _ _ _ _ w Has) as (s' & Hs' & [? Ha ? ? ?] & _). rewrite Hs in Hs'.
    injection Hs' as <-. unfold fa, seg_end, PAGE_SIZE in *. nia. }
  destruct (fault_segment s1 s2 fa) as [[w' n']|] eqn:E.
  - destruct (fault_segment_inv a s1 s2 st fa w' n' Has Hal) as (s' & Hs' & Hn' & Heq & _); [|done|].
    { unfold USERSTACK, USERSPACETOP, MIPS_KSEG0 in Hr. lia. }
    by destruct (page_unique a s1 s2 st w s n w' s' n' Has Hs Hs' Hn Hn' Heq) as [-> ->].
  - exfalso. unfold fault_segment in E.
    rewrite !seg_top in E by done. rewrite <-Hsb in E.
    destruct ((startaddr s1 <=? fa) && (fa <? seg_end s1)) eqn:E1; [done|].
    destruct ((startaddr s2 <=? fa) && (fa <? seg_end s2)) eqn:E2; [done|].
    destruct ((startaddr st <=? fa) && (fa <? USERSTACK)) eqn:E3; [done|].
    apply andb_false_iff in E1, E2, E3. rewrite Z.leb_gt, Z.ltb_ge in E1, E2, E3.
    destruct w; cbn in Hs; rewrite ?H1, ?H2, ?H3 in Hs; injection Hs as ->; lia.
Qed.

Lemma get_put_seg w s a : get_seg w (put_seg w s a) = Some s.
Proof. by destruct w. Qed.
Lemma get_put_seg_ne w w' s a : w' ≠ w → get_seg w' (put_seg w s a) = get_seg w' a.
Proof. by destruct w, w'. Qed.

(** The pages of the marked address space *)
Lemma mark_loaded_seg w n a w' s' :
  get_seg w' (mark_loaded w n a) = Some s' →
  ∃ s, get_seg w' a = Some s ∧ s' = set_loadedelf (loadedelf s') s ∧
    loadedelf s' = if decide (w' = w) then (insert n 1) <$> loadedelf s else loadedelf s.
Proof.
  unfold mark_loaded. destruct (get_seg w a) as [s|] eqn:Hs; [destruct (loadedelf s) as [l|] eqn:Hl|].
  - destruct (decide (w' = w)) as [->|Hne].
    + rewrite get_put_seg. intros [= <-]. exists s. by rewrite Hs, Hl.
    + rewrite get_put_seg_ne by done. intros Hs'. exists s'. by destruct s'.
  - intros Hs'. exists s'. split; [done|]. split; [by destruct s'|].
    destruct (decide (w' = w)) as [->|]; [|done]. rewrite Hs in Hs'. injection Hs' as <-. by rewrite Hl.
  - intros Hs'. exists s'. split; [done|]. split; [by destruct s'|].
    destruct (decide (w' = w)) as [->|]; [|done]. congruence.
Qed.

Lemma seg_wf_mark s l' :
  seg_wf s → (∀ l, loadedelf s = Some l → length l' = length l) → seg_wf (set_loadedelf (Some l') s).
Proof.
  intros [? ? ? ? (l & Hl & Hlen)] H. split; try done. exists l'. split; [done|]. by rewrite (H l Hl), Hlen.
Qed.

Lemma as_wf_mark a s1 s2 st w s l n :
  as_wf a s1 s2 st → get_seg w a = Some s → loadedelf s = Some l →
  ∃ s1' s2' st', as_wf (mark_loaded w n a) s1' s2' st' ∧
    s1' = set_loadedelf (loadedelf s1') s1 ∧ s2' = set_loadedelf (loadedelf s2') s2.
Proof.
  intros [H1 H2 H3 W1 W2 W3 Hkind Hsb Hbelow Hord] Hs Hl.
  assert (seg_wf s) as Ws by (destruct w; cbn in Hs; congruence).
  assert (seg_wf (set_loadedelf (Some (<[n := 1]> l)) s)) as Ws'.
  { apply seg_wf_mark; [done|]. intros l0 Hl0. rewrite length_insert. congruence. }
  unfold mark_loaded. rewrite Hs, Hl. destruct w; cbn in Hs.
  - assert (s1 = s) as -> by congruence. exists (set_loadedelf (Some (<[n := 1]> l)) s), s2, st.
    split; [by split|]. split; [done|by destruct s2].
  - assert (s2 = s) as -> by congruence. exists s1, (set_loadedelf (Some (<[n := 1]> l)) s), st.
    split; [by split|]. split; [by destruct s1|done].
  - assert (st = s) as -> by congruence. exists s1, s2, (set_loadedelf (Some (<[n := 1]> l)) s).
    split; [by split|]. split; [by destruct s1|by destruct s2].
Qed.

Lemma mark_permissions w n a s :
  get_seg w a = Some s →
  ∃ s', get_seg w (mark_loaded w n a) = Some s' ∧ permissions s' = permissions s.
Proof.
  intros Hs. unfold mark_loaded. rewrite Hs. destruct (loadedelf s) as [l|]; [|eauto].
  rewrite get_put_seg. eauto.
Qed.

Section as_inv.
Context {ops : VnodeOps} {laws : VnodeLaws ops}.

Definition as_inv (k : kernel) (q : queue) (pid : Z) (a : addrspace) : Prop :=
  ∃ s1 s2 st, as_wf a s1 s2 st ∧ elf_ok k s1 ∧ elf_ok k s2 ∧ loaded_ok k q pid a.

(** The address space of the faulting process *)
Lemma as_inv_mark w s n pid k q k' q' a l b pg :
  as_inv k q pid a → get_seg w a = Some s → loadedelf s = Some l → l !! n = Some b →
  frame k k' →
  (∀ key, contents k' q' key =
    if decide (key = (pid, startaddr s + Z.of_nat n * PAGE_SIZE)) then Some pg else contents k q key) →
  as_inv k' q' pid (mark_loaded w n a).
Proof.
  intros (s1 & s2 & st & Has & He1 & He2 & Hlo) Hs Hl Hb Hfr Hct.
  destruct (as_wf_mark a s1 s2 st w s l n Has Hs Hl) as (s1' & s2' & st' & Has' & E1 & E2).
  exists s1', s2', st'. split_and!; [done| | |].
  - rewrite E1. by apply (elf_ok_frame k k' s1 Hfr).
  - rewrite E2. by apply (elf_ok_frame k k' s2 Hfr).
  - intros w0 s0 l0 n0 b0 Hs0 Hl0 Hb0.
    destruct (mark_loaded_seg w n a w0 s0 Hs0) as (s0' & Hs0' & Heq & Hl0').
    assert (startaddr s0 = startaddr s0') as -> by (by rewrite Heq).
    destruct (decide (w0 = w ∧ n0 = n)) as [[-> ->]|Hne].
    + rewrite decide_True in Hl0' by done. rewrite Hs in Hs0'. injection Hs0' as <-.
      rewrite Hl, Hl0 in Hl0'. cbn in Hl0'. injection Hl0' as ->.
      rewrite list_lookup_insert_eq in Hb0 by (by eapply lookup_lt_Some). injection Hb0 as <-.
      split; [by right|]. rewrite Hct, decide_True by done. naive_solver.
    + assert (∃ l0', loadedelf s0' = Some l0' ∧ l0' !! n0 = Some b0) as (l0' & Hl0'' & Hb0').
      { destruct (decide (w0 = w)) as [->|].
        - rewrite Hs in Hs0'. injection Hs0' as <-. rewrite Hl, Hl0 in Hl0'. cbn in Hl0'.
          injection Hl0' as ->. exists l. split; [done|].
          rewrite list_lookup_insert_ne in Hb0; [done|]. naive_solver.
        - exists l0. by rewrite <-Hl0'. }
      rewrite Hct, decide_False; [by eapply Hlo|].
      intros [= Heqa].
      destruct (as_get_seg a s1 s2 st w Has) as (x & Hx & [_ _ _ _ (lx & Hlx & Hlenx)] & _).
      destruct (as_get_seg a s1 s2 st w0 Has) as (y & Hy & [_ _ _ _ (ly & Hly & Hleny)] & _).
      assert (x = s) as -> by congruence. assert (y = s0') as -> by congruence.
      assert (lx = l) as -> by congruence. assert (ly = l0') as -> by congruence.
      apply lookup_lt_Some in Hb, Hb0'.
      destruct (page_unique a s1 s2 st w0 s0' (Z.of_nat n0) w s (Z.of_nat n) Has Hs0' Hs ltac:(lia)
        ltac:(lia) Heqa) as [-> ?%Nat2Z.inj]. naive_solver.
Qed.

(** The address spaces of the other processes *)
Lemma as_inv_other k q k' q' pid a :
  frame k k' → (∀ va, contents k' q' (pid, va) = contents k q (pid, va)) →
  as_inv k q pid a → as_inv k' q' pid a.
Proof.
  intros Hfr Hct (s1 & s2 & st & Has & He1 & He2 & Hlo). exists s1, s2, st.
  split_and!; [done|by eapply elf_ok_frame|by eapply elf_ok_frame|].
  intros w s l n b Hs Hl Hb. rewrite Hct. by eapply Hlo.
Qed.
End as_inv.

(** ** A fault on a page of the current process *)
Section fault.
Context {ops : VnodeOps} {laws : VnodeLaws ops}.

(** The relation between the states around a fault *)
Record faulted (c : nat) (p : proc) (a : addrspace) (w : segid) (s : segment) (n : nat)
    (key : key) (k : kernel) (q : queue) (i : nat) (k' : kernel) (q' : queue) : Prop := {
  ft_inv : vm_inv None k' q';
  ft_lookup : q_lookup key q' = Some i;
  ft_frame : frame k k';
  ft_procs : k_procs k' = <[c := set_p_addrspace (Some (mark_loaded w n a)) p]> (k_procs k);
  ft_contents key' : contents k' q' key' =
    if decide (key' = key) then
      Some (default (initial_page k a s key.2 (page_at (k_mem k) (Z.of_nat i * PAGE_SIZE))) (contents k q key))
    else contents k q key';
  ft_lastpid : lastpid (k_tlb k') = key.1;
  ft_tlb va : Z.land va PAGE_FRAME = key.2 →
    translate (k_tlb k') va =
      Some (Z.of_nat i * PAGE_SIZE + va `mod` PAGE_SIZE, negb (Z.land (permissions s) WRFLAG =? 0));
  ft_stats : ∃ evs t, page_events evs ∧ (t = TLBFAULTWITHFREE ∨ t = TLBFAULTWITHREPLACE) ∧
    k_stats k' = counted (t :: evs ++ [TLBFAULT]) (k_stats k)
}.

Lemma vm_inv_cpu x k q cp : vm_inv x k q → quiet (set_k_cpu cp k) → vm_inv x (set_k_cpu cp k) q.
Proof.
  intros [? ? Hsw ? ? ? ? ?] Hq. split; try done.
  - by apply (cm_wf_same k).
  - by destruct Hsw.
Qed.

(** The page is resident: only the TLB is reloaded. *)
Lemma reload_page_in c p a s1 s2 st w s n pid k q i l b :
  vm_inv None k q → k_procs k !! c = Some p → p_addrspace p = Some a →
  as_wf a s1 s2 st → loaded_ok k q pid a → get_seg w a = Some s → loadedelf s = Some l →
  l !! n = Some b → q_lookup (pid, startaddr s + Z.of_nat n * PAGE_SIZE) q = Some i →
  vmstatincr TLBRELOAD k = Ok (tt, set_k_stats (stats_incr TLBRELOAD (k_stats k)) k) ∧
  page_in c p a w s n (pid, startaddr s + Z.of_nat n * PAGE_SIZE) k q i
    (set_k_stats (stats_incr TLBRELOAD (k_stats k)) k) q.
Proof.
  intros Hinv Hp Ha Has Hlo Hs Hl Hb Hi.
  destruct (vmstatincr_inv None k q TLBRELOAD Hinv ltac:(cbv; lia)) as (Hrun & Hinv' & Hfr).
  assert (contents k q (pid, startaddr s + Z.of_nat n * PAGE_SIZE) =
    Some (page_at (k_mem k) (Z.of_nat i * PAGE_SIZE))) as Hct by (unfold contents; by rewrite Hi).
  destruct (Hlo w s l n b Hs Hl Hb) as [_ [_ Hb1]]. rewrite Hct in Hb1.
  assert (b = 1) as -> by (apply Hb1; eauto).
  split; [done|]. split; try done.
  - cbn. rewrite (mark_loaded_id w n a s l Hs Hl Hb). rewrite insert_id; [done|].
    rewrite Hp. f_equal. rewrite <-Ha. by destruct p.
  - rewrite Hct. unfold contents. by rewrite Hi.
  - exists [TLBRELOAD]. split; [constructor|done].
Qed.

Section fault_in.
Context (c : nat) (p : proc) (a : addrspace) (w : segid) (s : segment) (n : nat).
Context (k : kernel) (q : queue) (fa : Z).
Context (Hinv : vm_inv None k q) (Hp : k_procs k !! c = Some p) (Ha : p_addrspace p = Some a).
Context (Has : as_inv k q (p_pid p) a) (Hpid : 0 < p_pid p).
Context (Hs : get_seg w a = Some s) (Hn : Z.of_nat n < numpages s).
Context (Hfa : fa = startaddr s + Z.of_nat n * PAGE_SIZE).
Context (Hmiss : translate (k_tlb k) fa = None) (Hown : tlb_owned (k_tlb k) (p_pid p)).
Context (Hidx : tlbindex (k_tlb k) + 1 < 2 ^ 32).
Context (Hcan : (p_pid p, fa) ∈ q.*1 ∨ can_alloc k q).

(** The state in which the page is looked up *)
Definition fault_start : kernel :=
  set_k_stats (stats_incr TLBFAULT (k_stats k)) (set_k_cpu (cpu_high (k_cpu k)) k).

Lemma fault_start_inv :
  on_curcpu splhigh k = Ok (t_curspl (k_cpu k), set_k_cpu (cpu_high (k_cpu k)) k) ∧
  vmstatincr TLBFAULT (set_k_cpu (cpu_high (k_cpu k)) k) = Ok (tt, fault_start) ∧
  vm_inv None fault_start q.
Proof.
  pose proof (vi_quiet _ _ _ Hinv) as Hq.
  pose proof (vm_inv_cpu None k q _ Hinv (quiet_high k Hq)) as Hinv1.
  destruct (vmstatincr_inv None _ q TLBFAULT Hinv1 ltac:(cbv; lia)) as (Hrun & Hinv2 & _).
  split; [|done]. unfold on_curcpu, zoom.
  rewrite splhigh_ok; [done|apply Hq|]. rewrite (quiet_count _ Hq). lia.
Qed.

Lemma fault_page_facts :
  0 ≤ fa < MIPS_KSEG0 ∧ Z.land fa PAGE_FRAME = fa ∧
  ∃ l b, loadedelf s = Some l ∧ l !! n = Some b.
Proof.
  destruct Has as (s1 & s2 & st & Haw & _). destruct (as_get_seg a s1 s2 st w Haw) as (x & Hx & Hsw & _).
  assert (x = s) as -> by congruence. destruct Hsw as [Hp0 Hal H0 He (l & Hl & Hlen)].
  assert (0 ≤ fa < MIPS_KSEG0) as Hr.
  { unfold seg_end, USERSTACK, USERSPACETOP, PAGE_SIZE in *. nia. }
  split_and!; [lia|lia| |].
  - apply land_PAGE_FRAME_id; [unfold MIPS_KSEG0 in Hr; lia|]. rewrite Hfa. unfold aligned in *.
    by rewrite Z.mod_add.
  - destruct (lookup_lt_is_Some_2 l n ltac:(lia)) as [b Hb]. eauto.
Qed.

(** Finding or loading the page *)
Lemma fault_page_in :
  ∃ r i k' q', pageaddr (p_pid p) fa fault_start = Ok (r, fault_start) ∧
    (if r =? 0 then load_fault_page c a w (Z.of_nat n) (p_pid p) fa
     else vmstatincr TLBRELOAD ;; mret r) fault_start = Ok (Z.of_nat i * PAGE_SIZE, k') ∧
    page_in c p a w s n (p_pid p, fa) fault_start q i k' q'.
Proof.
  destruct fault_start_inv as (_ & _ & Hinv0). destruct fault_page_facts as (Hr & Hal & l & b & Hl & Hb).
  destruct Has as (s1 & s2 & st & Haw & He1 & He2 & Hlo).
  pose proof (pageaddr_run fault_start q (p_pid p) fa (vi_quiet _ _ _ Hinv0) (vi_cm _ _ _ Hinv0)) as Hpa.
  destruct (q_lookup (p_pid p, fa) q) as [i|] eqn:Hi; eexists.
  - setoid_rewrite Hpa. apply q_lookup_elem in Hi as Hin.
    destruct (wf_resident _ _ _ (cm_pt _ _ (vi_cm _ _ _ Hinv0)) _ _ Hin) as ([Hi0 _] & _ & _).
    assert ((Z.of_nat i * PAGE_SIZE =? 0) = false) as Hne by (apply Z.eqb_neq; unfold PAGE_SIZE; lia).
    rewrite Hfa in Hi.
    destruct (reload_page_in c p a s1 s2 st w s n (p_pid p) fault_start q i l b Hinv0 Hp Ha Haw)
      as [Hrun Hpi]; [done..|].
    exists i, (set_k_stats (stats_incr TLBRELOAD (k_stats fault_start)) fault_start), q.
    split; [done|]. rewrite Hne, Hfa. by run_with Hrun.
  - setoid_rewrite Hpa. apply q_lookup_None in Hi.
    destruct (load_fault_page_run c p a s1 s2 st w s fault_start q (p_pid p) (Z.of_nat n) fa l b)
      as (i & k' & q' & Hrun & Hpi); try done; [by rewrite Nat2Z.id|lia| |].
    { destruct Hcan as [?|?]; done. }
    rewrite Nat2Z.id in Hpi. exists i, k', q'. split; [done|]. by change (0 =? 0) with true.
Qed.

Lemma fault_in_run :
  ∃ i k' q', fault_in c a w (Z.of_nat n) fa k = Ok (0, k') ∧
    faulted c p a w s n (p_pid p, fa) k q i k' q'.
Proof.
  destruct fault_start_inv as (Hspl & Hcnt & Hinv0).
  destruct fault_page_facts as (Hr & Hal & l & b & Hl & Hb).
  destruct fault_page_in as (r & i & k1 & q1 & Hpa & Hrun1 & Hpi).
  pose proof (pi_inv _ _ _ _ _ _ _ _ _ _ _ _ Hpi) as Hinv1.
  assert (translate (k_tlb k1) fa = None) as Hmiss1.
  { destruct (translate (k_tlb k1) fa) as [r0|] eqn:E; [|done].
    apply (pi_tlb _ _ _ _ _ _ _ _ _ _ _ _ Hpi) in E; [|done]. cbn in E. congruence. }
  assert (tlb_owned (k_tlb k1) (p_pid p)) as Hown1.
  { destruct Hown as [Hlp|Hemp]; [left; by rewrite (pi_lastpid _ _ _ _ _ _ _ _ _ _ _ _ Hpi)|].
    right. intros va Hva. destruct (translate (k_tlb k1) va) as [r0|] eqn:E; [|done].
    apply (pi_tlb _ _ _ _ _ _ _ _ _ _ _ _ Hpi) in E; [|done]. cbn in E. by rewrite Hemp in E. }
  destruct (vmtlb_write_inv k1 q1 (p_pid p) fa i (negb (Z.land (permissions s) WRFLAG =? 0)) Hinv1
    (pi_lookup _ _ _ _ _ _ _ _ _ _ _ _ Hpi) Hr Hal Hmiss1 Hown1) as
    (k2 & Hrun2 & Hinv2 & Hfr2 & Hpr2 & Hst2 & Hlp2 & Hct2 & Htr2).
  { by rewrite (pi_tlbindex _ _ _ _ _ _ _ _ _ _ _ _ Hpi). }
  pose proof (pi_frame _ _ _ _ _ _ _ _ _ _ _ _ Hpi) as Hfr1.
  assert (k_cpu k2 = cpu_high (k_cpu k)) as Hcpu.
  { rewrite (fr_cpu _ _ Hfr2), (fr_cpu _ _ Hfr1). done. }
  destruct (splx_restore (k_cpu k) (k_cpu k2) (quiet_cpu _ (vi_quiet _ _ _ Hinv)) Hcpu) as [sp Hsp].
  assert (k_procs k1 !! c = Some (set_p_addrspace (Some (mark_loaded w n a)) p)) as Hp1.
  { rewrite (pi_procs _ _ _ _ _ _ _ _ _ _ _ _ Hpi). apply lookup_insert_eq. }
  destruct (mark_permissions w n a s Hs) as (s' & Hs' & Hperm).
  exists i, (set_k_cpu (k_cpu k) k2), q1. split.
  - unfold fault_in. run_with Hspl. run_with Hcnt. run_with (get_proc_ok fault_start c p Hp).
    cbv zeta. run_with Hpa. run_with Hrun1.
    run_with (proc_seg_ok k1 c _ _ w s' Hp1 eq_refl Hs'). rewrite Hperm. run_with Hrun2.
    change (0 =? -1) with false. cbv iota.
    rewrite (bind_ok _ _ _ sp (set_k_cpu (k_cpu k) k2)); [done|].
    unfold on_curcpu, zoom. by rewrite Hsp.
  - assert (frame k (set_k_cpu (k_cpu k) k2)) as Hfr.
    { pose proof (frame_trans _ _ _ Hfr1 Hfr2) as [_ Hlk Hcp Hsf Hff Hfv]. by split. }
    split; try done; cbn [k_procs k_stats k_tlb set_k_cpu].
    + apply vm_inv_cpu; [done|]. apply (quiet_same k); [apply Hinv|]. split; [done|].
      apply (fr_locks _ _ Hfr).
    + apply Hpi.
    + rewrite Hpr2. apply Hpi.
    + intros key'. etrans; [apply (Hct2 key')|]. case_decide as Hk.
      * subst key'. etrans; [apply (pi_page _ _ _ _ _ _ _ _ _ _ _ _ Hpi)|done].
      * by rewrite (pi_others _ _ _ _ _ _ _ _ _ _ _ _ Hpi).
    + destruct (pi_stats _ _ _ _ _ _ _ _ _ _ _ _ Hpi) as (evs & Hev & Hst1).
      exists evs, (write_stat (k_tlb k1)). split_and!; [done| |].
      * unfold write_stat. destruct (_ <? _); auto.
      * rewrite Hst2, Hst1. unfold counted. cbn [foldr]. by rewrite foldr_app.
Qed.
End fault_in.

(** ** The whole system *)

(** Every process with an address space has its own pid, and its pages are as
    its segments say. *)
Record sys_inv (k : kernel) (q : queue) : Prop := {
  si_vm : vm_inv None k q;
  si_lock c p : k_procs k !! c = Some p → lock_free (p_lock p);
  si_as c p a : k_procs k !! c = Some p → p_addrspace p = Some a → 0 < p_pid p ∧ as_inv k q (p_pid p) a;
  si_pids c c' p p' : k_procs k !! c = Some p → k_procs k !! c' = Some p' →
    is_Some (p_addrspace p) → is_Some (p_addrspace p') → p_pid p = p_pid p' → c = c'
}.

Lemma sys_inv_faulted c p a w s n k q i k' q' :
  sys_inv k q → k_procs k !! c = Some p → p_addrspace p = Some a → get_seg w a = Some s →
  Z.of_nat n < numpages s →
  faulted c p a w s n (p_pid p, startaddr s + Z.of_nat n * PAGE_SIZE) k q i k' q' →
  sys_inv k' q'.
Proof.
  intros [Hvm Hlk Has Hids] Hp Ha Hs Hn Hf.
  destruct (Has c p a Hp Ha) as [Hpid Hai].
  pose proof (ft_procs _ _ _ _ _ _ _ _ _ _ _ _ Hf) as Hpr.
  pose proof (ft_contents _ _ _ _ _ _ _ _ _ _ _ _ Hf) as Hct. cbn [snd] in Hct.
  set (p1 := set_p_addrspace (Some (mark_loaded w n a)) p) in *.
  assert (∀ c' p', k_procs k' !! c' = Some p' →
    (c' = c ∧ p' = p1) ∨ (c' ≠ c ∧ k_procs k !! c' = Some p')) as Hcases.
  { intros c' p' Hc'. rewrite Hpr in Hc'. apply lookup_insert_Some in Hc' as [[<- <-]|[? ?]]; auto. }
  split.
  - apply Hf.
  - intros c' p' [[-> ->]|[_ Hc']]%Hcases; [by apply (Hlk c p)|by eapply Hlk].
  - intros c' p' a' Hc' Ha'. apply Hcases in Hc' as [[-> ->]|[Hne Hc']].
    + cbn in Ha'. injection Ha' as <-. split; [done|]. cbn [p_pid p1 set_p_addrspace].
      destruct Hai as (s1 & s2 & st & Haw & He1 & He2 & Hlo).
      destruct (as_get_seg a s1 s2 st w Haw) as (x & Hx & [_ _ _ _ (l & Hl & Hlen)] & _).
      assert (x = s) as -> by congruence.
      destruct (lookup_lt_is_Some_2 l n ltac:(lia)) as [b Hb].
      eapply (as_inv_mark w s n (p_pid p) k q k' q' a l b); try done.
      * by exists s1, s2, st.
      * apply Hf.
    + destruct (Has c' p' a' Hc' Ha') as [Hpid' Hai']. split; [done|].
      eapply as_inv_other; [apply Hf| |done]. intros va. rewrite Hct. rewrite decide_False; [done|].
      intros [= Heq _]. apply Hne. apply (Hids c' c p' p); eauto.
  - intros c1 c2 q1 q2 H1 H2 Hs1 Hs2 Heq.
    apply Hcases in H1 as [[-> ->]|[Hn1 H1]]; apply Hcases in H2 as [[-> ->]|[Hn2 H2]]; [done| | |by eapply Hids].
    + by eapply (Hids c c2 p q2); eauto.
    + by eapply (Hids c1 c q1 p); eauto.
Qed.

Lemma translate_page t va va' :
  Z.land va TLBHI_VPAGE = Z.land va' TLBHI_VPAGE → translate t va = None → translate t va' = None.
Proof.
  unfold translate. intros ->. destruct (List.find _ _) as [e|]; [|done]. by destruct (e_valid e).
Qed.

(** [vm_fault] up to the search of the segment *)
Lemma vm_fault_start k q c p a s1 s2 st ft va :
  sys_inv k q → k_curproc k = Some c → k_procs k !! c = Some p → p_addrspace p = Some a →
  as_wf a s1 s2 st → ft = VM_FAULT_READ ∨ ft = VM_FAULT_WRITE →
  vm_fault ft va k =
    match fault_segment s1 s2 (Z.land va PAGE_FRAME) with
    | None => Ok (EFAULT, k)
    | Some (w, ind) => fault_in c a w ind (Z.land va PAGE_FRAME) k
    end.
Proof.
  intros Hsys Hc Hp Ha Haw Hft. unfold vm_fault. cbv zeta.
  assert ((ft =? VM_FAULT_READONLY) = false ∧
    ((ft =? VM_FAULT_READ) || (ft =? VM_FAULT_WRITE)) = true) as [-> ->] by (by destruct Hft as [-> | ->]).
  cbn [negb]. rewrite (bind_ok _ _ _ (k_curproc k) k) by done. rewrite Hc.
  run_with (proc_getas_ok k c p (vi_quiet _ _ _ (si_vm _ _ Hsys)) Hc Hp (si_lock _ _ Hsys c p Hp)).
  rewrite Ha. pose proof Haw as [H1 H2 H3 [P1 _ _ _ _] [P2 _ _ _ _] [P3 _ _ _ _] _ _ _ _].
  rewrite H1, (bind_ok _ _ _ s1 k) by done.
  rewrite (proj2 (Z.eqb_neq (numpages s1) 0)) by lia. rewrite (bind_ok _ _ _ tt k) by done.
  rewrite H2, (bind_ok _ _ _ s2 k) by done.
  rewrite (proj2 (Z.eqb_neq (numpages s2) 0)) by lia. rewrite (bind_ok _ _ _ tt k) by done.
  rewrite H3, (bind_ok _ _ _ st k) by done.
  rewrite (proj2 (Z.eqb_neq (numpages st) 0)) by lia. rewrite (bind_ok _ _ _ tt k) by done.
  by destruct (fault_segment s1 s2 _) as [[]|].
Qed.

Lemma vm_fault_run k q c p a w s n ft va :
  sys_inv k q → k_curproc k = Some c → k_procs k !! c = Some p → p_addrspace p = Some a →
  get_seg w a = Some s → Z.of_nat n < numpages s →
  Z.land va PAGE_FRAME = startaddr s + Z.of_nat n * PAGE_SIZE →
  ft = VM_FAULT_READ ∨ ft = VM_FAULT_WRITE →
  translate (k_tlb k) va = None → tlb_owned (k_tlb k) (p_pid p) → tlbindex (k_tlb k) + 1 < 2 ^ 32 →
  (p_pid p, startaddr s + Z.of_nat n * PAGE_SIZE) ∈ q.*1 ∨ can_alloc k q →
  ∃ i k' q', vm_fault ft va k = Ok (0, k') ∧ sys_inv k' q' ∧
    faulted c p a w s n (p_pid p, startaddr s + Z.of_nat n * PAGE_SIZE) k q i k' q'.
Proof.
  intros Hsys Hc Hp Ha Hs Hn Hva Hft Hmiss Hown Hidx Hcan.
  destruct (si_as _ _ Hsys c p a Hp Ha) as [Hpid Hai].
  pose proof Hai as (s1 & s2 & st & Haw & _).
  rewrite (vm_fault_start k q c p a s1 s2 st ft va Hsys Hc Hp Ha Haw Hft), Hva.
  rewrite (fault_segment_complete a s1 s2 st w s (Z.of_nat n) Haw Hs ltac:(lia)).
  destruct (fault_in_run c p a w s n k q _ (si_vm _ _ Hsys) Hp Ha Hai Hpid Hs Hn eq_refl)
    as (i & k' & q' & Hrun & Hf); try done.
  { eapply translate_page; [|exact Hmiss]. change TLBHI_VPAGE with PAGE_FRAME. rewrite <-Hva.
    symmetry. apply land_vpage_idem. }
  exists i, k', q'. split; [done|]. split; [|done]. by eapply sys_inv_faulted.
Qed.
End fault.
