(* ===== verification/VmDemo.v ===== *)
(** * A concrete system

    A memory file system and a booted machine that uses it.  The machine satisfies the invariant of the whole
    system: the theorems about page faults apply to it. *)

From S2P Require Import Prelude Machine Pt PtSpec PtFrames Spinlock Kernel Vmstats Tlb Swapfile PtTable Coremap Addrspace Vm VmInv VmSpec.

(** ** A memory file system

    An instance of [VnodeOps] that satisfies [VnodeLaws]: files are byte
    lists, and a transfer moves bytes between a list and memory.  It shows that
    the laws are satisfiable, and lets concrete states be run. *)

Definition ram_files : Type := Z → list Z.

Definition ram_read (v : Z) (u : uio) (m : memory) (fs : ram_files) : Z * uio * memory * ram_files :=
  match uio_iov u with
  | [mk_iovec base len] =>
      let data := file_read (uio_offset u) len (fs v) in
      let n := Z.of_nat (length data) in
      (0, mk_uio [mk_iovec (base + n) (len - n)] (uio_offset u + n) (uio_resid u - n)
            (uio_segflg u) (uio_rw u) (uio_space u),
       mem_write m (base - MIPS_KSEG0) data, fs)
  | _ => (EINVAL, u, m, fs)
  end.

Definition ram_write (v : Z) (u : uio) (m : memory) (fs : ram_files) : Z * uio * memory * ram_files :=
  match uio_iov u with
  | [mk_iovec base len] =>
      let data := mem_read m (base - MIPS_KSEG0) len in
      (0, mk_uio [mk_iovec (base + len) 0] (uio_offset u + len) (uio_resid u - len)
            (uio_segflg u) (uio_rw u) (uio_space u),
       m, λ w, if decide (w = v) then file_write (uio_offset u) data (fs v) else fs w)
  | _ => (EINVAL, u, m, fs)
  end.

#[export] Instance ram_ops : VnodeOps := {|
  fsstate := ram_files;
  vop_read := ram_read;
  vop_write := ram_write
|}.

#[export] Instance ram_laws : VnodeLaws ram_ops.
Proof.
  refine (Build_VnodeLaws ram_ops (λ fs v, fs v) (λ _ _, True) _ _).
  - intros v kbuf len off m fs _ _ Hoff. do 2 eexists. split_and!; done.
  - intros v kbuf len off m fs _ _ Hoff. do 2 eexists. split_and!; try done.
    + cbn. by rewrite decide_True.
    + intros w Hw. cbn. by rewrite decide_False.
Defined.

(** *** A booted machine

    64 frames, of which the kernel has the first 4 and the rest is free; a
    program file 7 of three pages; process number 1, pid 2, with a code page
    at 0x400000, two data pages at 0x410000 and the stack. *)
Definition demo_cpu : cpu := mk_cpu true 0 0 0 0 false true.
Definition demo_locks : locks :=
  mk_locks SPINLOCK_INITIALIZER SPINLOCK_INITIALIZER SPINLOCK_INITIALIZER SPINLOCK_INITIALIZER.

Definition demo_seg1 : segment := mk_segment 1 (Some 7) (Some [0]) 0 0x400000 false 5.
(** The last page of the second segment is behind the end of the file. *)
Definition demo_seg2 : segment := mk_segment 3 (Some 7) (Some [0; 0; 0]) 4096 0x410000 false 6.
Definition demo_stack : segment :=
  mk_segment 18 None (Some (replicate 18 0)) 0 (USERSTACK - STACKPAGES * PAGE_SIZE) true 6.
Definition demo_as : addrspace := mk_addrspace (Some demo_seg1) (Some demo_seg2) (Some demo_stack).
Definition demo_proc : proc :=
  mk_proc "demo" SPINLOCK_INITIALIZER 1 (Some demo_as) None 0 2 (Some 0) [].

Definition demo_file (v : Z) : list Z :=
  if decide (v = 7) then replicate (3 * 4096) 9 else [].

(** Before [vm_bootstrap] *)
Definition raw_kernel : kernel (ops := ram_ops) :=
  mk_kernel demo_cpu demo_locks (mk_ramst 0x4000 0x40000) (mk_ptst [] [] None None) 0 0 0 0
    (replicate (Z.to_nat SWAPPAGES) (mk_swappage 0 0)) 0 (replicate VMSTATSLEN 3) tlb_flushed
    (λ _, 0) demo_file ∅ None [].

(** A booted kernel with processes [m], process [c] running *)
Section started.
Context {ops : VnodeOps} {laws : VnodeLaws ops}.

Definition started (m : gmap nat proc) (c : nat) (vn : Z) (k : kernel) : kernel :=
  set_k_procs m (set_k_curproc (Some c) (set_k_stats (replicate VMSTATSLEN 0) (swap_ready vn k))).

Lemma started_quiet m c vn k : quiet k → quiet (started m c vn k).
Proof. intros. by apply (quiet_same k). Qed.

Lemma started_cm m c vn k q : cm_wf k q → cm_wf (started m c vn k) q.
Proof. intros. by apply (cm_wf_same k). Qed.

Lemma started_swap m c vn k :
  vnode_ok (k_fs k) vn → 0 ≤ k_maxind k < SWAPPAGES →
  swap_wf (started m c vn k) ∧ ∀ key, slot_of key (k_swapmap (started m c vn k)) = None.
Proof.
  intros Hv Hm. destruct (swap_ready_wf k vn Hv Hm) as [Hwf Hs]. split; [by destruct Hwf|done].
Qed.
End started.

(** After it, with the process *)
Definition demo_kernel : kernel (ops := ram_ops) :=
  started {[ 1%nat := demo_proc ]} 1 8 (booted 64 4 raw_kernel).

Lemma raw_quiet : quiet raw_kernel.
Proof. split; [split; try done; by left|done|by intros []]. Qed.

Lemma booted_quiet size first k : quiet (ops := ram_ops) k → quiet (booted size first k).
Proof. intros. by apply (quiet_same k). Qed.

Lemma demo_quiet : quiet demo_kernel.
Proof. apply started_quiet, booted_quiet, raw_quiet. Qed.

Lemma demo_cm : cm_wf demo_kernel [].
Proof. apply started_cm, booted_wf; unfold PAGE_SIZE; lia. Qed.

Lemma demo_swap : swap_wf demo_kernel ∧ ∀ key, slot_of key (k_swapmap demo_kernel) = None.
Proof. apply started_swap; [done|]. by vm_compute. Qed.

(** A started kernel with no page in use *)
Section started.
Context {ops : VnodeOps} {laws : VnodeLaws ops}.

Lemma started_vm m c vn k :
  quiet k → cm_wf k [] → vnode_ok (k_fs k) vn → 0 ≤ k_maxind k < SWAPPAGES → k_tlb k = tlb_flushed →
  vm_inv None (started m c vn k) [] ∧ ∀ key, contents (started m c vn k) [] key = None.
Proof.
  intros Hq Hcm Hv Hmax Htlb. destruct (started_swap m c vn k Hv Hmax) as [Hsw Hfree]. split.
  - split.
    + by apply started_quiet.
    + by apply started_cm.
    + exact Hsw.
    + apply (length_replicate VMSTATSLEN).
    + cbn. rewrite Htlb. apply tlb_flushed_wf.
    + intros va pa w Hva. cbn. rewrite Htlb, translate_flushed by done. done.
    + intros key Hin. by apply elem_of_nil in Hin.
    + intros key Hin. by apply elem_of_nil in Hin.
  - intros key. unfold contents, swap_contents. cbn [q_lookup]. by rewrite Hfree.
Qed.
End started.

Lemma demo_vm : vm_inv None demo_kernel [] ∧ ∀ key, contents demo_kernel [] key = None.
Proof.
  apply started_vm; [apply booted_quiet, raw_quiet| |done|by vm_compute|done].
  apply booted_wf; unfold PAGE_SIZE; lia.
Qed.

Lemma demo_as_wf : as_wf demo_as demo_seg1 demo_seg2 demo_stack.
Proof.
  split; try done; unfold seg_end, demo_stack, USERSTACK, USERSPACETOP, MIPS_KSEG0, STACKPAGES, PAGE_SIZE;
    cbn; try lia.
  - split; try done; cbn; eauto.
  - split; try done; cbn; eauto.
  - split; try done; cbn; eauto.
Qed.

Lemma demo_elf s : s = demo_seg1 ∨ s = demo_seg2 → elf_ok demo_kernel s.
Proof.
  intros [-> | ->]; exists 7; by split_and!.
Qed.

Lemma demo_loaded : loaded_ok demo_kernel [] 2 demo_as.
Proof.
  intros w s l n b Hs Hl Hb. destruct demo_vm as [_ Hct]. rewrite Hct.
  assert (b = 0) as ->; [|split; [by left|split; [done|by intros [? ?]]]].
  destruct w; cbn in Hs; injection Hs as <-; cbn in Hl; injection Hl as <-.
  - destruct n as [|[]]; by inversion Hb.
  - destruct n as [|[|[|[]]]]; by inversion Hb.
  - do 18 (destruct n as [|n]; [by inversion Hb|]). by destruct n.
Qed.

Lemma demo_proc_inv c p : k_procs demo_kernel !! c = Some p → c = 1%nat ∧ p = demo_proc.
Proof.
  intros Hp. change (({[ 1%nat := demo_proc ]} : gmap nat proc) !! c = Some p) in Hp.
  by apply lookup_singleton_Some in Hp as [<- <-].
Qed.

Lemma demo_sys : sys_inv demo_kernel [].
Proof.
  split; [apply demo_vm| | |].
  - intros c p [-> ->]%demo_proc_inv. done.
  - intros c p a [-> ->]%demo_proc_inv. intros [= <-]. split; [cbn; lia|].
    exists demo_seg1, demo_seg2, demo_stack.
    split_and!; [apply demo_as_wf|apply demo_elf; auto|apply demo_elf; auto|apply demo_loaded].
  - intros c c' p p' [-> ->]%demo_proc_inv [-> ->]%demo_proc_inv. done.
Qed.

Lemma demo_can_alloc : can_alloc demo_kernel [].
Proof. left. vm_compute. eauto. Qed.
