(* ===== verification/VmProps.v ===== *)
(** * Properties of the paging system

    The theorems about page faults, address spaces and boot, each with an
    instance on the concrete machine of [VmDemo]. *)

From S2P Require Import Prelude Machine Spinlock Pt PtSpec PtFrames PtTable Kernel Vmstats.
From S2P Require Import Tlb Swapfile Coremap Addrspace Vm VmInv VmSpec VmDemo.

(** ** Page faults *)
Section fault.
Context {ops : VnodeOps} {laws : VnodeLaws ops}.

(** What a fault on page [n] of segment [w] of the current process starts
    from: the system invariant, a TLB miss, a TLB that belongs to the process,
    and memory to load the page into (unless it is resident). *)
Record fault_pre (k : kernel) (q : queue) (c : nat) (p : proc) (w : segid) (s : segment) (n : nat)
    (ft va : Z) : Prop := {
  fp_sys : sys_inv k q;
  fp_cur : k_curproc k = Some c;
  fp_proc : k_procs k !! c = Some p;
  fp_seg : ∃ a, p_addrspace p = Some a ∧ get_seg w a = Some s;
  fp_page : Z.of_nat n < numpages s ∧ Z.land va PAGE_FRAME = startaddr s + Z.of_nat n * PAGE_SIZE;
  fp_type : ft = VM_FAULT_READ ∨ ft = VM_FAULT_WRITE;
  fp_miss : translate (k_tlb k) va = None;
  fp_owned : tlb_owned (k_tlb k) (p_pid p);
  fp_index : tlbindex (k_tlb k) + 1 < 2 ^ 32;
  fp_memory : (p_pid p, Z.land va PAGE_FRAME) ∈ q.*1 ∨ can_alloc k q
}.

Lemma fault_pre_run k q c p w s n ft va :
  fault_pre k q c p w s n ft va →
  ∃ a i k' q', p_addrspace p = Some a ∧ vm_fault ft va k = Ok (0, k') ∧ sys_inv k' q' ∧
    faulted c p a w s n (p_pid p, Z.land va PAGE_FRAME) k q i k' q'.
Proof.
  intros [Hsys Hc Hp (a & Ha & Hs) [Hn Hva] Hft Hmiss Hown Hidx Hmem]. rewrite Hva in *.
  destruct (vm_fault_run k q c p a w s n ft va) as (i & k' & q' & Hrun & Hsys' & Hf); try done.
  eauto 10.
Qed.

(** C1. Demand paging is transparent once a page has been touched.  A fault on a
    page of the current process returns 0; afterwards that page holds what it
    held before if it existed, in a frame or in the swap file, and every other
    page of every process holds what it held, even if the fault evicted it.

    A page touched for the first time is [initial_page]: zeros on the stack; in
    the two program segments the bytes of the program file at the place of the
    page ([p_offset] plus its distance from the start of the segment), up to the
    end of the page or of the file.  [p_filesz] plays no part, and behind the
    end of the file the page shows what its frame held before, which may be the
    page of another process that the fault evicted.  In a second segment that
    starts where the first one ends, the first page comes from the place behind
    the first segment ([source_seg]). *)
Theorem vm_fault_transparent k q c p w s n ft va :
  fault_pre k q c p w s n ft va →
  ∃ a k' q' i, p_addrspace p = Some a ∧ vm_fault ft va k = Ok (0, k') ∧
    q_lookup (p_pid p, Z.land va PAGE_FRAME) q' = Some i ∧
    contents k' q' (p_pid p, Z.land va PAGE_FRAME) =
      Some match contents k q (p_pid p, Z.land va PAGE_FRAME) with
           | Some bs => bs
           | None => initial_page k a s (Z.land va PAGE_FRAME) (page_at (k_mem k) (Z.of_nat i * PAGE_SIZE))
           end ∧
    ∀ key, key ≠ (p_pid p, Z.land va PAGE_FRAME) → contents k' q' key = contents k q key.
Proof.
  intros Hpre. destruct (fault_pre_run _ _ _ _ _ _ _ _ _ Hpre) as (a & i & k' & q' & Has & Hrun & _ & Hf).
  exists a, k', q', i. split; [done|]. split; [done|]. split; [apply Hf|].
  pose proof (ft_contents _ _ _ _ _ _ _ _ _ _ _ _ Hf) as Hct. split.
  - rewrite Hct, decide_True by done. by destruct (contents k q _).
  - intros key Hk. by rewrite Hct, decide_False.
Qed.

(** C2. A fault keeps the invariant of the whole system (page table, frames,
    victim queue, swap slots, TLB, segments of all processes), leaves the
    interrupt level and the locks as they were, and the page is resident. *)
Theorem vm_fault_invariant k q c p w s n ft va :
  fault_pre k q c p w s n ft va →
  ∃ k' q', vm_fault ft va k = Ok (0, k') ∧ sys_inv k' q' ∧
    k_cpu k' = k_cpu k ∧ k_locks k' = k_locks k ∧ k_curproc k' = k_curproc k ∧
    (p_pid p, Z.land va PAGE_FRAME) ∈ q'.*1.
Proof.
  intros Hpre. destruct (fault_pre_run _ _ _ _ _ _ _ _ _ Hpre) as (a & i & k' & q' & Has & Hrun & Hsys & Hf).
  destruct (ft_frame _ _ _ _ _ _ _ _ _ _ _ _ Hf) as [H1 H2 H3 _ _ _].
  exists k', q'. split_and!; try done. apply q_lookup_in. rewrite (ft_lookup _ _ _ _ _ _ _ _ _ _ _ _ Hf).
  eauto.
Qed.

(** C3. After the fault the processor translates the faulting address, and any
    other of the page, to the frame that holds the page, and lets it be written
    exactly when the segment is writable. *)
Theorem vm_fault_maps k q c p w s n ft va :
  fault_pre k q c p w s n ft va →
  ∃ k' q' i, vm_fault ft va k = Ok (0, k') ∧
    q_lookup (p_pid p, Z.land va PAGE_FRAME) q' = Some i ∧ sys_inv k' q' ∧
    ∀ va', Z.land va' PAGE_FRAME = Z.land va PAGE_FRAME →
      translate (k_tlb k') va' =
        Some (Z.of_nat i * PAGE_SIZE + va' `mod` PAGE_SIZE, negb (Z.land (permissions s) WRFLAG =? 0)).
Proof.
  intros Hpre. destruct (fault_pre_run _ _ _ _ _ _ _ _ _ Hpre) as (a & i & k' & q' & Has & Hrun & Hsys & Hf).
  exists k', q', i. split_and!; try done.
  - apply Hf.
  - apply (ft_tlb _ _ _ _ _ _ _ _ _ _ _ _ Hf).
Qed.

(** C17. The statistics stay consistent: faults are those with a free entry
    plus those with a replaced one, and reloads plus pages from disk plus
    zeroed pages; pages from disk are those from the program file plus those
    from the swap file (all modulo the width of the counters). *)
Theorem vm_fault_statistics k q c p w s n ft va :
  fault_pre k q c p w s n ft va → balanced (k_stats k) →
  ∃ k', vm_fault ft va k = Ok (0, k') ∧ balanced (k_stats k') ∧
    u32 (stat (k_stats k') TLBFAULT) = u32 (stat (k_stats k) TLBFAULT + 1).
Proof.
  intros Hpre Hbal. destruct (fault_pre_run _ _ _ _ _ _ _ _ _ Hpre) as (a & i & k' & q' & Has & Hrun & _ & Hf).
  exists k'. split; [done|].
  destruct (ft_stats _ _ _ _ _ _ _ _ _ _ _ _ Hf) as (evs & t & Hev & Ht & ->).
  assert (Forall (λ j, (j < VMSTATSLEN)%nat) (t :: evs ++ [TLBFAULT])) as Hall.
  { apply Forall_forall. intros j Hj. rewrite elem_of_cons, elem_of_app, list_elem_of_singleton in Hj.
    unfold VMSTATSLEN. destruct Hj as [->|[Hj| ->]]; [destruct Ht as [-> | ->]; cbv; lia| |cbv; lia].
    inversion Hev as [|l [-> | ->]|l [-> | ->]|l [-> | ->]]; subst;
      repeat (apply elem_of_cons in Hj as [->|Hj]; [cbv; lia|]); by apply elem_of_nil in Hj. }
  split.
  - apply balanced_counted; try done;
      inversion Hev as [|l [-> | ->]|l [-> | ->]|l [-> | ->]]; destruct Ht as [-> | ->]; done.
  - rewrite counted_stat by (by rewrite (proj1 Hbal)). f_equal. f_equal.
    inversion Hev as [|l [-> | ->]|l [-> | ->]|l [-> | ->]]; destruct Ht as [-> | ->]; done.
Qed.
End fault.

(** A write to a data page of the demo process *)
Lemma demo_fault n va :
  Z.of_nat n < 3 → Z.land va PAGE_FRAME = 0x410000 + Z.of_nat n * PAGE_SIZE → 0 ≤ va < MIPS_KSEG0 →
  fault_pre demo_kernel [] 1 demo_proc Seg2 demo_seg2 n VM_FAULT_WRITE va.
Proof.
  intros Hn Hva Hr. split.
  - exact demo_sys.
  - reflexivity.
  - reflexivity.
  - exists demo_as. split; reflexivity.
  - by split.
  - by right.
  - by apply translate_flushed.
  - right. exact translate_flushed.
  - reflexivity.
  - right. exact demo_can_alloc.
Qed.

Lemma demo_fault_pre : fault_pre demo_kernel [] 1 demo_proc Seg2 demo_seg2 1 VM_FAULT_WRITE 0x411abc.
Proof. by apply demo_fault. Qed.

(** A page of the file, and a page behind its end *)
Lemma vm_fault_transparent_witness :
  (∃ k' q', vm_fault VM_FAULT_WRITE 0x411abc demo_kernel = Ok (0, k') ∧
    contents k' q' (2, 0x411000) = Some (replicate (Z.to_nat PAGE_SIZE) 9) ∧
    ∀ key, key ≠ (2, 0x411000) → contents k' q' key = contents demo_kernel [] key) ∧
  (∃ k' q' i, vm_fault VM_FAULT_WRITE 0x412000 demo_kernel = Ok (0, k') ∧ q_lookup (2, 0x412000) q' = Some i ∧
    contents k' q' (2, 0x412000) = Some (page_at (k_mem demo_kernel) (Z.of_nat i * PAGE_SIZE))).
Proof.
  split.
  - destruct (vm_fault_transparent demo_kernel [] 1 demo_proc Seg2 demo_seg2 1 VM_FAULT_WRITE 0x411abc demo_fault_pre)
      as (a & k' & q' & i & Ha & Hrun & _ & Hct & Ho). exists k', q'. split; [exact Hrun|]. split; [|exact Ho].
    injection Ha as <-. etrans; [exact Hct|]. rewrite (proj2 demo_vm). reflexivity.
  - destruct (vm_fault_transparent demo_kernel [] 1 demo_proc Seg2 demo_seg2 2 VM_FAULT_WRITE 0x412000 (demo_fault 2 0x412000 eq_refl eq_refl ltac:(done)))
      as (a & k' & q' & i & Ha & Hrun & Hi & Hct & _). exists k', q', i. split; [exact Hrun|]. split; [exact Hi|].
    injection Ha as <-. etrans; [exact Hct|]. rewrite (proj2 demo_vm). reflexivity.
Defined.

Lemma vm_fault_invariant_witness :
  ∃ k' q', vm_fault VM_FAULT_WRITE 0x411abc demo_kernel = Ok (0, k') ∧ sys_inv k' q' ∧
    k_cpu k' = k_cpu demo_kernel ∧ k_locks k' = k_locks demo_kernel ∧
    k_curproc k' = k_curproc demo_kernel ∧
    (p_pid demo_proc, Z.land 0x411abc PAGE_FRAME) ∈ q'.*1.
Proof.
  exact (vm_fault_invariant demo_kernel [] 1 demo_proc Seg2 demo_seg2 1 VM_FAULT_WRITE 0x411abc
    demo_fault_pre).
Defined.

Lemma vm_fault_maps_witness :
  ∃ k' q' i, vm_fault VM_FAULT_WRITE 0x411abc demo_kernel = Ok (0, k') ∧
    q_lookup (p_pid demo_proc, Z.land 0x411abc PAGE_FRAME) q' = Some i ∧ sys_inv k' q' ∧
    ∀ va', Z.land va' PAGE_FRAME = Z.land 0x411abc PAGE_FRAME →
      translate (k_tlb k') va' =
        Some (Z.of_nat i * PAGE_SIZE + va' `mod` PAGE_SIZE,
          negb (Z.land (permissions demo_seg2) WRFLAG =? 0)).
Proof.
  exact (vm_fault_maps demo_kernel [] 1 demo_proc Seg2 demo_seg2 1 VM_FAULT_WRITE 0x411abc
    demo_fault_pre).
Defined.

Lemma demo_balanced : balanced (k_stats demo_kernel).
Proof. split; [reflexivity|]. vm_compute. auto. Qed.

Lemma vm_fault_statistics_witness :
  ∃ k', vm_fault VM_FAULT_WRITE 0x411abc demo_kernel = Ok (0, k') ∧ balanced (k_stats k') ∧
    u32 (stat (k_stats k') TLBFAULT) = u32 (stat (k_stats demo_kernel) TLBFAULT + 1).
Proof.
  exact (vm_fault_statistics demo_kernel [] 1 demo_proc Seg2 demo_seg2 1 VM_FAULT_WRITE 0x411abc
    demo_fault_pre demo_balanced).
Defined.

(** ** Kernel pages *)

(** Freeing the run that was allocated gives the map of free frames back. *)
Lemma free_map_restored fm n i :
  run_free fm n i = true →
  let fm' := take i fm ++ replicate n false ++ drop (i + n) fm in
  take i fm' ++ replicate n true ++ drop (i + n) fm' = fm.
Proof.
  intros [Hlen Hfree]%run_free_spec. cbn zeta.
  rewrite take_app_le, take_take, Nat.min_id by (rewrite length_take; lia).
  assert (drop (i + n) (take i fm ++ replicate n false ++ drop (i + n) fm) = drop (i + n) fm) as ->.
  { rewrite app_assoc. apply drop_app_length'. rewrite length_app, length_take, length_replicate. lia. }
  rewrite <-(take_drop (i + n) fm) at 3. rewrite app_assoc. f_equal.
  apply list_eq. intros k. destruct (decide (k < i)%nat).
  - rewrite lookup_app_l, !lookup_take_lt by (rewrite ?length_take; lia). done.
  - destruct (decide (k < i + n)%nat).
    + rewrite lookup_app_r, lookup_take_lt, Hfree by (rewrite ?length_take; lia). apply lookup_replicate_2. rewrite length_take. lia.
    + rewrite !lookup_ge_None_2; [done|rewrite length_take; lia|rewrite length_app, length_take, length_replicate; lia].
Qed.

Section kpages.
Context {ops : VnodeOps}.

(** Kernel pages can be given back: [alloc_kpages] returns the address of
    the first run of free frames that is long enough, marks it used and
    changes nothing else of the page table's queue, and [free_kpages] of that
    address makes the free frames what they were. *)
Theorem kpages_roundtrip k q n i :
  quiet k → cm_wf k q → t_in_interrupt (k_cpu k) = false → (0 < n)%nat →
  first_fit (free_map (pagetable (k_pt k))) n = Some i →
  ∃ k1 k2, alloc_kpages (Z.of_nat n) k = Ok (MIPS_KSEG0 + Z.of_nat i * PAGE_SIZE, k1) ∧ cm_wf k1 q ∧
    (∀ j, (i ≤ j < i + n)%nat → free_map (pagetable (k_pt k1)) !! j = Some false) ∧
    free_kpages (MIPS_KSEG0 + Z.of_nat i * PAGE_SIZE) k1 = Ok (tt, k2) ∧ cm_wf k2 q ∧
    free_map (pagetable (k_pt k2)) = free_map (pagetable (k_pt k)).
Proof using.
  intros Hq Hwf Hint Hn Hfit. pose proof (first_fit_run _ _ _ Hfit) as Hrun. pose proof Hrun as [Hlen _]%run_free_spec.
  destruct (alloc_kpages_run k q n i Hq Hwf Hint Hn Hfit) as (st1 & H1 & Hwf1 & Hi & Hfm1 & Hpt1).
  set (k1 := set_k_pt st1 k) in *. assert (quiet k1) as Hq1 by by apply (quiet_same k).
  pose proof (length_free_map (pagetable (k_pt k))) as Hl.
  set (pg := mk_ptpage 0 (MIPS_KSEG0 + Z.of_nat i * PAGE_SIZE) (Z.of_nat n) None None) in *.
  destruct (free_kpages_run k1 q i pg Hq1 Hwf1) as (st2 & H2 & Hwf2 & Hfm2 & _); [|done|done|].
  { change (pagetable (k_pt k1)) with (pagetable st1). rewrite Hpt1. apply list_lookup_insert_eq. lia. }
  exists k1, (set_k_pt st2 k1). split; [done|]. split; [done|]. split; [|split; [done|split; [done|]]].
  - intros j Hj. change (pagetable (k_pt k1)) with (pagetable st1). rewrite Hfm1.
    rewrite lookup_app_r, lookup_app_l by (rewrite ?length_take, ?length_replicate; lia). apply lookup_replicate_2. rewrite length_take. lia.
  - change (pagetable (k_pt (set_k_pt st2 k1))) with (pagetable st2). rewrite Hfm2.
    change (pagetable (k_pt k1)) with (pagetable st1). rewrite Hfm1. cbn [pg_numpages pg]. rewrite Nat2Z.id. by apply free_map_restored.
Qed.

(** C38. When no run of frames is long enough but a user page could be evicted,
    an allocation by the kernel evicts it and then stops the machine: the
    index of the run is still -1, and the page table is written with it. *)
Theorem kpages_full_stops `{!VnodeLaws ops} k p v i q j n :
  quiet k → cm_wf k (((p, v), i) :: q) → swap_wf k → length (k_stats k) = VMSTATSLEN → t_in_interrupt (k_cpu k) = false →
  (0 < n)%nat → Z.of_nat n < 2 ^ 32 →
  first_fit (free_map (pagetable (k_pt k))) n = None → free_slot (k_swapmap k) = Some j →
  alloc_kpages (Z.of_nat n) k = Stop BadAccess.
Proof using.
  intros Hq Hwf Hsw Hst Hint Hn Hn32 Hfit Hj. unfold alloc_kpages. rewrite (bind_ok _ _ k tt k).
  2:{ unfold pt_can_sleep. mred. rewrite (cpu_exists _ (quiet_cpu _ Hq)), (quiet_count _ Hq), Hint. done. }
  apply bind_stop. unfold getppages. apply bind_stop. by apply (getfreeppages_evict_run k p v i q j n).
Qed.
End kpages.

Lemma kpages_roundtrip_witness :
  ∃ k1 k2, alloc_kpages 3 demo_kernel = Ok (MIPS_KSEG0 + 4 * PAGE_SIZE, k1) ∧ cm_wf k1 [] ∧
    (∀ j, (4 ≤ j < 4 + 3)%nat → free_map (pagetable (k_pt k1)) !! j = Some false) ∧
    free_kpages (MIPS_KSEG0 + 4 * PAGE_SIZE) k1 = Ok (tt, k2) ∧ cm_wf k2 [] ∧
    free_map (pagetable (k_pt k2)) = free_map (pagetable (k_pt demo_kernel)).
Proof. apply (kpages_roundtrip demo_kernel [] 3 4); [exact demo_quiet|exact demo_cm|done|lia|by vm_compute]. Defined.

(** The system after the fault has one user page and no run of 100 frames. *)
Lemma demo_faulted :
  match vm_fault VM_FAULT_WRITE 0x411abc demo_kernel with
  | Ok (_, k) => first_fit (free_map (pagetable (k_pt k))) 100 = None ∧ free_slot (k_swapmap k) = Some 0%nat ∧
      t_in_interrupt (k_cpu k) = false
  | Stop _ => False
  end.
Proof. by vm_compute. Qed.

Lemma kpages_full_stops_witness :
  ∃ k, vm_fault VM_FAULT_WRITE 0x411abc demo_kernel = Ok (0, k) ∧ alloc_kpages 100 k = Stop BadAccess.
Proof.
  pose proof (fault_pre_run _ _ _ _ _ _ _ _ _ demo_fault_pre) as (a & i & k' & q' & Has & Hrun & Hsys & Hf).
  pose proof demo_faulted as Hd. rewrite Hrun in Hd. destruct Hd as (H1 & H2 & H3). exists k'. split; [exact Hrun|].
  destruct (si_vm _ _ Hsys) as [V1 V2 V3 V4 V5 V6 V7 V8].
  destruct q' as [|[[p v] j] q'].
  - pose proof (ft_lookup _ _ _ _ _ _ _ _ _ _ _ _ Hf) as Hl. done.
  - change 100 with (Z.of_nat 100).
    exact (kpages_full_stops k' p v j q' 0 100 V1 V2 V3 V4 H3 ltac:(lia) ltac:(lia) H1 H2).
Defined.
