(* ===== verification/PtProps.v ===== *)
(** * Properties of the page table ([kern/vm/pt.c])

    The table implements a queue of (key, frame) pairs with distinct keys:
    lookup, insertion at the end, deletion by key.  Frame allocation is first
    fit on the map of free frames. *)

From S2P Require Import Prelude Machine Pt PtSpec PtFrames PtTable.

(** [getpageaddr] is the lookup of the abstract queue: it returns the
    address of the frame of a resident page, 0 for any other, terminates on
    every well-formed table, and changes nothing. *)
Theorem getpageaddr_refines hsz st q pid vaddr :
  pt_refines hsz st q →
  getpageaddr hsz pid vaddr st =
    Ok (match q_lookup (pid, vaddr) q with
        | Some i => u32 (Z.of_nat i * PAGE_SIZE)
        | None => 0
        end, st).
Proof. intros [bkt R]. by eapply getpageaddr_rep. Qed.

(** C14. [setptentry] of a user page in a frame that holds no user page appends
    the page to the queue, whatever the collisions of its hash. *)
Theorem setptentry_refines hsz st q index numpages pid vaddr pg :
  pt_refines hsz st q → pagetable st !! Z.to_nat index = Some pg → pg_pid pg ≤ 0 →
  0 < pid → (pid, vaddr) ∉ q.*1 →
  ∃ st', setptentry hsz index numpages pid vaddr st = Ok (0, st') ∧
    pt_refines hsz st' (q ++ [((pid, vaddr), Z.to_nat index)]).
Proof.
  intros [bkt R] Hi Hp Hpid Hnew.
  destruct (setptentry_user hsz st bkt q index numpages pid vaddr pg R Hi Hp Hpid Hnew)
    as (st' & bkt' & Hrun & R' & _).
  exists st'. split; [done|]. by exists bkt'.
Qed.

(** C15. [freeuser] deletes the page from the queue (from its collision list,
    from the victim queue, and as last allocated page), keeps the order of the
    others, and marks its frame free; on an absent page it returns -1 and
    changes nothing. *)
Theorem freeuser_refines hsz st q pid vaddr :
  pt_refines hsz st q →
  ∃ st', freeuser hsz pid vaddr st = Ok (if decide ((pid, vaddr) ∈ q.*1) then 0 else -1, st') ∧
    pt_refines hsz st' (q_remove (pid, vaddr) q) ∧
    match q_lookup (pid, vaddr) q with
    | Some i => pg_hdr <$> pagetable st' = <[i := (-1, vaddr, 0)]> (pg_hdr <$> pagetable st)
    | None => st' = st
    end.
Proof.
  intros [bkt R]. case_decide as Hin.
  - apply list_elem_of_fmap in Hin as ([k i] & Hk & Hin). cbn in Hk. subst k.
    pose proof (proj2 (q_lookup_Some _ _ _ (rep_keys _ _ _ _ R)) Hin) as ->.
    apply list_elem_of_split in Hin as (q1 & q2 & ->).
    destruct (freeuser_found _ _ _ _ _ _ _ _ R) as (st' & bkt' & Hrun & R' & Hhdr).
    exists st'. split; [done|]. rewrite q_remove_split by apply R. split; [by exists bkt'|done].
  - pose proof Hin as ->%q_lookup_None. exists st. split; [by eapply freeuser_absent|].
    rewrite q_remove_None by done. split; [by exists bkt|done].
Qed.

(** C16. [getfreeframes] returns the first run of [n] contiguous free frames,
    and -1 exactly when there is none: the skipping of allocated blocks misses
    nothing. *)
Theorem getfreeframes_first_fit st n :
  numpages_ok (pagetable st) → (0 < n)%nat → Z.of_nat n < 2 ^ 32 →
  getfreeframes (Z.of_nat (length (pagetable st))) (Z.of_nat n) st =
    Ok (fit_result (first_fit (free_map (pagetable st)) n), st) ∧
  (first_fit (free_map (pagetable st)) n = None ↔
    ∀ i, run_free (free_map (pagetable st)) n i = false) ∧
  (∀ i, first_fit (free_map (pagetable st)) n = Some i →
    run_free (free_map (pagetable st)) n i = true ∧
    ∀ j, (j < i)%nat → run_free (free_map (pagetable st)) n j = false).
Proof.
  intros Hok Hn Hn32. split_and!.
  - by apply getfreeframes_fit.
  - split; [intros H i; by eapply first_fit_none_run|]. intros H. apply first_fit_None; auto.
  - intros i Hi. split; [by eapply first_fit_run|]. intros j. by apply first_fit_least.
Qed.

(** ** On a small table: pages (2, 0x1000) and (3, 0x2000) of frames 1 and 3,
    in the same collision list, a kernel block of two frames at 4. *)
Definition small_table : ptst :=
  mk_ptst
    [mk_ptpage 0 0x80000000 1 None None; mk_ptpage 2 0x1000 1 (Some 3%nat) (Some 3%nat);
     mk_ptpage (-1) 0x80002000 0 None None; mk_ptpage 3 0x2000 1 None None;
     mk_ptpage 0 0x80004000 2 None None; mk_ptpage (-1) 0x80005000 0 None None;
     mk_ptpage (-1) 0x80006000 0 None None; mk_ptpage (-1) 0x80007000 0 None None]
    [Some 1%nat] (Some 1%nat) (Some 3%nat).

Definition small_queue : queue := [((2, 0x1000), 1%nat); ((3, 0x2000), 3%nat)].

Lemma small_rep : pt_rep 1 small_table (λ _, [1%nat; 3%nat]) small_queue.
Proof.
  split; try done.
  - intros [|h] p Hp; [|by destruct h]. injection Hp as <-. cbn. eauto 10.
  - cbn. eauto 10.
  - by apply (bool_decide_unpack _); vm_compute.
  - split.
    + intros k i Hin. unfold small_queue in Hin. rewrite !elem_of_cons in Hin.
      destruct Hin as [[= -> ->]|[[= -> ->]|Hin]]; [cbn; split; [lia|eauto]..|by apply elem_of_nil in Hin].
    + intros i p v n Hi Hp. unfold small_queue. rewrite !elem_of_cons.
      do 8 (destruct i as [|i]; [injection Hi as <- <- <-; first [lia | by auto]|]). done.
  - intros k i Hin. unfold small_queue in Hin. rewrite !elem_of_cons in Hin. rewrite !elem_of_cons.
    destruct Hin as [[= -> ->]|[[= -> ->]|Hin]]; [by auto..|by apply elem_of_nil in Hin].
  - intros [|h] i Hh Hi; [|cbn in Hh; lia]. unfold small_queue. setoid_rewrite elem_of_cons.
    rewrite !elem_of_cons in Hi. destruct Hi as [->|[->|Hi]]; [eexists; split; [by left|done]| |by apply elem_of_nil in Hi].
    eexists; split; [right; by apply list_elem_of_singleton|done].
Qed.

Lemma small_refines : pt_refines 1 small_table small_queue.
Proof. eexists. apply small_rep. Qed.

Lemma getpageaddr_refines_witness :
  getpageaddr 1 3 0x2000 small_table = Ok (0x3000, small_table).
Proof. apply (getpageaddr_refines 1 small_table small_queue 3 0x2000 small_refines). Defined.

Lemma setptentry_refines_witness :
  ∃ st', setptentry 1 2 1 5 0x7000 small_table = Ok (0, st') ∧
    pt_refines 1 st' (small_queue ++ [((5, 0x7000), 2%nat)]).
Proof.
  apply (setptentry_refines 1 small_table small_queue 2 1 5 0x7000 (mk_ptpage (-1) 0x80002000 0 None None)
    small_refines); [reflexivity|cbn; lia|lia|]. by apply (bool_decide_unpack _); vm_compute.
Defined.

Lemma freeuser_refines_witness :
  ∃ st', freeuser 1 2 0x1000 small_table = Ok (0, st') ∧
    pt_refines 1 st' [((3, 0x2000), 3%nat)] ∧
    pg_hdr <$> pagetable st' = <[1%nat := (-1, 0x1000, 0)]> (pg_hdr <$> pagetable small_table).
Proof. apply (freeuser_refines 1 small_table small_queue 2 0x1000 small_refines). Defined.

Lemma getfreeframes_first_fit_witness :
  getfreeframes 8 2 small_table = Ok (6, small_table) ∧
  first_fit (free_map (pagetable small_table)) 3 = None.
Proof.
  split; [|reflexivity].
  destruct (getfreeframes_first_fit small_table 2) as [H _]; [|lia|lia|exact H].
  split; [cbn; lia|]. repeat (constructor; [cbn; lia|]). constructor.
Defined.
