(* ===== verification/SwapProps.v ===== *)
(** * Properties of the swap file ([kern/vm/swapfile.c])

    The swap file is a finite map from pages to page contents. *)

From S2P Require Import Prelude Machine Spinlock Pt PtSpec PtFrames PtTable Kernel Vmstats.
From S2P Require Import Tlb Swapfile Coremap VmDemo.

Section swap.
Context {ops : VnodeOps} {laws : VnodeLaws ops}.

(** A frame that a transfer can use *)
Definition frame_ok (paddr : Z) : Prop := 0 ≤ paddr ∧ paddr + PAGE_SIZE ≤ MIPS_KSEG0.

Record swap_pre (k : kernel) : Prop := {
  sp_quiet : quiet k;
  sp_wf : swap_wf k;
  sp_stats : length (k_stats k) = VMSTATSLEN
}.

Lemma contents_slot k key : swap_contents k key = None ↔ slot_of key (k_swapmap k) = None.
Proof. unfold swap_contents. apply fmap_None. Qed.

Lemma swapin_step k pid addr readfrom :
  swap_pre k → frame_ok readfrom → pid ≠ -1 → swap_contents k (pid, addr) = None →
  is_Some (free_slot (k_swapmap k)) →
  ∃ k', swapinpage pid addr readfrom k = Ok (0, k') ∧ swap_pre k' ∧
    k_mem k' = k_mem k ∧
    ∀ key, swap_contents k' key =
      if decide (key = (pid, addr)) then Some (page_at (k_mem k) readfrom) else swap_contents k key.
Proof.
  intros [Hq Hwf Hst] [H0 Htop] Hpid Hnew%contents_slot [j Hj].
  destruct (swapinpage_run k pid addr readfrom j Hq Hwf Hst H0 Htop Hj) as (fs & Hrun & Hd & Ho & Hv).
  destruct (swapped_in_wf k pid addr j fs _ Hwf Hj Hnew Hpid (length_page_at _ _) Hd
    (Hv _ (swap_vnode _ Hwf))) as [Hwf' Hsc].
  exists (swapped_in j pid addr fs k). split; [done|]. split; [split|done].
  - by apply (quiet_same k).
  - done.
  - cbn. by rewrite length_stats_incr.
Qed.

Lemma swapout_step k pid addr readin c :
  swap_pre k → frame_ok readin → pid ≠ -1 → swap_contents k (pid, addr) = Some c →
  ∃ k', swapoutpage pid addr readin k = Ok (0, k') ∧ swap_pre k' ∧
    k_mem k' = mem_write (k_mem k) readin c ∧ Z.of_nat (length c) = PAGE_SIZE ∧
    ∀ key, swap_contents k' key = if decide (key = (pid, addr)) then None else swap_contents k key.
Proof.
  intros [Hq Hwf Hst] [H0 Htop] Hpid Hc.
  destruct (slot_of (pid, addr) (k_swapmap k)) as [j|] eqn:Hj.
  2:{ unfold swap_contents in Hc. by rewrite Hj in Hc. }
  destruct (swapoutpage_run k pid addr readin j c Hq Hwf Hpid H0 Htop Hj Hc) as (fs & Hrun & Hd & Hv).
  destruct (swapped_out_wf k pid addr j readin c fs Hwf Hj Hd (Hv _ (swap_vnode _ Hwf))) as [Hwf' Hsc].
  exists (swapped_out j readin c fs k). split; [done|].
  split; [split; [by apply (quiet_same k)|done|done]|].
  split; [done|]. split; [exact (swap_contents_length k (pid, addr) c Hwf Hc)|done].
Qed.

Lemma quiet_swapmap k l : quiet k → quiet (set_k_swapmap l k).
Proof. intros Hq. by apply (quiet_same k). Qed.

(** [swapinpage] inserts the page with the contents of the frame, and
    leaves the other saved pages and memory alone. *)
Theorem swapinpage_inserts k pid addr readfrom :
  swap_pre k → frame_ok readfrom → pid ≠ -1 → swap_contents k (pid, addr) = None →
  is_Some (free_slot (k_swapmap k)) →
  ∃ k', swapinpage pid addr readfrom k = Ok (0, k') ∧ swap_pre k' ∧ k_mem k' = k_mem k ∧
    ∀ key, swap_contents k' key =
      if decide (key = (pid, addr)) then Some (page_at (k_mem k) readfrom) else swap_contents k key.
Proof. apply swapin_step. Qed.

(** [swapoutpage] of a saved page puts its contents in the frame, leaves
    the rest of memory alone and deletes the page; of a page that is not saved,
    it returns [EADDRNOTAVAIL] and changes nothing. *)
Theorem swapoutpage_deletes k pid addr readin :
  swap_pre k → frame_ok readin → pid ≠ -1 →
  match swap_contents k (pid, addr) with
  | Some c =>
      ∃ k', swapoutpage pid addr readin k = Ok (0, k') ∧ swap_pre k' ∧
        page_at (k_mem k') readin = c ∧
        (∀ x, ¬ readin ≤ x < readin + PAGE_SIZE → k_mem k' x = k_mem k x) ∧
        ∀ key, swap_contents k' key = if decide (key = (pid, addr)) then None else swap_contents k key
  | None => swapoutpage pid addr readin k = Ok (EADDRNOTAVAIL, k)
  end.
Proof.
  intros Hpre Hf Hpid. destruct (swap_contents k (pid, addr)) as [c|] eqn:Hc.
  - destruct (swapout_step k pid addr readin c Hpre Hf Hpid Hc) as (k' & Hrun & Hpre' & Hm & Hlen & Hsc).
    exists k'. split_and!; try done.
    + rewrite Hm. by apply page_at_write.
    + intros x Hx. rewrite Hm. unfold mem_write. by rewrite Hlen, decide_False.
  - apply contents_slot in Hc. destruct Hpre. by apply swapoutpage_absent.
Qed.

(** C4. The round trip: a page saved from one frame and brought back, whatever
    happened to memory in between, has its contents in the new frame, and the
    swap file holds what it held before. *)
Theorem swap_roundtrip k pid addr readfrom readin m :
  swap_pre k → frame_ok readfrom → frame_ok readin → pid ≠ -1 →
  swap_contents k (pid, addr) = None → is_Some (free_slot (k_swapmap k)) →
  ∃ k1 k2, swapinpage pid addr readfrom k = Ok (0, k1) ∧
    swapoutpage pid addr readin (set_k_mem m k1) = Ok (0, k2) ∧
    page_at (k_mem k2) readin = page_at (k_mem k) readfrom ∧
    ∀ key, swap_contents k2 key = swap_contents k key.
Proof.
  intros Hpre Hf1 Hf2 Hpid Hnone Hfree.
  destruct (swapin_step k pid addr readfrom Hpre Hf1 Hpid Hnone Hfree) as (k1 & Hrun1 & [Q1 W1 S1] & _ & Hsc1).
  assert (swap_pre (set_k_mem m k1)) as Hpre1.
  { split; [by apply (quiet_same k1)|by destruct W1|done]. }
  destruct (swapout_step (set_k_mem m k1) pid addr readin (page_at (k_mem k) readfrom) Hpre1 Hf2 Hpid)
    as (k2 & Hrun2 & _ & Hm & Hlen & Hsc2).
  { etrans; [apply (Hsc1 (pid, addr))|]. by rewrite decide_True. }
  exists k1, k2. split_and!; [done|done| |].
  - rewrite Hm. by apply page_at_write.
  - intros key. rewrite Hsc2. case_decide as Hk; [by subst|]. etrans; [apply (Hsc1 key)|].
    by rewrite decide_False.
Qed.

(** [removeswapentries] deletes exactly the pages of the process. *)
Theorem removeswapentries_deletes k pid :
  swap_pre k → pid ≠ -1 →
  ∃ k', removeswapentries pid k = Ok (tt, k') ∧ swap_pre k' ∧
    ∀ key, swap_contents k' key = if decide (key.1 = pid) then None else swap_contents k key.
Proof.
  intros [Hq Hwf Hst] Hpid. exists (swap_removed pid k).
  destruct (swap_removed_wf k pid Hwf) as [Hwf' Hsc].
  split; [by apply removeswapentries_run|]. split; [|done]. split; [by apply (quiet_same k)|done|done].
Qed.

(** When all slots are taken, saving a page stops the machine. *)
Theorem swapinpage_panics_when_full k pid addr readfrom :
  quiet k → length (k_swapmap k) = Z.to_nat SWAPPAGES →
  (∀ j sp, k_swapmap k !! j = Some sp → occupied sp) →
  swapinpage pid addr readfrom k = Stop (Panic "Swapfile has reached the maximum memory allowed").
Proof.
  intros Hq Hlen Hall. apply swapinpage_full; [done|done|]. unfold free_slot.
  apply fmap_None, list_find_None, Forall_lookup. intros j sp Hj. by apply (Hall j).
Qed.
End swap.

(** ** On the demo machine *)

Lemma demo_swap_pre : swap_pre demo_kernel.
Proof. split; [exact demo_quiet|apply demo_swap|reflexivity]. Qed.

Lemma demo_unsaved key : swap_contents demo_kernel key = None.
Proof. apply contents_slot, demo_swap. Qed.

Lemma swapinpage_inserts_witness :
  ∃ k', swapinpage 2 0x410000 0x5000 demo_kernel = Ok (0, k') ∧ swap_pre k' ∧
    k_mem k' = k_mem demo_kernel ∧
    ∀ key, swap_contents k' key =
      if decide (key = (2, 0x410000)) then Some (page_at (k_mem demo_kernel) 0x5000)
      else swap_contents demo_kernel key.
Proof.
  apply (swapinpage_inserts demo_kernel 2 0x410000 0x5000 demo_swap_pre); [|lia|apply demo_unsaved|].
  - unfold frame_ok, PAGE_SIZE, MIPS_KSEG0. lia.
  - eexists. vm_compute. reflexivity.
Defined.

Lemma swapoutpage_deletes_witness :
  swapoutpage 2 0x410000 0x5000 demo_kernel = Ok (EADDRNOTAVAIL, demo_kernel).
Proof.
  pose proof (swapoutpage_deletes demo_kernel 2 0x410000 0x5000 demo_swap_pre) as H.
  rewrite demo_unsaved in H. apply H; [|lia]. unfold frame_ok, PAGE_SIZE, MIPS_KSEG0. lia.
Defined.

Lemma swap_roundtrip_witness :
  ∃ k1 k2, swapinpage 2 0x410000 0x5000 demo_kernel = Ok (0, k1) ∧
    swapoutpage 2 0x410000 0x6000 (set_k_mem (λ _, 77) k1) = Ok (0, k2) ∧
    page_at (k_mem k2) 0x6000 = page_at (k_mem demo_kernel) 0x5000 ∧
    ∀ key, swap_contents k2 key = swap_contents demo_kernel key.
Proof.
  apply (swap_roundtrip demo_kernel 2 0x410000 0x5000 0x6000 (λ _, 77) demo_swap_pre);
    [unfold frame_ok, PAGE_SIZE, MIPS_KSEG0; lia|unfold frame_ok, PAGE_SIZE, MIPS_KSEG0; lia|lia
    |apply demo_unsaved|].
  eexists. vm_compute. reflexivity.
Defined.

Lemma removeswapentries_deletes_witness :
  ∃ k', removeswapentries 2 demo_kernel = Ok (tt, k') ∧ swap_pre k' ∧
    ∀ key, swap_contents k' key = if decide (key.1 = 2) then None else swap_contents demo_kernel key.
Proof. apply (removeswapentries_deletes demo_kernel 2 demo_swap_pre). lia. Defined.

Definition full_kernel : kernel (ops := ram_ops) :=
  set_k_swapmap (replicate (Z.to_nat SWAPPAGES) (mk_swappage 3 0)) demo_kernel.

Lemma swapinpage_panics_when_full_witness :
  swapinpage 2 0x410000 0x5000 full_kernel =
    Stop (Panic "Swapfile has reached the maximum memory allowed").
Proof.
  apply (swapinpage_panics_when_full full_kernel 2 0x410000 0x5000).
  - exact (quiet_swapmap demo_kernel _ demo_quiet).
  - exact (length_replicate _ _).
  - intros j sp Hj. apply lookup_replicate in Hj as [-> _]. intros Hp. discriminate Hp.
Defined.
