(* ===== verification/MemBlock.v ===== *)
(** * Blocks of memory ([common/libc/string]: memcpy, memmove, memset, bzero)

    The functions run on a byte-addressed memory; a [long] is four bytes.  A
    region does not wrap around the top of memory, as the comment in memmove.c
    says.  The specification of a copy is pointwise: [copied]. *)

From S2P Require Import Prelude Machine.

(** [sizeof(long)] *)
Definition LONG : Z := 4.

(** [d[i] = s[i]] for elements of [w] bytes *)
Definition copy_elem (w dst src i : Z) : M memory () :=
  modify (λ m, mem_write m (dst + w * i) (mem_read m (src + w * i) w)).

Definition word_aligned (a : Z) : bool := a `mod` LONG =? 0.

Definition memcpy (dst src len : Z) : M memory Z :=
  (if word_aligned dst && word_aligned src && word_aligned len then
     for_list (seqZ 0 (len / LONG)) (copy_elem LONG dst src)
   else for_list (seqZ 0 len) (copy_elem 1 dst src)) ;;
  mret dst.

(** [for (i=n; i>0; i--) body(i)] *)
Definition downto (n : Z) : list Z := (λ j, n - j) <$> seqZ 0 n.

Definition memmove (dst src len : Z) : M memory Z :=
  if dst <? src then memcpy dst src len
  else
    (if word_aligned dst && word_aligned src && word_aligned len then
       for_list (downto (len / LONG)) (λ i, copy_elem LONG dst src (i - 1))
     else for_list (downto len) (λ i, copy_elem 1 dst src (i - 1))) ;;
    mret dst.

Definition memset (ptr ch len : Z) : M memory Z :=
  for_list (seqZ 0 len) (λ i, modify (λ m, mem_write m (ptr + i) [u8 ch])) ;;
  mret ptr.

Definition bzero (block len : Z) : M memory () :=
  if word_aligned block && word_aligned len then
    for_list (seqZ 0 (len / LONG)) (λ i, modify (λ m, mem_write m (block + LONG * i) [0; 0; 0; 0]))
  else
    for_list (seqZ 0 len) (λ i, modify (λ m, mem_write m (block + i) [0])).

(** ** Specification *)

(** The memory in which the [n] bytes at [src] were copied to [dst] at once *)
Definition copied (m : memory) (dst src n : Z) : memory := λ x,
  if decide (dst ≤ x < dst + n) then m (src + (x - dst)) else m x.

(** The memory in which the [n] bytes at [dst] are [b] *)
Definition filled (m : memory) (dst b n : Z) : memory := λ x,
  if decide (dst ≤ x < dst + n) then b else m x.

Lemma mem_write_read m m' a b n x :
  0 ≤ n → mem_write m a (mem_read m' b n) x = if decide (a ≤ x < a + n) then m' (b + (x - a)) else m x.
Proof.
  intros Hn. unfold mem_write. rewrite length_mem_read, Z2Nat.id by done.
  case_decide as H; [|done]. unfold mem_read. rewrite list_lookup_fmap.
  rewrite (proj2 (lookup_seqZ 0 n (Z.to_nat (x - a)) (x - a))) by lia. done.
Qed.

Lemma mem_write_const m a b k x :
  mem_write m a (replicate k b) x = filled m a b (Z.of_nat k) x.
Proof.
  unfold mem_write, filled. rewrite length_replicate. case_decide; [|done].
  by rewrite lookup_replicate_2 by lia.
Qed.

Section copy.
Variables (dst src w : Z) (m : memory).
Hypothesis Hw : 0 < w.

(** Forwards is right when the destination is not inside the source. *)
Lemma copy_forward n :
  0 ≤ n → dst ≤ src ∨ src + w * n ≤ dst →
  wp (for_list (seqZ 0 n) (copy_elem w dst src)) (λ _ m', ∀ x, m' x = copied m dst src (w * n) x) m.
Proof.
  intros Hn Hov. apply (wp_for_seqZ _ _ (λ k m', ∀ x, m' x = copied m dst src (w * k) x)); [done| |].
  - intros x. unfold copied. rewrite decide_False by lia. done.
  - intros k m' Hk Hm'. unfold copy_elem. apply wp_modify. intros x.
    rewrite mem_write_read by lia. unfold copied.
    assert (w * (k + 1) = w * k + w) as Hs by lia. rewrite Hs.
    assert (w * (k + 1) ≤ w * n) by (apply Z.mul_le_mono_nonneg_l; lia).
    assert (0 ≤ w * k) by lia.
    case_decide.
    + rewrite Hm'. unfold copied. rewrite decide_False by lia. rewrite decide_True by lia. f_equal. lia.
    + rewrite Hm'. unfold copied. do 2 case_decide; (done || lia).
Qed.

(** Backwards is right when the destination is not below the source. *)
Lemma copy_backward n :
  0 ≤ n → src ≤ dst ∨ dst + w * n ≤ src →
  wp (for_list (downto n) (λ i, copy_elem w dst src (i - 1)))
    (λ _ m', ∀ x, m' x = copied m dst src (w * n) x) m.
Proof.
  intros Hn Hov. unfold downto. apply wp_for_fmap.
  eapply wp_mono; [apply (wp_for_seqZ _ _ (λ k m', ∀ x, m' x =
    if decide (dst + w * (n - k) ≤ x < dst + w * n) then m (src + (x - dst)) else m x)); [done| |]|].
  - intros x. rewrite decide_False by lia. done.
  - intros k m' Hk Hm'. unfold copy_elem. apply wp_modify. intros x.
    rewrite mem_write_read by lia.
    assert (w * (n - (k + 1)) = w * (n - k - 1)) as -> by lia.
    assert (w * (n - k) = w * (n - k - 1) + w) as Hs by lia.
    assert (0 ≤ w * (n - k - 1)) by (apply Z.mul_nonneg_nonneg; lia).
    assert (w * (n - k) ≤ w * n) by (apply Z.mul_le_mono_nonneg_l; lia).
    destruct (decide (dst + w * (n - k - 1) ≤ x < dst + w * (n - k - 1) + w)).
    + rewrite Hm'. rewrite decide_False by lia. rewrite decide_True by lia. f_equal. lia.
    + rewrite Hm'. do 2 case_decide; (done || lia).
  - intros [] m' Hm' x. rewrite Hm'. unfold copied. rewrite Z.sub_diag, Z.mul_0_r, Z.add_0_r. done.
Qed.
End copy.

Lemma word_aligned_div len : word_aligned len = true → 0 ≤ len → LONG * (len / LONG) = len.
Proof. unfold word_aligned, LONG. intros H%Z.eqb_eq Hlen. pose proof (Z.div_mod len 4). lia. Qed.

Lemma memcpy_ok dst src len m :
  0 ≤ len → dst ≤ src ∨ src + len ≤ dst →
  wp (memcpy dst src len) (λ r m', r = dst ∧ ∀ x, m' x = copied m dst src len x) m.
Proof.
  intros Hlen Hov. unfold memcpy. apply wp_bind. unfold word_aligned at 1 2.
  destruct (_ && _ && _) eqn:Hal.
  - apply andb_true_iff in Hal as [_ Hl]. apply word_aligned_div in Hl; [|done].
    eapply wp_mono; [apply copy_forward; [done|unfold LONG in *; lia|rewrite Hl; lia]|].
    intros [] m' Hm'. apply wp_ret. split; [done|]. intros x. by rewrite Hm', Hl.
  - eapply wp_mono; [apply copy_forward; [done|lia|lia]|].
    intros [] m' Hm'. apply wp_ret. split; [done|]. intros x. by rewrite Hm', Z.mul_1_l.
Qed.

Lemma memmove_ok dst src len m :
  0 ≤ len → wp (memmove dst src len) (λ r m', r = dst ∧ ∀ x, m' x = copied m dst src len x) m.
Proof.
  intros Hlen. unfold memmove. destruct (Z.ltb_spec dst src) as [Hlt|Hge].
  { apply memcpy_ok; [done|]. left. lia. }
  apply wp_bind. destruct (_ && _ && _) eqn:Hal.
  - apply andb_true_iff in Hal as [_ Hl]. apply word_aligned_div in Hl; [|done].
    eapply wp_mono; [apply copy_backward; [done|unfold LONG in *; lia|left; lia]|].
    intros [] m' Hm'. apply wp_ret. split; [done|]. intros x. by rewrite Hm', Hl.
  - eapply wp_mono; [apply copy_backward; [done|lia|left; lia]|].
    intros [] m' Hm'. apply wp_ret. split; [done|]. intros x. by rewrite Hm', Z.mul_1_l.
Qed.

Lemma fill_loop m a b w n :
  0 ≤ n →
  wp (for_list (seqZ 0 n) (λ i, modify (λ m, mem_write m (a + Z.of_nat w * i) (replicate w b))))
    (λ _ m', ∀ x, m' x = filled m a b (Z.of_nat w * n) x) m.
Proof.
  intros Hn. apply (wp_for_seqZ _ _ (λ k m', ∀ x, m' x = filled m a b (Z.of_nat w * k) x)); [done| |].
  - intros x. unfold filled. rewrite decide_False by lia. done.
  - intros k m' Hk Hm'. apply wp_modify. intros x. rewrite mem_write_const. unfold filled.
    rewrite Hm'. unfold filled. assert (0 ≤ Z.of_nat w * k) by lia.
    rewrite Z.mul_add_distr_l, Z.mul_1_r. repeat case_decide; (done || lia).
Qed.

Lemma fill_bytes m a b n :
  0 ≤ n →
  wp (for_list (seqZ 0 n) (λ i, modify (λ m, mem_write m (a + i) [b])))
    (λ _ m', ∀ x, m' x = filled m a b n x) m.
Proof.
  intros Hn. pose proof (fill_loop m a b 1 n Hn) as Hl. change (Z.of_nat 1) with 1 in Hl.
  rewrite Z.mul_1_l in Hl. revert Hl. unfold wp. erewrite for_list_ext; [done|].
  intros i. cbn beta. by rewrite Z.mul_1_l.
Qed.

Lemma memset_ok ptr ch len m :
  0 ≤ len → wp (memset ptr ch len) (λ r m', r = ptr ∧ ∀ x, m' x = filled m ptr (u8 ch) len x) m.
Proof.
  intros Hlen. unfold memset. apply wp_bind. eapply wp_mono; [by apply fill_bytes|].
  intros [] m' Hm'. by apply wp_ret.
Qed.

Lemma bzero_ok block len m :
  0 ≤ len → wp (bzero block len) (λ _ m', ∀ x, m' x = filled m block 0 len x) m.
Proof.
  intros Hlen. unfold bzero. destruct (_ && _) eqn:Hal; [|by apply fill_bytes].
  apply andb_true_iff in Hal as [_ Hl]. apply word_aligned_div in Hl; [|done].
  eapply wp_mono; [apply (fill_loop m block 0 4); unfold LONG in *; lia|].
  intros [] m' Hm' x. rewrite Hm'. change (Z.of_nat 4) with LONG. by rewrite Hl.
Qed.
