(* ===== verification/Str.v ===== *)
(** * Strings ([common/libc/string], [common/libc/stdlib/atoi.c], [kern/lib/misc.c])

    A [char] is its byte; the functions compare chars for equality and with
    zero, and where the source converts to [unsigned char] the byte is that.
    [cstr m a l] says that the bytes [l], none of them zero, and a terminator
    are at address [a]. *)

From S2P Require Import Prelude Machine MemBlock.

Definition NULL : Z := 0.

(** [str[i]] *)
Definition load (a : Z) : M memory Z := gets (λ m, m a).
Definition store (a b : Z) : M memory () := modify (λ m, mem_write m a [u8 b]).

Definition strlen (str : Z) : M memory Z :=
  while (λ ret,
    b ← load (str + ret);
    if b =? 0 then mret (inr ret) else mret (inl (u32 (ret + 1)))) 0.

Definition strcpy (dest src : Z) : M memory Z :=
  i ← while (λ i,
    b ← load (src + i);
    if b =? 0 then mret (inr i)
    else store (dest + i) b ;; mret (inl (u32 (i + 1)))) 0;
  store (dest + i) 0 ;;
  mret dest.

Definition strcat (dest src : Z) : M memory Z :=
  offset ← strlen dest;
  strcpy (dest + offset) src ;;
  mret dest.

Definition strcmp (a b : Z) : M memory Z :=
  i ← while (λ i,
    x ← load (a + i);
    y ← load (b + i);
    if negb (x =? 0) && (x =? y) then mret (inl (u32 (i + 1))) else mret (inr i)) 0;
  x ← load (a + i);
  y ← load (b + i);
  if y <? x then mret 1
  else if x =? y then mret 0
  else mret (-1).

Definition strchr (s ch_arg : Z) : M memory Z :=
  let ch := u8 ch_arg in
  r ← while (λ s,
    b ← load s;
    if b =? 0 then mret (inr (s, false))
    else if b =? ch then mret (inr (s, true))
    else mret (inl (s + 1))) s;
  if (r.2 : bool) then mret r.1
  else
    b ← load r.1;
    if b =? ch then mret r.1 else mret NULL.

Definition strrchr (s ch_arg : Z) : M memory Z :=
  let ch := u8 ch_arg in
  n ← strlen s;
  while (λ i,
    if 0 <? i then
      let i := i - 1 in
      b ← load (s + i);
      if b =? ch then mret (inr (s + i)) else mret (inl i)
    else mret (inr NULL)) (u32 (n + 1)).

(** The two scanning loops of [strtok_r]: skip the bytes for which [strchr(seps, b)]
    is not NULL ([want] true) or is NULL *)
Definition scan_seps (seps : Z) (want : bool) (p : Z) : M memory Z :=
  while (λ p,
    b ← load p;
    if b =? 0 then mret (inr p)
    else
      r ← strchr seps b;
      if Bool.eqb (negb (r =? NULL)) want then mret (inl (p + 1)) else mret (inr p)) p.

(** The result is the word and the new value of [*context]. *)
Definition strtok_r (string seps context : Z) : M memory (Z * Z) :=
  let context := if negb (string =? NULL) then string else context in
  let head := context in
  if head =? NULL then mret (NULL, context)
  else
    head ← scan_seps seps true head;
    b ← load head;
    if b =? 0 then mret (NULL, NULL)
    else
      tail ← scan_seps seps false head;
      b ← load tail;
      if b =? 0 then mret (head, NULL)
      else
        store tail 0 ;;
        mret (head, tail + 1).

(** [digits] is the address of the static array of that name. *)
Definition atoi (digits s : Z) : M memory Z :=
  s ← while (λ s,
    b ← load s;
    if (b =? 32) || (b =? 9) then mret (inl (s + 1)) else mret (inr s)) s;
  b ← load s;
  let '(neg, s) := if b =? 45 then (true, s + 1) else if b =? 43 then (false, s + 1) else (false, s) in
  val ← while (λ st : Z * Z,
    b ← load st.1;
    if b =? 0 then mret (inr st.2)
    else
      where_ ← strchr digits b;
      if where_ =? NULL then mret (inr st.2)
      else
        let digit := u32 (where_ - digits) in
        mret (inl (st.1 + 1, u32 (u32 (st.2 * 10) + digit)))) (s, 0);
  mret (s32 (if (neg : bool) then u32 (- val) else val)).

(** [kmalloc] is the kernel allocator. *)
Definition kstrdup (kmalloc : Z → M memory Z) (s : Z) : M memory Z :=
  n ← strlen s;
  z ← kmalloc (u32 (n + 1));
  if z =? NULL then mret NULL
  else strcpy z s ;; mret z.

(** ** Strings in memory *)
Record cstr (m : memory) (a : Z) (l : list Z) : Prop := {
  cs_bytes : ∀ i b, l !! i = Some b → m (a + Z.of_nat i) = b ∧ 0 < b < 256;
  cs_end : m (a + Z.of_nat (length l)) = 0;
  cs_len : Z.of_nat (length l) + 1 < 2 ^ 32
}.

Lemma cstr_drop m a l k :
  cstr m a l → (k ≤ length l)%nat → cstr m (a + Z.of_nat k) (drop k l).
Proof.
  intros [Hb He Hl] Hk. split.
  - intros i b Hi. rewrite lookup_drop in Hi. destruct (Hb _ _ Hi) as [Hm ?].
    split; [|done]. rewrite <-Hm. f_equal. lia.
  - rewrite length_drop. rewrite <-He. f_equal. lia.
  - rewrite length_drop. lia.
Qed.

Lemma cstr_cons m a b l : cstr m a (b :: l) → m a = b ∧ 0 < b < 256 ∧ cstr m (a + 1) l.
Proof.
  intros H. pose proof (cs_bytes _ _ _ H 0 b eq_refl) as [Hm Hb]. rewrite Z.add_0_r in Hm.
  split; [done|]. split; [done|]. apply (cstr_drop _ _ _ 1) in H; [done|cbn; lia].
Qed.

Lemma cstr_nil m a : cstr m a [] ↔ m a = 0.
Proof.
  split; [intros [_ H _]; by rewrite Z.add_0_r in H|]. intros H. split; [done| |cbn; lia].
  cbn. by rewrite Z.add_0_r.
Qed.

Lemma cstr_ext m m' a l :
  cstr m a l → (∀ x, a ≤ x ≤ a + Z.of_nat (length l) → m' x = m x) → cstr m' a l.
Proof.
  intros [Hb He Hl] Hm. split; [|by rewrite Hm by lia|done].
  intros i b Hi. rewrite Hm; [by apply Hb|]. apply lookup_lt_Some in Hi. lia.
Qed.

Lemma cstr_inj m a l l' : cstr m a l → cstr m a l' → l = l'.
Proof.
  revert a l'. induction l as [|b l IH]; intros a [|b' l'] H H'; [done| | |].
  - apply cstr_nil in H. apply cstr_cons in H' as (? & ? & _). lia.
  - apply cstr_nil in H'. apply cstr_cons in H as (? & ? & _). lia.
  - apply cstr_cons in H as (Hb & _ & H). apply cstr_cons in H' as (Hb' & _ & H').
    f_equal; [congruence|by eapply IH].
Qed.

(** The byte at index [k] of a string, terminator included *)
Lemma cstr_at m a l k :
  cstr m a l → 0 ≤ k ≤ Z.of_nat (length l) →
  m (a + k) = default 0 (l !! Z.to_nat k) ∧ (m (a + k) = 0 ↔ k = Z.of_nat (length l)).
Proof.
  intros H Hk. destruct (l !! Z.to_nat k) as [b|] eqn:E.
  - destruct (cs_bytes _ _ _ H _ _ E) as [Hm Hb]. rewrite Z2Nat.id in Hm by lia.
    apply lookup_lt_Some in E. cbn. split; [done|]. split; intros; lia.
  - apply lookup_ge_None in E. assert (k = Z.of_nat (length l)) as -> by lia.
    rewrite (cs_end _ _ _ H). done.
Qed.

Lemma store_at m a b x : mem_write m a [u8 b] x = if decide (x = a) then u8 b else m x.
Proof.
  unfold mem_write. cbn [length]. change (Z.of_nat 1) with 1. do 2 case_decide; try lia.
  subst. by rewrite Z.sub_diag.
Qed.

Lemma strlen_ok m a l : cstr m a l → strlen a m = Ok (Z.of_nat (length l), m).
Proof.
  intros H. apply wp_result. unfold strlen.
  pose proof (cs_len _ _ _ H).
  apply (wp_while _ (λ k m', m' = m ∧ 0 ≤ k ≤ Z.of_nat (length l)) (λ k _, Z.of_nat (length l) - k));
    [split; [done|lia]|intros ? ? [_ ?]; lia|lia|].
  intros k m' [-> Hk]. unfold load. wp_steps. destruct (cstr_at m a l k H Hk) as [_ Hz].
  destruct (Z.eqb_spec (m (a + k)) 0) as [E|E]; apply wp_ret.
  - split; [by apply Hz|done].
  - assert (k ≠ Z.of_nat (length l)) by (by rewrite <-Hz). rewrite u32_id by lia. split; [split; [done|lia]|lia].
Qed.

(** ** Copies *)

Lemma u8_id b : 0 ≤ b < 256 → u8 b = b.
Proof. intros. by apply Z.mod_small. Qed.

(** Each byte of a string, terminator included, fits a [char]. *)
Lemma cstr_range m a l k : cstr m a l → 0 ≤ k ≤ Z.of_nat (length l) → 0 ≤ m (a + k) < 256.
Proof.
  intros H Hk. destruct (cstr_at m a l k H Hk) as [-> _].
  destruct (l !! Z.to_nat k) as [b|] eqn:E; cbn; [|lia]. destruct (cs_bytes _ _ _ H _ _ E). lia.
Qed.

(** [strcpy] copies the string and its terminator; the destination may not
    start inside the source. *)
Lemma strcpy_ok m dest src l :
  cstr m src l → dest ≤ src ∨ src + Z.of_nat (length l) < dest →
  wp (strcpy dest src) (λ r m', r = dest ∧
    ∀ x, m' x = copied m dest src (Z.of_nat (length l) + 1) x) m.
Proof.
  intros H Hov. unfold strcpy. apply wp_bind. pose proof (cs_len _ _ _ H) as Hlen.
  set (n := Z.of_nat (length l)) in *.
  apply (wp_while _ (λ k m', 0 ≤ k ≤ n ∧ ∀ x, m' x = copied m dest src k x) (λ k _, n - k));
    [|intros ? ? [? _]; lia|lia|].
  { split; [lia|]. intros x. unfold copied. rewrite decide_False by lia. done. }
  intros k m' [Hk Hm']. unfold load, store. wp_steps.
  assert (m' (src + k) = m (src + k)) as ->.
  { rewrite Hm'. unfold copied. rewrite decide_False by lia. done. }
  destruct (cstr_at m src l k H Hk) as [_ Hz]. pose proof (cstr_range m src l k H Hk) as Hr.
  destruct (Z.eqb_spec (m (src + k)) 0) as [E|E]; wp_steps.
  - apply Hz in E. split; [done|]. intros x. rewrite store_at. change (u8 0) with 0. rewrite Hm'.
    unfold copied. fold n in E. subst k. case_decide as Hx.
    + subst x. rewrite decide_True by lia. rewrite <-(cs_end _ _ _ H). f_equal. fold n. lia.
    + do 2 case_decide; (done || lia).
  - assert (k ≠ n) by (intros ->; by apply E, Hz). rewrite u32_id by lia. split; [split; [lia|]|lia].
    intros x. rewrite store_at, u8_id, Hm' by done. unfold copied. case_decide as Hx.
    + subst x. rewrite decide_True by lia. f_equal. lia.
    + do 2 case_decide; (done || lia).
Qed.

Lemma copied_cstr m dest src l :
  cstr m src l → ∀ m', (∀ x, m' x = copied m dest src (Z.of_nat (length l) + 1) x) → cstr m' dest l.
Proof.
  intros [Hb He Hl] m' Hm'. split; [| |done].
  - intros i b Hi. pose proof (lookup_lt_Some _ _ _ Hi). rewrite Hm'. unfold copied.
    rewrite decide_True by lia. destruct (Hb i b Hi). split; [|done]. rewrite <-H0. f_equal. lia.
  - rewrite Hm'. unfold copied. rewrite decide_True by lia. rewrite <-He. f_equal. lia.
Qed.

Lemma cstr_app m a l1 l2 :
  (∀ i b, l1 !! i = Some b → m (a + Z.of_nat i) = b ∧ 0 < b < 256) →
  cstr m (a + Z.of_nat (length l1)) l2 → Z.of_nat (length l1 + length l2) + 1 < 2 ^ 32 →
  cstr m a (l1 ++ l2).
Proof.
  intros H1 [H2 He _] Hlen. split.
  - intros i b Hi. apply lookup_app_Some in Hi as [Hi|[Hge Hi]]; [by apply H1|].
    destruct (H2 _ _ Hi) as [Hm ?]. split; [|done]. rewrite <-Hm. f_equal. lia.
  - rewrite length_app. rewrite <-He. f_equal. lia.
  - by rewrite length_app.
Qed.

Lemma strcat_ok m dest src l1 l2 :
  cstr m dest l1 → cstr m src l2 → Z.of_nat (length l1 + length l2) + 1 < 2 ^ 32 →
  dest + Z.of_nat (length l1 + length l2) < src ∨ src + Z.of_nat (length l2) < dest →
  wp (strcat dest src) (λ r m', r = dest ∧ cstr m' dest (l1 ++ l2) ∧
    ∀ x, ¬ dest ≤ x ≤ dest + Z.of_nat (length l1 + length l2) → m' x = m x) m.
Proof.
  intros H1 H2 Hlen Hov. unfold strcat. apply wp_bind. rewrite (wp_eq _ _ _ _ _ (strlen_ok _ _ _ H1)).
  apply wp_bind. eapply wp_mono; [apply (strcpy_ok m _ src l2 H2); lia|].
  intros r m' [_ Hm']. apply wp_ret. split; [done|]. split.
  - apply cstr_app; [|by eapply copied_cstr|done]. intros i b Hi. pose proof (lookup_lt_Some _ _ _ Hi).
    rewrite Hm'. unfold copied. rewrite decide_False by lia. by apply (cs_bytes _ _ _ H1).
  - intros x Hx. rewrite Hm'. unfold copied. by rewrite decide_False by lia.
Qed.

(** ** Comparison *)

(** Lexicographic order, a prefix first *)
Fixpoint lex (l1 l2 : list Z) : Z :=
  match l1, l2 with
  | [], [] => 0
  | [], _ :: _ => -1
  | _ :: _, [] => 1
  | b1 :: l1', b2 :: l2' => if b2 <? b1 then 1 else if b1 =? b2 then lex l1' l2' else -1
  end.

Lemma lex_app p l1 l2 : lex (p ++ l1) (p ++ l2) = lex l1 l2.
Proof. induction p as [|b p IH]; [done|]. cbn. by rewrite Z.ltb_irrefl, Z.eqb_refl. Qed.

Lemma lex_0 l1 l2 : lex l1 l2 = 0 ↔ l1 = l2.
Proof.
  revert l2. induction l1 as [|b1 l1 IH]; intros [|b2 l2]; cbn; try done.
  destruct (Z.ltb_spec b2 b1) as [?|?]; [split; [done|]; intros [= -> _]; lia|].
  destruct (Z.eqb_spec b1 b2) as [->|?]; [rewrite IH; naive_solver|naive_solver].
Qed.

Lemma lex_antisym l1 l2 : lex l2 l1 = - lex l1 l2.
Proof.
  revert l2. induction l1 as [|b1 l1 IH]; intros [|b2 l2]; cbn; try done.
  destruct (Z.ltb_spec b2 b1), (Z.ltb_spec b1 b2), (Z.eqb_spec b1 b2), (Z.eqb_spec b2 b1);
    subst; try lia; apply IH.
Qed.

(** What [strcmp] returns at the first index where the strings differ or end *)
Lemma lex_at l1 l2 k :
  (k ≤ length l1)%nat → (k ≤ length l2)%nat → take k l1 = take k l2 →
  (∀ b, l1 !! k = Some b → 0 < b) → (∀ b, l2 !! k = Some b → 0 < b) →
  let x := default 0 (l1 !! k) in let y := default 0 (l2 !! k) in
  x = 0 ∨ x ≠ y →
  lex l1 l2 = if y <? x then 1 else if x =? y then 0 else -1.
Proof.
  intros Hk1 Hk2 Htk Hp1 Hp2 x y Hxy.
  rewrite <-(take_drop k l1), <-(take_drop k l2), Htk, lex_app.
  assert (l1 !! k = drop k l1 !! 0%nat) as E1 by (by rewrite lookup_drop, Nat.add_0_r).
  assert (l2 !! k = drop k l2 !! 0%nat) as E2 by (by rewrite lookup_drop, Nat.add_0_r).
  subst x y. rewrite E1 in *. rewrite E2 in *.
  destruct (drop k l1) as [|b1 l1'], (drop k l2) as [|b2 l2']; cbn -[Z.ltb Z.eqb] in *; [done| | |].
  - pose proof (Hp2 b2 eq_refl). destruct (Z.ltb_spec b2 0), (Z.eqb_spec 0 b2); (lia || done).
  - pose proof (Hp1 b1 eq_refl). destruct (Z.ltb_spec 0 b1); (lia || done).
  - pose proof (Hp1 b1 eq_refl). destruct (Z.ltb_spec b2 b1); [done|].
    destruct (Z.eqb_spec b1 b2); [lia|done].
Qed.

Lemma strcmp_ok m a b l1 l2 :
  cstr m a l1 → cstr m b l2 → strcmp a b m = Ok (lex l1 l2, m).
Proof.
  intros H1 H2. apply wp_result. unfold strcmp. apply wp_bind.
  pose proof (cs_len _ _ _ H1). pose proof (cs_len _ _ _ H2).
  apply (wp_while _ (λ k m', m' = m ∧ 0 ≤ k ≤ Z.of_nat (length l1) ∧ k ≤ Z.of_nat (length l2) ∧
    take (Z.to_nat k) l1 = take (Z.to_nat k) l2) (λ k _, Z.of_nat (length l1) - k));
    [split_and!; (done || lia)|intros ? ? (_ & ? & _); lia|lia|].
  intros k m' (-> & Hk1 & Hk2 & Htk). unfold load. wp_steps.
  destruct (cstr_at m a l1 k H1 Hk1) as [E1 Z1], (cstr_at m b l2 k H2 ltac:(lia)) as [E2 Z2].
  destruct (negb _ && _) eqn:Hc; wp_steps.
  - apply andb_true_iff in Hc as [Hn%negb_true_iff%Z.eqb_neq He%Z.eqb_eq].
    assert (k ≠ Z.of_nat (length l1)) by (by rewrite <-Z1).
    assert (k ≠ Z.of_nat (length l2)) by (by rewrite <-Z2, <-He).
    rewrite u32_id by lia. split; [|lia]. split_and!; [done|lia|lia|lia|].
    destruct (lookup_lt_is_Some_2 l1 (Z.to_nat k) ltac:(lia)) as [x Hx].
    destruct (lookup_lt_is_Some_2 l2 (Z.to_nat k) ltac:(lia)) as [y Hy].
    rewrite Z2Nat.inj_add, Nat.add_1_r by lia.
    rewrite (take_S_r _ _ _ Hx), (take_S_r _ _ _ Hy), Htk. f_equal. f_equal.
    rewrite Hx in E1. rewrite Hy in E2. cbn in *. congruence.
  - rewrite E1, E2.
    rewrite (lex_at l1 l2 (Z.to_nat k)); [|lia|lia|done| | |].
    + cbn zeta. case (_ <? _); [by apply wp_ret|]. case (_ =? _); by apply wp_ret.
    + intros x Hx. by destruct (cs_bytes _ _ _ H1 _ _ Hx) as [_ [? _]].
    + intros x Hx. by destruct (cs_bytes _ _ _ H2 _ _ Hx) as [_ [? _]].
    + rewrite <-E1, <-E2. apply andb_false_iff in Hc as [Hn%negb_false_iff%Z.eqb_eq|He%Z.eqb_neq]; auto.
Qed.

(** ** Search *)

Lemma strchr_ok m s ch l :
  cstr m s l →
  strchr s ch m = Ok (match list_find (λ b, b = u8 ch) (l ++ [0]) with
                      | Some (i, _) => s + Z.of_nat i
                      | None => NULL end, m).
Proof.
  intros H. apply wp_result. unfold strchr. apply wp_bind. pose proof (cs_len _ _ _ H).
  apply (wp_while _ (λ p m', m' = m ∧ s ≤ p ≤ s + Z.of_nat (length l) ∧
      Forall (λ b, b ≠ u8 ch) (take (Z.to_nat (p - s)) l))
    (λ p _, s + Z.of_nat (length l) - p));
    [|intros ? ? (_ & ? & _); lia|lia|].
  { split_and!; [done|lia|lia|]. by rewrite Z.sub_diag. }
  intros p m' (-> & Hp & Hno). unfold load. wp_steps.
  assert (∃ k, k = Z.to_nat (p - s)) as [k Hk] by eauto. rewrite <-Hk in Hno.
  destruct (cstr_at m s l (p - s) H ltac:(lia)) as [E Hz].
  replace (s + (p - s)) with p in * by lia. rewrite <-Hk in E.
  assert (list_find (λ b, b = u8 ch) (l ++ [0]) =
    prod_map (λ n, n + k)%nat id <$> list_find (λ b, b = u8 ch) (drop k l ++ [0])) as Hf.
  { rewrite <-(take_drop k l) at 1. rewrite <-app_assoc, list_find_app_r.
    - by rewrite length_take_le by lia.
    - by apply list_find_None. }
  destruct (Z.eqb_spec (m p) 0) as [E0|E0]; wp_steps; cbn beta iota delta [fst snd]; wp_steps.
  - apply Hz in E0. rewrite drop_ge in Hf by lia. cbn in Hf. rewrite Hf.
    rewrite E, lookup_ge_None_2 by lia. cbn [default from_option].
    destruct (Z.eqb_spec 0 (u8 ch)) as [Ec|Ec]; wp_steps.
    + rewrite decide_True by done. cbn. split; [lia|done].
    + rewrite decide_False by done. done.
  - assert (p - s ≠ Z.of_nat (length l)) by (by rewrite <-Hz).
    destruct (lookup_lt_is_Some_2 l k ltac:(lia)) as [b Hb]. rewrite Hb in E. cbn in E.
    destruct (Z.eqb_spec (m p) (u8 ch)) as [Ec|Ec]; wp_steps; cbn beta iota delta [fst snd]; wp_steps.
    + rewrite (drop_S _ _ _ Hb) in Hf. cbn in Hf. rewrite decide_True in Hf by congruence.
      rewrite Hf. cbn. split; [lia|done].
    + split; [|lia]. split_and!; [done|lia|lia|].
      replace (Z.to_nat (p + 1 - s)) with (S k) by lia. rewrite (take_S_r _ _ _ Hb).
      apply Forall_app. split; [done|]. constructor; [congruence|done].
Qed.

Lemma strrchr_ok m s ch l :
  cstr m s l → 0 < s →
  wp (strrchr s ch) (λ r m', m' = m ∧
    ((r = NULL ∧ u8 ch ∉ l ++ [0]) ∨
     ∃ i, r = s + Z.of_nat i ∧ (l ++ [0]) !! i = Some (u8 ch) ∧
       ∀ j, (i < j)%nat → (l ++ [0]) !! j ≠ Some (u8 ch))) m.
Proof.
  intros H Hs. unfold strrchr. apply wp_bind. rewrite (wp_eq _ _ _ _ _ (strlen_ok _ _ _ H)).
  pose proof (cs_len _ _ _ H). rewrite u32_id by lia.
  apply (wp_while _ (λ i m', m' = m ∧ 0 ≤ i ≤ Z.of_nat (length l) + 1 ∧
      ∀ j, i ≤ Z.of_nat j → (l ++ [0]) !! j ≠ Some (u8 ch)) (λ i _, i));
    [|intros ? ? (_ & ? & _); lia|lia|].
  { split_and!; [done|lia|lia|]. intros j Hj. rewrite lookup_ge_None_2; [done|].
    rewrite length_app. cbn. lia. }
  intros i m' (-> & Hi & Hno). destruct (Z.ltb_spec 0 i) as [Hi0|Hi0].
  - unfold load. wp_steps. destruct (cstr_at m s l (i - 1) H ltac:(lia)) as [E _].
    assert ((l ++ [0]) !! Z.to_nat (i - 1) = Some (m (s + (i - 1)))) as Hat.
    { rewrite E. destruct (decide (i - 1 = Z.of_nat (length l))) as [e|Hne].
      - rewrite lookup_app_r by lia. rewrite e, Nat2Z.id, Nat.sub_diag.
        by rewrite (lookup_ge_None_2 l) by lia.
      - destruct (lookup_lt_is_Some_2 l (Z.to_nat (i - 1)) ltac:(lia)) as [b Hb].
        rewrite Hb. by apply lookup_app_l_Some. }
    destruct (Z.eqb_spec (m (s + (i - 1))) (u8 ch)) as [Ec|Ec]; wp_steps.
    + split; [done|]. right. exists (Z.to_nat (i - 1)). split_and!; [lia|congruence|].
      intros j Hj. apply Hno. lia.
    + split; [|lia]. split_and!; [done|lia|lia|]. intros j Hj.
      destruct (decide (j = Z.to_nat (i - 1))) as [->|]; [congruence|]. apply Hno. lia.
  - apply wp_ret. split; [done|]. left. split; [done|]. intros [j Hj]%list_elem_of_lookup.
    apply (Hno j); [lia|done].
Qed.

(** ** Words *)

(** [strchr] as a membership test for a byte that is not zero *)
Lemma strchr_mem m s b l :
  cstr m s l → 0 < s → 0 < b < 256 →
  ∃ r, strchr s b m = Ok (r, m) ∧ (r =? NULL) = negb (bool_decide (b ∈ l)).
Proof.
  intros H Hs Hb. rewrite (strchr_ok m s b l H), u8_id by lia. eexists. split; [done|].
  destruct (list_find (λ b', b' = b) (l ++ [0])) as [[i x]|] eqn:E.
  - apply list_find_Some in E as (Hi & -> & _). rewrite bool_decide_true.
    + cbn. apply Z.eqb_neq. unfold NULL. lia.
    + apply lookup_app_Some in Hi as [Hi|[_ Hi]]; [by eapply list_elem_of_lookup_2|].
      apply list_lookup_singleton_Some in Hi as [_ <-]. lia.
  - apply list_find_None in E. rewrite bool_decide_false; [done|]. intros Hin.
    rewrite Forall_forall in E. apply (E b); [|done]. apply elem_of_app. by left.
Qed.

Section tok.
Variables (m : memory) (seps : Z) (sl : list Z).
Hypotheses (Hseps : cstr m seps sl) (Hpos : 0 < seps).

Lemma scan_seps_ok want p l1 l2 :
  cstr m p (l1 ++ l2) → Forall (λ b, bool_decide (b ∈ sl) = want) l1 →
  (∀ b, head l2 = Some b → bool_decide (b ∈ sl) ≠ want) →
  scan_seps seps want p m = Ok (p + Z.of_nat (length l1), m).
Proof.
  intros H Hl1 Hl2. apply wp_result. unfold scan_seps. pose proof (cs_len _ _ _ H) as Hlen.
  rewrite length_app in Hlen.
  apply (wp_while _ (λ p' m', m' = m ∧ p ≤ p' ≤ p + Z.of_nat (length l1))
    (λ p' _, p + Z.of_nat (length l1) - p')); [split; [done|lia]|intros ? ? [_ ?]; lia|lia|].
  intros p' m' [-> Hp']. unfold load. wp_steps.
  destruct (cstr_at m p (l1 ++ l2) (p' - p) H) as [E Hz]; [rewrite length_app; lia|].
  replace (p + (p' - p)) with p' in * by lia.
  destruct ((l1 ++ l2) !! Z.to_nat (p' - p)) as [b|] eqn:Eb; cbn in E; rewrite E.
  - destruct (cs_bytes _ _ _ H _ _ Eb) as [_ Hb]. rewrite (proj2 (Z.eqb_neq b 0)) by lia.
    apply wp_bind. destruct (strchr_mem m seps b sl Hseps Hpos Hb) as (r & Hr & Hn).
    rewrite (wp_eq _ _ _ _ _ Hr), Hn, negb_involutive.
    apply lookup_app_Some in Eb as [Eb|[Hge Eb]].
    + rewrite (Forall_lookup_1 _ _ _ _ Hl1 Eb). rewrite eqb_reflx. apply wp_ret.
      apply lookup_lt_Some in Eb. split; [split; [done|lia]|lia].
    + replace (Z.to_nat (p' - p) - length l1)%nat with 0%nat in Eb by lia. rewrite <-head_lookup in Eb.
      rewrite (proj2 (eqb_false_iff _ _) (Hl2 b Eb)). apply wp_ret. split; [lia|done].
  - apply lookup_ge_None in Eb. rewrite length_app in Eb. apply wp_ret. split; [lia|done].
Qed.

(** A call on a string with a word in it: the separators [p] before it, the
    word [w], and what follows, [r]. *)
Lemma strtok_r_word context p w r string :
  0 < context → string = context ∨ string = NULL →
  cstr m context (p ++ w ++ r) → Forall (λ b, b ∈ sl) p → w ≠ [] → Forall (λ b, b ∉ sl) w →
  (∀ b, head r = Some b → b ∈ sl) →
  wp (strtok_r string seps context) (λ res m',
    let word := context + Z.of_nat (length p) in
    let tail := word + Z.of_nat (length w) in
    res = (word, match r with [] => NULL | _ => tail + 1 end) ∧
    cstr m' word w ∧
    (∀ b r', r = b :: r' → cstr m' (tail + 1) r') ∧
    (∀ x, x ≠ tail → m' x = m x)) m.
Proof.
  intros Hc Hstr H Hp Hw Hws Hr. unfold strtok_r.
  assert ((if negb (string =? NULL) then string else context) = context) as ->.
  { destruct Hstr as [-> | ->]; [|done]. by destruct (_ =? _). }
  rewrite (proj2 (Z.eqb_neq context NULL)) by (unfold NULL; lia). apply wp_bind.
  assert (cstr m (context + Z.of_nat (length p)) (w ++ r)) as H1.
  { rewrite <-(drop_app_length p (w ++ r)). apply cstr_drop; [done|]. rewrite length_app. lia. }
  rewrite (wp_eq _ _ _ _ _ (scan_seps_ok true context p (w ++ r) H
    (Forall_impl _ _ _ Hp (λ b Hb, bool_decide_true _ Hb)) ltac:(intros b Hb;
      destruct w as [|w0 w]; [done|]; injection Hb as ->; inversion Hws; by rewrite bool_decide_false))).
  unfold load. wp_steps. set (word := context + Z.of_nat (length p)) in *.
  destruct w as [|w0 w]; [done|]. apply cstr_cons in H1 as Hw0. destruct Hw0 as (E0 & Hb0 & _).
  rewrite E0, (proj2 (Z.eqb_neq w0 0)) by lia. apply wp_bind.
  rewrite (wp_eq _ _ _ _ _ (scan_seps_ok false word (w0 :: w) r H1
    (Forall_impl _ _ _ Hws (λ b Hb, bool_decide_false _ Hb)) ltac:(intros b Hb;
      rewrite bool_decide_true by auto; done))).
  wp_steps. set (tail := word + Z.of_nat (length (w0 :: w))).
  assert (cstr m tail r) as H2.
  { unfold tail. rewrite <-(drop_app_length (w0 :: w) r). apply cstr_drop; [done|].
    rewrite length_app. lia. }
  assert (∀ i b, (w0 :: w) !! i = Some b → m (word + Z.of_nat i) = b ∧ 0 < b < 256) as Hbytes.
  { intros i b Hi. apply (cs_bytes _ _ _ H1). by apply lookup_app_l_Some. }
  assert (Z.of_nat (length (w0 :: w)) + 1 < 2 ^ 32) as Hlen.
  { pose proof (cs_len _ _ _ H1) as Hl. rewrite length_app in Hl. lia. }
  destruct r as [|b r].
  - apply cstr_nil in H2 as Hz. rewrite Hz. cbn [Z.eqb]. apply wp_ret.
    split; [done|]. split; [by split|]. split; [done|done].
  - apply cstr_cons in H2 as (E1 & Hb1 & H3). rewrite E1, (proj2 (Z.eqb_neq b 0)) by lia.
    unfold store. wp_steps. split; [done|]. split; [|split].
    + split; [|rewrite store_at; by rewrite decide_True|done]. intros i b' Hi.
      pose proof (lookup_lt_Some _ _ _ Hi). rewrite store_at, decide_False by (unfold tail; lia). auto.
    + intros ? ? [= <- <-]. apply (cstr_ext m); [done|]. intros x Hx. rewrite store_at.
      by rewrite decide_False by lia.
    + intros x Hx. rewrite store_at. by rewrite decide_False.
Qed.

(** A call on a string of separators finds no word. *)
Lemma strtok_r_none context p string :
  0 < context → string = context ∨ string = NULL →
  cstr m context p → Forall (λ b, b ∈ sl) p →
  strtok_r string seps context m = Ok ((NULL, NULL), m).
Proof.
  intros Hc Hstr H Hp. apply wp_result. unfold strtok_r.
  assert ((if negb (string =? NULL) then string else context) = context) as ->.
  { destruct Hstr as [-> | ->]; [|done]. by destruct (_ =? _). }
  rewrite (proj2 (Z.eqb_neq context NULL)) by (unfold NULL; lia). apply wp_bind.
  rewrite (wp_eq _ _ _ _ _ (scan_seps_ok true context p [] ltac:(by rewrite app_nil_r)
    (Forall_impl _ _ _ Hp (λ b Hb, bool_decide_true _ Hb)) ltac:(done))).
  unfold load. wp_steps. rewrite (cs_end _ _ _ H). by apply wp_ret.
Qed.
End tok.

(** ** Numbers *)

(** The digits 0 to 9, in order *)
Definition digit_bytes : list Z := seqZ 48 10.

(** The value of a list of digits *)
Definition dec_value (ds : list Z) : Z := foldl (λ v d, v * 10 + (d - 48)) 0 ds.

Lemma digit_mem b : b ∈ digit_bytes ↔ 48 ≤ b < 58.
Proof. unfold digit_bytes. rewrite elem_of_seqZ. lia. Qed.

(** [strchr] of a digit gives its value. *)
Lemma strchr_digit m digits b :
  cstr m digits digit_bytes → 48 ≤ b < 58 → strchr digits b m = Ok (digits + (b - 48), m).
Proof.
  intros H Hb. rewrite (strchr_ok m digits b _ H), u8_id by lia.
  assert (list_find (λ b', b' = b) (digit_bytes ++ [0]) = Some (Z.to_nat (b - 48), b)) as ->.
  { assert (b = 48 ∨ b = 49 ∨ b = 50 ∨ b = 51 ∨ b = 52 ∨ b = 53 ∨ b = 54 ∨ b = 55 ∨ b = 56 ∨ b = 57)
      as Hc by lia. by destruct_or! Hc; subst b. }
  f_equal. f_equal. lia.
Qed.

Lemma u32_mul_l a b : u32 (u32 a * b) = u32 (a * b).
Proof. unfold u32. by rewrite Zmult_mod_idemp_l. Qed.

Lemma dec_snoc ds d : dec_value (ds ++ [d]) = dec_value ds * 10 + (d - 48).
Proof. unfold dec_value. by rewrite foldl_app. Qed.

Lemma atoi_digits m digits s ds rest :
  cstr m digits digit_bytes → 0 < digits → digits + 10 < 2 ^ 32 →
  cstr m s (ds ++ rest) → Forall (λ b, 48 ≤ b < 58) ds → (∀ b, head rest = Some b → ¬ 48 ≤ b < 58) →
  while (λ st : Z * Z,
    b ← load st.1;
    if b =? 0 then mret (inr st.2)
    else
      where_ ← strchr digits b;
      if where_ =? NULL then mret (inr st.2)
      else
        let digit := u32 (where_ - digits) in
        mret (inl (st.1 + 1, u32 (u32 (st.2 * 10) + digit)))) (s, 0) m = Ok (u32 (dec_value ds), m).
Proof.
  intros Hd Hdp Hdt H Hds Hrest. apply wp_result. pose proof (cs_len _ _ _ H) as Hlen. rewrite length_app in Hlen.
  apply (wp_while _ (λ st m', m' = m ∧ s ≤ st.1 ≤ s + Z.of_nat (length ds) ∧
      st.2 = u32 (dec_value (take (Z.to_nat (st.1 - s)) ds)))
    (λ st _, s + Z.of_nat (length ds) - st.1)); [|intros [p v] ? (_ & ? & _); cbn in *; lia|cbn; lia|].
  { cbn. rewrite Z.sub_diag. split_and!; (done || lia). }
  intros [p v] m' (-> & Hp & ->). cbn [fst snd] in *. unfold load. wp_steps.
  destruct (cstr_at m s (ds ++ rest) (p - s) H) as [E Hz]; [rewrite length_app; lia|].
  replace (s + (p - s)) with p in * by lia.
  destruct ((ds ++ rest) !! Z.to_nat (p - s)) as [b|] eqn:Eb; cbn in E; rewrite E.
  2:{ apply lookup_ge_None in Eb. rewrite length_app in Eb. apply wp_ret.
      split; [|done]. by rewrite take_ge by lia. }
  destruct (cs_bytes _ _ _ H _ _ Eb) as [_ Hb]. rewrite (proj2 (Z.eqb_neq b 0)) by lia. apply wp_bind.
  apply lookup_app_Some in Eb as [Eb|[Hge Eb]].
  - pose proof (Forall_lookup_1 _ _ _ _ Hds Eb) as Hbd. cbn beta in Hbd.
    rewrite (wp_eq _ _ _ _ _ (strchr_digit m digits b Hd Hbd)).
    rewrite (proj2 (Z.eqb_neq (digits + (b - 48)) NULL)) by (unfold NULL; lia). cbn zeta. apply wp_ret. cbn [fst snd].
    apply lookup_lt_Some in Eb as Hlt. split; [|lia]. split_and!; [done|lia|lia|].
    replace (Z.to_nat (p + 1 - s)) with (S (Z.to_nat (p - s))) by lia.
    rewrite (take_S_r _ _ _ Eb), dec_snoc, u32_mul_l, u32_add_l, u32_add_r. f_equal. lia.
  - replace (Z.to_nat (p - s) - length ds)%nat with 0%nat in Eb by lia. rewrite <-head_lookup in Eb.
    destruct (strchr_mem m digits b digit_bytes Hd Hdp Hb) as (r & Hr & Hn).
    rewrite (wp_eq _ _ _ _ _ Hr), Hn. rewrite bool_decide_false by (rewrite digit_mem; auto).
    apply wp_ret. split; [|done]. by rewrite take_ge by lia.
Qed.

(** The string is blanks, a sign, digits, and something that is not a digit. *)
Lemma atoi_ok m digits s ws sign ds rest :
  cstr m digits digit_bytes → 0 < digits → digits + 10 < 2 ^ 32 →
  cstr m s (ws ++ sign ++ ds ++ rest) →
  Forall (λ b, b = 32 ∨ b = 9) ws → sign = [] ∨ sign = [43] ∨ sign = [45] →
  Forall (λ b, 48 ≤ b < 58) ds → (∀ b, head rest = Some b → ¬ 48 ≤ b < 58) →
  (sign = [] → ∀ b, head (ds ++ rest) = Some b → b ≠ 32 ∧ b ≠ 9 ∧ b ≠ 43 ∧ b ≠ 45) →
  atoi digits s m =
    Ok (s32 (u32 (if decide (sign = [45]) then - dec_value ds else dec_value ds)), m).
Proof.
  intros Hd Hdp Hdt H Hws Hsign Hds Hrest Hfirst. apply wp_result. unfold atoi. apply wp_bind.
  pose proof (cs_len _ _ _ H) as Hlen. rewrite length_app in Hlen.
  assert (cstr m (s + Z.of_nat (length ws)) (sign ++ ds ++ rest)) as H1.
  { rewrite <-(drop_app_length ws (sign ++ ds ++ rest)). apply cstr_drop; [done|]. rewrite length_app. lia. }
  assert (∀ b, head (sign ++ ds ++ rest) = Some b → b ≠ 32 ∧ b ≠ 9) as Hhd.
  { intros b Hb. destruct Hsign as [->|[-> | ->]]; [|injection Hb as <-; lia|injection Hb as <-; lia].
    by destruct (Hfirst eq_refl b Hb) as (? & ? & _). }
  apply (wp_while _ (λ p m', m' = m ∧ s ≤ p ≤ s + Z.of_nat (length ws))
    (λ p _, s + Z.of_nat (length ws) - p)); [split; [done|lia]|intros ? ? [_ ?]; lia|lia|].
  intros p m' [-> Hp]. unfold load at 1. wp_steps.
  destruct (cstr_at m s _ (p - s) H) as [E Hz]; [rewrite length_app; lia|].
  replace (s + (p - s)) with p in * by lia.
  destruct (decide (p = s + Z.of_nat (length ws))) as [->|Hne].
  2:{ destruct (lookup_lt_is_Some_2 ws (Z.to_nat (p - s)) ltac:(lia)) as [b Hb].
      rewrite (lookup_app_l_Some _ _ _ _ Hb) in E. cbn in E. rewrite E.
      destruct (Forall_lookup_1 _ _ _ _ Hws Hb) as [-> | ->]; apply wp_ret; (split; [split; [done|lia]|lia]). }
  replace (_ || _) with false.
  2:{ symmetry. destruct (sign ++ ds ++ rest) as [|b l] eqn:El.
      - apply cstr_nil in H1. by rewrite H1.
      - apply cstr_cons in H1 as (-> & _ & _). destruct (Hhd b eq_refl) as [? ?].
        apply orb_false_iff. split; by apply Z.eqb_neq. }
  apply wp_ret. apply wp_bind. unfold load at 1. apply wp_gets.
  assert (∃ neg s', (if m (s + Z.of_nat (length ws)) =? 45 then (true, s + Z.of_nat (length ws) + 1)
      else if m (s + Z.of_nat (length ws)) =? 43 then (false, s + Z.of_nat (length ws) + 1)
      else (false, s + Z.of_nat (length ws))) = (neg, s') ∧
      neg = bool_decide (sign = [45]) ∧ cstr m s' (ds ++ rest)) as (neg & s' & -> & -> & H2).
  { destruct Hsign as [->|[-> | ->]].
    - cbn [app] in H1. do 2 eexists. split; [|split; [|exact H1]]; [|done].
      destruct (ds ++ rest) as [|b l] eqn:El.
      + apply cstr_nil in H1. by rewrite H1.
      + apply cstr_cons in H1 as (-> & _ & _). destruct (Hfirst eq_refl b eq_refl) as (? & ? & ? & ?).
        rewrite (proj2 (Z.eqb_neq b 45)), (proj2 (Z.eqb_neq b 43)) by done. done.
    - apply cstr_cons in H1 as (-> & _ & H2). eauto.
    - apply cstr_cons in H1 as (-> & _ & H2). eauto. }
  apply wp_bind. rewrite (wp_eq _ _ _ _ _ (atoi_digits m digits s' ds rest Hd Hdp Hdt H2 Hds Hrest)).
  apply wp_ret. split; [|done]. f_equal. case_decide; [rewrite bool_decide_true by done|rewrite bool_decide_false by done; done].
  unfold u32. by rewrite <-Z.sub_0_l, Zminus_mod_idemp_r.
Qed.

(** A decision procedure for [cstr], for concrete memories *)
Definition has_cstr (m : memory) (a : Z) (l : list Z) : bool :=
  forallb (λ p, (m (a + Z.of_nat p.1) =? p.2) && (0 <? p.2) && (p.2 <? 256)) (imap pair l) &&
  (m (a + Z.of_nat (length l)) =? 0) && (Z.of_nat (length l) + 1 <? 2 ^ 32).

Lemma has_cstr_ok m a l : has_cstr m a l = true → cstr m a l.
Proof.
  unfold has_cstr. rewrite !andb_true_iff, forallb_forall, Z.eqb_eq, Z.ltb_lt. intros [[H1 H2] H3]. split; [|done|done].
  intros i b Hi. specialize (H1 (i, b)). cbn in H1. rewrite !andb_true_iff, Z.eqb_eq, !Z.ltb_lt in H1.
  destruct H1 as [[H4 H5] H6]; [|done]. apply list_elem_of_In, (list_elem_of_lookup_2 _ i). by rewrite list_lookup_imap, Hi.
Qed.
