(* ===== verification/Copyinout.v ===== *)
(** * Copies between user and kernel memory ([kern/vm/copyinout.c])

    User and kernel addresses are in one memory, as on the machine.  An access
    to user memory that the VM system cannot serve is a fatal fault, which the
    trap code turns into a jump to [copyfail]: the copy stops there and the
    caller returns [EFAULT].  Which user bytes can be read and written is part
    of the state; [um_badfault] says whether [tm_badfaultfunc] is set. *)

From S2P Require Import Prelude Machine MemBlock Str.

Record umach : Type := mk_umach {
  um_mem : memory;
  um_readable : Z → bool;
  um_writable : Z → bool;
  um_badfault : bool;
  um_as : option nat
}.

Definition set_um_mem (v : memory) (s : umach) : umach :=
  mk_umach v (um_readable s) (um_writable s) (um_badfault s) (um_as s).
Definition set_um_badfault (v : bool) (s : umach) : umach :=
  mk_umach (um_mem s) (um_readable s) (um_writable s) v (um_as s).

Definition on_mem {A} (m : M memory A) : M umach A := zoom um_mem set_um_mem m.

(** The result and [*stoplen] *)
Definition copycheck (userptr len : Z) : Z * Z :=
  let bot := userptr in
  let top := u32 (bot + len - 1) in
  if top <? bot then (EFAULT, len)
  else if USERSPACETOP <=? bot then (EFAULT, len)
  else if USERSPACETOP <=? top then (0, USERSPACETOP - bot)
  else (0, len).

(** Can the [w] bytes at [a] be accessed? *)
Definition touch (ok : Z → bool) (a w : Z) : bool := forallb ok (seqZ a w).

(** The loop of [memcpy] when one of the buffers, at [user], is in user
    memory: false when an access jumped to [copyfail] *)
Fixpoint copy_touching (ok : Z → bool) (user w dst src : Z) (l : list Z) : M memory bool :=
  match l with
  | [] => mret true
  | i :: l' =>
      if touch ok (user + w * i) w then
        copy_elem w dst src i ;;
        copy_touching ok user w dst src l'
      else mret false
  end.

Definition memcpy_touching (ok : Z → bool) (user dst src len : Z) : M memory bool :=
  if word_aligned dst && word_aligned src && word_aligned len
  then copy_touching ok user LONG dst src (seqZ 0 (len / LONG))
  else copy_touching ok user 1 dst src (seqZ 0 len).

(** The code between [tm_badfaultfunc = copyfail] and [tm_badfaultfunc = NULL].
    [copyfail] jumps back to the [setjmp], after which the caller resets
    [tm_badfaultfunc] and returns [fail]. *)
Definition protected {A} (fail : A) (body : M memory (option A)) : M umach A :=
  modify (set_um_badfault true) ;;
  r ← on_mem body;
  modify (set_um_badfault false) ;;
  mret (default fail r).

Definition copyin (usersrc dest len : Z) : M umach Z :=
  let '(result, stoplen) := copycheck usersrc len in
  if negb (result =? 0) then mret result
  else if negb (stoplen =? len) then mret EFAULT
  else
    ok ← gets um_readable;
    protected EFAULT
      (b ← memcpy_touching ok usersrc dest usersrc len; mret (if (b : bool) then Some 0 else None)).

Definition copyout (src userdest len : Z) : M umach Z :=
  let '(result, stoplen) := copycheck userdest len in
  if negb (result =? 0) then mret result
  else if negb (stoplen =? len) then mret EFAULT
  else
    ok ← gets um_writable;
    protected EFAULT
      (b ← memcpy_touching ok userdest userdest src len; mret (if (b : bool) then Some 0 else None)).

(** [copystr]: the result and [*gotlen], [None] when an access to user memory
    (at [user], indexed like the string) jumped to [copyfail] *)
Definition copystr (ok : Z → bool) (user dest src maxlen stoplen : Z)
    : M memory (option (Z * option Z)) :=
  while (λ i,
    if (i <? maxlen) && (i <? stoplen) then
      if ok (user + i) then
        b ← load (src + i);
        store (dest + i) b ;;
        b ← load (src + i);
        if b =? 0 then mret (inr (Some (0, Some (i + 1)))) else mret (inl (u32 (i + 1)))
      else mret (inr None)
    else if stoplen <? maxlen then mret (inr (Some (EFAULT, None)))
    else mret (inr (Some (ENAMETOOLONG, None)))) 0.

(** The result and [*actual] *)
Definition copyinstr (usersrc dest len : Z) : M umach (Z * option Z) :=
  let '(result, stoplen) := copycheck usersrc len in
  if negb (result =? 0) then mret (result, None)
  else
    ok ← gets um_readable;
    protected (EFAULT, None) (copystr ok usersrc dest usersrc len stoplen).

Definition copyoutstr (src userdest len : Z) : M umach (Z * option Z) :=
  let '(result, stoplen) := copycheck userdest len in
  if negb (result =? 0) then mret (result, None)
  else
    ok ← gets um_writable;
    protected (EFAULT, None) (copystr ok userdest userdest src len stoplen).

(** ** Specification *)

Lemma copycheck_spec userptr len :
  0 ≤ userptr < 2 ^ 32 → 0 < len < 2 ^ 32 →
  copycheck userptr len =
    if decide (userptr < USERSPACETOP ∧ userptr + len ≤ 2 ^ 32)
    then (0, Z.min len (USERSPACETOP - userptr)) else (EFAULT, len).
Proof.
  intros Hu Hl. unfold copycheck, USERSPACETOP, MIPS_KSEG0. destruct (decide (userptr + len ≤ 2 ^ 32)) as [Hw|Hw].
  - rewrite u32_id by lia. rewrite (proj2 (Z.ltb_ge (userptr + len - 1) userptr)) by lia.
    destruct (Z.leb_spec 0x80000000 userptr), (Z.leb_spec 0x80000000 (userptr + len - 1)); case_decide;
      (lia || done || (f_equal; lia)).
  - rewrite decide_False by lia.
    assert (u32 (userptr + len - 1) = userptr + len - 1 - 2 ^ 32) as ->.
    { unfold u32. symmetry. apply (Z.mod_unique _ _ 1); lia. }
    by rewrite (proj2 (Z.ltb_lt _ userptr)) by lia.
Qed.

Lemma touch_true ok a w : touch ok a w = true ↔ ∀ x, a ≤ x < a + w → ok x = true.
Proof.
  unfold touch. rewrite forallb_forall. split.
  - intros H x Hx. apply H. apply list_elem_of_In, elem_of_seqZ. lia.
  - intros H x Hx%list_elem_of_In%elem_of_seqZ. apply H. lia.
Qed.

(** What a faulting copy leaves: everything copied if all accesses worked, and
    nothing outside the destination changed in any case *)
Definition copy_outcome (ok : Z → bool) (user : Z) (m : memory) (dst src len : Z) (b : bool)
    (m' : memory) : Prop :=
  (b = true ↔ ∀ x, user ≤ x < user + len → ok x = true) ∧
  (b = true → ∀ x, m' x = copied m dst src len x) ∧
  (∀ x, ¬ dst ≤ x < dst + len → m' x = m x).

Lemma copy_touching_ok ok user w dst src n m :
  0 < w → 0 ≤ n → dst ≤ src ∨ src + w * n ≤ dst →
  wp (copy_touching ok user w dst src (seqZ 0 n)) (copy_outcome ok user m dst src (w * n)) m.
Proof.
  intros Hw Hn Hov.
  assert (∀ j k m1, k + Z.of_nat j = n → 0 ≤ k → (∀ x, user ≤ x < user + w * k → ok x = true) →
    (∀ x, m1 x = copied m dst src (w * k) x) →
    wp (copy_touching ok user w dst src (seqZ k (Z.of_nat j))) (copy_outcome ok user m dst src (w * n)) m1)
    as Hind.
  { induction j as [|j IH]; intros k m1 Hk Hk0 Hok Hm1.
    - cbn. assert (k = n) as -> by lia. split_and!; [done|done|]. intros x Hx. rewrite Hm1.
      unfold copied. by rewrite decide_False by lia.
    - rewrite Nat2Z.inj_succ, seqZ_cons, Z.pred_succ by lia. cbn [copy_touching].
      assert (w * (k + 1) ≤ w * n) by (apply Z.mul_le_mono_nonneg_l; lia).
      destruct (touch ok (user + w * k) w) eqn:Ht.
      + unfold copy_elem. wp_steps. apply IH; [lia|lia| |].
        * intros x Hx. rewrite touch_true in Ht. destruct (decide (x < user + w * k)); [apply Hok|apply Ht]; lia.
        * intros x. rewrite mem_write_read by lia. unfold copied at 1. unfold copied in Hm1.
          destruct (decide (dst + w * k ≤ x < dst + w * k + w)).
          -- rewrite Hm1, decide_False by lia. rewrite decide_True by lia. f_equal. lia.
          -- rewrite Hm1. do 2 case_decide; (done || lia).
      + apply wp_ret. split_and!; [|done|].
        * split; [done|]. intros Hall. rewrite <-Ht. apply touch_true. intros x Hx. apply Hall. lia.
        * intros x Hx. rewrite Hm1. unfold copied. by rewrite decide_False by lia. }
  pose proof (Hind (Z.to_nat n) 0 m) as H0. rewrite Z2Nat.id in H0 by done. apply H0; [lia|lia|lia|].
  intros x. unfold copied. by rewrite decide_False by lia.
Qed.

Lemma memcpy_touching_ok ok user dst src len m :
  0 ≤ len → dst ≤ src ∨ src + len ≤ dst →
  wp (memcpy_touching ok user dst src len) (copy_outcome ok user m dst src len) m.
Proof.
  intros Hlen Hov. unfold memcpy_touching. destruct (_ && _ && _) eqn:Hal.
  - apply andb_true_iff in Hal as [_ Hl]. apply word_aligned_div in Hl; [|done].
    pose proof (copy_touching_ok ok user LONG dst src (len / LONG) m) as Hc. rewrite Hl in Hc.
    apply Hc; [done|apply Z.div_pos; done|lia].
  - pose proof (copy_touching_ok ok user 1 dst src len m) as Hc. rewrite Z.mul_1_l in Hc.
    apply Hc; lia.
Qed.

Lemma protected_ok {A} (fail : A) body Q s :
  wp body (λ r m', Q (default fail r) (set_um_badfault false (set_um_mem m' s))) (um_mem s) →
  wp (protected fail body) Q s.
Proof.
  intros H. unfold protected, on_mem. wp_steps. cbn. eapply wp_mono; [exact H|].
  intros r m' HQ. wp_steps. done.
Qed.

(** The bytes a user pointer gives access to *)
Definition user_region (ok : Z → bool) (a len : Z) : Prop :=
  a + len ≤ USERSPACETOP ∧ ∀ x, a ≤ x < a + len → ok x = true.

Lemma set_mem_badfault s m : um_badfault s = false → set_um_badfault false (set_um_mem m s) = set_um_mem m s.
Proof. destruct s. cbn. by intros ->. Qed.

Lemma set_mem_id s : set_um_mem (um_mem s) s = s.
Proof. by destruct s. Qed.

(** Both block copies, for the buffer [user] that is in user memory *)
Lemma block_ok ok user dst src len (k : M umach Z) s :
  um_badfault s = false → 0 ≤ user < 2 ^ 32 → 0 < len < 2 ^ 32 → dst ≤ src ∨ src + len ≤ dst →
  k s = (let '(result, stoplen) := copycheck user len in
         if negb (result =? 0) then mret result
         else if negb (stoplen =? len) then mret EFAULT
         else protected EFAULT
           (b ← memcpy_touching ok user dst src len; mret (if (b : bool) then Some 0 else None))) s →
  wp k (λ r s', ∃ m', s' = set_um_mem m' s ∧
    (user_region ok user len → r = 0 ∧ ∀ x, m' x = copied (um_mem s) dst src len x) ∧
    (¬ user_region ok user len → r = EFAULT) ∧
    (∀ x, ¬ dst ≤ x < dst + len → m' x = um_mem s x)) s.
Proof.
  intros Hbf Hu Hlen Hov Hk. unfold wp. rewrite Hk. rewrite copycheck_spec by done.
  unfold user_region. destruct (decide (user + len ≤ USERSPACETOP)) as [Hin|Hout].
  - rewrite decide_True by (unfold USERSPACETOP, MIPS_KSEG0 in *; lia). rewrite Z.min_l by lia. cbn [Z.eqb negb].
    rewrite Z.eqb_refl. cbn [negb]. apply (protected_ok EFAULT).
    apply wp_bind. eapply wp_mono; [apply memcpy_touching_ok; lia|].
    intros b m' (Hb & Hc & Hf). apply wp_ret. exists m'. split; [by apply set_mem_badfault|].
    split_and!; [|intros Hn; destruct b; [by destruct Hn; split; [|apply Hb]|done]|done].
    intros [_ Hall]. apply Hb in Hall as ->. auto.
  - assert (∀ e, match (mret e : M umach Z) s with
      | Ok (r, s') => ∃ m', s' = set_um_mem m' s ∧
         (user + len ≤ USERSPACETOP ∧ (∀ x, user ≤ x < user + len → ok x = true) →
           r = 0 ∧ ∀ x, m' x = copied (um_mem s) dst src len x) ∧
         (¬ (user + len ≤ USERSPACETOP ∧ ∀ x, user ≤ x < user + len → ok x = true) → r = e) ∧
         (∀ x, ¬ dst ≤ x < dst + len → m' x = um_mem s x)
      | Stop _ => False end) as Hret.
    { intros e. exists (um_mem s). rewrite set_mem_id. split_and!; [done|by intros []|done|done]. }
    case_decide; [|apply (Hret EFAULT)].
    cbn [Z.eqb negb]. rewrite (proj2 (Z.eqb_neq _ len)) by lia. cbn [negb]. apply (Hret EFAULT).
Qed.

Lemma copyin_ok s usersrc dest len :
  um_badfault s = false → 0 ≤ usersrc < 2 ^ 32 → 0 < len < 2 ^ 32 → dest ≤ usersrc ∨ usersrc + len ≤ dest →
  wp (copyin usersrc dest len) (λ r s', ∃ m', s' = set_um_mem m' s ∧
    (user_region (um_readable s) usersrc len →
      r = 0 ∧ ∀ x, m' x = copied (um_mem s) dest usersrc len x) ∧
    (¬ user_region (um_readable s) usersrc len → r = EFAULT) ∧
    (∀ x, ¬ dest ≤ x < dest + len → m' x = um_mem s x)) s.
Proof.
  intros. apply block_ok; try done. unfold copyin, copyout. destruct (copycheck _ _).
  by destruct (negb _); [|destruct (negb _)].
Qed.

Lemma copyout_ok s src userdest len :
  um_badfault s = false → 0 ≤ userdest < 2 ^ 32 → 0 < len < 2 ^ 32 → userdest ≤ src ∨ src + len ≤ userdest →
  wp (copyout src userdest len) (λ r s', ∃ m', s' = set_um_mem m' s ∧
    (user_region (um_writable s) userdest len →
      r = 0 ∧ ∀ x, m' x = copied (um_mem s) userdest src len x) ∧
    (¬ user_region (um_writable s) userdest len → r = EFAULT) ∧
    (∀ x, ¬ userdest ≤ x < userdest + len → m' x = um_mem s x)) s.
Proof.
  intros. apply block_ok; try done. unfold copyin, copyout. destruct (copycheck _ _).
  by destruct (negb _); [|destruct (negb _)].
Qed.

(** A block of no bytes is refused, wherever it is. *)
Lemma copy_empty userptr : 0 ≤ userptr < 2 ^ 32 →
  copycheck userptr 0 = (EFAULT, 0) ∨ copycheck userptr 0 = (0, USERSPACETOP).
Proof.
  intros Hu. unfold copycheck. destruct (decide (userptr = 0)) as [->|Hne]; [by right|]. left.
  rewrite u32_id by lia. by rewrite (proj2 (Z.ltb_lt _ userptr)) by lia.
Qed.

(** ** Strings *)

(** What [copystr] finds: the string ends within [maxlen] bytes, or it does
    not, or a byte of it (terminator included) is out of reach. *)
Definition reachable (ok : Z → bool) (a k : Z) : Prop := a + k < USERSPACETOP ∧ ok (a + k) = true.

Inductive str_outcome (reach : Z → Prop) (m : memory) (src dest maxlen : Z) (m' : memory)
    : Z * option Z → Prop :=
  | str_copied l :
      cstr m src l → Z.of_nat (length l) < maxlen → (∀ k, 0 ≤ k ≤ Z.of_nat (length l) → reach k) →
      cstr m' dest l → str_outcome reach m src dest maxlen m' (0, Some (Z.of_nat (length l) + 1))
  | str_long :
      (∀ k, 0 ≤ k < maxlen → m (src + k) ≠ 0 ∧ reach k) →
      str_outcome reach m src dest maxlen m' (ENAMETOOLONG, None)
  | str_fault k :
      0 ≤ k < maxlen → (∀ j, 0 ≤ j < k → m (src + j) ≠ 0) → ¬ reach k →
      str_outcome reach m src dest maxlen m' (EFAULT, None).

Lemma bytes_cstr m a n :
  (∀ x, 0 ≤ m x < 256) → 0 ≤ n < 2 ^ 32 - 1 → (∀ k, 0 ≤ k < n → m (a + k) ≠ 0) → m (a + n) = 0 →
  cstr m a (mem_read m a n).
Proof.
  intros Hm Hn Hnz Hz. pose proof (length_mem_read m a n) as Hlen. split.
  - intros i b Hi. unfold mem_read in Hi. rewrite list_lookup_fmap in Hi.
    apply fmap_Some in Hi as (x & Hx & ->). apply lookup_seqZ in Hx as [-> Hi].
    rewrite Z.add_0_l. split; [done|]. pose proof (Hnz (Z.of_nat i) ltac:(lia)). pose proof (Hm (a + Z.of_nat i)). lia.
  - by rewrite Hlen, Z2Nat.id by lia.
  - rewrite Hlen. lia.
Qed.

Lemma copystr_ok ok user dest src maxlen stoplen m :
  (∀ x, 0 ≤ m x < 256) → 0 ≤ maxlen < 2 ^ 32 → 0 ≤ stoplen →
  dest ≤ src ∨ src + Z.min maxlen stoplen ≤ dest →
  wp (copystr ok user dest src maxlen stoplen) (λ r m',
    str_outcome (λ k, k < stoplen ∧ ok (user + k) = true) m src dest maxlen m' (default (EFAULT, None) r) ∧
    (∀ x, ¬ dest ≤ x < dest + maxlen → m' x = m x)) m.
Proof.
  intros Hm Hmax Hstop Hov. unfold copystr.
  apply (wp_while _ (λ i m', 0 ≤ i ≤ maxlen ∧ i ≤ stoplen ∧ (∀ x, m' x = copied m dest src i x) ∧
      (∀ j, 0 ≤ j < i → m (src + j) ≠ 0 ∧ ok (user + j) = true)) (λ i _, maxlen - i));
    [|intros ? ? (? & _); lia|lia|].
  { split_and!; [lia|lia|lia| |lia]. intros x. unfold copied. by rewrite decide_False by lia. }
  intros i m' (Hi & His & Hm' & Hj).
  assert (∀ x, ¬ dest ≤ x < dest + maxlen → m' x = m x) as Hframe.
  { intros x Hx. rewrite Hm'. unfold copied. by rewrite decide_False by lia. }
  destruct (Z.ltb_spec i maxlen) as [H1|H1], (Z.ltb_spec i stoplen) as [H2|H2]; cbn [andb].
  - destruct (ok (user + i)) eqn:Hok.
    2:{ apply wp_ret. split; [|done]. cbn. apply (str_fault _ _ _ _ _ _ i); [lia|naive_solver|]. rewrite Hok. naive_solver. }
    unfold load, store. wp_steps.
    assert (m' (src + i) = m (src + i)) as Hsrc.
    { rewrite Hm'. unfold copied. by rewrite decide_False by lia. }
    assert (∀ x, mem_write m' (dest + i) [u8 (m' (src + i))] x = copied m dest src (i + 1) x) as Hnew.
    { intros x. rewrite store_at, Hsrc, u8_id by done. unfold copied in *. case_decide.
      - subst x. rewrite decide_True by lia. f_equal. lia.
      - rewrite Hm'. do 2 case_decide; (done || lia). }
    assert (copied m dest src (i + 1) (src + i) = m (src + i)) as Hback.
    { unfold copied. case_decide; [f_equal; lia|done]. }
    rewrite Hnew, Hback.
    destruct (Z.eqb_spec (m (src + i)) 0) as [E|E]; wp_steps.
    + assert (cstr m src (mem_read m src i)) as Hstr by (apply bytes_cstr; [done|lia|naive_solver|done]).
      split; [|intros x Hx; rewrite Hnew; unfold copied; by rewrite decide_False by lia].
      pose proof (length_mem_read m src i) as Hl.
      assert (Z.of_nat (length (mem_read m src i)) = i) as Hl' by lia.
      cbn [default from_option]. replace (0, Some (i + 1)) with
        (0, Some (Z.of_nat (length (mem_read m src i)) + 1)) by (by rewrite Hl').
      apply str_copied; [done|lia| |].
      * intros k Hk. rewrite Hl' in Hk. split; [lia|]. destruct (decide (k = i)) as [->|]; [done|]. apply Hj. lia.
      * eapply copied_cstr; [exact Hstr|]. rewrite Hl'. exact Hnew.
    + split; [|rewrite u32_id by lia; lia]. rewrite u32_id by lia. split_and!; [lia|lia|lia|done|].
      intros j Hj'. destruct (decide (j = i)) as [->|]; [done|]. apply Hj. lia.
  - assert (i = stoplen) as -> by lia. rewrite (proj2 (Z.ltb_lt _ _)) by lia. apply wp_ret. split; [|done].
    apply (str_fault _ _ _ _ _ _ stoplen); [lia|naive_solver|]. lia.
  - assert (i = maxlen) as -> by lia. rewrite (proj2 (Z.ltb_ge _ _)) by lia. apply wp_ret. split; [|done].
    apply str_long. intros k Hk. destruct (Hj k Hk). split; [done|]. split; [lia|done].
  - assert (i = maxlen) as -> by lia. rewrite (proj2 (Z.ltb_ge _ _)) by lia. apply wp_ret. split; [|done].
    apply str_long. intros k Hk. destruct (Hj k Hk). split; [done|]. split; [lia|done].
Qed.

Lemma copyinstr_ok s usersrc dest len :
  (∀ x, 0 ≤ um_mem s x < 256) → um_badfault s = false →
  0 ≤ usersrc < USERSPACETOP → 0 < len < 2 ^ 32 → usersrc + len ≤ 2 ^ 32 → USERSPACETOP ≤ dest →
  wp (copyinstr usersrc dest len) (λ r s', ∃ m', s' = set_um_mem m' s ∧
    str_outcome (reachable (um_readable s) usersrc) (um_mem s) usersrc dest len m' r ∧
    (∀ x, ¬ dest ≤ x < dest + len → m' x = um_mem s x)) s.
Proof.
  intros Hm Hbf Hu Hlen Htop Hdest. unfold copyinstr. unfold USERSPACETOP, MIPS_KSEG0 in *.
  rewrite copycheck_spec by lia. unfold USERSPACETOP, MIPS_KSEG0.
  rewrite decide_True by lia. cbn [Z.eqb negb]. wp_steps.
  apply (protected_ok (EFAULT, None)). eapply wp_mono; [apply copystr_ok; (done || lia)|].
  intros r m' [Ho Hf]. exists m'. split; [by apply set_mem_badfault|]. split; [|done].
  unfold reachable, USERSPACETOP, MIPS_KSEG0. destruct Ho as [l H1 H2 H3 H4|H1|k H1 H2 H3].
  - apply str_copied; try done. intros k Hk. destruct (H3 k Hk). split; [lia|done].
  - apply str_long. intros k Hk. destruct (H1 k Hk) as [? []]. split; [done|]. split; [lia|done].
  - apply (str_fault _ _ _ _ _ _ k); try done. intros [? ?]. apply H3. split; [lia|done].
Qed.
