(* ===== verification/Uio.v ===== *)
(** * Moving data through a uio ([kern/lib/uio.c])

    [uiomove] copies between a kernel buffer and the buffers of a [struct uio],
    one after the other, and advances the uio.  The specification of a kernel
    transfer is [iov_put] (the bytes spread over the buffers) and [iov_get]
    (the bytes of the buffers joined). *)

From S2P Require Import Prelude Machine Spinlock Pt Kernel MemBlock Str Copyinout.

Definition set_uio_iov (v : list iovec) (u : uio) : uio :=
  mk_uio v (uio_offset u) (uio_resid u) (uio_segflg u) (uio_rw u) (uio_space u).

(** [size] bytes of the first buffer are done: [iov_base += size],
    [iov_len -= size], [uio_resid -= size], [uio_offset += size] *)
Definition uio_advance (size : Z) (u : uio) : uio :=
  mk_uio (match uio_iov u with
          | [] => []
          | v :: l => mk_iovec (iov_base v + size) (iov_len v - size) :: l
          end)
    (s64 (uio_offset u + size)) (uio_resid u - size) (uio_segflg u) (uio_rw u) (uio_space u).

(** The transfer between the kernel buffer and the current one *)
Definition uio_copy (ptr size : Z) (base : Z) (u : uio) : M umach Z :=
  match uio_segflg u, uio_rw u with
  | UIO_SYSSPACE, UIO_READ => on_mem (memmove base ptr size) ;; mret 0
  | UIO_SYSSPACE, UIO_WRITE => on_mem (memmove ptr base size) ;; mret 0
  | _, UIO_READ => copyout ptr base size
  | _, UIO_WRITE => copyin base ptr size
  end.

(** The result and the updated uio.  [uio_rw] and [uio_segflg] have no invalid
    values in the model, so the two panics for them are not there. *)
Definition uiomove (ptr n : Z) (u : uio) : M umach (Z * uio) :=
  as_ ← gets um_as;
  (if decide (uio_segflg u = UIO_SYSSPACE)
   then kassert (bool_decide (uio_space u = None)) "uio->uio_space == NULL"
   else kassert (bool_decide (uio_space u = as_)) "uio->uio_space == proc_getas()") ;;
  while (λ st : Z * Z * uio,
    let '(ptr, n, u) := st in
    if (0 <? n) && (0 <? uio_resid u) then
      iov ← deref (head (uio_iov u));
      let size := if n <? iov_len iov then n else iov_len iov in
      if size =? 0 then
        match tail (uio_iov u) with
        | [] => halt (Panic "uiomove: ran out of buffers")
        | l => mret (inl (ptr, n, set_uio_iov l u))
        end
      else
        result ← uio_copy ptr size (iov_base iov) u;
        if negb (result =? 0) then mret (inr (result, u))
        else mret (inl (ptr + size, n - size, uio_advance size u))
    else mret (inr (0, u))) (ptr, n, u).

(** [zeros] is the address of the static array of 16 zeros. *)
Definition uiomovezeros (zeros n : Z) (u : uio) : M umach (Z * uio) :=
  kassert (bool_decide (uio_rw u = UIO_READ)) "uio->uio_rw == UIO_READ" ;;
  while (λ st : Z * uio,
    let '(n, u) := st in
    if 0 <? n then
      let amt := if n <? 16 then n else 16 in
      r ← uiomove zeros amt u;
      if negb (r.1 =? 0) then mret (inr r)
      else mret (inl (n - amt, r.2))
    else mret (inr (0, u))) (n, u).

(** ** Specification *)

Definition iov_total (l : list iovec) : Z := foldr (λ v n, iov_len v + n) 0 l.

(** Write the bytes [bs] into the buffers, in order. *)
Fixpoint iov_put (m : memory) (l : list iovec) (bs : list Z) : memory :=
  match l with
  | [] => m
  | v :: l' =>
      iov_put (mem_write m (iov_base v) (take (Z.to_nat (iov_len v)) bs)) l'
        (drop (Z.to_nat (iov_len v)) bs)
  end.

(** The bytes of the buffers, in order *)
Definition iov_get (m : memory) (l : list iovec) : list Z :=
  l ≫= λ v, mem_read m (iov_base v) (iov_len v).

(** Equal memories: no two bytes differ. *)
Definition mem_eq : relation memory := pointwise_relation Z eq.
#[export] Instance mem_eq_equiv : Equivalence mem_eq.
Proof. unfold mem_eq. apply _. Qed.

#[export] Instance mem_write_proper : Proper (mem_eq ==> eq ==> eq ==> mem_eq) mem_write.
Proof.
  intros m m' Hm a ? <- bs ? <- x. unfold mem_write. case_decide; [done|apply Hm].
Qed.
#[export] Instance mem_read_proper : Proper (mem_eq ==> eq ==> eq ==> eq) mem_read.
Proof. intros m m' Hm a ? <- n ? <-. apply mem_read_ext. intros x _. apply Hm. Qed.
#[export] Instance iov_put_proper : Proper (mem_eq ==> eq ==> eq ==> mem_eq) iov_put.
Proof.
  intros m m' Hm l ? <- bs ? <-. revert m m' Hm bs. induction l as [|v l IH]; intros m m' Hm bs; [done|].
  cbn. apply IH. by rewrite Hm.
Qed.

Lemma copied_write m a b n : 0 ≤ n → mem_eq (copied m a b n) (mem_write m a (mem_read m b n)).
Proof. intros Hn x. rewrite mem_write_read by done. done. Qed.

Lemma mem_write_nil m a : mem_eq (mem_write m a []) m.
Proof. intros x. unfold mem_write. cbn. by rewrite decide_False by lia. Qed.

(** Writing a list in two pieces *)
Lemma mem_write_split m a s n bs :
  (s ≤ n)%nat →
  mem_eq (mem_write (mem_write m a (take s bs)) (a + Z.of_nat s) (take (n - s) (drop s bs)))
    (mem_write m a (take n bs)).
Proof.
  intros Hs x. unfold mem_write. rewrite !length_take, length_drop.
  destruct (decide (a ≤ x < a + Z.of_nat (n `min` length bs))) as [H1|H1].
  - destruct (decide (x < a + Z.of_nat s)) as [H2|H2].
    + rewrite decide_False by lia. rewrite decide_True by lia.
      by rewrite !lookup_take_lt by lia.
    + rewrite decide_True by lia. rewrite !lookup_take_lt by lia. rewrite lookup_drop. do 2 f_equal. lia.
  - by rewrite !decide_False by lia.
Qed.

(** Doing [size] bytes of the first buffer, then the rest *)
Lemma iov_put_advance m v l size bs :
  0 ≤ size ≤ iov_len v →
  mem_eq (iov_put (mem_write m (iov_base v) (take (Z.to_nat size) bs))
            (mk_iovec (iov_base v + size) (iov_len v - size) :: l) (drop (Z.to_nat size) bs))
    (iov_put m (v :: l) bs).
Proof.
  intros Hs. cbn. rewrite drop_drop. replace (Z.to_nat size + Z.to_nat (iov_len v - size))%nat
    with (Z.to_nat (iov_len v)) by lia.
  replace (Z.to_nat (iov_len v - size)) with (Z.to_nat (iov_len v) - Z.to_nat size)%nat by lia.
  replace (iov_base v + size) with (iov_base v + Z.of_nat (Z.to_nat size)) by lia.
  by rewrite mem_write_split by lia.
Qed.

Lemma iov_put_nil m l : mem_eq (iov_put m l []) m.
Proof. revert m. induction l as [|v l IH]; intros m; [done|]. cbn. by rewrite take_nil, drop_nil, IH, mem_write_nil. Qed.

Lemma mem_read_take m a n s : 0 ≤ s ≤ n → take (Z.to_nat s) (mem_read m a n) = mem_read m a s.
Proof.
  intros Hs. apply list_eq. intros i. destruct (decide (Z.of_nat i < s)) as [Hi|Hi].
  - rewrite lookup_take_lt by lia. unfold mem_read. rewrite !list_lookup_fmap.
    rewrite (proj2 (lookup_seqZ 0 n i (Z.of_nat i))), (proj2 (lookup_seqZ 0 s i (Z.of_nat i))) by lia. done.
  - rewrite !lookup_ge_None_2; [done|rewrite length_mem_read; lia|rewrite length_take; lia].
Qed.

Lemma mem_read_drop m a n s : 0 ≤ s ≤ n → drop (Z.to_nat s) (mem_read m a n) = mem_read m (a + s) (n - s).
Proof.
  intros Hs. apply list_eq. intros i. rewrite lookup_drop. unfold mem_read. rewrite !list_lookup_fmap.
  destruct (decide (Z.of_nat i < n - s)) as [Hi|Hi].
  - rewrite (proj2 (lookup_seqZ 0 n (Z.to_nat s + i) (s + Z.of_nat i))) by lia.
    rewrite (proj2 (lookup_seqZ 0 (n - s) i (Z.of_nat i))) by lia. cbn. do 2 f_equal. lia.
  - by rewrite !lookup_seqZ_ge by lia.
Qed.

(** A well-formed uio: [uio_resid] is the size of the buffers. *)
Record uio_wf (u : uio) : Prop := {
  uw_resid : iov_total (uio_iov u) = uio_resid u;
  uw_len : Forall (λ v, 0 ≤ iov_len v) (uio_iov u)
}.

(** The buffers do not touch the [n] bytes at [a]. *)
Definition iov_apart (a n : Z) (l : list iovec) : Prop :=
  Forall (λ v, iov_base v + iov_len v ≤ a ∨ a + n ≤ iov_base v) l.

Lemma iov_total_nonneg l : Forall (λ v, 0 ≤ iov_len v) l → 0 ≤ iov_total l.
Proof. unfold iov_total. induction 1 as [|v l Hv _ IH]; cbn; lia. Qed.

Lemma uio_wf_advance u v l size :
  uio_wf u → uio_iov u = v :: l → 0 ≤ size ≤ iov_len v → uio_wf (uio_advance size u).
Proof.
  intros [Hr Hl] Hv Hs. unfold uio_advance. rewrite Hv in *. cbn in *.
  inversion Hl; subst. split; cbn; [lia|]. constructor; [cbn; lia|done].
Qed.

Lemma uio_wf_next u v l : uio_wf u → uio_iov u = v :: l → iov_len v = 0 → uio_wf (set_uio_iov l u).
Proof. intros [Hr Hl] Hv H0. rewrite Hv in *. cbn in *. inversion Hl; subst. split; cbn; [lia|done]. Qed.

Lemma uio_copy_same ptr size base u u' :
  uio_segflg u' = uio_segflg u → uio_rw u' = uio_rw u →
  uio_copy ptr size base u' = uio_copy ptr size base u.
Proof. unfold uio_copy. by intros -> ->. Qed.

(** The uio after [k] bytes, with the buffers [l] left *)
Definition uio_done (k : Z) (l : list iovec) (u : uio) : uio :=
  mk_uio l (uio_offset u + k) (uio_resid u - k) (uio_segflg u) (uio_rw u) (uio_space u).

(** The loop moves [min n resid] bytes.  [P d l s] is what the caller knows
    when [d] bytes are moved and the buffers [l] are left. *)
Lemma uiomove_loop ptr n u s (P : Z → list iovec → umach → Prop) :
  uio_wf u → 0 ≤ n < 2 ^ 32 → 0 ≤ uio_offset u → uio_offset u + uio_resid u < 2 ^ 63 →
  Z.of_nat (length (uio_iov u)) < 2 ^ 32 →
  (if decide (uio_segflg u = UIO_SYSSPACE) then uio_space u = None else uio_space u = um_as s) →
  P 0 (uio_iov u) s →
  (∀ d v l s, P d (v :: l) s → iov_len v = 0 → P d l s) →
  (∀ d v l s size, P d (v :: l) s → 0 ≤ d → 0 < size ≤ iov_len v → d + size ≤ Z.min n (uio_resid u) →
    wp (uio_copy (ptr + d) size (iov_base v) u)
      (λ r s', r = 0 ∧ P (d + size) (mk_iovec (iov_base v + size) (iov_len v - size) :: l) s') s) →
  wp (uiomove ptr n u) (λ r s', ∃ l, r = (0, uio_done (Z.min n (uio_resid u)) l u) ∧
    iov_total l = uio_resid u - Z.min n (uio_resid u) ∧ P (Z.min n (uio_resid u)) l s') s.
Proof.
  intros Hwf Hn Ho0 Ho Hcnt Hsp HP Hnext Hcopy. unfold uiomove. wp_steps.
  eapply (wp_mono _ (λ _ s', s' = s)).
  { destruct (decide _); apply wp_kassert; (split; [by apply bool_decide_eq_true|done]). }
  intros [] ? ->. pose proof (iov_total_nonneg _ (uw_len _ Hwf)) as Hres. rewrite (uw_resid _ Hwf) in Hres.
  set (Inv := λ (st : Z * Z * uio) (s' : umach), ∃ d l, st = (ptr + d, n - d, uio_done d l u) ∧
    0 ≤ d ≤ n ∧ d ≤ uio_resid u ∧ uio_wf (uio_done d l u) ∧ (length l ≤ length (uio_iov u))%nat ∧ P d l s').
  apply (wp_while _ Inv (λ st _, st.1.2 + Z.of_nat (length (uio_iov st.2)))).
  - exists 0, (uio_iov u). unfold uio_done. rewrite !Z.add_0_r, !Z.sub_0_r.
    split_and!; try done; try lia; by destruct u.
  - intros ? ? (d & l & -> & ? & ? & _). cbn. lia.
  - cbn. lia.
  - intros ? s' (d & l & -> & Hd & Hdr & [Hw1 Hw2] & Hlen & HPd). cbn [uio_resid uio_done uio_iov] in *.
    assert ((0 <? n - d) && (0 <? uio_resid u - d) = bool_decide (d < Z.min n (uio_resid u))) as ->.
    { destruct (Z.ltb_spec 0 (n - d)), (Z.ltb_spec 0 (uio_resid u - d)); cbn; symmetry;
        (apply bool_decide_true || apply bool_decide_false); lia. }
    case_bool_decide as Hmore.
    2:{ apply wp_ret. assert (d = Z.min n (uio_resid u)) as <- by lia. exists l. by split_and!. }
    destruct l as [|v l].
    { unfold iov_total in Hw1. cbn in Hw1. lia. }
    inversion Hw2 as [|? ? Hv Hl]; subst. wp_steps. exists v. split; [done|].
    assert (iov_total (v :: l) = iov_len v + iov_total l) as Htot by done.
    pose proof (iov_total_nonneg _ Hl).
    assert ((if n - d <? iov_len v then n - d else iov_len v) = Z.min (n - d) (iov_len v)) as ->.
    { destruct (Z.ltb_spec (n - d) (iov_len v)); lia. }
    destruct (Z.eqb_spec (Z.min (n - d) (iov_len v)) 0) as [E|E].
    + assert (iov_len v = 0) as Hv0 by lia. destruct l as [|v' l].
      { unfold iov_total in *. cbn in *. lia. }
      cbn [tail]. wp_steps. split; [|cbn; lia]. exists d, (v' :: l). split; [done|].
      split; [lia|]. split; [lia|]. split; [split; cbn [uio_iov uio_done uio_resid]; [lia|done]|].
      split; [cbn in *; lia|by eapply Hnext].
    + rewrite (uio_copy_same _ _ _ u) by done. apply wp_bind.
      eapply wp_mono; [apply Hcopy; [exact HPd|lia|lia|lia]|]. intros r s'' [-> HP']. cbn [Z.eqb negb].
      remember (Z.min (n - d) (iov_len v)) as size eqn:Hsz. wp_steps. split; [|cbn; lia].
      exists (d + size), (mk_iovec (iov_base v + size) (iov_len v - size) :: l).
      unfold uio_advance, uio_done. cbn [uio_iov uio_offset uio_resid uio_segflg uio_rw uio_space].
      rewrite s64_id by lia. split; [f_equal; [f_equal; lia|f_equal; lia]|].
      split; [lia|]. split; [lia|]. split; [|done]. split; cbn [uio_iov uio_done uio_resid].
      * change (iov_total _) with (iov_len v - size + iov_total l). lia.
      * constructor; [cbn; lia|done].
Qed.

(** The state after a change of memory only *)
Definition um_frame (s s' : umach) : Prop := s' = set_um_mem (um_mem s') s.

Lemma iov_apart_advance a n v l size :
  iov_apart a n (v :: l) → 0 ≤ size ≤ iov_len v →
  iov_apart a n (mk_iovec (iov_base v + size) (iov_len v - size) :: l).
Proof. intros H Hs. inversion H; subst. constructor; [cbn in *; lia|done]. Qed.

Lemma wp_memmove dst src len Q s :
  0 ≤ len →
  (∀ m', mem_eq m' (mem_write (um_mem s) dst (mem_read (um_mem s) src len)) → Q dst (set_um_mem m' s)) →
  wp (on_mem (memmove dst src len)) Q s.
Proof.
  intros Hlen HQ. unfold on_mem. apply wp_zoom. eapply wp_mono; [by apply memmove_ok|].
  intros r m' [-> Hm']. apply HQ. intros x. rewrite Hm'. by apply copied_write.
Qed.

Section kernel.
Context (ptr n : Z) (u : uio) (s : umach).
Hypothesis Hwf : uio_wf u.
Hypothesis Hn : 0 ≤ n < 2 ^ 32.
Hypothesis Hoff : 0 ≤ uio_offset u ∧ uio_offset u + uio_resid u < 2 ^ 63.
Hypothesis Hcnt : Z.of_nat (length (uio_iov u)) < 2 ^ 32.
Hypothesis Hseg : uio_segflg u = UIO_SYSSPACE.
Hypothesis Hspace : uio_space u = None.
Hypothesis Hapart : iov_apart ptr n (uio_iov u).

Let k := Z.min n (uio_resid u).

Lemma uiomove_read :
  uio_rw u = UIO_READ →
  wp (uiomove ptr n u) (λ r s', ∃ l, r = (0, uio_done k l u) ∧ iov_total l = uio_resid u - k ∧
    um_frame s s' ∧ mem_eq (um_mem s') (iov_put (um_mem s) (uio_iov u) (mem_read (um_mem s) ptr k))) s.
Proof using Hwf Hn Hoff Hcnt Hseg Hspace Hapart.
  intros Hrw. destruct Hoff as [Ho1 Ho2].
  eapply wp_mono; [apply (uiomove_loop ptr n u s (λ d l s', um_frame s s' ∧ iov_apart ptr n l ∧
    (∀ x, ptr ≤ x < ptr + n → um_mem s' x = um_mem s x) ∧
    mem_eq (iov_put (um_mem s') l (mem_read (um_mem s) (ptr + d) (k - d)))
      (iov_put (um_mem s) (uio_iov u) (mem_read (um_mem s) ptr k)))); try done|].
  - by rewrite decide_True.
  - split_and!; [by destruct s|done|done|]. by rewrite Z.add_0_r, Z.sub_0_r.
  - intros d v l s' (H1 & H2 & H3 & H4) Hv. split_and!; [done|by inversion H2|done|].
    rewrite <-H4. cbn. rewrite Hv. cbn. by rewrite mem_write_nil.
  - intros d v l s' size (H1 & H2 & H3 & H4) Hd Hs Hk. fold k in Hk. unfold uio_copy. rewrite Hseg, Hrw.
    apply wp_bind, wp_memmove; [lia|]. intros m' Hm'. apply wp_ret. split; [done|].
    assert (∀ x, ptr ≤ x < ptr + n → m' x = um_mem s x) as Hsrc.
    { intros x Hx. rewrite (Hm' x), mem_write_read by lia. inversion H2; subst.
      rewrite decide_False by lia. by apply H3. }
    split_and!; [rewrite H1; by destruct s|by apply iov_apart_advance; [|lia]|done|].
    cbn [um_mem set_um_mem]. rewrite <-H4, <-(iov_put_advance _ v l size) by lia.
    rewrite mem_read_take, mem_read_drop by lia. rewrite Hm'.
    rewrite (mem_read_ext (um_mem s') (um_mem s) (ptr + d) size) by (intros; apply H3; lia).
    by replace (ptr + (d + size)) with (ptr + d + size) by lia;
      replace (k - (d + size)) with (k - d - size) by lia.
  - intros r s' (l & -> & Htot & Hf & _ & _ & Hm). exists l. split_and!; try done.
    fold k in Hm. rewrite <-Hm. unfold k at 2. rewrite Z.sub_diag. by rewrite iov_put_nil.
Qed.

Lemma iov_get_advance m v l size :
  0 ≤ size ≤ iov_len v →
  drop (Z.to_nat size) (iov_get m (v :: l)) =
    iov_get m (mk_iovec (iov_base v + size) (iov_len v - size) :: l).
Proof.
  intros Hs. unfold iov_get. rewrite !bind_cons. cbn [iov_base iov_len].
  rewrite drop_app_le by (rewrite length_mem_read; lia). by rewrite mem_read_drop by lia.
Qed.

Lemma uiomove_write :
  uio_rw u = UIO_WRITE →
  wp (uiomove ptr n u) (λ r s', ∃ l, r = (0, uio_done k l u) ∧ iov_total l = uio_resid u - k ∧
    um_frame s s' ∧
    mem_eq (um_mem s') (mem_write (um_mem s) ptr (take (Z.to_nat k) (iov_get (um_mem s) (uio_iov u))))) s.
Proof using Hwf Hn Hoff Hcnt Hseg Hspace Hapart.
  intros Hrw. destruct Hoff as [Ho1 Ho2].
  eapply wp_mono; [apply (uiomove_loop ptr n u s (λ d l s', um_frame s s' ∧ 0 ≤ d ∧ iov_apart ptr n l ∧
    drop (Z.to_nat d) (iov_get (um_mem s) (uio_iov u)) = iov_get (um_mem s) l ∧
    mem_eq (um_mem s') (mem_write (um_mem s) ptr (take (Z.to_nat d) (iov_get (um_mem s) (uio_iov u))))));
    try done|].
  - by rewrite decide_True.
  - split_and!; [by destruct s|done|done|done|]. cbn. by rewrite mem_write_nil.
  - intros d v l s' (H1 & H0 & H2 & H3 & H4) Hv. split_and!; [done|done|by inversion H2| |done].
    rewrite H3. unfold iov_get. rewrite bind_cons, Hv. done.
  - intros d v l s' size (H1 & H0 & H2 & H3 & H4) Hd Hs Hk. unfold uio_copy. rewrite Hseg, Hrw.
    apply wp_bind, wp_memmove; [lia|]. intros m' Hm'. apply wp_ret. split; [done|].
    split_and!; [rewrite H1; by destruct s|lia|by apply iov_apart_advance; [|lia]| |].
    + rewrite <-iov_get_advance, <-H3, drop_drop by lia. f_equal. lia.
    + cbn [um_mem set_um_mem]. rewrite Hm'. inversion H2; subst.
      assert (Z.to_nat (iov_len v) ≤ length (iov_get (um_mem s) (v :: l)))%nat as Hlen.
      { unfold iov_get. rewrite bind_cons, length_app, length_mem_read. lia. }
      rewrite (mem_read_ext (um_mem s') (um_mem s) (iov_base v) size).
      2:{ intros x Hx. rewrite (H4 x). unfold mem_write. rewrite decide_False; [done|].
          rewrite length_take. lia. }
      rewrite H4, <-(mem_write_split (um_mem s) ptr (Z.to_nat d) (Z.to_nat (d + size))) by lia.
      rewrite H3. replace (Z.to_nat (d + size) - Z.to_nat d)%nat with (Z.to_nat size) by lia.
      unfold iov_get. rewrite bind_cons, take_app_le by (rewrite length_mem_read; lia).
      rewrite mem_read_take by lia. by rewrite Z2Nat.id by lia.
  - intros r s' (l & -> & Htot & Hf & _ & _ & _ & Hm). exists l. by split_and!.
Qed.
End kernel.

(** [uiomove] on kernel buffers moves [min n resid] bytes: a read scatters
    the bytes at [ptr] over the buffers in order, a write gathers the bytes of
    the buffers at [ptr]; the offset and the residue advance by that many
    bytes and the buffers that are left hold the rest. *)
Theorem uiomove_moves ptr n u s :
  uio_wf u → 0 ≤ n < 2 ^ 32 → 0 ≤ uio_offset u ∧ uio_offset u + uio_resid u < 2 ^ 63 →
  Z.of_nat (length (uio_iov u)) < 2 ^ 32 → uio_segflg u = UIO_SYSSPACE → uio_space u = None → iov_apart ptr n (uio_iov u) →
  let k := Z.min n (uio_resid u) in
  wp (uiomove ptr n u) (λ r s', ∃ l, r = (0, uio_done k l u) ∧ iov_total l = uio_resid u - k ∧ um_frame s s' ∧
    mem_eq (um_mem s') (match uio_rw u with
      | UIO_READ => iov_put (um_mem s) (uio_iov u) (mem_read (um_mem s) ptr k)
      | UIO_WRITE => mem_write (um_mem s) ptr (take (Z.to_nat k) (iov_get (um_mem s) (uio_iov u)))
      end)) s.
Proof. intros. destruct (uio_rw u) eqn:E; [by apply uiomove_read|by apply uiomove_write]. Qed.

Lemma uiomove_moves_witness :
  let u := mk_uio [mk_iovec 100 2; mk_iovec 200 5] 0 7 UIO_SYSSPACE UIO_READ None in
  let s := mk_umach (λ x, x) (λ _, false) (λ _, false) false None in
  wp (uiomove 10 4 u) (λ r s', ∃ l, r = (0, uio_done 4 l u) ∧ iov_total l = 3 ∧ um_frame s s' ∧
    mem_eq (um_mem s') (iov_put (um_mem s) (uio_iov u) [10; 11; 12; 13])) s.
Proof.
  apply (uiomove_moves 10 4 (mk_uio [mk_iovec 100 2; mk_iovec 200 5] 0 7 UIO_SYSSPACE UIO_READ None)); cbn; try done; try lia.
  - split; [done|]. repeat constructor; cbn; lia.
  - repeat constructor; cbn; lia.
Defined.
