(* ===== verification/Bitmap.v ===== *)
(** * Bitmaps ([kern/lib/bitmap.c])

    An array of bytes holds [nbits] bits; the bits past the end are kept set,
    so that [bitmap_alloc] never returns one of them.  The specification is
    the function [bit] from indexes to booleans. *)

From S2P Require Import Prelude Machine.

Definition BITS_PER_WORD : Z := 8.
Definition WORD_ALLBITS : Z := 0xff.

(** [DIVROUNDUP(a, b)] *)
Definition DIVROUNDUP (a b : Z) : Z := u32 (a + b - 1) / b.

Record bitmap : Type := mk_bitmap { nbits : Z; v : list Z }.
Definition set_v (x : list Z) (b : bitmap) : bitmap := mk_bitmap (nbits b) x.

(** [b->v[ix]] and [b->v[ix] = w] *)
Definition get_word (ix : Z) : M bitmap Z :=
  l ← gets v;
  deref (l !! Z.to_nat ix).
Definition put_word (ix w : Z) : M bitmap () :=
  l ← gets v;
  if decide (Z.to_nat ix < length l)%nat then modify (set_v (<[Z.to_nat ix := u8 w]> l)) else halt BadAccess.

(** [kmalloc1] and [kmalloc2] say whether the two allocations succeed. *)
Definition bitmap_create (kmalloc1 kmalloc2 : bool) (nbits : Z) : result (option bitmap) :=
  let words := DIVROUNDUP nbits BITS_PER_WORD in
  if negb kmalloc1 then Ok None
  else if negb kmalloc2 then Ok None
  else
    let b := mk_bitmap nbits (replicate (Z.to_nat words) 0) in
    if nbits / BITS_PER_WORD <? words then
      let ix := u32 (words - 1) in
      let overbits := u32 (nbits - ix * BITS_PER_WORD) in
      match
        (kassert (nbits / BITS_PER_WORD =? u32 (words - 1)) "nbits / BITS_PER_WORD == words-1" ;;
         kassert ((0 <? overbits) && (overbits <? BITS_PER_WORD))
           "overbits > 0 && overbits < BITS_PER_WORD" ;;
         for_list (seqZ overbits (BITS_PER_WORD - overbits)) (λ j,
           w ← get_word ix;
           put_word ix (Z.lor w (Z.shiftl 1 j)))) b
      with
      | Ok (_, b) => Ok (Some b)
      | Stop e => Stop e
      end
    else Ok (Some b).

Definition bitmap_getdata (b : bitmap) : list Z := v b.

(** The loop over the offsets of word [ix] *)
Fixpoint alloc_offset (ix : Z) (l : list Z) : M bitmap (option Z) :=
  match l with
  | [] => mret None
  | offset :: l' =>
      let mask := u8 (Z.shiftl 1 offset) in
      w ← get_word ix;
      if Z.land w mask =? 0 then
        put_word ix (Z.lor w mask) ;;
        let index := u32 (ix * BITS_PER_WORD + offset) in
        n ← gets nbits;
        kassert (index <? n) "*index < b->nbits" ;;
        mret (Some index)
      else alloc_offset ix l'
  end.

(** The loop over the words: the result and [*index] *)
Fixpoint alloc_word (l : list Z) : M bitmap (Z * option Z) :=
  match l with
  | [] => mret (ENOSPC, None)
  | ix :: l' =>
      w ← get_word ix;
      if negb (w =? WORD_ALLBITS) then
        r ← alloc_offset ix (seqZ 0 BITS_PER_WORD);
        match r with
        | Some index => mret (0, Some index)
        | None => halt (AssertFail "0")
        end
      else alloc_word l'
  end.

Definition bitmap_alloc : M bitmap (Z * option Z) :=
  n ← gets nbits;
  alloc_word (seqZ 0 (DIVROUNDUP n BITS_PER_WORD)).

Definition bitmap_translate (bitno : Z) : Z * Z :=
  (bitno / BITS_PER_WORD, u8 (Z.shiftl 1 (bitno `mod` BITS_PER_WORD))).

Definition bitmap_mark (index : Z) : M bitmap () :=
  n ← gets nbits;
  kassert (index <? n) "index < b->nbits" ;;
  let '(ix, mask) := bitmap_translate index in
  w ← get_word ix;
  kassert (Z.land w mask =? 0) "(b->v[ix] & mask)==0" ;;
  put_word ix (Z.lor w mask).

Definition bitmap_unmark (index : Z) : M bitmap () :=
  n ← gets nbits;
  kassert (index <? n) "index < b->nbits" ;;
  let '(ix, mask) := bitmap_translate index in
  w ← get_word ix;
  kassert (negb (Z.land w mask =? 0)) "(b->v[ix] & mask)!=0" ;;
  put_word ix (Z.land w (Z.lnot mask)).

Definition bitmap_isset (index : Z) : M bitmap Z :=
  let '(ix, mask) := bitmap_translate index in
  w ← get_word ix;
  mret (Z.land w mask).

(** ** Specification *)

(** Bit [i] of an array of bytes *)
Definition bit_of (l : list Z) (i : Z) : bool :=
  Z.testbit (default 0 (l !! Z.to_nat (i / 8))) (i `mod` 8).
Definition bit (b : bitmap) (i : Z) : bool := bit_of (v b) i.

(** Every word is a byte, there are enough of them, and the bits past the end
    are set. *)
Record bm_wf (b : bitmap) : Prop := {
  bw_bits : 0 ≤ nbits b < 2 ^ 32 - 8;
  bw_len : Z.of_nat (length (v b)) = (nbits b + 7) / 8;
  bw_byte : Forall (λ w, 0 ≤ w < 256) (v b);
  bw_over : ∀ i, nbits b ≤ i < 8 * Z.of_nat (length (v b)) → bit b i = true
}.

Lemma divroundup_eq n : 0 ≤ n < 2 ^ 32 - 8 → DIVROUNDUP n BITS_PER_WORD = (n + 7) / 8.
Proof. intros Hn. unfold DIVROUNDUP, BITS_PER_WORD. rewrite u32_id by lia. f_equal. lia. Qed.

(** One bit of a byte, as [bitmap_translate] masks it *)
Lemma mask_eq o : 0 ≤ o < 8 → u8 (Z.shiftl 1 o) = 2 ^ o.
Proof.
  intros Ho. rewrite Z.shiftl_1_l. unfold u8. apply Z.mod_small. split; [lia|]. apply Z.pow_lt_mono_r; lia.
Qed.

Lemma byte_bits w k : 0 ≤ w < 256 → 8 ≤ k → Z.testbit w k = false.
Proof.
  intros Hw Hk. destruct (decide (w = 0)) as [->|]; [apply Z.bits_0|].
  apply Z.bits_above_log2; [lia|]. assert (Z.log2 w < 8) by (apply Z.log2_lt_pow2; lia). lia.
Qed.

Lemma lor_byte w o : 0 ≤ w < 256 → 0 ≤ o < 8 → 0 ≤ Z.lor w (2 ^ o) < 256.
Proof.
  intros Hw Ho. assert (0 ≤ Z.lor w (2 ^ o)) by (apply Z.lor_nonneg; lia). split; [done|].
  destruct (decide (Z.lor w (2 ^ o) = 0)); [lia|]. apply Z.log2_lt_pow2 with (b := 8); [lia|].
  rewrite Z.log2_lor, Z.log2_pow2 by lia. destruct (decide (w = 0)) as [->|]; [cbn; lia|].
  assert (Z.log2 w < 8) by (apply Z.log2_lt_pow2; lia). lia.
Qed.

Lemma land_byte w x : 0 ≤ w < 256 → 0 ≤ Z.land w x < 256.
Proof.
  intros Hw. assert (Z.land w x = Z.land w x `mod` 2 ^ 8) as ->.
  { rewrite <-Z.land_ones, <-Z.land_assoc, (Z.land_comm x), Z.land_assoc, Z.land_ones by lia.
    by rewrite Z.mod_small. }
  by apply Z.mod_pos_bound.
Qed.

(** Changing one word changes the bits of that word only. *)
Lemma bit_insert l ix w i :
  (ix < length l)%nat → 0 ≤ i →
  bit_of (<[ix := w]> l) i =
    if decide (i / 8 = Z.of_nat ix) then Z.testbit w (i `mod` 8) else bit_of l i.
Proof.
  intros Hix Hi. unfold bit_of. assert (0 ≤ i / 8) by (apply Z.div_pos; lia). case_decide as H1.
  - rewrite H1, Nat2Z.id. by rewrite list_lookup_insert_eq.
  - rewrite list_lookup_insert_ne; [done|]. lia.
Qed.

Lemma same_bit i o ix : 0 ≤ o < 8 → i / 8 = ix → i `mod` 8 = o ↔ i = ix * 8 + o.
Proof. intros Ho <-. pose proof (Z.div_mod i 8). lia. Qed.

Lemma set_bit l ix w o i :
  l !! ix = Some w → 0 ≤ o < 8 → 0 ≤ i →
  bit_of (<[ix := Z.lor w (2 ^ o)]> l) i = bool_decide (i = Z.of_nat ix * 8 + o) || bit_of l i.
Proof.
  intros Hw Ho Hi. apply lookup_lt_Some in Hw as Hlt. rewrite bit_insert by done. case_decide as H1.
  - assert (bit_of l i = Z.testbit w (i `mod` 8)) as ->.
    { unfold bit_of. by rewrite H1, Nat2Z.id, Hw. }
    rewrite Z.lor_spec, Z.pow2_bits_eqb by lia.
    rewrite orb_comm. f_equal. rewrite <-(bool_decide_ext _ _ (same_bit i o _ Ho H1)).
    destruct (Z.eqb_spec o (i `mod` 8)); [by rewrite bool_decide_true|by rewrite bool_decide_false].
  - rewrite bool_decide_false; [done|]. intros ->. apply H1.
    rewrite Z.div_add_l, Z.div_small by lia. lia.
Qed.

Lemma clear_bit l ix w o i :
  l !! ix = Some w → 0 ≤ o < 8 → 0 ≤ i →
  bit_of (<[ix := Z.land w (Z.lnot (2 ^ o))]> l) i =
    negb (bool_decide (i = Z.of_nat ix * 8 + o)) && bit_of l i.
Proof.
  intros Hw Ho Hi. apply lookup_lt_Some in Hw as Hlt. rewrite bit_insert by done. case_decide as H1.
  - assert (bit_of l i = Z.testbit w (i `mod` 8)) as ->.
    { unfold bit_of. by rewrite H1, Nat2Z.id, Hw. }
    assert (0 ≤ i `mod` 8) by (by apply Z.mod_pos_bound).
    rewrite Z.land_spec, Z.lnot_spec, Z.pow2_bits_eqb by lia. rewrite andb_comm. do 2 f_equal.
    rewrite <-(bool_decide_ext _ _ (same_bit i o _ Ho H1)).
    destruct (Z.eqb_spec o (i `mod` 8)); [by rewrite bool_decide_true|by rewrite bool_decide_false].
  - rewrite bool_decide_false; [done|]. intros ->. apply H1.
    rewrite Z.div_add_l, Z.div_small by lia. lia.
Qed.

(** ** The operations *)

Lemma get_word_ok b ix w : v b !! Z.to_nat ix = Some w → get_word ix b = Ok (w, b).
Proof. intros H. unfold get_word. mred. by rewrite H. Qed.

Lemma put_word_ok b ix w :
  (Z.to_nat ix < length (v b))%nat → 0 ≤ w < 256 →
  put_word ix w b = Ok (tt, set_v (<[Z.to_nat ix := w]> (v b)) b).
Proof.
  intros H Hw. unfold put_word. mred. rewrite decide_True by done. unfold u8. by rewrite Z.mod_small.
Qed.

(** Setting a bit that exists keeps the invariant. *)
Lemma bm_wf_set b ix w o :
  bm_wf b → v b !! ix = Some w → 0 ≤ o < 8 →
  let b' := set_v (<[ix := Z.lor w (2 ^ o)]> (v b)) b in
  bm_wf b' ∧ ∀ j, 0 ≤ j → bit b' j = bool_decide (j = Z.of_nat ix * 8 + o) || bit b j.
Proof.
  intros [H1 H2 H3 H4] Hw Ho b'.
  assert (∀ j, 0 ≤ j → bit b' j = bool_decide (j = Z.of_nat ix * 8 + o) || bit b j) as Hb.
  { intros j Hj. by apply set_bit. }
  split; [|done]. split; cbn; [done|by rewrite length_insert| |].
  - apply Forall_insert; [done|]. apply lor_byte; [|done]. by eapply Forall_lookup_1 in H3.
  - rewrite length_insert. intros i Hi. rewrite Hb by lia. rewrite H4 by done. by rewrite orb_true_r.
Qed.

(** Clearing a bit below [nbits] keeps it too. *)
Lemma bm_wf_clear b ix w o :
  bm_wf b → v b !! ix = Some w → 0 ≤ o < 8 → Z.of_nat ix * 8 + o < nbits b →
  let b' := set_v (<[ix := Z.land w (Z.lnot (2 ^ o))]> (v b)) b in
  bm_wf b' ∧ ∀ j, 0 ≤ j → bit b' j = negb (bool_decide (j = Z.of_nat ix * 8 + o)) && bit b j.
Proof.
  intros [H1 H2 H3 H4] Hw Ho Hlt b'.
  assert (∀ j, 0 ≤ j → bit b' j = negb (bool_decide (j = Z.of_nat ix * 8 + o)) && bit b j) as Hb.
  { intros j Hj. by apply clear_bit. }
  split; [|done]. split; cbn; [done|by rewrite length_insert| |].
  - apply Forall_insert; [done|]. apply land_byte. by eapply Forall_lookup_1 in H3.
  - rewrite length_insert. intros i Hi. rewrite Hb by lia. rewrite H4 by done.
    rewrite bool_decide_false by lia. done.
Qed.

(** The word and the mask of an index *)
Lemma translate_ok b index :
  bm_wf b → 0 ≤ index < nbits b →
  ∃ w, bitmap_translate index = (index / 8, 2 ^ (index `mod` 8)) ∧
    v b !! Z.to_nat (index / 8) = Some w ∧ 0 ≤ w < 256 ∧ 0 ≤ index `mod` 8 < 8 ∧
    0 ≤ index / 8 ∧ index / 8 * 8 + index `mod` 8 = index ∧ bit b index = Z.testbit w (index `mod` 8).
Proof.
  intros [H1 H2 H3 H4] Hi. pose proof (Z.mod_pos_bound index 8 ltac:(lia)).
  pose proof (Z.div_mod index 8 ltac:(lia)). assert (0 ≤ index / 8) by (apply Z.div_pos; lia).
  assert (index / 8 < (nbits b + 7) / 8).
  { apply Z.div_lt_upper_bound; [lia|]. pose proof (Z.div_mod (nbits b + 7) 8 ltac:(lia)).
    pose proof (Z.mod_pos_bound (nbits b + 7) 8 ltac:(lia)). lia. }
  destruct (lookup_lt_is_Some_2 (v b) (Z.to_nat (index / 8)) ltac:(lia)) as [w Hw]. exists w.
  pose proof (Forall_lookup_1 _ _ _ _ H3 Hw) as Hr. cbn beta in Hr.
  split_and!; try done; try lia.
  - unfold bitmap_translate, BITS_PER_WORD. by rewrite mask_eq by done.
  - unfold bit, bit_of. by rewrite Hw.
Qed.

Lemma bitmap_mark_run b index :
  bm_wf b → 0 ≤ index < nbits b →
  if bit b index then bitmap_mark index b = Stop (AssertFail "(b->v[ix] & mask)==0")
  else ∃ b', bitmap_mark index b = Ok (tt, b') ∧ bm_wf b' ∧ nbits b' = nbits b ∧
    ∀ j, 0 ≤ j → bit b' j = bool_decide (j = index) || bit b j.
Proof.
  intros Hwf Hi. destruct (translate_ok b index Hwf Hi) as (w & Ht & Hw & Hr & Ho & Hq & He & Hb).
  unfold bitmap_mark. mred. rewrite (proj2 (Z.ltb_lt _ _)) by lia. rewrite Ht, (get_word_ok _ _ _ Hw), Hb.
  rewrite land_pow2 by lia. destruct (Z.testbit w _); cbn [negb]; [done|].
  apply lookup_lt_Some in Hw as Hlt. rewrite put_word_ok by (done || by apply lor_byte).
  eexists. split; [done|]. destruct (bm_wf_set b _ w (index `mod` 8) Hwf Hw Ho) as [Hwf' Hbits].
  split_and!; [done|done|]. intros j Hj. rewrite Hbits by done. rewrite Z2Nat.id, He by done. done.
Qed.

Lemma bitmap_unmark_run b index :
  bm_wf b → 0 ≤ index < nbits b →
  if bit b index
  then ∃ b', bitmap_unmark index b = Ok (tt, b') ∧ bm_wf b' ∧ nbits b' = nbits b ∧
    ∀ j, 0 ≤ j → bit b' j = negb (bool_decide (j = index)) && bit b j
  else bitmap_unmark index b = Stop (AssertFail "(b->v[ix] & mask)!=0").
Proof.
  intros Hwf Hi. destruct (translate_ok b index Hwf Hi) as (w & Ht & Hw & Hr & Ho & Hq & He & Hb).
  unfold bitmap_unmark. mred. rewrite (proj2 (Z.ltb_lt _ _)) by lia. rewrite Ht, (get_word_ok _ _ _ Hw), Hb.
  rewrite land_pow2 by lia. destruct (Z.testbit w _); cbn [negb]; [|done].
  apply lookup_lt_Some in Hw as Hlt. rewrite put_word_ok by (done || by apply land_byte).
  eexists. split; [done|]. destruct (bm_wf_clear b _ w (index `mod` 8) Hwf Hw Ho ltac:(lia)) as [Hwf' Hbits].
  split_and!; [done|done|]. intros j Hj. rewrite Hbits by done. rewrite Z2Nat.id, He by done. done.
Qed.

Lemma bitmap_isset_run b index :
  bm_wf b → 0 ≤ index < nbits b →
  ∃ r, bitmap_isset index b = Ok (r, b) ∧ (r =? 0) = negb (bit b index).
Proof.
  intros Hwf Hi. destruct (translate_ok b index Hwf Hi) as (w & Ht & Hw & Hr & Ho & Hq & He & Hb).
  unfold bitmap_isset. rewrite Ht. mred. rewrite (get_word_ok _ _ _ Hw). eexists. split; [done|].
  by rewrite land_pow2, Hb by lia.
Qed.

(** ** Allocation *)

Lemma alloc_offset_run b ix w o m :
  bm_wf b → 0 ≤ ix → v b !! Z.to_nat ix = Some w → o + Z.of_nat m = 8 → 0 ≤ o →
  (∀ k, 0 ≤ k < o → Z.testbit w k = true) → (∀ k, nbits b ≤ ix * 8 + k → 0 ≤ k < 8 → Z.testbit w k = true) →
  (alloc_offset ix (seqZ o (Z.of_nat m)) b = Ok (None, b) ∧ ∀ k, 0 ≤ k < 8 → Z.testbit w k = true) ∨
  ∃ o', 0 ≤ o' < 8 ∧ Z.testbit w o' = false ∧ (∀ k, 0 ≤ k < o' → Z.testbit w k = true) ∧
    alloc_offset ix (seqZ o (Z.of_nat m)) b =
      Ok (Some (ix * 8 + o'), set_v (<[Z.to_nat ix := Z.lor w (2 ^ o')]> (v b)) b).
Proof.
  intros Hwf Hix Hw Hom Ho Hbelow Hover. revert o Hom Ho Hbelow.
  induction m as [|m IH]; intros o Hom Ho Hbelow.
  { left. split; [done|]. intros k Hk. apply Hbelow. lia. }
  rewrite Nat2Z.inj_succ, seqZ_cons, Z.pred_succ by lia. cbn [alloc_offset]. mred.
  rewrite (get_word_ok _ _ _ Hw), mask_eq, land_pow2 by lia.
  destruct (Z.testbit w o) eqn:E; cbn [negb].
  - apply IH; [lia|lia|]. intros k Hk. destruct (decide (k = o)) as [->|]; [done|]. apply Hbelow. lia.
  - right. exists o. split_and!; [lia|lia|done|done|]. destruct Hwf as [H1 H2 H3 H4].
    assert (0 ≤ w < 256) by (by eapply Forall_lookup_1 in H3).
    apply lookup_lt_Some in Hw as Hlt. rewrite put_word_ok by (done || (apply lor_byte; lia)).
    assert (ix * 8 + o < nbits b).
    { destruct (decide (ix * 8 + o < nbits b)); [done|]. rewrite Hover in E by lia. done. }
    unfold BITS_PER_WORD. rewrite u32_id by lia. cbn [nbits set_v].
    by rewrite (proj2 (Z.ltb_lt _ _)) by done.
Qed.

Lemma allbits w : 0 ≤ w < 256 → (∀ k, 0 ≤ k < 8 → Z.testbit w k = true) ↔ w = WORD_ALLBITS.
Proof.
  intros Hw. split.
  - intros H. apply Z.bits_inj'. intros k Hk. change WORD_ALLBITS with (Z.ones 8).
    destruct (decide (k < 8)) as [Hlt|Hge]; [rewrite H, Z.ones_spec_low by lia; done|].
    rewrite byte_bits, Z.ones_spec_high by lia. done.
  - intros -> k Hk. change WORD_ALLBITS with (Z.ones 8). by rewrite Z.ones_spec_low by lia.
Qed.

Lemma alloc_word_run b k m :
  bm_wf b → k + Z.of_nat m = Z.of_nat (length (v b)) → 0 ≤ k → (∀ j, 0 ≤ j < 8 * k → bit b j = true) →
  (alloc_word (seqZ k (Z.of_nat m)) b = Ok ((ENOSPC, None), b) ∧
   ∀ j, 0 ≤ j < 8 * Z.of_nat (length (v b)) → bit b j = true) ∨
  ∃ i b', 0 ≤ i < nbits b ∧ bit b i = false ∧ (∀ j, 0 ≤ j < i → bit b j = true) ∧
    alloc_word (seqZ k (Z.of_nat m)) b = Ok ((0, Some i), b') ∧ bm_wf b' ∧ nbits b' = nbits b ∧
    ∀ j, 0 ≤ j → bit b' j = bool_decide (j = i) || bit b j.
Proof.
  intros Hwf. revert k. induction m as [|m IH]; intros k Hkm Hk Hall.
  { left. split; [done|]. intros j Hj. apply Hall. lia. }
  rewrite Nat2Z.inj_succ, seqZ_cons, Z.pred_succ by lia. cbn [alloc_word].
  destruct (lookup_lt_is_Some_2 (v b) (Z.to_nat k) ltac:(lia)) as [w Hw].
  assert (0 ≤ w < 256) as Hr by (by eapply Forall_lookup_1 in Hw; [|apply Hwf]).
  rewrite (bind_ok _ _ _ _ _ (get_word_ok _ _ _ Hw)).
  assert (∀ o, 0 ≤ o < 8 → bit b (k * 8 + o) = Z.testbit w o) as Hbit.
  { intros o Ho. unfold bit, bit_of. rewrite Z.div_add_l, Z.div_small, Z.add_0_r, Hw by lia.
    rewrite Z.add_comm, Z_mod_plus_full. cbn. by rewrite Z.mod_small. }
  destruct (Z.eqb_spec w WORD_ALLBITS) as [Ew|Ew]; cbn [negb].
  - apply IH; [lia|lia|]. intros j Hj. destruct (decide (j < 8 * k)); [apply Hall; lia|].
    replace j with (k * 8 + (j - 8 * k)) by lia. rewrite Hbit by lia. apply allbits; (done || lia).
  - destruct (alloc_offset_run b k w 0 8 Hwf Hk Hw) as [[_ H]|(o & Ho & Ef & Hlow & Hrun)]; try lia.
    { intros o Hno Ho. rewrite <-Hbit by done. apply (bw_over _ Hwf). lia. }
    { by apply allbits in H. }
    right. destruct (bm_wf_set b _ w o Hwf Hw Ho) as [Hwf' Hbits]. do 2 eexists.
    rewrite Z2Nat.id in Hbits by lia.
    split_and!; [| |rewrite Hbit by done; done| |by rewrite (bind_ok _ _ _ _ _ Hrun)|done|done|done].
    + lia.
    + destruct (decide (k * 8 + o < nbits b)); [done|]. rewrite <-Hbit, (bw_over _ Hwf) in Ef by lia. done.
    + intros j Hj. destruct (decide (j < 8 * k)); [apply Hall; lia|].
      replace j with (k * 8 + (j - 8 * k)) by lia. rewrite Hbit by lia. apply Hlow. lia.
Qed.

Lemma bitmap_alloc_run b :
  bm_wf b →
  (bitmap_alloc b = Ok ((ENOSPC, None), b) ∧ ∀ j, 0 ≤ j < nbits b → bit b j = true) ∨
  ∃ i b', 0 ≤ i < nbits b ∧ bit b i = false ∧ (∀ j, 0 ≤ j < i → bit b j = true) ∧
    bitmap_alloc b = Ok ((0, Some i), b') ∧ bm_wf b' ∧ nbits b' = nbits b ∧
    ∀ j, 0 ≤ j → bit b' j = bool_decide (j = i) || bit b j.
Proof.
  intros Hwf. unfold bitmap_alloc. mred. rewrite (divroundup_eq _ (bw_bits _ Hwf)), <-(bw_len _ Hwf).
  destruct (alloc_word_run b 0 (length (v b)) Hwf) as [[H1 H2]|H]; [lia|lia|lia| |by right].
  left. split; [done|]. intros j Hj. apply H2. pose proof (bw_len _ Hwf).
  pose proof (Z.div_mod (nbits b + 7) 8 ltac:(lia)). pose proof (Z.mod_pos_bound (nbits b + 7) 8 ltac:(lia)). lia.
Qed.

(** ** Creation *)

Lemma replicate_bits n i : bit_of (replicate n 0) i = false.
Proof.
  unfold bit_of. destruct (replicate n 0 !! _) as [w|] eqn:E; [|apply Z.bits_0].
  apply lookup_replicate in E as [-> _]. apply Z.bits_0.
Qed.

(** The loop that marks the leftover bits of word [ix] *)
Lemma over_loop ix b o m :
  (Z.to_nat ix < length (v b))%nat → 0 ≤ ix → 0 ≤ o → o + Z.of_nat m = 8 → Forall (λ w, 0 ≤ w < 256) (v b) →
  ∃ l, for_list (seqZ o (Z.of_nat m)) (λ j, w ← get_word ix; put_word ix (Z.lor w (Z.shiftl 1 j))) b =
      Ok (tt, set_v l b) ∧ length l = length (v b) ∧ Forall (λ w, 0 ≤ w < 256) l ∧
    ∀ i, 0 ≤ i → bit_of l i = bool_decide (ix * 8 + o ≤ i < ix * 8 + 8) || bit b i.
Proof.
  intros Hlt Hix. revert b Hlt o. induction m as [|m IH]; intros b Hlt o Ho Hom Hall.
  { exists (v b). split_and!; [by destruct b|done|done|]. intros i Hi.
    by rewrite bool_decide_false by lia. }
  rewrite Nat2Z.inj_succ, seqZ_cons, Z.pred_succ by lia. cbn [for_list].
  destruct (lookup_lt_is_Some_2 (v b) (Z.to_nat ix) Hlt) as [w Hw].
  pose proof (Forall_lookup_1 _ _ _ _ Hall Hw) as Hr. cbn beta in Hr.
  rewrite Z.shiftl_1_l. pose proof (lor_byte w o Hr ltac:(lia)) as Hr'.
  assert ((w ← get_word ix; put_word ix (Z.lor w (2 ^ o))) b =
    Ok (tt, set_v (<[Z.to_nat ix := Z.lor w (2 ^ o)]> (v b)) b)) as Hstep.
  { rewrite (bind_ok _ _ _ _ _ (get_word_ok _ _ _ Hw)). by apply put_word_ok. }
  rewrite (bind_ok _ _ _ _ _ Hstep).
  destruct (IH (set_v (<[Z.to_nat ix := Z.lor w (2 ^ o)]> (v b)) b)) with (o := Z.succ o)
    as (l & Hrun & Hlen & Hby & Hbit); [cbn; by rewrite length_insert|lia|lia|by apply Forall_insert|].
  exists l. rewrite Hrun. split_and!; [done|by rewrite Hlen; cbn; rewrite length_insert|done|].
  intros i Hi. rewrite Hbit by done. unfold bit. cbn [v set_v]. rewrite set_bit by (done || lia).
  rewrite Z2Nat.id, orb_assoc by done. f_equal.
  destruct (decide (i = ix * 8 + o)); [rewrite (bool_decide_true (i = _)), orb_true_r by done;
    symmetry; apply bool_decide_true; lia|].
  rewrite (bool_decide_false (i = _)), orb_false_r by done. apply bool_decide_ext. lia.
Qed.

Lemma bitmap_create_run n :
  0 ≤ n < 2 ^ 32 - 8 →
  ∃ b, bitmap_create true true n = Ok (Some b) ∧ bm_wf b ∧ nbits b = n ∧
    ∀ i, 0 ≤ i < n → bit b i = false.
Proof.
  intros Hn. unfold bitmap_create. rewrite divroundup_eq by done. cbn [negb].
  pose proof (Z.div_mod (n + 7) 8 ltac:(lia)). pose proof (Z.mod_pos_bound (n + 7) 8 ltac:(lia)).
  pose proof (Z.div_mod n 8 ltac:(lia)). pose proof (Z.mod_pos_bound n 8 ltac:(lia)).
  set (words := (n + 7) / 8) in *. assert (0 ≤ words) by lia.
  assert (Forall (λ w, 0 ≤ w < 256) (replicate (Z.to_nat words) 0)) as Hzero.
  { apply Forall_replicate. lia. }
  unfold BITS_PER_WORD. destruct (Z.ltb_spec (n / 8) words) as [Hover|Hexact].
  - set (b0 := mk_bitmap n (replicate (Z.to_nat words) 0)).
    assert (Z.to_nat (words - 1) < length (v b0))%nat as Hin by (cbn; rewrite length_replicate; lia).
    destruct (over_loop (words - 1) b0 (n - (words - 1) * 8) (Z.to_nat (8 - (n - (words - 1) * 8))))
      as (l & Hrun & Hlen & Hby & Hbit); [done|lia|lia|lia|done|].
    rewrite Z2Nat.id in Hrun by lia. rewrite (u32_id (words - 1)), (u32_id (n - (words - 1) * 8)) by lia.
    rewrite (proj2 (Z.eqb_eq (n / 8) (words - 1))) by lia.
    rewrite (proj2 (Z.ltb_lt 0 _)), (proj2 (Z.ltb_lt _ 8)) by lia. cbn [andb].
    unfold kassert. rewrite !(bind_ok (mret tt) _ _ tt b0) by done. rewrite Hrun.
    eexists. split; [done|]. cbn in Hlen. rewrite length_replicate in Hlen.
    assert (∀ i, 0 ≤ i → bit (set_v l b0) i = bool_decide (n ≤ i < words * 8)) as Hb.
    { intros i Hi. unfold bit. cbn [v set_v]. rewrite Hbit by done. unfold bit. cbn [v b0].
      rewrite replicate_bits, orb_false_r. apply bool_decide_ext. lia. }
    split_and!; [|done|intros i Hi; rewrite Hb by lia; apply bool_decide_false; lia].
    split; cbn [nbits v set_v b0]; [lia|rewrite Hlen; lia|done|].
    intros i Hi. rewrite Hlen in Hi. rewrite Hb by lia. apply bool_decide_true. lia.
  - eexists. split; [done|]. split_and!; [|done|intros i Hi; unfold bit; apply replicate_bits].
    split; cbn [nbits v]; [lia|rewrite length_replicate; lia|done|].
    rewrite length_replicate. lia.
Qed.

Lemma bitmap_create_fails k1 n : bitmap_create k1 false n = Ok None ∧ bitmap_create false k1 n = Ok None.
Proof. by destruct k1. Qed.
