(* ===== verification/Array.v ===== *)
(** * Resizeable arrays of pointers ([kern/lib/array.c], [kern/include/array.h])

    The block [a_v] points to is the list of its words; the elements are its
    first [a_num] words.  The kernel allocator is an argument: it returns the
    contents of a new block of the size in bytes asked for, or nothing. *)

From S2P Require Import Prelude Machine.

(** [sizeof(void * )] *)
Definition PTR : Z := 4.

Record array : Type := mk_array { a_v : list Z; a_num : Z; a_max : Z }.

(** [kmalloc]: what the new block holds *)
Definition alloc : Type := Z → option (list Z).

Definition array_init : array := mk_array [] 0 0.

(** [kmalloc] is whether the allocation of the structure succeeds. *)
Definition array_create (kmalloc : bool) : option array :=
  if kmalloc then Some array_init else None.

Definition array_cleanup : M array () :=
  a ← gets id;
  kassert (a_num a =? 0) "a->num == 0" ;;
  modify (λ a, mk_array [] (a_num a) (a_max a)).

Definition array_destroy : M array () := array_cleanup.

(** The loop that doubles [newmax] until [num] fits *)
Definition grow_body (num newmax : Z) : M array (Z + Z) :=
  if newmax <? num then mret (inl (if negb (newmax =? 0) then u32 (newmax * 2) else 4)) else mret (inr newmax).
Definition grow (num max : Z) : M array Z := while (grow_body num) max.

(** [memcpy] or [memmove] of [n] words, from [src] of the block [from] to
    [dst] of the block [to] *)
Definition copy_words (from : list Z) (src : Z) (to : list Z) (dst n : Z) : M array (list Z) :=
  if decide (src + n ≤ Z.of_nat (length from) ∧ dst + n ≤ Z.of_nat (length to)) then
    mret (take (Z.to_nat dst) to ++ take (Z.to_nat n) (drop (Z.to_nat src) from)
            ++ drop (Z.to_nat (dst + n)) to)
  else halt BadAccess.

Definition array_preallocate (kmalloc : alloc) (num : Z) : M array Z :=
  a ← gets id;
  if a_max a <? num then
    newmax ← grow num (a_max a);
    match kmalloc (u32 (newmax * PTR)) with
    | None => mret ENOMEM
    | Some newptr =>
        newptr ← copy_words (a_v a) 0 newptr 0 (u32 (a_num a * PTR) / PTR);
        modify (λ a, mk_array newptr (a_num a) newmax) ;;
        mret 0
    end
  else mret 0.

Definition array_setsize (kmalloc : alloc) (num : Z) : M array Z :=
  result ← array_preallocate kmalloc num;
  if negb (result =? 0) then mret result
  else
    modify (λ a, mk_array (a_v a) num (a_max a)) ;;
    mret 0.

Definition array_num : M array Z := gets a_num.

Definition array_get (index : Z) : M array Z :=
  a ← gets id;
  kassert (index <? a_num a) "index < a->num" ;;
  deref (a_v a !! Z.to_nat index).

(** [a->v[index] = val] *)
Definition put_elem (index val : Z) : M array () :=
  a ← gets id;
  if decide (Z.to_nat index < length (a_v a))%nat
  then modify (λ a, mk_array (<[Z.to_nat index := val]> (a_v a)) (a_num a) (a_max a))
  else halt BadAccess.

Definition array_set (index val : Z) : M array () :=
  a ← gets id;
  kassert (index <? a_num a) "index < a->num" ;;
  put_elem index val.

(** The result and the index stored through [index_ret] *)
Definition array_add (kmalloc : alloc) (val : Z) : M array (Z * option Z) :=
  index ← gets a_num;
  ret ← array_setsize kmalloc (u32 (index + 1));
  if negb (ret =? 0) then mret (ret, None)
  else
    put_elem index val ;;
    mret (0, Some index).

Definition array_remove (index : Z) : M array () :=
  a ← gets id;
  kassert (a_num a <=? a_max a) "a->num <= a->max" ;;
  kassert (index <? a_num a) "index < a->num" ;;
  let num_to_move := u32 (a_num a - (index + 1)) in
  l ← copy_words (a_v a) (index + 1) (a_v a) index (u32 (num_to_move * PTR) / PTR);
  modify (λ a, mk_array l (u32 (a_num a - 1)) (a_max a)).

(** ** Specification *)

(** The elements, as a list *)
Definition elems (a : array) : list Z := take (Z.to_nat (a_num a)) (a_v a).

Record arr_wf (a : array) : Prop := {
  aw_num : 0 ≤ a_num a ≤ a_max a;
  aw_max : a_max a < 2 ^ 30;
  aw_len : Z.of_nat (length (a_v a)) = a_max a
}.

(** The allocator returns blocks of the size asked for. *)
Definition alloc_ok (kmalloc : alloc) : Prop :=
  ∀ n b, 0 ≤ n → kmalloc n = Some b → Z.of_nat (length b) = n / PTR.

Lemma elems_length a : arr_wf a → Z.of_nat (length (elems a)) = a_num a.
Proof. intros [H1 H2 H3]. unfold elems. rewrite length_take. lia. Qed.

(** [newmax] doubles from 4, or from the old size, until it is enough. *)
Lemma grow_ok num max a :
  0 ≤ max < 2 ^ 29 → max < num → num ≤ 2 ^ 29 →
  ∃ newmax, grow num max a = Ok (newmax, a) ∧ num ≤ newmax < 2 ^ 30.
Proof.
  intros Hmax Hlt Hnum.
  assert (wp (grow num max) (λ newmax a', a' = a ∧ num ≤ newmax < 2 ^ 30) a) as H.
  { unfold grow. apply (wp_while _ (λ n a', a' = a ∧ 0 ≤ n < 2 ^ 30) (λ n _, 2 ^ 30 - n));
      [split; [done|lia]|intros ? ? [_ ?]; lia|lia|].
    intros n a' [-> Hn]. unfold grow_body. destruct (Z.ltb_spec n num); apply wp_ret; [|split; [done|lia]].
    destruct (Z.eqb_spec n 0); cbn [negb]; [split; [split; [done|lia]|lia]|].
    rewrite u32_id by lia. split; [split; [done|lia]|lia]. }
  apply wp_run in H as (n & a' & Hrun & -> & Hn). eauto.
Qed.

Lemma u32_words n : 0 ≤ n < 2 ^ 30 → u32 (n * PTR) / PTR = n.
Proof. intros Hn. unfold PTR. rewrite u32_id by lia. by apply Z.div_mul. Qed.

Lemma array_preallocate_run kmalloc num a :
  arr_wf a → alloc_ok kmalloc → 0 ≤ num ≤ 2 ^ 29 → a_max a < 2 ^ 29 →
  ∃ r a', array_preallocate kmalloc num a = Ok (r, a') ∧
    ((r = ENOMEM ∧ a' = a ∧ a_max a < num) ∨
     (r = 0 ∧ arr_wf a' ∧ elems a' = elems a ∧ a_num a' = a_num a ∧ num ≤ a_max a')).
Proof.
  intros Hwf Hal Hnum Hmax. unfold array_preallocate. mred. cbn [id].
  destruct (Z.ltb_spec (a_max a) num) as [Hlt|Hge].
  2:{ exists 0, a. split; [done|]. right. by split_and!. }
  destruct Hwf as [H1 H2 H3].
  destruct (grow_ok num (a_max a) a) as (newmax & -> & Hnew); [lia|lia|lia|].
  destruct (kmalloc _) as [b|] eqn:Hb; [|exists ENOMEM, a; auto].
  apply Hal in Hb; [|apply u32_range]. rewrite u32_words in Hb by lia. rewrite u32_words by lia.
  unfold copy_words. rewrite decide_True by lia. change (Z.to_nat 0) with 0%nat.
  rewrite Z.add_0_l, drop_0, take_0, app_nil_l. do 2 eexists. split; [done|]. right. split; [done|].
  assert (length (take (Z.to_nat (a_num a)) (a_v a)) = Z.to_nat (a_num a)) as Hl.
  { rewrite length_take. lia. }
  split_and!; [|unfold elems; cbn|done|cbn; lia].
  - split; cbn; [lia|lia|]. rewrite length_app, Hl, length_drop. lia.
  - rewrite take_app_le by lia. rewrite take_take. f_equal. lia.
Qed.

(** A grown array has the old elements and [num] slots. *)
Lemma array_setsize_run kmalloc num a :
  arr_wf a → alloc_ok kmalloc → 0 ≤ num ≤ 2 ^ 29 → a_max a < 2 ^ 29 →
  ∃ r a', array_setsize kmalloc num a = Ok (r, a') ∧
    ((r = ENOMEM ∧ a' = a) ∨
     (r = 0 ∧ arr_wf a' ∧ a_num a' = num ∧
      ∀ i, 0 ≤ i < Z.min num (a_num a) → elems a' !! Z.to_nat i = elems a !! Z.to_nat i)).
Proof.
  intros Hwf Hal Hnum Hmax. unfold array_setsize.
  destruct (array_preallocate_run kmalloc num a Hwf Hal Hnum Hmax) as (r & a' & Hrun & Hcase).
  rewrite (bind_ok _ _ _ _ _ Hrun). destruct Hcase as [(-> & -> & _)|(-> & [H1 H2 H3] & He & Hn & Hge)].
  - exists ENOMEM, a. split; [done|]. by left.
  - do 2 eexists. split; [done|]. right. split; [done|]. split_and!; [|done|].
    + split; cbn; lia.
    + intros i Hi. rewrite <-He. unfold elems. cbn. rewrite !lookup_take_lt by lia. done.
Qed.

Lemma array_add_run kmalloc val a :
  arr_wf a → alloc_ok kmalloc → a_max a < 2 ^ 29 →
  ∃ r a', array_add kmalloc val a = Ok (r, a') ∧
    ((r = (ENOMEM, None) ∧ a' = a) ∨
     (r = (0, Some (a_num a)) ∧ arr_wf a' ∧ elems a' = elems a ++ [val])).
Proof.
  intros Hwf Hal Hmax. pose proof Hwf as [H1 H2 H3]. unfold array_add. mred. rewrite u32_id by lia.
  destruct (array_setsize_run kmalloc (a_num a + 1) a Hwf Hal) as (r & a' & -> & Hcase); [lia|lia|].
  destruct Hcase as [(-> & ->)|(-> & [H4 H5 H6] & Hn & Hsame)].
  - exists (ENOMEM, None), a. split; [done|]. by left.
  - cbn [Z.eqb negb]. unfold put_elem. mred. cbn [id]. rewrite decide_True by lia.
    do 2 eexists. split; [done|]. right. split; [done|]. split.
    { split; cbn; [lia|lia|by rewrite length_insert]. }
    apply list_eq. intros i. unfold elems in *. cbn. rewrite Hn.
    destruct (decide (Z.of_nat i < a_num a)) as [Hi|Hi].
    + rewrite lookup_take_lt by lia. rewrite list_lookup_insert_ne by lia.
      rewrite lookup_app_l by (rewrite length_take; lia).
      pose proof (Hsame (Z.of_nat i) ltac:(lia)) as He. rewrite Nat2Z.id in He.
      rewrite <-He. rewrite lookup_take_lt by lia. done.
    + destruct (decide (Z.of_nat i = a_num a)) as [Hi'|Hi'].
      * rewrite lookup_take_lt by lia. replace (Z.to_nat (a_num a)) with i by lia.
        rewrite list_lookup_insert_eq by lia. rewrite lookup_app_r by (rewrite length_take; lia).
        rewrite length_take. replace (i - _)%nat with 0%nat by lia. done.
      * rewrite !lookup_ge_None_2; [done| |].
        -- rewrite length_app, length_take. cbn. lia.
        -- rewrite length_take. lia.
Qed.

Lemma array_get_run index a :
  arr_wf a → 0 ≤ index →
  match elems a !! Z.to_nat index with
  | Some x => array_get index a = Ok (x, a)
  | None => array_get index a = Stop (AssertFail "index < a->num")
  end.
Proof.
  intros [H1 H2 H3] Hi. unfold array_get, elems. mred. cbn [id].
  destruct (Z.ltb_spec index (a_num a)) as [Hlt|Hge].
  - rewrite lookup_take_lt by lia.
    destruct (lookup_lt_is_Some_2 (a_v a) (Z.to_nat index) ltac:(lia)) as [x ->]. done.
  - rewrite lookup_ge_None_2; [done|]. rewrite length_take. lia.
Qed.

Lemma array_set_run index val a :
  arr_wf a → 0 ≤ index < a_num a →
  ∃ a', array_set index val a = Ok (tt, a') ∧ arr_wf a' ∧ elems a' = <[Z.to_nat index := val]> (elems a).
Proof.
  intros [H1 H2 H3] Hi. unfold array_set, put_elem. mred. cbn [id].
  rewrite (proj2 (Z.ltb_lt _ _)) by lia. rewrite decide_True by lia. eexists. split; [done|]. split.
  - split; cbn; [lia|lia|by rewrite length_insert].
  - unfold elems. cbn. by rewrite take_insert_lt by lia.
Qed.

Lemma array_remove_run index a :
  arr_wf a → 0 ≤ index < a_num a →
  ∃ a', array_remove index a = Ok (tt, a') ∧ arr_wf a' ∧ a_num a' = a_num a - 1 ∧
    elems a' = delete (Z.to_nat index) (elems a) ∧ a_max a' = a_max a.
Proof.
  intros [H1 H2 H3] Hi. unfold array_remove. mred. cbn [id].
  rewrite (proj2 (Z.leb_le _ _)), (proj2 (Z.ltb_lt _ _)) by lia.
  rewrite (u32_id (a_num a - (index + 1))), u32_words by lia.
  unfold copy_words. rewrite decide_True by lia. mred. rewrite (u32_id (a_num a - 1)) by lia.
  eexists. split; [done|]. split_and!; [|done| |done].
  - split; cbn; [lia|lia|]. rewrite !length_app, !length_take, !length_drop. lia.
  - unfold elems. cbn. rewrite delete_take_drop.
    rewrite (app_assoc (take (Z.to_nat index) (a_v a))). rewrite take_app_le.
    2:{ rewrite length_app, !length_take, length_drop. lia. }
    rewrite take_app_ge by (rewrite length_take; lia). rewrite take_take, length_take.
    rewrite !take_take. f_equal; [f_equal; lia|]. rewrite skipn_firstn_comm. f_equal; [lia|f_equal; lia].
Qed.

(** ** How much is allocated *)

Lemma grow_max num max a newmax a' : grow num max a = Ok (newmax, a') → 0 ≤ max < 2 ^ 29 → num ≤ 2 ^ 29 → newmax ≤ Z.max max (Z.max 4 (2 * num)).
Proof.
  intros Hrun Hmax Hnum. assert (wp (grow num max) (λ n _, n ≤ Z.max max (Z.max 4 (2 * num))) a) as H.
  { unfold grow. apply (wp_while _ (λ n _, 0 ≤ n < 2 ^ 30 ∧ n ≤ Z.max max (Z.max 4 (2 * num))) (λ n _, 2 ^ 30 - n)); [lia|intros ? ? [? _]; lia|lia|].
    intros n a2 [Hn Hle]. unfold grow_body. destruct (Z.ltb_spec n num); apply wp_ret; [|lia].
    destruct (Z.eqb_spec n 0); cbn [negb]; [lia|]. rewrite u32_id by lia. lia. }
  apply wp_run in H as (n & a2 & Hrun2 & Hle). rewrite Hrun in Hrun2. by injection Hrun2 as -> ->.
Qed.

Lemma array_add_max kmalloc val a r a' : array_add kmalloc val a = Ok (r, a') → arr_wf a → a_max a < 2 ^ 29 →
  a_max a' ≤ Z.max (a_max a) (Z.max 4 (2 * (a_num a + 1))).
Proof.
  intros Hrun [H1 H2 H3] Hmax. unfold array_add in Hrun. revert Hrun. mred. rewrite u32_id by lia. unfold array_setsize, array_preallocate. mred. cbn [id].
  destruct (Z.ltb_spec (a_max a) (a_num a + 1)) as [Hlt|Hge].
  2:{ mred. cbn [Z.eqb negb]. mred. unfold put_elem. mred. destruct (decide _); [|done]. mred. intros [= _ <-]. cbn. lia. }
  destruct (grow_ok (a_num a + 1) (a_max a) a) as (newmax & Hg & _); [lia|lia|lia|]. rewrite Hg.
  pose proof (grow_max _ _ _ _ _ Hg ltac:(lia) ltac:(lia)) as Hnew. destruct (kmalloc _) as [b|]; mred; [|intros [= _ <-]; lia].
  unfold copy_words. destruct (decide _); mred; [|done]. cbn [Z.eqb negb]. mred. unfold put_elem. mred. destruct (decide _); [|done]. mred. intros [= _ <-]. cbn. lia.
Qed.

(** ** A size that is never reached

    Above [2 ^ 31] elements the doubling wraps around to 0 and starts again:
    the loop makes any number of turns. *)
Definition capacity (max : Z) : Prop := max = 0 ∨ ∃ k, 2 ≤ k ≤ 31 ∧ max = 2 ^ k.

Lemma capacity_range max : capacity max → 0 ≤ max ≤ 2 ^ 31.
Proof. intros [->|(k & Hk & ->)]; [lia|]. split; [by apply Z.pow_nonneg|]. apply Z.pow_le_mono_r; lia. Qed.

Lemma capacity_next max : capacity max → capacity (if negb (max =? 0) then u32 (max * 2) else 4).
Proof.
  intros [->|(k & Hk & ->)]; [right; exists 2; split; [lia|done]|]. rewrite (proj2 (Z.eqb_neq (2 ^ k) 0)) by (apply Z.pow_nonzero; lia). cbn [negb].
  replace (2 ^ k * 2) with (2 ^ (k + 1)) by (rewrite Z.pow_add_r; lia). destruct (decide (k = 31)) as [->|]; [by left|].
  right. exists (k + 1). split; [lia|]. apply u32_id. split; [by apply Z.pow_nonneg|]. apply Z.pow_lt_mono_r; lia.
Qed.

(** Up to [2 ^ 31] elements the loop ends. *)
Lemma grow_ends num max a : capacity max → num ≤ 2 ^ 31 →
  wp (grow num max) (λ newmax a', a' = a ∧ num ≤ newmax ∧ capacity newmax) a.
Proof.
  intros Hmax Hnum. pose proof (capacity_range max Hmax). unfold grow.
  apply (wp_while _ (λ n a', a' = a ∧ capacity n) (λ n _, 2 ^ 31 + 1 - n)); [done|intros n ? [_ Hc%capacity_range]; lia|lia|].
  intros n a' [-> Hn]. pose proof (capacity_range n Hn). unfold grow_body. destruct (Z.ltb_spec n num); apply wp_ret; [|split; [done|by split]].
  split; [split; [done|by apply capacity_next]|]. destruct (Z.eqb_spec n 0) as [->|]; cbn [negb]; [lia|]. rewrite u32_id by lia. lia.
Qed.

(** Above it wraps and makes any number of turns. *)
Lemma grow_diverges n num max a : capacity max → 2 ^ 31 < num →
  ∃ newmax, turns n (grow_body num) max a = Ok (inl newmax, a) ∧ capacity newmax.
Proof.
  intros Hmax Hnum. revert max Hmax. induction n as [|n IH]; intros max Hmax; cbn [turns].
  - pose proof (capacity_range max Hmax). unfold grow_body. rewrite (proj2 (Z.ltb_lt _ _)) by lia. eexists. split; [done|]. by apply capacity_next.
  - destruct (IH max Hmax) as (m1 & H1 & Hm1). rewrite (bind_ok _ _ _ _ _ H1). by apply IH.
Qed.
