(* ===== verification/Endian.v ===== *)
(** * Byte order and time ([kern/lib/bswap.c], [kern/lib/time.c])

    The machine is big-endian.  [bytes_le n z] are the [n] bytes of [z], the
    least significant first: to swap is to read them in the other order. *)

From S2P Require Import Prelude Machine.

Definition bswap16 (val : Z) : Z :=
  Z.lor (Z.shiftl (Z.land val 0x00ff) 8) (Z.shiftr (Z.land val 0xff00) 8).

Definition bswap32 (val : Z) : Z :=
  Z.lor (Z.lor (Z.lor (Z.shiftl (Z.land val 0x000000ff) 24) (Z.shiftl (Z.land val 0x0000ff00) 8))
    (Z.shiftr (Z.land val 0x00ff0000) 8)) (Z.shiftr (Z.land val 0xff000000) 24).

(** The fifth and sixth terms shift left, as in the source. *)
Definition bswap64 (val : Z) : Z :=
  let t k := u64 k in
  Z.lor (Z.lor (Z.lor (Z.lor (Z.lor (Z.lor (Z.lor
    (t (Z.shiftl (Z.land val 0x00000000000000ff) 56))
    (t (Z.shiftl (Z.land val 0x000000000000ff00) 40)))
    (t (Z.shiftl (Z.land val 0x0000000000ff0000) 24)))
    (t (Z.shiftl (Z.land val 0x00000000ff000000) 8)))
    (t (Z.shiftl (Z.land val 0x000000ff00000000) 8)))
    (t (Z.shiftl (Z.land val 0x0000ff0000000000) 24)))
    (t (Z.shiftr (Z.land val 0x00ff000000000000) 40)))
    (t (Z.shiftr (Z.land val 0xff00000000000000) 56)).

(** [_BYTE_ORDER == _BIG_ENDIAN] *)
Definition ntohs (val : Z) : Z := val.
Definition htons (val : Z) : Z := val.
Definition ntohl (val : Z) : Z := val.
Definition htonl (val : Z) : Z := val.
Definition ntohll (val : Z) : Z := val.
Definition htonll (val : Z) : Z := val.

Definition join32to64 (x1 x2 : Z) : Z := Z.lor (u64 (Z.shiftl x1 32)) x2.
Definition split64to32 (x : Z) : Z * Z := (u32 (Z.shiftr x 32), u32 (Z.land x 0xffffffff)).

(** ** Specification *)

Fixpoint bytes_le (n : nat) (z : Z) : list Z :=
  match n with
  | O => []
  | S n => z `mod` 256 :: bytes_le n (z / 256)
  end.
Fixpoint of_bytes_le (l : list Z) : Z :=
  match l with
  | [] => 0
  | b :: l => b + 256 * of_bytes_le l
  end.

(** Swapping, for an integer of [n] bytes *)
Definition swap_bytes (n : nat) (z : Z) : Z := of_bytes_le (reverse (bytes_le n z)).

(** Byte [k] of an integer, in place: [val & (0xff << 8k)] *)
Lemma land_byte_at val k : 0 ≤ k → Z.land val (Z.shiftl 255 (8 * k)) = 2 ^ (8 * k) * ((val / 2 ^ (8 * k)) `mod` 256).
Proof.
  intros Hk. assert ((val / 2 ^ (8 * k)) `mod` 256 = Z.land (Z.shiftr val (8 * k)) (Z.ones 8)) as ->.
  { rewrite Z.land_ones, Z.shiftr_div_pow2 by lia. done. }
  rewrite (Z.mul_comm (2 ^ (8 * k))), <-Z.shiftl_mul_pow2 by lia. change 255 with (Z.ones 8).
  apply Z.bits_inj'. intros i Hi. rewrite Z.land_spec, !Z.shiftl_spec, Z.land_spec by lia.
  destruct (decide (i < 8 * k)).
  - rewrite (Z.testbit_neg_r (Z.ones 8)), (Z.testbit_neg_r (Z.shiftr _ _)) by lia.
    by rewrite andb_false_r.
  - rewrite Z.shiftr_spec by lia. by replace (i - 8 * k + 8 * k) with i by lia.
Qed.

(** The byte [k] of [val] *)
Definition byte_at (val k : Z) : Z := (val / 2 ^ (8 * k)) `mod` 256.

Lemma byte_range val k : 0 ≤ byte_at val k < 256.
Proof. by apply Z.mod_pos_bound. Qed.

(** A byte moved up from place [k] to place [j], and one moved down *)
Lemma move_up val k j :
  0 ≤ k ≤ j → Z.shiftl (Z.land val (Z.shiftl 255 (8 * k))) (8 * (j - k)) = byte_at val k * 2 ^ (8 * j).
Proof.
  intros Hk. rewrite land_byte_at, Z.shiftl_mul_pow2 by lia. fold (byte_at val k).
  replace (8 * j) with (8 * k + 8 * (j - k)) by lia. rewrite Z.pow_add_r by lia. lia.
Qed.

Lemma move_down val k j :
  0 ≤ j ≤ k → Z.shiftr (Z.land val (Z.shiftl 255 (8 * k))) (8 * (k - j)) = byte_at val k * 2 ^ (8 * j).
Proof.
  intros Hk. rewrite land_byte_at, Z.shiftr_div_pow2 by lia. fold (byte_at val k).
  replace (8 * k) with (8 * j + 8 * (k - j)) by lia. rewrite Z.pow_add_r by lia.
  replace (8 * j + 8 * (k - j) - 8 * j) with (8 * (k - j)) by lia.
  rewrite <-Z.mul_assoc, (Z.mul_comm (2 ^ (8 * (k - j)))), Z.mul_assoc, Z.div_mul by lia. lia.
Qed.

Lemma swap_bytes_2 val : swap_bytes 2 val = byte_at val 0 * 2 ^ 8 + byte_at val 1.
Proof.
  unfold swap_bytes, byte_at. cbn [bytes_le reverse rev_append app of_bytes_le].
  change (2 ^ (8 * 0)) with 1. change (2 ^ (8 * 1)) with 256. rewrite Z.div_1_r. cbn. lia.
Qed.

Lemma swap_bytes_4 val :
  swap_bytes 4 val =
    byte_at val 0 * 2 ^ 24 + (byte_at val 1 * 2 ^ 16 + (byte_at val 2 * 2 ^ 8 + byte_at val 3)).
Proof.
  unfold swap_bytes, byte_at. cbn [bytes_le]. rewrite !Z.div_div by lia.
  change (2 ^ (8 * 0)) with 1. change (2 ^ (8 * 1)) with 256. change (2 ^ (8 * 2)) with (256 * 256).
  change (2 ^ (8 * 3)) with (256 * 256 * 256). rewrite Z.div_1_r.
  cbn -[Z.mul Z.div Z.modulo Z.pow Z.add].
  generalize (val `mod` 256) ((val / 256) `mod` 256) ((val / (256 * 256)) `mod` 256)
    ((val / (256 * 256 * 256)) `mod` 256). intros. lia.
Qed.

Lemma bswap16_ok val : bswap16 val = swap_bytes 2 val.
Proof.
  unfold bswap16. rewrite (move_up val 0 1 ltac:(lia) : Z.shiftl (Z.land val 0x00ff) 8 = _).
  rewrite (move_down val 1 0 ltac:(lia) : Z.shiftr (Z.land val 0xff00) 8 = _).
  change (2 ^ (8 * 0)) with 1. change (8 * 1) with 8.
  pose proof (byte_range val 1). rewrite lor_add by lia. rewrite swap_bytes_2. lia.
Qed.

Lemma bswap32_ok val : bswap32 val = swap_bytes 4 val.
Proof.
  unfold bswap32. rewrite (move_up val 0 3 ltac:(lia) : Z.shiftl (Z.land val 0x000000ff) 24 = _).
  rewrite (move_up val 1 2 ltac:(lia) : Z.shiftl (Z.land val 0x0000ff00) 8 = _).
  rewrite (move_down val 2 1 ltac:(lia) : Z.shiftr (Z.land val 0x00ff0000) 8 = _).
  rewrite (move_down val 3 0 ltac:(lia) : Z.shiftr (Z.land val 0xff000000) 24 = _).
  change (2 ^ (8 * 0)) with 1. change (8 * 1) with 8. change (8 * 2) with 16.
  change (8 * 3) with 24.
  pose proof (byte_range val 1). pose proof (byte_range val 2). pose proof (byte_range val 3).
  rewrite <-!Z.lor_assoc. rewrite (lor_add (byte_at val 2)) by lia.
  rewrite (lor_add (byte_at val 1)) by lia. rewrite (lor_add (byte_at val 0)) by lia.
  rewrite swap_bytes_4. lia.
Qed.

(** Swapping twice gives the integer back. *)
Lemma of_bytes_le_range l n :
  length l = n → Forall (λ b, 0 ≤ b < 256) l → 0 ≤ of_bytes_le l < 256 ^ Z.of_nat n.
Proof.
  intros <- H. induction H as [|b l Hb Hl IH]; cbn [of_bytes_le length]; [done|].
  rewrite Nat2Z.inj_succ, Z.pow_succ_r by lia. lia.
Qed.

Lemma bytes_of_bytes l : Forall (λ b, 0 ≤ b < 256) l → bytes_le (length l) (of_bytes_le l) = l.
Proof.
  induction 1 as [|b l Hb Hl IH]; [done|]. cbn [length bytes_le of_bytes_le].
  rewrite (Z.mul_comm 256), Z_mod_plus_full, Z.mod_small by done. f_equal.
  rewrite Z.div_add, Z.div_small by lia. done.
Qed.

Lemma of_bytes_bytes n z : 0 ≤ z < 256 ^ Z.of_nat n → of_bytes_le (bytes_le n z) = z.
Proof.
  revert z. induction n as [|n IH]; intros z Hz; cbn [bytes_le of_bytes_le].
  { change (256 ^ Z.of_nat 0) with 1 in Hz. lia. }
  rewrite Nat2Z.inj_succ, Z.pow_succ_r in Hz by lia.
  rewrite IH; [pose proof (Z.div_mod z 256); lia|].
  split; [apply Z.div_pos; lia|apply Z.div_lt_upper_bound; lia].
Qed.

Lemma bytes_le_length n z : length (bytes_le n z) = n.
Proof. revert z. induction n as [|n IH]; intros z; cbn; [done|by rewrite IH]. Qed.

Lemma bytes_le_range n z : Forall (λ b, 0 ≤ b < 256) (bytes_le n z).
Proof. revert z. induction n as [|n IH]; intros z; cbn [bytes_le]; constructor; [by apply Z.mod_pos_bound|apply IH]. Qed.

Lemma swap_swap n z : 0 ≤ z < 256 ^ Z.of_nat n → swap_bytes n (swap_bytes n z) = z.
Proof.
  intros Hz. unfold swap_bytes. set (l := bytes_le n z).
  assert (length (reverse l) = n) as Hl by (unfold l; by rewrite length_reverse, bytes_le_length).
  rewrite <-Hl at 1. rewrite bytes_of_bytes by (apply Forall_reverse, bytes_le_range).
  rewrite reverse_involutive. by apply of_bytes_bytes.
Qed.

(** ** Two halves *)

Lemma split_join x1 x2 :
  0 ≤ x1 < 2 ^ 32 → 0 ≤ x2 < 2 ^ 32 → split64to32 (join32to64 x1 x2) = (x1, x2).
Proof.
  intros H1 H2. unfold split64to32, join32to64. rewrite Z.shiftl_mul_pow2 by lia.
  unfold u64. rewrite Z.mod_small by lia. rewrite lor_add by lia. rewrite Z.shiftr_div_pow2 by lia.
  change 0xffffffff with (Z.ones 32). rewrite Z.land_ones by lia.
  rewrite Z.div_add_l, Z.div_small, Z.add_0_r by lia. rewrite (u32_id x1) by done.
  f_equal. rewrite Z.add_comm, Z_mod_plus_full, Z.mod_small by done. by apply u32_id.
Qed.

Lemma join_split x : 0 ≤ x < 2 ^ 64 → join32to64 (split64to32 x).1 (split64to32 x).2 = x.
Proof.
  intros Hx. unfold split64to32, join32to64. cbn [fst snd]. rewrite Z.shiftr_div_pow2 by lia.
  change 0xffffffff with (Z.ones 32). rewrite Z.land_ones by lia.
  assert (0 ≤ x / 2 ^ 32 < 2 ^ 32) by (split; [apply Z.div_pos; lia|apply Z.div_lt_upper_bound; lia]).
  pose proof (Z.mod_pos_bound x (2 ^ 32) ltac:(lia)). rewrite !u32_id by done.
  rewrite Z.shiftl_mul_pow2 by lia. unfold u64. rewrite Z.mod_small by lia.
  rewrite lor_add by done. pose proof (Z.div_mod x (2 ^ 32)). lia.
Qed.

(** ** Time *)

Definition NSEC : Z := 1000000000.

(** [struct timespec]: seconds are 64-bit, nanoseconds 32-bit *)
Record timespec : Type := mk_timespec { tv_sec : Z; tv_nsec : Z }.

Definition timespec_add (ts1 ts2 : timespec) : timespec :=
  let nsec := s32 (tv_nsec ts1 + tv_nsec ts2) in
  let sec := s64 (tv_sec ts1 + tv_sec ts2) in
  if NSEC <=? nsec then mk_timespec (s64 (sec + 1)) (s32 (nsec - NSEC)) else mk_timespec sec nsec.

Definition timespec_sub (ts1 ts2 : timespec) : timespec :=
  let '(sec, nsec) :=
    if tv_nsec ts1 <? tv_nsec ts2
    then (s64 (tv_sec ts1 - 1), s32 (tv_nsec ts1 + NSEC)) else (tv_sec ts1, tv_nsec ts1) in
  mk_timespec (s64 (sec - tv_sec ts2)) (s32 (nsec - tv_nsec ts2)).

Definition ts_value (ts : timespec) : Z := tv_sec ts * NSEC + tv_nsec ts.
Definition ts_wf (ts : timespec) : Prop := 0 ≤ tv_nsec ts < NSEC ∧ - 2 ^ 62 < tv_sec ts < 2 ^ 62.

Lemma timespec_add_ok ts1 ts2 :
  ts_wf ts1 → ts_wf ts2 →
  0 ≤ tv_nsec (timespec_add ts1 ts2) < NSEC ∧
  ts_value (timespec_add ts1 ts2) = ts_value ts1 + ts_value ts2.
Proof.
  intros [H1 H2] [H3 H4]. unfold timespec_add, ts_value, NSEC in *.
  cbn zeta. rewrite (s32_id (tv_nsec ts1 + tv_nsec ts2)), (s64_id (tv_sec ts1 + tv_sec ts2)) by lia.
  destruct (Z.leb_spec 1000000000 (tv_nsec ts1 + tv_nsec ts2)); cbn [tv_nsec tv_sec];
    rewrite ?s32_id, ?s64_id by lia; lia.
Qed.

Lemma timespec_sub_ok ts1 ts2 :
  ts_wf ts1 → ts_wf ts2 →
  0 ≤ tv_nsec (timespec_sub ts1 ts2) < NSEC ∧
  ts_value (timespec_sub ts1 ts2) = ts_value ts1 - ts_value ts2.
Proof.
  intros [H1 H2] [H3 H4]. unfold timespec_sub, ts_value, NSEC in *.
  destruct (Z.ltb_spec (tv_nsec ts1) (tv_nsec ts2)); cbn [tv_nsec tv_sec];
    rewrite ?(s32_id (tv_nsec ts1 + 1000000000)), ?(s64_id (tv_sec ts1 - 1)) by lia;
    rewrite ?s32_id, ?s64_id by lia; lia.
Qed.
