(* ===== verification/LongLong.v ===== *)
(** * 64-bit arithmetic on a 32-bit machine ([common/gcc-millicode])

    The functions gcc calls for [long long] operations.  They take a value
    apart into two 32-bit words through the union [uu]; the machine is
    big-endian, which the fields [ui_H] and [ui_L] hide.  Each is proved equal
    to the operation on integers, reduced to 64 bits. *)

From S2P Require Import Prelude.

Definition INT_BITS : Z := 32.
Definition HALF_BITS : Z := 16.

(** [union uu], seen as its two words *)
Record uu : Type := mk_uu { ui_H : Z; ui_L : Z }.

(** Storing a (signed or unsigned) [long long], and reading one *)
Definition uu_of (a : Z) : uu := mk_uu (u32 (Z.shiftr a 32)) (u32 a).
Definition uu_ull (x : uu) : Z := ui_H x * 2 ^ 32 + ui_L x.
Definition uu_ll (x : uu) : Z := s64 (uu_ull x).

(** [(c)] as an [int] *)
Definition b2z (c : bool) : Z := if c then 1 else 0.

Definition __adddi3 (a b : Z) : Z :=
  let aa := uu_of a in
  let bb := uu_of b in
  let l := u32 (ui_L aa + ui_L bb) in
  let h := u32 (ui_H aa + ui_H bb + b2z (l <? ui_L bb)) in
  uu_ll (mk_uu h l).

Definition __subdi3 (a b : Z) : Z :=
  let aa := uu_of a in
  let bb := uu_of b in
  let l := u32 (ui_L aa - ui_L bb) in
  let h := u32 (ui_H aa - ui_H bb - b2z (ui_L aa <? l)) in
  uu_ll (mk_uu h l).

Definition __negdi2 (a : Z) : Z :=
  let aa := uu_of a in
  let l := u32 (- ui_L aa) in
  let h := u32 (- ui_H aa - b2z (0 <? l)) in
  uu_ll (mk_uu h l).

Definition __anddi3 (a b : Z) : Z :=
  let aa := uu_of a in
  let bb := uu_of b in
  uu_ll (mk_uu (Z.land (ui_H aa) (ui_H bb)) (Z.land (ui_L aa) (ui_L bb))).

Definition __iordi3 (a b : Z) : Z :=
  let aa := uu_of a in
  let bb := uu_of b in
  uu_ll (mk_uu (Z.lor (ui_H aa) (ui_H bb)) (Z.lor (ui_L aa) (ui_L bb))).

Definition __xordi3 (a b : Z) : Z :=
  let aa := uu_of a in
  let bb := uu_of b in
  uu_ll (mk_uu (Z.lxor (ui_H aa) (ui_H bb)) (Z.lxor (ui_L aa) (ui_L bb))).

Definition __one_cmpldi2 (a : Z) : Z :=
  let aa := uu_of a in
  uu_ll (mk_uu (u32 (Z.lnot (ui_H aa))) (u32 (Z.lnot (ui_L aa)))).

Definition __ashldi3 (a shift : Z) : Z :=
  if shift =? 0 then a
  else
    let aa := uu_of a in
    if INT_BITS <=? shift then
      uu_ll (mk_uu (u32 (Z.shiftl (ui_L aa) (shift - INT_BITS))) 0)
    else
      uu_ll (mk_uu
        (Z.lor (u32 (Z.shiftl (ui_H aa) shift)) (Z.shiftr (ui_L aa) (INT_BITS - shift)))
        (u32 (Z.shiftl (ui_L aa) shift))).

Definition __lshldi3 (a shift : Z) : Z :=
  if shift =? 0 then a
  else
    let aa := uu_of a in
    if INT_BITS <=? shift then
      uu_ll (mk_uu (u32 (Z.shiftl (ui_L aa) (shift - INT_BITS))) 0)
    else
      uu_ll (mk_uu
        (Z.lor (u32 (Z.shiftl (ui_H aa) shift)) (Z.shiftr (ui_L aa) (INT_BITS - shift)))
        (u32 (Z.shiftl (ui_L aa) shift))).

Definition __lshrdi3 (a shift : Z) : Z :=
  if shift =? 0 then a
  else
    let aa := uu_of a in
    if INT_BITS <=? shift then
      uu_ll (mk_uu 0 (Z.shiftr (ui_H aa) (shift - INT_BITS)))
    else
      uu_ll (mk_uu (Z.shiftr (ui_H aa) shift)
        (Z.lor (Z.shiftr (ui_L aa) shift) (u32 (Z.shiftl (ui_H aa) (INT_BITS - shift))))).

(** The machine's right shift of a signed word extends the sign. *)
Definition __ashrdi3 (a shift : Z) : Z :=
  if shift =? 0 then a
  else
    let aa := uu_of a in
    if INT_BITS <=? shift then
      let s := Z.shiftr (Z.shiftr (s32 (ui_H aa)) (INT_BITS - 1)) 1 in
      uu_ll (mk_uu (u32 s) (u32 (Z.shiftr (s32 (ui_H aa)) (shift - INT_BITS))))
    else
      uu_ll (mk_uu (u32 (Z.shiftr (s32 (ui_H aa)) shift))
        (Z.lor (Z.shiftr (ui_L aa) shift) (u32 (Z.shiftl (ui_H aa) (INT_BITS - shift))))).

Definition __cmpdi2 (a b : Z) : Z :=
  let aa := uu_of a in
  let bb := uu_of b in
  if s32 (ui_H aa) <? s32 (ui_H bb) then 0
  else if s32 (ui_H bb) <? s32 (ui_H aa) then 2
  else if ui_L aa <? ui_L bb then 0
  else if ui_L bb <? ui_L aa then 2
  else 1.

Definition __ucmpdi2 (a b : Z) : Z :=
  let aa := uu_of a in
  let bb := uu_of b in
  if ui_H aa <? ui_H bb then 0
  else if ui_H bb <? ui_H aa then 2
  else if ui_L aa <? ui_L bb then 0
  else if ui_L bb <? ui_L aa then 2
  else 1.

(** ** Multiplication ([muldi3.c]) *)

Definition HHALF (x : Z) : Z := Z.shiftr x HALF_BITS.
Definition LHALF (x : Z) : Z := Z.land x (Z.shiftl 1 HALF_BITS - 1).
Definition LHUP (x : Z) : Z := u32 (Z.shiftl x HALF_BITS).

Definition __lmulq (u v : Z) : Z :=
  let u1 := HHALF u in
  let u0 := LHALF u in
  let v1 := HHALF v in
  let v0 := LHALF v in
  let low := u32 (u0 * v0) in
  if (u1 =? 0) && (v1 =? 0) then low
  else
    let '(udiff, neg) := if u0 <=? u1 then (u32 (u1 - u0), false) else (u32 (u0 - u1), true) in
    let '(vdiff, neg) := if v1 <=? v0 then (u32 (v0 - v1), neg) else (u32 (v1 - v0), negb neg) in
    let mid := u32 (udiff * vdiff) in
    let high := u32 (u1 * v1) in
    let prodh := u32 (high + HHALF high) in
    let prodl := LHUP high in
    let '(prodh, prodl) :=
      if (neg : bool) then
        let was := prodl in
        let prodl := u32 (prodl - LHUP mid) in
        (u32 (prodh - (HHALF mid + b2z (was <? prodl))), prodl)
      else
        let was := prodl in
        let prodl := u32 (prodl + LHUP mid) in
        (u32 (prodh + (HHALF mid + b2z (prodl <? was))), prodl) in
    let was := prodl in
    let prodl := u32 (prodl + LHUP low) in
    let prodh := u32 (prodh + (HHALF low + b2z (prodl <? was))) in
    let prodl := u32 (prodl + low) in
    let prodh := if prodl <? low then u32 (prodh + 1) else prodh in
    uu_ll (mk_uu prodh prodl).

Definition __muldi3 (a b : Z) : Z :=
  let '(u, negall) := if 0 <=? a then (uu_of a, false) else (uu_of (- a), true) in
  let '(v, negall) := if 0 <=? b then (uu_of b, negall) else (uu_of (- b), negb negall) in
  let u1 := ui_H u in
  let u0 := ui_L u in
  let v1 := ui_H v in
  let v0 := ui_L v in
  let prod :=
    if (u1 =? 0) && (v1 =? 0) then uu_of (__lmulq u0 v0)
    else
      let low := uu_of (__lmulq u0 v0) in
      let '(negmid, udiff) := if u0 <=? u1 then (false, u32 (u1 - u0)) else (true, u32 (u0 - u1)) in
      let '(vdiff, negmid) := if v1 <=? v0 then (u32 (v0 - v1), negmid) else (u32 (v1 - v0), negb negmid) in
      let mid := u32 (udiff * vdiff) in
      let high := u32 (u1 * v1) in
      mk_uu (u32 (high + (if (negmid : bool) then u32 (- mid) else mid) + ui_L low + ui_H low)) (ui_L low) in
  if (negall : bool) then s64 (- uu_ll prod) else uu_ll prod.

(** ** The two words *)

Lemma uu_of_parts a :
  ∃ h l, uu_of a = mk_uu h l ∧ 0 ≤ h < 2 ^ 32 ∧ 0 ≤ l < 2 ^ 32 ∧ h * 2 ^ 32 + l = u64 a.
Proof.
  exists (u32 (Z.shiftr a 32)), (u32 a). split_and!; try done; try apply u32_range.
  rewrite Z.shiftr_div_pow2 by lia. unfold u32, u64. change (2 ^ 64) with (2 ^ 32 * 2 ^ 32).
  rewrite Z.rem_mul_r by lia. lia.
Qed.

(** Equal modulo 2^64 *)
Lemma u64_eq x y k : x = y + k * 2 ^ 64 → u64 x = u64 y.
Proof. intros ->. unfold u64. by rewrite Z_mod_plus_full. Qed.

Lemma u64_add a b : u64 (u64 a + u64 b) = u64 (a + b).
Proof. unfold u64. by rewrite <-Zplus_mod. Qed.
Lemma u64_sub a b : u64 (u64 a - u64 b) = u64 (a - b).
Proof. unfold u64. by rewrite <-Zminus_mod. Qed.
Lemma u64_mul a b : u64 (u64 a * u64 b) = u64 (a * b).
Proof. unfold u64. by rewrite <-Zmult_mod. Qed.
Lemma u64_opp a : u64 (- u64 a) = u64 (- a).
Proof. rewrite <-!Z.sub_0_l. unfold u64. by rewrite Zminus_mod_idemp_r. Qed.

(** Adding two-word numbers with the carry the code computes *)
Lemma add_words h l h' l' :
  0 ≤ l < 2 ^ 32 → 0 ≤ l' < 2 ^ 32 →
  let l2 := u32 (l + l') in
  u64 (u32 (h + (h' + b2z (l2 <? l))) * 2 ^ 32 + l2) = u64 (h * 2 ^ 32 + l + (h' * 2 ^ 32 + l')).
Proof.
  intros Hl Hl' l2. set (c := b2z (l2 <? l)).
  assert (l2 + c * 2 ^ 32 = l + l') as Hc.
  { unfold c, l2. destruct (decide (l + l' < 2 ^ 32)).
    - rewrite u32_id by lia. rewrite (proj2 (Z.ltb_ge _ _)) by lia. cbn. lia.
    - assert (u32 (l + l') = l + l' - 2 ^ 32) as -> by (unfold u32; symmetry; apply (Z.mod_unique _ _ 1); lia).
      rewrite (proj2 (Z.ltb_lt _ _)) by lia. cbn. lia. }
  pose proof (Z.div_mod (h + (h' + c)) (2 ^ 32) ltac:(lia)) as Hd. unfold u32 at 1.
  apply (u64_eq _ _ (- ((h + (h' + c)) / 2 ^ 32))). change (2 ^ 64) with (2 ^ 32 * 2 ^ 32). nia.
Qed.

Lemma add_words_r h l h' l' :
  0 ≤ l < 2 ^ 32 → 0 ≤ l' < 2 ^ 32 →
  let l2 := u32 (l + l') in
  u64 (u32 (h + h' + b2z (l2 <? l')) * 2 ^ 32 + l2) = u64 (h * 2 ^ 32 + l + (h' * 2 ^ 32 + l')).
Proof.
  intros Hl Hl' l2. pose proof (add_words h' l' h l Hl' Hl) as H. cbn zeta in H.
  unfold l2. rewrite (Z.add_comm l l'). rewrite (Z.add_comm (h * _ + l)), <-H. do 4 f_equal. lia.
Qed.

Lemma sub_words h l h' l' :
  0 ≤ l < 2 ^ 32 → 0 ≤ l' < 2 ^ 32 →
  let l2 := u32 (l - l') in
  u64 (u32 (h - (h' + b2z (l <? l2))) * 2 ^ 32 + l2) = u64 (h * 2 ^ 32 + l - (h' * 2 ^ 32 + l')).
Proof.
  intros Hl Hl' l2. set (c := b2z (l <? l2)).
  assert (l2 - c * 2 ^ 32 = l - l') as Hc.
  { unfold c, l2. destruct (decide (l' ≤ l)).
    - rewrite u32_id by lia. rewrite (proj2 (Z.ltb_ge _ _)) by lia. cbn. lia.
    - assert (u32 (l - l') = l - l' + 2 ^ 32) as -> by (unfold u32; symmetry; apply (Z.mod_unique _ _ (-1)); lia).
      rewrite (proj2 (Z.ltb_lt _ _)) by lia. cbn. lia. }
  pose proof (Z.div_mod (h - (h' + c)) (2 ^ 32) ltac:(lia)) as Hd. unfold u32 at 1.
  apply (u64_eq _ _ (- ((h - (h' + c)) / 2 ^ 32))). change (2 ^ 64) with (2 ^ 32 * 2 ^ 32). nia.
Qed.

(** ** Sums, differences, negation *)

Lemma __adddi3_ok a b : __adddi3 a b = s64 (a + b).
Proof.
  unfold __adddi3. destruct (uu_of_parts a) as (h & l & -> & Hh & Hl & Ha).
  destruct (uu_of_parts b) as (h' & l' & -> & Hh' & Hl' & Hb). cbn [ui_H ui_L].
  apply s64_congr. unfold uu_ull. cbn [ui_H ui_L].
  rewrite (add_words_r h l h' l' Hl Hl'), Ha, Hb. apply u64_add.
Qed.

Lemma __subdi3_ok a b : __subdi3 a b = s64 (a - b).
Proof.
  unfold __subdi3. destruct (uu_of_parts a) as (h & l & -> & Hh & Hl & Ha).
  destruct (uu_of_parts b) as (h' & l' & -> & Hh' & Hl' & Hb). cbn [ui_H ui_L].
  apply s64_congr. unfold uu_ull. cbn [ui_H ui_L].
  replace (h - h' - b2z (l <? u32 (l - l'))) with (h - (h' + b2z (l <? u32 (l - l')))) by lia.
  rewrite (sub_words h l h' l' Hl Hl'), Ha, Hb. apply u64_sub.
Qed.

Lemma __negdi2_ok a : __negdi2 a = s64 (- a).
Proof.
  unfold __negdi2. destruct (uu_of_parts a) as (h & l & -> & Hh & Hl & Ha). cbn [ui_H ui_L].
  apply s64_congr. unfold uu_ull. cbn [ui_H ui_L].
  replace (- h - b2z (0 <? u32 (- l))) with (0 - (h + b2z (0 <? u32 (0 - l)))) by (change (0 - l) with (- l); lia).
  rewrite <-(Z.sub_0_l l). rewrite (sub_words 0 0 h l ltac:(lia) Hl), Ha. cbn [Z.mul Z.add].
  rewrite Z.sub_0_l. apply u64_opp.
Qed.

(** ** Bitwise operations *)

Lemma u64_bits z i : 0 ≤ i → Z.testbit (u64 z) i = if decide (i < 64) then Z.testbit z i else false.
Proof.
  intros Hi. unfold u64. case_decide; [by rewrite Z.mod_pow2_bits_low|by rewrite Z.mod_pow2_bits_high by lia].
Qed.

Lemma u32_bits z i : 0 ≤ i → Z.testbit (u32 z) i = if decide (i < 32) then Z.testbit z i else false.
Proof.
  intros Hi. unfold u32. case_decide; [by rewrite Z.mod_pow2_bits_low|by rewrite Z.mod_pow2_bits_high by lia].
Qed.

(** The bits of the words are the bits of the value. *)
Lemma uu_bits a i :
  0 ≤ i < 64 → Z.testbit a i =
    if decide (i < 32) then Z.testbit (ui_L (uu_of a)) i else Z.testbit (ui_H (uu_of a)) (i - 32).
Proof.
  intros Hi. cbn [uu_of ui_H ui_L]. case_decide.
  - by rewrite u32_bits, decide_True by lia.
  - rewrite u32_bits, decide_True by lia. rewrite Z.shiftr_spec by lia. f_equal. lia.
Qed.

Lemma words_bits h l z :
  0 ≤ h < 2 ^ 32 → 0 ≤ l < 2 ^ 32 →
  (∀ i, 0 ≤ i < 64 → Z.testbit z i = if decide (i < 32) then Z.testbit l i else Z.testbit h (i - 32)) →
  uu_ll (mk_uu h l) = s64 z.
Proof.
  intros Hh Hl Hz. apply s64_congr. unfold uu_ull. cbn [ui_H ui_L].
  apply Z.bits_inj'. intros i Hi. rewrite !u64_bits by done. case_decide; [|done].
  rewrite testbit_parts by lia. by rewrite Hz by lia.
Qed.

Lemma bit_op_u32 (op : Z → Z → Z) (f : bool → bool → bool) x y :
  (∀ a b i, Z.testbit (op a b) i = f (Z.testbit a i) (Z.testbit b i)) → f false false = false →
  0 ≤ x < 2 ^ 32 → 0 ≤ y < 2 ^ 32 → 0 ≤ op x y < 2 ^ 32.
Proof.
  intros Hop Hf Hx Hy. assert (op x y = u32 (op x y)) as ->; [|apply u32_range].
  apply Z.bits_inj'. intros i Hi. rewrite u32_bits, Hop by done. case_decide; [done|].
  rewrite <-(u32_id x Hx), <-(u32_id y Hy), !u32_bits, !decide_False by done. done.
Qed.

(** One proof for [and], [or] and [xor] *)
Lemma bitwise_ok (op : Z → Z → Z) (f : bool → bool → bool) a b :
  (∀ a b i, Z.testbit (op a b) i = f (Z.testbit a i) (Z.testbit b i)) → f false false = false →
  uu_ll (mk_uu (op (ui_H (uu_of a)) (ui_H (uu_of b))) (op (ui_L (uu_of a)) (ui_L (uu_of b)))) = s64 (op a b).
Proof.
  intros Hop Hf. apply words_bits; [apply (bit_op_u32 op f); try done; apply u32_range..|].
  intros i Hi. rewrite !Hop, (uu_bits a), (uu_bits b) by done. by case_decide.
Qed.

Lemma __anddi3_ok a b : __anddi3 a b = s64 (Z.land a b).
Proof. apply (bitwise_ok Z.land andb); [apply Z.land_spec|done]. Qed.
Lemma __iordi3_ok a b : __iordi3 a b = s64 (Z.lor a b).
Proof. apply (bitwise_ok Z.lor orb); [apply Z.lor_spec|done]. Qed.
Lemma __xordi3_ok a b : __xordi3 a b = s64 (Z.lxor a b).
Proof. apply (bitwise_ok Z.lxor xorb); [apply Z.lxor_spec|done]. Qed.

Lemma __one_cmpldi2_ok a : __one_cmpldi2 a = s64 (Z.lnot a).
Proof.
  apply words_bits; try apply u32_range. intros i Hi.
  rewrite Z.lnot_spec, (uu_bits a) by lia. case_decide.
  - by rewrite u32_bits, decide_True, Z.lnot_spec by lia.
  - by rewrite u32_bits, decide_True, Z.lnot_spec by lia.
Qed.

(** ** Shifts *)

Definition s64_ok (a : Z) : Prop := - 2 ^ 63 ≤ a < 2 ^ 63.

Lemma high_signed a : s64_ok a → s32 (ui_H (uu_of a)) = Z.shiftr a 32.
Proof.
  intros Ha. cbn [uu_of ui_H]. rewrite s32_u32. apply s32_id. rewrite Z.shiftr_div_pow2 by lia.
  unfold s64_ok in Ha. split; [apply Z.div_le_lower_bound; lia|apply Z.div_lt_upper_bound; lia].
Qed.

Lemma shiftr_u32 x n : 0 ≤ x < 2 ^ 32 → 0 ≤ n → 0 ≤ Z.shiftr x n < 2 ^ 32.
Proof.
  intros Hx Hn. rewrite Z.shiftr_div_pow2 by lia. split; [apply Z.div_pos; lia|].
  apply Z.div_lt_upper_bound; nia.
Qed.

(** A bit of a shifted word, [false] where the index is negative *)
Lemma shiftl_bit x n i : 0 ≤ i → Z.testbit (Z.shiftl x n) i = if decide (i < n) then false else Z.testbit x (i - n).
Proof.
  intros Hi. rewrite Z.shiftl_spec by done. case_decide; [by apply Z.testbit_neg_r; lia|done].
Qed.

(** Reduce a bit of a word expression to bits of its parts, splitting on the
    position where it matters. *)
Ltac word_bits :=
  repeat first
    [ rewrite u32_bits by lia
    | rewrite Z.lor_spec
    | rewrite Z.shiftr_spec by lia
    | rewrite shiftl_bit by lia
    | rewrite Z.bits_0
    | rewrite decide_True by lia
    | rewrite decide_False by lia
    | case_decide ];
  rewrite ?orb_false_l, ?orb_false_r; try done.

Lemma __ashldi3_ok a shift : s64_ok a → 0 ≤ shift < 64 → __ashldi3 a shift = s64 (Z.shiftl a shift).
Proof.
  intros Ha Hs. unfold __ashldi3, INT_BITS. destruct (Z.eqb_spec shift 0) as [->|Hne].
  { rewrite Z.shiftl_0_r. symmetry. by apply s64_id. }
  pose proof (u32_range (Z.shiftr a 32)). pose proof (u32_range a).
  destruct (Z.leb_spec 32 shift); apply words_bits; try apply u32_range; try lia.
  - intros i Hi. cbn [ui_H ui_L uu_of]. word_bits; f_equal; lia.
  - cbn [ui_H ui_L uu_of]. apply lor_u32; [apply u32_range|by apply shiftr_u32; [|lia]].
  - intros i Hi. cbn [ui_H ui_L uu_of]. word_bits; f_equal; lia.
Qed.

Lemma __lshldi3_ok a shift : s64_ok a → 0 ≤ shift < 64 → __lshldi3 a shift = s64 (Z.shiftl a shift).
Proof. apply __ashldi3_ok. Qed.

Lemma __lshrdi3_ok a shift : s64_ok a → 0 ≤ shift < 64 → __lshrdi3 a shift = s64 (Z.shiftr (u64 a) shift).
Proof.
  intros Ha Hs. unfold __lshrdi3, INT_BITS. destruct (Z.eqb_spec shift 0) as [->|Hne].
  { rewrite Z.shiftr_0_r, s64_u64. symmetry. by apply s64_id. }
  pose proof (u32_range (Z.shiftr a 32)). pose proof (u32_range a).
  destruct (Z.leb_spec 32 shift); apply words_bits; try lia;
    try (cbn [ui_H ui_L uu_of]; apply shiftr_u32; [done|lia]).
  - intros i Hi. cbn [ui_H ui_L uu_of]. rewrite Z.shiftr_spec, u64_bits by lia. word_bits; f_equal; lia.
  - cbn [ui_H ui_L uu_of]. apply lor_u32; [by apply shiftr_u32; [|lia]|apply u32_range].
  - intros i Hi. cbn [ui_H ui_L uu_of]. rewrite Z.shiftr_spec, u64_bits by lia. word_bits; f_equal; lia.
Qed.

Lemma __ashrdi3_ok a shift : s64_ok a → 0 ≤ shift < 64 → __ashrdi3 a shift = s64 (Z.shiftr a shift).
Proof.
  intros Ha Hs. unfold __ashrdi3, INT_BITS. destruct (Z.eqb_spec shift 0) as [->|Hne].
  { rewrite Z.shiftr_0_r. symmetry. by apply s64_id. }
  rewrite high_signed by done. pose proof (u32_range (Z.shiftr a 32)). pose proof (u32_range a).
  assert (∀ i, 63 ≤ i → Z.testbit a i = Z.testbit a 63) as Hsign.
  { intros i Hi. unfold s64_ok in Ha. destruct (decide (a < 0)) as [Hneg|Hpos].
    - assert (∀ j, 63 ≤ j → Z.testbit a j = true) as Ht; [|by rewrite !Ht by lia].
      intros j Hj. apply Z.bits_above_log2_neg; [done|].
      destruct (decide (Z.pred (- a) = 0)) as [->|]; [cbn; lia|].
      assert (Z.log2 (Z.pred (- a)) < 63) by (apply Z.log2_lt_pow2; lia). lia.
    - assert (∀ j, 63 ≤ j → Z.testbit a j = false) as Ht; [|by rewrite !Ht by lia].
      intros j Hj. destruct (decide (a = 0)) as [->|]; [apply Z.bits_0|]. apply Z.bits_above_log2; [lia|].
      assert (Z.log2 a < 63) by (apply Z.log2_lt_pow2; lia). lia. }
  destruct (Z.leb_spec 32 shift); apply words_bits; try apply u32_range.
  - intros i Hi. word_bits; [f_equal; lia|].
    rewrite Hsign by lia. symmetry. apply Hsign. lia.
  - cbn [ui_H ui_L uu_of]. apply lor_u32; [by apply shiftr_u32; [|lia]|apply u32_range].
  - intros i Hi. cbn [ui_H ui_L uu_of]. word_bits; f_equal; lia.
Qed.

(** ** Comparisons *)

Definition compare_result (a b : Z) : Z := if a <? b then 0 else if b <? a then 2 else 1.

(** Comparing the words, high first *)
Lemma compare_words h l h' l' :
  0 ≤ l < 2 ^ 32 → 0 ≤ l' < 2 ^ 32 →
  (if h <? h' then 0 else if h' <? h then 2 else if l <? l' then 0 else if l' <? l then 2 else 1) =
    compare_result (h * 2 ^ 32 + l) (h' * 2 ^ 32 + l').
Proof.
  intros Hl Hl'. unfold compare_result.
  destruct (Z.ltb_spec h h'), (Z.ltb_spec h' h), (Z.ltb_spec l l'), (Z.ltb_spec l' l);
    destruct (Z.ltb_spec (h * 2 ^ 32 + l) (h' * 2 ^ 32 + l')), (Z.ltb_spec (h' * 2 ^ 32 + l') (h * 2 ^ 32 + l));
    (done || lia).
Qed.

Lemma parts_signed a : Z.shiftr a 32 * 2 ^ 32 + u32 a = a.
Proof. rewrite Z.shiftr_div_pow2 by lia. unfold u32. pose proof (Z.div_mod a (2 ^ 32)). lia. Qed.

Lemma __cmpdi2_ok a b : s64_ok a → s64_ok b → __cmpdi2 a b = compare_result a b.
Proof.
  intros Ha Hb. unfold __cmpdi2. rewrite !high_signed by done.
  rewrite compare_words by apply u32_range. cbn [ui_L uu_of]. by rewrite !parts_signed.
Qed.

Lemma __ucmpdi2_ok a b :
  0 ≤ a < 2 ^ 64 → 0 ≤ b < 2 ^ 64 → __ucmpdi2 a b = compare_result a b.
Proof.
  intros Ha Hb. unfold __ucmpdi2. destruct (uu_of_parts a) as (h & l & -> & Hh & Hl & Ea).
  destruct (uu_of_parts b) as (h' & l' & -> & Hh' & Hl' & Eb). cbn [ui_H ui_L].
  rewrite compare_words by done. by rewrite Ea, Eb, !u64_id.
Qed.

(** ** Products *)

Lemma halves x : 0 ≤ x < 2 ^ 32 → HHALF x * 2 ^ 16 + LHALF x = x ∧ 0 ≤ HHALF x < 2 ^ 16 ∧ 0 ≤ LHALF x < 2 ^ 16.
Proof.
  intros Hx. unfold HHALF, LHALF, HALF_BITS. change (Z.shiftl 1 16 - 1) with (Z.ones 16).
  rewrite Z.land_ones, Z.shiftr_div_pow2 by lia. pose proof (Z.div_mod x (2 ^ 16) ltac:(lia)).
  pose proof (Z.mod_pos_bound x (2 ^ 16) ltac:(lia)). split; [lia|]. split; [|lia].
  split; [apply Z.div_pos; lia|apply Z.div_lt_upper_bound; lia].
Qed.

(** [x << 16] as two words *)
Lemma half_up x : 0 ≤ x < 2 ^ 32 → HHALF x * 2 ^ 32 + LHUP x = x * 2 ^ 16 ∧ 0 ≤ LHUP x < 2 ^ 32.
Proof.
  intros Hx. destruct (halves x Hx) as (H1 & H2 & H3). split; [|apply u32_range].
  assert (LHUP x = LHALF x * 2 ^ 16) as ->; [|lia].
  unfold LHUP. unfold HALF_BITS. rewrite Z.shiftl_mul_pow2 by lia. unfold u32.
  symmetry. apply (Z.mod_unique _ _ (HHALF x)); lia.
Qed.

(** The difference of two halves, and its sign *)
Definition diff (x y : Z) : Z * bool := if y <=? x then (u32 (x - y), false) else (u32 (y - x), true).
Lemma diff_ok x y :
  0 ≤ x < 2 ^ 32 → 0 ≤ y < 2 ^ 32 →
  (diff x y).1 * (if (diff x y).2 then -1 else 1) = x - y ∧ 0 ≤ (diff x y).1 ≤ Z.max x y.
Proof.
  intros Hx Hy. unfold diff. destruct (Z.leb_spec y x); cbn [fst snd]; rewrite u32_id by lia; lia.
Qed.

(** [x += y << 16] and [x -= y << 16], on two words *)
Lemma add_half h l y :
  0 ≤ l < 2 ^ 32 → 0 ≤ y < 2 ^ 32 →
  let l2 := u32 (l + LHUP y) in
  u64 (u32 (h + (HHALF y + b2z (l2 <? l))) * 2 ^ 32 + l2) = u64 (h * 2 ^ 32 + l + y * 2 ^ 16).
Proof. intros Hl Hy. destruct (half_up y Hy) as [<- Hr]. by apply add_words. Qed.
Lemma sub_half h l y :
  0 ≤ l < 2 ^ 32 → 0 ≤ y < 2 ^ 32 →
  let l2 := u32 (l - LHUP y) in
  u64 (u32 (h - (HHALF y + b2z (l <? l2))) * 2 ^ 32 + l2) = u64 (h * 2 ^ 32 + l - y * 2 ^ 16).
Proof. intros Hl Hy. destruct (half_up y Hy) as [<- Hr]. by apply sub_words. Qed.

Lemma u64_add_congr a b c : u64 a = u64 b → u64 (a + c) = u64 (b + c).
Proof. intros H. by rewrite <-(u64_add a), H, u64_add. Qed.

(** Equality modulo 2^64 of a word put into the high half *)
Lemma u64_high h l c : u64 (u32 h * 2 ^ 32 + l + c) = u64 (h * 2 ^ 32 + l + c).
Proof.
  apply (u64_eq _ _ (- (h / 2 ^ 32))). unfold u32. pose proof (Z.div_mod h (2 ^ 32) ltac:(lia)).
  change (2 ^ 64) with (2 ^ 32 * 2 ^ 32). nia.
Qed.

Lemma mid_step h l mid (neg : bool) :
  0 ≤ l < 2 ^ 32 → 0 ≤ mid < 2 ^ 32 →
  let p := if neg then
      (u32 (h - (HHALF mid + b2z (l <? u32 (l - LHUP mid)))), u32 (l - LHUP mid))
    else (u32 (h + (HHALF mid + b2z (u32 (l + LHUP mid) <? l))), u32 (l + LHUP mid)) in
  u64 (p.1 * 2 ^ 32 + p.2) = u64 (h * 2 ^ 32 + l + (if neg then -1 else 1) * mid * 2 ^ 16) ∧
  0 ≤ p.2 < 2 ^ 32.
Proof.
  intros Hl Hm. destruct neg; cbn [fst snd]; (split; [|apply u32_range]).
  - rewrite (sub_half h l mid Hl Hm). f_equal. lia.
  - rewrite (add_half h l mid Hl Hm). f_equal. lia.
Qed.

Lemma add_low h l low :
  0 ≤ h < 2 ^ 32 → 0 ≤ l < 2 ^ 32 → 0 ≤ low < 2 ^ 32 →
  let l2 := u32 (l + low) in
  u64 ((if l2 <? low then u32 (h + 1) else h) * 2 ^ 32 + l2) = u64 (h * 2 ^ 32 + l + low).
Proof.
  intros Hh Hl Hlow l2. pose proof (add_words_r h l 0 low Hl Hlow) as H. cbn zeta in H. fold l2 in H.
  rewrite Z.mul_0_l, Z.add_0_l, Z.add_0_r in H. rewrite <-H. unfold b2z.
  destruct (l2 <? low); [done|]. by rewrite Z.add_0_r, (u32_id h) by done.
Qed.

(** The identity behind the algorithm: [uv] from three products of halves *)
Lemma karatsuba u1 u0 v1 v0 B :
  (u1 * B + u0) * (v1 * B + v0) =
    u1 * v1 * (B * B + B) + (u1 - u0) * (v0 - v1) * B + u0 * v0 * (B + 1).
Proof. ring. Qed.

Lemma small_product x y n : 0 ≤ x < 2 ^ n → 0 ≤ y < 2 ^ n → 0 ≤ n → 0 ≤ x * y < 2 ^ (n + n).
Proof. intros Hx Hy Hn. rewrite Z.pow_add_r by done. nia. Qed.

Lemma __lmulq_ok u v :
  0 ≤ u < 2 ^ 32 → 0 ≤ v < 2 ^ 32 → __lmulq u v = s64 (u * v).
Proof.
  intros Hu Hv. unfold __lmulq. destruct (halves u Hu) as (Eu & Hu1 & Hu0).
  destruct (halves v Hv) as (Ev & Hv1 & Hv0).
  set (u1 := HHALF u) in *. set (u0 := LHALF u) in *. set (v1 := HHALF v) in *. set (v0 := LHALF v) in *.
  clearbody u1 u0 v1 v0. subst u v.
  pose proof (small_product u0 v0 16 Hu0 Hv0 ltac:(lia)) as Hlow.
  pose proof (small_product u1 v1 16 Hu1 Hv1 ltac:(lia)) as Hhigh. change (2 ^ (16 + 16)) with (2 ^ 32) in *.
  rewrite (u32_id (u0 * v0)), (u32_id (u1 * v1)) by done.
  destruct ((u1 =? 0) && (v1 =? 0)) eqn:Hz.
  { apply andb_true_iff in Hz as [->%Z.eqb_eq ->%Z.eqb_eq]. rewrite !Z.mul_0_l, !Z.add_0_l.
    rewrite s64_id; lia. }
  clear Hz.
  destruct (diff_ok u1 u0 ltac:(lia) ltac:(lia)) as [Hud Hudr].
  destruct (diff_ok v0 v1 ltac:(lia) ltac:(lia)) as [Hvd Hvdr].
  assert (∃ udiff neg, (if u0 <=? u1 then (u32 (u1 - u0), false) else (u32 (u0 - u1), true)) = (udiff, neg) ∧
    udiff * (if neg then -1 else 1) = u1 - u0 ∧ 0 ≤ udiff < 2 ^ 16) as (udiff & neg1 & -> & Hud' & Hudr').
  { fold (diff u1 u0). destruct (diff u1 u0) as [d n] eqn:E. cbn in *. exists d, n. split_and!; (done || lia). }
  assert (∃ vdiff neg, (if v1 <=? v0 then (u32 (v0 - v1), neg1) else (u32 (v1 - v0), negb neg1)) = (vdiff, neg) ∧
    udiff * vdiff * (if neg then -1 else 1) = (u1 - u0) * (v0 - v1) ∧ 0 ≤ vdiff < 2 ^ 16)
    as (vdiff & neg & -> & Hmid & Hvdr').
  { unfold diff in Hvd, Hvdr. destruct (v1 <=? v0); cbn [fst snd] in *; do 2 eexists; (split; [done|]);
      [revert Hvd Hvdr; generalize (u32 (v0 - v1))|revert Hvd Hvdr; generalize (u32 (v1 - v0))];
      intros d Hvd Hvdr; (split; [|lia]); rewrite <-Hud', <-Hvd; destruct neg1; cbn [negb]; lia. }
  pose proof (small_product udiff vdiff 16 Hudr' Hvdr' ltac:(lia)) as Hm. change (2 ^ (16 + 16)) with (2 ^ 32) in *.
  rewrite (u32_id (udiff * vdiff)) by done.
  clear Hud Hudr Hvd Hvdr Hud'. set (mid := udiff * vdiff) in *. clearbody mid.
  set (high := u1 * v1) in *. set (low := u0 * v0) in *.
  destruct (half_up high Hhigh) as [Hup Hupr].
  destruct (mid_step (u32 (high + HHALF high)) (LHUP high) mid neg Hupr Hm) as [Hp Hpr]. cbn zeta in Hp, Hpr.
  match type of Hp with u64 (?p.1 * _ + _) = _ => destruct p as [prodh prodl] end. cbn [fst snd] in Hp, Hpr.
  apply s64_congr. unfold uu_ull. cbn [ui_H ui_L].
  rewrite add_low by (done || apply u32_range).
  rewrite (u64_add_congr _ _ low (add_half prodh prodl low Hpr Hlow)).
  rewrite <-!Z.add_assoc, !Z.add_assoc, <-(Z.add_assoc _ _ low).
  rewrite (u64_add_congr _ _ (low * 2 ^ 16 + low) Hp).
  rewrite <-(Z.add_assoc _ _ (low * 2 ^ 16 + low)), u64_high.
  f_equal. rewrite karatsuba. fold high low. rewrite <-Hmid. destruct neg; lia.
Qed.

Lemma uu_ll_of a : uu_ll (uu_of a) = s64 a.
Proof.
  destruct (uu_of_parts a) as (h & l & -> & _ & _ & H). unfold uu_ll, uu_ull. cbn [ui_H ui_L].
  by rewrite H, s64_u64.
Qed.

Lemma u64_opp_congr a b : u64 a = u64 b → u64 (- a) = u64 (- b).
Proof. intros H. by rewrite <-(u64_opp a), H, u64_opp. Qed.

(** The high word of the product, from the three products modulo 2^32 *)
Lemma assemble u1 u0 v1 v0 udiff vdiff (negmid : bool) lh ll :
  lh * 2 ^ 32 + ll = u0 * v0 →
  udiff * vdiff * (if negmid then -1 else 1) = (u1 - u0) * (v0 - v1) →
  uu_ll (mk_uu (u32 (u32 (u1 * v1) + (if negmid then u32 (- u32 (udiff * vdiff)) else u32 (udiff * vdiff))
    + ll + lh)) ll) = s64 ((u1 * 2 ^ 32 + u0) * (v1 * 2 ^ 32 + v0)).
Proof.
  intros Hlow Hmid. apply s64_congr. unfold uu_ull. cbn [ui_H ui_L].
  assert (∃ k, u32 (u1 * v1) + (if negmid then u32 (- u32 (udiff * vdiff)) else u32 (udiff * vdiff)) =
    u1 * v1 + (u1 - u0) * (v0 - v1) + k * 2 ^ 32) as [k ->].
  { rewrite <-Hmid. unfold u32. pose proof (Z.div_mod (u1 * v1) (2 ^ 32) ltac:(lia)).
    pose proof (Z.div_mod (udiff * vdiff) (2 ^ 32) ltac:(lia)).
    pose proof (Z.div_mod (- ((udiff * vdiff) `mod` 2 ^ 32)) (2 ^ 32) ltac:(lia)).
    destruct negmid.
    - exists (- (u1 * v1 / 2 ^ 32) + (udiff * vdiff / 2 ^ 32) - (- ((udiff * vdiff) `mod` 2 ^ 32)) / 2 ^ 32). lia.
    - exists (- (u1 * v1 / 2 ^ 32) - (udiff * vdiff / 2 ^ 32)). lia. }
  pose proof (u64_high (u1 * v1 + (u1 - u0) * (v0 - v1) + k * 2 ^ 32 + ll + lh) ll 0) as Hh.
  rewrite !Z.add_0_r in Hh. rewrite Hh. clear Hh.
  apply (u64_eq _ _ (k - u1 * v1 - lh)). change (2 ^ 64) with (2 ^ 32 * 2 ^ 32).
  assert ((u1 * 2 ^ 32 + u0) * (v1 * 2 ^ 32 + v0) =
    u1 * v1 * (2 ^ 32 * 2 ^ 32) + (u1 * v0 + u0 * v1) * 2 ^ 32 + u0 * v0) as -> by lia.
  assert (u1 * v1 + (u1 - u0) * (v0 - v1) = u1 * v0 + u0 * v1 - u0 * v0) as -> by lia.
  rewrite <-Hlow. lia.
Qed.

(** The product of two-word numbers, up to the sign *)
Lemma mul_words u1 u0 v1 v0 :
  0 ≤ u1 < 2 ^ 32 → 0 ≤ u0 < 2 ^ 32 → 0 ≤ v1 < 2 ^ 32 → 0 ≤ v0 < 2 ^ 32 →
  let low := uu_of (__lmulq u0 v0) in
  uu_ll (if (u1 =? 0) && (v1 =? 0) then low
    else
      let '(negmid, udiff) := if u0 <=? u1 then (false, u32 (u1 - u0)) else (true, u32 (u0 - u1)) in
      let '(vdiff, negmid) := if v1 <=? v0 then (u32 (v0 - v1), negmid) else (u32 (v1 - v0), negb negmid) in
      let mid := u32 (udiff * vdiff) in
      let high := u32 (u1 * v1) in
      mk_uu (u32 (high + (if negmid then u32 (- mid) else mid) + ui_L low + ui_H low)) (ui_L low)) =
  s64 ((u1 * 2 ^ 32 + u0) * (v1 * 2 ^ 32 + v0)).
Proof.
  intros Hu1 Hu0 Hv1 Hv0 low. unfold low. rewrite __lmulq_ok by done.
  destruct ((u1 =? 0) && (v1 =? 0)) eqn:Hz.
  { apply andb_true_iff in Hz as [->%Z.eqb_eq ->%Z.eqb_eq]. rewrite uu_ll_of, !Z.mul_0_l, !Z.add_0_l.
    apply s64_congr. apply u64_s64. }
  destruct (uu_of_parts (s64 (u0 * v0))) as (lh & ll & -> & Hlh & Hll & Hlow). rewrite u64_s64 in Hlow.
  pose proof (small_product u0 v0 32 Hu0 Hv0 ltac:(lia)) as Hr. change (2 ^ (32 + 32)) with (2 ^ 64) in Hr.
  rewrite u64_id in Hlow by done. cbn [ui_H ui_L].
  destruct (Z.leb_spec u0 u1), (Z.leb_spec v1 v0); cbn [negb].
  - apply (assemble u1 u0 v1 v0 _ _ false lh ll Hlow). rewrite !u32_id by lia. lia.
  - apply (assemble u1 u0 v1 v0 _ _ true lh ll Hlow). rewrite !u32_id by lia. lia.
  - apply (assemble u1 u0 v1 v0 _ _ true lh ll Hlow). rewrite !u32_id by lia. lia.
  - apply (assemble u1 u0 v1 v0 _ _ false lh ll Hlow). rewrite !u32_id by lia. lia.
Qed.

Lemma __muldi3_ok a b : s64_ok a → s64_ok b → __muldi3 a b = s64 (a * b).
Proof.
  intros Ha Hb. unfold __muldi3.
  assert ((if 0 <=? a then (uu_of a, false) else (uu_of (- a), true)) = (uu_of (Z.abs a), bool_decide (a < 0))) as ->.
  { destruct (Z.leb_spec 0 a); [rewrite Z.abs_eq, bool_decide_false by lia|rewrite Z.abs_neq, bool_decide_true by lia]; done. }
  assert (∀ n : bool, (if 0 <=? b then (uu_of b, n) else (uu_of (- b), negb n)) =
    (uu_of (Z.abs b), xorb n (bool_decide (b < 0)))) as ->.
  { intros n. destruct (Z.leb_spec 0 b); [rewrite Z.abs_eq, bool_decide_false, xorb_false_r by lia|
      rewrite Z.abs_neq, bool_decide_true, xorb_true_r by lia]; done. }
  destruct (uu_of_parts (Z.abs a)) as (h & l & -> & Hh & Hl & Ea).
  destruct (uu_of_parts (Z.abs b)) as (h' & l' & -> & Hh' & Hl' & Eb). cbn [ui_H ui_L].
  pose proof (mul_words h l h' l' Hh Hl Hh' Hl') as Hm. cbn zeta in Hm |- *. rewrite Hm, Ea, Eb. clear Hm.
  assert (u64 (Z.abs a) = Z.abs a) as -> by (apply u64_id; unfold s64_ok in *; lia).
  assert (u64 (Z.abs b) = Z.abs b) as -> by (apply u64_id; unfold s64_ok in *; lia).
  destruct (xorb _ _) eqn:Hx.
  - apply s64_congr. rewrite (u64_opp_congr _ (Z.abs a * Z.abs b)) by apply u64_s64. f_equal.
    do 2 case_bool_decide; cbn in Hx; try done; lia.
  - f_equal. do 2 case_bool_decide; cbn in Hx; try done; lia.
Qed.
