(* ===== verification/Qdivrem.v ===== *)
(** * 64-bit division ([common/gcc-millicode/qdivrem.c], divdi3.c, moddi3.c, ...)

    Knuth's algorithm D on numbers of at most four 16-bit digits.  The three
    local arrays are the state; they start with arbitrary contents.  A pointer
    into an array is an offset.  The theorem is that [__qdivrem] computes the
    quotient and the remainder, and never accesses an array out of bounds. *)

From S2P Require Import Prelude LongLong.

(** Digit base *)
Definition B : Z := Z.shiftl 1 HALF_BITS.
Definition COMBINE (a b : Z) : Z := Z.lor (u32 (Z.shiftl a HALF_BITS)) b.
(** [(digit)x]: an unsigned short *)
Definition digit (x : Z) : Z := x `mod` 2 ^ 16.

Record qst : Type := mk_qst { uspace : list Z; vspace : list Z; qspace : list Z }.
Inductive arr : Type := U | V | Q.
Definition get_arr (a : arr) (s : qst) : list Z :=
  match a with U => uspace s | V => vspace s | Q => qspace s end.
Definition put_arr (a : arr) (l : list Z) (s : qst) : qst :=
  match a with
  | U => mk_qst l (vspace s) (qspace s)
  | V => mk_qst (uspace s) l (qspace s)
  | Q => mk_qst (uspace s) (vspace s) l
  end.

(** [p[i]] and [p[i] = x] *)
Definition rd (a : arr) (i : Z) : M qst Z :=
  l ← gets (get_arr a);
  if 0 <=? i then deref (l !! Z.to_nat i) else halt BadAccess.
Definition wr (a : arr) (i x : Z) : M qst () :=
  l ← gets (get_arr a);
  if decide (0 ≤ i < Z.of_nat (length l)) then modify (put_arr a (<[Z.to_nat i := digit x]> l))
  else halt BadAccess.

(** [shl(&p[at], len, sh)] *)
Definition shl (a : arr) (at_ len sh : Z) : M qst () :=
  for_list (seqZ 0 len) (λ i,
    x ← rd a (at_ + i);
    y ← rd a (at_ + i + 1);
    wr a (at_ + i) (Z.lor (LHALF (u32 (Z.shiftl x sh))) (Z.shiftr y (HALF_BITS - sh)))) ;;
  x ← rd a (at_ + len);
  wr a (at_ + len) (LHALF (u32 (Z.shiftl x sh))).

(** Break a number into digits 1 to 4 of an array. *)
Definition put_digits (a : arr) (x : Z) : M qst () :=
  let tmp := uu_of x in
  wr a 1 (HHALF (ui_H tmp)) ;;
  wr a 2 (LHALF (ui_H tmp)) ;;
  wr a 3 (HHALF (ui_L tmp)) ;;
  wr a 4 (LHALF (ui_L tmp)).

(** The number in digits 1 to 4 of an array *)
Definition get_digits (a : arr) : M qst Z :=
  d1 ← rd a 1;
  d2 ← rd a 2;
  d3 ← rd a 3;
  d4 ← rd a 4;
  mret (u64 (uu_ll (mk_uu (COMBINE d1 d2) (COMBINE d3 d4)))).

(** The divisor has one digit: the quotient and the remainder *)
Definition short_div (v : Z) : M qst (Z * Z) :=
  t ← rd V (v + 2);
  if t =? 0 then halt BadAccess
  else
    u1 ← rd U 1;
    u2 ← rd U 2;
    u3 ← rd U 3;
    u4 ← rd U 4;
    let q1 := digit (u1 / t) in
    let rbj := COMBINE (u1 `mod` t) u2 in
    let q2 := digit (rbj / t) in
    let rbj := COMBINE (rbj `mod` t) u3 in
    let q3 := digit (rbj / t) in
    let rbj := COMBINE (rbj `mod` t) u4 in
    let q4 := digit (rbj / t) in
    mret (u64 (uu_ll (mk_uu (COMBINE q1 q2) (COMBINE q3 q4))), rbj `mod` t).

(** D3: the loop that corrects the estimate, entered at [qhat_too_big] when
    [enter] is true *)
Definition too_big (v1 qhat rhat : Z) : (Z * Z) + Z :=
  let qhat := u32 (qhat - 1) in
  let rhat := u32 (rhat + v1) in
  if B <=? rhat then inr qhat else inl (qhat, rhat).
Definition correct (v1 v2 uj2 : Z) (st : Z * Z) : M qst Z :=
  while (λ st : Z * Z,
    let '(qhat, rhat) := st in
    if COMBINE rhat uj2 <? u32 (v2 * qhat) then mret (too_big v1 qhat rhat)
    else mret (inr qhat)) st.
Definition estimate (v1 v2 uj0 uj1 uj2 : Z) : M qst Z :=
  if uj0 =? v1 then
    match too_big v1 B uj1 with
    | inl st => correct v1 v2 uj2 st
    | inr qhat => mret qhat
    end
  else if v1 =? 0 then halt BadAccess
  else
    let nn := COMBINE uj0 uj1 in
    correct v1 v2 uj2 (nn / v1, nn `mod` v1).

(** D4, for digits [i] to 1; the result is the borrow. *)
Fixpoint mulsub (u v j qhat : Z) (i : nat) (t : Z) : M qst Z :=
  match i with
  | O => mret t
  | S i' =>
      let i := Z.of_nat i in
      x ← rd U (u + i + j);
      y ← rd V (v + i);
      let t := u32 (x - u32 (y * qhat) - t) in
      wr U (u + i + j) (LHALF t) ;;
      mulsub u v j qhat i' (Z.land (u32 (B - HHALF t)) (B - 1))
  end.

(** D6, for digits [i] to 1; the result is the carry. *)
Fixpoint addback (u v j : Z) (i : nat) (t : Z) : M qst Z :=
  match i with
  | O => mret t
  | S i' =>
      let i := Z.of_nat i in
      x ← rd U (u + i + j);
      y ← rd V (v + i);
      let t := u32 (t + (x + y)) in
      wr U (u + i + j) (LHALF t) ;;
      addback u v j i' (HHALF t)
  end.

(** One turn of the loop on [j] *)
Definition turn (u v q n v1 v2 j : Z) : M qst () :=
  uj0 ← rd U (u + j);
  uj1 ← rd U (u + j + 1);
  uj2 ← rd U (u + j + 2);
  qhat ← estimate v1 v2 uj0 uj1 uj2;
  t ← mulsub u v j qhat (Z.to_nat n) 0;
  x ← rd U (u + j);
  let t := u32 (x - t) in
  wr U (u + j) (LHALF t) ;;
  qhat ← (if negb (HHALF t =? 0) then
      t ← addback u v j (Z.to_nat n) 0;
      x ← rd U (u + j);
      wr U (u + j) (LHALF (u32 (x + t))) ;;
      mret (u32 (qhat - 1))
    else mret qhat);
  wr Q (q + j) qhat.

(** [for (n = 4; v[1] == 0; v++)]: the length of the divisor and the offset of
    [v], or the result of the short division *)
Definition skip_v : M qst (Z * Z + Z * Z) :=
  while (λ st : Z * Z,
    let '(n, v) := st in
    x ← rd V (v + 1);
    if negb (x =? 0) then mret (inr (inl (n, v)))
    else if n - 1 =? 1 then r ← short_div v; mret (inr (inr r))
    else mret (inl (n - 1, v + 1))) (4, 0).

(** [for (m = 4 - n; u[1] == 0; u++) m--] *)
Definition skip_u (n : Z) : M qst (Z * Z) :=
  while (λ st : Z * Z,
    let '(m, u) := st in
    x ← rd U (u + 1);
    if negb (x =? 0) then mret (inr (m, u)) else mret (inl (m - 1, u + 1))) (4 - n, 0).

(** D1: the shift *)
Definition norm (t : Z) : M qst Z :=
  while (λ st : Z * Z,
    let '(t, d) := st in
    if t <? B / 2 then mret (inl (u32 (Z.shiftl t 1), d + 1)) else mret (inr d)) (t, 0).

(** Shift the remainder back, in digits [m+1] to [m+n]. *)
Definition unshift (u n m d : Z) : M qst () :=
  for_list (seqZ 0 n) (λ k,
    let i := m + n - k in
    x ← rd U (u + i);
    y ← rd U (u + i - 1);
    wr U (u + i) (Z.lor (Z.shiftr x d) (LHALF (u32 (Z.shiftl y (HALF_BITS - d)))))) ;;
  wr U (u + m) 0.

Definition long_div (want : bool) (n v : Z) : M qst (Z * option Z) :=
  mu ← skip_u n;
  let '(m, u) := mu : Z * Z in
  for_list (seqZ 0 (4 - m)) (λ k, wr Q (4 - m - 1 - k) 0) ;;
  let q := 4 - m in
  t ← rd V (v + 1);
  d ← norm t;
  (if 0 <? d then
     shl U u (m + n) d ;;
     shl V (v + 1) (n - 1) d
   else mret tt) ;;
  v1 ← rd V (v + 1);
  v2 ← rd V (v + 2);
  for_list (seqZ 0 (m + 1)) (λ j, turn u v q n v1 v2 j) ;;
  arq ← (if want then
      (if negb (d =? 0) then unshift u n m d else mret tt) ;;
      r ← get_digits U;
      mret (Some r)
    else mret None);
  r ← get_digits Q;
  mret (r, arq).

(** The quotient, and the remainder if the caller gave a place for it *)
Definition __qdivrem (want : bool) (ull vll : Z) : M qst (Z * option Z) :=
  if vll =? 0 then halt BadAccess
  else if ull <? vll then mret (0, if want then Some ull else None)
  else
    wr U 0 0 ;;
    put_digits U ull ;;
    put_digits V vll ;;
    nv ← skip_v;
    match nv with
    | inr (q, r) => mret (q, if want then Some r else None)
    | inl (n, v) => long_div want n v
    end.

Definition __udivdi3 (a b : Z) : M qst Z :=
  r ← __qdivrem false a b;
  mret r.1.

Definition __umoddi3 (a b : Z) : M qst Z :=
  r ← __qdivrem true a b;
  deref r.2.

Definition __divdi3 (a b : Z) : M qst Z :=
  let '(ua, neg) := if a <? 0 then (u64 (- u64 a), true) else (u64 a, false) in
  let '(ub, neg) := if b <? 0 then (u64 (- u64 b), negb neg) else (u64 b, neg) in
  r ← __qdivrem false ua ub;
  mret (s64 (if (neg : bool) then u64 (- r.1) else r.1)).

Definition __moddi3 (a b : Z) : M qst Z :=
  let '(ua, neg) := if a <? 0 then (u64 (- u64 a), true) else (u64 a, false) in
  let ub := if b <? 0 then u64 (- u64 b) else u64 b in
  r ← __qdivrem true ua ub;
  ur ← deref r.2;
  mret (s64 (if (neg : bool) then u64 (- ur) else ur)).

(** ** Digits *)

Definition dg (l : list Z) (i : Z) : Z := default 0 (l !! Z.to_nat i).

(** The number in [k] digits from index [a] *)
Fixpoint val (l : list Z) (a : Z) (k : nat) : Z :=
  match k with
  | O => 0
  | S k => val l a k * B + dg l (a + Z.of_nat k)
  end.

Record digits (l : list Z) : Prop := {
  dg_len : length l = 5%nat;
  dg_ok : Forall (λ x, 0 ≤ x < B) l
}.

Lemma B_eq : B = 2 ^ 16.
Proof. done. Qed.
#[local] Opaque B.

Lemma dg_range l i : digits l → 0 ≤ dg l i < B.
Proof.
  intros [_ H]. unfold dg. destruct (l !! Z.to_nat i) as [x|] eqn:E; cbn; [|rewrite B_eq; lia].
  by eapply Forall_lookup_1 in H.
Qed.

Lemma val_cons l a k : val l a (S k) = dg l a * B ^ Z.of_nat k + val l (a + 1) k.
Proof.
  induction k as [|k IH]; [cbn; rewrite Z.add_0_r; lia|].
  change (val l a (S (S k))) with (val l a (S k) * B + dg l (a + Z.of_nat (S k))). rewrite IH.
  change (val l (a + 1) (S k)) with (val l (a + 1) k * B + dg l (a + 1 + Z.of_nat k)).
  replace (a + 1 + Z.of_nat k) with (a + Z.of_nat (S k)) by lia.
  rewrite Nat2Z.inj_succ, Z.pow_succ_r by lia. lia.
Qed.

Lemma val_range l a k : digits l → 0 ≤ val l a k < B ^ Z.of_nat k.
Proof.
  intros Hl. induction k as [|k IH]; [cbn; lia|]. cbn [val]. rewrite Nat2Z.inj_succ, Z.pow_succ_r by lia.
  pose proof (dg_range l (a + Z.of_nat k) Hl). nia.
Qed.

Lemma val_ext l l' a k :
  (∀ i, a ≤ i < a + Z.of_nat k → dg l' i = dg l i) → val l' a k = val l a k.
Proof.
  induction k as [|k IH]; intros H; [done|]. cbn [val]. rewrite IH by (intros; apply H; lia).
  by rewrite H by lia.
Qed.

Lemma digit_range x : 0 ≤ digit x < B.
Proof. rewrite B_eq. by apply Z.mod_pos_bound. Qed.

Lemma digit_id x : 0 ≤ x < B → digit x = x.
Proof. rewrite B_eq. apply Z.mod_small. Qed.

Lemma digits_insert l i x : digits l → digits (<[i := digit x]> l).
Proof.
  intros [H1 H2]. split; [by rewrite length_insert|]. apply Forall_insert; [done|]. apply digit_range.
Qed.

Lemma dg_insert l i k x :
  length l = 5%nat → 0 ≤ i < 5 → 0 ≤ k →
  dg (<[Z.to_nat i := x]> l) k = if decide (k = i) then x else dg l k.
Proof.
  intros Hl Hi Hk. unfold dg. case_decide as E.
  - subst. by rewrite list_lookup_insert_eq by lia.
  - by rewrite list_lookup_insert_ne by lia.
Qed.

Section access.
Variables (lu lv lq : list Z).
Hypotheses (Hu : length lu = 5%nat) (Hv : length lv = 5%nat) (Hq : length lq = 5%nat).

Lemma rd_ok a i :
  0 ≤ i < 5 → rd a i (mk_qst lu lv lq) = Ok (dg (get_arr a (mk_qst lu lv lq)) i, mk_qst lu lv lq).
Proof using Hu Hv Hq.
  intros Hi. unfold rd. mred. rewrite (proj2 (Z.leb_le _ _)) by lia. unfold dg.
  destruct (lookup_lt_is_Some_2 (get_arr a (mk_qst lu lv lq)) (Z.to_nat i)) as [x ->]; [|done].
  destruct a; cbn; lia.
Qed.

Lemma wr_ok a i x :
  0 ≤ i < 5 → wr a i x (mk_qst lu lv lq) =
    Ok (tt, put_arr a (<[Z.to_nat i := digit x]> (get_arr a (mk_qst lu lv lq))) (mk_qst lu lv lq)).
Proof using Hu Hv Hq.
  intros Hi. unfold wr. mred. rewrite decide_True; [done|]. destruct a; cbn; lia.
Qed.
End access.

(** ** One digit of D4 and of D6 *)

Lemma LHALF_eq x : LHALF x = x `mod` B.
Proof. unfold LHALF. change (Z.shiftl 1 HALF_BITS - 1) with (Z.ones 16). by rewrite Z.land_ones. Qed.
Lemma HHALF_eq x : HHALF x = x / B.
Proof. unfold HHALF, HALF_BITS. by rewrite Z.shiftr_div_pow2. Qed.
Lemma land_B x : Z.land x (B - 1) = x `mod` B.
Proof. rewrite B_eq. change (2 ^ 16 - 1) with (Z.ones 16). by rewrite Z.land_ones. Qed.

Lemma submul_digit x y qhat t :
  0 ≤ x < B → 0 ≤ y < B → 0 ≤ qhat < B → 0 ≤ t < B →
  let T := u32 (x - u32 (y * qhat) - t) in
  let t' := Z.land (u32 (B - HHALF T)) (B - 1) in
  LHALF T - t' * B = x - y * qhat - t ∧ 0 ≤ LHALF T < B ∧ 0 ≤ t' < B.
Proof.
  intros Hx Hy Hq Ht T t'. unfold t'. rewrite land_B, LHALF_eq, HHALF_eq. unfold T. clear T t'.
  rewrite B_eq in *. assert (0 ≤ y * qhat ≤ (2 ^ 16 - 1) * (2 ^ 16 - 1)) by nia.
  rewrite (u32_id (y * qhat)) by lia. set (w := x - y * qhat - t).
  assert (- (2 ^ 32) < w < 2 ^ 16) as Hw by (unfold w; lia).
  destruct (decide (0 ≤ w)) as [Hpos|Hneg].
  - rewrite (u32_id w), (Z.div_small w), (Z.mod_small w) by lia.
    change (u32 (2 ^ 16 - 0) `mod` 2 ^ 16) with 0. lia.
  - assert (u32 w = w + 2 ^ 32) as -> by (unfold u32; symmetry; apply (Z.mod_unique _ _ (-1)); lia).
    set (k := (w + 2 ^ 32) / 2 ^ 16).
    pose proof (Z.div_mod (w + 2 ^ 32) (2 ^ 16) ltac:(lia)) as Hd. fold k in Hd.
    pose proof (Z.mod_pos_bound (w + 2 ^ 32) (2 ^ 16) ltac:(lia)).
    assert (0 < k < 2 ^ 16) by (unfold w in *; lia).
    rewrite (u32_id (2 ^ 16 - k)) by lia. rewrite (Z.mod_small (2 ^ 16 - k)) by lia. lia.
Qed.

Lemma add_digit x y t :
  0 ≤ x < B → 0 ≤ y < B → 0 ≤ t < B →
  let T := u32 (t + (x + y)) in
  LHALF T + HHALF T * B = x + y + t ∧ 0 ≤ LHALF T < B ∧ 0 ≤ HHALF T < B.
Proof.
  intros Hx Hy Ht T. unfold T. rewrite B_eq in *. rewrite u32_id by lia. rewrite LHALF_eq, HHALF_eq, B_eq.
  pose proof (Z.div_mod (t + (x + y)) (2 ^ 16) ltac:(lia)). pose proof (Z.mod_pos_bound (t + (x + y)) (2 ^ 16) ltac:(lia)).
  lia.
Qed.

(** A read or a write of a digit, in range *)
Ltac in_arrays := first [apply dg_len; assumption | done | lia].
Ltac rd_step := erewrite bind_ok by (apply rd_ok; in_arrays).
Ltac wr_step := erewrite bind_ok by (apply wr_ok; in_arrays).

(** ** The loops D4 and D6 *)

(** The same digits outside the range from [a] to [b] *)
Definition same_outside (a b : Z) (l l' : list Z) : Prop :=
  ∀ k, 0 ≤ k → ¬ a ≤ k ≤ b → dg l' k = dg l k.

Section loops.
Variables (u v j : Z) (lv lq : list Z).
Hypotheses (Hlv : digits lv) (Hlq : length lq = 5%nat) (Hu : 0 ≤ u + j) (Hv : 0 ≤ v).

Lemma mulsub_ok qhat i lu t :
  digits lu → u + j + Z.of_nat i < 5 → v + Z.of_nat i < 5 → 0 ≤ qhat < B → 0 ≤ t < B →
  ∃ lu' t', mulsub u v j qhat i t (mk_qst lu lv lq) = Ok (t', mk_qst lu' lv lq) ∧ digits lu' ∧ 0 ≤ t' < B ∧
    same_outside (u + j + 1) (u + j + Z.of_nat i) lu lu' ∧
    val lu' (u + j + 1) i = val lu (u + j + 1) i - qhat * val lv (v + 1) i - t + t' * B ^ Z.of_nat i.
Proof using Hlv Hlq Hu Hv.
  intros Hlu Hi Hiv Hq. revert lu t Hlu. induction i as [|i IH]; intros lu t Hlu Ht.
  { exists lu, t. split_and!; try done; try lia. cbn. lia. }
  cbn [mulsub]. rd_step.
  rd_step. cbn [get_arr uspace vspace].
  set (x := dg lu (u + Z.of_nat (S i) + j)). set (y := dg lv (v + Z.of_nat (S i))).
  destruct (submul_digit x y qhat t (dg_range _ _ Hlu) (dg_range _ _ Hlv) Hq Ht) as (Hstep & Hlo & Ht').
  cbn zeta. set (T := u32 (x - u32 (y * qhat) - t)) in *.
  wr_step.
  cbn [put_arr get_arr uspace vspace qspace]. rewrite (digit_id (LHALF T)) by done.
  set (lu1 := <[_ := LHALF T]> lu).
  assert (digits lu1) as Hlu1 by (unfold lu1; rewrite <-(digit_id (LHALF T)) by done; by apply digits_insert).
  destruct (IH ltac:(lia) ltac:(lia) lu1 _ Hlu1 Ht') as (lu' & t' & Hrun & Hd & Htr & Hsame & Hval).
  exists lu', t'. rewrite Hrun. split_and!; try done; try lia.
  - intros k Hk Hout. rewrite Hsame by lia. unfold lu1. rewrite dg_insert by (lia || apply Hlu).
    by rewrite decide_False by lia.
  - cbn [val]. rewrite Hval.
    rewrite (val_ext lu lu1) by (intros k Hk; unfold lu1; rewrite dg_insert by (lia || apply Hlu);
      by rewrite decide_False by lia).
    replace (u + j + 1 + Z.of_nat i) with (u + Z.of_nat (S i) + j) by lia.
    replace (v + 1 + Z.of_nat i) with (v + Z.of_nat (S i)) by lia. fold x y.
    assert (dg lu' (u + Z.of_nat (S i) + j) = LHALF T) as ->.
    { rewrite Hsame by lia. unfold lu1. rewrite dg_insert by (lia || apply Hlu). by rewrite decide_True. }
    rewrite Nat2Z.inj_succ, Z.pow_succ_r by lia. lia.
Qed.

Lemma addback_ok i lu t :
  digits lu → u + j + Z.of_nat i < 5 → v + Z.of_nat i < 5 → 0 ≤ t < B →
  ∃ lu' t', addback u v j i t (mk_qst lu lv lq) = Ok (t', mk_qst lu' lv lq) ∧ digits lu' ∧ 0 ≤ t' < B ∧
    same_outside (u + j + 1) (u + j + Z.of_nat i) lu lu' ∧
    val lu' (u + j + 1) i = val lu (u + j + 1) i + val lv (v + 1) i + t - t' * B ^ Z.of_nat i.
Proof using Hlv Hlq Hu Hv.
  intros Hlu Hi Hiv. revert lu t Hlu. induction i as [|i IH]; intros lu t Hlu Ht.
  { exists lu, t. split_and!; try done; try lia. cbn. lia. }
  cbn [addback]. rd_step.
  rd_step. cbn [get_arr uspace vspace].
  set (x := dg lu (u + Z.of_nat (S i) + j)). set (y := dg lv (v + Z.of_nat (S i))).
  destruct (add_digit x y t (dg_range _ _ Hlu) (dg_range _ _ Hlv) Ht) as (Hstep & Hlo & Ht').
  cbn zeta. set (T := u32 (t + (x + y))) in *.
  wr_step.
  cbn [put_arr get_arr uspace vspace qspace]. rewrite (digit_id (LHALF T)) by done.
  set (lu1 := <[_ := LHALF T]> lu).
  assert (digits lu1) as Hlu1 by (unfold lu1; rewrite <-(digit_id (LHALF T)) by done; by apply digits_insert).
  destruct (IH ltac:(lia) ltac:(lia) lu1 _ Hlu1 Ht') as (lu' & t' & Hrun & Hd & Htr & Hsame & Hval).
  exists lu', t'. rewrite Hrun. split_and!; try done; try lia.
  - intros k Hk Hout. rewrite Hsame by lia. unfold lu1. rewrite dg_insert by (lia || apply Hlu).
    by rewrite decide_False by lia.
  - cbn [val]. rewrite Hval.
    rewrite (val_ext lu lu1) by (intros k Hk; unfold lu1; rewrite dg_insert by (lia || apply Hlu);
      by rewrite decide_False by lia).
    replace (u + j + 1 + Z.of_nat i) with (u + Z.of_nat (S i) + j) by lia.
    replace (v + 1 + Z.of_nat i) with (v + Z.of_nat (S i)) by lia. fold x y.
    assert (dg lu' (u + Z.of_nat (S i) + j) = LHALF T) as ->.
    { rewrite Hsame by lia. unfold lu1. rewrite dg_insert by (lia || apply Hlu). by rewrite decide_True. }
    rewrite Nat2Z.inj_succ, Z.pow_succ_r by lia. lia.
Qed.
End loops.

(** ** The estimate of a quotient digit (Knuth, 4.3.1, theorems A and B) *)

Lemma COMBINE_eq a b : 0 ≤ a < B → 0 ≤ b < B → COMBINE a b = a * B + b.
Proof.
  intros Ha Hb. unfold COMBINE, HALF_BITS. rewrite Z.shiftl_mul_pow2 by lia. rewrite B_eq in *.
  rewrite u32_id by lia. by apply lor_add.
Qed.

Section estimate.
Variables (v1 v2 uj0 uj1 uj2 W u' v' : Z).
Hypotheses (Hv1 : 2 ^ 15 ≤ v1 < B) (Hv2 : 0 ≤ v2 < B).
Hypotheses (Hu0 : 0 ≤ uj0 < B) (Hu1 : 0 ≤ uj1 < B) (Hu2 : 0 ≤ uj2 < B).
Hypotheses (HW : 0 < W) (Hu' : 0 ≤ u' < W) (Hv' : 0 ≤ v' < W).

(** The part of the dividend and the divisor *)
Let un := ((uj0 * B + uj1) * B + uj2) * W + u'.
Let vn := (v1 * B + v2) * W + v'.
Hypothesis Hlt : un < vn * B.

(** [qhat] and [rhat] during the loop: the quotient digit is at most [qhat]. *)
Definition est_inv (qhat rhat : Z) : Prop :=
  0 ≤ qhat ≤ B ∧ 0 ≤ rhat ∧ qhat * v1 + rhat = uj0 * B + uj1 ∧ un < (qhat + 1) * vn.

(** What the estimate is good for *)
Definition est_ok (qhat : Z) : Prop :=
  0 ≤ qhat < B ∧ un < (qhat + 1) * vn ∧ (qhat - 1) * vn ≤ un.

Lemma est_decrease qhat rhat :
  est_inv qhat rhat → rhat * B + uj2 < v2 * qhat ∨ qhat = B → est_inv (qhat - 1) (rhat + v1).
Proof using Hv1 Hv2 HW Hu' Hv' Hlt Hu0 Hu1 Hu2.
  intros (Hq & Hr & Heq & Hup) Hbig. rewrite B_eq in *. unfold est_inv. rewrite B_eq.
  assert (un < qhat * vn) as Hlt'.
  { destruct Hbig as [Hbig| ->]; [|lia].
    assert ((uj0 * 2 ^ 16 + uj1) * 2 ^ 16 + uj2 + 1 ≤ qhat * (v1 * 2 ^ 16 + v2)) by (rewrite <-Heq; nia).
    assert (un < ((uj0 * 2 ^ 16 + uj1) * 2 ^ 16 + uj2 + 1) * W) by (unfold un; rewrite B_eq; lia).
    assert (qhat * (v1 * 2 ^ 16 + v2) * W ≤ qhat * vn) by (unfold vn; rewrite B_eq; nia).
    assert (((uj0 * 2 ^ 16 + uj1) * 2 ^ 16 + uj2 + 1) * W ≤ qhat * (v1 * 2 ^ 16 + v2) * W)
      by (apply Z.mul_le_mono_nonneg_r; lia). lia. }
  assert (0 ≤ un) by (unfold un; rewrite B_eq; nia).
  assert (qhat ≠ 0) by (intros ->; lia).
  split_and!; [lia|lia|lia|lia|]. replace (qhat - 1 + 1) with qhat by lia. done.
Qed.

Lemma est_exit qhat rhat :
  est_inv qhat rhat → qhat < B → v2 * qhat ≤ rhat * B + uj2 ∨ B ≤ rhat → est_ok qhat.
Proof using Hv1 Hv2 HW Hu' Hv' Hlt Hu0 Hu1 Hu2.
  intros (Hq & Hr & Heq & Hup) HqB Hsmall. rewrite B_eq in *. split; [rewrite B_eq; lia|]. split; [done|].
  assert (v2 * qhat ≤ rhat * 2 ^ 16 + uj2) as Hle.
  { destruct Hsmall as [|Hbig]; [done|]. assert (v2 * qhat ≤ (2 ^ 16 - 1) * (2 ^ 16 - 1)) by nia. lia. }
  assert (qhat * (v1 * 2 ^ 16 + v2) ≤ (uj0 * 2 ^ 16 + uj1) * 2 ^ 16 + uj2) as H1 by (rewrite <-Heq; nia).
  assert (qhat * (v1 * 2 ^ 16 + v2) * W ≤ un) as H2.
  { unfold un. rewrite B_eq. apply Z.le_trans with (((uj0 * 2 ^ 16 + uj1) * 2 ^ 16 + uj2) * W); [|lia].
    apply Z.mul_le_mono_nonneg_r; lia. }
  assert (qhat * vn = qhat * (v1 * 2 ^ 16 + v2) * W + qhat * v') as H3 by (unfold vn; rewrite B_eq; ring).
  assert (qhat * v' ≤ 2 ^ 16 * W) by nia.
  assert (2 ^ 16 * W ≤ vn) by (unfold vn; rewrite B_eq; nia). lia.
Qed.

Lemma correct_ok qhat rhat s :
  est_inv qhat rhat → qhat < B → rhat < B →
  wp (correct v1 v2 uj2 (qhat, rhat)) (λ r s', s' = s ∧ est_ok r) s.
Proof using Hv1 Hv2 HW Hu' Hv' Hlt Hu0 Hu1 Hu2.
  intros Hinv Hq Hr. unfold correct.
  apply (wp_while _ (λ st s', s' = s ∧ est_inv st.1 st.2 ∧ st.1 < B ∧ st.2 < B) (λ st _, st.1)).
  - done.
  - intros [q r] s' (_ & (? & _) & _). cbn in *. lia.
  - rewrite B_eq in Hq. cbn. lia.
  - intros [q r] s' (-> & Hi & Hq' & Hr'). cbn [fst snd] in *. pose proof Hi as (Hi1 & Hi2 & _).
    assert (0 ≤ v2 * q < 2 ^ 32) by (rewrite B_eq in *; nia).
    rewrite COMBINE_eq by done. rewrite u32_id by done.
    destruct (Z.ltb_spec (r * B + uj2) (v2 * q)) as [Hbig|Hsmall].
    + apply wp_ret. assert (0 < q) by (assert (q ≠ 0); [intros ->; rewrite B_eq in *; lia|lia]).
      pose proof (est_decrease q r Hi (or_introl Hbig)) as Hdec; pose proof Hdec as (H1 & H2 & H3 & H4).
      unfold too_big. rewrite !u32_id by (rewrite B_eq in *; lia).
      destruct (Z.leb_spec B (r + v1)).
      * split; [done|]. apply (est_exit (q - 1) (r + v1)); [exact Hdec|lia|by right].
      * split; [|cbn; lia]. split; [done|]. cbn. split; [exact Hdec|lia].
    + apply wp_ret. split; [done|]. apply (est_exit q r); [done|done|by left].
Qed.

Lemma estimate_ok s : wp (estimate v1 v2 uj0 uj1 uj2) (λ qhat s', s' = s ∧ est_ok qhat) s.
Proof using Hv1 Hv2 HW Hu' Hv' Hlt Hu0 Hu1 Hu2.
  unfold estimate. destruct (Z.eqb_spec uj0 v1) as [E|E].
  - assert (est_inv B uj1) as Hi.
    { assert (0 ≤ vn) by (unfold vn; rewrite B_eq in *; nia).
      unfold est_inv. split_and!; [rewrite B_eq; lia|lia|lia|rewrite E; ring|lia]. }
    pose proof (est_decrease B uj1 Hi (or_intror eq_refl)) as Hdec; pose proof Hdec as (H1 & H2 & H3 & H4).
    unfold too_big. rewrite !u32_id by (rewrite B_eq in *; lia).
    destruct (Z.leb_spec B (uj1 + v1)).
    + apply wp_ret. split; [done|]. apply (est_exit (B - 1) (uj1 + v1)); [exact Hdec|lia|by right].
    + apply correct_ok; [exact Hdec|lia|done].
  - assert (0 < v1) by lia. rewrite (proj2 (Z.eqb_neq v1 0)) by lia. rewrite COMBINE_eq by done.
    set (nn := uj0 * B + uj1). pose proof (Z.div_mod nn v1 ltac:(lia)) as Hd.
    pose proof (Z.mod_pos_bound nn v1 ltac:(lia)) as Hm.
    assert (uj0 < v1) as Hlt0.
    { destruct (decide (uj0 < v1)); [done|]. assert (v1 + 1 ≤ uj0) by lia.
      assert ((v1 + 1) * B * B * W ≤ un) by (unfold un; rewrite B_eq in *; nia).
      assert (vn * B ≤ (v1 + 1) * B * W * B) by (unfold vn; rewrite B_eq in *; nia). lia. }
    assert (0 ≤ nn / v1 < B) as Hr.
    { split; [apply Z.div_pos; unfold nn; rewrite B_eq in *; lia|]. apply Z.div_lt_upper_bound; [lia|].
      unfold nn. rewrite B_eq in *. nia. }
    apply correct_ok; [|lia|lia]. unfold est_inv. split_and!; [lia|lia|lia|unfold nn in *; lia|].
    assert (nn + 1 ≤ (nn / v1 + 1) * v1) by lia.
    assert (un < (nn + 1) * B * W) by (unfold un, nn; rewrite B_eq in *; nia).
    assert ((nn + 1) * B * W ≤ (nn / v1 + 1) * v1 * B * W).
    { do 2 (apply Z.mul_le_mono_nonneg_r; [rewrite ?B_eq; lia|]). lia. }
    assert ((nn / v1 + 1) * v1 * B * W ≤ (nn / v1 + 1) * vn); [|lia].
    rewrite <-!Z.mul_assoc. apply Z.mul_le_mono_nonneg_l; [lia|]. unfold vn. rewrite B_eq in *. nia.
Qed.
End estimate.

(** ** One quotient digit *)

Lemma LHALF_range x : 0 ≤ LHALF x < B.
Proof. rewrite LHALF_eq, B_eq. by apply Z.mod_pos_bound. Qed.

Lemma digits_put l i x : digits l → digits (<[i := LHALF x]> l).
Proof. intros H. rewrite <-(digit_id (LHALF x)) by apply LHALF_range. by apply digits_insert. Qed.

(** A digit put in front of [k] digits *)
Lemma val_put l i x k :
  digits l → 0 ≤ i < 5 →
  val (<[Z.to_nat i := x]> l) i (S k) = x * B ^ Z.of_nat k + val l (i + 1) k.
Proof.
  intros Hl Hi. rewrite val_cons, dg_insert, decide_True by (lia || apply Hl || done). f_equal.
  apply val_ext. intros p Hp. rewrite dg_insert, decide_False by (lia || apply Hl). done.
Qed.


Lemma turn_digit x t :
  0 ≤ x < B → 0 ≤ t < B →
  let T := u32 (x - t) in
  (t ≤ x → HHALF T = 0 ∧ LHALF T = x - t) ∧ (x - t = -1 → HHALF T ≠ 0 ∧ LHALF T = B - 1) ∧ (x < t → HHALF T ≠ 0).
Proof.
  intros Hx Ht T. unfold T. rewrite B_eq in *. rewrite LHALF_eq, HHALF_eq, B_eq. split_and!.
  - intros H. rewrite u32_id by lia. rewrite Z.div_small, Z.mod_small by lia. done.
  - intros ->. done.
  - intros H. assert (u32 (x - t) = x - t + 2 ^ 32) as -> by (unfold u32; symmetry; apply (Z.mod_unique _ _ (-1)); lia).
    intros H0. apply Z.div_small_iff in H0; lia.
Qed.

Lemma divmod_unique U V q r : 0 ≤ r < V → U = V * q + r → U / V = q ∧ U `mod` V = r.
Proof. intros Hr HU. split; symmetry; [by apply (Z.div_unique _ _ _ r); [left|]|by apply (Z.mod_unique _ _ q); [left|]]. Qed.

Section turn.
Variables (u v q : Z) (k : nat) (lv : list Z).
Let n : nat := S (S k).
Hypotheses (Hlv : digits lv) (Hv : 0 ≤ v) (Hvn : v + Z.of_nat n < 5).
Let vn := val lv (v + 1) n.
Hypothesis Hnorm : 2 ^ 15 ≤ dg lv (v + 1).

Lemma vn_eq : vn = (dg lv (v + 1) * B + dg lv (v + 2)) * B ^ Z.of_nat k + val lv (v + 3) k.
Proof.
  unfold vn, n. rewrite !val_cons, Nat2Z.inj_succ, Z.pow_succ_r by lia.
  replace (v + 1 + 1) with (v + 2) by lia. replace (v + 2 + 1) with (v + 3) by lia. ring.
Qed.

Lemma un_eq l a : val l a (S n) =
  ((dg l a * B + dg l (a + 1)) * B + dg l (a + 2)) * B ^ Z.of_nat k + val l (a + 3) k.
Proof.
  unfold n. rewrite !val_cons, !Nat2Z.inj_succ, !Z.pow_succ_r by lia.
  replace (a + 1 + 1) with (a + 2) by lia. replace (a + 2 + 1) with (a + 3) by lia. ring.
Qed.

Lemma turn_ok lu lq j :
  digits lu → length lq = 5%nat → 0 ≤ u + j → u + j + Z.of_nat n < 5 → 0 ≤ q + j < 5 →
  val lu (u + j) (S n) < vn * B →
  ∃ lu', turn u v q (Z.of_nat n) (dg lv (v + 1)) (dg lv (v + 2)) j (mk_qst lu lv lq)
      = Ok (tt, mk_qst lu' lv (<[Z.to_nat (q + j) := val lu (u + j) (S n) / vn]> lq)) ∧ digits lu' ∧
    same_outside (u + j) (u + j + Z.of_nat n) lu lu' ∧
    val lu' (u + j) (S n) = val lu (u + j) (S n) `mod` vn.
Proof using Hlv Hv Hvn Hnorm.
  intros Hlu Hlq Huj Hujn Hqj Hlt. unfold turn. assert (Z.of_nat n = Z.of_nat k + 2) as Hn by (unfold n; lia).
  do 3 rd_step. cbn [get_arr uspace].
  pose proof (estimate_ok (dg lv (v + 1)) (dg lv (v + 2)) (dg lu (u + j)) (dg lu (u + j + 1)) (dg lu (u + j + 2))
    (B ^ Z.of_nat k) (val lu (u + j + 3) k) (val lv (v + 3) k)) as Hest.
  specialize (Hest (conj Hnorm (proj2 (dg_range _ _ Hlv))) (dg_range _ _ Hlv) (dg_range _ _ Hlu)
    (dg_range _ _ Hlu) (dg_range _ _ Hlu) ltac:(apply Z.pow_pos_nonneg; rewrite ?B_eq; lia)
    (val_range _ _ _ Hlu) (val_range _ _ _ Hlv)).
  unfold est_ok in Hest. rewrite <-un_eq, <-vn_eq in Hest.
  specialize (Hest Hlt (mk_qst lu lv lq)). apply wp_run in Hest as (qhat & ? & Hrun & -> & Hq & Hup & Hdn).
  run_with Hrun. clear Hrun.
  destruct (mulsub_ok u v j lv lq Hlv Hlq Huj Hv qhat n lu 0) as (l1 & t & Hrun & Hl1 & Ht & Hs1 & Hv1);
    [done|done|done|done|rewrite B_eq; lia|].
  rewrite Nat2Z.id. run_with Hrun. clear Hrun. rd_step. cbn [get_arr uspace].
  rewrite Hs1 by lia. set (x := dg lu (u + j)) in *.
  destruct (turn_digit x t (dg_range _ _ Hlu) Ht) as (Hge & Hm1 & Hlt').
  set (T := u32 (x - t)) in *. wr_step. cbn [put_arr get_arr uspace vspace qspace].
  rewrite (digit_id (LHALF T)) by apply LHALF_range.
  pose proof (val_range l1 (u + j + 1) n Hl1) as Ha. pose proof (val_range lv (v + 1) n Hlv) as HV. fold vn in HV, Hv1.
  pose proof (proj1 (val_range lu (u + j) (S n) Hlu)) as Hun0.
  rewrite val_cons in Hlt, Hup, Hdn, Hun0 |- *. fold x in Hlt, Hup, Hdn, Hun0 |- *. set (P := B ^ Z.of_nat n) in *.
  set (un := x * P + val lu (u + j + 1) n) in *.
  assert (un - qhat * vn = (x - t) * P + val l1 (u + j + 1) n) as Hdiff by (unfold un; lia).
  set (l2 := <[Z.to_nat (u + j) := LHALF T]> l1).
  assert (digits l2) as Hl2 by by apply digits_put.
  destruct (decide (t ≤ x)) as [Hc|Hc].
  - destruct (Hge Hc) as [-> HT]. cbn [negb Z.eqb]. mred. rewrite wr_ok by in_arrays.
    cbn [put_arr get_arr uspace vspace qspace]. rewrite digit_id by done.
    destruct (divmod_unique un vn qhat (un - qhat * vn)) as [-> ->]; [split; nia|lia|].
    exists l2. split; [done|]. split; [done|]. split.
    + intros p Hp Hout. unfold l2. rewrite dg_insert, decide_False by (lia || apply Hl1). apply Hs1; lia.
    + unfold l2. rewrite val_put by (done || lia). rewrite HT. fold P. lia.
  - assert (x - t = -1) as Hx by nia. destruct (Hm1 Hx) as [Hh HT]. rewrite (proj2 (Z.eqb_neq _ _)) by done. cbn [negb].
    destruct (addback_ok u v j lv lq Hlv Hlq Huj Hv n l2 0) as (l3 & c & Hrun & Hl3 & Hcr & Hs3 & Hv3);
      [done|done|done|rewrite B_eq; lia|].
    fold vn P in Hv3.
    rewrite (val_ext l1 l2) in Hv3
      by (intros p Hp; unfold l2; rewrite dg_insert, decide_False by (lia || apply Hl1); done).
    pose proof (val_range l3 (u + j + 1) n Hl3) as Ha3. fold P in Ha, Ha3, HV. assert (c = 1) as -> by nia.
    rewrite bind_assoc. run_with Hrun. rewrite bind_assoc. rd_step. rewrite bind_assoc. cbn [get_arr uspace].
    rewrite Hs3 by lia. unfold l2 at 1. rewrite dg_insert, decide_True by (lia || apply Hl1 || done). rewrite HT.
    replace (u32 (B - 1 + 1)) with (2 ^ 16) by (rewrite B_eq; done). wr_step.
    cbn [put_arr get_arr uspace vspace qspace]. mred. rewrite wr_ok by (first [by rewrite length_insert, (dg_len _ Hl3)|in_arrays]).
    cbn [put_arr get_arr uspace vspace qspace].
    assert (1 ≤ qhat) by nia. rewrite (u32_id (qhat - 1)) by (rewrite B_eq in Hq; lia). rewrite (digit_id (qhat - 1)) by lia.
    destruct (divmod_unique un vn (qhat - 1) (un - (qhat - 1) * vn)) as [-> ->]; [split; nia|lia|].
    eexists. split; [done|]. change (LHALF (2 ^ 16)) with 0. change (digit 0) with 0.
    split; [apply (digits_insert _ _ 0 Hl3)|]. split.
    + intros p Hp Hout. rewrite dg_insert, decide_False by (lia || apply Hl3). rewrite Hs3 by lia.
      unfold l2. rewrite dg_insert, decide_False by (lia || apply Hl1). apply Hs1; lia.
    + rewrite val_put by (done || lia). lia.
Qed.
End turn.

(** ** Parts of a number *)

Lemma val_app l a i k : val l a (i + k) = val l a i * B ^ Z.of_nat k + val l (a + Z.of_nat i) k.
Proof.
  induction k as [|k IH]; [rewrite Nat.add_0_r; cbn; lia|].
  replace (i + S k)%nat with (S (i + k)) by lia. cbn [val]. rewrite IH.
  replace (a + Z.of_nat (i + k)) with (a + Z.of_nat i + Z.of_nat k) by lia.
  rewrite Nat2Z.inj_succ, Z.pow_succ_r by lia. lia.
Qed.

Lemma val_zero l a k : (∀ i, a ≤ i < a + Z.of_nat k → dg l i = 0) → val l a k = 0.
Proof.
  induction k as [|k IH]; intros H; [done|]. cbn [val]. rewrite IH by (intros; apply H; lia).
  by rewrite H by lia.
Qed.

Lemma val_skip l a i k :
  (∀ p, a ≤ p < a + Z.of_nat i → dg l p = 0) → val l a (i + k) = val l (a + Z.of_nat i) k.
Proof. intros H. by rewrite val_app, (val_zero l a i) by done. Qed.

Lemma B_pow k : 0 < B ^ Z.of_nat k.
Proof. rewrite B_eq. apply Z.pow_pos_nonneg; lia. Qed.

(** A number below [B ^ k] is in its last [k] digits. *)
Lemma val_small l a i k : digits l → val l a (i + k) < B ^ Z.of_nat k →
  val l a i = 0 ∧ val l a (i + k) = val l (a + Z.of_nat i) k.
Proof.
  intros Hl. rewrite val_app. pose proof (val_range l a i Hl). pose proof (val_range l (a + Z.of_nat i) k Hl).
  intros H1. assert (val l a i = 0) as -> by nia. lia.
Qed.

Lemma val_zero_inv l a k : digits l → val l a k = 0 → ∀ i, a ≤ i < a + Z.of_nat k → dg l i = 0.
Proof.
  intros Hl. induction k as [|k IH]; intros H i Hi; [lia|]. cbn [val] in H.
  pose proof (val_range l a k Hl). pose proof (dg_range l (a + Z.of_nat k) Hl). rewrite B_eq in H.
  destruct (decide (i = a + Z.of_nat k)) as [->|]; [lia|]. apply IH; lia.
Qed.

(** ** The loop on the quotient digits *)

Section digits_loop.
Variables (u v q : Z) (k : nat) (lv : list Z).
Let n : nat := S (S k).
Hypotheses (Hlv : digits lv) (Hv : 0 ≤ v) (Hvn : v + Z.of_nat n < 5) (Hu : 0 ≤ u) (Hq : 0 ≤ q).
Let vn := val lv (v + 1) n.
Hypothesis Hnorm : 2 ^ 15 ≤ dg lv (v + 1).

Lemma vn_pos : 0 < vn < B ^ Z.of_nat n.
Proof using Hlv Hnorm.
  split; [|apply val_range, Hlv]. unfold vn, n. rewrite val_cons. pose proof (val_range lv (v + 1 + 1) (S k) Hlv).
  pose proof (B_pow (S k)). nia.
Qed.

(** After [t] turns: the first [t] digits of the quotient, and the remainder
    in place of the dividend's first [n + t] digits *)
Definition turns_inv (lu0 lq0 : list Z) (t : Z) (s : qst) : Prop :=
  ∃ lu lq, s = mk_qst lu lv lq ∧ digits lu ∧ digits lq ∧
    let j := Z.to_nat t in
    val lu0 u (j + n) = val lq q j * vn + val lu u (j + n) ∧ val lu u (j + n) < vn ∧
    (∀ i, 0 ≤ i → i < u ∨ u + t + Z.of_nat n ≤ i → dg lu i = dg lu0 i) ∧ (∀ i, 0 ≤ i < q → dg lq i = dg lq0 i).

Lemma turns_step lu0 lq0 m t s :
  u + m + Z.of_nat n < 5 → q + m < 5 → 0 ≤ t ≤ m → turns_inv lu0 lq0 t s →
  wp (turn u v q (Z.of_nat n) (dg lv (v + 1)) (dg lv (v + 2)) t) (λ _, turns_inv lu0 lq0 (t + 1)) s.
Proof using Hlv Hv Hvn Hu Hq Hnorm.
  intros Hm Hqm Ht (lu & lq & -> & Hlu & Hlq & Hval & Hlt & Hrest & Hq0). pose proof vn_pos as Hvn0.
  set (j := Z.to_nat t) in *. assert (Z.of_nat j = t) as Hj by lia.
  destruct (val_small lu u j n) as [Hz Hr]; [done|lia|]. rewrite Hj in Hr.
  pose proof (dg_range lu (u + t + Z.of_nat n) Hlu) as Hd.
  assert (val lu (u + t) (S n) = val lu u (j + n) * B + dg lu (u + t + Z.of_nat n)) as Hseg by (cbn [val]; by rewrite Hr).
  assert (val lu (u + t) (S n) < vn * B) as Hlt' by (rewrite Hseg, B_eq in *; nia).
  assert (0 ≤ val lu (u + t) (S n) / vn < B) as Hqd.
  { split; [apply Z.div_pos; [apply val_range, Hlu|lia]|apply Z.div_lt_upper_bound; lia]. }
  destruct (turn_ok u v q k lv Hlv Hv Hvn Hnorm lu lq t) as (lu' & Hrun & Hlu' & Hs & Hval');
    [done|apply Hlq|lia|lia|lia|done|].
  fold n vn in Hrun, Hs, Hval'. rewrite (wp_eq _ _ _ _ _ Hrun). pose proof (Z.mod_pos_bound (val lu (u + t) (S n)) vn ltac:(lia)).
  exists lu', (<[Z.to_nat (q + t) := val lu (u + t) (S n) / vn]> lq). split; [done|]. split; [done|].
  split; [rewrite <-(digit_id (_ / _)) by done; by apply digits_insert|].
  replace (Z.to_nat (t + 1)) with (S j) by lia. cbn zeta.
  assert (val lu' u (S j + n) = val lu (u + t) (S n) `mod` vn) as Hnew.
  { replace (S j + n)%nat with (j + S n)%nat by lia. rewrite val_app, Hj, <-Hval'.
    rewrite (val_ext lu lu') by (intros; apply Hs; lia). lia. }
  rewrite Hnew. set (un := val lu (u + t) (S n)) in *. split_and!.
  - replace (S j + n)%nat with (S (j + n)) by lia. cbn [val]. rewrite Hval, <-Hrest by lia.
    replace (u + Z.of_nat (j + n)) with (u + t + Z.of_nat n) by lia.
    rewrite (val_ext lq (<[_ := _]> lq)) by (intros; rewrite dg_insert, decide_False by (lia || apply Hlq); done).
    rewrite Hj, dg_insert, decide_True by (lia || apply Hlq || done).
    pose proof (Z.div_mod un vn ltac:(lia)). lia.
  - lia.
  - intros i Hi Hout. rewrite Hs by lia. apply Hrest; lia.
  - intros i Hi. rewrite dg_insert, decide_False by (lia || apply Hlq). by apply Hq0.
Qed.
End digits_loop.

(** ** Shifts *)

(** Digit [i] of a number shifted left by [s] bits *)
Definition sd (l : list Z) (i s : Z) : Z := (dg l i * 2 ^ s) `mod` B + dg l (i + 1) / 2 ^ (16 - s).

Lemma sd_range l i s : digits l → 0 ≤ s ≤ 16 → 0 ≤ dg l (i + 1) / 2 ^ (16 - s) < 2 ^ s ∧ 0 ≤ sd l i s < B.
Proof.
  intros Hl Hs. pose proof (dg_range l (i + 1) Hl) as Hd. unfold sd. rewrite B_eq in *.
  assert (2 ^ 16 = 2 ^ s * 2 ^ (16 - s)) as HB by (rewrite <-Z.pow_add_r by lia; f_equal; lia).
  assert (0 < 2 ^ s ∧ 0 < 2 ^ (16 - s)) by (split; apply Z.pow_pos_nonneg; lia).
  assert (0 ≤ dg l (i + 1) / 2 ^ (16 - s) < 2 ^ s) as Hy.
  { split; [apply Z.div_pos; lia|apply Z.div_lt_upper_bound; lia]. }
  split; [done|]. rewrite HB, Z.mul_comm, Zmult_mod_distr_l.
  pose proof (Z.mod_pos_bound (dg l i) (2 ^ (16 - s)) ltac:(lia)). nia.
Qed.

Lemma mod_snoc a b k : 0 ≤ b < B → (a `mod` B ^ Z.of_nat k) * B + b = (a * B + b) `mod` B ^ Z.of_nat (S k).
Proof.
  intros Hb. pose proof (B_pow k). rewrite Nat2Z.inj_succ, Z.pow_succ_r by lia. set (P := B ^ Z.of_nat k) in *.
  pose proof (Z.mod_pos_bound a P ltac:(lia)). apply (Z.mod_unique _ _ (a / P)); [left; nia|].
  pose proof (Z.div_mod a P ltac:(lia)). nia.
Qed.

Lemma val_low l a k s : 0 ≤ s → (val l a (S k) * 2 ^ s) `mod` B = (dg l (a + Z.of_nat k) * 2 ^ s) `mod` B.
Proof.
  intros Hs. cbn [val]. replace ((val l a k * B + dg l (a + Z.of_nat k)) * 2 ^ s)
    with (dg l (a + Z.of_nat k) * 2 ^ s + val l a k * 2 ^ s * B) by ring.
  apply Z_mod_plus_full.
Qed.

(** The value of shifted digits *)
Lemma val_shift l l' a b k s :
  digits l → 0 ≤ s ≤ 16 → (∀ i, 0 ≤ i < Z.of_nat k → dg l' (b + i) = sd l (a + i) s) →
  val l' b k = (val l a (S k) * 2 ^ s / B) `mod` B ^ Z.of_nat k.
Proof.
  intros Hl Hs. induction k as [|k IH]; intros Hd; [by rewrite Z.mod_1_r|].
  change (val l' b (S k)) with (val l' b k * B + dg l' (b + Z.of_nat k)).
  rewrite IH by (intros; apply Hd; lia). rewrite Hd by lia. rewrite mod_snoc by (apply sd_range; done || lia). f_equal.
  change (val l a (S (S k))) with (val l a (S k) * B + dg l (a + Z.of_nat (S k))). unfold sd. rewrite <-val_low by lia.
  replace (a + Z.of_nat (S k)) with (a + Z.of_nat k + 1) by lia. set (X := val l a (S k)). set (y := dg l (a + Z.of_nat k + 1)).
  rewrite B_eq. replace ((X * 2 ^ 16 + y) * 2 ^ s) with (X * 2 ^ s * 2 ^ 16 + y * 2 ^ s) by ring.
  rewrite Z.div_add_l by done. assert (y * 2 ^ s / 2 ^ 16 = y / 2 ^ (16 - s)) as ->.
  { replace (2 ^ 16) with (2 ^ (16 - s) * 2 ^ s) by (rewrite <-Z.pow_add_r by lia; f_equal; lia).
    rewrite Z.div_mul_cancel_r; [done| |]; apply Z.pow_nonzero; lia. }
  pose proof (Z.div_mod (X * 2 ^ s) (2 ^ 16) ltac:(done)). lia.
Qed.

Lemma LHALF_shl x s : 0 ≤ x < B → 0 ≤ s ≤ 16 → LHALF (u32 (Z.shiftl x s)) = (x * 2 ^ s) `mod` B.
Proof.
  intros Hx Hs. rewrite B_eq in *. rewrite Z.shiftl_mul_pow2 by lia.
  assert (2 ^ s ≤ 2 ^ 16) by (apply Z.pow_le_mono_r; lia). assert (0 < 2 ^ s) by (apply Z.pow_pos_nonneg; lia).
  rewrite u32_id by nia. by rewrite LHALF_eq, B_eq.
Qed.

Lemma sd_lor l i s : digits l → 0 ≤ s ≤ 16 →
  digit (Z.lor (LHALF (u32 (Z.shiftl (dg l i) s))) (Z.shiftr (dg l (i + 1)) (HALF_BITS - s))) = sd l i s.
Proof.
  intros Hl Hs. change HALF_BITS with 16. destruct (sd_range l i s Hl Hs) as [Hy Hr].
  rewrite LHALF_shl by (done || apply dg_range, Hl). rewrite Z.shiftr_div_pow2 by lia.
  rewrite <-(digit_id (sd l i s)) by done. f_equal. unfold sd.
  assert (((dg l i * 2 ^ s) `mod` B) = (dg l i `mod` 2 ^ (16 - s)) * 2 ^ s) as ->.
  { rewrite B_eq. replace (2 ^ 16) with (2 ^ s * 2 ^ (16 - s)) by (rewrite <-Z.pow_add_r by lia; f_equal; lia).
    rewrite (Z.mul_comm (dg l i)), Zmult_mod_distr_l. lia. }
  apply lor_add; [lia|done].
Qed.

Lemma rd_get a i s : length (get_arr a s) = 5%nat → 0 ≤ i < 5 → rd a i s = Ok (dg (get_arr a s) i, s).
Proof.
  intros Hl Hi. unfold rd. mred. rewrite (proj2 (Z.leb_le _ _)) by lia. unfold dg.
  by destruct (lookup_lt_is_Some_2 (get_arr a s) (Z.to_nat i)) as [x ->]; [lia|].
Qed.
Lemma wr_put a i x s : length (get_arr a s) = 5%nat → 0 ≤ i < 5 →
  wr a i x s = Ok (tt, put_arr a (<[Z.to_nat i := digit x]> (get_arr a s)) s).
Proof. intros Hl Hi. unfold wr. mred. by rewrite decide_True by lia. Qed.
Lemma get_put a l s : get_arr a (put_arr a l s) = l.
Proof. by destruct a. Qed.
Lemma put_put a l l' s : put_arr a l (put_arr a l' s) = put_arr a l s.
Proof. by destruct a. Qed.
Lemma put_get a s : put_arr a (get_arr a s) s = s.
Proof. by destruct a, s. Qed.

(** One turn of a shift loop: digit [i] of [l'] is replaced by digit [p] of the
    shifted [l], where the digits [l'] is read at are those of [l]. *)
Lemma sd_put l l' i p s : digits l → digits l' → 0 ≤ s ≤ 16 → 0 ≤ i < 5 →
  digits (<[Z.to_nat i := sd l p s]> l') ∧
  ∀ k, 0 ≤ k → dg (<[Z.to_nat i := sd l p s]> l') k = if decide (k = i) then sd l p s else dg l' k.
Proof.
  intros Hl Hl' Hs Hi. split; [|intros k Hk; by apply dg_insert; [apply Hl'|..]].
  rewrite <-(digit_id (sd l p s)) by by apply sd_range. by apply digits_insert.
Qed.

Lemma shl_ok a at_ len sh s :
  digits (get_arr a s) → 0 ≤ at_ → 0 ≤ len → at_ + len < 5 → 0 ≤ sh ≤ 16 →
  let l := get_arr a s in
  ∃ l', shl a at_ len sh s = Ok (tt, put_arr a l' s) ∧ digits l' ∧ same_outside at_ (at_ + len) l l' ∧
    (∀ i, 0 ≤ i < len → dg l' (at_ + i) = sd l (at_ + i) sh) ∧
    val l' at_ (S (Z.to_nat len)) = (val l at_ (S (Z.to_nat len)) * 2 ^ sh) `mod` B ^ (len + 1).
Proof.
  intros Hl Hat Hlen Hb Hsh l. unfold shl.
  assert (wp (for_list (seqZ 0 len) (λ i,
    x ← rd a (at_ + i); y ← rd a (at_ + i + 1);
    wr a (at_ + i) (Z.lor (LHALF (u32 (Z.shiftl x sh))) (Z.shiftr y (HALF_BITS - sh)))))
    (λ _ s', ∃ l', s' = put_arr a l' s ∧ digits l' ∧
      ∀ i, 0 ≤ i → dg l' i = if decide (at_ ≤ i < at_ + len) then sd l i sh else dg l i) s) as Hloop.
  { apply (wp_for_seqZ _ _ (λ t s', ∃ l', s' = put_arr a l' s ∧ digits l' ∧
      ∀ i, 0 ≤ i → dg l' i = if decide (at_ ≤ i < at_ + t) then sd l i sh else dg l i)); [done| |].
    - exists l. split; [unfold l; by rewrite put_get|]. split; [done|]. intros i Hi. by rewrite decide_False by lia.
    - intros t s' Ht (l' & -> & Hl' & Hd).
      apply wp_bind. erewrite wp_eq by (apply rd_get; rewrite ?get_put; [apply Hl'|lia]).
      apply wp_bind. erewrite wp_eq by (apply rd_get; rewrite ?get_put; [apply Hl'|lia]).
      erewrite wp_eq by (apply wr_put; rewrite ?get_put; [apply Hl'|lia]). rewrite get_put, put_put.
      rewrite !Hd, !decide_False by lia. rewrite sd_lor by done.
      destruct (sd_put l l' (at_ + t) (at_ + t) sh) as [Hdig Hk]; [done|done|done|lia|].
      eexists. split; [done|]. split; [done|]. intros i Hi. rewrite Hk, Hd by done. repeat case_decide; subst; done || lia. }
  apply wp_run in Hloop as ([] & s' & Hrun & l1 & -> & Hl1 & Hd). run_with Hrun. clear Hrun.
  erewrite bind_ok by (apply rd_get; rewrite ?get_put; [apply Hl1|lia]).
  rewrite wr_put by (lia || (rewrite get_put; apply Hl1)). rewrite get_put, put_put.
  rewrite Hd, decide_False by lia. fold l in Hl. rewrite LHALF_shl by (done || apply dg_range, Hl).
  assert (0 ≤ (dg l (at_ + len) * 2 ^ sh) `mod` B < B) by (apply Z.mod_pos_bound; rewrite B_eq; lia).
  eexists. split; [done|]. split; [by apply digits_insert|]. rewrite digit_id by done. split_and!.
  - intros i Hi Hout. rewrite dg_insert, decide_False by (lia || apply Hl1). rewrite Hd, decide_False by lia. done.
  - intros i Hi. rewrite dg_insert, decide_False by (lia || apply Hl1). rewrite Hd, decide_True by lia. done.
  - cbn [val]. rewrite Z2Nat.id by lia. rewrite dg_insert, decide_True by (lia || apply Hl1 || done).
    rewrite (val_shift l _ at_ at_ (Z.to_nat len) sh); [|done|done|].
    2:{ intros i Hi. rewrite dg_insert, decide_False by (lia || apply Hl1). rewrite Hd, decide_True by lia. done. }
    replace (at_ + len) with (at_ + Z.of_nat (Z.to_nat len)) at 1 by lia. rewrite <-val_low by lia.
    rewrite mod_snoc by (apply Z.mod_pos_bound; rewrite B_eq; lia).
    replace (Z.of_nat (S (Z.to_nat len))) with (len + 1) by lia. f_equal.
    rewrite Z.mul_comm, <-Z.div_mod by (rewrite B_eq; lia). cbn [val]. by rewrite Z2Nat.id by lia.
Qed.

(** Digits [m + 1] to [m + n] shifted right by [d]: the remainder *)
Lemma unshift_ok u n m d lu lv lq :
  digits lu → 0 ≤ n → 0 ≤ u + m → u + m + n < 5 → 0 ≤ d ≤ 16 →
  ∃ lu', unshift u n m d (mk_qst lu lv lq) = Ok (tt, mk_qst lu' lv lq) ∧ digits lu' ∧
    same_outside (u + m) (u + m + n) lu lu' ∧ dg lu' (u + m) = 0 ∧
    val lu' (u + m + 1) (Z.to_nat n) = (val lu (u + m) (S (Z.to_nat n)) / 2 ^ d) `mod` B ^ n.
Proof.
  intros Hl Hn Hm Hb Hd. unfold unshift. set (s := mk_qst lu lv lq).
  assert (wp (for_list (seqZ 0 n) (λ k,
    let i := m + n - k in
    x ← rd U (u + i); y ← rd U (u + i - 1);
    wr U (u + i) (Z.lor (Z.shiftr x d) (LHALF (u32 (Z.shiftl y (HALF_BITS - d)))))))
    (λ _ s', ∃ l', s' = put_arr U l' s ∧ digits l' ∧
      ∀ i, 0 ≤ i → dg l' i = if decide (u + m + n - n < i ≤ u + m + n) then sd lu (i - 1) (16 - d) else dg lu i) s) as Hloop.
  { apply (wp_for_seqZ _ _ (λ t s', ∃ l', s' = put_arr U l' s ∧ digits l' ∧
      ∀ i, 0 ≤ i → dg l' i = if decide (u + m + n - t < i ≤ u + m + n) then sd lu (i - 1) (16 - d) else dg lu i)); [done| |].
    - exists lu. split; [done|]. split; [done|]. intros i Hi. by rewrite decide_False by lia.
    - intros t s' Ht (l' & -> & Hl' & Hdg). cbn zeta.
      apply wp_bind. erewrite wp_eq by (apply rd_get; rewrite ?get_put; [apply Hl'|lia]).
      apply wp_bind. erewrite wp_eq by (apply rd_get; rewrite ?get_put; [apply Hl'|lia]).
      erewrite wp_eq by (apply wr_put; rewrite ?get_put; [apply Hl'|lia]). rewrite get_put, put_put.
      rewrite !Hdg, !decide_False by lia. pose proof (sd_lor lu (u + (m + n - t) - 1) (16 - d) Hl ltac:(lia)) as Hlor.
      replace (u + (m + n - t) - 1 + 1) with (u + (m + n - t)) in Hlor by lia.
      replace (HALF_BITS - (16 - d)) with d in Hlor by (change HALF_BITS with 16; lia).
      rewrite Z.lor_comm. change HALF_BITS with 16. rewrite Hlor.
      destruct (sd_put lu l' (u + (m + n - t)) (u + (m + n - t) - 1) (16 - d)) as [Hdig Hk]; [done|done|lia|lia|].
      eexists. split; [done|]. split; [done|]. intros i Hi. rewrite Hk, Hdg by done. repeat case_decide; subst; done || lia. }
  apply wp_run in Hloop as ([] & s' & Hrun & l1 & -> & Hl1 & Hdg). run_with Hrun. clear Hrun.
  rewrite wr_put by (lia || (rewrite get_put; apply Hl1)). rewrite get_put, put_put.
  exists (<[Z.to_nat (u + m) := 0]> l1). split; [done|]. split; [apply (digits_insert _ _ 0 Hl1)|]. split_and!.
  - intros i Hi Hout. rewrite dg_insert, decide_False by (lia || apply Hl1). rewrite Hdg, decide_False by lia. done.
  - by rewrite dg_insert, decide_True by (lia || apply Hl1 || done).
  - rewrite (val_shift lu _ (u + m) _ _ (16 - d)); [|done|lia|].
    + rewrite Z2Nat.id by lia. f_equal. rewrite B_eq.
      replace (2 ^ 16) with (2 ^ d * 2 ^ (16 - d)) by (rewrite <-Z.pow_add_r by lia; f_equal; lia).
      apply Z.div_mul_cancel_r; apply Z.pow_nonzero; lia.
    + intros i Hi. rewrite dg_insert, decide_False by (lia || apply Hl1). rewrite Hdg, decide_True by lia.
      f_equal. lia.
Qed.

(** The shift that normalizes the divisor *)
Lemma norm_ok t s : 1 ≤ t < B → wp (norm t) (λ d s', s' = s ∧ 0 ≤ d ≤ 15 ∧ 2 ^ 15 ≤ t * 2 ^ d < B) s.
Proof.
  intros Ht. rewrite B_eq in Ht. unfold norm.
  apply (wp_while _ (λ st s', s' = s ∧ 0 ≤ st.2 ∧ st.1 = t * 2 ^ st.2 ∧ 1 ≤ st.1 < 2 ^ 16) (λ st _, 2 ^ 16 - st.1)).
  - split; [done|]. cbn [fst snd]. rewrite Z.pow_0_r. lia.
  - intros [x d] s' H. cbn [fst snd] in *. lia.
  - cbn [fst snd]. lia.
  - intros [x d] s' (-> & Hd & Hx & Hr). cbn [fst snd] in *. rewrite B_eq. change (2 ^ 16 / 2) with (2 ^ 15).
    destruct (Z.ltb_spec x (2 ^ 15)); apply wp_ret.
    + rewrite Z.shiftl_mul_pow2, u32_id by lia. cbn [fst snd]. split; [|lia]. split; [done|]. rewrite Z.pow_add_r by lia. lia.
    + split; [done|]. split; [|lia]. split; [done|]. destruct (decide (d ≤ 15)); [done|].
      assert (2 ^ 16 ≤ 2 ^ d) by (apply Z.pow_le_mono_r; lia). nia.
Qed.

(** Putting a number into an array and getting it back *)
Lemma val4 l : val l 1 4 = ((dg l 1 * B + dg l 2) * B + dg l 3) * B + dg l 4.
Proof. done. Qed.

Lemma get_digits_ok a s : digits (get_arr a s) → get_digits a s = Ok (val (get_arr a s) 1 4, s).
Proof.
  intros Hl. unfold get_digits. do 4 (erewrite bind_ok by (apply rd_get; [apply Hl|lia])).
  mred. do 2 f_equal. rewrite !COMBINE_eq by by apply dg_range.
  pose proof (dg_range _ 1 Hl). pose proof (dg_range _ 2 Hl). pose proof (dg_range _ 3 Hl). pose proof (dg_range _ 4 Hl).
  rewrite val4. set (d1 := dg _ 1) in *. set (d2 := dg _ 2) in *. set (d3 := dg _ 3) in *. set (d4 := dg _ 4) in *.
  rewrite B_eq in *. unfold uu_ll, uu_ull. cbn [ui_H ui_L]. rewrite u64_s64, u64_id by lia. lia.
Qed.

Lemma put_digits_ok a x s :
  digits (get_arr a s) → 0 ≤ x < 2 ^ 64 →
  ∃ l, put_digits a x s = Ok (tt, put_arr a l s) ∧ digits l ∧ dg l 0 = dg (get_arr a s) 0 ∧ val l 1 4 = x.
Proof.
  intros Hl Hx. unfold put_digits, uu_of. cbn [ui_H ui_L]. rewrite Z.shiftr_div_pow2 by lia.
  rewrite (u32_id (x / 2 ^ 32)) by (split; [apply Z.div_pos|apply Z.div_lt_upper_bound]; lia).
  repeat (erewrite bind_ok by (apply wr_put; rewrite ?get_put; [rewrite ?length_insert; apply Hl|lia]); rewrite ?get_put, ?put_put).
  rewrite wr_put by (lia || (rewrite get_put, ?length_insert; apply Hl)). rewrite get_put, put_put.
  eexists. split; [done|]. split; [by repeat apply digits_insert|].
  rewrite !(digit_id (LHALF _)) by apply LHALF_range.
  rewrite !LHALF_eq, !HHALF_eq, !B_eq. unfold digit, u32.
  rewrite val4, !dg_insert by (lia || rewrite ?length_insert; apply Hl). repeat (case_decide; try lia).
  split; [done|]. rewrite B_eq. Z.div_mod_to_equations. lia.
Qed.

(** ** The steps before and after the loop *)

Lemma short_digit r x t :
  0 < t < B → 0 ≤ r < t → 0 ≤ x < B →
  COMBINE r x = t * digit (COMBINE r x / t) + COMBINE r x `mod` t ∧ COMBINE r x = r * B + x ∧
  0 ≤ COMBINE r x `mod` t < t.
Proof.
  intros Ht Hr Hx. rewrite COMBINE_eq by lia. set (y := r * B + x).
  assert (0 ≤ y / t < B) as Hq by (unfold y; split; [apply Z.div_pos|apply Z.div_lt_upper_bound]; nia).
  rewrite digit_id by done. split; [apply Z.div_mod; lia|]. split; [done|]. apply Z.mod_pos_bound. lia.
Qed.

Lemma short_div_ok lu lv lq v :
  digits lu → digits lv → digits lq → v = 2 → dg lv 4 ≠ 0 →
  short_div v (mk_qst lu lv lq) = Ok ((val lu 1 4 / dg lv 4, val lu 1 4 `mod` dg lv 4), mk_qst lu lv lq).
Proof.
  intros Hlu Hlv Hlq -> Ht. unfold short_div. pose proof (dg_len _ Hlq). rd_step. cbn [get_arr vspace].
  change (2 + 2) with 4. rewrite (proj2 (Z.eqb_neq _ _)) by done. do 4 rd_step. cbn [get_arr uspace]. mred.
  assert (0 < dg lv 4 < B) as Ht' by (pose proof (dg_range lv 4 Hlv); lia). set (t := dg lv 4) in *.
  pose proof (dg_range lu 1 Hlu) as H1. pose proof (dg_range lu 2 Hlu) as H2.
  pose proof (dg_range lu 3 Hlu) as H3. pose proof (dg_range lu 4 Hlu) as H4.
  assert (COMBINE 0 (dg lu 1) = dg lu 1) as E0 by (rewrite COMBINE_eq; rewrite ?B_eq in *; lia).
  destruct (short_digit 0 (dg lu 1) t Ht' ltac:(lia) H1) as (D1 & _ & R1). rewrite E0 in D1, R1.
  destruct (short_digit _ (dg lu 2) t Ht' R1 H2) as (D2 & C2 & R2). set (y2 := COMBINE _ (dg lu 2)) in *.
  destruct (short_digit _ (dg lu 3) t Ht' R2 H3) as (D3 & C3 & R3). set (y3 := COMBINE _ (dg lu 3)) in *.
  destruct (short_digit _ (dg lu 4) t Ht' R3 H4) as (D4 & C4 & R4). set (y4 := COMBINE _ (dg lu 4)) in *.
  pose proof (digit_range (dg lu 1 / t)). pose proof (digit_range (y2 / t)).
  pose proof (digit_range (y3 / t)). pose proof (digit_range (y4 / t)). rewrite !COMBINE_eq by done.
  set (q1 := digit (dg lu 1 / t)) in *. set (q2 := digit (y2 / t)) in *.
  set (q3 := digit (y3 / t)) in *. set (q4 := digit (y4 / t)) in *.
  destruct (divmod_unique (val lu 1 4) t (((q1 * B + q2) * B + q3) * B + q4) (y4 `mod` t)) as [-> ->].
  { done. }
  { rewrite val4, B_eq in *. lia. }
  rewrite B_eq in *. do 3 f_equal. unfold uu_ll, uu_ull. cbn [ui_H ui_L]. rewrite u64_s64, u64_id by lia. lia.
Qed.

Lemma skip_v_ok lu lv lq :
  let s := mk_qst lu lv lq in
  digits lu → digits lv → digits lq → val lv 1 4 ≠ 0 →
  wp skip_v (λ r s', s' = s ∧ match r with
    | inl (n, v) => ∃ k, n = Z.of_nat (S (S k)) ∧ v = 4 - n ∧ 0 ≤ v ∧ dg lv (v + 1) ≠ 0 ∧
        val lv (v + 1) (S (S k)) = val lv 1 4
    | inr (q, r) => q = val lu 1 4 / val lv 1 4 ∧ r = val lu 1 4 `mod` val lv 1 4
    end) s.
Proof.
  intros s Hlu Hlv Hlq Hnz. unfold skip_v. pose proof (dg_len _ Hlq).
  apply (wp_while _ (λ st s', s' = s ∧ 2 ≤ st.1 ∧ st.2 = 4 - st.1 ∧ 0 ≤ st.2 ∧ ∀ i, 1 ≤ i ≤ st.2 → dg lv i = 0)
    (λ st _, st.1)).
  - split; [done|]. cbn [fst snd]. split_and!; lia.
  - intros [n v] s' H'. cbn [fst snd] in *. lia.
  - done.
  - intros [n v] s' (-> & Hn & Hv & Hv0 & Hz). cbn [fst snd] in *. apply wp_bind.
    erewrite wp_eq by (apply rd_ok; in_arrays). cbn [get_arr vspace].
    destruct (Z.eqb_spec (dg lv (v + 1)) 0) as [E|E]; cbn [negb].
    + assert (∀ i, 1 ≤ i ≤ v + 1 → dg lv i = 0) as Hz' by (intros i Hi; destruct (decide (i = v + 1)) as [->|]; [done|apply Hz; lia]).
      case_eq (n - 1 =? 1); intros Hn1.
      * apply Z.eqb_eq in Hn1. assert (val lv 1 4 = dg lv 4) as Hv4.
        { rewrite val4, !Hz' by lia. lia. }
        apply wp_bind. erewrite wp_eq by (apply short_div_ok; [done|done|done|lia|congruence]).
        apply wp_ret. split; [done|]. by rewrite Hv4.
      * apply Z.eqb_neq in Hn1. apply wp_ret. cbn [fst snd]. split; [|lia]. split; [done|]. split_and!; [lia|lia|lia|done].
    + apply wp_ret. split; [done|]. exists (Z.to_nat (n - 2)). split_and!; [lia|done|done|done|].
      replace (v + 1) with (1 + Z.of_nat (Z.to_nat v)) by lia. rewrite <-val_skip by (intros; apply Hz; lia).
      f_equal. lia.
Qed.

Lemma skip_u_ok lu lv lq n :
  let s := mk_qst lu lv lq in
  digits lu → digits lv → digits lq → 2 ≤ n ≤ 4 → dg lu 0 = 0 → B ^ (n - 1) ≤ val lu 1 4 →
  wp (skip_u n) (λ r s', s' = s ∧ 0 ≤ r.1 ∧ 0 ≤ r.2 ∧ r.2 + r.1 + n = 4 ∧ ∀ i, 0 ≤ i ≤ r.2 → dg lu i = 0) s.
Proof.
  intros s Hlu Hlv Hlq Hn H0 Hbig. unfold skip_u. pose proof (dg_len _ Hlq).
  apply (wp_while _ (λ r s', s' = s ∧ 0 ≤ r.1 ∧ 0 ≤ r.2 ∧ r.2 + r.1 + n = 4 ∧ ∀ i, 0 ≤ i ≤ r.2 → dg lu i = 0) (λ r _, r.1)).
  - split; [done|]. cbn [fst snd]. split_and!; try lia. intros i Hi. by replace i with 0 by lia.
  - intros [m u] s' H'. cbn [fst snd] in *. lia.
  - cbn [fst]. lia.
  - intros [m u] s' (-> & Hm & Hu & Hs & Hz). cbn [fst snd] in *. apply wp_bind.
    erewrite wp_eq by (apply rd_ok; in_arrays). cbn [get_arr uspace].
    destruct (Z.eqb_spec (dg lu (u + 1)) 0) as [E|E]; cbn [negb]; apply wp_ret; [|by cbn [fst snd]].
    assert (∀ i, 0 ≤ i ≤ u + 1 → dg lu i = 0) as Hz' by (intros i Hi; destruct (decide (i = u + 1)) as [->|]; [done|apply Hz; lia]).
    assert (m ≠ 0).
    { intros ->. replace 4%nat with (Z.to_nat (u + 1) + Z.to_nat (n - 1))%nat in Hbig by lia.
      rewrite val_skip in Hbig by (intros; apply Hz'; lia).
      pose proof (val_range lu (1 + Z.of_nat (Z.to_nat (u + 1))) (Z.to_nat (n - 1)) Hlu).
      replace (Z.of_nat (Z.to_nat (n - 1))) with (n - 1) in * by lia. lia. }
    cbn [fst snd]. split; [|lia]. split; [done|]. split_and!; [lia|lia|lia|done].
Qed.

(** [q[i] = 0] for the digits before the quotient *)
Lemma zero_q_ok lu lv lq c :
  let s := mk_qst lu lv lq in
  digits lu → digits lv → digits lq → 0 ≤ c ≤ 4 →
  wp (for_list (seqZ 0 c) (λ k, wr Q (c - 1 - k) 0))
    (λ _ s', ∃ lq', s' = mk_qst lu lv lq' ∧ digits lq' ∧ ∀ i, 0 ≤ i < c → dg lq' i = 0) s.
Proof.
  intros s Hlu Hlv Hlq Hc. eapply wp_mono.
  - apply (wp_for_seqZ _ _ (λ t s', ∃ lq', s' = mk_qst lu lv lq' ∧ digits lq' ∧ ∀ i, 0 ≤ i → c - t ≤ i < c → dg lq' i = 0)); [lia| |].
    + exists lq. split; [done|]. split; [done|]. intros; lia.
    + intros t s' Ht (l & -> & Hl & Hz). erewrite wp_eq by (apply wr_ok; in_arrays). cbn [put_arr get_arr uspace vspace qspace].
      eexists. split; [done|]. split; [by apply digits_insert|]. intros i Hi Hic.
      rewrite dg_insert by (lia || apply Hl). case_decide; [done|apply Hz; lia].
  - intros _ s' (l & -> & Hl & Hz). exists l. split; [done|]. split; [done|]. intros; apply Hz; lia.
Qed.

Lemma d_pow d : 0 ≤ d ≤ 15 → 0 < 2 ^ d < B.
Proof.
  intros Hd. rewrite B_eq. split; [apply Z.pow_pos_nonneg; lia|]. apply Z.pow_lt_mono_r; lia.
Qed.

Section long_div.
Variables (k : nat) (u v m d : Z) (lu lv : list Z).
Let n : nat := S (S k).
Hypotheses (Hlu : digits lu) (Hlv : digits lv) (Hu : 0 ≤ u) (Hm : 0 ≤ m) (Hum : u + m + Z.of_nat n = 4).
Hypotheses (Hv : 0 ≤ v) (Hvn : v = 4 - Z.of_nat n) (Hd : 0 ≤ d ≤ 15).
Hypotheses (Hdn : 2 ^ 15 ≤ dg lv (v + 1) * 2 ^ d < B) (Hz : ∀ i, 0 ≤ i ≤ u → dg lu i = 0).
Let ull := val lu 1 4.
Let vll := val lv (v + 1) n.

Lemma whole_u : val lu u (S (Z.to_nat (m + Z.of_nat n))) = ull ∧ ull < B ^ (m + Z.of_nat n).
Proof using Hlu Hu Hm Hum Hz Hd Hdn.
  assert (ull = val lu (u + 1) (Z.to_nat (m + Z.of_nat n))) as Hull.
  { unfold ull. replace 4%nat with (Z.to_nat u + Z.to_nat (m + Z.of_nat n))%nat by lia.
    rewrite val_skip by (intros; apply Hz; lia). f_equal. lia. }
  rewrite Hull, val_cons, Hz by lia. pose proof (val_range lu (u + 1) (Z.to_nat (m + Z.of_nat n)) Hlu) as Hr.
  rewrite Z2Nat.id in Hr |- * by lia. lia.
Qed.

(** The leading digit and [2 ^ d]: the shifted divisor still has [n] digits *)
Lemma vll_small : vll * 2 ^ d < B ^ Z.of_nat n ∧ 2 ^ 15 * B ^ Z.of_nat (S k) ≤ vll * 2 ^ d ∧ 0 < vll.
Proof using Hlu Hlv Hd Hdn.
  pose proof (d_pow d Hd). unfold vll, n. rewrite val_cons. rewrite (Nat2Z.inj_succ (S k)), Z.pow_succ_r by lia.
  pose proof (val_range lv (v + 1 + 1) (S k) Hlv). pose proof (B_pow (S k)).
  set (P := B ^ Z.of_nat (S k)) in *. set (t := dg lv (v + 1)) in *. set (y := val lv (v + 1 + 1) (S k)) in *.
  assert ((t + 1) * 2 ^ d ≤ B).
  { rewrite B_eq in *. replace (2 ^ 16) with (2 ^ (16 - d) * 2 ^ d) in * by (rewrite <-Z.pow_add_r by lia; f_equal; lia).
    apply Z.mul_le_mono_nonneg_r; [lia|]. assert (t < 2 ^ (16 - d)); [|lia]. nia. }
  assert (0 < t) by nia. nia.
Qed.

Lemma normalize_ok lq :
  digits lq →
  wp (if 0 <? d then shl U u (m + Z.of_nat n) d ;; shl V (v + 1) (Z.of_nat n - 1) d else mret tt)
    (λ _ s', ∃ lu1 lv1, s' = mk_qst lu1 lv1 lq ∧ digits lu1 ∧ digits lv1 ∧
      val lu1 u (S (Z.to_nat (m + Z.of_nat n))) = ull * 2 ^ d ∧ val lv1 (v + 1) n = vll * 2 ^ d ∧
      ∀ i, 0 ≤ i < u → dg lu1 i = 0) (mk_qst lu lv lq).
Proof using Hlu Hlv Hu Hm Hum Hv Hvn Hd Hdn Hz.
  intros Hlq. destruct whole_u as [Hw Hull]. pose proof vll_small as (Hvs & _ & Hv0). pose proof (d_pow d Hd) as Hdp.
  destruct (Z.ltb_spec 0 d) as [Hpos|Hneg].
  - destruct (shl_ok U u (m + Z.of_nat n) d (mk_qst lu lv lq)) as (l1 & Hr1 & Hl1 & Hs1 & _ & Hv1); [done|lia|lia|lia|lia|].
    apply wp_bind. rewrite (wp_eq _ _ _ _ _ Hr1). cbn [get_arr put_arr uspace vspace qspace] in *.
    destruct (shl_ok V (v + 1) (Z.of_nat n - 1) d (mk_qst l1 lv lq)) as (l2 & Hr2 & Hl2 & Hs2 & _ & Hv2); [done|lia|lia|lia|lia|].
    rewrite (wp_eq _ _ _ _ _ Hr2). cbn [get_arr put_arr uspace vspace qspace] in *.
    exists l1, l2. split_and!; [done|done|done| | |].
    + rewrite Hv1, Hw. apply Z.mod_small. unfold ull in *. pose proof (val_range lu 1 4 Hlu).
      replace (m + Z.of_nat n + 1) with (Z.succ (m + Z.of_nat n)) by lia. rewrite Z.pow_succ_r, Z.mul_comm by lia.
      split; [apply Z.mul_nonneg_nonneg; lia|]. apply Z.mul_lt_mono_nonneg; lia.
    + replace (S (Z.to_nat (Z.of_nat n - 1))) with n in Hv2 by lia. rewrite Hv2. fold vll.
      replace (Z.of_nat n - 1 + 1) with (Z.of_nat n) by lia. apply Z.mod_small. nia.
    + intros i Hi. rewrite Hs1 by lia. apply Hz. lia.
  - assert (d = 0) as -> by lia. apply wp_ret. exists lu, lv. rewrite Z.pow_0_r, !Z.mul_1_r.
    split_and!; [done|done|done|done|done|]. intros; apply Hz; lia.
Qed.

(** The dividend's first [n] digits are less than the divisor. *)
Lemma first_digits lu1 :
  digits lu1 → val lu1 u (S (Z.to_nat (m + Z.of_nat n))) = ull * 2 ^ d → val lu1 u n < vll * 2 ^ d.
Proof using Hlu Hlv Hu Hm Hum Hd Hdn Hz.
  intros Hl1 Hval. destruct whole_u as [_ Hull]. pose proof vll_small as (_ & Hbig & _). pose proof (d_pow d Hd).
  rewrite val_cons in Hval. rewrite Z2Nat.id in Hval by lia.
  pose proof (val_range lu1 (u + 1) (Z.to_nat (m + Z.of_nat n)) Hl1). pose proof (dg_range lu1 u Hl1).
  assert (dg lu1 u < 2 ^ d) as Hdg by nia.
  assert (2 ^ d ≤ 2 ^ 15) by (apply Z.pow_le_mono_r; lia).
  unfold n. rewrite val_cons. pose proof (val_range lu1 (u + 1) (S k) Hl1). pose proof (B_pow (S k)). nia.
Qed.

(** The remainder, shifted back: digits 1 to 4 *)
Lemma remainder_ok lu2 lv2 lq R :
  digits lu2 → (∀ i, 0 ≤ i < u → dg lu2 i = 0) →
  val lu2 u (Z.to_nat (m + 1) + n) = R * 2 ^ d → 0 ≤ R < vll →
  wp (if negb (d =? 0) then unshift u (Z.of_nat n) m d else mret tt)
    (λ _ s', ∃ lu3, s' = mk_qst lu3 lv2 lq ∧ digits lu3 ∧ val lu3 1 4 = R) (mk_qst lu2 lv2 lq).
Proof using Hlu Hlv Hu Hm Hum Hv Hvn Hd Hdn.
  intros Hl2 Hlow Hval HR. pose proof vll_small as (Hvs & _ & Hv0). pose proof (d_pow d Hd) as Hdp.
  assert (R * 2 ^ d < B ^ Z.of_nat n) as HRn by nia.
  destruct (val_small lu2 u (Z.to_nat (m + 1)) n Hl2) as [Hzero Hrest]; [lia|].
  assert (∀ i, 0 ≤ i ≤ u + m → dg lu2 i = 0) as Hdz.
  { intros i Hi. destruct (decide (i < u)); [apply Hlow; lia|]. apply (val_zero_inv _ _ _ Hl2 Hzero). lia. }
  assert (∀ l, digits l → (∀ i, 0 ≤ i ≤ u + m → dg l i = 0) → val l (u + m + 1) n = R → val l 1 4 = R) as Hfin.
  { intros l Hl Hl0 <-. replace 4%nat with (Z.to_nat (u + m) + n)%nat by lia. rewrite val_skip by (intros; apply Hl0; lia).
    f_equal. lia. }
  destruct (Z.eqb_spec d 0) as [E|E]; cbn [negb].
  - apply wp_ret. exists lu2. split; [done|]. split; [done|]. apply Hfin; [done|done|]. rewrite E in Hval.
    rewrite Hrest in Hval. replace (u + m + 1) with (u + Z.of_nat (Z.to_nat (m + 1))) by lia. lia.
  - destruct (unshift_ok u (Z.of_nat n) m d lu2 lv2 lq) as (l3 & Hrun & Hl3 & Hs3 & H30 & Hv3); [done|lia|lia|lia|lia|].
    rewrite (wp_eq _ _ _ _ _ Hrun). exists l3. split; [done|]. split; [done|]. apply Hfin; [done| |].
    + intros i Hi. destruct (decide (i = u + m)) as [->|]; [done|]. rewrite Hs3 by lia. apply Hdz. lia.
    + rewrite Nat2Z.id in Hv3. rewrite Hv3, val_cons, Hdz by lia.
      replace (u + m + 1) with (u + Z.of_nat (Z.to_nat (m + 1))) by lia. rewrite <-Hrest, Hval.
      rewrite Z.mul_0_l, Z.add_0_l, Z.div_mul by lia. apply Z.mod_small. nia.
Qed.
End long_div.

Lemma long_div_ok want k v lu lv lq :
  let n := S (S k) in
  digits lu → digits lv → digits lq → dg lu 0 = 0 → v = 4 - Z.of_nat n → 0 ≤ v → dg lv (v + 1) ≠ 0 →
  val lv (v + 1) n ≤ val lu 1 4 →
  wp (long_div want (Z.of_nat n) v)
    (λ r _, r = (val lu 1 4 / val lv (v + 1) n, if want then Some (val lu 1 4 `mod` val lv (v + 1) n) else None))
    (mk_qst lu lv lq).
Proof.
  intros n Hlu Hlv Hlq H0 Hvn Hv Htop Hle. set (ull := val lu 1 4) in *. set (vll := val lv (v + 1) n) in *.
  pose proof (dg_range lv (v + 1) Hlv) as Ht. unfold long_div. apply wp_bind.
  eapply wp_mono; [apply skip_u_ok; [done|done|done|lia|done|]|].
  { fold ull. apply Z.le_trans with vll; [|done]. unfold vll, n. rewrite val_cons.
    pose proof (val_range lv (v + 1 + 1) (S k) Hlv). pose proof (B_pow (S k)).
    replace (Z.of_nat (S (S k)) - 1) with (Z.of_nat (S k)) by lia. nia. }
  intros [m u] s (-> & Hm & Hu & Hum & Hz). cbn [fst snd] in *. apply wp_bind.
  eapply wp_mono; [apply zero_q_ok; [done|done|done|lia]|]. intros _ s (lq1 & -> & Hlq1 & Hq1).
  pose proof (dg_len _ Hlq1). apply wp_bind. erewrite wp_eq by (apply rd_ok; in_arrays). cbn [get_arr vspace]. apply wp_bind.
  eapply wp_mono; [apply norm_ok; lia|]. intros d s (-> & Hd & Hdn). apply wp_bind.
  eapply wp_mono; [apply (normalize_ok k u v m d lu lv Hlu Hlv Hu Hm Hum Hv Hvn Hd Hdn Hz lq1 Hlq1)|].
  fold n ull vll. intros _ s (lu1 & lv1 & -> & Hlu1 & Hlv1 & Hu1 & Hv1 & Hlow1).
  do 2 (apply wp_bind; erewrite wp_eq by (apply rd_ok; in_arrays)). cbn [get_arr vspace].
  pose proof (vll_small k v d lu lv Hlu Hlv Hd Hdn) as (Hvs & Hbig & Hvpos). fold n vll in Hvs, Hbig, Hvpos.
  pose proof (d_pow d Hd) as Hdp.
  assert (2 ^ 15 ≤ dg lv1 (v + 1)) as Hnorm.
  { rewrite <-Hv1 in Hbig. unfold n in Hbig. rewrite val_cons in Hbig.
    pose proof (val_range lv1 (v + 1 + 1) (S k) Hlv1). pose proof (B_pow (S k)). nia. }
  pose proof (first_digits k u v m d lu lv Hlu Hlv Hu Hm Hum Hd Hdn Hz lu1 Hlu1 Hu1) as Hfirst. fold n vll in Hfirst.
  apply wp_bind. eapply wp_mono.
  { apply (wp_for_seqZ _ _ (turns_inv u v (4 - m) k lv1 lu1 lq1)); [lia| |].
    - exists lu1, lq1. split_and!; try done; cbn [Nat.add]; fold n; rewrite Hv1; done || lia.
    - intros t s Ht' Hinv. apply (turns_step u v (4 - m) k lv1 Hlv1 Hv ltac:(lia) Hu ltac:(lia) Hnorm lu1 lq1 m); [lia|lia|lia|done]. }
  intros _ s (lu2 & lq2 & -> & Hlu2 & Hlq2 & Hval & Hlt & Hout & Hq2). fold n in Hval, Hlt, Hout. rewrite Hv1 in Hval, Hlt.
  replace (val lu1 u (Z.to_nat (m + 1) + n)) with (ull * 2 ^ d) in Hval by (rewrite <-Hu1; f_equal; lia).
  set (quo := val lq2 (4 - m) (Z.to_nat (m + 1))) in *. set (R2 := val lu2 u (Z.to_nat (m + 1) + n)) in *.
  assert (R2 = (ull - quo * vll) * 2 ^ d) as HR2 by lia.
  pose proof (proj1 (val_range lu2 u (Z.to_nat (m + 1) + n) Hlu2)) as HR0. fold R2 in HR0.
  destruct (divmod_unique ull vll quo (ull - quo * vll)) as [Hdiv Hmod]; [nia|lia|]. rewrite Hdiv, Hmod.
  assert (val lq2 1 4 = quo) as Hquo.
  { unfold quo. replace 4%nat with (Z.to_nat (3 - m) + Z.to_nat (m + 1))%nat by lia.
    rewrite val_skip by (intros i Hi; rewrite Hq2 by lia; apply Hq1; lia). f_equal. lia. }
  destruct want; apply wp_bind.
  - apply wp_bind. eapply wp_mono.
    { apply (remainder_ok k u v m d lu lv Hlu Hlv Hu Hm Hum Hv Hvn Hd Hdn lu2 lv1 lq2 (ull - quo * vll)); [done| |done|].
      - intros i Hi. rewrite Hout by lia. by apply Hlow1.
      - fold n vll. nia. }
    intros _ s (lu3 & -> & Hlu3 & Hr). apply wp_bind. rewrite (wp_eq _ _ _ _ _ (get_digits_ok U (mk_qst lu3 lv1 lq2) Hlu3)).
    apply wp_ret, wp_bind. rewrite (wp_eq _ _ _ _ _ (get_digits_ok Q (mk_qst lu3 lv1 lq2) Hlq2)). apply wp_ret.
    cbn [get_arr uspace qspace]. by rewrite Hr, Hquo.
  - apply wp_ret, wp_bind. rewrite (wp_eq _ _ _ _ _ (get_digits_ok Q (mk_qst lu2 lv1 lq2) Hlq2)). apply wp_ret.
    cbn [get_arr qspace]. by rewrite Hquo.
Qed.

(** The division routine, from any contents of its three local arrays *)
Definition garbage (s : qst) : Prop := digits (uspace s) ∧ digits (vspace s) ∧ digits (qspace s).

Lemma __qdivrem_ok want ull vll s :
  garbage s → 0 ≤ ull < 2 ^ 64 → 0 < vll < 2 ^ 64 →
  wp (__qdivrem want ull vll) (λ r _, r = (ull / vll, if want then Some (ull `mod` vll) else None)) s.
Proof.
  intros (Hgu & Hgv & Hgq) Hu Hv. unfold __qdivrem. rewrite (proj2 (Z.eqb_neq vll 0)) by lia.
  destruct (Z.ltb_spec ull vll).
  { apply wp_ret. by rewrite Z.div_small, Z.mod_small by lia. }
  apply wp_bind. erewrite wp_eq by (apply wr_put; [apply Hgu|lia]). cbn [get_arr put_arr].
  set (lu0 := <[_ := _]> (uspace s)). assert (digits lu0) as Hlu0 by by apply digits_insert.
  assert (dg lu0 0 = 0) as H00 by (unfold lu0; by rewrite (dg_insert _ 0), decide_True by (lia || apply Hgu || done)).
  destruct (put_digits_ok U ull (mk_qst lu0 (vspace s) (qspace s))) as (lu & Hrun & Hlu & H0 & Hul); [done|done|].
  apply wp_bind. rewrite (wp_eq _ _ _ _ _ Hrun). cbn [get_arr put_arr uspace vspace qspace] in *. clear Hrun.
  destruct (put_digits_ok V vll (mk_qst lu (vspace s) (qspace s))) as (lv & Hrun & Hlv & _ & Hvl); [done|lia|].
  apply wp_bind. rewrite (wp_eq _ _ _ _ _ Hrun). cbn [get_arr put_arr uspace vspace qspace] in *. clear Hrun.
  apply wp_bind. eapply wp_mono; [apply skip_v_ok; [done|done|done|lia]|].
  intros [[n v]|[q r]] s' [-> Hr].
  - destruct Hr as (k & -> & Hvn & Hv0 & Htop & Hval). rewrite <-Hul, <-Hvl, <-Hval.
    apply long_div_ok; try done; [congruence|lia].
  - destruct Hr as [-> ->]. apply wp_ret. by rewrite Hul, Hvl.
Qed.

(** ** The four entry points *)

Lemma __udivdi3_ok a b s :
  garbage s → 0 ≤ a < 2 ^ 64 → 0 < b < 2 ^ 64 → wp (__udivdi3 a b) (λ r _, r = a / b) s.
Proof.
  intros Hs Ha Hb. apply wp_bind. eapply wp_mono; [by apply __qdivrem_ok|]. intros r s' ->. by apply wp_ret.
Qed.

Lemma __umoddi3_ok a b s :
  garbage s → 0 ≤ a < 2 ^ 64 → 0 < b < 2 ^ 64 → wp (__umoddi3 a b) (λ r _, r = a `mod` b) s.
Proof.
  intros Hs Ha Hb. apply wp_bind. eapply wp_mono; [by apply __qdivrem_ok|]. intros r s' ->.
  apply wp_deref. by exists (a `mod` b).
Qed.

(** The magnitude of a [long long], as the C code computes it *)
Lemma magnitude a : - 2 ^ 63 ≤ a < 2 ^ 63 → (if a <? 0 then u64 (- u64 a) else u64 a) = Z.abs a.
Proof.
  intros Ha. destruct (Z.ltb_spec a 0).
  - assert (u64 a = a + 2 ^ 64) as -> by (unfold u64; symmetry; apply (Z.mod_unique _ _ (-1)); lia).
    unfold u64. symmetry. apply (Z.mod_unique _ _ (-1)); lia.
  - rewrite u64_id; lia.
Qed.

Lemma __divdi3_ok a b s :
  garbage s → - 2 ^ 63 ≤ a < 2 ^ 63 → - 2 ^ 63 ≤ b < 2 ^ 63 → b ≠ 0 →
  wp (__divdi3 a b) (λ r _, r = s64 (Z.quot a b)) s.
Proof.
  intros Hs Ha Hb Hb0. pose proof (magnitude a Ha) as Hma. pose proof (magnitude b Hb) as Hmb.
  unfold __divdi3. rewrite (Z.quot_div a b) by done.
  destruct (Z.ltb_spec a 0); destruct (Z.ltb_spec b 0); rewrite Hma, Hmb; apply wp_bind;
    (eapply wp_mono; [apply __qdivrem_ok; [done|lia|lia]|]); intros r s' ->; apply wp_ret; cbn [negb fst];
    rewrite ?s64_u64; f_equal;
    rewrite ?(Z.sgn_neg a), ?(Z.sgn_neg b), ?(Z.sgn_pos b) by lia; try lia;
    (destruct (decide (a = 0)) as [->|]; [cbn; rewrite ?Zdiv_0_l; lia|]; rewrite (Z.sgn_pos a) by lia; lia).
Qed.

Lemma __moddi3_ok a b s :
  garbage s → - 2 ^ 63 ≤ a < 2 ^ 63 → - 2 ^ 63 ≤ b < 2 ^ 63 → b ≠ 0 →
  wp (__moddi3 a b) (λ r _, r = Z.rem a b) s.
Proof.
  intros Hs Ha Hb Hb0. pose proof (magnitude a Ha) as Hma. pose proof (magnitude b Hb) as Hmb.
  unfold __moddi3. rewrite Hmb, (Z.rem_mod a b) by done. pose proof (Z.mod_pos_bound (Z.abs a) (Z.abs b) ltac:(lia)).
  destruct (Z.ltb_spec a 0); rewrite Hma; apply wp_bind;
    (eapply wp_mono; [apply __qdivrem_ok; [done|lia|lia]|]); intros r s' ->; apply wp_bind, wp_deref; eexists;
    (split; [done|]); apply wp_ret; rewrite ?s64_u64.
  - rewrite Z.sgn_neg by lia. rewrite s64_id; lia.
  - rewrite s64_id by lia. destruct (decide (a = 0)) as [->|]; [cbn; by rewrite Z.mod_0_l by lia|].
    rewrite Z.sgn_pos by lia. lia.
Qed.
