(* ===== verification/Threadlist.v ===== *)
(** * Thread lists ([kern/thread/threadlist.c], [kern/include/threadlist.h])

    The doubly linked lists with bookends that hold runnable and sleeping
    threads.  Nodes live in a heap; a node is the head or the tail of a list or
    the [t_listnode] of a thread, and threads and lists are identified by
    their addresses.  [DEBUGASSERT] only evaluates its argument in this
    configuration, so it has no effect.  The lists refine sequences of threads:
    every operation in every order has the effect of the operation on a
    sequence ([ops_refine]), and iteration visits the sequence in order. *)

From S2P Require Import Prelude.

Inductive tnode : Type :=
  | tl_head (tl : Z)
  | tl_tail (tl : Z)
  | t_listnode (t : Z).
#[global] Instance tnode_eq_dec : EqDecision tnode.
Proof. solve_decision. Defined.
#[global] Instance tnode_countable : Countable tnode.
Proof.
  refine (inj_countable' (λ n, match n with tl_head x => inl (inl x) | tl_tail x => inl (inr x) | t_listnode x => inr x end)
    (λ s : Z + Z + Z, match s with inl (inl x) => tl_head x | inl (inr x) => tl_tail x | inr x => t_listnode x end) _).
  by intros [].
Defined.

Record threadlistnode : Type := mk_tln {
  tln_prev : option tnode;
  tln_next : option tnode;
  tln_self : option Z
}.
Definition set_prev (p : option tnode) (n : threadlistnode) : threadlistnode := mk_tln p (tln_next n) (tln_self n).
Definition set_next (p : option tnode) (n : threadlistnode) : threadlistnode := mk_tln (tln_prev n) p (tln_self n).

(** The nodes, and [tl_count] of each list *)
Record heap : Type := mk_heap { h_nodes : gmap tnode threadlistnode; h_count : gmap Z Z }.
Definition set_nodes (m : gmap tnode threadlistnode) (h : heap) : heap := mk_heap m (h_count h).
Definition set_counts (m : gmap Z Z) (h : heap) : heap := mk_heap (h_nodes h) m.

(** [p->...]: a null or dangling [p] is a bad access. *)
Definition node (p : option tnode) : M heap threadlistnode :=
  a ← deref p;
  m ← gets h_nodes;
  deref (m !! a).
Definition upd (p : option tnode) (f : threadlistnode → threadlistnode) : M heap () :=
  a ← deref p;
  n ← node (Some a);
  modify (λ h, set_nodes (<[a := f n]> (h_nodes h)) h).
Definition get_count (tl : Z) : M heap Z := m ← gets h_count; deref (m !! tl).
Definition put_count (tl c : Z) : M heap () := modify (λ h, set_counts (<[tl := c]> (h_count h)) h).

Definition threadlistnode_init (tln : tnode) (t : option Z) : M heap () :=
  kassert (bool_decide (t ≠ None)) "t != NULL" ;;
  modify (λ h, set_nodes (<[tln := mk_tln None None t]> (h_nodes h)) h).

Definition threadlistnode_cleanup (tln : tnode) : M heap () :=
  n ← node (Some tln);
  kassert (bool_decide (tln_next n = None)) "tln->tln_next == NULL" ;;
  kassert (bool_decide (tln_prev n = None)) "tln->tln_prev == NULL" ;;
  kassert (bool_decide (tln_self n ≠ None)) "tln->tln_self != NULL".

Definition threadlist_init (tl : Z) : M heap () :=
  modify (λ h, set_nodes (<[tl_head tl := mk_tln None (Some (tl_tail tl)) None]>
    (<[tl_tail tl := mk_tln (Some (tl_head tl)) None None]> (h_nodes h))) h) ;;
  put_count tl 0.

Definition threadlist_isempty (tl : Z) : M heap bool :=
  c ← get_count tl;
  mret (c =? 0).

Definition threadlist_cleanup (tl : Z) : M heap () :=
  e ← threadlist_isempty tl;
  kassert e "threadlist_isempty(tl)" ;;
  c ← get_count tl;
  kassert (c =? 0) "tl->tl_count == 0".

(** Insertion and removal of a node; the count is the callers'. *)
Definition threadlist_insertafternode (onlist : tnode) (t : Z) : M heap () :=
  let addee := Some (t_listnode t) in
  upd addee (set_prev (Some onlist)) ;;
  o ← node (Some onlist);
  upd addee (set_next (tln_next o)) ;;
  a ← node addee;
  upd (tln_prev a) (set_next addee) ;;
  a ← node addee;
  upd (tln_next a) (set_prev addee).

Definition threadlist_insertbeforenode (t : Z) (onlist : tnode) : M heap () :=
  let addee := Some (t_listnode t) in
  o ← node (Some onlist);
  upd addee (set_prev (tln_prev o)) ;;
  upd addee (set_next (Some onlist)) ;;
  a ← node addee;
  upd (tln_prev a) (set_next addee) ;;
  a ← node addee;
  upd (tln_next a) (set_prev addee).

Definition threadlist_removenode (tln : tnode) : M heap () :=
  n ← node (Some tln);
  upd (tln_prev n) (set_next (tln_next n)) ;;
  n ← node (Some tln);
  upd (tln_next n) (set_prev (tln_prev n)) ;;
  upd (Some tln) (set_prev None) ;;
  upd (Some tln) (set_next None).

(** [tl->tl_count++] and [tl->tl_count--], on an [unsigned] *)
Definition count_incr (tl : Z) : M heap () := c ← get_count tl; put_count tl (u32 (c + 1)).
Definition count_decr (tl : Z) : M heap () := c ← get_count tl; put_count tl (u32 (c - 1)).

Definition threadlist_addhead (tl t : Z) : M heap () :=
  threadlist_insertafternode (tl_head tl) t ;;
  count_incr tl.

Definition threadlist_addtail (tl t : Z) : M heap () :=
  threadlist_insertbeforenode t (tl_tail tl) ;;
  count_incr tl.

Definition threadlist_remhead (tl : Z) : M heap (option Z) :=
  h ← node (Some (tl_head tl));
  n ← node (tln_next h);
  if bool_decide (tln_next n = None) then mret None
  else
    tln ← deref (tln_next h);
    threadlist_removenode tln ;;
    count_decr tl ;;
    n ← node (Some tln);
    mret (tln_self n).

Definition threadlist_remtail (tl : Z) : M heap (option Z) :=
  h ← node (Some (tl_tail tl));
  n ← node (tln_prev h);
  if bool_decide (tln_prev n = None) then mret None
  else
    tln ← deref (tln_prev h);
    threadlist_removenode tln ;;
    count_decr tl ;;
    n ← node (Some tln);
    mret (tln_self n).

Definition threadlist_insertafter (tl onlist addee : Z) : M heap () :=
  threadlist_insertafternode (t_listnode onlist) addee ;;
  count_incr tl.

Definition threadlist_insertbefore (tl addee onlist : Z) : M heap () :=
  threadlist_insertbeforenode addee (t_listnode onlist) ;;
  count_incr tl.

Definition threadlist_remove (tl t : Z) : M heap () :=
  threadlist_removenode (t_listnode t) ;;
  count_decr tl.

(** The threads a [THREADLIST_FORALL] loop visits, and a
    [THREADLIST_FORALL_REV] loop *)
Definition visit (step : threadlistnode → option tnode) (start : tnode) : M heap (list Z) :=
  while (λ st : option tnode * list Z,
    let '(p, seen) := st in
    n ← node p;
    match tln_self n with
    | None => mret (inr seen)
    | Some t => m ← node (Some (t_listnode t)); mret (inl (step m, seen ++ [t]))
    end) (Some start, []).
Definition THREADLIST_FORALL (tl : Z) : M heap (list Z) :=
  h ← node (Some (tl_head tl));
  n ← deref (tln_next h);
  visit tln_next n.
Definition THREADLIST_FORALL_REV (tl : Z) : M heap (list Z) :=
  h ← node (Some (tl_tail tl));
  n ← deref (tln_prev h);
  visit tln_prev n.

(** ** Linked segments *)

Definition self_of (n : tnode) : option Z := match n with t_listnode t => Some t | _ => None end.

(** The nodes [l] are linked one to the next, from [p] to [nx]. *)
Fixpoint seg (σ : gmap tnode threadlistnode) (p : option tnode) (l : list tnode) (nx : option tnode) : Prop :=
  match l with
  | [] => True
  | n :: l => σ !! n = Some (mk_tln p (default nx (Some <$> head l)) (self_of n)) ∧ seg σ (Some n) l nx
  end.

Lemma seg_app σ p l1 l2 nx :
  seg σ p (l1 ++ l2) nx ↔
  seg σ p l1 (default nx (Some <$> head l2)) ∧ seg σ (default p (Some <$> last l1)) l2 nx.
Proof.
  revert p. induction l1 as [|n l1 IH]; intros p; [cbn; tauto|]. cbn [app seg]. rewrite IH.
  assert (default nx (Some <$> head (l1 ++ l2)) = default (default nx (Some <$> head l2)) (Some <$> head l1)) as ->
    by by destruct l1.
  assert (default p (Some <$> last (n :: l1)) = default (Some n) (Some <$> last l1)) as ->
    by (rewrite last_cons; by destruct (last l1)).
  tauto.
Qed.

Lemma seg_frame σ σ' p l nx : (∀ n, n ∈ l → σ' !! n = σ !! n) → seg σ p l nx → seg σ' p l nx.
Proof.
  revert p. induction l as [|n l IH]; intros p H Hs; [done|]. destruct Hs as [Hn Hs]. split.
  - rewrite H; [done|]. by left.
  - apply IH; [|done]. intros n' Hn'. apply H. by right.
Qed.

(** What the two basic operations do *)

Section ops.
Variables (l1 l2 : list tnode) (a b : tnode).

Lemma seg_around σ :
  seg σ None (l1 ++ a :: b :: l2) None ↔
  seg σ None l1 (Some a) ∧ σ !! a = Some (mk_tln (last l1) (Some b) (self_of a)) ∧
  σ !! b = Some (mk_tln (Some a) (head l2) (self_of b)) ∧ seg σ (Some b) l2 None.
Proof.
  rewrite seg_app. cbn [seg head fmap option_fmap option_map default from_option].
  assert (default None (Some <$> last l1) = last l1) as -> by by destruct (last l1).
  assert (default None (Some <$> head l2) = head l2) as -> by by destruct (head l2). tauto.
Qed.

Lemma seg_around3 σ x :
  seg σ None (l1 ++ a :: x :: b :: l2) None ↔
  seg σ None l1 (Some a) ∧ σ !! a = Some (mk_tln (last l1) (Some x) (self_of a)) ∧
  σ !! x = Some (mk_tln (Some a) (Some b) (self_of x)) ∧
  σ !! b = Some (mk_tln (Some x) (head l2) (self_of b)) ∧ seg σ (Some b) l2 None.
Proof.
  rewrite seg_app. cbn [seg head fmap option_fmap option_map default from_option].
  assert (default None (Some <$> last l1) = last l1) as -> by by destruct (last l1).
  assert (default None (Some <$> head l2) = head l2) as -> by by destruct (head l2). tauto.
Qed.
End ops.

(** The heap with three nodes changed *)
Definition link3 (a x b : tnode) (na nx nb : threadlistnode) (σ : gmap tnode threadlistnode) : gmap tnode threadlistnode :=
  <[b := nb]> (<[a := na]> (<[x := nx]> σ)).

Lemma node_run h a n : h_nodes h !! a = Some n → node (Some a) h = Ok (n, h).
Proof. intros H. unfold node. mred. cbn. by rewrite H. Qed.
Lemma upd_run h a n f : h_nodes h !! a = Some n → upd (Some a) f h = Ok (tt, set_nodes (<[a := f n]> (h_nodes h)) h).
Proof. intros H. unfold upd. cbn [deref]. mred. by rewrite (node_run h a n H). Qed.

(** Run one access to a node whose contents the maps show. *)
Ltac look := cbn [h_nodes set_nodes tln_prev tln_next tln_self set_prev set_next]; by simplify_map_eq.
Ltac node_step := erewrite bind_ok by (apply node_run; look).
Ltac upd_step := erewrite bind_ok by (apply upd_run; look).

Section links.
Variables (h : heap) (l1 l2 : list tnode) (a b : tnode) (t : Z).
Let x := t_listnode t.

Lemma link3_seg na nx nb :
  let σ := h_nodes h in
  NoDup (l1 ++ a :: x :: b :: l2) →
  seg σ None l1 (Some a) → seg σ (Some b) l2 None →
  na = mk_tln (last l1) (Some x) (self_of a) → nx = mk_tln (Some a) (Some b) (Some t) →
  nb = mk_tln (Some x) (head l2) (self_of b) →
  seg (link3 a x b na nx nb σ) None (l1 ++ a :: x :: b :: l2) None.
Proof.
  intros σ Hnd Hs1 Hs2 -> -> ->. apply NoDup_app in Hnd as (_ & Hdis & Hnd).
  apply NoDup_cons in Hnd as [Ha Hnd]. apply NoDup_cons in Hnd as [Hx Hnd]. apply NoDup_cons in Hnd as [Hb _].
  rewrite !not_elem_of_cons in *. unfold link3. apply seg_around3. split_and!.
  - eapply seg_frame; [|exact Hs1]. intros n Hn. specialize (Hdis n Hn). rewrite !not_elem_of_cons in Hdis.
    rewrite !lookup_insert_ne by naive_solver. done.
  - destruct Ha as (? & ? & ?). by simplify_map_eq.
  - destruct Ha as (? & ? & ?), Hx as (? & ?). by simplify_map_eq.
  - by simplify_map_eq.
  - eapply seg_frame; [|exact Hs2]. intros n Hn. rewrite !lookup_insert_ne by (intros ->; naive_solver). done.
Qed.

Hypothesis Hseg : seg (h_nodes h) None (l1 ++ a :: b :: l2) None.
Hypothesis Hnd : NoDup (l1 ++ a :: x :: b :: l2).

(** After an insertion between [a] and [b] *)
Definition inserted (h' : heap) : Prop :=
  h_count h' = h_count h ∧ seg (h_nodes h') None (l1 ++ a :: x :: b :: l2) None ∧
  ∀ n, n ∉ l1 ++ a :: x :: b :: l2 → h_nodes h' !! n = h_nodes h !! n.

Lemma nodes_ne : a ≠ x ∧ a ≠ b ∧ x ≠ b.
Proof using Hnd.
  apply NoDup_app in Hnd as (_ & _ & Hnd'). apply NoDup_cons in Hnd' as [Ha Hnd']. apply NoDup_cons in Hnd' as [Hx _].
  rewrite !not_elem_of_cons in *. naive_solver.
Qed.

Lemma insert_ok h' (na nx nb : threadlistnode) :
  na = mk_tln (last l1) (Some x) (self_of a) → nx = mk_tln (Some a) (Some b) (Some t) →
  nb = mk_tln (Some x) (head l2) (self_of b) →
  h_count h' = h_count h → h_nodes h' = link3 a x b na nx nb (h_nodes h) → inserted h'.
Proof using Hseg Hnd.
  intros Hna Hnx Hnb Hc Hn'. apply seg_around in Hseg as (Hs1 & _ & _ & Hs2). split; [done|]. rewrite Hn'.
  split; [by apply link3_seg|].
  intros n Hn. unfold link3. rewrite elem_of_app, !elem_of_cons in Hn. rewrite !lookup_insert_ne by naive_solver. done.
Qed.

Variable nx0 : threadlistnode.
Hypothesis Hx : h_nodes h !! x = Some nx0.
Hypothesis Hself : tln_self nx0 = Some t.

Lemma insertafternode_ok : wp (threadlist_insertafternode a t) (λ _ h', inserted h') h.
Proof using Hseg Hnd Hx Hself.
  destruct nodes_ne as (Hax & Hab & Hxb). pose proof Hseg as Hs. apply seg_around in Hs as (_ & Ha & Hb & _).
  unfold threadlist_insertafternode. fold x. apply wp_run. eexists tt, _. split.
  - upd_step. node_step. upd_step. node_step. cbn [tln_prev tln_next set_prev set_next]. upd_step. node_step.
    cbn [tln_prev tln_next set_prev set_next]. apply upd_run. look.
  - eapply insert_ok; [..|cbn [h_nodes set_nodes]; rewrite insert_insert_eq; reflexivity];
      destruct nx0; cbn in *; by subst.
Qed.

Lemma insertbeforenode_ok : wp (threadlist_insertbeforenode t b) (λ _ h', inserted h') h.
Proof using Hseg Hnd Hx Hself.
  destruct nodes_ne as (Hax & Hab & Hxb). pose proof Hseg as Hs. apply seg_around in Hs as (_ & Ha & Hb & _).
  unfold threadlist_insertbeforenode. fold x. apply wp_run. eexists tt, _. split.
  - node_step. cbn [tln_prev]. upd_step. upd_step. node_step. cbn [tln_prev tln_next set_prev set_next]. upd_step. node_step.
    cbn [tln_prev tln_next set_prev set_next]. apply upd_run. look.
  - eapply insert_ok; [..|cbn [h_nodes set_nodes]; rewrite insert_insert_eq; reflexivity];
      destruct nx0; cbn in *; by subst.
Qed.
End links.

(** After the removal of [x] between [a] and [b] *)
Definition removed (h : heap) (l1 l2 : list tnode) (a b : tnode) (t : Z) (h' : heap) : Prop :=
  h_count h' = h_count h ∧ seg (h_nodes h') None (l1 ++ a :: b :: l2) None ∧
  h_nodes h' !! t_listnode t = Some (mk_tln None None (Some t)) ∧
  ∀ n, n ∉ l1 ++ a :: t_listnode t :: b :: l2 → h_nodes h' !! n = h_nodes h !! n.

Lemma removenode_ok h l1 l2 a b t :
  let x := t_listnode t in
  seg (h_nodes h) None (l1 ++ a :: x :: b :: l2) None → NoDup (l1 ++ a :: x :: b :: l2) →
  wp (threadlist_removenode x) (λ _ h', removed h l1 l2 a b t h') h.
Proof.
  intros x Hseg Hnd. destruct (nodes_ne l1 l2 a b t Hnd) as (Hax & Hab & Hxb). fold x in Hax, Hxb.
  apply seg_around3 in Hseg as (Hs1 & Ha & Hx & Hb & Hs2). unfold threadlist_removenode. fold x. apply wp_run. eexists tt, _. split.
  - node_step. cbn [tln_prev tln_next]. upd_step. node_step. cbn [tln_prev tln_next]. upd_step. upd_step. apply upd_run. look.
  - split; [done|]. cbn [h_nodes set_nodes]. apply NoDup_app in Hnd as (_ & Hdis & Hnd).
    apply NoDup_cons in Hnd as [Ha' Hnd]. apply NoDup_cons in Hnd as [Hx' Hnd]. apply NoDup_cons in Hnd as [Hb' _].
    rewrite !not_elem_of_cons in *. fold x. split_and!.
    + apply seg_around. split_and!; [|by simplify_map_eq|by simplify_map_eq|].
      * eapply seg_frame; [|exact Hs1]. intros n Hn. specialize (Hdis n Hn). rewrite !not_elem_of_cons in Hdis.
        rewrite !lookup_insert_ne by naive_solver. done.
      * eapply seg_frame; [|exact Hs2]. intros n Hn. rewrite !lookup_insert_ne by (intros ->; naive_solver). done.
    + by simplify_map_eq.
    + intros n Hn. rewrite elem_of_app, !elem_of_cons in Hn. rewrite !lookup_insert_ne by naive_solver. done.
Qed.

(** ** Lists of threads *)

Definition nodes (tl : Z) (ts : list Z) : list tnode := tl_head tl :: (t_listnode <$> ts) ++ [tl_tail tl].

Lemma elem_of_nodes n tl ts : n ∈ nodes tl ts ↔ n = tl_head tl ∨ n = tl_tail tl ∨ ∃ t, n = t_listnode t ∧ t ∈ ts.
Proof. unfold nodes. rewrite elem_of_cons, elem_of_app, list_elem_of_fmap, list_elem_of_singleton. naive_solver. Qed.

Lemma nodes_NoDup tl ts : NoDup ts → NoDup (nodes tl ts).
Proof.
  intros H. unfold nodes. constructor.
  - rewrite elem_of_app, list_elem_of_fmap, list_elem_of_singleton. naive_solver.
  - apply NoDup_app. split; [apply NoDup_fmap_2; [by intros ?? [= ->]|done]|]. split; [|apply NoDup_singleton].
    intros n. rewrite list_elem_of_fmap, list_elem_of_singleton. naive_solver.
Qed.

(** The neighbours of a position *)
Definition before (tl : Z) (l : list Z) : tnode := default (tl_head tl) (t_listnode <$> last l).
Definition after (tl : Z) (l : list Z) : tnode := default (tl_tail tl) (t_listnode <$> head l).

Lemma nodes_split tl l1 l2 : ∃ L1 L2, ∀ ts, nodes tl (l1 ++ ts ++ l2) =
  L1 ++ before tl l1 :: (t_listnode <$> ts) ++ after tl l2 :: L2.
Proof.
  unfold nodes, before, after.
  assert (∃ L1, ∀ r, tl_head tl :: (t_listnode <$> l1) ++ r =
    L1 ++ default (tl_head tl) (t_listnode <$> last l1) :: r) as [L1 H1].
  { destruct l1 as [|y l1 _] using rev_ind; [by exists []|]. exists (tl_head tl :: (t_listnode <$> l1)). intros r.
    by rewrite last_snoc, fmap_app, <-app_assoc. }
  assert (∃ L2, (t_listnode <$> l2) ++ [tl_tail tl] = default (tl_tail tl) (t_listnode <$> head l2) :: L2) as [L2 H2].
  { destruct l2 as [|z l2]; [by exists []|]. by exists ((t_listnode <$> l2) ++ [tl_tail tl]). }
  exists L1, L2. intros ts. rewrite !fmap_app, <-!app_assoc, H1, H2. done.
Qed.

(** A thread that is on no list *)
Definition off (h : heap) (t : Z) : Prop := h_nodes h !! t_listnode t = Some (mk_tln None None (Some t)).

(** The heap represents the lists [m]; [T] are the threads there are. *)
Record rep (T : gset Z) (m : gmap Z (list Z)) (h : heap) : Prop := {
  rep_seg tl ts : m !! tl = Some ts → seg (h_nodes h) None (nodes tl ts) None;
  rep_count tl ts : m !! tl = Some ts → h_count h !! tl = Some (Z.of_nat (length ts));
  rep_nodup tl ts : m !! tl = Some ts → NoDup ts;
  rep_in tl ts t : m !! tl = Some ts → t ∈ ts → t ∈ T;
  rep_disj tl ts tl' ts' t : m !! tl = Some ts → m !! tl' = Some ts' → t ∈ ts → t ∈ ts' → tl = tl';
  rep_off t : t ∈ T → (∀ tl ts, m !! tl = Some ts → t ∉ ts) → off h t
}.

Section rep.
Context (T : gset Z) (m : gmap Z (list Z)) (h : heap) (tl : Z) (l1 l2 : list Z) (t : Z).
Hypothesis HT : Z.of_nat (size T) < 2 ^ 32.
Hypothesis Hrep : rep T m h.

Lemma rep_length ts : m !! tl = Some ts → Z.of_nat (length ts) < 2 ^ 32.
Proof using HT Hrep.
  intros H. assert (length ts ≤ size T)%nat; [|lia].
  rewrite <-(size_list_to_set (C := gset Z) ts) by (by eapply rep_nodup).
  apply subseteq_size. intros x Hx. apply elem_of_list_to_set in Hx. by eapply rep_in.
Qed.

(** The nodes of the other lists *)
Lemma other_nodes tl' ts' ts n :
  m !! tl' = Some ts' → tl' ≠ tl → (∀ t, t ∈ ts → t ∉ ts') → n ∈ nodes tl' ts' → n ∉ nodes tl ts.
Proof using.
  intros Hm Hne Hd. rewrite !elem_of_nodes. intros [->|[->|(t' & -> & Ht')]] [Hn|[Hn|(t1 & Hn & Ht1)]]; try congruence.
  injection Hn as ->. by eapply Hd.
Qed.

Lemma rep_insert h' L1 L2 :
  (∀ ts, nodes tl (l1 ++ ts ++ l2) = L1 ++ before tl l1 :: (t_listnode <$> ts) ++ after tl l2 :: L2) →
  m !! tl = Some (l1 ++ l2) → t ∈ T → (∀ tl ts, m !! tl = Some ts → t ∉ ts) →
  inserted h L1 L2 (before tl l1) (after tl l2) t h' →
  wp (count_incr tl) (λ _ h2, rep T (<[tl := l1 ++ t :: l2]> m) h2) h'.
Proof using HT Hrep.
  intros Hsplit Hm Ht Hoff (Hc & Hs & Hf). pose proof (Hsplit [t]) as Hn. cbn [app fmap list_fmap] in Hn.
  unfold count_incr, get_count, put_count. apply wp_bind, wp_bind, wp_gets, wp_deref. rewrite Hc.
  eexists. split; [by eapply rep_count|]. apply wp_modify.
  pose proof (rep_length _ Hm) as Hlen. assert (t ∉ l1 ++ l2) as Hnot by by eapply Hoff.
  assert (NoDup (l1 ++ t :: l2)) as Hnd.
  { rewrite <-Permutation_middle. constructor; [done|]. by eapply rep_nodup. }
  assert (Z.of_nat (length (l1 ++ t :: l2)) < 2 ^ 32) as Hlen'.
  { assert (length (l1 ++ t :: l2) ≤ size T)%nat; [|lia]. rewrite <-(size_list_to_set (C := gset Z) _ Hnd).
    apply subseteq_size. intros x Hx. apply elem_of_list_to_set in Hx. rewrite elem_of_app, elem_of_cons in Hx.
    destruct Hx as [Hx|[->|Hx]]; [|done|]; eapply rep_in; eauto; set_solver. }
  split; cbn [h_nodes h_count set_counts].
  - intros tl' ts' [[<- <-]|[Hne Hm']]%lookup_insert_Some; [by rewrite Hn|].
    eapply seg_frame; [|by eapply rep_seg]. intros n Hin. apply Hf. rewrite <-Hn. eapply other_nodes; [done|done| |done].
    intros t1 Ht1 Ht1'. rewrite elem_of_app, elem_of_cons in Ht1. destruct (decide (t1 = t)) as [->|]; [by eapply Hoff|].
    apply Hne. symmetry. eapply (rep_disj _ _ _ Hrep tl' ts' tl (l1 ++ l2) t1); [done|done|done|]. set_solver.
  - intros tl' ts' [[<- <-]|[Hne Hm']]%lookup_insert_Some; simplify_map_eq.
    + rewrite u32_id; [|rewrite length_app in *; cbn in *; lia]. f_equal. rewrite !length_app in *. cbn in *. lia.
    + rewrite Hc. by eapply rep_count.
  - intros tl' ts' [[<- <-]|[Hne Hm']]%lookup_insert_Some; [done|]. by eapply rep_nodup.
  - intros tl' ts' t' [[<- <-]|[Hne Hm']]%lookup_insert_Some Ht'; [|by eapply rep_in].
    rewrite elem_of_app, elem_of_cons in Ht'. destruct Ht' as [?|[->|?]]; [|done|]; eapply rep_in; eauto; set_solver.
  - intros tl' ts' tl2 ts2 t' H1 H2 Hin1 Hin2. destruct (decide (tl' = tl)) as [->|], (decide (tl2 = tl)) as [->|]; simplify_map_eq; [done| | |].
    + rewrite elem_of_app, elem_of_cons in Hin1. destruct (decide (t' = t)) as [->|]; [exfalso; by eapply Hoff|].
      eapply (rep_disj _ _ _ Hrep tl (l1 ++ l2) tl2 ts2 t'); [done|done|set_solver|done].
    + rewrite elem_of_app, elem_of_cons in Hin2. destruct (decide (t' = t)) as [->|]; [exfalso; by eapply Hoff|].
      eapply (rep_disj _ _ _ Hrep tl' ts' tl (l1 ++ l2) t'); [done|done|done|set_solver].
    + by eapply (rep_disj _ _ _ Hrep tl' ts' tl2 ts2 t').
  - intros t' Ht' Hoff'. assert (t' ∉ l1 ++ t :: l2) as Hn' by (by eapply Hoff'; simplify_map_eq).
    unfold off. cbn [h_nodes set_counts]. rewrite Hf; [eapply rep_off; [done|done|]|].
    + intros tl' ts' Hm'. destruct (decide (tl' = tl)) as [->|]; simplify_map_eq; [set_solver|].
      eapply Hoff'. by rewrite lookup_insert_ne.
    + rewrite <-Hn, elem_of_nodes. naive_solver.
Qed.

Lemma rep_remove h' L1 L2 :
  (∀ ts, nodes tl (l1 ++ ts ++ l2) = L1 ++ before tl l1 :: (t_listnode <$> ts) ++ after tl l2 :: L2) →
  m !! tl = Some (l1 ++ t :: l2) →
  removed h L1 L2 (before tl l1) (after tl l2) t h' →
  wp (count_decr tl) (λ _ h2, rep T (<[tl := l1 ++ l2]> m) h2 ∧ off h2 t) h'.
Proof using HT Hrep.
  intros Hsplit Hm (Hc & Hs & Hx & Hf). pose proof (Hsplit [t]) as Hn. pose proof (Hsplit []) as Hn0. cbn [app fmap list_fmap] in Hn, Hn0.
  unfold count_decr, get_count, put_count. apply wp_bind, wp_bind, wp_gets, wp_deref. rewrite Hc.
  eexists. split; [by eapply rep_count|]. apply wp_modify. split; [|done].
  pose proof (rep_length _ Hm) as Hlen. pose proof (rep_nodup _ _ _ Hrep _ _ Hm) as Hnd.
  assert (NoDup (t :: l1 ++ l2)) as Hnd' by by rewrite Permutation_middle. apply NoDup_cons in Hnd' as [Hnot Hnd'].
  split; cbn [h_nodes h_count set_counts].
  - intros tl' ts' [[<- <-]|[Hne Hm']]%lookup_insert_Some; [by rewrite Hn0|].
    eapply seg_frame; [|by eapply rep_seg]. intros n Hin. apply Hf. rewrite <-Hn. eapply other_nodes; [done|done| |done].
    intros t1 Ht1 Ht1'. apply Hne. symmetry. by eapply (rep_disj _ _ _ Hrep tl' ts' tl (l1 ++ t :: l2) t1).
  - intros tl' ts' [[<- <-]|[Hne Hm']]%lookup_insert_Some; simplify_map_eq.
    + rewrite u32_id; [|rewrite length_app in *; cbn in *; lia]. f_equal. rewrite !length_app in *. cbn in *. lia.
    + rewrite Hc. by eapply rep_count.
  - intros tl' ts' [[<- <-]|[Hne Hm']]%lookup_insert_Some; [done|]. by eapply rep_nodup.
  - intros tl' ts' t' [[<- <-]|[Hne Hm']]%lookup_insert_Some Ht'; [|by eapply rep_in].
    eapply rep_in; eauto. set_solver.
  - intros tl' ts' tl2 ts2 t' H1 H2 Hin1 Hin2. destruct (decide (tl' = tl)) as [->|], (decide (tl2 = tl)) as [->|]; simplify_map_eq; [done| | |].
    + eapply (rep_disj _ _ _ Hrep tl (l1 ++ t :: l2) tl2 ts2 t'); [done|done|set_solver|done].
    + eapply (rep_disj _ _ _ Hrep tl' ts' tl (l1 ++ t :: l2) t'); [done|done|done|set_solver].
    + by eapply (rep_disj _ _ _ Hrep tl' ts' tl2 ts2 t').
  - intros t' Ht' Hoff'. destruct (decide (t' = t)) as [->|Hne]; [done|].
    assert (t' ∉ l1 ++ l2) as Hn' by (by eapply Hoff'; simplify_map_eq).
    unfold off. cbn [h_nodes set_counts]. rewrite Hf; [eapply rep_off; [done|done|]|].
    + intros tl' ts' Hm'. destruct (decide (tl' = tl)) as [->|]; simplify_map_eq; [set_solver|].
      eapply Hoff'. by rewrite lookup_insert_ne.
    + rewrite <-Hn, elem_of_nodes. set_solver.
Qed.

Lemma insertafter_run :
  m !! tl = Some (l1 ++ l2) → t ∈ T → (∀ tl ts, m !! tl = Some ts → t ∉ ts) →
  wp (threadlist_insertafternode (before tl l1) t ;; count_incr tl) (λ _ h2, rep T (<[tl := l1 ++ t :: l2]> m) h2) h ∧
  wp (threadlist_insertbeforenode t (after tl l2) ;; count_incr tl) (λ _ h2, rep T (<[tl := l1 ++ t :: l2]> m) h2) h.
Proof using HT Hrep.
  intros Hm Ht Hoff. destruct (nodes_split tl l1 l2) as (L1 & L2 & Hsplit).
  pose proof (Hsplit [t]) as Hn. pose proof (Hsplit []) as Hn0. cbn [app fmap list_fmap] in Hn, Hn0.
  pose proof (rep_seg _ _ _ Hrep _ _ Hm) as Hs. rewrite Hn0 in Hs.
  assert (NoDup (L1 ++ before tl l1 :: t_listnode t :: after tl l2 :: L2)) as Hnd.
  { rewrite <-Hn. apply nodes_NoDup. rewrite <-Permutation_middle. constructor; [by eapply Hoff|by eapply rep_nodup]. }
  pose proof (rep_off _ _ _ Hrep t Ht Hoff) as Hto.
  split; apply wp_bind; (eapply wp_mono; [first [by eapply insertafternode_ok | by eapply insertbeforenode_ok]|]);
    intros [] h' Hins; by eapply rep_insert.
Qed.

Lemma remove_run :
  m !! tl = Some (l1 ++ t :: l2) →
  wp (threadlist_removenode (t_listnode t) ;; count_decr tl)
    (λ _ h2, rep T (<[tl := l1 ++ l2]> m) h2 ∧ off h2 t) h.
Proof using HT Hrep.
  intros Hm. destruct (nodes_split tl l1 l2) as (L1 & L2 & Hsplit).
  pose proof (Hsplit [t]) as Hn. cbn [app fmap list_fmap] in Hn.
  pose proof (rep_seg _ _ _ Hrep _ _ Hm) as Hs. rewrite Hn in Hs.
  pose proof (nodes_NoDup tl _ (rep_nodup _ _ _ Hrep _ _ Hm)) as Hnd. rewrite Hn in Hnd.
  apply wp_bind. eapply wp_mono; [by apply removenode_ok|]. intros [] h' Hr. by eapply rep_remove.
Qed.
End rep.

(** ** The operations on sequences *)

Inductive tl_op : Type :=
  | AddHead (tl t : Z)
  | AddTail (tl t : Z)
  | RemHead (tl : Z)
  | RemTail (tl : Z)
  | InsertAfter (tl onlist addee : Z)
  | InsertBefore (tl addee onlist : Z)
  | Remove (tl t : Z).

Definition run_op (o : tl_op) : M heap (option Z) :=
  match o with
  | AddHead tl t => threadlist_addhead tl t ;; mret None
  | AddTail tl t => threadlist_addtail tl t ;; mret None
  | RemHead tl => threadlist_remhead tl
  | RemTail tl => threadlist_remtail tl
  | InsertAfter tl on t => threadlist_insertafter tl on t ;; mret None
  | InsertBefore tl t on => threadlist_insertbefore tl t on ;; mret None
  | Remove tl t => threadlist_remove tl t ;; mret None
  end.

Definition on_no_list (m : gmap Z (list Z)) (t : Z) : Prop := ∀ tl ts, m !! tl = Some ts → t ∉ ts.

(** What each operation does to the sequences, and when it may be called *)
Inductive spec_op (T : gset Z) (m : gmap Z (list Z)) : tl_op → option Z → gmap Z (list Z) → Prop :=
  | spec_addhead tl ts t : m !! tl = Some ts → t ∈ T → on_no_list m t →
      spec_op T m (AddHead tl t) None (<[tl := t :: ts]> m)
  | spec_addtail tl ts t : m !! tl = Some ts → t ∈ T → on_no_list m t →
      spec_op T m (AddTail tl t) None (<[tl := ts ++ [t]]> m)
  | spec_remhead tl t ts : m !! tl = Some (t :: ts) → spec_op T m (RemHead tl) (Some t) (<[tl := ts]> m)
  | spec_remhead_empty tl : m !! tl = Some [] → spec_op T m (RemHead tl) None m
  | spec_remtail tl t ts : m !! tl = Some (ts ++ [t]) → spec_op T m (RemTail tl) (Some t) (<[tl := ts]> m)
  | spec_remtail_empty tl : m !! tl = Some [] → spec_op T m (RemTail tl) None m
  | spec_insertafter tl l1 on l2 t : m !! tl = Some (l1 ++ on :: l2) → t ∈ T → on_no_list m t →
      spec_op T m (InsertAfter tl on t) None (<[tl := l1 ++ on :: t :: l2]> m)
  | spec_insertbefore tl l1 on l2 t : m !! tl = Some (l1 ++ on :: l2) → t ∈ T → on_no_list m t →
      spec_op T m (InsertBefore tl t on) None (<[tl := l1 ++ t :: on :: l2]> m)
  | spec_remove tl l1 t l2 : m !! tl = Some (l1 ++ t :: l2) →
      spec_op T m (Remove tl t) None (<[tl := l1 ++ l2]> m).

Lemma wp_then_ret {S A B} (m : M S A) (b : B) (Q : B → S → Prop) s :
  wp m (λ _, Q b) s → wp (m ;; mret b) Q s.
Proof. intros H. apply wp_bind. eapply wp_mono; [exact H|]. intros a s' HQ. by apply wp_ret. Qed.

(** Taking the first and the last thread, or none *)
Section rem_ends.
Context (T : gset Z) (m : gmap Z (list Z)) (h : heap) (tl : Z).
Hypothesis HT : Z.of_nat (size T) < 2 ^ 32.
Hypothesis Hrep : rep T m h.

Lemma rem_end_run l1 l2 t :
  m !! tl = Some (l1 ++ t :: l2) →
  wp (threadlist_removenode (t_listnode t) ;; count_decr tl ;; n ← node (Some (t_listnode t)); mret (tln_self n))
    (λ r h2, r = Some t ∧ rep T (<[tl := l1 ++ l2]> m) h2) h.
Proof using HT Hrep.
  intros Hm. pose proof (remove_run T m h tl l1 l2 t HT Hrep Hm) as Hr. apply wp_bind in Hr. apply wp_bind.
  eapply wp_mono; [exact Hr|]. intros [] h1 H1. apply wp_bind. eapply wp_mono; [exact H1|]. intros [] h2 [H2 Ho].
  apply wp_bind. erewrite wp_eq by (by apply node_run). by apply wp_ret.
Qed.

Lemma remhead_run t ts :
  m !! tl = Some (t :: ts) → wp (threadlist_remhead tl) (λ r h2, r = Some t ∧ rep T (<[tl := ts]> m) h2) h.
Proof using HT Hrep.
  intros Hm. pose proof (rep_seg _ _ _ Hrep _ _ Hm) as (Hh & Hx & _). cbn in Hh, Hx. unfold threadlist_remhead.
  do 2 (apply wp_bind; erewrite wp_eq by (by apply node_run)). rewrite bool_decide_eq_false_2 by (by destruct ts).
  apply wp_bind, wp_deref. eexists. split; [done|]. by apply (rem_end_run []).
Qed.

Lemma remtail_run t ts :
  m !! tl = Some (ts ++ [t]) → wp (threadlist_remtail tl) (λ r h2, r = Some t ∧ rep T (<[tl := ts]> m) h2) h.
Proof using HT Hrep.
  intros Hm. pose proof (rep_seg _ _ _ Hrep _ _ Hm) as Hs.
  destruct (nodes_split tl ts []) as (L1 & L2 & Hsplit). pose proof (Hsplit [t]) as Hn. cbn [app fmap list_fmap] in Hn. rewrite Hn in Hs.
  apply seg_around3 in Hs as (_ & _ & Hx & Hb & _). unfold threadlist_remtail.
  do 2 (apply wp_bind; erewrite wp_eq by (by apply node_run)).
  apply wp_bind, wp_deref. eexists. split; [done|]. pose proof (rem_end_run ts [] t Hm) as Hr. by rewrite app_nil_r in Hr.
Qed.

Lemma rem_empty_run :
  m !! tl = Some [] → wp (threadlist_remhead tl) (λ r h2, r = None ∧ rep T m h2) h ∧
    wp (threadlist_remtail tl) (λ r h2, r = None ∧ rep T m h2) h.
Proof using Hrep.
  intros Hm. pose proof (rep_seg _ _ _ Hrep _ _ Hm) as (Hh & Hx & _). cbn in Hh, Hx.
  split; do 2 (apply wp_bind; erewrite wp_eq by (by apply node_run)); by apply wp_ret.
Qed.
End rem_ends.

(** Every operation has the effect of its counterpart on the sequences. *)
Lemma op_refines T m h o r m' :
  Z.of_nat (size T) < 2 ^ 32 → rep T m h → spec_op T m o r m' →
  wp (run_op o) (λ r' h', r' = r ∧ rep T m' h') h.
Proof.
  intros HT Hrep Hop. inversion Hop as [tl ts t Hm Ht Hoff|tl ts t Hm Ht Hoff|tl t ts Hm|tl Hm|tl t ts Hm|tl Hm|
    tl l1 on l2 t Hm Ht Hoff|tl l1 on l2 t Hm Ht Hoff|tl l1 t l2 Hm]; subst; cbn [run_op].
  - apply wp_then_ret. eapply wp_mono; [apply (insertafter_run T m h tl [] ts t HT Hrep Hm Ht Hoff)|done].
  - apply wp_then_ret. rewrite <-(app_nil_r ts) in Hm.
    eapply wp_mono; [apply (insertafter_run T m h tl ts [] t HT Hrep Hm Ht Hoff)|done].
  - by apply remhead_run.
  - exact (proj1 (rem_empty_run _ _ _ _ Hrep Hm)).
  - by apply remtail_run.
  - exact (proj2 (rem_empty_run _ _ _ _ Hrep Hm)).
  - apply wp_then_ret. replace (l1 ++ on :: l2) with ((l1 ++ [on]) ++ l2) in Hm by by rewrite <-app_assoc.
    pose proof (insertafter_run T m h tl (l1 ++ [on]) l2 t HT Hrep Hm Ht Hoff) as [Hr _].
    unfold before in Hr. rewrite last_snoc in Hr. rewrite <-app_assoc in Hr. eapply wp_mono; [exact Hr|done].
  - apply wp_then_ret. pose proof (insertafter_run T m h tl l1 (on :: l2) t HT Hrep Hm Ht Hoff) as [_ Hr].
    eapply wp_mono; [exact Hr|done].
  - apply wp_then_ret. eapply wp_mono; [apply (remove_run T m h tl l1 l2 t HT Hrep Hm)|naive_solver].
Qed.

(** A sequence of operations *)
Fixpoint run_ops (os : list tl_op) : M heap (list (option Z)) :=
  match os with
  | [] => mret []
  | o :: os => r ← run_op o; rs ← run_ops os; mret (r :: rs)
  end.
Inductive spec_ops (T : gset Z) : gmap Z (list Z) → list tl_op → list (option Z) → gmap Z (list Z) → Prop :=
  | spec_nil m : spec_ops T m [] [] m
  | spec_cons m o r m1 os rs m2 : spec_op T m o r m1 → spec_ops T m1 os rs m2 → spec_ops T m (o :: os) (r :: rs) m2.

Lemma ops_refine T m h os rs m' :
  Z.of_nat (size T) < 2 ^ 32 → rep T m h → spec_ops T m os rs m' →
  wp (run_ops os) (λ rs' h', rs' = rs ∧ rep T m' h') h.
Proof.
  intros HT Hrep Hops. revert h Hrep. induction Hops as [m|m o r m1 os rs m2 Hop Hops IH]; intros h Hrep; [by apply wp_ret|].
  cbn [run_ops]. apply wp_bind. eapply wp_mono; [by eapply op_refines|]. intros r' h1 [-> H1].
  apply wp_bind. eapply wp_mono; [by apply IH|]. intros rs' h2 [-> H2]. by apply wp_ret.
Qed.

(** A list's first state *)
Lemma threadlist_init_run T m h tl :
  rep T m h → m !! tl = None →
  wp (threadlist_init tl) (λ _ h', rep T (<[tl := []]> m) h') h.
Proof.
  intros Hrep Hnone. unfold threadlist_init, put_count. wp_steps.
  assert (∀ tl' ts' n, m !! tl' = Some ts' → n ∈ nodes tl' ts' → n ≠ tl_head tl ∧ n ≠ tl_tail tl) as Hother.
  { intros tl' ts' n Hm' Hn. apply elem_of_nodes in Hn as [->|[->|(t & -> & _)]]; split; intros [= ->]; congruence. }
  split; cbn [h_nodes h_count set_counts set_nodes].
  - intros tl' ts' [[<- <-]|[Hne Hm']]%lookup_insert_Some; [cbn; by simplify_map_eq|].
    eapply seg_frame; [|by eapply rep_seg]. intros n Hn. destruct (Hother _ _ _ Hm' Hn). by rewrite !lookup_insert_ne.
  - intros tl' ts' [[<- <-]|[Hne Hm']]%lookup_insert_Some; simplify_map_eq; [done|]. by eapply rep_count.
  - intros tl' ts' [[<- <-]|[Hne Hm']]%lookup_insert_Some; [constructor|]. by eapply rep_nodup.
  - intros tl' ts' t' [[<- <-]|[Hne Hm']]%lookup_insert_Some Ht'; [by apply not_elem_of_nil in Ht'|]. by eapply rep_in.
  - intros tl' ts' tl2 ts2 t' [[<- <-]|[? H1]]%lookup_insert_Some [[<- <-]|[? H2]]%lookup_insert_Some Hin1 Hin2;
      try done; try (by apply not_elem_of_nil in Hin1); try (by apply not_elem_of_nil in Hin2). by eapply (rep_disj _ _ _ Hrep tl' ts' tl2 ts2 t').
  - intros t' Ht' Hoff'. unfold off. cbn [h_nodes set_counts set_nodes]. rewrite !lookup_insert_ne by done.
    eapply rep_off; [done|done|]. intros tl' ts' Hm'. eapply (Hoff' tl'). rewrite lookup_insert_ne; [done|congruence].
Qed.

(** The loops over a list *)
Section visit.
Context (T : gset Z) (m : gmap Z (list Z)) (h : heap) (tl : Z) (ts : list Z).
Hypothesis HT : Z.of_nat (size T) < 2 ^ 32.
Hypothesis Hrep : rep T m h.
Hypothesis Hm : m !! tl = Some ts.

Lemma node_at l1 t l2 : ts = l1 ++ t :: l2 →
  h_nodes h !! t_listnode t = Some (mk_tln (Some (before tl l1)) (Some (after tl l2)) (Some t)).
Proof using Hrep Hm.
  intros E. pose proof (rep_seg _ _ _ Hrep _ _ Hm) as Hs. rewrite E in Hs.
  destruct (nodes_split tl l1 l2) as (L1 & L2 & Hsplit). pose proof (Hsplit [t]) as Hn. cbn [app fmap list_fmap] in Hn. rewrite Hn in Hs. by apply seg_around3 in Hs as (_ & _ & Hx & _).
Qed.

Lemma ends_at : h_nodes h !! tl_head tl = Some (mk_tln None (Some (after tl ts)) None) ∧
  h_nodes h !! tl_tail tl = Some (mk_tln (Some (before tl ts)) None None).
Proof using Hrep Hm.
  pose proof (rep_seg _ _ _ Hrep _ _ Hm) as Hs. split.
  - destruct Hs as [Hh _]. rewrite Hh. unfold after. by destruct ts.
  - unfold nodes in Hs. rewrite app_comm_cons in Hs. apply seg_app in Hs as [_ [Ht _]]. rewrite Ht. do 2 f_equal.
    rewrite last_cons, fmap_last. unfold before. by destruct (last ts).
Qed.

(** Forward from a position, backward from a position *)
Lemma forall_run : wp (THREADLIST_FORALL tl) (λ r h', r = ts ∧ h' = h) h.
Proof using HT Hrep Hm.
  destruct ends_at as [Hh Htl]. pose proof (rep_length T m h tl HT Hrep ts Hm) as Hlen.
  unfold THREADLIST_FORALL. apply wp_bind. erewrite wp_eq by (by apply node_run). apply wp_bind, wp_deref.
  eexists. split; [done|]. unfold visit.
  apply (wp_while _ (λ st h', h' = h ∧ ∃ l2, ts = st.2 ++ l2 ∧ st.1 = Some (after tl l2))
    (λ st _, Z.of_nat (length ts) - Z.of_nat (length st.2))).
  - split; [done|]. by exists ts.
  - intros [p seen] h' (_ & l2 & E & _). cbn [fst snd] in *. rewrite E, length_app. lia.
  - cbn [fst snd length]. lia.
  - intros [p seen] h' (-> & l2 & E & Hp). cbn [fst snd] in *. subst p. destruct l2 as [|t l2].
    + apply wp_bind. erewrite wp_eq by (by apply node_run). rewrite app_nil_r in E. by apply wp_ret.
    + pose proof (node_at _ _ _ E) as Hn. apply wp_bind. erewrite wp_eq by (by apply node_run). cbn [tln_self].
      apply wp_bind. erewrite wp_eq by (by apply node_run). apply wp_ret. cbn [fst snd tln_next]. split.
      * split; [done|]. exists l2. by rewrite <-app_assoc.
      * rewrite length_app. cbn [length]. lia.
Qed.

Lemma forall_rev_run : wp (THREADLIST_FORALL_REV tl) (λ r h', r = reverse ts ∧ h' = h) h.
Proof using HT Hrep Hm.
  destruct ends_at as [Hh Htl]. pose proof (rep_length T m h tl HT Hrep ts Hm) as Hlen.
  unfold THREADLIST_FORALL_REV. apply wp_bind. erewrite wp_eq by (by apply node_run). apply wp_bind, wp_deref.
  eexists. split; [done|]. unfold visit.
  apply (wp_while _ (λ st h', h' = h ∧ ∃ l1, ts = l1 ++ reverse st.2 ∧ st.1 = Some (before tl l1))
    (λ st _, Z.of_nat (length ts) - Z.of_nat (length st.2))).
  - split; [done|]. exists ts. by rewrite app_nil_r.
  - intros [p seen] h' (_ & l1 & E & _). cbn [fst snd] in *. rewrite E, length_app, length_reverse. lia.
  - cbn [fst snd length]. lia.
  - intros [p seen] h' (-> & l1 & E & Hp). cbn [fst snd] in *. subst p. destruct l1 as [|t l1 _] using rev_ind.
    + apply wp_bind. erewrite wp_eq by (by apply node_run). apply wp_ret. split; [|done].
      by rewrite E, app_nil_l, reverse_involutive.
    + rewrite <-app_assoc in E. pose proof (node_at _ _ _ E) as Hn. unfold before at 1. rewrite last_snoc. cbn [fmap option_fmap option_map default].
      apply wp_bind. erewrite wp_eq by (by apply node_run). cbn [tln_self].
      apply wp_bind. erewrite wp_eq by (by apply node_run). apply wp_ret. cbn [fst snd tln_prev]. split.
      * split; [done|]. exists l1. by rewrite reverse_app.
      * rewrite length_app. cbn [length]. lia.
Qed.
End visit.

(** C24. The doubly linked thread lists implement sequences: after any
    operations, each called on threads and lists it may be called on, the
    operations have returned what they return on sequences, the loops over a
    list visit the threads of its sequence forwards and backwards, and the
    links and counts represent the sequences again. *)
Theorem threadlist_refines T m h os rs m' tl ts :
  Z.of_nat (size T) < 2 ^ 32 → rep T m h → spec_ops T m os rs m' → m' !! tl = Some ts →
  wp (rs' ← run_ops os; l ← THREADLIST_FORALL tl; l' ← THREADLIST_FORALL_REV tl; mret (rs', l, l'))
    (λ x h', x = (rs, ts, reverse ts) ∧ rep T m' h') h.
Proof.
  intros HT Hrep Hops Hm. apply wp_bind. eapply wp_mono; [by eapply ops_refine|]. intros rs' h1 [-> H1].
  apply wp_bind. eapply wp_mono; [by eapply forall_run|]. intros l h2 [-> ->].
  apply wp_bind. eapply wp_mono; [by eapply forall_rev_run|]. intros l' h3 [-> ->]. by apply wp_ret.
Qed.

(** Two threads and an empty list, as [threadlist_init] leaves it *)
Definition demo_heap : heap :=
  mk_heap {[ tl_head 5 := mk_tln None (Some (tl_tail 5)) None; tl_tail 5 := mk_tln (Some (tl_head 5)) None None;
             t_listnode 1 := mk_tln None None (Some 1); t_listnode 2 := mk_tln None None (Some 2) ]} {[ 5 := 0 ]}.

Lemma demo_rep : rep {[ 1; 2 ]} {[ 5 := [] ]} demo_heap.
Proof.
  assert (∀ tl ts, ({[ 5 := [] ]} : gmap Z (list Z)) !! tl = Some ts → tl = 5 ∧ ts = []) as Hinv.
  { intros tl ts H. by apply lookup_singleton_Some in H as [<- <-]. }
  split.
  - intros tl ts [-> ->]%Hinv. by vm_compute.
  - intros tl ts [-> ->]%Hinv. done.
  - intros tl ts [-> ->]%Hinv. constructor.
  - intros tl ts t [-> ->]%Hinv Ht. by apply not_elem_of_nil in Ht.
  - intros tl ts tl' ts' t [-> ->]%Hinv [-> ->]%Hinv. done.
  - intros t Ht _. apply elem_of_union in Ht as [->%elem_of_singleton | ->%elem_of_singleton]; done.
Qed.

Lemma threadlist_refines_witness :
  wp (rs' ← run_ops [AddTail 5 1; AddHead 5 2; RemTail 5]; l ← THREADLIST_FORALL 5; l' ← THREADLIST_FORALL_REV 5; mret (rs', l, l'))
    (λ x h', x = ([None; None; Some 1], [2], reverse [2]) ∧ rep {[ 1; 2 ]} (<[5 := [2]]> (<[5 := [2; 1]]> (<[5 := [1]]> {[ 5 := [] ]}))) h') demo_heap.
Proof.
  apply (threadlist_refines {[ 1; 2 ]} {[ 5 := [] ]} demo_heap); [by vm_compute|exact demo_rep| |done].
  eapply spec_cons; [apply (spec_addtail _ _ 5 [] 1)|eapply spec_cons; [apply (spec_addhead _ _ 5 [1] 2)|eapply spec_cons; [apply (spec_remtail _ _ 5 1 [2])|constructor]]];
    try done; try set_solver; intros tl ts H; (apply lookup_insert_Some in H as [[<- <-]|[_ H]] || idtac);
    try (apply lookup_singleton_Some in H as [<- <-]); set_solver.
Defined.
