(* ===== verification/Synch.v ===== *)
(** * Semaphores, locks and condition variables ([kern/thread/synch.c])

    The routines run on several processors at once, so they are modelled as
    programs of a transition system: one step is one access to shared memory
    or one call of [spinlock_acquire], [spinlock_release], [wchan_sleep],
    [wchan_wakeone] or [wchan_wakeall] ([kern/thread/thread.c]), and the steps
    of the threads interleave in any order.  A sleeping thread is on the queue
    of its wait channel until another thread takes it off; it then acquires
    the spinlock again, as [wchan_sleep] does after [thread_switch].

    An assignment that reads the object before it writes it ([sem_count++],
    [sem_count--]) is two steps, a load into a register of the thread and a
    store, so an update can be lost unless a spinlock prevents it; the
    assertions around it are steps of their own, which a thread cannot pass
    when they are false.  The threads are outside interrupt handlers
    ([t_in_interrupt] is false), as [P] and [wchan_sleep] assert.

    [P] and [lock_acquire] have the same structure, a loop that sleeps until
    the object is ready, and [V] and [lock_release] another one; what a
    semaphore and a lock have in common is the class [Guarded].  The theorems
    hold for any number of threads calling the routines in any order: the
    assertions never fail ([asserts_hold]), a wakeup is never lost
    ([no_lost_wakeup]), some thread can always move ([progress]), no update of
    a count is lost ([sem_count_reach]), and only the owner of a lock can end
    its ownership ([ownership]). *)

From S2P Require Import Prelude.

(** ** What semaphores and locks have in common

    [ready]: the object can be had; [take] and [give]: its change by a thread,
    [blind] if they do not read its old value; [give_ok]: the assertion after
    [give]; [holds]: what a thread checks before it gives, and [unowned] if it
    does not check; [credit]: how many threads could take now. *)
Class Guarded (St : Type) := {
  ready : St → bool;
  take : Z → St → St;
  give : Z → St → St;
  blind : bool;
  give_ok : St → bool;
  holds : Z → St → bool;
  unowned : bool;
  credit : St → Z
}.

Class GuardedLaws (St : Type) `{Guarded St} : Prop := {
  take_blind t s s' : blind = true → take t s = take t s';
  give_blind t s s' : blind = true → give t s = give t s';
  holds_unowned t s : unowned = true → holds t s = true;
  holds_take t s : ready s = true → holds t (take t s) = true;
  holds_take_other t u s : u ≠ t → ready s = true → holds t s = true → holds t (take u s) = true;
  holds_give_other t u s : u ≠ t → holds u s = true → holds t s = true → holds t (give u s) = true;
  credit_pos s : 0 ≤ credit s;
  credit_ready s : ready s = true → 0 < credit s;
  credit_not_ready s : ready s = false → credit s = 0;
  credit_take t s : ready s = true → credit (take t s) ≤ credit s - 1;
  credit_give t s : holds t s = true → credit (give t s) ≤ credit s + 1
}.

(** ** The programs

    Spinlock 0 and wait channel 0 belong to the semaphore or the lock, 1 to
    the condition variable. *)
Inductive instr : Type :=
  | IAcq (l : nat)                        (* spinlock_acquire *)
  | IRel (l : nat)                        (* spinlock_release *)
  | IWhile                                (* while (not ready) wchan_sleep(0, 0) *)
  | ILoad                                 (* read the object into the register *)
  | ITake                                 (* store what [take] makes of the register *)
  | IGive                                 (* store what [give] makes of the register *)
  | IAssertReady                          (* KASSERT(ready) *)
  | IAssertGiven                          (* KASSERT(give_ok) *)
  | ISleep (wc l : nat)                   (* wchan_sleep(wc, l) *)
  | IWakeOne (wc l : nat)
  | IWakeAll (wc l : nat)
  | IIf (b : bool) (br : list instr).     (* if (lock_do_i_hold == b) { br } *)

Inductive tstate : Type :=
  | Run (k : list instr)
  | Slept (wc : nat) (k : list instr).

Section synch.
Context {St : Type} `{HG : Guarded St}.

Record sys : Type := mk_sys {
  vars : St;
  reg : Z → St;
  spin : nat → option Z;
  wq : nat → list Z;
  thr : Z → tstate
}.

Definition put {A B} `{EqDecision A} (f : A → B) (a : A) (b : B) : A → B := λ x, if decide (x = a) then b else f x.

(** A wakeup: the thread acquires the spinlock again. *)
Definition woken (st : tstate) : tstate := match st with Slept _ k => Run k | Run k => Run k end.

Inductive label : Type := LTau | LTake | LGive.

(** One step of thread [t].  A step whose assertion fails is not possible: the
    kernel has panicked. *)
Inductive step (ops : list (list instr)) (t : Z) (s : sys) : label → sys → Prop :=
  | step_call op : thr s t = Run [] → op ∈ ops →
      step ops t s LTau (mk_sys (vars s) (reg s) (spin s) (wq s) (put (thr s) t (Run op)))
  | step_acq l k : thr s t = Run (IAcq l :: k) → spin s l = None →
      step ops t s LTau (mk_sys (vars s) (reg s) (put (spin s) l (Some t)) (wq s) (put (thr s) t (Run k)))
  | step_rel l k : thr s t = Run (IRel l :: k) → spin s l = Some t →
      step ops t s LTau (mk_sys (vars s) (reg s) (put (spin s) l None) (wq s) (put (thr s) t (Run k)))
  | step_while_exit k : thr s t = Run (IWhile :: k) → ready (vars s) = true →
      step ops t s LTau (mk_sys (vars s) (reg s) (spin s) (wq s) (put (thr s) t (Run k)))
  | step_while_sleep k : thr s t = Run (IWhile :: k) → ready (vars s) = false → spin s 0%nat = Some t →
      step ops t s LTau (mk_sys (vars s) (reg s) (put (spin s) 0%nat None) (put (wq s) 0%nat (wq s 0%nat ++ [t]))
        (put (thr s) t (Slept 0 (IAcq 0 :: IWhile :: k))))
  | step_load k : thr s t = Run (ILoad :: k) →
      step ops t s LTau (mk_sys (vars s) (put (reg s) t (vars s)) (spin s) (wq s) (put (thr s) t (Run k)))
  | step_take k : thr s t = Run (ITake :: k) →
      step ops t s LTake (mk_sys (take t (reg s t)) (reg s) (spin s) (wq s) (put (thr s) t (Run k)))
  | step_give k : thr s t = Run (IGive :: k) →
      step ops t s LGive (mk_sys (give t (reg s t)) (reg s) (spin s) (wq s) (put (thr s) t (Run k)))
  | step_assert_ready k : thr s t = Run (IAssertReady :: k) → ready (vars s) = true →
      step ops t s LTau (mk_sys (vars s) (reg s) (spin s) (wq s) (put (thr s) t (Run k)))
  | step_assert_given k : thr s t = Run (IAssertGiven :: k) → give_ok (vars s) = true →
      step ops t s LTau (mk_sys (vars s) (reg s) (spin s) (wq s) (put (thr s) t (Run k)))
  | step_sleep wc l k : thr s t = Run (ISleep wc l :: k) → spin s l = Some t →
      step ops t s LTau (mk_sys (vars s) (reg s) (put (spin s) l None) (put (wq s) wc (wq s wc ++ [t]))
        (put (thr s) t (Slept wc (IAcq l :: k))))
  | step_wakeone_none wc l k : thr s t = Run (IWakeOne wc l :: k) → spin s l = Some t → wq s wc = [] →
      step ops t s LTau (mk_sys (vars s) (reg s) (spin s) (wq s) (put (thr s) t (Run k)))
  | step_wakeone wc l k u q : thr s t = Run (IWakeOne wc l :: k) → spin s l = Some t → wq s wc = u :: q →
      step ops t s LTau (mk_sys (vars s) (reg s) (spin s) (put (wq s) wc q)
        (put (put (thr s) u (woken (thr s u))) t (Run k)))
  | step_wakeall wc l k : thr s t = Run (IWakeAll wc l :: k) → spin s l = Some t →
      step ops t s LTau (mk_sys (vars s) (reg s) (spin s) (put (wq s) wc [])
        (put (λ u, if decide (u ∈ wq s wc) then woken (thr s u) else thr s u) t (Run k)))
  | step_if b br k : thr s t = Run (IIf b br :: k) →
      step ops t s LTau (mk_sys (vars s) (reg s) (spin s) (wq s)
        (put (thr s) t (Run (if Bool.eqb (holds t (vars s)) b then br ++ k else k)))).

(** Runs from a state with every thread outside the routines, and anything in
    the registers *)
Definition initial (v : St) (r : Z → St) : sys := mk_sys v r (λ _, None) (λ _, []) (λ _, Run []).

Inductive reach (ops : list (list instr)) (ts : list Z) (v : St) : Z → Z → sys → Prop :=
  | reach_init r : reach ops ts v 0 0 (initial v r)
  | reach_tau takes gives s t s' : reach ops ts v takes gives s → t ∈ ts → step ops t s LTau s' → reach ops ts v takes gives s'
  | reach_take takes gives s t s' : reach ops ts v takes gives s → t ∈ ts → step ops t s LTake s' → reach ops ts v (takes + 1) gives s'
  | reach_give takes gives s t s' : reach ops ts v takes gives s → t ∈ ts → step ops t s LGive s' → reach ops ts v takes (gives + 1) s'.

(** The assertions at the point where a thread is: [wchan_sleep] wants its
    spinlock held and no other one ([curcpu->c_spinlocks == 1]), the wakeups
    want it held, [P] asserts [sem_count > 0], a release is of a held lock.
    ([V] asserts that the count did not wrap, which is not for it to ensure:
    see [sem_count_reach].) *)
Definition holds_spin (s : sys) (t : Z) (l : nat) : Prop := spin s l = Some t.
Definition only_spin (s : sys) (t : Z) (l : nat) : Prop := ∀ l', spin s l' = Some t ↔ l' = l.
Definition asserts_ok (s : sys) (t : Z) : Prop :=
  match thr s t with
  | Run (IRel l :: _) => holds_spin s t l
  | Run (IWhile :: _) => only_spin s t 0
  | Run (ITake :: _) | Run (IAssertReady :: _) => holds_spin s t 0 ∧ ready (vars s) = true
  | Run (ILoad :: _) | Run (IAssertGiven :: _) => holds_spin s t 0
  | Run (IGive :: _) => holds_spin s t 0 ∧ holds t (vars s) = true
  | Run (ISleep _ l :: _) => only_spin s t l
  | Run (IWakeOne _ l :: _) | Run (IWakeAll _ l :: _) => holds_spin s t l
  | _ => True
  end.

(** ** A static check of the programs

    What is known at a point of a program: the spinlocks the thread holds;
    that the object is ready, and the thread is about to take it; that it was
    given back, and a wakeup must follow; that the thread holds the object;
    that the register has the value of the object.
    The check fixes the order of the spinlocks: 0 is the last. *)
Record known : Type := mk_known { k_spin : list nat; k_ready : bool; k_wake : bool; k_holds : bool; k_loaded : bool }.
Definition plain (sp : list nat) (h : bool) : known := mk_known sp false false h false.
Definition is_plain (k : known) : bool := negb (k_ready k) && negb (k_wake k) && negb (k_loaded k).

(** The spinlocks held after acquiring [l] *)
Definition acquired (l : nat) (sp : list nat) : option (list nat) :=
  match l, sp with
  | O, [] => Some [0%nat]
  | O, [1%nat] => Some [0%nat; 1%nat]
  | S O, [] => Some [1%nat]
  | _, _ => None
  end.

Fixpoint check_instr (i : instr) (k : known) {struct i} : option known :=
  let fix check_block (br : list instr) (k : known) : option known :=
    match br with
    | [] => Some k
    | i :: br => match check_instr i k with Some k' => check_block br k' | None => None end
    end in
  match i with
  | ILoad =>
      if decide (k_wake k = false ∧ 0%nat ∈ k_spin k) then Some (mk_known (k_spin k) (k_ready k) false (k_holds k) true) else None
  | ITake => if k_ready k && negb (k_wake k) && (blind || k_loaded k) then Some (plain (k_spin k) true) else None
  | IAssertReady => if k_ready k then Some k else None
  | IAssertGiven => if decide (k_ready k = false ∧ k_wake k = true) then Some k else None
  | IWakeOne wc l =>
      if decide (k_ready k = false ∧ k_loaded k = false ∧ l ∈ k_spin k ∧ wc = l ∧ (k_wake k = true → wc = 0%nat))
      then Some (plain (k_spin k) (k_holds k)) else None
  | IAcq l =>
      if is_plain k then match acquired l (k_spin k) with Some sp => Some (plain sp (k_holds k)) | None => None end else None
  | IRel l =>
      if decide (is_plain k = true ∧ head (k_spin k) = Some l ∧ l ∉ tail (k_spin k)) then Some (plain (tail (k_spin k)) (k_holds k)) else None
  | IWhile => if decide (is_plain k = true ∧ k_spin k = [0%nat]) then Some (mk_known [0%nat] true false false false) else None
  | IGive =>
      if decide (k_ready k = false ∧ k_wake k = false ∧ orb unowned (k_holds k) = true ∧ 0%nat ∈ k_spin k ∧ orb blind (k_loaded k) = true)
      then Some (mk_known (k_spin k) false true false false) else None
  | ISleep wc l =>
      if decide (is_plain k = true ∧ k_spin k = [l] ∧ wc = l ∧ wc = 1%nat) then Some (plain [l] false) else None
  | IWakeAll wc l =>
      if decide (is_plain k = true ∧ l ∈ k_spin k ∧ wc = l ∧ wc = 1%nat) then Some k else None
  | IIf b br =>
      match check_block br (plain (k_spin k) (b || k_holds k)) with
      | Some k' => if decide (is_plain k = true ∧ is_plain k' = true ∧ k_spin k' = k_spin k)
                   then Some (plain (k_spin k) false) else None
      | None => None
      end
  end.

Fixpoint check (br : list instr) (k : known) : option known :=
  match br with
  | [] => Some k
  | i :: br => match check_instr i k with Some k' => check br k' | None => None end
  end.

(** A program that passes from outside to outside *)
Definition passes (k : known) (br : list instr) : Prop :=
  ∃ k', check br k = Some k' ∧ is_plain k' = true ∧ k_spin k' = [].

Lemma check_if b br k :
  check_instr (IIf b br) k =
  match check br (plain (k_spin k) (b || k_holds k)) with
  | Some k' => if decide (is_plain k = true ∧ is_plain k' = true ∧ k_spin k' = k_spin k)
               then Some (plain (k_spin k) false) else None
  | None => None
  end.
Proof.
  cbn [check_instr]. assert (∀ br k, (fix check_block (br : list instr) (k : known) : option known :=
    match br with
    | [] => Some k
    | i :: br => match check_instr i k with Some k' => check_block br k' | None => None end
    end) br k = check br k) as H; [|by rewrite H].
  intros br'. induction br' as [|i br' IH]; intros k'; [done|]. cbn. destruct (check_instr i k'); [apply IH|done].
Qed.

Lemma check_app b1 b2 k : check (b1 ++ b2) k = check b1 k ≫= check b2.
Proof. revert k. induction b1 as [|i b1 IH]; intros k; [done|]. cbn. by destruct (check_instr i k). Qed.

(** Knowing more does not hurt. *)
Definition more (k : known) (h : bool) : known := mk_known (k_spin k) (k_ready k) (k_wake k) (h || k_holds k) (k_loaded k).

Lemma check_instr_more i : ∀ k h r, check_instr i k = Some r → ∃ h', check_instr i (more k h) = Some (more r h').
Proof.
  revert i. fix IH 1. intros i k h r. destruct i as [l|l| | | | | | |wc l|wc l|wc l|b br].
  12:{ rewrite !check_if. cbn [k_spin k_holds more].
    assert (∀ br k h r, check br k = Some r → ∃ h', check br (more k h) = Some (more r h')) as IHb.
    { clear -IH. induction br as [|i br IHbr]; intros k h r; cbn [check]; [intros [= ->]; by exists h|].
      destruct (check_instr i k) as [k1|] eqn:E; [|done]. destruct (IH i k h k1 E) as [h1 ->]. apply IHbr. }
    destruct (check br (plain (k_spin k) (b || k_holds k))) as [k1|] eqn:E; [|done].
    assert (plain (k_spin k) (b || (h || k_holds k)) = more (plain (k_spin k) (b || k_holds k)) h) as ->.
    { unfold more, plain. cbn. f_equal. by destruct b, h, (k_holds k). }
    destruct (IHb _ _ h _ E) as [h1 ->]. unfold more, is_plain. cbn [k_spin k_ready k_wake k_loaded].
    case_decide; [|done]. intros [= <-]. exists false. done. }
  all: cbn [check_instr]; unfold is_plain, more; cbn [k_spin k_ready k_wake k_holds k_loaded]; repeat case_match; intros [= <-]; try done.
  all: try (exists h; unfold plain; cbn; done). all: try (by exists false).
  2:{ exists h. congruence. }
  exfalso. destruct a as (? & ? & Hh & ?), n. split; [done|]. split; [done|]. split; [|done]. destruct (orb_prop _ _ Hh) as [H'|H']; rewrite H'; [done|by rewrite !orb_true_r].
Qed.

Lemma check_more br k h r : check br k = Some r → ∃ h', check br (more k h) = Some (more r h').
Proof.
  revert k h r. induction br as [|i br IH]; intros k h r; cbn [check]; [intros [= ->]; by exists h|].
  destruct (check_instr i k) as [k1|] eqn:E; [|done]. destruct (check_instr_more i k h k1 E) as [h1 ->]. apply IH.
Qed.

Lemma passes_more br sp h h' : passes (plain sp h) br → passes (plain sp (h' || h)) br.
Proof.
  intros (r & Hc & Hp & Hs). destruct (check_more br _ h' _ Hc) as [h1 H1]. by exists (more r h1).
Qed.

(** ** The invariant *)

Definition code (st : tstate) : list instr := match st with Run k | Slept _ k => k end.

(** Threads that will try to take the object, or wake one that will *)
Definition trying (st : tstate) : bool :=
  match st with Run (IAcq 0 :: IWhile :: _) | Run (IWhile :: _) => true | _ => false end.
Definition active (k : known) (st : tstate) : bool := k_ready k || k_wake k || trying st.

Fixpoint count (ts : list Z) (act : Z → bool) : Z :=
  match ts with
  | [] => 0
  | t :: ts => (if act t then 1 else 0) + count ts act
  end.

Record inv (ts : list Z) (s : sys) (kn : Z → known) : Prop := {
  inv_passes t : passes (kn t) (code (thr s t));
  inv_spin t l : spin s l = Some t ↔ l ∈ k_spin (kn t);
  inv_ready t : k_ready (kn t) = true → ready (vars s) = true ∧ 0%nat ∈ k_spin (kn t);
  inv_wake t : k_wake (kn t) = true → 0%nat ∈ k_spin (kn t);
  inv_holds t : k_holds (kn t) = true → holds t (vars s) = true;
  inv_loaded t : k_loaded (kn t) = true → reg s t = vars s ∧ 0%nat ∈ k_spin (kn t);
  inv_slept t wc k : thr s t = Slept wc k → kn t = plain [] false ∧ (wc = 0%nat → trying (Run k) = true);
  inv_wq t wc : t ∈ wq s wc ↔ ∃ k, thr s t = Slept wc k;
  inv_nodup wc : NoDup (wq s wc);
  inv_in t : t ∉ ts → thr s t = Run [];
  inv_credit : wq s 0%nat ≠ [] → credit (vars s) ≤ count ts (λ t, active (kn t) (thr s t))
}.

Lemma count_pos ts act : 0 ≤ count ts act.
Proof. induction ts as [|t ts IH]; cbn; [done|]. destruct (act t); lia. Qed.

Lemma count_mono ts act act' : (∀ t, t ∈ ts → act t = true → act' t = true) → count ts act ≤ count ts act'.
Proof.
  intros H. induction ts as [|t ts IH]; [done|]. cbn. specialize (IH ltac:(intros; apply H; [by right|done])).
  pose proof (H t ltac:(by left)) as Ht. destruct (act t); [rewrite Ht by done|destruct (act' t)]; lia.
Qed.

Lemma count_put ts act t b : NoDup ts → t ∈ ts →
  count ts (put act t b) = count ts act - (if act t then 1 else 0) + (if b then 1 else 0).
Proof.
  intros Hnd Hin. induction Hnd as [|u ts Hu Hnd IH]; [by apply not_elem_of_nil in Hin|]. cbn.
  destruct (decide (u = t)) as [->|Hne].
  - assert (count ts (put act t b) = count ts act) as ->.
    { clear -Hu. induction ts as [|v ts IH]; [done|]. cbn. apply not_elem_of_cons in Hu as [Hv Hu]. rewrite IH by done.
      unfold put. by rewrite decide_False by done. }
    unfold put. rewrite decide_True by done. lia.
  - apply elem_of_cons in Hin as [->|Hin]; [done|]. rewrite IH by done. unfold put. rewrite decide_False by done. lia.
Qed.

(** A thread's point of execution changes; the others' do not. *)
Lemma count_step ts act act' t : NoDup ts → t ∈ ts → (∀ u, u ≠ t → act u = true → act' u = true) →
  count ts act - (if act t then 1 else 0) + (if act' t then 1 else 0) ≤ count ts act'.
Proof.
  intros Hnd Hin H. rewrite <-count_put by done. apply count_mono. intros u _. unfold put. case_decide as E; [by subst|by apply H].
Qed.

Lemma put_eq {A B} `{EqDecision A} (f : A → B) a b : put f a b a = b.
Proof. unfold put. by rewrite decide_True. Qed.
Lemma put_ne {A B} `{EqDecision A} (f : A → B) a b x : x ≠ a → put f a b x = f x.
Proof. intros H. unfold put. by rewrite decide_False. Qed.

Context `{!GuardedLaws St}.

Ltac active_cases := repeat match goal with |- context [active ?k ?st] => destruct (active k st) end; lia.

(** The state of one running thread changes, and perhaps a spinlock or the
    object; the queues do not. *)
Section run.
Variables (ts : list Z) (s : sys) (kn : Z → known) (t : Z) (c : list instr).
Hypotheses (Hnd : NoDup ts) (Hin : t ∈ ts) (Hinv : inv ts s kn) (Ht : thr s t = Run c).

Lemma not_queued wc : t ∉ wq s wc.
Proof using Hinv Ht. rewrite (inv_wq _ _ _ Hinv). intros [k Hk]. congruence. Qed.

Lemma inv_run v' reg' spin' k2 c2 :
  passes k2 c2 →
  (∀ l, spin' l = Some t ↔ l ∈ k_spin k2) →
  (∀ u l, u ≠ t → spin' l = Some u ↔ spin s l = Some u) →
  (k_ready k2 = true → ready v' = true ∧ 0%nat ∈ k_spin k2) → (k_wake k2 = true → 0%nat ∈ k_spin k2) →
  (k_holds k2 = true → holds t v' = true) →
  (k_loaded k2 = true → reg' t = v' ∧ 0%nat ∈ k_spin k2) →
  (∀ u, u ≠ t → k_loaded (kn u) = true → reg' u = v') →
  (∀ u, u ≠ t → k_ready (kn u) = true → ready v' = true) →
  (∀ u, u ≠ t → holds u (vars s) = true → holds u v' = true) →
  (wq s 0%nat ≠ [] → credit v' ≤ credit (vars s) - (if active (kn t) (Run c) then 1 else 0)
    + (if active k2 (Run c2) then 1 else 0)) →
  inv ts (mk_sys v' reg' spin' (wq s) (put (thr s) t (Run c2))) (put kn t k2).
Proof using Hnd Hin Hinv Ht.
  intros Hp Hs1 Hs2 Hr Hw Hh Hld Hld' Hr' Hh' Hc. split; cbn [vars reg spin wq thr].
  - intros u. destruct (decide (u = t)) as [->|Hne]; [by rewrite !put_eq|]. rewrite !put_ne by done. by apply Hinv.
  - intros u l. destruct (decide (u = t)) as [->|Hne]; [by rewrite put_eq|]. rewrite put_ne, Hs2 by done. by apply Hinv.
  - intros u. destruct (decide (u = t)) as [->|Hne]; [by rewrite put_eq|]. rewrite put_ne by done. intros Hu.
    split; [by eapply Hr'|]. by apply (inv_ready _ _ _ Hinv).
  - intros u. destruct (decide (u = t)) as [->|Hne]; [by rewrite put_eq|]. rewrite put_ne by done. by apply Hinv.
  - intros u. destruct (decide (u = t)) as [->|Hne]; [by rewrite put_eq|]. rewrite put_ne by done. intros Hu.
    apply Hh'; [done|]. by apply (inv_holds _ _ _ Hinv).
  - intros u. destruct (decide (u = t)) as [->|Hne]; [by rewrite put_eq|]. rewrite put_ne by done. intros Hu.
    split; [by apply Hld'|]. by apply (inv_loaded _ _ _ Hinv).
  - intros u wc k. destruct (decide (u = t)) as [->|Hne]; [by rewrite put_eq|]. rewrite !put_ne by done. by apply Hinv.
  - intros u wc. destruct (decide (u = t)) as [->|Hne]; [|rewrite put_ne by done; by apply Hinv].
    rewrite put_eq. split; [intros Hu; by apply not_queued in Hu|by intros []].
  - apply Hinv.
  - intros u Hu. rewrite put_ne by (by intros ->). by apply (inv_in _ _ _ Hinv).
  - intros Hq. specialize (Hc Hq). pose proof (inv_credit _ _ _ Hinv Hq) as Hold.
    pose proof (count_step ts (λ u, active (kn u) (thr s u))
      (λ u, active (put kn t k2 u) (put (thr s) t (Run c2) u)) t Hnd Hin) as Hstep.
    cbn beta in Hstep. rewrite Ht, !put_eq in Hstep. etrans; [|apply Hstep; intros u Hu; by rewrite !put_ne]. lia.
Qed.

(** Nothing changes but the thread's place, and what is known. *)
Lemma inv_goto k2 c2 :
  passes k2 c2 → k_spin k2 = k_spin (kn t) →
  (k_ready k2 = true → ready (vars s) = true ∧ 0%nat ∈ k_spin k2) → (k_wake k2 = true → 0%nat ∈ k_spin k2) →
  (k_holds k2 = true → holds t (vars s) = true) → (k_loaded k2 = true → reg s t = vars s ∧ 0%nat ∈ k_spin k2) →
  (wq s 0%nat ≠ [] → active (kn t) (Run c) = true → active k2 (Run c2) = true) →
  inv ts (mk_sys (vars s) (reg s) (spin s) (wq s) (put (thr s) t (Run c2))) (put kn t k2).
Proof using Hnd Hin Hinv Ht.
  intros Hp Hs Hr Hw Hh Hld Ha. apply inv_run; try done.
  - intros l. rewrite Hs. apply Hinv.
  - intros u _ Hk. by apply (inv_loaded _ _ _ Hinv u).
  - intros u Hu Hk. by apply (inv_ready _ _ _ Hinv u).
  - intros Hq. specialize (Ha Hq). destruct (active (kn t) (Run c)); [rewrite Ha by done|destruct (active k2 (Run c2))]; lia.
Qed.

Lemma known_plain k : is_plain k = true → k = plain (k_spin k) (k_holds k).
Proof using. destruct k as [sp [] [] h []]; done. Qed.

Lemma acquired_cons l sp sp' : acquired l sp = Some sp' → sp' = l :: sp.
Proof using. destruct l as [|[|l]]; cbn; repeat case_match; intros [= <-]; done. Qed.

Lemma passes_cons k i b : passes k (i :: b) → ∃ k1, check_instr i k = Some k1 ∧ passes k1 b.
Proof using. intros (k' & Hc & Hp & Hs). cbn in Hc. destruct (check_instr i k) as [k1|]; [|done]. exists k1. split; [done|by exists k']. Qed.

Lemma passes_here i b : c = i :: b → ∃ k1, check_instr i (kn t) = Some k1 ∧ passes k1 b.
Proof using Hinv Ht. intros E. apply passes_cons. pose proof (inv_passes _ _ _ Hinv t) as H. by rewrite Ht, E in H. Qed.

Lemma alone u : u ≠ t → 0%nat ∈ k_spin (kn t) → 0%nat ∉ k_spin (kn u).
Proof using Hinv. rewrite <-!(inv_spin _ _ _ Hinv). congruence. Qed.

Lemma plain_active k k' : is_plain k = true → trying (Run k') = false → active k (Run k') = false.
Proof using. unfold is_plain, active. by destruct (k_ready k), (k_wake k); cbn. Qed.

Lemma inv_call op : c = [] → passes (plain [] false) op →
  ∃ kn', inv ts (mk_sys (vars s) (reg s) (spin s) (wq s) (put (thr s) t (Run op))) kn'.
Proof using Hnd Hin Hinv Ht.
  intros E Hop. pose proof (inv_passes _ _ _ Hinv t) as (k' & Hc & Hp & Hs). rewrite Ht, E in Hc. cbn in Hc. injection Hc as <-.
  eexists. apply (inv_goto (plain [] false)); try done. intros _. rewrite E. by rewrite plain_active.
Qed.

Lemma inv_acq l b : c = IAcq l :: b → spin s l = None →
  ∃ kn', inv ts (mk_sys (vars s) (reg s) (put (spin s) l (Some t)) (wq s) (put (thr s) t (Run b))) kn'.
Proof using Hnd Hin Hinv Ht.
  intros E Hl. destruct (passes_here _ _ E) as (k1 & Hc & Hp). cbn [check_instr] in Hc.
  destruct (is_plain (kn t)) eqn:Hpl; [|done]. destruct (acquired l (k_spin (kn t))) as [sp|] eqn:Ha; [|done].
  injection Hc as <-. apply acquired_cons in Ha as ->. eexists. apply (inv_run _ _ _ (plain (l :: k_spin (kn t)) (k_holds (kn t)))); try done.
  - intros l'. cbn [k_spin plain]. rewrite elem_of_cons, <-(inv_spin _ _ _ Hinv). unfold put. case_decide; naive_solver.
  - intros u l' Hu. unfold put. case_decide; naive_solver.
  - cbn. by apply Hinv.
  - intros u _ Hk. by apply (inv_loaded _ _ _ Hinv u).
  - intros u Hu Hk. by apply (inv_ready _ _ _ Hinv u).
  - intros _. assert (active (kn t) (Run c) = true → active (plain (l :: k_spin (kn t)) (k_holds (kn t))) (Run b) = true) as Ha.
    { rewrite E. apply known_plain in Hpl. rewrite Hpl. unfold active. cbn. destruct l; [|done]. by destruct b as [|[] b]. }
    destruct (active (kn t) (Run c)); [rewrite Ha by done|destruct (active (plain _ _) _)]; lia.
Qed.

Lemma inv_rel l b : c = IRel l :: b → 
  ∃ kn', inv ts (mk_sys (vars s) (reg s) (put (spin s) l None) (wq s) (put (thr s) t (Run b))) kn'.
Proof using Hnd Hin Hinv Ht.
  intros E. destruct (passes_here _ _ E) as (k1 & Hc & Hp). cbn [check_instr] in Hc. case_decide as Hd; [|done].
  injection Hc as <-. destruct Hd as (Hpl & Hh & Hnot). destruct (k_spin (kn t)) as [|l0 sp] eqn:Hsp; [done|]. injection Hh as ->. cbn [tail] in *.
  eexists. apply (inv_run _ _ _ (plain sp (k_holds (kn t)))); try done.
  - intros l'. cbn [k_spin plain]. pose proof (inv_spin _ _ _ Hinv t l') as Hl'. rewrite Hsp, elem_of_cons in Hl'. unfold put. case_decide; naive_solver.
  - intros u l' Hu. unfold put. case_decide as El; [|done]. subst l'. pose proof (inv_spin _ _ _ Hinv t l) as Hl. rewrite Hsp in Hl.
    assert (spin s l = Some t) by (apply Hl; by left). naive_solver.
  - cbn. by apply Hinv.
  - intros u _ Hk. by apply (inv_loaded _ _ _ Hinv u).
  - intros u Hu Hk. by apply (inv_ready _ _ _ Hinv u).
  - intros _. rewrite E, plain_active by done. active_cases.
Qed.

Lemma inv_while_exit b : c = IWhile :: b → ready (vars s) = true →
  ∃ kn', inv ts (mk_sys (vars s) (reg s) (spin s) (wq s) (put (thr s) t (Run b))) kn'.
Proof using Hnd Hin Hinv Ht.
  intros E Hr. destruct (passes_here _ _ E) as (k1 & Hc & Hp). cbn [check_instr] in Hc. case_decide as Hd; [|done].
  injection Hc as <-. destruct Hd as [Hpl Hsp]. eexists. apply (inv_goto (mk_known [0%nat] true false false false)); try done.
  intros _. split; [done|]. by left.
Qed.

(** The register is read into, and the value stored is made from it; while the
    spinlock is held the object does not change. *)
Lemma inv_load b : c = ILoad :: b →
  ∃ kn', inv ts (mk_sys (vars s) (put (reg s) t (vars s)) (spin s) (wq s) (put (thr s) t (Run b))) kn'.
Proof using Hnd Hin Hinv Ht.
  intros E. destruct (passes_here _ _ E) as (k1 & Hc & Hp). cbn [check_instr] in Hc. case_decide as Hd; [|done].
  injection Hc as <-. destruct Hd as [Hw H0]. eexists.
  apply (inv_run _ _ _ (mk_known (k_spin (kn t)) (k_ready (kn t)) false (k_holds (kn t)) true)); try done.
  - intros l. apply Hinv.
  - apply Hinv.
  - apply Hinv.
  - intros _. by rewrite put_eq.
  - intros u Hu Hk. rewrite put_ne by done. by apply (inv_loaded _ _ _ Hinv u).
  - intros u Hu Hk. by apply (inv_ready _ _ _ Hinv u).
  - intros _. rewrite E. unfold active. rewrite Hw. cbn. destruct (k_ready (kn t)); cbn; [lia|]. case_match; lia.
Qed.

Lemma reg_value : blind || k_loaded (kn t) = true → take t (reg s t) = take t (vars s) ∧ give t (reg s t) = give t (vars s).
Proof using Hinv GuardedLaws0.
  intros [Hb|Hl]%orb_prop; [split; [by apply take_blind|by apply give_blind]|]. by destruct (inv_loaded _ _ _ Hinv t Hl) as [-> _].
Qed.

Lemma others_not_loaded u v : 0%nat ∈ k_spin (kn t) → u ≠ t → k_loaded (kn u) = true → reg s u = v.
Proof using Hinv. intros H0 Hu Hk. exfalso. by apply (alone u); [| |apply (inv_loaded _ _ _ Hinv u)]. Qed.

Lemma inv_take b : c = ITake :: b →
  ∃ kn', inv ts (mk_sys (take t (reg s t)) (reg s) (spin s) (wq s) (put (thr s) t (Run b))) kn'.
Proof using Hnd Hin Hinv Ht GuardedLaws0.
  intros E. destruct (passes_here _ _ E) as (k1 & Hc & Hp). cbn [check_instr] in Hc.
  destruct (k_ready (kn t)) eqn:Hk; [|done]. destruct (k_wake (kn t)) eqn:Hw; [done|].
  destruct (blind || k_loaded (kn t)) eqn:Hb; [|done]. injection Hc as <-. destruct (reg_value Hb) as [-> _].
  destruct (inv_ready _ _ _ Hinv t Hk) as [Hr H0]. eexists. apply (inv_run _ _ _ (plain (k_spin (kn t)) true)); try done.
  - intros l. apply Hinv.
  - intros _. by apply holds_take.
  - intros u. by apply others_not_loaded.
  - intros u Hu Hku. exfalso. by apply (alone u); [| |apply (inv_ready _ _ _ Hinv u)].
  - intros u Hu Hhu. by apply holds_take_other.
  - intros _. pose proof (credit_take t (vars s) Hr). rewrite E. unfold active at 1. rewrite Hk. cbn -[active]. active_cases.
Qed.

Lemma inv_give b : c = IGive :: b →
  ∃ kn', inv ts (mk_sys (give t (reg s t)) (reg s) (spin s) (wq s) (put (thr s) t (Run b))) kn'.
Proof using Hnd Hin Hinv Ht GuardedLaws0.
  intros E. destruct (passes_here _ _ E) as (k1 & Hc & Hp). cbn [check_instr] in Hc. case_decide as Hd; [|done].
  injection Hc as <-. destruct Hd as (Hk & Hw & Hh & H0 & Hb). destruct (reg_value Hb) as [_ ->].
  assert (holds t (vars s) = true) as Hht.
  { destruct (orb_prop _ _ Hh) as [Hh'|Hh']; [by apply holds_unowned|by apply (inv_holds _ _ _ Hinv t)]. }
  eexists. apply (inv_run _ _ _ (mk_known (k_spin (kn t)) false true false false)); try done.
  - intros l. apply Hinv.
  - intros u. by apply others_not_loaded.
  - intros u Hu Hku. exfalso. by apply (alone u); [| |apply (inv_ready _ _ _ Hinv u)].
  - intros u Hu Hhu. by apply holds_give_other.
  - intros _. pose proof (credit_give t (vars s) Hht). rewrite E. unfold active at 1. rewrite Hk, Hw. cbn. lia.
Qed.

(** An assertion that holds *)
Lemma inv_assert i b : i = IAssertReady ∨ i = IAssertGiven → c = i :: b →
  ∃ kn', inv ts (mk_sys (vars s) (reg s) (spin s) (wq s) (put (thr s) t (Run b))) kn'.
Proof using Hnd Hin Hinv Ht.
  intros Hi E. destruct (passes_here _ _ E) as (k1 & Hc & Hp).
  assert (k1 = kn t ∧ k_ready (kn t) || k_wake (kn t) = true) as [-> Ha].
  { destruct Hi as [-> | ->]; cbn [check_instr] in Hc; [destruct (k_ready (kn t)) eqn:Hk|case_decide as Hd]; try done;
      injection Hc as <-; [done|]. destruct Hd as [-> ->]. done. }
  eexists. apply (inv_goto (kn t)); try done; try apply Hinv. intros _ _. unfold active. by rewrite Ha.
Qed.

Lemma inv_if bb br b : c = IIf bb br :: b →
  ∃ kn', inv ts (mk_sys (vars s) (reg s) (spin s) (wq s)
    (put (thr s) t (Run (if Bool.eqb (holds t (vars s)) bb then br ++ b else b)))) kn'.
Proof using Hnd Hin Hinv Ht.
  intros E. destruct (passes_here _ _ E) as (k1 & Hc & Hp). rewrite check_if in Hc.
  destruct (check br _) as [k2|] eqn:Hbr; [|done]. case_decide as Hd; [|done]. injection Hc as <-. destruct Hd as (Hpl & Hpl2 & Hsp).
  destruct (Bool.eqb (holds t (vars s)) bb) eqn:Hb.
  - eexists. apply (inv_goto (plain (k_spin (kn t)) (bb || k_holds (kn t)))); try done.
    + destruct Hp as (k' & Hk' & Hrest). apply known_plain in Hpl2. rewrite Hsp in Hpl2.
      destruct (passes_more b (k_spin (kn t)) false (k_holds k2)) as (k3 & H3 & Hr3); [by exists k'|].
      exists k3. split; [|done]. rewrite check_app, Hbr. cbn. rewrite Hpl2. by rewrite orb_false_r in H3.
    + cbn. apply eqb_prop in Hb. intros Hor. apply orb_true_iff in Hor as [->|Hh]; [done|by apply Hinv].
    + intros _. rewrite E. by rewrite plain_active.
  - eexists. apply (inv_goto (plain (k_spin (kn t)) false)); try done. intros _. rewrite E. by rewrite plain_active.
Qed.

(** The thread goes to sleep. *)
Lemma inv_sleep wc l k' :
  k_spin (kn t) = [l] → passes (plain [] false) k' → (wc = 0%nat → trying (Run k') = true) →
  (wc = 0%nat → credit (vars s) = 0) → active (kn t) (Run c) = false ∨ wc = 0%nat →
  inv ts (mk_sys (vars s) (reg s) (put (spin s) l None) (put (wq s) wc (wq s wc ++ [t])) (put (thr s) t (Slept wc k')))
    (put kn t (plain [] false)).
Proof using Hnd Hin Hinv Ht.
  intros Hsp Hp Htry Hcr Hact. pose proof (inv_spin _ _ _ Hinv t) as Hts. rewrite Hsp in Hts. split; cbn [vars reg spin wq thr].
  - intros u. destruct (decide (u = t)) as [->|Hne]; [by rewrite !put_eq|]. rewrite !put_ne by done. by apply Hinv.
  - intros u l'. destruct (decide (u = t)) as [->|Hne].
    + rewrite (put_eq kn). cbn. specialize (Hts l'). rewrite list_elem_of_singleton in Hts. rewrite elem_of_nil.
      unfold put. case_decide; naive_solver.
    + rewrite (put_ne kn) by done. rewrite <-(inv_spin _ _ _ Hinv). unfold put. case_decide as El; [|done]. subst l'.
      assert (spin s l = Some t) by (apply Hts; by left). naive_solver.
  - intros u. destruct (decide (u = t)) as [->|Hne]; [by rewrite put_eq|]. rewrite put_ne by done. apply Hinv.
  - intros u. destruct (decide (u = t)) as [->|Hne]; [by rewrite put_eq|]. rewrite put_ne by done. apply Hinv.
  - intros u. destruct (decide (u = t)) as [->|Hne]; [by rewrite put_eq|]. rewrite put_ne by done. apply Hinv.
  - intros u. destruct (decide (u = t)) as [->|Hne]; [by rewrite put_eq|]. rewrite put_ne by done. apply Hinv.
  - intros u wc' k. destruct (decide (u = t)) as [->|Hne]; [|rewrite !put_ne by done; apply Hinv].
    rewrite !put_eq. by intros [= <- <-].
  - intros u wc'. destruct (decide (wc' = wc)) as [->|Hwc]; [rewrite put_eq, elem_of_app, list_elem_of_singleton|rewrite (put_ne (wq s)) by done];
      (destruct (decide (u = t)) as [->|Hne]; [rewrite put_eq|rewrite put_ne, (inv_wq _ _ _ Hinv) by done; naive_solver]).
    + naive_solver.
    + split; [intros Hu; by apply not_queued in Hu|naive_solver].
  - intros wc'. destruct (decide (wc' = wc)) as [->|Hwc]; [rewrite put_eq|rewrite put_ne by done; apply Hinv].
    apply NoDup_app. split; [apply Hinv|]. split; [|apply NoDup_singleton]. intros u Hu ->%list_elem_of_singleton. by apply not_queued in Hu.
  - intros u Hu. rewrite put_ne by (by intros ->). by apply (inv_in _ _ _ Hinv).
  - intros Hq. destruct (decide (wc = 0%nat)) as [->|Hwc]; [rewrite Hcr by done; apply count_pos|].
    destruct Hact as [Hact|]; [|done]. rewrite put_ne in Hq by done. etrans; [by apply Hinv|]. apply count_mono. intros u _.
    destruct (decide (u = t)) as [->|Hne]; [by rewrite Ht, Hact|by rewrite !put_ne].
Qed.

Lemma inv_while_sleep b : c = IWhile :: b → ready (vars s) = false →
  ∃ kn', inv ts (mk_sys (vars s) (reg s) (put (spin s) 0%nat None) (put (wq s) 0%nat (wq s 0%nat ++ [t]))
    (put (thr s) t (Slept 0 (IAcq 0 :: IWhile :: b)))) kn'.
Proof using Hnd Hin Hinv Ht GuardedLaws0.
  intros E Hr. destruct (passes_here _ _ E) as (k1 & Hc & Hp). cbn [check_instr] in Hc. case_decide as Hd; [|done].
  injection Hc as <-. destruct Hd as [Hpl Hsp]. eexists. apply inv_sleep; [done| |done|intros _; by apply credit_not_ready|by right].
  destruct Hp as (k' & Hk' & Hrest). exists k'. split; [exact Hk'|done].
Qed.

Lemma inv_cv_sleep wc l b : c = ISleep wc l :: b →
  ∃ kn', inv ts (mk_sys (vars s) (reg s) (put (spin s) l None) (put (wq s) wc (wq s wc ++ [t]))
    (put (thr s) t (Slept wc (IAcq l :: b)))) kn'.
Proof using Hnd Hin Hinv Ht.
  intros E. destruct (passes_here _ _ E) as (k1 & Hc & Hp). cbn [check_instr] in Hc. case_decide as Hd; [|done].
  injection Hc as <-. destruct Hd as (Hpl & Hsp & -> & ->). eexists. apply inv_sleep; [done| |done|done|left; rewrite E; by apply plain_active].
  destruct Hp as (k' & Hk' & Hrest). by exists k'.
Qed.

(** The thread wakes the threads [W], the first of a queue. *)
Lemma inv_wakes wc b h2 W q wq' thr' :
  let k2 := plain (k_spin (kn t)) h2 in
  passes k2 b → (h2 = true → holds t (vars s) = true) →
  wq s wc = W ++ q → wq' wc = q → (∀ wc', wc' ≠ wc → wq' wc' = wq s wc') →
  thr' t = Run b → (∀ u, u ≠ t → thr' u = if decide (u ∈ W) then woken (thr s u) else thr s u) →
  (wq' 0%nat ≠ [] → active (kn t) (Run c) = true → wc = 0%nat ∧ W ≠ []) →
  inv ts (mk_sys (vars s) (reg s) (spin s) wq' thr') (put kn t k2).
Proof using Hnd Hin Hinv Ht GuardedLaws0.
  intros k2 Hp Hh Hq Hq' Hqo Htt Hto Hact. pose proof (inv_nodup _ _ _ Hinv wc) as Hndq. rewrite Hq in Hndq.
  apply NoDup_app in Hndq as (_ & Hdis & Hndq').
  assert (∀ u, u ∈ W → u ≠ t ∧ ∃ ku, thr s u = Slept wc ku) as HW.
  { intros u Hu. assert (u ∈ wq s wc) as Huq by (rewrite Hq; set_solver). apply (inv_wq _ _ _ Hinv) in Huq as [ku Hku].
    split; [intros ->; congruence|by exists ku]. }
  assert (∀ u, u ∉ W → u ≠ t → thr' u = thr s u) as Hsame by (intros u Hu Hne; rewrite Hto by done; by rewrite decide_False).
  assert (∀ u ku, u ∈ W → thr s u = Slept wc ku → thr' u = Run ku) as Hwok.
  { intros u ku Hu Hku. rewrite Hto by by apply HW. rewrite decide_True by done. by rewrite Hku. }
  split; cbn [vars reg spin wq thr].
  - intros u. destruct (decide (u = t)) as [->|Hne]; [by rewrite put_eq, Htt|]. rewrite put_ne by done.
    pose proof (inv_passes _ _ _ Hinv u) as Hpu. destruct (decide (u ∈ W)) as [Hu|Hu]; [|by rewrite Hsame].
    destruct (HW u Hu) as (_ & ku & Hku). rewrite (Hwok _ _ Hu Hku). by rewrite Hku in Hpu.
  - intros u l. destruct (decide (u = t)) as [->|Hne]; [rewrite put_eq|rewrite put_ne by done]; apply Hinv.
  - intros u. destruct (decide (u = t)) as [->|Hne]; [by rewrite put_eq|rewrite put_ne by done]; apply Hinv.
  - intros u. destruct (decide (u = t)) as [->|Hne]; [by rewrite put_eq|rewrite put_ne by done]; apply Hinv.
  - intros u. destruct (decide (u = t)) as [->|Hne]; [by rewrite put_eq|rewrite put_ne by done]; apply Hinv.
  - intros u. destruct (decide (u = t)) as [->|Hne]; [by rewrite put_eq|rewrite put_ne by done]; apply Hinv.
  - intros u wc' k. destruct (decide (u = t)) as [->|Hne]; [by rewrite Htt|]. rewrite put_ne by done.
    destruct (decide (u ∈ W)) as [Hu|Hu]; [|rewrite Hsame by done; apply Hinv].
    destruct (HW u Hu) as (_ & ku & Hku). by rewrite (Hwok _ _ Hu Hku).
  - intros u wc'. pose proof (inv_wq _ _ _ Hinv u wc') as Hu'. destruct (decide (u = t)) as [->|Hne].
    { rewrite Htt. split; [|by intros []]. intros Hi. exfalso. apply (not_queued wc').
      destruct (decide (wc' = wc)) as [->|Hwc]; [rewrite Hq' in Hi; rewrite Hq; set_solver|by rewrite <-Hqo]. }
    destruct (decide (u ∈ W)) as [Hu|Hu].
    + destruct (HW u Hu) as (_ & ku & Hku). rewrite (Hwok _ _ Hu Hku). split; [|by intros []]. intros Hi. exfalso.
      destruct (decide (wc' = wc)) as [->|Hwc]; [rewrite Hq' in Hi; by eapply Hdis|]. rewrite Hqo in Hi by done. apply Hu' in Hi as [k Hk]. congruence.
    + rewrite Hsame by done. rewrite <-Hu'. destruct (decide (wc' = wc)) as [->|Hwc]; [|by rewrite Hqo]. rewrite Hq', Hq. set_solver.
  - intros wc'. destruct (decide (wc' = wc)) as [->|Hwc]; [by rewrite Hq'|]. rewrite Hqo by done. apply Hinv.
  - intros u Hu. rewrite Hsame; [by apply (inv_in _ _ _ Hinv)| |by intros ->]. intros Huw. destruct (HW u Huw) as (_ & ku & Hku).
    rewrite (inv_in _ _ _ Hinv u Hu) in Hku. done.
  - intros Hne0. assert (wq s 0%nat ≠ []) as Hne.
    { intros Hnil. apply Hne0. destruct (decide (wc = 0%nat)) as [->|]; [|by rewrite Hqo]. rewrite Hq' . rewrite Hnil in Hq. by destruct W. }
    etrans; [by apply Hinv|]. set (act := λ u, active (kn u) (thr s u)). set (act' := λ u, active (put kn t k2 u) (thr' u)).
    assert (∀ u, u ≠ t → act u = true → act' u = true) as Hmono.
    { intros u Hut. unfold act, act'. rewrite put_ne by done. destruct (decide (u ∈ W)) as [Hu|Hu]; [|by rewrite Hsame].
      destruct (HW u Hu) as (_ & ku & Hku). rewrite Hku. destruct (inv_slept _ _ _ Hinv _ _ _ Hku) as [-> _]. done. }
    destruct (act t) eqn:Hat.
    + unfold act in Hat. rewrite Ht in Hat. destruct (Hact Hne0 Hat) as [-> HWn]. destruct W as [|u W]; [done|].
      destruct (HW u ltac:(by left)) as (Hut & ku & Hku). destruct (inv_slept _ _ _ Hinv _ _ _ Hku) as [Hkn Htry].
      assert (u ∈ ts) as Huts.
      { destruct (decide (u ∈ ts)); [done|]. pose proof (inv_in _ _ _ Hinv u ltac:(done)). congruence. }
      pose proof (count_put ts act u true Hnd Huts) as Hput.
      assert (act u = false) as Hau by (unfold act; by rewrite Hku, Hkn). rewrite Hau in Hput.
      pose proof (count_step ts (put act u true) act' t Hnd Hin) as Hst. rewrite put_ne in Hst by done.
      assert (act t = true) as Hat' by (unfold act; by rewrite Ht). rewrite Hat' in Hst.
      assert (count ts (put act u true) - 1 + (if act' t then 1 else 0) ≤ count ts act') as Hfin; [|destruct (act' t); lia].
      apply Hst. intros x Hx. unfold put. case_decide as Ex; [subst x|by apply Hmono]. intros _.
      unfold act'. rewrite put_ne, (Hwok u ku) by (done || by left). unfold active. rewrite Htry by done. by rewrite !orb_true_r.
    + apply count_mono. intros u _ Hu. destruct (decide (u = t)) as [->|]; [congruence|by apply Hmono].
Qed.

Lemma inv_wakeone wc l b : c = IWakeOne wc l :: b →
  (wq s wc = [] → ∃ kn', inv ts (mk_sys (vars s) (reg s) (spin s) (wq s) (put (thr s) t (Run b))) kn') ∧
  (∀ u q, wq s wc = u :: q → ∃ kn', inv ts (mk_sys (vars s) (reg s) (spin s) (put (wq s) wc q)
    (put (put (thr s) u (woken (thr s u))) t (Run b))) kn').
Proof using Hnd Hin Hinv Ht GuardedLaws0.
  intros E. destruct (passes_here _ _ E) as (k1 & Hc & Hp). cbn [check_instr] in Hc. case_decide as Hd; [|done].
  injection Hc as <-. destruct Hd as (Hr & Hld & Hl & -> & Hw).
  assert (active (kn t) (Run c) = true → l = 0%nat) as Hact.
  { rewrite E. unfold active. rewrite Hr. cbn. rewrite orb_false_r. done. }
  pose proof (inv_holds _ _ _ Hinv t) as Hh. split.
  - intros Hq. eexists. apply (inv_wakes l b (k_holds (kn t)) [] []); try done; [by rewrite put_eq| |].
    + intros u Hu. by rewrite put_ne by done.
    + intros H0 Ha. by rewrite (Hact Ha) in Hq.
  - intros u q Hq. eexists. apply (inv_wakes l b (k_holds (kn t)) [u] q); try done; [by rewrite put_eq| |by rewrite put_eq| |].
    + intros wc' Hne. by rewrite put_ne.
    + intros x Hx. rewrite put_ne by done. unfold put. repeat case_decide; subst; try done; set_solver.
    + intros _ Ha. split; [by apply Hact|done].
Qed.

Lemma inv_wakeall wc l b : c = IWakeAll wc l :: b →
  ∃ kn', inv ts (mk_sys (vars s) (reg s) (spin s) (put (wq s) wc [])
    (put (λ u, if decide (u ∈ wq s wc) then woken (thr s u) else thr s u) t (Run b))) kn'.
Proof using Hnd Hin Hinv Ht GuardedLaws0.
  intros E. destruct (passes_here _ _ E) as (k1 & Hc & Hp). cbn [check_instr] in Hc. case_decide as Hd; [|done].
  injection Hc as <-. destruct Hd as (Hpl & Hl & -> & ->). pose proof (inv_holds _ _ _ Hinv t) as Hh.
  eexists. apply (inv_wakes 1 b (k_holds (kn t)) (wq s 1%nat) []).
  - by rewrite <-known_plain.
  - done.
  - by rewrite app_nil_r.
  - by rewrite put_eq.
  - intros wc' Hne. by rewrite put_ne.
  - by rewrite put_eq.
  - intros u Hu. by rewrite put_ne.
  - intros _. rewrite E. by rewrite plain_active.
Qed.
End run.

(** ** Reachable states *)

Variables (ops : list (list instr)) (ts : list Z) (v0 : St).
Hypothesis Hops : ∀ op, op ∈ ops → passes (plain [] false) op.
Hypothesis Hts : NoDup ts.

Lemma inv_init r : inv ts (initial v0 r) (λ _, plain [] false).
Proof using.
  split; cbn; try done.
  - intros t. by exists (plain [] false).
  - intros t l. by rewrite elem_of_nil.
  - intros t wc. rewrite elem_of_nil. split; [done|by intros []].
  - intros wc. constructor.
Qed.

Lemma inv_step t s lbl s' kn : t ∈ ts → inv ts s kn → step ops t s lbl s' → ∃ kn', inv ts s' kn'.
Proof using Hops Hts GuardedLaws0.
  intros Hin Hinv Hst. inversion Hst as [op Ht Hop|l k Ht Hl|l k Ht Hl|k Ht Hr|k Ht Hr Hl|k Ht|k Ht|k Ht|k Ht Hr|k Ht Hg|wc l k Ht Hl|wc l k Ht Hl Hq|
    wc l k u q Ht Hl Hq|wc l k Ht Hl|b br k Ht]; subst.
  - apply (inv_call ts s kn t _ Hts Hin Hinv Ht); [done|by apply Hops].
  - by apply (inv_acq ts s kn t _ Hts Hin Hinv Ht).
  - by apply (inv_rel ts s kn t _ Hts Hin Hinv Ht).
  - by apply (inv_while_exit ts s kn t _ Hts Hin Hinv Ht).
  - by apply (inv_while_sleep ts s kn t _ Hts Hin Hinv Ht).
  - by apply (inv_load ts s kn t _ Hts Hin Hinv Ht).
  - by apply (inv_take ts s kn t _ Hts Hin Hinv Ht).
  - by apply (inv_give ts s kn t _ Hts Hin Hinv Ht).
  - apply (inv_assert ts s kn t _ Hts Hin Hinv Ht IAssertReady); [by left|done].
  - apply (inv_assert ts s kn t _ Hts Hin Hinv Ht IAssertGiven); [by right|done].
  - by apply (inv_cv_sleep ts s kn t _ Hts Hin Hinv Ht).
  - by apply (inv_wakeone ts s kn t _ Hts Hin Hinv Ht wc l k eq_refl).
  - by apply (inv_wakeone ts s kn t _ Hts Hin Hinv Ht wc l k eq_refl).
  - by apply (inv_wakeall ts s kn t _ Hts Hin Hinv Ht wc l k eq_refl).
  - by apply (inv_if ts s kn t _ Hts Hin Hinv Ht).
Qed.

Lemma reach_inv takes gives s : reach ops ts v0 takes gives s → ∃ kn, inv ts s kn.
Proof using Hops Hts GuardedLaws0.
  induction 1 as [r|takes gives s t s' _ [kn IH] Hin Hst|takes gives s t s' _ [kn IH] Hin Hst|takes gives s t s' _ [kn IH] Hin Hst];
    [eexists; apply inv_init|by eapply inv_step..].
Qed.

(** No assertion fails, wherever a thread is. *)
Lemma asserts_hold takes gives s t : reach ops ts v0 takes gives s → asserts_ok s t.
Proof using Hops Hts GuardedLaws0.
  intros Hr. destruct (reach_inv _ _ _ Hr) as [kn Hinv]. unfold asserts_ok. destruct (thr s t) as [[|i b]|] eqn:Ht; [done| |done].
  pose proof (inv_passes _ _ _ Hinv t) as Hp. rewrite Ht in Hp. apply passes_cons in Hp as (k1 & Hc & _).
  pose proof (inv_spin _ _ _ Hinv t) as Hs.
  destruct i as [l|l| | | | | | |wc l|wc l|wc l|bb br]; try done; cbn [check_instr] in Hc; unfold holds_spin, only_spin.
  - case_decide as Hd; [|done]. destruct Hd as (_ & Hh & _). apply Hs. destruct (k_spin (kn t)); [done|]. injection Hh as ->. by left.
  - case_decide as Hd; [|done]. destruct Hd as [_ Hsp]. intros l'. rewrite Hs, Hsp. apply list_elem_of_singleton.
  - case_decide as Hd; [|done]. destruct Hd as [_ H0]. by apply Hs.
  - destruct (k_ready (kn t)) eqn:Hk; [|done]. destruct (inv_ready _ _ _ Hinv t Hk) as [? H0]. split; [by apply Hs|done].
  - case_decide as Hd; [|done]. destruct Hd as (_ & _ & Hh & H0 & _). split; [by apply Hs|].
    destruct (orb_prop _ _ Hh) as [Hh'|Hh']; [by apply holds_unowned|by apply (inv_holds _ _ _ Hinv)].
  - destruct (k_ready (kn t)) eqn:Hk; [|done]. destruct (inv_ready _ _ _ Hinv t Hk) as [? H0]. split; [by apply Hs|done].
  - case_decide as Hd; [|done]. destruct Hd as [_ Hw]. apply Hs. by apply (inv_wake _ _ _ Hinv).
  - case_decide as Hd; [|done]. destruct Hd as (_ & Hsp & _). intros l'. rewrite Hs, Hsp. apply list_elem_of_singleton.
  - case_decide as Hd; [|done]. destruct Hd as (_ & _ & H0 & _). by apply Hs.
  - case_decide as Hd; [|done]. destruct Hd as (_ & H0 & _). by apply Hs.
Qed.

(** With every thread outside or asleep, a thread that waits for the object
    waits for a reason. *)
Lemma no_lost_wakeup takes gives s :
  reach ops ts v0 takes gives s → (∀ t b, thr s t = Run b → b = []) → wq s 0%nat ≠ [] → ready (vars s) = false.
Proof using Hops Hts GuardedLaws0.
  intros Hr Hquiet Hq. destruct (reach_inv _ _ _ Hr) as [kn Hinv]. pose proof (inv_credit _ _ _ Hinv Hq) as Hc.
  assert (count ts (λ t, active (kn t) (thr s t)) ≤ 0) as H0.
  { etrans; [apply (count_mono _ _ (λ _, false))|clear; induction ts; cbn; lia]. intros t _ Ha.
    destruct (thr s t) as [b|wc b] eqn:Ht.
    - pose proof (Hquiet t b Ht) as ->. pose proof (inv_passes _ _ _ Hinv t) as (k' & Hk & Hp & _). rewrite Ht in Hk. injection Hk as <-.
      by rewrite plain_active in Ha.
    - destruct (inv_slept _ _ _ Hinv _ _ _ Ht) as [Hk _]. by rewrite Hk in Ha. }
  destruct (ready (vars s)) eqn:E; [|done]. apply credit_ready in E. lia.
Qed.

(** A thread that is not at a [spinlock_acquire] can move. *)
Lemma can_step s kn t i b :
  inv ts s kn → thr s t = Run (i :: b) → (∀ l, i = IAcq l → spin s l = None) →
  (i = IAssertGiven → give_ok (vars s) = true) → asserts_ok s t → ∃ lbl s', step ops t s lbl s'.
Proof using.
  intros Hinv Ht Hl Hg Ha. unfold asserts_ok in Ha. rewrite Ht in Ha.
  destruct i as [l|l| | | | | | |wc l|wc l|wc l|bb br].
  - eexists _, _. eapply step_acq; [done|by apply Hl].
  - eexists _, _. by eapply step_rel.
  - destruct (ready (vars s)) eqn:E; [by eexists _, _; eapply step_while_exit|].
    eexists _, _. eapply step_while_sleep; [done|done|by apply Ha].
  - by eexists _, _; eapply step_load.
  - by eexists _, _; eapply step_take.
  - by eexists _, _; eapply step_give.
  - destruct Ha as [_ Hr]. by eexists _, _; eapply step_assert_ready.
  - eexists _, _. eapply step_assert_given; [done|by apply Hg].
  - eexists _, _. eapply step_sleep; [done|by apply Ha].
  - destruct (wq s wc) eqn:E; eexists _, _; [by eapply step_wakeone_none|by eapply step_wakeone].
  - eexists _, _. by eapply step_wakeall.
  - eexists _, _. by eapply step_if.
Qed.

(** Threads that hold a spinlock are running. *)
Lemma holder_running s kn t l : inv ts s kn → spin s l = Some t →
  t ∈ ts ∧ ∃ i b, thr s t = Run (i :: b) ∧ ∃ k1, check_instr i (kn t) = Some k1.
Proof using.
  intros Hinv Hs. apply (inv_spin _ _ _ Hinv) in Hs. pose proof (inv_passes _ _ _ Hinv t) as Hp.
  destruct (thr s t) as [[|i b]|wc b] eqn:Ht.
  - destruct Hp as (k' & Hk & _ & Hsp). injection Hk as <-. rewrite Hsp in Hs. by apply not_elem_of_nil in Hs.
  - split; [|exists i, b; split; [done|]; apply passes_cons in Hp as (k1 & ? & _); by exists k1].
    destruct (decide (t ∈ ts)); [done|]. pose proof (inv_in _ _ _ Hinv t ltac:(done)). congruence.
  - destruct (inv_slept _ _ _ Hinv _ _ _ Ht) as [Hk _]. rewrite Hk in Hs. by apply not_elem_of_nil in Hs.
Qed.

(** As long as a thread is inside a routine and awake, some thread can move,
    unless the assertion after a [give] has failed. *)
Lemma progress takes gives s t i b :
  reach ops ts v0 takes gives s → (∀ u b, thr s u = Run (IAssertGiven :: b) → give_ok (vars s) = true) → t ∈ ts → thr s t = Run (i :: b) →
  ∃ u lbl s', u ∈ ts ∧ step ops u s lbl s'.
Proof using Hops Hts GuardedLaws0.
  intros Hr Hg Hin Ht. destruct (reach_inv _ _ _ Hr) as [kn Hinv].
  assert (∀ u i b, u ∈ ts → thr s u = Run (i :: b) → (∀ l, i = IAcq l → spin s l = None) →
    ∃ u lbl s', u ∈ ts ∧ step ops u s lbl s') as Hmove.
  { intros u j b' Hu Hthr Hj. destruct (can_step s kn u j b' Hinv Hthr Hj) as (lbl & s' & Hst); [intros ->; by eapply Hg|by eapply asserts_hold|].
    by exists u, lbl, s'. }
  destruct (spin s 0%nat) as [u|] eqn:H0.
  { destruct (holder_running s kn u _ Hinv H0) as (Hu & j & b' & Hthr & k1 & Hk). apply (Hmove u j b' Hu Hthr).
    intros l ->. exfalso. apply (inv_spin _ _ _ Hinv) in H0. cbn in Hk. destruct (is_plain (kn u)); [|done].
    destruct (acquired l (k_spin (kn u))) as [sp|] eqn:Ha; [|done]. unfold acquired in Ha. repeat case_match; set_solver. }
  destruct (spin s 1%nat) as [u|] eqn:H1.
  { destruct (holder_running s kn u _ Hinv H1) as (Hu & j & b' & Hthr & k1 & Hk). apply (Hmove u j b' Hu Hthr).
    intros l ->. apply (inv_spin _ _ _ Hinv) in H1. cbn in Hk. destruct (is_plain (kn u)); [|done].
    destruct (acquired l (k_spin (kn u))) as [sp|] eqn:Ha; [|done]. unfold acquired in Ha. repeat case_match; set_solver. }
  apply (Hmove t i b Hin Ht). intros l ->. pose proof (inv_passes _ _ _ Hinv t) as Hp. rewrite Ht in Hp.
  apply passes_cons in Hp as (k1 & Hk & _). cbn in Hk. destruct (is_plain (kn t)); [|done].
  destruct (acquired l (k_spin (kn t))) as [sp|] eqn:Ha; [|done]. unfold acquired in Ha. repeat case_match; set_solver.
Qed.
End synch.

(** ** Semaphores *)

Record semaphore : Type := mk_sem { sem_count : N }.

#[global] Instance sem_guarded : Guarded semaphore := {
  ready s := negb (sem_count s =? 0)%N;
  take _ s := mk_sem ((sem_count s + (2 ^ 32 - 1)) mod 2 ^ 32)%N;
  give _ s := mk_sem ((sem_count s + 1) mod 2 ^ 32)%N;
  blind := false;
  give_ok s := (0 <? sem_count s)%N;
  holds _ _ := true;
  unowned := true;
  credit s := Z.of_N (sem_count s)
}.

#[global] Instance sem_laws : GuardedLaws semaphore.
Proof.
  split; cbn; try done.
  - intros s. lia.
  - intros s H. destruct (N.eqb_spec (sem_count s) 0); [done|lia].
  - intros s H. destruct (N.eqb_spec (sem_count s) 0); [lia|done].
  - intros t s H. destruct (N.eqb_spec (sem_count s) 0); [done|].
    rewrite <-(N.sub_add 1 (sem_count s)) at 1 by lia. rewrite <-N.add_assoc. change (1 + (2 ^ 32 - 1))%N with (1 * 2 ^ 32)%N.
    rewrite N.Div0.mod_add. pose proof (N.Div0.mod_le (sem_count s - 1) (2 ^ 32)). lia.
  - intros t s _. pose proof (N.Div0.mod_le (sem_count s + 1) (2 ^ 32)). lia.
Qed.

(** The allocations, of the semaphore, its name and its wait channel, are
    arguments. *)
Definition sem_create (sem_kmalloc name_kmalloc wchan_kmalloc : bool) (initial_count : N) : option semaphore :=
  if negb sem_kmalloc then None
  else if negb name_kmalloc then None
  else if negb wchan_kmalloc then None
  else Some (mk_sem initial_count).

(** [spinlock_cleanup] and [threadlist_cleanup] assert that the lock is free
    and the channel empty. *)
Definition sem_destroy (s : sys (St := semaphore)) : result () :=
  if negb (bool_decide (spin s 0%nat = None)) then Stop (AssertFail "splk->splk_lock")
  else if negb (bool_decide (wq s 0%nat = [])) then Stop (AssertFail "threadlist_isempty(tl)")
  else Ok tt.

Definition P : list instr := [IAcq 0; IWhile; IAssertReady; ILoad; ITake; IRel 0].
Definition V : list instr := [IAcq 0; ILoad; IGive; IAssertGiven; IWakeOne 0 0; IRel 0].
Definition sem_ops : list (list instr) := [P; V].

Lemma sem_ops_pass op : op ∈ sem_ops → passes (plain [] false) op.
Proof.
  unfold sem_ops. rewrite !elem_of_cons, elem_of_nil. intros [->|[->|[]]]; eexists; (split; [vm_compute; reflexivity|done]).
Qed.

(** A running thread is moved only by its own steps. *)
Lemma step_other {St} `{Guarded St} ops t s lbl s' u b :
  step ops t s lbl s' → u ≠ t → thr s u = Run b → thr s' u = Run b.
Proof.
  intros Hst Hu Hb. inversion Hst as [| | | | | | | | | | | |wc l k x q Ht Hl Hq| |]; subst; cbn [thr]; rewrite (put_ne _ t) by done; try done.
  - destruct (decide (u = x)) as [->|Hx]; [by rewrite put_eq, Hb|by rewrite put_ne].
  - case_decide; [by rewrite Hb|done].
Qed.

(** The points of [P] and [V] a thread can be at *)
Fixpoint tails (l : list instr) : list (list instr) := l :: match l with [] => [] | _ :: l => tails l end.
Definition sem_points : list (list instr) := tails P ++ tails V.

Lemma sem_points_next i k : In (i :: k) sem_points →
  In k sem_points ∧ (i = IWhile → IAcq 0 :: i :: k = P) ∧ (i = IGive → ∃ b, k = IAssertGiven :: b) ∧
  (∀ wc l, i ≠ ISleep wc l) ∧ (∀ b br, i ≠ IIf b br).
Proof.
  cbn. intros H. repeat destruct H as [H|H]; try done; injection H as <- <-; (split; [tauto|]);
    (split; [done|]); (split; [try done; by eexists|done]).
Qed.

Lemma sem_code ts n0 takes gives s t :
  reach sem_ops ts (mk_sem n0) takes gives s → In (code (thr s t)) sem_points.
Proof.
  assert (∀ s u lbl s', step sem_ops u s lbl s' → (∀ t, In (code (thr s t)) sem_points) →
    ∀ t, In (code (thr s' t)) sem_points) as Hstep.
  { clear. intros s u lbl s' Hst IH t. pose proof (IH u) as Hu.
    inversion Hst as [op' Ht Hop|l k Ht|l k Ht|k Ht|k Ht|k Ht|k Ht|k Ht|k Ht|k Ht|wc l k Ht|wc l k Ht|wc l k x q Ht|wc l k Ht|b br k Ht]; subst;
      cbn [thr]; rewrite Ht in Hu; (destruct (decide (t = u)) as [->|Hne]; [rewrite put_eq|rewrite put_ne by done]); cbn [code] in *;
      try (apply sem_points_next in Hu as (Hu & Hw & _ & Hs & Hi)); try done.
    - unfold sem_ops in Hop. rewrite !elem_of_cons, elem_of_nil in Hop. destruct Hop as [->|[->|[]]]; cbn; tauto.
    - rewrite Hw by done. by left.
    - by destruct (Hs wc l).
    - destruct (decide (t = x)) as [->|]; [rewrite put_eq|by rewrite put_ne]. specialize (IH x). by destruct (thr s x).
    - case_decide; [|done]. specialize (IH t). by destruct (thr s t).
    - by destruct (Hi b br). }
  intros Hr. revert t. induction Hr as [r|? ? ? ? ? _ IH _ Hst|? ? ? ? ? _ IH _ Hst|? ? ? ? ? _ IH _ Hst]; [|by eapply Hstep..].
  intros t. cbn. tauto.
Qed.

Lemma sem_inv ts n0 takes gives s : NoDup ts → reach sem_ops ts (mk_sem n0) takes gives s → ∃ kn, inv ts s kn.
Proof. intros Hts. by apply (reach_inv sem_ops ts (mk_sem n0) sem_ops_pass Hts). Qed.

(** A thread about to store has the spinlock, and the value of the count. *)
Lemma sem_store ts n0 takes gives s t i k :
  NoDup ts → reach sem_ops ts (mk_sem n0) takes gives s → thr s t = Run (i :: k) → i = ITake ∨ i = IGive →
  spin s 0%nat = Some t ∧ reg s t = vars s ∧ (i = ITake → sem_count (vars s) ≠ 0%N).
Proof.
  intros Hts Hr Ht Hi. destruct (sem_inv _ _ _ _ _ Hts Hr) as [kn Hinv].
  pose proof (inv_passes _ _ _ Hinv t) as Hp. rewrite Ht in Hp. apply passes_cons in Hp as (k1 & Hc & _).
  assert (k_loaded (kn t) = true ∧ (i = ITake → k_ready (kn t) = true)) as [Hl Hk].
  { destruct Hi as [-> | ->]; cbn [check_instr] in Hc.
    - destruct (k_ready (kn t)); [|done]. destruct (k_wake (kn t)); [done|]. by destruct (k_loaded (kn t)).
    - case_decide as Hd; [|done]. by destruct Hd as (_ & _ & _ & _ & ?). }
  destruct (inv_loaded _ _ _ Hinv t Hl) as [Hreg H0]. split; [by apply (inv_spin _ _ _ Hinv)|]. split; [done|].
  intros ->. destruct (inv_ready _ _ _ Hinv t (Hk eq_refl)) as [Hrd _]. cbn in Hrd. by destruct (N.eqb_spec (sem_count (vars s)) 0).
Qed.

(** The assertion of [V] has failed: the count wrapped around. *)
Definition sem_wrapped (s : sys (St := semaphore)) : Prop :=
  ∃ t b, thr s t = Run (IAssertGiven :: b) ∧ sem_count (vars s) = 0%N.

(** Then the count stays as it is: the thread is at the assertion, with the
    spinlock. *)
Lemma sem_wrapped_step ts n0 takes gives s t lbl s' :
  NoDup ts → reach sem_ops ts (mk_sem n0) takes gives s → step sem_ops t s lbl s' → sem_wrapped s →
  lbl = LTau ∧ sem_wrapped s'.
Proof.
  intros Hts Hr Hst (u & b & Hu & H0).
  pose proof (asserts_hold sem_ops ts (mk_sem n0) sem_ops_pass Hts takes gives s u Hr) as Ha. unfold asserts_ok, holds_spin in Ha. rewrite Hu in Ha.
  assert (t ≠ u) as Hne.
  { intros ->. inversion Hst; simplify_eq; try congruence. cbn in *. by rewrite H0 in *. }
  pose proof (λ i k, sem_store ts n0 takes gives s t i k Hts Hr) as Hno.
  assert (vars s' = vars s ∧ lbl = LTau) as [Hv ->].
  { inversion Hst as [| | | | | |k Ht|k Ht| | | | | | |]; subst; try done;
      (destruct (Hno _ k Ht) as [? _]; [tauto|congruence]). }
  split; [done|]. exists u, b. rewrite Hv. split; [|done]. by eapply step_other.
Qed.

(** The count is the initial count, plus the [V]s, minus the [P]s, unless the
    assertion of [V] has failed. *)
Lemma sem_count_reach ts n0 takes gives s :
  NoDup ts → (n0 < 2 ^ 32)%N → reach sem_ops ts (mk_sem n0) takes gives s →
  (sem_count (vars s) < 2 ^ 32)%N ∧
  (Z.of_N (sem_count (vars s)) + takes = Z.of_N n0 + gives ∨
   sem_wrapped s ∧ takes + 2 ^ 32 = Z.of_N n0 + gives).
Proof.
  intros Hts Hn Hr. induction Hr as [r|takes gives s t s' Hr IH Hin Hst|takes gives s t s' Hr IH Hin Hst|takes gives s t s' Hr IH Hin Hst].
  - cbn. lia.
  - destruct IH as [Hlt IH]. assert (vars s' = vars s) as Hv by (by inversion Hst). rewrite Hv. split; [done|].
    destruct IH as [IH|[Hw IH]]; [by left|]. right. split; [|done]. by eapply sem_wrapped_step.
  - destruct IH as [Hlt [IH|[Hw _]]]; [|by eapply sem_wrapped_step in Hst as [? _]].
    inversion Hst as [| | | | | |k Ht| | | | | | | |]; subst. destruct (sem_store _ _ _ _ _ _ _ _ Hts Hr Ht) as (_ & Hreg & Hpos); [by left|].
    specialize (Hpos eq_refl). cbn [vars]. rewrite Hreg. cbn [take sem_guarded sem_count].
    replace (sem_count (vars s) + (2 ^ 32 - 1))%N with (sem_count (vars s) - 1 + 1 * 2 ^ 32)%N by lia.
    rewrite N.Div0.mod_add, N.mod_small by lia. lia.
  - destruct IH as [Hlt [IH|[Hw _]]]; [|by eapply sem_wrapped_step in Hst as [? _]].
    inversion Hst as [| | | | | | |k Ht| | | | | | |]; subst. destruct (sem_store _ _ _ _ _ _ _ _ Hts Hr Ht) as (_ & Hreg & _); [by right|].
    pose proof (sem_code _ _ _ _ _ t Hr) as Hc. rewrite Ht in Hc. apply sem_points_next in Hc as (_ & _ & Hg & _).
    destruct (Hg eq_refl) as [b ->]. cbn [vars]. rewrite Hreg. cbn [give sem_guarded sem_count].
    destruct (decide (sem_count (vars s) + 1 < 2 ^ 32)%N) as [Hlt'|Hge]; [rewrite N.mod_small by done; lia|].
    assert (sem_count (vars s) + 1 = 2 ^ 32)%N as E by lia. rewrite E, N.Div0.mod_same. split; [done|]. right.
    split; [|lia]. exists t, b. cbn [thr vars sem_count]. by rewrite put_eq.
Qed.

(** ** Locks and condition variables *)

Record lock : Type := mk_lock { owner : option Z }.

Definition lock_do_i_hold (t : Z) (lk : lock) : bool := bool_decide (owner lk = Some t).

#[global] Instance lock_guarded : Guarded lock := {
  ready lk := bool_decide (owner lk = None);
  take t _ := mk_lock (Some t);
  give _ _ := mk_lock None;
  blind := true;
  give_ok _ := true;
  holds := lock_do_i_hold;
  unowned := false;
  credit lk := match owner lk with Some _ => 0 | None => 1 end
}.

#[global] Instance lock_laws : GuardedLaws lock.
Proof.
  unfold lock_do_i_hold. split; cbn; unfold lock_do_i_hold; try done.
  - intros t lk _. by rewrite bool_decide_eq_true.
  - intros t u lk Hne. rewrite !bool_decide_eq_true. congruence.
  - intros t u lk Hne. rewrite !bool_decide_eq_true. congruence.
  - intros lk. by destruct (owner lk).
  - intros lk. rewrite bool_decide_eq_true. by intros ->.
  - intros lk. rewrite bool_decide_eq_false. by destruct (owner lk).
  - intros t lk. rewrite bool_decide_eq_true. by intros ->.
  - intros t lk. rewrite bool_decide_eq_true. by intros ->.
Qed.

(** [lock_create] does not look at the result of [wchan_create]. *)
Definition lock_create (lock_kmalloc name_kmalloc : bool) : option lock :=
  if negb lock_kmalloc then None
  else if negb name_kmalloc then None
  else Some (mk_lock None).
Definition lock_destroy (s : sys (St := lock)) : result () :=
  if negb (bool_decide (spin s 0%nat = None)) then Stop (AssertFail "splk->splk_lock")
  else if negb (bool_decide (wq s 0%nat = [])) then Stop (AssertFail "threadlist_isempty(tl)")
  else Ok tt.

Definition lock_acquire : list instr := [IAcq 0; IWhile; ITake; IRel 0].
Definition lock_release : list instr := [IIf true [IAcq 0; IGive; IWakeOne 0 0; IRel 0]].

(** A condition variable is its spinlock and its wait channel. *)
Definition cv_create (cv_kmalloc name_kmalloc : bool) : bool := cv_kmalloc && name_kmalloc.
Definition cv_destroy (s : sys (St := lock)) : result () :=
  if negb (bool_decide (spin s 1%nat = None)) then Stop (AssertFail "splk->splk_lock")
  else if negb (bool_decide (wq s 1%nat = [])) then Stop (AssertFail "threadlist_isempty(tl)")
  else Ok tt.

Definition cv_wait : list instr :=
  [IIf false lock_acquire; IAcq 1] ++ lock_release ++ [ISleep 1 1; IRel 1] ++ lock_acquire.
Definition cv_signal : list instr := [IIf false lock_acquire; IAcq 1; IWakeOne 1 1; IRel 1].
Definition cv_broadcast : list instr := [IIf false lock_acquire; IAcq 1; IWakeAll 1 1; IRel 1].
Definition lock_ops : list (list instr) := [lock_acquire; lock_release; cv_wait; cv_signal; cv_broadcast].

Lemma lock_ops_pass op : op ∈ lock_ops → passes (plain [] false) op.
Proof.
  unfold lock_ops. rewrite !elem_of_cons, elem_of_nil.
  intros [->|[->|[->|[->|[->|[]]]]]]; eexists; (split; [vm_compute; reflexivity|done]).
Qed.

(** Who changes the owner, and how *)
Lemma ownership ts takes gives s t lbl s' :
  NoDup ts → reach lock_ops ts (mk_lock None) takes gives s → t ∈ ts → step lock_ops t s lbl s' →
  match owner (vars s) with
  | Some u => owner (vars s') = Some u ∨ (u = t ∧ owner (vars s') = None)
  | None => owner (vars s') = None ∨ owner (vars s') = Some t
  end.
Proof.
  intros Hts Hr Hin Hst. pose proof (asserts_hold lock_ops ts (mk_lock None) lock_ops_pass Hts takes gives s t Hr) as Ha.
  unfold asserts_ok in Ha.
  inversion Hst as [| | | | | |k Ht|k Ht| | | | | | |]; subst; cbn [vars]; try (destruct (owner (vars s)); by left).
  - rewrite Ht in Ha. destruct Ha as [_ Hrd]. cbn in Hrd. apply bool_decide_eq_true in Hrd. rewrite Hrd. by right.
  - rewrite Ht in Ha. destruct Ha as [_ Hh]. cbn in Hh. unfold lock_do_i_hold in Hh. apply bool_decide_eq_true in Hh. rewrite Hh. by right.
Qed.

(** Destroying a semaphore that no thread is using *)
Lemma sem_destroy_ok s : (∀ t, thr s t = Run []) → (∃ ts kn, inv ts s kn) → sem_destroy s = Ok tt.
Proof.
  intros Hq (ts & kn & Hinv). unfold sem_destroy.
  assert (spin s 0%nat = None) as ->.
  { destruct (spin s 0%nat) as [t|] eqn:E; [|done]. apply (inv_spin _ _ _ Hinv) in E. pose proof (inv_passes _ _ _ Hinv t) as (k' & Hk & _ & Hs).
    rewrite Hq in Hk. injection Hk as <-. rewrite Hs in E. by apply not_elem_of_nil in E. }
  assert (wq s 0%nat = []) as ->; [|done].
  destruct (wq s 0%nat) as [|t q] eqn:E; [done|]. assert (t ∈ wq s 0%nat) as Ht by (rewrite E; by left).
  apply (inv_wq _ _ _ Hinv) in Ht as [k Hk]. by rewrite Hq in Hk.
Qed.
