(* ===== verification/Proc.v ===== *)
(** * Processes ([kern/proc/proc.c], [kern/vfs/vnode.c])

    The process table with its circular allocation of pids, the life of a
    [struct proc], and the reference counts of vnodes.  The state [psys] adds
    to the kernel state of the paging system the table, the vnodes, the open
    file table and the processes of the threads; a [struct proc *] is a number
    that indexes [k_procs].  A wait on a semaphore whose count is zero is the
    outcome [Hang]: nothing else runs in a sequential execution.  [vfs_close]
    and [VOP_RECLAIM] are arguments. *)

From S2P Require Import Prelude Machine Spinlock Pt PtSpec PtFrames PtTable Kernel Vmstats.
From S2P Require Import Tlb Swapfile Coremap Addrspace.

Definition MAX_PROC : Z := 100.
Definition OPEN_MAX : Z := 128.

(** ** Structures *)

(** [struct _processTable]; the fields of the static variable *)
Record processTable : Type := mk_ptable {
  pt_active : Z;
  pt_proc : list (option nat);
  last_i : Z;
  pt_lk : spinlock
}.
Definition set_pt_active (v : Z) (x : processTable) : processTable := mk_ptable v (pt_proc x) (last_i x) (pt_lk x).
Definition set_pt_proc (v : list (option nat)) (x : processTable) : processTable := mk_ptable (pt_active x) v (last_i x) (pt_lk x).
Definition set_last_i (v : Z) (x : processTable) : processTable := mk_ptable (pt_active x) (pt_proc x) v (pt_lk x).
Definition set_pt_lk (v : spinlock) (x : processTable) : processTable := mk_ptable (pt_active x) (pt_proc x) (last_i x) v.

(** Of [struct vnode] the fields vnode.c maintains *)
Record vnode : Type := mk_vnode { vn_refcount : Z; vn_countlock : spinlock }.
Definition set_vn_refcount (v : Z) (x : vnode) : vnode := mk_vnode v (vn_countlock x).
Definition set_vn_countlock (v : spinlock) (x : vnode) : vnode := mk_vnode (vn_refcount x) v.

(** [struct openfile] of file_syscalls.c *)
Record openfile : Type := mk_openfile { of_vn : option Z; of_offset : Z; countRef : Z }.

Section psys.
Context {ops : VnodeOps}.

Record psys : Type := mk_psys {
  ps_k : kernel;
  ps_table : processTable;
  ps_kproc : option nat;
  ps_vnodes : gmap Z vnode;
  systemFileTable : list openfile;
  ps_tproc : gmap Z (option nat);
  ps_curthread : Z;
  ps_out : list Z;
  ps_in : list Z
}.
Definition set_ps_k (v : kernel) (x : psys) : psys :=
  mk_psys v (ps_table x) (ps_kproc x) (ps_vnodes x) (systemFileTable x) (ps_tproc x) (ps_curthread x) (ps_out x) (ps_in x).
Definition set_ps_table (v : processTable) (x : psys) : psys :=
  mk_psys (ps_k x) v (ps_kproc x) (ps_vnodes x) (systemFileTable x) (ps_tproc x) (ps_curthread x) (ps_out x) (ps_in x).
Definition set_ps_kproc (v : option nat) (x : psys) : psys :=
  mk_psys (ps_k x) (ps_table x) v (ps_vnodes x) (systemFileTable x) (ps_tproc x) (ps_curthread x) (ps_out x) (ps_in x).
Definition set_ps_vnodes (v : gmap Z vnode) (x : psys) : psys :=
  mk_psys (ps_k x) (ps_table x) (ps_kproc x) v (systemFileTable x) (ps_tproc x) (ps_curthread x) (ps_out x) (ps_in x).
Definition set_files (v : list openfile) (x : psys) : psys :=
  mk_psys (ps_k x) (ps_table x) (ps_kproc x) (ps_vnodes x) v (ps_tproc x) (ps_curthread x) (ps_out x) (ps_in x).
Definition set_ps_tproc (v : gmap Z (option nat)) (x : psys) : psys :=
  mk_psys (ps_k x) (ps_table x) (ps_kproc x) (ps_vnodes x) (systemFileTable x) v (ps_curthread x) (ps_out x) (ps_in x).
Definition set_ps_out (v : list Z) (x : psys) : psys :=
  mk_psys (ps_k x) (ps_table x) (ps_kproc x) (ps_vnodes x) (systemFileTable x) (ps_tproc x) (ps_curthread x) v (ps_in x).
Definition set_ps_in (v : list Z) (x : psys) : psys :=
  mk_psys (ps_k x) (ps_table x) (ps_kproc x) (ps_vnodes x) (systemFileTable x) (ps_tproc x) (ps_curthread x) (ps_out x) v.

(** Run code of the kernel state, of the table, of a spinlock. *)
Definition on_k {A} (m : M kernel A) : M psys A := zoom ps_k set_ps_k m.
Definition on_table {A} (m : M processTable A) : M psys A := zoom ps_table set_ps_table m.
Definition on_tlock (m : M (cpu * spinlock) ()) : M psys () :=
  zoom (λ s, (k_cpu (ps_k s), pt_lk (ps_table s)))
    (λ p s, set_ps_k (set_k_cpu p.1 (ps_k s)) (set_ps_table (set_pt_lk p.2 (ps_table s)) s)) m.

Definition pcur : M psys (option nat) := gets (λ s, k_curproc (ps_k s)).
Definition pget (c : nat) : M psys proc := on_k (get_proc c).
Definition pput (c : nat) (p : proc) : M psys () := on_k (put_proc c p).

(** ** vnode.c *)

Definition get_vnode (v : Z) : M psys vnode := m ← gets ps_vnodes; deref (m !! v).
Definition put_vnode (v : Z) (x : vnode) : M psys () := modify (λ s, set_ps_vnodes (<[v := x]> (ps_vnodes s)) s).
Definition on_countlock (v : Z) (m : M (cpu * spinlock) ()) : M psys () :=
  x ← get_vnode v;
  c ← gets (λ s, k_cpu (ps_k s));
  match m (c, vn_countlock x) with
  | Ok (_, (c', l')) => modify (λ s, set_ps_k (set_k_cpu c' (ps_k s)) s) ;; put_vnode v (set_vn_countlock l' x)
  | Stop e => halt e
  end.

Definition vnode_init (v : Z) : M psys Z :=
  put_vnode v (mk_vnode 1 SPINLOCK_INITIALIZER) ;;
  mret 0.

(** [spinlock_cleanup] asserts that the lock is free. *)
Definition vnode_cleanup (v : Z) : M psys () :=
  x ← get_vnode v;
  kassert (vn_refcount x =? 1) "vn->vn_refcount == 1" ;;
  on_countlock v spinlock_cleanup ;;
  x ← get_vnode v;
  put_vnode v (set_vn_refcount 0 x).

Definition vnode_incref (v : Z) : M psys () :=
  on_countlock v spinlock_acquire ;;
  x ← get_vnode v;
  put_vnode v (set_vn_refcount (s32 (vn_refcount x + 1)) x) ;;
  on_countlock v spinlock_release.

Definition vnode_decref (vop_reclaim : Z → M psys Z) (v : Z) : M psys () :=
  on_countlock v spinlock_acquire ;;
  x ← get_vnode v;
  kassert (0 <? vn_refcount x) "vn->vn_refcount > 0" ;;
  destroy ← (if 1 <? vn_refcount x then put_vnode v (set_vn_refcount (vn_refcount x - 1) x) ;; mret false
             else mret true);
  on_countlock v spinlock_release ;;
  if (destroy : bool) then _ ← vop_reclaim v; mret tt else mret tt.

(** ** The process table *)

(** [processTable.proc[i]] *)
Definition table_at (i : Z) : M processTable (option nat) :=
  l ← gets pt_proc;
  if 0 <=? i then deref (l !! Z.to_nat i) else halt BadAccess.
Definition table_put (i : Z) (p : option nat) : M processTable () :=
  l ← gets pt_proc;
  if decide (0 ≤ i < Z.of_nat (length l)) then modify (set_pt_proc (<[Z.to_nat i := p]> l)) else halt BadAccess.

Definition wrap_i (i : Z) : Z := if MAX_PROC <? i then 1 else i.

(** The loop that searches a free entry; the pid, or 0 *)
Definition find_pid (proc : nat) : M processTable Z :=
  last ← gets last_i;
  while (λ i,
    last ← gets last_i;
    if i =? last then mret (inr 0)
    else
      x ← table_at i;
      match x with
      | None => table_put i (Some proc) ;; modify (set_last_i i) ;; mret (inr i)
      | Some _ => mret (inl (wrap_i (i + 1)))
      end) (wrap_i (last + 1)).

(** [sem_create] needs three allocations; [p_sem] is [NULL] if one fails, and
    nobody checks. *)
Definition sem_create_count (initial : Z) : M psys (option Z) :=
  a ← on_k kmalloc_ok;
  if negb a then mret None
  else
    b ← on_k kmalloc_ok;
    if negb b then mret None
    else
      c ← on_k kmalloc_ok;
      if negb c then mret None else mret (Some initial).

Definition proc_init_waitpid (proc : nat) : M psys () :=
  on_tlock spinlock_acquire ;;
  pid ← on_table (find_pid proc);
  on_tlock spinlock_release ;;
  if pid =? 0 then halt (Panic "too many processes. proc table is full")
  else
    sem ← sem_create_count 0;
    p ← pget proc;
    pput proc (set_p_sem sem (set_p_status 0 (set_p_pid pid p))).

Definition proc_end_waitpid (proc : nat) : M psys () :=
  on_tlock spinlock_acquire ;;
  p ← pget proc;
  kassert ((0 <? p_pid p) && (p_pid p <=? MAX_PROC)) "i>0 && i<=MAX_PROC" ;;
  on_table (table_put (p_pid p) None) ;;
  on_tlock spinlock_release ;;
  p ← pget proc;
  kassert (bool_decide (p_sem p ≠ None)) "sem != NULL".

Definition proc_search_pid (pid : Z) : M psys nat :=
  kassert ((0 <=? pid) && (pid <? MAX_PROC)) "pid>=0&&pid<MAX_PROC" ;;
  c ← on_table (table_at pid);
  c ← deref c;
  p ← pget c;
  kassert (p_pid p =? pid) "p->p_pid==pid" ;;
  mret c.

(** ** Processes *)

(** The new [struct proc] has an address no other one has. *)
Definition proc_create (name : string) : M psys (option nat) :=
  a ← on_k kmalloc_ok;
  if negb a then mret None
  else
    b ← on_k kmalloc_ok;
    if negb b then mret None
    else
      procs ← gets (λ s, k_procs (ps_k s));
      let c := fresh (dom procs) in
      pput c (mk_proc name SPINLOCK_INITIALIZER 0 None None 0 0 None (replicate (Z.to_nat OPEN_MAX) None)) ;;
      proc_init_waitpid c ;;
      mret (Some c).

Definition proc_setas (newas : option addrspace) : M psys (option addrspace) :=
  cur ← pcur;
  c ← assert_some cur "proc != NULL";
  on_k (on_p_lock c spinlock_acquire) ;;
  p ← pget c;
  pput c (set_p_addrspace newas p) ;;
  on_k (on_p_lock c spinlock_release) ;;
  mret (p_addrspace p).

Definition proc_destroy (vfs_close : Z → M kernel ()) (vop_reclaim : Z → M psys Z) (c : nat) : M psys () :=
  kproc ← gets ps_kproc;
  kassert (negb (bool_decide (kproc = Some c))) "proc != kproc" ;;
  p ← pget c;
  match p_cwd p with
  | Some v => vnode_decref vop_reclaim v ;; p ← pget c; pput c (set_p_cwd None p)
  | None => mret tt
  end ;;
  p ← pget c;
  match p_addrspace p with
  | Some as_ =>
      cur ← pcur;
      (if bool_decide (cur = Some c) then _ ← proc_setas None; on_k as_deactivate
       else pput c (set_p_addrspace None p)) ;;
      on_k (as_destroy vfs_close as_ (p_pid p))
  | None => mret tt
  end ;;
  p ← pget c;
  kassert (p_numthreads p =? 0) "proc->p_numthreads == 0" ;;
  on_k (on_p_lock c spinlock_cleanup) ;;
  proc_end_waitpid c ;;
  modify (λ s, set_ps_k (set_k_procs (delete c (k_procs (ps_k s))) (ps_k s)) s).

Definition proc_bootstrap : M psys () :=
  c ← proc_create "[kernel]";
  match c with
  | None => halt (Panic "proc_create for kproc failed")
  | Some c =>
      modify (set_ps_kproc (Some c)) ;;
      on_tlock spinlock_init ;;
      on_table (modify (set_pt_active 1))
  end.

Definition proc_create_runprogram (name : string) : M psys (option nat) :=
  newproc ← proc_create name;
  match newproc with
  | None => mret None
  | Some n =>
      p ← pget n;
      pput n (set_p_addrspace None p) ;;
      cur ← pcur;
      c ← deref cur;
      on_k (on_p_lock c spinlock_acquire) ;;
      cp ← pget c;
      match p_cwd cp with
      | Some v => vnode_incref v ;; p ← pget n; pput n (set_p_cwd (Some v) p)
      | None => mret tt
      end ;;
      on_k (on_p_lock c spinlock_release) ;;
      mret (Some n)
  end.

(** [t->t_proc = v]; [curproc] is that of the current thread. *)
Definition set_t_proc (t : Z) (v : option nat) : M psys () :=
  modify (λ s, set_ps_tproc (<[t := v]> (ps_tproc s)) s) ;;
  cur ← gets ps_curthread;
  if t =? cur then on_k (modify (set_k_curproc v)) else mret tt.
Definition get_t_proc (t : Z) : M psys (option nat) := m ← gets ps_tproc; deref (m !! t).

Definition proc_addthread (c : nat) (t : Z) : M psys Z :=
  tp ← get_t_proc t;
  kassert (bool_decide (tp = None)) "t->t_proc == NULL" ;;
  on_k (on_p_lock c spinlock_acquire) ;;
  p ← pget c;
  pput c (set_p_numthreads (u32 (p_numthreads p + 1)) p) ;;
  on_k (on_p_lock c spinlock_release) ;;
  spl ← on_k (on_curcpu splhigh);
  set_t_proc t (Some c) ;;
  _ ← on_k (on_curcpu (splx spl));
  mret 0.

Definition proc_remthread (t : Z) : M psys () :=
  tp ← get_t_proc t;
  c ← assert_some tp "proc != NULL";
  on_k (on_p_lock c spinlock_acquire) ;;
  p ← pget c;
  kassert (0 <? p_numthreads p) "proc->p_numthreads > 0" ;;
  pput c (set_p_numthreads (p_numthreads p - 1) p) ;;
  on_k (on_p_lock c spinlock_release) ;;
  spl ← on_k (on_curcpu splhigh);
  set_t_proc t None ;;
  _ ← on_k (on_curcpu (splx spl));
  mret tt.

(** [P(proc->p_sem)] and [V(proc->p_sem)] of a sequential run *)
Definition P_sem (c : nat) : M psys () :=
  p ← pget c;
  n ← assert_some (p_sem p) "sem != NULL";
  if n =? 0 then halt Hang else pput c (set_p_sem (Some (n - 1)) p).
Definition V_sem (c : nat) : M psys () :=
  p ← pget c;
  n ← assert_some (p_sem p) "sem != NULL";
  kassert (0 <? u32 (n + 1)) "sem->sem_count > 0" ;;
  pput c (set_p_sem (Some (u32 (n + 1))) p).

Definition proc_wait (vfs_close : Z → M kernel ()) (vop_reclaim : Z → M psys Z) (c : nat) : M psys Z :=
  kproc ← gets ps_kproc;
  kassert (negb (bool_decide (kproc = Some c))) "proc != kproc" ;;
  P_sem c ;;
  p ← pget c;
  proc_destroy vfs_close vop_reclaim c ;;
  mret (p_status p).

Definition proc_signal_end (c : nat) : M psys () := V_sem c.
End psys.

(** ** The circular search for a pid *)

(** The [k]-th entry the loop looks at *)
Definition slot_after (last k : Z) : Z := (last + k) `mod` MAX_PROC + 1.

Record table_wf (t : processTable) : Prop := {
  tw_len : Z.of_nat (length (pt_proc t)) = MAX_PROC + 1;
  tw_last : 0 ≤ last_i t ≤ MAX_PROC
}.

Definition entry (t : processTable) (i : Z) : option nat := default None (pt_proc t !! Z.to_nat i).

Lemma slot_after_range last k : 1 ≤ slot_after last k ≤ MAX_PROC.
Proof. unfold slot_after, MAX_PROC. pose proof (Z.mod_pos_bound (last + k) 100 ltac:(lia)). lia. Qed.

Lemma slot_after_next last k : 0 ≤ last → 0 ≤ k → wrap_i (slot_after last k + 1) = slot_after last (k + 1).
Proof.
  intros Hl Hk. unfold slot_after, wrap_i, MAX_PROC. replace (last + (k + 1)) with (last + k + 1) by lia.
  destruct (Z.ltb_spec 100 ((last + k) `mod` 100 + 1 + 1)); Z.div_mod_to_equations; lia.
Qed.

Lemma slot_after_first last : 0 ≤ last ≤ MAX_PROC → wrap_i (last + 1) = slot_after last 0.
Proof.
  unfold slot_after, wrap_i, MAX_PROC. intros Hl. destruct (Z.ltb_spec 100 (last + 1)); Z.div_mod_to_equations; lia.
Qed.

Lemma slot_after_last last k : 1 ≤ last ≤ MAX_PROC → 0 ≤ k < MAX_PROC → slot_after last k = last ↔ k = MAX_PROC - 1.
Proof. unfold slot_after, MAX_PROC. intros Hl Hk. Z.div_mod_to_equations. lia. Qed.

Lemma slot_measure last k : 0 ≤ k < MAX_PROC → (last - slot_after last k) `mod` MAX_PROC = MAX_PROC - 1 - k.
Proof.
  unfold slot_after, MAX_PROC. intros Hk. symmetry. apply (Z.mod_unique _ _ ((last + k) / 100 - 1)); [left; lia|].
  pose proof (Z.div_mod (last + k) 100 ltac:(lia)). lia.
Qed.

(** Every other entry is looked at. *)
Lemma slot_after_onto last i :
  1 ≤ last ≤ MAX_PROC → 1 ≤ i ≤ MAX_PROC → i ≠ last → ∃ k, 0 ≤ k < MAX_PROC - 1 ∧ slot_after last k = i.
Proof.
  unfold slot_after, MAX_PROC. intros Hl Hi Hne. destruct (decide (last < i)).
  - exists (i - 1 - last). split; [lia|]. rewrite Z.mod_small; lia.
  - exists (i + 99 - last). split; [lia|]. replace (last + (i + 99 - last)) with (i - 1 + 1 * 100) by lia.
    rewrite Z_mod_plus_full, Z.mod_small; lia.
Qed.

Lemma table_at_ok t i : table_wf t → 0 ≤ i ≤ MAX_PROC → table_at i t = Ok (entry t i, t).
Proof.
  intros [Hlen _] Hi. unfold table_at, entry. mred. rewrite (proj2 (Z.leb_le _ _)) by lia. unfold MAX_PROC in *.
  by destruct (lookup_lt_is_Some_2 (pt_proc t) (Z.to_nat i)) as [x ->]; [lia|].
Qed.

Lemma table_put_ok t i p : table_wf t → 0 ≤ i ≤ MAX_PROC →
  table_put i p t = Ok (tt, set_pt_proc (<[Z.to_nat i := p]> (pt_proc t)) t).
Proof. intros [Hlen _] Hi. unfold table_put. mred. by rewrite decide_True by lia. Qed.

(** The search finds the first free entry after the last one used, and
    fails, with the table unchanged, when the other entries are all taken. *)
Lemma find_pid_run t proc :
  table_wf t → (last_i t = 0 → ∃ k, 0 ≤ k < MAX_PROC ∧ entry t (slot_after 0 k) = None) →
  wp (find_pid proc) (λ r t',
    (∃ k, 0 ≤ k < MAX_PROC ∧ r = slot_after (last_i t) k ∧ entry t r = None ∧ (last_i t = 0 ∨ r ≠ last_i t) ∧
      (∀ k', 0 ≤ k' < k → entry t (slot_after (last_i t) k') ≠ None) ∧
      t' = set_last_i r (set_pt_proc (<[Z.to_nat r := Some proc]> (pt_proc t)) t)) ∨
    (r = 0 ∧ t' = t ∧ ∀ i, 1 ≤ i ≤ MAX_PROC → i ≠ last_i t → entry t i ≠ None)) t.
Proof.
  intros Hwf H0. pose proof (tw_last _ Hwf) as Hlast. unfold find_pid. apply wp_bind, wp_gets.
  rewrite slot_after_first by done.
  eapply (wp_while _ (λ i t', t' = t ∧ ∃ k, 0 ≤ k < MAX_PROC ∧ i = slot_after (last_i t) k ∧
      ∀ k', 0 ≤ k' < k → entry t (slot_after (last_i t) k') ≠ None)
    (λ i _, (last_i t - i) `mod` MAX_PROC)).
  - split; [done|]. exists 0. unfold MAX_PROC. split; [lia|]. split; [done|]. intros; lia.
  - intros i t' _. apply Z.mod_pos_bound. done.
  - pose proof (Z.mod_pos_bound (last_i t - slot_after (last_i t) 0) MAX_PROC ltac:(done)). unfold MAX_PROC in *. lia.
  - intros i t' (-> & k & Hk & -> & Hocc). apply wp_bind, wp_gets. pose proof (slot_after_range (last_i t) k) as Hr.
    destruct (Z.eqb_spec (slot_after (last_i t) k) (last_i t)) as [E|E].
    + apply wp_ret. right. split; [done|]. split; [done|]. intros i Hi Hne.
      assert (k = MAX_PROC - 1) as -> by (apply (slot_after_last (last_i t)); [lia|lia|done]).
      destruct (slot_after_onto (last_i t) i) as (k' & Hk' & <-); [lia|done|done|]. by apply Hocc.
    + apply wp_bind. erewrite wp_eq by (apply table_at_ok; [done|lia]). destruct (entry t (slot_after (last_i t) k)) as [c|] eqn:Ee.
      * apply wp_ret. assert (k + 1 < MAX_PROC) as Hk1.
        { destruct (decide (k + 1 < MAX_PROC)) as [|Hge]; [done|]. exfalso. assert (k = MAX_PROC - 1) as -> by lia.
          destruct (decide (last_i t = 0)) as [E0|E0]; [|apply E, slot_after_last; [lia|lia|done]].
          destruct (H0 E0) as (k0 & Hk0 & Hf0). rewrite <-E0 in Hf0. destruct (decide (k0 = MAX_PROC - 1)) as [->|]; [congruence|].
          apply (Hocc k0); [lia|done]. }
        rewrite slot_after_next by lia. split.
        -- split; [done|]. exists (k + 1). split; [lia|]. split; [done|]. intros k' Hk'.
           destruct (decide (k' = k)) as [->|]; [congruence|apply Hocc; lia].
        -- rewrite !slot_measure by (unfold MAX_PROC in *; lia). lia.
      * apply wp_bind. erewrite wp_eq by (apply table_put_ok; [done|lia]). apply wp_bind, wp_modify, wp_ret.
        left. exists k. do 3 (split; [done|]). split; [by right|]. done.
Qed.

(** ** Life of a process *)

Section proc_lemmas.
Context {ops : VnodeOps}.

(** A critical section of the table's lock *)
Lemma wp_tlock_acquire Q (s : psys) :
  cpu_ok (k_cpu (ps_k s)) → c_spinlocks (k_cpu (ps_k s)) = 0 → lock_free (pt_lk (ps_table s)) →
  Q tt (set_ps_k (set_k_cpu (cpu_raise 1 (k_cpu (ps_k s))) (ps_k s))
    (set_ps_table (set_pt_lk (mk_spinlock 1 (Some (c_self (k_cpu (ps_k s))))) (ps_table s)) s)) →
  wp (on_tlock spinlock_acquire) Q s.
Proof.
  intros Hc Hn Hl HQ. unfold on_tlock. apply wp_zoom. erewrite wp_eq by (apply spinlock_acquire_ok; [done|lia|done]). done.
Qed.

Lemma wp_tlock_release Q (s : psys) c :
  cpu_ok c → c_spinlocks c = 0 → k_cpu (ps_k s) = cpu_raise 1 c → pt_lk (ps_table s) = mk_spinlock 1 (Some (c_self c)) →
  Q tt (set_ps_k (set_k_cpu c (ps_k s)) (set_ps_table (set_pt_lk SPINLOCK_INITIALIZER (ps_table s)) s)) →
  wp (on_tlock spinlock_release) Q s.
Proof.
  intros Hc Hn Hcpu Hl HQ. unfold on_tlock. apply wp_zoom. rewrite Hcpu, Hl.
  erewrite wp_eq by (apply spinlock_release_ok; [apply cpu_raise_ok; [done|lia]|cbn; lia|done]).
  by rewrite cpu_raise_raise, cpu_raise_0 by done.
Qed.

Lemma wp_kmalloc Q (s : psys) :
  (∀ b ml, (k_mallocs (ps_k s) = [] → b = true ∧ ml = []) → Q b (set_ps_k (set_k_mallocs ml (ps_k s)) s)) → wp (on_k kmalloc_ok) Q s.
Proof.
  intros H. unfold on_k. apply wp_zoom. unfold wp, kmalloc_ok. destruct (k_mallocs (ps_k s)) as [|b ml] eqn:E; [|by apply H].
  specialize (H true [] ltac:(done)). rewrite <-E in H. by destruct s as [[] ? ?].
Qed.

Lemma wp_sem_create n Q (s : psys) :
  (∀ sem ml, sem = None ∨ sem = Some n → (k_mallocs (ps_k s) = [] → sem = Some n ∧ ml = []) → Q sem (set_ps_k (set_k_mallocs ml (ps_k s)) s)) → wp (sem_create_count n) Q s.
Proof.
  intros H. unfold sem_create_count. apply wp_bind, wp_kmalloc. intros b1 ml1 H1.
  destruct b1; cbn [negb]; [|apply wp_ret, H; [by left|by intros [? _]%H1]]. apply wp_bind, wp_kmalloc. intros b2 ml2 H2. cbn in H2.
  destruct b2; cbn [negb]; [|apply wp_ret; apply (H None ml2); [by left|naive_solver]]. apply wp_bind, wp_kmalloc. intros b3 ml3 H3. cbn in H3.
  destruct b3; cbn [negb]; apply wp_ret; [apply (H (Some n) ml3)|apply (H None ml3)]; naive_solver.
Qed.

(** Every process has the entry of its pid, and every entry is a process. *)
Record pids_ok (s : psys) : Prop := {
  po_cpu : cpu_ok (k_cpu (ps_k s));
  po_count : c_spinlocks (k_cpu (ps_k s)) = 0;
  po_lock : lock_free (pt_lk (ps_table s));
  po_table : table_wf (ps_table s);
  po_proc c p : k_procs (ps_k s) !! c = Some p → 1 ≤ p_pid p ≤ MAX_PROC ∧ entry (ps_table s) (p_pid p) = Some c;
  po_entry i c : 0 ≤ i ≤ MAX_PROC → entry (ps_table s) i = Some c → ∃ p, k_procs (ps_k s) !! c = Some p ∧ p_pid p = i;
  po_first : last_i (ps_table s) = 0 → k_procs (ps_k s) = ∅
}.

(** There is a free entry the search looks at. *)
Definition pid_free (t : processTable) : Prop := ∃ i, 1 ≤ i ≤ MAX_PROC ∧ (last_i t = 0 ∨ i ≠ last_i t) ∧ entry t i = None.

Lemma entry_put t i c j : table_wf t → 0 ≤ i ≤ MAX_PROC → 0 ≤ j →
  entry (set_pt_proc (<[Z.to_nat i := c]> (pt_proc t)) t) j = if decide (j = i) then c else entry t j.
Proof.
  intros [Hlen _] Hi Hj. unfold entry. cbn. case_decide as E.
  - subst. by rewrite list_lookup_insert_eq by lia.
  - by rewrite list_lookup_insert_ne by lia.
Qed.

(** The state after [proc_init_waitpid] gave the process a pid *)
Definition with_pid (s : psys) (c : nat) (p : proc) (pid : Z) (sem : option Z) (ml : list bool) : psys :=
  let t := ps_table s in
  set_ps_k (set_k_procs (<[c := set_p_sem sem (set_p_status 0 (set_p_pid pid p))]> (k_procs (ps_k s)))
      (set_k_mallocs ml (ps_k s)))
    (set_ps_table (set_last_i pid (set_pt_proc (<[Z.to_nat pid := Some c]> (pt_proc t)) t)) s).

Lemma proc_init_waitpid_run (s : psys) c p :
  cpu_ok (k_cpu (ps_k s)) → c_spinlocks (k_cpu (ps_k s)) = 0 → lock_free (pt_lk (ps_table s)) →
  table_wf (ps_table s) → pid_free (ps_table s) → k_procs (ps_k s) !! c = Some p →
  wp (proc_init_waitpid c) (λ _ s', ∃ pid sem ml, 1 ≤ pid ≤ MAX_PROC ∧ entry (ps_table s) pid = None ∧
    (sem = None ∨ sem = Some 0) ∧ (k_mallocs (ps_k s) = [] → sem = Some 0 ∧ ml = []) ∧ s' = with_pid s c p pid sem ml) s.
Proof.
  intros Hc Hn Hl Hwf (i & Hi & Hil & Hfree) Hp. unfold proc_init_waitpid. apply wp_bind, wp_tlock_acquire; [done..|].
  set (t := ps_table s) in *. set (s1 := set_ps_k _ _). apply wp_bind. unfold on_table. apply wp_zoom.
  assert (ps_table s1 = set_pt_lk (mk_spinlock 1 (Some (c_self (k_cpu (ps_k s))))) t) as Ht1 by done. rewrite Ht1.
  set (t1 := set_pt_lk _ t). assert (table_wf t1) as Hwf1 by (destruct Hwf; by split).
  eapply wp_mono; [apply (find_pid_run t1 c Hwf1)|].
  { intros E0. exists (i - 1). unfold slot_after, MAX_PROC in *. split; [lia|]. rewrite Z.add_0_l, Z.mod_small by lia.
    by replace (i - 1 + 1) with i by lia. }
  intros pid t2 [(k & Hk & Hpid & Hpf & _ & _ & ->)|(-> & -> & Hfull)].
  2:{ exfalso. destruct Hil as [E0|Hne]; [|by apply (Hfull i)]. apply (Hfull i); [done| |done]. change (last_i t1) with (last_i t). lia. }
  pose proof (slot_after_range (last_i t1) k) as Hr. rewrite <-Hpid in Hr.
  apply wp_bind. apply (wp_tlock_release _ _ (k_cpu (ps_k s))); [done|done|done|done|].
  rewrite (proj2 (Z.eqb_neq pid 0)) by lia. apply wp_bind, wp_sem_create. intros sem ml Hsem Hml. apply wp_bind.
  unfold pget, on_k. apply wp_zoom. erewrite wp_eq by (apply get_proc_ok; done).
  unfold pput, on_k. apply wp_zoom. unfold put_proc. apply wp_modify. exists pid, sem, ml. split; [done|]. split; [done|]. split; [done|]. split; [done|].
  unfold lock_free in Hl. unfold with_pid. fold t. destruct s as [[] [] ? ? ? ? ? ? ?]. cbn in *. rewrite Hl. done.
Qed.

Lemma proc_create_run name (s : psys) :
  pids_ok s → pid_free (ps_table s) →
  wp (proc_create name) (λ r s', pids_ok s' ∧ match r with
    | None => k_procs (ps_k s') = k_procs (ps_k s) ∧ ps_table s' = ps_table s
    | Some c => k_procs (ps_k s) !! c = None ∧ ∃ p, k_procs (ps_k s') = <[c := p]> (k_procs (ps_k s)) ∧
        p_name p = name ∧ p_addrspace p = None ∧ p_cwd p = None ∧ p_numthreads p = 0 ∧ lock_free (p_lock p) ∧
        fileTable p = replicate (Z.to_nat OPEN_MAX) None ∧
        entry (ps_table s) (p_pid p) = None
    end ∧ ∃ procs t ml, s' = set_ps_k (set_k_procs procs (set_k_mallocs ml (ps_k s))) (set_ps_table t s) ∧
      (k_mallocs (ps_k s) = [] → ml = [] ∧ r ≠ None)) s.
Proof.
  intros Hok Hfree. unfold proc_create. pose proof Hok as [Hcpu Hcnt Hlk Hwf Hpr Hen Hfi].
  apply wp_bind, wp_kmalloc. intros b1 ml1 H1. destruct b1; cbn [negb].
  2:{ apply wp_ret. split; [by destruct Hok|]. split; [done|]. exists (k_procs (ps_k s)), (ps_table s), ml1.
      split; [by destruct s as [[]]|]. by intros [? _]%H1. }
  apply wp_bind, wp_kmalloc. intros b2 ml2 H2. cbn in H2. destruct b2; cbn [negb].
  2:{ apply wp_ret. split; [by destruct Hok|]. split; [done|]. exists (k_procs (ps_k s)), (ps_table s), ml2.
      split; [by destruct s as [[]]|]. naive_solver. }
  apply wp_bind, wp_gets. cbn [ps_k set_ps_k k_procs set_k_mallocs]. set (c := fresh (dom (k_procs (ps_k s)))).
  assert (k_procs (ps_k s) !! c = None) as Hnew by (apply not_elem_of_dom, is_fresh).
  apply wp_bind. unfold pput, on_k. apply wp_zoom. unfold put_proc. apply wp_modify. cbn beta.
  match goal with |- wp _ _ ?x => set (s1 := x) end. match goal with s1 := context [<[c := ?p]> _] |- _ => set (p0 := p) in * end.
  apply wp_bind. eapply wp_mono; [apply (proc_init_waitpid_run s1 c p0); try done|].
  { cbn. by rewrite lookup_insert_eq. }
  intros [] s2 (pid & sem & ml & Hpid & Hpe & Hsem & Hml & ->). apply wp_ret. change (ps_table s1) with (ps_table s) in Hpe.
  set (p1 := set_p_sem sem (set_p_status 0 (set_p_pid pid p0))).
  assert (∀ j, 0 ≤ j → entry (ps_table (with_pid s1 c p0 pid sem ml)) j = if decide (j = pid) then Some c else entry (ps_table s) j) as Hent.
  { intros j Hj. apply (entry_put (ps_table s) pid (Some c) j Hwf); lia. }
  assert (k_procs (ps_k (with_pid s1 c p0 pid sem ml)) = <[c := p1]> (k_procs (ps_k s))) as Hprocs by (cbn; by rewrite insert_insert_eq).
  split.
  - split; [done|done|done| | | |].
    + destruct Hwf. split; cbn; [by rewrite length_insert|lia].
    + intros c' p'. rewrite Hprocs. intros [[<- <-]|[Hne Hp']]%lookup_insert_Some.
      * split; [done|]. rewrite Hent by (cbn; lia). by rewrite decide_True.
      * destruct (Hpr c' p' Hp') as [Hr' He']. split; [done|]. rewrite Hent, decide_False by (congruence || lia). done.
    + intros i c' Hi. rewrite Hent, Hprocs by lia. case_decide as E.
      * intros [= <-]. exists p1. by rewrite lookup_insert_eq.
      * intros He'. destruct (Hen i c' Hi He') as (p' & Hp' & Hpid'). exists p'. rewrite lookup_insert_ne; [done|]. intros <-. congruence.
    + cbn. lia.
  - split; [split; [done|]; exists p1; split; [done|]; done|]. eexists _, _, ml. split; [by destruct s as [[]]|]. naive_solver.
Qed.
End proc_lemmas.
