(* ===== verification/Syscalls.v ===== *)
(** * Process and file system calls ([kern/syscall/proc_syscalls.c],
      [kern/syscall/file_syscalls.c], [proc_file_table_copy] of proc.c)

    The handlers on the state [psys] of [Proc].  The file system ([vfs_open],
    [vfs_close]), the creation of a thread ([thread_fork]) and accesses to
    user memory are arguments.  [fileTable[fd]] with [fd] out of range is the
    outcome [BadAccess]. *)

From S2P Require Import Prelude Machine Spinlock Pt PtSpec PtFrames PtTable Kernel Vmstats.
From S2P Require Import Tlb Swapfile Coremap Addrspace Proc.

Definition SYSTEM_OPEN_MAX : Z := 10 * OPEN_MAX.
Definition STDIN_FILENO : Z := 0.
Definition STDOUT_FILENO : Z := 1.
Definition STDERR_FILENO : Z := 2.

Section syscalls.
Context {ops : VnodeOps}.
Context (vfs_open : Z → Z → Z → M psys (Z * Z)) (vfs_close : Z → M kernel ()).
Context (vop_reclaim : Z → M psys Z).
Context (thread_fork : nat → M psys Z).
Context (load_user : Z → M psys Z) (store_user : Z → Z → M psys ()).

(** ** The open file tables *)

Definition get_file (i : nat) : M psys openfile := l ← gets systemFileTable; deref (l !! i).
Definition put_file (i : nat) (f : openfile) : M psys () :=
  modify (λ s, set_files (<[i := f]> (systemFileTable s)) s).

Definition openfileIncrRefCount (opf : option nat) : M psys () :=
  match opf with
  | None => mret tt
  | Some i => f ← get_file i; put_file i (mk_openfile (of_vn f) (of_offset f) (u32 (countRef f + 1)))
  end.

(** [p->fileTable[fd]] *)
Definition fd_get (c : nat) (fd : Z) : M psys (option nat) :=
  p ← pget c;
  if 0 <=? fd then deref (fileTable p !! Z.to_nat fd) else halt BadAccess.
Definition fd_put (c : nat) (fd : Z) (opf : option nat) : M psys () :=
  p ← pget c;
  if decide (0 ≤ fd < Z.of_nat (length (fileTable p))) then
    pput c (set_fileTable (<[Z.to_nat fd := opf]> (fileTable p)) p)
  else halt BadAccess.

Definition proc_file_table_copy (psrc pdest : nat) : M psys () :=
  for_list (seqZ 0 OPEN_MAX) (λ fd,
    opf ← fd_get psrc fd;
    fd_put pdest fd opf ;;
    openfileIncrRefCount opf).

(** ** proc_syscalls.c *)

(** [sys__exit] up to [thread_exit], which does not return *)
Definition exit_process (status : Z) : M psys () :=
  cur ← pcur;
  c ← deref cur;
  p ← pget c;
  pput c (set_p_status (Z.land status 0xff) p) ;;
  t ← gets ps_curthread;
  proc_remthread t ;;
  proc_signal_end c.
Definition sys__exit (status : Z) : M psys () :=
  exit_process status ;;
  halt (Exited (Z.land status 0xff)).

Definition sys_waitpid (pid statusp options : Z) : M psys Z :=
  c ← proc_search_pid pid;
  s ← proc_wait vfs_close vop_reclaim c;
  (if negb (statusp =? 0) then store_user statusp s else mret tt) ;;
  mret pid.

Definition sys_getpid : M psys Z :=
  cur ← pcur;
  c ← assert_some cur "curproc != NULL";
  p ← pget c;
  mret (p_pid p).

(** The result is the error code and the pid stored in [*retval]. *)
Definition sys_fork : M psys (Z * option Z) :=
  cur ← pcur;
  c ← assert_some cur "curproc != NULL";
  cp ← pget c;
  newp ← proc_create_runprogram (p_name cp);
  match newp with
  | None => mret (ENOMEM, None)
  | Some n =>
      cp ← pget c;
      old ← deref (p_addrspace cp);
      r ← on_k (as_copy old);
      p ← pget n;
      pput n (set_p_addrspace r.2 p) ;;
      match r.2 with
      | None => proc_destroy vfs_close vop_reclaim n ;; mret (ENOMEM, None)
      | Some _ =>
          proc_file_table_copy n c ;;
          ok ← on_k kmalloc_ok;
          if negb ok then proc_destroy vfs_close vop_reclaim n ;; mret (ENOMEM, None)
          else
            result ← thread_fork n;
            if negb (result =? 0) then proc_destroy vfs_close vop_reclaim n ;; mret (ENOMEM, None)
            else p ← pget n; mret (0, Some (p_pid p))
      end
  end.

(** ** file_syscalls.c *)

(** The part [file_read] and [file_write] share: the open file of a
    descriptor; [None] stands for the returns of -1 *)
Definition fd_lookup (fd : Z) : M psys (option (nat * nat * Z)) :=
  if (fd <? 0) || (OPEN_MAX <? fd) then mret None
  else
    cur ← pcur;
    c ← deref cur;
    opf ← fd_get c fd;
    match opf with
    | None => mret None
    | Some i =>
        f ← get_file i;
        match of_vn f with
        | None => mret None
        | Some v => mret (Some (c, i, v))
        end
    end.

Definition file_read (fd buf_ptr size : Z) : M psys Z :=
  o ← fd_lookup fd;
  match o with
  | None => mret (-1)
  | Some (c, i, v) =>
      f ← get_file i;
      r ← on_k (VOP_READ v (mk_uio [mk_iovec buf_ptr size] (of_offset f) size UIO_USERISPACE UIO_READ (Some c)));
      if negb (r.1 =? 0) then mret r.1
      else
        f ← get_file i;
        put_file i (mk_openfile (of_vn f) (uio_offset r.2) (countRef f)) ;;
        mret (s32 (size - uio_resid r.2))
  end.

Definition file_write (fd buf_ptr size : Z) : M psys Z :=
  o ← fd_lookup fd;
  match o with
  | None => mret (-1)
  | Some (c, i, v) =>
      f ← get_file i;
      r ← on_k (VOP_WRITE v (mk_uio [mk_iovec buf_ptr size] (of_offset f) size UIO_USERISPACE UIO_WRITE (Some c)));
      if negb (r.1 =? 0) then mret r.1
      else
        f ← get_file i;
        put_file i (mk_openfile (of_vn f) (uio_offset r.2) (countRef f)) ;;
        mret (s32 (size - uio_resid r.2))
  end.

(** The first entry of the system file table without a vnode, and of a
    process's table from descriptor 3 on *)
Definition free_file (l : list openfile) : option nat := fst <$> list_find (λ f, of_vn f = None) l.
Definition free_fd (l : list (option nat)) : option nat :=
  (λ p, p.1 + Z.to_nat (STDERR_FILENO + 1))%nat <$> list_find (λ x, x = None) (drop (Z.to_nat (STDERR_FILENO + 1)) l).

(** The result is the descriptor and the error stored in [*errp], if any. *)
Definition sys_open (path openflags mode : Z) : M psys (Z * option Z) :=
  r ← vfs_open path openflags mode;
  if negb (r.1 =? 0) then mret (-1, Some ENOENT)
  else
    let v := r.2 in
    l ← gets systemFileTable;
    err ← match free_file l with
          | None => mret (inr ENFILE)
          | Some i =>
              put_file i (mk_openfile (Some v) 0 1) ;;
              cur ← pcur;
              c ← deref cur;
              p ← pget c;
              match free_fd (fileTable p) with
              | Some fd => fd_put c (Z.of_nat fd) (Some i) ;; mret (inl (Z.of_nat fd))
              | None => mret (inr EMFILE)
              end
          end;
    match err with
    | inl fd => mret (fd, None)
    | inr e => on_k (vfs_close v) ;; mret (-1, Some e)
    end.

Definition sys_close (fd : Z) : M psys Z :=
  if (fd <? 0) || (OPEN_MAX <? fd) then mret (-1)
  else
    cur ← pcur;
    c ← deref cur;
    opf ← fd_get c fd;
    match opf with
    | None => mret (-1)
    | Some i =>
        fd_put c fd None ;;
        f ← get_file i;
        let n := u32 (countRef f - 1) in
        put_file i (mk_openfile (of_vn f) (of_offset f) n) ;;
        if 0 <? n then mret 0
        else
          put_file i (mk_openfile None (of_offset f) n) ;;
          match of_vn f with
          | None => mret (-1)
          | Some v => on_k (vfs_close v) ;; mret 0
          end
    end.

(** [putch] and [getch]: the console; a read with no input waits. *)
Definition putch (ch : Z) : M psys () := modify (λ s, set_ps_out (ps_out s ++ [ch]) s).
Definition getch : M psys Z :=
  l ← gets ps_in;
  match l with
  | [] => halt Hang
  | ch :: l => modify (set_ps_in l) ;; mret ch
  end.

Definition sys_write (fd buf_ptr size : Z) : M psys Z :=
  if negb (fd =? STDOUT_FILENO) && negb (fd =? STDERR_FILENO) then file_write fd buf_ptr size
  else
    for_list (seqZ 0 (s32 size)) (λ i, ch ← load_user (buf_ptr + i); putch ch) ;;
    mret (s32 size).

(** [p[i] < 0] is a test of a signed char. *)
Definition sys_read (fd buf_ptr size : Z) : M psys Z :=
  if negb (fd =? STDIN_FILENO) then file_read fd buf_ptr size
  else
    while (λ i,
      if i <? s32 size then
        ch ← getch;
        store_user (buf_ptr + i) (u8 ch) ;;
        if s8 ch <? 0 then mret (inr i) else mret (inl (i + 1))
      else mret (inr (s32 size))) 0.
End syscalls.
