(* ===== verification/ProcLife.v ===== *)
(** * The end of a process: [as_destroy], [proc_destroy], exit and wait

    What the functions of [Addrspace], [Proc] and [Syscalls] do, put
    together: a process that exits is found by the process that waits for it
    with its exit status, and leaves no page in memory, no page in the swap
    file and no entry in the process table.  (The files it has open stay
    open: nothing closes them.) *)

From S2P Require Import Prelude Machine Spinlock Pt PtSpec PtFrames PtTable Kernel Vmstats.
From S2P Require Import Tlb Swapfile Coremap Addrspace Proc Syscalls.

(** ** Reasoning about the process state *)
Section wp_lemmas.
Context {ops : VnodeOps}.

Definition with_procs (m : gmap nat proc) (s : psys) : psys := set_ps_k (set_k_procs m (ps_k s)) s.

Lemma wp_pget c p Q (s : psys) : k_procs (ps_k s) !! c = Some p → Q p s → wp (pget c) Q s.
Proof.
  intros Hp HQ. unfold pget, on_k. apply wp_zoom. erewrite wp_eq by (by apply get_proc_ok). by destruct s.
Qed.

Lemma wp_pput c p Q (s : psys) : Q tt (with_procs (<[c := p]> (k_procs (ps_k s))) s) → wp (pput c p) Q s.
Proof. intros HQ. unfold pput, on_k. apply wp_zoom. unfold put_proc. by apply wp_modify. Qed.

(** A critical section of [p_lock] *)
Lemma wp_plock_acquire c p Q (s : psys) :
  cpu_ok (k_cpu (ps_k s)) → c_spinlocks (k_cpu (ps_k s)) = 0 → k_procs (ps_k s) !! c = Some p → lock_free (p_lock p) →
  Q tt (set_ps_k (set_k_procs (<[c := set_p_lock (mk_spinlock 1 (Some (c_self (k_cpu (ps_k s))))) p]> (k_procs (ps_k s)))
    (set_k_cpu (cpu_raise 1 (k_cpu (ps_k s))) (ps_k s))) s) →
  wp (on_k (on_p_lock c spinlock_acquire)) Q s.
Proof.
  intros Hc Hn Hp Hl HQ. unfold on_k. apply wp_zoom. unfold on_p_lock. apply wp_bind. erewrite wp_eq by (by apply get_proc_ok).
  apply wp_bind, wp_gets. rewrite (spinlock_acquire_ok _ _ Hc ltac:(lia) Hl). unfold put_proc. apply wp_bind, wp_modify, wp_modify. done.
Qed.

Lemma wp_plock_release c p cpu0 Q (s : psys) :
  cpu_ok cpu0 → c_spinlocks cpu0 = 0 → k_cpu (ps_k s) = cpu_raise 1 cpu0 →
  k_procs (ps_k s) !! c = Some p → p_lock p = mk_spinlock 1 (Some (c_self cpu0)) →
  Q tt (set_ps_k (set_k_procs (<[c := set_p_lock SPINLOCK_INITIALIZER p]> (k_procs (ps_k s))) (set_k_cpu cpu0 (ps_k s))) s) →
  wp (on_k (on_p_lock c spinlock_release)) Q s.
Proof.
  intros Hc Hn Hcpu Hp Hl HQ. unfold on_k. apply wp_zoom. unfold on_p_lock. apply wp_bind. erewrite wp_eq by (by apply get_proc_ok).
  apply wp_bind, wp_gets. rewrite Hcpu, Hl. rewrite spinlock_release_ok; [|apply cpu_raise_ok; [done|lia]|cbn; lia|done].
  rewrite cpu_raise_raise, cpu_raise_0 by done. unfold put_proc. apply wp_bind, wp_modify, wp_modify. done.
Qed.

(** Interrupts off and on around a change of the state *)
Lemma wp_splhigh Q (s : psys) :
  cpu_ok (k_cpu (ps_k s)) → c_spinlocks (k_cpu (ps_k s)) = 0 →
  Q (t_curspl (k_cpu (ps_k s))) (set_ps_k (set_k_cpu (cpu_high (k_cpu (ps_k s))) (ps_k s)) s) →
  wp (on_k (on_curcpu splhigh)) Q s.
Proof.
  intros Hc Hn HQ. unfold on_k, on_curcpu. apply wp_zoom, wp_zoom. erewrite wp_eq by (apply splhigh_ok; [done|lia]). done.
Qed.

Lemma wp_splx cpu0 Q (s : psys) :
  cpu_ok cpu0 → k_cpu (ps_k s) = cpu_high cpu0 →
  (∀ r, Q r (set_ps_k (set_k_cpu cpu0 (ps_k s)) s)) → wp (on_k (on_curcpu (splx (t_curspl cpu0)))) Q s.
Proof.
  intros Hc Hcpu HQ. unfold on_k, on_curcpu. apply wp_zoom, wp_zoom. rewrite Hcpu.
  destruct (splx_restore cpu0 (cpu_high cpu0) Hc eq_refl) as [r Hr]. by rewrite (wp_eq _ _ _ _ _ Hr).
Qed.

(** Giving up a reference that is not the last *)
Lemma wp_decref reclaim v x Q (s : psys) :
  cpu_ok (k_cpu (ps_k s)) → c_spinlocks (k_cpu (ps_k s)) = 0 → ps_vnodes s !! v = Some x → 1 < vn_refcount x →
  lock_free (vn_countlock x) →
  Q tt (set_ps_vnodes (<[v := set_vn_refcount (vn_refcount x - 1) x]> (ps_vnodes s)) s) →
  wp (vnode_decref reclaim v) Q s.
Proof.
  intros Hc Hn Hv Hr Hl HQ. unfold vnode_decref, on_countlock, get_vnode, put_vnode.
  apply wp_bind, wp_bind, wp_bind, wp_gets, wp_deref. exists x. split; [done|]. apply wp_bind, wp_gets.
  rewrite (spinlock_acquire_ok _ _ Hc ltac:(lia) Hl). apply wp_bind, wp_modify, wp_modify. cbn [ps_vnodes set_ps_k set_ps_vnodes].
  set (x1 := set_vn_countlock _ x). apply wp_bind, wp_bind, wp_gets, wp_deref. exists x1. cbn [ps_vnodes set_ps_vnodes].
  split; [by rewrite lookup_insert_eq|]. apply wp_bind, wp_kassert. split; [apply Z.ltb_lt; cbn; lia|].
  rewrite (proj2 (Z.ltb_lt 1 (vn_refcount x1)) Hr). apply wp_bind, wp_bind, wp_modify, wp_ret. cbn [ps_vnodes set_ps_vnodes].
  apply wp_bind, wp_bind, wp_bind, wp_gets, wp_deref. eexists. cbn [ps_vnodes set_ps_vnodes]. split; [by rewrite !insert_insert_eq, lookup_insert_eq|].
  apply wp_bind, wp_gets. cbn [ps_k set_ps_k set_ps_vnodes k_cpu set_k_cpu vn_countlock set_vn_refcount x1 set_vn_countlock].
  rewrite spinlock_release_ok; [|apply cpu_raise_ok; [done|lia]|cbn; lia|done]. rewrite cpu_raise_raise, cpu_raise_0 by done.
  apply wp_bind, wp_modify, wp_modify, wp_ret. cbn [ps_vnodes set_ps_vnodes set_ps_k]. rewrite !insert_insert_eq.
  unfold lock_free in Hl. revert HQ. destruct s as [[] ? ? ? ? ? ? ? ?], x as [n l]. cbn in *. by rewrite Hl.
Qed.
End wp_lemmas.

Section life.
Context {ops : VnodeOps} {laws : VnodeLaws ops}.
Context (vfs_close : Z → M kernel ()) (vop_reclaim : Z → M psys Z).

(** [vfs_close] releases one reference: the other files, and the contents of
    all, are as before. *)
Definition close_law : Prop := ∀ v k, ∃ fs', vfs_close v k = Ok (tt, set_k_fs fs' k) ∧
  (∀ w, file_data fs' w = file_data (k_fs k) w) ∧ (∀ w, w ≠ v → vnode_ok (k_fs k) w → vnode_ok fs' w).

(** An address space with its three segments, whose program is not the swap
    file *)
Definition complete (k : kernel) (a : addrspace) : Prop :=
  is_Some (seg1 a) ∧ is_Some (seg2 a) ∧ is_Some (segstack a) ∧
  ∀ s1 v, seg1 a = Some s1 → elfdata s1 = Some v → v ≠ k_swapfile k.

(** What [as_destroy] leaves *)
Record destroyed (pid : Z) (q : queue) (k k' : kernel) : Prop := {
  ds_quiet : quiet k';
  ds_cm : cm_wf k' (filter (λ e, e.1.1 ≠ pid) q);
  ds_swap : swap_wf k';
  ds_contents key : swap_contents k' key = if decide (key.1 = pid) then None else swap_contents k key;
  ds_procs : k_procs k' = k_procs k;
  ds_cur : k_curproc k' = k_curproc k;
  ds_cpu : k_cpu k' = k_cpu k;
  ds_mem : k_mem k' = k_mem k
}.

Hypothesis Hclose : close_law.

Lemma as_destroy_run k q a pid :
  quiet k → cm_wf k q → swap_wf k → complete k a → 0 < pid →
  ∃ k', as_destroy vfs_close a pid k = Ok (tt, k') ∧ destroyed pid q k k'.
Proof using Hclose.
  intros Hq Hcm Hsw ([s1 H1] & [s2 H2] & [s3 H3] & Hv) Hpid.
  assert (∃ fs', (match elfdata s1 with Some vn => vfs_close vn | None => mret tt end) k = Ok (tt, set_k_fs fs' k) ∧
    (∀ w, file_data fs' w = file_data (k_fs k) w) ∧ (vnode_ok fs' (k_swapfile k))) as (fs' & Hrun & Hdata & Hok).
  { destruct (elfdata s1) as [v|] eqn:Ev.
    - destruct (Hclose v k) as (fs' & Hr & Hd & Hn). exists fs'. split; [done|]. split; [done|]. apply Hn; [|apply Hsw].
      intros E. by apply (Hv s1 v H1 Ev).
    - exists (k_fs k). split; [by destruct k|]. split; [done|]. apply Hsw. }
  set (k1 := set_k_fs fs' k) in *. assert (quiet k1) as Hq1 by by apply (quiet_same k).
  assert (cm_wf k1 q) as Hcm1 by by apply (cm_wf_same k).
  destruct (removeptentries_run k1 q pid Hq1 Hcm1 Hpid) as (st' & Hpt & Hcm2).
  set (k2 := set_k_pt st' k1) in *. assert (quiet k2) as Hq2 by by apply (quiet_same k1).
  assert (swap_wf k2) as Hsw2.
  { destruct Hsw as [Ha Hb Hc Hd He]. split; [done|done|done| |done]. intros j sp Hj Ho. cbn. rewrite Hdata. by apply (Hd j sp). }
  destruct (swap_removed_wf k2 pid Hsw2) as [Hsw3 Hcont]. exists (swap_removed pid k2). split.
  - unfold as_destroy. rewrite H1. rewrite (bind_ok _ _ _ s1 k) by done. run_with Hrun. unfold segdes. rewrite H2, H3.
    rewrite (bind_ok _ _ _ tt k1) by done. rewrite (bind_ok _ _ _ tt k1) by done. rewrite (bind_ok _ _ _ tt k1) by done.
    run_with Hpt. apply removeswapentries_run; [done|done|lia].
  - split; [by apply (quiet_same k2)|by apply (cm_wf_same k2)|done| |done|done|done|done].
    intros key. rewrite Hcont. case_decide; [done|]. unfold swap_contents. cbn. by rewrite Hdata.
Qed.

(** A process that may be destroyed *)
Record destroyable (s : psys) (c : nat) (p : proc) (a : addrspace) (q : queue) : Prop := {
  dy_pids : pids_ok s;
  dy_quiet : quiet (ps_k s);
  dy_cm : cm_wf (ps_k s) q;
  dy_swap : swap_wf (ps_k s);
  dy_proc : k_procs (ps_k s) !! c = Some p;
  dy_kproc : ps_kproc s ≠ Some c;
  dy_cur : k_curproc (ps_k s) ≠ Some c;
  dy_threads : p_numthreads p = 0;
  dy_lock : lock_free (p_lock p);
  dy_sem : p_sem p ≠ None;
  dy_as : p_addrspace p = Some a;
  dy_complete : complete (ps_k s) a;
  dy_cwd v : p_cwd p = Some v → ∃ x, ps_vnodes s !! v = Some x ∧ 1 < vn_refcount x ∧ lock_free (vn_countlock x)
}.

(** Freeing the entry of the process table and the structure *)
Lemma end_waitpid_run (s : psys) c p :
  pids_ok s → k_procs (ps_k s) !! c = Some p → p_sem p ≠ None →
  wp (proc_end_waitpid c ;; modify (λ s, set_ps_k (set_k_procs (delete c (k_procs (ps_k s))) (ps_k s)) s))
    (λ _ s', pids_ok s' ∧ entry (ps_table s') (p_pid p) = None ∧ k_procs (ps_k s') = delete c (k_procs (ps_k s)) ∧
      ps_k s' = set_k_procs (delete c (k_procs (ps_k s))) (ps_k s) ∧ systemFileTable s' = systemFileTable s) s.
Proof using.
  intros [Hcpu Hcnt Hlk Hwf Hpr Hen Hfi] Hp Hsem. destruct (Hpr c p Hp) as [Hr He]. unfold proc_end_waitpid. apply wp_bind, wp_bind.
  apply wp_tlock_acquire; [done..|]. apply wp_bind. eapply wp_pget; [done|]. apply wp_bind, wp_kassert. split.
  { apply andb_true_iff. split; [apply Z.ltb_lt|apply Z.leb_le]; lia. }
  set (t1 := set_pt_lk _ (ps_table s)). assert (table_wf t1) as Hwf1 by (destruct Hwf; by split).
  apply wp_bind. unfold on_table at 1. apply wp_zoom. cbn [ps_table set_ps_k set_ps_table]. fold t1.
  erewrite wp_eq by (apply table_put_ok; [done|lia]). apply wp_bind. apply (wp_tlock_release _ _ (k_cpu (ps_k s))); [done..|].
  apply wp_bind. eapply wp_pget; [done|]. apply wp_kassert. split; [by apply bool_decide_eq_true|]. apply wp_modify.
  match goal with |- pids_ok ?x ∧ _ => set (s' := x) end.
  assert (∀ j, 0 ≤ j → entry (ps_table s') j = if decide (j = p_pid p) then None else entry (ps_table s) j) as Hent.
  { intros j Hj. apply (entry_put (ps_table s) (p_pid p) None j Hwf); lia. }
  assert (ps_k s' = set_k_procs (delete c (k_procs (ps_k s))) (ps_k s)) as Hk by (unfold s'; cbn; by destruct (ps_k s)).
  assert (k_procs (ps_k s') = delete c (k_procs (ps_k s))) as Hprocs by by rewrite Hk.
  split; [|split; [rewrite Hent by lia; by rewrite decide_True|done]].
  split; try (rewrite Hk; done).
  - done.
  - destruct Hwf. split; cbn; [by rewrite length_insert|lia].
  - intros c' p'. rewrite Hprocs. intros [Hne Hp']%lookup_delete_Some. destruct (Hpr c' p' Hp') as [Hr' He'].
    split; [done|]. rewrite Hent, decide_False by (congruence || lia). done.
  - intros i c' Hi. rewrite Hent, Hprocs by lia. case_decide as E; [done|]. intros He'.
    destruct (Hen i c' Hi He') as (p' & Hp' & Hpid'). exists p'. split; [|done]. apply lookup_delete_Some. split; [|done].
    intros <-. congruence.
  - intros E0. change (last_i (ps_table s')) with (last_i (ps_table s)) in E0. rewrite (Hfi E0) in Hp. by rewrite lookup_empty in Hp.
Qed.

Lemma pids_ok_procs (s s' : psys) :
  pids_ok s → ps_table s' = ps_table s → k_cpu (ps_k s') = k_cpu (ps_k s) →
  (∀ c, p_pid <$> k_procs (ps_k s') !! c = p_pid <$> k_procs (ps_k s) !! c) → pids_ok s'.
Proof using.
  intros [Hcpu Hcnt Hlk Hwf Hpr Hen Hfi] Ht Hc Hp. split; rewrite ?Ht, ?Hc; try done.
  - intros c p Hcp. specialize (Hp c). rewrite Hcp in Hp. cbn in Hp. symmetry in Hp. apply fmap_Some in Hp as (p0 & Hp0 & ->).
    by apply Hpr.
  - intros i c Hi He. destruct (Hen i c Hi He) as (p & Hcp & Hpid). specialize (Hp c). rewrite Hcp in Hp. cbn in Hp.
    apply fmap_Some in Hp as (p0 & Hp0 & E). exists p0. split; [done|congruence].
  - intros E0. specialize (Hfi E0). apply map_eq. intros c. specialize (Hp c). rewrite Hfi, lookup_empty in Hp.
    rewrite lookup_empty. by apply fmap_None in Hp.
Qed.

Lemma proc_destroy_run (s : psys) c p a q :
  destroyable s c p a q →
  wp (proc_destroy vfs_close vop_reclaim c)
    (λ _ s', pids_ok s' ∧ entry (ps_table s') (p_pid p) = None ∧ k_procs (ps_k s') = delete c (k_procs (ps_k s)) ∧
      destroyed (p_pid p) q (set_k_procs (delete c (k_procs (ps_k s))) (ps_k s)) (ps_k s') ∧
      systemFileTable s' = systemFileTable s) s.
Proof using Hclose.
  intros [Hpids Hq Hcm Hsw Hp Hkp Hcur Hth Hl Hsem Has Hcomp Hcwd]. unfold proc_destroy. pose proof (po_cpu _ Hpids) as Hcpu.
  pose proof (po_count _ Hpids) as Hcnt. apply wp_bind, wp_gets, wp_bind, wp_kassert. split; [by rewrite bool_decide_eq_false_2|].
  apply wp_bind. eapply wp_pget; [done|]. apply wp_bind.
  assert (∀ Q : () → psys → Prop, (∀ vs, let s1 := with_procs (<[c := set_p_cwd None p]> (k_procs (ps_k s))) (set_ps_vnodes vs s) in Q tt s1) →
    wp (match p_cwd p with Some v => vnode_decref vop_reclaim v ;; p ← pget c; pput c (set_p_cwd None p) | None => mret tt end) Q s) as Hstep.
  { intros Q HQ. destruct (p_cwd p) as [v|] eqn:Ev.
    - destruct (Hcwd v eq_refl) as (x & Hx & Hr & Hlx). apply wp_bind. eapply wp_decref; [done..|]. apply wp_bind. eapply wp_pget; [done|].
      apply wp_pput. apply HQ.
    - apply wp_ret. specialize (HQ (ps_vnodes s)). cbn zeta in HQ. unfold with_procs in HQ. cbn in HQ.
      assert (set_p_cwd None p = p) as E by (destruct p; cbn in *; by subst). rewrite E, insert_id in HQ by done. by destruct s as [[] ? ? ? ? ? ? ? ?]. }
  apply Hstep. intros vs. clear Hstep. set (p1 := set_p_cwd None p). set (s1 := with_procs _ _). cbn zeta.
  assert (k_procs (ps_k s1) !! c = Some p1) as Hp1 by (cbn; by rewrite lookup_insert_eq).
  apply wp_bind. eapply wp_pget; [done|]. apply wp_bind. change (p_addrspace p1) with (p_addrspace p). rewrite Has. apply wp_bind, wp_gets.
  rewrite bool_decide_eq_false_2 by done. apply wp_bind, wp_pput. set (p2 := set_p_addrspace None p1). set (s2 := with_procs _ s1).
  destruct (as_destroy_run (ps_k s2) q a (p_pid p1)) as (k3 & Hrun & Hds).
  { by apply (quiet_same (ps_k s)). } { by apply (cm_wf_same (ps_k s)). } { destruct Hsw as [S1 S2 S3 S4 S5]. by split. }
  { exact Hcomp. } { pose proof (po_proc _ Hpids c p Hp). cbn. lia. }
  unfold on_k at 1. apply wp_zoom. rewrite (wp_eq _ _ _ _ _ Hrun). set (s3 := set_ps_k k3 s2).
  assert (k_procs (ps_k s3) = <[c := p2]> (k_procs (ps_k s))) as Hprocs3.
  { change (k_procs k3 = <[c := p2]> (k_procs (ps_k s))). rewrite (ds_procs _ _ _ _ Hds). cbn. by rewrite insert_insert_eq. }
  apply wp_bind. eapply wp_pget; [rewrite Hprocs3; by rewrite lookup_insert_eq|]. apply wp_bind, wp_kassert. split; [by apply Z.eqb_eq|].
  apply wp_bind. unfold on_k at 1. apply wp_zoom. unfold on_p_lock. apply wp_bind.
  erewrite wp_eq by (apply get_proc_ok; rewrite Hprocs3; by rewrite lookup_insert_eq). apply wp_bind, wp_gets.
  unfold lock_free in Hl. change (p_lock p2) with (p_lock p). rewrite Hl. cbn -[k_procs]. unfold put_proc. apply wp_bind, wp_modify, wp_modify.
  match goal with |- wp _ _ ?x => set (s4 := x) end.
  assert (ps_k s4 = ps_k s3) as Hk4.
  { unfold s4. cbn. change k3 with (ps_k s3). rewrite Hprocs3, insert_insert_eq.
    assert (set_p_lock SPINLOCK_INITIALIZER p2 = p2) as -> by (destruct p; cbn in *; by subst). rewrite <-Hprocs3. by destruct (ps_k s3). }
  assert (pids_ok s4) as Hpids4.
  { apply (pids_ok_procs s); [done|done|rewrite Hk4; apply Hds|]. intros c'. rewrite Hk4, Hprocs3.
    destruct (decide (c' = c)) as [->|]; [by rewrite lookup_insert_eq, Hp|by rewrite lookup_insert_ne]. }
  eapply wp_mono; [apply (end_waitpid_run s4 c p2); [done|rewrite Hk4, Hprocs3; by rewrite lookup_insert_eq|done]|].
  intros [] s5 (Hpids5 & He5 & Hpr5 & Hk5 & Hf5). split; [done|]. split; [done|].
  assert (delete c (k_procs (ps_k s4)) = delete c (k_procs (ps_k s))) as Hdel by (rewrite Hk4, Hprocs3; by rewrite delete_insert_eq).
  rewrite Hdel in Hpr5, Hk5. split; [done|]. split; [|by rewrite Hf5]. rewrite Hk5, Hk4. destruct Hds as [D1 D2 D3 D4 D5 D6 D7 D8].
  split; cbn; try done; [by apply (quiet_same k3)|by apply (cm_wf_same k3)|destruct D3; by split].
Qed.

(** ** Exit and wait *)

(** The current thread leaves the process and signals its end. *)
Definition exited (s : psys) (c : nat) (p : proc) (n status : Z) : psys :=
  set_ps_tproc (<[ps_curthread s := None]> (ps_tproc s))
    (set_ps_k (set_k_curproc None
      (set_k_procs (<[c := set_p_sem (Some (n + 1)) (set_p_numthreads (p_numthreads p - 1) (set_p_status (Z.land status 0xff) p))]>
        (k_procs (ps_k s))) (ps_k s))) s).

Lemma exit_process_run (s : psys) c p n status :
  cpu_ok (k_cpu (ps_k s)) → c_spinlocks (k_cpu (ps_k s)) = 0 →
  k_curproc (ps_k s) = Some c → k_procs (ps_k s) !! c = Some p → ps_tproc s !! ps_curthread s = Some (Some c) →
  lock_free (p_lock p) → 0 < p_numthreads p → p_sem p = Some n → 0 ≤ n < 2 ^ 32 - 1 →
  exit_process status s = Ok (tt, exited s c p n status).
Proof using.
  intros Hcpu Hcnt Hcur Hp Ht Hl Hth Hsem Hn. apply wp_result. unfold exit_process. apply wp_bind, wp_gets, wp_bind, wp_deref.
  exists c. split; [done|]. apply wp_bind. eapply wp_pget; [done|]. apply wp_bind, wp_pput.
  set (p1 := set_p_status (Z.land status 255) p). set (s1 := with_procs _ s). apply wp_bind, wp_gets, wp_bind.
  unfold proc_remthread, get_t_proc. apply wp_bind, wp_bind, wp_gets, wp_deref. exists (Some c). split; [done|].
  apply wp_bind. unfold assert_some. apply wp_ret, wp_bind. eapply wp_plock_acquire; [done|done|cbn; by rewrite lookup_insert_eq|done|].
  apply wp_bind. eapply wp_pget; [cbn; by rewrite lookup_insert_eq|]. apply wp_bind, wp_kassert. split; [by apply Z.ltb_lt|].
  apply wp_bind, wp_pput, wp_bind.
  eapply (wp_plock_release _ _ (k_cpu (ps_k s))); [done|done|done|cbn; by rewrite lookup_insert_eq|done|].
  apply wp_bind, wp_splhigh; [done|done|]. apply wp_bind. unfold set_t_proc. apply wp_bind, wp_modify, wp_bind, wp_gets.
  change (ps_curthread s1 =? ps_curthread s1) with (ps_curthread s =? ps_curthread s). cbn [ps_curthread set_ps_tproc set_ps_k with_procs s1].
  rewrite Z.eqb_refl. unfold on_k at 1. apply wp_zoom, wp_modify, wp_bind.
  apply (wp_splx (k_cpu (ps_k s))); [done|done|]. intros r. apply wp_ret. unfold proc_signal_end, V_sem. apply wp_bind.
  eapply wp_pget; [cbn; by rewrite lookup_insert_eq|]. apply wp_bind. cbn [p_sem set_p_lock set_p_numthreads p1 set_p_status]. rewrite Hsem.
  apply wp_ret, wp_bind, wp_kassert. rewrite u32_id by lia. split; [apply Z.ltb_lt; lia|]. apply wp_pput. split; [done|].
  unfold exited, with_procs. cbn. rewrite !insert_insert_eq. unfold lock_free in Hl.
  destruct s as [[] ? ? ? ? ? ? ? ?], p. cbn in *. subst. done.
Qed.

(** Another thread runs. *)
Definition resume (t : Z) (cur : option nat) (s : psys) : psys :=
  mk_psys (set_k_curproc cur (ps_k s)) (ps_table s) (ps_kproc s) (ps_vnodes s) (systemFileTable s) (ps_tproc s) t (ps_out s) (ps_in s).

Lemma proc_wait_run (s : psys) c p a q n :
  destroyable s c p a q → p_sem p = Some n → 0 < n →
  wp (proc_wait vfs_close vop_reclaim c)
    (λ r s', r = p_status p ∧ pids_ok s' ∧ entry (ps_table s') (p_pid p) = None ∧
      k_procs (ps_k s') = delete c (k_procs (ps_k s)) ∧
      destroyed (p_pid p) q (set_k_procs (delete c (k_procs (ps_k s))) (ps_k s)) (ps_k s') ∧
      systemFileTable s' = systemFileTable s) s.
Proof using Hclose.
  intros Hd Hsem Hn. unfold proc_wait. apply wp_bind, wp_gets, wp_bind, wp_kassert. split; [rewrite bool_decide_eq_false_2; [done|apply Hd]|].
  apply wp_bind. unfold P_sem. apply wp_bind. eapply wp_pget; [apply Hd|]. rewrite Hsem. apply wp_bind, wp_ret.
  rewrite (proj2 (Z.eqb_neq n 0)) by lia. apply wp_pput. set (p1 := set_p_sem (Some (n - 1)) p). set (s1 := with_procs _ s).
  assert (k_procs (ps_k s1) = <[c := p1]> (k_procs (ps_k s))) as Hprocs by done.
  assert (destroyable s1 c p1 a q) as Hd1.
  { destruct Hd as [D1 D2 D3 D4 D5 D6 D7 D8 D9 D10 D11 D12 D13]. split; try done.
    - apply (pids_ok_procs s); [done|done|done|]. intros c'. rewrite Hprocs.
      destruct (decide (c' = c)) as [->|]; [by rewrite lookup_insert_eq, D5|by rewrite lookup_insert_ne].
    - by apply (quiet_same (ps_k s)).
    - by apply (cm_wf_same (ps_k s)).
    - destruct D4; by split.
    - rewrite Hprocs. by rewrite lookup_insert_eq. }
  apply wp_bind. eapply wp_pget; [apply Hd1|]. apply wp_bind. eapply wp_mono; [by apply (proc_destroy_run s1 c p1 a q)|].
  intros [] s2 (H1 & H2 & H3 & H4 & H5). apply wp_ret. rewrite Hprocs, delete_insert_eq in H3, H4. split; [done|]. split; [done|]. split; [done|].
  split; [done|]. split; [exact H4|]. by rewrite H5.
Qed.

(** A process about to exit: the current one, with one thread left *)
Record exiting (s : psys) (c : nat) (p : proc) (a : addrspace) (q : queue) (n : Z) : Prop := {
  ex_pids : pids_ok s;
  ex_quiet : quiet (ps_k s);
  ex_cm : cm_wf (ps_k s) q;
  ex_swap : swap_wf (ps_k s);
  ex_proc : k_procs (ps_k s) !! c = Some p;
  ex_kproc : ps_kproc s ≠ Some c;
  ex_cur : k_curproc (ps_k s) = Some c;
  ex_thread : ps_tproc s !! ps_curthread s = Some (Some c);
  ex_threads : p_numthreads p = 1;
  ex_lock : lock_free (p_lock p);
  ex_sem : p_sem p = Some n;
  ex_bound : 0 ≤ n < 2 ^ 32 - 1;
  ex_as : p_addrspace p = Some a;
  ex_complete : complete (ps_k s) a;
  ex_cwd v : p_cwd p = Some v → ∃ x, ps_vnodes s !! v = Some x ∧ 1 < vn_refcount x ∧ lock_free (vn_countlock x)
}.

(** After the exit, with another process running, it may be destroyed. *)
Lemma exited_destroyable (s : psys) c p a q n status t' parent :
  exiting s c p a q n → parent ≠ c →
  destroyable (resume t' (Some parent) (exited s c p n status)) c
    (set_p_sem (Some (n + 1)) (set_p_numthreads (p_numthreads p - 1) (set_p_status (Z.land status 0xff) p))) a q.
Proof using.
  intros [E1 E2 E3 E4 E5 E6 E7 E8 E9 E10 E11 E12 E13 E14 E15] Hp. split; try done.
  - apply (pids_ok_procs s); [done|done|done|]. intros c'. cbn.
    destruct (decide (c' = c)) as [->|]; [by rewrite lookup_insert_eq, E5|by rewrite lookup_insert_ne].
  - by apply (quiet_same (ps_k s)).
  - by apply (cm_wf_same (ps_k s)).
  - destruct E4; by split.
  - cbn. by rewrite lookup_insert_eq.
  - cbn. congruence.
  - cbn. lia.
Qed.

(** A process that exits gives its status to the process that waits for it,
    and no page of it is left; its open files are not closed. *)
Lemma exit_wait (s : psys) c p a q n status t' parent :
  exiting s c p a q n → parent ≠ c →
  ∃ s1, exit_process status s = Ok (tt, s1) ∧
    wp (proc_wait vfs_close vop_reclaim c)
      (λ r s', r = Z.land status 0xff ∧ pids_ok s' ∧ entry (ps_table s') (p_pid p) = None ∧
        k_procs (ps_k s') = delete c (k_procs (ps_k s)) ∧ cm_wf (ps_k s') (filter (λ e, e.1.1 ≠ p_pid p) q) ∧
        (∀ key, swap_contents (ps_k s') key = if decide (key.1 = p_pid p) then None else swap_contents (ps_k s) key) ∧
        k_mem (ps_k s') = k_mem (ps_k s) ∧ systemFileTable s' = systemFileTable s)
      (resume t' (Some parent) s1).
Proof using Hclose.
  intros Hx Hp. pose proof (exited_destroyable s c p a q n status t' parent Hx Hp) as Hd.
  destruct Hx as [E1 E2 E3 E4 E5 E6 E7 E8 E9 E10 E11 E12 E13 E14 E15]. exists (exited s c p n status). split.
  - apply exit_process_run; try done; try apply E2; lia.
  - eapply wp_mono; [apply (proc_wait_run _ _ _ _ _ (n + 1) Hd); [done|lia]|]. cbn beta. intros r s' (-> & H2 & H3 & H4 & H5 & H6).
    split; [done|]. split; [done|]. split; [done|]. rewrite H4. cbn. rewrite delete_insert_eq. split; [done|].
    split; [apply H5|]. split; [intros key; by rewrite (ds_contents _ _ _ _ H5)|]. split; [apply H5|done].
Qed.
End life.
