(* ===== verification/Files.v ===== *)
(** * Open files

    Invariant of the two levels of file tables of the file system calls: the
    count of each open file is the number of descriptors that refer to it.
    What [sys_open], [sys_close] and [proc_file_table_copy] do to it. *)

From S2P Require Import Prelude Machine Spinlock Pt PtSpec PtFrames PtTable Kernel Vmstats.
From S2P Require Import Tlb Swapfile Coremap Addrspace Proc Syscalls ProcLife.

(** ** Descriptors that refer to an open file *)

Definition fd_count (i : nat) (l : list (option nat)) : nat := length (filter (λ x, x = Some i) l).
Definition refs (m : gmap nat proc) (i : nat) : nat :=
  map_fold (λ _ p n, (fd_count i (fileTable p) + n)%nat) 0%nat m.

Lemma refs_insert m c p i : m !! c = None → refs (<[c := p]> m) i = (fd_count i (fileTable p) + refs m i)%nat.
Proof. intros Hc. unfold refs. apply (map_fold_insert_L (λ _ p n, (fd_count i (fileTable p) + n)%nat)); [lia|done]. Qed.

Lemma refs_update m c p p' i :
  m !! c = Some p → (refs (<[c := p']> m) i + fd_count i (fileTable p) = refs m i + fd_count i (fileTable p'))%nat.
Proof.
  intros Hc. rewrite <-(insert_delete_id m c p Hc) at 2. rewrite <-insert_delete_eq, !refs_insert by apply lookup_delete_eq. lia.
Qed.

Lemma refs_ge m c p i : m !! c = Some p → (fd_count i (fileTable p) ≤ refs m i)%nat.
Proof. intros Hc. rewrite <-(insert_delete_id m c p Hc), refs_insert by apply lookup_delete_eq. lia. Qed.

Lemma fd_count_insert i l n x y :
  l !! n = Some x →
  (fd_count i (<[n := y]> l) + (if decide (x = Some i) then 1 else 0) = fd_count i l + (if decide (y = Some i) then 1 else 0))%nat.
Proof.
  intros Hn. pose proof (lookup_lt_Some _ _ _ Hn). rewrite <-(take_drop_middle l n x Hn) at 2.
  rewrite insert_take_drop by done. unfold fd_count. rewrite !filter_app, !filter_cons, !length_app. repeat case_decide; cbn; lia.
Qed.

Lemma fd_count_pos i l n : l !! n = Some (Some i) → (0 < fd_count i l)%nat.
Proof. intros Hn. pose proof (fd_count_insert i l n (Some i) None Hn). repeat case_decide; try done; lia. Qed.

Lemma fd_count_other i l : Forall (λ x, x ≠ Some i) l → fd_count i l = 0%nat.
Proof. unfold fd_count. induction 1 as [|x l Hx _ IH]; [done|]. rewrite filter_cons. by case_decide. Qed.

Lemma fd_count_none i l : Forall (λ x, x = None) l → fd_count i l = 0%nat.
Proof. intros H. apply fd_count_other. eapply Forall_impl; [exact H|]. by intros x ->. Qed.

(** ** The invariant *)

Section files.
Context {ops : VnodeOps}.

Record files_ok (s : psys) : Prop := {
  fo_len c p : k_procs (ps_k s) !! c = Some p → length (fileTable p) = Z.to_nat OPEN_MAX;
  fo_ref c p n i : k_procs (ps_k s) !! c = Some p → fileTable p !! n = Some (Some i) → is_Some (systemFileTable s !! i);
  fo_count i f : systemFileTable s !! i = Some f → countRef f = Z.of_nat (refs (k_procs (ps_k s)) i);
  fo_free i f : systemFileTable s !! i = Some f → (of_vn f = None ↔ countRef f = 0)
}.

(** The state after a change of the current process's table and of one open file *)
Definition with_files (s : psys) (c : nat) (p : proc) (tbl : list (option nat)) (files : list openfile) : psys :=
  set_files files (with_procs (<[c := set_fileTable tbl p]> (k_procs (ps_k s))) s).

(** One descriptor changes and the open file it refers to changes its count. *)
Lemma files_ok_change (s : psys) c p n x y files :
  files_ok s → k_procs (ps_k s) !! c = Some p → fileTable p !! n = Some x →
  length files = length (systemFileTable s) →
  (∀ i, y = Some i → is_Some (systemFileTable s !! i)) →
  (∀ i f f', systemFileTable s !! i = Some f → files !! i = Some f' →
     countRef f' + (if decide (x = Some i) then 1 else 0) = countRef f + (if decide (y = Some i) then 1 else 0) ∧
     (of_vn f' = None ↔ countRef f' = 0)) →
  files_ok (with_files s c p (<[n := y]> (fileTable p)) files).
Proof.
  intros [Hl Hr Hc Hf] Hp Hn Hlen Hy Hch.
  assert (∀ i, is_Some (systemFileTable s !! i) ↔ is_Some (files !! i)) as Hdom.
  { intros i. by rewrite !lookup_lt_is_Some, Hlen. }
  split; cbn.
  - intros c' p' [[<- <-]|[_ Hp']]%lookup_insert_Some; [cbn; rewrite length_insert; by apply (Hl c)|by apply (Hl c')].
  - intros c' p' n' i [[<- <-]|[_ Hp']]%lookup_insert_Some Hn'; [|apply Hdom; by apply (Hr c' p' n')]. cbn in Hn'.
    apply list_lookup_insert_Some in Hn' as [(<- & Hyi & _)|[_ Hn']]; apply Hdom; [by apply Hy|by apply (Hr c p n')].
  - intros i f' Hi. destruct (proj2 (Hdom i) (mk_is_Some _ _ Hi)) as [f Hi0]. destruct (Hch i f f' Hi0 Hi) as [Hcnt _].
    rewrite (Hc i f Hi0) in Hcnt. pose proof (refs_update _ c p (set_fileTable (<[n := y]> (fileTable p)) p) i Hp) as Hu.
    cbn [fileTable set_fileTable] in Hu. pose proof (fd_count_insert i (fileTable p) n x y Hn) as Hk. repeat case_decide; lia.
  - intros i f' Hi. destruct (proj2 (Hdom i) (mk_is_Some _ _ Hi)) as [f Hi0]. by destruct (Hch i f f' Hi0 Hi).
Qed.

(** ** close *)

Context (vfs_open : Z → Z → Z → M psys (Z * Z)) (vfs_close : Z → M kernel ()).

(** [vfs_close] changes the file system only. *)
Definition closes : Prop := ∀ v k, ∃ fs', vfs_close v k = Ok (tt, set_k_fs fs' k).
(** So does [vfs_open], which may also change the table of vnodes. *)
Definition opens : Prop := ∀ path flags mode s, ∃ e v fs' vs',
  vfs_open path flags mode s = Ok (e, v, mk_psys (set_k_fs fs' (ps_k s)) (ps_table s) (ps_kproc s) vs' (systemFileTable s)
    (ps_tproc s) (ps_curthread s) (ps_out s) (ps_in s)).

Lemma files_ok_same (s s' : psys) :
  k_procs (ps_k s') = k_procs (ps_k s) → systemFileTable s' = systemFileTable s → files_ok s → files_ok s'.
Proof. intros E1 E2 [H1 H2 H3 H4]. split; rewrite ?E1, ?E2; eauto. Qed.

Lemma wp_get_file i f Q (s : psys) : systemFileTable s !! i = Some f → Q f s → wp (get_file i) Q s.
Proof. intros Hf HQ. unfold get_file. apply wp_bind, wp_gets, wp_deref. by exists f. Qed.
Lemma wp_put_file i f Q (s : psys) : Q tt (set_files (<[i := f]> (systemFileTable s)) s) → wp (put_file i f) Q s.
Proof. intros HQ. unfold put_file. by apply wp_modify. Qed.

Lemma wp_fd_get c p fd x Q (s : psys) :
  k_procs (ps_k s) !! c = Some p → 0 ≤ fd → fileTable p !! Z.to_nat fd = Some x → Q x s → wp (fd_get c fd) Q s.
Proof.
  intros Hp Hfd Hx HQ. unfold fd_get. apply wp_bind. eapply wp_pget; [done|]. rewrite (proj2 (Z.leb_le 0 fd)) by done.
  apply wp_deref. by exists x.
Qed.
Lemma wp_fd_put c p fd x Q (s : psys) :
  k_procs (ps_k s) !! c = Some p → 0 ≤ fd < Z.of_nat (length (fileTable p)) →
  Q tt (with_procs (<[c := set_fileTable (<[Z.to_nat fd := x]> (fileTable p)) p]> (k_procs (ps_k s))) s) → wp (fd_put c fd x) Q s.
Proof.
  intros Hp Hfd HQ. unfold fd_put. apply wp_bind. eapply wp_pget; [done|]. rewrite decide_True by done. by apply wp_pput.
Qed.

(** The count of the open file after a descriptor is closed *)
Definition dropped (f : openfile) : openfile :=
  mk_openfile (if decide (countRef f = 1) then None else of_vn f) (of_offset f) (countRef f - 1).

Definition closed (s : psys) (c : nat) (p : proc) (fd : Z) (i : nat) (f : openfile) : psys :=
  with_files s c p (<[Z.to_nat fd := None]> (fileTable p)) (<[i := dropped f]> (systemFileTable s)).

Lemma sys_close_run (s : psys) c p fd :
  closes → files_ok s → (∀ f, f ∈ systemFileTable s → countRef f < 2 ^ 32) →
  k_curproc (ps_k s) = Some c → k_procs (ps_k s) !! c = Some p → 0 ≤ fd < OPEN_MAX →
  match fileTable p !! Z.to_nat fd with
  | Some (Some i) => ∃ f fs', systemFileTable s !! i = Some f ∧
      sys_close vfs_close fd s = Ok (0, set_ps_k (set_k_fs fs' (ps_k (closed s c p fd i f))) (closed s c p fd i f))
  | _ => sys_close vfs_close fd s = Ok (-1, s)
  end.
Proof using.
  intros Hcl Hok Hbig Hcur Hp Hfd. pose proof (fo_len s Hok c p Hp) as Hlen.
  unfold sys_close. rewrite (proj2 (Z.ltb_ge fd 0)), (proj2 (Z.ltb_ge OPEN_MAX fd)) by lia. cbn [orb].
  assert (is_Some (fileTable p !! Z.to_nat fd)) as [x Hx] by (apply lookup_lt_is_Some; lia). rewrite Hx.
  rewrite (bind_ok pcur _ s (Some c) s) by (unfold pcur, gets; by rewrite Hcur). rewrite (bind_ok _ _ s c s) by done.
  rewrite (bind_ok _ _ s x s) by (apply wp_result; eapply wp_fd_get; [done|lia|done|done]).
  destruct x as [i|]; [|done]. destruct (fo_ref s Hok c p _ i Hp Hx) as [f Hi].
  pose proof (fo_count s Hok i f Hi) as Hcnt. pose proof (fo_free s Hok i f Hi) as Hfree. specialize (Hbig f (list_elem_of_lookup_2 _ _ _ Hi)).
  pose proof (fd_count_pos i _ _ Hx). pose proof (refs_ge _ c p i Hp).
  assert (u32 (countRef f - 1) = countRef f - 1) as Hu by (apply u32_id; lia).
  destruct (of_vn f) as [v|] eqn:Ev; [|exfalso; assert (countRef f = 0) by (by apply Hfree); lia].
  set (s1 := closed s c p fd i f).
  assert (∃ fs', (if decide (countRef f = 1) then vfs_close v else mret tt) (ps_k s1) = Ok (tt, set_k_fs fs' (ps_k s1))) as [fs' Hrun].
  { case_decide; [apply Hcl|]. exists (k_fs (ps_k s)). cbn. by destruct (ps_k s). }
  exists f, fs'. split; [done|]. apply wp_result. apply wp_bind. eapply wp_fd_put; [done|lia|]. apply wp_bind.
  eapply wp_get_file; [done|]. cbn zeta. rewrite Hu. apply wp_bind, wp_put_file. unfold s1, closed, dropped in *. rewrite Ev in *.
  case_decide as E1.
  - rewrite (proj2 (Z.ltb_ge 0 _)) by lia. apply wp_bind, wp_put_file, wp_bind. unfold on_k. apply wp_zoom.
    cbn [systemFileTable set_files with_procs set_ps_k ps_k]. rewrite list_insert_insert_eq.
    erewrite wp_eq by exact Hrun. by apply wp_ret.
  - rewrite (proj2 (Z.ltb_lt 0 _)) by lia. apply wp_ret. split; [done|]. cbn in *.
    injection Hrun as Hrun. rewrite <-Hrun. by destruct s.
Qed.

Lemma dropped_ok (s : psys) c p fd i f :
  files_ok s → k_procs (ps_k s) !! c = Some p → fileTable p !! Z.to_nat fd = Some (Some i) → systemFileTable s !! i = Some f →
  files_ok (closed s c p fd i f).
Proof using.
  intros Hok Hp Hx Hi. pose proof (fo_free s Hok i f Hi) as Hfree.
  apply (files_ok_change s c p _ (Some i) None); [done|done|done|by rewrite length_insert|done|].
  intros j g g' Hj Hj'. apply list_lookup_insert_Some in Hj' as [(<- & <- & _)|[Hne Hj']].
  - simplify_eq. rewrite decide_True, decide_False by done. unfold dropped. cbn. split; [lia|]. case_decide; [by split; [lia|]|]. rewrite Hfree.
    split; [|lia]. intros E. exfalso. pose proof (fo_count s Hok i f Hi). pose proof (fd_count_pos i _ _ Hx). pose proof (refs_ge _ c p i Hp). lia.
  - simplify_eq. rewrite !decide_False by congruence. split; [done|]. by apply (fo_free s Hok j).
Qed.

(** ** open *)

Lemma free_file_spec l i :
  free_file l = Some i →
  ∃ f, l !! i = Some f ∧ of_vn f = None ∧ ∀ j g, (j < i)%nat → l !! j = Some g → of_vn g ≠ None.
Proof using.
  unfold free_file. destruct (list_find _ l) as [[j f]|] eqn:E; [|done]. intros [= <-].
  apply list_find_Some in E as (H1 & H2 & H3). exists f. split; [done|]. split; [done|]. intros k g Hk Hg. by apply (H3 k).
Qed.

Lemma free_fd_spec l fd :
  free_fd l = Some fd →
  (3 ≤ fd)%nat ∧ l !! fd = Some None ∧ ∀ j, (3 ≤ j < fd)%nat → l !! j ≠ Some None.
Proof using.
  unfold free_fd. change (Z.to_nat (STDERR_FILENO + 1)) with 3%nat.
  destruct (list_find _ _) as [[j x]|] eqn:E; [|done]. intros [= <-]. cbn [fst].
  apply list_find_Some in E as (H1 & -> & H3). rewrite lookup_drop in H1. replace (j + 3)%nat with (3 + j)%nat by lia.
  split; [lia|]. split; [done|]. intros k Hk Hn. apply (H3 (k - 3)%nat None); [|lia|done]. rewrite lookup_drop.
  rewrite <-Hn. f_equal. lia.
Qed.

(** The outcomes of [open]: what it returns and the tables it leaves *)
Inductive opened (s : psys) (c : nat) (p : proc) : Z * option Z → psys → Prop :=
  | opened_noent s' :
      k_procs (ps_k s') = k_procs (ps_k s) → systemFileTable s' = systemFileTable s → opened s c p (-1, Some ENOENT) s'
  | opened_nfile s' :
      free_file (systemFileTable s) = None → k_procs (ps_k s') = k_procs (ps_k s) → systemFileTable s' = systemFileTable s →
      opened s c p (-1, Some ENFILE) s'
  | opened_mfile i v s' :
      free_file (systemFileTable s) = Some i → free_fd (fileTable p) = None → k_procs (ps_k s') = k_procs (ps_k s) →
      systemFileTable s' = <[i := mk_openfile (Some v) 0 1]> (systemFileTable s) → opened s c p (-1, Some EMFILE) s'
  | opened_fd i v fd s' :
      free_file (systemFileTable s) = Some i → free_fd (fileTable p) = Some fd →
      k_procs (ps_k s') = <[c := set_fileTable (<[fd := Some i]> (fileTable p)) p]> (k_procs (ps_k s)) →
      systemFileTable s' = <[i := mk_openfile (Some v) 0 1]> (systemFileTable s) → opened s c p (Z.of_nat fd, None) s'.

Lemma sys_open_run (s : psys) c p path flags mode :
  opens → closes → files_ok s → k_curproc (ps_k s) = Some c → k_procs (ps_k s) !! c = Some p →
  wp (sys_open vfs_open vfs_close path flags mode) (opened s c p) s.
Proof using.
  intros Hop Hcl Hok Hcur Hp. unfold sys_open. destruct (Hop path flags mode s) as (e & v & fs' & vs' & Hv). apply wp_bind.
  erewrite wp_eq by exact Hv. set (s1 := mk_psys _ _ _ _ _ _ _ _ _). cbn [fst snd]. cbn zeta.
  destruct (negb (e =? 0)); [by apply wp_ret, opened_noent|].
  assert (∀ (s2 : psys) (x : Z) R, (∀ fs2, R (-1, Some x) (set_ps_k (set_k_fs fs2 (ps_k s2)) s2)) →
    wp (on_k (vfs_close v) ;; mret (-1, Some x)) R s2) as Hclose.
  { intros s2 x R HR. apply wp_bind. unfold on_k. apply wp_zoom. destruct (Hcl v (ps_k s2)) as [fs2 H2].
    erewrite wp_eq by exact H2. apply wp_ret, HR. }
  apply wp_bind, wp_gets. change (systemFileTable s1) with (systemFileTable s). apply wp_bind.
  destruct (free_file (systemFileTable s)) as [i|] eqn:Ei.
  2:{ apply wp_ret, Hclose. intros fs2. by apply opened_nfile. }
  apply wp_bind, wp_put_file, wp_bind. unfold pcur. apply wp_gets, wp_bind, wp_deref. exists c. split; [done|].
  apply wp_bind. eapply wp_pget; [done|]. destruct (free_fd (fileTable p)) as [fd|] eqn:Ef.
  2:{ apply wp_ret, Hclose. intros fs2. by eapply opened_mfile. }
  destruct (free_fd_spec _ _ Ef) as (_ & Hfd & _). apply lookup_lt_Some in Hfd.
  apply wp_bind. eapply wp_fd_put; [done|lia|]. rewrite Nat2Z.id. apply wp_ret, wp_ret. by eapply opened_fd.
Qed.

(** A descriptor handed out is the least free one, and the counts are right. *)
Lemma opened_files (s s' : psys) c p fd :
  files_ok s → k_procs (ps_k s) !! c = Some p → opened s c p (fd, None) s' →
  files_ok s' ∧ 3 ≤ fd < OPEN_MAX ∧ fileTable p !! Z.to_nat fd = Some None ∧
  (∀ j, 3 ≤ j < fd → fileTable p !! Z.to_nat j ≠ Some None) ∧
  ∃ p' i v, k_procs (ps_k s') !! c = Some p' ∧ fileTable p' !! Z.to_nat fd = Some (Some i) ∧
    systemFileTable s' !! i = Some (mk_openfile (Some v) 0 1).
Proof using.
  intros Hok Hp Ho. inversion Ho as [| | |i v fd' s'' Hi Hf Hpr Hsf]; subst. rewrite Nat2Z.id.
  destruct (free_file_spec _ _ Hi) as (f & Hif & Hvn & _). destruct (free_fd_spec _ _ Hf) as (H3 & Hfd & Hlow).
  pose proof (fo_free s Hok i f Hif) as Hfree. assert (countRef f = 0) as H0 by (by apply Hfree).
  pose proof (fo_len s Hok c p Hp) as Hlen. pose proof (lookup_lt_Some _ _ _ Hfd). pose proof (lookup_lt_Some _ _ _ Hif).
  split; [|split; [lia|split; [done|split]]].
  - apply (files_ok_same (with_files s c p (<[fd' := Some i]> (fileTable p)) (<[i := mk_openfile (Some v) 0 1]> (systemFileTable s)))); [done|done|].
    apply (files_ok_change s c p fd' None (Some i)); [done|done|done|by rewrite length_insert| |].
    + intros j [= <-]. eauto.
    + intros j g g' Hj [(<- & <- & _)|[Hne Hj']]%list_lookup_insert_Some; simplify_eq; cbn.
      * rewrite decide_False, decide_True by done. split; [lia|]. split; [done|lia].
      * rewrite !decide_False by congruence. split; [done|]. by apply (fo_free s Hok j).
  - intros j Hj. apply Hlow. lia.
  - eexists _, i, v. rewrite Hpr, lookup_insert_eq, Hsf. split; [done|]. cbn.
    rewrite list_lookup_insert_eq by done. split; [done|]. by rewrite list_lookup_insert_eq.
Qed.

(** No free entry, no free descriptor *)
Lemma free_file_none l : free_file l = None → ∀ i f, l !! i = Some f → of_vn f ≠ None.
Proof using.
  unfold free_file. destruct (list_find _ l) as [x|] eqn:E; [done|]. intros _ i f Hi.
  apply list_find_None in E. rewrite Forall_lookup in E. by apply (E i).
Qed.

Lemma free_fd_none l j : free_fd l = None → 3 ≤ j → l !! Z.to_nat j ≠ Some None.
Proof using.
  unfold free_fd. destruct (list_find _ _) as [x|] eqn:E; [done|]. intros _ Hj Hl. apply list_find_None in E.
  rewrite Forall_lookup in E. apply (E (Z.to_nat j - 3)%nat None); [|done]. rewrite lookup_drop, <-Hl. f_equal. change (Z.to_nat (STDERR_FILENO + 1)) with 3%nat. lia.
Qed.

(** When the process has no descriptor left the open file stays counted. *)
Lemma opened_leak (s s' : psys) i v :
  files_ok s → free_file (systemFileTable s) = Some i → k_procs (ps_k s') = k_procs (ps_k s) →
  systemFileTable s' = <[i := mk_openfile (Some v) 0 1]> (systemFileTable s) →
  ∃ i f v, systemFileTable s !! i = Some f ∧ of_vn f = None ∧
    systemFileTable s' = <[i := mk_openfile (Some v) 0 1]> (systemFileTable s) ∧ refs (k_procs (ps_k s')) i = 0%nat.
Proof using.
  intros Hok Hi Hpr Hsf. destruct (free_file_spec _ _ Hi) as (f & Hif & Hvn & _). exists i, f, v. split_and!; [done|done|done|].
  rewrite Hpr. pose proof (fo_count s Hok i f Hif). assert (countRef f = 0) by (by apply (fo_free s Hok i f Hif)). lia.
Qed.

(** ** Copying a table of descriptors *)

(** The open files after one more reference for each descriptor of a table *)
Definition bump (l : list (option nat)) (files : list openfile) : list openfile :=
  imap (λ i f, mk_openfile (of_vn f) (of_offset f) (u32 (countRef f + Z.of_nat (fd_count i l)))) files.

Lemma fd_count_app i l1 l2 : fd_count i (l1 ++ l2) = (fd_count i l1 + fd_count i l2)%nat.
Proof using. unfold fd_count. by rewrite filter_app, length_app. Qed.

Lemma bump_nil files : Forall (λ f, u32_ok (countRef f)) files → bump [] files = files.
Proof using.
  intros Hf. apply list_eq. intros i. unfold bump. rewrite list_lookup_imap. destruct (files !! i) as [f|] eqn:E; [|done]. cbn.
  rewrite Z.add_0_r, u32_id; [by destruct f|]. by apply (Forall_lookup_1 _ _ _ _ Hf E).
Qed.

Lemma bump_none l files : bump (l ++ [None]) files = bump l files.
Proof using.
  unfold bump. apply imap_ext. intros i f _. rewrite fd_count_app. change (fd_count i [None]) with 0%nat. by rewrite Nat.add_0_r.
Qed.

Lemma bump_some l files i f :
  files !! i = Some f →
  <[i := mk_openfile (of_vn f) (of_offset f) (u32 (u32 (countRef f + Z.of_nat (fd_count i l)) + 1))]> (bump l files) =
  bump (l ++ [Some i]) files.
Proof using.
  intros Hi. apply list_eq. intros j. unfold bump. rewrite list_lookup_imap. destruct (decide (j = i)) as [->|Hne].
  - rewrite list_lookup_insert_eq by (rewrite length_imap; by eapply lookup_lt_Some). rewrite Hi. cbn. do 2 f_equal.
    rewrite u32_add_l, fd_count_app. unfold fd_count at 3. rewrite filter_cons, decide_True by done. cbn. f_equal. lia.
  - rewrite list_lookup_insert_ne by done. rewrite list_lookup_imap. destruct (files !! j); [|done]. cbn. rewrite fd_count_app.
    unfold fd_count at 3. rewrite filter_cons, decide_False by congruence. by rewrite Nat.add_0_r.
Qed.

Lemma insert_take_app {A} (l k : list A) n x :
  length l = length k → l !! n = Some x → <[n := x]> (take n l ++ drop n k) = take (S n) l ++ drop (S n) k.
Proof using.
  intros Hlen Hx. pose proof (lookup_lt_Some _ _ _ Hx). rewrite insert_app_r_alt by (rewrite length_take; lia).
  rewrite length_take, Nat.min_l, Nat.sub_diag by lia.
  destruct (lookup_lt_is_Some_2 k n) as [y Hy]; [lia|]. rewrite (drop_S k y n Hy), (take_S_r l n x Hx). cbn. by rewrite <-app_assoc.
Qed.

Lemma proc_file_table_copy_run (s : psys) src dst ps pd :
  src ≠ dst → k_procs (ps_k s) !! src = Some ps → k_procs (ps_k s) !! dst = Some pd →
  length (fileTable ps) = Z.to_nat OPEN_MAX → length (fileTable pd) = Z.to_nat OPEN_MAX →
  Forall (λ f, u32_ok (countRef f)) (systemFileTable s) →
  (∀ n i, fileTable ps !! n = Some (Some i) → is_Some (systemFileTable s !! i)) →
  proc_file_table_copy src dst s = Ok (tt, with_files s dst pd (fileTable ps) (bump (fileTable ps) (systemFileTable s))).
Proof using.
  intros Hne Hps Hpd Hls Hld Hu Href. apply wp_result. set (l := fileTable ps) in *. unfold OPEN_MAX in *.
  eapply wp_mono; [apply (wp_for_seqZ OPEN_MAX _ (λ k s', s' = with_files s dst pd (take (Z.to_nat k) l ++ drop (Z.to_nat k) (fileTable pd))
     (bump (take (Z.to_nat k) l) (systemFileTable s)))); [done| |]|].
  - change (Z.to_nat 0) with 0%nat. rewrite take_0, drop_0, app_nil_l. rewrite bump_nil by done. unfold with_files, with_procs.
    replace (set_fileTable (fileTable pd) pd) with pd by (by destruct pd). rewrite (insert_id (k_procs (ps_k s)) dst pd Hpd). by destruct s as [[]].
  - intros k s' Hk ->. unfold OPEN_MAX in Hk. rewrite (Z2Nat.inj_add k 1), Nat.add_1_r by lia. set (n := Z.to_nat k).
    destruct (lookup_lt_is_Some_2 l n) as [x Hx]; [lia|]. apply wp_bind.
    eapply wp_fd_get; [cbn; rewrite lookup_insert_ne by done; exact Hps|lia|exact Hx|]. apply wp_bind.
    eapply wp_fd_put; [cbn; by rewrite lookup_insert_eq|cbn; rewrite length_app, length_take, length_drop; lia|].
    cbn [fileTable set_fileTable]. fold n. rewrite insert_take_app by (done || lia). rewrite (take_S_r l n x Hx).
    unfold with_files, with_procs. cbn. rewrite insert_insert_eq. unfold openfileIncrRefCount. destruct x as [i|].
    + destruct (Href n i Hx) as [f Hf]. apply wp_bind. eapply wp_get_file.
      { cbn. unfold bump. rewrite list_lookup_imap, Hf. done. }
      apply wp_put_file. cbn. by rewrite bump_some.
    + apply wp_ret. by rewrite bump_none.
  - intros [] s' ->. unfold OPEN_MAX. rewrite take_ge, drop_ge, app_nil_r by lia. done.
Qed.

(** Into a process with no open file the copy keeps the counts right. *)
Lemma proc_file_table_copy_files (s : psys) src dst ps pd :
  files_ok s → k_procs (ps_k s) !! src = Some ps → k_procs (ps_k s) !! dst = Some pd → Forall (λ x, x = None) (fileTable pd) →
  (∀ i, Z.of_nat (refs (k_procs (ps_k s)) i + fd_count i (fileTable ps)) < 2 ^ 32) →
  files_ok (with_files s dst pd (fileTable ps) (bump (fileTable ps) (systemFileTable s))).
Proof using.
  intros [Hl Hr Hc Hf] Hps Hpd Hnone Hbig.
  assert (∀ i f', bump (fileTable ps) (systemFileTable s) !! i = Some f' → ∃ f, systemFileTable s !! i = Some f ∧
    of_vn f' = of_vn f ∧ countRef f' = countRef f + Z.of_nat (fd_count i (fileTable ps))) as Hb.
  { intros i f'. unfold bump. rewrite list_lookup_imap. destruct (systemFileTable s !! i) as [f|] eqn:E; [|done]. intros [= <-].
    exists f. split; [done|]. split; [done|]. cbn. apply u32_id. specialize (Hbig i). rewrite (Hc i f E). lia. }
  assert (∀ i, is_Some (systemFileTable s !! i) → is_Some (bump (fileTable ps) (systemFileTable s) !! i)) as Hdom.
  { intros i [f E]. unfold bump. rewrite list_lookup_imap, E. cbn. eauto. }
  split; cbn.
  - intros c' p' [[<- <-]|[_ Hp']]%lookup_insert_Some; [exact (Hl src ps Hps)|by apply (Hl c')].
  - intros c' p' n' i [[<- <-]|[_ Hp']]%lookup_insert_Some Hn'; apply Hdom; [exact (Hr src ps n' i Hps Hn')|by apply (Hr c' p' n')].
  - intros i f' Hi. destruct (Hb i f' Hi) as (f & E & _ & ->). rewrite (Hc i f E).
    pose proof (refs_update _ dst pd (set_fileTable (fileTable ps) pd) i Hpd) as Hu. cbn [fileTable set_fileTable] in Hu.
    rewrite (fd_count_none i (fileTable pd) Hnone) in Hu. lia.
  - intros i f' Hi. destruct (Hb i f' Hi) as (f & E & -> & ->). rewrite (Hf i f E). rewrite (Hc i f E).
    pose proof (refs_ge _ src ps i Hps). lia.
Qed.
End files.

(** ** Fork *)

Section fork.
Context {ops : VnodeOps}.
Context (vfs_close : Z → M kernel ()) (vop_reclaim : Z → M psys Z) (thread_fork : nat → M psys Z).

(** Another reference to a vnode, with a spinlock held or none *)
Lemma wp_vnode_incref v x Q (s : psys) :
  cpu_ok (k_cpu (ps_k s)) → 0 ≤ c_spinlocks (k_cpu (ps_k s)) < 2 ^ 20 → ps_vnodes s !! v = Some x → lock_free (vn_countlock x) →
  (∀ vs, Q tt (set_ps_vnodes vs s)) → wp (vnode_incref v) Q s.
Proof using.
  intros Hc Hn Hv Hl HQ. unfold vnode_incref, on_countlock, get_vnode, put_vnode.
  apply wp_bind, wp_bind, wp_bind, wp_gets, wp_deref. exists x. split; [done|]. apply wp_bind, wp_gets.
  rewrite (spinlock_acquire_ok _ _ Hc ltac:(lia) Hl). apply wp_bind, wp_modify, wp_modify. cbn [ps_vnodes set_ps_k set_ps_vnodes].
  apply wp_bind, wp_bind, wp_gets, wp_deref. eexists. cbn [ps_vnodes set_ps_vnodes]. split; [by rewrite lookup_insert_eq|].
  apply wp_bind, wp_modify, wp_bind, wp_bind, wp_gets, wp_deref. eexists. cbn [ps_vnodes set_ps_vnodes]. split; [by rewrite lookup_insert_eq|].
  apply wp_bind, wp_gets. cbn [ps_k set_ps_k set_ps_vnodes k_cpu set_k_cpu vn_countlock set_vn_refcount set_vn_countlock].
  rewrite spinlock_release_ok; [|apply cpu_raise_ok; [done|lia]|cbn; lia|done]. rewrite cpu_raise_raise, cpu_raise_0 by done.
  apply wp_bind, wp_modify, wp_modify. cbn [ps_vnodes set_ps_vnodes set_ps_k ps_k k_cpu set_k_cpu].
  match goal with |- Q tt (set_ps_vnodes ?vs _) => specialize (HQ vs) end. by destruct s as [[]].
Qed.

(** The new process: no descriptor is open, and the others are as they were. *)
Lemma proc_create_runprogram_run (s : psys) c p name :
  pids_ok s → pid_free (ps_table s) → k_mallocs (ps_k s) = [] → k_curproc (ps_k s) = Some c → k_procs (ps_k s) !! c = Some p →
  lock_free (p_lock p) → (∀ v, p_cwd p = Some v → ∃ x, ps_vnodes s !! v = Some x ∧ lock_free (vn_countlock x)) →
  wp (proc_create_runprogram name) (λ r s', ∃ n pn, r = Some n ∧ k_procs (ps_k s) !! n = None ∧
    k_procs (ps_k s') = <[n := pn]> (k_procs (ps_k s)) ∧ fileTable pn = replicate (Z.to_nat OPEN_MAX) None ∧
    systemFileTable s' = systemFileTable s ∧ k_curproc (ps_k s') = Some c ∧ k_mallocs (ps_k s') = []) s.
Proof using.
  intros Hok Hfree Hml Hcur Hp Hl Hcwd. unfold proc_create_runprogram. apply wp_bind. eapply wp_mono; [by apply proc_create_run|].
  intros r s1 (_ & Hr & procs & t & ml & -> & Hm). destruct (Hm Hml) as [-> Hsome]. destruct r as [n|]; [|done].
  destruct Hr as (Hn & p1 & Hprocs & _ & _ & _ & _ & _ & Hft & _). cbn [k_procs ps_k set_ps_k set_k_procs] in Hprocs. subst procs.
  assert (n ≠ c) as Hne by congruence.
  apply wp_bind. eapply wp_pget; [cbn; by rewrite lookup_insert_eq|]. apply wp_bind, wp_pput, wp_bind, wp_gets, wp_bind, wp_deref.
  exists c. split; [done|]. apply wp_bind.
  eapply (wp_plock_acquire c p); [apply Hok|apply Hok|cbn; by rewrite !lookup_insert_ne|done|].
  apply wp_bind. eapply wp_pget; [cbn; by rewrite lookup_insert_eq|]. apply wp_bind.
  match goal with |- wp _ _ ?x => set (s2 := x) end. change (p_cwd (set_p_lock _ p)) with (p_cwd p).
  set (p2 := set_p_lock (mk_spinlock 1 (Some (c_self (k_cpu (ps_k s))))) p). set (p3 := set_p_addrspace None p1).
  assert (∀ cwd vs, wp (on_k (on_p_lock c spinlock_release) ;; mret (Some n))
    (λ r s', ∃ n pn, r = Some n ∧ k_procs (ps_k s) !! n = None ∧
      k_procs (ps_k s') = <[n := pn]> (k_procs (ps_k s)) ∧ fileTable pn = replicate (Z.to_nat OPEN_MAX) None ∧
      systemFileTable s' = systemFileTable s ∧ k_curproc (ps_k s') = Some c ∧ k_mallocs (ps_k s') = [])
    (with_procs (<[n := set_p_cwd cwd p3]> (k_procs (ps_k s2))) (set_ps_vnodes vs s2))) as Hend.
  { intros cwd vs. apply wp_bind.
    eapply (wp_plock_release c p2 (k_cpu (ps_k s))); [apply Hok|apply Hok|done|cbn; by rewrite lookup_insert_ne, lookup_insert_eq|done|].
    apply wp_ret. exists n, (set_p_cwd cwd p3). split_and!; try done. cbn. apply map_eq. intros j.
    assert (set_p_lock SPINLOCK_INITIALIZER p2 = p) as -> by (unfold lock_free in Hl; destruct p; cbn in *; by subst).
    destruct (decide (j = c)) as [->|Hc]; [by rewrite lookup_insert_eq, lookup_insert_ne|].
    destruct (decide (j = n)) as [->|Hj]; [by rewrite lookup_insert_ne, !lookup_insert_eq|by rewrite !lookup_insert_ne]. }
  destruct (p_cwd p) as [v|] eqn:Ev.
  - destruct (Hcwd v eq_refl) as (x & Hx & Hlx). apply wp_bind.
    pose proof (po_count _ Hok) as Hcnt. pose proof (cpu_raise_ok 1 (k_cpu (ps_k s)) (po_cpu _ Hok) ltac:(lia)) as Hcpu.
    eapply (wp_vnode_incref v x); [exact Hcpu|cbn; lia|done|done|].
    intros vs. apply wp_bind. eapply wp_pget; [cbn; by rewrite lookup_insert_ne, lookup_insert_eq|]. apply wp_pput. apply Hend.
  - apply wp_ret. specialize (Hend (p_cwd p3) (ps_vnodes s2)). replace (set_p_cwd (p_cwd p3) p3) with p3 in Hend by (by destruct p3).
    unfold with_procs in Hend. rewrite insert_id in Hend by (cbn; by rewrite lookup_insert_ne, lookup_insert_eq). exact Hend.
Qed.

(** A copy of an address space, when no allocation fails *)
Lemma as_copy_run k a :
  k_mallocs k = [] → is_Some (seg1 a) → is_Some (seg2 a) → is_Some (segstack a) → ∃ a', as_copy a k = Ok (0, Some a', k).
Proof using.
  intros Hm [s1 H1] [s2 H2] [s3 H3].
  assert (∀ g, ∃ g', segcopy (Some g) k = Ok (g', k)) as Hseg.
  { intros g. unfold segcopy, segcreate, clear_loaded, kmalloc_ok. mred. rewrite Hm. cbn. rewrite Hm. by eexists. }
  destruct (Hseg s1) as [g1 R1], (Hseg s2) as [g2 R2], (Hseg s3) as [g3 R3]. eexists. unfold as_copy, as_create.
  rewrite (bind_ok _ _ _ (Some (mk_addrspace None None None)) k) by (unfold kmalloc_ok; mred; by rewrite Hm).
  rewrite H1, H2, H3. run_with R1. run_with R2. by run_with R3.
Qed.

(** [thread_fork] starts a thread of the new process: what is open in each
    process, and the open files, are as before. *)
Definition starts_thread : Prop := ∀ n (s : psys), wp (thread_fork n) (λ r s', r = 0 ∧
  fmap fileTable (k_procs (ps_k s')) = fmap fileTable (k_procs (ps_k s)) ∧ systemFileTable s' = systemFileTable s) s.

(** The descriptors after [sys_fork] *)
Lemma sys_fork_run (s : psys) c p a :
  starts_thread → pids_ok s → pid_free (ps_table s) → k_mallocs (ps_k s) = [] → k_curproc (ps_k s) = Some c →
  k_procs (ps_k s) !! c = Some p → lock_free (p_lock p) → files_ok s → Forall (λ f, u32_ok (countRef f)) (systemFileTable s) →
  (∀ v, p_cwd p = Some v → ∃ x, ps_vnodes s !! v = Some x ∧ lock_free (vn_countlock x)) →
  p_addrspace p = Some a → is_Some (seg1 a) → is_Some (seg2 a) → is_Some (segstack a) →
  wp (sys_fork vfs_close vop_reclaim thread_fork) (λ r s', ∃ n pid, r = (0, Some pid) ∧ k_procs (ps_k s) !! n = None ∧
    fmap fileTable (k_procs (ps_k s')) =
      <[c := replicate (Z.to_nat OPEN_MAX) None]> (<[n := replicate (Z.to_nat OPEN_MAX) None]> (fmap fileTable (k_procs (ps_k s)))) ∧
    systemFileTable s' = systemFileTable s) s.
Proof using.
  intros Hth Hok Hfree Hml Hcur Hp Hl Hf Hu Hcwd Ha G1 G2 G3. unfold sys_fork. apply wp_bind, wp_gets. rewrite Hcur. apply wp_bind, wp_ret.
  apply wp_bind. eapply wp_pget; [done|]. apply wp_bind. eapply wp_mono; [by apply (proc_create_runprogram_run s c p)|].
  intros r s1 (n & pn & -> & Hn & Hprocs & Hpn & Hfiles & Hcur1 & Hml1). assert (n ≠ c) as Hne by congruence.
  apply wp_bind. eapply wp_pget; [by rewrite Hprocs, lookup_insert_ne|]. apply wp_bind, wp_deref. exists a. split; [done|].
  destruct (as_copy_run (ps_k s1) a Hml1 G1 G2 G3) as [a' Hcp]. apply wp_bind. unfold on_k at 1. apply wp_zoom. erewrite wp_eq by exact Hcp.
  replace (set_ps_k (ps_k s1) s1) with s1 by (by destruct s1). apply wp_bind. eapply wp_pget; [by rewrite Hprocs, lookup_insert_eq|].
  apply wp_bind, wp_pput. cbn [snd]. set (pn2 := set_p_addrspace (Some a') pn). set (s2 := with_procs _ s1).
  assert (k_procs (ps_k s2) = <[n := pn2]> (k_procs (ps_k s))) as Hprocs2 by (cbn; by rewrite Hprocs, insert_insert_eq).
  apply wp_bind. erewrite wp_eq.
  2:{ apply (proc_file_table_copy_run s2 n c pn2 p); rewrite ?Hprocs2, ?lookup_insert_eq, ?lookup_insert_ne by done; try done.
      - change (fileTable pn2) with (fileTable pn). by rewrite Hpn, length_replicate.
      - by apply (fo_len s Hf c p).
      - change (systemFileTable s2) with (systemFileTable s1). by rewrite Hfiles.
      - change (fileTable pn2) with (fileTable pn). rewrite Hpn. intros m i Hm. by apply lookup_replicate in Hm as [? _]. }
  change (fileTable pn2) with (fileTable pn). rewrite Hpn. change (systemFileTable s2) with (systemFileTable s1). rewrite Hfiles.
  set (s3 := with_files _ _ _ _ _). apply wp_bind, wp_kmalloc. intros b ml Hb.
  destruct (Hb Hml1) as [-> ->]. cbn [negb]. apply wp_bind. eapply wp_mono; [apply Hth|]. intros r s4 (-> & Hft & Hsf). cbn [Z.eqb negb].
  change (k_procs (ps_k (set_ps_k (set_k_mallocs [] (ps_k s3)) s3))) with (k_procs (ps_k s3)) in Hft.
  assert (fmap fileTable (k_procs (ps_k s3)) = <[c := replicate (Z.to_nat OPEN_MAX) None]> (<[n := replicate (Z.to_nat OPEN_MAX) None]>
    (fmap fileTable (k_procs (ps_k s))))) as Hft3.
  { unfold s3. cbn [k_procs ps_k with_files set_files with_procs set_ps_k set_k_procs]. rewrite Hprocs2, !fmap_insert. cbn.
    by rewrite Hpn. }
  rewrite Hft3 in Hft. assert (∃ p4, k_procs (ps_k s4) !! n = Some p4) as [p4 Hp4].
  { assert ((fmap fileTable (k_procs (ps_k s4))) !! n = Some (replicate (Z.to_nat OPEN_MAX) None)) as E by (by rewrite Hft, lookup_insert_ne, lookup_insert_eq).
    apply lookup_fmap_Some in E as (p4 & _ & E). by exists p4. }
  apply wp_bind. eapply wp_pget; [done|]. apply wp_ret. exists n, (p_pid p4). split_and!; try done. rewrite Hsf.
  change (bump (replicate (Z.to_nat OPEN_MAX) None) (systemFileTable s) = systemFileTable s).
  rewrite <-(bump_nil (systemFileTable s) Hu) at 2. unfold bump. apply imap_ext. intros i f _.
  by rewrite !fd_count_none by (try apply Forall_replicate; done).
Qed.
End fork.
