(* ===== verification/SynchProps.v ===== *)
(** * Properties of semaphores, locks and condition variables

    Theorems about every interleaving of the routines of [Synch], for any
    number of threads. *)

From S2P Require Import Prelude Synch.

(** ** Locks *)

(** C19. A lock changes hands only by its owner's will: in any run of
    [lock_acquire], [lock_release], [cv_wait], [cv_signal] and
    [cv_broadcast] by any threads, a step of thread [t] leaves a held lock to
    its owner, unless [t] is the owner and frees it; a free lock stays free or
    becomes [t]'s. *)
Theorem lock_ownership ts takes gives s t lbl s' :
  NoDup ts → reach lock_ops ts (mk_lock None) takes gives s → t ∈ ts → step lock_ops t s lbl s' →
  match owner (vars s) with
  | Some u => owner (vars s') = Some u ∨ (u = t ∧ owner (vars s') = None)
  | None => owner (vars s') = None ∨ owner (vars s') = Some t
  end.
Proof. apply ownership. Qed.

(** C20. No assertion of the lock and condition variable routines fails: a
    thread that goes to sleep holds the spinlock of the channel and no other
    one, a wakeup is done with the spinlock held, a spinlock is released by
    its holder, and the lock is taken when it is free.  (The threads are not in
    interrupt handlers, so the assertion about that is not one of them.) *)
Theorem lock_assertions ts takes gives s t :
  NoDup ts → reach lock_ops ts (mk_lock None) takes gives s → asserts_ok s t.
Proof. intros Hts. by apply (asserts_hold lock_ops ts (mk_lock None) lock_ops_pass Hts). Qed.

(** C21. The lock and condition variable routines do not deadlock on their
    spinlocks: while some thread is inside one of them and not asleep, some
    thread can move. *)
Theorem lock_progress ts takes gives s t i b :
  NoDup ts → reach lock_ops ts (mk_lock None) takes gives s → t ∈ ts → thr s t = Run (i :: b) →
  ∃ u lbl s', u ∈ ts ∧ step lock_ops u s lbl s'.
Proof. intros Hts Hr. by apply (progress lock_ops ts (mk_lock None) lock_ops_pass Hts takes gives). Qed.

(** ** Semaphores *)

(** C23. No update of a semaphore is lost: although [sem_count++] and
    [sem_count--] read and write the count in two steps, in any run of [P] and
    [V] by any threads the count stays an [unsigned] and is the initial count
    plus the increments of [V] minus the decrements of [P]; the only exception
    is a count that would exceed the type, and then a thread is in [V] at its
    assertion, which fails. *)
Theorem sem_count_balance ts n0 takes gives s :
  NoDup ts → (n0 < 2 ^ 32)%N → reach sem_ops ts (mk_sem n0) takes gives s →
  (sem_count (vars s) < 2 ^ 32)%N ∧
  (Z.of_N (sem_count (vars s)) + takes = Z.of_N n0 + gives ∨
   takes + 2 ^ 32 = Z.of_N n0 + gives ∧ ∃ t b, thr s t = Run (IAssertGiven :: b) ∧ give_ok (vars s) = false).
Proof.
  intros Hts Hn Hr. destruct (sem_count_reach ts n0 takes gives s Hts Hn Hr) as [Hlt Hb]. split; [done|].
  destruct Hb as [Hb|[(t & b & Ht & H0) Hb]]; [by left|]. right. split; [done|]. exists t, b. split; [done|]. cbn. by rewrite H0.
Qed.

(** C22. No wakeup is lost: when every thread is asleep or outside [P] and [V],
    and some thread sleeps on the semaphore, its count is zero. *)
Theorem sem_no_lost_wakeup ts n0 takes gives s :
  NoDup ts → reach sem_ops ts (mk_sem n0) takes gives s →
  (∀ t b, thr s t = Run b → b = []) → wq s 0%nat ≠ [] → sem_count (vars s) = 0%N.
Proof.
  intros Hts Hr Hq Hw. pose proof (no_lost_wakeup sem_ops ts (mk_sem n0) sem_ops_pass Hts takes gives s Hr Hq Hw) as H.
  cbn in H. by destruct (N.eqb_spec (sem_count (vars s)) 0).
Qed.

(** ** Runs of one thread *)

Section runs.
Context {St : Type} `{Guarded St}.

(** Thread [t] calls a routine, then acquires a spinlock. *)
Definition called (t : Z) (op : list instr) (s : sys (St := St)) : sys (St := St) := mk_sys (vars s) (reg s) (spin s) (wq s) (put (thr s) t (Run op)).
Definition entered (t : Z) (l : nat) (k : list instr) (s : sys (St := St)) : sys (St := St) :=
  mk_sys (vars s) (reg s) (put (spin s) l (Some t)) (wq s) (put (thr s) t (Run k)).

Lemma entered_reach ops ts v t op l k :
  t ∈ ts → op ∈ ops → op = IAcq l :: k → reach ops ts v 0 0 (entered t l k (called t op (initial v (λ _, v)))).
Proof using.
  intros Hin Hop ->. apply (reach_tau _ _ _ _ _ (called t (IAcq l :: k) (initial v (λ _, v))) t); [|done|].
  - apply (reach_tau _ _ _ _ _ (initial v (λ _, v)) t); [apply reach_init|done|]. by apply step_call.
  - apply step_acq; [|done]. cbn. unfold put. by rewrite decide_True.
Qed.
End runs.

(** Thread 1 has called [lock_acquire] and holds the spinlock. *)
Definition lock_demo : sys (St := lock) := entered 1 0 (tail lock_acquire) (called 1 lock_acquire (initial (mk_lock None) (λ _, mk_lock None))).
Lemma lock_demo_reach : reach lock_ops [1; 2] (mk_lock None) 0 0 lock_demo.
Proof. apply entered_reach; [set_solver|by left|done]. Qed.

(** Thread 1 sleeps in [P] on a semaphore whose count is zero. *)
Definition sem_demo : sys (St := semaphore) :=
  let s := entered 1 0 (tail P) (called 1 P (initial (mk_sem 0) (λ _, mk_sem 0))) in
  mk_sys (vars s) (reg s) (put (spin s) 0%nat None) (put (wq s) 0%nat [1]) (put (thr s) 1 (Slept 0 (IAcq 0 :: tail P))).
Lemma sem_demo_reach : reach sem_ops [1; 2] (mk_sem 0) 0 0 sem_demo.
Proof.
  eapply (reach_tau _ _ _ _ _ (entered 1 0 (tail P) (called 1 P (initial (mk_sem 0) (λ _, mk_sem 0)))) 1);
    [apply entered_reach; [set_solver|by left|done]|set_solver|]. by apply step_while_sleep.
Qed.

Lemma lock_ownership_witness :
  owner (vars lock_demo) = None ∧ ∃ s', step lock_ops 1 lock_demo LTau s' ∧ (owner (vars s') = None ∨ owner (vars s') = Some 1).
Proof.
  split; [done|]. eexists. split.
  - by apply (step_while_exit _ 1 lock_demo [ITake; IRel 0]).
  - apply (lock_ownership [1; 2] 0 0 lock_demo 1 LTau); [repeat constructor; set_solver|exact lock_demo_reach|set_solver|].
    by apply (step_while_exit _ 1 lock_demo [ITake; IRel 0]).
Defined.

Lemma lock_assertions_witness : only_spin lock_demo 1 0.
Proof. apply (lock_assertions [1; 2] 0 0 lock_demo 1); [repeat constructor; set_solver|exact lock_demo_reach]. Defined.

Lemma lock_progress_witness : ∃ u lbl s', u ∈ [1; 2] ∧ step lock_ops u lock_demo lbl s'.
Proof.
  apply (lock_progress [1; 2] 0 0 lock_demo 1 IWhile [ITake; IRel 0]);
    [repeat constructor; set_solver|exact lock_demo_reach|set_solver|done].
Defined.

(** Thread 1 is in [V]: it has loaded the count, then stored the new one. *)
Definition sem_loaded : sys (St := semaphore) :=
  let s := entered 1 0 (tail V) (called 1 V (initial (mk_sem 0) (λ _, mk_sem 0))) in
  mk_sys (vars s) (put (reg s) 1 (vars s)) (spin s) (wq s) (put (thr s) 1 (Run (drop 2 V))).
Definition sem_given : sys (St := semaphore) :=
  let s := sem_loaded in mk_sys (give 1 (reg s 1)) (reg s) (spin s) (wq s) (put (thr s) 1 (Run (drop 3 V))).
Lemma sem_given_reach : reach sem_ops [1; 2] (mk_sem 0) 0 1 sem_given.
Proof.
  apply (reach_give _ _ _ 0 0 sem_loaded 1); [|set_solver|by apply step_give].
  eapply (reach_tau _ _ _ _ _ (entered 1 0 (tail V) _) 1); [apply entered_reach; [set_solver|by right; left|done]|set_solver|by apply step_load].
Qed.

Lemma sem_count_balance_witness : (sem_count (vars sem_given) < 2 ^ 32)%N ∧ Z.of_N (sem_count (vars sem_given)) + 0 = 0 + 1.
Proof.
  destruct (sem_count_balance [1; 2] 0 0 1 sem_given) as [H [Hb|[Hb _]]]; [repeat constructor; set_solver|done|exact sem_given_reach|done|done].
Defined.

Lemma sem_no_lost_wakeup_witness : wq sem_demo 0%nat = [1] ∧ sem_count (vars sem_demo) = 0%N.
Proof.
  split; [done|]. apply (sem_no_lost_wakeup [1; 2] 0 0 0 sem_demo); [repeat constructor; set_solver|exact sem_demo_reach| |done].
  intros t b. cbn. unfold put. repeat case_decide; congruence.
Defined.
