(* ===== verification/LibProps.v ===== *)
(** * Properties of the kernel library

    Theorems about memory blocks, user memory, bitmaps, arrays, byte order,
    time and the 64-bit arithmetic of the compiler's run-time library, put
    together from the lemmas of their files. *)

From S2P Require Import Prelude Machine Kernel MemBlock Str Copyinout Bitmap Array Endian LongLong Qdivrem.

(** ** Memory *)

(** [memmove] copies blocks that may overlap: the destination gets the
    bytes the source had before the call, and nothing else changes. *)
Lemma memmove_overlap dst src len m :
  0 ≤ len →
  wp (memmove dst src len) (λ r m', r = dst ∧ mem_read m' dst len = mem_read m src len ∧
    ∀ x, ¬ dst ≤ x < dst + len → m' x = m x) m.
Proof.
  intros Hlen. eapply wp_mono; [by apply memmove_ok|]. intros r m' [-> Hm]. split; [done|]. split.
  - apply list_fmap_ext. intros i x Hx. apply lookup_seqZ in Hx as [-> Hx]. rewrite Hm. unfold copied. rewrite decide_True by lia.
    f_equal. lia.
  - intros x Hx. rewrite Hm. unfold copied. by rewrite decide_False.
Qed.

(** ** User memory *)

(** C31. Bytes sent to user memory with [copyout] come back with [copyin]. *)
Theorem copyout_copyin s src user dest len :
  um_badfault s = false → 0 ≤ user → 0 < len < 2 ^ 32 →
  user_region (um_writable s) user len → user_region (um_readable s) user len → USERSPACETOP ≤ src → USERSPACETOP ≤ dest →
  wp (e ← copyout src user len; e' ← copyin user dest len; mret (e, e'))
    (λ r s', r = (0, 0) ∧ mem_read (um_mem s') dest len = mem_read (um_mem s) src len) s.
Proof.
  intros Hb Hu Hlen Hw Hr Hsrc Hdest. pose proof Hw as [Htop _]. unfold USERSPACETOP, MIPS_KSEG0 in *.
  apply wp_bind. eapply wp_mono; [apply copyout_ok; (done || lia)|]. intros e s1 (m1 & -> & H1 & _ & _). destruct (H1 Hw) as [-> Hm1].
  apply wp_bind. eapply wp_mono; [apply (copyin_ok (set_um_mem m1 s)); (done || lia)|]. intros e s2 (m2 & -> & H2 & _ & _).
  destruct (H2 Hr) as [-> Hm2]. apply wp_ret. split; [done|]. apply list_fmap_ext. intros i x Hx. apply lookup_seqZ in Hx as [-> Hx].
  cbn [um_mem set_um_mem] in *. rewrite Hm2. unfold copied. rewrite decide_True, Hm1 by lia. unfold copied. rewrite decide_True by lia. f_equal. lia.
Qed.

(** A machine whose pages below 0x500000 belong to the process *)
Definition demo_umach : umach := mk_umach (λ x, x `mod` 256) (λ x, x <? 0x500000) (λ x, x <? 0x500000) false None.

Lemma demo_region a len : 0 ≤ len → a + len ≤ 0x500000 →
  user_region (um_writable demo_umach) a len ∧ user_region (um_readable demo_umach) a len.
Proof. intros H1 H2. unfold user_region, USERSPACETOP, MIPS_KSEG0. cbn. split; (split; [lia|]); intros x Hx; apply Z.ltb_lt; lia. Qed.

Lemma copyout_copyin_witness :
  wp (e ← copyout 0x80001000 0x400000 8; e' ← copyin 0x400000 0x80002000 8; mret (e, e'))
    (λ r s', r = (0, 0) ∧ mem_read (um_mem s') 0x80002000 8 = mem_read (um_mem demo_umach) 0x80001000 8) demo_umach.
Proof.
  apply (copyout_copyin demo_umach 0x80001000 0x400000 0x80002000 8); try done; try lia; apply demo_region; lia.
Defined.

(** [copyin] never reads what the process may not: when part of the block
    is above user space, or on a page the process cannot read, the result is
    [EFAULT]; in any case only the kernel buffer changes. *)
Theorem copyin_checks s usersrc dest len :
  um_badfault s = false → 0 ≤ usersrc < 2 ^ 32 → 0 < len < 2 ^ 32 → dest ≤ usersrc ∨ usersrc + len ≤ dest →
  ¬ user_region (um_readable s) usersrc len →
  wp (copyin usersrc dest len) (λ r s', r = EFAULT ∧ ∃ m', s' = set_um_mem m' s ∧ ∀ x, ¬ dest ≤ x < dest + len → m' x = um_mem s x) s.
Proof.
  intros Hb Hu Hlen Hap Hno. eapply wp_mono; [by apply copyin_ok|]. intros r s' (m' & -> & _ & H & Hx). split; [by apply H|]. by exists m'.
Qed.

Lemma copyin_checks_witness :
  wp (copyin 0x7fffffff 0x80001000 2) (λ r s', r = EFAULT ∧ ∃ m', s' = set_um_mem m' demo_umach ∧
    ∀ x, ¬ 0x80001000 ≤ x < 0x80001000 + 2 → m' x = um_mem demo_umach x) demo_umach.
Proof.
  apply (copyin_checks demo_umach 0x7fffffff 0x80001000 2); try done; try lia. intros [H _]. unfold USERSPACETOP, MIPS_KSEG0 in H. lia.
Defined.

(** ** Bitmaps *)

(** [n] calls of [bitmap_alloc], and their results *)
Fixpoint allocs (n : nat) : M bitmap (list (Z * option Z)) :=
  match n with
  | O => mret []
  | S n => r ← bitmap_alloc; rs ← allocs n; mret (r :: rs)
  end.

(** A bitmap whose first [k] bits are set, and no others *)
Definition filled_to (b : bitmap) (n k : Z) : Prop :=
  bm_wf b ∧ nbits b = n ∧ 0 ≤ k ≤ n ∧ ∀ j, 0 ≤ j < n → bit b j = bool_decide (j < k).

Lemma alloc_next b n k : filled_to b n k →
  wp bitmap_alloc (λ r b', if decide (k < n) then r = (0, Some k) ∧ filled_to b' n (k + 1) else r = (ENOSPC, None) ∧ b' = b) b.
Proof.
  intros (Hwf & Hn & Hk & Hbits). apply wp_run. destruct (bitmap_alloc_run b Hwf) as [[Hr Hall]|(i & b' & Hi & Hf & Hlow & Hr & Hwf' & Hn' & Hb')].
  - eexists _, _. split; [exact Hr|]. case_decide as H; [|done]. specialize (Hall k ltac:(lia)). rewrite Hbits in Hall by lia.
    apply bool_decide_eq_true in Hall. lia.
  - rewrite Hbits in Hf by lia. apply bool_decide_eq_false in Hf.
    assert (i = k) as ->.
    { destruct (decide (i = k)); [done|]. specialize (Hlow k ltac:(lia)). rewrite Hbits in Hlow by lia. apply bool_decide_eq_true in Hlow. lia. }
    eexists _, _. split; [exact Hr|]. rewrite decide_True by lia. split; [done|]. split; [done|]. split; [lia|]. split; [lia|].
    intros j Hj. rewrite Hb', Hbits by lia. repeat case_bool_decide; try done; lia.
Qed.

Lemma allocs_run n b N k : filled_to b N k → k + Z.of_nat n ≤ N →
  wp (allocs n) (λ rs b', rs = (λ i, (0, Some i)) <$> seqZ k (Z.of_nat n) ∧ filled_to b' N (k + Z.of_nat n)) b.
Proof.
  revert b k. induction n as [|n IH]; intros b k Hb Hn; cbn [allocs].
  - apply wp_ret. split; [done|]. by rewrite Z.add_0_r.
  - apply wp_bind. eapply wp_mono; [by apply alloc_next|]. intros r b1. cbn beta. rewrite decide_True by lia. intros [-> H1].
    apply wp_bind. eapply wp_mono; [apply (IH b1 (k + 1) H1); lia|]. intros rs b2 [-> H2]. apply wp_ret.
    rewrite (seqZ_cons k) by lia. rewrite Nat2Z.inj_succ. replace (Z.pred (Z.succ (Z.of_nat n))) with (Z.of_nat n) by lia.
    replace (k + Z.succ (Z.of_nat n)) with (k + 1 + Z.of_nat n) by lia. done.
Qed.

(** A new bitmap of [n] bits hands out each of the indices 0 to [n - 1]
    once, in order, and then returns [ENOSPC]. *)
Theorem bitmap_allocs n :
  Z.of_nat n < 2 ^ 32 - 8 →
  ∃ b, bitmap_create true true (Z.of_nat n) = Ok (Some b) ∧
    wp (rs ← allocs n; r ← bitmap_alloc; mret (rs, r))
      (λ x _, x = ((λ i, (0, Some i)) <$> seqZ 0 (Z.of_nat n), (ENOSPC, None))) b.
Proof.
  intros Hn. destruct (bitmap_create_run (Z.of_nat n)) as (b & Hc & Hwf & Hnb & H0); [lia|]. exists b. split; [done|].
  assert (filled_to b (Z.of_nat n) 0) as Hf.
  { split; [done|]. split; [done|]. split; [lia|]. intros j Hj. rewrite H0 by done. rewrite bool_decide_eq_false_2 by lia. done. }
  apply wp_bind. eapply wp_mono; [apply (allocs_run n b _ 0 Hf); lia|]. intros rs b1 [-> H1].
  apply wp_bind. eapply wp_mono; [by apply (alloc_next b1 (Z.of_nat n) (Z.of_nat n))|]. intros r b2. cbn beta.
  rewrite decide_False by lia. intros [-> _]. by apply wp_ret.
Qed.

Lemma bitmap_allocs_witness : ∃ b, bitmap_create true true 11 = Ok (Some b) ∧
  wp (rs ← allocs 11; r ← bitmap_alloc; mret (rs, r)) (λ x _, x = ((λ i, (0, Some i)) <$> seqZ 0 11, (ENOSPC, None))) b.
Proof. apply (bitmap_allocs 11). lia. Defined.

(** ** Arrays *)

(** C32. [array_add] appends: when it succeeds the index it returns holds the
    new element and every element that was there keeps its index, across a
    reallocation too; when memory runs out the array is as it was. *)
Theorem array_add_get kmalloc val a :
  arr_wf a → alloc_ok kmalloc → a_max a < 2 ^ 29 →
  ∃ r a', array_add kmalloc val a = Ok (r, a') ∧ arr_wf a' ∧
    match r.2 with
    | Some i => r.1 = 0 ∧ array_get i a' = Ok (val, a') ∧
        ∀ j x, 0 ≤ j → array_get j a = Ok (x, a) → array_get j a' = Ok (x, a')
    | None => r.1 = ENOMEM ∧ a' = a
    end.
Proof.
  intros Hwf Hk Hmax. destruct (array_add_run kmalloc val a Hwf Hk Hmax) as (r & a' & Hr & [(-> & ->)|(-> & Hwf' & He)]).
  { by exists (ENOMEM, None), a. }
  exists (0, Some (a_num a)), a'. split; [done|]. split; [done|]. cbn. split; [done|].
  assert (length (elems a) = Z.to_nat (a_num a)) as Hlen by (unfold elems; rewrite length_take; destruct Hwf; lia).
  assert (∀ j x, 0 ≤ j → elems a' !! Z.to_nat j = Some x → array_get j a' = Ok (x, a')) as Hget.
  { intros j x Hj Hx. pose proof (array_get_run j a' Hwf' Hj) as H. by rewrite Hx in H. }
  split.
  - apply Hget; [apply Hwf|]. rewrite He, lookup_app_r by lia. by rewrite Hlen, Nat.sub_diag.
  - intros j x Hj Hx. apply Hget; [done|]. rewrite He. apply lookup_app_l_Some.
    pose proof (array_get_run j a Hwf Hj) as H. destruct (elems a !! Z.to_nat j); congruence.
Qed.

(** An allocator with memory for everything *)
Definition demo_malloc : alloc := λ n, if 0 <=? n then Some (replicate (Z.to_nat (n / PTR)) 0) else None.

Lemma array_add_get_witness : ∃ r a', array_add demo_malloc 7 array_init = Ok (r, a') ∧ arr_wf a' ∧
    match r.2 with
    | Some i => r.1 = 0 ∧ array_get i a' = Ok (7, a') ∧
        ∀ j x, 0 ≤ j → array_get j array_init = Ok (x, array_init) → array_get j a' = Ok (x, a')
    | None => r.1 = ENOMEM ∧ a' = array_init
    end.
Proof.
  apply (array_add_get demo_malloc 7 array_init); [done| |done]. intros n b _. unfold demo_malloc.
  destruct (Z.leb_spec 0 n); [|done]. intros [= <-]. rewrite length_replicate. unfold PTR. pose proof (Z.div_pos n 4). lia.
Defined.

(** C33. The loop of [array_preallocate] that doubles the size, from any size an
    array can have: up to [2 ^ 31] elements it ends with a size that is enough,
    and above it never does, since the size wraps around to 0: after any number
    of turns it goes on, so the routine runs out of any bound. *)
Theorem array_grow_terminates num max a : capacity max →
  if num <=? 2 ^ 31 then ∃ newmax, grow num max a = Ok (newmax, a) ∧ num ≤ newmax ∧ capacity newmax
  else (∀ n, ∃ newmax, turns n (grow_body num) max a = Ok (inl newmax, a)) ∧ grow num max a = Stop OutOfFuel.
Proof.
  intros Hmax. destruct (Z.leb_spec num (2 ^ 31)) as [Hle|Hlt].
  - destruct (proj1 (wp_run _ _ _) (grow_ends num max a Hmax Hle)) as (newmax & a' & Hrun & -> & Hn). by exists newmax.
  - split; [intros n; destruct (grow_diverges n num max a Hmax Hlt) as (m & Hm & _); by exists m|].
    unfold grow, while. destruct (grow_diverges 40 num max a Hmax Hlt) as (m & Hm & _). by rewrite (bind_ok _ _ _ _ _ Hm).
Qed.

Lemma array_grow_terminates_witness :
  (∃ newmax, grow 100 0 array_init = Ok (newmax, array_init) ∧ 100 ≤ newmax ∧ capacity newmax) ∧
  grow (2 ^ 32 - 1) 8 array_init = Stop OutOfFuel.
Proof.
  split; [apply (array_grow_terminates 100 0 array_init); by left|].
  apply (array_grow_terminates (2 ^ 32 - 1) 8 array_init). right. by exists 3.
Defined.

(** ** Byte order and time *)

(** Swapping the bytes of a 32-bit integer reverses them, and doing it
    twice gives the integer back. *)
Lemma bswap32_involutive val :
  0 ≤ val < 2 ^ 32 → bswap32 val = of_bytes_le (reverse (bytes_le 4 val)) ∧ bswap32 (bswap32 val) = val.
Proof. intros Hv. rewrite !bswap32_ok. split; [done|]. by apply swap_swap. Qed.

(** [bswap64] is not the reversal of the bytes: the two terms that shift the
    wrong way put bytes 4 and 5 in the upper half. *)
Lemma bswap64_wrong : bswap64 0x0000000100000000 = 0x0000010000000000 ∧ swap_bytes 8 0x0000000100000000 = 0x01000000.
Proof. by vm_compute. Qed.

(** Adding a time and subtracting it again gives the first time back, with
    the nanoseconds of every result below one second. *)
Lemma timespec_add_sub ts1 ts2 :
  ts_wf ts1 → ts_wf ts2 → - 2 ^ 61 < tv_sec ts1 < 2 ^ 61 → - 2 ^ 61 < tv_sec ts2 < 2 ^ 61 - 1 →
  0 ≤ tv_nsec (timespec_add ts1 ts2) < NSEC ∧ timespec_sub (timespec_add ts1 ts2) ts2 = ts1.
Proof.
  intros H1 H2 Hs1 Hs2. destruct (timespec_add_ok ts1 ts2 H1 H2) as [Hn Hv]. split; [done|].
  set (t := timespec_add ts1 ts2) in *. unfold ts_value, ts_wf, NSEC in *.
  assert (ts_wf t) as Ht by (unfold ts_wf, NSEC; lia).
  destruct (timespec_sub_ok t ts2 Ht H2) as [Hn' Hv']. unfold ts_value, NSEC in *.
  destruct (timespec_sub t ts2) as [sec nsec], ts1 as [sec1 nsec1]. cbn in *. f_equal; lia.
Qed.

(** ** 64-bit arithmetic *)

(** The run-time routines for 64-bit integers, which work on halves, are
    the operations of two's complement: sum, difference, product, and the
    three shifts by less than 64. *)
Theorem longlong_arithmetic a b shift :
  s64_ok a → s64_ok b → 0 ≤ shift < 64 →
  __adddi3 a b = s64 (a + b) ∧ __subdi3 a b = s64 (a - b) ∧ __muldi3 a b = s64 (a * b) ∧
  __ashldi3 a shift = s64 (a * 2 ^ shift) ∧ __ashrdi3 a shift = s64 (a / 2 ^ shift) ∧ __lshrdi3 a shift = s64 (u64 a / 2 ^ shift).
Proof.
  intros Ha Hb Hs. rewrite __adddi3_ok, __subdi3_ok, __muldi3_ok, __ashldi3_ok, __ashrdi3_ok, __lshrdi3_ok by done.
  by rewrite Z.shiftl_mul_pow2, !Z.shiftr_div_pow2 by lia.
Qed.

Lemma longlong_arithmetic_witness :
  __adddi3 (-5) 7 = s64 2 ∧ __subdi3 (-5) 7 = s64 (-12) ∧ __muldi3 (-5) 7 = s64 (-35) ∧
  __ashldi3 (-5) 33 = s64 (-5 * 2 ^ 33) ∧ __ashrdi3 (-5) 33 = s64 (-1) ∧ __lshrdi3 (-5) 33 = s64 (u64 (-5) / 2 ^ 33).
Proof. apply (longlong_arithmetic (-5) 7 33); unfold s64_ok; lia. Defined.

(** C30. Division by long division in base 2^16 is division: for 64-bit signed
    operands [__divdi3] and [__moddi3] return the quotient truncated towards
    zero and its remainder, whatever the local arrays held before. *)
Theorem divdi3_moddi3 a b s1 s2 :
  garbage s1 → garbage s2 → - 2 ^ 63 ≤ a < 2 ^ 63 → - 2 ^ 63 ≤ b < 2 ^ 63 → b ≠ 0 → a ≠ - 2 ^ 63 ∨ b ≠ -1 →
  wp (__divdi3 a b) (λ q _, wp (__moddi3 a b) (λ r _, a = q * b + r ∧ Z.abs r < Z.abs b ∧ 0 ≤ r * a) s2) s1.
Proof.
  intros Hs1 Hs2 Ha Hb Hb0 Hov. eapply wp_mono; [by apply __divdi3_ok|]. intros q _ ->.
  eapply wp_mono; [by apply __moddi3_ok|]. intros r _ ->. rewrite s64_id.
  - split; [pose proof (Z.quot_rem' a b); lia|]. split; [by apply Z.rem_bound_abs|]. by apply Z.rem_sign_mul.
  - pose proof (Z.quot_rem' a b) as E. pose proof (Z.rem_bound_abs a b Hb0).
    assert (Z.abs (Z.quot a b) ≤ Z.abs a) as Hq.
    { rewrite <-Z.quot_abs by done. rewrite Z.quot_div_nonneg by lia. apply Z.div_le_upper_bound; [lia|]. nia. }
    destruct (decide (Z.abs (Z.quot a b) < 2 ^ 63)); [lia|].
    assert (a = - 2 ^ 63) as -> by lia. destruct Hov as [|Hov]; [done|]. assert (Z.quot (- 2 ^ 63) b ≠ 2 ^ 63); [|lia].
    intros E2. rewrite E2 in E. pose proof (Z.rem_sign_mul (- 2 ^ 63) b Hb0). assert (b = -1); [|done]. nia.
Qed.

Lemma divdi3_moddi3_witness :
  wp (__divdi3 (-7) 2) (λ q _, wp (__moddi3 (-7) 2) (λ r _, -7 = q * 2 + r ∧ Z.abs r < Z.abs 2 ∧ 0 ≤ r * -7)
    (mk_qst (replicate 5 9) (replicate 5 8) (replicate 5 7))) (mk_qst (replicate 5 1) (replicate 5 2) (replicate 5 3)).
Proof.
  apply (divdi3_moddi3 (-7) 2); try lia; (split; [|split]); (split; [done|]); repeat constructor; unfold B; lia.
Defined.

(** ** Strings from user memory *)

(** [copyinstr] copies a string the process can read, terminator included,
    and returns its length with the terminator; a string that does not fit is
    [ENAMETOOLONG]. *)
Theorem copyinstr_copies s usersrc dest len l :
  (∀ x, 0 ≤ um_mem s x < 256) → um_badfault s = false →
  0 ≤ usersrc < USERSPACETOP → 0 < len < 2 ^ 32 → usersrc + len ≤ 2 ^ 32 → USERSPACETOP ≤ dest →
  cstr (um_mem s) usersrc l → user_region (um_readable s) usersrc (Z.of_nat (length l) + 1) →
  wp (copyinstr usersrc dest len) (λ r s',
    if decide (Z.of_nat (length l) < len) then r = (0, Some (Z.of_nat (length l) + 1)) ∧ cstr (um_mem s') dest l
    else r = (ENAMETOOLONG, None)) s.
Proof.
  intros Hm Hb Hu Hlen Htop Hdest Hl [Hreg Hok]. eapply wp_mono; [by apply copyinstr_ok|]. intros r s' (m' & -> & Ho & _).
  assert (∀ k, 0 ≤ k ≤ Z.of_nat (length l) → reachable (um_readable s) usersrc k) as Hreach.
  { intros k Hk. split; [lia|]. apply Hok. lia. }
  destruct Ho as [l' Hl' Hlt _ Hc|Hlong|k Hk Hnz Hnr].
  - rewrite (cstr_inj _ _ _ _ Hl Hl'). rewrite decide_True by done. done.
  - rewrite decide_False; [done|]. intros Hlt. destruct (Hlong (Z.of_nat (length l)) ltac:(lia)) as [Hz _]. by rewrite (cs_end _ _ _ Hl) in Hz.
  - exfalso. destruct (decide (k ≤ Z.of_nat (length l))) as [Hle|Hgt]; [apply Hnr, Hreach; lia|].
    apply (Hnz (Z.of_nat (length l)) ltac:(lia)). apply (cs_end _ _ _ Hl).
Qed.

(** The bytes of [demo_umach] are their addresses modulo 256: a string of the
    bytes 0xfd to 0xff is at 0x4000fd. *)
Lemma copyinstr_copies_witness :
  wp (copyinstr 0x4000fd 0x80001000 100) (λ r s', if decide (3 < 100) then r = (0, Some 4) ∧ cstr (um_mem s') 0x80001000 [0xfd; 0xfe; 0xff]
    else r = (ENAMETOOLONG, None)) demo_umach.
Proof.
  apply (copyinstr_copies demo_umach 0x4000fd 0x80001000 100 [0xfd; 0xfe; 0xff]); unfold USERSPACETOP, MIPS_KSEG0; try done; try lia.
  - intros x. by apply Z.mod_pos_bound.
  - by apply has_cstr_ok.
  - apply demo_region; cbn; lia.
Defined.
