(* ===== verification/Menu.v ===== *)
(** * The command line of the kernel ([cmd_dispatch] and [menu_execute] of
      [kern/main/menu.c])

    The line is cut in place with [strtok_r] and the first word selects a
    function of [cmdtable].  The functions of the table, the addresses of its
    names and of the literals, and the initial value of the local [context]
    are arguments; messages and the measured time are not modelled. *)

From S2P Require Import Prelude Machine Kernel MemBlock Str.

Definition MAXMENUARGS : Z := 16.

Section menu.
(** An entry of [cmdtable]: the address of the name and the function.  The
    list stops before the entry whose name is NULL. *)
Context (cmdtable : list (Z * option nat)).
Context (func : nat → list Z → M memory Z).
Context (blanks semicolon context0 : Z).

(** The loop that fills [args]; [None] stands for too many words. *)
Definition cmd_words (cmd : Z) : M memory (option (list Z)) :=
  r ← strtok_r cmd blanks context0;
  while (λ st : Z * Z * list Z,
    let '(word, context, args) := st in
    if word =? NULL then mret (inr (Some args))
    else if MAXMENUARGS <=? Z.of_nat (length args) then mret (inr None)
    else r ← strtok_r NULL blanks context; mret (inl (r.1, r.2, args ++ [word]))) (r.1, r.2, []).

(** The search for the entry of a name *)
Fixpoint cmd_find (arg0 : Z) (tbl : list (Z * option nat)) : M memory (option (option nat)) :=
  match tbl with
  | [] => mret None
  | (name, f) :: tbl =>
      b ← load name;
      found ← (if negb (b =? 0) then c ← strcmp arg0 name; mret (c =? 0) else mret false);
      if (found : bool) then mret (Some f) else cmd_find arg0 tbl
  end.

Definition cmd_dispatch (cmd : Z) : M memory Z :=
  args ← cmd_words cmd;
  match args with
  | None => mret E2BIG
  | Some [] => mret 0
  | Some (arg0 :: rest) =>
      e ← cmd_find arg0 cmdtable;
      match e with
      | None => mret EINVAL
      | Some f => f ← assert_some f "cmdtable[i].func!=NULL"; func f (arg0 :: rest)
      end
  end.

Definition menu_execute (line isargs : Z) : M memory () :=
  r ← strtok_r line semicolon context0;
  while (λ st : Z * Z,
    let '(command, context) := st in
    if command =? NULL then mret (inr tt)
    else
      result ← cmd_dispatch command;
      (if negb (result =? 0) && negb (isargs =? 0) then halt (Panic "Failure processing kernel arguments") else mret tt) ;;
      r ← strtok_r NULL semicolon context;
      mret (inl (r.1, r.2))) (r.1, r.2).
End menu.

(** ** The words of a line *)

Definition flush (w : list Z) (ws : list (list Z)) : list (list Z) := match w with [] => ws | _ => w :: ws end.
Fixpoint words_acc (sl : list Z) (w l : list Z) : list (list Z) :=
  match l with
  | [] => flush w []
  | b :: l => if decide (b ∈ sl) then flush w (words_acc sl [] l) else words_acc sl (w ++ [b]) l
  end.
(** The maximal runs of bytes that are not separators *)
Definition words (sl l : list Z) : list (list Z) := words_acc sl [] l.

Lemma words_seps sl p l : Forall (λ b, b ∈ sl) p → words sl (p ++ l) = words sl l.
Proof. unfold words. induction 1 as [|b p Hb _ IH]; [done|]. cbn. by rewrite decide_True. Qed.

Lemma words_acc_run sl w u r : Forall (λ b, b ∉ sl) u → words_acc sl w (u ++ r) = words_acc sl (w ++ u) r.
Proof.
  intros Hu. revert w. induction Hu as [|b u Hb _ IH]; intros w; [by rewrite app_nil_r|]. cbn. rewrite decide_False by done.
  by rewrite IH, <-app_assoc.
Qed.

(** The first word and what follows the separator after it *)
Lemma words_word sl p w r :
  Forall (λ b, b ∈ sl) p → w ≠ [] → Forall (λ b, b ∉ sl) w → (∀ b, head r = Some b → b ∈ sl) →
  words sl (p ++ w ++ r) = w :: match r with [] => [] | _ :: r => words sl r end.
Proof.
  intros Hp Hw Hws Hr. rewrite words_seps by done. unfold words. rewrite words_acc_run by done. cbn [app].
  destruct r as [|b r]; cbn; [|rewrite decide_True by auto]; by destruct w.
Qed.

Lemma words_nil sl l : Forall (λ b, b ∈ sl) l → words sl l = [].
Proof. intros H. rewrite <-(app_nil_r l). by rewrite words_seps. Qed.

(** Every line is separators, then a word and the rest, or separators only. *)
Lemma line_cases (sl l : list Z) :
  Forall (λ b, b ∈ sl) l ∨
  ∃ p w r, l = p ++ w ++ r ∧ Forall (λ b, b ∈ sl) p ∧ w ≠ [] ∧ Forall (λ b, b ∉ sl) w ∧ (∀ b, head r = Some b → b ∈ sl).
Proof.
  induction l as [|b l [IH|(p & w & r & -> & Hp & Hw & Hws & Hr)]]; [by left| |].
  - destruct (decide (b ∈ sl)); [left; by constructor|]. right. exists [], [b], l. split; [done|]. split; [done|]. split; [done|].
    split; [by repeat constructor|]. intros c Hc. destruct l; [done|]. inversion IH; subst. by injection Hc as <-.
  - right. destruct (decide (b ∈ sl)).
    + exists (b :: p), w, r. split; [done|]. split; [by constructor|]. done.
    + destruct p as [|b' p].
      * exists [], (b :: w), r. split; [done|]. split; [done|]. split; [done|]. split; [by constructor|done].
      * exists [], [b], (b' :: p ++ w ++ r). split; [done|]. split; [done|]. split; [done|]. split; [by repeat constructor|].
        intros c [= <-]. by inversion Hp.
Qed.

(** The first entry of the table with a given name; an entry without name is
    never found. *)
Fixpoint entry_of (w : list Z) (names : list (list Z)) (tbl : list (Z * option nat)) : option (option nat) :=
  match names, tbl with
  | n :: names, (_, f) :: tbl => if decide (n = w ∧ n ≠ []) then Some f else entry_of w names tbl
  | _, _ => None
  end.

(** ** Cutting a line *)

(** What one call of [strtok_r] on the rest [l] of a line does *)
Record cut (m : memory) (c : Z) (l : list Z) (sl : list Z) (res : Z * Z) (m' : memory) (w : list Z) : Prop := {
  ct_word : cstr m' res.1 w;
  ct_pos : c ≤ res.1;
  ct_frame x : x < c ∨ c + Z.of_nat (length l) < x → m' x = m x;
  ct_rest : (res.2 = NULL ∧ words sl l = [w]) ∨
    ∃ r, cstr m' res.2 r ∧ words sl l = w :: words sl r ∧ res.1 + Z.of_nat (length w) < res.2 ∧
      res.2 + Z.of_nat (length r) = c + Z.of_nat (length l)
}.

Lemma strtok_r_cut m seps sl c l string :
  cstr m seps sl → 0 < seps → 0 < c → string = c ∨ string = NULL → cstr m c l →
  wp (strtok_r string seps c) (λ res m', (words sl l = [] ∧ res = (NULL, NULL) ∧ m' = m) ∨ ∃ w, cut m c l sl res m' w) m.
Proof.
  intros Hseps Hsp Hc Hstr Hl. destruct (line_cases sl l) as [Hall|(p & w & r & -> & Hp & Hw & Hws & Hr)].
  - apply wp_run. eexists _, _. split; [by eapply strtok_r_none|]. left. by rewrite words_nil.
  - eapply wp_mono; [by eapply strtok_r_word|]. cbn zeta. intros res m' (-> & H1 & H2 & H3). right. exists w.
    split; cbn [fst snd]; [done|lia| |].
    + rewrite !length_app. intros x Hx. apply H3. lia.
    + rewrite words_word by done. destruct r as [|b r]; [by left|]. right. exists r. split; [by eapply H2|]. split; [done|].
      rewrite !length_app. cbn [length]. lia.
Qed.

Section dispatch.
Context (cmdtable : list (Z * option nat)) (func : nat → list Z → M memory Z).
Context (blanks semicolon context0 : Z) (m : memory) (sl : list Z) (cmd : Z) (l : list Z).
Hypothesis Hsl : cstr m blanks sl.
Hypothesis Hblanks : 0 < blanks.
Hypothesis Hcmd : 0 < cmd.
Hypothesis Hl : cstr m cmd l.
(** A place outside the line *)
Definition apart (a : Z) (n : nat) : Prop := a + Z.of_nat n < cmd ∨ cmd + Z.of_nat (length l) < a.
Hypothesis Hsep : apart blanks (length sl).

(** The state of the loop: the words in [args], and the word found last *)
Definition scanned (m' : memory) (args : list Z) (ws : list (list Z)) (bound : Z) : Prop :=
  Forall2 (λ a w, cstr m' a w ∧ cmd ≤ a ∧ a + Z.of_nat (length w) < bound) args ws.
Definition framed (m' : memory) : Prop := ∀ x, x < cmd ∨ cmd + Z.of_nat (length l) < x → m' x = m x.
Definition progress_at (word context : Z) (args : list Z) (m' : memory) : Prop :=
  framed m' ∧ ∃ ws, length ws = length args ∧
    ((word = NULL ∧ words sl l = ws ∧ Forall2 (cstr m') args ws) ∨
     ∃ w, 0 < word ∧ cstr m' word w ∧
       ((context = NULL ∧ words sl l = ws ++ [w] ∧ Forall2 (cstr m') args ws) ∨
        ∃ r, 0 < context ∧ cmd ≤ context ∧ cmd ≤ word ∧ cstr m' context r ∧ words sl l = ws ++ w :: words sl r ∧
          word + Z.of_nat (length w) < context ∧ context + Z.of_nat (length r) = cmd + Z.of_nat (length l) ∧
          scanned m' args ws context)).

Lemma framed_apart m' a b : framed m' → apart a (length b) → cstr m a b → cstr m' a b.
Proof using. intros Hf Ha Hb. apply (cstr_ext m); [done|]. intros x Hx. apply Hf. unfold apart in Ha. lia. Qed.

Lemma scanned_cstr m' args ws bound : scanned m' args ws bound → Forall2 (cstr m') args ws.
Proof using. intros H. eapply Forall2_impl; [done|]. by intros a w []. Qed.

(** A later cut does not touch the words before it. *)
Lemma scanned_later m' m'' args ws c : scanned m' args ws c → (∀ x, x < c → m'' x = m' x) → Forall2 (cstr m'') args ws.
Proof using.
  intros H Hx. eapply Forall2_impl; [done|]. intros a w (H1 & H2 & H3). apply (cstr_ext m'); [done|]. intros x Hin. apply Hx. lia.
Qed.

(** The call in the loop, after the words [ws] and at the rest [r] *)
Lemma cut_progress m' c r args ws res m'' :
  framed m' → 0 < c → cmd ≤ c → c + Z.of_nat (length r) = cmd + Z.of_nat (length l) → cstr m' c r →
  words sl l = ws ++ words sl r → length ws = length args → scanned m' args ws c →
  (words sl r = [] ∧ res = (NULL, NULL) ∧ m'' = m') ∨ (∃ w, cut m' c r sl res m'' w) →
  progress_at res.1 res.2 args m''.
Proof using Hcmd.
  intros Hf Hc0 Hc Hend Hr Hws Hlen Hsc [(E & -> & ->)|[w [Hw Hpos Hfr Hrest]]].
  - split; [done|]. exists ws. split; [done|]. left. rewrite Hws, E, app_nil_r. split; [done|]. split; [done|]. by eapply scanned_cstr.
  - assert (∀ x, x < c → m'' x = m' x) as Hlow by (intros x Hx; apply Hfr; lia).
    split. { intros x Hx. rewrite <-(Hf x Hx). apply Hfr. lia. }
    exists ws. split; [done|]. right. exists w. split; [lia|]. split; [done|].
    destruct Hrest as [[E1 E2]|(r' & H1 & H2 & H3 & H4)].
    + left. split; [done|]. split; [by rewrite Hws, E2|]. by eapply scanned_later.
    + right. exists r'. split; [lia|]. split; [lia|]. split; [lia|]. split; [done|]. split; [by rewrite Hws, H2|].
      split; [done|]. split; [lia|]. pose proof (scanned_later _ _ _ _ _ Hsc Hlow) as Hall.
      clear -Hsc Hall H3 Hpos. induction Hsc as [|a w' args ws (A1 & A2 & A3) Hsc IH]; [constructor|].
      inversion Hall; subst. constructor; [split; [done|lia]|by apply IH].
Qed.

(** One turn of the loop *)
Lemma words_turn word context args m' :
  progress_at word context args m' → word ≠ NULL →
  wp (strtok_r NULL blanks context) (λ r m'', progress_at r.1 r.2 (args ++ [word]) m'') m'.
Proof using Hcmd Hsl Hblanks Hsep.
  intros (Hf & ws & Hlen & [(E & _)|(w & Hpos & Hw & [(-> & E & Hall)|(r & H1 & H2 & H3 & H4 & H5 & H6 & H7 & H8)])]) Hne; [done| |].
  - apply wp_run. eexists _, _. split; [done|]. cbn. split; [done|]. exists (ws ++ [w]). split; [rewrite !length_app; cbn; lia|].
    left. split; [done|]. split; [done|]. apply Forall2_app; [done|]. constructor; [done|constructor].
  - eapply wp_mono; [apply (strtok_r_cut m' blanks sl context r NULL); try done; [by apply framed_apart|by right]|].
    intros res m'' Hres. eapply (cut_progress m' context r (args ++ [word]) (ws ++ [w])); try done.
    + by rewrite <-app_assoc.
    + rewrite !length_app. cbn. lia.
    + apply Forall2_app; [done|]. constructor; [done|constructor].
Qed.

(** The loop finds the words of the line, or that there are too many. *)
Lemma cmd_words_run :
  wp (cmd_words blanks context0 cmd) (λ res m', framed m' ∧ match res with
    | Some args => Forall2 (cstr m') args (words sl l) ∧ Z.of_nat (length (words sl l)) ≤ MAXMENUARGS
    | None => MAXMENUARGS < Z.of_nat (length (words sl l))
    end) m.
Proof using Hcmd Hsl Hblanks Hsep Hl.
  unfold cmd_words. apply wp_bind.
  assert (strtok_r cmd blanks context0 = strtok_r cmd blanks cmd) as ->.
  { unfold strtok_r. by rewrite (proj2 (Z.eqb_neq cmd NULL)) by (unfold NULL; lia). }
  eapply wp_mono; [apply (strtok_r_cut m blanks sl cmd l cmd); try done; by left|]. intros res m1 Hres.
  assert (progress_at res.1 res.2 [] m1) as Hp.
  { apply (cut_progress m cmd l [] []); try done. constructor. }
  apply (wp_while _ (λ st m', progress_at st.1.1 st.1.2 st.2 m' ∧ Z.of_nat (length st.2) ≤ MAXMENUARGS)
    (λ st _, MAXMENUARGS - Z.of_nat (length st.2))).
  - by split.
  - intros [[word ctx] args] m' [_ ?]. cbn [fst snd] in *. lia.
  - cbn [fst snd length]. unfold MAXMENUARGS. lia.
  - intros [[word ctx] args] m' [Hpr Hmax]. cbn [fst snd] in *. destruct (Z.eqb_spec word NULL) as [->|Hne].
    + apply wp_ret. destruct Hpr as (Hf & ws & Hlen & [(_ & -> & Hall)|(w & H0 & _)]); [|unfold NULL in H0; lia].
      split; [done|]. split; [done|]. lia.
    + destruct (Z.leb_spec MAXMENUARGS (Z.of_nat (length args))).
      * apply wp_ret. destruct Hpr as (Hf & ws & Hlen & [(? & _)|(w & _ & _ & Hc)]); [done|]. split; [done|].
        destruct Hc as [(_ & -> & _)|(r & _ & _ & _ & _ & -> & _)]; rewrite length_app; cbn; lia.
      * apply wp_bind. eapply wp_mono; [by apply words_turn|]. intros r m'' Hr. apply wp_ret. cbn [fst snd].
        rewrite length_app. cbn [length]. split; [split; [done|lia]|lia].
Qed.

Lemma lex_refl l1 l2 : (lex l1 l2 =? 0) = bool_decide (l1 = l2).
Proof using.
  revert l2. induction l1 as [|b l1 IH]; intros [|b2 l2]; cbn; try done.
  destruct (Z.ltb_spec b2 b); [symmetry; apply bool_decide_eq_false; intros [= -> ?]; lia|].
  destruct (Z.eqb_spec b b2) as [->|Hne].
  - rewrite IH. apply bool_decide_ext. split; [by intros ->|by intros [= ->]].
  - symmetry. apply bool_decide_eq_false. by intros [= -> ?].
Qed.

Lemma cmd_find_run m' arg0 w tbl names :
  cstr m' arg0 w → Forall2 (λ e n, cstr m' e.1 n) tbl names → cmd_find arg0 tbl m' = Ok (entry_of w names tbl, m').
Proof using.
  intros Hw Htbl. induction Htbl as [|[a f] n tbl names Hn Htbl IH]; [done|]. cbn [fst] in Hn. cbn [cmd_find entry_of].
  rewrite (bind_ok (load a) _ m' (m' a) m') by done.
  erewrite bind_ok; [|instantiate (1 := m'); instantiate (1 := bool_decide (n = w ∧ n ≠ []))].
  - case_bool_decide; [by rewrite decide_True|by rewrite decide_False].
  - destruct n as [|b n].
    + rewrite (proj1 (cstr_nil m' a) Hn). cbn. rewrite bool_decide_eq_false_2; [done|]. by intros [_ []].
    + destruct (cstr_cons _ _ _ _ Hn) as (-> & Hb & _). rewrite (proj2 (Z.eqb_neq b 0)) by lia. cbn [negb].
      rewrite (bind_ok _ _ _ _ _ (strcmp_ok m' arg0 a w (b :: n) Hw Hn)). unfold mret, M_ret. f_equal. f_equal. rewrite lex_refl.
      apply bool_decide_ext. split; [by intros ->|]. by intros [-> _].
Qed.

(** The outcomes of a command line: nothing to do, too many words, no such
    command, or the call of the command with the words of the line *)
Definition dispatched (names : list (list Z)) : Prop :=
  let ws := words sl l in
  let run := cmd_dispatch cmdtable func blanks context0 cmd m in
  if decide (MAXMENUARGS < Z.of_nat (length ws)) then ∃ m', framed m' ∧ run = Ok (E2BIG, m')
  else match ws with
  | [] => ∃ m', framed m' ∧ run = Ok (0, m')
  | w :: _ =>
      match entry_of w names cmdtable with
      | None => ∃ m', framed m' ∧ run = Ok (EINVAL, m')
      | Some None => run = Stop (AssertFail "cmdtable[i].func!=NULL")
      | Some (Some f) => ∃ args m', framed m' ∧ Forall2 (cstr m') args ws ∧ run = func f args m'
      end
  end.

Lemma cmd_dispatch_run names :
  Forall2 (λ e n, cstr m e.1 n ∧ apart e.1 (length n)) cmdtable names → dispatched names.
Proof using Hcmd Hsl Hblanks Hsep Hl.
  intros Htbl. destruct (proj1 (wp_run _ _ _) cmd_words_run) as (res & m' & Hrun & Hf & Hres). unfold dispatched, cmd_dispatch.
  rewrite (bind_ok _ _ _ _ _ Hrun). destruct res as [args|]; [|rewrite decide_True by done; by exists m'].
  destruct Hres as [Hargs Hmax]. rewrite decide_False by lia.
  assert (Forall2 (λ e n, cstr m' e.1 n) cmdtable names) as Htbl'.
  { eapply Forall2_impl; [done|]. intros e n [H1 H2]. by apply framed_apart. }
  destruct (words sl l) as [|w ws]; [apply Forall2_nil_inv_r in Hargs as ->; by exists m'|].
  apply Forall2_cons_inv_r in Hargs as (a & rest & Ha & Hrest & ->).
  rewrite (bind_ok _ _ _ _ _ (cmd_find_run m' a w cmdtable names Ha Htbl')).
  destruct (entry_of w names cmdtable) as [[f|]|]; [|done|by exists m'].
  exists (a :: rest), m'. split; [done|]. split; [by constructor|]. done.
Qed.
End dispatch.

(** A command line is cut at blanks and tabs into its words; with more
    than 16 words the result is [E2BIG], with none 0, with a first word that
    is no name of the table [EINVAL]; otherwise the function of the first entry
    with that name is called with all the words.  Memory outside the line is
    not changed before the call. *)
Theorem cmd_dispatch_outcome cmdtable func blanks context0 m cmd l names :
  cstr m blanks [32; 9] → 0 < blanks → 0 < cmd → cstr m cmd l → apart cmd l blanks 2 →
  Forall2 (λ e n, cstr m e.1 n ∧ apart cmd l e.1 (length n)) cmdtable names →
  dispatched cmdtable func blanks context0 m [32; 9] cmd l names.
Proof. intros. by apply cmd_dispatch_run. Qed.

(** The line "p  sh", a table with the names "s" and "p" *)
Definition demo_mem : memory :=
  mem_write (mem_write (mem_write (mem_write (λ _, 0) 50 [32; 9]) 60 [115]) 70 [112]) 100 [112; 32; 32; 115; 104].
Definition demo_func (f : nat) (args : list Z) : M memory Z := mret (Z.of_nat (f + length args)).

Lemma cmd_dispatch_outcome_witness :
  dispatched [(60, Some 1%nat); (70, Some 2%nat)] demo_func 50 7 demo_mem [32; 9] 100 [112; 32; 32; 115; 104] [[115]; [112]] ∧
  words [32; 9] [112; 32; 32; 115; 104] = [[112]; [115; 104]].
Proof.
  split; [|done]. apply (cmd_dispatch_outcome [(60, Some 1%nat); (70, Some 2%nat)] demo_func 50 7 demo_mem 100 [112; 32; 32; 115; 104] [[115]; [112]]);
    [by apply has_cstr_ok|lia|lia|by apply has_cstr_ok|left; cbn; lia|].
  repeat (constructor; [split; [by apply has_cstr_ok|left; cbn; lia]|]). constructor.
Defined.
