(* ===== verification/ProcProps.v ===== *)
(** * Properties of processes and of the process and file system calls

    Process creation, the exchange between [_exit] and [waitpid], and the
    tables of open files; at the end a concrete system on which the theorems
    apply. *)

From S2P Require Import Prelude Machine Spinlock Pt PtSpec PtFrames PtTable Kernel Vmstats.
From S2P Require Import Tlb Swapfile Coremap Addrspace VmInv VmDemo Proc Syscalls ProcLife Files.

(** ** A concrete system

    The kernel process, pid 1, and the process of [VmDemo], pid 2, which
    runs as thread 20. *)
Definition demo_kproc : proc :=
  mk_proc "[kernel]" SPINLOCK_INITIALIZER 1 None None 0 1 (Some 0) (replicate (Z.to_nat OPEN_MAX) None).
Definition demo_child : proc :=
  mk_proc "demo" SPINLOCK_INITIALIZER 1 (Some demo_as) None 0 2 (Some 0) (replicate (Z.to_nat OPEN_MAX) None).
Definition demo_procs : gmap nat proc := {[ 0%nat := demo_kproc; 1%nat := demo_child ]}.
Definition demo_ptable : processTable :=
  mk_ptable 1 (<[1%nat := Some 0%nat]> (<[2%nat := Some 1%nat]> (replicate (Z.to_nat (MAX_PROC + 1)) None))) 2 SPINLOCK_INITIALIZER.
Definition demo_psys : psys :=
  mk_psys (set_k_procs demo_procs demo_kernel) demo_ptable (Some 0%nat) ∅ (replicate (Z.to_nat SYSTEM_OPEN_MAX) (mk_openfile None 0 0))
    {[ 10 := Some 0%nat; 20 := Some 1%nat ]} 20 [] [].

Lemma demo_procs_inv c p : demo_procs !! c = Some p → (c = 0%nat ∧ p = demo_kproc) ∨ (c = 1%nat ∧ p = demo_child).
Proof.
  unfold demo_procs. rewrite lookup_insert_Some. intros [[<- <-]|[_ H]]; [by left|]. right. by apply lookup_singleton_Some in H as [<- <-].
Qed.

(** The entries of a table with processes 0 and 1 at 1 and 2 *)
Lemma demo_entry i c : 0 ≤ i ≤ MAX_PROC → entry demo_ptable i = Some c → (i = 1 ∧ c = 0%nat) ∨ (i = 2 ∧ c = 1%nat).
Proof.
  unfold entry, MAX_PROC. intros Hi H. change (pt_proc demo_ptable) with
    (<[1%nat := Some 0%nat]> (<[2%nat := Some 1%nat]> (replicate 101 (None : option nat)))) in H.
  destruct (decide (i = 1)) as [->|H1]; [left; by injection H as <-|]. destruct (decide (i = 2)) as [->|H2]; [right; by injection H as <-|].
  rewrite !list_lookup_insert_ne in H by lia. rewrite lookup_replicate_2 in H by lia. done.
Qed.

Lemma demo_pids : pids_ok demo_psys.
Proof.
  split; try done.
  - apply demo_quiet.
  - intros c p [[-> ->]|[-> ->]]%demo_procs_inv; (split; [unfold MAX_PROC; cbn; lia|done]).
  - intros i c Hi [[-> ->]|[-> ->]]%demo_entry; [|by eexists|done]. by eexists.
Qed.

Lemma demo_free_pid : pid_free demo_ptable.
Proof. exists 3. unfold MAX_PROC. split; [lia|]. split; [right; done|done]. Qed.

Definition demo_close (v : Z) : M (kernel (ops := ram_ops)) () := mret tt.
Definition demo_reclaim (v : Z) : M psys Z := mret 0.
Definition demo_open (path flags mode : Z) : M psys (Z * Z) := mret (0, 7).

Lemma demo_close_law : close_law demo_close.
Proof. intros v k. exists (k_fs k). split; [by destruct k|]. done. Qed.
Lemma demo_closes : closes demo_close.
Proof. intros v k. exists (k_fs k). by destruct k. Qed.
Lemma demo_opens : opens demo_open.
Proof. intros path flags mode s. exists 0, 7, (k_fs (ps_k s)), (ps_vnodes s). by destruct s as [[]]. Qed.

(** The same system with a page of the process in memory, at address 0x410000,
    and one in the swap file, at address 0x411000 *)
Lemma demo_busy : ∃ k q, exiting (set_ps_k k demo_psys) 1 demo_child demo_as q 0 ∧ k_procs k = demo_procs ∧
  (2, 0x410000) ∈ q.*1 ∧ is_Some (swap_contents k (2, 0x411000)).
Proof.
  set (k0 := set_k_procs demo_procs demo_kernel).
  assert (quiet k0) as Hq by (apply (quiet_same demo_kernel); [apply demo_quiet|done..]).
  assert (swap_wf k0) as Hsw by (destruct demo_swap as [[] _]; by split).
  assert (cm_wf k0 []) as Hcm by (apply (cm_wf_same demo_kernel); [apply demo_cm|done..]).
  assert (slot_of (2, 0x411000) (k_swapmap k0) = None) as Hnew by apply demo_swap.
  assert (free_slot (k_swapmap k0) = Some 0%nat) as Hj by (by vm_compute).
  destruct (swapinpage_run k0 2 0x411000 0x8000 0 Hq Hsw) as (fs' & _ & Hd & _ & Hv); [done|done|done|done|].
  destruct (swapped_in_wf k0 2 0x411000 0 fs' _ Hsw Hj Hnew ltac:(done) (length_page_at _ _) Hd (Hv _ (swap_vnode _ Hsw))) as [Hsw1 Hct].
  set (k1 := swapped_in 0 2 0x411000 fs' k0) in *.
  assert (quiet k1) as Hq1 by (by apply (quiet_same k0)).
  destruct (allocuserpage_free_run k1 [] 4 2 0x410000 Hq1) as (st' & _ & Hcm2 & _); [by apply (cm_wf_same k0)|by vm_compute|done|by apply not_elem_of_nil|].
  exists (set_k_pt st' k1), [((2, 0x410000), 4%nat)]. split; [|split; [done|]].
  - split; try done.
    + destruct demo_pids; by split.
    + by apply (quiet_same k1).
    + destruct Hsw1; by split.
    + split; [by eexists|]. split; [by eexists|]. split; [by eexists|]. intros s1 v [= <-] [= <-]. done.
  - split; [by left|]. change (is_Some (swap_contents k1 (2, 0x411000))). rewrite Hct, decide_True by done. eauto.
Qed.

(** ** Processes *)

Section procs.
Context {ops : VnodeOps} {laws : VnodeLaws ops}.

(** C25. A new process gets a pid between 1 and 100 that no other process has,
    the other processes are as they were, and the process table keeps
    listing exactly the processes there are, each under its pid; this holds
    also when an allocation fails, and the search for a pid ends. *)
Theorem proc_create_pid name (s : psys) :
  pids_ok s → pid_free (ps_table s) →
  wp (proc_create name) (λ r s', pids_ok s' ∧ (∀ c p, k_procs (ps_k s) !! c = Some p → k_procs (ps_k s') !! c = Some p) ∧
    ∀ c, r = Some c → ∃ p, k_procs (ps_k s') !! c = Some p ∧ p_name p = name ∧ 1 ≤ p_pid p ≤ MAX_PROC ∧
      ∀ c' p', k_procs (ps_k s) !! c' = Some p' → p_pid p' ≠ p_pid p) s.
Proof using.
  intros Hok Hfree. eapply wp_mono; [by apply proc_create_run|]. intros r s' (Hok' & Hr & _). split; [done|]. destruct r as [c|].
  - destruct Hr as (Hnew & p & Hprocs & Hname & _ & _ & _ & _ & _ & Hent). rewrite Hprocs. split.
    + intros c' p' Hp'. rewrite lookup_insert_ne; [done|]. intros <-. congruence.
    + intros ? [= <-]. exists p. rewrite lookup_insert_eq. split; [done|]. split; [done|]. split.
      * apply (po_proc s' Hok' c). by rewrite Hprocs, lookup_insert_eq.
      * intros c' p' Hp' E. destruct (po_proc s Hok c' p' Hp') as [_ He]. rewrite E, Hent in He. done.
  - destruct Hr as [-> _]. split; [done|]. by intros ? [=].
Qed.

(** C18. A process that exits leaves its status to the process that waits for
    it: [_exit] ends without error, and when the other process then waits, it
    gets the low 8 bits of the status as they are (not encoded with
    [_MKWAIT_EXIT]), the exited process and its entry of the process table are
    gone, its pages are no longer in memory or in the swap file, and every
    other page is where it was with what it held.  The table of open files is
    unchanged: what the process had open stays open. *)
Theorem exit_wait_status vfs_close vop_reclaim (s : psys) c p a q n status t' parent :
  close_law vfs_close → exiting s c p a q n → parent ≠ c →
  ∃ s1, exit_process status s = Ok (tt, s1) ∧
    wp (proc_wait vfs_close vop_reclaim c)
      (λ r s', r = Z.land status 0xff ∧ pids_ok s' ∧ entry (ps_table s') (p_pid p) = None ∧
        k_procs (ps_k s') = delete c (k_procs (ps_k s)) ∧ cm_wf (ps_k s') (filter (λ e, e.1.1 ≠ p_pid p) q) ∧
        (∀ key, swap_contents (ps_k s') key = if decide (key.1 = p_pid p) then None else swap_contents (ps_k s) key) ∧
        k_mem (ps_k s') = k_mem (ps_k s) ∧ systemFileTable s' = systemFileTable s)
      (resume t' (Some parent) s1).
Proof using. intros Hclose. by apply exit_wait. Qed.

(** C40. [waitpid] does not return an error for a pid that is not in use: it
    stops the kernel.  A pid below 0 or from 100 on, which includes the valid
    pid 100, fails the assertion of [proc_search_pid]; a pid with an empty
    entry is an access through NULL. *)
Theorem waitpid_bad_pid vfs_close vop_reclaim store_user (s : psys) pid statusp options :
  table_wf (ps_table s) → ¬ 0 ≤ pid < MAX_PROC ∨ entry (ps_table s) pid = None →
  sys_waitpid vfs_close vop_reclaim store_user pid statusp options s =
    Stop (if decide (0 ≤ pid < MAX_PROC) then BadAccess else AssertFail "pid>=0&&pid<MAX_PROC").
Proof using.
  intros [Hlen _] Hpid. unfold sys_waitpid, proc_search_pid. case_decide as E.
  - assert (kassert ((0 <=? pid) && (pid <? MAX_PROC)) "pid>=0&&pid<MAX_PROC" s = Ok (tt, s)) as H1.
    { unfold kassert. by rewrite (proj2 (Z.leb_le _ _)), (proj2 (Z.ltb_lt _ _)) by lia. }
    assert (on_table (table_at pid) s = Ok (None, s)) as H2.
    { apply wp_result. unfold on_table. apply wp_zoom. unfold table_at. apply wp_bind, wp_gets.
      rewrite (proj2 (Z.leb_le 0 pid)) by lia. apply wp_deref. exists None. split; [|by destruct s].
      unfold entry in Hpid. destruct Hpid as [|Hpid]; [done|]. unfold MAX_PROC in *.
      destruct (lookup_lt_is_Some_2 (pt_proc (ps_table s)) (Z.to_nat pid)) as [x Hx]; [lia|]. rewrite Hx in *. cbn in Hpid. by subst. }
    apply bind_stop. rewrite (bind_ok _ _ _ _ _ H1). rewrite (bind_ok _ _ _ _ _ H2). done.
  - apply bind_stop, bind_stop. unfold kassert.
    destruct (Z.leb_spec 0 pid); [|done]. destruct (Z.ltb_spec pid MAX_PROC); [lia|done].
Qed.

(** ** Open files *)


(** [close] of an open descriptor keeps every count the number of descriptors
    that refer to the open file, and frees the open file with its last one. *)
Lemma closed_files (s : psys) c p fd i f fs' :
  files_ok s → k_procs (ps_k s) !! c = Some p → fileTable p !! Z.to_nat fd = Some (Some i) → systemFileTable s !! i = Some f →
  let s' := set_ps_k (set_k_fs fs' (ps_k (closed s c p fd i f))) (closed s c p fd i f) in
  files_ok s' ∧ k_procs (ps_k s') = <[c := set_fileTable (<[Z.to_nat fd := None]> (fileTable p)) p]> (k_procs (ps_k s)) ∧
  ∀ f', systemFileTable s' !! i = Some f' → (of_vn f' = None ↔ refs (k_procs (ps_k s')) i = 0%nat).
Proof using.
  intros Hok Hp Ef Hi. cbn zeta.
  assert (files_ok (set_ps_k (set_k_fs fs' (ps_k (closed s c p fd i f))) (closed s c p fd i f))) as Hok'.
  { apply (files_ok_same (closed s c p fd i f)); [done|done|]. by apply dropped_ok. }
  split; [done|]. split; [done|]. intros f' Hf'. rewrite (fo_free _ Hok' i f' Hf'), (fo_count _ Hok' i f' Hf'). lia.
Qed.

(** Copying a table of descriptors into a process that has none open, as a
    fork does for its child, gives it the same descriptors and raises the
    count of each open file by the new references. *)
Theorem file_table_copy_counts (s : psys) src dst ps pd :
  src ≠ dst → files_ok s → k_procs (ps_k s) !! src = Some ps → k_procs (ps_k s) !! dst = Some pd →
  Forall (λ x, x = None) (fileTable pd) → Forall (λ f, u32_ok (countRef f)) (systemFileTable s) →
  (∀ i, Z.of_nat (refs (k_procs (ps_k s)) i + fd_count i (fileTable ps)) < 2 ^ 32) →
  wp (proc_file_table_copy src dst) (λ _ s', files_ok s' ∧
    k_procs (ps_k s') = <[dst := set_fileTable (fileTable ps) pd]> (k_procs (ps_k s))) s.
Proof using.
  intros Hne Hok Hps Hpd Hnone Hu Hbig. apply wp_run. eexists tt, _. split.
  - apply proc_file_table_copy_run; try done; try by eapply (fo_len s Hok).
    intros n i Hn. by apply (fo_ref s Hok src ps n).
  - split; [by apply (proc_file_table_copy_files s src dst)|done].
Qed.

(** C39. [sys_fork] copies the table of open files the wrong way, from the new
    process to the current one.  When nothing fails it returns 0 and the pid of
    a new process, and then neither that process nor the parent has any
    descriptor open, whatever the parent had open before; the other processes
    keep theirs, and the counts of the open files are as they were, so what the
    parent had open can no longer be closed. *)
Theorem fork_empties_parent vfs_close vop_reclaim thread_fork (s : psys) c p a :
  starts_thread thread_fork → pids_ok s → pid_free (ps_table s) → k_mallocs (ps_k s) = [] → k_curproc (ps_k s) = Some c →
  k_procs (ps_k s) !! c = Some p → lock_free (p_lock p) → files_ok s → Forall (λ f, u32_ok (countRef f)) (systemFileTable s) →
  (∀ v, p_cwd p = Some v → ∃ x, ps_vnodes s !! v = Some x ∧ lock_free (vn_countlock x)) →
  p_addrspace p = Some a → is_Some (seg1 a) → is_Some (seg2 a) → is_Some (segstack a) →
  wp (sys_fork vfs_close vop_reclaim thread_fork) (λ r s', ∃ n pid, r = (0, Some pid) ∧ k_procs (ps_k s) !! n = None ∧
    fmap fileTable (k_procs (ps_k s')) =
      <[c := replicate (Z.to_nat OPEN_MAX) None]> (<[n := replicate (Z.to_nat OPEN_MAX) None]> (fmap fileTable (k_procs (ps_k s)))) ∧
    systemFileTable s' = systemFileTable s) s.
Proof using. apply sys_fork_run. Qed.
End procs.

(** ** The theorems on the concrete system *)

Lemma proc_create_pid_witness :
  wp (proc_create "new") (λ r s', pids_ok s' ∧ (∀ c p, k_procs (ps_k demo_psys) !! c = Some p → k_procs (ps_k s') !! c = Some p) ∧
    ∀ c, r = Some c → ∃ p, k_procs (ps_k s') !! c = Some p ∧ p_name p = "new"%string ∧ 1 ≤ p_pid p ≤ MAX_PROC ∧
      ∀ c' p', k_procs (ps_k demo_psys) !! c' = Some p' → p_pid p' ≠ p_pid p) demo_psys.
Proof. apply (proc_create_pid "new" demo_psys); [exact demo_pids|exact demo_free_pid]. Defined.

Lemma exit_wait_status_witness :
  ∃ k q, (2, 0x410000) ∈ q.*1 ∧ is_Some (swap_contents k (2, 0x411000)) ∧
  ∃ s1, exit_process 0x1ff (set_ps_k k demo_psys) = Ok (tt, s1) ∧
    wp (proc_wait demo_close demo_reclaim 1) (λ r s', r = 0xff ∧ pids_ok s' ∧ entry (ps_table s') 2 = None ∧
      k_procs (ps_k s') = delete 1%nat (k_procs k) ∧ cm_wf (ps_k s') (filter (λ e, e.1.1 ≠ 2) q) ∧
      (∀ key, swap_contents (ps_k s') key = if decide (key.1 = 2) then None else swap_contents k key) ∧
      k_mem (ps_k s') = k_mem k ∧ systemFileTable s' = systemFileTable demo_psys)
      (resume 10 (Some 0%nat) s1).
Proof.
  destruct demo_busy as (k & q & Hex & _ & Hin & Hsw). exists k, q. split; [done|]. split; [done|].
  apply (exit_wait_status demo_close demo_reclaim (set_ps_k k demo_psys) 1 demo_child demo_as q 0 0x1ff 10 0);
    [exact demo_close_law|exact Hex|done].
Defined.

Lemma waitpid_bad_pid_witness :
  sys_waitpid demo_close demo_reclaim (λ _ _, mret tt) 50 0 0 demo_psys = Stop BadAccess.
Proof. apply (waitpid_bad_pid demo_close demo_reclaim (λ _ _, mret tt) demo_psys 50 0 0); [by split|by right]. Defined.

Lemma demo_refs i : refs demo_procs i = 0%nat.
Proof.
  unfold demo_procs. rewrite refs_insert by done. rewrite <-insert_empty, refs_insert by done. cbn [fileTable demo_kproc demo_child].
  by rewrite !fd_count_none by (apply Forall_replicate; done).
Qed.

Lemma demo_files : files_ok demo_psys.
Proof.
  assert (∀ i f, systemFileTable demo_psys !! i = Some f → f = mk_openfile None 0 0) as Hf.
  { intros i f H. by apply lookup_replicate in H as [-> _]. }
  split.
  - intros c p [[-> ->]|[-> ->]]%demo_procs_inv; done.
  - intros c p n i [[-> ->]|[-> ->]]%demo_procs_inv Hn; by apply lookup_replicate in Hn as [? _].
  - intros i f ->%Hf. change (k_procs (ps_k demo_psys)) with demo_procs. by rewrite demo_refs.
  - intros i f ->%Hf. done.
Qed.

(** The process with every descriptor open on the same file *)
Definition demo_full_child : proc := set_fileTable (replicate (Z.to_nat OPEN_MAX) (Some 0%nat)) demo_child.
Definition demo_full : psys :=
  set_files (mk_openfile (Some 7) 0 128 :: replicate (Z.to_nat (SYSTEM_OPEN_MAX - 1)) (mk_openfile None 0 0))
    (with_procs {[ 0%nat := demo_kproc; 1%nat := demo_full_child ]} demo_psys).

Lemma demo_full_refs i : refs (k_procs (ps_k demo_full)) i = if decide (i = 0%nat) then 128%nat else 0%nat.
Proof.
  change (k_procs (ps_k demo_full)) with (<[0%nat := demo_kproc]> (<[1%nat := demo_full_child]> (∅ : gmap nat proc))).
  rewrite !refs_insert by done. cbn [fileTable demo_kproc demo_full_child set_fileTable].
  rewrite (fd_count_none i (replicate _ None)) by (apply Forall_replicate; done). case_decide as E; [by subst|].
  rewrite fd_count_other; [done|]. apply Forall_replicate. congruence.
Qed.

Lemma demo_full_procs c p : k_procs (ps_k demo_full) !! c = Some p → (c = 0%nat ∧ p = demo_kproc) ∨ (c = 1%nat ∧ p = demo_full_child).
Proof.
  change (k_procs (ps_k demo_full)) with (<[0%nat := demo_kproc]> (<[1%nat := demo_full_child]> (∅ : gmap nat proc))).
  rewrite !lookup_insert_Some. intros [[<- <-]|[_ [[<- <-]|[_ H]]]]; [by left|by right|done].
Qed.

Lemma demo_full_entry i f : systemFileTable demo_full !! i = Some f →
  (i = 0%nat ∧ f = mk_openfile (Some 7) 0 128) ∨ (i ≠ 0%nat ∧ f = mk_openfile None 0 0).
Proof.
  destruct i as [|i]; [intros [= <-]; by left|]. intros H. right. split; [done|]. by apply lookup_replicate in H as [-> _].
Qed.

Lemma demo_full_files : files_ok demo_full.
Proof.
  split.
  - intros c p [[-> ->]|[-> ->]]%demo_full_procs; done.
  - intros c p n i [[-> ->]|[-> ->]]%demo_full_procs Hn; apply lookup_replicate in Hn as [[=] _]; subst. by eexists.
  - intros i f Hf. rewrite demo_full_refs. apply demo_full_entry in Hf as [[-> ->]|[Hi ->]]; [done|]. by rewrite decide_False.
  - intros i f [[-> ->]|[_ ->]]%demo_full_entry; done.
Qed.

Lemma demo_full_counts f : f ∈ systemFileTable demo_full → 0 ≤ countRef f < 2 ^ 32.
Proof. intros [i [[-> ->]|[_ ->]]%demo_full_entry]%list_elem_of_lookup_1; done. Qed.


Lemma file_table_copy_counts_witness :
  wp (proc_file_table_copy 1 0) (λ _ s', files_ok s' ∧
    k_procs (ps_k s') = <[0%nat := set_fileTable (fileTable demo_full_child) demo_kproc]> (k_procs (ps_k demo_full))) demo_full.
Proof.
  apply (file_table_copy_counts demo_full 1 0 demo_full_child demo_kproc); try done.
  - exact demo_full_files.
  - apply Forall_replicate. done.
  - apply Forall_forall. intros f Hf. by apply demo_full_counts.
  - intros i. rewrite demo_full_refs. destruct (decide (i = 0%nat)) as [->|Hi]; [by vm_compute|].
    rewrite fd_count_other; [done|]. apply Forall_replicate. congruence.
Defined.

(** A process with every descriptor open forks. *)
Definition demo_fork (n : nat) : M (psys (ops := ram_ops)) Z := mret 0.

Lemma demo_full_pids : pids_ok demo_full.
Proof.
  apply (pids_ok_procs demo_psys); [exact demo_pids|done|done|]. intros c.
  destruct c as [|[|c]]; [done|done|]. transitivity (None : option Z); [|symmetry]; apply fmap_None.
  - destruct (_ !! _) as [p|] eqn:E; [|done]. by apply demo_full_procs in E as [[? _]|[? _]].
  - destruct (_ !! _) as [p|] eqn:E; [|done]. by apply demo_procs_inv in E as [[? _]|[? _]].
Qed.

Lemma fork_empties_parent_witness :
  wp (sys_fork demo_close demo_reclaim demo_fork) (λ r s', ∃ n pid, r = (0, Some pid) ∧ k_procs (ps_k demo_full) !! n = None ∧
    fmap fileTable (k_procs (ps_k s')) =
      <[1%nat := replicate (Z.to_nat OPEN_MAX) None]> (<[n := replicate (Z.to_nat OPEN_MAX) None]> (fmap fileTable (k_procs (ps_k demo_full)))) ∧
    systemFileTable s' = systemFileTable demo_full) demo_full.
Proof.
  apply (fork_empties_parent demo_close demo_reclaim demo_fork demo_full 1 demo_full_child demo_as); try done.
  - exact demo_full_pids.
  - exact demo_free_pid.
  - exact demo_full_files.
  - apply Forall_forall. intros f Hf. by apply demo_full_counts.
Defined.
