(* ===== verification/Loadelf.v ===== *)
(** * Starting a program ([kern/syscall/loadelf.c], [kern/syscall/runprogram.c])

    With demand paging [load_elf] reads the headers of the executable and
    defines the segments; pages are read by the faults.  The local variables
    [eh] and [ph], which the headers are read into, are at the kernel
    addresses [eh_ptr] and [ph_ptr]; the structures are big-endian.

    [spec_elf] is what [load_elf] computes, as a function of the bytes of the
    file; [read_elf], [elf_image] and [elf_segment] say what the format means,
    and where the segments defined agree with it: the pages of a segment are
    those of its memory range, and for a header whose address is a multiple of
    the page size the bytes of the part in the file are at their place.  The
    part behind [p_filesz] and headers that are not aligned are not treated
    as the format says ([es_place]). *)

From S2P Require Import Prelude Machine Spinlock Pt PtSpec PtFrames PtTable Kernel Vmstats.
From S2P Require Import Tlb Swapfile Coremap Addrspace Vm VmInv VmSpec Proc.

(** ** The headers ([kern/include/elf.h]) *)

Record Elf_Ehdr : Type := mk_ehdr {
  e_ident : list Z;
  e_type : Z;
  e_machine : Z;
  e_version : Z;
  e_entry : Z;
  e_phoff : Z;
  e_shoff : Z;
  e_flags : Z;
  e_ehsize : Z;
  e_phentsize : Z;
  e_phnum : Z;
  e_shentsize : Z;
  e_shnum : Z;
  e_shstrndx : Z
}.

Record Elf_Phdr : Type := mk_phdr {
  p_type : Z;
  p_offset : Z;
  p_vaddr : Z;
  p_paddr : Z;
  p_filesz : Z;
  p_memsz : Z;
  p_flags : Z;
  p_align : Z
}.

Definition ELF_NIDENT : Z := 16.
Definition SIZEOF_EHDR : Z := 52.
Definition SIZEOF_PHDR : Z := 32.

Definition ehdr_of (l : list Z) : Elf_Ehdr :=
  mk_ehdr (take 16 l) (be16 l 16) (be16 l 18) (be32 l 20) (be32 l 24) (be32 l 28) (be32 l 32) (be32 l 36)
    (be16 l 40) (be16 l 42) (be16 l 44) (be16 l 46) (be16 l 48) (be16 l 50).
Definition phdr_of (l : list Z) : Elf_Phdr :=
  mk_phdr (be32 l 0) (be32 l 4) (be32 l 8) (be32 l 12) (be32 l 16) (be32 l 20) (be32 l 24) (be32 l 28).

(** [EI_MAG0] to [EI_VERSION], and the values they must have *)
Definition elf_ident : list Z := [0x7f; 0x45; 0x4c; 0x46; 1; 2; 1].
Definition EV_CURRENT : Z := 1.
Definition ET_EXEC : Z := 2.
Definition EM_MACHINE : Z := 8.
Definition PT_NULL : Z := 0.
Definition PT_LOAD : Z := 1.
Definition PT_PHDR : Z := 6.
Definition PT_MIPS_REGINFO : Z := 0x70000000.
Definition PF_R : Z := 4.
Definition PF_W : Z := 2.
Definition PF_X : Z := 1.

(** The test for a 32-bit executable of this machine *)
Definition ehdr_valid (eh : Elf_Ehdr) : bool :=
  bool_decide (take 7 (e_ident eh) = elf_ident) && (e_version eh =? EV_CURRENT) && (e_type eh =? ET_EXEC) &&
  (e_machine eh =? EM_MACHINE).

Section loadelf.
Context {ops : VnodeOps}.
Context (eh_ptr ph_ptr : Z).

(** With paging the call of [load_elf] passes NULL. *)
Definition load_segment (as_ : option nat) (v offset vaddr memsize filesize is_executable : Z) : M kernel Z :=
  match as_ with
  | None => mret 0
  | Some c =>
      let filesize := if memsize <? filesize then memsize else filesize in
      r ← VOP_READ v (mk_uio [mk_iovec vaddr memsize] offset filesize
            (if negb (is_executable =? 0) then UIO_USERISPACE else UIO_USERSPACE) UIO_READ (Some c));
      if negb (r.1 =? 0) then mret r.1
      else if negb (uio_resid r.2 =? 0) then mret ENOEXEC
      else mret r.1
  end.

(** Read a structure of [len] bytes at [offset] of the file: an error, or the
    bytes that are then in memory *)
Definition read_struct (v ptr len offset : Z) : M kernel (Z + list Z) :=
  r ← VOP_READ v (uio_kinit ptr len offset UIO_READ);
  if negb (r.1 =? 0) then mret (inl r.1)
  else if negb (uio_resid r.2 =? 0) then mret (inl ENOEXEC)
  else m ← gets k_mem; mret (inr (mem_read m (ptr - MIPS_KSEG0) len)).

(** The address space [load_elf] got from [proc_getas] is the one of the
    current process. *)
Definition put_as (a : addrspace) : M kernel () :=
  cur ← gets k_curproc;
  c ← deref cur;
  p ← get_proc c;
  put_proc c (set_p_addrspace (Some a) p).

Definition get_as : M kernel addrspace :=
  cur ← gets k_curproc;
  c ← deref cur;
  p ← get_proc c;
  deref (p_addrspace p).

(** One segment header *)
Definition load_phdr (v : Z) (as_ : option addrspace) (ph : Elf_Phdr) : M kernel (Z * option addrspace) :=
  if (p_type ph =? PT_NULL) || (p_type ph =? PT_PHDR) || (p_type ph =? PT_MIPS_REGINFO) then mret (0, as_)
  else if negb (p_type ph =? PT_LOAD) then mret (ENOEXEC, as_)
  else
    a ← deref as_;
    r ← as_define_region a (p_vaddr ph) (p_memsz ph) (p_offset ph) (Some v)
          (Z.land (p_flags ph) PF_R) (Z.land (p_flags ph) PF_W) (Z.land (p_flags ph) PF_X);
    put_as r.2 ;;
    load_segment None 0 0 0 0 0 0 ;;
    mret (r.1, Some r.2).

(** The loop over the segment headers *)
Fixpoint load_phdrs (v : Z) (eh : Elf_Ehdr) (as_ : option addrspace) (l : list Z) : M kernel (Z * option addrspace) :=
  match l with
  | [] => mret (0, as_)
  | i :: l =>
      b ← read_struct v ph_ptr SIZEOF_PHDR (u32 (e_phoff eh + i * e_phentsize eh));
      match b with
      | inl e => mret (e, as_)
      | inr bs =>
          r ← load_phdr v as_ (phdr_of bs);
          if negb (r.1 =? 0) then mret r else load_phdrs v eh r.2 l
      end
  end.

(** The result is the error code and the entry point. *)
Definition load_elf (v : Z) : M kernel (Z * option Z) :=
  as_ ← proc_getas;
  b ← read_struct v eh_ptr SIZEOF_EHDR 0;
  match b with
  | inl e => mret (e, None)
  | inr bs =>
      let eh := ehdr_of bs in
      if negb (ehdr_valid eh) then mret (ENOEXEC, None)
      else
        r ← load_phdrs v eh as_ (seqZ 0 (e_phnum eh));
        if negb (r.1 =? 0) then mret (r.1, None)
        else
          result ← match r.2 with Some a => as_prepare_load a | None => mret 0 end;
          if negb (result =? 0) then mret (result, None) else mret (0, Some (e_entry eh))
  end.

(** [runprogram] returns an error, or enters user mode with a stack pointer
    and an entry point. *)
Definition runprogram (vfs_open : Z → Z → Z → M psys (Z * Z)) (vfs_close : Z → M kernel ()) (progname : Z)
    : M psys (Z + Z * Z) :=
  r ← vfs_open progname O_RDONLY 0;
  if negb (r.1 =? 0) then mret (inl r.1)
  else
    let v := r.2 in
    old ← on_k proc_getas;
    kassert (bool_decide (old = None)) "proc_getas() == NULL" ;;
    as_ ← on_k as_create;
    match as_ with
    | None => on_k (vfs_close v) ;; mret (inl ENOMEM)
    | Some a =>
        proc_setas (Some a) ;;
        on_k as_activate ;;
        e ← on_k (load_elf v);
        if negb (e.1 =? 0) then on_k (vfs_close v) ;; mret (inl e.1)
        else
          a ← on_k get_as;
          st ← on_k (as_define_stack a);
          on_k (put_as st.1.2) ;;
          if negb (st.1.1 =? 0) then mret (inl st.1.1)
          else entry ← deref e.2; mret (inr (st.2, entry))
    end.
End loadelf.

(** ** The result as a function of the bytes *)

Section spec.
(** The segment a header describes *)
Definition region (v : Z) (ph : Elf_Phdr) : segment :=
  let sz := u32 (p_memsz ph + Z.land (p_vaddr ph) (Z.lxor PAGE_FRAME 0xffffffff)) in
  let npages := Z.land (u32 (sz + PAGE_SIZE - 1)) PAGE_FRAME / PAGE_SIZE in
  mk_segment npages (Some v) (Some (replicate (Z.to_nat npages) 0)) (p_offset ph) (Z.land (p_vaddr ph) PAGE_FRAME) false
    (s8 (Z.lor (Z.lor (s8 (Z.land (p_flags ph) PF_R)) (Z.land (p_flags ph) PF_W)) (Z.land (p_flags ph) PF_X))).

(** One header, then the headers of a list of places, on an address space *)
Definition spec_phdr (v : Z) (a : addrspace) (ph : Elf_Phdr) : Z * addrspace :=
  if decide (p_type ph = PT_NULL ∨ p_type ph = PT_PHDR ∨ p_type ph = PT_MIPS_REGINFO) then (0, a)
  else if decide (p_type ph = PT_LOAD) then
    match seg1 a, seg2 a with
    | None, _ => (0, set_seg1 (Some (region v ph)) a)
    | Some _, None => (0, set_seg2 (Some (region v ph)) a)
    | Some _, Some _ => (ENOSYS, a)
    end
  else (ENOEXEC, a).

Definition struct_at (data : list Z) (off len : Z) : option (list Z) :=
  if decide (Z.of_nat (length (file_read off len data)) = len) then Some (file_read off len data) else None.

Fixpoint spec_phdrs (v : Z) (data : list Z) (eh : Elf_Ehdr) (a : addrspace) (l : list Z) : Z * addrspace :=
  match l with
  | [] => (0, a)
  | i :: l =>
      match struct_at data (u32 (e_phoff eh + i * e_phentsize eh)) SIZEOF_PHDR with
      | None => (ENOEXEC, a)
      | Some bs =>
          let r := spec_phdr v a (phdr_of bs) in
          if decide (r.1 = 0) then spec_phdrs v data eh r.2 l else r
      end
  end.

(** The whole file: the error or the entry point, and the address space *)
Definition spec_elf (v : Z) (data : list Z) (a : addrspace) : (Z * option Z) * addrspace :=
  match struct_at data 0 SIZEOF_EHDR with
  | None => (ENOEXEC, None, a)
  | Some bs =>
      let eh := ehdr_of bs in
      if ehdr_valid eh then
        let r := spec_phdrs v data eh a (seqZ 0 (e_phnum eh)) in
        if decide (r.1 = 0) then (0, Some (e_entry eh), r.2) else (r.1, None, r.2)
      else (ENOEXEC, None, a)
  end.
End spec.

(** ** The code computes that function *)

Section lemmas.
Context {ops : VnodeOps} {laws : VnodeLaws ops}.
Context (eh_ptr ph_ptr : Z) (k : kernel) (c : nat) (p : proc) (v : Z).
Hypothesis Hq : quiet k.
Hypothesis Hint : t_in_interrupt (k_cpu k) = false.
Hypothesis Hcur : k_curproc k = Some c.
Hypothesis Hml : k_mallocs k = [].
Hypothesis Hv : vnode_ok (k_fs k) v.
Hypothesis Heh : kbuf_ok eh_ptr SIZEOF_EHDR.
Hypothesis Hph : kbuf_ok ph_ptr SIZEOF_PHDR.

(** The bytes of the two local structures *)
Definition locals (x : Z) : Prop :=
  eh_ptr ≤ x + MIPS_KSEG0 < eh_ptr + SIZEOF_EHDR ∨ ph_ptr ≤ x + MIPS_KSEG0 < ph_ptr + SIZEOF_PHDR.

(** The state with address space [a] for the process: besides that, only the
    locals and the internal state of the file system differ from [k]. *)
Record loading (a : addrspace) (k' : kernel) : Prop := {
  ld_state : ∃ m fs, k' = set_k_procs (<[c := set_p_addrspace (Some a) p]> (k_procs k)) (set_k_mem m (set_k_fs fs k));
  ld_data w : file_data (k_fs k') w = file_data (k_fs k) w;
  ld_vnodes w : vnode_ok (k_fs k) w → vnode_ok (k_fs k') w;
  ld_mem x : ¬ locals x → k_mem k' x = k_mem k x
}.

(** Reading one of the structures *)
Lemma read_struct_run a k' ptr len off :
  loading a k' → (ptr = eh_ptr ∧ len = SIZEOF_EHDR ∨ ptr = ph_ptr ∧ len = SIZEOF_PHDR) → 0 ≤ off →
  wp (read_struct v ptr len off) (λ r k'', loading a k'' ∧
    r = match struct_at (file_data (k_fs k) v) off len with Some bs => inr bs | None => inl ENOEXEC end) k'.
Proof using Hv Heh Hph.
  intros [(m & fs & ->) Hd Hvn Hm] Hptr Hoff. cbn [k_fs set_k_procs set_k_mem set_k_fs] in *.
  assert (kbuf_ok ptr len) as Hb by (destruct Hptr as [[-> ->]|[-> ->]]; done).
  destruct (vop_read_law v ptr len off m fs (Hvn v Hv) Hb Hoff) as (u' & fs' & Hr & Hres & Hd' & Hvn').
  rewrite Hd in Hr, Hres. set (bs := file_read off len (file_data (k_fs k) v)) in *.
  pose proof (length_file_read_le off len (file_data (k_fs k) v) ltac:(apply Hb)) as Hle. fold bs in Hle.
  set (m' := mem_write m (ptr - MIPS_KSEG0) bs) in *.
  set (k2 := set_k_procs (<[c := set_p_addrspace (Some a) p]> (k_procs k)) (set_k_mem m' (set_k_fs fs' k))).
  assert (loading a k2) as Hk2.
  { split; [by exists m', fs'|cbn; intros w; by rewrite Hd', Hd|cbn; auto|]. cbn. intros x Hx. unfold m', mem_write.
    rewrite decide_False; [by apply Hm|]. intros Hin. apply Hx. unfold locals. destruct Hptr as [[-> ->]|[-> ->]]; [left|right]; lia. }
  unfold read_struct. apply wp_bind. rewrite (wp_eq _ _ _ (0, u') k2) by (unfold VOP_READ; cbn; by rewrite Hr).
  cbn [fst snd]. change (negb (0 =? 0)) with false. cbv iota. rewrite Hres. unfold struct_at. fold bs. case_decide as E.
  - rewrite E, Z.sub_diag. cbn [Z.eqb negb]. apply wp_bind, wp_gets, wp_ret. split; [done|]. f_equal.
    change (k_mem k2) with m'. rewrite <-E. apply mem_read_write.
  - rewrite (proj2 (Z.eqb_neq _ 0)) by lia. cbn [negb]. by apply wp_ret.
Qed.

(** Allocations do not fail and the processor may sleep. *)
Lemma loading_state a k' : loading a k' →
  k_mallocs k' = [] ∧ k_cpu k' = k_cpu k ∧ k_curproc k' = Some c ∧ k_procs k' = <[c := set_p_addrspace (Some a) p]> (k_procs k).
Proof using Hml Hcur. intros [(m & fs & ->) _ _ _]. by cbn. Qed.

Lemma clear_loaded_run k' n : k_mallocs k' = [] → clear_loaded n k' = Ok (Some (replicate (Z.to_nat n) 0), k').
Proof using. intros H. unfold clear_loaded, kmalloc_ok, mbind, M_bind. by rewrite H. Qed.
Lemma segcreate_run k' : k_mallocs k' = [] → segcreate k' = Ok (Some (mk_segment 0 None None 0 0 false 0), k').
Proof using. intros H. unfold segcreate, kmalloc_ok, mbind, M_bind. by rewrite H. Qed.

Lemma define_region_run a a' k' ph :
  loading a k' → p_type ph = PT_LOAD →
  as_define_region a' (p_vaddr ph) (p_memsz ph) (p_offset ph) (Some v)
    (Z.land (p_flags ph) PF_R) (Z.land (p_flags ph) PF_W) (Z.land (p_flags ph) PF_X) k' = Ok (spec_phdr v a' ph, k').
Proof using Hq Hint Hml Hcur.
  intros Hld Hty. destruct (loading_state a k' Hld) as (Hk' & Hcpu & _). unfold as_define_region.
  rewrite (bind_ok _ _ k' tt k').
  2:{ unfold pt_can_sleep. mred. rewrite Hcpu, (cpu_exists _ (quiet_cpu _ Hq)), (quiet_count _ Hq), Hint. done. }
  unfold spec_phdr. rewrite Hty. cbn zeta. rewrite decide_False, decide_True by (unfold PT_LOAD, PT_NULL, PT_PHDR, PT_MIPS_REGINFO; lia).
  destruct (seg1 a') as [s1|]; [destruct (seg2 a') as [s2|]; [done|]|];
    (run_with (segcreate_run k' Hk'); unfold segdef; rewrite (bind_ok _ _ k' (region v ph) k'); [done|]; by run_with (clear_loaded_run k'
      (Z.land (u32 (u32 (p_memsz ph + Z.land (p_vaddr ph) (Z.lxor PAGE_FRAME 0xffffffff)) + PAGE_SIZE - 1)) PAGE_FRAME / PAGE_SIZE) Hk')).
Qed.

Lemma put_as_run a a' k' : loading a k' → wp (put_as a') (λ _ k'', loading a' k'') k'.
Proof using Hcur.
  intros [(m & fs & ->) H1 H2 H3]. unfold put_as. apply wp_bind, wp_gets, wp_bind, wp_deref. exists c. split; [done|]. apply wp_bind.
  erewrite wp_eq by (apply get_proc_ok; cbn; by rewrite lookup_insert_eq). unfold put_proc. apply wp_modify. cbn in *.
  rewrite insert_insert_eq. split; try done. by exists m, fs.
Qed.

Lemma load_phdr_run a k' ph : loading a k' →
  wp (load_phdr v (Some a) ph) (λ r k'', r = ((spec_phdr v a ph).1, Some (spec_phdr v a ph).2) ∧ loading (spec_phdr v a ph).2 k'') k'.
Proof using Hq Hint Hml Hcur.
  intros Hld. unfold load_phdr.
  destruct (decide (p_type ph = PT_NULL ∨ p_type ph = PT_PHDR ∨ p_type ph = PT_MIPS_REGINFO)) as [Hs|Hs].
  { replace ((p_type ph =? PT_NULL) || (p_type ph =? PT_PHDR) || (p_type ph =? PT_MIPS_REGINFO)) with true.
    - unfold spec_phdr. rewrite decide_True by done. by apply wp_ret.
    - symmetry. rewrite !orb_true_iff, !Z.eqb_eq. tauto. }
  replace ((p_type ph =? PT_NULL) || (p_type ph =? PT_PHDR) || (p_type ph =? PT_MIPS_REGINFO)) with false.
  2:{ symmetry. rewrite !orb_false_iff, !Z.eqb_neq. tauto. }
  destruct (Z.eqb_spec (p_type ph) PT_LOAD) as [Hty|Hty]; cbn [negb].
  - apply wp_bind, wp_deref. exists a. split; [done|]. apply wp_bind. erewrite wp_eq by (by eapply define_region_run).
    apply wp_bind. eapply wp_mono; [by eapply put_as_run|]. intros [] k2 Hk2. apply wp_bind, wp_ret, wp_ret. done.
  - unfold spec_phdr. rewrite !decide_False by done. by apply wp_ret.
Qed.

Lemma load_phdrs_run eh l : ∀ a k', loading a k' →
  wp (load_phdrs ph_ptr v eh (Some a) l) (λ r k'', let x := spec_phdrs v (file_data (k_fs k) v) eh a l in
    r = (x.1, Some x.2) ∧ loading x.2 k'') k'.
Proof using Hq Hint Hml Hcur Hv Heh Hph.
  induction l as [|i l IH]; intros a k' Hld; [by apply wp_ret|]. cbn [load_phdrs spec_phdrs]. apply wp_bind.
  eapply wp_mono; [apply (read_struct_run a k' ph_ptr SIZEOF_PHDR); [done|by right|apply u32_range]|].
  intros r k1 [Hk1 ->]. destruct (struct_at _ _ _) as [bs|]; [|by apply wp_ret]. apply wp_bind.
  eapply wp_mono; [by apply load_phdr_run|]. intros r k2 [-> Hk2]. cbn [fst snd]. destruct (spec_phdr v a (phdr_of bs)) as [e a'].
  cbn [fst snd] in *. case_decide as E.
  - subst e. cbn [Z.eqb negb]. by apply IH.
  - rewrite (proj2 (Z.eqb_neq e 0)) by done. by apply wp_ret.
Qed.

(** [load_elf] is [spec_elf] of the file's bytes. *)
Lemma load_elf_run a k' :
  loading a k' → lock_free (p_lock p) →
  wp (load_elf eh_ptr ph_ptr v) (λ r k'', r = (spec_elf v (file_data (k_fs k) v) a).1 ∧
    loading (spec_elf v (file_data (k_fs k) v) a).2 k'') k'.
Proof using Hq Hint Hml Hcur Hv Heh Hph.
  intros Hld Hl. destruct (loading_state a k' Hld) as (_ & Hcpu & Hcur' & Hprocs). unfold load_elf. apply wp_bind.
  assert (quiet k') as Hq'.
  { destruct Hld as [(m & fs & ->) _ _ _]. by apply (quiet_same k). }
  erewrite wp_eq by (apply (proc_getas_ok k' c (set_p_addrspace (Some a) p) Hq' Hcur'); [by rewrite Hprocs, lookup_insert_eq|done]).
  cbn [p_addrspace set_p_addrspace]. apply wp_bind.
  eapply wp_mono; [apply (read_struct_run a k' eh_ptr SIZEOF_EHDR); [done|by left|done]|]. intros r k1 [Hk1 ->]. unfold spec_elf.
  destruct (struct_at _ _ _) as [bs|]; [|by apply wp_ret]. cbn zeta. destruct (ehdr_valid (ehdr_of bs)); [|by apply wp_ret]. cbn [negb].
  apply wp_bind. eapply wp_mono; [by apply load_phdrs_run|]. cbn zeta. intros r k2 [-> Hk2]. cbn [fst snd].
  destruct (spec_phdrs v _ (ehdr_of bs) a _) as [e a']. cbn [fst snd] in *. case_decide as E.
  - subst e. cbn [Z.eqb negb]. apply wp_bind, wp_ret. cbn [Z.eqb negb]. by apply wp_ret.
  - rewrite (proj2 (Z.eqb_neq e 0)) by done. by apply wp_ret.
Qed.
End lemmas.

(** ** The ELF format *)

Section format.
(** The contents of a file: not an executable for this machine; one whose
    table of headers is cut off; or the entry point and the headers *)
Inductive elf_file : Type :=
  | NotElf
  | Truncated
  | Elf (entry : Z) (phs : list Elf_Phdr).

Definition phdr_at (data : list Z) (eh : Elf_Ehdr) (i : Z) : option Elf_Phdr :=
  phdr_of <$> struct_at data (e_phoff eh + i * e_phentsize eh) SIZEOF_PHDR.

Definition read_elf (data : list Z) : elf_file :=
  match ehdr_of <$> struct_at data 0 SIZEOF_EHDR with
  | Some eh =>
      if ehdr_valid eh then
        match mapM (phdr_at data eh) (seqZ 0 (e_phnum eh)) with
        | Some phs => Elf (e_entry eh) phs
        | None => Truncated
        end
      else NotElf
  | None => NotElf
  end.

(** The table of headers is within the first 4 GB of the file. *)
Definition headers_below (data : list Z) : Prop :=
  let eh := ehdr_of (file_read 0 SIZEOF_EHDR data) in
  ∀ i, 0 ≤ i < e_phnum eh → 0 ≤ e_phoff eh + i * e_phentsize eh < 2 ^ 32.

Definition known_type (ph : Elf_Phdr) : Prop :=
  p_type ph = PT_NULL ∨ p_type ph = PT_LOAD ∨ p_type ph = PT_PHDR ∨ p_type ph = PT_MIPS_REGINFO.
Definition loads (phs : list Elf_Phdr) : list Elf_Phdr := filter (λ ph, p_type ph = PT_LOAD) phs.

(** The byte a header puts at address [va]: of the file up to [p_filesz], then
    zero up to [p_memsz] *)
Definition elf_image (data : list Z) (ph : Elf_Phdr) (va : Z) : option Z :=
  if decide (p_vaddr ph ≤ va < p_vaddr ph + p_filesz ph) then data !! Z.to_nat (p_offset ph + (va - p_vaddr ph))
  else if decide (p_vaddr ph + p_filesz ph ≤ va < p_vaddr ph + p_memsz ph) then Some 0
  else None.

(** The byte of the file a page of a segment gets for address [va] when it is
    loaded *)
Definition seg_byte (data : list Z) (s : segment) (va : Z) : option Z :=
  data !! Z.to_nat (va - startaddr s + elfoffset s).

(** The header describes a range of user addresses. *)
Definition user_header (ph : Elf_Phdr) : Prop :=
  0 ≤ p_vaddr ph ∧ 0 < p_memsz ph ∧ p_vaddr ph + p_memsz ph ≤ MIPS_KSEG0 ∧ 0 ≤ p_offset ph.

(** A segment of file [v] for a header *)
Record elf_segment (data : list Z) (v : Z) (ph : Elf_Phdr) (s : segment) : Prop := {
  es_file : elfdata s = Some v ∧ stackseg s = false;
  es_unloaded : loadedelf s = Some (replicate (Z.to_nat (numpages s)) 0);
  es_flags f : f = PF_R ∨ f = PF_W ∨ f = PF_X → Z.land (permissions s) f = Z.land (p_flags ph) f;
  es_pages va : user_header ph →
    startaddr s ≤ va < seg_end s ↔ ∃ x, p_vaddr ph ≤ x < p_vaddr ph + p_memsz ph ∧ va / PAGE_SIZE = x / PAGE_SIZE;
  es_image va : user_header ph → aligned (p_vaddr ph) → p_vaddr ph ≤ va < p_vaddr ph + p_filesz ph →
    seg_byte data s va = elf_image data ph va;
  es_place va : user_header ph →
    seg_byte data s va = data !! Z.to_nat (p_offset ph + (va - p_vaddr ph) + p_vaddr ph `mod` PAGE_SIZE)
}.

(** The regions for a list of loadable headers *)
Fixpoint put_regions (v : Z) (a : addrspace) (phs : list Elf_Phdr) : Z * addrspace :=
  match phs with
  | [] => (0, a)
  | ph :: phs =>
      match seg1 a, seg2 a with
      | None, _ => put_regions v (set_seg1 (Some (region v ph)) a) phs
      | Some _, None => put_regions v (set_seg2 (Some (region v ph)) a) phs
      | Some _, Some _ => (ENOSYS, a)
      end
  end.

Lemma put_regions_error v phs : ∀ a, (put_regions v a phs).1 = 0 ∨ (put_regions v a phs).1 = ENOSYS.
Proof.
  induction phs as [|ph phs IH]; intros a; cbn; [by left|]. destruct (seg1 a); [destruct (seg2 a); [by right|]|]; apply IH.
Qed.

(** The loop over headers that can all be read *)
Lemma spec_phdrs_all v data eh l : ∀ a phs,
  (∀ i, i ∈ l → 0 ≤ e_phoff eh + i * e_phentsize eh < 2 ^ 32) → mapM (phdr_at data eh) l = Some phs → Forall known_type phs →
  spec_phdrs v data eh a l = put_regions v a (loads phs).
Proof.
  induction l as [|i l IH]; intros a phs Hb Hm Hk; cbn in Hm.
  { by injection Hm as <-. }
  apply bind_Some in Hm as (ph & Hph & Hm). apply bind_Some in Hm as (phs' & Hphs & [= <-]). inversion Hk as [|? ? Hty Hk']; subst.
  unfold phdr_at in Hph. apply fmap_Some in Hph as (bs & Hbs & ->). cbn [spec_phdrs]. rewrite u32_id by (apply Hb; by left). rewrite Hbs.
  specialize (λ a, IH a phs' ltac:(intros; apply Hb; by right) Hphs Hk'). unfold loads. rewrite filter_cons. unfold spec_phdr.
  destruct (decide (p_type (phdr_of bs) = PT_NULL ∨ p_type (phdr_of bs) = PT_PHDR ∨ p_type (phdr_of bs) = PT_MIPS_REGINFO)) as [E|E].
  - cbn [fst snd]. rewrite (decide_True (P := 0 = 0)) by done. rewrite decide_False; [done|].
    unfold PT_LOAD, PT_NULL, PT_PHDR, PT_MIPS_REGINFO in *. lia.
  - assert (p_type (phdr_of bs) = PT_LOAD) as El by (destruct Hty as [?|[?|?]]; tauto).
    rewrite !(decide_True (P := p_type (phdr_of bs) = PT_LOAD)) by done. cbn [put_regions].
    destruct (seg1 a); [destruct (seg2 a)|]; cbn [fst snd]; [done|by rewrite (decide_True (P := 0 = 0))..].
Qed.

(** Otherwise there is an error. *)
Lemma spec_phdrs_bad v data eh l : ∀ a,
  (∀ i, i ∈ l → 0 ≤ e_phoff eh + i * e_phentsize eh < 2 ^ 32) →
  (∀ phs, mapM (phdr_at data eh) l = Some phs → ¬ Forall known_type phs) →
  (spec_phdrs v data eh a l).1 = ENOEXEC ∨ (spec_phdrs v data eh a l).1 = ENOSYS.
Proof.
  induction l as [|i l IH]; intros a Hb Hbad; [by destruct (Hbad [])|]. cbn [spec_phdrs]. rewrite u32_id by (apply Hb; by left).
  destruct (struct_at _ _ _) as [bs|] eqn:Hbs; [|by left].
  destruct (decide ((spec_phdr v a (phdr_of bs)).1 = 0)) as [E|E].
  - apply IH; [intros; apply Hb; by right|]. intros phs Hphs Hall. apply (Hbad (phdr_of bs :: phs)).
    + assert (phdr_at data eh i = Some (phdr_of bs)) as Hi by (unfold phdr_at; by rewrite Hbs).
      cbn. rewrite Hi. cbn. by rewrite Hphs.
    + constructor; [|done]. unfold spec_phdr in E. unfold known_type. repeat case_decide; try tauto. done.
  - unfold spec_phdr in *. repeat case_decide; try done; [|by left]. destruct (seg1 a); [destruct (seg2 a)|]; try done. by right.
Qed.

(** The place of a region, without the wrap-around of its computation *)
Lemma region_place v ph : user_header ph →
  startaddr (region v ph) = p_vaddr ph - p_vaddr ph `mod` PAGE_SIZE ∧
  numpages (region v ph) = (p_memsz ph + p_vaddr ph `mod` PAGE_SIZE + PAGE_SIZE - 1) / PAGE_SIZE.
Proof.
  intros (H0 & H1 & H2 & _). unfold MIPS_KSEG0 in H2. cbn [startaddr numpages region].
  assert (Z.land (p_vaddr ph) (Z.lxor PAGE_FRAME 0xffffffff) = p_vaddr ph `mod` PAGE_SIZE) as ->.
  { change (Z.lxor PAGE_FRAME 0xffffffff) with (Z.ones 12). apply Z.land_ones. lia. }
  pose proof (Z.mod_pos_bound (p_vaddr ph) PAGE_SIZE ltac:(done)) as Hm.
  assert (p_vaddr ph `mod` PAGE_SIZE ≤ p_vaddr ph) as Hle by (by apply Z.mod_le).
  rewrite !land_PAGE_FRAME by (try apply u32_range; unfold PAGE_SIZE in *; lia). split; [done|].
  rewrite (u32_id (p_memsz ph + _)), u32_id by (unfold PAGE_SIZE in *; lia).
  set (x := p_memsz ph + p_vaddr ph `mod` PAGE_SIZE + PAGE_SIZE - 1). pose proof (Z.div_mod x PAGE_SIZE ltac:(done)) as Hx.
  replace (x - x `mod` PAGE_SIZE) with (x / PAGE_SIZE * PAGE_SIZE) by lia. by apply Z.div_mul.
Qed.

Lemma region_flags v ph f : f = PF_R ∨ f = PF_W ∨ f = PF_X → Z.land (permissions (region v ph)) f = Z.land (p_flags ph) f.
Proof.
  intros Hf. cbn [permissions region]. set (y := Z.land (p_flags ph) 7).
  assert (∀ g, g = PF_R ∨ g = PF_W ∨ g = PF_X → Z.land (p_flags ph) g = Z.land y g) as Hy.
  { intros g Hg. unfold y. rewrite <-Z.land_assoc. by destruct Hg as [->|[->| ->]]. }
  rewrite !Hy by tauto.
  assert (0 ≤ y < 8) as Hr by (unfold y; rewrite (Z.land_ones _ 3) by lia; by apply Z.mod_pos_bound). clearbody y.
  assert (y = 0 ∨ y = 1 ∨ y = 2 ∨ y = 3 ∨ y = 4 ∨ y = 5 ∨ y = 6 ∨ y = 7) as Hc by lia.
  destruct Hf as [->|[->| ->]]; destruct Hc as [->|[->|[->|[->|[->|[->|[->| ->]]]]]]]; reflexivity.
Qed.

Lemma region_segment data v ph : elf_segment data v ph (region v ph).
Proof.
  split; [done|done|apply region_flags| | |].
  - intros va Hu. destruct (region_place v ph Hu) as [Hs Hn]. destruct Hu as (H0 & H1 & H2 & _). unfold seg_end. rewrite Hs, Hn.
    unfold MIPS_KSEG0, PAGE_SIZE in *. split.
    + intros Hva. destruct (decide (va < p_vaddr ph)); [exists (p_vaddr ph)|destruct (decide (va < p_vaddr ph + p_memsz ph)); [exists va|exists (p_vaddr ph + p_memsz ph - 1)]];
        (split; [lia|]); Z.div_mod_to_equations; lia.
    + intros (x & Hx & E). Z.div_mod_to_equations; lia.
  - intros va Hu Hal Hva. unfold seg_byte, elf_image. rewrite decide_True by done. destruct (region_place v ph Hu) as [-> _].
    unfold aligned in Hal. rewrite Hal. cbn. f_equal. lia.
  - intros va Hu. unfold seg_byte. destruct (region_place v ph Hu) as [-> _]. cbn. f_equal. lia.
Qed.

(** What [load_elf] computes is what the format says. *)
Definition regions (a : addrspace) : list segment := omap id [seg1 a; seg2 a].

Lemma put_regions_new v a phs : seg1 a = None → seg2 a = None →
  if decide (length phs ≤ 2)%nat then
    (put_regions v a phs).1 = 0 ∧ regions (put_regions v a phs).2 = region v <$> phs ∧ segstack (put_regions v a phs).2 = segstack a
  else (put_regions v a phs).1 = ENOSYS.
Proof.
  intros H1 H2. destruct phs as [|p1 [|p2 [|p3 phs]]]; cbn; rewrite ?H1, ?H2; cbn; rewrite ?H1, ?H2; done.
Qed.

Lemma spec_elf_format v data a :
  seg1 a = None → seg2 a = None → headers_below data →
  let x := spec_elf v data a in
  match read_elf data with
  | NotElf => x = (ENOEXEC, None, a)
  | Truncated => (x.1.1 = ENOEXEC ∨ x.1.1 = ENOSYS) ∧ x.1.2 = None
  | Elf entry phs =>
      (Forall known_type phs → (length (loads phs) ≤ 2)%nat →
        x.1 = (0, Some entry) ∧ regions x.2 = region v <$> loads phs ∧ segstack x.2 = segstack a) ∧
      (Forall known_type phs → (2 < length (loads phs))%nat → x.1 = (ENOSYS, None)) ∧
      (¬ Forall known_type phs → (x.1.1 = ENOEXEC ∨ x.1.1 = ENOSYS) ∧ x.1.2 = None)
  end.
Proof.
  intros H1 H2 Hb. cbn zeta. unfold read_elf, spec_elf, headers_below in *.
  destruct (struct_at data 0 SIZEOF_EHDR) as [bs|] eqn:Hbs; cbn [fmap option_fmap option_map]; [|done].
  assert (bs = file_read 0 SIZEOF_EHDR data) as Ebs by (unfold struct_at in Hbs; case_decide; congruence). rewrite <-Ebs in Hb.
  destruct (ehdr_valid (ehdr_of bs)); [|done]. set (eh := ehdr_of bs) in *. set (l := seqZ 0 (e_phnum eh)).
  assert (∀ i, i ∈ l → 0 ≤ e_phoff eh + i * e_phentsize eh < 2 ^ 32) as Hl.
  { intros i Hi%elem_of_seqZ. apply Hb. lia. }
  assert (∀ e (a' : addrspace), e = ENOEXEC ∨ e = ENOSYS → let x := if decide (e = 0) then (0, Some (e_entry eh), a') else (e, None, a') in
    (x.1.1 = ENOEXEC ∨ x.1.1 = ENOSYS) ∧ x.1.2 = None) as Herr.
  { intros e a' He. rewrite decide_False by (destruct He as [->| ->]; done). done. }
  destruct (mapM (phdr_at data eh) l) as [phs|] eqn:Hm; [split; [|split]|].
  - intros Hk Hn. rewrite (spec_phdrs_all v data eh l a phs Hl Hm Hk). pose proof (put_regions_new v a (loads phs) H1 H2) as Hp.
    rewrite decide_True in Hp by done. destruct Hp as (-> & Hreg & Hst). by rewrite decide_True.
  - intros Hk Hn. rewrite (spec_phdrs_all v data eh l a phs Hl Hm Hk). pose proof (put_regions_new v a (loads phs) H1 H2) as Hp.
    rewrite decide_False in Hp by lia. by rewrite Hp, decide_False.
  - intros Hk. apply Herr, spec_phdrs_bad; [done|]. congruence.
  - apply Herr, spec_phdrs_bad; [done|]. congruence.
Qed.
End format.
