(* ===== verification/LoadProps.v ===== *)
(** * Starting a program gives an address space the pager can serve

    [load_elf] compared with the ELF format, and [runprogram]: on an executable
    it can run it leaves the system in a state that satisfies the invariant of
    page faults, so that the theorems of [VmProps] apply from the first
    instruction on, and the pages will get the bytes of the program. *)

From S2P Require Import Prelude Machine Spinlock Pt PtSpec PtFrames PtTable Kernel Vmstats.
From S2P Require Import Tlb Swapfile Coremap Addrspace Vm VmInv VmSpec VmDemo Proc ProcLife Loadelf.

Section run.
Context {ops : VnodeOps} {laws : VnodeLaws ops}.
Context (eh_ptr ph_ptr : Z).

(** The TLB after [as_activate] *)
Definition activated (pid : Z) (k : kernel) : kernel :=
  if pid =? lastpid (k_tlb k) then k
  else set_k_stats (stats_incr TLBINVALIDATION (k_stats k)) (set_k_tlb tlb_flushed k).

Lemma activated_inv pid k q : vm_inv None k q → vm_inv None (activated pid k) q.
Proof using.
  intros H. unfold activated. case_match; [done|]. destruct H as [H1 H2 H3 H4 H5 H6 H7 H8]. split; try done.
  - by apply (quiet_same k).
  - by apply (cm_wf_same k).
  - destruct H3; by split.
  - cbn. by rewrite length_stats_incr.
  - apply tlb_flushed_wf.
  - intros va pa w Hva. cbn. by rewrite translate_flushed.
Qed.

Lemma activated_owned pid k : tlb_owned (k_tlb (activated pid k)) pid.
Proof using.
  unfold activated. destruct (Z.eqb_spec pid (lastpid (k_tlb k))); [by left|]. right. exact translate_flushed.
Qed.

(** The stored pages are not where the local structures are. *)
Definition locals_apart (q : queue) : Prop :=
  ∀ key i x, q_lookup key q = Some i → Z.of_nat i * PAGE_SIZE ≤ x < Z.of_nat i * PAGE_SIZE + PAGE_SIZE → ¬ locals eh_ptr ph_ptr x.

(** What reading the headers leaves unchanged *)
Lemma loading_inv k c p a k' q :
  loading eh_ptr ph_ptr k c p a k' → vm_inv None k q → vm_inv None k' q.
Proof using.
  intros [(m & fs & ->) Hd Hv Hm] [H1 H2 H3 H4 H5 H6 H7 H8]. split; try done.
  - by apply (quiet_same k).
  - by apply (cm_wf_same k).
  - destruct H3 as [S1 S2 S3 S4 S5]. split; [done|done|done| |by apply Hv]. intros j sp Hj Ho. cbn in *. rewrite Hd. by apply (S4 j sp).
Qed.

Lemma loading_contents k c p a k' q key :
  loading eh_ptr ph_ptr k c p a k' → locals_apart q → contents k' q key = contents k q key.
Proof using.
  intros [(m & fs & ->) Hd Hv Hm] Hap. unfold contents. destruct (q_lookup key q) as [i|] eqn:E.
  - f_equal. apply mem_read_ext. intros x Hx. apply Hm. by apply (Hap key i).
  - unfold swap_contents. cbn in *. by rewrite Hd.
Qed.

Lemma loading_elf k c p a k' s : loading eh_ptr ph_ptr k c p a k' → elf_ok k s → elf_ok k' s.
Proof using.
  intros [(m & fs & ->) Hd Hv Hm] (vn & H1 & H2 & H3 & H4). exists vn. cbn in *. auto 10.
Qed.

(** A loadable header the system can treat: the address a multiple of the page
    size, the memory below the stack *)
Record region_ok (ph : Elf_Phdr) : Prop := {
  ro_user : user_header ph;
  ro_aligned : aligned (p_vaddr ph);
  ro_filesz : 0 ≤ p_filesz ph ≤ p_memsz ph;
  ro_below : p_vaddr ph + p_memsz ph ≤ USERSTACK - STACKPAGES * PAGE_SIZE
}.

(** The pages of a region end before the next page boundary. *)
Lemma region_end v ph b : region_ok ph → aligned b → p_vaddr ph + p_memsz ph ≤ b → seg_end (region v ph) ≤ b.
Proof using.
  intros [Hu Hal _ _] Hb Hle. destruct (region_place v ph Hu) as [Hs Hn]. destruct Hu as (H0 & H1 & _). unfold seg_end. rewrite Hs, Hn.
  unfold aligned, PAGE_SIZE in *. Z.div_mod_to_equations. lia.
Qed.

Lemma region_start v ph : region_ok ph → startaddr (region v ph) = p_vaddr ph.
Proof using. intros [Hu Hal _ _]. destruct (region_place v ph Hu) as [-> _]. unfold aligned in Hal. lia. Qed.

Lemma region_wf v ph : region_ok ph → seg_wf (region v ph).
Proof using.
  intros Hr. pose proof Hr as [Hu Hal _ Hb]. destruct (region_place v ph Hu) as [_ Hn]. pose proof Hu as (H0 & H1 & _). split.
  - rewrite Hn. unfold PAGE_SIZE in *. Z.div_mod_to_equations. lia.
  - by rewrite region_start.
  - by rewrite region_start.
  - etrans; [apply (region_end v ph (USERSTACK - STACKPAGES * PAGE_SIZE) Hr); [done|done]|]. unfold STACKPAGES, PAGE_SIZE. lia.
  - eexists. split; [done|]. cbn. by rewrite length_replicate.
Qed.

Lemma region_elf k v ph : region_ok ph → vnode_ok (k_fs k) v → v ≠ k_swapfile k → elf_ok k (region v ph).
Proof using. intros [(_ & _ & _ & Ho) _ _ _] Hv Hne. exists v. by cbn. Qed.

(** The pages of a region get the bytes of the program, up to [p_filesz]. *)
Lemma region_bytes k v ph va : region_ok ph → p_vaddr ph ≤ va < p_vaddr ph + p_filesz ph →
  file_bytes k (region v ph) (Z.land va PAGE_FRAME) !! Z.to_nat (va `mod` PAGE_SIZE) = elf_image (file_data (k_fs k) v) ph va.
Proof using.
  intros Hr Hva. pose proof Hr as [Hu Hal Hf _]. pose proof Hu as (H0 & H1 & H2 & H3).
  rewrite <-(es_image _ _ _ _ (region_segment (file_data (k_fs k) v) v ph) va Hu Hal Hva).
  pose proof (Z.mod_pos_bound va PAGE_SIZE ltac:(done)) as Hm. assert (va `mod` PAGE_SIZE ≤ va) by (apply Z.mod_le; [lia|done]).
  unfold file_bytes, file_read, seg_byte. cbn [elfdata region default]. rewrite lookup_take_lt by lia. rewrite lookup_drop. f_equal.
  rewrite land_PAGE_FRAME by (unfold MIPS_KSEG0 in *; lia). rewrite region_start by done. cbn [elfoffset region].
  unfold aligned, PAGE_SIZE in *. Z.div_mod_to_equations. lia.
Qed.

(** ** The run *)

Definition empty_as : addrspace := mk_addrspace None None None.
Definition stack_seg : segment :=
  mk_segment STACKPAGES None (Some (replicate (Z.to_nat STACKPAGES) 0)) 0 (USERSTACK - STACKPAGES * PAGE_SIZE) true
    (s8 (Z.lor (Z.lor (s8 RDFLAG) WRFLAG) 0)).
Definition prog_as (v : Z) (ph1 ph2 : Elf_Phdr) : addrspace :=
  mk_addrspace (Some (region v ph1)) (Some (region v ph2)) (Some stack_seg).

(** A new process, and an executable with two loadable headers, [ph1] and
    [ph2], whose memory does not overlap; no allocation fails. *)
Record startable (s : psys) (q : queue) (c : nat) (p : proc) (v : Z) (ph1 ph2 : Elf_Phdr) (entry : Z) : Prop := {
  sb_sys : sys_inv (ps_k s) q;
  sb_int : t_in_interrupt (k_cpu (ps_k s)) = false;
  sb_cur : k_curproc (ps_k s) = Some c;
  sb_proc : k_procs (ps_k s) !! c = Some p;
  sb_none : p_addrspace p = None;
  sb_pid : 0 < p_pid p;
  sb_unique c' p' : k_procs (ps_k s) !! c' = Some p' → is_Some (p_addrspace p') → p_pid p' ≠ p_pid p;
  sb_fresh va : contents (ps_k s) q (p_pid p, va) = None;
  sb_malloc : k_mallocs (ps_k s) = [];
  sb_vnode : vnode_ok (k_fs (ps_k s)) v;
  sb_file : v ≠ k_swapfile (ps_k s);
  sb_eh : kbuf_ok eh_ptr SIZEOF_EHDR;
  sb_ph : kbuf_ok ph_ptr SIZEOF_PHDR;
  sb_apart : locals_apart q;
  sb_elf : ∃ phs, read_elf (file_data (k_fs (ps_k s)) v) = Elf entry phs ∧ Forall known_type phs ∧ loads phs = [ph1; ph2];
  sb_table : headers_below (file_data (k_fs (ps_k s)) v);
  sb_r1 : region_ok ph1;
  sb_r2 : region_ok ph2;
  sb_order : p_vaddr ph1 + p_memsz ph1 ≤ p_vaddr ph2 ∨ p_vaddr ph2 + p_memsz ph2 ≤ p_vaddr ph1
}.

Lemma startable_elf s q c p v ph1 ph2 entry : startable s q c p v ph1 ph2 entry →
  spec_elf v (file_data (k_fs (ps_k s)) v) empty_as =
    (0, Some entry, mk_addrspace (Some (region v ph1)) (Some (region v ph2)) None).
Proof using.
  intros Hst. destruct (sb_elf _ _ _ _ _ _ _ _ Hst) as (phs & He & Hk & Hl).
  pose proof (spec_elf_format v (file_data (k_fs (ps_k s)) v) empty_as eq_refl eq_refl (sb_table _ _ _ _ _ _ _ _ Hst)) as Hx.
  cbn zeta in Hx. rewrite He in Hx. destruct Hx as (Hx & _). rewrite Hl in Hx. specialize (Hx Hk ltac:(cbn; lia)).
  destruct (spec_elf _ _ _) as [x [[g1|] [g2|] st]]; cbn in Hx; destruct Hx as (-> & Hreg & Hs); try done. cbn in Hreg. by simplify_eq.
Qed.

Lemma wp_on_k {A} (m : M kernel A) a k' Q (s : psys) : m (ps_k s) = Ok (a, k') → Q a (set_ps_k k' s) → wp (on_k m) Q s.
Proof using. intros Hm HQ. unfold on_k. apply wp_zoom. by erewrite wp_eq by exact Hm. Qed.

Lemma set_ps_k_id (s : psys) : set_ps_k (ps_k s) s = s.
Proof using. by destruct s. Qed.

Lemma proc_setas_run (s : psys) c p a Q :
  quiet (ps_k s) → k_curproc (ps_k s) = Some c → k_procs (ps_k s) !! c = Some p → lock_free (p_lock p) →
  Q (p_addrspace p) (with_procs (<[c := set_p_addrspace a p]> (k_procs (ps_k s))) s) → wp (proc_setas a) Q s.
Proof using.
  intros Hq Hcur Hp Hl HQ. unfold proc_setas. apply wp_bind, wp_gets. rewrite Hcur. apply wp_bind, wp_ret, wp_bind.
  eapply wp_plock_acquire; [apply Hq|apply Hq|exact Hp|done|]. apply wp_bind. eapply wp_pget; [cbn; by rewrite lookup_insert_eq|].
  apply wp_bind, wp_pput, wp_bind.
  eapply (wp_plock_release _ _ (k_cpu (ps_k s))); [apply Hq|apply Hq|done|cbn; by rewrite lookup_insert_eq|done|].
  apply wp_ret. cbn. rewrite !insert_insert_eq. unfold lock_free in Hl. destruct s as [[] ? ? ? ? ? ? ? ?], p. cbn in *. by subst.
Qed.

Lemma define_stack_run k a : k_mallocs k = [] → as_define_stack a k = Ok (0, set_segstack (Some stack_seg) a, USERSTACK, k).
Proof using.
  intros H. unfold as_define_stack. run_with (segcreate_run k H). unfold segdef.
  rewrite (bind_ok _ _ k stack_seg k) by (by run_with (clear_loaded_run k STACKPAGES H)). done.
Qed.

(** The state after the program is loaded *)
Lemma runprogram_run vfs_open vfs_close progname (s0 s : psys) q c p v ph1 ph2 entry :
  vfs_open progname O_RDONLY 0 s0 = Ok (0, v, s) → startable s q c p v ph1 ph2 entry →
  wp (runprogram eh_ptr ph_ptr vfs_open vfs_close progname) (λ r s', r = inr (USERSTACK, entry) ∧
    loading eh_ptr ph_ptr (activated (p_pid p) (ps_k s)) c p (prog_as v ph1 ph2) (ps_k s')) s0.
Proof using.
  intros Hopen Hst. pose proof (startable_elf _ _ _ _ _ _ _ _ Hst) as B15.
  destruct Hst as [B1 B2 B3 B4 B5 B6 B7 B8 B9 B10 B11 B12 B13 B14 _ _ B16 B17 B18]. pose proof (si_vm _ _ B1) as Hvm.
  pose proof (vi_quiet _ _ _ Hvm) as Hq. pose proof (si_lock _ _ B1 c p B4) as Hl.
  unfold runprogram. apply wp_bind. erewrite wp_eq by exact Hopen. cbn [fst snd]. change (negb (0 =? 0)) with false. cbv iota zeta.
  apply wp_bind. eapply wp_on_k; [by apply (proc_getas_ok _ c p)|]. rewrite set_ps_k_id, B5. apply wp_bind, wp_kassert. split; [done|].
  apply wp_bind. eapply (wp_on_k _ (Some empty_as) (ps_k s)); [unfold as_create, kmalloc_ok, mbind, M_bind; by rewrite B9|].
  rewrite set_ps_k_id. apply wp_bind. apply (proc_setas_run s c p); [done..|]. set (p1 := set_p_addrspace (Some empty_as) p).
  set (k1 := set_k_procs (<[c := p1]> (k_procs (ps_k s))) (ps_k s)). apply wp_bind.
  eapply (wp_on_k _ tt).
  { apply (as_activate_ok k1 c p1 empty_as); try done.
    - by apply (quiet_same (ps_k s)).
    - cbn. by rewrite lookup_insert_eq.
    - apply Hvm.
    - apply Hvm. }
  set (kb := activated (p_pid p) (ps_k s)).
  match goal with |- wp _ _ (set_ps_k ?k2 _) => assert (k2 = set_k_procs (<[c := p1]> (k_procs kb)) kb) as -> end.
  { unfold kb, activated. change (p_pid p1) with (p_pid p). change (k_tlb k1) with (k_tlb (ps_k s)). by case_match. }
  assert (k_fs kb = k_fs (ps_k s) ∧ k_cpu kb = k_cpu (ps_k s) ∧ k_mallocs kb = [] ∧ k_curproc kb = Some c) as (F1 & F2 & F3 & F4).
  { unfold kb, activated. by case_match. }
  assert (quiet kb) as Hqb by apply (activated_inv (p_pid p) _ _ Hvm).
  assert (loading eh_ptr ph_ptr kb c p empty_as (set_k_procs (<[c := p1]> (k_procs kb)) kb)) as Hstart.
  { split; [exists (k_mem kb), (k_fs kb); by destruct kb|done|done|done]. }
  apply wp_bind. unfold on_k at 1. apply wp_zoom.
  eapply wp_mono; [apply (load_elf_run eh_ptr ph_ptr kb c p v Hqb); rewrite ?F1, ?F2; done|].
  rewrite F1, B15. cbn beta. cbn [fst snd]. intros r k2 [-> Hk2]. change (negb ((0, Some entry).1 =? 0)) with false. cbv iota.
  destruct (loading_state eh_ptr ph_ptr kb c p F4 F3 _ _ Hk2) as (G1 & G2 & G3 & G4).
  apply wp_bind. eapply (wp_on_k _ _ k2).
  { apply wp_result. unfold get_as. apply wp_bind, wp_gets. cbn [ps_k set_ps_k]. rewrite G3. apply wp_bind, wp_deref. exists c. split; [done|].
    apply wp_bind. erewrite wp_eq by (apply get_proc_ok; rewrite G4; by rewrite lookup_insert_eq). apply wp_deref.
    eexists. by split. }
  apply wp_bind. eapply (wp_on_k _ _ k2); [by apply define_stack_run|]. apply wp_bind. unfold on_k. apply wp_zoom.
  eapply wp_mono; [by apply (put_as_run eh_ptr ph_ptr kb c p F4 _ (prog_as v ph1 ph2) k2 Hk2)|]. intros [] k3 Hk3. cbn [fst snd].
  change (negb (0 =? 0)) with false. cbv iota. apply wp_bind, wp_deref. exists entry. split; [done|]. by apply wp_ret.
Qed.

(** The address space of the program *)
Lemma prog_as_wf v ph1 ph2 :
  region_ok ph1 → region_ok ph2 → p_vaddr ph1 + p_memsz ph1 ≤ p_vaddr ph2 ∨ p_vaddr ph2 + p_memsz ph2 ≤ p_vaddr ph1 →
  as_wf (prog_as v ph1 ph2) (region v ph1) (region v ph2) stack_seg.
Proof using.
  intros H1 H2 Hord. split; try done; [by apply region_wf|by apply region_wf| | |].
  - split; try done.
    all: try (by vm_compute). eexists. split; [done|]. cbn. by rewrite length_replicate.
  - split; (apply region_end; [done|done|]); [apply H1|apply H2].
  - rewrite !region_start by done. destruct Hord as [Ho|Ho]; [left|right]; (apply region_end; [done| |done]); [apply H2|apply H1].
Qed.

(** Nothing is loaded, and there is no page of the process. *)
Lemma prog_as_loaded k q pid v ph1 ph2 :
  (∀ va, contents k q (pid, va) = None) → loaded_ok k q pid (prog_as v ph1 ph2).
Proof using.
  intros Hf w s l n b Hs Hl Hb. rewrite Hf. assert (b = 0) as ->; [|split; [by left|split; [done|by intros [? ?]]]].
  destruct w; cbn [get_seg seg1 seg2 segstack prog_as] in Hs; apply (inj Some) in Hs as <-;
    cbn [loadedelf region stack_seg] in Hl; apply (inj Some) in Hl as <-; by apply lookup_replicate in Hb as [-> _].
Qed.

Lemma loading_sys k c p v ph1 ph2 k' q :
  loading eh_ptr ph_ptr k c p (prog_as v ph1 ph2) k' → sys_inv k q → locals_apart q →
  k_procs k !! c = Some p → p_addrspace p = None → 0 < p_pid p →
  (∀ c' p', k_procs k !! c' = Some p' → is_Some (p_addrspace p') → p_pid p' ≠ p_pid p) →
  (∀ va, contents k q (p_pid p, va) = None) → vnode_ok (k_fs k) v → v ≠ k_swapfile k →
  region_ok ph1 → region_ok ph2 → p_vaddr ph1 + p_memsz ph1 ≤ p_vaddr ph2 ∨ p_vaddr ph2 + p_memsz ph2 ≤ p_vaddr ph1 →
  sys_inv k' q.
Proof using.
  intros Hld [H1 H2 H3 H4] Hap Hp Hnone Hpid Huniq Hfresh Hv Hne Hr1 Hr2 Hord.
  pose proof (λ key, loading_contents _ _ _ _ _ q key Hld Hap) as Hct.
  assert (k_procs k' = <[c := set_p_addrspace (Some (prog_as v ph1 ph2)) p]> (k_procs k)) as Hprocs.
  { destruct Hld as [(m & fs & ->) _ _ _]. done. }
  split.
  - by eapply loading_inv.
  - intros c' p'. rewrite Hprocs. intros [[<- <-]|[_ Hp']]%lookup_insert_Some; [exact (H2 c p Hp)|by apply (H2 c')].
  - intros c' p' a'. rewrite Hprocs. intros [[<- <-]|[_ Hp']]%lookup_insert_Some.
    + cbn. intros [= <-]. split; [done|]. exists (region v ph1), (region v ph2), stack_seg. split; [by apply prog_as_wf|].
      split; [by eapply loading_elf, region_elf|]. split; [by eapply loading_elf, region_elf|]. apply prog_as_loaded.
      intros va. by rewrite Hct.
    + intros Ha. destruct (H3 c' p' a' Hp' Ha) as [Hp0 (s1 & s2 & st & G1 & G2 & G3 & G4)]. split; [done|]. exists s1, s2, st.
      split; [done|]. split; [by eapply loading_elf|]. split; [by eapply loading_elf|].
      intros w s l n b Hs Hl Hb. rewrite Hct. by eapply G4.
  - intros c1 c2 p1 p2. rewrite Hprocs. intros [[<- <-]|[Hne1 Hp1]]%lookup_insert_Some [[<- <-]|[Hne2 Hp2]]%lookup_insert_Some Ha1 Ha2 E; cbn in E.
    + done.
    + by destruct (Huniq c2 p2 Hp2 Ha2).
    + by destruct (Huniq c1 p1 Hp1 Ha1).
    + by apply (H4 c1 c2 p1 p2).
Qed.

(** C27. [runprogram] on an executable with two loadable headers, at addresses
    that are multiples of the page size and below the stack, when no allocation
    fails: it enters user mode at the entry point with the stack pointer at the
    top of the stack, and leaves the system ready for page faults.  The process
    has the two regions of the headers and a stack, none of their pages loaded;
    the invariant of the whole system holds, the TLB belongs to the process, and
    the pages of all other processes hold what they held.  A page of a region,
    when it is first touched, will get the bytes the ELF format puts there, up
    to [p_filesz]; not so the page just behind the first region, if the second
    one starts there, and nothing is said of the bytes behind [p_filesz], which
    are not cleared. *)
Theorem runprogram_ready vfs_open vfs_close progname (s0 s : psys) q c p v ph1 ph2 entry :
  vfs_open progname O_RDONLY 0 s0 = Ok (0, v, s) → startable s q c p v ph1 ph2 entry →
  wp (runprogram eh_ptr ph_ptr vfs_open vfs_close progname) (λ r s', r = inr (USERSTACK, entry) ∧
    k_procs (ps_k s') = <[c := set_p_addrspace (Some (prog_as v ph1 ph2)) p]> (k_procs (ps_k s)) ∧
    sys_inv (ps_k s') q ∧ tlb_owned (k_tlb (ps_k s')) (p_pid p) ∧ (∀ key, contents (ps_k s') q key = contents (ps_k s) q key) ∧
    ∀ ph va, ph = ph1 ∨ ph = ph2 → p_vaddr ph ≤ va < p_vaddr ph + p_filesz ph →
      Z.land va PAGE_FRAME ≠ seg_end (region v ph1) →
      initial_bytes (ps_k s') (prog_as v ph1 ph2) (region v ph) (Z.land va PAGE_FRAME) !! Z.to_nat (va `mod` PAGE_SIZE) =
        elf_image (file_data (k_fs (ps_k s)) v) ph va) s0.
Proof using.
  intros Hopen Hst. eapply wp_mono; [by eapply runprogram_run|]. intros r s' [-> Hld]. split; [done|].
  set (kb := activated (p_pid p) (ps_k s)) in *. destruct Hst as [B1 B2 B3 B4 B5 B6 B7 B8 B9 B10 B11 B12 B13 B14 _ _ B16 B17 B18].
  assert (k_procs kb = k_procs (ps_k s) ∧ k_fs kb = k_fs (ps_k s) ∧ k_swapfile kb = k_swapfile (ps_k s) ∧
    ∀ key, contents kb q key = contents (ps_k s) q key) as (F1 & F2 & F3 & F4).
  { unfold kb, activated. by case_match. }
  assert (sys_inv kb q) as Hsys.
  { destruct B1 as [S1 S2 S3 S4]. split; [by apply activated_inv|by rewrite F1| |by rewrite F1].
    intros c' p' a'. rewrite F1. intros Hp' Ha'. destruct (S3 c' p' a' Hp' Ha') as [Hp0 Has]. split; [done|].
    unfold kb, activated. by case_match. }
  split; [|split; [|split; [|split]]].
  - destruct Hld as [(m & fs & ->) _ _ _]. cbn. by rewrite F1.
  - eapply (loading_sys kb c p v ph1 ph2); try done; rewrite ?F1, ?F2, ?F3; try done; auto. intros va. by rewrite F4.
  - destruct Hld as [(m & fs & ->) _ _ _]. apply activated_owned.
  - intros key. by rewrite (loading_contents _ _ _ _ _ _ _ Hld B14), F4.
  - intros ph va Hph Hva Hne. pose proof (ld_data _ _ _ _ _ _ _ Hld v) as Hd. rewrite F2 in Hd. rewrite <-Hd.
    unfold initial_bytes, source_seg. cbn [stackseg region seg1 prog_as]. rewrite decide_False by done.
    apply region_bytes; [destruct Hph as [->| ->]; done|done].
Qed.

End run.

(** ** A program

    An executable with a page of code at 0x400000 and a page of data at
    0x10000000, in file 7, and a new process. *)
Definition demo_ph1 : Elf_Phdr := mk_phdr PT_LOAD 0 0x400000 0 0x120 0x120 5 0x1000.
Definition demo_ph2 : Elf_Phdr := mk_phdr PT_LOAD 0x1000 0x10000000 0 0x40 0x80 6 0x1000.
Definition phdr_bytes (ph : Elf_Phdr) : list Z :=
  be32_bytes (p_type ph) ++ be32_bytes (p_offset ph) ++ be32_bytes (p_vaddr ph) ++ be32_bytes (p_paddr ph) ++
  be32_bytes (p_filesz ph) ++ be32_bytes (p_memsz ph) ++ be32_bytes (p_flags ph) ++ be32_bytes (p_align ph).
Definition demo_header : list Z :=
  elf_ident ++ replicate 9 0 ++ be16_bytes ET_EXEC ++ be16_bytes EM_MACHINE ++ be32_bytes EV_CURRENT ++
  be32_bytes 0x400040 ++ be32_bytes 52 ++ be32_bytes 0 ++ be32_bytes 0 ++ be16_bytes 52 ++ be16_bytes 32 ++ be16_bytes 2 ++
  be16_bytes 0 ++ be16_bytes 0 ++ be16_bytes 0 ++ phdr_bytes demo_ph1 ++ phdr_bytes demo_ph2.
Definition demo_elf_file (w : Z) : list Z :=
  if decide (w = 7) then demo_header ++ replicate (Z.to_nat (2 * PAGE_SIZE) - length demo_header) 1 else [].

Definition demo_new : proc := mk_proc "sh" SPINLOCK_INITIALIZER 1 None None 0 2 (Some 0) [].
Definition demo_exec : psys :=
  mk_psys (started {[ 1%nat := demo_new ]} 1 8 (booted 64 4 (set_k_fs (demo_elf_file : fsstate) raw_kernel)))
    (mk_ptable 1 [] 0 SPINLOCK_INITIALIZER) None ∅ [] ∅ 1 [] [].

Lemma demo_exec_vm : vm_inv None (ps_k demo_exec) [] ∧ ∀ key, contents (ps_k demo_exec) [] key = None.
Proof.
  apply started_vm; [apply booted_quiet; by apply (quiet_same raw_kernel _ raw_quiet)| |done|by vm_compute|done].
  apply booted_wf; unfold PAGE_SIZE; lia.
Qed.

Lemma demo_exec_proc c p : k_procs (ps_k demo_exec) !! c = Some p → c = 1%nat ∧ p = demo_new.
Proof.
  intros Hp. change (({[ 1%nat := demo_new ]} : gmap nat proc) !! c = Some p) in Hp. by apply lookup_singleton_Some in Hp as [<- <-].
Qed.

Lemma demo_file_elf : ∃ phs, read_elf (file_data (k_fs (ps_k demo_exec)) 7) = Elf 0x400040 phs ∧ Forall known_type phs ∧
  loads phs = [demo_ph1; demo_ph2].
Proof.
  exists [demo_ph1; demo_ph2]. split; [by vm_compute|]. split; [|by vm_compute].
  repeat constructor; by right; left.
Qed.

Lemma demo_headers : headers_below (file_data (k_fs (ps_k demo_exec)) 7).
Proof.
  unfold headers_below. set (eh := ehdr_of _). assert (e_phoff eh = 52 ∧ e_phentsize eh = 32 ∧ e_phnum eh = 2) as (-> & -> & ->) by (by vm_compute).
  lia.
Qed.

Lemma demo_startable : startable 0x80000100 0x80000200 demo_exec [] 1 demo_new 7 demo_ph1 demo_ph2 0x400040.
Proof.
  assert (∀ ph, ph = demo_ph1 ∨ ph = demo_ph2 → region_ok ph) as Hr.
  { intros ph [-> | ->]; split; unfold user_header; cbn; unfold MIPS_KSEG0, USERSTACK, USERSPACETOP, STACKPAGES, PAGE_SIZE; (done || lia). }
  split; [|done|done|done|done|done| | |done|done|done|unfold kbuf_ok, MIPS_KSEG0, SIZEOF_EHDR; lia|unfold kbuf_ok, MIPS_KSEG0, SIZEOF_PHDR; lia|done|
    exact demo_file_elf|exact demo_headers|by apply Hr; left|by apply Hr; right|left; cbn; lia].
  - split; [apply demo_exec_vm|by intros c p [-> ->]%demo_exec_proc|by intros c p a [-> ->]%demo_exec_proc|].
    by intros c c' p p' [-> ->]%demo_exec_proc [-> ->]%demo_exec_proc.
  - intros c p [-> ->]%demo_exec_proc. by intros [? ?].
  - intros va. apply demo_exec_vm.
Qed.

Lemma runprogram_ready_witness :
  wp (runprogram 0x80000100 0x80000200 (λ _ _ _, mret (0, 7)) (λ _, mret tt) 0) (λ r s', r = inr (USERSTACK, 0x400040) ∧
    k_procs (ps_k s') = <[1%nat := set_p_addrspace (Some (prog_as 7 demo_ph1 demo_ph2)) demo_new]> (k_procs (ps_k demo_exec)) ∧
    sys_inv (ps_k s') [] ∧ tlb_owned (k_tlb (ps_k s')) 2 ∧ (∀ key, contents (ps_k s') [] key = contents (ps_k demo_exec) [] key) ∧
    ∀ va, 0x10000000 ≤ va < 0x10000040 →
      initial_bytes (ps_k s') (prog_as 7 demo_ph1 demo_ph2) (region 7 demo_ph2) (Z.land va PAGE_FRAME) !! Z.to_nat (va `mod` PAGE_SIZE) =
        elf_image (file_data (k_fs (ps_k demo_exec)) 7) demo_ph2 va) demo_exec.
Proof.
  eapply wp_mono; [apply (runprogram_ready 0x80000100 0x80000200 (λ _ _ _, mret (0, 7)) (λ _, mret tt) 0 demo_exec demo_exec [] 1 demo_new 7 demo_ph1 demo_ph2 0x400040);
    [done|exact demo_startable]|].
  intros r s' (H1 & H2 & H3 & H4 & H5 & H6). split_and!; [exact H1|exact H2|exact H3|exact H4|exact H5|].
  intros va Hva. apply H6; [by right|exact Hva|]. change (seg_end (region 7 demo_ph1)) with 0x401000.
  rewrite land_PAGE_FRAME by lia. unfold PAGE_SIZE. Z.div_mod_to_equations. lia.
Defined.

(** The same program loaded by a process whose address space is still empty *)
Definition demo_opened : kernel := set_k_procs {[ 1%nat := set_p_addrspace (Some empty_as) demo_new ]} (ps_k demo_exec).

Lemma quiet_procs ps k : quiet k → quiet (set_k_procs ps k).
Proof. intros Hq. by apply (quiet_same k). Qed.

Lemma set_k_procs_same ps k : let k' := set_k_procs ps k in
  k_cpu k' = k_cpu k ∧ k_curproc k' = k_curproc k ∧ k_mallocs k' = k_mallocs k ∧ k_fs k' = k_fs k ∧ k_procs k' = ps.
Proof. done. Qed.

Lemma demo_opened_ok : quiet demo_opened ∧ t_in_interrupt (k_cpu demo_opened) = false ∧ k_curproc demo_opened = Some 1%nat ∧
  k_mallocs demo_opened = [] ∧ vnode_ok (k_fs demo_opened) 7 ∧ k_procs demo_opened !! 1%nat = Some (set_p_addrspace (Some empty_as) demo_new) ∧
  k_fs demo_opened = k_fs (ps_k demo_exec).
Proof.
  destruct (set_k_procs_same {[ 1%nat := set_p_addrspace (Some empty_as) demo_new ]} (ps_k demo_exec)) as (E1 & E2 & E3 & E4 & E5).
  fold demo_opened in E1, E2, E3, E4, E5. rewrite E1, E2, E3, E4, E5.
  destruct demo_startable as [B1 B2 B3 B4 B5 B6 B7 B8 B9 B10 B11 B12 B13 B14 B15 B16 B17 B18 B19].
  split; [apply quiet_procs, (vi_quiet _ _ _ (proj1 demo_exec_vm))|]. rewrite lookup_singleton_eq.
  split_and!; [exact B2|exact B3|exact B9|exact B10|reflexivity|reflexivity].
Qed.

