(* ===== verification/Syscall.v ===== *)
(** * System call dispatch ([kern/arch/mips/syscall/syscall.c])

    [syscall] takes the number and the arguments from the registers saved at
    the trap, calls the handler of [Syscalls], and leaves the result in the
    registers.  [sys_reboot] and [sys___time] are arguments. *)

From S2P Require Import Prelude Machine Spinlock Pt PtSpec PtFrames PtTable Kernel Vmstats.
From S2P Require Import Tlb Swapfile Coremap Addrspace VmDemo Proc Syscalls ProcLife Files ProcProps.

(** Of [struct trapframe] the registers a system call uses *)
Record trapframe : Type := mk_tf { tf_v0 : Z; tf_a0 : Z; tf_a1 : Z; tf_a2 : Z; tf_a3 : Z; tf_epc : Z }.

Definition SYS_fork : Z := 0.
Definition SYS__exit : Z := 3.
Definition SYS_waitpid : Z := 4.
Definition SYS_getpid : Z := 5.
Definition SYS_open : Z := 45.
Definition SYS_close : Z := 49.
Definition SYS_read : Z := 50.
Definition SYS_write : Z := 55.
Definition SYS_remove : Z := 68.
Definition SYS___time : Z := 113.
Definition SYS_reboot : Z := 119.

Section syscall.
Context {ops : VnodeOps}.
Context (vfs_open : Z → Z → Z → M psys (Z * Z)) (vfs_close : Z → M kernel ()).
Context (vop_reclaim : Z → M psys Z) (thread_fork : nat → M psys Z).
Context (load_user : Z → M psys Z) (store_user : Z → Z → M psys ()).
Context (sys_reboot : Z → M psys Z) (sys___time : Z → Z → M psys Z).

(** [curthread] is outside critical sections. *)
Definition user_level : M psys () :=
  c ← gets (λ s, k_cpu (ps_k s));
  kassert (t_curspl c =? 0) "curthread->t_curspl == 0" ;;
  kassert (t_iplhigh_count c =? 0) "curthread->t_iplhigh_count == 0".

(** A handler whose result is an error when negative *)
Definition or_error (e : Z) (m : M psys Z) : M psys (Z * Z) :=
  retval ← m;
  mret (if retval <? 0 then e else 0, retval).

(** The switch: the values of [err] and [retval] after it *)
Definition syscall_switch (tf : trapframe) : M psys (Z * Z) :=
  let callno := s32 (tf_v0 tf) in
  if callno =? SYS_reboot then err ← sys_reboot (tf_a0 tf); mret (err, 0)
  else if callno =? SYS___time then err ← sys___time (tf_a0 tf) (tf_a1 tf); mret (err, 0)
  else if callno =? SYS_open then
    r ← sys_open vfs_open vfs_close (tf_a0 tf) (s32 (tf_a1 tf)) (tf_a2 tf);
    mret (default 0 r.2, r.1)
  else if callno =? SYS_close then or_error ENOENT (sys_close vfs_close (s32 (tf_a0 tf)))
  else if callno =? SYS_remove then mret (0, 0)
  else if callno =? SYS_write then or_error ENOSYS (sys_write load_user (s32 (tf_a0 tf)) (tf_a1 tf) (tf_a2 tf))
  else if callno =? SYS_read then or_error ENOSYS (sys_read store_user (s32 (tf_a0 tf)) (tf_a1 tf) (tf_a2 tf))
  else if callno =? SYS__exit then sys__exit (s32 (tf_a0 tf)) ;; mret (0, 0)
  else if callno =? SYS_waitpid then
    or_error ENOSYS (sys_waitpid vfs_close vop_reclaim store_user (s32 (tf_a0 tf)) (tf_a1 tf) (s32 (tf_a2 tf)))
  else if callno =? SYS_getpid then or_error ENOSYS sys_getpid
  else if callno =? SYS_fork then
    r ← sys_fork vfs_close vop_reclaim thread_fork;
    mret (r.1, default 0 r.2)
  else mret (ENOSYS, 0).

(** The registers with the result, and the program counter advanced *)
Definition set_result (err retval : Z) (tf : trapframe) : trapframe :=
  mk_tf (u32 (if negb (err =? 0) then err else retval)) (tf_a0 tf) (tf_a1 tf) (tf_a2 tf)
    (if negb (err =? 0) then 1 else 0) (u32 (tf_epc tf + 4)).

Definition syscall (tf : trapframe) : M psys trapframe :=
  user_level ;;
  r ← syscall_switch tf;
  user_level ;;
  mret (set_result r.1 r.2 tf).

(** The registers of the child of a fork when it returns to user mode *)
Definition enter_forked_process (tf : trapframe) : M psys trapframe :=
  on_k as_activate ;;
  mret (mk_tf 0 (tf_a0 tf) (tf_a1 tf) (tf_a2 tf) 0 (u32 (tf_epc tf + 4))).

(** ** What the caller sees *)

Definition at_user_level (s : psys) : Prop := t_curspl (k_cpu (ps_k s)) = 0 ∧ t_iplhigh_count (k_cpu (ps_k s)) = 0.

Lemma wp_user_level Q (s : psys) : at_user_level s → Q tt s → wp user_level Q s.
Proof using.
  intros [H1 H2] HQ. unfold user_level. apply wp_bind, wp_gets, wp_bind, wp_kassert. rewrite H1. split; [done|].
  apply wp_kassert. by rewrite H2.
Qed.

(** A number that is no system call *)
Lemma syscall_unknown (s : psys) tf :
  at_user_level s →
  s32 (tf_v0 tf) ∉ [SYS_fork; SYS__exit; SYS_waitpid; SYS_getpid; SYS_open; SYS_close; SYS_read; SYS_write; SYS_remove; SYS___time; SYS_reboot] →
  syscall tf s = Ok (mk_tf ENOSYS (tf_a0 tf) (tf_a1 tf) (tf_a2 tf) 1 (u32 (tf_epc tf + 4)), s).
Proof using.
  rewrite !not_elem_of_cons. intros Hu (H0 & H1 & H2 & H3 & H4 & H5 & H6 & H7 & H8 & H9 & H10 & _). apply wp_result. unfold syscall.
  apply wp_bind, wp_user_level; [done|]. apply wp_bind. unfold syscall_switch. cbn zeta.
  repeat rewrite (proj2 (Z.eqb_neq _ _)) by done. apply wp_ret, wp_bind, wp_user_level; [done|]. by apply wp_ret.
Qed.

Lemma syscall_close_switch tf : s32 (tf_v0 tf) = SYS_close →
  syscall_switch tf = or_error ENOENT (sys_close vfs_close (s32 (tf_a0 tf))).
Proof using. intros H. unfold syscall_switch. by rewrite H. Qed.

(** C29. The system call [close] seen from user mode: on an open descriptor it
    returns 0 without error, with the counts of all open files right and the
    open file freed with its last descriptor; on any other one it returns the
    error [ENOENT] (the manual page says [EBADF]) and changes nothing.  The
    program continues after the call, and the argument registers are kept. *)
Theorem syscall_close (s : psys) c p tf :
  at_user_level s → s32 (tf_v0 tf) = SYS_close → 0 ≤ s32 (tf_a0 tf) < OPEN_MAX →
  closes vfs_close → files_ok s → (∀ f, f ∈ systemFileTable s → countRef f < 2 ^ 32) →
  k_curproc (ps_k s) = Some c → k_procs (ps_k s) !! c = Some p →
  wp (syscall tf) (λ tf' s', tf_epc tf' = u32 (tf_epc tf + 4) ∧
    tf_a0 tf' = tf_a0 tf ∧ tf_a1 tf' = tf_a1 tf ∧ tf_a2 tf' = tf_a2 tf ∧
    match fileTable p !! Z.to_nat (s32 (tf_a0 tf)) with
    | Some (Some i) => tf_v0 tf' = 0 ∧ tf_a3 tf' = 0 ∧ files_ok s' ∧
        k_procs (ps_k s') = <[c := set_fileTable (<[Z.to_nat (s32 (tf_a0 tf)) := None]> (fileTable p)) p]> (k_procs (ps_k s)) ∧
        ∀ f', systemFileTable s' !! i = Some f' → (of_vn f' = None ↔ refs (k_procs (ps_k s')) i = 0%nat)
    | _ => tf_v0 tf' = ENOENT ∧ tf_a3 tf' = 1 ∧ s' = s
    end) s.
Proof using.
  intros Hu Hno Hfd Hcl Hok Hbig Hcur Hp. unfold syscall. apply wp_bind, wp_user_level; [done|]. apply wp_bind.
  rewrite syscall_close_switch by done. unfold or_error. apply wp_bind.
  pose proof (sys_close_run vfs_close s c p _ Hcl Hok Hbig Hcur Hp Hfd) as Hrun.
  destruct (fileTable p !! Z.to_nat (s32 (tf_a0 tf))) as [[i|]|] eqn:Ef.
  2,3: erewrite wp_eq by exact Hrun; apply wp_ret, wp_bind, wp_user_level; [exact Hu|]; apply wp_ret; repeat split.
  destruct Hrun as (f & fs' & Hi & Hrun). erewrite wp_eq by exact Hrun. apply wp_ret, wp_bind, wp_user_level; [exact Hu|]. apply wp_ret.
  destruct (closed_files s c p _ i f fs' Hok Hp Ef Hi) as (G1 & G2 & G3).
  split_and!; [reflexivity..| | |]; assumption.
Qed.
End syscall.

(** The call [close(5)] of a process with all its descriptors open *)
Definition demo_tf : trapframe := mk_tf SYS_close 5 0 0 0 0.

Lemma syscall_close_witness : ∃ tf' s',
  syscall demo_open demo_close (λ _, mret 0) (λ _, mret 0) (λ _, mret 0) (λ _ _, mret tt) (λ _, mret 0) (λ _ _, mret 0) demo_tf demo_full
    = Ok (tf', s') ∧ tf_v0 tf' = 0 ∧ tf_epc tf' = 4 ∧ files_ok s'.
Proof.
  assert (s32 (tf_v0 demo_tf) = SYS_close) as Hno by by vm_compute.
  assert (0 ≤ s32 (tf_a0 demo_tf) < OPEN_MAX) as Hfd by by vm_compute.
  pose proof (syscall_close demo_open demo_close (λ _, mret 0) (λ _, mret 0) (λ _, mret 0) (λ _ _, mret tt) (λ _, mret 0) (λ _ _, mret 0)
    demo_full 1 demo_full_child demo_tf (conj eq_refl eq_refl) Hno Hfd demo_closes demo_full_files
    (λ f Hf, proj2 (demo_full_counts f Hf)) eq_refl eq_refl) as (tf' & s' & Hrun & H)%wp_run.
  exists tf', s'. split; [exact Hrun|]. destruct H as (He & _ & _ & _ & H).
  change (fileTable demo_full_child !! Z.to_nat (s32 (tf_a0 demo_tf))) with (Some (Some 0%nat)) in H. cbn beta iota in H.
  destruct H as (Hv & _ & Hok & _). split; [exact Hv|]. split; [exact He|exact Hok].
Defined.
