(* ===== verification/Kmalloc.v ===== *)
(** * The kernel heap ([kern/vm/kmalloc.c])

    Blocks smaller than half a page come from pages that hold blocks of one
    size; a free block starts with the address of the next free one.  Each
    such page has a descriptor ([struct pageref]), itself in a page of
    descriptors, on a list of all pages and on one of the pages of its size.
    Free lists and descriptors are words of kernel memory, as in the code.

    The pages come from the class [PageSource], which stands for
    [alloc_kpages], [free_kpages], the lock [kmalloc_spinlock] and memory; the
    model is the configuration the file selects, without SLOW, SLOWER, GUARDS,
    LABELS, CHECKBEEF and CHECKGUARDS. *)

From S2P Require Import Prelude Machine.

(** What the heap uses of the rest of the kernel *)
Class PageSource (T : Type) := {
  word_at : T → Z → Z;
  set_word : Z → Z → T → T;
  heap_lock : M T ();
  heap_unlock : M T ();
  kpages_alloc : Z → M T Z;
  kpages_free : Z → M T ()
}.

(** ** Data *)

Definition sizes : list Z := [16; 32; 64; 128; 256; 512; 1024; 2048].
Definition NSIZES : Z := 8.
Definition SMALLEST_SUBPAGE_SIZE : Z := 16.
Definition LARGEST_SUBPAGE_SIZE : Z := 2048.
Definition INVALID_OFFSET : Z := 0xffff.
Definition SIZEOF_PAGEREF : Z := 16.
Definition NPAGEREFS_PER_PAGE : Z := PAGE_SIZE / SIZEOF_PAGEREF.
Definition INUSE_WORDS : Z := NPAGEREFS_PER_PAGE / 32.
Definition NUM_PAGEREFPAGES : Z := 16.

(** [~PAGE_FRAME] *)
Definition PAGE_OFFSET : Z := Z.lxor PAGE_FRAME 0xffffffff.
Definition MKPAB (pa blk : Z) : Z := Z.lor (Z.land pa PAGE_FRAME) (Z.land blk PAGE_OFFSET).

Record kheap_root : Type := mk_root { r_page : Z; pagerefs_inuse : list Z; numinuse : Z }.

Section kmalloc.
Context {T : Type} {src : PageSource T}.

Record kheap : Type := mk_kheap {
  kh_t : T;
  kheaproots : list kheap_root;
  sizebases : list Z;
  allbase : Z
}.
(** Static storage starts as zeros. *)
Definition empty_heap (t : T) : kheap := mk_kheap t (replicate 16 (mk_root 0 (replicate 8 0) 0)) (replicate 8 0) 0.

Definition set_kh_t (t : T) (h : kheap) : kheap := mk_kheap t (kheaproots h) (sizebases h) (allbase h).
Definition set_kheaproots (l : list kheap_root) (h : kheap) : kheap := mk_kheap (kh_t h) l (sizebases h) (allbase h).
Definition set_sizebases (l : list Z) (h : kheap) : kheap := mk_kheap (kh_t h) (kheaproots h) l (allbase h).
Definition set_allbase (p : Z) (h : kheap) : kheap := mk_kheap (kh_t h) (kheaproots h) (sizebases h) p.

Definition on_t {A} (m : M T A) : M kheap A := zoom kh_t set_kh_t m.

(** Kernel code reaches its memory at addresses from [MIPS_KSEG0] on. *)
Definition ldw (a : Z) : M kheap Z :=
  if a <? MIPS_KSEG0 then halt BadAccess else gets (λ h, word_at (kh_t h) a).
Definition stw (a w : Z) : M kheap () :=
  if a <? MIPS_KSEG0 then halt BadAccess else modify (λ h, set_kh_t (set_word a w (kh_t h)) h).

(** The fields of a [struct pageref]; the last two share a word. *)
Definition get_next_samesize (pr : Z) : M kheap Z := ldw pr.
Definition set_next_samesize (pr x : Z) : M kheap () := stw pr x.
Definition get_next_all (pr : Z) : M kheap Z := ldw (pr + 4).
Definition set_next_all (pr x : Z) : M kheap () := stw (pr + 4) x.
Definition get_pageaddr_and_blocktype (pr : Z) : M kheap Z := ldw (pr + 8).
Definition set_pageaddr_and_blocktype (pr x : Z) : M kheap () := stw (pr + 8) x.
Definition get_freelist_offset (pr : Z) : M kheap Z := w ← ldw (pr + 12); mret (w / 2 ^ 16).
Definition set_freelist_offset (pr x : Z) : M kheap () :=
  w ← ldw (pr + 12); stw (pr + 12) (u16 x * 2 ^ 16 + w `mod` 2 ^ 16).
Definition get_nfree (pr : Z) : M kheap Z := w ← ldw (pr + 12); mret (w `mod` 2 ^ 16).
Definition set_nfree (pr x : Z) : M kheap () :=
  w ← ldw (pr + 12); stw (pr + 12) ((w / 2 ^ 16) * 2 ^ 16 + u16 x).

Definition PR_PAGEADDR (pr : Z) : M kheap Z := x ← get_pageaddr_and_blocktype pr; mret (Z.land x PAGE_FRAME).
Definition PR_BLOCKTYPE (pr : Z) : M kheap Z := x ← get_pageaddr_and_blocktype pr; mret (Z.land x PAGE_OFFSET).

Definition get_root (w : Z) : M kheap kheap_root := l ← gets kheaproots; deref (l !! Z.to_nat w).
Definition put_root (w : Z) (r : kheap_root) : M kheap () :=
  modify (λ h, set_kheaproots (<[Z.to_nat w := r]> (kheaproots h)) h).
Definition get_sizebase (blktype : Z) : M kheap Z := l ← gets sizebases; deref (l !! Z.to_nat blktype).
Definition put_sizebase (blktype p : Z) : M kheap () :=
  modify (λ h, set_sizebases (<[Z.to_nat blktype := p]> (sizebases h)) h).

(** The entry of [sizes] for a block type *)
Definition size_of (blktype : Z) : Z := default 0 (sizes !! Z.to_nat blktype).

(** ** Operations *)

Definition fill_deadbeef (vptr len : Z) : M kheap () :=
  for_list (seqZ 0 (len / 4)) (λ i, stw (vptr + i * 4) 0xdeadbeef).

(** [alloc_kpages] is called without the lock: the descriptor page may have
    appeared in between. *)
Definition allocpagerefpage (w : Z) : M kheap () :=
  root ← get_root w;
  kassert (r_page root =? 0) "root->page == NULL" ;;
  on_t heap_unlock ;;
  va ← on_t (kpages_alloc 1);
  on_t heap_lock ;;
  if va =? 0 then mret tt
  else
    kassert (va `mod` PAGE_SIZE =? 0) "va % PAGE_SIZE == 0" ;;
    root ← get_root w;
    if negb (r_page root =? 0) then
      on_t heap_unlock ;;
      on_t (kpages_free va) ;;
      on_t heap_lock ;;
      root ← get_root w;
      kassert (negb (r_page root =? 0)) "root->page != NULL"
    else put_root w (mk_root va (pagerefs_inuse root) (numinuse root)).

(** Take the descriptor of bit [j] of word [i]. *)
Definition take_ref (w i j : Z) : M kheap Z :=
  root ← get_root w;
  word ← deref (pagerefs_inuse root !! Z.to_nat i);
  put_root w (mk_root (r_page root) (<[Z.to_nat i := Z.lor word (2 ^ j)]> (pagerefs_inuse root)) (u32 (numinuse root + 1))) ;;
  root ← get_root w;
  (if r_page root =? 0 then allocpagerefpage w else mret tt) ;;
  root ← get_root w;
  if r_page root =? 0 then mret 0 else mret (r_page root + (i * 32 + j) * SIZEOF_PAGEREF).

(** The bits of one word, and the words of one page of descriptors *)
Definition scan_bits (w i : Z) : M kheap (option Z) :=
  for_some (seqZ 0 32) (λ j,
    root ← get_root w;
    word ← deref (pagerefs_inuse root !! Z.to_nat i);
    if Z.land word (2 ^ j) =? 0 then p ← take_ref w i j; mret (Some p) else mret None).
Definition scan_words (w : Z) : M kheap (option Z) :=
  for_some (seqZ 0 INUSE_WORDS) (λ i,
    root ← get_root w;
    word ← deref (pagerefs_inuse root !! Z.to_nat i);
    if word =? 0xffffffff then mret None
    else
      r ← scan_bits w i;
      match r with
      | Some p => mret (Some p)
      | None => halt (AssertFail "0")
      end).
Definition allocpageref : M kheap Z :=
  r ← for_some (seqZ 0 NUM_PAGEREFPAGES) (λ w,
        root ← get_root w;
        if NPAGEREFS_PER_PAGE <=? numinuse root then mret None else scan_words w);
  mret (default 0 r).

Definition freepageref (p : Z) : M kheap () :=
  r ← for_some (seqZ 0 NUM_PAGEREFPAGES) (λ w,
        root ← get_root w;
        if r_page root =? 0 then kassert (numinuse root =? 0) "root->numinuse == 0" ;; mret None
        else
          let j := u32 (s32 (u32 (p - r_page root)) / SIZEOF_PAGEREF) in
          if j <? NPAGEREFS_PER_PAGE then
            let i := j / 32 in
            let k := 2 ^ (j `mod` 32) in
            word ← deref (pagerefs_inuse root !! Z.to_nat i);
            kassert (negb (Z.land word k =? 0)) "(root->pagerefs_inuse[i] & k) != 0" ;;
            kassert (0 <? numinuse root) "root->numinuse > 0" ;;
            put_root w (mk_root (r_page root) (<[Z.to_nat i := Z.land word (Z.lxor k 0xffffffff)]> (pagerefs_inuse root))
              (numinuse root - 1)) ;;
            mret (Some tt)
          else mret None);
  match r with
  | Some _ => mret tt
  | None => halt (AssertFail "0")
  end.

(** The variable [guy] points to the base of a list or to the link of a
    descriptor, at offset [off]. *)
Inductive link : Type := LBase | LNext (pr : Z).
Definition remove_list (get_base : M kheap Z) (put_base : Z → M kheap ()) (off pr : Z) : M kheap () :=
  while (λ guy,
    x ← match guy with LBase => get_base | LNext q => ldw (q + off) end;
    if x =? 0 then mret (inr tt)
    else if x =? pr then
      next ← ldw (pr + off);
      match guy with LBase => put_base next | LNext q => stw (q + off) next end ;;
      mret (inr tt)
    else mret (inl (LNext x))) LBase.

Definition remove_lists (pr blktype : Z) : M kheap () :=
  kassert ((0 <=? blktype) && (blktype <? NSIZES)) "blktype>=0 && blktype<NSIZES" ;;
  remove_list (get_sizebase blktype) (put_sizebase blktype) 0 pr ;;
  remove_list (gets allbase) (λ p, modify (set_allbase p)) 4 pr.

Definition blocktype (clientsz : Z) : M kheap Z :=
  r ← for_some (seqZ 0 NSIZES) (λ i, mret (if clientsz <=? size_of i then Some i else None));
  match r with
  | Some i => mret i
  | None => halt (Panic "Subpage allocator cannot handle allocation of size")
  end.

(** From the label [doalloc] on *)
Definition doalloc (pr : Z) : M kheap Z :=
  off ← get_freelist_offset pr;
  kassert (off <? PAGE_SIZE) "pr->freelist_offset < PAGE_SIZE" ;;
  prpage ← PR_PAGEADDR pr;
  let fla := u32 (prpage + off) in
  fl ← ldw fla;
  n ← get_nfree pr;
  set_nfree pr (n - 1) ;;
  n ← get_nfree pr;
  (if negb (fl =? 0) then
     kassert (0 <? n) "pr->nfree > 0" ;;
     kassert (u32 (fl - prpage) <? PAGE_SIZE) "fla - prpage < PAGE_SIZE" ;;
     set_freelist_offset pr (u32 (fl - prpage))
   else
     kassert (n =? 0) "pr->nfree == 0" ;;
     set_freelist_offset pr INVALID_OFFSET) ;;
  on_t heap_unlock ;;
  mret fla.

(** The search for a page of the size with a free block *)
Definition find_page (blktype pr : Z) : M kheap (option Z) :=
  while (λ pr,
    if pr =? 0 then mret (inr None)
    else
      t ← PR_BLOCKTYPE pr;
      kassert (t =? blktype) "PR_BLOCKTYPE(pr) == blktype" ;;
      n ← get_nfree pr;
      if 0 <? n then mret (inr (Some pr))
      else next ← get_next_samesize pr; mret (inl next)) pr.

(** Chain the blocks of a new page: the loop variables are [i] and [fl]. *)
Definition chain_blocks (pr fla blktype : Z) : M kheap Z :=
  stw fla 0 ;;
  while (λ '(i, fl),
    n ← get_nfree pr;
    if i <? n then
      let fl := u32 (fla + i * size_of blktype) in
      let next := u32 (fla + (i - 1) * size_of blktype) in
      stw fl next ;;
      kassert (negb (fl =? next)) "fl != fl->next" ;;
      mret (inl (i + 1, fl))
    else mret (inr fl)) (1, fla).

(** Set up the page [prpage] with the new descriptor [pr], put it on the lists
    and allocate from it. *)
Definition new_page (pr prpage blktype : Z) : M kheap Z :=
  set_pageaddr_and_blocktype pr (MKPAB prpage blktype) ;;
  set_nfree pr (PAGE_SIZE / size_of blktype) ;;
  fl ← chain_blocks pr prpage blktype;
  set_freelist_offset pr (u32 (fl - prpage)) ;;
  off ← get_freelist_offset pr;
  n ← get_nfree pr;
  kassert (off =? (n - 1) * size_of blktype) "pr->freelist_offset == (pr->nfree-1)*sizes[blktype]" ;;
  base ← get_sizebase blktype;
  set_next_samesize pr base ;;
  put_sizebase blktype pr ;;
  all ← gets allbase;
  set_next_all pr all ;;
  modify (set_allbase pr) ;;
  doalloc pr.

Definition subpage_kmalloc (sz : Z) : M kheap Z :=
  blktype ← blocktype sz;
  on_t heap_lock ;;
  base ← get_sizebase blktype;
  r ← find_page blktype base;
  match r with
  | Some pr => doalloc pr
  | None =>
      on_t heap_unlock ;;
      prpage ← on_t (kpages_alloc 1);
      if prpage =? 0 then mret 0
      else
        kassert (prpage `mod` PAGE_SIZE =? 0) "prpage % PAGE_SIZE == 0" ;;
        on_t heap_lock ;;
        pr ← allocpageref;
        if pr =? 0 then
          on_t heap_unlock ;;
          on_t (kpages_free prpage) ;;
          mret 0
        else
          new_page pr prpage blktype
  end.

(** The search for the page of an address *)
Definition find_ref (ptraddr : Z) : M kheap (option (Z * Z * Z)) :=
  all ← gets allbase;
  while (λ pr,
    if pr =? 0 then mret (inr None)
    else
      prpage ← PR_PAGEADDR pr;
      blktype ← PR_BLOCKTYPE pr;
      kassert ((0 <=? blktype) && (blktype <? NSIZES)) "blktype >= 0 && blktype < NSIZES" ;;
      if (prpage <=? ptraddr) && (ptraddr <? u32 (prpage + PAGE_SIZE)) then mret (inr (Some (pr, prpage, blktype)))
      else next ← get_next_all pr; mret (inl next)) all.

(** Put the block at [ptr] on the free list of its page; the result is the
    number of free blocks. *)
Definition free_block (ptr pr prpage blktype : Z) : M kheap Z :=
  let offset := u32 (ptr - prpage) in
  fill_deadbeef ptr (size_of blktype) ;;
  let fl := u32 (prpage + offset) in
  off ← get_freelist_offset pr;
  (if off =? INVALID_OFFSET then stw fl 0
   else
     let next := u32 (prpage + off) in
     stw fl next ;;
     kassert (negb (fl =? next)) "fl != fl->next") ;;
  set_freelist_offset pr offset ;;
  n ← get_nfree pr;
  set_nfree pr (n + 1) ;;
  get_nfree pr.

Definition subpage_kfree (ptr : Z) : M kheap Z :=
  on_t heap_lock ;;
  r ← find_ref ptr;
  match r with
  | None => on_t heap_unlock ;; mret (-1)
  | Some (pr, prpage, blktype) =>
      let offset := u32 (ptr - prpage) in
      if (PAGE_SIZE <=? offset) || negb (offset `mod` size_of blktype =? 0) then
        halt (Panic "kfree: subpage free of invalid addr")
      else
        n ← free_block ptr pr prpage blktype;
        kassert (n <=? PAGE_SIZE / size_of blktype) "pr->nfree <= PAGE_SIZE / sizes[blktype]" ;;
        (if n =? PAGE_SIZE / size_of blktype then
           remove_lists pr blktype ;;
           freepageref pr ;;
           on_t heap_unlock ;;
           on_t (kpages_free prpage)
         else on_t heap_unlock) ;;
        mret 0
  end.

Definition kmalloc (sz : Z) : M kheap Z :=
  if LARGEST_SUBPAGE_SIZE <=? sz then
    let npages := u32 (sz + PAGE_SIZE - 1) / PAGE_SIZE in
    address ← on_t (kpages_alloc npages);
    if address =? 0 then mret 0
    else
      kassert (address `mod` PAGE_SIZE =? 0) "address % PAGE_SIZE == 0" ;;
      mret address
  else subpage_kmalloc sz.

Definition kfree (ptr : Z) : M kheap () :=
  if ptr =? 0 then mret tt
  else
    r ← subpage_kfree ptr;
    if negb (r =? 0) then
      kassert (ptr `mod` PAGE_SIZE =? 0) "(vaddr_t)ptr%PAGE_SIZE==0" ;;
      on_t (kpages_free ptr)
    else mret tt.

(** ** The report

    What [subpage_stats] prints of a page: address, block size, free blocks,
    blocks, and for each block whether it is free. *)
Definition mark_free (prpage size n : Z) (freemap : list Z) (fl : Z) : M kheap (list Z) :=
  while (λ '(fl, freemap),
    if fl =? 0 then mret (inr freemap)
    else
      let index := u32 (fl - prpage) / size in
      kassert (index <? n) "index<n" ;;
      word ← deref (freemap !! Z.to_nat (index / 32));
      next ← ldw fl;
      mret (inl (next, <[Z.to_nat (index / 32) := Z.lor word (2 ^ (index `mod` 32))]> freemap))) (fl, freemap).

Definition subpage_stats (pr : Z) : M kheap (Z * Z * Z * Z * list bool) :=
  let freemap := replicate (Z.to_nat (PAGE_SIZE / (SMALLEST_SUBPAGE_SIZE * 32))) 0 in
  prpage ← PR_PAGEADDR pr;
  blktype ← PR_BLOCKTYPE pr;
  kassert ((0 <=? blktype) && (blktype <? NSIZES)) "blktype >= 0 && blktype < NSIZES" ;;
  let n := PAGE_SIZE / size_of blktype in
  kassert (n <=? 32 * Z.of_nat (length freemap)) "n <= 32 * ARRAYCOUNT(freemap)" ;;
  off ← get_freelist_offset pr;
  freemap ← (if negb (off =? INVALID_OFFSET) then mark_free prpage (size_of blktype) n freemap (u32 (prpage + off)) else mret freemap);
  nfree ← get_nfree pr;
  mret (prpage, size_of blktype, nfree, n,
    (λ i, negb (Z.land (default 0 (freemap !! Z.to_nat (i / 32))) (2 ^ (i `mod` 32)) =? 0)) <$> seqZ 0 n).

Definition kheap_printstats : M kheap (list (Z * Z * Z * Z * list bool)) :=
  on_t heap_lock ;;
  all ← gets allbase;
  out ← while (λ '(pr, out),
          if pr =? 0 then mret (inr out)
          else
            line ← subpage_stats pr;
            next ← get_next_all pr;
            mret (inl (next, out ++ [line]))) (all, []);
  on_t heap_unlock ;;
  mret out.
End kmalloc.
#[global] Arguments kheap : clear implicits.
