(* ===== verification/KmallocInv.v ===== *)
(** * The representation of the kernel heap

    The laws the heap expects of its page source, what a heap state shows of
    itself ([hview]), and the invariant [heap_ok]: the pages of small blocks
    with their free lists, and the two kinds of lists they are on. *)

From S2P Require Import Prelude Machine Kmalloc.

(** The first address after the memory the kernel reaches directly *)
Definition MIPS_KSEG1 : Z := 0xa0000000.

Definition word_ok (a : Z) : Prop := MIPS_KSEG0 ≤ a < MIPS_KSEG1 ∧ a `mod` 4 = 0.

(** The page numbers of a block of pages *)
Definition pages_of (b : Z * Z) : list Z := seqZ (b.1 / PAGE_SIZE) b.2.

(** [kp_pages] is what the page allocator knows: the blocks it has handed out,
    which blocks it can provide, and how many single pages. *)
Class PageLaws (T : Type) {src : PageSource T} := {
  kp_state : Type;
  kp_pages : T → kp_state;
  kp_inv : bool → T → Prop;
  kp_block : kp_state → Z * Z → Prop;
  kp_fits : Z → kp_state → Prop;
  kp_avail : Z → kp_state → Prop;
  block_range b t x : kp_inv b t → kp_block (kp_pages t) x →
    x.1 `mod` PAGE_SIZE = 0 ∧ MIPS_KSEG0 < x.1 ∧ 0 < x.2 ∧ x.1 + x.2 * PAGE_SIZE ≤ MIPS_KSEG1;
  word_range b t a : kp_inv b t → 0 ≤ word_at t a < 2 ^ 32;
  lock_law t : kp_inv false t →
    ∃ t', heap_lock t = Ok (tt, t') ∧ kp_inv true t' ∧ kp_pages t' = kp_pages t ∧ ∀ a, word_at t' a = word_at t a;
  unlock_law t : kp_inv true t →
    ∃ t', heap_unlock t = Ok (tt, t') ∧ kp_inv false t' ∧ kp_pages t' = kp_pages t ∧ ∀ a, word_at t' a = word_at t a;
  store_law b t x a w : kp_inv b t → kp_block (kp_pages t) x → a / PAGE_SIZE ∈ pages_of x → word_ok a → 0 ≤ w < 2 ^ 32 →
    kp_inv b (set_word a w t) ∧ kp_pages (set_word a w t) = kp_pages t ∧
    ∀ a', word_ok a' → word_at (set_word a w t) a' = if decide (a' = a) then w else word_at t a';
  avail_law m s : 0 < m → kp_avail m s → kp_fits 1 s;
  alloc_law n t : kp_inv false t → 0 < n → kp_fits n (kp_pages t) →
    ∃ va t', kpages_alloc n t = Ok (va, t') ∧ kp_inv false t' ∧ (∀ a, word_at t' a = word_at t a) ∧
      kp_block (kp_pages t') (va, n) ∧
      (∀ x, kp_block (kp_pages t) x → kp_block (kp_pages t') x ∧ ∀ i, i ∈ pages_of x → i ∉ pages_of (va, n)) ∧
      ∀ m, 0 ≤ m → kp_avail (n + m) (kp_pages t) → kp_avail m (kp_pages t');
  free_law t va n : kp_inv false t → kp_block (kp_pages t) (va, n) →
    ∃ t', kpages_free va t = Ok (tt, t') ∧ kp_inv false t' ∧ (∀ a, word_at t' a = word_at t a) ∧
      ∀ x, kp_block (kp_pages t) x → (∀ i, i ∈ pages_of x → i ∉ pages_of (va, n)) → kp_block (kp_pages t') x
}.

(** ** What a state shows *)

Section view.
Context {T : Type} {src : PageSource T} {laws : PageLaws T}.

Record hview : Type := mk_view {
  v_held : bool;
  v_pages : kp_state;
  v_mem : Z → Z;
  v_roots : list kheap_root;
  v_bases : list Z;
  v_all : Z
}.
Definition set_held (b : bool) (v : hview) : hview := mk_view b (v_pages v) (v_mem v) (v_roots v) (v_bases v) (v_all v).
Definition set_pages (p : kp_state) (v : hview) : hview := mk_view (v_held v) p (v_mem v) (v_roots v) (v_bases v) (v_all v).
Definition set_mem (f : Z → Z) (v : hview) : hview := mk_view (v_held v) (v_pages v) f (v_roots v) (v_bases v) (v_all v).
Definition set_roots (l : list kheap_root) (v : hview) : hview := mk_view (v_held v) (v_pages v) (v_mem v) l (v_bases v) (v_all v).
Definition set_bases (l : list Z) (v : hview) : hview := mk_view (v_held v) (v_pages v) (v_mem v) (v_roots v) l (v_all v).
Definition set_all (p : Z) (v : hview) : hview := mk_view (v_held v) (v_pages v) (v_mem v) (v_roots v) (v_bases v) p.

Record sees (h : kheap T) (v : hview) : Prop := {
  se_inv : kp_inv (v_held v) (kh_t h);
  se_pages : kp_pages (kh_t h) = v_pages v;
  se_mem a : word_ok a → word_at (kh_t h) a = v_mem v a;
  se_roots : kheaproots h = v_roots v;
  se_bases : sizebases h = v_bases v;
  se_all : allbase h = v_all v
}.

Definition upd (f : Z → Z) (a w : Z) : Z → Z := λ x, if decide (x = a) then w else f x.

Lemma upd_eq f a w : upd f a w a = w.
Proof using. unfold upd. by rewrite decide_True. Qed.
Lemma upd_ne f a w x : x ≠ a → upd f a w x = f x.
Proof using. intros. unfold upd. by rewrite decide_False. Qed.

(** An address in a block of pages the heap has *)
Definition in_blocks (s : kp_state) (a : Z) : Prop := ∃ x, kp_block s x ∧ a / PAGE_SIZE ∈ pages_of x.

Lemma in_blocks_word b t a : kp_inv b t → in_blocks (kp_pages t) a → a `mod` 4 = 0 → word_ok a.
Proof using.
  intros Hi (x & Hx & Ha) Hm. destruct (block_range _ _ _ Hi Hx) as (H1 & H2 & H3 & H4). split; [|done].
  unfold pages_of in Ha. apply elem_of_seqZ in Ha. unfold PAGE_SIZE, MIPS_KSEG0, MIPS_KSEG1 in *.
  pose proof (Z.div_mod a 4096 ltac:(lia)). pose proof (Z.mod_pos_bound a 4096 ltac:(lia)).
  pose proof (Z.div_mod x.1 4096 ltac:(lia)). lia.
Qed.

Lemma wp_ldw h v a Q : sees h v → word_ok a → (0 ≤ v_mem v a < 2 ^ 32 → Q (v_mem v a) h) → wp (ldw a) Q h.
Proof using.
  intros Hs Ha HQ. unfold ldw. rewrite (proj2 (Z.ltb_ge _ _)) by (destruct Ha; lia). apply wp_gets.
  rewrite (se_mem _ _ Hs a Ha). apply HQ. rewrite <-(se_mem _ _ Hs a Ha). eapply word_range, Hs.
Qed.

Lemma wp_stw h v a w Q : sees h v → in_blocks (v_pages v) a → a `mod` 4 = 0 → 0 ≤ w < 2 ^ 32 →
  (∀ h', sees h' (set_mem (upd (v_mem v) a w) v) → Q tt h') → wp (stw a w) Q h.
Proof using.
  intros Hs Hin Hm Hw HQ. pose proof Hs as [H1 H2 H3 H4 H5 H6]. rewrite <-H2 in Hin.
  pose proof (in_blocks_word _ _ _ H1 Hin Hm) as Ha. destruct Hin as (x & Hx & Hin).
  unfold stw. rewrite (proj2 (Z.ltb_ge _ _)) by (destruct Ha; lia). apply wp_modify. apply HQ.
  destruct (store_law _ _ _ _ w H1 Hx Hin Ha Hw) as (G1 & G2 & G3). split; cbn; [done|by rewrite G2|  |done..].
  intros a' Ha'. rewrite G3 by done. unfold upd. case_decide; [done|]. by apply H3.
Qed.

(** The lock and the page allocator *)
Lemma wp_lock h v Q : sees h v → v_held v = false → (∀ h', sees h' (set_held true v) → Q tt h') → wp (on_t heap_lock) Q h.
Proof using.
  intros [H1 H2 H3 H4 H5 H6] Hb HQ. rewrite Hb in H1. destruct (lock_law _ H1) as (t' & Hrun & G1 & G2 & G3). apply wp_zoom.
  erewrite wp_eq by exact Hrun. apply HQ. split; cbn; [done|by rewrite G2| |done..]. intros a Ha. rewrite G3. by apply H3.
Qed.

Lemma wp_unlock h v Q : sees h v → v_held v = true → (∀ h', sees h' (set_held false v) → Q tt h') → wp (on_t heap_unlock) Q h.
Proof using.
  intros [H1 H2 H3 H4 H5 H6] Hb HQ. rewrite Hb in H1. destruct (unlock_law _ H1) as (t' & Hrun & G1 & G2 & G3). apply wp_zoom.
  erewrite wp_eq by exact Hrun. apply HQ. split; cbn; [done|by rewrite G2| |done..]. intros a Ha. rewrite G3. by apply H3.
Qed.

Lemma wp_alloc h v n Q : sees h v → v_held v = false → 0 < n → kp_fits n (v_pages v) →
  (∀ va s' h', sees h' (set_pages s' v) → kp_block s' (va, n) →
     (∀ x, kp_block (v_pages v) x → kp_block s' x ∧ ∀ i, i ∈ pages_of x → i ∉ pages_of (va, n)) →
     (∀ m, 0 ≤ m → kp_avail (n + m) (v_pages v) → kp_avail m s') →
     va `mod` PAGE_SIZE = 0 → MIPS_KSEG0 < va → va + n * PAGE_SIZE ≤ MIPS_KSEG1 → Q va h') →
  wp (on_t (kpages_alloc n)) Q h.
Proof using.
  intros [H1 H2 H3 H4 H5 H6] Hb Hn Hf HQ. rewrite Hb in H1. rewrite <-H2 in Hf.
  destruct (alloc_law _ _ H1 Hn Hf) as (va & t' & Hrun & G1 & G2 & G3 & G4 & G5). apply wp_zoom.
  erewrite wp_eq by exact Hrun. rewrite H2 in G4, G5. destruct (block_range _ _ _ G1 G3) as (R1 & R2 & R3 & R4).
  apply (HQ va (kp_pages t')); [|done..]. split; cbn; [by rewrite Hb|done| |done..]. intros a Ha. rewrite G2. by apply H3.
Qed.

Lemma wp_free h v va n Q : sees h v → v_held v = false → kp_block (v_pages v) (va, n) →
  (∀ s' h', sees h' (set_pages s' v) →
     (∀ x, kp_block (v_pages v) x → (∀ i, i ∈ pages_of x → i ∉ pages_of (va, n)) → kp_block s' x) → Q tt h') →
  wp (on_t (kpages_free va)) Q h.
Proof using.
  intros [H1 H2 H3 H4 H5 H6] Hb Hx HQ. rewrite Hb in H1. rewrite <-H2 in Hx.
  destruct (free_law _ _ _ H1 Hx) as (t' & Hrun & G1 & G2 & G3). apply wp_zoom.
  erewrite wp_eq by exact Hrun. rewrite H2 in G3. apply (HQ (kp_pages t')); [|done].
  split; cbn; [by rewrite Hb|done| |done..]. intros a Ha. rewrite G2. by apply H3.
Qed.

(** ** The pages of small blocks *)

(** A page: its descriptor, its address, the type of its blocks and the
    offsets of its free blocks in the order of the free list *)
Record gpage : Type := mk_gpage { g_ref : Z; g_page : Z; g_type : Z; g_free : list Z }.
#[global] Instance gpage_eq_dec : EqDecision gpage.
Proof using. solve_decision. Defined.

Definition off_ok (t o : Z) : Prop := 0 ≤ o < PAGE_SIZE ∧ o `mod` size_of t = 0.

(** The word of [freelist_offset] and [nfree] *)
Definition ref_word (off n : Z) : Z := off * 2 ^ 16 + n.
Definition free_word (free : list Z) : Z := ref_word (default INVALID_OFFSET (head free)) (Z.of_nat (length free)).

(** A list that starts at [p] and goes on with [next] *)
Fixpoint linked (next : Z → Z) (p : Z) (l : list Z) : Prop :=
  match l with
  | [] => p = 0
  | x :: l => p = x ∧ linked next (next x) l
  end.

Fixpoint free_links (f : Z → Z) (page : Z) (free : list Z) : Prop :=
  match free with
  | [] => True
  | o :: free => f (page + o) = match free with [] => 0 | o' :: _ => page + o' end ∧ free_links f page free
  end.

Record page_ok (f : Z → Z) (g : gpage) : Prop := {
  po_type : 0 ≤ g_type g < NSIZES;
  po_nodup : NoDup (g_free g);
  po_offs : Forall (off_ok (g_type g)) (g_free g);
  po_pab : f (g_ref g + 8) = g_page g + g_type g;
  po_word : f (g_ref g + 12) = free_word (g_free g);
  po_links : free_links f (g_page g) (g_free g)
}.

(** ** The descriptors *)

Definition inuse (root : kheap_root) (j : Z) : bool :=
  Z.testbit (default 0 (pagerefs_inuse root !! Z.to_nat (j / 32))) (j `mod` 32).
Definition count_inuse (root : kheap_root) : nat := length (filter (λ j, inuse root j = true) (seqZ 0 NPAGEREFS_PER_PAGE)).

Record root_ok (refs : list Z) (root : kheap_root) : Prop := {
  ro_words : length (pagerefs_inuse root) = 8%nat;
  ro_range : Forall (λ w, 0 ≤ w < 2 ^ 32) (pagerefs_inuse root);
  ro_used j : 0 ≤ j < NPAGEREFS_PER_PAGE → inuse root j = true ↔ r_page root ≠ 0 ∧ r_page root + j * SIZEOF_PAGEREF ∈ refs;
  ro_count : numinuse root = Z.of_nat (count_inuse root)
}.

(** A descriptor of one of the pages of descriptors *)
Definition ref_in (roots : list kheap_root) (p : Z) : Prop :=
  ∃ w root j, roots !! w = Some root ∧ r_page root ≠ 0 ∧ 0 ≤ j < NPAGEREFS_PER_PAGE ∧ p = r_page root + j * SIZEOF_PAGEREF.

(** ** The invariant

    [X] are descriptors that are reserved and on no list, [L] the pages of
    small blocks, [B] the other blocks of pages. *)
Definition root_blocks (roots : list kheap_root) : list (Z * Z) :=
  (λ r, (r_page r, 1)) <$> filter (λ r, r_page r ≠ 0) roots.
Definition hblocks (roots : list kheap_root) (L : list gpage) (B : list (Z * Z)) : list (Z * Z) :=
  ((λ g, (g_page g, 1)) <$> L) ++ root_blocks roots ++ B.

Record heap_ok (v : hview) (X : list Z) (L : list gpage) (B : list (Z * Z)) : Prop := {
  ho_nroots : length (v_roots v) = 16%nat;
  ho_roots : Forall (root_ok (X ++ (g_ref <$> L))) (v_roots v);
  ho_nbases : length (v_bases v) = 8%nat;
  ho_all : linked (λ p, v_mem v (p + 4)) (v_all v) (g_ref <$> L);
  ho_sizes t b : 0 ≤ t → v_bases v !! Z.to_nat t = Some b → linked (v_mem v) b (g_ref <$> filter (λ g, g_type g = t) L);
  ho_pages : Forall (page_ok (v_mem v)) L;
  ho_refs : Forall (ref_in (v_roots v)) (X ++ (g_ref <$> L));
  ho_nodup : NoDup (X ++ (g_ref <$> L));
  ho_blocks : Forall (kp_block (v_pages v)) (hblocks (v_roots v) L B);
  ho_apart : NoDup (hblocks (v_roots v) L B ≫= pages_of);
  ho_range x : x ∈ hblocks (v_roots v) L B → x.1 `mod` PAGE_SIZE = 0 ∧ MIPS_KSEG0 < x.1 ∧ 0 < x.2 ∧ x.1 + x.2 * PAGE_SIZE ≤ MIPS_KSEG1
}.

(** ** Sizes and offsets *)

Lemma size_cases t : 0 ≤ t < NSIZES → t ∈ [0; 1; 2; 3; 4; 5; 6; 7].
Proof using. intros H. unfold NSIZES in H. change [0; 1; 2; 3; 4; 5; 6; 7] with (seqZ 0 8). apply elem_of_seqZ. lia. Qed.

Lemma size_facts t : 0 ≤ t < NSIZES →
  16 ≤ size_of t ≤ 2048 ∧ size_of t `mod` 16 = 0 ∧ (PAGE_SIZE / size_of t) * size_of t = PAGE_SIZE ∧ 2 ≤ PAGE_SIZE / size_of t ≤ 256.
Proof using.
  intros Hin%size_cases. repeat (apply elem_of_cons in Hin as [->|Hin]; [by vm_compute|]). by apply not_elem_of_nil in Hin.
Qed.

Lemma off_facts t o : 0 ≤ t < NSIZES → off_ok t o → 0 ≤ o ∧ o + size_of t ≤ PAGE_SIZE ∧ o `mod` 16 = 0.
Proof using.
  intros Ht [Ho Hm]. destruct (size_facts t Ht) as (H1 & H2 & H3 & H4). set (z := size_of t) in *. set (n := PAGE_SIZE / z) in *.
  apply Z.mod_divide in Hm as [k Hk]; [|lia]. apply Z.mod_divide in H2 as [d Hd]; [|lia]. split; [lia|]. split.
  - assert (k < n) by nia. nia.
  - apply Z.mod_divide; [lia|]. exists (k * d). lia.
Qed.

Lemma ref_word_parts off n : 0 ≤ n < 2 ^ 16 → ref_word off n / 2 ^ 16 = off ∧ ref_word off n `mod` 2 ^ 16 = n.
Proof using.
  intros Hn. unfold ref_word. rewrite Z.div_add_l, Z.div_small, (Z.add_comm _ n), Z_mod_plus_full, Z.mod_small by lia. lia.
Qed.

(** ** Pages do not overlap *)

Lemma in_page a k : a `mod` 16 = 0 → 0 ≤ k < 16 → (a + k) / PAGE_SIZE = a / PAGE_SIZE.
Proof using.
  intros Ha Hk. unfold PAGE_SIZE. pose proof (Z.div_mod a 16 ltac:(lia)) as E. rewrite Ha, Z.add_0_r in E.
  replace 4096 with (16 * 256) by lia. rewrite <-!Z.div_div by lia. f_equal. rewrite E at 1. rewrite Z.mul_comm, Z.div_add_l by lia.
  rewrite (Z.div_small k) by lia. lia.
Qed.

Lemma page_start a o : a `mod` PAGE_SIZE = 0 → 0 ≤ o < PAGE_SIZE → (a + o) / PAGE_SIZE = a / PAGE_SIZE.
Proof using.
  unfold PAGE_SIZE. intros Ha Ho. pose proof (Z.div_mod a 4096 ltac:(lia)) as E. rewrite Ha, Z.add_0_r in E. rewrite E at 1.
  rewrite Z.mul_comm, Z.div_add_l, (Z.div_small o) by lia. lia.
Qed.

Lemma pages_of_1 va : pages_of (va, 1) = [va / PAGE_SIZE].
Proof using. unfold pages_of. cbn [fst snd]. by rewrite seqZ_cons by lia. Qed.

Lemma NoDup_bind_ne {A B} (f : A → list B) l i j x y z :
  NoDup (l ≫= f) → l !! i = Some x → l !! j = Some y → z ∈ f x → z ∈ f y → i = j.
Proof using.
  revert i j. induction l as [|a l IH]; intros i j Hnd Hi Hj Hx Hy; [done|]. cbn in Hnd. apply NoDup_app in Hnd as (H1 & H2 & H3).
  destruct i as [|i], j as [|j]; cbn in Hi, Hj; [done| | |f_equal; by eapply IH].
  - apply (inj Some) in Hi as ->. destruct (H2 z Hx). apply list_elem_of_bind. exists y. split; [done|]. by eapply list_elem_of_lookup_2.
  - apply (inj Some) in Hj as ->. destruct (H2 z Hy). apply list_elem_of_bind. exists x. split; [done|]. by eapply list_elem_of_lookup_2.
Qed.

Lemma NoDup_bind_app {A B} (f : A → list B) l1 l2 x y z :
  NoDup ((l1 ++ l2) ≫= f) → x ∈ l1 → y ∈ l2 → z ∈ f x → z ∉ f y.
Proof using.
  rewrite bind_app. intros (_ & H & _)%NoDup_app Hx Hy Hz Hz'. eapply H.
  - apply list_elem_of_bind. by exists x.
  - apply list_elem_of_bind. by exists y.
Qed.

Section heap_ok.
Context (v : hview) (X : list Z) (L : list gpage) (B : list (Z * Z)).
Hypothesis Hok : heap_ok v X L B.

Lemma root_block_in w root : v_roots v !! w = Some root → r_page root ≠ 0 → (r_page root, 1) ∈ root_blocks (v_roots v).
Proof using.
  intros Hw Hp. apply list_elem_of_fmap. exists root. split; [done|]. apply list_elem_of_filter. split; [done|]. by eapply list_elem_of_lookup_2.
Qed.

Lemma page_block_in g : g ∈ L → (g_page g, 1) ∈ ((λ g, (g_page g, 1)) <$> L).
Proof using. intros Hg. apply list_elem_of_fmap. by exists g. Qed.

(** A descriptor is aligned and in a page of descriptors. *)
Lemma ref_facts p : p ∈ X ++ (g_ref <$> L) →
  ∃ w root, v_roots v !! w = Some root ∧ r_page root ≠ 0 ∧ p / PAGE_SIZE = r_page root / PAGE_SIZE ∧ p `mod` 16 = 0 ∧
    MIPS_KSEG0 < p ∧ p + 16 ≤ MIPS_KSEG1 ∧ in_blocks (v_pages v) p.
Proof using Hok.
  intros Hp. pose proof (ho_refs _ _ _ _ Hok) as Hr. rewrite Forall_forall in Hr.
  destruct (Hr p Hp) as (w & root & j & Hw & Hne & Hj & ->). pose proof (root_block_in w root Hw Hne) as Hin.
  assert ((r_page root, 1) ∈ hblocks (v_roots v) L B) as Hb by (unfold hblocks; rewrite !elem_of_app; auto).
  destruct (ho_range _ _ _ _ Hok _ Hb) as (G1 & G2 & G3 & G4). cbn in *. unfold NPAGEREFS_PER_PAGE, SIZEOF_PAGEREF, PAGE_SIZE in *.
  change (4096 / 16) with 256 in *.
  assert ((r_page root + j * 16) / PAGE_SIZE = r_page root / PAGE_SIZE) as E by (apply page_start; [done|unfold PAGE_SIZE; lia]).
  exists w, root. split_and!; try done; try lia.
  - rewrite Z_mod_plus_full. pose proof (Z.div_mod (r_page root) 4096 ltac:(lia)) as E'. rewrite G1 in E'. rewrite E'.
    replace (4096 * (r_page root / 4096) + 0) with (0 + (r_page root / 4096 * 256) * 16) by lia. by rewrite Z_mod_plus_full.
  - exists (r_page root, 1). split; [by eapply (proj1 (Forall_forall _ _)); [apply (ho_blocks _ _ _ _ Hok)|]|].
    rewrite pages_of_1, E. by apply list_elem_of_singleton.
Qed.

Lemma page_facts g : g ∈ L →
  g_page g `mod` PAGE_SIZE = 0 ∧ MIPS_KSEG0 < g_page g ∧ g_page g + PAGE_SIZE ≤ MIPS_KSEG1 ∧
  ∀ o, 0 ≤ o < PAGE_SIZE → in_blocks (v_pages v) (g_page g + o).
Proof using Hok.
  intros Hg. pose proof (page_block_in g Hg) as Hin.
  assert ((g_page g, 1) ∈ hblocks (v_roots v) L B) as Hb by (unfold hblocks; rewrite !elem_of_app; auto).
  destruct (ho_range _ _ _ _ Hok _ Hb) as (G1 & G2 & G3 & G4). cbn in *. split_and!; try done; try lia.
  intros o Ho. exists (g_page g, 1). split; [by eapply (proj1 (Forall_forall _ _)); [apply (ho_blocks _ _ _ _ Hok)|]|].
  rewrite pages_of_1, page_start by done. by apply list_elem_of_singleton.
Qed.

(** A descriptor is not in a page of blocks. *)
Lemma ref_not_page p g : p ∈ X ++ (g_ref <$> L) → g ∈ L → p / PAGE_SIZE ≠ g_page g / PAGE_SIZE.
Proof using Hok.
  intros Hp Hg E. destruct (ref_facts p Hp) as (w & root & Hw & Hne & Ep & _).
  pose proof (ho_apart _ _ _ _ Hok) as Hnd. unfold hblocks in Hnd.
  apply (NoDup_bind_app _ _ _ (g_page g, 1) (r_page root, 1) (g_page g / PAGE_SIZE) Hnd (page_block_in g Hg)).
  - apply elem_of_app. left. by eapply root_block_in.
  - rewrite pages_of_1. by apply list_elem_of_singleton.
  - rewrite pages_of_1, <-Ep, E. by apply list_elem_of_singleton.
Qed.

Lemma ref_not_other p b i : p ∈ X ++ (g_ref <$> L) → b ∈ B → i ∈ pages_of b → p / PAGE_SIZE ≠ i.
Proof using Hok.
  intros Hp Hb Hi E. destruct (ref_facts p Hp) as (w & root & Hw & Hne & Ep & _).
  pose proof (ho_apart _ _ _ _ Hok) as Hnd. unfold hblocks in Hnd. rewrite bind_app in Hnd. apply NoDup_app in Hnd as (_ & _ & Hnd).
  apply (NoDup_bind_app _ _ _ (r_page root, 1) b i Hnd); [by eapply root_block_in|done| |done].
  rewrite pages_of_1, <-Ep, E. by apply list_elem_of_singleton.
Qed.

Lemma page_not_other g b i : g ∈ L → b ∈ B → i ∈ pages_of b → g_page g / PAGE_SIZE ≠ i.
Proof using Hok.
  intros Hg Hb Hi E. pose proof (ho_apart _ _ _ _ Hok) as Hnd. unfold hblocks in Hnd.
  apply (NoDup_bind_app _ _ _ (g_page g, 1) b i Hnd (page_block_in g Hg)); [|rewrite pages_of_1, E; by apply list_elem_of_singleton|done].
  apply elem_of_app. by right.
Qed.

Lemma page_not_page i j g g' : L !! i = Some g → L !! j = Some g' → g_page g / PAGE_SIZE = g_page g' / PAGE_SIZE → i = j.
Proof using Hok.
  intros Hi Hj E. pose proof (ho_apart _ _ _ _ Hok) as Hnd. unfold hblocks in Hnd. rewrite bind_app in Hnd. apply NoDup_app in Hnd as (Hnd & _).
  apply (NoDup_bind_ne _ _ i j (g_page g, 1) (g_page g', 1) (g_page g / PAGE_SIZE) Hnd).
  - by rewrite list_lookup_fmap, Hi.
  - by rewrite list_lookup_fmap, Hj.
  - rewrite pages_of_1. by apply list_elem_of_singleton.
  - rewrite pages_of_1, E. by apply list_elem_of_singleton.
Qed.
End heap_ok.
End view.
