(* ===== verification/KmallocOps.v ===== *)
(** * Allocation and release keep the heap's representation

    Each operation of [Kmalloc] on a state that satisfies [heap_ok]: it runs
    without a failing assertion, and the resulting state satisfies [heap_ok]
    for the changed lists. *)

From S2P Require Import Prelude Machine Kmalloc KmallocInv.

Section frames.
Context {T : Type} {src : PageSource T} {laws : PageLaws T}.

(** ** What the representation depends on *)

Lemma linked_ext next next' p l : (∀ x, x ∈ l → next' x = next x) → linked next p l → linked next' p l.
Proof using.
  revert p. induction l as [|x l IH]; intros p Hn; [done|]. cbn. intros [-> Hl]. split; [done|].
  rewrite Hn by set_solver. apply IH; [|done]. intros y Hy. apply Hn. set_solver.
Qed.

Lemma free_links_ext f f' page l : (∀ o, o ∈ l → f' (page + o) = f (page + o)) → free_links f page l → free_links f' page l.
Proof using.
  induction l as [|o l IH]; intros Hf; [done|]. cbn. intros [H1 H2]. split; [rewrite Hf by set_solver; done|].
  apply IH; [|done]. intros o' Ho'. apply Hf. set_solver.
Qed.

Lemma page_ok_ext f f' g : f' (g_ref g + 8) = f (g_ref g + 8) → f' (g_ref g + 12) = f (g_ref g + 12) →
  (∀ o, o ∈ g_free g → f' (g_page g + o) = f (g_page g + o)) → page_ok f g → page_ok f' g.
Proof using.
  intros H1 H2 H3 [P1 P2 P3 P4 P5 P6]. split; [done..|by rewrite H1|by rewrite H2|by eapply free_links_ext].
Qed.

Definition meta (L : list gpage) (a : Z) : Prop :=
  ∃ g, g ∈ L ∧ ((∃ k, k ∈ [0; 4; 8; 12] ∧ a = g_ref g + k) ∨ ∃ o, o ∈ g_free g ∧ a = g_page g + o).

Lemma meta_ref L g k : g ∈ L → k ∈ [0; 4; 8; 12] → meta L (g_ref g + k).
Proof using. intros Hg Hk. exists g. split; [done|]. left. by exists k. Qed.

Lemma heap_ok_mem v X L B f' : heap_ok v X L B → (∀ a, meta L a → f' a = v_mem v a) → heap_ok (set_mem f' v) X L B.
Proof using.
  intros [H1 H2 H3 H4 H5 H6 H7 H8 H9 H10 H11] Hf. split; try done; cbn.
  - eapply linked_ext; [|exact H4]. intros x (g & -> & Hg)%list_elem_of_fmap. apply Hf, meta_ref; [done|set_solver].
  - intros t b Ht Hb. eapply linked_ext; [|by eapply H5]. intros x (g & -> & Hg)%list_elem_of_fmap.
    apply list_elem_of_filter in Hg as [_ Hg]. rewrite <-(Z.add_0_r (g_ref g)). apply Hf, meta_ref; [done|set_solver].
  - rewrite Forall_forall in *. intros g Hg. eapply page_ok_ext; [| | |exact (H6 g Hg)].
    + apply Hf, meta_ref; [done|set_solver].
    + apply Hf, meta_ref; [done|set_solver].
    + intros o Ho. apply Hf. exists g. split; [done|]. right. by exists o.
Qed.

(** Descriptors are 16 bytes apart. *)
Lemma ref_apart p q k k' : p `mod` 16 = 0 → q `mod` 16 = 0 → 0 ≤ k < 16 → 0 ≤ k' < 16 → p + k = q + k' → p = q ∧ k = k'.
Proof using.
  intros Hp Hq Hk Hk' E. pose proof (Z.div_mod p 16 ltac:(lia)). pose proof (Z.div_mod q 16 ltac:(lia)). lia.
Qed.

(** One page changes: its free list, and the word of its descriptor. *)
Lemma heap_ok_replace v X L1 g L2 B g' f' :
  heap_ok v X (L1 ++ g :: L2) B → g_ref g' = g_ref g → g_page g' = g_page g → g_type g' = g_type g → page_ok f' g' →
  (∀ a, a ≠ g_ref g + 12 → a / PAGE_SIZE ≠ g_page g / PAGE_SIZE → f' a = v_mem v a) →
  heap_ok (set_mem f' v) X (L1 ++ g' :: L2) B.
Proof using.
  intros Hok Er Ep Et Hpg Hf. pose proof Hok as [H1 H2 H3 H4 H5 H6 H7 H8 H9 H10 H11].
  assert (g_ref <$> L1 ++ g' :: L2 = g_ref <$> L1 ++ g :: L2) as Erefs by (rewrite !fmap_app; cbn; by rewrite Er).
  assert (hblocks (v_roots v) (L1 ++ g' :: L2) B = hblocks (v_roots v) (L1 ++ g :: L2) B) as Ebl.
  { unfold hblocks. rewrite !fmap_app. cbn. by rewrite Ep. }
  assert (g ∈ L1 ++ g :: L2) as Hg by set_solver.
  assert (∀ x k, x ∈ X ++ (g_ref <$> L1 ++ g :: L2) → 0 ≤ k < 16 → x + k ≠ g_ref g + 12 → f' (x + k) = v_mem v (x + k)) as Href.
  { intros x k Hx Hk Hne. apply Hf; [done|]. destruct (ref_facts _ _ _ _ Hok x Hx) as (_ & _ & _ & _ & _ & Hm & _).
    rewrite in_page by done. by eapply ref_not_page. }
  assert (∀ x, x ∈ X ++ (g_ref <$> L1 ++ g :: L2) → x `mod` 16 = 0) as Hal.
  { intros x Hx. by destruct (ref_facts _ _ _ _ Hok x Hx) as (_ & _ & _ & _ & _ & Hm & _). }
  assert (g_ref g `mod` 16 = 0) as Halg by (apply Hal, elem_of_app; right; apply list_elem_of_fmap; by exists g).
  split; cbn; rewrite ?Erefs, ?Ebl; try done.
  - eapply linked_ext; [|exact H4]. intros x Hx. apply Href; [by apply elem_of_app; right|lia|].
    intros [_ E]%ref_apart; [lia|by apply Hal, elem_of_app; right|done|lia|lia].
  - intros t b Ht Hb. specialize (H5 t b Ht Hb).
    replace (g_ref <$> filter (λ g, g_type g = t) (L1 ++ g' :: L2)) with (g_ref <$> filter (λ g, g_type g = t) (L1 ++ g :: L2)).
    2:{ rewrite !filter_app, !filter_cons, !fmap_app, Et. destruct (decide (g_type g = t)); cbn; by rewrite ?Er. }
    eapply linked_ext; [|exact H5]. intros x (g2 & -> & Hg2)%list_elem_of_fmap. apply list_elem_of_filter in Hg2 as [_ Hg2].
    assert (g_ref g2 ∈ X ++ (g_ref <$> L1 ++ g :: L2)) as Hx by (apply elem_of_app; right; apply list_elem_of_fmap; by exists g2).
    rewrite <-(Z.add_0_r (g_ref g2)). apply Href; [done|lia|]. intros [_ E]%ref_apart; [lia|by apply Hal|done|lia|lia].
  - apply Forall_forall. intros g2 Hg2. apply elem_of_app in Hg2 as Hg2'. rewrite elem_of_cons in Hg2'.
    destruct (decide (g2 = g')) as [->|Hne']; [done|].
    assert (∃ i, (L1 ++ g :: L2) !! i = Some g2 ∧ i ≠ length L1) as (i & Hi & Hne).
    { destruct Hg2' as [[i Hi]%list_elem_of_lookup_1|[->|[i Hi]%list_elem_of_lookup_1]]; [|done|].
      - exists i. pose proof (lookup_lt_Some _ _ _ Hi). rewrite lookup_app_l by done. split; [done|lia].
      - exists (S (length L1) + i)%nat. split; [|lia]. rewrite lookup_app_r by lia.
        by replace (S (length L1) + i - length L1)%nat with (S i) by lia. }
    pose proof (list_elem_of_lookup_2 _ _ _ Hi) as Hin. rewrite Forall_forall in H6.
    assert ((L1 ++ g :: L2) !! length L1 = Some g) as Hlg by (rewrite lookup_app_r, Nat.sub_diag by lia; done).
    assert (g_ref g2 ∈ X ++ (g_ref <$> L1 ++ g :: L2)) as Hx by (apply elem_of_app; right; apply list_elem_of_fmap; by exists g2).
    assert (g_ref g2 ≠ g_ref g) as Hrne.
    { intros E. apply Hne. apply NoDup_app in H8 as (_ & _ & H8). eapply (NoDup_lookup _ _ _ _ H8); rewrite list_lookup_fmap; [by rewrite Hi|].
      by rewrite Hlg, E. }
    eapply page_ok_ext; [| | |by apply H6].
    + apply Href; [done|lia|]. intros [E _]%ref_apart; [done|by apply Hal|done|lia|lia].
    + apply Href; [done|lia|]. intros [E _]%ref_apart; [done|by apply Hal|done|lia|lia].
    + intros o Ho. destruct (page_facts _ _ _ _ Hok g2 Hin) as (G1 & G2 & G3 & _).
      destruct (H6 g2 Hin) as [_ _ Hoffs _ _ _]. rewrite Forall_forall in Hoffs. destruct (Hoffs o Ho) as [Hor _].
      assert ((g_page g2 + o) / PAGE_SIZE = g_page g2 / PAGE_SIZE) as Eo by (by apply page_start). apply Hf.
      * intros E. apply (ref_not_page _ _ _ _ Hok (g_ref g) g2); [apply elem_of_app; right; apply list_elem_of_fmap; by exists g|done|].
        by rewrite <-Eo, E, in_page by (done || lia).
      * rewrite Eo. intros E. apply Hne. by eapply page_not_page.
Qed.

(** ** The fields of a descriptor *)

Lemma wp_get_nfree h v p off n Q :
  sees h v → word_ok (p + 12) → v_mem v (p + 12) = ref_word off n → 0 ≤ n < 2 ^ 16 → Q n h → wp (get_nfree p) Q h.
Proof using.
  intros Hs Hw E Hn HQ. unfold get_nfree. apply wp_bind. eapply wp_ldw; [done|done|]. intros _. apply wp_ret.
  by rewrite E, (proj2 (ref_word_parts off n Hn)).
Qed.

Lemma wp_get_offset h v p off n Q :
  sees h v → word_ok (p + 12) → v_mem v (p + 12) = ref_word off n → 0 ≤ n < 2 ^ 16 → Q off h → wp (get_freelist_offset p) Q h.
Proof using.
  intros Hs Hw E Hn HQ. unfold get_freelist_offset. apply wp_bind. eapply wp_ldw; [done|done|]. intros _. apply wp_ret.
  by rewrite E, (proj1 (ref_word_parts off n Hn)).
Qed.

Lemma ref_word_range off n : 0 ≤ off < 2 ^ 16 → 0 ≤ n < 2 ^ 16 → 0 ≤ ref_word off n < 2 ^ 32.
Proof using. unfold ref_word. lia. Qed.

Lemma wp_set_nfree h v p off n x Q :
  sees h v → in_blocks (v_pages v) (p + 12) → word_ok (p + 12) → v_mem v (p + 12) = ref_word off n →
  0 ≤ off < 2 ^ 16 → 0 ≤ n < 2 ^ 16 → 0 ≤ x < 2 ^ 16 →
  (∀ h', sees h' (set_mem (upd (v_mem v) (p + 12) (ref_word off x)) v) → Q tt h') → wp (set_nfree p x) Q h.
Proof using.
  intros Hs Hin Hw E Ho Hn Hx HQ. unfold set_nfree. apply wp_bind. eapply wp_ldw; [done|done|]. intros _.
  rewrite E, (proj1 (ref_word_parts off n Hn)). unfold u16. rewrite Z.mod_small by done.
  eapply wp_stw; [done|done|apply Hw|by apply ref_word_range|done].
Qed.

Lemma wp_set_offset h v p off n x Q :
  sees h v → in_blocks (v_pages v) (p + 12) → word_ok (p + 12) → v_mem v (p + 12) = ref_word off n →
  0 ≤ n < 2 ^ 16 → 0 ≤ x < 2 ^ 16 →
  (∀ h', sees h' (set_mem (upd (v_mem v) (p + 12) (ref_word x n)) v) → Q tt h') → wp (set_freelist_offset p x) Q h.
Proof using.
  intros Hs Hin Hw E Hn Hx HQ. unfold set_freelist_offset. apply wp_bind. eapply wp_ldw; [done|done|]. intros _.
  rewrite E, (proj2 (ref_word_parts off n Hn)). unfold u16. rewrite Z.mod_small by done.
  eapply wp_stw; [done|done|apply Hw|by apply ref_word_range|done].
Qed.

(** Page address and block type in one word *)
Lemma pab_parts page t : page `mod` PAGE_SIZE = 0 → 0 ≤ page < 2 ^ 32 → 0 ≤ t < NSIZES →
  Z.land (page + t) PAGE_FRAME = page ∧ Z.land (page + t) PAGE_OFFSET = t ∧ MKPAB page t = page + t.
Proof using.
  intros Hp Hr Ht. unfold NSIZES in Ht. pose proof (Z.div_mod page PAGE_SIZE ltac:(done)) as E. rewrite Hp, Z.add_0_r in E.
  assert (0 ≤ page + t < 2 ^ 32) as Hr'.
  { unfold PAGE_SIZE in *. assert (page / 4096 < 2 ^ 20) by (apply Z.div_lt_upper_bound; lia). lia. }
  assert (Z.land t PAGE_OFFSET = t) as Et.
  { change PAGE_OFFSET with (Z.ones 12). rewrite Z.land_ones by lia. apply Z.mod_small. lia. }
  assert (Z.land page PAGE_FRAME = page) as Epg.
  { rewrite land_PAGE_FRAME by done. rewrite Hp. lia. }
  split; [|split].
  - rewrite land_PAGE_FRAME by done. rewrite Z.add_mod, Hp, Z.add_0_l, Z.mod_mod, Z.mod_small by (unfold PAGE_SIZE; lia). lia.
  - change PAGE_OFFSET with (Z.ones 12). rewrite Z.land_ones by lia. change (2 ^ 12) with PAGE_SIZE.
    rewrite Z.add_mod, Hp, Z.add_0_l, Z.mod_mod, Z.mod_small by (unfold PAGE_SIZE; lia). done.
  - unfold MKPAB. rewrite Et, Epg, E. replace (PAGE_SIZE * (page / PAGE_SIZE)) with (page / PAGE_SIZE * 2 ^ 12) by (unfold PAGE_SIZE; lia).
    apply lor_add; lia.
Qed.

(** ** A free list has at most the blocks of a page *)

Lemma free_length t l : 0 ≤ t < NSIZES → NoDup l → Forall (off_ok t) l → Z.of_nat (length l) ≤ PAGE_SIZE / size_of t.
Proof using.
  intros Ht Hnd Hl. destruct (size_facts t Ht) as (H1 & H2 & H3 & H4). set (z := size_of t) in *. set (n := PAGE_SIZE / z) in *.
  assert (Nat.le (length ((λ o : Z, o / z) <$> l)) (length (seqZ 0 n))) as Hle.
  { apply submseteq_length, NoDup_submseteq.
    - apply (NoDup_fmap_2_strong (λ o, o / z) l); [|done]. intros x y Hx Hy E. rewrite Forall_forall in Hl.
      destruct (Hl x Hx) as [_ Hmx], (Hl y Hy) as [_ Hmy]. fold z in Hmx, Hmy.
      rewrite (Z.div_mod x z), (Z.div_mod y z) by lia. lia.
    - intros x Hx. apply elem_of_seqZ. apply list_elem_of_fmap in Hx as (o & -> & Ho).
      rewrite Forall_forall in Hl. destruct (Hl o Ho) as [Hr _]. split; [apply Z.div_pos; lia|]. apply Z.div_lt_upper_bound; lia. }
  rewrite length_fmap, length_seqZ in Hle. lia.
Qed.

Lemma page_free_length f g : page_ok f g → 0 ≤ Z.of_nat (length (g_free g)) ≤ PAGE_SIZE / size_of (g_type g) ∧ Z.of_nat (length (g_free g)) < 2 ^ 16.
Proof using.
  intros [P1 P2 P3 _ _ _]. pose proof (free_length _ _ P1 P2 P3). destruct (size_facts _ P1) as (_ & _ & _ & ?). lia.
Qed.

(** ** Allocation from a page *)

Lemma ref_word_ok v X L B p k : heap_ok v X L B → p ∈ X ++ (g_ref <$> L) → k ∈ [0; 4; 8; 12] →
  in_blocks (v_pages v) (p + k) ∧ word_ok (p + k).
Proof using.
  intros Hok Hp Hk. destruct (ref_facts _ _ _ _ Hok p Hp) as (_ & _ & _ & _ & _ & Hm & H1 & H2 & x & Hx & Hin).
  assert (0 ≤ k < 16 ∧ k `mod` 4 = 0) as [Hkr Hk4] by (repeat (apply elem_of_cons in Hk as [->|Hk]; [done|]); by apply not_elem_of_nil in Hk).
  split; [exists x; split; [done|]; by rewrite in_page|]. split; [lia|].
  rewrite Z.add_mod, Hk4, Z.add_0_r, Z.mod_mod by lia. pose proof (Z.div_mod p 16 ltac:(lia)) as E. rewrite E, Hm.
  replace (16 * (p / 16) + 0) with (0 + (p / 16 * 4) * 4) by lia. by rewrite Z_mod_plus_full.
Qed.

Lemma block_word_ok v X L B g o : heap_ok v X L B → g ∈ L → off_ok (g_type g) o → 0 ≤ g_type g < NSIZES →
  in_blocks (v_pages v) (g_page g + o) ∧ word_ok (g_page g + o) ∧ u32 (g_page g + o) = g_page g + o ∧ u32 (g_page g + o - g_page g) = o.
Proof using.
  intros Hok Hg Ho Ht. destruct (page_facts _ _ _ _ Hok g Hg) as (G1 & G2 & G3 & G4). destruct (off_facts _ _ Ht Ho) as (O1 & O2 & O3).
  destruct (size_facts _ Ht) as (S1 & _). unfold MIPS_KSEG0, MIPS_KSEG1 in *. split_and!.
  - apply G4. lia.
  - unfold word_ok, MIPS_KSEG0, MIPS_KSEG1, PAGE_SIZE in *. split; [lia|].
    apply Z.mod_divide; [lia|]. apply Z.mod_divide in G1 as [a ->]; [|done]. apply Z.mod_divide in O3 as [b ->]; [|done].
    exists (a * 1024 + b * 4). lia.
  - apply u32_id. unfold PAGE_SIZE in *. lia.
  - replace (g_page g + o - g_page g) with o by lia. apply u32_id. unfold PAGE_SIZE in *. lia.
Qed.

Lemma sees_mem_ext h v f f' : (∀ a, f' a = f a) → sees h (set_mem f v) → sees h (set_mem f' v).
Proof using. intros Hf [H1 H2 H3 H4 H5 H6]. split; try done. intros a Ha. cbn. rewrite Hf. by apply H3. Qed.

Lemma heap_ok_held v X L B b : heap_ok v X L B → heap_ok (set_held b v) X L B.
Proof using. intros [H1 H2 H3 H4 H5 H6 H7 H8 H9 H10 H11]. by split. Qed.

Lemma upd_upd f a w w' x : upd (upd f a w) a w' x = upd f a w' x.
Proof using. unfold upd. by case_decide. Qed.

Lemma page_in_refs (L : list gpage) X g : g ∈ L → g_ref g ∈ X ++ (g_ref <$> L).
Proof using. intros Hg. apply elem_of_app. right. apply list_elem_of_fmap. by exists g. Qed.

Lemma elem_mid {A} (l1 : list A) x l2 : x ∈ l1 ++ x :: l2.
Proof using. apply elem_of_app. right. by left. Qed.

Lemma page_of_ref h v X L B g : sees h v → heap_ok v X L B → g ∈ L →
  PR_PAGEADDR (g_ref g) h = Ok (g_page g, h) ∧ PR_BLOCKTYPE (g_ref g) h = Ok (g_type g, h).
Proof using.
  intros Hs Hok Hg. pose proof (ho_pages _ _ _ _ Hok) as Hp. rewrite Forall_forall in Hp. destruct (Hp g Hg) as [P1 _ _ P4 _ _].
  destruct (ref_word_ok _ _ _ _ (g_ref g) 8 Hok (page_in_refs L X g Hg) ltac:(set_solver)) as [_ Hw].
  destruct (page_facts _ _ _ _ Hok g Hg) as (G1 & G2 & G3 & _). unfold MIPS_KSEG0, MIPS_KSEG1, PAGE_SIZE in G2, G3.
  destruct (pab_parts (g_page g) (g_type g) G1 ltac:(lia) P1) as (E1 & E2 & _).
  split; apply wp_result; unfold PR_PAGEADDR, PR_BLOCKTYPE, get_pageaddr_and_blocktype; apply wp_bind;
    (eapply wp_ldw; [done|done|]; intros _; apply wp_ret; by rewrite P4).
Qed.

(** The first free block of the page is taken. *)
Lemma doalloc_run h v X L1 g L2 B o fr :
  sees h v → heap_ok v X (L1 ++ g :: L2) B → v_held v = true → g_free g = o :: fr →
  wp (doalloc (g_ref g)) (λ r h', r = g_page g + o ∧
    let v' := set_held false (set_mem (upd (v_mem v) (g_ref g + 12) (free_word fr)) v) in
    sees h' v' ∧ heap_ok v' X (L1 ++ mk_gpage (g_ref g) (g_page g) (g_type g) fr :: L2) B) h.
Proof using.
  intros Hs Hok Hheld Hfree. pose proof (elem_mid L1 g L2) as Hg. pose proof (ho_pages _ _ _ _ Hok) as Hp. rewrite Forall_forall in Hp.
  pose proof (Hp g Hg) as Hpg. destruct (page_free_length _ _ Hpg) as [_ Hlen]. destruct Hpg as [P1 P2 P3 P4 P5 P6].
  rewrite Hfree in P2, P3, P5, P6, Hlen. apply NoDup_cons in P2 as [Ho Hnd]. apply Forall_cons in P3 as [Hoo Hoffs]. cbn in P5, P6, Hlen.
  destruct (ref_word_ok _ _ _ _ (g_ref g) 12 Hok (page_in_refs _ X g Hg) ltac:(set_solver)) as [Hib Hw].
  destruct (block_word_ok _ _ _ _ g o Hok Hg Hoo P1) as (Hbi & Hbw & Eu & _).
  destruct (page_of_ref _ _ _ _ _ g Hs Hok Hg) as [Epage _]. destruct (off_facts _ _ P1 Hoo) as (O1 & O2 & O3). destruct (size_facts _ P1) as (S1 & _).
  set (n := Z.of_nat (length fr)) in *. unfold free_word in P5. cbn in P5. replace (Z.of_nat (S (length fr))) with (n + 1) in * by (unfold n; lia).
  unfold doalloc. apply wp_bind. eapply wp_get_offset; [done|done|exact P5|lia|]. apply wp_bind, wp_kassert. split; [unfold PAGE_SIZE in *; lia|].
  apply wp_bind. erewrite wp_eq by exact Epage. rewrite Eu. apply wp_bind. eapply wp_ldw; [done|done|]. intros _.
  apply wp_bind. eapply wp_get_nfree; [done|done|exact P5|lia|]. apply wp_bind.
  eapply wp_set_nfree; [done|done|done|exact P5|unfold PAGE_SIZE in *; lia|lia|lia|]. intros h1 Hs1. replace (n + 1 - 1) with n in Hs1 by lia.
  apply wp_bind. eapply wp_get_nfree; [done|done|by apply upd_eq|lia|]. apply wp_bind.
  assert (∀ off h2, sees h2 (set_mem (upd (upd (v_mem v) (g_ref g + 12) (ref_word o n)) (g_ref g + 12) (ref_word off n)) v) →
    ref_word off n = free_word fr →
    wp (on_t heap_unlock ;; mret (g_page g + o)) (λ r h', r = g_page g + o ∧
      let v' := set_held false (set_mem (upd (v_mem v) (g_ref g + 12) (free_word fr)) v) in
      sees h' v' ∧ heap_ok v' X (L1 ++ mk_gpage (g_ref g) (g_page g) (g_type g) fr :: L2) B) h2) as Hend.
  { intros off h2 Hs2 Eoff. rewrite Eoff in Hs2. apply wp_bind.
    eapply wp_unlock; [eapply sees_mem_ext; [|exact Hs2]; intros a; symmetry; apply upd_upd|done|]. intros h3 Hs3. apply wp_ret. split; [done|].
    split; [exact Hs3|]. apply heap_ok_held. eapply heap_ok_replace; [exact Hok|done..| |intros a Ha _; by apply upd_ne].
    split; cbn; [done..| |by rewrite upd_eq|].
    - rewrite upd_ne by lia. done.
    - eapply free_links_ext; [|exact (proj2 P6)]. intros o' Ho'. apply upd_ne. intros E.
      apply (ref_not_page _ _ _ _ Hok (g_ref g) g (page_in_refs _ X g Hg) Hg). destruct (page_facts _ _ _ _ Hok g Hg) as (G1 & _).
      rewrite <-(in_page (g_ref g) 12), <-E by (try lia; by destruct (ref_facts _ _ _ _ Hok _ (page_in_refs _ X g Hg)) as (_ & _ & _ & _ & _ & ? & _)).
      rewrite Forall_forall in Hoffs. apply page_start; [done|]. by apply (Hoffs o'). }
  destruct fr as [|o2 fr]; cbn [length] in *.
  - rewrite (proj1 P6). cbn [Z.eqb negb]. apply wp_bind, wp_kassert. split; [done|]. eapply wp_set_offset; [exact Hs1|done|done|by apply upd_eq|lia|done|].
    intros h2 Hs2. eapply Hend; [exact Hs2|done].
  - apply Forall_cons in Hoffs as [Ho2 Hoffs]. destruct (block_word_ok _ _ _ _ g o2 Hok Hg Ho2 P1) as (_ & Hbw2 & Eu2 & Eu3).
    destruct (off_facts _ _ P1 Ho2) as (Q1 & Q2 & Q3).
    rewrite (proj1 P6), (proj2 (Z.eqb_neq _ 0)) by (destruct Hbw2; unfold MIPS_KSEG0 in *; lia). cbn [negb].
    apply wp_bind, wp_kassert. split; [apply Z.ltb_lt; unfold n; cbn [length]; lia|]. rewrite Eu3. apply wp_bind, wp_kassert. split; [lia|].
    eapply wp_set_offset; [exact Hs1|done|done|by apply upd_eq|lia|unfold PAGE_SIZE in *; lia|]. intros h2 Hs2. eapply Hend; [exact Hs2|done].
Qed.

(** ** The search for a page *)

Lemma heap_length v X L B : heap_ok v X L B → Z.of_nat (length L) < 2 ^ 30.
Proof using.
  intros Hok. assert (Nat.le (length (g_ref <$> L)) (length (seqZ MIPS_KSEG0 (2 ^ 29)))) as Hle.
  { apply submseteq_length, NoDup_submseteq.
    - pose proof (ho_nodup _ _ _ _ Hok) as Hnd. by apply NoDup_app in Hnd as (_ & _ & ?).
    - intros p Hp. destruct (ref_facts _ _ _ _ Hok p ltac:(apply elem_of_app; by right)) as (_ & _ & _ & _ & _ & _ & H1 & H2 & _).
      apply elem_of_seqZ. unfold MIPS_KSEG0, MIPS_KSEG1 in *. lia. }
  rewrite length_fmap, length_seqZ in Hle. lia.
Qed.

Lemma blocktype_run sz (h : kheap T) : 0 ≤ sz ≤ 2048 →
  ∃ t, blocktype sz h = Ok (t, h) ∧ 0 ≤ t < NSIZES ∧ sz ≤ size_of t ∧ ∀ t', 0 ≤ t' < t → size_of t' < sz.
Proof using.
  intros Hsz. unfold blocktype. change (seqZ 0 NSIZES) with [0; 1; 2; 3; 4; 5; 6; 7]. cbn [for_some]. mred.
  assert (∀ t, 0 ≤ t < NSIZES → (∀ t', t' ∈ seqZ 0 t → (sz <=? size_of t') = false) → ∀ t', 0 ≤ t' < t → size_of t' < sz) as Hsm.
  { intros t _ H t' Ht'. apply Z.leb_gt, H, elem_of_seqZ. lia. }
  assert ((sz <=? size_of 7) = true) as E7 by (apply Z.leb_le; change (size_of 7) with 2048; lia).
  destruct (sz <=? size_of 0) eqn:E0; [|destruct (sz <=? size_of 1) eqn:E1; [|destruct (sz <=? size_of 2) eqn:E2; [|
    destruct (sz <=? size_of 3) eqn:E3; [|destruct (sz <=? size_of 4) eqn:E4; [|destruct (sz <=? size_of 5) eqn:E5; [|
    destruct (sz <=? size_of 6) eqn:E6; [|rewrite E7]]]]]]];
  (eexists; split; [done|]; split; [done|]; split; [by apply Z.leb_le|]; apply Hsm; [done|];
    intros t' Ht'; repeat (apply elem_of_cons in Ht' as [->|Ht']; [assumption|]); by apply not_elem_of_nil in Ht').
Qed.

Lemma linked_head next p l : (∀ x, x ∈ l → x ≠ 0) → linked next p l → p = 0 ↔ l = [].
Proof using. destruct l as [|x l]; cbn; [done|]. intros H [-> _]. split; [|done]. intros E. by destruct (H x ltac:(by left)). Qed.

Lemma find_page_run h v X L B t base :
  sees h v → heap_ok v X L B → 0 ≤ t < NSIZES → v_bases v !! Z.to_nat t = Some base →
  ∃ r, find_page t base h = Ok (r, h) ∧
    match r with
    | Some p => ∃ L1 g L2, L = L1 ++ g :: L2 ∧ p = g_ref g ∧ g_type g = t ∧ g_free g ≠ []
    | None => ∀ g, g ∈ L → g_type g = t → g_free g = []
    end.
Proof using.
  intros Hs Hok Ht Hb. pose proof (ho_sizes _ _ _ _ Hok t base ltac:(lia) Hb) as Hl.
  pose proof (ho_pages _ _ _ _ Hok) as Hp. rewrite Forall_forall in Hp. pose proof (heap_length _ _ _ _ Hok) as Hlen.
  set (F := filter (λ g, g_type g = t) L) in *.
  assert (Z.of_nat (length F) < 2 ^ 30) as HlenF.
  { pose proof (length_filter (λ g, g_type g = t) L) as H. fold F in H. lia. }
  enough (wp (find_page t base) (λ r h', h' = h ∧ match r with
    | Some p => ∃ g, g ∈ F ∧ p = g_ref g ∧ g_free g ≠ [] | None => ∀ g, g ∈ F → g_free g = [] end) h) as Hwp.
  { apply wp_run in Hwp as (r & h' & Hrun & -> & Hr). exists r. split; [done|]. destruct r as [p|].
    - destruct Hr as (g & Hg & -> & Hf). apply list_elem_of_filter in Hg as [Hty Hg]. apply list_elem_of_split in Hg as (L1 & L2 & ->). by exists L1, g, L2.
    - intros g Hg Hty. apply Hr, list_elem_of_filter. done. }
  assert (∀ g, g ∈ F → g ∈ L ∧ g_type g = t) as HF by (intros g [? ?]%list_elem_of_filter; done).
  unfold find_page. apply (wp_while_left _ (λ n p h', h' = h ∧ ∃ d rest, F = d ++ rest ∧ linked (v_mem v) p (g_ref <$> rest) ∧
    (∀ g, g ∈ d → g_free g = []) ∧ n = Z.of_nat (length rest)) _ (Z.of_nat (length F))); [|lia|].
  { split; [done|]. exists [], F. split_and!; try done. intros g Hg. by apply not_elem_of_nil in Hg. }
  intros n p h' (-> & d & rest & EF & Hlk & Hd & ->). split; [lia|]. destruct rest as [|g rest]; cbn in Hlk.
  { subst p. cbn. apply wp_ret. rewrite app_nil_r in EF. by rewrite EF. }
  destruct Hlk as [-> Hlk]. assert (g ∈ F) as HgF by (rewrite EF; apply elem_mid). destruct (HF g HgF) as [Hg Hty].
  pose proof (Hp g Hg) as Hpg. destruct (page_free_length _ _ Hpg) as [_ Hnl]. destruct (page_of_ref _ _ _ _ _ g Hs Hok Hg) as [_ Ebt].
  destruct (ref_word_ok _ _ _ _ (g_ref g) 12 Hok (page_in_refs L X g Hg) ltac:(set_solver)) as [_ Hw12].
  destruct (ref_word_ok _ _ _ _ (g_ref g) 0 Hok (page_in_refs L X g Hg) ltac:(set_solver)) as [_ Hw0]. rewrite Z.add_0_r in Hw0.
  rewrite (proj2 (Z.eqb_neq _ 0)) by (destruct Hw0; unfold MIPS_KSEG0 in *; lia).
  apply wp_bind. erewrite wp_eq by exact Ebt. apply wp_bind, wp_kassert. split; [by apply Z.eqb_eq|].
  apply wp_bind. eapply wp_get_nfree; [done|done|exact (po_word _ _ Hpg)|lia|]. destruct (g_free g) as [|o fr] eqn:Efr; cbn [length].
  - cbn [Z.ltb Z.of_nat Z.compare]. apply wp_bind. unfold get_next_samesize. eapply wp_ldw; [done|done|]. intros _. apply wp_ret.
    exists (Z.of_nat (length rest)). split; [cbn [length]; lia|]. split; [done|]. exists (d ++ [g]), rest.
    rewrite <-app_assoc. split_and!; try done. intros g' [Hg'| ->%list_elem_of_singleton]%elem_of_app; [by apply Hd|done].
  - rewrite (proj2 (Z.ltb_lt 0 _)) by lia. apply wp_ret. split; [done|]. exists g. split_and!; [done|done|by rewrite Efr].
Qed.
End frames.
