(* ===== verification/KmallocRefs.v ===== *)
(** * The descriptors of heap pages ([allocpageref], [freepageref])

    A descriptor is reserved by a bit of the bitmap of its page.  Allocation
    finds a clear bit when there is one, getting a page of descriptors first
    if need be, and release clears the bit.  Pages of small blocks and their
    lists. *)

From S2P Require Import Prelude Machine Kmalloc KmallocInv KmallocOps.

(** ** Bits of a word *)

Lemma full_word w : 0 ≤ w < 2 ^ 32 → (∀ j, 0 ≤ j < 32 → Z.testbit w j = true) → w = 0xffffffff.
Proof.
  intros Hw Hj. change 0xffffffff with (Z.ones 32). apply Z.bits_inj'. intros n Hn. destruct (decide (n < 32)) as [Hlt|Hge].
  - rewrite Hj, Z.ones_spec_low by lia. done.
  - rewrite Z.ones_spec_high by lia. rewrite <-(Z.mod_small w (2 ^ 32)) by done. by rewrite Z.mod_pow2_bits_high by lia.
Qed.

(** Changing one bit of the bitmap *)
Definition set_bits (root : kheap_root) (i : nat) (w num : Z) : kheap_root :=
  mk_root (r_page root) (<[i := w]> (pagerefs_inuse root)) num.

Lemma inuse_word root i w num k : length (pagerefs_inuse root) = 8%nat → (i < 8)%nat → 0 ≤ k →
  inuse (set_bits root i w num) k = if decide (k / 32 = Z.of_nat i) then Z.testbit w (k `mod` 32) else inuse root k.
Proof.
  intros Hlen Hi Hk. unfold inuse, set_bits. cbn. assert (0 ≤ k / 32) by (apply Z.div_pos; lia). case_decide as E.
  - rewrite E, Nat2Z.id, list_lookup_insert_eq by lia. done.
  - rewrite list_lookup_insert_ne by lia. done.
Qed.

Lemma bit_index i j k : 0 ≤ j < 32 → k / 32 = i → k `mod` 32 = j ↔ k = i * 32 + j.
Proof. intros Hj Hk. pose proof (Z.div_mod k 32 ltac:(lia)). split; [lia|]. intros ->. rewrite Z.add_comm, Z_mod_plus_full, Z.mod_small; lia. Qed.

Lemma inuse_set root i w j num k :
  length (pagerefs_inuse root) = 8%nat → (i < 8)%nat → pagerefs_inuse root !! i = Some w → 0 ≤ j < 32 → 0 ≤ k →
  inuse (set_bits root i (Z.lor w (2 ^ j)) num) k = bool_decide (k = Z.of_nat i * 32 + j) || inuse root k.
Proof.
  intros Hlen Hi Hw Hj Hk. rewrite inuse_word by done. case_decide as E.
  - rewrite Z.lor_spec, Z.pow2_bits_eqb by lia. unfold inuse. rewrite E, Nat2Z.id, Hw. cbn [default]. rewrite orb_comm. f_equal.
    rewrite Z.eqb_sym. apply eq_bool_prop_intro. rewrite bool_decide_spec. rewrite <-(bit_index _ _ _ Hj E).
    destruct (Z.eqb_spec (k `mod` 32) j); cbn; tauto.
  - rewrite bool_decide_false; [done|]. intros ->. rewrite Z.add_comm, Z.div_add, Z.div_small in E by lia. lia.
Qed.

Lemma inuse_clear root i w j num k :
  length (pagerefs_inuse root) = 8%nat → (i < 8)%nat → pagerefs_inuse root !! i = Some w → 0 ≤ j < 32 → 0 ≤ k →
  inuse (set_bits root i (Z.land w (Z.lxor (2 ^ j) 0xffffffff)) num) k = negb (bool_decide (k = Z.of_nat i * 32 + j)) && inuse root k.
Proof.
  intros Hlen Hi Hw Hj Hk. rewrite inuse_word by done. pose proof (Z.mod_pos_bound k 32 ltac:(lia)). case_decide as E.
  - rewrite Z.land_spec, Z.lxor_spec, Z.pow2_bits_eqb by lia. change 0xffffffff with (Z.ones 32). rewrite Z.ones_spec_low by lia.
    unfold inuse. rewrite E, Nat2Z.id, Hw. cbn [default]. rewrite andb_comm. f_equal.
    rewrite xorb_true_r. f_equal. rewrite Z.eqb_sym. apply eq_bool_prop_intro. rewrite bool_decide_spec.
    rewrite <-(bit_index _ _ _ Hj E). destruct (Z.eqb_spec (k `mod` 32) j); cbn; tauto.
  - rewrite bool_decide_false; [done|]. intros ->. rewrite Z.add_comm, Z.div_add, Z.div_small in E by lia. lia.
Qed.

(** One element more satisfies the predicate. *)
Lemma filter_flip {A} (P Q : A → Prop) `{!∀ x, Decision (P x), !∀ x, Decision (Q x)} l x :
  NoDup l → x ∈ l → ¬ P x → Q x → (∀ y, y ∈ l → y ≠ x → P y ↔ Q y) → length (filter Q l) = S (length (filter P l)).
Proof.
  intros Hnd Hx HP HQ Heq. induction l as [|y l IH]; [by apply not_elem_of_nil in Hx|]. apply NoDup_cons in Hnd as [Hy Hnd].
  rewrite !filter_cons. apply elem_of_cons in Hx as [<-|Hx].
  - rewrite decide_True, decide_False by done. cbn. f_equal. f_equal. apply filter_ext_in. intros z Hz. symmetry. apply Heq; [by right|]. by intros ->.
  - assert (P y ↔ Q y) as Hpq by (apply Heq; [by left|by intros ->]). specialize (IH Hnd Hx (λ z Hz, Heq z (list_elem_of_further z y l Hz))).
    destruct (decide (P y)) as [Hp|Hp], (decide (Q y)) as [Hq|Hq]; cbn; [by rewrite IH|tauto|tauto|done].
Qed.

Lemma count_flip root root' j : 0 ≤ j < NPAGEREFS_PER_PAGE → inuse root j = false →
  (∀ k, 0 ≤ k → inuse root' k = bool_decide (k = j) || inuse root k) → count_inuse root' = S (count_inuse root).
Proof.
  intros Hj Hc Heq. unfold count_inuse. apply (filter_flip _ _ _ j).
  - apply NoDup_seqZ.
  - by apply elem_of_seqZ.
  - by rewrite Hc.
  - rewrite Heq by lia. by rewrite bool_decide_true.
  - intros k [Hk _]%elem_of_seqZ Hne. by rewrite Heq, bool_decide_false by done.
Qed.

Section refs.
Context {T : Type} {src : PageSource T} {laws : PageLaws T}.

(** ** Reserving a descriptor *)

Lemma roots_split {A} (l : list A) w x y : l !! w = Some x →
  l = take w l ++ x :: drop (S w) l ∧ <[w := y]> l = take w l ++ y :: drop (S w) l.
Proof using.
  intros Hw. split; [symmetry; by apply take_drop_middle|]. apply insert_take_drop. by eapply lookup_lt_Some.
Qed.

Lemma root_blocks_same roots w root root' : roots !! w = Some root → r_page root' = r_page root →
  root_blocks (<[w := root']> roots) = root_blocks roots.
Proof using.
  intros Hw E. destruct (roots_split roots w root root' Hw) as [E1 E2]. rewrite E2. rewrite E1 at 3. unfold root_blocks.
  rewrite !filter_app, !filter_cons, !fmap_app, E. destruct (decide (r_page root ≠ 0)); cbn; by rewrite ?E.
Qed.

Lemma root_blocks_new roots w root root' : roots !! w = Some root → r_page root = 0 → r_page root' ≠ 0 →
  root_blocks (<[w := root']> roots) ≡ₚ (r_page root', 1) :: root_blocks roots.
Proof using.
  intros Hw E Hne. destruct (roots_split roots w root root' Hw) as [E1 E2]. rewrite E2. rewrite E1 at 3. unfold root_blocks.
  rewrite !filter_app, !filter_cons, !fmap_app, decide_True, decide_False by (done || (intros Hx; by apply Hx)). cbn.
  by rewrite Permutation_middle.
Qed.

Lemma ref_in_same roots w root root' p : roots !! w = Some root → r_page root' = r_page root →
  ref_in roots p → ref_in (<[w := root']> roots) p.
Proof using.
  intros Hw E (w2 & r2 & j & H2 & Hp & Hj & ->). destruct (decide (w2 = w)) as [->|Hne].
  - assert (r2 = root) as -> by congruence. exists w, root', j. rewrite E, list_lookup_insert_eq by (by eapply lookup_lt_Some). done.
  - exists w2, r2, j. by rewrite list_lookup_insert_ne.
Qed.

(** The pages of descriptors are different. *)
Lemma root_unique v X L B w w' root root' i :
  heap_ok v X L B → v_roots v !! w = Some root → v_roots v !! w' = Some root' → r_page root ≠ 0 → r_page root' ≠ 0 →
  r_page root / PAGE_SIZE = i → r_page root' / PAGE_SIZE = i → w = w'.
Proof using.
  intros Hok Hw Hw' Hp Hp' E E'. pose proof (ho_apart _ _ _ _ Hok) as Hnd. unfold hblocks in Hnd.
  rewrite !bind_app in Hnd. apply NoDup_app in Hnd as (_ & _ & Hnd). apply NoDup_app in Hnd as (Hnd & _ & _). unfold root_blocks in Hnd.
  assert (∀ l : list kheap_root, ((λ r, (r_page r, 1)) <$> filter (λ r, r_page r ≠ 0) l) ≫= pages_of =
    l ≫= λ r, if decide (r_page r ≠ 0) then [r_page r / PAGE_SIZE] else []) as Hflat.
  { intros l. induction l as [|r l IH]; [done|]. rewrite filter_cons. cbn. destruct (decide (r_page r ≠ 0)); cbn; [|by rewrite IH].
    rewrite IH, pages_of_1. done. }
  rewrite Hflat in Hnd. eapply (NoDup_bind_ne _ _ _ _ _ _ i Hnd Hw Hw'); rewrite decide_True by done; apply list_elem_of_singleton; congruence.
Qed.

Lemma root_page_facts v X L B w root : heap_ok v X L B → v_roots v !! w = Some root → r_page root ≠ 0 →
  r_page root `mod` PAGE_SIZE = 0 ∧ MIPS_KSEG0 < r_page root ∧ r_page root + PAGE_SIZE ≤ MIPS_KSEG1 ∧
  ∀ j, 0 ≤ j < NPAGEREFS_PER_PAGE → (r_page root + j * SIZEOF_PAGEREF) / PAGE_SIZE = r_page root / PAGE_SIZE.
Proof using.
  intros Hok Hw Hp. assert ((r_page root, 1) ∈ hblocks (v_roots v) L B) as Hb.
  { unfold hblocks. rewrite !elem_of_app. right. left. by eapply root_block_in. }
  destruct (ho_range _ _ _ _ Hok _ Hb) as (H1 & H2 & H3 & H4). cbn in *. split_and!; [done|done|lia|].
  intros j Hj. apply page_start; [done|]. unfold NPAGEREFS_PER_PAGE, SIZEOF_PAGEREF, PAGE_SIZE in *. change (4096 / 16) with 256 in Hj. lia.
Qed.

(** A reference to a descriptor determines the page of descriptors. *)
Lemma ref_root v X L B w w' root root' j j' :
  heap_ok v X L B → v_roots v !! w = Some root → v_roots v !! w' = Some root' → r_page root ≠ 0 → r_page root' ≠ 0 →
  0 ≤ j < NPAGEREFS_PER_PAGE → 0 ≤ j' < NPAGEREFS_PER_PAGE →
  r_page root + j * SIZEOF_PAGEREF = r_page root' + j' * SIZEOF_PAGEREF → w = w' ∧ j = j'.
Proof using.
  intros Hok Hw Hw' Hp Hp' Hj Hj' E. destruct (root_page_facts _ _ _ _ _ _ Hok Hw Hp) as (_ & _ & _ & F).
  destruct (root_page_facts _ _ _ _ _ _ Hok Hw' Hp') as (_ & _ & _ & F').
  assert (w = w') as <-.
  { eapply (root_unique _ _ _ _ _ _ _ _ _ Hok Hw Hw' Hp Hp' eq_refl). rewrite <-(F j), <-(F' j') by done. by rewrite E. }
  split; [done|]. assert (root = root') as <- by congruence. unfold SIZEOF_PAGEREF in *. lia.
Qed.

Lemma reserve_ok v X L B w root i wd j :
  heap_ok v X L B → v_roots v !! w = Some root → pagerefs_inuse root !! i = Some wd → 0 ≤ j < 32 → Z.testbit wd j = false →
  r_page root ≠ 0 →
  heap_ok (set_roots (<[w := set_bits root i (Z.lor wd (2 ^ j)) (numinuse root + 1)]> (v_roots v)) v)
    ((r_page root + (Z.of_nat i * 32 + j) * SIZEOF_PAGEREF) :: X) L B.
Proof using.
  intros Hok Hw Hi Hj Hbit Hp. pose proof Hok as [H1 H2 H3 H4 H5 H6 H7 H8 H9 H10 H11]. rewrite Forall_forall in H2.
  pose proof (H2 root (list_elem_of_lookup_2 _ _ _ Hw)) as [R1 R2 R3 R4]. pose proof (lookup_lt_Some _ _ _ Hi) as Hil. rewrite R1 in Hil.
  set (b := Z.of_nat i * 32 + j) in *. assert (0 ≤ b < NPAGEREFS_PER_PAGE) as Hb by (unfold b; change NPAGEREFS_PER_PAGE with 256; lia).
  set (root' := set_bits _ _ _ _). set (p := r_page root + b * SIZEOF_PAGEREF).
  assert (inuse root b = false) as Hclear.
  { unfold inuse, b. rewrite (Z.add_comm _ j), Z.div_add, Z.div_small, Z.add_0_l, Nat2Z.id, Hi, Z_mod_plus_full, Z.mod_small by lia. done. }
  assert (∀ k, 0 ≤ k → inuse root' k = bool_decide (k = b) || inuse root k) as Hset by (intros k Hk; by apply inuse_set).
  assert (p ∉ X ++ (g_ref <$> L)) as Hfresh.
  { intros Hin. assert (inuse root b = true) as E; [|by rewrite Hclear in E]. apply R3; [done|]. by split. }
  split; cbn; try done.
  - by rewrite length_insert.
  - apply Forall_forall. intros r Hr. apply list_elem_of_lookup_1 in Hr as [w2 Hr]. destruct (decide (w2 = w)) as [->|Hne].
    + rewrite list_lookup_insert_eq in Hr by (by eapply lookup_lt_Some). apply (inj Some) in Hr as <-. split.
      * cbn. by rewrite length_insert.
      * apply Forall_insert; [done|]. apply lor_u32; [by eapply (Forall_lookup_1 _ _ _ _ R2)|]. split; [by apply Z.pow_nonneg|apply Z.pow_lt_mono_r; lia].
      * intros k Hk. rewrite Hset by lia. cbn [r_page root' set_bits]. rewrite orb_true_iff, bool_decide_eq_true, elem_of_cons, (R3 k Hk).
        unfold p, SIZEOF_PAGEREF in *. split; [intros [->|[? ?]]; auto|]. intros [_ [E|?]]; [left; lia|by right].
      * cbn. rewrite (count_flip root root' b Hb Hclear Hset), R4. lia.
    + rewrite list_lookup_insert_ne in Hr by done. destruct (H2 r (list_elem_of_lookup_2 _ _ _ Hr)) as [Q1 Q2 Q3 Q4]. split; [done..| |done].
      intros k Hk. rewrite (Q3 k Hk), elem_of_cons. split; [intros [? ?]; auto|]. intros [Hrp [E|?]]; [|done].
      by destruct (ref_root _ _ _ _ _ _ _ _ _ _ Hok Hr Hw Hrp Hp Hk Hb E).
  - apply Forall_cons. split; [|eapply Forall_impl; [exact H7|]; intros q; by apply (ref_in_same _ w root)].
    exists w, root', b. rewrite list_lookup_insert_eq by (by eapply lookup_lt_Some). done.
  - by apply NoDup_cons.
  - unfold hblocks. by rewrite (root_blocks_same _ w root).
  - unfold hblocks. by rewrite (root_blocks_same _ w root).
  - unfold hblocks. by rewrite (root_blocks_same _ w root).
Qed.

(** A new page of descriptors *)
Lemma give_page_ok v X L B w root va s' :
  heap_ok v X L B → v_roots v !! w = Some root → r_page root = 0 → kp_block s' (va, 1) →
  (∀ x, kp_block (v_pages v) x → kp_block s' x ∧ ∀ i, i ∈ pages_of x → i ∉ pages_of (va, 1)) →
  va `mod` PAGE_SIZE = 0 → MIPS_KSEG0 < va → va + PAGE_SIZE ≤ MIPS_KSEG1 →
  heap_ok (set_pages s' (set_roots (<[w := mk_root va (pagerefs_inuse root) (numinuse root)]> (v_roots v)) v)) X L B.
Proof using.
  intros Hok Hw Hp0 Hva Hnew Hal Hlo Hhi. pose proof Hok as [H1 H2 H3 H4 H5 H6 H7 H8 H9 H10 H11]. rewrite Forall_forall in H2.
  pose proof (H2 root (list_elem_of_lookup_2 _ _ _ Hw)) as [R1 R2 R3 R4]. set (root' := mk_root va _ _).
  assert (r_page root' ≠ 0) as Hp' by (cbn; unfold MIPS_KSEG0 in *; lia).
  assert (hblocks (<[w := root']> (v_roots v)) L B ≡ₚ (va, 1) :: hblocks (v_roots v) L B) as Hperm.
  { unfold hblocks. rewrite (root_blocks_new _ w root root') by done. cbn. symmetry. apply Permutation_middle. }
  assert (∀ i, i ∈ pages_of (va, 1) → i ∉ hblocks (v_roots v) L B ≫= pages_of) as Hdisj.
  { intros i Hi (x & Hx & Hin)%list_elem_of_bind. rewrite Forall_forall in H9. by eapply (proj2 (Hnew x (H9 x Hin))). }
  split; cbn; try done.
  - by rewrite length_insert.
  - apply Forall_forall. intros r Hr. apply list_elem_of_lookup_1 in Hr as [w2 Hr]. destruct (decide (w2 = w)) as [->|Hne].
    + rewrite list_lookup_insert_eq in Hr by (by eapply lookup_lt_Some). apply (inj Some) in Hr as <-. split; [done..| |done].
      intros k Hk. change (inuse root' k) with (inuse root k). rewrite (R3 k Hk). split; [by intros [? _]|]. intros [_ Hin].
      exfalso. destruct (ref_facts _ _ _ _ Hok _ Hin) as (w3 & r3 & Hw3 & Hp3 & E & _). cbn in E.
      rewrite page_start in E by (try done; unfold NPAGEREFS_PER_PAGE, SIZEOF_PAGEREF, PAGE_SIZE in *; change (4096 / 16) with 256 in Hk; lia).
      apply (Hdisj (va / PAGE_SIZE)); [rewrite pages_of_1; by apply list_elem_of_singleton|].
      apply list_elem_of_bind. exists (r_page r3, 1). split; [rewrite pages_of_1, E; by apply list_elem_of_singleton|].
      unfold hblocks. rewrite !elem_of_app. right. left. by eapply root_block_in.
    + rewrite list_lookup_insert_ne in Hr by done. by apply H2, (list_elem_of_lookup_2 _ w2).
  - eapply Forall_impl; [exact H7|]. intros q (w2 & r2 & j & Hw2 & Hp2 & Hj & ->). exists w2, r2, j.
    rewrite list_lookup_insert_ne; [done|]. intros ->. assert (r2 = root) as -> by congruence. done.
  - rewrite Hperm. apply Forall_cons. split; [done|]. eapply Forall_impl; [exact H9|]. intros x Hx. by apply Hnew.
  - rewrite Hperm. cbn. apply NoDup_app. split; [rewrite pages_of_1; apply NoDup_singleton|]. split; [|done]. intros i Hi. by apply Hdisj.
  - intros x. rewrite Hperm, elem_of_cons. intros [->|Hx]; [|by apply H11]. cbn. split_and!; try done; lia.
Qed.

Lemma root_count v X L B w root : heap_ok v X L B → v_roots v !! w = Some root → 0 ≤ numinuse root ≤ NPAGEREFS_PER_PAGE.
Proof using.
  intros Hok Hw. pose proof (ho_roots _ _ _ _ Hok) as H. rewrite Forall_forall in H.
  destruct (H root (list_elem_of_lookup_2 _ _ _ Hw)) as [_ _ _ ->]. split; [lia|]. unfold count_inuse.
  pose proof (length_filter (λ j, inuse root j = true) (seqZ 0 NPAGEREFS_PER_PAGE)) as Hl. rewrite length_seqZ in Hl.
  change NPAGEREFS_PER_PAGE with 256 in *. lia.
Qed.

(** What [allocpageref] changes *)
Record reserved (v v' : hview) : Prop := {
  rs_held : v_held v' = v_held v;
  rs_mem : v_mem v' = v_mem v;
  rs_bases : v_bases v' = v_bases v;
  rs_all : v_all v' = v_all v;
  rs_blocks x : kp_block (v_pages v) x → kp_block (v_pages v') x
}.

Lemma sees_put_root h v w r : sees h v →
  sees (set_kheaproots (<[Z.to_nat w := r]> (kheaproots h)) h) (set_roots (<[Z.to_nat w := r]> (v_roots v)) v).
Proof using. intros [H1 H2 H3 H4 H5 H6]. split; try done. cbn. by rewrite H4. Qed.

Lemma wp_get_root h v w r Q : sees h v → v_roots v !! Z.to_nat w = Some r → Q r h → wp (get_root w) Q h.
Proof using. intros Hs Hw HQ. unfold get_root. apply wp_bind, wp_gets, wp_deref. exists r. by rewrite (se_roots _ _ Hs). Qed.

Lemma take_ref_run h v X L B w root i wd j :
  sees h v → heap_ok v X L B → v_held v = true → kp_avail 1 (v_pages v) →
  v_roots v !! Z.to_nat w = Some root → pagerefs_inuse root !! Z.to_nat i = Some wd → 0 ≤ i → 0 ≤ j < 32 → Z.testbit wd j = false →
  wp (take_ref w i j) (λ p h', p ≠ 0 ∧ ∃ v', sees h' v' ∧ heap_ok v' (p :: X) L B ∧ reserved v v') h.
Proof using.
  intros Hs Hok Hheld Hav Hw Hi Hi0 Hj Hbit. pose proof (root_count _ _ _ _ _ _ Hok Hw) as Hcnt.
  pose proof (lookup_lt_Some _ _ _ Hw) as Hwl.
  set (root' := mk_root (r_page root) (<[Z.to_nat i := Z.lor wd (2 ^ j)]> (pagerefs_inuse root)) (numinuse root + 1)).
  unfold take_ref. apply wp_bind. eapply wp_get_root; [done|done|]. apply wp_bind, wp_deref. exists wd. split; [done|].
  apply wp_bind. unfold put_root. apply wp_modify. rewrite u32_id by (change NPAGEREFS_PER_PAGE with 256 in *; lia). fold root'.
  pose proof (sees_put_root h v w root' Hs) as Hs1. set (h1 := set_kheaproots _ h) in *. set (v1 := set_roots _ v) in *.
  assert (v_roots v1 !! Z.to_nat w = Some root') as Hw1 by (unfold v1; cbn; by rewrite list_lookup_insert_eq).
  apply wp_bind. eapply wp_get_root; [exact Hs1|done|]. cbn [r_page root']. apply wp_bind. destruct (Z.eqb_spec (r_page root) 0) as [Hp0|Hp0].
  - unfold allocpagerefpage. apply wp_bind. eapply wp_get_root; [exact Hs1|done|]. apply wp_bind, wp_kassert. split; [by apply Z.eqb_eq|].
    apply wp_bind. eapply wp_unlock; [exact Hs1|done|]. intros h2 Hs2. apply wp_bind.
    eapply wp_alloc; [exact Hs2|done|lia|by eapply avail_law; [|exact Hav]|]. intros va s' h3 Hs3 Hva Hnew _ Hal Hlo Hhi.
    apply wp_bind. eapply wp_lock; [exact Hs3|done|]. intros h4 Hs4. rewrite (proj2 (Z.eqb_neq va 0)) by (unfold MIPS_KSEG0 in *; lia).
    apply wp_bind, wp_kassert. split; [by apply Z.eqb_eq|]. apply wp_bind. eapply wp_get_root; [exact Hs4|done|].
    cbn [r_page root']. rewrite (proj2 (Z.eqb_eq _ 0) Hp0). cbn [negb]. unfold put_root. apply wp_modify.
    pose proof (sees_put_root h4 _ w (mk_root va (pagerefs_inuse root') (numinuse root')) Hs4) as Hs5. set (h5 := set_kheaproots _ h4) in *.
    apply wp_bind. eapply wp_get_root; [exact Hs5|cbn; by rewrite list_lookup_insert_eq by (by rewrite length_insert)|]. cbn [r_page].
    rewrite (proj2 (Z.eqb_neq va 0)) by (unfold MIPS_KSEG0 in *; lia). apply wp_ret.
    assert (0 ≤ i * 32 + j) by lia. split; [unfold MIPS_KSEG0, SIZEOF_PAGEREF in *; lia|]. eexists. split; [exact Hs5|].
    cbn [v_roots set_held set_pages set_roots v1]. rewrite list_insert_insert_eq. split; [|split; try done; intros x Hx; by apply Hnew].
    pose proof (give_page_ok v X L B (Z.to_nat w) root va s' Hok Hw Hp0 Hva Hnew Hal Hlo ltac:(lia)) as Hgive.
    pose proof (reserve_ok _ X L B (Z.to_nat w) _ (Z.to_nat i) wd j Hgive ltac:(cbn; by rewrite list_lookup_insert_eq) Hi Hj Hbit
      ltac:(cbn; unfold MIPS_KSEG0 in *; lia)) as Hres.
    cbn in Hres. rewrite list_insert_insert_eq, Z2Nat.id in Hres by lia. apply (heap_ok_held _ _ _ _ true) in Hres. exact Hres.
  - apply wp_ret, wp_bind. eapply wp_get_root; [exact Hs1|done|]. cbn [r_page root']. rewrite (proj2 (Z.eqb_neq _ 0)) by done. apply wp_ret.
    pose proof (reserve_ok _ X L B (Z.to_nat w) root (Z.to_nat i) wd j Hok Hw Hi Hj Hbit Hp0) as Hres. rewrite Z2Nat.id in Hres by lia.
    destruct (root_page_facts _ _ _ _ _ _ Hok Hw Hp0) as (_ & Hlo & _). assert (0 ≤ i * 32 + j) by lia.
    split; [unfold MIPS_KSEG0, SIZEOF_PAGEREF in *; lia|]. exists v1. split; [exact Hs1|]. split; [exact Hres|]. by split.
Qed.

Lemma clear_bit_exists refs root : root_ok refs root → numinuse root < NPAGEREFS_PER_PAGE →
  ∃ b, 0 ≤ b < NPAGEREFS_PER_PAGE ∧ inuse root b = false.
Proof using.
  intros [R1 R2 R3 R4] Hn. rewrite R4 in Hn. unfold count_inuse in Hn.
  destruct (decide (Forall (λ j, inuse root j = true) (seqZ 0 NPAGEREFS_PER_PAGE))) as [Hall|Hex].
  - rewrite filter_all, length_seqZ in Hn; [change NPAGEREFS_PER_PAGE with 256 in Hn; lia|]. by apply Forall_forall.
  - apply not_Forall_Exists in Hex; [|intros j; apply _]. apply Exists_exists in Hex as (b & Hb%elem_of_seqZ & Hc). exists b.
    split; [lia|]. by apply not_true_is_false.
Qed.

(** The bits of a word that is not full *)
Lemma scan_bits_run h v w i root wd Q :
  sees h v → v_roots v !! Z.to_nat w = Some root → pagerefs_inuse root !! Z.to_nat i = Some wd → 0 ≤ wd < 2 ^ 32 → wd ≠ 0xffffffff →
  (∀ j, 0 ≤ j < 32 → Z.testbit wd j = false → wp (take_ref w i j) (λ p, Q (Some p)) h) → wp (scan_bits w i) Q h.
Proof using.
  intros Hs Hw Hi Hwd Hne HQ. unfold scan_bits.
  apply (wp_for_some _ _ (λ l h', h' = h ∧ ∃ k, l = seqZ k (32 - k) ∧ 0 ≤ k ≤ 32 ∧ ∀ j, 0 ≤ j < k → Z.testbit wd j = true)).
  - split; [done|]. exists 0. split_and!; [done|lia|lia|lia].
  - intros j l h' (-> & k & Hl & Hk & Hset). destruct (decide (k = 32)) as [->|Hk32]; [done|]. rewrite seqZ_cons in Hl by lia. injection Hl as -> ->.
    apply wp_bind. eapply wp_get_root; [done|done|]. apply wp_bind, wp_deref. exists wd. split; [done|]. rewrite land_pow2 by lia.
    destruct (Z.testbit wd k) eqn:E; cbn [negb].
    + apply wp_ret. split; [done|]. exists (k + 1). split_and!; [f_equal; lia|lia|lia|]. intros j Hj.
      destruct (decide (j = k)) as [->|]; [done|]. apply Hset. lia.
    + apply wp_bind. eapply wp_mono; [apply HQ; [lia|done]|]. intros p h' Hp. by apply wp_ret.
  - intros h' (-> & k & Hl & Hk & Hset). destruct (decide (k = 32)) as [->|Hk32]; [|by rewrite seqZ_cons in Hl by lia].
    by destruct (Hne (full_word wd Hwd Hset)).
Qed.

Lemma scan_words_run h v refs w root Q :
  sees h v → v_roots v !! Z.to_nat w = Some root → root_ok refs root → numinuse root < NPAGEREFS_PER_PAGE →
  (∀ i j wd, 0 ≤ i → pagerefs_inuse root !! Z.to_nat i = Some wd → 0 ≤ j < 32 → Z.testbit wd j = false →
    wp (take_ref w i j) (λ p, Q (Some p)) h) → wp (scan_words w) Q h.
Proof using.
  intros Hs Hw Hro Hn HQ. pose proof Hro as [R1 R2 R3 R4]. destruct (clear_bit_exists _ _ Hro Hn) as (b & Hb & Hclear).
  change NPAGEREFS_PER_PAGE with 256 in *. unfold scan_words. change INUSE_WORDS with 8.
  apply (wp_for_some _ _ (λ l h', h' = h ∧ ∃ k, l = seqZ k (8 - k) ∧ 0 ≤ k ≤ 8 ∧ ∀ i, 0 ≤ i < k → pagerefs_inuse root !! Z.to_nat i = Some 0xffffffff)).
  - split; [done|]. exists 0. split_and!; [done|lia|lia|lia].
  - intros i l h' (-> & k & Hl & Hk & Hfull). destruct (decide (k = 8)) as [->|Hk8]; [done|]. rewrite seqZ_cons in Hl by lia. injection Hl as -> ->.
    destruct (lookup_lt_is_Some_2 (pagerefs_inuse root) (Z.to_nat k) ltac:(lia)) as [wd Hwd].
    pose proof (Forall_lookup_1 _ _ _ _ R2 Hwd) as Hr. cbn beta in Hr.
    apply wp_bind. eapply wp_get_root; [done|done|]. apply wp_bind, wp_deref. exists wd. split; [done|].
    destruct (Z.eqb_spec wd 0xffffffff) as [->|Hne].
    + apply wp_ret. split; [done|]. exists (k + 1). split_and!; [f_equal; lia|lia|lia|]. intros i Hi.
      destruct (decide (i = k)) as [->|]; [done|]. apply Hfull. lia.
    + apply wp_bind. eapply scan_bits_run; [done|done|done|lia|done|]. intros j Hj Hbit. eapply wp_mono; [by eapply (HQ k j wd); [lia|..]|].
      intros p h' Hp. by apply wp_ret.
  - intros h' (-> & k & Hl & Hk & Hfull). destruct (decide (k = 8)) as [->|Hk8]; [|by rewrite seqZ_cons in Hl by lia].
    exfalso. assert (0 ≤ b / 32 < 8) as Hb32 by (split; [apply Z.div_pos; lia|apply Z.div_lt_upper_bound; lia]).
    pose proof (Z.mod_pos_bound b 32 ltac:(lia)).
    assert (Z.testbit (Z.ones 32) (b `mod` 32) = true) as E by (apply Z.ones_spec_low; lia).
    unfold inuse in Hclear. rewrite (Hfull (b / 32) Hb32) in Hclear. change (Z.testbit (Z.ones 32) (b `mod` 32) = false) in Hclear. congruence.
Qed.

(** There is a descriptor left. *)
Definition refs_left (roots : list kheap_root) : Prop := Exists (λ r, numinuse r < NPAGEREFS_PER_PAGE) roots.

Lemma allocpageref_run h v X L B :
  sees h v → heap_ok v X L B → v_held v = true → kp_avail 1 (v_pages v) → refs_left (v_roots v) →
  wp allocpageref (λ p h', p ≠ 0 ∧ ∃ v', sees h' v' ∧ heap_ok v' (p :: X) L B ∧ reserved v v') h.
Proof using.
  intros Hs Hok Hheld Hav Hleft. pose proof (ho_nroots _ _ _ _ Hok) as Hlen. unfold allocpageref. apply wp_bind. change NUM_PAGEREFPAGES with 16.
  apply (wp_for_some _ _ (λ l h', h' = h ∧ ∃ k, l = seqZ k (16 - k) ∧ 0 ≤ k ≤ 16 ∧
    ∀ w r, v_roots v !! w = Some r → Z.of_nat w < k → NPAGEREFS_PER_PAGE ≤ numinuse r)).
  - split; [done|]. exists 0. split_and!; [done|lia|lia|]. intros; lia.
  - intros w l h' (-> & k & Hl & Hk & Hfull). destruct (decide (k = 16)) as [->|Hk16]; [done|]. rewrite seqZ_cons in Hl by lia. injection Hl as -> ->.
    destruct (lookup_lt_is_Some_2 (v_roots v) (Z.to_nat k) ltac:(lia)) as [root Hw]. apply wp_bind. eapply wp_get_root; [done|done|].
    destruct (Z.leb_spec NPAGEREFS_PER_PAGE (numinuse root)) as [Hge|Hlt].
    + apply wp_ret. split; [done|]. exists (k + 1). split_and!; [f_equal; lia|lia|lia|]. intros w r Hw2 Hlt.
      destruct (decide (w = Z.to_nat k)) as [->|]; [congruence|]. apply (Hfull w r Hw2). lia.
    + pose proof (ho_roots _ _ _ _ Hok) as Hr. pose proof (Forall_lookup_1 _ _ _ _ Hr Hw) as Hro. cbn beta in Hro.
      eapply scan_words_run; [done|done|exact Hro|done|]. intros i j wd Hi Hwd Hj Hbit.
      eapply wp_mono; [by eapply take_ref_run|]. intros p h' Hp. apply wp_ret. exact Hp.
  - intros h' (-> & k & Hl & Hk & Hfull). destruct (decide (k = 16)) as [->|Hk16]; [|by rewrite seqZ_cons in Hl by lia].
    exfalso. apply Exists_exists in Hleft as (r & Hr & Hn). apply list_elem_of_lookup_1 in Hr as [w Hw].
    pose proof (lookup_lt_Some _ _ _ Hw). pose proof (Hfull w r Hw ltac:(lia)). lia.
Qed.

(** ** Releasing a descriptor *)

Lemma count_unflip root root' j : 0 ≤ j < NPAGEREFS_PER_PAGE → inuse root j = true →
  (∀ k, 0 ≤ k → inuse root' k = negb (bool_decide (k = j)) && inuse root k) → count_inuse root = S (count_inuse root').
Proof using.
  intros Hj Hc Heq. apply (count_flip root' root j Hj); [rewrite Heq by lia; by rewrite bool_decide_true|].
  intros k Hk. rewrite Heq by done. destruct (decide (k = j)) as [->|]; [by rewrite bool_decide_true|by rewrite bool_decide_false].
Qed.

Lemma release_ok v p X L B w root i wd j :
  heap_ok v (p :: X) L B → v_roots v !! w = Some root → pagerefs_inuse root !! i = Some wd → 0 ≤ j < 32 →
  r_page root ≠ 0 → p = r_page root + (Z.of_nat i * 32 + j) * SIZEOF_PAGEREF →
  heap_ok (set_roots (<[w := set_bits root i (Z.land wd (Z.lxor (2 ^ j) 0xffffffff)) (numinuse root - 1)]> (v_roots v)) v) X L B ∧
  Z.testbit wd j = true ∧ 0 < numinuse root.
Proof using.
  intros Hok Hw Hi Hj Hp Ep. pose proof Hok as [H1 H2 H3 H4 H5 H6 H7 H8 H9 H10 H11]. rewrite Forall_forall in H2.
  pose proof (H2 root (list_elem_of_lookup_2 _ _ _ Hw)) as [R1 R2 R3 R4]. pose proof (lookup_lt_Some _ _ _ Hi) as Hil. rewrite R1 in Hil.
  set (b := Z.of_nat i * 32 + j) in *. assert (0 ≤ b < NPAGEREFS_PER_PAGE) as Hb by (unfold b; change NPAGEREFS_PER_PAGE with 256; lia).
  set (root' := set_bits _ _ _ _). cbn [app] in H8. apply NoDup_cons in H8 as [Hfresh H8].
  assert (inuse root b = true) as Hset by (apply R3; [done|]; split; [done|]; rewrite <-Ep; by left).
  assert (∀ k, 0 ≤ k → inuse root' k = negb (bool_decide (k = b)) && inuse root k) as Hclr by (intros k Hk; by apply inuse_clear).
  pose proof (count_unflip root root' b Hb Hset Hclr) as Hcnt. split; [|split; [|lia]].
  2:{ unfold inuse, b in Hset. by rewrite (Z.add_comm _ j), Z.div_add, Z.div_small, Z.add_0_l, Nat2Z.id, Hi, Z_mod_plus_full, Z.mod_small in Hset by lia. }
  split; cbn; try done.
  - by rewrite length_insert.
  - apply Forall_forall. intros r Hr. apply list_elem_of_lookup_1 in Hr as [w2 Hr]. destruct (decide (w2 = w)) as [->|Hne].
    + rewrite list_lookup_insert_eq in Hr by (by eapply lookup_lt_Some). apply (inj Some) in Hr as <-. split.
      * cbn. by rewrite length_insert.
      * apply Forall_insert; [done|]. apply land_u32. by eapply (Forall_lookup_1 _ _ _ _ R2).
      * intros k Hk. rewrite Hclr by lia. cbn [r_page root' set_bits]. rewrite andb_true_iff, negb_true_iff, bool_decide_eq_false, (R3 k Hk).
        cbn [app]. rewrite elem_of_cons. rewrite Ep in *. unfold SIZEOF_PAGEREF in *. split; [intros [Hne [? [E|?]]]; [lia|done]|].
        intros [? Hin]. split; [intros ->; by destruct Hfresh|]. split; [done|by right].
      * cbn. rewrite R4, Hcnt. lia.
    + rewrite list_lookup_insert_ne in Hr by done. destruct (H2 r (list_elem_of_lookup_2 _ _ _ Hr)) as [Q1 Q2 Q3 Q4]. split; [done..| |done].
      intros k Hk. rewrite (Q3 k Hk). cbn [app]. rewrite elem_of_cons. split; [|intros [? ?]; auto]. intros [Hrp [E|?]]; [|done].
      rewrite Ep in E. by destruct (ref_root _ _ _ _ _ _ _ _ _ _ Hok Hr Hw Hrp Hp Hk Hb E).
  - cbn [app] in H7. apply Forall_cons in H7 as [_ H7]. eapply Forall_impl; [exact H7|]. intros q. by apply (ref_in_same _ w root).
  - unfold hblocks. by rewrite (root_blocks_same _ w root).
  - unfold hblocks. by rewrite (root_blocks_same _ w root).
  - unfold hblocks. by rewrite (root_blocks_same _ w root).
Qed.

Lemma root_empty refs root : root_ok refs root → r_page root = 0 → numinuse root = 0.
Proof using.
  intros [R1 R2 R3 R4] Hp. rewrite R4. unfold count_inuse.
  destruct (filter (λ j, inuse root j = true) (seqZ 0 NPAGEREFS_PER_PAGE)) as [|j l] eqn:E; [done|].
  assert (j ∈ filter (λ j, inuse root j = true) (seqZ 0 NPAGEREFS_PER_PAGE)) as Hj by (rewrite E; by left).
  apply list_elem_of_filter in Hj as [Hu Hj%elem_of_seqZ]. apply R3 in Hu as [? _]; [done|lia].
Qed.

(** The index of a descriptor relative to a page of descriptors *)
Lemma ref_index p page b : MIPS_KSEG0 < p < MIPS_KSEG1 → MIPS_KSEG0 < page < MIPS_KSEG1 → page `mod` PAGE_SIZE = 0 →
  let j := u32 (s32 (u32 (p - page)) / SIZEOF_PAGEREF) in
  (p / PAGE_SIZE ≠ page / PAGE_SIZE → NPAGEREFS_PER_PAGE ≤ j) ∧ (p = page + b * SIZEOF_PAGEREF → 0 ≤ b < NPAGEREFS_PER_PAGE → j = b).
Proof using.
  intros Hp Hpage Hal. unfold MIPS_KSEG0, MIPS_KSEG1, SIZEOF_PAGEREF in *. change NPAGEREFS_PER_PAGE with 256. cbn zeta.
  rewrite s32_u32, s32_id by lia. split.
  - intros Hne. pose proof (Z.div_mod p PAGE_SIZE ltac:(done)). pose proof (Z.div_mod page PAGE_SIZE ltac:(done)).
    pose proof (Z.mod_pos_bound p PAGE_SIZE ltac:(done)). unfold PAGE_SIZE in *. destruct (decide (p < page)) as [Hlt|Hge].
    + assert ((p - page) / 16 < 0) by (apply Z.div_lt_upper_bound; lia). assert (- 2 ^ 28 ≤ (p - page) / 16) by (apply Z.div_le_lower_bound; lia).
      assert (u32 ((p - page) / 16) = (p - page) / 16 + 2 ^ 32) as ->; [|lia]. unfold u32.
      rewrite <-(Z_mod_plus_full _ 1), Z.mul_1_l, Z.mod_small by lia. done.
    + assert (256 ≤ (p - page) / 16) by (apply Z.div_le_lower_bound; lia). assert ((p - page) / 16 < 2 ^ 28) by (apply Z.div_lt_upper_bound; lia).
      rewrite u32_id by lia. done.
  - intros -> Hb. replace (page + b * 16 - page) with (b * 16) by lia. rewrite Z.div_mul by lia. apply u32_id. lia.
Qed.

Lemma freepageref_run h v p X L B :
  sees h v → heap_ok v (p :: X) L B →
  wp (freepageref p) (λ _ h', ∃ roots', sees h' (set_roots roots' v) ∧ heap_ok (set_roots roots' v) X L B) h.
Proof using.
  intros Hs Hok. pose proof (ho_nroots _ _ _ _ Hok) as Hlen. pose proof (ho_roots _ _ _ _ Hok) as Hroots.
  pose proof (ho_refs _ _ _ _ Hok) as Hr. cbn [app] in Hr. apply Forall_cons in Hr as [(wt & rt & b & Hwt & Hpt & Hb & Ep) _].
  destruct (ref_facts _ _ _ _ Hok p ltac:(by left)) as (_ & _ & _ & _ & _ & _ & Hplo & Hphi & _).
  destruct (root_page_facts _ _ _ _ _ _ Hok Hwt Hpt) as (_ & _ & _ & Hbpage). pose proof (lookup_lt_Some _ _ _ Hwt) as Hwtl.
  unfold freepageref. apply wp_bind. change NUM_PAGEREFPAGES with 16.
  apply (wp_for_some _ _ (λ l h', h' = h ∧ ∃ k, l = seqZ k (16 - k) ∧ 0 ≤ k ≤ Z.of_nat wt)).
  - split; [done|]. exists 0. split; [done|lia].
  - intros w l h' (-> & k & Hl & Hk). rewrite seqZ_cons in Hl by lia. injection Hl as -> ->.
    destruct (lookup_lt_is_Some_2 (v_roots v) (Z.to_nat k) ltac:(lia)) as [root Hw]. apply wp_bind. eapply wp_get_root; [done|done|].
    pose proof (Forall_lookup_1 _ _ _ _ Hroots Hw) as Hro. cbn beta in Hro.
    assert (k ≠ Z.of_nat wt → ∃ k', seqZ (Z.succ k) (Z.pred (16 - k)) = seqZ k' (16 - k') ∧ 0 ≤ k' ≤ Z.of_nat wt) as Hnext.
    { intros Hne. exists (k + 1). split; [f_equal; lia|lia]. }
    destruct (Z.eqb_spec (r_page root) 0) as [Hp0|Hp0].
    { apply wp_bind, wp_kassert. rewrite (root_empty _ _ Hro Hp0). split; [done|]. apply wp_ret. split; [done|]. apply Hnext. intros ->.
      rewrite Nat2Z.id in Hw. congruence. }
    destruct (root_page_facts _ _ _ _ _ _ Hok Hw Hp0) as (Hal & Hlo & Hhi & _). unfold PAGE_SIZE in Hhi.
    destruct (ref_index p (r_page root) b ltac:(lia) ltac:(lia) Hal) as [Hout Hin]. cbn zeta. destruct (decide (Z.to_nat k = wt)) as [<-|Hne].
    + assert (rt = root) as -> by congruence. rewrite (Hin Ep Hb), (proj2 (Z.ltb_lt b _)) by lia. change NPAGEREFS_PER_PAGE with 256 in Hb.
      assert (0 ≤ b / 32 < 8) as Hb32 by (split; [apply Z.div_pos; lia|apply Z.div_lt_upper_bound; lia]). pose proof (Z.mod_pos_bound b 32 ltac:(lia)).
      destruct (lookup_lt_is_Some_2 (pagerefs_inuse root) (Z.to_nat (b / 32)) ltac:(rewrite (ro_words _ _ Hro); lia)) as [wd Hwd].
      destruct (release_ok v p X L B (Z.to_nat k) root (Z.to_nat (b / 32)) wd (b `mod` 32) Hok Hw Hwd ltac:(lia) Hpt) as (Hok' & Hbit & Hn).
      { rewrite Z2Nat.id by lia. rewrite Ep. f_equal. f_equal. pose proof (Z.div_mod b 32 ltac:(lia)). lia. }
      apply wp_bind, wp_deref. exists wd. split; [done|]. apply wp_bind, wp_kassert. rewrite land_pow2, Hbit by lia. split; [done|].
      apply wp_bind, wp_kassert. split; [by apply Z.ltb_lt|]. apply wp_bind. unfold put_root. apply wp_modify, wp_ret, wp_ret.
      eexists. split; [by apply sees_put_root|]. exact Hok'.
    + rewrite (proj2 (Z.ltb_ge _ _)); [|apply Hout; rewrite Ep, Hbpage by done; intros E; apply Hne; by eapply root_unique].
      apply wp_ret. split; [done|]. apply Hnext. lia.
  - intros h' (-> & k & Hl & Hk). by rewrite seqZ_cons in Hl by lia.
Qed.
End refs.

(** ** Pages of small blocks come and go

    Chaining the blocks of a new page and putting the page on its lists;
    taking a page off its lists. *)

(** The blocks of a page in the order of the free list of a new page *)
Fixpoint all_offs (z : Z) (n : nat) : list Z :=
  match n with
  | O => []
  | S k => Z.of_nat k * z :: all_offs z k
  end.

Lemma elem_of_all_offs z n o : o ∈ all_offs z n ↔ ∃ k, (k < n)%nat ∧ o = Z.of_nat k * z.
Proof.
  induction n as [|n IH]; cbn; [split; [by intros ?%not_elem_of_nil|by intros (k & Hk & _); lia]|]. rewrite elem_of_cons, IH. split.
  - intros [->|(k & Hk & ->)]; [exists n|exists k]; split; (done || lia).
  - intros (k & Hk & ->). destruct (decide (k = n)) as [->|]; [by left|right]. exists k. split; [lia|done].
Qed.

Lemma length_all_offs z n : length (all_offs z n) = n.
Proof. induction n; cbn; auto. Qed.

Lemma NoDup_all_offs z n : 0 < z → NoDup (all_offs z n).
Proof.
  intros Hz. induction n as [|n IH]; cbn; [constructor|]. apply NoDup_cons. split; [|done].
  intros (k & Hk & E)%elem_of_all_offs. nia.
Qed.

Section pages.
Context {T : Type} {src : PageSource T} {laws : PageLaws T}.

(** *** A new page *)

Lemma chain_blocks_run h v pr page t off :
  sees h v → 0 ≤ t < NSIZES → word_ok (pr + 12) → (pr + 12) / PAGE_SIZE ≠ page / PAGE_SIZE →
  v_mem v (pr + 12) = ref_word off (PAGE_SIZE / size_of t) →
  page `mod` PAGE_SIZE = 0 → MIPS_KSEG0 < page → page + PAGE_SIZE ≤ MIPS_KSEG1 → in_blocks (v_pages v) page →
  wp (chain_blocks pr page t) (λ fl h', fl = page + (PAGE_SIZE / size_of t - 1) * size_of t ∧
    ∃ f', sees h' (set_mem f' v) ∧ free_links f' page (all_offs (size_of t) (Z.to_nat (PAGE_SIZE / size_of t))) ∧
      ∀ a, a / PAGE_SIZE ≠ page / PAGE_SIZE → f' a = v_mem v a) h.
Proof using.
  intros Hs Ht Hpr Hne Hword Hal Hlo Hhi (x & Hx & Hxp). destruct (size_facts t Ht) as (Z1 & Z2 & Z3 & Z4). set (z := size_of t) in *.
  set (n := PAGE_SIZE / z) in *. unfold MIPS_KSEG0, MIPS_KSEG1 in Hlo, Hhi.
  assert (∀ k, 0 ≤ k < n → in_blocks (v_pages v) (page + k * z) ∧ (page + k * z) `mod` 4 = 0 ∧ u32 (page + k * z) = page + k * z ∧
    (page + k * z) / PAGE_SIZE = page / PAGE_SIZE) as Haddr.
  { intros k Hk. assert (0 ≤ k * z < PAGE_SIZE) as Hkz by nia.
    assert ((page + k * z) / PAGE_SIZE = page / PAGE_SIZE) as Ep by (by apply page_start). split_and!; [by exists x; rewrite Ep| |apply u32_id; unfold PAGE_SIZE in *; lia|done].
    apply Z.mod_divide in Hal as [c ->]; [|done]. apply Z.mod_divide in Z2 as [d Hd]; [|done]. rewrite Hd.
    apply Z.mod_divide; [done|]. exists (c * 1024 + k * d * 4). unfold PAGE_SIZE. lia. }
  unfold chain_blocks. apply wp_bind. destruct (Haddr 0 ltac:(lia)) as (A1 & A2 & _ & _). rewrite Z.mul_0_l, Z.add_0_r in A1, A2.
  eapply wp_stw; [exact Hs|done|done|lia|]. intros h1 Hs1.
  apply (wp_while_left _ (λ left '(i, fl) h', 1 ≤ i ≤ n ∧ left = n - i ∧ fl = page + (i - 1) * z ∧ ∃ f', sees h' (set_mem f' v) ∧
    free_links f' page (all_offs z (Z.to_nat i)) ∧ ∀ a, a / PAGE_SIZE ≠ page / PAGE_SIZE → f' a = v_mem v a) _ (n - 1)); [|lia|].
  { split; [lia|]. split; [done|]. split; [lia|]. exists (upd (v_mem v) page 0). split; [done|]. split.
    - change (all_offs z (Z.to_nat 1)) with [0]. cbn [free_links]. by rewrite Z.add_0_r, upd_eq.
    - intros a Ha. apply upd_ne. congruence. }
  intros left [i fl] h' (Hi & -> & -> & f' & Hs' & Hlk & Hout). split; [lia|]. fold z.
  apply wp_bind. eapply wp_get_nfree; [exact Hs'|done|cbn; by rewrite Hout|unfold PAGE_SIZE in *; lia|]. fold n.
  destruct (Z.ltb_spec i n) as [Hlt|Hge].
  2:{ apply wp_ret. assert (i = n) as -> by lia. split; [done|]. by exists f'. }
  destruct (Haddr i ltac:(lia)) as (B1 & B2 & B3 & B4). destruct (Haddr (i - 1) ltac:(lia)) as (C1 & C2 & C3 & C4). rewrite B3, C3.
  apply wp_bind. eapply wp_stw; [exact Hs'|exact B1|done|rewrite <-C3; apply u32_range|]. intros h2 Hs2. apply wp_bind, wp_kassert.
  split; [by rewrite (proj2 (Z.eqb_neq _ _)) by nia|]. apply wp_ret. exists (n - (i + 1)). split; [lia|]. split; [lia|]. split; [lia|].
  split; [f_equal; f_equal; lia|]. eexists. split; [exact Hs2|]. split.
  - replace (Z.to_nat (i + 1)) with (S (Z.to_nat i)) by lia. cbn. rewrite Z2Nat.id by lia. split.
    + rewrite upd_eq. replace (Z.to_nat i) with (S (Z.to_nat (i - 1))) by lia. cbn. by rewrite Z2Nat.id by lia.
    + eapply free_links_ext; [|exact Hlk]. intros o (k & Hk & ->)%elem_of_all_offs. apply upd_ne. nia.
  - intros a Ha. cbn. rewrite upd_ne by congruence. by apply Hout.
Qed.

Lemma root_ok_ext refs refs' root : (∀ x, x ∈ refs' ↔ x ∈ refs) → root_ok refs root → root_ok refs' root.
Proof using. intros Hx [R1 R2 R3 R4]. split; [done..| |done]. intros j Hj. by rewrite (R3 j Hj), Hx. Qed.

(** The page and its descriptor go on the lists. *)
Lemma push_ok v p page t free base X L B :
  heap_ok v (p :: X) L ((page, 1) :: B) → page_ok (v_mem v) (mk_gpage p page t free) → v_bases v !! Z.to_nat t = Some base →
  v_mem v p = base → v_mem v (p + 4) = v_all v →
  heap_ok (set_all p (set_bases (<[Z.to_nat t := p]> (v_bases v)) v)) X (mk_gpage p page t free :: L) B.
Proof using.
  intros [H1 H2 H3 H4 H5 H6 H7 H8 H9 H10 H11] Hp Hb Eb Ea. pose proof (po_type _ _ Hp) as Ht. cbn in Ht.
  assert (X ++ p :: (g_ref <$> L) ≡ₚ p :: X ++ (g_ref <$> L)) as Hpr by (symmetry; apply Permutation_middle).
  assert (hblocks (v_roots v) (mk_gpage p page t free :: L) B ≡ₚ hblocks (v_roots v) L ((page, 1) :: B)) as Hpb.
  { unfold hblocks. cbn. rewrite !app_assoc. apply Permutation_middle. }
  split; cbn [v_roots v_bases v_all v_mem v_pages v_held set_all set_bases]; rewrite ?fmap_cons; cbn [g_ref]; try done.
  - eapply Forall_impl; [exact H2|]. intros r. apply root_ok_ext. intros x. by rewrite Hpr.
  - by rewrite length_insert.
  - split; [done|]. rewrite Ea. exact H4.
  - intros t' b Ht' Hb'. destruct (decide (Z.to_nat t' = Z.to_nat t)) as [E|Hne].
    + assert (t' = t) as -> by lia. rewrite list_lookup_insert_eq in Hb' by (by eapply lookup_lt_Some). apply (inj Some) in Hb' as <-.
      rewrite filter_cons_True by done. cbn. split; [done|]. rewrite Eb. by apply H5.
    + rewrite list_lookup_insert_ne in Hb' by done. rewrite filter_cons_False by (cbn; intros ->; lia). by apply H5.
  - apply Forall_cons. done.
  - rewrite Hpr. done.
  - rewrite Hpr. done.
  - rewrite Hpb. done.
  - rewrite Hpb. done.
  - intros y. rewrite Hpb. apply H11.
Qed.
End pages.
