(* ===== verification/KmallocAlloc.v ===== *)
(** * Allocation of small blocks

    [subpage_kmalloc] returns a block that was free, from a page of its size
    or from a new page, and does not touch the blocks in use. *)

From S2P Require Import Prelude Machine Kmalloc KmallocInv KmallocOps KmallocRefs.

Section alloc.
Context {T : Type} {src : PageSource T} {laws : PageLaws T}.

(** ** Blocks in use *)

(** A block is its address and its length. *)
Definition live (L : list gpage) (B : list (Z * Z)) (x : Z * Z) : Prop :=
  (∃ g o, g ∈ L ∧ off_ok (g_type g) o ∧ (o ∉ g_free g) ∧ x = (g_page g + o, size_of (g_type g))) ∨
  ∃ b, b ∈ B ∧ x = (b.1, b.2 * PAGE_SIZE).

Definition live_addr (L : list gpage) (B : list (Z * Z)) (a : Z) : Prop := ∃ x, live L B x ∧ x.1 ≤ a < x.1 + x.2.

(** The blocks of pages the heap has, without those of the descriptors *)
Definition data_blocks (L : list gpage) (B : list (Z * Z)) : list (Z * Z) := ((λ g, (g_page g, 1)) <$> L) ++ B.

Lemma block_addr_page b a : b.1 `mod` PAGE_SIZE = 0 → b.1 ≤ a < b.1 + b.2 * PAGE_SIZE → a / PAGE_SIZE ∈ pages_of b.
Proof using.
  intros Hal Ha. unfold pages_of. apply elem_of_seqZ. apply Z.mod_divide in Hal as [c Hc]; [|done]. rewrite Hc in *.
  rewrite Z.div_mul by done. unfold PAGE_SIZE in *. split; [apply Z.div_le_lower_bound; lia|apply Z.div_lt_upper_bound; lia].
Qed.

Lemma live_addr_page v X L B a : heap_ok v X L B → live_addr L B a →
  ∃ x, x ∈ data_blocks L B ∧ a / PAGE_SIZE ∈ pages_of x.
Proof using.
  intros Hok (x & [(g & o & Hg & Ho & _ & ->)|(b & Hb & ->)] & Ha); cbn in Ha.
  - pose proof (ho_pages _ _ _ _ Hok) as Hp. rewrite Forall_forall in Hp. destruct (Hp g Hg) as [Ht _ _ _ _ _].
    destruct (off_facts _ _ Ht Ho) as (O1 & O2 & _). destruct (page_facts _ _ _ _ Hok g Hg) as (Hal & _).
    exists (g_page g, 1). split; [apply elem_of_app; left; by apply (page_block_in L)|]. rewrite pages_of_1. apply list_elem_of_singleton.
    replace a with (g_page g + (a - g_page g)) by lia. apply page_start; [done|lia].
  - exists b. split; [by apply elem_of_app; right|].
    assert (b ∈ hblocks (v_roots v) L B) as Hin by (unfold hblocks; rewrite !elem_of_app; auto).
    apply block_addr_page; [by apply (ho_range _ _ _ _ Hok b Hin)|done].
Qed.

Lemma data_not_ref v X L B p x i : heap_ok v X L B → p ∈ X ++ (g_ref <$> L) → x ∈ data_blocks L B → i ∈ pages_of x → p / PAGE_SIZE ≠ i.
Proof using.
  intros Hok Hp [(g & -> & Hg)%list_elem_of_fmap|Hx]%elem_of_app Hi; [|by eapply ref_not_other].
  rewrite pages_of_1 in Hi. apply list_elem_of_singleton in Hi as ->. by eapply ref_not_page.
Qed.

(** The words of descriptors are not in blocks in use. *)
Lemma live_not_ref v X L B p k a : heap_ok v X L B → p ∈ X ++ (g_ref <$> L) → 0 ≤ k < 16 → live_addr L B a → a ≠ p + k.
Proof using.
  intros Hok Hp Hk Ha ->. destruct (live_addr_page _ _ _ _ _ Hok Ha) as (x & Hx & Hin).
  apply (data_not_ref _ _ _ _ p x _ Hok Hp Hx Hin).
  destruct (ref_facts _ _ _ _ Hok p Hp) as (_ & _ & _ & _ & _ & Hm & _). by rewrite in_page.
Qed.

(** A page that is not in the lists yet *)
Lemma live_not_new v X L B b a : heap_ok v X L (b :: B) → live_addr L B a → ¬ (a / PAGE_SIZE ∈ pages_of b).
Proof using.
  intros Hok Ha Hb.
  destruct Ha as (x & [(g & o & Hg & Ho & _ & ->)|(c & Hc & ->)] & Hr).
  - pose proof (ho_pages _ _ _ _ Hok) as Hp. rewrite Forall_forall in Hp. destruct (Hp g Hg) as [Ht _ _ _ _ _].
    destruct (off_facts _ _ Ht Ho) as (O1 & O2 & _). destruct (page_facts _ _ _ _ Hok g Hg) as (Hal & _). cbn in Hr.
    replace a with (g_page g + (a - g_page g)) in Hb by lia. rewrite page_start in Hb by (done || lia).
    by apply (page_not_other _ _ _ _ Hok g b (g_page g / PAGE_SIZE) Hg ltac:(by left) Hb).
  - cbn in Hr. assert (a / PAGE_SIZE ∈ pages_of c) as Hcp.
    { assert (c ∈ hblocks (v_roots v) L (b :: B)) as Hin by (unfold hblocks; rewrite !elem_of_app, elem_of_cons; auto).
      apply block_addr_page; [by apply (ho_range _ _ _ _ Hok c Hin)|done]. }
    pose proof (ho_apart _ _ _ _ Hok) as Hnd. unfold hblocks in Hnd. rewrite app_assoc, bind_app in Hnd. apply NoDup_app in Hnd as (_ & _ & Hnd).
    by apply (NoDup_bind_app pages_of [b] B b c _ Hnd ltac:(by left) Hc Hb).
Qed.

(** ** A new page *)

Lemma add_block_ok v X L B s' b :
  heap_ok v X L B → kp_block s' b →
  (∀ x, kp_block (v_pages v) x → kp_block s' x ∧ ∀ i, i ∈ pages_of x → i ∉ pages_of b) →
  b.1 `mod` PAGE_SIZE = 0 → MIPS_KSEG0 < b.1 → 0 < b.2 → b.1 + b.2 * PAGE_SIZE ≤ MIPS_KSEG1 →
  heap_ok (set_pages s' v) X L (b :: B).
Proof using.
  intros [H1 H2 H3 H4 H5 H6 H7 H8 H9 H10 H11] Hb Hnew R1 R2 R3 R4.
  assert (hblocks (v_roots v) L (b :: B) ≡ₚ b :: hblocks (v_roots v) L B) as Hperm.
  { unfold hblocks. rewrite !app_assoc. symmetry. apply Permutation_middle. }
  split; try done; cbn [v_roots v_pages set_pages].
  - rewrite Hperm. apply Forall_cons. split; [done|]. eapply Forall_impl; [exact H9|]. intros x Hx. by apply Hnew.
  - rewrite Hperm. cbn. apply NoDup_app. split; [apply NoDup_seqZ|]. split; [|done]. intros i Hi (x & Hx & Hin)%list_elem_of_bind.
    rewrite Forall_forall in H9. by eapply (proj2 (Hnew x (H9 x Hin))).
  - intros x. rewrite Hperm, elem_of_cons. intros [->|Hx]; [done|by apply H11].
Qed.

(** In a page whose blocks are all free none is in use. *)
Lemma live_all_free p page t L B x : 0 ≤ t < NSIZES →
  live (mk_gpage p page t (all_offs (size_of t) (Z.to_nat (PAGE_SIZE / size_of t))) :: L) B x ↔ live L B x.
Proof using.
  intros Ht. destruct (size_facts t Ht) as (Z1 & _ & Z3 & Z4). unfold live. split; intros [(g & o & Hg & Ho & Hn & ->)|Hb]; [|by right| |by right].
  - left. apply elem_of_cons in Hg as [->|Hg]; [|by exists g, o]. exfalso. apply Hn. cbn in *. apply elem_of_all_offs. destruct Ho as [Hr Hm].
    apply Z.mod_divide in Hm as [k ->]; [|lia]. assert (0 ≤ k < PAGE_SIZE / size_of t) by nia. exists (Z.to_nat k). split; [lia|]. by rewrite Z2Nat.id by lia.
  - left. exists g, o. split_and!; try done. by right.
Qed.

Lemma live_alloc L1 g L2 B o fr x : NoDup (g_free g) → off_ok (g_type g) o → g_free g = o :: fr →
  live (L1 ++ mk_gpage (g_ref g) (g_page g) (g_type g) fr :: L2) B x ↔
  live (L1 ++ g :: L2) B x ∨ x = (g_page g + o, size_of (g_type g)).
Proof using.
  intros Hnd Hoff Hfr. rewrite Hfr in Hnd. apply NoDup_cons in Hnd as [Ho _]. set (g' := mk_gpage _ _ _ _). unfold live. split.
  - intros [(y & o' & Hy & Ho' & Hn & ->)|Hb]; [|left; by right]. apply elem_of_app in Hy as Hy'. rewrite elem_of_cons in Hy'.
    destruct Hy' as [Hy'|[->|Hy']].
    + left. left. exists y, o'. rewrite elem_of_app. auto.
    + cbn in *. destruct (decide (o' = o)) as [->|Hne]; [by right|]. left. left. exists g, o'. split_and!; [apply elem_mid|done| |done].
      rewrite Hfr, elem_of_cons. tauto.
    + left. left. exists y, o'. rewrite elem_of_app, elem_of_cons. auto.
  - intros [[(y & o' & Hy & Ho' & Hn & ->)|Hb]| ->]; [|by right|].
    + left. apply elem_of_app in Hy. rewrite elem_of_cons in Hy. destruct Hy as [Hy|[->|Hy]].
      * exists y, o'. rewrite elem_of_app. auto.
      * exists g', o'. cbn. split_and!; [apply elem_mid|done| |done]. rewrite Hfr, elem_of_cons in Hn. tauto.
      * exists y, o'. rewrite elem_of_app, elem_of_cons. auto.
    + left. exists g', o. cbn. split_and!; [apply elem_mid|done..].
Qed.

Lemma sees_range h v a : sees h v → word_ok a → 0 ≤ v_mem v a < 2 ^ 32.
Proof using. intros [H1 H2 H3 H4 H5 H6] Ha. rewrite <-(H3 a Ha). by eapply word_range. Qed.

Lemma linked_range v X L B next p l : heap_ok v X L B → (∀ x, x ∈ l → x ∈ g_ref <$> L) → linked next p l → 0 ≤ p < 2 ^ 32.
Proof using.
  intros Hok Hl. destruct l as [|x l]; cbn; [intros ->; lia|]. intros [-> _].
  destruct (ref_facts _ _ _ _ Hok x ltac:(apply elem_of_app; right; apply Hl; by left)) as (_ & _ & _ & _ & _ & _ & H1 & H2 & _).
  unfold MIPS_KSEG0, MIPS_KSEG1 in *. lia.
Qed.

Lemma base_exists v X L B t : heap_ok v X L B → 0 ≤ t < NSIZES → ∃ base, v_bases v !! Z.to_nat t = Some base ∧ 0 ≤ base < 2 ^ 32.
Proof using.
  intros Hok Ht. destruct (lookup_lt_is_Some_2 (v_bases v) (Z.to_nat t)) as [base Hb].
  { rewrite (ho_nbases _ _ _ _ Hok). unfold NSIZES in Ht. lia. }
  exists base. split; [done|]. eapply linked_range; [done| |by eapply (ho_sizes _ _ _ _ Hok t); [lia|]].
  intros x (g & -> & Hg)%list_elem_of_fmap. apply list_elem_of_filter in Hg as [_ Hg]. apply list_elem_of_fmap. by exists g.
Qed.

Lemma wp_get_base h v t base Q : sees h v → v_bases v !! Z.to_nat t = Some base → Q base h → wp (get_sizebase t) Q h.
Proof using. intros Hs Hb HQ. unfold get_sizebase. apply wp_bind, wp_gets, wp_deref. exists base. by rewrite (se_bases _ _ Hs). Qed.

Lemma wp_put_base h v t p Q : sees h v →
  (∀ h', sees h' (set_bases (<[Z.to_nat t := p]> (v_bases v)) v) → Q tt h') → wp (put_sizebase t p) Q h.
Proof using. intros [H1 H2 H3 H4 H5 H6] HQ. unfold put_sizebase. apply wp_modify, HQ. split; try done. cbn. by rewrite H5. Qed.

Lemma wp_set_all h v p Q : sees h v → (∀ h', sees h' (set_all p v) → Q tt h') → wp (modify (set_allbase p)) Q h.
Proof using. intros [H1 H2 H3 H4 H5 H6] HQ. apply wp_modify, HQ. by split. Qed.

(** What the lists say of a word that is not in the new page and not in the
    new descriptor *)
Lemma meta_outside v p X L b B a : heap_ok v (p :: X) L (b :: B) → meta L a →
  ¬ (a / PAGE_SIZE ∈ pages_of b) ∧ ∀ k, 0 ≤ k < 16 → a ≠ p + k.
Proof using.
  intros Hok (g & Hg & [(k & Hk & ->)|(o & Ho & ->)]).
  - pose proof (page_in_refs L (p :: X) g Hg) as Hr. destruct (ref_facts _ _ _ _ Hok _ Hr) as (_ & _ & _ & _ & _ & Hm & _).
    assert (0 ≤ k < 16) as Hk16 by (repeat (apply elem_of_cons in Hk as [->|Hk]; [done|]); by apply not_elem_of_nil in Hk).
    destruct (ref_facts _ _ _ _ Hok p ltac:(by left)) as (_ & _ & _ & _ & _ & Hmp & _). split.
    + rewrite in_page by done. intros Hb. by apply (ref_not_other _ _ _ _ Hok (g_ref g) b _ Hr ltac:(by left) Hb).
    + intros k' Hk' [E _]%ref_apart; [|done..]. pose proof (ho_nodup _ _ _ _ Hok) as Hnd. cbn [app] in Hnd. apply NoDup_cons in Hnd as [Hnd _].
      apply Hnd. rewrite <-E. by apply page_in_refs.
  - pose proof (ho_pages _ _ _ _ Hok) as Hp. rewrite Forall_forall in Hp. destruct (Hp g Hg) as [Ht _ Hoffs _ _ _].
    rewrite Forall_forall in Hoffs. destruct (Hoffs o Ho) as [Hor _]. destruct (page_facts _ _ _ _ Hok g Hg) as (Hal & _).
    assert ((g_page g + o) / PAGE_SIZE = g_page g / PAGE_SIZE) as E by (by apply page_start). split.
    + rewrite E. intros Hb. by apply (page_not_other _ _ _ _ Hok g b _ Hg ltac:(by left) Hb).
    + intros k Hk Ea. destruct (ref_facts _ _ _ _ Hok p ltac:(by left)) as (_ & _ & _ & _ & _ & Hmp & _).
      apply (ref_not_page _ _ _ _ Hok p g ltac:(by left) Hg). by rewrite <-E, Ea, in_page.
Qed.

Lemma all_offs_ok t : 0 ≤ t < NSIZES → Forall (off_ok t) (all_offs (size_of t) (Z.to_nat (PAGE_SIZE / size_of t))).
Proof using.
  intros Ht. destruct (size_facts t Ht) as (Z1 & _ & Z3 & Z4). apply Forall_forall. intros o (k & Hk & ->)%elem_of_all_offs.
  split; [nia|]. by rewrite Z.mod_mul by lia.
Qed.

Lemma new_page_run h v p page t L B :
  sees h v → heap_ok v [p] L ((page, 1) :: B) → v_held v = true → 0 ≤ t < NSIZES →
  wp (new_page p page t) (λ r h', ∃ v' o fr,
    let g := mk_gpage p page t (all_offs (size_of t) (Z.to_nat (PAGE_SIZE / size_of t))) in
    sees h' v' ∧ v_held v' = false ∧ r = page + o ∧ g_free g = o :: fr ∧ page_ok (v_mem v') (mk_gpage p page t fr) ∧
    off_ok t o ∧ heap_ok v' [] (mk_gpage p page t fr :: L) B ∧
    ∀ a, a / PAGE_SIZE ≠ page / PAGE_SIZE → (∀ k, 0 ≤ k < 16 → a ≠ p + k) → v_mem v' a = v_mem v a) h.
Proof using.
  intros Hs Hok Hheld Ht. destruct (size_facts t Ht) as (Z1 & Z2 & Z3 & Z4). set (z := size_of t) in *. set (n := PAGE_SIZE / z) in *.
  assert (p ∈ [p] ++ (g_ref <$> L)) as Hp by (by left).
  assert (∀ k, k ∈ [0; 4; 8; 12] → in_blocks (v_pages v) (p + k) ∧ word_ok (p + k)) as Hpw by (intros k Hk; by eapply ref_word_ok).
  destruct (Hpw 0 ltac:(set_solver)) as [I0 W0]. destruct (Hpw 4 ltac:(set_solver)) as [I4 W4].
  destruct (Hpw 8 ltac:(set_solver)) as [I8 W8]. destruct (Hpw 12 ltac:(set_solver)) as [I12 W12]. rewrite Z.add_0_r in I0, W0.
  assert ((page, 1) ∈ hblocks (v_roots v) L ((page, 1) :: B)) as Hb by (unfold hblocks; rewrite !elem_of_app, elem_of_cons; auto).
  destruct (ho_range _ _ _ _ Hok _ Hb) as (Hal & Hlo & _ & Hhi). cbn in Hal, Hlo, Hhi. rewrite Z.mul_1_l in Hhi.
  assert (kp_block (v_pages v) (page, 1)) as Hkb by (eapply (proj1 (Forall_forall _ _)); [apply (ho_blocks _ _ _ _ Hok)|done]).
  assert (∀ k, 0 ≤ k < 16 → (p + k) / PAGE_SIZE ≠ page / PAGE_SIZE) as Hpp.
  { intros k Hk. destruct (ref_facts _ _ _ _ Hok p Hp) as (_ & _ & _ & _ & _ & Hm & _). rewrite in_page by done.
    eapply (ref_not_other _ _ _ _ Hok p (page, 1)); [done|by left|]. rewrite pages_of_1. by apply list_elem_of_singleton. }
  destruct (pab_parts page t Hal ltac:(unfold MIPS_KSEG0, MIPS_KSEG1, PAGE_SIZE in *; lia) Ht) as (_ & _ & Epab).
  unfold new_page. fold z. fold n. rewrite Epab. apply wp_bind. unfold set_pageaddr_and_blocktype.
  eapply wp_stw; [exact Hs|done|apply W8|unfold MIPS_KSEG0, MIPS_KSEG1, PAGE_SIZE, NSIZES in *; lia|]. intros h1 Hs1. apply wp_bind.
  set (f := v_mem v) in *. pose proof (sees_range _ _ _ Hs W12) as Hw. fold f in Hw. set (w := f (p + 12)) in *.
  pose proof (Z.mod_pos_bound w (2 ^ 16) ltac:(lia)).
  eapply (wp_set_nfree _ _ _ (w / 2 ^ 16) (w `mod` 2 ^ 16) n); [exact Hs1|done|done| |split; [apply Z.div_pos|apply Z.div_lt_upper_bound]; lia|lia|lia|].
  { cbn. rewrite upd_ne by lia. fold f w. unfold ref_word. pose proof (Z.div_mod w (2 ^ 16) ltac:(lia)). lia. }
  intros h2 Hs2. cbn in Hs2. apply wp_bind.
  eapply wp_mono; [eapply (chain_blocks_run h2 _ p page t); [exact Hs2|done|done|apply Hpp; lia|cbn; by apply upd_eq|done|done|done|]|].
  { exists (page, 1). split; [done|]. rewrite pages_of_1. by apply list_elem_of_singleton. }
  intros fl h3 (-> & f3 & Hs3 & Hlinks & Hout3). cbn in Hs3, Hout3. fold z n in Hlinks, Hout3 |- *.
  assert (0 ≤ (n - 1) * z < PAGE_SIZE) as Hoff by (unfold PAGE_SIZE in *; nia).
  replace (page + (n - 1) * z - page) with ((n - 1) * z) by lia. rewrite u32_id by (unfold PAGE_SIZE in *; lia). apply wp_bind.
  eapply (wp_set_offset _ _ _ _ n ((n - 1) * z)); [exact Hs3|done|done|cbn; rewrite Hout3 by (apply Hpp; lia); apply upd_eq|lia|unfold PAGE_SIZE in *; lia|].
  intros h4 Hs4. cbn in Hs4. apply wp_bind. eapply wp_get_offset; [exact Hs4|done|cbn; apply upd_eq|lia|].
  apply wp_bind. eapply wp_get_nfree; [exact Hs4|done|cbn; apply upd_eq|lia|]. apply wp_bind, wp_kassert. split; [by apply Z.eqb_eq|].
  destruct (base_exists _ _ _ _ t Hok Ht) as (base & Hbase & Hbr). apply wp_bind. eapply wp_get_base; [exact Hs4|done|].
  apply wp_bind. unfold set_next_samesize. eapply wp_stw; [exact Hs4|done|apply W0|done|]. intros h5 Hs5. cbn in Hs5.
  apply wp_bind. eapply wp_put_base; [exact Hs5|]. intros h6 Hs6. cbn in Hs6. apply wp_bind, wp_gets. rewrite (se_all _ _ Hs6). cbn [v_all set_mem set_bases].
  pose proof (linked_range _ _ _ _ _ _ _ Hok (λ x Hx, Hx) (ho_all _ _ _ _ Hok)) as Har.
  apply wp_bind. unfold set_next_all. eapply wp_stw; [exact Hs6|done|apply W4|done|]. intros h7 Hs7. cbn in Hs7.
  apply wp_bind. eapply wp_set_all; [exact Hs7|]. intros h8 Hs8. cbn in Hs8. set (f8 := upd (upd _ _ _) (p + 4) _) in Hs8.
  assert (∀ a, a / PAGE_SIZE ≠ page / PAGE_SIZE → (∀ k, 0 ≤ k < 16 → a ≠ p + k) → f8 a = f a) as Hout.
  { intros a Ha Hk. unfold f8. rewrite !upd_ne by (first [apply Hk; lia|rewrite <-(Z.add_0_r p); apply Hk; lia]). rewrite Hout3 by done.
    rewrite !upd_ne by (apply Hk; lia). done. }
  assert (∀ o, 0 ≤ o < PAGE_SIZE → f8 (page + o) = f3 (page + o)) as Hin.
  { intros o Ho. assert (∀ k, 0 ≤ k < 16 → page + o ≠ p + k) as Hne.
    { intros k Hk E. apply (Hpp k Hk). rewrite <-E. by apply page_start. }
    unfold f8. rewrite !upd_ne by (first [apply Hne; lia|rewrite <-(Z.add_0_r p); apply Hne; lia]). done. }
  set (g := mk_gpage p page t (all_offs z (Z.to_nat n))).
  assert (page_ok f8 g) as Hpg.
  { split; cbn; [done|apply NoDup_all_offs; lia|by apply all_offs_ok| | |].
    - unfold f8. rewrite !upd_ne by lia. rewrite Hout3 by (apply Hpp; lia). by rewrite upd_ne, upd_eq by lia.
    - unfold f8. rewrite !upd_ne by lia. rewrite upd_eq. unfold free_word. rewrite length_all_offs, Z2Nat.id by lia. f_equal.
      replace (Z.to_nat n) with (S (Z.to_nat (n - 1))) by lia. cbn. by rewrite Z2Nat.id by lia.
    - eapply free_links_ext; [|exact Hlinks]. intros o Ho. apply Hin. pose proof (all_offs_ok t Ht) as Hall. rewrite Forall_forall in Hall.
      by apply (Hall o). }
  assert (heap_ok (set_mem f8 v) [p] L ((page, 1) :: B)) as Hok8.
  { apply heap_ok_mem; [done|]. intros a Ha. destruct (meta_outside _ _ _ _ _ _ _ Hok Ha) as [M1 M2]. apply Hout; [|done].
    intros E. apply M1. rewrite pages_of_1, E. by apply list_elem_of_singleton. }
  assert (∃ o fr, g_free g = o :: fr) as (o & fr & Hfr).
  { cbn. replace (Z.to_nat n) with (S (Z.to_nat (n - 1))) by lia. cbn. by eexists _, _. }
  pose proof (push_ok _ p page t (all_offs z (Z.to_nat n)) base [] L B Hok8 Hpg Hbase) as Hpush. cbn [v_mem v_bases v_all set_mem] in Hpush.
  specialize (Hpush ltac:(unfold f8; by rewrite upd_ne, upd_eq by lia) ltac:(unfold f8; by rewrite upd_eq)).
  eapply wp_mono; [exact (doalloc_run h8 _ [] [] g L B o fr Hs8 Hpush Hheld Hfr)|]. cbn zeta. intros r h9 (-> & Hs9 & Hok9).
  pose proof (ho_pages _ _ _ _ Hok9) as Hp9. apply Forall_cons in Hp9 as [Hpg9 _].
  exists (set_held false (set_mem (upd f8 (p + 12) (free_word fr)) (set_all p (set_bases (<[Z.to_nat t := p]> (v_bases v)) v)))), o, fr.
  split_and!; try done.
  - destruct Hpg as [_ _ Hoffs _ _ _]. rewrite Hfr in Hoffs. by apply Forall_cons in Hoffs as [? _].
  - intros a Ha Hk. cbn. rewrite upd_ne by (apply Hk; lia). by apply Hout.
Qed.

(** ** Blocks do not overlap *)

Lemma block_page v X L B g o a : heap_ok v X L B → g ∈ L → off_ok (g_type g) o →
  g_page g + o ≤ a < g_page g + o + size_of (g_type g) → a / PAGE_SIZE = g_page g / PAGE_SIZE.
Proof using.
  intros Hok Hg Ho Ha. pose proof (ho_pages _ _ _ _ Hok) as Hp. rewrite Forall_forall in Hp. destruct (Hp g Hg) as [Ht _ _ _ _ _].
  destruct (off_facts _ _ Ht Ho) as (O1 & O2 & _). destruct (page_facts _ _ _ _ Hok g Hg) as (Hal & _).
  replace a with (g_page g + (a - g_page g)) by lia. apply page_start; [done|lia].
Qed.

Lemma same_page v X L B g g' : heap_ok v X L B → g ∈ L → g' ∈ L → g_page g / PAGE_SIZE = g_page g' / PAGE_SIZE → g = g'.
Proof using.
  intros Hok [i Hi]%list_elem_of_lookup_1 [j Hj]%list_elem_of_lookup_1 E. assert (i = j) as -> by (by eapply page_not_page). congruence.
Qed.

(** Two blocks of a page at different offsets *)
Lemma offs_apart t o o' a : 0 ≤ t < NSIZES → off_ok t o → off_ok t o' → o ≤ a < o + size_of t → o' ≤ a < o' + size_of t → o = o'.
Proof using.
  intros Ht [_ Ho] [_ Ho'] Ha Ha'. destruct (size_facts t Ht) as (Z1 & _). apply Z.mod_divide in Ho as [k ->]; [|lia].
  apply Z.mod_divide in Ho' as [k' ->]; [|lia]. assert (k = k') as -> by nia. done.
Qed.

Lemma free_block_apart v X L B g o a : heap_ok v X L B → g ∈ L → off_ok (g_type g) o → o ∈ g_free g →
  g_page g + o ≤ a < g_page g + o + size_of (g_type g) → ¬ live_addr L B a.
Proof using.
  intros Hok Hg Ho Hf Ha (x & [(g' & o' & Hg' & Ho' & Hn & ->)|(b & Hb & ->)] & Ha').
  - cbn in Ha'. assert (g = g') as <-.
    { eapply same_page; [done..|]. rewrite <-(block_page _ _ _ _ _ _ _ Hok Hg Ho Ha). by eapply block_page. }
    pose proof (ho_pages _ _ _ _ Hok) as Hp. rewrite Forall_forall in Hp. destruct (Hp g Hg) as [Ht _ _ _ _ _].
    assert (o = o') as <-; [|done]. apply (offs_apart (g_type g) o o' (a - g_page g)); (done || lia).
  - cbn in Ha'. assert (b ∈ hblocks (v_roots v) L B) as Hin by (unfold hblocks; rewrite !elem_of_app; auto).
    apply (page_not_other _ _ _ _ Hok g b (a / PAGE_SIZE) Hg Hb); [|symmetry; by eapply block_page].
    apply block_addr_page; [by apply (ho_range _ _ _ _ Hok b Hin)|done].
Qed.

(** ** The operation *)

(** No page is completely free: it would have been given back. *)
Definition partly (g : gpage) : Prop := Z.of_nat (length (g_free g)) < PAGE_SIZE / size_of (g_type g).

(** What a successful allocation from state [v] gives *)
Definition allocated_from (v : hview) (L : list gpage) (B : list (Z * Z)) (t p : Z) (h' : kheap T) : Prop :=
  ∃ v' L', sees h' v' ∧ v_held v' = false ∧ heap_ok v' [] L' B ∧ Forall partly L' ∧
    (∀ x, live L' B x ↔ live L B x ∨ x = (p, size_of t)) ∧
    (∀ a, p ≤ a < p + size_of t → ¬ live_addr L B a) ∧
    ∀ a, live_addr L B a → v_mem v' a = v_mem v a.

Lemma partly_less f g o fr : page_ok f g → g_free g = o :: fr → partly (mk_gpage (g_ref g) (g_page g) (g_type g) fr).
Proof using.
  intros Hp Hf. destruct (page_free_length _ _ Hp) as [[_ H] _]. rewrite Hf in H. unfold partly. cbn in *. lia.
Qed.

Lemma alloc_existing h v L1 g L2 B :
  sees h v → heap_ok v [] (L1 ++ g :: L2) B → v_held v = true → Forall partly (L1 ++ g :: L2) → g_free g ≠ [] →
  wp (doalloc (g_ref g)) (λ p h', allocated_from v (L1 ++ g :: L2) B (g_type g) p h') h.
Proof using.
  intros Hs Hok Hheld Hpart Hne. destruct (g_free g) as [|o fr] eqn:Hfr; [done|]. pose proof (elem_mid L1 g L2) as Hg.
  pose proof (ho_pages _ _ _ _ Hok) as Hp. rewrite Forall_forall in Hp. pose proof (Hp g Hg) as Hpg. pose proof Hpg as [Ht Hnd Hoffs _ _ _].
  assert (off_ok (g_type g) o) as Ho by (rewrite Hfr in Hoffs; by apply Forall_cons in Hoffs as [? _]).
  eapply wp_mono; [by apply (doalloc_run h v [] L1 g L2 B o fr)|]. cbn zeta. intros p h' (-> & Hs' & Hok').
  eexists _, _. split; [exact Hs'|]. split; [done|]. split; [exact Hok'|]. split_and!.
  - apply Forall_app in Hpart as [Hp1 [_ Hp2]%Forall_cons]. apply Forall_app. split; [done|]. apply Forall_cons. split; [by eapply partly_less|done].
  - intros x. by apply live_alloc.
  - intros a Ha. eapply free_block_apart; [done..| |exact Ha]. rewrite Hfr. by left.
  - intros a Ha. cbn. apply upd_ne. eapply live_not_ref; [exact Hok|by apply page_in_refs|lia|done].
Qed.

Lemma subpage_kmalloc_run h v L B sz :
  sees h v → heap_ok v [] L B → v_held v = false → Forall partly L → 0 ≤ sz ≤ 2048 →
  kp_avail 2 (v_pages v) → refs_left (v_roots v) →
  wp (subpage_kmalloc sz) (λ p h', ∃ t, 0 ≤ t < NSIZES ∧ sz ≤ size_of t ∧ (∀ t', 0 ≤ t' < t → size_of t' < sz) ∧
    allocated_from v L B t p h') h.
Proof using.
  intros Hs Hok Hheld Hpart Hsz Hav Hleft. unfold subpage_kmalloc. destruct (blocktype_run sz h Hsz) as (t & Ebt & Ht & Hle & Hmin).
  apply wp_bind. erewrite wp_eq by exact Ebt. apply wp_bind. eapply wp_lock; [exact Hs|done|]. intros h1 Hs1.
  pose proof (heap_ok_held _ _ _ _ true Hok) as Hok1. destruct (base_exists _ _ _ _ t Hok1 Ht) as (base & Hb & _).
  apply wp_bind. eapply wp_get_base; [exact Hs1|done|]. destruct (find_page_run _ _ _ _ _ _ _ Hs1 Hok1 Ht Hb) as (r & Hrun & Hr).
  apply wp_bind. erewrite wp_eq by exact Hrun. destruct r as [p|].
  { destruct Hr as (L1 & g & L2 & -> & -> & <- & Hne). eapply wp_mono; [by eapply alloc_existing|]. intros p h' Hp. by exists (g_type g). }
  apply wp_bind. eapply wp_unlock; [exact Hs1|done|]. intros h2 Hs2. apply wp_bind.
  eapply (wp_alloc _ _ 1); [exact Hs2|done|lia|by eapply (avail_law 2)|]. intros page s' h3 Hs3 Hblk Hnew Havail Hal Hlo Hhi.
  rewrite (proj2 (Z.eqb_neq page 0)) by (unfold MIPS_KSEG0 in *; lia). apply wp_bind, wp_kassert. split; [by apply Z.eqb_eq|].
  apply wp_bind. eapply wp_lock; [exact Hs3|done|]. intros h4 Hs4. cbn in Hnew, Havail.
  pose proof (add_block_ok v [] L B s' (page, 1) Hok Hblk Hnew Hal Hlo ltac:(done) Hhi) as Hok4. apply (heap_ok_held _ _ _ _ true) in Hok4.
  apply wp_bind. eapply wp_mono; [apply (allocpageref_run h4 (set_held true (set_pages s' v)) [] L ((page, 1) :: B)); [exact Hs4|exact Hok4|done|by apply (Havail 1)|done]|].
  cbn beta. intros p h5 (Hp0 & v5 & Hs5 & Hok5 & [Q1 Q2 Q3 Q4 Q5]). rewrite (proj2 (Z.eqb_neq p 0)) by done.
  eapply wp_mono; [by apply (new_page_run h5 v5 p page t L B)|]. cbn zeta. intros r h6 (v6 & o & fr & Hs6 & Hh6 & -> & Hfr & Hpg & Ho & Hok6 & Hout).
  exists t. do 3 (split; [done|]). exists v6, (mk_gpage p page t fr :: L). split_and!; try done.
  - apply Forall_cons. split; [|done]. unfold partly. cbn [g_free g_type] in *. destruct (size_facts t Ht) as (_ & _ & _ & Z4). assert (length (all_offs (size_of t) (Z.to_nat (PAGE_SIZE / size_of t))) = S (length fr)) as E
      by (by rewrite Hfr). rewrite length_all_offs in E. lia.
  - intros x. pose proof (live_alloc [] (mk_gpage p page t (all_offs (size_of t) (Z.to_nat (PAGE_SIZE / size_of t)))) L B o fr x) as Hla. cbn [app g_ref g_page g_type g_free] in Hla, Hfr.
    destruct (size_facts t Ht) as (Z1 & _). rewrite Hla by (done || apply NoDup_all_offs; lia). by rewrite live_all_free.
  - intros a Ha Hla. apply (live_not_new _ _ _ _ _ _ Hok5 Hla). rewrite pages_of_1. apply list_elem_of_singleton.
    pose proof (off_facts t o Ht Ho) as (O1 & O2 & _). replace a with (page + (a - page)) by lia. apply page_start; [done|lia].
  - intros a Ha. rewrite Hout.
    + by rewrite Q2.
    + intros E. apply (live_not_new _ _ _ _ _ _ Hok5 Ha). rewrite pages_of_1, E. by apply list_elem_of_singleton.
    + intros k Hk. eapply (live_not_ref v5 [p] L ((page, 1) :: B)); [done|by left|done|].
      destruct Ha as (x & [Hx|(b & Hb' & ->)] & Hr'); [exists x; split; [by left|done]|]. eexists. split; [right; exists b; split; [by right|done]|done].
Qed.
End alloc.
