(* ===== verification/KmallocFree.v ===== *)
(** * Release of small blocks

    [subpage_kfree] puts the block back on the free list of its page and gives
    the page back when all its blocks are free. *)

From S2P Require Import Prelude Machine Kmalloc KmallocInv KmallocOps KmallocRefs KmallocAlloc.

(** ** Removal from a linked list *)

Lemma linked_unlink next next' base l0 q x l2 :
  linked next base (l0 ++ q :: x :: l2) → NoDup (l0 ++ q :: x :: l2) → next' q = next x → (∀ y, y ≠ q → next' y = next y) →
  linked next' base (l0 ++ q :: l2).
Proof.
  intros Hl Hnd Hq Hne. revert base Hl Hnd. induction l0 as [|y l0 IH]; intros base Hl Hnd; cbn in *.
  - destruct Hl as (-> & _ & Hl). split; [done|]. rewrite Hq. eapply linked_ext; [|exact Hl]. intros y Hy. apply Hne. intros ->.
    apply NoDup_cons in Hnd as [Hnd _]. apply Hnd. by right.
  - destruct Hl as [-> Hl]. apply NoDup_cons in Hnd as [Hy Hnd]. split; [done|]. rewrite Hne by (intros ->; apply Hy, elem_mid). by apply IH.
Qed.

Section remove.
Context {T : Type} {src : PageSource T} {laws : PageLaws T}.

Lemma remove_list_run h v get_base put_base off l1 pr l2 base Q :
  sees h v → get_base h = Ok (base, h) → linked (λ x, v_mem v (x + off)) base (l1 ++ pr :: l2) → NoDup (l1 ++ pr :: l2) →
  (∀ x, x ∈ l1 ++ pr :: l2 → word_ok (x + off) ∧ x ≠ 0) → Z.of_nat (length l1) < 2 ^ 30 →
  (l1 = [] → wp (put_base (v_mem v (pr + off))) (λ _, Q tt) h) →
  (∀ l0 q, l1 = l0 ++ [q] → wp (stw (q + off) (v_mem v (pr + off))) (λ _, Q tt) h) →
  wp (remove_list get_base put_base off pr) Q h.
Proof using.
  intros Hs Hbase Hl Hnd Hw Hlen Hhead Hmid. unfold remove_list.
  apply (wp_while_left _ (λ n guy h', h' = h ∧ ∃ d r x, l1 = d ++ r ∧ n = Z.of_nat (length r) ∧ linked (λ x, v_mem v (x + off)) x (r ++ pr :: l2) ∧
    match guy with LBase => d = [] ∧ x = base | LNext q => (∃ d0, d = d0 ++ [q]) ∧ x = v_mem v (q + off) end) _ (Z.of_nat (length l1))); [|lia|].
  { split; [done|]. by exists [], l1, base. }
  intros n guy h' (-> & d & r & x & El & -> & Hlk & Hguy). split; [lia|]. apply wp_bind.
  assert (wp (match guy with LBase => get_base | LNext q => ldw (q + off) end) (λ y h', y = x ∧ h' = h) h) as Hcell.
  { destruct guy as [|q]; [destruct Hguy as [_ ->]; by erewrite wp_eq by exact Hbase|]. destruct Hguy as [[d0 ->] ->].
    eapply wp_ldw; [done| |done]. apply Hw. rewrite El, !elem_of_app, elem_of_cons. auto. }
  eapply wp_mono; [exact Hcell|]. intros y h' [-> ->].
  assert (x ∈ l1 ++ pr :: l2 ∧ (x = pr ↔ r = [])) as [Hx Hxr].
  { destruct r as [|z r]; cbn in Hlk; destruct Hlk as [-> _].
    - split; [apply elem_mid|done].
    - assert (z ∈ l1) as Hz by (rewrite El; apply elem_of_app; right; by left). split; [by apply elem_of_app; left|]. split; [|done]. intros ->.
      apply NoDup_app in Hnd as (_ & Hnd & _). destruct (Hnd pr Hz). by left. }
  rewrite (proj2 (Z.eqb_neq x 0)) by (by apply Hw). destruct (Z.eqb_spec x pr) as [->|Hne].
  - assert (r = []) as -> by (by apply Hxr). rewrite app_nil_r in El. subst l1. apply wp_bind. eapply wp_ldw; [done|apply Hw, elem_mid|]. intros _.
    apply wp_bind. destruct guy as [|q].
    + destruct Hguy as [-> _]. eapply wp_mono; [by apply Hhead|]. intros [] h' HQ. by apply wp_ret.
    + destruct Hguy as [[d0 ->] _]. eapply wp_mono; [by eapply Hmid|]. intros [] h' HQ. by apply wp_ret.
  - apply wp_ret. destruct r as [|z r]; [by destruct Hne; apply Hxr|]. cbn in Hlk. destruct Hlk as [-> Hlk].
    exists (Z.of_nat (length r)). split; [cbn [length]; lia|]. split; [done|]. exists (d ++ [z]), r, (v_mem v (z + off)).
    split; [by rewrite El, <-app_assoc|]. split; [done|]. split; [done|]. split; [by exists d|done].
Qed.

Lemma heap_ok_unlink v X L1 g L2 B f' bases' all' :
  heap_ok v X (L1 ++ g :: L2) B → length bases' = 8%nat →
  linked (λ p, f' (p + 4)) all' (g_ref <$> L1 ++ L2) →
  (∀ t b, 0 ≤ t → bases' !! Z.to_nat t = Some b → linked f' b (g_ref <$> filter (λ g, g_type g = t) (L1 ++ L2))) →
  (∀ a, (∀ q, q ∈ L1 ++ g :: L2 → a ≠ g_ref q ∧ a ≠ g_ref q + 4) → f' a = v_mem v a) →
  heap_ok (set_all all' (set_mem f' (set_bases bases' v))) (g_ref g :: X) (L1 ++ L2) ((g_page g, 1) :: B).
Proof using.
  intros Hok Hlen Hall Hsz Hf. pose proof Hok as [H1 H2 H3 H4 H5 H6 H7 H8 H9 H10 H11].
  assert (X ++ (g_ref <$> L1 ++ g :: L2) ≡ₚ (g_ref g :: X) ++ (g_ref <$> L1 ++ L2)) as Hpr.
  { rewrite !fmap_app, fmap_cons. cbn [app]. rewrite <-!Permutation_middle. done. }
  assert (hblocks (v_roots v) (L1 ++ g :: L2) B ≡ₚ hblocks (v_roots v) (L1 ++ L2) ((g_page g, 1) :: B)) as Hpb.
  { unfold hblocks. rewrite !fmap_app, fmap_cons, !app_assoc, <-!Permutation_middle. cbn [app]. by rewrite <-!app_assoc. }
  split; cbn [v_roots v_bases v_all v_mem v_pages v_held set_all set_bases set_mem]; rewrite <-?Hpr, <-?Hpb; try done.
  - eapply Forall_impl; [exact H2|]. intros r. apply root_ok_ext. intros x. by rewrite Hpr.
  - rewrite Forall_forall in *. intros g2 Hg2. assert (g2 ∈ L1 ++ g :: L2) as Hin.
    { apply elem_of_app. rewrite elem_of_cons. apply elem_of_app in Hg2. tauto. }
    pose proof (page_in_refs _ X g2 Hin) as Hr2. destruct (ref_facts _ _ _ _ Hok _ Hr2) as (_ & _ & _ & _ & _ & Hm2 & _).
    assert (∀ q, q ∈ L1 ++ g :: L2 → g_ref q `mod` 16 = 0) as Hm.
    { intros q Hq. by destruct (ref_facts _ _ _ _ Hok _ (page_in_refs _ X q Hq)) as (_ & _ & _ & _ & _ & ? & _). }
    assert (∀ k q k', q ∈ L1 ++ g :: L2 → k = 8 ∨ k = 12 → k' = 0 ∨ k' = 4 → g_ref g2 + k ≠ g_ref q + k') as Hne.
    { intros k q k' Hq Hk Hk' [_ E]%ref_apart; [lia|done|by apply Hm|lia|lia]. }
    eapply page_ok_ext; [| | |by apply H6].
    + apply Hf. intros q Hq. split; [rewrite <-(Z.add_0_r (g_ref q))|]; apply Hne; auto.
    + apply Hf. intros q Hq. split; [rewrite <-(Z.add_0_r (g_ref q))|]; apply Hne; auto.
    + intros o Ho. destruct (H6 g2 Hin) as [Ht _ Hoffs _ _ _]. rewrite Forall_forall in Hoffs. destruct (Hoffs o Ho) as [Hor _].
      destruct (page_facts _ _ _ _ Hok g2 Hin) as (Hal & _). apply Hf. intros q Hq.
      assert (∀ k, 0 ≤ k < 16 → g_page g2 + o ≠ g_ref q + k) as Hnk.
      { intros k Hk E. apply (ref_not_page _ _ _ _ Hok (g_ref q) g2 (page_in_refs _ X q Hq) Hin).
        rewrite <-(page_start (g_page g2) o), E by done. by rewrite in_page by (done || by apply Hm). }
      split; [rewrite <-(Z.add_0_r (g_ref q))|]; apply Hnk; lia.
  - intros x. rewrite <-Hpb. apply H11.
Qed.

(** Unlinking [g] from one of its lists: the base or one link changes. *)
Lemma unlinked f base F1 g F2 off base' f' :
  linked (λ x, f (x + off)) base (g_ref <$> F1 ++ g :: F2) → NoDup (g_ref <$> F1 ++ g :: F2) →
  (F1 = [] ∧ base' = f (g_ref g + off) ∧ f' = f ∨
   ∃ F0 q, F1 = F0 ++ [q] ∧ base' = base ∧ f' = upd f (g_ref q + off) (f (g_ref g + off))) →
  linked (λ x, f' (x + off)) base' (g_ref <$> F1 ++ F2) ∧ ∀ a, (∀ q, q ∈ F1 → a ≠ g_ref q + off) → f' a = f a.
Proof using.
  intros Hl Hnd [(-> & -> & ->)|(F0 & q & -> & -> & ->)].
  - cbn in Hl. split; [by destruct Hl|done].
  - rewrite <-app_assoc in Hl, Hnd |- *. rewrite fmap_app in Hl, Hnd |- *. cbn in Hl, Hnd |- *. split.
    + eapply linked_unlink; [exact Hl|exact Hnd|by rewrite upd_eq|]. intros y Hy. cbn beta. apply upd_ne. lia.
    + intros a Ha. apply upd_ne, Ha. apply elem_mid.
Qed.

Lemma link_words v X L B (F : list gpage) off : heap_ok v X L B → (∀ g, g ∈ F → g ∈ L) → off = 0 ∨ off = 4 →
  ∀ x, x ∈ g_ref <$> F → word_ok (x + off) ∧ in_blocks (v_pages v) (x + off) ∧ x ≠ 0.
Proof using.
  intros Hok HF Hoff x (g & -> & Hg)%list_elem_of_fmap. pose proof (page_in_refs L X g (HF g Hg)) as Hr.
  destruct (ref_word_ok _ _ _ _ (g_ref g) off Hok Hr ltac:(destruct Hoff as [-> | ->]; set_solver)) as [Hib Hw].
  split; [done|]. split; [done|]. destruct (ref_facts _ _ _ _ Hok _ Hr) as (_ & _ & _ & _ & _ & _ & Hlo & _). unfold MIPS_KSEG0 in Hlo. lia.
Qed.

Lemma last_fmap {A B} (f : A → B) l k y : f <$> l = k ++ [y] → ∃ l0 x, l = l0 ++ [x] ∧ f x = y ∧ f <$> l0 = k.
Proof using.
  intros E. destruct (last l) as [x|] eqn:El.
  - apply last_Some in El as [l0 ->]. rewrite fmap_app in E. cbn in E. apply app_inj_tail in E as [<- <-]. by exists l0, x.
  - apply last_None in El as ->. cbn in E. by destruct k.
Qed.

(** The same-size list, then the list of all pages *)
Lemma remove_size_run h v X L1 g L2 B :
  sees h v → heap_ok v X (L1 ++ g :: L2) B →
  wp (remove_list (get_sizebase (g_type g)) (put_sizebase (g_type g)) 0 (g_ref g)) (λ _ h', ∃ f' bases',
    sees h' (set_mem f' (set_bases bases' v)) ∧ length bases' = 8%nat ∧
    (∀ t b, 0 ≤ t → bases' !! Z.to_nat t = Some b → linked f' b (g_ref <$> filter (λ g, g_type g = t) (L1 ++ L2))) ∧
    ∀ a, (∀ q, q ∈ L1 → a ≠ g_ref q) → f' a = v_mem v a) h.
Proof using.
  intros Hs Hok. pose proof (elem_mid L1 g L2) as Hg. pose proof (ho_pages _ _ _ _ Hok) as Hp. rewrite Forall_forall in Hp.
  destruct (Hp g Hg) as [Ht _ _ _ _ _]. destruct (base_exists _ _ _ _ _ Hok Ht) as (base & Hb & _).
  pose proof (ho_sizes _ _ _ _ Hok (g_type g) base ltac:(lia) Hb) as Hl. set (P := λ q, g_type q = g_type g).
  set (F1 := filter P L1). set (F2 := filter P L2).
  assert (filter (λ q, g_type q = g_type g) (L1 ++ g :: L2) = F1 ++ g :: F2) as EF by (by rewrite filter_app, filter_cons_True).
  assert (filter (λ q, g_type q = g_type g) (L1 ++ L2) = F1 ++ F2) as EF' by apply filter_app. rewrite EF in Hl.
  assert (∀ q, q ∈ F1 ++ g :: F2 → q ∈ L1 ++ g :: L2) as Hsub by (intros q Hq; rewrite <-EF in Hq; by apply list_elem_of_filter in Hq as [_ ?]).
  assert (∀ q, q ∈ F1 → q ∈ L1 ∧ g_type q = g_type g) as HF1 by (intros q [? ?]%list_elem_of_filter; done).
  assert (NoDup (g_ref <$> F1 ++ g :: F2)) as Hnd.
  { pose proof (ho_nodup _ _ _ _ Hok) as Hn. apply NoDup_app in Hn as (_ & _ & Hn). rewrite <-EF. eapply sublist_NoDup; [exact Hn|].
    by apply fmap_sublist, sublist_filter. }
  pose proof (heap_length _ _ _ _ Hok) as Hlen.
  assert (∀ f' b', (F1 = [] ∧ b' = v_mem v (g_ref g + 0) ∧ f' = v_mem v ∨
      ∃ F0 q, F1 = F0 ++ [q] ∧ b' = base ∧ f' = upd (v_mem v) (g_ref q + 0) (v_mem v (g_ref g + 0))) →
    length (<[Z.to_nat (g_type g) := b']> (v_bases v)) = 8%nat ∧
    (∀ t b, 0 ≤ t → <[Z.to_nat (g_type g) := b']> (v_bases v) !! Z.to_nat t = Some b →
      linked f' b (g_ref <$> filter (λ g, g_type g = t) (L1 ++ L2))) ∧ ∀ a, (∀ q, q ∈ L1 → a ≠ g_ref q) → f' a = v_mem v a) as Hfin.
  { intros f' b' Hcase. destruct (unlinked (v_mem v) base F1 g F2 0 b' f') as [U1 U2].
    - eapply linked_ext; [|exact Hl]. intros x _. cbn beta. by rewrite Z.add_0_r.
    - done.
    - done.
    - split; [rewrite length_insert; apply (ho_nbases _ _ _ _ Hok)|]. split.
      + intros t b Ht0 Htb. destruct (decide (t = g_type g)) as [->|Hne].
        * rewrite list_lookup_insert_eq in Htb by (by eapply lookup_lt_Some). apply (inj Some) in Htb as <-. rewrite EF'.
          eapply linked_ext; [|exact U1]. intros x _. cbn beta. by rewrite Z.add_0_r.
        * rewrite list_lookup_insert_ne in Htb by lia. pose proof (ho_sizes _ _ _ _ Hok t b Ht0 Htb) as Hlt.
          replace (filter (λ g, g_type g = t) (L1 ++ g :: L2)) with (filter (λ g, g_type g = t) (L1 ++ L2)) in Hlt.
          2:{ rewrite !filter_app, filter_cons_False by done. done. }
          eapply linked_ext; [|exact Hlt]. intros x (q & -> & Hq)%list_elem_of_fmap. apply list_elem_of_filter in Hq as [Hqt Hq].
          apply U2. intros q' Hq' E. rewrite Z.add_0_r in E. destruct (HF1 q' Hq') as [Hq'1 Hq't].
          assert (q = q') as ->; [|congruence].
          pose proof (ho_nodup _ _ _ _ Hok) as Hn. apply NoDup_app in Hn as (_ & _ & Hn).
          assert (q ∈ L1 ++ g :: L2) as [i Hi]%list_elem_of_lookup_1 by (apply elem_of_app in Hq; rewrite elem_of_app, elem_of_cons; tauto).
          assert (q' ∈ L1 ++ g :: L2) as [j Hj]%list_elem_of_lookup_1 by (apply elem_of_app; by left).
          assert (i = j) as -> by (eapply (NoDup_lookup _ _ _ _ Hn); rewrite list_lookup_fmap; [by rewrite Hi|by rewrite Hj, E]). congruence.
      + intros a Ha. apply U2. intros q Hq. rewrite Z.add_0_r. apply Ha. by apply HF1. }
  pose proof (link_words _ _ _ _ (F1 ++ g :: F2) 0 Hok Hsub ltac:(by left)) as Hlw.
  eapply (remove_list_run h v _ _ 0 (g_ref <$> F1) (g_ref g) (g_ref <$> F2) base); [done| | | | | | |].
  - apply wp_result. by eapply wp_get_base.
  - rewrite <-fmap_cons, <-fmap_app. eapply linked_ext; [|exact Hl]. intros x _. cbn beta. by rewrite Z.add_0_r.
  - by rewrite <-fmap_cons, <-fmap_app.
  - intros x. rewrite <-fmap_cons, <-fmap_app. intros Hx. destruct (Hlw x Hx) as (? & _ & ?). done.
  - rewrite length_fmap. rewrite length_app in Hlen. assert (Nat.le (length F1) (length L1)) by apply length_filter. lia.
  - intros E. apply fmap_nil_inv in E. eapply wp_put_base; [exact Hs|]. intros h' Hs'.
    destruct (Hfin (v_mem v) (v_mem v (g_ref g + 0)) ltac:(by left)) as (R1 & R2 & R3). eexists (v_mem v), _. split; [exact Hs'|]. exact (conj R1 (conj R2 R3)).
  - intros k y E. apply last_fmap in E as (F0 & q & E & <- & _).
    destruct (Hlw (g_ref q)) as (W1 & W2 & _). { apply list_elem_of_fmap. exists q. split; [done|]. rewrite E, !elem_of_app, elem_of_cons. auto. }
    eapply wp_stw; [exact Hs|done|apply W1|eapply sees_range; [exact Hs|]; apply Hlw, list_elem_of_fmap; exists g; split; [done|apply elem_mid]|].
    intros h' Hs'. destruct (Hfin _ base (or_intror (ex_intro _ F0 (ex_intro _ q (conj E (conj eq_refl eq_refl)))))) as (R1 & R2 & R3).
    rewrite list_insert_id in R1, R2 by done. eexists _, (v_bases v). split; [exact Hs'|]. exact (conj R1 (conj R2 R3)).
Qed.

Lemma remove_lists_run h v X L1 g L2 B :
  sees h v → heap_ok v X (L1 ++ g :: L2) B →
  wp (remove_lists (g_ref g) (g_type g)) (λ _ h', ∃ v', sees h' v' ∧ heap_ok v' (g_ref g :: X) (L1 ++ L2) ((g_page g, 1) :: B) ∧
    v_held v' = v_held v ∧
    ∀ a, (∀ q k, q ∈ L1 ++ g :: L2 → 0 ≤ k < 16 → a ≠ g_ref q + k) → v_mem v' a = v_mem v a) h.
Proof using.
  intros Hs Hok. pose proof (elem_mid L1 g L2) as Hg. pose proof (ho_pages _ _ _ _ Hok) as Hp. rewrite Forall_forall in Hp.
  destruct (Hp g Hg) as [Ht _ _ _ _ _]. unfold remove_lists. apply wp_bind, wp_kassert.
  split; [rewrite (proj2 (Z.leb_le _ _)), (proj2 (Z.ltb_lt _ _)) by lia; done|]. apply wp_bind.
  eapply wp_mono; [exact (remove_size_run h v X L1 g L2 B Hs Hok)|]. cbn beta. intros [] h1 (f1 & bases1 & Hs1 & Hlen & Hsz & Hf1). set (v1 := set_mem f1 (set_bases bases1 v)) in *.
  assert (∀ q, q ∈ L1 ++ g :: L2 → g_ref q `mod` 16 = 0) as Hm.
  { intros q Hq. by destruct (ref_facts _ _ _ _ Hok _ (page_in_refs _ X q Hq)) as (_ & _ & _ & _ & _ & ? & _). }
  assert (∀ q, q ∈ L1 ++ g :: L2 → f1 (g_ref q + 4) = v_mem v (g_ref q + 4)) as Hf14.
  { intros q Hq. apply Hf1. intros q' Hq'. rewrite <-(Z.add_0_r (g_ref q')). intros [_ E]%ref_apart; [lia|by apply Hm|apply Hm, elem_of_app; by left|lia|lia]. }
  pose proof (ho_all _ _ _ _ Hok) as Hl.
  assert (linked (λ x, f1 (x + 4)) (v_all v) (g_ref <$> L1 ++ g :: L2)) as Hl1.
  { eapply linked_ext; [|exact Hl]. intros x (q & -> & Hq)%list_elem_of_fmap. cbn beta. by apply Hf14. }
  assert (NoDup (g_ref <$> L1 ++ g :: L2)) as Hnd by (pose proof (ho_nodup _ _ _ _ Hok) as Hn; by apply NoDup_app in Hn as (_ & _ & ?)).
  pose proof (link_words _ _ _ _ (L1 ++ g :: L2) 4 Hok (λ q Hq, Hq) ltac:(by right)) as Hlw. pose proof (heap_length _ _ _ _ Hok) as Hlen30.
  assert (∀ f' all' h', sees h' (set_all all' (set_mem f' v1)) →
    (L1 = [] ∧ all' = f1 (g_ref g + 4) ∧ f' = f1 ∨ ∃ F0 q, L1 = F0 ++ [q] ∧ all' = v_all v ∧ f' = upd f1 (g_ref q + 4) (f1 (g_ref g + 4))) →
    ∃ v', sees h' v' ∧ heap_ok v' (g_ref g :: X) (L1 ++ L2) ((g_page g, 1) :: B) ∧ v_held v' = v_held v ∧
      ∀ a, (∀ q k, q ∈ L1 ++ g :: L2 → 0 ≤ k < 16 → a ≠ g_ref q + k) → v_mem v' a = v_mem v a) as Hfin.
  { intros f' all' h' Hs' Hcase. destruct (unlinked f1 (v_all v) L1 g L2 4 all' f' Hl1 Hnd Hcase) as [U1 U2].
    assert (∀ a, (∀ q, q ∈ L1 ++ g :: L2 → a ≠ g_ref q ∧ a ≠ g_ref q + 4) → f' a = v_mem v a) as Hf'.
    { intros a Ha. rewrite U2; [apply Hf1|]; intros q Hq; apply Ha, elem_of_app; by left. }
    eexists. split; [exact Hs'|]. split; [|split; [done|]].
    - apply (heap_ok_unlink v X L1 g L2 B f' bases1 all' Hok Hlen U1); [|done]. intros t b Ht0 Hb.
      eapply linked_ext; [|by apply (Hsz t b)]. intros x (q & -> & Hq)%list_elem_of_fmap. apply list_elem_of_filter in Hq as [_ Hq].
      apply U2. intros q' Hq'. rewrite <-(Z.add_0_r (g_ref q)). intros [_ E]%ref_apart; [lia| |apply Hm, elem_of_app; by left|lia|lia].
      apply Hm. apply elem_of_app in Hq. rewrite elem_of_app, elem_of_cons. tauto.
    - intros a Ha. cbn. apply Hf'. intros q Hq. split; [rewrite <-(Z.add_0_r (g_ref q))|]; apply Ha; (done || lia). }
  eapply (remove_list_run h1 v1 _ _ 4 (g_ref <$> L1) (g_ref g) (g_ref <$> L2) (v_all v)); [done| | | | | | |].
  - unfold gets. by rewrite (se_all _ _ Hs1).
  - by rewrite <-fmap_cons, <-fmap_app.
  - by rewrite <-fmap_cons, <-fmap_app.
  - intros x. rewrite <-fmap_cons, <-fmap_app. intros Hx. destruct (Hlw x Hx) as (? & _ & ?). done.
  - rewrite length_fmap. rewrite length_app in Hlen30. lia.
  - intros E. apply fmap_nil_inv in E. eapply wp_set_all; [exact Hs1|]. intros h' Hs'. eapply (Hfin f1 (f1 (g_ref g + 4))); [exact Hs'|by left].
  - intros k y E. apply last_fmap in E as (F0 & q & E & <- & _).
    destruct (Hlw (g_ref q)) as (W1 & W2 & _). { apply list_elem_of_fmap. exists q. split; [done|]. rewrite E, !elem_of_app, elem_of_cons. auto. }
    eapply wp_stw; [exact Hs1|done|apply W1|eapply sees_range; [exact Hs1|]; apply Hlw, list_elem_of_fmap; exists g; split; [done|apply elem_mid]|].
    intros h' Hs'. eapply (Hfin (upd f1 (g_ref q + 4) (f1 (g_ref g + 4))) (v_all v)); [exact Hs'|]. right. by exists F0, q.
Qed.

(** ** Putting a block on the free list *)

Lemma fill_deadbeef_run h v X L B g o :
  sees h v → heap_ok v X L B → g ∈ L → off_ok (g_type g) o →
  wp (fill_deadbeef (g_page g + o) (size_of (g_type g))) (λ _ h', ∃ f', sees h' (set_mem f' v) ∧
    ∀ a, ¬ (g_page g + o ≤ a < g_page g + o + size_of (g_type g)) → f' a = v_mem v a) h.
Proof using.
  intros Hs Hok Hg Ho. pose proof (ho_pages _ _ _ _ Hok) as Hp. rewrite Forall_forall in Hp. destruct (Hp g Hg) as [Ht _ _ _ _ _].
  destruct (size_facts _ Ht) as (Z1 & _). destruct (off_facts _ _ Ht Ho) as (O1 & O2 & O3). destruct (page_facts _ _ _ _ Hok g Hg) as (Hal & Hlo & Hhi & Hib).
  destruct (block_word_ok _ _ _ _ g o Hok Hg Ho Ht) as (_ & [_ Hm4] & _). set (z := size_of (g_type g)) in *.
  unfold fill_deadbeef. eapply wp_mono; [apply (wp_for_seqZ (z / 4) _ (λ _ h', ∃ f', sees h' (set_mem f' v) ∧
    ∀ a, ¬ (g_page g + o ≤ a < g_page g + o + z) → f' a = v_mem v a))|].
  - apply Z.div_pos; lia.
  - exists (v_mem v). split; [by destruct Hs|done].
  - intros i h' Hi (f' & Hs' & Hf'). assert (0 ≤ i * 4 ∧ i * 4 + 4 ≤ z) as [H1 H2].
    { pose proof (Z.div_mod z 4 ltac:(lia)). pose proof (Z.mod_pos_bound z 4 ltac:(lia)). lia. }
    eapply wp_stw; [exact Hs'|cbn; rewrite <-Z.add_assoc; apply Hib; lia|by rewrite Z_mod_plus_full|done|].
    intros h'' Hs''. eexists. split; [exact Hs''|]. intros a Ha. cbn. rewrite upd_ne by lia. by apply Hf'.
  - by intros [] h' H.
Qed.

Lemma free_block_run h v X L1 g L2 B o :
  sees h v → heap_ok v X (L1 ++ g :: L2) B → off_ok (g_type g) o → o ∉ g_free g →
  wp (free_block (g_page g + o) (g_ref g) (g_page g) (g_type g)) (λ n h', n = Z.of_nat (length (g_free g)) + 1 ∧
    ∃ f', sees h' (set_mem f' v) ∧ heap_ok (set_mem f' v) X (L1 ++ mk_gpage (g_ref g) (g_page g) (g_type g) (o :: g_free g) :: L2) B ∧
      ∀ a, ¬ (g_page g + o ≤ a < g_page g + o + size_of (g_type g)) → a ≠ g_ref g + 12 → f' a = v_mem v a) h.
Proof using.
  intros Hs Hok Ho Hno. pose proof (elem_mid L1 g L2) as Hg. pose proof (ho_pages _ _ _ _ Hok) as Hp. rewrite Forall_forall in Hp.
  pose proof (Hp g Hg) as [Ht Hnd Hoffs Hpab Hword Hlinks]. destruct (size_facts _ Ht) as (Z1 & _ & _ & Z4). destruct (off_facts _ _ Ht Ho) as (O1 & O2 & O3).
  destruct (block_word_ok _ _ _ _ g o Hok Hg Ho Ht) as (Hbi & Hbw & Eu & Eo).
  destruct (ref_word_ok _ _ _ _ (g_ref g) 12 Hok (page_in_refs _ X g Hg) ltac:(set_solver)) as [Hib Hw].
  destruct (page_facts _ _ _ _ Hok g Hg) as (Hal & Hlo & Hhi & _).
  assert (∀ k o', 0 ≤ k < 16 → 0 ≤ o' < PAGE_SIZE → g_ref g + k ≠ g_page g + o') as Hrp.
  { intros k o' Hk Ho' E. apply (ref_not_page _ _ _ _ Hok (g_ref g) g (page_in_refs _ X g Hg) Hg).
    rewrite <-(in_page (g_ref g) k), E, page_start by (try done; by destruct (ref_facts _ _ _ _ Hok _ (page_in_refs _ X g Hg)) as (_ & _ & _ & _ & _ & ? & _)). done. }
  pose proof (free_length _ (o :: g_free g) Ht ltac:(by apply NoDup_cons) ltac:(by apply Forall_cons)) as Hlen. cbn [length] in Hlen.
  set (n := Z.of_nat (length (g_free g))) in *. replace (Z.of_nat (S (length (g_free g)))) with (n + 1) in Hlen by (unfold n; lia).
  assert (0 ≤ n) by (unfold n; lia). set (z := size_of (g_type g)) in *.
  set (off := default INVALID_OFFSET (head (g_free g))) in *. change (v_mem v (g_ref g + 12) = ref_word off n) in Hword.
  unfold free_block. fold z. rewrite Eo, Eu. cbn zeta. apply wp_bind.
  eapply wp_mono; [exact (fill_deadbeef_run h v X _ B g o Hs Hok Hg Ho)|]. cbn beta. intros [] h1 (f1 & Hs1 & Hf1). fold z in Hf1.
  assert (f1 (g_ref g + 12) = ref_word off n) as Hw1.
  { rewrite Hf1; [done|]. intros Ha. apply (Hrp 12 (g_ref g + 12 - g_page g)); lia. }
  apply wp_bind. eapply wp_get_offset; [exact Hs1|done|exact Hw1|lia|]. apply wp_bind.
  set (next := match g_free g with [] => 0 | o' :: _ => g_page g + o' end).
  assert (wp (if off =? INVALID_OFFSET then stw (g_page g + o) 0 else stw (g_page g + o) (u32 (g_page g + off)) ;;
      kassert (negb (g_page g + o =? u32 (g_page g + off))) "fl != fl->next") (λ _ h', sees h' (set_mem (upd f1 (g_page g + o) next) v)) h1) as Hst.
  { unfold off, next. destruct (g_free g) as [|o' fr] eqn:Hfr; cbn [head default].
    - cbn [Z.eqb]. change (INVALID_OFFSET =? INVALID_OFFSET) with true. cbv iota. eapply wp_stw; [exact Hs1|done|apply Hbw|lia|]. by intros h' Hs'.
    - apply Forall_cons in Hoffs as [Ho' Hoffs]. destruct (block_word_ok _ _ _ _ g o' Hok Hg Ho' Ht) as (_ & Hbw' & Eu' & _). cbn [from_option id].
      destruct Ho' as [Hor _]. rewrite (proj2 (Z.eqb_neq o' INVALID_OFFSET)) by (unfold INVALID_OFFSET, PAGE_SIZE in *; lia). rewrite Eu'. apply wp_bind.
      eapply wp_stw; [exact Hs1|done|apply Hbw|rewrite <-Eu'; apply u32_range|]. intros h' Hs'. apply wp_kassert. split; [|exact Hs'].
      rewrite (proj2 (Z.eqb_neq _ _)); [done|]. intros E. apply Hno. assert (o = o') as -> by lia. by left. }
  eapply wp_mono; [exact Hst|]. intros [] h2 Hs2. clear Hst. apply wp_bind.
  eapply (wp_set_offset _ _ _ off n o); [exact Hs2|done|done|cbn; rewrite upd_ne by (apply Hrp; lia); exact Hw1|lia|unfold PAGE_SIZE in *; lia|].
  intros h3 Hs3. cbn in Hs3. apply wp_bind. eapply wp_get_nfree; [exact Hs3|done|cbn; apply upd_eq|lia|]. apply wp_bind.
  eapply (wp_set_nfree _ _ _ o n (n + 1)); [exact Hs3|done|done|cbn; apply upd_eq|unfold PAGE_SIZE in *; lia|lia|lia|].
  intros h4 Hs4. cbn in Hs4. eapply wp_get_nfree; [exact Hs4|done|cbn; apply upd_eq|lia|]. split; [done|]. eexists. split; [exact Hs4|].
  assert (∀ a, ¬ (g_page g + o ≤ a < g_page g + o + z) → a ≠ g_ref g + 12 →
    upd (upd (upd f1 (g_page g + o) next) (g_ref g + 12) (ref_word o n)) (g_ref g + 12) (ref_word o (n + 1)) a = v_mem v a) as Hout.
  { intros a Ha Hne. rewrite !upd_ne by (done || lia). by apply Hf1. }
  split; [|done]. eapply heap_ok_replace; [exact Hok|done..| |].
  - split; cbn [g_ref g_page g_type g_free]; [done|by apply NoDup_cons|by apply Forall_cons| | |].
    + rewrite Hout; [done| |lia]. intros Ha. apply (Hrp 8 (g_ref g + 8 - g_page g)); lia.
    + rewrite upd_eq. unfold free_word. cbn [head default from_option id length]. f_equal. unfold n. lia.
    + split; [rewrite !(upd_ne _ (g_ref g + 12)), upd_eq by (intros E; by apply (Hrp 12 o); lia); done|].
      eapply free_links_ext; [|exact Hlinks]. intros o' Hin. rewrite Forall_forall in Hoffs. pose proof (Hoffs o' Hin) as Ho'.
      destruct (off_facts _ _ Ht Ho') as (Q1 & Q2 & _). fold z in Q2. apply Hout; [|intros E; by apply (Hrp 12 o'); lia].
      intros Ha. apply Hno. assert (o = o') as ->; [|done]. apply (offs_apart (g_type g) o o' o' Ht Ho Ho'); fold z; lia.
  - intros a Hne Ha. apply Hout; [|done]. intros Hr. apply Ha. eapply block_page; [exact Hok|done|done|exact Hr].
Qed.

(** ** The operation *)

Definition in_page_of (g : gpage) (a : Z) : Prop := g_page g ≤ a < g_page g + PAGE_SIZE.

Lemma find_ref_run h v X L B ptr :
  sees h v → heap_ok v X L B →
  ∃ r, find_ref ptr h = Ok (r, h) ∧
    match r with
    | Some (p, page, t) => ∃ L1 g L2, L = L1 ++ g :: L2 ∧ p = g_ref g ∧ page = g_page g ∧ t = g_type g ∧ in_page_of g ptr
    | None => ∀ g, g ∈ L → ¬ in_page_of g ptr
    end.
Proof using.
  intros Hs Hok. pose proof (ho_pages _ _ _ _ Hok) as Hp. rewrite Forall_forall in Hp. pose proof (heap_length _ _ _ _ Hok) as Hlen.
  enough (wp (find_ref ptr) (λ r h', h' = h ∧ match r with
    | Some (p, page, t) => ∃ L1 g L2, L = L1 ++ g :: L2 ∧ p = g_ref g ∧ page = g_page g ∧ t = g_type g ∧ in_page_of g ptr
    | None => ∀ g, g ∈ L → ¬ in_page_of g ptr end) h) as Hwp.
  { apply wp_run in Hwp as (r & h' & Hrun & -> & Hr). by exists r. }
  unfold find_ref. apply wp_bind, wp_gets. rewrite (se_all _ _ Hs).
  apply (wp_while_left _ (λ n p h', h' = h ∧ ∃ d rest, L = d ++ rest ∧ linked (λ x, v_mem v (x + 4)) p (g_ref <$> rest) ∧
    (∀ g, g ∈ d → ¬ in_page_of g ptr) ∧ n = Z.of_nat (length rest)) _ (Z.of_nat (length L))); [|lia|].
  { split; [done|]. exists [], L. split; [done|]. split; [apply (ho_all _ _ _ _ Hok)|]. split; [|done]. intros g Hg. by apply not_elem_of_nil in Hg. }
  intros n p h' (-> & d & rest & EL & Hlk & Hd & ->). split; [lia|]. destruct rest as [|g rest]; cbn in Hlk.
  { subst p. cbn. apply wp_ret. rewrite app_nil_r in EL. by rewrite EL. }
  destruct Hlk as [-> Hlk]. assert (g ∈ L) as Hg by (rewrite EL; apply elem_mid). destruct (page_of_ref _ _ _ _ _ g Hs Hok Hg) as [Epg Ebt].
  destruct (link_words _ _ _ _ L 4 Hok (λ q Hq, Hq) ltac:(by right) (g_ref g) ltac:(apply list_elem_of_fmap; by exists g)) as (Hw & _ & H0).
  destruct (Hp g Hg) as [Ht _ _ _ _ _]. destruct (page_facts _ _ _ _ Hok g Hg) as (_ & Hlo & Hhi & _).
  rewrite (proj2 (Z.eqb_neq _ 0)) by done. apply wp_bind. erewrite wp_eq by exact Epg. apply wp_bind. erewrite wp_eq by exact Ebt.
  apply wp_bind, wp_kassert. split; [rewrite (proj2 (Z.leb_le _ _)), (proj2 (Z.ltb_lt _ _)) by lia; done|].
  rewrite u32_id by (unfold MIPS_KSEG0, MIPS_KSEG1, PAGE_SIZE in *; lia).
  destruct ((g_page g <=? ptr) && (ptr <? g_page g + PAGE_SIZE)) eqn:E.
  - apply wp_ret. split; [done|]. exists d, g, rest. do 4 (split; [done|]). apply andb_true_iff in E as [E1%Z.leb_le E2%Z.ltb_lt]. done.
  - apply wp_bind. unfold get_next_all. eapply wp_ldw; [done|done|]. intros _. apply wp_ret. exists (Z.of_nat (length rest)).
    split; [cbn [length]; lia|]. split; [done|]. exists (d ++ [g]), rest. rewrite <-app_assoc. do 2 (split; [done|]). split; [|done].
    intros g' [Hg'| ->%list_elem_of_singleton]%elem_of_app; [by apply Hd|]. intros [H1 H2].
    rewrite (proj2 (Z.leb_le _ _) H1), (proj2 (Z.ltb_lt _ _) H2) in E. done.
Qed.

Lemma live_free v X L1 g L2 B o x : heap_ok v X (L1 ++ g :: L2) B → off_ok (g_type g) o →
  live (L1 ++ mk_gpage (g_ref g) (g_page g) (g_type g) (o :: g_free g) :: L2) B x ↔
  live (L1 ++ g :: L2) B x ∧ x.1 ≠ g_page g + o.
Proof using.
  intros Hok Ho. pose proof (elem_mid L1 g L2) as Hg. pose proof (ho_pages _ _ _ _ Hok) as Hp. rewrite Forall_forall in Hp.
  assert (∀ q o', q ∈ L1 ++ g :: L2 → off_ok (g_type q) o' → (g_page q + o') / PAGE_SIZE = g_page q / PAGE_SIZE) as Epg.
  { intros q o' Hq Ho'. destruct (Hp q Hq) as [Ht _ _ _ _ _]. destruct (size_facts _ Ht) as (? & _). by eapply block_page; [exact Hok|done|exact Ho'|lia]. }
  assert (∀ q, q ∈ L1 ++ L2 → q ∈ L1 ++ g :: L2 ∧ g_page q / PAGE_SIZE ≠ g_page g / PAGE_SIZE) as Hpg.
  { intros q Hq. assert (∃ i, (L1 ++ g :: L2) !! i = Some q ∧ i ≠ length L1) as (i & Hi & Hne).
    { apply elem_of_app in Hq as [[i Hi]%list_elem_of_lookup_1|[i Hi]%list_elem_of_lookup_1].
      - exists i. pose proof (lookup_lt_Some _ _ _ Hi). rewrite lookup_app_l by done. split; [done|lia].
      - exists (S (length L1) + i)%nat. split; [|lia]. rewrite lookup_app_r by lia. by replace (S (length L1) + i - length L1)%nat with (S i) by lia. }
    split; [by eapply list_elem_of_lookup_2|]. intros E. apply Hne. eapply (page_not_page _ _ _ _ Hok _ _ q g Hi); [|done].
    by rewrite lookup_app_r, Nat.sub_diag by lia. }
  set (g' := mk_gpage _ _ _ _). unfold live. split.
  - intros [(y & o' & Hy & Ho' & Hn & ->)|(b & Hb & ->)]; cbn [fst].
    + apply elem_of_app in Hy. rewrite elem_of_cons in Hy. assert (y = g' ∨ y ∈ L1 ++ L2) as [->|Hy'] by (rewrite elem_of_app; tauto).
      * cbn in *. rewrite elem_of_cons in Hn. split; [|intros E; apply Hn; left; lia]. left. exists g, o'.
        split_and!; [apply elem_mid|done..|tauto|done].
      * split; [left; exists y, o'; split_and!; try done; rewrite elem_of_app, elem_of_cons; apply elem_of_app in Hy'; tauto|].
        intros E. destruct (Hpg y Hy') as [Hin Hne]. apply Hne. by rewrite <-(Epg y o' Hin Ho'), E, Epg.
    + split; [right; by exists b|]. intros E. assert (b ∈ hblocks (v_roots v) (L1 ++ g :: L2) B) as Hin by (unfold hblocks; rewrite !elem_of_app; auto).
      destruct (ho_range _ _ _ _ Hok b Hin) as (Hal & _ & Hn & _). apply (page_not_other _ _ _ _ Hok g b (b.1 / PAGE_SIZE) Hg Hb); [|by rewrite E, Epg].
      apply block_addr_page; [done|unfold PAGE_SIZE; lia].
  - intros [[(y & o' & Hy & Ho' & Hn & ->)|(b & Hb & ->)] Hne]; cbn [fst] in Hne; [|right; by exists b]. left.
    apply elem_of_app in Hy. rewrite elem_of_cons in Hy. assert (y = g ∨ y ∈ L1 ++ L2) as [->|Hy'] by (rewrite elem_of_app; tauto).
    + exists g', o'. cbn. split_and!; [apply elem_mid|done..| |done]. rewrite elem_of_cons. intros [->|?]; [by destruct Hne|done].
    + exists y, o'. split_and!; try done. rewrite elem_of_app, elem_of_cons. apply elem_of_app in Hy'. tauto.
Qed.

(** All blocks of a page are free when their number says so. *)
Lemma all_free t l o : 0 ≤ t < NSIZES → NoDup l → Forall (off_ok t) l → Z.of_nat (length l) = PAGE_SIZE / size_of t → off_ok t o → o ∈ l.
Proof using.
  intros Ht Hnd Hl Hlen Ho. destruct (size_facts t Ht) as (Z1 & _ & Z3 & Z4). set (z := size_of t) in *. set (n := PAGE_SIZE / z) in *.
  assert (∀ o, off_ok t o → o ∈ all_offs z (Z.to_nat n)) as Hall.
  { intros o' [Hr Hm]. apply elem_of_all_offs. fold z in Hm. apply Z.mod_divide in Hm as [k ->]; [|lia]. assert (0 ≤ k < n) by nia.
    exists (Z.to_nat k). split; [lia|]. by rewrite Z2Nat.id by lia. }
  assert (l ≡ₚ all_offs z (Z.to_nat n)) as ->; [|by apply Hall].
  apply submseteq_length_Permutation; [|rewrite length_all_offs; lia]. apply NoDup_submseteq; [done|]. intros o' Ho'.
  rewrite Forall_forall in Hl. by apply Hall, Hl.
Qed.

Lemma live_drop L1 g L2 B x : (∀ o, off_ok (g_type g) o → o ∈ g_free g) → live (L1 ++ g :: L2) B x ↔ live (L1 ++ L2) B x.
Proof using.
  intros Hall. unfold live. split; intros [(y & o & Hy & Ho & Hn & ->)|Hb]; [|by right| |by right]; left; exists y, o.
  - apply elem_of_app in Hy. rewrite elem_of_cons in Hy. destruct Hy as [Hy|[->|Hy]]; [|by destruct Hn; apply Hall|]; rewrite elem_of_app; auto.
  - apply elem_of_app in Hy. rewrite elem_of_app, elem_of_cons. tauto.
Qed.

Lemma drop_block_ok v X L b B s' :
  heap_ok v X L (b :: B) →
  (∀ x, kp_block (v_pages v) x → (∀ i, i ∈ pages_of x → i ∉ pages_of b) → kp_block s' x) →
  heap_ok (set_pages s' v) X L B.
Proof using.
  intros [H1 H2 H3 H4 H5 H6 H7 H8 H9 H10 H11] Hkeep.
  assert (hblocks (v_roots v) L (b :: B) ≡ₚ b :: hblocks (v_roots v) L B) as Hperm.
  { unfold hblocks. rewrite !app_assoc. symmetry. apply Permutation_middle. }
  rewrite Hperm in H9, H10. apply Forall_cons in H9 as [_ H9]. cbn in H10. apply NoDup_app in H10 as (_ & H10a & H10).
  split; try done; cbn [v_roots v_pages set_pages].
  - rewrite Forall_forall in *. intros x Hx. apply Hkeep; [by apply H9|]. intros i Hi Hb. apply (H10a i Hb), list_elem_of_bind. by exists x.
  - intros x Hx. apply H11. rewrite Hperm. by right.
Qed.

(** What releasing a block gives *)
Definition freed_from (v : hview) (L : list gpage) (B : list (Z * Z)) (p : Z) (h' : kheap T) : Prop :=
  ∃ v' L', sees h' v' ∧ v_held v' = false ∧ heap_ok v' [] L' B ∧ Forall partly L' ∧
    (∀ x, live L' B x ↔ live L B x ∧ x.1 ≠ p) ∧ ∀ a, live_addr L' B a → v_mem v' a = v_mem v a.

Lemma live_addr_ext L L' B : (∀ x, live L' B x ↔ live L B x) → ∀ a, live_addr L' B a ↔ live_addr L B a.
Proof using. intros H a. unfold live_addr. by setoid_rewrite H. Qed.

Lemma subpage_kfree_run h v L1 g L2 B o :
  sees h v → heap_ok v [] (L1 ++ g :: L2) B → v_held v = false → Forall partly (L1 ++ g :: L2) → off_ok (g_type g) o → o ∉ g_free g →
  wp (subpage_kfree (g_page g + o)) (λ r h', r = 0 ∧ freed_from v (L1 ++ g :: L2) B (g_page g + o) h') h.
Proof using.
  intros Hs Hok Hheld Hpart Ho Hno. set (L := L1 ++ g :: L2) in *. pose proof (elem_mid L1 g L2) as Hg. fold L in Hg.
  pose proof (ho_pages _ _ _ _ Hok) as Hp. rewrite Forall_forall in Hp. pose proof (Hp g Hg) as [Ht Hnd Hoffs _ _ _].
  destruct (off_facts _ _ Ht Ho) as (O1 & O2 & _). destruct (size_facts _ Ht) as (Z1 & _).
  destruct (block_word_ok _ _ _ _ g o Hok Hg Ho Ht) as (_ & _ & _ & Eo).
  unfold subpage_kfree. apply wp_bind. eapply wp_lock; [exact Hs|done|]. intros h1 Hs1. pose proof (heap_ok_held _ _ _ _ true Hok) as Hok1.
  destruct (find_ref_run _ _ _ _ _ (g_page g + o) Hs1 Hok1) as (r & Hrun & Hr). apply wp_bind. erewrite wp_eq by exact Hrun.
  assert (in_page_of g (g_page g + o)) as Hin by (unfold in_page_of; lia).
  destruct r as [[[p page] t]|]; [|by destruct (Hr g Hg)].
  assert (p = g_ref g ∧ page = g_page g ∧ t = g_type g) as (-> & -> & ->).
  { destruct Hr as (M1 & g2 & M2 & EL & -> & -> & -> & Hin2). assert (g2 ∈ L) as Hg2 by (rewrite EL; apply elem_mid).
    assert (g2 = g) as ->; [|done]. eapply same_page; [exact Hok|done|done|]. destruct (page_facts _ _ _ _ Hok g2 Hg2) as (Hal2 & _).
    rewrite <-(page_start (g_page g2) (g_page g + o - g_page g2)) by (done || unfold in_page_of in Hin2; lia).
    replace (g_page g2 + (g_page g + o - g_page g2)) with (g_page g + o) by lia. apply page_start; [apply (page_facts _ _ _ _ Hok g Hg)|lia]. }
  clear Hr. cbn zeta. rewrite Eo, (proj2 (Z.leb_gt _ _)), (proj2 Ho) by lia. cbn [Z.eqb negb orb]. apply wp_bind.
  eapply wp_mono; [exact (free_block_run h1 _ [] L1 g L2 B o Hs1 Hok1 Ho Hno)|]. cbn beta. intros n h2 (-> & f2 & Hs2 & Hok2 & Hf2).
  set (g' := mk_gpage (g_ref g) (g_page g) (g_type g) (o :: g_free g)) in *. set (v2 := set_mem f2 (set_held true v)) in *.
  pose proof (free_length _ (g_free g') Ht ltac:(by apply NoDup_cons) ltac:(by apply Forall_cons)) as Hlen. cbn [length g_free g'] in Hlen.
  assert (∀ x, live (L1 ++ g' :: L2) B x ↔ live L B x ∧ x.1 ≠ g_page g + o) as Hlive by (intros x; by apply (live_free v [])).
  assert (∀ a, live_addr (L1 ++ g' :: L2) B a → f2 a = v_mem v a) as Hmem.
  { intros a Ha. apply Hf2.
    - intros Hr. eapply (free_block_apart _ _ _ _ g' o a Hok2); [apply elem_mid|done|by left|exact Hr|exact Ha].
    - eapply (live_not_ref _ _ _ _ (g_ref g) 12 a Hok2); [apply (page_in_refs _ [] g'), elem_mid|lia|exact Ha]. }
  apply wp_bind, wp_kassert. split; [apply Z.leb_le; lia|]. apply wp_bind.
  destruct (Z.eqb_spec (Z.of_nat (length (g_free g)) + 1) (PAGE_SIZE / size_of (g_type g))) as [Hfull|Hnot].
  - apply wp_bind. eapply wp_mono; [exact (remove_lists_run h2 v2 [] L1 g' L2 B Hs2 Hok2)|]. cbn beta. intros [] h3 (v3 & Hs3 & Hok3 & Hh3 & Hf3).
    apply wp_bind. eapply wp_mono; [exact (freepageref_run h3 v3 (g_ref g) [] (L1 ++ L2) _ Hs3 Hok3)|]. cbn beta. intros [] h4 (roots & Hs4 & Hok4).
    apply wp_bind. eapply wp_unlock; [exact Hs4|exact Hh3|]. intros h5 Hs5. pose proof (heap_ok_held _ _ _ _ false Hok4) as Hok5.
    assert (kp_block (v_pages (set_held false (set_roots roots v3))) (g_page g, 1)) as Hkb.
    { eapply (proj1 (Forall_forall _ _)); [apply (ho_blocks _ _ _ _ Hok5)|]. unfold hblocks. rewrite !elem_of_app. right. right. by left. }
    eapply (wp_free h5 _ (g_page g) 1); [exact Hs5|done|exact Hkb|]. intros s' h6 Hs6 Hkeep. apply wp_ret. split; [done|].
    assert (∀ x, live (L1 ++ g' :: L2) B x ↔ live (L1 ++ L2) B x) as Hdrop.
    { intros x. apply live_drop. intros o' Ho'. apply (all_free (g_type g)); [done|by apply NoDup_cons|by apply Forall_cons|cbn [length g_free g']; lia|done]. }
    eexists _, (L1 ++ L2). split; [exact Hs6|]. split; [done|]. split; [by eapply drop_block_ok|]. split.
    + apply Forall_app in Hpart as [Hp1 [_ Hp2]%Forall_cons]. by apply Forall_app.
    + split; [intros x; by rewrite <-Hdrop|]. intros a Ha. apply (live_addr_ext _ _ _ Hdrop) in Ha. cbn. rewrite Hf3; [by apply Hmem|].
      intros q k Hq Hk. eapply (live_not_ref _ _ _ _ (g_ref q) k a Hok2); [by apply page_in_refs|done|done].
  - eapply wp_unlock; [exact Hs2|done|]. intros h3 Hs3. apply wp_ret. split; [done|]. eexists _, _. split; [exact Hs3|]. split; [done|].
    split; [exact (heap_ok_held _ _ _ _ false Hok2)|]. split; [|split; [done|exact Hmem]].
    apply Forall_app in Hpart as [Hp1 [_ Hp2]%Forall_cons]. apply Forall_app. split; [done|]. apply Forall_cons. split; [|done].
    unfold partly. cbn [g_free g_type g' length]. lia.
Qed.
End remove.
