(* ===== verification/KmallocSpec.v ===== *)
(** * The kernel heap implements a map of blocks

    The specification is a finite map from the addresses of the blocks in use
    to their words.  Allocation adds a block that overlaps no other, release
    removes one, and a client may write the words of its blocks.  [kmalloc],
    [kfree] and stores are shown to implement it. *)

From S2P Require Import Prelude Machine Kmalloc KmallocInv KmallocOps KmallocRefs KmallocAlloc KmallocFree.

(** ** The specification *)

Inductive heap_op : Type := HAlloc (sz : Z) | HFree (p : Z) | HStore (p i w : Z).

Definition block_end (p : Z) (ws : list Z) : Z := p + 4 * Z.of_nat (length ws).

Inductive spec_step : gmap Z (list Z) → heap_op → Z → gmap Z (list Z) → Prop :=
  | spec_alloc A sz p ws : A !! p = None → p `mod` 16 = 0 → 0 < p → sz ≤ 4 * Z.of_nat (length ws) →
      (∀ q ws', A !! q = Some ws' → block_end q ws' ≤ p ∨ block_end p ws ≤ q) → spec_step A (HAlloc sz) p (<[p := ws]> A)
  | spec_free A p ws : A !! p = Some ws → spec_step A (HFree p) 0 (delete p A)
  | spec_store A p i w ws : A !! p = Some ws → 0 ≤ i < Z.of_nat (length ws) →
      spec_step A (HStore p i w) 0 (<[p := <[Z.to_nat i := w]> ws]> A).

Section spec.
Context {T : Type} {src : PageSource T} {laws : PageLaws T}.

Definition run_op (op : heap_op) : M (kheap T) Z :=
  match op with
  | HAlloc sz => kmalloc sz
  | HFree p => kfree p ;; mret 0
  | HStore p i w => stw (p + 4 * i) w ;; mret 0
  end.

(** ** The representation *)

Definition words (f : Z → Z) (a z : Z) : list Z := (λ i, f (a + 4 * i)) <$> seqZ 0 (z / 4).

Definition heap_rep (h : kheap T) (A : gmap Z (list Z)) : Prop :=
  ∃ v L B, sees h v ∧ v_held v = false ∧ heap_ok v [] L B ∧ Forall partly L ∧
    ∀ a ws, A !! a = Some ws ↔ ∃ z, live L B (a, z) ∧ ws = words (v_mem v) a z.

(** What an operation needs: room for an allocation, a block in use *)
Definition enabled (h : kheap T) (A : gmap Z (list Z)) (op : heap_op) : Prop :=
  match op with
  | HAlloc sz =>
      if LARGEST_SUBPAGE_SIZE <=? sz then sz < 2 ^ 32 - PAGE_SIZE ∧ kp_fits ((sz + PAGE_SIZE - 1) / PAGE_SIZE) (kp_pages (kh_t h))
      else 0 ≤ sz ∧ kp_avail 2 (kp_pages (kh_t h)) ∧ refs_left (kheaproots h)
  | HFree p => is_Some (A !! p)
  | HStore p i w => (∃ ws, A !! p = Some ws ∧ 0 ≤ i < Z.of_nat (length ws)) ∧ 0 ≤ w < 2 ^ 32
  end.

Lemma length_words f a z : 0 ≤ z → z `mod` 4 = 0 → 4 * Z.of_nat (length (words f a z)) = z.
Proof using.
  intros Hz Hm. unfold words. rewrite length_fmap, length_seqZ. apply Z.mod_divide in Hm as [k ->]; [|done].
  rewrite Z.div_mul by done. lia.
Qed.

Lemma words_ext f f' a z : (∀ b, a ≤ b < a + z → f' b = f b) → words f' a z = words f a z.
Proof using.
  intros Hf. apply list_fmap_ext. intros i x Hx. apply lookup_seqZ in Hx as [-> Hi]. apply Hf.
  pose proof (Z.mul_div_le z 4 ltac:(lia)). destruct (decide (0 ≤ z)) as [Hz|Hz]; [lia|].
  assert (z / 4 < 0) by (apply Z.div_lt_upper_bound; lia). lia.
Qed.

Lemma mod16_4 z : z `mod` 16 = 0 → z `mod` 4 = 0.
Proof using. intros [k ->]%Z.mod_divide; [|done]. apply Z.mod_divide; [done|]. exists (k * 4). lia. Qed.

(** ** Blocks in use *)

Lemma live_facts v X L B x : heap_ok v X L B → live L B x → x.1 `mod` 16 = 0 ∧ MIPS_KSEG0 < x.1 ∧ 0 < x.2 ∧ x.2 `mod` 16 = 0 ∧ x.1 + x.2 ≤ MIPS_KSEG1.
Proof using.
  intros Hok [(g & o & Hg & Ho & Hn & ->)|(b & Hb & ->)]; cbn [fst snd].
  - pose proof (ho_pages _ _ _ _ Hok) as Hp. rewrite Forall_forall in Hp. destruct (Hp g Hg) as [Ht _ _ _ _ _].
    destruct (off_facts _ _ Ht Ho) as (O1 & O2 & O3). destruct (size_facts _ Ht) as (Z1 & Z2 & _).
    destruct (page_facts _ _ _ _ Hok g Hg) as (Hal & Hlo & Hhi & _). apply Z.mod_divide in Hal as [c Hc]; [|done].
    apply Z.mod_divide in O3 as [d Hd]; [|done]. split; [|unfold PAGE_SIZE in *; repeat split; (done || lia)].
    rewrite Hc, Hd. apply Z.mod_divide; [done|]. exists (c * 256 + d). unfold PAGE_SIZE. lia.
  - assert (b ∈ hblocks (v_roots v) L B) as Hin by (unfold hblocks; rewrite !elem_of_app; auto).
    destruct (ho_range _ _ _ _ Hok b Hin) as (Hal & Hlo & Hn & Hhi). apply Z.mod_divide in Hal as [c Hc]; [|done].
    split; [rewrite Hc; apply Z.mod_divide; [done|]; exists (c * 256); unfold PAGE_SIZE; lia|]. unfold PAGE_SIZE in *. split; [done|]. split; [lia|].
    split; [|lia]. apply Z.mod_divide; [done|]. exists (b.2 * 256). lia.
Qed.

Lemma live_overlap v X L B x y a : heap_ok v X L B → live L B x → live L B y →
  x.1 ≤ a < x.1 + x.2 → y.1 ≤ a < y.1 + y.2 → x = y.
Proof using.
  intros Hok Hx Hy Hax Hay. pose proof (ho_pages _ _ _ _ Hok) as Hp. rewrite Forall_forall in Hp.
  assert (∀ b, b ∈ B → b.1 ≤ a < b.1 + b.2 * PAGE_SIZE → a / PAGE_SIZE ∈ pages_of b) as HB.
  { intros b Hb Ha. assert (b ∈ hblocks (v_roots v) L B) as Hin by (unfold hblocks; rewrite !elem_of_app; auto).
    apply block_addr_page; [by apply (ho_range _ _ _ _ Hok b Hin)|done]. }
  destruct Hx as [(g & o & Hg & Ho & Hn & ->)|(b & Hb & ->)], Hy as [(g' & o' & Hg' & Ho' & Hn' & ->)|(b' & Hb' & ->)]; cbn [fst snd] in *.
  - assert (g = g') as <-.
    { eapply same_page; [exact Hok|done|done|]. rewrite <-(block_page _ _ _ _ _ _ _ Hok Hg Ho Hax). by eapply block_page. }
    assert (o = o') as <-; [|done]. destruct (Hp g Hg) as [Ht _ _ _ _ _]. apply (offs_apart (g_type g) o o' (a - g_page g)); (done || lia).
  - exfalso. apply (page_not_other _ _ _ _ Hok g b' (a / PAGE_SIZE) Hg Hb' (HB b' Hb' Hay)). symmetry. by eapply block_page.
  - exfalso. apply (page_not_other _ _ _ _ Hok g' b (a / PAGE_SIZE) Hg' Hb (HB b Hb Hax)). symmetry. by eapply block_page.
  - assert (b = b') as <-; [|done]. apply list_elem_of_lookup_1 in Hb as Hi. apply list_elem_of_lookup_1 in Hb' as Hj. destruct Hi as [i Hi], Hj as [j Hj].
    pose proof (ho_apart _ _ _ _ Hok) as Hnd. unfold hblocks in Hnd. rewrite app_assoc, bind_app in Hnd. apply NoDup_app in Hnd as (_ & _ & Hnd).
    assert (i = j) as -> by (eapply (NoDup_bind_ne _ _ _ _ _ _ _ Hnd Hi Hj); by apply HB). congruence.
Qed.

Lemma live_unique v X L B a z z' : heap_ok v X L B → live L B (a, z) → live L B (a, z') → z = z'.
Proof using.
  intros Hok H1 H2. destruct (live_facts _ _ _ _ _ Hok H1) as (_ & _ & ? & _). destruct (live_facts _ _ _ _ _ Hok H2) as (_ & _ & ? & _). cbn in *.
  assert ((a, z) = (a, z')) as E; [|by injection E]. eapply (live_overlap _ _ _ _ _ _ a Hok H1 H2); cbn; lia.
Qed.

Lemma heap_ok_perm v X L B B' : B ≡ₚ B' → heap_ok v X L B → heap_ok v X L B'.
Proof using.
  intros HB [H1 H2 H3 H4 H5 H6 H7 H8 H9 H10 H11].
  assert (hblocks (v_roots v) L B ≡ₚ hblocks (v_roots v) L B') as Hp by (unfold hblocks; by rewrite HB).
  split; try done; [by rewrite <-Hp|by rewrite <-Hp|]. intros x. rewrite <-Hp. apply H11.
Qed.

(** ** The operations *)

Definition rep_at (v : hview) (L : list gpage) (B : list (Z * Z)) (A : gmap Z (list Z)) : Prop :=
  ∀ a ws, A !! a = Some ws ↔ ∃ z, live L B (a, z) ∧ ws = words (v_mem v) a z.

Lemma alloc_rep v L B v' L' B' h' A p z sz :
  heap_ok v [] L B → rep_at v L B A → heap_ok v' [] L' B' → sees h' v' → v_held v' = false → Forall partly L' →
  (∀ x, live L' B' x ↔ live L B x ∨ x = (p, z)) → (∀ a, p ≤ a < p + z → ¬ live_addr L B a) →
  (∀ a, live_addr L B a → v_mem v' a = v_mem v a) → sz ≤ z →
  ∃ A', spec_step A (HAlloc sz) p A' ∧ heap_rep h' A'.
Proof using.
  intros Hok HA Hok' Hs' Hh' Hp' Hlive Hapart Hmem Hsz.
  assert (live L' B' (p, z)) as Hpz by (apply Hlive; by right).
  destruct (live_facts _ _ _ _ _ Hok' Hpz) as (F1 & F2 & F3 & F4 & F5). cbn in F1, F2, F3, F4, F5.
  assert (∀ y, ¬ live L B (p, y)) as Hfresh.
  { intros y Hy. destruct (live_facts _ _ _ _ _ Hok Hy) as (_ & _ & ? & _). cbn in *. apply (Hapart p ltac:(lia)). exists (p, y). split; [done|cbn; lia]. }
  assert (A !! p = None) as Hnone.
  { destruct (A !! p) as [ws|] eqn:E; [|done]. apply HA in E as (y & Hy & _). by destruct (Hfresh y). }
  exists (<[p := words (v_mem v') p z]> A). split.
  - apply spec_alloc; [done|done|unfold MIPS_KSEG0 in *; lia|rewrite length_words by (lia || by apply mod16_4); done|].
    intros q ws' (y & Hy & ->)%HA. destruct (live_facts _ _ _ _ _ Hok Hy) as (_ & _ & ? & Hy16 & _). cbn in *.
    unfold block_end. rewrite !length_words by (lia || by apply mod16_4).
    destruct (decide (q + y ≤ p)); [by left|]. destruct (decide (p + z ≤ q)); [by right|]. exfalso.
    apply (Hapart (Z.max p q) ltac:(lia)). exists (q, y). split; [done|cbn; lia].
  - exists v', L', B'. do 4 (split; [done|]). intros a ws. destruct (decide (a = p)) as [->|Hne].
    + rewrite lookup_insert_eq. split.
      * intros [= <-]. by exists z.
      * intros (y & Hy & ->). by rewrite (live_unique _ _ _ _ _ _ _ Hok' Hy Hpz).
    + rewrite lookup_insert_ne, (HA a ws) by done. apply exist_proper. intros y.
      assert (live L' B' (a, y) ↔ live L B (a, y)) as Hl by (rewrite Hlive; split; [by intros [?|[= ? _]]|by left]). split.
      * intros [Hy ->]. split; [by apply Hl|]. symmetry. apply words_ext. intros b Hb. apply Hmem. by exists (a, y).
      * intros [Hy%Hl ->]. split; [done|]. apply words_ext. intros b Hb. apply Hmem. by exists (a, y).
Qed.

Lemma free_rep v L B v' L' B' h' A p :
  heap_ok v [] L B → rep_at v L B A → sees h' v' → v_held v' = false → heap_ok v' [] L' B' → Forall partly L' →
  (∀ x, live L' B' x ↔ live L B x ∧ x.1 ≠ p) → (∀ a, live_addr L' B' a → v_mem v' a = v_mem v a) → heap_rep h' (delete p A).
Proof using.
  intros Hok HA Hs' Hh' Hok' Hp' Hlive Hmem. exists v', L', B'. do 4 (split; [done|]). intros a ws. destruct (decide (a = p)) as [->|Hne].
  - rewrite lookup_delete_eq. split; [done|]. intros (y & [_ E]%Hlive & _). by destruct E.
  - rewrite lookup_delete_ne, (HA a ws) by done. apply exist_proper. intros y.
    assert (live L' B' (a, y) ↔ live L B (a, y)) as Hl by (rewrite Hlive; split; [by intros [? _]|done]). split.
    * intros [Hy%Hl ->]. split; [done|]. symmetry. apply words_ext. intros b Hb. apply Hmem. by exists (a, y).
    * intros [Hy ->]. split; [by apply Hl|]. apply words_ext. intros b Hb. apply Hmem. by exists (a, y).
Qed.

Lemma live_perm L B B' x : B ≡ₚ B' → live L B x ↔ live L B' x.
Proof using. intros HB. unfold live. by setoid_rewrite HB. Qed.

(** A block of pages less *)
Lemma live_less v X L b B x : heap_ok v X L (b :: B) → live L B x ↔ live L (b :: B) x ∧ x.1 ≠ b.1.
Proof using.
  intros Hok. assert (live L (b :: B) (b.1, b.2 * PAGE_SIZE)) as Hb by (right; exists b; split; [by left|done]).
  destruct (live_facts _ _ _ _ _ Hok Hb) as (_ & _ & Hbz & _). cbn in Hbz. split.
  - intros Hx. assert (live L (b :: B) x) as Hx' by (destruct Hx as [?|(c & Hc & ->)]; [by left|right; exists c; split; [by right|done]]).
    split; [done|]. intros E. destruct (live_facts _ _ _ _ _ Hok Hx') as (_ & _ & Hxz & _).
    apply (live_not_new _ _ _ _ _ b.1 Hok); [exists x; split; [done|lia]|].
    assert (b ∈ hblocks (v_roots v) L (b :: B)) as Hin by (unfold hblocks; rewrite !elem_of_app; right; right; by left).
    apply block_addr_page; [by apply (ho_range _ _ _ _ Hok b Hin)|lia].
  - intros [[?|(c & [->|Hc]%elem_of_cons & ->)] Hne]; [by left|by destruct Hne|]. right. by exists c.
Qed.

Lemma kmalloc_run h A sz : heap_rep h A → enabled h A (HAlloc sz) →
  wp (kmalloc sz) (λ p h', ∃ A', spec_step A (HAlloc sz) p A' ∧ heap_rep h' A') h.
Proof using.
  intros (v & L & B & Hs & Hheld & Hok & Hpart & HA) Hen. unfold kmalloc. cbn in Hen. destruct (Z.leb_spec LARGEST_SUBPAGE_SIZE sz) as [Hbig|Hsmall].
  - destruct Hen as [Hsz Hfit]. unfold LARGEST_SUBPAGE_SIZE, PAGE_SIZE in *. rewrite u32_id by lia. set (n := (sz + 4096 - 1) / 4096) in *.
    assert (0 < n ∧ sz ≤ n * 4096) as [Hn Hle].
    { unfold n. pose proof (Z.div_mod (sz + 4096 - 1) 4096 ltac:(lia)). pose proof (Z.mod_pos_bound (sz + 4096 - 1) 4096 ltac:(lia)). lia. }
    cbn zeta. rewrite (se_pages _ _ Hs) in Hfit. apply wp_bind. eapply wp_alloc; [exact Hs|done|done|done|].
    intros va s' h' Hs' Hblk Hnew _ Hal Hlo Hhi. rewrite (proj2 (Z.eqb_neq va 0)) by (unfold MIPS_KSEG0 in *; lia).
    apply wp_bind, wp_kassert. split; [by apply Z.eqb_eq|]. apply wp_ret.
    pose proof (add_block_ok v [] L B s' (va, n) Hok Hblk Hnew Hal Hlo Hn Hhi) as Hok'.
    eapply (alloc_rep v L B _ L ((va, n) :: B) h' A va (n * 4096)); [done|done|exact Hok'|exact Hs'|done|done| | |done|done].
    + intros x. unfold live. split.
      * intros [?|(b & [->|Hb]%elem_of_cons & ->)]; [left; by left|by right|]. left. right. by exists b.
      * intros [[?|(b & Hb & ->)]| ->]; [by left|right; exists b; split; [by right|done]|]. right. exists (va, n). split; [by left|done].
    + intros a Ha Hla. apply (live_not_new _ _ _ _ _ _ Hok' Hla). by apply block_addr_page.
  - destruct Hen as (Hsz & Hav & Hleft). rewrite (se_pages _ _ Hs) in Hav. rewrite (se_roots _ _ Hs) in Hleft. unfold LARGEST_SUBPAGE_SIZE in Hsmall.
    eapply wp_mono; [apply (subpage_kmalloc_run h v L B sz); (done || lia)|]. cbn beta.
    intros p h' (t & Ht & Hle & _ & v' & L' & Hs' & Hh' & Hok' & Hp' & Hlive & Hapart & Hmem). exact (alloc_rep v L B v' L' B h' A p (size_of t) sz Hok HA Hok' Hs' Hh' Hp' Hlive Hapart Hmem Hle).
Qed.

Lemma kfree_run h A p : heap_rep h A → enabled h A (HFree p) → wp (kfree p) (λ _ h', heap_rep h' (delete p A)) h.
Proof using.
  intros (v & L & B & Hs & Hheld & Hok & Hpart & HA) [ws Hws]. apply HA in Hws as (z & Hlive & _).
  destruct (live_facts _ _ _ _ _ Hok Hlive) as (_ & Hlo & _). cbn in Hlo. unfold kfree. rewrite (proj2 (Z.eqb_neq p 0)) by (unfold MIPS_KSEG0 in *; lia).
  apply wp_bind. destruct Hlive as [(g & o & Hg & Ho & Hn & [= -> ->])|(b & Hb & [= -> ->])].
  - apply list_elem_of_split in Hg as (L1 & L2 & ->). eapply wp_mono; [by apply (subpage_kfree_run h v L1 g L2 B o)|]. cbn beta.
    intros r h' (-> & v' & L' & Hs' & Hh' & Hok' & Hp' & Hlive & Hmem). cbn [Z.eqb negb]. apply wp_ret. exact (free_rep v _ B v' L' B h' A _ Hok HA Hs' Hh' Hok' Hp' Hlive Hmem).
  - unfold subpage_kfree. apply wp_bind. eapply wp_lock; [exact Hs|done|]. intros h1 Hs1. pose proof (heap_ok_held _ _ _ _ true Hok) as Hok1.
    assert (b ∈ hblocks (v_roots v) L B) as Hin by (unfold hblocks; rewrite !elem_of_app; auto).
    destruct (ho_range _ _ _ _ Hok b Hin) as (Hal & _ & Hn & _).
    assert (b.1 / PAGE_SIZE ∈ pages_of b) as Hbp by (apply block_addr_page; [done|unfold PAGE_SIZE; lia]).
    destruct (find_ref_run _ _ _ _ _ b.1 Hs1 Hok1) as (r & Hrun & Hr). apply wp_bind. erewrite wp_eq by exact Hrun. destruct r as [[[q page] t]|].
    { exfalso. destruct Hr as (L1 & g & L2 & -> & _ & _ & _ & Hpg). pose proof (elem_mid L1 g L2) as Hg.
      apply (page_not_other _ _ _ _ Hok g b _ Hg Hb Hbp). destruct (page_facts _ _ _ _ Hok g Hg) as (Halg & _).
      rewrite <-(page_start (g_page g) (b.1 - g_page g)) by (done || unfold in_page_of in Hpg; lia). f_equal. lia. }
    apply wp_bind. eapply wp_unlock; [exact Hs1|done|]. intros h2 Hs2. apply wp_ret. cbn [Z.eqb negb].
    apply wp_bind, wp_kassert. split; [by apply Z.eqb_eq|]. apply list_elem_of_split in Hb as (B1 & B2 & EB).
    assert (B ≡ₚ b :: (B1 ++ B2)) as HB by (rewrite EB; symmetry; apply Permutation_middle).
    pose proof (heap_ok_perm _ _ _ _ _ HB Hok) as Hokp. destruct b as [va n]. cbn [fst snd] in *.
    assert (kp_block (v_pages v) (va, n)) as Hkb by (eapply (proj1 (Forall_forall _ _)); [apply (ho_blocks _ _ _ _ Hok)|done]).
    eapply wp_free; [exact Hs2|done|exact Hkb|]. intros s' h3 Hs3 Hkeep. pose proof (drop_block_ok _ _ _ _ _ _ Hokp Hkeep) as Hok3.
    eapply (free_rep v L B _ L (B1 ++ B2)); [done|done|exact Hs3|done|by apply (heap_ok_held _ _ _ _ false) in Hok3|done| |done].
    intros x. rewrite (live_perm L B _ x HB). exact (live_less _ _ _ _ _ x Hokp).
Qed.

(** A client's store in one of its blocks *)
Lemma store_run h A p i w : heap_rep h A → enabled h A (HStore p i w) →
  wp (stw (p + 4 * i) w) (λ _ h', ∃ A', spec_step A (HStore p i w) 0 A' ∧ heap_rep h' A') h.
Proof using.
  intros (v & L & B & Hs & Hheld & Hok & Hpart & HA) [(ws & Hws & Hi) Hw]. pose proof Hws as (z & Hlive & ->)%HA.
  destruct (live_facts _ _ _ _ _ Hok Hlive) as (F1 & F2 & F3 & F4 & F5). cbn in F1, F2, F3, F4, F5. apply mod16_4 in F4 as Fz.
  pose proof (length_words (v_mem v) p z ltac:(lia) Fz) as Hlen. set (a := p + 4 * i).
  assert (live_addr L B a) as Ha by (exists (p, z); split; [done|cbn; unfold a; lia]).
  destruct (live_addr_page _ _ _ _ _ Hok Ha) as (x & Hx & Hin).
  assert (x ∈ hblocks (v_roots v) L B) as Hxb by (unfold hblocks, data_blocks in *; rewrite !elem_of_app in *; tauto).
  eapply wp_stw; [exact Hs|exists x; split; [|exact Hin]; by eapply (proj1 (Forall_forall _ _)); [apply (ho_blocks _ _ _ _ Hok)|]| |done|].
  { unfold a. rewrite (Z.mul_comm 4), Z_mod_plus_full. by apply mod16_4. }
  intros h' Hs'. eexists. split; [by eapply spec_store|]. eexists _, L, B. split; [exact Hs'|]. split; [done|]. split; [|split; [done|]].
  - apply heap_ok_mem; [done|]. intros b (g & Hg & [(k & Hk & ->)|(o & Ho & ->)]); apply upd_ne; intros E.
    + eapply (live_not_ref _ _ _ _ (g_ref g) k a Hok); [by apply page_in_refs| |done|done].
      repeat (apply elem_of_cons in Hk as [->|Hk]; [done|]). by apply not_elem_of_nil in Hk.
    + pose proof (ho_pages _ _ _ _ Hok) as Hp. rewrite Forall_forall in Hp. destruct (Hp g Hg) as [Ht _ Hoffs _ _ _]. rewrite Forall_forall in Hoffs.
      destruct (size_facts _ Ht) as (? & _). eapply (free_block_apart _ _ _ _ g o a Hok Hg (Hoffs o Ho) Ho); [lia|done].
  - intros b ws. destruct (decide (b = p)) as [->|Hne].
    + rewrite lookup_insert_eq. assert (<[Z.to_nat i := w]> (words (v_mem v) p z) = words (upd (v_mem v) a w) p z) as ->.
      { apply list_eq. intros j. unfold words. destruct (decide (j = Z.to_nat i)) as [->|Hj].
        - unfold words in Hi. rewrite length_fmap, length_seqZ in Hi. rewrite list_lookup_insert_eq by (rewrite length_fmap, length_seqZ; lia).
          rewrite list_lookup_fmap, lookup_seqZ_lt by lia.
          cbn. rewrite Z2Nat.id by lia. by rewrite upd_eq.
        - rewrite list_lookup_insert_ne by done. rewrite !list_lookup_fmap. destruct (seqZ 0 (z / 4) !! j) as [y|] eqn:Ej; [|done].
          apply lookup_seqZ in Ej as [-> Hj']. cbn. rewrite upd_ne; [done|]. unfold a. lia. }
      split; [intros [= <-]; by exists z|]. intros (y & Hy & ->). by rewrite (live_unique _ _ _ _ _ _ _ Hok Hy Hlive).
    + rewrite lookup_insert_ne, (HA b ws) by done. apply exist_proper. intros y.
      assert (live L B (b, y) → words (upd (v_mem v) a w) b y = words (v_mem v) b y) as E; [|naive_solver].
      intros Hy. apply words_ext. intros c Hc. apply upd_ne. intros ->. apply Hne.
      assert ((b, y) = (p, z)) as E; [|by injection E]. apply (live_overlap _ _ _ _ _ _ a Hok Hy Hlive); cbn; [done|unfold a; lia].
Qed.

Lemma run_op_ok h A op : heap_rep h A → enabled h A op →
  wp (run_op op) (λ r h', ∃ A', spec_step A op r A' ∧ heap_rep h' A') h.
Proof using.
  intros Hrep Hen. destruct op as [sz|p|p i w]; cbn [run_op].
  - by apply kmalloc_run.
  - apply wp_bind. eapply wp_mono; [by apply kfree_run|]. intros [] h' Hr. apply wp_ret. destruct Hen as [ws Hws].
    exists (delete p A). split; [by eapply spec_free|done].
  - apply wp_bind. eapply wp_mono; [by apply store_run|]. intros [] h' Hr. by apply wp_ret.
Qed.

(** C5. The kernel heap implements the specification: from a heap that represents
    [A], with room for an allocation, [kmalloc], [kfree] of a block in use and
    a store in one return without failing any assertion, and the heap then
    represents the result of the step of the specification. *)
Theorem kheap_refines h A op :
  heap_rep h A → enabled h A op →
  wp (run_op op) (λ r h', ∃ A', spec_step A op r A' ∧ heap_rep h' A') h.
Proof using. apply run_op_ok. Qed.
End spec.
