(* ===== verification/KmallocKernel.v ===== *)
(** * The heap on the pages of the coremap

    [alloc_kpages] and [free_kpages] of the modelled kernel satisfy the laws
    the heap expects of its page source.  The laws are shown together with an
    invariant that the heap's stores could break: the frames of user pages
    hold what they held. *)

From S2P Require Import Prelude Machine Spinlock Pt PtSpec PtFrames PtTable Kernel Vmstats.
From S2P Require Import Tlb Swapfile Coremap Vm VmInv.
From S2P Require Import Kmalloc KmallocInv KmallocOps KmallocRefs KmallocAlloc KmallocSpec.

(** ** The kernel with the lock of the heap *)

Section kernel_heap.
Context {ops : VnodeOps} {vlaws : VnodeLaws ops}.

Record kstate : Type := mk_ks { ks_k : kernel; kmalloc_spinlock : spinlock }.

Definition on_ks {A} (m : M kernel A) : M kstate A := zoom ks_k (λ k t, mk_ks k (kmalloc_spinlock t)) m.
Definition on_heap_lock (m : M (cpu * spinlock) ()) : M kstate () :=
  zoom (λ t, (k_cpu (ks_k t), kmalloc_spinlock t)) (λ x t, mk_ks (set_k_cpu x.1 (ks_k t)) x.2) m.

(** Words of memory, most significant byte first *)
Definition word_bytes (w : Z) : list Z := [u8 (w / 2 ^ 24); u8 (w / 2 ^ 16); u8 (w / 2 ^ 8); u8 w].
Definition kword (m : memory) (pa : Z) : Z := u8 (m pa) * 2 ^ 24 + u8 (m (pa + 1)) * 2 ^ 16 + u8 (m (pa + 2)) * 2 ^ 8 + u8 (m (pa + 3)).

#[global] Instance kernel_source : PageSource kstate := {
  word_at t a := kword (k_mem (ks_k t)) (a - MIPS_KSEG0);
  set_word a w t := mk_ks (set_k_mem (mem_write (k_mem (ks_k t)) (a - MIPS_KSEG0) (word_bytes w)) (ks_k t)) (kmalloc_spinlock t);
  heap_lock := on_heap_lock spinlock_acquire;
  heap_unlock := on_heap_lock spinlock_release;
  kpages_alloc n := on_ks (alloc_kpages n);
  kpages_free va := on_ks (free_kpages va)
}.

Lemma kword_range m pa : 0 ≤ kword m pa < 2 ^ 32.
Proof using.
  unfold kword, u8. pose proof (Z.mod_pos_bound (m pa) (2 ^ 8) ltac:(lia)). pose proof (Z.mod_pos_bound (m (pa + 1)) (2 ^ 8) ltac:(lia)).
  pose proof (Z.mod_pos_bound (m (pa + 2)) (2 ^ 8) ltac:(lia)). pose proof (Z.mod_pos_bound (m (pa + 3)) (2 ^ 8) ltac:(lia)). lia.
Qed.

Lemma word_bytes_value w : 0 ≤ w < 2 ^ 32 →
  u8 (u8 (w / 2 ^ 24)) * 2 ^ 24 + u8 (u8 (w / 2 ^ 16)) * 2 ^ 16 + u8 (u8 (w / 2 ^ 8)) * 2 ^ 8 + u8 (u8 w) = w.
Proof using.
  intros Hw. unfold u8. rewrite !Z.mod_mod by lia. change (2 ^ 16) with (2 ^ 8 * 2 ^ 8). change (2 ^ 24) with (2 ^ 8 * (2 ^ 8 * 2 ^ 8)).
  rewrite <-!Z.div_div by lia.
  assert (0 ≤ w / 2 ^ 8 / 2 ^ 8 / 2 ^ 8 < 2 ^ 8) by (rewrite !Z.div_div by lia; split; [apply Z.div_pos|apply Z.div_lt_upper_bound]; lia).
  rewrite (Z.mod_small (w / 2 ^ 8 / 2 ^ 8 / 2 ^ 8)) by done.
  pose proof (Z.div_mod w (2 ^ 8) ltac:(lia)). pose proof (Z.div_mod (w / 2 ^ 8) (2 ^ 8) ltac:(lia)).
  pose proof (Z.div_mod (w / 2 ^ 8 / 2 ^ 8) (2 ^ 8) ltac:(lia)). lia.
Qed.

Lemma kword_write m a b w : a `mod` 4 = 0 → b `mod` 4 = 0 → 0 ≤ w < 2 ^ 32 →
  kword (mem_write m a (word_bytes w)) b = if decide (b = a) then w else kword m b.
Proof using.
  intros Ha Hb Hw. apply Z.mod_divide in Ha as [i ->]; [|done]. apply Z.mod_divide in Hb as [j ->]; [|done]. unfold kword, mem_write. cbn [word_bytes length].
  case_decide as E.
  - assert (j = i) as -> by lia. rewrite !decide_True by lia. rewrite Z.sub_diag. replace (i * 4 + 1 - i * 4) with 1 by lia.
    replace (i * 4 + 2 - i * 4) with 2 by lia. replace (i * 4 + 3 - i * 4) with 3 by lia. by apply word_bytes_value.
  - rewrite !decide_False by lia. done.
Qed.

(** ** Blocks of the page table *)

Definition kblock (pt : list ptpage) (x : Z * Z) : Prop :=
  ∃ i pg, x = (MIPS_KSEG0 + Z.of_nat i * PAGE_SIZE, pg_numpages pg) ∧ (0 < i)%nat ∧ pt !! i = Some pg ∧ pg_pid pg = 0.

Definition free_count (pt : list ptpage) : nat := length (filter (λ b, b = true) (free_map pt)).

(** The frames of a block are in the table; they are not free, and all but the
    first look unused. *)
Lemma block_frames pt i pg : blocks_ok pt → pt !! i = Some pg → pg_pid pg ≠ -1 →
  let n := Z.to_nat (pg_numpages pg) in
  0 < pg_numpages pg ∧ (i + n ≤ length pt)%nat ∧ (∀ k, (i ≤ k < i + n)%nat → free_map pt !! k = Some false) ∧
  ∀ k pg', (i < k < i + n)%nat → pt !! k = Some pg' → pg_pid pg' = -1.
Proof using.
  intros Hb Hi Hp. pose proof (used_boundary pt i pg Hb Hi Hp) as H0. destruct Hb as [Hb Hs]. pose proof (lookup_lt_Some _ _ _ Hi) as Hlt.
  assert (pt = take i pt ++ pg :: drop (S i) pt) as Ept by (symmetry; by apply take_drop_middle).
  rewrite Ept in Hb, Hs. apply blocks_from_app in Hb as [_ Hb]. rewrite skip_after_app, H0 in Hs. rewrite H0 in Hb. cbn in Hb, Hs.
  rewrite (proj2 (Z.eqb_neq _ _) Hp) in Hb, Hs. destruct Hb as [Hn Hb]. destruct (covered_free _ _ Hb Hs) as [Hlen Hfree]. rewrite length_drop in Hlen.
  cbn zeta. set (n := Z.to_nat (pg_numpages pg)) in *. split; [done|]. split; [lia|]. split.
  - intros k Hk. unfold free_map. rewrite Ept, free_from_app, H0. cbn [free_from Nat.eqb]. rewrite (proj2 (Z.eqb_neq _ _) Hp). fold n.
    assert (length (free_from 0 (take i pt)) = i) as Hl by (rewrite length_free_from, length_take; lia).
    rewrite lookup_app_r, Hl by lia. destruct (k - i)%nat as [|j] eqn:Ej; [done|]. cbn.
    assert (length (take (n - 1) (drop (S i) pt)) = (n - 1)%nat) as Hl' by (rewrite length_take, length_drop; lia).
    rewrite <-(take_drop (n - 1) (drop (S i) pt)). rewrite <-Hl' at 1. rewrite free_from_covered, Hl'. rewrite (lookup_app_l (replicate (n - 1) false)) by (rewrite length_replicate; lia).
    apply lookup_replicate_2. lia.
  - intros k pg' Hk Hpg'. rewrite Forall_lookup in Hfree. apply (Hfree (k - S i)%nat).
    rewrite lookup_take_lt, lookup_drop by lia. rewrite <-Hpg'. f_equal. lia.
Qed.

Lemma pages_of_frames i n j : j ∈ pages_of (MIPS_KSEG0 + Z.of_nat i * PAGE_SIZE, n) ↔ 524288 + Z.of_nat i ≤ j < 524288 + Z.of_nat i + n.
Proof using.
  unfold pages_of. rewrite elem_of_seqZ. cbn [fst snd]. change MIPS_KSEG0 with (524288 * PAGE_SIZE).
  rewrite <-Z.mul_add_distr_r, Z.div_mul by done. lia.
Qed.

(** ** The laws *)

Context (q : queue) (C : key → option (list Z)).

(** The system is in order and user pages hold [C]; the lock of the heap is
    free, or it was taken from such a state. *)
Record calm (k : kernel) : Prop := {
  calm_vm : vm_inv None k q;
  calm_irq : t_in_interrupt (k_cpu k) = false;
  calm_contents key : contents k q key = C key
}.

Definition heap_inv (b : bool) (t : kstate) : Prop :=
  ∃ k, calm k ∧
    if b then ks_k t = set_k_cpu (cpu_raise 1 (k_cpu k)) k ∧ lock_mine (k_cpu k) (kmalloc_spinlock t)
    else ks_k t = k ∧ lock_free (kmalloc_spinlock t).

Definition table (t : kstate) : list ptpage := pagetable (k_pt (ks_k t)).

Lemma heap_inv_calm b t : heap_inv b t → ∃ k, calm k ∧ k_pt (ks_k t) = k_pt k.
Proof using. intros (k & Hc & H). exists k. split; [done|]. destruct b; destruct H as [-> _]; done. Qed.

Lemma calm_set_pt k st : calm k → cm_wf (set_k_pt st k) q → calm (set_k_pt st k).
Proof using.
  intros [[Hq Hcm Hsw ? ? ? ? ?] ? ?] Hcm'. split; [|done|done]. split; try done; [by apply quiet_set_pt|by destruct Hsw].
Qed.

(** A block of the kernel shares no frame with a user page. *)
Lemma block_not_user k i pg key j : calm k → pagetable (k_pt k) !! i = Some pg → pg_pid pg = 0 → (key, j) ∈ q →
  ¬ (i ≤ j < i + Z.to_nat (pg_numpages pg))%nat.
Proof using.
  intros [Hvm _ _] Hi Hp Hin Hj. pose proof (cm_pt _ _ (vi_cm _ _ _ Hvm)) as Hwf.
  destruct (wf_refines _ _ _ Hwf) as [bkt R]. destruct (rep_hdr _ _ _ _ R) as [Hh _]. destruct (Hh key j Hin) as (Hpos & n & Hl).
  rewrite list_lookup_fmap in Hl. destruct (pagetable (k_pt k) !! j) as [pg'|] eqn:Ej; [|done]. cbn in Hl. injection Hl as Hpid _ _.
  destruct (block_frames _ _ _ (wf_blocks _ _ _ Hwf) Hi ltac:(lia)) as (_ & _ & _ & Hrest).
  destruct (decide (j = i)) as [->|Hne]; [rewrite Hi in Ej; injection Ej as <-; lia|].
  pose proof (Hrest j pg' ltac:(lia) Ej). lia.
Qed.

Lemma calm_store k x a w : calm k → kblock (pagetable (k_pt k)) x → a / PAGE_SIZE ∈ pages_of x → a `mod` 4 = 0 →
  calm (set_k_mem (mem_write (k_mem k) (a - MIPS_KSEG0) (word_bytes w)) k).
Proof using.
  intros Hc (i & pg & -> & Hi & Hpg & Hp) Hin Ha. apply pages_of_frames in Hin. pose proof Hc as [[Hq Hcm Hsw ? ? ? ? ?] ? Hct]. split; [|done|].
  { split; try done; [by destruct Hq|by apply (cm_wf_same k)|by destruct Hsw]. }
  intros key. rewrite <-Hct. unfold contents. destruct (q_lookup key q) as [j|] eqn:Ej; [|done]. f_equal.
  pose proof (block_not_user k i pg key j Hc Hpg Hp (q_lookup_elem _ _ _ Ej)) as Hno. apply mem_read_write_ne. cbn [word_bytes length].
  assert (a / PAGE_SIZE ≠ 524288 + Z.of_nat j) as Hne by lia. change MIPS_KSEG0 with (524288 * PAGE_SIZE).
  apply Z.mod_divide in Ha as [c ->]; [|done]. pose proof (Z.div_mod (c * 4) PAGE_SIZE ltac:(done)). pose proof (Z.mod_pos_bound (c * 4) PAGE_SIZE ltac:(done)).
  set (d := c * 4 / PAGE_SIZE) in *. unfold PAGE_SIZE in *. lia.
Qed.

Lemma kblock_range b t x : heap_inv b t → kblock (table t) x →
  x.1 `mod` PAGE_SIZE = 0 ∧ MIPS_KSEG0 < x.1 ∧ 0 < x.2 ∧ x.1 + x.2 * PAGE_SIZE ≤ MIPS_KSEG1.
Proof using.
  intros (k & [Hvm _ _] & Hk)%heap_inv_calm (i & pg & -> & Hi & Hpg & Hp). unfold table in Hpg. rewrite Hk in Hpg.
  pose proof (cm_pt _ _ (vi_cm _ _ _ Hvm)) as Hwf. destruct (block_frames _ _ _ (wf_blocks _ _ _ Hwf) Hpg ltac:(lia)) as (Hn & Hlen & _).
  pose proof (wf_size _ _ _ Hwf) as Hsz. cbn [fst snd]. change MIPS_KSEG0 with (524288 * PAGE_SIZE). rewrite <-Z.mul_add_distr_r, Z.mod_mul by done.
  change MIPS_KSEG1 with (524288 * PAGE_SIZE + 2 ^ 29). unfold PAGE_SIZE in *. repeat split; (done || lia).
Qed.

Lemma kernel_lock t : heap_inv false t →
  ∃ t', on_heap_lock spinlock_acquire t = Ok (tt, t') ∧ heap_inv true t' ∧ table t' = table t ∧ k_mem (ks_k t') = k_mem (ks_k t).
Proof using.
  intros (k & Hc & Hk & Hl). destruct t as [k' l]. cbn in *. subst k'. pose proof (calm_vm _ Hc) as Hvm. pose proof (vi_quiet _ _ _ Hvm) as Hq.
  eexists. split.
  - unfold on_heap_lock, zoom. cbn [ks_k kmalloc_spinlock]. rewrite spinlock_acquire_ok; [done|apply Hq|rewrite (quiet_count _ Hq); lia|done].
  - split; [|done]. exists k. done.
Qed.

Lemma kernel_unlock t : heap_inv true t →
  ∃ t', on_heap_lock spinlock_release t = Ok (tt, t') ∧ heap_inv false t' ∧ table t' = table t ∧ k_mem (ks_k t') = k_mem (ks_k t).
Proof using.
  intros (k & Hc & Hk & Hl). destruct t as [k' l]. cbn in *. subst k'. pose proof (calm_vm _ Hc) as Hvm. pose proof (vi_quiet _ _ _ Hvm) as Hq.
  eexists. split.
  - unfold on_heap_lock, zoom. cbn [ks_k kmalloc_spinlock k_cpu set_k_cpu].
    rewrite spinlock_release_ok; [done|apply cpu_raise_ok; [apply Hq|]|cbn|done]; rewrite (quiet_count _ Hq); lia.
  - split; [|done]. exists k. cbn [ks_k kmalloc_spinlock fst snd]. split; [done|]. split; [|done].
    rewrite cpu_raise_raise, cpu_raise_0 by apply Hq. by destruct k.
Qed.

Lemma kernel_store b t x a w : heap_inv b t → kblock (table t) x → a / PAGE_SIZE ∈ pages_of x → word_ok a →
  heap_inv b (set_word a w t) ∧ table (set_word a w t) = table t.
Proof using.
  intros (k & Hc & H) Hx Hin [_ Ha]. split; [|done]. destruct t as [k' l]. unfold table in Hx. cbn [ks_k kmalloc_spinlock] in *.
  assert (pagetable (k_pt k') = pagetable (k_pt k) ∧ k_mem k' = k_mem k) as [E1 E2] by (by destruct b; destruct H as [-> _]).
  rewrite E1 in Hx. exists (set_k_mem (mem_write (k_mem k) (a - MIPS_KSEG0) (word_bytes w)) k).
  split; [by apply (calm_store k x a w)|]. cbn [set_word kernel_source ks_k kmalloc_spinlock]. rewrite E2. by destruct b; destruct H as [-> ?].
Qed.

Lemma kseg0_sub a : a `mod` 4 = 0 → (a - MIPS_KSEG0) `mod` 4 = 0.
Proof using. intros [c ->]%Z.mod_divide; [|done]. change MIPS_KSEG0 with (536870912 * 4). rewrite <-Z.mul_sub_distr_r. by apply Z.mod_mul. Qed.

Lemma word_store t a a' w : word_ok a → word_ok a' → 0 ≤ w < 2 ^ 32 →
  word_at (set_word a w t) a' = if decide (a' = a) then w else word_at t a'.
Proof using.
  intros [_ Ha] [_ Ha'] Hw. cbn. rewrite kword_write by (done || by apply kseg0_sub). by do 2 case_decide; (done || lia).
Qed.

(** ** Room *)

Definition fits (n : Z) (pt : list ptpage) : Prop := ∃ i, first_fit (free_map pt) (Z.to_nat n) = Some i.
Definition avail (m : Z) (pt : list ptpage) : Prop := m ≤ Z.of_nat (free_count pt).

Lemma avail_fits m pt : 0 < m → avail m pt → fits 1 pt.
Proof using.
  unfold avail, fits, free_count. intros Hm Hav. destruct (filter (λ b, b = true) (free_map pt)) as [|b l] eqn:E; [cbn in Hav; lia|].
  assert (b ∈ filter (λ b, b = true) (free_map pt)) as Hb by (rewrite E; by left).
  apply list_elem_of_filter in Hb as [-> [i Hi]%list_elem_of_lookup_1]. destruct (first_fit (free_map pt) (Z.to_nat 1)) as [j|] eqn:Ef; [by exists j|].
  exfalso. pose proof (lookup_lt_Some _ _ _ Hi) as Hlt. unfold first_fit in Ef. change (Z.to_nat 1) with 1%nat in Ef. eapply find_none in Ef; [|apply in_seq; split; [lia|exact Hlt]].
  assert (run_free (free_map pt) 1 i = true) as Hr; [|by rewrite Hr in Ef].
  apply run_free_spec. split; [lia|]. intros j Hj. by assert (j = i) as -> by lia.
Qed.

Lemma count_run fm i n : run_free fm n i = true →
  length (filter (λ b, b = true) fm) = (n + length (filter (λ b, b = true) (take i fm ++ replicate n false ++ drop (i + n) fm)))%nat.
Proof using.
  intros [Hlen Hr]%run_free_spec. assert (take n (drop i fm) = replicate n true) as E.
  { apply list_eq. intros j. destruct (decide (j < n)%nat) as [Hj|Hj].
    - rewrite lookup_take_lt, lookup_drop, Hr, lookup_replicate_2 by lia. done.
    - rewrite !lookup_ge_None_2; [done|rewrite length_replicate; lia|rewrite length_take; lia]. }
  assert (∀ m, filter (λ b, b = true) (replicate m false) = []) as F by (induction m; [done|cbn [replicate]; by rewrite filter_cons_False]).
  assert (∀ m, filter (λ b, b = true) (replicate m true) = replicate m true) as G.
  { induction m as [|m IH]; [done|]. cbn [replicate]. rewrite filter_cons_True by done. by rewrite IH. }
  rewrite <-(take_drop i fm) at 1. rewrite <-(take_drop n (drop i fm)), E, drop_drop, !filter_app, F, G, !length_app, length_replicate. cbn. lia.
Qed.

Lemma kernel_alloc n t : heap_inv false t → 0 < n → fits n (table t) →
  ∃ va t', on_ks (alloc_kpages n) t = Ok (va, t') ∧ heap_inv false t' ∧ k_mem (ks_k t') = k_mem (ks_k t) ∧
    kblock (table t') (va, n) ∧
    (∀ x, kblock (table t) x → kblock (table t') x ∧ ∀ i, i ∈ pages_of x → i ∉ pages_of (va, n)) ∧
    ∀ m, 0 ≤ m → avail (n + m) (table t) → avail m (table t').
Proof using.
  intros (k & Hc & Hk & Hl) Hn [i Hfit]. destruct t as [k' l]. unfold table in *. cbn [ks_k kmalloc_spinlock] in *. subst k'. pose proof (calm_vm _ Hc) as Hvm.
  destruct (alloc_kpages_run k q (Z.to_nat n) i (vi_quiet _ _ _ Hvm) (vi_cm _ _ _ Hvm) (calm_irq _ Hc) ltac:(lia) Hfit) as (st' & Hrun & Hcm & Hi & Hfm & Hpt).
  rewrite Z2Nat.id in Hrun, Hpt by lia. pose proof (first_fit_run _ _ _ Hfit) as Hfree. pose proof (proj1 (run_free_spec _ _ _) Hfree) as [Hlen Hr].
  exists (MIPS_KSEG0 + Z.of_nat i * PAGE_SIZE), (mk_ks (set_k_pt st' k) l). split; [unfold on_ks, zoom; cbn; by rewrite Hrun|].
  split; [exists (set_k_pt st' k); split; [by apply calm_set_pt|done]|]. split; [done|]. cbn [ks_k k_pt set_k_pt]. rewrite Hpt. split; [|split].
  - exists i, (mk_ptpage 0 (MIPS_KSEG0 + Z.of_nat i * PAGE_SIZE) n None None). split; [done|]. split; [done|]. rewrite list_lookup_insert_eq by (rewrite <-length_free_map; lia). done.
  - intros x (j & pg & -> & Hj & Hpg & Hp).
    destruct (block_frames _ _ _ (wf_blocks _ _ _ (cm_pt _ _ (vi_cm _ _ _ Hvm))) Hpg ltac:(lia)) as (Hnp & Hjl & Hbusy & _).
    assert (∀ c, (j ≤ c < j + Z.to_nat (pg_numpages pg))%nat → (i ≤ c < i + Z.to_nat n)%nat → False) as Hno.
    { intros c H1 H2. specialize (Hbusy c H1). by rewrite (Hr c H2) in Hbusy. }
    split; [exists j, pg; split; [done|]; split; [done|]; rewrite list_lookup_insert_ne; [done|]; intros <-; apply (Hno i); lia|].
    intros c. rewrite !pages_of_frames. intros H1 H2. apply (Hno (Z.to_nat (c - 524288))); lia.
  - intros m Hm. unfold avail, free_count. rewrite <-Hpt, Hfm, (count_run _ _ _ Hfree). lia.
Qed.

Lemma kernel_free t va n : heap_inv false t → kblock (table t) (va, n) →
  ∃ t', on_ks (free_kpages va) t = Ok (tt, t') ∧ heap_inv false t' ∧ k_mem (ks_k t') = k_mem (ks_k t) ∧
    ∀ x, kblock (table t) x → (∀ i, i ∈ pages_of x → i ∉ pages_of (va, n)) → kblock (table t') x.
Proof using.
  intros (k & Hc & Hk & Hl) (i & pg & [= -> ->] & Hi & Hpg & Hp). destruct t as [k' l]. unfold table in *. cbn [ks_k kmalloc_spinlock] in *. subst k'.
  pose proof (calm_vm _ Hc) as Hvm. destruct (free_kpages_run k q i pg (vi_quiet _ _ _ Hvm) (vi_cm _ _ _ Hvm) Hpg Hp Hi) as (st' & Hrun & Hcm & _ & Hpt).
  exists (mk_ks (set_k_pt st' k) l). split; [unfold on_ks, zoom; cbn; by rewrite Hrun|].
  split; [exists (set_k_pt st' k); split; [by apply calm_set_pt|done]|]. split; [done|]. cbn [ks_k k_pt set_k_pt]. rewrite Hpt.
  intros x (j & pg' & -> & Hj & Hpg' & Hp') Hap. exists j, pg'. split; [done|]. split; [done|]. rewrite list_lookup_insert_ne; [done|]. intros <-.
  rewrite Hpg in Hpg'. injection Hpg' as <-.
  destruct (block_frames _ _ _ (wf_blocks _ _ _ (cm_pt _ _ (vi_cm _ _ _ Hvm))) Hpg ltac:(lia)) as (Hnp & _).
  apply (Hap (524288 + Z.of_nat i)); apply pages_of_frames; lia.
Qed.

#[global] Program Instance kernel_pages : PageLaws kstate := {|
  kp_state := list ptpage;
  kp_pages := table;
  kp_inv := heap_inv;
  kp_block := kblock;
  kp_fits := fits;
  kp_avail := avail
|}.
Next Obligation. exact kblock_range. Qed.
Next Obligation. intros b t a _. apply kword_range. Qed.
Next Obligation. intros t (t' & ? & ? & ? & Hm)%kernel_lock. exists t'. split_and!; try done. intros a. cbn. by rewrite Hm. Qed.
Next Obligation. intros t (t' & ? & ? & ? & Hm)%kernel_unlock. exists t'. split_and!; try done. intros a. cbn. by rewrite Hm. Qed.
Next Obligation.
  intros b t x a w Ht Hx Hin Ha Hw. destruct (kernel_store b t x a w Ht Hx Hin Ha) as [H1 H2]. split_and!; [done|done|].
  intros a' Ha'. by apply word_store.
Qed.
Next Obligation. exact avail_fits. Qed.
Next Obligation.
  intros n t Ht Hn Hfit. destruct (kernel_alloc n t Ht Hn Hfit) as (va & t' & ? & ? & Hm & ? & ? & ?).
  exists va, t'. split_and!; try done. intros a. cbn. by rewrite Hm.
Qed.
Next Obligation.
  intros t va n Ht Hb. destruct (kernel_free t va n Ht Hb) as (t' & ? & ? & Hm & ?).
  exists t'. split_and!; try done. intros a. cbn. by rewrite Hm.
Qed.
End kernel_heap.
