(* ===== verification/KmallocProps.v ===== *)
(** * The heap of the kernel and user pages

    The heap works from the start, and on the modelled kernel its operations
    leave the pages of user programs alone. *)

From S2P Require Import Prelude Machine Spinlock Pt PtSpec PtFrames PtTable Kernel Coremap VmInv.
From S2P Require Import Kmalloc KmallocInv KmallocOps KmallocRefs KmallocAlloc KmallocSpec KmallocKernel VmDemo.

(** ** The empty heap *)

Section init.
Context {T : Type} {src : PageSource T} {laws : PageLaws T}.

Lemma inuse_none j : inuse (mk_root 0 (replicate 8 0) 0) j = false.
Proof using.
  unfold inuse. cbn [pagerefs_inuse]. destruct (replicate 8 0 !! Z.to_nat (j / 32)) as [w|] eqn:E; cbn; [|apply Z.bits_0].
  apply lookup_replicate in E as [-> _]. apply Z.bits_0.
Qed.

Lemma heap_init t : kp_inv false t → heap_rep (empty_heap t) ∅.
Proof using.
  intros Ht. exists (mk_view false (kp_pages t) (word_at t) (replicate 16 (mk_root 0 (replicate 8 0) 0)) (replicate 8 0) 0), [], [].
  assert (root_ok [] (mk_root 0 (replicate 8 0) 0)) as Hr.
  { split; [done|by apply Forall_replicate| |].
    - intros j _. rewrite inuse_none. split; [done|]. by intros [? _].
    - by vm_compute. }
  assert (hblocks (replicate 16 (mk_root 0 (replicate 8 0) 0)) [] [] = []) as Hb by (by vm_compute).
  split; [by split|]. split; [done|]. split; [|split; [done|]].
  - split; cbn [v_roots v_bases v_mem v_all v_pages app fmap list_fmap]; try done; rewrite ?Hb; try done; try by apply Forall_nil.
    + by apply Forall_replicate.
    + intros k b _ Hl. apply lookup_replicate in Hl as [-> _]. done.
    + by apply NoDup_nil.
    + by apply NoDup_nil.
    + intros x Hx. by apply elem_of_nil in Hx.
  - intros a ws. rewrite lookup_empty. split; [done|]. intros (z & [(g & o & Hg & _)|(b & Hx & _)] & _).
    + by apply elem_of_nil in Hg.
    + by apply elem_of_nil in Hx.
Qed.

Lemma refs_left_empty (t : T) : refs_left (kheaproots (empty_heap t)).
Proof using. cbn. by constructor. Qed.
End init.

(** ** The heap on the kernel *)

Section on_kernel.
Context {ops : VnodeOps} {vlaws : VnodeLaws ops}.
Context (q : queue) (C : key → option (list Z)).

(** C6. On the kernel, with the heap's pages taken from the frames user pages
    come from too: [kmalloc], [kfree] and stores in allocated blocks implement
    the specification, keep the invariant of the virtual memory and leave the
    contents of every page of every user program as they were. *)
Theorem kheap_spares_users h A op :
  heap_rep (laws := kernel_pages q C) h A → enabled (laws := kernel_pages q C) h A op →
  wp (run_op op) (λ r h', ∃ A', spec_step A op r A' ∧ heap_rep (laws := kernel_pages q C) h' A' ∧
    vm_inv None (ks_k (kh_t h')) q ∧ ∀ key, contents (ks_k (kh_t h')) q key = contents (ks_k (kh_t h)) q key) h.
Proof using.
  intros Hrep Hen.
  assert (∀ h A, heap_rep (laws := kernel_pages q C) h A → calm q C (ks_k (kh_t h))) as Hcalm.
  { intros h0 A0 (v & L & B & Hs & Hheld & _). pose proof (se_inv _ _ Hs) as Hi. rewrite Hheld in Hi. by destruct Hi as (k & Hc & -> & _). }
  destruct (Hcalm _ _ Hrep) as [_ _ H0]. eapply wp_mono; [exact (run_op_ok (laws := kernel_pages q C) h A op Hrep Hen)|]. cbn beta. intros r h' (A' & Hst & Hr).
  destruct (Hcalm _ _ Hr) as [H1 _ H2]. exists A'. split_and!; [done|done|done|]. intros key. by rewrite H0, H2.
Qed.
End on_kernel.

(** ** A concrete heap *)

Definition demo_ks : kstate (ops := ram_ops) := mk_ks demo_kernel SPINLOCK_INITIALIZER.
Definition demo_heap : kheap (kstate (ops := ram_ops)) := empty_heap demo_ks.

Lemma demo_calm : calm [] (contents demo_kernel []) demo_kernel.
Proof. split; [apply demo_vm|done|done]. Qed.

Lemma demo_heap_rep : heap_rep (laws := kernel_pages [] (contents demo_kernel [])) demo_heap ∅.
Proof. apply (heap_init (laws := kernel_pages [] (contents demo_kernel []))). exists demo_kernel. split; [apply demo_calm|done]. Qed.

Lemma demo_avail : avail 2 (table demo_ks).
Proof. by vm_compute. Qed.

Lemma demo_room sz : 0 ≤ sz < 2048 → enabled (laws := kernel_pages [] (contents demo_kernel [])) demo_heap ∅ (HAlloc sz).
Proof.
  intros Hsz. unfold enabled. rewrite (proj2 (Z.leb_gt _ _)) by (unfold LARGEST_SUBPAGE_SIZE; lia).
  split; [lia|]. split; [exact demo_avail|apply refs_left_empty].
Qed.

Lemma kheap_refines_witness :
  wp (run_op (HAlloc 100)) (λ r h', ∃ A', spec_step ∅ (HAlloc 100) r A' ∧ heap_rep (laws := kernel_pages [] (contents demo_kernel [])) h' A') demo_heap.
Proof. apply (kheap_refines (laws := kernel_pages [] (contents demo_kernel []))); [exact demo_heap_rep|]. apply demo_room. lia. Defined.

Lemma kheap_spares_users_witness :
  wp (run_op (HAlloc 700)) (λ r h', ∃ A', spec_step ∅ (HAlloc 700) r A' ∧
    heap_rep (laws := kernel_pages [] (contents demo_kernel [])) h' A' ∧ vm_inv None (ks_k (kh_t h')) [] ∧
    ∀ key, contents (ks_k (kh_t h')) [] key = contents demo_kernel [] key) demo_heap.
Proof. apply (kheap_spares_users [] (contents demo_kernel []) demo_heap); [exact demo_heap_rep|]. apply demo_room. lia. Defined.
