(* ===== verification/Xfer.v ===== *)
(** * Transfers, seen from a driver or a file system

    Code below the system calls moves data with [uiomove] and reads and sets
    the fields [uio_offset] and [uio_resid] of a [struct uio]; where the data
    comes from does not matter to it.  [UioOps] is this interface and
    [UioLaws] what [kern/include/uio.h] promises of it.  A buffer of the
    kernel is one instance; [Uio] has the code of [uiomove] itself. *)

From S2P Require Import Prelude Machine Spinlock Pt Kernel.

(** [u_to bs] is [uiomove(buf, length bs, uio)] for a buffer that holds [bs],
    when the transfer is a read; [u_from n] is [uiomove(buf, n, uio)] when it is
    a write, with the bytes that arrive in the buffer. *)
Class UioOps (U : Type) : Type := {
  u_rw : U → uio_rw_t;
  u_offset : U → Z;
  u_resid : U → Z;
  u_set_offset : Z → U → U;
  u_set_resid : Z → U → U;
  u_to : list Z → M U Z;
  u_from : Z → M U (Z * list Z)
}.

(** A move inside other code *)
Definition moving {S U A} (m : M U A) (u : U) : M S (A * U) :=
  λ s, match m u with Ok (a, u') => Ok ((a, u'), s) | Stop e => Stop e end.

(** [u_fine]: the buffers can be accessed; [u_room]: the bytes they have left;
    [u_done]: the bytes received by a read; [u_todo]: the bytes a write still
    has to send. *)
Class UioLaws (U : Type) {ops : UioOps U} : Type := {
  u_fine : U → Prop;
  u_room : U → Z;
  u_done : U → list Z;
  u_todo : U → list Z;
  u_room_todo u : u_fine u → u_rw u = UIO_WRITE → u_room u = Z.of_nat (length (u_todo u));
  u_set_offset_law o u : u_fine u →
    let u' := u_set_offset o u in
    u_fine u' ∧ u_rw u' = u_rw u ∧ u_offset u' = o ∧ u_resid u' = u_resid u ∧ u_room u' = u_room u ∧ u_done u' = u_done u ∧ u_todo u' = u_todo u;
  u_set_resid_law r u : u_fine u →
    let u' := u_set_resid r u in
    u_fine u' ∧ u_rw u' = u_rw u ∧ u_offset u' = u_offset u ∧ u_resid u' = r ∧ u_room u' = u_room u ∧ u_done u' = u_done u ∧ u_todo u' = u_todo u;
  u_to_law bs u : u_fine u → u_rw u = UIO_READ → Z.of_nat (length bs) ≤ u_resid u ≤ u_room u →
    u_resid u < 2 ^ 32 → 0 ≤ u_offset u → u_offset u + u_resid u < 2 ^ 63 →
    wp (u_to bs) (λ r u', r = 0 ∧ u_fine u' ∧ u_rw u' = UIO_READ ∧ u_offset u' = u_offset u + Z.of_nat (length bs) ∧
      u_resid u' = u_resid u - Z.of_nat (length bs) ∧ u_room u' = u_room u - Z.of_nat (length bs) ∧ u_done u' = u_done u ++ bs) u;
  u_from_law n u : u_fine u → u_rw u = UIO_WRITE → 0 ≤ n ≤ u_resid u → u_resid u ≤ u_room u →
    u_resid u < 2 ^ 32 → 0 ≤ u_offset u → u_offset u + u_resid u < 2 ^ 63 →
    wp (u_from n) (λ r u', r = (0, take (Z.to_nat n) (u_todo u)) ∧ u_fine u' ∧ u_rw u' = UIO_WRITE ∧ u_offset u' = u_offset u + n ∧
      u_resid u' = u_resid u - n ∧ u_room u' = u_room u - n ∧ u_todo u' = drop (Z.to_nat n) (u_todo u)) u
}.

(** ** A buffer of the kernel *)

(** The bytes of the buffer that were not used yet, and those put into it *)
Record kbuf : Type := mk_kbuf { kb_rw : uio_rw_t; kb_offset : Z; kb_resid : Z; kb_in : list Z; kb_out : list Z; kb_room : Z }.

(** The [struct uio] that [uio_kinit] sets up for a buffer that holds [data] *)
Definition kuio (data : list Z) (len pos : Z) (rw : uio_rw_t) : kbuf := mk_kbuf rw pos len data [] len.

#[export] Instance kbuf_ops : UioOps kbuf := {
  u_rw := kb_rw;
  u_offset := kb_offset;
  u_resid := kb_resid;
  u_set_offset o k := mk_kbuf (kb_rw k) o (kb_resid k) (kb_in k) (kb_out k) (kb_room k);
  u_set_resid r k := mk_kbuf (kb_rw k) (kb_offset k) r (kb_in k) (kb_out k) (kb_room k);
  u_to bs :=
    k ← gets id;
    let n := Z.min (Z.of_nat (length bs)) (kb_resid k) in
    if kb_room k <? n then halt (Panic "uiomove: ran out of buffers")
    else
      modify (λ k, mk_kbuf (kb_rw k) (kb_offset k + n) (kb_resid k - n) (kb_in k) (kb_out k ++ take (Z.to_nat n) bs) (kb_room k - n)) ;;
      mret 0;
  u_from n :=
    k ← gets id;
    let n := Z.min n (kb_resid k) in
    if kb_room k <? n then halt (Panic "uiomove: ran out of buffers")
    else
      modify (λ k, mk_kbuf (kb_rw k) (kb_offset k + n) (kb_resid k - n) (drop (Z.to_nat n) (kb_in k)) (kb_out k) (kb_room k - n)) ;;
      mret (0, take (Z.to_nat n) (kb_in k))
}.

#[export] Program Instance kbuf_laws : UioLaws kbuf := {|
  u_fine k := kb_rw k = UIO_WRITE → kb_room k = Z.of_nat (length (kb_in k));
  u_room := kb_room;
  u_done := kb_out;
  u_todo := kb_in
|}.
Next Obligation. done. Qed.
Next Obligation. done. Qed.
Next Obligation. done. Qed.
Next Obligation.
  intros bs k Hf Hrw Hlen _ Ho1 Ho2. cbn in *. apply wp_bind, wp_gets. cbn [id]. rewrite Z.min_l by lia. rewrite (proj2 (Z.ltb_ge _ _)) by lia.
  apply wp_bind, wp_modify, wp_ret. cbn. rewrite Nat2Z.id, take_ge by lia. split_and!; try done. by rewrite Hrw.
Qed.
Next Obligation.
  intros n k Hf Hrw Hn Hroom _ Ho1 Ho2. cbn in *. apply wp_bind, wp_gets. cbn [id]. rewrite Z.min_l by lia. rewrite (proj2 (Z.ltb_ge _ _)) by lia.
  apply wp_bind, wp_modify, wp_ret. cbn. split_and!; try done. rewrite length_drop. specialize (Hf Hrw). lia.
Qed.

(** ** Transfers step by step *)

Section moves.
Context {U : Type} {uops : UioOps U} {ulaws : UioLaws U}.

(** A transfer that can go on *)
Record u_ready (u : U) : Prop := {
  ur_fine : u_fine u;
  ur_room : 0 ≤ u_resid u ≤ u_room u;
  ur_small : u_resid u < 2 ^ 32;
  ur_offset : 0 ≤ u_offset u;
  ur_end : u_offset u + u_resid u < 2 ^ 63
}.

(** [n] bytes later *)
Record u_later (n : Z) (u u' : U) : Prop := {
  ul_ready : u_ready u';
  ul_rw : u_rw u' = u_rw u;
  ul_offset : u_offset u' = u_offset u + n;
  ul_resid : u_resid u' = u_resid u - n;
  ul_room : u_room u' = u_room u - n
}.

Lemma u_later_refl u : u_ready u → u_later 0 u u.
Proof using. intros Hu. split; (done || lia). Qed.

Lemma u_later_trans n m u u' u'' : u_later n u u' → u_later m u' u'' → u_later (n + m) u u''.
Proof using. intros [H1 H2 H3 H4 H5] [K1 K2 K3 K4 K5]. split; try done; [congruence|lia..]. Qed.

Lemma wp_moving_to {S} bs u Q (s : S) : u_ready u → u_rw u = UIO_READ → Z.of_nat (length bs) ≤ u_resid u →
  (∀ u', u_later (Z.of_nat (length bs)) u u' → u_done u' = u_done u ++ bs → Q (0, u') s) → wp (moving (u_to bs) u) Q s.
Proof using.
  intros [H1 H2 H3 H4 H5] Hrw Hlen HQ. pose proof (u_to_law bs u H1 Hrw ltac:(lia) H3 H4 H5) as Hwp. unfold wp, moving in *.
  destruct (u_to bs u) as [[r u']|]; [|done]. destruct Hwp as (-> & K1 & K2 & K3 & K4 & K5 & K6). apply HQ; [|done].
  split; [split; (done || lia)|congruence|done|done|done].
Qed.

Lemma wp_moving_from {S} n u Q (s : S) : u_ready u → u_rw u = UIO_WRITE → 0 ≤ n ≤ u_resid u →
  (∀ u', u_later n u u' → u_todo u' = drop (Z.to_nat n) (u_todo u) → Q ((0, take (Z.to_nat n) (u_todo u)), u') s) → wp (moving (u_from n) u) Q s.
Proof using.
  intros [H1 H2 H3 H4 H5] Hrw Hlen HQ. pose proof (u_from_law n u H1 Hrw Hlen ltac:(lia) H3 H4 H5) as Hwp. unfold wp, moving in *.
  destruct (u_from n u) as [[r u']|]; [|done]. destruct Hwp as (-> & K1 & K2 & K3 & K4 & K5 & K6). apply HQ; [|done].
  split; [split; (done || lia)|congruence|done|done|done].
Qed.

(** A write has the bytes it promises. *)
Lemma todo_length u : u_ready u → u_rw u = UIO_WRITE → u_resid u ≤ Z.of_nat (length (u_todo u)).
Proof using. intros [H1 H2 _ _ _] Hrw. rewrite <-(u_room_todo u H1 Hrw). lia. Qed.
End moves.
