(* ===== verification/Lhd.v ===== *)
(** * The disk driver ([kern/dev/lamebus/lhd.c])

    The card has a buffer for one sector, a register with the number of the
    sector and a status register: writing [LHD_WORKING] to it starts a
    transfer between buffer and medium.  When the transfer ends the status
    register has a result code and the card interrupts.  The codes of the
    transfers to come are part of the state; a transfer with another code
    than [LHD_OK] leaves medium and buffer as they were. *)

From S2P Require Import Prelude Machine Spinlock Pt Kernel Xfer.

Definition LHD_REG_NSECT : Z := 0.
Definition LHD_REG_STAT : Z := 4.
Definition LHD_REG_SECT : Z := 8.
Definition LHD_IDLE : Z := 0.
Definition LHD_WORKING : Z := 1.
Definition LHD_OK : Z := 4.
Definition LHD_INVSECT : Z := 12.
Definition LHD_MEDIA : Z := 20.
Definition LHD_ISWRITE : Z := 2.
Definition LHD_STATEMASK : Z := 0x1d.
Definition LHD_SECTSIZE : Z := 512.

(** The card *)
Record card : Type := mk_card {
  sectors : list (list Z);
  codes : list Z;
  c_stat : Z;
  c_sect : Z;
  c_buf : list Z
}.
Definition set_c_stat (x : Z) (c : card) : card := mk_card (sectors c) (codes c) x (c_sect c) (c_buf c).
Definition set_c_sect (x : Z) (c : card) : card := mk_card (sectors c) (codes c) (c_stat c) x (c_buf c).
Definition set_c_buf (x : list Z) (c : card) : card := mk_card (sectors c) (codes c) (c_stat c) (c_sect c) x.

(** The end of a transfer *)
Definition card_finish (c : card) : card :=
  let iswrite := Z.land (c_stat c) LHD_ISWRITE in
  match sectors c !! Z.to_nat (c_sect c) with
  | None => mk_card (sectors c) (tail (codes c)) (Z.lor LHD_INVSECT iswrite) (c_sect c) (c_buf c)
  | Some s =>
      let code := default LHD_OK (head (codes c)) in
      if code =? LHD_OK then
        if iswrite =? 0 then mk_card (sectors c) (tail (codes c)) LHD_OK (c_sect c) s
        else mk_card (<[Z.to_nat (c_sect c) := c_buf c]> (sectors c)) (tail (codes c)) (Z.lor LHD_OK iswrite) (c_sect c) (c_buf c)
      else mk_card (sectors c) (tail (codes c)) (Z.lor code iswrite) (c_sect c) (c_buf c)
  end.

(** [struct lhd_softc]; the semaphores are their counts *)
Record lhd_softc : Type := mk_lhd {
  lh_card : card;
  lh_result : Z;
  lh_clear : Z;
  lh_done : Z;
  d_blocks : Z
}.
Definition set_lh_card (x : card) (l : lhd_softc) : lhd_softc := mk_lhd x (lh_result l) (lh_clear l) (lh_done l) (d_blocks l).
Definition set_lh_result (x : Z) (l : lhd_softc) : lhd_softc := mk_lhd (lh_card l) x (lh_clear l) (lh_done l) (d_blocks l).
Definition set_lh_clear (x : Z) (l : lhd_softc) : lhd_softc := mk_lhd (lh_card l) (lh_result l) x (lh_done l) (d_blocks l).
Definition set_lh_done (x : Z) (l : lhd_softc) : lhd_softc := mk_lhd (lh_card l) (lh_result l) (lh_clear l) x (d_blocks l).

Definition on_card (f : card → card) : M lhd_softc () := modify (λ l, set_lh_card (f (lh_card l)) l).

Definition lhd_rdreg (reg : Z) : M lhd_softc Z :=
  c ← gets lh_card;
  mret (if reg =? LHD_REG_NSECT then Z.of_nat (length (sectors c))
        else if reg =? LHD_REG_STAT then c_stat c
        else if reg =? LHD_REG_SECT then c_sect c else 0).
Definition lhd_wreg (reg val : Z) : M lhd_softc () :=
  if reg =? LHD_REG_STAT then on_card (set_c_stat val)
  else if reg =? LHD_REG_SECT then on_card (set_c_sect val) else mret tt.

Definition lhd_code_to_errno (code : Z) : Z :=
  let s := Z.land code LHD_STATEMASK in
  if s =? LHD_OK then 0 else if s =? LHD_INVSECT then EINVAL else if s =? LHD_MEDIA then EIO else EAGAIN.

Definition lhd_iodone (err : Z) : M lhd_softc () :=
  modify (set_lh_result err) ;;
  modify (λ l, set_lh_done (lh_done l + 1) l).

Definition lhd_irq : M lhd_softc () :=
  val ← lhd_rdreg LHD_REG_STAT;
  let s := Z.land val LHD_STATEMASK in
  if (s =? LHD_IDLE) || (s =? LHD_WORKING) then mret tt
  else if (s =? LHD_OK) || (s =? LHD_INVSECT) || (s =? LHD_MEDIA) then
    lhd_wreg LHD_REG_STAT 0 ;;
    lhd_iodone (lhd_code_to_errno val)
  else mret tt.

(** [P(lh->lh_clear)] and [V(lh->lh_clear)] *)
Definition P_clear : M lhd_softc () :=
  n ← gets lh_clear;
  if n =? 0 then halt Hang else modify (set_lh_clear (n - 1)).
Definition V_clear : M lhd_softc () := modify (λ l, set_lh_clear (lh_clear l + 1) l).

(** [P(lh->lh_done)]: a thread that has to wait sleeps until the card
    interrupts. *)
Definition P_done : M lhd_softc () :=
  n ← gets lh_done;
  (if n =? 0 then on_card card_finish ;; lhd_irq else mret tt) ;;
  n ← gets lh_done;
  if n =? 0 then halt Hang else modify (set_lh_done (n - 1)).

Section io.
Context {U : Type} {uops : UioOps U}.

(** The body of the loop over the sectors *)
Definition lhd_sector (statval sect : Z) (u : U) : M lhd_softc (Z * U) :=
  P_clear ;;
  r ← (if decide (u_rw u = UIO_WRITE) then
         r ← moving (u_from LHD_SECTSIZE) u;
         on_card (λ c, set_c_buf (r.1.2 ++ drop (length r.1.2) (c_buf c)) c) ;;
         mret (r.1.1, r.2)
       else mret (0, u));
  let '(result, u) := r in
  if negb (result =? 0) then V_clear ;; mret (result, u)
  else
    lhd_wreg LHD_REG_SECT sect ;;
    lhd_wreg LHD_REG_STAT statval ;;
    P_done ;;
    result ← gets lh_result;
    r ← (if (result =? 0) && bool_decide (u_rw u = UIO_READ) then
           c ← gets lh_card;
           moving (u_to (take (Z.to_nat LHD_SECTSIZE) (c_buf c))) u
         else mret (result, u));
    V_clear ;;
    mret r.

Definition lhd_io (u : U) : M lhd_softc (Z * U) :=
  let sector := u32 (Z.quot (u_offset u) LHD_SECTSIZE) in
  let sectoff := u32 (Z.rem (u_offset u) LHD_SECTSIZE) in
  let len := u_resid u / LHD_SECTSIZE in
  let lenoff := u_resid u `mod` LHD_SECTSIZE in
  if negb (sectoff =? 0) || negb (lenoff =? 0) then mret (EINVAL, u)
  else
    nblocks ← gets d_blocks;
    if nblocks <? u32 (sector + len) then mret (EINVAL, u)
    else
      let statval := if decide (u_rw u = UIO_WRITE) then Z.lor LHD_WORKING LHD_ISWRITE else LHD_WORKING in
      while (λ '(i, u),
        if i <? len then
          r ← lhd_sector statval (u32 (sector + i)) u;
          if negb (r.1 =? 0) then mret (inr r) else mret (inl (i + 1, r.2))
        else mret (inr (0, u))) (0, u).
End io.

Definition lhd_eachopen (openflags : Z) : M lhd_softc Z := mret 0.
Definition lhd_ioctl (op data : Z) : M lhd_softc Z := mret EIOCTL.

(** [sem1] and [sem2] say whether the semaphores could be created, [adddev] is
    the result of [vfs_adddev]. *)
Definition config_lhd (sem1 sem2 : bool) (adddev : Z) (c : card) : Z * option lhd_softc :=
  if negb sem1 then (ENOMEM, None)
  else if negb sem2 then (ENOMEM, None)
  else (adddev, Some (mk_lhd c 0 1 0 (Z.of_nat (length (sectors c))))).

(** ** Transfers without errors *)

(** An idle card with the medium [D], whose transfers succeed *)
Record lhd_ready (D : list (list Z)) (l : lhd_softc) : Prop := {
  lr_sectors : sectors (lh_card l) = D;
  lr_codes : Forall (λ c, c = LHD_OK) (codes (lh_card l));
  lr_buf : length (c_buf (lh_card l)) = 512%nat;
  lr_clear : lh_clear l = 1;
  lr_done : lh_done l = 0;
  lr_blocks : d_blocks l = Z.of_nat (length D);
  lr_size : Forall (λ s, length s = 512%nat) D;
  lr_max : Z.of_nat (length D) < 2 ^ 31
}.

(** The next transfer ends with the code [c]. *)
Definition push_code (c : Z) (l : lhd_softc) : lhd_softc :=
  set_lh_card (mk_card (sectors (lh_card l)) (c :: codes (lh_card l)) (c_stat (lh_card l)) (c_sect (lh_card l)) (c_buf (lh_card l))) l.

Section io_laws.
Context {U : Type} {uops : UioOps U} {ulaws : UioLaws U}.

Lemma codes_ok l : Forall (λ c, c = LHD_OK) l → default LHD_OK (head l) = LHD_OK ∧ Forall (λ c, c = LHD_OK) (tail l).
Proof using. intros H. destruct H; [done|]. by subst. Qed.

(** The card does its work while the thread waits. *)
Lemma P_done_read D cs sect bf s res nb :
  D !! Z.to_nat sect = Some s → default LHD_OK (head cs) = LHD_OK →
  P_done (mk_lhd (mk_card D cs LHD_WORKING sect bf) res 0 0 nb) = Ok (tt, mk_lhd (mk_card D (tail cs) 0 sect s) 0 0 0 nb).
Proof using.
  intros Hs Hc. unfold P_done, on_card. mred. cbn [lh_done Z.eqb lh_card]. unfold card_finish, set_lh_card.
  cbn [lh_card sectors c_sect c_stat codes c_buf]. rewrite Hs, Hc. reflexivity.
Qed.

Lemma P_done_write D cs sect bf s res nb :
  D !! Z.to_nat sect = Some s → default LHD_OK (head cs) = LHD_OK →
  P_done (mk_lhd (mk_card D cs (Z.lor LHD_WORKING LHD_ISWRITE) sect bf) res 0 0 nb) =
    Ok (tt, mk_lhd (mk_card (<[Z.to_nat sect := bf]> D) (tail cs) 0 sect bf) 0 0 0 nb).
Proof using.
  intros Hs Hc. unfold P_done, on_card. mred. cbn [lh_done Z.eqb lh_card]. unfold card_finish, set_lh_card.
  cbn [lh_card sectors c_sect c_stat codes c_buf]. rewrite Hs, Hc. reflexivity.
Qed.

Lemma P_done_media D cs sect bf s res nb w :
  D !! Z.to_nat sect = Some s → w = LHD_WORKING ∨ w = Z.lor LHD_WORKING LHD_ISWRITE →
  P_done (mk_lhd (mk_card D (LHD_MEDIA :: cs) w sect bf) res 0 0 nb) = Ok (tt, mk_lhd (mk_card D cs 0 sect bf) EIO 0 0 nb).
Proof using.
  intros Hs Hw. unfold P_done, on_card. mred. cbn [lh_done Z.eqb lh_card]. unfold card_finish, set_lh_card.
  cbn [lh_card sectors c_sect c_stat codes c_buf head tail]. rewrite Hs. by destruct Hw as [-> | ->].
Qed.

(** One sector *)
Lemma sector_read D l sect s u Q :
  lhd_ready D l → D !! Z.to_nat sect = Some s → u_ready u → u_rw u = UIO_READ → 512 ≤ u_resid u →
  (∀ l' u', lhd_ready D l' → u_later 512 u u' → u_done u' = u_done u ++ s → Q (0, u') l') →
  wp (lhd_sector LHD_WORKING sect u) Q l.
Proof using.
  intros [R1 R2 R3 R4 R5 R6 R7 R8] Hs Hu Hrw Hres HQ. destruct (codes_ok _ R2) as [Hc Ht].
  pose proof (Forall_lookup_1 _ _ _ _ R7 Hs) as Hlen. cbn in Hlen. destruct l as [c res cl dn nb], c as [D0 cs st se bf]. cbn in *. subst D0 cl dn nb.
  unfold lhd_sector. apply wp_bind. erewrite wp_eq by reflexivity. apply wp_bind. rewrite decide_False by (by rewrite Hrw). apply wp_ret. cbn [Z.eqb negb].
  apply wp_bind. erewrite wp_eq by reflexivity. apply wp_bind. erewrite wp_eq by reflexivity. apply wp_bind. erewrite wp_eq by (by eapply P_done_read).
  apply wp_bind, wp_gets. cbn [lh_result Z.eqb andb]. rewrite bool_decide_true by done. apply wp_bind, wp_bind, wp_gets. cbn [lh_card c_buf].
  rewrite take_ge by (rewrite Hlen; done). apply wp_moving_to; [done|done|lia|]. intros u' Hl Hd. rewrite Hlen in Hl. apply wp_bind, wp_modify, wp_ret.
  apply HQ; [|done|done]. by split.
Qed.

Lemma sector_write D l sect s u Q :
  lhd_ready D l → D !! Z.to_nat sect = Some s → u_ready u → u_rw u = UIO_WRITE → 512 ≤ u_resid u →
  (∀ l' u', lhd_ready (<[Z.to_nat sect := take 512 (u_todo u)]> D) l' → u_later 512 u u' → u_todo u' = drop 512 (u_todo u) → Q (0, u') l') →
  wp (lhd_sector (Z.lor LHD_WORKING LHD_ISWRITE) sect u) Q l.
Proof using.
  intros [R1 R2 R3 R4 R5 R6 R7 R8] Hs Hu Hrw Hres HQ. destruct (codes_ok _ R2) as [Hc Ht].
  pose proof (todo_length u Hu Hrw) as Hlen. destruct l as [c res cl dn nb], c as [D0 cs st se bf]. cbn in *. subst D0 cl dn nb.
  assert (length (take 512 (u_todo u)) = 512%nat) as Htk by (rewrite length_take; lia).
  unfold lhd_sector. apply wp_bind. erewrite wp_eq by reflexivity. apply wp_bind. rewrite decide_True by done.
  apply wp_bind, wp_moving_from; [done|done|unfold LHD_SECTSIZE; lia|]. intros u' Hl Hd. change (Z.to_nat LHD_SECTSIZE) with 512%nat in *. cbn [fst snd].
  apply wp_bind. erewrite wp_eq by reflexivity. apply wp_ret. cbn [Z.eqb negb]. rewrite Htk. cbn [lh_card c_buf set_lh_clear]. rewrite drop_ge, app_nil_r by lia.
  apply wp_bind. erewrite wp_eq by reflexivity. apply wp_bind. erewrite wp_eq by reflexivity. apply wp_bind. erewrite wp_eq by (by eapply P_done_write).
  apply wp_bind, wp_gets. cbn [lh_result Z.eqb andb]. rewrite bool_decide_false by (by rewrite (ul_rw _ _ _ Hl), Hrw). apply wp_bind, wp_ret.
  apply wp_bind, wp_modify, wp_ret. apply HQ; [|done|done]. split; cbn; try done; [by rewrite length_insert|by apply Forall_insert|by rewrite length_insert].
Qed.

(** A transfer of [n] sectors from sector [b] on *)
Definition aligned (b n : nat) (u : U) : Prop := u_offset u = Z.of_nat b * 512 ∧ u_resid u = Z.of_nat n * 512.

Definition statval_of (u : U) : Z := if decide (u_rw u = UIO_WRITE) then Z.lor LHD_WORKING LHD_ISWRITE else LHD_WORKING.

(** The loop of [lhd_io], with an invariant [J] of the sectors done *)
Lemma lhd_io_loop D l b n u (J : nat → list (list Z) → U → Prop) :
  lhd_ready D l → u_ready u → aligned b n u → (b + n ≤ length D)%nat → J 0%nat D u →
  (∀ i D' l' u' Q, (i < n)%nat → lhd_ready D' l' → length D' = length D → u_later (Z.of_nat i * 512) u u' → J i D' u' →
    (∀ D'' l'' u'', lhd_ready D'' l'' → length D'' = length D → u_later 512 u' u'' → J (S i) D'' u'' → Q (0, u'') l'') →
    wp (lhd_sector (statval_of u) (Z.of_nat (b + i)) u') Q l') →
  wp (lhd_io u) (λ r l', r.1 = 0 ∧ ∃ D', lhd_ready D' l' ∧ u_later (Z.of_nat n * 512) u r.2 ∧ J n D' r.2) l.
Proof using.
  intros Hl Hu [Ho Hr] Hb HJ Hstep. pose proof (lr_max _ _ Hl) as Hmax. unfold lhd_io, LHD_SECTSIZE. rewrite Ho, Hr.
  rewrite Z.quot_mul, Z.rem_mul, Z.div_mul, Z.mod_mul, (u32_id (Z.of_nat b)) by lia. change (u32 0) with 0. cbn [Z.eqb negb orb].
  apply wp_bind, wp_gets. rewrite (lr_blocks _ _ Hl), u32_id, (proj2 (Z.ltb_ge _ _)) by lia. fold (statval_of u).
  apply (wp_while _ (λ '(i, u') l', ∃ k D', i = Z.of_nat k ∧ (k ≤ n)%nat ∧ lhd_ready D' l' ∧ length D' = length D ∧ u_later (i * 512) u u' ∧ J k D' u')
    (λ '(i, _) _, Z.of_nat n - i)).
  - exists 0%nat, D. split_and!; [done|lia|done|done|by apply u_later_refl|done].
  - intros [i u'] l' (k & D' & -> & Hk & _). lia.
  - lia.
  - intros [i u'] l' (k & D' & -> & Hk & Hl' & Hlen & Hlat & HJk). destruct (Z.ltb_spec (Z.of_nat k) (Z.of_nat n)) as [Hlt|Hge].
    + apply wp_bind. replace (u32 (Z.of_nat b + Z.of_nat k)) with (Z.of_nat (b + k)) by (rewrite u32_id; lia).
      eapply Hstep; [lia|done|done|done|done|]. intros D'' l'' u'' Hl'' Hlen'' Hlat' HJ'. cbn [fst snd Z.eqb negb]. apply wp_ret. split; [|lia].
      exists (S k), D''. split_and!; [lia|lia|done|done| |done]. replace ((Z.of_nat k + 1) * 512) with (Z.of_nat k * 512 + 512) by lia. by eapply u_later_trans.
    + apply wp_ret. assert (k = n) as -> by lia. split; [done|]. by exists D'.
Qed.

Lemma drop_take_snoc {A} b i (D : list A) s : D !! (b + i)%nat = Some s → take (S i) (drop b D) = take i (drop b D) ++ [s].
Proof using. intros Hs. apply take_S_r. by rewrite lookup_drop. Qed.

(** Reading returns the sectors. *)
Lemma lhd_io_read D l b n u :
  lhd_ready D l → u_ready u → aligned b n u → (b + n ≤ length D)%nat → u_rw u = UIO_READ →
  wp (lhd_io u) (λ r l', r.1 = 0 ∧ lhd_ready D l' ∧ u_later (Z.of_nat n * 512) u r.2 ∧ u_done r.2 = u_done u ++ concat (take n (drop b D))) l.
Proof using.
  intros Hl Hu Hal Hb Hrw. eapply wp_mono; [apply (lhd_io_loop D l b n u (λ i D' u', D' = D ∧ u_done u' = u_done u ++ concat (take i (drop b D)))); try done|].
  - split; [done|]. by rewrite take_0, app_nil_r.
  - intros i D' l' u' Q Hi Hl' _ Hlat [-> Hd] HQ. destruct (lookup_lt_is_Some_2 D (b + i) ltac:(lia)) as [s Hs].
    unfold statval_of. rewrite decide_False by (by rewrite Hrw). destruct Hal as [_ Hr].
    eapply (sector_read D l' _ s); [done|by rewrite Nat2Z.id|apply Hlat|by rewrite (ul_rw _ _ _ Hlat)|rewrite (ul_resid _ _ _ Hlat); lia|].
    intros l'' u'' Hl'' Hlat' Hd'. apply (HQ D); [done|done|done|]. split; [done|]. rewrite Hd', Hd, (drop_take_snoc _ _ _ s Hs), concat_app. cbn. by rewrite app_nil_r, app_assoc.
  - cbn beta. intros r l' (H0 & D' & Hl' & Hlat & -> & Hd). done.
Qed.

(** The sectors from [b] on replaced by the bytes [bs] *)
Fixpoint write_sectors (b n : nat) (bs : list Z) (D : list (list Z)) : list (list Z) :=
  match n with
  | O => D
  | S n => write_sectors (S b) n (drop 512 bs) (<[b := take 512 bs]> D)
  end.

Lemma lhd_io_write D l b n u :
  lhd_ready D l → u_ready u → aligned b n u → (b + n ≤ length D)%nat → u_rw u = UIO_WRITE →
  wp (lhd_io u) (λ r l', r.1 = 0 ∧ lhd_ready (write_sectors b n (u_todo u) D) l' ∧ u_later (Z.of_nat n * 512) u r.2 ∧ u_todo r.2 = drop (512 * n) (u_todo u)) l.
Proof using.
  intros Hl Hu Hal Hb Hrw. eapply wp_mono; [apply (lhd_io_loop D l b n u (λ i D' u', write_sectors (b + i) (n - i) (u_todo u') D' = write_sectors b n (u_todo u) D ∧
    u_todo u' = drop (512 * i) (u_todo u))); try done|].
  - by rewrite Nat.add_0_r, Nat.sub_0_r.
  - intros i D' l' u' Q Hi Hl' Hlen Hlat [Hw Hd] HQ. destruct (lookup_lt_is_Some_2 D' (b + i) ltac:(lia)) as [s Hs].
    unfold statval_of. rewrite decide_True by done. destruct Hal as [_ Hr].
    eapply (sector_write D' l' _ s); [done|by rewrite Nat2Z.id|apply Hlat|by rewrite (ul_rw _ _ _ Hlat)|rewrite (ul_resid _ _ _ Hlat); lia|].
    intros l'' u'' Hl'' Hlat' Hd'. rewrite Nat2Z.id in Hl''. eapply HQ; [exact Hl''|by rewrite length_insert|done|]. split.
    + rewrite <-Hw, Hd'. replace (n - i)%nat with (S (n - S i)) by lia. cbn [write_sectors]. by replace (b + S i)%nat with (S (b + i)) by lia.
    + rewrite Hd', Hd, drop_drop. f_equal. lia.
  - cbn beta. intros r l' (H0 & D' & Hl' & Hlat & Hw & Hd). rewrite Nat.sub_diag in Hw. cbn in Hw. subst D'. done.
Qed.

(** A write that fails with a media error has taken its bytes from the transfer. *)
Lemma sector_write_media D l sect s u Q :
  lhd_ready D l → D !! Z.to_nat sect = Some s → u_ready u → u_rw u = UIO_WRITE → 512 ≤ u_resid u →
  (∀ l' u', lhd_ready D l' → u_later 512 u u' → u_todo u' = drop 512 (u_todo u) → Q (EIO, u') l') →
  wp (lhd_sector (Z.lor LHD_WORKING LHD_ISWRITE) sect u) Q (push_code LHD_MEDIA l).
Proof using.
  intros [R1 R2 R3 R4 R5 R6 R7 R8] Hs Hu Hrw Hres HQ. pose proof (todo_length u Hu Hrw) as Hlen.
  destruct l as [c res cl dn nb], c as [D0 cs st se bf]. cbn in *. subst D0 cl dn nb. assert (length (take 512 (u_todo u)) = 512%nat) as Htk by (rewrite length_take; lia).
  unfold lhd_sector. apply wp_bind. erewrite wp_eq by reflexivity. apply wp_bind. rewrite decide_True by done.
  apply wp_bind, wp_moving_from; [done|done|unfold LHD_SECTSIZE; lia|]. intros u' Hl Hd. change (Z.to_nat LHD_SECTSIZE) with 512%nat in *. cbn [fst snd].
  apply wp_bind. erewrite wp_eq by reflexivity. apply wp_ret. cbn [Z.eqb negb]. rewrite Htk. cbn [lh_card c_buf set_lh_clear push_code set_lh_card]. rewrite drop_ge, app_nil_r by lia.
  apply wp_bind. erewrite wp_eq by reflexivity. apply wp_bind. erewrite wp_eq by reflexivity. apply wp_bind. erewrite wp_eq by (eapply P_done_media; [done|by right]).
  apply wp_bind, wp_gets. cbn [lh_result]. change (EIO =? 0) with false. cbn [andb]. apply wp_bind, wp_ret. apply wp_bind, wp_modify, wp_ret. apply HQ; [|done|done]. by split.
Qed.

Lemma lhd_io_media D l b u :
  lhd_ready D l → u_ready u → aligned b 1 u → (b < length D)%nat → u_rw u = UIO_WRITE →
  wp (lhd_io u) (λ r l', r.1 = EIO ∧ lhd_ready D l' ∧ u_later 512 u r.2) (push_code LHD_MEDIA l).
Proof using.
  intros Hl Hu [Ho Hr] Hb Hrw. pose proof (lr_max _ _ Hl) as Hmax. unfold lhd_io, LHD_SECTSIZE. rewrite Ho, Hr.
  rewrite Z.quot_mul, Z.rem_mul, Z.div_mul, Z.mod_mul, (u32_id (Z.of_nat b)) by lia. change (u32 0) with 0. cbn [Z.eqb negb orb].
  apply wp_bind, wp_gets. cbn [d_blocks push_code set_lh_card]. rewrite (lr_blocks _ _ Hl), u32_id, (proj2 (Z.ltb_ge _ _)) by lia.
  apply (wp_while _ (λ '(i, u') l', i = 0 ∧ u' = u ∧ l' = push_code LHD_MEDIA l) (λ _ _, 0)); [done|done|done|]. intros [i u'] l' (-> & -> & ->).
  cbn [Z.ltb Z.compare Z.of_nat Pos.of_succ_nat]. apply wp_bind. rewrite Z.add_0_r, u32_id, decide_True by (done || lia). destruct (lookup_lt_is_Some_2 D b Hb) as [s Hs].
  eapply (sector_write_media D l _ s); [done|by rewrite Nat2Z.id|done|done|lia|]. intros l' u' Hl' Hlat _. cbn [fst snd]. change (EIO =? 0) with false. cbn [negb]. by apply wp_ret.
Qed.
End io_laws.
