(* ===== verification/Sfs.v ===== *)
(** * The file system: structures and blocks ([kern/fs/sfs])

    The on-disk structures, the state of a mounted volume and the routines
    that allocate blocks, map the blocks of a file and move data
    ([sfs_balloc.c], [sfs_bmap.c], [sfs_io.c]).  Static buffers are always
    filled before they are used and are local values here.  Pointers to
    vnodes are numbers, and the vnodes are in [s_nodes]. *)

From S2P Require Import Prelude Machine Spinlock Pt Kernel Xfer Lhd Bitmap Array.

(** ** On-disk structures ([kern/include/kern/sfs.h]) *)

Definition SFS_MAGIC : Z := 0xabadf001.
Definition SFS_BLOCKSIZE : Z := 512.
Definition SFS_VOLNAME_SIZE : Z := 32.
Definition SFS_NDIRECT : Z := 15.
Definition SFS_NINDIRECT : Z := 1.
Definition SFS_DBPERIDB : Z := 128.
Definition SFS_NAMELEN : Z := 60.
Definition SFS_SUPER_BLOCK : Z := 0.
Definition SFS_FREEMAP_START : Z := 2.
Definition SFS_NOINO : Z := 0.
Definition SFS_ROOTDIR_INO : Z := 1.
Definition SFS_BITSPERBLOCK : Z := SFS_BLOCKSIZE * 8.
Definition SFS_ROUNDUP (a b : Z) : Z := u32 (u32 (a + b - 1) / b * b).
Definition SFS_FREEMAPBITS (nblocks : Z) : Z := SFS_ROUNDUP nblocks SFS_BITSPERBLOCK.
Definition SFS_FREEMAPBLOCKS (nblocks : Z) : Z := SFS_FREEMAPBITS nblocks / SFS_BITSPERBLOCK.
Definition SFS_TYPE_INVAL : Z := 0.
Definition SFS_TYPE_FILE : Z := 1.
Definition SFS_TYPE_DIR : Z := 2.

Record sfs_superblock : Type := mk_sb { sb_magic : Z; sb_nblocks : Z; sb_volname : list Z; sb_reserved : list Z }.
Definition sb_of (l : list Z) : sfs_superblock := mk_sb (be32 l 0) (be32 l 4) (take 32 (drop 8 l)) (words_of 118 (drop 40 l)).
Definition sb_bytes (sb : sfs_superblock) : list Z :=
  be32_bytes (sb_magic sb) ++ be32_bytes (sb_nblocks sb) ++ sb_volname sb ++ bytes_of (sb_reserved sb).

Record sfs_dinode : Type := mk_dinode {
  sfi_size : Z;
  sfi_type : Z;
  sfi_linkcount : Z;
  sfi_direct : list Z;
  sfi_indirect : Z;
  sfi_waste : list Z
}.
Definition dinode_of (l : list Z) : sfs_dinode :=
  mk_dinode (be32 l 0) (be16 l 4) (be16 l 6) (words_of 15 (drop 8 l)) (be32 l 68) (words_of 110 (drop 72 l)).
Definition dinode_bytes (i : sfs_dinode) : list Z :=
  be32_bytes (sfi_size i) ++ be16_bytes (sfi_type i) ++ be16_bytes (sfi_linkcount i) ++ bytes_of (sfi_direct i) ++
  be32_bytes (sfi_indirect i) ++ bytes_of (sfi_waste i).
Definition set_sfi_size (x : Z) (i : sfs_dinode) : sfs_dinode :=
  mk_dinode x (sfi_type i) (sfi_linkcount i) (sfi_direct i) (sfi_indirect i) (sfi_waste i).
Definition set_sfi_type (x : Z) (i : sfs_dinode) : sfs_dinode :=
  mk_dinode (sfi_size i) x (sfi_linkcount i) (sfi_direct i) (sfi_indirect i) (sfi_waste i).
Definition set_sfi_linkcount (x : Z) (i : sfs_dinode) : sfs_dinode :=
  mk_dinode (sfi_size i) (sfi_type i) x (sfi_direct i) (sfi_indirect i) (sfi_waste i).
Definition set_sfi_direct (x : list Z) (i : sfs_dinode) : sfs_dinode :=
  mk_dinode (sfi_size i) (sfi_type i) (sfi_linkcount i) x (sfi_indirect i) (sfi_waste i).
Definition set_sfi_indirect (x : Z) (i : sfs_dinode) : sfs_dinode :=
  mk_dinode (sfi_size i) (sfi_type i) (sfi_linkcount i) (sfi_direct i) x (sfi_waste i).

Record sfs_direntry : Type := mk_direntry { sfd_ino : Z; sfd_name : list Z }.
Definition SIZEOF_DIRENTRY : Z := 64.
Definition direntry_of (l : list Z) : sfs_direntry := mk_direntry (be32 l 0) (take 60 (drop 4 l)).
Definition direntry_bytes (d : sfs_direntry) : list Z := be32_bytes (sfd_ino d) ++ sfd_name d.

(** ** A mounted volume ([kern/include/sfs.h]) *)

(** The two tables of operations *)
Inductive sfs_optable : Type := sfs_fileops | sfs_dirops.
#[export] Instance sfs_optable_eq_dec : EqDecision sfs_optable.
Proof. solve_decision. Defined.

(** [struct sfs_vnode]; of the abstract vnode the table of operations and the
    reference count *)
Record sfs_vnode : Type := mk_sv { vn_ops : sfs_optable; vn_refcount : Z; sv_i : sfs_dinode; sv_ino : Z; sv_dirty : bool }.
Definition vn_abs (x : sfs_vnode) : sfs_optable * Z := (vn_ops x, vn_refcount x).
Definition set_refcount (n : Z) (x : sfs_vnode) : sfs_vnode := mk_sv (vn_ops x) n (sv_i x) (sv_ino x) (sv_dirty x).
Definition set_sv_i (i : sfs_dinode) (x : sfs_vnode) : sfs_vnode := mk_sv (vn_ops x) (vn_refcount x) i (sv_ino x) (sv_dirty x).
Definition set_sv_dirty (b : bool) (x : sfs_vnode) : sfs_vnode := mk_sv (vn_ops x) (vn_refcount x) (sv_i x) (sv_ino x) b.

(** [struct sfs_fs]; [sfs_device] says whether the device is set *)
Record sfs_fs : Type := mk_fs {
  sfs_sb : sfs_superblock;
  sfs_superdirty : bool;
  sfs_device : bool;
  sfs_vnodes : array;
  sfs_freemap : option bitmap;
  sfs_freemapdirty : bool
}.
Definition set_sfs_sb (x : sfs_superblock) (f : sfs_fs) : sfs_fs :=
  mk_fs x (sfs_superdirty f) (sfs_device f) (sfs_vnodes f) (sfs_freemap f) (sfs_freemapdirty f).
Definition set_superdirty (x : bool) (f : sfs_fs) : sfs_fs :=
  mk_fs (sfs_sb f) x (sfs_device f) (sfs_vnodes f) (sfs_freemap f) (sfs_freemapdirty f).
Definition set_device (x : bool) (f : sfs_fs) : sfs_fs :=
  mk_fs (sfs_sb f) (sfs_superdirty f) x (sfs_vnodes f) (sfs_freemap f) (sfs_freemapdirty f).
Definition set_vnodes (x : array) (f : sfs_fs) : sfs_fs :=
  mk_fs (sfs_sb f) (sfs_superdirty f) (sfs_device f) x (sfs_freemap f) (sfs_freemapdirty f).
Definition set_freemap (x : option bitmap) (f : sfs_fs) : sfs_fs :=
  mk_fs (sfs_sb f) (sfs_superdirty f) (sfs_device f) (sfs_vnodes f) x (sfs_freemapdirty f).
Definition set_freemapdirty (x : bool) (f : sfs_fs) : sfs_fs :=
  mk_fs (sfs_sb f) (sfs_superdirty f) (sfs_device f) (sfs_vnodes f) (sfs_freemap f) x.

(** The volume, its disk, the vnodes in memory (the next one gets address
    [s_next]), the outcomes of allocations to come and the depth of the big
    lock of the VFS layer, which is held when it is not 0 *)
Record sfs_st : Type := mk_st {
  s_fs : sfs_fs;
  s_lhd : lhd_softc;
  s_nodes : gmap Z sfs_vnode;
  s_next : Z;
  s_mallocs : list bool;
  vfs_biglock_depth : Z
}.
Definition set_s_fs (x : sfs_fs) (s : sfs_st) : sfs_st := mk_st x (s_lhd s) (s_nodes s) (s_next s) (s_mallocs s) (vfs_biglock_depth s).
Definition set_s_lhd (x : lhd_softc) (s : sfs_st) : sfs_st := mk_st (s_fs s) x (s_nodes s) (s_next s) (s_mallocs s) (vfs_biglock_depth s).
Definition set_s_nodes (x : gmap Z sfs_vnode) (s : sfs_st) : sfs_st := mk_st (s_fs s) (s_lhd s) x (s_next s) (s_mallocs s) (vfs_biglock_depth s).
Definition set_s_next (x : Z) (s : sfs_st) : sfs_st := mk_st (s_fs s) (s_lhd s) (s_nodes s) x (s_mallocs s) (vfs_biglock_depth s).
Definition set_s_mallocs (x : list bool) (s : sfs_st) : sfs_st := mk_st (s_fs s) (s_lhd s) (s_nodes s) (s_next s) x (vfs_biglock_depth s).
Definition set_depth (x : Z) (s : sfs_st) : sfs_st := mk_st (s_fs s) (s_lhd s) (s_nodes s) (s_next s) (s_mallocs s) x.

Definition on_fs (f : sfs_fs → sfs_fs) : M sfs_st () := modify (λ s, set_s_fs (f (s_fs s)) s).
Definition on_lhd {A} (m : M lhd_softc A) : M sfs_st A := zoom s_lhd set_s_lhd m.
Definition on_freemap {A} (m : M bitmap A) : M sfs_st A :=
  fs ← gets s_fs;
  b ← deref (sfs_freemap fs);
  match m b with
  | Ok (a, b') => on_fs (set_freemap (Some b')) ;; mret a
  | Stop e => halt e
  end.
Definition get_sv (sv : Z) : M sfs_st sfs_vnode := l ← gets s_nodes; deref (l !! sv).
Definition upd_sv (sv : Z) (f : sfs_vnode → sfs_vnode) : M sfs_st () :=
  x ← get_sv sv;
  modify (λ s, set_s_nodes (<[sv := f x]> (s_nodes s)) s).
(** A change of the inode, which becomes dirty *)
Definition upd_inode (sv : Z) (f : sfs_dinode → sfs_dinode) : M sfs_st () :=
  upd_sv sv (λ x, set_sv_dirty true (set_sv_i (f (sv_i x)) x)).

(** The outcome of an allocation *)
Definition sfs_malloc : M sfs_st bool :=
  l ← gets s_mallocs;
  modify (set_s_mallocs (tail l)) ;;
  mret (default true (head l)).

(** The lock of the VFS layer is recursive: one thread is modelled, so it is
    held when its depth is not 0. *)
Definition vfs_biglock_acquire : M sfs_st () := modify (λ s, set_depth (vfs_biglock_depth s + 1) s).
Definition vfs_biglock_release : M sfs_st () :=
  n ← gets vfs_biglock_depth;
  kassert (0 <? n) "vfs_biglock_depth > 0" ;;
  modify (set_depth (n - 1)).
Definition vfs_biglock_do_i_hold : M sfs_st bool := n ← gets vfs_biglock_depth; mret (0 <? n).

(** ** Block input and output ([sfs_io.c]) *)

Section rwblock.
Context {U : Type} {uops : UioOps U}.

Definition sfs_rwblock (u : U) : M sfs_st (Z * U) :=
  held ← vfs_biglock_do_i_hold;
  kassert held "vfs_biglock_do_i_hold()" ;;
  while (λ '(tries, u),
    r ← on_lhd (lhd_io u);
    if r.1 =? EINVAL then halt (Panic "sfs: DEVOP_IO returned EINVAL")
    else if r.1 =? EIO then
      if tries =? 0 then mret (inl (tries + 1, r.2))
      else if tries <? 10 then mret (inl (tries + 1, r.2))
      else mret (inr r)
    else mret (inr r)) (0, u).
End rwblock.

(** The result and the bytes that were read *)
Definition sfs_readblock (block : Z) : M sfs_st (Z * list Z) :=
  r ← sfs_rwblock (kuio [] SFS_BLOCKSIZE (block * SFS_BLOCKSIZE) UIO_READ);
  mret (r.1, kb_out r.2).

Definition sfs_writeblock (block : Z) (data : list Z) : M sfs_st Z :=
  kassert (Z.of_nat (length data) =? SFS_BLOCKSIZE) "len == SFS_BLOCKSIZE" ;;
  r ← sfs_rwblock (kuio data SFS_BLOCKSIZE (block * SFS_BLOCKSIZE) UIO_WRITE);
  mret r.1.

(** ** Allocation of blocks ([sfs_balloc.c]) *)

Definition zeros : list Z := replicate 512 0.

Definition sfs_clearblock (block : Z) : M sfs_st Z := sfs_writeblock block zeros.

(** The result and [*diskblock] *)
Definition sfs_balloc : M sfs_st (Z * Z) :=
  r ← on_freemap bitmap_alloc;
  if negb (r.1 =? 0) then mret (r.1, default 0 r.2)
  else
    let diskblock := default 0 r.2 in
    on_fs (set_freemapdirty true) ;;
    fs ← gets s_fs;
    if sb_nblocks (sfs_sb fs) <=? diskblock then halt (Panic "sfs: balloc: invalid block")
    else
      result ← sfs_clearblock diskblock;
      (if negb (result =? 0) then on_freemap (bitmap_unmark diskblock) else mret tt) ;;
      mret (result, diskblock).

Definition sfs_bfree (diskblock : Z) : M sfs_st () :=
  on_freemap (bitmap_unmark diskblock) ;;
  on_fs (set_freemapdirty true).

Definition sfs_bused (diskblock : Z) : M sfs_st bool :=
  fs ← gets s_fs;
  if sb_nblocks (sfs_sb fs) <=? diskblock then halt (Panic "sfs: sfs_bused called on out of range block")
  else
    r ← on_freemap (bitmap_isset diskblock);
    mret (negb (r =? 0)).

(** ** The blocks of a file ([sfs_bmap.c]) *)

(** Hand back a block: it must be marked in use. *)
Definition hand_back (block : Z) : M sfs_st (Z * Z) :=
  bad ← (if negb (block =? 0) then used ← sfs_bused block; mret (negb used) else mret false);
  if (bad : bool) then halt (Panic "sfs: Data block marked free") else mret (0, block).

(** The result and [*diskblock] *)
Definition sfs_bmap (sv fileblock : Z) (doalloc : bool) : M sfs_st (Z * Z) :=
  held ← vfs_biglock_do_i_hold;
  kassert held "vfs_biglock_do_i_hold()" ;;
  x ← get_sv sv;
  if fileblock <? SFS_NDIRECT then
    block ← deref (sfi_direct (sv_i x) !! Z.to_nat fileblock);
    if (block =? 0) && doalloc then
      r ← sfs_balloc;
      if negb (r.1 =? 0) then mret r
      else
        upd_inode sv (λ i, set_sfi_direct (<[Z.to_nat fileblock := r.2]> (sfi_direct i)) i) ;;
        hand_back r.2
    else hand_back block
  else
    let fileblock := fileblock - SFS_NDIRECT in
    let idnum := fileblock / SFS_DBPERIDB in
    let idoff := fileblock `mod` SFS_DBPERIDB in
    if SFS_NINDIRECT <=? idnum then mret (EFBIG, 0)
    else
      let idblock := sfi_indirect (sv_i x) in
      if (idblock =? 0) && negb doalloc then mret (0, 0)
      else
        (* the indirect block: an error, or its number and contents *)
        r ← (if idblock =? 0 then
               r ← sfs_balloc;
               if negb (r.1 =? 0) then mret (r.1, (0, []))
               else upd_inode sv (set_sfi_indirect r.2) ;; mret (0, (r.2, replicate 128 0))
             else
               r ← sfs_readblock idblock;
               mret (r.1, (idblock, words_of 128 r.2)));
        let '(result, (idblock, idbuf)) := r in
        if negb (result =? 0) then mret (result, 0)
        else
          block ← deref (idbuf !! Z.to_nat idoff);
          if (block =? 0) && doalloc then
            r ← sfs_balloc;
            if negb (r.1 =? 0) then mret r
            else
              result ← sfs_writeblock idblock (bytes_of (<[Z.to_nat idoff := r.2]> idbuf));
              if negb (result =? 0) then mret (result, 0) else hand_back r.2
          else hand_back block.

(** The loop over the indirect block: the block, and the flags [hasnonzero] and
    [iddirty] *)
Definition trunc_indirect (blocklen : Z) (idbuf : list Z) : M sfs_st (list Z * bool * bool) :=
  fold_list (seqZ 0 SFS_DBPERIDB) (λ j '(idbuf, hasnonzero, iddirty),
    block ← deref (idbuf !! Z.to_nat j);
    r ← (if (blocklen <? SFS_NDIRECT + j) && negb (block =? 0) then
           sfs_bfree block ;; mret (<[Z.to_nat j := 0]> idbuf, true)
         else mret (idbuf, iddirty));
    block ← deref (r.1 !! Z.to_nat j);
    mret (r.1, hasnonzero || negb (block =? 0), r.2)) (idbuf, false, false).

Definition sfs_itrunc (sv len : Z) : M sfs_st Z :=
  let blocklen := u32 (Z.quot (len + SFS_BLOCKSIZE - 1) SFS_BLOCKSIZE) in
  vfs_biglock_acquire ;;
  for_list (seqZ 0 SFS_NDIRECT) (λ i,
    x ← get_sv sv;
    block ← deref (sfi_direct (sv_i x) !! Z.to_nat i);
    if (blocklen <=? i) && negb (block =? 0) then
      sfs_bfree block ;;
      upd_inode sv (λ ino, set_sfi_direct (<[Z.to_nat i := 0]> (sfi_direct ino)) ino)
    else mret tt) ;;
  x ← get_sv sv;
  let idblock := sfi_indirect (sv_i x) in
  let highblock := SFS_NDIRECT + SFS_DBPERIDB - 1 in
  result ← (if (blocklen <? highblock) && negb (idblock =? 0) then
    r ← sfs_readblock idblock;
    if negb (r.1 =? 0) then mret r.1
    else
      t ← trunc_indirect blocklen (words_of 128 r.2);
      let '(idbuf, hasnonzero, iddirty) := t in
      if negb hasnonzero then
        sfs_bfree idblock ;;
        upd_inode sv (set_sfi_indirect 0) ;;
        mret 0
      else if (iddirty : bool) then sfs_writeblock idblock (bytes_of idbuf)
      else mret 0
    else mret 0);
  (if negb (result =? 0) then mret tt else upd_inode sv (set_sfi_size (u32 len))) ;;
  vfs_biglock_release ;;
  mret result.

(** ** Input and output of files ([sfs_io.c]) *)

(** The bytes [bs] put into [l] at [off] *)
Definition splice (off : Z) (bs l : list Z) : list Z := take (Z.to_nat off) l ++ bs ++ drop (Z.to_nat off + length bs) l.

Section file_io.
Context {U : Type} {uops : UioOps U}.

Definition sfs_partialio (sv : Z) (u : U) (skipstart len : Z) : M sfs_st (Z * U) :=
  let doalloc := bool_decide (u_rw u = UIO_WRITE) in
  kassert (u32 (skipstart + len) <=? SFS_BLOCKSIZE) "skipstart + len <= SFS_BLOCKSIZE" ;;
  held ← vfs_biglock_do_i_hold;
  kassert held "vfs_biglock_do_i_hold()" ;;
  let fileblock := u32 (Z.quot (u_offset u) SFS_BLOCKSIZE) in
  r ← sfs_bmap sv fileblock doalloc;
  let '(result, diskblock) := r in
  if negb (result =? 0) then mret (result, u)
  else
    r ← (if diskblock =? 0 then
           kassert (bool_decide (u_rw u = UIO_READ)) "uio->uio_rw == UIO_READ" ;;
           mret (0, zeros)
         else sfs_readblock diskblock);
    let '(result, iobuf) := r in
    if negb (result =? 0) then mret (result, u)
    else if decide (u_rw u = UIO_WRITE) then
      r ← moving (u_from len) u;
      if negb (r.1.1 =? 0) then mret (r.1.1, r.2)
      else
        result ← sfs_writeblock diskblock (splice skipstart r.1.2 iobuf);
        mret (result, r.2)
    else
      r ← moving (u_to (take (Z.to_nat len) (drop (Z.to_nat skipstart) iobuf))) u;
      mret r.

(** [uiomovezeros]: the array of zeros has 16 bytes. *)
Definition move_zeros (n : Z) (u : U) : M sfs_st (Z * U) :=
  kassert (bool_decide (u_rw u = UIO_READ)) "uio->uio_rw == UIO_READ" ;;
  while (λ '(n, u),
    if 0 <? n then
      let amt := if n <? 16 then n else 16 in
      r ← moving (u_to (replicate (Z.to_nat amt) 0)) u;
      if negb (r.1 =? 0) then mret (inr r) else mret (inl (n - amt, r.2))
    else mret (inr (0, u))) (n, u).

Definition sfs_blockio (sv : Z) (u : U) : M sfs_st (Z * U) :=
  let doalloc := bool_decide (u_rw u = UIO_WRITE) in
  let fileblock := u32 (Z.quot (u_offset u) SFS_BLOCKSIZE) in
  r ← sfs_bmap sv fileblock doalloc;
  let '(result, diskblock) := r in
  if negb (result =? 0) then mret (result, u)
  else if diskblock =? 0 then
    kassert (bool_decide (u_rw u = UIO_READ)) "uio->uio_rw == UIO_READ" ;;
    move_zeros SFS_BLOCKSIZE u
  else
    let saveoff := u_offset u in
    let diskoff := u32 (diskblock * SFS_BLOCKSIZE) in
    let u := u_set_offset diskoff u in
    kassert (SFS_BLOCKSIZE <=? u_resid u) "uio->uio_resid >= SFS_BLOCKSIZE" ;;
    let saveres := u_resid u in
    let diskres := SFS_BLOCKSIZE in
    let u := u_set_resid diskres u in
    r ← sfs_rwblock u;
    let u := u_set_offset (u_offset r.2 - diskoff + saveoff) r.2 in
    let u := u_set_resid (u32 (u_resid u - diskres + saveres)) u in
    mret (r.1, u).

(** From the leading partial block to the trailing one *)
Definition io_blocks (sv : Z) (u : U) : M sfs_st (Z * U) :=
  let blkoff := u32 (Z.rem (u_offset u) SFS_BLOCKSIZE) in
  r ← (if negb (blkoff =? 0) then
         let len := SFS_BLOCKSIZE - blkoff in
         let len := if u_resid u <? len then u_resid u else len in
         sfs_partialio sv u blkoff len
       else mret (0, u));
  let '(result, u) := r in
  if negb (result =? 0) then mret (result, u)
  else if u_resid u =? 0 then mret (0, u)
  else
    kassert (Z.rem (u_offset u) SFS_BLOCKSIZE =? 0) "uio->uio_offset % SFS_BLOCKSIZE == 0" ;;
    let nblocks := u_resid u / SFS_BLOCKSIZE in
    r ← while (λ '(i, u),
      if i <? nblocks then
        r ← sfs_blockio sv u;
        if negb (r.1 =? 0) then mret (inr r) else mret (inl (i + 1, r.2))
      else mret (inr (0, u))) (0, u);
    let '(result, u) := r in
    if negb (result =? 0) then mret (result, u)
    else
      kassert (u_resid u <? SFS_BLOCKSIZE) "uio->uio_resid < SFS_BLOCKSIZE" ;;
      if 0 <? u_resid u then sfs_partialio sv u 0 (u_resid u) else mret (0, u).

Definition sfs_io (sv : Z) (u : U) : M sfs_st (Z * U) :=
  let origresid := u_resid u in
  x ← get_sv sv;
  let size := sfi_size (sv_i x) in
  let endpos := u_offset u + u_resid u in
  if bool_decide (u_rw u = UIO_READ) && (size <=? u_offset u) then mret (0, u)
  else
    let extraresid := if bool_decide (u_rw u = UIO_READ) && (size <? endpos) then u32 (endpos - size) else 0 in
    kassert ((extraresid =? 0) || (extraresid <? u_resid u)) "uio->uio_resid > extraresid" ;;
    let u := u_set_resid (u_resid u - extraresid) u in
    r ← io_blocks sv u;
    let '(result, u) := r in
    x ← get_sv sv;
    (if negb (u_resid u =? origresid) && bool_decide (u_rw u = UIO_WRITE) && (sfi_size (sv_i x) <? u_offset u)
     then upd_inode sv (set_sfi_size (u32 (u_offset u))) else mret tt) ;;
    mret (result, u_set_resid (u_resid u + extraresid) u).
End file_io.

(** The result and the buffer afterwards *)
Definition sfs_metaio (sv actualpos : Z) (data : list Z) (rw : uio_rw_t) : M sfs_st (Z * list Z) :=
  held ← vfs_biglock_do_i_hold;
  kassert held "vfs_biglock_do_i_hold()" ;;
  let len := Z.of_nat (length data) in
  let vnblock := u32 (Z.quot actualpos SFS_BLOCKSIZE) in
  let blockoffset := u32 (Z.rem actualpos SFS_BLOCKSIZE) in
  let doalloc := bool_decide (rw = UIO_WRITE) in
  r ← sfs_bmap sv vnblock doalloc;
  let '(result, diskblock) := r in
  if negb (result =? 0) then mret (result, data)
  else if diskblock =? 0 then
    kassert (bool_decide (rw = UIO_READ)) "rw == UIO_READ" ;;
    mret (0, replicate (length data) 0)
  else
    r ← sfs_readblock diskblock;
    let '(result, metaiobuf) := r in
    if negb (result =? 0) then mret (result, data)
    else if SFS_BLOCKSIZE <? blockoffset + len then halt BadAccess
    else if decide (rw = UIO_READ) then mret (0, take (length data) (drop (Z.to_nat blockoffset) metaiobuf))
    else
      result ← sfs_writeblock diskblock (splice blockoffset data metaiobuf);
      if negb (result =? 0) then mret (result, data)
      else
        let endpos := actualpos + len in
        x ← get_sv sv;
        (if sfi_size (sv_i x) <? endpos then upd_inode sv (set_sfi_size (u32 endpos)) else mret tt) ;;
        mret (0, data).
