(* ===== verification/SfsInv.v ===== *)
(** * What a volume holds

    [shows] relates a state to the data that matters: sectors, free map and
    vnodes.  [fs_ok] is the invariant of a volume with the inodes [I]: each
    block has one use, and blocks in use are marked.  [fblock] is a block of a
    file and [contents] its bytes. *)

From S2P Require Import Prelude Machine Spinlock Pt Kernel Xfer Lhd Bitmap Array Sfs.

(** ** The view *)

Record sview : Type := mk_view { w_disk : list (list Z); w_bit : Z → bool; w_mapdirty : bool; w_nodes : gmap Z sfs_vnode }.
Definition set_w_disk (x : list (list Z)) (w : sview) : sview := mk_view x (w_bit w) (w_mapdirty w) (w_nodes w).
Definition set_w_nodes (x : gmap Z sfs_vnode) (w : sview) : sview := mk_view (w_disk w) (w_bit w) (w_mapdirty w) x.
Definition set_bit_at (i : Z) (v : bool) (f : Z → bool) : Z → bool := λ j, if decide (j = i) then v else f j.
Definition set_w_bit (i : Z) (v : bool) (w : sview) : sview := mk_view (w_disk w) (set_bit_at i v (w_bit w)) true (w_nodes w).

(** What the block routines do not change *)
Record srest : Type := mk_rest {
  r_sb : sfs_superblock; r_superdirty : bool; r_device : bool; r_vnodes : array; r_next : Z; r_mallocs : list bool; r_depth : Z
}.
Definition rest_of (s : sfs_st) : srest :=
  mk_rest (sfs_sb (s_fs s)) (sfs_superdirty (s_fs s)) (sfs_device (s_fs s)) (sfs_vnodes (s_fs s)) (s_next s) (s_mallocs s) (vfs_biglock_depth s).
Definition r_nblocks (R : srest) : Z := sb_nblocks (r_sb R).

Definition map_shows (b : bitmap) (nb : Z) (f : Z → bool) : Prop := bm_wf b ∧ (nb ≤ nbits b ∧ nbits b = SFS_FREEMAPBITS nb) ∧ ∀ j, 0 ≤ j < nbits b → bit b j = f j.

Record shows (R : srest) (s : sfs_st) (w : sview) : Prop := {
  sh_rest : rest_of s = R;
  sh_lhd : lhd_ready (w_disk w) (s_lhd s);
  sh_map : ∃ b, sfs_freemap (s_fs s) = Some b ∧ map_shows b (r_nblocks R) (w_bit w) ∧ ∀ j, r_nblocks R ≤ j < nbits b → bit b j = true;
  sh_dirty : sfs_freemapdirty (s_fs s) = w_mapdirty w;
  sh_nodes : s_nodes s = w_nodes w;
  sh_size : 0 ≤ r_nblocks R ≤ Z.of_nat (length (w_disk w));
  sh_held : 0 < r_depth R
}.

Section steps.
Context (R : srest).

Lemma wp_held_raw s Q : 0 < vfs_biglock_depth s → Q true s → wp vfs_biglock_do_i_hold Q s.
Proof using. intros Hd HQ. apply wp_bind, wp_gets, wp_ret. by rewrite (proj2 (Z.ltb_lt _ _)). Qed.

Lemma shows_depth s w : shows R s w → vfs_biglock_depth s = r_depth R ∧ 0 < vfs_biglock_depth s.
Proof using. intros Hs. pose proof (sh_held _ _ _ Hs) as Hd. rewrite <-(sh_rest _ _ _ Hs) in Hd |- *. done. Qed.

Lemma wp_held s w Q : shows R s w → Q true s → wp vfs_biglock_do_i_hold Q s.
Proof using. intros [_ Hd]%shows_depth. by apply wp_held_raw. Qed.

Lemma shows_lhd s w D l : shows R s w → lhd_ready D l → length D = length (w_disk w) → shows R (set_s_lhd l s) (set_w_disk D w).
Proof using. intros [H1 H2 H3 H4 H5 H6 H7] Hl HD. split; try done. cbn. by rewrite HD. Qed.

Lemma shows_same_disk s w l : shows R s w → lhd_ready (w_disk w) l → shows R (set_s_lhd l s) w.
Proof using. intros Hs Hl. pose proof (shows_lhd s w _ l Hs Hl eq_refl) as H. by destruct w. Qed.

Context {U : Type} {uops : UioOps U} {ulaws : UioLaws U}.

Lemma aligned_one n u : 0 ≤ n → u_offset u = n * 512 → u_resid u = 512 → aligned (Z.to_nat n) 1 u.
Proof using. intros Hn Ho Hr. split; [rewrite Ho; lia|rewrite Hr; done]. Qed.

(** Reading and writing one block of the disk *)
Lemma wp_rwblock_read_raw s D u n bs Q :
  lhd_ready D (s_lhd s) → 0 < vfs_biglock_depth s → 0 ≤ n → D !! Z.to_nat n = Some bs → u_ready u → u_rw u = UIO_READ → u_offset u = n * 512 → u_resid u = 512 →
  (∀ l u', lhd_ready D l → u_later 512 u u' → u_done u' = u_done u ++ bs → Q (0, u') (set_s_lhd l s)) →
  wp (sfs_rwblock u) Q s.
Proof using.
  intros Hl Hheld Hn Hb Hu Hrw Ho Hr HQ. unfold sfs_rwblock. apply wp_bind. apply wp_held_raw; [done|]. apply wp_bind, wp_kassert. split; [done|].
  apply (wp_while _ (λ '(t, u') s', t = 0 ∧ u' = u ∧ s' = s) (λ _ _, 0)); [done|done|done|]. intros [t u'] s' (-> & -> & ->).
  pose proof (lookup_lt_Some _ _ _ Hb) as Hlt. apply wp_bind, wp_zoom.
  eapply wp_mono; [by apply (lhd_io_read D _ (Z.to_nat n) 1 u Hl Hu (aligned_one n u Hn Ho Hr) ltac:(lia) Hrw)|].
  cbn beta. intros [r u'] l' (H0 & Hl' & Hlat & Hd). cbn [fst snd] in *. subst r. cbn [fst snd Z.eqb]. apply wp_ret.
  apply HQ; [done|by rewrite Z.mul_1_l in Hlat|]. rewrite Hd. f_equal.
  rewrite (drop_S _ bs) by done. cbn. by rewrite take_0, app_nil_r.
Qed.

Lemma wp_rwblock_read s w u n bs Q :
  shows R s w → 0 ≤ n → w_disk w !! Z.to_nat n = Some bs → u_ready u → u_rw u = UIO_READ → u_offset u = n * 512 → u_resid u = 512 →
  (∀ s' u', shows R s' w → u_later 512 u u' → u_done u' = u_done u ++ bs → Q (0, u') s') →
  wp (sfs_rwblock u) Q s.
Proof using.
  intros Hs Hn Hb Hu Hrw Ho Hr HQ. eapply (wp_rwblock_read_raw s (w_disk w) u n bs); try done; [apply Hs|by eapply shows_depth|]. intros l u' Hl Hlat Hd. apply HQ; [by apply shows_same_disk|done|done].
Qed.

Lemma wp_rwblock_write_raw s D u n Q :
  lhd_ready D (s_lhd s) → 0 < vfs_biglock_depth s → 0 ≤ n < Z.of_nat (length D) → u_ready u → u_rw u = UIO_WRITE → u_offset u = n * 512 → u_resid u = 512 →
  (∀ l u', lhd_ready (<[Z.to_nat n := take 512 (u_todo u)]> D) l → u_later 512 u u' → u_todo u' = drop 512 (u_todo u) → Q (0, u') (set_s_lhd l s)) →
  wp (sfs_rwblock u) Q s.
Proof using.
  intros Hl Hheld Hn Hu Hrw Ho Hr HQ. unfold sfs_rwblock. apply wp_bind. apply wp_held_raw; [done|]. apply wp_bind, wp_kassert. split; [done|].
  apply (wp_while _ (λ '(t, u') s', t = 0 ∧ u' = u ∧ s' = s) (λ _ _, 0)); [done|done|done|]. intros [t u'] s' (-> & -> & ->).
  apply wp_bind, wp_zoom.
  eapply wp_mono; [by apply (lhd_io_write D _ (Z.to_nat n) 1 u Hl Hu (aligned_one n u ltac:(lia) Ho Hr) ltac:(lia) Hrw)|].
  cbn beta. intros [r u'] l' (H0 & Hl' & Hlat & Hd). cbn [fst snd write_sectors] in *. subst r. cbn [fst snd Z.eqb]. apply wp_ret.
  apply HQ; [done|by rewrite Z.mul_1_l in Hlat|done].
Qed.

Lemma wp_rwblock_write s w u n Q :
  shows R s w → 0 ≤ n < Z.of_nat (length (w_disk w)) → u_ready u → u_rw u = UIO_WRITE → u_offset u = n * 512 → u_resid u = 512 →
  (∀ s' u', shows R s' (set_w_disk (<[Z.to_nat n := take 512 (u_todo u)]> (w_disk w)) w) → u_later 512 u u' → u_todo u' = drop 512 (u_todo u) → Q (0, u') s') →
  wp (sfs_rwblock u) Q s.
Proof using.
  intros Hs Hn Hu Hrw Ho Hr HQ. eapply (wp_rwblock_write_raw s (w_disk w) u n); try done; [apply Hs|by eapply shows_depth|]. intros l u' Hl Hlat Hd.
  apply HQ; [apply shows_lhd; [done|done|by rewrite length_insert]|done|done].
Qed.
End steps.

Section block_steps.
Context (R : srest).

Lemma kuio_ready data pos rw : 0 ≤ pos < 2 ^ 62 → (rw = UIO_WRITE → length data = 512%nat) → u_ready (kuio data SFS_BLOCKSIZE pos rw).
Proof using.
  intros Hp Hd. unfold SFS_BLOCKSIZE. split; cbn; [|lia..]. intros Hrw. by rewrite Hd.
Qed.

Lemma disk_pos D l n : lhd_ready D l → 0 ≤ n < Z.of_nat (length D) → 0 ≤ n * SFS_BLOCKSIZE < 2 ^ 62.
Proof using. intros Hl Hn. pose proof (lr_max _ _ Hl). unfold SFS_BLOCKSIZE. lia. Qed.

Lemma wp_readblock_raw s D n bs Q :
  lhd_ready D (s_lhd s) → 0 < vfs_biglock_depth s → 0 ≤ n → D !! Z.to_nat n = Some bs → (∀ l, lhd_ready D l → Q (0, bs) (set_s_lhd l s)) → wp (sfs_readblock n) Q s.
Proof using.
  intros Hl Hd Hn Hb HQ. pose proof (lookup_lt_Some _ _ _ Hb). unfold sfs_readblock. apply wp_bind.
  eapply (wp_rwblock_read_raw s D _ n bs); [done|done|done|done|apply kuio_ready; [apply (disk_pos D (s_lhd s)); [done|lia]|done]|done|done|done|].
  intros l u' Hl' _ Hdone. cbn in Hdone. apply wp_ret. cbn [fst snd]. rewrite Hdone. by apply HQ.
Qed.

Lemma wp_readblock s w n bs Q :
  shows R s w → 0 ≤ n → w_disk w !! Z.to_nat n = Some bs → (∀ s', shows R s' w → Q (0, bs) s') → wp (sfs_readblock n) Q s.
Proof using.
  intros Hs Hn Hb HQ. eapply (wp_readblock_raw s (w_disk w)); try done; [apply Hs|by eapply shows_depth|]. intros l Hl. apply HQ. by apply shows_same_disk.
Qed.

Lemma wp_writeblock_raw s D n data Q :
  lhd_ready D (s_lhd s) → 0 < vfs_biglock_depth s → 0 ≤ n < Z.of_nat (length D) → length data = 512%nat →
  (∀ l, lhd_ready (<[Z.to_nat n := data]> D) l → Q 0 (set_s_lhd l s)) → wp (sfs_writeblock n data) Q s.
Proof using.
  intros Hl Hheld Hn Hd HQ. unfold sfs_writeblock. apply wp_bind, wp_kassert. split; [by rewrite Hd|]. apply wp_bind.
  eapply (wp_rwblock_write_raw s D _ n); [done|done|done|apply kuio_ready; [by eapply disk_pos|done]|done|done|done|].
  intros l u' Hl' _ _. cbn in Hl'. rewrite take_ge in Hl' by lia. apply wp_ret. by apply HQ.
Qed.

Lemma wp_writeblock s w n data Q :
  shows R s w → 0 ≤ n < Z.of_nat (length (w_disk w)) → length data = 512%nat →
  (∀ s', shows R s' (set_w_disk (<[Z.to_nat n := data]> (w_disk w)) w) → Q 0 s') → wp (sfs_writeblock n data) Q s.
Proof using.
  intros Hs Hn Hd HQ. eapply (wp_writeblock_raw s (w_disk w)); try done; [apply Hs|by eapply shows_depth|]. intros l Hl. apply HQ, shows_lhd; [done|done|by rewrite length_insert].
Qed.

(** When the card reports a media error, the retry of [sfs_rwblock] finds
    nothing left to write, and the block stays as it was. *)
Lemma wp_writeblock_media s D l n data Q :
  lhd_ready D l → 0 < vfs_biglock_depth s → 0 ≤ n < Z.of_nat (length D) → length data = 512%nat → s_lhd s = push_code LHD_MEDIA l →
  (∀ l', lhd_ready D l' → Q 0 (set_s_lhd l' s)) → wp (sfs_writeblock n data) Q s.
Proof using.
  intros Hl Hheld Hn Hd Es HQ. unfold sfs_writeblock. apply wp_bind, wp_kassert. split; [by rewrite Hd|]. apply wp_bind.
  set (u := kuio data SFS_BLOCKSIZE (n * SFS_BLOCKSIZE) UIO_WRITE). assert (u_ready u) as Hu by (apply kuio_ready; [by eapply disk_pos|done]).
  unfold sfs_rwblock. apply wp_bind, wp_held_raw; [done|]. apply wp_bind, wp_kassert. split; [done|].
  apply (wp_while _ (λ '(t, u') s', (t = 0 ∧ u' = u ∧ s' = s) ∨ (t = 1 ∧ u_later 512 u u' ∧ ∃ l', lhd_ready D l' ∧ s' = set_s_lhd l' s)) (λ '(t, _) _, 1 - t)).
  - by left.
  - intros [t u'] s' [(-> & _)|(-> & _)]; lia.
  - lia.
  - intros [t u'] s' [(-> & -> & ->)|(-> & Hlat & l' & Hl' & ->)]; apply wp_bind, wp_zoom.
    + rewrite Es. eapply wp_mono; [apply (lhd_io_media D l (Z.to_nat n) u); [done|done|apply aligned_one; [lia|done|done]|lia|done]|]. intros r l2 (E & Hl2 & Hlat).
      rewrite E. change (EIO =? EINVAL) with false. change (EIO =? EIO) with true. cbn [Z.eqb]. apply wp_ret. split; [|lia]. right. eauto.
    + assert (u_offset u' = (n + 1) * 512) as Ho by (rewrite (ul_offset _ _ _ Hlat); unfold u, SFS_BLOCKSIZE; cbn; lia).
      assert (u_resid u' = 0) as Hr by (rewrite (ul_resid _ _ _ Hlat); done). cbn [s_lhd set_s_lhd].
      eapply wp_mono; [apply (lhd_io_write D l' (Z.to_nat (n + 1)) 0 u'); [done|apply Hlat|split; [rewrite Ho; lia|by rewrite Hr]|lia|by rewrite (ul_rw _ _ _ Hlat)]|].
      intros r l2 (E & Hl2 & _). cbn [write_sectors] in Hl2. rewrite E. cbn [Z.eqb]. apply wp_ret, wp_ret. rewrite E. by apply HQ.
Qed.

(** The free map *)
Lemma wp_on_freemap {A} (m : M bitmap A) s b a b' Q :
  sfs_freemap (s_fs s) = Some b → m b = Ok (a, b') → Q a (set_s_fs (set_freemap (Some b') (s_fs s)) s) → wp (on_freemap m) Q s.
Proof using. intros Hb Hm HQ. unfold on_freemap. apply wp_bind, wp_gets, wp_bind. rewrite Hb. apply wp_ret. rewrite Hm. apply wp_bind, wp_modify, wp_ret. done. Qed.

Lemma wp_bused s w n Q : shows R s w → 0 ≤ n < r_nblocks R → (∀ s', shows R s' w → Q (w_bit w n) s') → wp (sfs_bused n) Q s.
Proof using.
  intros Hs Hn HQ. unfold sfs_bused. apply wp_bind, wp_gets. pose proof (sh_rest _ _ _ Hs) as HR.
  assert (sb_nblocks (sfs_sb (s_fs s)) = r_nblocks R) as -> by (by rewrite <-HR). rewrite (proj2 (Z.leb_gt _ _)) by lia.
  destruct (sh_map _ _ _ Hs) as (b & Hb & (Hwf & [Hle Hnb] & Hbit) & Hover). destruct (bitmap_isset_run b n Hwf ltac:(lia)) as (r & Hr & Hr0).
  apply wp_bind. eapply wp_on_freemap; [done|done|]. apply wp_ret. rewrite Hr0, negb_involutive, Hbit by lia. apply HQ.
  destruct Hs as [H1 H2 H3 H4 H5 H6 H7]. split; try done. by exists b.
Qed.

Lemma shows_map s w b i v :
  shows R s w → bm_wf b → r_nblocks R ≤ nbits b → nbits b = SFS_FREEMAPBITS (r_nblocks R) → 0 ≤ i < r_nblocks R →
  (∀ j, 0 ≤ j < nbits b → bit b j = set_bit_at i v (w_bit w) j) → (∀ j, r_nblocks R ≤ j < nbits b → bit b j = true) →
  shows R (set_s_fs (set_freemapdirty true (set_freemap (Some b) (s_fs s))) s) (set_w_bit i v w).
Proof using. intros [H1 H2 H3 H4 H5 H6 H7] Hwf Hle Hnb Hi Hbit Hover. split; try done. exists b. by split_and!. Qed.

Lemma wp_bfree s w i Q :
  shows R s w → 0 ≤ i < r_nblocks R → w_bit w i = true → (∀ s', shows R s' (set_w_bit i false w) → Q tt s') → wp (sfs_bfree i) Q s.
Proof using.
  intros Hs Hi Hset HQ. destruct (sh_map _ _ _ Hs) as (b & Hb & (Hwf & [Hle Hnb] & Hbit) & Hover).
  pose proof (bitmap_unmark_run b i Hwf ltac:(lia)) as Hrun. rewrite Hbit, Hset in Hrun by lia. destruct Hrun as (b' & Hrun & Hwf' & Hn & Hb').
  unfold sfs_bfree. apply wp_bind. eapply wp_on_freemap; [done|done|]. apply wp_modify. apply HQ. cbn.
  apply (shows_map s w b' i false); [done|done|lia|congruence|done| |].
  - intros j Hj. rewrite Hb' by lia. rewrite Hbit by lia. unfold set_bit_at. case_decide; [by rewrite bool_decide_true|by rewrite bool_decide_false].
  - intros j Hj. rewrite Hb', Hover by lia. rewrite bool_decide_false by lia. done.
Qed.

(** Allocation clears the block it returns. *)
Lemma wp_balloc s w Q :
  shows R s w →
  (∀ s' n, shows R s' w → (∀ j, 0 ≤ j < r_nblocks R → w_bit w j = true) → Q (ENOSPC, n) s') →
  (∀ s' i, 0 ≤ i < r_nblocks R → w_bit w i = false →
    shows R s' (set_w_disk (<[Z.to_nat i := zeros]> (w_disk w)) (set_w_bit i true w)) → Q (0, i) s') →
  wp sfs_balloc Q s.
Proof using.
  intros Hs Hfull HQ. destruct (sh_map _ _ _ Hs) as (b & Hb & (Hwf & [Hle Hnb] & Hbit) & Hover). unfold sfs_balloc. apply wp_bind.
  destruct (bitmap_alloc_run b Hwf) as [[Hrun Hall]|(i & b' & Hi & Hfree & _ & Hrun & Hwf' & Hn & Hb')].
  - eapply wp_on_freemap; [done|done|]. cbn [fst snd]. change (ENOSPC =? 0) with false. cbn [negb from_option id]. apply wp_ret. apply Hfull.
    + destruct Hs as [H1 H2 H3 H4 H5 H6 H7]. split; try done. by exists b.
    + intros j Hj. rewrite <-Hbit by lia. apply Hall. lia.
  - assert (i < r_nblocks R) as Hlt by (destruct (decide (i < r_nblocks R)); [done|]; rewrite Hover in Hfree by lia; done).
    eapply wp_on_freemap; [done|done|]. cbn [fst snd Z.eqb negb from_option id]. apply wp_bind, wp_modify. apply wp_bind, wp_gets. cbn [s_fs set_s_fs sfs_sb set_freemap set_freemapdirty].
    assert (sb_nblocks (sfs_sb (s_fs s)) = r_nblocks R) as -> by (by rewrite <-(sh_rest _ _ _ Hs)). rewrite (proj2 (Z.leb_gt (r_nblocks R) i)) by lia.
    assert (shows R (set_s_fs (set_freemapdirty true (set_freemap (Some b') (s_fs s))) s) (set_w_bit i true w)) as Hs'.
    { apply shows_map; [done|done|lia|congruence|lia| |].
      - intros j Hj. rewrite Hb' by lia. rewrite Hbit by lia. unfold set_bit_at. case_decide; [by rewrite bool_decide_true|by rewrite bool_decide_false].
      - intros j Hj. rewrite Hb', Hover by lia. by rewrite orb_true_r. }
    apply wp_bind. pose proof (sh_size _ _ _ Hs). eapply wp_writeblock; [exact Hs'|cbn; lia|done|]. intros s'' Hs''. cbn [Z.eqb negb].
    apply wp_bind, wp_ret, wp_ret. apply HQ; [lia|by rewrite <-Hbit by lia|done].
Qed.

(** Vnodes *)
Lemma wp_get_sv s w sv x Q : shows R s w → w_nodes w !! sv = Some x → Q x s → wp (get_sv sv) Q s.
Proof using. intros Hs Hx HQ. unfold get_sv. apply wp_bind, wp_gets. rewrite (sh_nodes _ _ _ Hs), Hx. by apply wp_ret. Qed.

Lemma wp_upd_sv s w sv x f Q :
  shows R s w → w_nodes w !! sv = Some x → (∀ s', shows R s' (set_w_nodes (<[sv := f x]> (w_nodes w)) w) → Q tt s') → wp (upd_sv sv f) Q s.
Proof using.
  intros Hs Hx HQ. unfold upd_sv. apply wp_bind. eapply wp_get_sv; [done|done|]. apply wp_modify, HQ.
  destruct Hs as [H1 H2 H3 H4 H5 H6 H7]. split; try done. cbn. by rewrite H5.
Qed.
End block_steps.

(** ** The big lock *)

(** A state in which the lock can be taken, to get a state that [R] and [w] show *)
Definition mounted (R : srest) (s : sfs_st) (w : sview) : Prop := shows R (set_depth (vfs_biglock_depth s + 1) s) w.

Definition deeper (R : srest) : srest :=
  mk_rest (r_sb R) (r_superdirty R) (r_device R) (r_vnodes R) (r_next R) (r_mallocs R) (r_depth R + 1).

Section lock.
Context (R : srest).

Lemma wp_acquire s w Q : mounted R s w → (∀ s', shows R s' w → Q tt s') → wp vfs_biglock_acquire Q s.
Proof using. intros Hs HQ. apply wp_modify. by apply HQ. Qed.

Lemma wp_release s w Q : shows R s w → (∀ s', mounted R s' w → Q tt s') → wp vfs_biglock_release Q s.
Proof using.
  intros Hs HQ. destruct (shows_depth R s w Hs) as [Hd Hpos]. apply wp_bind, wp_gets, wp_bind, wp_kassert. split; [apply Z.ltb_lt; lia|].
  apply wp_modify, HQ. unfold mounted. cbn. by replace (vfs_biglock_depth s - 1 + 1) with (vfs_biglock_depth s) by lia; destruct s.
Qed.

(** Taking the lock again *)
Lemma mounted_deeper s w : shows R s w → mounted (deeper R) s w.
Proof using. intros [H1 H2 H3 H4 H5 H6 H7]. split; try done; [by rewrite <-H1|cbn; lia]. Qed.

Lemma deeper_mounted s w : mounted (deeper R) s w → 0 < r_depth R → shows R s w.
Proof using.
  intros [H1 H2 H3 H4 H5 H6 H7] Hpos. split; try done. unfold rest_of, deeper in H1. cbn in H1. injection H1 as E1 E2 E3 E4 E5 E6 E7.
  destruct R as [sb sd dv vn nx ml dp]. cbn in *. unfold rest_of. f_equal; (done || lia).
Qed.
End lock.
