(* ===== verification/SfsOk.v ===== *)
(** * The invariant of a volume

    Each use of a block has a role; a block has at most one role and is marked
    in the free map when it has one.  The lemmas say what allocating, freeing
    and writing a block do to the invariant and to the files. *)

From S2P Require Import Prelude Machine Spinlock Pt Kernel Xfer Lhd Bitmap Array Sfs SfsInv.

(** ** Blocks of files *)

Definition sector (D : list (list Z)) (n : Z) : list Z := default zeros (D !! Z.to_nat n).
Definition ind_words (D : list (list Z)) (i : sfs_dinode) : list Z := words_of 128 (sector D (sfi_indirect i)).

(** The number of block [k] of a file, 0 when there is none *)
Definition bmap_of (D : list (list Z)) (i : sfs_dinode) (k : nat) : Z :=
  if (k <? 15)%nat then default 0 (sfi_direct i !! k)
  else if (k <? 143)%nat then if sfi_indirect i =? 0 then 0 else default 0 (ind_words D i !! (k - 15)%nat)
  else 0.

Definition fblock (D : list (list Z)) (i : sfs_dinode) (k : nat) : list Z :=
  if bmap_of D i k =? 0 then zeros else sector D (bmap_of D i k).

(** ** Roles *)

(** Superblock and free map, an inode, an indirect block, block [k] of a file *)
Inductive role : Type := RMeta (n : Z) | RInode (ino : Z) | RInd (ino : Z) | RData (ino : Z) (k : nat).
#[export] Instance role_eq_dec : EqDecision role.
Proof. solve_decision. Defined.

Definition nonzero (b : Z) : option Z := if b =? 0 then None else Some b.

Definition uses (nb : Z) (D : list (list Z)) (I : gmap Z sfs_dinode) (r : role) : option Z :=
  match r with
  | RMeta n => if decide (n = 0 ∨ 2 ≤ n < 2 + SFS_FREEMAPBLOCKS nb) then Some n else None
  | RInode ino => _ ← I !! ino; Some ino
  | RInd ino => i ← I !! ino; nonzero (sfi_indirect i)
  | RData ino k => i ← I !! ino; nonzero (bmap_of D i k)
  end.

Record use_ok (nb : Z) (f : Z → bool) (u : role → option Z) : Prop := {
  uo_range r b : u r = Some b → 0 ≤ b < nb;
  uo_marked r b : u r = Some b → f b = true;
  uo_inj r r' b : u r = Some b → u r' = Some b → r = r'
}.

Lemma use_ext nb f u u' : (∀ r, u' r = u r) → use_ok nb f u → use_ok nb f u'.
Proof. intros He [H1 H2 H3]. split; [intros r b; rewrite He; apply H1|intros r b; rewrite He; apply H2|intros r r' b; rewrite !He; apply H3]. Qed.

Lemma use_add nb f u u' r0 b : use_ok nb f u → f b = false → 0 ≤ b < nb →
  (∀ r, u' r = if decide (r = r0) then Some b else u r) → use_ok nb (set_bit_at b true f) u'.
Proof.
  intros [H1 H2 H3] Hf Hb He.
  assert (∀ r, u r ≠ Some b) as Hfresh by (intros r Hr; apply H2 in Hr; congruence).
  split.
  - intros r c. rewrite He. case_decide; [by intros [= <-]|apply H1].
  - intros r c. rewrite He. unfold set_bit_at. case_decide; [by intros [= <-]; rewrite decide_True|]. intros Hr. case_decide; [done|by eapply H2].
  - intros r r' c. rewrite !He. do 2 case_decide; simplify_eq; try done; intros Hr Hr'; simplify_eq; [by destruct (Hfresh r')|by destruct (Hfresh r)|by eapply H3].
Qed.

Lemma use_del nb f u u' r0 b : use_ok nb f u → u r0 = Some b →
  (∀ r, u' r = if decide (r = r0) then None else u r) → use_ok nb (set_bit_at b false f) u'.
Proof.
  intros [H1 H2 H3] H0 He. split.
  - intros r c. rewrite He. case_decide; [done|apply H1].
  - intros r c. rewrite He. unfold set_bit_at. case_decide; [done|]. intros Hr. case_decide; [|by eapply H2]. subst c. by pose proof (H3 _ _ _ Hr H0).
  - intros r r' c. rewrite !He. do 2 case_decide; try done. apply H3.
Qed.

(** ** The invariant *)

Record inode_wf (i : sfs_dinode) : Prop := {
  iw_size : 0 ≤ sfi_size i < 2 ^ 32;
  iw_type : 0 ≤ sfi_type i < 2 ^ 16;
  iw_links : 0 ≤ sfi_linkcount i < 2 ^ 16;
  iw_direct : length (sfi_direct i) = 15%nat;
  iw_waste : length (sfi_waste i) = 110%nat ∧ Forall (λ x, 0 ≤ x < 2 ^ 32) (sfi_waste i)
}.

(** No vnode of inode [ino] has changes that are not on disk. *)
Definition clean (nodes : gmap Z sfs_vnode) (ino : Z) : Prop := ∀ sv x, nodes !! sv = Some x → sv_ino x = ino → sv_dirty x = false.

(** The free map in its blocks *)
Definition map_data (nb : Z) (D : list (list Z)) : list Z := concat ((λ j, sector D (SFS_FREEMAP_START + j)) <$> seqZ 0 (SFS_FREEMAPBLOCKS nb)).

(** The superblock, and the free map when it has no changes in memory *)
Record meta_ok (nb : Z) (D : list (list Z)) (f : Z → bool) (dirty : bool) : Prop := {
  mo_super : sb_magic (sb_of (sector D SFS_SUPER_BLOCK)) = SFS_MAGIC ∧ sb_nblocks (sb_of (sector D SFS_SUPER_BLOCK)) = nb;
  mo_map : dirty = false → let b := mk_bitmap (SFS_FREEMAPBITS nb) (map_data nb D) in bm_wf b ∧ ∀ j, 0 ≤ j < nbits b → bit b j = f j
}.

Lemma meta_frame nb D f dm D' f' dm' : meta_ok nb D f dm → (∀ n b, uses nb D ∅ (RMeta n) = Some b → sector D' b = sector D b) →
  (dm' = false → dm = false ∧ ∀ b, f' b = f b) → meta_ok nb D' f' dm'.
Proof.
  intros [H1 H2] Hs Hd. assert (sector D' SFS_SUPER_BLOCK = sector D SFS_SUPER_BLOCK) as E0 by (apply (Hs 0); cbn; by rewrite decide_True by auto). split; [by rewrite E0|].
  intros [-> Hf]%Hd b. specialize (H2 eq_refl). assert (map_data nb D' = map_data nb D) as Em.
  { unfold map_data. f_equal. apply list_fmap_ext. intros k j [-> Hj]%lookup_seqZ. unfold SFS_FREEMAP_START. apply (Hs (2 + (0 + Z.of_nat k))). cbn. by rewrite decide_True by lia. }
  unfold b. rewrite Em. split; [apply H2|]. intros j Hj. rewrite Hf. by apply H2.
Qed.

Record fs_ok (nb : Z) (w : sview) (I : gmap Z sfs_dinode) : Prop := {
  ok_use : use_ok nb (w_bit w) (uses nb (w_disk w) I);
  ok_node sv x : w_nodes w !! sv = Some x → I !! sv_ino x = Some (sv_i x);
  ok_one sv sv' x x' : w_nodes w !! sv = Some x → w_nodes w !! sv' = Some x' → sv_ino x = sv_ino x' → sv = sv';
  ok_synced ino i : I !! ino = Some i → clean (w_nodes w) ino → dinode_of (sector (w_disk w) ino) = i;
  ok_inode ino i : I !! ino = Some i → inode_wf i;
  ok_sectors : Forall (λ s, length s = 512%nat) (w_disk w);
  ok_size : 0 ≤ nb ≤ Z.of_nat (length (w_disk w)) ∧ nb < 2 ^ 31;
  ok_meta : meta_ok nb (w_disk w) (w_bit w) (w_mapdirty w)
}.

(** The files are the same: attributes and blocks. *)
Record same_inode (D D' : list (list Z)) (i i' : sfs_dinode) : Prop := {
  si_size : sfi_size i' = sfi_size i;
  si_type : sfi_type i' = sfi_type i;
  si_links : sfi_linkcount i' = sfi_linkcount i;
  si_block k : fblock D' i' k = fblock D i k
}.
Definition same_files (D : list (list Z)) (I : gmap Z sfs_dinode) (D' : list (list Z)) (I' : gmap Z sfs_dinode) : Prop :=
  ∀ ino, match I !! ino, I' !! ino with
         | Some i, Some i' => same_inode D D' i i'
         | None, None => True
         | _, _ => False
         end.

Lemma same_inode_refl D i : same_inode D D i i.
Proof. by split. Qed.
Lemma same_inode_trans D1 D2 D3 i1 i2 i3 : same_inode D1 D2 i1 i2 → same_inode D2 D3 i2 i3 → same_inode D1 D3 i1 i3.
Proof. intros [H1 H2 H3 H4] [K1 K2 K3 K4]. split; [congruence..|]. intros k. by rewrite K4. Qed.
Lemma same_files_refl D I : same_files D I D I.
Proof. intros ino. destruct (I !! ino); [apply same_inode_refl|done]. Qed.
Lemma same_files_trans D1 I1 D2 I2 D3 I3 : same_files D1 I1 D2 I2 → same_files D2 I2 D3 I3 → same_files D1 I1 D3 I3.
Proof.
  intros H1 H2 ino. specialize (H1 ino). specialize (H2 ino). destruct (I1 !! ino), (I2 !! ino), (I3 !! ino); try done. by eapply same_inode_trans.
Qed.

Lemma nonzero_Some b c : nonzero b = Some c ↔ b = c ∧ c ≠ 0.
Proof. unfold nonzero. destruct (Z.eqb_spec b 0); naive_solver. Qed.

Lemma uses_ind nb D I ino b : uses nb D I (RInd ino) = Some b ↔ ∃ i, I !! ino = Some i ∧ sfi_indirect i = b ∧ b ≠ 0.
Proof. cbn. rewrite bind_Some. by setoid_rewrite nonzero_Some. Qed.
Lemma uses_data nb D I ino k b : uses nb D I (RData ino k) = Some b ↔ ∃ i, I !! ino = Some i ∧ bmap_of D i k = b ∧ b ≠ 0.
Proof. cbn. rewrite bind_Some. by setoid_rewrite nonzero_Some. Qed.
Lemma uses_inode nb D I ino b : uses nb D I (RInode ino) = Some b ↔ is_Some (I !! ino) ∧ b = ino.
Proof. cbn. destruct (I !! ino); cbn; naive_solver. Qed.

(** ** Sectors *)

Lemma sector_insert_eq D n bs : 0 ≤ n < Z.of_nat (length D) → sector (<[Z.to_nat n := bs]> D) n = bs.
Proof. intros Hn. unfold sector. rewrite list_lookup_insert_eq by lia. done. Qed.
Lemma sector_insert_ne D n m bs : 0 ≤ n → 0 ≤ m → n ≠ m → sector (<[Z.to_nat n := bs]> D) m = sector D m.
Proof. intros Hn Hm Hne. unfold sector. rewrite list_lookup_insert_ne by lia. done. Qed.
Lemma sector_lookup D n : 0 ≤ n < Z.of_nat (length D) → D !! Z.to_nat n = Some (sector D n).
Proof. intros Hn. unfold sector. destruct (lookup_lt_is_Some_2 D (Z.to_nat n) ltac:(lia)) as [s ->]. done. Qed.

Lemma bmap_frame D i n bs k : 0 ≤ n → 0 ≤ sfi_indirect i → (sfi_indirect i ≠ 0 → n ≠ sfi_indirect i) →
  bmap_of (<[Z.to_nat n := bs]> D) i k = bmap_of D i k.
Proof.
  intros Hn Hi Hne. unfold bmap_of, ind_words. destruct (k <? 15)%nat; [done|]. destruct (k <? 143)%nat; [|done].
  destruct (Z.eqb_spec (sfi_indirect i) 0); [done|]. by rewrite sector_insert_ne by auto.
Qed.

Lemma fblock_frame D i n bs k : 0 ≤ n → 0 ≤ sfi_indirect i → (sfi_indirect i ≠ 0 → n ≠ sfi_indirect i) →
  0 ≤ bmap_of D i k → (bmap_of D i k ≠ 0 → n ≠ bmap_of D i k) → fblock (<[Z.to_nat n := bs]> D) i k = fblock D i k.
Proof.
  intros Hn Hi Hne Hb Hnb. unfold fblock. rewrite bmap_frame by done. destruct (Z.eqb_spec (bmap_of D i k) 0); [done|]. by apply sector_insert_ne; auto.
Qed.

Section invariant.
Context (nb : Z) (w : sview) (I : gmap Z sfs_dinode) (Hok : fs_ok nb w I).
Abbreviation D := (w_disk w).

Lemma use_range r b : uses nb D I r = Some b → 0 ≤ b < nb.
Proof using Hok. apply (uo_range _ _ _ (ok_use _ _ _ Hok)). Qed.
Lemma use_differ r r' b b' : uses nb D I r = Some b → uses nb D I r' = Some b' → r ≠ r' → b ≠ b'.
Proof using Hok. intros H1 H2 Hne ->. by apply Hne, (uo_inj _ _ _ (ok_use _ _ _ Hok) r r' b'). Qed.
Lemma use_free r b b' : uses nb D I r = Some b → w_bit w b' = false → b ≠ b'.
Proof using Hok. intros H1 H2 ->. apply (uo_marked _ _ _ (ok_use _ _ _ Hok)) in H1. congruence. Qed.

Lemma inode_range ino i : I !! ino = Some i → 0 ≤ ino < nb.
Proof using Hok. intros Hi. apply (use_range (RInode ino)). cbn. by rewrite Hi. Qed.
Lemma ind_range ino i : I !! ino = Some i → 0 ≤ sfi_indirect i < nb.
Proof using Hok.
  intros Hi. destruct (decide (sfi_indirect i = 0)) as [->|Hne].
  - pose proof (inode_range _ _ Hi). lia.
  - apply (use_range (RInd ino)). cbn. rewrite Hi. cbn. by apply nonzero_Some.
Qed.
Lemma bmap_range ino i k : I !! ino = Some i → 0 ≤ bmap_of D i k < nb.
Proof using Hok.
  intros Hi. destruct (decide (bmap_of D i k = 0)) as [->|Hne].
  - pose proof (inode_range _ _ Hi). lia.
  - apply (use_range (RData ino k)). cbn. rewrite Hi. cbn. by apply nonzero_Some.
Qed.

Lemma sector_length n : length (sector D n) = 512%nat.
Proof using Hok.
  unfold sector. destruct (D !! Z.to_nat n) as [s|] eqn:E; [|done]. cbn. by eapply (Forall_lookup_1 _ _ _ _ (ok_sectors _ _ _ Hok)).
Qed.
Lemma fblock_length i k : length (fblock D i k) = 512%nat.
Proof using Hok. unfold fblock. destruct (_ =? 0); [done|apply sector_length]. Qed.

(** Blocks that hold neither the superblock nor the free map *)
Lemma meta_write r b data f' dm' : uses nb D I r = Some b → (∀ n, r ≠ RMeta n) → (dm' = false → w_mapdirty w = false ∧ ∀ c, f' c = w_bit w c) →
  meta_ok nb (<[Z.to_nat b := data]> D) f' dm'.
Proof using Hok.
  intros Hr Hne Hd. eapply meta_frame; [apply (ok_meta _ _ _ Hok)| |done]. intros n c Hc. change (uses nb D I (RMeta n) = Some c) in Hc.
  pose proof (use_range _ _ Hr). pose proof (use_range _ _ Hc). apply sector_insert_ne; [lia|lia|]. apply (use_differ r (RMeta n)); [done|done|apply Hne].
Qed.
Lemma meta_clear b data f' : w_bit w b = false → 0 ≤ b → meta_ok nb (<[Z.to_nat b := data]> D) f' true.
Proof using Hok.
  intros Hf Hb. eapply meta_frame; [apply (ok_meta _ _ _ Hok)| |done]. intros n c Hc. change (uses nb D I (RMeta n) = Some c) in Hc.
  pose proof (use_range _ _ Hc). apply sector_insert_ne; [lia|lia|]. apply not_eq_sym. by apply (use_free (RMeta n)).
Qed.

(** *** Writing a block of a file *)

Lemma write_data_ok ino i k data : I !! ino = Some i → bmap_of D i k ≠ 0 → length data = 512%nat →
  let D' := <[Z.to_nat (bmap_of D i k) := data]> D in
  fs_ok nb (set_w_disk D' w) I ∧
  ∀ ino' i' k', I !! ino' = Some i' → fblock D' i' k' = if decide ((ino', k') = (ino, k)) then data else fblock D i' k'.
Proof using Hok.
  intros Hi Hb Hlen D'. set (b := bmap_of D i k) in *.
  assert (uses nb D I (RData ino k) = Some b) as Hu by (apply uses_data; eauto).
  pose proof (use_range _ _ Hu) as Hr. pose proof (ok_size _ _ _ Hok) as [Hsz _].
  assert (∀ ino' i', I !! ino' = Some i' → ∀ k', bmap_of D' i' k' = bmap_of D i' k') as Hmap.
  { intros ino' i' Hi' k'. apply bmap_frame; [lia|by eapply ind_range|]. intros Hne.
    apply (use_differ (RData ino k) (RInd ino')); [done|apply uses_ind; eauto|done]. }
  split.
  - destruct Hok as [H1 H2 H3 H4 H5 H6 H7 H8]. split; cbn; try done.
    + eapply use_ext; [|exact H1]. intros [m|j|j|j k']; try done. cbn. destruct (I !! j) as [i'|] eqn:E; [|done]. cbn. by rewrite (Hmap _ _ E).
    + intros j i' Hj Hc. rewrite <-(H4 j i' Hj Hc). f_equal. pose proof (inode_range _ _ Hj). apply sector_insert_ne; [lia|lia|].
      apply (use_differ (RData ino k) (RInode j)); [done|apply uses_inode; eauto|done].
    + by apply Forall_insert.
    + unfold D'. by rewrite length_insert.
    + by apply (meta_write (RData ino k)).
  - intros ino' i' k' Hi'. case_decide as E.
    + injection E as -> ->. rewrite Hi in Hi'. injection Hi' as <-. unfold fblock. rewrite (Hmap _ _ Hi). fold b.
      destruct (Z.eqb_spec b 0); [done|]. apply sector_insert_eq. lia.
    + apply fblock_frame; [lia|by eapply ind_range| |by eapply bmap_range|].
      * intros Hne. apply (use_differ (RData ino k) (RInd ino')); [done|apply uses_ind; eauto|done].
      * intros Hne. apply (use_differ (RData ino k) (RData ino' k')); [done|apply uses_data; eauto|congruence].
Qed.

(** *** A new block *)

Lemma free_nonzero b : w_bit w b = false → b ≠ 0.
Proof using Hok. intros Hb. apply not_eq_sym, (use_free (RMeta 0)); [|done]. cbn. by rewrite decide_True by auto. Qed.

(** Clearing a free block changes no file. *)
Lemma clear_free b : w_bit w b = false → 0 ≤ b < nb →
  (∀ ino i k, I !! ino = Some i → bmap_of (<[Z.to_nat b := zeros]> D) i k = bmap_of D i k) ∧
  (∀ ino i k, I !! ino = Some i → fblock (<[Z.to_nat b := zeros]> D) i k = fblock D i k) ∧
  (∀ ino i, I !! ino = Some i → sector (<[Z.to_nat b := zeros]> D) ino = sector D ino).
Proof using Hok.
  intros Hf Hb. split_and!.
  - intros ino i k Hi. apply bmap_frame; [lia|by eapply ind_range|]. intros Hne. apply not_eq_sym, (use_free (RInd ino)); [|done]. apply uses_ind; eauto.
  - intros ino i k Hi. apply fblock_frame; [lia|by eapply ind_range| |by eapply bmap_range|].
    + intros Hne. apply not_eq_sym, (use_free (RInd ino)); [|done]. apply uses_ind; eauto.
    + intros Hne. apply not_eq_sym, (use_free (RData ino k)); [|done]. apply uses_data; eauto.
  - intros ino i Hi. pose proof (inode_range _ _ Hi). apply sector_insert_ne; [lia|lia|].
    apply not_eq_sym, (use_free (RInode ino)); [|done]. apply uses_inode; eauto.
Qed.

(** A vnode whose inode becomes [i'], with the disk [D'] and the free map [f'] *)
Lemma node_upd_ok sv x i' D' f' dm :
  w_nodes w !! sv = Some x → inode_wf i' → use_ok nb f' (uses nb D' (<[sv_ino x := i']> I)) →
  (∀ j ij, I !! j = Some ij → j ≠ sv_ino x → sector D' j = sector D j) → Forall (λ s, length s = 512%nat) D' → length D' = length D → meta_ok nb D' f' dm →
  fs_ok nb (mk_view D' f' dm (<[sv := set_sv_dirty true (set_sv_i i' x)]> (w_nodes w))) (<[sv_ino x := i']> I).
Proof using Hok.
  intros Hx Hwf Huse Hsec Hlen Hsize Hmeta. pose proof Hok as [H1 H2 H3 H4 H5 H6 H7 H8]. split; cbn.
  - done.
  - intros p y Hy. destruct (decide (p = sv)) as [->|Hne].
    + rewrite lookup_insert_eq in Hy. injection Hy as <-. cbn. by rewrite lookup_insert_eq.
    + rewrite lookup_insert_ne in Hy by done. rewrite lookup_insert_ne; [by apply (H2 p)|]. intros E. by apply Hne, (H3 p sv y x).
  - assert (∀ p y, <[sv := set_sv_dirty true (set_sv_i i' x)]> (w_nodes w) !! p = Some y → ∃ y', w_nodes w !! p = Some y' ∧ sv_ino y' = sv_ino y) as Hpre.
    { intros p y. destruct (decide (p = sv)) as [->|Hne]; [rewrite lookup_insert_eq; intros [= <-]; by exists x|rewrite lookup_insert_ne by done; eauto]. }
    intros p q y z (y' & Hy & Ey)%Hpre (z' & Hz & Ez)%Hpre E. apply (H3 p q y' z'); [done|done|congruence].
  - intros j i Hj Hc. destruct (decide (j = sv_ino x)) as [->|Hne].
    + specialize (Hc sv (set_sv_dirty true (set_sv_i i' x))). rewrite lookup_insert_eq in Hc. by specialize (Hc eq_refl eq_refl).
    + rewrite lookup_insert_ne in Hj by done. rewrite (Hsec _ _ Hj Hne). apply H4; [done|]. intros p y Hy E. apply (Hc p y); [|done].
      rewrite lookup_insert_ne; [done|]. intros <-. rewrite Hx in Hy. by injection Hy as <-.
  - intros j i. destruct (decide (j = sv_ino x)) as [->|Hne]; [rewrite lookup_insert_eq; by intros [= <-]|rewrite lookup_insert_ne by done; apply H5].
  - done.
  - by rewrite Hsize.
  - done.
Qed.

(** Block [b] was cleared and has the role [r0]. *)
Lemma alloc_inode_ok sv x i' b r0 :
  w_nodes w !! sv = Some x → w_bit w b = false → 0 ≤ b < nb → inode_wf i' →
  let D' := <[Z.to_nat b := zeros]> D in
  let I' := <[sv_ino x := i']> I in
  (∀ r, uses nb D' I' r = if decide (r = r0) then Some b else uses nb D I r) →
  fs_ok nb (mk_view D' (set_bit_at b true (w_bit w)) true (<[sv := set_sv_dirty true (set_sv_i i' x)]> (w_nodes w))) I'.
Proof using Hok.
  intros Hx Hf Hb Hwf D' I' Huse. destruct (clear_free b Hf Hb) as (_ & _ & Hsec). apply node_upd_ok; try done.
  - by apply (use_add nb _ (uses nb D I) _ r0); [apply (ok_use _ _ _ Hok)|..].
  - intros j ij Hj _. by eapply Hsec.
  - apply Forall_insert; [apply (ok_sectors _ _ _ Hok)|done].
  - unfold D'. by rewrite length_insert.
  - apply meta_clear; [done|lia].
Qed.

(** The attributes of an inode *)
Lemma set_attr_ok sv x i' :
  w_nodes w !! sv = Some x → inode_wf i' → sfi_direct i' = sfi_direct (sv_i x) → sfi_indirect i' = sfi_indirect (sv_i x) →
  fs_ok nb (set_w_nodes (<[sv := set_sv_dirty true (set_sv_i i' x)]> (w_nodes w)) w) (<[sv_ino x := i']> I) ∧
  ∀ k, fblock D i' k = fblock D (sv_i x) k.
Proof using Hok.
  intros Hx Hwf Hd Hi. assert (∀ k, bmap_of D i' k = bmap_of D (sv_i x) k) as Hm by (intros k; unfold bmap_of, ind_words; by rewrite Hd, Hi).
  pose proof (ok_node _ _ _ Hok sv x Hx) as Hin. split; [|intros k; unfold fblock; by rewrite Hm].
  apply (node_upd_ok sv x i' D (w_bit w) (w_mapdirty w)); try done; [|apply (ok_sectors _ _ _ Hok)|apply (ok_meta _ _ _ Hok)].
  eapply use_ext; [|apply (ok_use _ _ _ Hok)]. intros [n|j|j|j k]; cbn; [done|..]; (destruct (decide (j = sv_ino x)) as [->|Hne];
    [rewrite lookup_insert_eq, Hin; cbn; by rewrite ?Hi, ?Hm|by rewrite lookup_insert_ne]).
Qed.

(** The uses after an inode of the same files got block [b] in role [r0] *)
Lemma uses_alloc ino i i' b r0 :
  I !! ino = Some i → w_bit w b = false → 0 ≤ b < nb →
  (∀ k, nonzero (bmap_of (<[Z.to_nat b := zeros]> D) i' k) = if decide (RData ino k = r0) then Some b else nonzero (bmap_of D i k)) →
  nonzero (sfi_indirect i') = (if decide (RInd ino = r0) then Some b else nonzero (sfi_indirect i)) →
  (∀ j k, r0 = RData j k → j = ino) → (∀ j, r0 = RInd j → j = ino) → (∀ n, r0 ≠ RMeta n) → (∀ n, r0 ≠ RInode n) →
  ∀ r, uses nb (<[Z.to_nat b := zeros]> D) (<[ino := i']> I) r = if decide (r = r0) then Some b else uses nb D I r.
Proof using Hok.
  intros Hi Hf Hb Hdata Hind E1 E2 E3 E4 r. destruct (clear_free b Hf Hb) as (Hmap & _ & _). destruct r as [n|j|j|j k]; cbn [uses].
  - destruct (decide (RMeta n = r0)) as [<-|]; [by destruct (E3 n)|done].
  - rewrite (decide_False (P := RInode j = r0)) by (intros <-; by eapply E4). destruct (decide (j = ino)) as [->|Hne]; [by rewrite lookup_insert_eq, Hi|by rewrite lookup_insert_ne].
  - destruct (decide (j = ino)) as [->|Hne]; [rewrite lookup_insert_eq, Hi; exact Hind|]. rewrite lookup_insert_ne by done.
    by rewrite decide_False by (intros <-; by apply Hne, E2).
  - destruct (decide (j = ino)) as [->|Hne]; [rewrite lookup_insert_eq, Hi; exact (Hdata k)|]. rewrite lookup_insert_ne by done.
    rewrite decide_False by (intros <-; by eapply Hne, E1). destruct (I !! j) as [ij|] eqn:Ej; [|done]. cbn. by rewrite (Hmap _ _ _ Ej).
Qed.

(** The other files, and the one whose inode changed *)
Lemma same_after_alloc ino i i' b :
  I !! ino = Some i → w_bit w b = false → 0 ≤ b < nb → same_inode D (<[Z.to_nat b := zeros]> D) i i' →
  same_files D I (<[Z.to_nat b := zeros]> D) (<[ino := i']> I).
Proof using Hok.
  intros Hi Hf Hb Hs j. destruct (clear_free b Hf Hb) as (_ & Hblk & _). destruct (decide (j = ino)) as [->|Hne].
  - by rewrite lookup_insert_eq, Hi.
  - rewrite lookup_insert_ne by done. destruct (I !! j) as [ij|] eqn:E; [|done]. split; try done. intros k. by eapply Hblk.
Qed.
End invariant.
