(* ===== verification/SfsBmap.v ===== *)
(** * Finding and allocating the blocks of a file

    [sfs_bmap] returns the block of a file, and when it is asked to, allocates
    the ones that are missing: the invariant and the contents of all files stay
    as they are. *)

From S2P Require Import Prelude Machine Spinlock Pt Kernel Xfer Lhd Bitmap Array Sfs SfsInv SfsOk.

Lemma words_zeros : words_of 128 zeros = replicate 128 0.
Proof. by vm_compute. Qed.

Lemma nonzero_of b : b ≠ 0 → nonzero b = Some b.
Proof. intros Hb. by apply nonzero_Some. Qed.

Section alloc.
Context (nb : Z) (w : sview) (I : gmap Z sfs_dinode) (Hok : fs_ok nb w I).
Abbreviation D := (w_disk w).
Context (sv : Z) (x : sfs_vnode) (Hx : w_nodes w !! sv = Some x).
Context (b : Z) (Hfree : w_bit w b = false) (Hb : 0 ≤ b < nb).
Abbreviation i := (sv_i x).
Abbreviation D' := (<[Z.to_nat b := zeros]> D).

(** The view after the vnode's inode became [i'] *)
Definition view_alloc (i' : sfs_dinode) : sview :=
  mk_view D' (set_bit_at b true (w_bit w)) true (<[sv := set_sv_dirty true (set_sv_i i' x)]> (w_nodes w)).

Lemma sector_new : sector D' b = zeros.
Proof using Hok Hb. pose proof (ok_size _ _ _ Hok). apply sector_insert_eq. lia. Qed.

Lemma alloc_direct_ok (k : nat) : (k < 15)%nat → bmap_of D i k = 0 →
  let i' := set_sfi_direct (<[k := b]> (sfi_direct i)) i in
  fs_ok nb (view_alloc i') (<[sv_ino x := i']> I) ∧ same_files D I D' (<[sv_ino x := i']> I) ∧ bmap_of D' i' k = b.
Proof using Hok Hx Hfree Hb.
  intros Hk H0 i'. pose proof (ok_node _ _ _ Hok sv x Hx) as Hi. pose proof (ok_inode _ _ _ Hok _ _ Hi) as [W1 W2 W3 W4 W5].
  destruct (clear_free nb w I Hok b Hfree Hb) as (Hmap & Hblk & _). pose proof (free_nonzero nb w I Hok b Hfree) as Hb0.
  assert (∀ k', bmap_of D' i' k' = if decide (k' = k) then b else bmap_of D i k') as Hm.
  { intros k'. rewrite <-(Hmap _ _ k' Hi). unfold bmap_of, i'. cbn [sfi_direct set_sfi_direct]. destruct (Nat.ltb_spec k' 15) as [Hlt|Hge].
    - case_decide as E; [subst; by rewrite list_lookup_insert_eq by lia|by rewrite list_lookup_insert_ne].
    - by rewrite decide_False by lia. }
  split_and!; [| |rewrite Hm; by rewrite decide_True].
  - apply (alloc_inode_ok nb w I Hok sv x i' b (RData (sv_ino x) k)); [done|done|done|by split; cbn; [..|by rewrite length_insert|]|].
    apply (uses_alloc nb w I Hok _ i); try done; [|naive_solver].
    intros k'. rewrite Hm. destruct (decide (k' = k)) as [->|Hne]; [rewrite decide_True by done; by apply nonzero_of|by rewrite decide_False by congruence].
  - apply (same_after_alloc nb w I Hok _ i); try done. split; try done. intros k'. unfold fblock at 1. rewrite Hm. case_decide as E.
    + subst k'. rewrite (proj2 (Z.eqb_neq b 0)) by done. rewrite sector_new. unfold fblock. by rewrite H0.
    + rewrite <-(Hblk _ _ k' Hi). unfold fblock. by rewrite (Hmap _ _ k' Hi).
Qed.

Lemma alloc_indirect_ok : sfi_indirect i = 0 →
  let i' := set_sfi_indirect b i in
  fs_ok nb (view_alloc i') (<[sv_ino x := i']> I) ∧ same_files D I D' (<[sv_ino x := i']> I) ∧ ∀ k, bmap_of D' i' k = bmap_of D i k.
Proof using Hok Hx Hfree Hb.
  intros H0 i'. pose proof (ok_node _ _ _ Hok sv x Hx) as Hi. pose proof (ok_inode _ _ _ Hok _ _ Hi) as [W1 W2 W3 W4 W5].
  destruct (clear_free nb w I Hok b Hfree Hb) as (Hmap & Hblk & _). pose proof (free_nonzero nb w I Hok b Hfree) as Hb0.
  assert (∀ k, bmap_of D' i' k = bmap_of D i k) as Hm.
  { intros k. unfold bmap_of, ind_words, i'. cbn [sfi_indirect sfi_direct set_sfi_indirect]. destruct (Nat.ltb_spec k 15); [done|].
    destruct (Nat.ltb_spec k 143); [|done]. rewrite H0, (proj2 (Z.eqb_neq b 0)), sector_new, words_zeros, lookup_replicate_2 by lia. done. }
  split_and!; [| |done].
  - apply (alloc_inode_ok nb w I Hok sv x i' b (RInd (sv_ino x))); [done|done|done|by split|].
    apply (uses_alloc nb w I Hok _ i); try done; [intros k; by rewrite Hm| |naive_solver]. cbn. rewrite decide_True by done. by apply nonzero_of.
  - apply (same_after_alloc nb w I Hok _ i); try done. split; try done. intros k. rewrite <-(Hblk _ _ k Hi). unfold fblock. by rewrite Hm, (Hmap _ _ k Hi).
Qed.

(** The words of an indirect block are numbers of blocks. *)
Lemma ind_words_range ino i0 : I !! ino = Some i0 → sfi_indirect i0 ≠ 0 → Forall (λ z, 0 ≤ z < 2 ^ 32) (ind_words D i0).
Proof using Hok.
  intros Hi Hne. apply Forall_lookup. intros j z Hj. pose proof (lookup_lt_Some _ _ _ Hj) as Hlt. unfold ind_words in Hlt. rewrite length_words_of in Hlt.
  pose proof (bmap_range nb w I Hok ino i0 (15 + j) Hi) as Hr. pose proof (ok_size _ _ _ Hok) as [_ Hnb].
  unfold bmap_of in Hr. rewrite (proj2 (Nat.ltb_ge (15 + j) 15)), (proj2 (Nat.ltb_lt (15 + j) 143)) in Hr by lia.
  rewrite (proj2 (Z.eqb_neq _ 0)) in Hr by done. replace (15 + j - 15)%nat with j in Hr by lia. rewrite Hj in Hr. cbn in Hr. lia.
Qed.

Lemma alloc_entry_ok (o : nat) : (o < 128)%nat → sfi_indirect i ≠ 0 → bmap_of D i (15 + o) = 0 →
  let c := sfi_indirect i in
  let D2 := <[Z.to_nat c := bytes_of (<[o := b]> (ind_words D i))]> D' in
  fs_ok nb (set_w_disk D2 (set_w_bit b true w)) I ∧ same_files D I D2 I ∧ bmap_of D2 i (15 + o) = b.
Proof using Hok Hx Hfree Hb.
  intros Ho Hc H0 c D2. pose proof (ok_node _ _ _ Hok sv x Hx) as Hi. pose proof (ok_size _ _ _ Hok) as [Hsz Hnb].
  destruct (clear_free nb w I Hok b Hfree Hb) as (Hmap & Hblk & Hsec). pose proof (free_nonzero nb w I Hok b Hfree) as Hb0.
  assert (uses nb D I (RInd (sv_ino x)) = Some c) as Hu by (apply uses_ind; eauto). pose proof (use_range nb w I Hok _ _ Hu) as Hcr.
  assert (b ≠ c) as Hbc by (apply not_eq_sym; by eapply use_free).
  assert (length (<[o := b]> (ind_words D i)) = 128%nat) as Hlen by (unfold ind_words; by len).
  assert (words_of 128 (sector D2 c) = <[o := b]> (ind_words D i)) as Hw.
  { unfold D2. rewrite sector_insert_eq by (rewrite length_insert; lia). rewrite <-Hlen at 1. rewrite <-(app_nil_r (bytes_of _)). apply words_bytes.
    apply Forall_insert; [by eapply ind_words_range|lia]. }
  assert (∀ j ij k, I !! j = Some ij → j ≠ sv_ino x → bmap_of D2 ij k = bmap_of D ij k) as Hother.
  { intros j ij k Hj Hne. unfold D2. rewrite bmap_frame; [by eapply Hmap|lia|by eapply ind_range|]. intros Hn.
    apply (use_differ nb w I Hok (RInd (sv_ino x)) (RInd j)); [done|apply uses_ind; eauto|congruence]. }
  assert (∀ k, bmap_of D2 i k = if decide (k = 15 + o)%nat then b else bmap_of D i k) as Hm.
  { intros k. unfold bmap_of at 1, ind_words. fold c. rewrite Hw, (proj2 (Z.eqb_neq c 0)) by done. unfold bmap_of, ind_words. fold c. rewrite (proj2 (Z.eqb_neq c 0)) by done.
    destruct (Nat.ltb_spec k 15); [by rewrite decide_False by lia|]. destruct (Nat.ltb_spec k 143); [|by rewrite decide_False by lia]. case_decide as E.
    - subst k. replace (15 + o - 15)%nat with o by lia. rewrite list_lookup_insert_eq by (unfold ind_words; len). done.
    - by rewrite list_lookup_insert_ne by lia. }
  assert (∀ n, 0 ≤ n → n ≠ b → n ≠ c → sector D2 n = sector D n) as Hsame.
  { intros n Hn E1 E2. unfold D2. rewrite !sector_insert_ne by (lia || done). done. }
  split_and!; [| |by rewrite Hm, decide_True].
  - pose proof Hok as [H1 H2 H3 H4 H5 H6 H7 H8]. split; cbn; try done.
    + apply (use_add nb _ (uses nb D I) _ (RData (sv_ino x) (15 + o))); [done|done|done|]. intros [n|j|j|j k]; cbn [uses].
      * by rewrite (decide_False (P := RMeta n = _)).
      * by rewrite decide_False.
      * by rewrite decide_False.
      * destruct (I !! j) as [ij|] eqn:Ej; [|by rewrite decide_False by congruence]. cbn. destruct (decide (j = sv_ino x)) as [->|Hne].
        -- rewrite Hi in Ej. injection Ej as <-. rewrite Hm. destruct (decide (k = 15 + o)%nat) as [->|Hk]; [rewrite decide_True by done; by apply nonzero_of|].
           by rewrite decide_False by (intros [= E]; lia).
        -- by rewrite (Hother _ _ _ Ej Hne), decide_False by congruence.
    + intros j ij Hj Hcl. rewrite <-(H4 j ij Hj Hcl). f_equal. pose proof (inode_range nb w I Hok _ _ Hj). apply Hsame; [lia| |].
      * by eapply (use_free nb w I Hok (RInode j)); [apply uses_inode; eauto|].
      * apply (use_differ nb w I Hok (RInode j) (RInd (sv_ino x))); [apply uses_inode; eauto|done|done].
    + apply Forall_insert; [by apply Forall_insert|]. by rewrite length_bytes_of, Hlen.
    + unfold D2. by rewrite !length_insert.
    + eapply meta_frame; [exact H8| |done]. intros n z Hz. change (uses nb D I (RMeta n) = Some z) in Hz. pose proof (use_range nb w I Hok _ _ Hz). apply Hsame; [lia| |].
      * by eapply (use_free nb w I Hok (RMeta n)).
      * by apply (use_differ nb w I Hok (RMeta n) (RInd (sv_ino x))).
  - intros j. destruct (I !! j) as [ij|] eqn:Ej; [|done]. split; try done. intros k. unfold fblock.
    assert (bmap_of D ij k ≠ 0 → sector D2 (bmap_of D ij k) = sector D (bmap_of D ij k)) as Hs.
    { intros Hne. apply Hsame; [by eapply bmap_range| |].
      - by eapply (use_free nb w I Hok (RData j k)); [apply uses_data; eauto|].
      - apply (use_differ nb w I Hok (RData j k) (RInd (sv_ino x))); [apply uses_data; eauto|done|done]. }
    destruct (decide (j = sv_ino x)) as [->|Hne].
    + rewrite Hi in Ej. injection Ej as <-. rewrite Hm. case_decide as E; [|destruct (Z.eqb_spec (bmap_of D i k) 0); auto].
      subst k. rewrite H0, (proj2 (Z.eqb_neq b 0)) by done. cbn [Z.eqb]. unfold D2. by rewrite sector_insert_ne, sector_new by (lia || done).
    + rewrite (Hother _ _ _ Ej Hne). destruct (Z.eqb_spec (bmap_of D ij k) 0); auto.
Qed.
End alloc.

(** ** [sfs_bmap] *)

(** The vnode [sv] changed from [x] to [x'] while the files stayed the same. *)
Record grown (w : sview) (I : gmap Z sfs_dinode) (sv : Z) (x : sfs_vnode) (w' : sview) (I' : gmap Z sfs_dinode) (x' : sfs_vnode) : Prop := {
  gr_files : same_files (w_disk w) I (w_disk w') I';
  gr_nodes : w_nodes w' = <[sv := x']> (w_nodes w);
  gr_inodes : I' = <[sv_ino x := sv_i x']> I;
  gr_ino : sv_ino x' = sv_ino x;
  gr_refs : vn_abs x' = vn_abs x
}.

Lemma grown_refl nb w I sv x : fs_ok nb w I → w_nodes w !! sv = Some x → grown w I sv x w I x.
Proof.
  intros Hok Hx. split; [apply same_files_refl|by rewrite insert_id| |done|done]. rewrite insert_id; [done|]. by apply (ok_node _ _ _ Hok sv).
Qed.

Lemma grown_trans w I sv x w1 I1 x1 w2 I2 x2 : grown w I sv x w1 I1 x1 → grown w1 I1 sv x1 w2 I2 x2 → grown w I sv x w2 I2 x2.
Proof.
  intros [H1 H2 H3 H4 H5] [K1 K2 K3 K4 K5]. split; [by eapply same_files_trans|by rewrite K2, H2, insert_insert_eq| |congruence|congruence].
  rewrite K3, H3, H4. by rewrite insert_insert_eq.
Qed.

Section bmap.
Context (R : srest).
Abbreviation nb := (r_nblocks R).

Lemma wp_hand_back s w I ino i k Q :
  shows R s w → fs_ok nb w I → I !! ino = Some i → (∀ s', shows R s' w → Q (0, bmap_of (w_disk w) i k) s') →
  wp (hand_back (bmap_of (w_disk w) i k)) Q s.
Proof using.
  intros Hs Hok Hi HQ. unfold hand_back. apply wp_bind. destruct (Z.eqb_spec (bmap_of (w_disk w) i k) 0) as [E|E]; cbn [negb].
  - apply wp_ret, wp_ret. rewrite E in HQ. rewrite E. by apply HQ.
  - pose proof (bmap_range nb w I Hok ino i k Hi). apply wp_bind. eapply wp_bused; [done|done|]. intros s' Hs'. apply wp_ret.
    rewrite (uo_marked _ _ _ (ok_use _ _ _ Hok) (RData ino k)) by (apply uses_data; eauto). by apply wp_ret, HQ.
Qed.

Lemma bmap_direct w I sv x fb : fs_ok nb w I → w_nodes w !! sv = Some x → 0 ≤ fb < 15 →
  sfi_direct (sv_i x) !! Z.to_nat fb = Some (bmap_of (w_disk w) (sv_i x) (Z.to_nat fb)).
Proof using.
  intros Hok Hx Hfb. pose proof (ok_inode _ _ _ Hok _ _ (ok_node _ _ _ Hok sv x Hx)) as Hwf. pose proof (iw_direct _ Hwf).
  unfold bmap_of. rewrite (proj2 (Nat.ltb_lt _ _)) by lia. destruct (lookup_lt_is_Some_2 (sfi_direct (sv_i x)) (Z.to_nat fb) ltac:(lia)) as [z Hz].
  by rewrite Hz.
Qed.

Lemma bmap_entry D i o : (o < 128)%nat → sfi_indirect i ≠ 0 → ind_words D i !! o = Some (bmap_of D i (15 + o)).
Proof using.
  intros Ho Hne. unfold bmap_of. rewrite (proj2 (Nat.ltb_ge (15 + o) 15)), (proj2 (Nat.ltb_lt (15 + o) 143)) by lia.
  rewrite (proj2 (Z.eqb_neq _ 0)) by done. replace (15 + o - 15)%nat with o by lia.
  destruct (lookup_lt_is_Some_2 (ind_words D i) o) as [z Hz]; [unfold ind_words; len|]. by rewrite Hz.
Qed.

Lemma wp_bmap_read s w I sv x fb Q :
  shows R s w → fs_ok nb w I → w_nodes w !! sv = Some x → 0 ≤ fb < 143 →
  (∀ s', shows R s' w → Q (0, bmap_of (w_disk w) (sv_i x) (Z.to_nat fb)) s') → wp (sfs_bmap sv fb false) Q s.
Proof using.
  intros Hs Hok Hx Hfb HQ. pose proof (ok_node _ _ _ Hok sv x Hx) as Hi. unfold sfs_bmap. apply wp_bind. eapply wp_held; [done|].
  apply wp_bind, wp_kassert. split; [done|]. apply wp_bind. eapply wp_get_sv; [done|done|]. unfold SFS_NDIRECT. destruct (Z.ltb_spec fb 15) as [Hlt|Hge].
  - apply wp_bind. rewrite (bmap_direct w I sv x fb Hok Hx) by lia. apply wp_ret. rewrite andb_false_r. by eapply wp_hand_back.
  - unfold SFS_DBPERIDB, SFS_NINDIRECT. rewrite (Z.div_small (fb - 15)), (Z.mod_small (fb - 15)) by lia. change (1 <=? 0) with false. cbn iota.
    assert (Z.to_nat fb = (15 + Z.to_nat (fb - 15))%nat) as Efb by lia. destruct (Z.eqb_spec (sfi_indirect (sv_i x)) 0) as [E|E]; cbn [andb negb].
    + apply wp_ret. replace 0 with (bmap_of (w_disk w) (sv_i x) (Z.to_nat fb)) at 2; [by apply HQ|].
      unfold bmap_of. rewrite (proj2 (Nat.ltb_ge _ _)) by lia. rewrite E. by destruct (_ <? 143)%nat.
    + pose proof (ind_range nb w I Hok _ _ Hi) as Hir. pose proof (ok_size _ _ _ Hok) as [Hsz _]. apply wp_bind, wp_bind.
      eapply wp_readblock; [done|lia|apply sector_lookup; lia|]. intros s' Hs'. apply wp_ret. cbn [fst snd Z.eqb negb]. fold (ind_words (w_disk w) (sv_i x)).
      apply wp_bind. rewrite bmap_entry by (done || lia). apply wp_ret. rewrite andb_false_r. rewrite <-Efb. by eapply wp_hand_back.
Qed.

(** With allocation: the block, or the disk is full, or the file is too big *)
Definition alloc_post (w : sview) (I : gmap Z sfs_dinode) (sv : Z) (x : sfs_vnode) (fb : Z) (r : Z * Z) (s' : sfs_st) : Prop :=
  ∃ w' I' x', shows R s' w' ∧ fs_ok nb w' I' ∧ grown w I sv x w' I' x' ∧ (r.1 ≠ 0 → bmap_of (w_disk w) (sv_i x) (Z.to_nat fb) = 0) ∧
    ((r.1 = 0 ∧ fb < 143 ∧ r.2 = bmap_of (w_disk w') (sv_i x') (Z.to_nat fb) ∧ r.2 ≠ 0) ∨
     (r.1 = ENOSPC ∧ (∀ j, 0 ≤ j < nb → w_bit w' j = true)) ∨ (r.1 = EFBIG ∧ 143 ≤ fb)).

Lemma alloc_post_grown w I sv x w1 I1 x1 fb r s' :
  grown w I sv x w1 I1 x1 → (∀ k, bmap_of (w_disk w1) (sv_i x1) k = bmap_of (w_disk w) (sv_i x) k) → alloc_post w1 I1 sv x1 fb r s' → alloc_post w I sv x fb r s'.
Proof using.
  intros Hg Hm (w2 & I2 & x2 & Hs & Hok & Hg' & H0 & H). exists w2, I2, x2. do 2 (split; [done|]). split; [by eapply grown_trans|]. split; [by rewrite <-Hm|done].
Qed.

Lemma grown_alloc w I sv x b i' :
  same_files (w_disk w) I (<[Z.to_nat b := zeros]> (w_disk w)) (<[sv_ino x := i']> I) →
  grown w I sv x (view_alloc w sv x b i') (<[sv_ino x := i']> I) (set_sv_dirty true (set_sv_i i' x)).
Proof using. intros Hsf. by split. Qed.

(** Block [15 + o], when there is an indirect block *)
Lemma wp_bmap_entry s w I sv x o :
  shows R s w → fs_ok nb w I → w_nodes w !! sv = Some x → (o < 128)%nat → sfi_indirect (sv_i x) ≠ 0 →
  wp (block ← deref (ind_words (w_disk w) (sv_i x) !! o);
      if (block =? 0) && true then
        r ← sfs_balloc;
        if negb (r.1 =? 0) then mret r
        else
          result ← sfs_writeblock (sfi_indirect (sv_i x)) (bytes_of (<[o := r.2]> (ind_words (w_disk w) (sv_i x))));
          if negb (result =? 0) then mret (result, 0) else hand_back r.2
      else hand_back block) (alloc_post w I sv x (Z.of_nat (15 + o))) s.
Proof using.
  intros Hs Hok Hx Ho Hne. pose proof (ok_node _ _ _ Hok sv x Hx) as Hi. pose proof (ok_size _ _ _ Hok) as [Hsz _].
  pose proof (ind_range nb w I Hok _ _ Hi) as Hir. apply wp_bind. rewrite bmap_entry by done. apply wp_ret. rewrite andb_true_r.
  pose proof (grown_refl nb w I sv x Hok Hx) as Hg0. destruct (Z.eqb_spec (bmap_of (w_disk w) (sv_i x) (15 + o)) 0) as [E|E].
  - apply wp_bind. eapply wp_balloc; [done| |].
    { intros s' n Hs' Hfull. cbn [fst snd]. change (ENOSPC =? 0) with false. apply wp_ret. exists w, I, x. rewrite Nat2Z.id. by auto 8. }
    intros s' b Hb Hfree Hs'. cbn [fst snd Z.eqb negb]. apply wp_bind.
    destruct (alloc_entry_ok nb w I Hok sv x Hx b Hfree Hb o Ho Hne E) as (Hok2 & Hsf & Hbm).
    assert (length (ind_words (w_disk w) (sv_i x)) = 128%nat) as Hlen by (unfold ind_words; len).
    eapply wp_writeblock; [exact Hs'|cbn; rewrite length_insert; lia|by rewrite length_bytes_of, length_insert, Hlen|].
    intros s2 Hs2. cbn [Z.eqb negb]. set (w2 := set_w_disk _ (set_w_bit b true w)) in Hok2. change (bmap_of (w_disk w2) (sv_i x) (15 + o) = b) in Hbm.
    rewrite <-Hbm. apply (wp_hand_back s2 w2 I (sv_ino x) (sv_i x) (15 + o)); [exact Hs2|exact Hok2|exact Hi|].
    intros s3 Hs3. exists w2, I, x. split; [exact Hs3|]. split; [exact Hok2|]. split; [split; [exact Hsf|cbn; by rewrite insert_id|by rewrite insert_id|done|done]|].
    split; [done|]. left. cbn [fst snd]. rewrite Nat2Z.id. split_and!; [done|lia|done|]. rewrite Hbm. exact (free_nonzero nb w I Hok b Hfree).
  - eapply (wp_hand_back s w I (sv_ino x)); [done|done|done|]. intros s' Hs'. exists w, I, x. do 3 (split; [done|]). split; [done|]. left. cbn [fst snd].
    rewrite Nat2Z.id. split_and!; (done || lia).
Qed.

Lemma wp_bmap_alloc s w I sv x fb :
  shows R s w → fs_ok nb w I → w_nodes w !! sv = Some x → 0 ≤ fb → wp (sfs_bmap sv fb true) (alloc_post w I sv x fb) s.
Proof using.
  intros Hs Hok Hx Hfb. pose proof (ok_node _ _ _ Hok sv x Hx) as Hi. pose proof (ok_size _ _ _ Hok) as [Hsz _]. pose proof (grown_refl nb w I sv x Hok Hx) as Hg0.
  unfold sfs_bmap. apply wp_bind. eapply wp_held; [done|]. apply wp_bind, wp_kassert. split; [done|]. apply wp_bind. eapply wp_get_sv; [done|done|].
  unfold SFS_NDIRECT. destruct (Z.ltb_spec fb 15) as [Hlt|Hge].
  - apply wp_bind. rewrite (bmap_direct w I sv x fb Hok Hx) by lia. apply wp_ret. rewrite andb_true_r.
    destruct (Z.eqb_spec (bmap_of (w_disk w) (sv_i x) (Z.to_nat fb)) 0) as [E|E].
    + apply wp_bind. eapply wp_balloc; [done| |].
      { intros s' n Hs' Hfull. cbn [fst snd]. change (ENOSPC =? 0) with false. apply wp_ret. exists w, I, x. by auto 8. }
      intros s' b Hb Hfree Hs'. cbn [fst snd Z.eqb negb]. apply wp_bind. destruct (alloc_direct_ok nb w I Hok sv x Hx b Hfree Hb (Z.to_nat fb) ltac:(lia) E) as (Hok2 & Hsf & Hbm).
      eapply wp_upd_sv; [exact Hs'|done|]. intros s2 Hs2. set (i' := set_sfi_direct _ (sv_i x)) in Hok2. set (w2 := view_alloc w sv x b i') in Hok2.
      change (bmap_of (w_disk w2) i' (Z.to_nat fb) = b) in Hbm. rewrite <-Hbm.
      apply (wp_hand_back s2 w2 (<[sv_ino x := i']> I) (sv_ino x) i' (Z.to_nat fb)); [exact Hs2|exact Hok2|by rewrite lookup_insert_eq|].
      intros s3 Hs3. exists w2, (<[sv_ino x := i']> I), (set_sv_dirty true (set_sv_i i' x)). split; [exact Hs3|]. split; [exact Hok2|]. split; [exact (grown_alloc w I sv x b i' Hsf)|].
      split; [done|]. left. cbn [fst snd]. split; [done|]. split; [lia|]. split; [done|]. rewrite Hbm. exact (free_nonzero nb w I Hok b Hfree).
    + eapply (wp_hand_back s w I (sv_ino x)); [done|done|done|]. intros s' Hs'. exists w, I, x. do 3 (split; [done|]). split; [done|]. left. cbn [fst snd]. split_and!; (done || lia).
  - unfold SFS_DBPERIDB, SFS_NINDIRECT. destruct (Z.leb_spec 1 ((fb - 15) / 128)) as [Hbig|Hsmall].
    { apply wp_ret. exists w, I, x. do 3 (split; [done|]). pose proof (Z.mul_div_le (fb - 15) 128). split; [|by right; right; split; [|lia]].
      intros _. unfold bmap_of. by rewrite (proj2 (Nat.ltb_ge (Z.to_nat fb) 15)), (proj2 (Nat.ltb_ge (Z.to_nat fb) 143)) by lia. }
    assert (fb < 143) as Hlt.
    { pose proof (Z.div_mod (fb - 15) 128 ltac:(lia)). pose proof (Z.mod_pos_bound (fb - 15) 128 ltac:(lia)). lia. }
    rewrite (Z.mod_small (fb - 15)) by lia. assert (fb = Z.of_nat (15 + Z.to_nat (fb - 15))) as Efb by lia. rewrite andb_false_r.
    apply wp_bind. destruct (Z.eqb_spec (sfi_indirect (sv_i x)) 0) as [E|E].
    + apply wp_bind. eapply wp_balloc; [done| |].
      { intros s' n Hs' Hfull. cbn [fst snd]. change (ENOSPC =? 0) with false. apply wp_ret. change (ENOSPC =? 0) with false. apply wp_ret. exists w, I, x. do 3 (split; [done|]). split; [|by auto].
        intros _. unfold bmap_of. rewrite (proj2 (Nat.ltb_ge (Z.to_nat fb) 15)), E by lia. by destruct (_ <? 143)%nat. }
      intros s' b Hb Hfree Hs'. cbn [fst snd Z.eqb negb]. destruct (alloc_indirect_ok nb w I Hok sv x Hx b Hfree Hb E) as (Hok2 & Hsf & Hbm).
      apply wp_bind. eapply wp_upd_sv; [exact Hs'|done|]. intros s2 Hs2. apply wp_ret. cbn [Z.eqb negb].
      set (x1 := set_sv_dirty true (set_sv_i (set_sfi_indirect b (sv_i x)) x)). pose proof (free_nonzero nb w I Hok b Hfree) as Hb0.
      assert (replicate 128 0 = ind_words (w_disk (view_alloc w sv x b (sv_i x1))) (sv_i x1)) as ->.
      { unfold ind_words. cbn [sfi_indirect sv_i x1 w_disk view_alloc set_sv_dirty set_sv_i set_sfi_indirect]. by rewrite sector_insert_eq, words_zeros by lia. }
      eapply wp_mono; [apply (wp_bmap_entry s2 (view_alloc w sv x b (sv_i x1)) (<[sv_ino x := sv_i x1]> I) sv x1 (Z.to_nat (fb - 15)));
        [exact Hs2|exact Hok2|by cbn; rewrite lookup_insert_eq|lia|done]|].
      intros r s3 Hpost. eapply alloc_post_grown; [by apply (grown_alloc w I sv x b (sv_i x1))|done|]. by rewrite Efb.
    + pose proof (ind_range nb w I Hok _ _ Hi) as Hir. apply wp_bind. eapply wp_readblock; [done|lia|apply sector_lookup; lia|]. intros s' Hs'. apply wp_ret.
      cbn [fst snd Z.eqb negb]. fold (ind_words (w_disk w) (sv_i x)).
      eapply wp_mono; [apply (wp_bmap_entry s' w I sv x (Z.to_nat (fb - 15))); (done || lia)|]. intros r s3 Hpost. by rewrite Efb.
Qed.
End bmap.
