(* ===== verification/SfsFile.v ===== *)
(** * Reading and writing files

    [raw] is byte [n] of a file, wherever its block is.  [sfs_io] is shown to
    read and write these bytes, for any transfer with the laws of [UioLaws]. *)

From S2P Require Import Prelude Machine Spinlock Pt Kernel Xfer Lhd Bitmap Array Sfs SfsInv SfsOk SfsBmap.

(** ** Bytes of files *)

Definition raw (D : list (list Z)) (i : sfs_dinode) (n : nat) : Z := default 0 (fblock D i (n / 512) !! (n `mod` 512)%nat).
Definition range (D : list (list Z)) (i : sfs_dinode) (off n : nat) : list Z := raw D i <$> seq off n.
Definition contents (D : list (list Z)) (i : sfs_dinode) : list Z := range D i 0 (Z.to_nat (sfi_size i)).

Lemma block_pos k j : (j < 512)%nat → ((512 * k + j) / 512 = k ∧ (512 * k + j) `mod` 512 = j)%nat.
Proof.
  intros Hj. pose proof (Nat.div_mod (512 * k + j) 512 ltac:(lia)) as E. pose proof (Nat.mod_upper_bound (512 * k + j) 512 ltac:(lia)).
  set (a := ((512 * k + j) / 512)%nat) in *. set (c := ((512 * k + j) `mod` 512)%nat) in *. split; nia.
Qed.

Lemma pos_block n : n = (512 * (n / 512) + n `mod` 512)%nat ∧ (n `mod` 512 < 512)%nat.
Proof. split; [by apply Nat.div_mod|by apply Nat.mod_upper_bound]. Qed.

Lemma length_range D i off n : length (range D i off n) = n.
Proof. unfold range. len. Qed.
#[export] Hint Rewrite length_range : len.

Lemma range_app D i off n m : range D i off (n + m) = range D i off n ++ range D i (off + n) m.
Proof. unfold range. by rewrite seq_app, fmap_app. Qed.

Lemma range_lookup D i off n j : (j < n)%nat → range D i off n !! j = Some (raw D i (off + j)).
Proof. intros Hj. unfold range. rewrite list_lookup_fmap, lookup_seq_lt by done. done. Qed.

(** A part of a block *)
Lemma block_range D i k skip len : length (fblock D i k) = 512%nat → (skip + len ≤ 512)%nat →
  take len (drop skip (fblock D i k)) = range D i (512 * k + skip) len.
Proof.
  intros Hb Hle. apply list_eq. intros j. destruct (decide (j < len)%nat) as [Hj|Hj].
  - rewrite lookup_take_lt, lookup_drop, range_lookup by lia. unfold raw. rewrite <-Nat.add_assoc.
    destruct (block_pos k (skip + j) ltac:(lia)) as [-> ->]. destruct (lookup_lt_is_Some_2 (fblock D i k) (skip + j) ltac:(lia)) as [z Hz]. by rewrite Hz.
  - rewrite !lookup_ge_None_2; [done|len|len].
Qed.

Lemma same_raw D D' i i' : (∀ k, fblock D' i' k = fblock D i k) → ∀ n, raw D' i' n = raw D i n.
Proof. intros H n. unfold raw. by rewrite H. Qed.

(** ** Writing *)

(** The bytes [bs] at [off] of the file of vnode [sv], and nothing else, changed. *)
Record wrote (w : sview) (I : gmap Z sfs_dinode) (sv : Z) (x : sfs_vnode) (off : nat) (bs : list Z)
    (w' : sview) (I' : gmap Z sfs_dinode) (x' : sfs_vnode) : Prop := {
  wr_nodes : w_nodes w' = <[sv := x']> (w_nodes w);
  wr_inodes : I' = <[sv_ino x := sv_i x']> I;
  wr_ino : sv_ino x' = sv_ino x;
  wr_refs : vn_abs x' = vn_abs x;
  wr_size : sfi_size (sv_i x') = sfi_size (sv_i x);
  wr_type : sfi_type (sv_i x') = sfi_type (sv_i x);
  wr_links : sfi_linkcount (sv_i x') = sfi_linkcount (sv_i x);
  wr_bytes n : raw (w_disk w') (sv_i x') n =
    if decide (off ≤ n < off + length bs)%nat then default 0 (bs !! (n - off)%nat) else raw (w_disk w) (sv_i x) n;
  wr_other ino i k : I !! ino = Some i → ino ≠ sv_ino x → fblock (w_disk w') i k = fblock (w_disk w) i k;
  wr_max : (0 < length bs)%nat → Z.of_nat (off + length bs) ≤ 143 * 512
}.

Lemma wrote_grown w I sv x w' I' x' off : I !! sv_ino x = Some (sv_i x) → grown w I sv x w' I' x' → wrote w I sv x off [] w' I' x'.
Proof.
  intros Hi [H1 H2 H3 H4 H5]. pose proof (H1 (sv_ino x)) as Hs. rewrite H3, lookup_insert_eq, Hi in Hs. destruct Hs as [S1 S2 S3 S4]. split; try done.
  - intros n. cbn [length]. rewrite decide_False by lia. by apply same_raw.
  - intros ino i k Hino Hne. specialize (H1 ino). rewrite H3, lookup_insert_ne, Hino in H1 by done. apply H1.
  - cbn [length]. lia.
Qed.

Lemma wrote_app w I sv x off bs1 w1 I1 x1 bs2 w2 I2 x2 :
  wrote w I sv x off bs1 w1 I1 x1 → wrote w1 I1 sv x1 (off + length bs1) bs2 w2 I2 x2 → wrote w I sv x off (bs1 ++ bs2) w2 I2 x2.
Proof.
  intros [H1 H2 H3 H4 H5 H6 H7 H8 H9 H10] [K1 K2 K3 K4 K5 K6 K7 K8 K9 K10]. split; try congruence.
  - by rewrite K1, H1, insert_insert_eq.
  - by rewrite K2, H3, H2, insert_insert_eq.
  - intros n. rewrite K8, H8, length_app. destruct (decide (off ≤ n < off + length bs1)%nat) as [A|A].
    + rewrite !decide_False by lia. rewrite decide_True by lia. by rewrite lookup_app_l by lia.
    + destruct (decide (off + length bs1 ≤ n < off + length bs1 + length bs2)%nat) as [B|B].
      * rewrite decide_True by lia. rewrite lookup_app_r by lia. do 2 f_equal. lia.
      * by rewrite decide_False by lia.
  - intros ino i k Hi Hne. rewrite (K9 ino); [by apply (H9 ino)| |congruence]. by rewrite H2, lookup_insert_ne.
  - rewrite length_app. lia.
Qed.

Lemma splice_lookup (skip : nat) bs l j : (skip + length bs ≤ length l)%nat →
  splice (Z.of_nat skip) bs l !! j = if decide (skip ≤ j < skip + length bs)%nat then bs !! (j - skip)%nat else l !! j.
Proof.
  intros Hle. unfold splice. rewrite Nat2Z.id. case_decide as E.
  - rewrite lookup_app_r, length_take, Nat.min_l, lookup_app_l by (rewrite ?length_take; lia). done.
  - destruct (decide (j < skip)%nat) as [Hj|Hj]; [rewrite lookup_app_l, lookup_take_lt by len; done|].
    rewrite lookup_app_r, length_take, Nat.min_l, lookup_app_r, lookup_drop by (rewrite ?length_take; lia). f_equal. lia.
Qed.

Lemma length_splice (skip : nat) bs l : (skip + length bs ≤ length l)%nat → length (splice (Z.of_nat skip) bs l) = length l.
Proof. intros H. unfold splice. rewrite Nat2Z.id. len. Qed.

(** A block of the file is replaced. *)
Lemma wrote_block nb w I sv x k skip bs :
  fs_ok nb w I → w_nodes w !! sv = Some x → bmap_of (w_disk w) (sv_i x) k ≠ 0 → (skip + length bs ≤ 512)%nat →
  let D' := <[Z.to_nat (bmap_of (w_disk w) (sv_i x) k) := splice (Z.of_nat skip) bs (fblock (w_disk w) (sv_i x) k)]> (w_disk w) in
  fs_ok nb (set_w_disk D' w) I ∧ wrote w I sv x (512 * k + skip) bs (set_w_disk D' w) I x.
Proof.
  intros Hok Hx Hne Hle D'. pose proof (ok_node _ _ _ Hok sv x Hx) as Hi. pose proof (fblock_length nb w I Hok (sv_i x) k) as Hlen.
  destruct (write_data_ok nb w I Hok (sv_ino x) (sv_i x) k (splice (Z.of_nat skip) bs (fblock (w_disk w) (sv_i x) k)) Hi Hne) as [Hok' Hblk];
    [rewrite length_splice; lia|]. split; [done|]. split; try done.
  - cbn. by rewrite insert_id.
  - by rewrite insert_id.
  - intros n. cbn [w_disk set_w_disk]. unfold raw. rewrite (Hblk _ _ _ Hi). destruct (pos_block n) as [En Hn]. set (q := (n / 512)%nat) in *. set (r := (n `mod` 512)%nat) in *.
    case_decide as E.
    + injection E as E. rewrite splice_lookup by lia. assert ((512 * k + skip ≤ n < 512 * k + skip + length bs)%nat ↔ (skip ≤ r < skip + length bs)%nat) as Hiff by nia.
      destruct (decide (skip ≤ r < skip + length bs)%nat) as [Hr|Hr].
      * rewrite decide_True by (by apply Hiff). do 2 f_equal. nia.
      * rewrite decide_False by (by rewrite Hiff). by rewrite E.
    + assert (q ≠ k) by congruence. rewrite decide_False by nia. done.
  - intros ino i k' Hino Hne'. cbn [w_disk set_w_disk]. rewrite (Hblk _ _ _ Hino). by rewrite decide_False by congruence.
  - assert (k < 143)%nat; [|lia]. destruct (decide (k < 143)%nat); [done|]. destruct Hne. unfold bmap_of.
    by rewrite (proj2 (Nat.ltb_ge k 15)), (proj2 (Nat.ltb_ge k 143)) by lia.
Qed.

(** ** Transfers *)

Section io.
Context (R : srest).
Abbreviation nb := (r_nblocks R).
Context {U : Type} {uops : UioOps U} {ulaws : UioLaws U}.

Definition pos (u : U) : nat := Z.to_nat (u_offset u).

(** A transfer that fits in a file offset *)
Definition small (u : U) : Prop := u_ready u ∧ u_offset u + u_resid u < 2 ^ 31.

Lemma small_later n u u' : small u → u_later n u u' → 0 ≤ n → small u' ∧ pos u' = (pos u + Z.to_nat n)%nat.
Proof using.
  intros [Hu Hs] Hl Hn. pose proof (ur_offset _ Hu). split.
  - split; [apply Hl|]. rewrite (ul_offset _ _ _ Hl), (ul_resid _ _ _ Hl). lia.
  - unfold pos. rewrite (ul_offset _ _ _ Hl). lia.
Qed.

(** The block and the offset in it *)
Lemma small_block u : small u →
  u32 (Z.quot (u_offset u) SFS_BLOCKSIZE) = Z.of_nat (pos u / 512) ∧ Z.rem (u_offset u) SFS_BLOCKSIZE = Z.of_nat (pos u `mod` 512) ∧
  u32 (Z.rem (u_offset u) SFS_BLOCKSIZE) = Z.of_nat (pos u `mod` 512).
Proof using.
  intros [Hu Hs]. pose proof (ur_offset _ Hu). pose proof (ur_room _ Hu). assert (u_offset u = Z.of_nat (pos u)) as Eo by (unfold pos; lia).
  pose proof (pos_block (pos u)) as [Ep Hp]. unfold SFS_BLOCKSIZE. rewrite Eo, Z.quot_div_nonneg, Z.rem_mod_nonneg by lia. change 512 with (Z.of_nat 512).
  rewrite <-Nat2Z.inj_div, <-Nat2Z.inj_mod. rewrite !u32_id; [done|lia|lia].
Qed.

(** What is left of a read and of a write of [n] bytes *)
Definition read_post (w : sview) (i : sfs_dinode) (u : U) (n : nat) (r : Z * U) (s' : sfs_st) : Prop :=
  r.1 = 0 ∧ shows R s' w ∧ u_later (Z.of_nat n) u r.2 ∧ u_done r.2 = u_done u ++ range (w_disk w) i (pos u) n.

Definition io_error (w : sview) (e : Z) (p : nat) : Prop :=
  (e = ENOSPC ∧ ∀ j, 0 ≤ j < nb → w_bit w j = true) ∨ (e = EFBIG ∧ (143 * 512 ≤ p)%nat).

Definition write_post (w : sview) (I : gmap Z sfs_dinode) (sv : Z) (x : sfs_vnode) (u : U) (n : nat) (r : Z * U) (s' : sfs_st) : Prop :=
  ∃ w' I' x' m, shows R s' w' ∧ fs_ok nb w' I' ∧ (m ≤ n)%nat ∧ wrote w I sv x (pos u) (take m (u_todo u)) w' I' x' ∧
    u_later (Z.of_nat m) u r.2 ∧ u_todo r.2 = drop m (u_todo u) ∧ if r.1 =? 0 then m = n else io_error w' r.1 (pos u + m).

(** A step that failed at once *)
Lemma write_post_error w I sv x u n w' I' x' e s' :
  fs_ok nb w I → w_nodes w !! sv = Some x → shows R s' w' → fs_ok nb w' I' → grown w I sv x w' I' x' → u_ready u →
  e ≠ 0 → io_error w' e (pos u) → write_post w I sv x u n (e, u) s'.
Proof using.
  intros Hok Hx Hs' Hok' Hg Hu He Herr. exists w', I', x', 0%nat. do 2 (split; [done|]). split; [lia|]. rewrite take_0, drop_0, Nat.add_0_r. cbn [fst snd].
  split; [apply wrote_grown; [by apply (ok_node _ _ _ Hok sv)|done]|]. split; [by apply u_later_refl|]. split; [done|]. by rewrite (proj2 (Z.eqb_neq e 0)).
Qed.

Lemma bmap_error w' e r fb u : 
  (r = ENOSPC ∧ (∀ j, 0 ≤ j < nb → w_bit w' j = true)) ∨ (r = EFBIG ∧ 143 ≤ Z.of_nat fb) → e = r → fb = (pos u / 512)%nat → e ≠ 0 ∧ io_error w' e (pos u).
Proof using.
  intros [[-> H]|[-> H]] -> ->; (split; [done|]); [by left|]. right. split; [done|]. pose proof (pos_block (pos u)). lia.
Qed.

(** *** Part of a block *)

Lemma wp_partial_read s w I sv x u len :
  shows R s w → fs_ok nb w I → w_nodes w !! sv = Some x → small u → u_rw u = UIO_READ →
  (pos u `mod` 512 + len ≤ 512)%nat → Z.of_nat len ≤ u_resid u → (pos u < 143 * 512)%nat →
  wp (sfs_partialio sv u (Z.of_nat (pos u `mod` 512)) (Z.of_nat len)) (read_post w (sv_i x) u len) s.
Proof using.
  intros Hs Hok Hx Hsm Hrw Hle Hres Hmax. destruct (small_block u Hsm) as (Eb & _ & _). destruct (pos_block (pos u)) as [Ep Hp]. pose proof (proj1 Hsm) as Hu.
  pose proof (fblock_length nb w I Hok (sv_i x) (pos u / 512)) as Hlen. pose proof (ok_node _ _ _ Hok sv x Hx) as Hi. pose proof (ok_size _ _ _ Hok) as [Hsz _].
  unfold sfs_partialio. rewrite Hrw. apply wp_bind, wp_kassert. split; [rewrite u32_id by lia; apply Z.leb_le; unfold SFS_BLOCKSIZE; lia|].
  apply wp_bind. eapply wp_held; [done|]. apply wp_bind, wp_kassert. split; [done|]. apply wp_bind. rewrite Eb, bool_decide_false by done.
  eapply wp_bmap_read; [done|done|done|lia|]. intros s1 Hs1. cbn [Z.eqb negb]. rewrite Nat2Z.id. apply wp_bind.
  assert (wp (if bmap_of (w_disk w) (sv_i x) (pos u / 512) =? 0 then
      kassert (bool_decide (UIO_READ = UIO_READ)) "uio->uio_rw == UIO_READ" ;; mret (0, zeros)
    else sfs_readblock (bmap_of (w_disk w) (sv_i x) (pos u / 512))) (λ r s', r = (0, fblock (w_disk w) (sv_i x) (pos u / 512)) ∧ shows R s' w) s1) as Hblk.
  { unfold fblock. pose proof (bmap_range nb w I Hok _ _ (pos u / 512) Hi). destruct (Z.eqb_spec (bmap_of (w_disk w) (sv_i x) (pos u / 512)) 0) as [E|E].
    - apply wp_bind, wp_kassert. split; [done|]. by apply wp_ret.
    - eapply wp_readblock; [done|lia|apply sector_lookup; lia|]. done. }
  eapply wp_mono; [exact Hblk|]. cbn beta. intros r s2 [-> Hs2]. cbn [Z.eqb negb]. rewrite decide_False by done. rewrite !Nat2Z.id, block_range by done. rewrite <-Ep.
  apply wp_bind, wp_moving_to; [done|done|by rewrite length_range|]. intros u' Hl Hd. rewrite length_range in Hl. apply wp_ret. done.
Qed.

Lemma wp_partial_write s w I sv x u len :
  shows R s w → fs_ok nb w I → w_nodes w !! sv = Some x → small u → u_rw u = UIO_WRITE →
  (pos u `mod` 512 + len ≤ 512)%nat → Z.of_nat len ≤ u_resid u →
  wp (sfs_partialio sv u (Z.of_nat (pos u `mod` 512)) (Z.of_nat len)) (write_post w I sv x u len) s.
Proof using.
  intros Hs Hok Hx Hsm Hrw Hle Hres. destruct (small_block u Hsm) as (Eb & _ & _). destruct (pos_block (pos u)) as [Ep Hp]. pose proof (proj1 Hsm) as Hu.
  pose proof (ok_node _ _ _ Hok sv x Hx) as Hi. unfold sfs_partialio. rewrite Hrw. apply wp_bind, wp_kassert.
  split; [rewrite u32_id by lia; apply Z.leb_le; unfold SFS_BLOCKSIZE; lia|]. apply wp_bind. eapply wp_held; [done|]. apply wp_bind, wp_kassert. split; [done|].
  apply wp_bind. rewrite Eb, bool_decide_true by done. eapply wp_mono; [apply (wp_bmap_alloc R s w I sv x); (done || lia)|].
  intros [e b] s1 (w1 & I1 & x1 & Hs1 & Hok1 & Hg & _ & Hcase). cbn [fst snd] in Hcase. destruct Hcase as [(-> & Hfb & Eb1 & Hb)|Herr].
  2:{ destruct (bmap_error w1 e e (pos u / 512) u) as [He Herr']; [naive_solver|done|done|]. rewrite (proj2 (Z.eqb_neq e 0)) by done. cbn [negb]. apply wp_ret.
      by eapply write_post_error. }
  cbn [Z.eqb negb]. rewrite Nat2Z.id in Eb1. subst b. rewrite (proj2 (Z.eqb_neq _ 0)) by done. apply wp_bind.
  assert (w_nodes w1 !! sv = Some x1) as Hx1 by (rewrite (gr_nodes _ _ _ _ _ _ _ Hg); by rewrite lookup_insert_eq).
  pose proof (ok_node _ _ _ Hok1 sv x1 Hx1) as Hi1. pose proof (bmap_range nb w1 I1 Hok1 _ _ (pos u / 512) Hi1) as Hbr. pose proof (ok_size _ _ _ Hok1) as [Hsz _].
  eapply wp_readblock; [done|lia|apply sector_lookup; lia|]. intros s2 Hs2. cbn [Z.eqb negb]. rewrite decide_True by done.
  apply wp_bind, wp_moving_from; [done|done|lia|]. intros u' Hl Hd. cbn [fst snd Z.eqb negb]. rewrite Nat2Z.id in *.
  pose proof (todo_length u Hu Hrw) as Htodo. assert (length (take len (u_todo u)) = len) as Htk by len.
  assert (sector (w_disk w1) (bmap_of (w_disk w1) (sv_i x1) (pos u / 512)) = fblock (w_disk w1) (sv_i x1) (pos u / 512)) as ->.
  { unfold fblock. by rewrite (proj2 (Z.eqb_neq _ 0)). }
  destruct (wrote_block nb w1 I1 sv x1 (pos u / 512) (pos u `mod` 512) (take len (u_todo u)) Hok1 Hx1 Hb ltac:(lia)) as [Hok2 Hwr].
  pose proof (fblock_length nb w1 I1 Hok1 (sv_i x1) (pos u / 512)) as Hbl. apply wp_bind.
  eapply wp_writeblock; [exact Hs2|lia|rewrite length_splice; lia|]. intros s3 Hs3. apply wp_ret. eexists _, I1, x1, len. split; [exact Hs3|]. split; [exact Hok2|].
  split; [lia|]. rewrite <-Ep in Hwr. split; [|split; [done|split; [done|done]]]. apply (wrote_grown _ _ _ _ _ _ _ (pos u) Hi) in Hg.
  rewrite <-(app_nil_l (take len _)). eapply wrote_app; [exact Hg|]. cbn [length]. by rewrite Nat.add_0_r.
Qed.

(** *** Whole blocks *)

Lemma wp_move_zeros s n u Q : u_ready u → u_rw u = UIO_READ → 0 ≤ n ≤ u_resid u →
  (∀ u', u_later n u u' → u_done u' = u_done u ++ replicate (Z.to_nat n) 0 → Q (0, u') s) → wp (move_zeros n u) Q s.
Proof using.
  intros Hu Hrw Hn HQ. pose proof (ur_small _ Hu). unfold move_zeros. apply wp_bind, wp_kassert. split; [by apply bool_decide_eq_true|].
  apply (wp_while _ (λ '(m, u') s', s' = s ∧ 0 ≤ m ≤ n ∧ u_later (n - m) u u' ∧ u_done u' = u_done u ++ replicate (Z.to_nat (n - m)) 0) (λ '(m, _) _, m)).
  - rewrite Z.sub_diag, app_nil_r. split_and!; try lia; try done. by apply u_later_refl.
  - intros [m u'] s' (_ & Hm & _). lia.
  - lia.
  - intros [m u'] s' (-> & Hm & Hl & Hd). destruct (Z.ltb_spec 0 m) as [Hpos|Hz].
    + set (amt := if m <? 16 then m else 16). assert (0 < amt ≤ m) as Ha by (unfold amt; destruct (Z.ltb_spec m 16); lia).
      apply wp_bind, wp_moving_to; [apply Hl|by rewrite (ul_rw _ _ _ Hl)|rewrite length_replicate, (ul_resid _ _ _ Hl); lia|].
      intros u2 Hl2 Hd2. rewrite length_replicate, Z2Nat.id in Hl2 by lia. cbn [fst snd Z.eqb negb]. apply wp_ret. split; [|lia]. split; [done|]. split; [lia|]. split.
      * replace (n - (m - amt)) with (n - m + amt) by lia. by eapply u_later_trans.
      * rewrite Hd2, Hd, <-app_assoc, <-replicate_add. do 2 f_equal. lia.
    + apply wp_ret. assert (m = 0) as -> by lia. rewrite Z.sub_0_r in *. by apply HQ.
Qed.

(** The detour over the offset and size of the device *)
Lemma detour u o : small u → 512 ≤ u_resid u → 0 ≤ o < 2 ^ 62 →
  let u2 := u_set_resid 512 (u_set_offset o u) in
  u_ready u2 ∧ u_rw u2 = u_rw u ∧ u_offset u2 = o ∧ u_resid u2 = 512 ∧ u_done u2 = u_done u ∧ u_todo u2 = u_todo u ∧
  ∀ u3, u_later 512 u2 u3 →
    let u4 := u_set_offset (u_offset u3 - o + u_offset u) u3 in
    let u5 := u_set_resid (u32 (u_resid u4 - 512 + u_resid u)) u4 in
    u_later 512 u u5 ∧ u_done u5 = u_done u3 ∧ u_todo u5 = u_todo u3.
Proof using.
  intros [Hu Hs] Hres Ho. pose proof Hu as [H1 H2 H3 H4 H5].
  destruct (u_set_offset_law o u H1) as (A1 & A2 & A3 & A4 & A5 & A6 & A7).
  destruct (u_set_resid_law 512 (u_set_offset o u) A1) as (B1 & B2 & B3 & B4 & B5 & B6 & B7).
  cbn zeta. split; [split; (done || lia)|]. split_and!; try congruence; try lia. intros u3 [[L1 L2 L3 L4 L5] L6 L7 L8 L9].
  destruct (u_set_offset_law (u_offset u3 - o + u_offset u) u3 L1) as (C1 & C2 & C3 & C4 & C5 & C6 & C7).
  set (u4 := u_set_offset (u_offset u3 - o + u_offset u) u3) in *.
  destruct (u_set_resid_law (u32 (u_resid u4 - 512 + u_resid u)) u4 C1) as (E1 & E2 & E3 & E4 & E5 & E6 & E7).
  assert (u32 (u_resid u4 - 512 + u_resid u) = u_resid u - 512) as Er by (rewrite C4, L8, B4, Z.sub_diag; rewrite u32_id; lia).
  rewrite Er in *. split_and!; [|congruence|congruence]. split; [split; (done || lia)|congruence|lia|lia|lia].
Qed.

Lemma diskoff_small w I ino i k : fs_ok nb w I → I !! ino = Some i → nb * 512 < 2 ^ 32 → 
  u32 (bmap_of (w_disk w) i k * SFS_BLOCKSIZE) = bmap_of (w_disk w) i k * 512.
Proof using. intros Hok Hi Hnb. pose proof (bmap_range nb w I Hok ino i k Hi). unfold SFS_BLOCKSIZE. rewrite u32_id; lia. Qed.

Lemma wp_block_read s w I sv x u :
  shows R s w → fs_ok nb w I → w_nodes w !! sv = Some x → small u → u_rw u = UIO_READ → nb * 512 < 2 ^ 32 →
  (pos u `mod` 512 = 0)%nat → 512 ≤ u_resid u → (pos u < 143 * 512)%nat →
  wp (sfs_blockio sv u) (read_post w (sv_i x) u 512) s.
Proof using.
  intros Hs Hok Hx Hsm Hrw Hnb Hal Hres Hmax. destruct (small_block u Hsm) as (Eb & _ & _). destruct (pos_block (pos u)) as [Ep Hp].
  pose proof (ok_node _ _ _ Hok sv x Hx) as Hi. pose proof (ok_size _ _ _ Hok) as [Hsz _]. pose proof (proj1 Hsm) as Hu.
  pose proof (fblock_length nb w I Hok (sv_i x) (pos u / 512)) as Hlen. unfold sfs_blockio. rewrite Hrw, Eb. change (bool_decide (UIO_READ = UIO_WRITE)) with false. apply wp_bind.
  eapply wp_bmap_read; [done|done|done|lia|]. intros s1 Hs1. cbn [Z.eqb negb]. rewrite Nat2Z.id.
  assert (range (w_disk w) (sv_i x) (pos u) 512 = fblock (w_disk w) (sv_i x) (pos u / 512)) as Erange.
  { rewrite Ep, Hal at 1. rewrite <-block_range by lia. rewrite drop_0. apply take_ge. lia. }
  unfold fblock in Erange. pose proof (bmap_range nb w I Hok _ _ (pos u / 512) Hi) as Hr. rewrite (diskoff_small w I _ _ _ Hok Hi Hnb).
  destruct (Z.eqb_spec (bmap_of (w_disk w) (sv_i x) (pos u / 512)) 0) as [E|E].
  - apply wp_bind, wp_kassert. split; [by apply bool_decide_eq_true|]. apply wp_move_zeros; [done|done|unfold SFS_BLOCKSIZE; lia|].
    intros u' Hl Hd. split; [done|]. split; [done|]. split; [done|]. cbn [snd]. by rewrite Erange, Hd.
  - set (b := bmap_of _ _ _) in *. destruct (detour u (b * 512) Hsm Hres ltac:(pose proof (ok_size _ _ _ Hok); lia)) as (D1 & D2 & D3 & D4 & D5 & D6 & D7).
    destruct (u_set_offset_law (b * 512) u (ur_fine _ Hu)) as (_ & _ & _ & E4 & _). unfold SFS_BLOCKSIZE. rewrite E4.
    apply wp_bind, wp_kassert. split; [by apply Z.leb_le|]. apply wp_bind.
    eapply (wp_rwblock_read R s1 w _ b (sector (w_disk w) b)); [done|lia|apply sector_lookup; lia|exact D1|congruence|done|done|].
    intros s2 u3 Hs2 Hl3 Hd3. destruct (D7 u3 Hl3) as (F1 & F2 & F3). apply wp_ret. split; [done|]. split; [done|]. split; [exact F1|]. cbn [snd fst].
    etrans; [exact F2|]. by rewrite Hd3, D5, Erange.
Qed.

Lemma wp_block_write s w I sv x u :
  shows R s w → fs_ok nb w I → w_nodes w !! sv = Some x → small u → u_rw u = UIO_WRITE → nb * 512 < 2 ^ 32 →
  (pos u `mod` 512 = 0)%nat → 512 ≤ u_resid u → wp (sfs_blockio sv u) (write_post w I sv x u 512) s.
Proof using.
  intros Hs Hok Hx Hsm Hrw Hnb Hal Hres. destruct (small_block u Hsm) as (Eb & _ & _). destruct (pos_block (pos u)) as [Ep Hp]. pose proof (proj1 Hsm) as Hu.
  pose proof (ok_node _ _ _ Hok sv x Hx) as Hi. unfold sfs_blockio. rewrite Hrw, Eb. change (bool_decide (UIO_WRITE = UIO_WRITE)) with true.
  apply wp_bind. eapply wp_mono; [apply (wp_bmap_alloc R s w I sv x); (done || lia)|].
  intros [e b] s1 (w1 & I1 & x1 & Hs1 & Hok1 & Hg & _ & Hcase). cbn [fst snd] in Hcase. destruct Hcase as [(-> & Hfb & Eb1 & Hb)|Herr].
  2:{ destruct (bmap_error w1 e e (pos u / 512) u) as [He Herr']; [naive_solver|done|done|]. rewrite (proj2 (Z.eqb_neq e 0)) by done. cbn [negb]. apply wp_ret.
      by eapply write_post_error. }
  cbn [Z.eqb negb]. rewrite Nat2Z.id in Eb1. rewrite (proj2 (Z.eqb_neq b 0)) by done.
  assert (w_nodes w1 !! sv = Some x1) as Hx1 by (rewrite (gr_nodes _ _ _ _ _ _ _ Hg); by rewrite lookup_insert_eq).
  pose proof (ok_node _ _ _ Hok1 sv x1 Hx1) as Hi1. pose proof (bmap_range nb w1 I1 Hok1 _ _ (pos u / 512) Hi1) as Hbr. pose proof (ok_size _ _ _ Hok1) as [Hsz _].
  rewrite <-Eb1 in Hbr. replace (u32 (b * SFS_BLOCKSIZE)) with (b * 512) by (rewrite Eb1; by rewrite (diskoff_small w1 I1 _ _ _ Hok1 Hi1 Hnb)).
  destruct (detour u (b * 512) Hsm Hres ltac:(pose proof (ok_size _ _ _ Hok); lia)) as (D1 & D2 & D3 & D4 & D5 & D6 & D7).
  destruct (u_set_offset_law (b * 512) u (ur_fine _ Hu)) as (_ & _ & _ & E4 & _). unfold SFS_BLOCKSIZE. rewrite E4.
  apply wp_bind, wp_kassert. split; [by apply Z.leb_le|]. apply wp_bind.
  eapply (wp_rwblock_write R s1 w1 _ b); [done|lia|exact D1|congruence|done|done|].
  intros s2 u3 Hs2 Hl3 Hd3. destruct (D7 u3 Hl3) as (F1 & F2 & F3). apply wp_ret. rewrite D6 in Hs2. rewrite D6 in Hd3.
  pose proof (todo_length u Hu Hrw) as Htodo. assert (length (take 512 (u_todo u)) = 512%nat) as Htk by len.
  pose proof (fblock_length nb w1 I1 Hok1 (sv_i x1) (pos u / 512)) as Hbl.
  assert (splice (Z.of_nat 0) (take 512 (u_todo u)) (fblock (w_disk w1) (sv_i x1) (pos u / 512)) = take 512 (u_todo u)) as Esp.
  { unfold splice. change (Z.to_nat (Z.of_nat 0)) with 0%nat. rewrite take_0, Htk, drop_ge, app_nil_r by lia. done. }
  destruct (wrote_block nb w1 I1 sv x1 (pos u / 512) 0 (take 512 (u_todo u)) Hok1 Hx1 ltac:(by rewrite <-Eb1) ltac:(lia)) as [Hok2 Hwr].
  rewrite Esp, <-Eb1 in Hok2, Hwr. eexists _, I1, x1, 512%nat. split; [exact Hs2|]. split; [exact Hok2|]. split; [lia|].
  replace (512 * (pos u / 512) + 0)%nat with (pos u) in Hwr by lia. split; [|split; [exact F1|split; [cbn [snd fst]; etrans; [exact F3|done]|done]]].
  apply (wrote_grown _ _ _ _ _ _ _ (pos u) Hi) in Hg. rewrite <-(app_nil_l (take 512 _)). eapply wrote_app; [exact Hg|]. cbn [length]. by rewrite Nat.add_0_r.
Qed.

(** *** Both directions *)

(** After a transfer of up to [n] bytes: [m] of them were moved. *)
Definition io_post (w : sview) (I : gmap Z sfs_dinode) (sv : Z) (x : sfs_vnode) (u : U) (n : nat) (r : Z * U) (s' : sfs_st) : Prop :=
  ∃ w' I' x' m, shows R s' w' ∧ fs_ok nb w' I' ∧ w_nodes w' !! sv = Some x' ∧ (m ≤ n)%nat ∧ u_later (Z.of_nat m) u r.2 ∧
    (if r.1 =? 0 then m = n else io_error w' r.1 (pos u + m)) ∧
    match u_rw u with
    | UIO_READ => r.1 = 0 ∧ w' = w ∧ I' = I ∧ x' = x ∧ u_done r.2 = u_done u ++ range (w_disk w) (sv_i x) (pos u) m
    | UIO_WRITE => wrote w I sv x (pos u) (take m (u_todo u)) w' I' x' ∧ u_todo r.2 = drop m (u_todo u)
    end.

(** A read stays within the blocks a file can have. *)
Definition readable (u : U) : Prop := u_rw u = UIO_READ → (pos u + Z.to_nat (u_resid u) ≤ 143 * 512)%nat.

Lemma wp_partial s w I sv x u skip len :
  shows R s w → fs_ok nb w I → w_nodes w !! sv = Some x → small u → readable u →
  skip = (pos u `mod` 512)%nat → (skip ≠ 0 ∨ 0 < len)%nat → (skip + len ≤ 512)%nat → Z.of_nat len ≤ u_resid u →
  wp (sfs_partialio sv u (Z.of_nat skip) (Z.of_nat len)) (io_post w I sv x u len) s.
Proof using.
  intros Hs Hok Hx Hsm Hrd -> Hpos Hle Hres. unfold io_post, readable in *. destruct (u_rw u) eqn:Hrw.
  - eapply wp_mono; [apply (wp_partial_read s w I sv x u len); try done; specialize (Hrd eq_refl); pose proof (pos_block (pos u)); lia|].
    intros r s' (H0 & Hs' & Hl & Hd). exists w, I, x, len. rewrite H0. by split_and!.
  - eapply wp_mono; [by apply (wp_partial_write s w I sv x u len)|]. intros r s' (w' & I' & x' & m & H1 & H2 & H3 & H4 & H5 & H6 & H7).
    exists w', I', x', m. split_and!; try done. rewrite (wr_nodes _ _ _ _ _ _ _ _ _ H4). by rewrite lookup_insert_eq.
Qed.

Lemma wp_block s w I sv x u :
  shows R s w → fs_ok nb w I → w_nodes w !! sv = Some x → small u → readable u → nb * 512 < 2 ^ 32 →
  (pos u `mod` 512 = 0)%nat → 512 ≤ u_resid u → wp (sfs_blockio sv u) (io_post w I sv x u 512) s.
Proof using.
  intros Hs Hok Hx Hsm Hrd Hnb Hal Hres. unfold io_post, readable in *. destruct (u_rw u) eqn:Hrw.
  - eapply wp_mono; [apply (wp_block_read s w I sv x u); try done; specialize (Hrd eq_refl); lia|].
    intros r s' (H0 & Hs' & Hl & Hd). exists w, I, x, 512%nat. rewrite H0. by split_and!.
  - eapply wp_mono; [by apply (wp_block_write s w I sv x u)|]. intros r s' (w' & I' & x' & m & H1 & H2 & H3 & H4 & H5 & H6 & H7).
    exists w', I', x', m. split_and!; try done. rewrite (wr_nodes _ _ _ _ _ _ _ _ _ H4). by rewrite lookup_insert_eq.
Qed.

Lemma io_post_zero s w I sv x u : shows R s w → fs_ok nb w I → w_nodes w !! sv = Some x → u_ready u → io_post w I sv x u 0 (0, u) s.
Proof using.
  intros Hs Hok Hx Hu. exists w, I, x, 0%nat. split_and!; try done; [by apply u_later_refl|]. destruct (u_rw u).
  - by rewrite app_nil_r.
  - rewrite take_0. split; [|done]. apply wrote_grown; [by apply (ok_node _ _ _ Hok sv)|by apply (grown_refl nb)].
Qed.

(** One transfer after the other *)
Lemma io_post_seq w I sv x u n1 n2 r s1 : small u → readable u → io_post w I sv x u n1 r s1 →
  (r.1 ≠ 0 ∧ io_post w I sv x u (n1 + n2) r s1) ∨
  (r.1 = 0 ∧ u_later (Z.of_nat n1) u r.2 ∧ ∃ w1 I1 x1, shows R s1 w1 ∧ fs_ok nb w1 I1 ∧ w_nodes w1 !! sv = Some x1 ∧
     ∀ r2 s2, io_post w1 I1 sv x1 r.2 n2 r2 s2 → io_post w I sv x u (n1 + n2) r2 s2).
Proof using.
  intros Hsm Hrd (w1 & I1 & x1 & m & H1 & H2 & H3 & H4 & H5 & H6 & H7). destruct (Z.eqb_spec r.1 0) as [E|E].
  - subst m. right. split; [done|]. split; [done|]. exists w1, I1, x1. do 3 (split; [done|]).
    intros r2 s2 (w2 & I2 & x2 & m & K1 & K2 & K3 & K4 & K5 & K6 & K7). destruct (small_later _ _ _ Hsm H5 ltac:(lia)) as [_ Hp]. rewrite Nat2Z.id in Hp.
    exists w2, I2, x2, (n1 + m)%nat. do 3 (split; [done|]). split; [lia|]. split; [rewrite Nat2Z.inj_add; by eapply u_later_trans|].
    split; [destruct (r2.1 =? 0); [lia|by rewrite Nat.add_assoc, <-Hp]|]. rewrite (ul_rw _ _ _ H5), Hp in K7. destruct (u_rw u) eqn:Hrw.
    + destruct H7 as (_ & -> & -> & -> & Hd), K7 as (E2 & -> & -> & -> & Hd2). do 4 (split; [done|]). by rewrite Hd2, Hd, <-app_assoc, range_app.
    + destruct H7 as (Hw1 & Hd), K7 as (Hw2 & Hd2). pose proof (todo_length u (proj1 Hsm) Hrw) as Htodo.
      pose proof (ur_room _ (ul_ready _ _ _ H5)) as Hroom. rewrite (ul_resid _ _ _ H5) in Hroom. rewrite Hd in Hw2, Hd2. rewrite drop_drop in Hd2. split; [|done].
      rewrite <-take_take_drop. eapply wrote_app; [exact Hw1|]. by replace (length (take n1 (u_todo u))) with n1 by len.
  - left. split; [done|]. exists w1, I1, x1, m. rewrite (proj2 (Z.eqb_neq r.1 0)) by done. split_and!; try done. lia.
Qed.

Lemma readable_later n u u' : small u → readable u → u_later n u u' → 0 ≤ n → readable u'.
Proof using.
  intros Hsm Hrd Hl Hn. unfold readable in *. rewrite (ul_rw _ _ _ Hl). intros Hrw. specialize (Hrd Hrw). destruct (small_later _ _ _ Hsm Hl Hn) as [Hsm' ->].
  pose proof (ur_room _ (ul_ready _ _ _ Hl)) as Hroom. rewrite (ul_resid _ _ _ Hl) in *. lia.
Qed.

(** The loop over whole blocks *)
Lemma wp_blocks s w I sv x u n :
  shows R s w → fs_ok nb w I → w_nodes w !! sv = Some x → small u → readable u → nb * 512 < 2 ^ 32 →
  (pos u `mod` 512 = 0)%nat → Z.of_nat (n * 512) ≤ u_resid u →
  wp (while (λ '(i, u),
        if i <? Z.of_nat n then
          r ← sfs_blockio sv u;
          if negb (r.1 =? 0) then mret (inr r) else mret (inl (i + 1, r.2))
        else mret (inr (0, u))) (0, u)) (io_post w I sv x u (n * 512)) s.
Proof using.
  intros Hs Hok Hx Hsm Hrd Hnb Hal Hres. pose proof (ur_small _ (proj1 Hsm)) as H32.
  apply (wp_while _ (λ '(i, u') s', ∃ k w' I' x', i = Z.of_nat k ∧ (k ≤ n)%nat ∧ shows R s' w' ∧ fs_ok nb w' I' ∧ w_nodes w' !! sv = Some x' ∧
      u_later (Z.of_nat (k * 512)) u u' ∧ ∀ r2 s2, io_post w' I' sv x' u' ((n - k) * 512) r2 s2 → io_post w I sv x u (n * 512) r2 s2)
    (λ '(i, _) _, Z.of_nat n - i)).
  - exists 0%nat, w, I, x. split_and!; try done; [lia|by apply u_later_refl, Hsm|]. by rewrite Nat.sub_0_r.
  - intros [i u'] s' (k & _ & _ & _ & -> & Hk & _). lia.
  - lia.
  - intros [i u'] s' (k & w' & I' & x' & -> & Hk & Hs' & Hok' & Hx' & Hl & Hrest). destruct (small_later _ _ _ Hsm Hl ltac:(lia)) as [Hsm' Hp'].
    pose proof (readable_later _ _ _ Hsm Hrd Hl ltac:(lia)) as Hrd'. destruct (Z.ltb_spec (Z.of_nat k) (Z.of_nat n)) as [Hlt|Hge].
    + apply wp_bind. eapply wp_mono; [apply (wp_block s' w' I' sv x' u'); try done|].
      * rewrite Hp', Nat2Z.id. by rewrite Nat.Div0.mod_add.
      * rewrite (ul_resid _ _ _ Hl). lia.
      * intros r s2 Hpost. replace ((n - k) * 512)%nat with (512 + (n - S k) * 512)%nat in Hrest by lia.
        destruct (io_post_seq w' I' sv x' u' 512 ((n - S k) * 512) r s2 Hsm' Hrd' Hpost) as [[Hne Hp]|(E & Hl2 & w2 & I2 & x2 & Hs2 & Hok2 & Hx2 & Hseq)].
        -- rewrite (proj2 (Z.eqb_neq r.1 0)) by done. cbn [negb]. apply wp_ret. by apply Hrest.
        -- rewrite E. cbn [Z.eqb negb]. apply wp_ret. split; [|lia]. exists (S k), w2, I2, x2. split_and!; try done; try lia; [|by intros; apply Hrest, Hseq].
           replace (Z.of_nat (S k * 512)) with (Z.of_nat (k * 512) + Z.of_nat 512) by lia. by eapply u_later_trans.
    + apply wp_ret. assert (k = n) as -> by lia. rewrite Nat.sub_diag in Hrest. apply Hrest. by apply io_post_zero, Hsm'.
Qed.

(** The trailing part: whole blocks, then part of one *)
Lemma wp_tail s w I sv x u n :
  shows R s w → fs_ok nb w I → w_nodes w !! sv = Some x → small u → readable u → nb * 512 < 2 ^ 32 →
  (pos u `mod` 512 = 0)%nat → u_resid u = Z.of_nat n →
  wp (kassert (Z.rem (u_offset u) SFS_BLOCKSIZE =? 0) "uio->uio_offset % SFS_BLOCKSIZE == 0" ;;
      let nblocks := u_resid u / SFS_BLOCKSIZE in
      r ← while (λ '(i, u),
        if i <? nblocks then
          r ← sfs_blockio sv u;
          if negb (r.1 =? 0) then mret (inr r) else mret (inl (i + 1, r.2))
        else mret (inr (0, u))) (0, u);
      let '(result, u) := r in
      if negb (result =? 0) then mret (result, u)
      else
        kassert (u_resid u <? SFS_BLOCKSIZE) "uio->uio_resid < SFS_BLOCKSIZE" ;;
        if 0 <? u_resid u then sfs_partialio sv u 0 (u_resid u) else mret (0, u)) (io_post w I sv x u n) s.
Proof using.
  intros Hs Hok Hx Hsm Hrd Hnb Hal Hn. destruct (small_block u Hsm) as (_ & Er & _). apply wp_bind, wp_kassert. split; [rewrite Er, Hal; done|]. cbn zeta.
  unfold SFS_BLOCKSIZE. destruct (pos_block n) as [En Hm]. set (q := (n / 512)%nat) in *. set (m := (n `mod` 512)%nat) in *.
  replace (u_resid u / 512) with (Z.of_nat q) by (rewrite Hn, En; apply (Z.div_unique_pos _ _ _ (Z.of_nat m)); lia).
  apply wp_bind. eapply wp_mono; [apply (wp_blocks s w I sv x u q); (done || lia)|]. intros [e u1] s1 Hpost. replace n with (q * 512 + m)%nat by lia.
  destruct (io_post_seq w I sv x u (q * 512) m _ s1 Hsm Hrd Hpost) as [[Hne Hp]|(E & Hl & w1 & I1 & x1 & Hs1 & Hok1 & Hx1 & Hseq)]; cbn [fst snd] in *.
  - rewrite (proj2 (Z.eqb_neq e 0)) by done. cbn [negb]. by apply wp_ret.
  - subst e. cbn [Z.eqb negb]. pose proof (ul_resid _ _ _ Hl) as Hr1. destruct (small_later _ _ _ Hsm Hl ltac:(lia)) as [Hsm1 Hp1]. rewrite Nat2Z.id in Hp1.
    apply wp_bind, wp_kassert. split; [apply Z.ltb_lt; lia|]. assert (u_resid u1 = Z.of_nat m) as Eu by lia. rewrite Eu. destruct (Z.ltb_spec 0 (Z.of_nat m)) as [Hpos|Hz].
    + eapply wp_mono; [apply (wp_partial s1 w1 I1 sv x1 u1 0 m); try done; [exact (readable_later _ _ _ Hsm Hrd Hl ltac:(lia))|rewrite Hp1; by rewrite Nat.Div0.mod_add|lia|lia|lia]|]. done.
    + apply wp_ret, Hseq. replace m with 0%nat by lia. by apply io_post_zero, Hsm1.
Qed.

Lemma wp_io_blocks s w I sv x u n :
  shows R s w → fs_ok nb w I → w_nodes w !! sv = Some x → small u → readable u → nb * 512 < 2 ^ 32 → u_resid u = Z.of_nat n →
  wp (io_blocks sv u) (io_post w I sv x u n) s.
Proof using.
  intros Hs Hok Hx Hsm Hrd Hnb Hn. destruct (small_block u Hsm) as (_ & _ & Er). destruct (pos_block (pos u)) as [Ep Hp]. unfold io_blocks. rewrite Er.
  apply wp_bind. destruct (Z.eqb_spec (Z.of_nat (pos u `mod` 512)) 0) as [E0|E0]; cbn [negb].
  - apply wp_ret. cbn [Z.eqb negb]. destruct (Z.eqb_spec (u_resid u) 0) as [Ez|Ez].
    + apply wp_ret. replace n with 0%nat by lia. by apply io_post_zero, Hsm.
    + by apply wp_tail; try lia.
  - set (len := Nat.min (512 - pos u `mod` 512) n). unfold SFS_BLOCKSIZE.
    replace (if u_resid u <? 512 - Z.of_nat (pos u `mod` 512) then u_resid u else 512 - Z.of_nat (pos u `mod` 512)) with (Z.of_nat len).
    2:{ destruct (Z.ltb_spec (u_resid u) (512 - Z.of_nat (pos u `mod` 512))); unfold len; lia. }
    eapply wp_mono; [apply (wp_partial s w I sv x u (pos u `mod` 512) len); (done || lia)|]. intros [e u1] s1 Hpost.
    replace n with (len + (n - len))%nat by lia.
    destruct (io_post_seq w I sv x u len (n - len) _ s1 Hsm Hrd Hpost) as [[Hne Hp']|(E & Hl & w1 & I1 & x1 & Hs1 & Hok1 & Hx1 & Hseq)]; cbn [fst snd] in *.
    + rewrite (proj2 (Z.eqb_neq e 0)) by done. cbn [negb]. by apply wp_ret.
    + subst e. cbn [Z.eqb negb]. pose proof (ul_resid _ _ _ Hl) as Hr1. destruct (small_later _ _ _ Hsm Hl ltac:(lia)) as [Hsm1 Hp1]. rewrite Nat2Z.id in Hp1.
      destruct (Z.eqb_spec (u_resid u1) 0) as [Ez|Ez].
      * apply wp_ret, Hseq. replace (n - len)%nat with 0%nat by lia. by apply io_post_zero, Hsm1.
      * eapply wp_mono; [apply (wp_tail s1 w1 I1 sv x1 u1 (n - len)); try done; [exact (readable_later _ _ _ Hsm Hrd Hl ltac:(lia))| |lia]|done].
         assert (len = 512 - pos u `mod` 512)%nat as El by lia. rewrite Hp1, El.
         replace (pos u + (512 - pos u `mod` 512))%nat with (0 + S (pos u / 512) * 512)%nat by lia. by rewrite Nat.Div0.mod_add.
Qed.
End io.
