(* ===== verification/SfsIo.v ===== *)
(** * Reads and writes of whole files

    [contents] is what a program sees of a file: the bytes up to its size.
    [sfs_io] reads them up to the end of the file, and a write changes them
    the way [file_write] does; the other files keep theirs. *)

From S2P Require Import Prelude Machine Spinlock Pt Kernel Xfer Lhd Bitmap Array Sfs SfsInv SfsOk SfsBmap SfsFile.

(** Nothing was left after the end of the file. *)
Definition tidy (D : list (list Z)) (i : sfs_dinode) : Prop := ∀ n, (Z.to_nat (sfi_size i) ≤ n)%nat → raw D i n = 0.

(** What a read of [len] bytes at [off] gives *)
Lemma contents_read D i off len : 0 ≤ off → 0 ≤ len → 0 ≤ sfi_size i →
  file_read off len (contents D i) = range D i (Z.to_nat off) (Z.to_nat (Z.min len (sfi_size i - off))).
Proof.
  intros Ho Hl Hs. apply list_eq. intros j. unfold file_read, contents. destruct (decide (Z.of_nat j < Z.min len (sfi_size i - off))) as [Hj|Hj].
  - rewrite lookup_take_lt, lookup_drop, !range_lookup by lia. done.
  - rewrite !lookup_ge_None_2; [done|len|len].
Qed.

(** The file after a write, when its size is set *)
Lemma contents_write D D' i i' off bs :
  tidy D i → 0 ≤ sfi_size i → (0 < length bs)%nat → sfi_size i' = Z.max (sfi_size i) (Z.of_nat (off + length bs)) →
  (∀ n, raw D' i' n = if decide (off ≤ n < off + length bs)%nat then default 0 (bs !! (n - off)%nat) else raw D i n) →
  contents D' i' = file_write (Z.of_nat off) bs (contents D i) ∧ tidy D' i'.
Proof.
  intros Ht Hs Hbs Hsz Hraw. split.
  - apply list_eq. intros n. rewrite file_write_lookup by lia. unfold contents. destruct (decide (Z.of_nat n < sfi_size i')) as [Hn|Hn].
    + rewrite range_lookup, Nat.add_0_l, Hraw by lia. destruct (decide (off ≤ n < off + length bs)%nat) as [E|E].
      * rewrite decide_True, Nat2Z.id by lia. destruct (lookup_lt_is_Some_2 bs (n - off) ltac:(lia)) as [b Hb]. by rewrite Hb.
      * rewrite decide_False by lia. destruct (decide (Z.of_nat n < sfi_size i)) as [En|En].
        -- rewrite range_lookup, Nat.add_0_l by lia. by case_decide.
        -- rewrite decide_True by lia. rewrite lookup_ge_None_2 by len. cbn. f_equal. apply Ht. lia.
    + rewrite lookup_ge_None_2 by len. rewrite !decide_False by lia. rewrite lookup_ge_None_2; [done|len].
  - intros n Hn. rewrite Hraw, decide_False by lia. apply Ht. lia.
Qed.

Lemma contents_wrote w I sv x off bs w' I' x' i' : tidy (w_disk w) (sv_i x) → 0 ≤ sfi_size (sv_i x) → wrote w I sv x off bs w' I' x' →
  (∀ k, fblock (w_disk w') i' k = fblock (w_disk w') (sv_i x') k) →
  sfi_size i' = (if (length bs =? 0)%nat then sfi_size (sv_i x) else Z.max (sfi_size (sv_i x)) (Z.of_nat (off + length bs))) →
  contents (w_disk w') i' = (if (length bs =? 0)%nat then contents (w_disk w) (sv_i x) else file_write (Z.of_nat off) bs (contents (w_disk w) (sv_i x))) ∧
  tidy (w_disk w') i'.
Proof.
  intros Ht Hs Hw Hb Hsz. pose proof (wr_bytes _ _ _ _ _ _ _ _ _ Hw) as Hraw. setoid_rewrite <-(same_raw _ _ _ _ Hb) in Hraw.
  destruct (Nat.eqb_spec (length bs) 0) as [E|E]; [|by apply contents_write; try done; lia].
  assert (∀ n, raw (w_disk w') i' n = raw (w_disk w) (sv_i x) n) as Hr by (intros n; rewrite Hraw, decide_False by lia; done).
  split; [unfold contents, range; rewrite Hsz; apply list_fmap_ext; intros; apply Hr|]. intros n Hn. rewrite Hr. apply Ht. by rewrite <-Hsz.
Qed.

Section sfs_io.
Context (R : srest).
Abbreviation nb := (r_nblocks R).
Context {U : Type} {uops : UioOps U} {ulaws : UioLaws U}.

Lemma set_resid_ready n u : small u → 0 ≤ n ≤ u_resid u →
  let u' := u_set_resid n u in
  small u' ∧ u_rw u' = u_rw u ∧ pos u' = pos u ∧ u_offset u' = u_offset u ∧ u_resid u' = n ∧ u_room u' = u_room u ∧ u_done u' = u_done u ∧ u_todo u' = u_todo u.
Proof using.
  intros [[H1 H2 H3 H4 H5] Hs] Hn u'. destruct (u_set_resid_law n u H1) as (K1 & K2 & K3 & K4 & K5 & K6 & K7). fold u' in K1, K2, K3, K4, K5, K6, K7.
  split_and!; try done; [split; [split; (done || lia)|lia]|unfold pos; by rewrite K3].
Qed.

Lemma wp_sfs_io_read s w I sv x u :
  shows R s w → fs_ok nb w I → w_nodes w !! sv = Some x → small u → u_rw u = UIO_READ → nb * 512 < 2 ^ 32 → sfi_size (sv_i x) ≤ 143 * 512 →
  wp (sfs_io sv u) (λ r s', let bs := file_read (u_offset u) (u_resid u) (contents (w_disk w) (sv_i x)) in
    r.1 = 0 ∧ shows R s' w ∧ u_later (Z.of_nat (length bs)) u r.2 ∧ u_done r.2 = u_done u ++ bs) s.
Proof using.
  intros Hs Hok Hx Hsm Hrw Hnb Hsz. pose proof (ok_node _ _ _ Hok sv x Hx) as Hi. destruct (ok_inode _ _ _ Hok _ _ Hi) as [Hsz' _ _ _ _].
  pose proof (proj1 Hsm) as Hu. pose proof (ur_room _ Hu). pose proof (ur_small _ Hu). pose proof (ur_offset _ Hu).
  unfold sfs_io. apply wp_bind. eapply wp_get_sv; [done|done|]. cbn zeta. rewrite contents_read by lia. fold (pos u). set (size := sfi_size (sv_i x)) in *.
  rewrite Hrw. change (bool_decide (UIO_READ = UIO_READ)) with true. change (bool_decide (UIO_READ = UIO_WRITE)) with false. cbn [andb]. destruct (Z.leb_spec size (u_offset u)) as [He|He].
  - apply wp_ret. rewrite Z.min_r by lia. replace (Z.to_nat (size - u_offset u)) with 0%nat by lia. cbn [range fst snd]. rewrite app_nil_r. split_and!; try done. by apply u_later_refl.
  - set (ex := if size <? u_offset u + u_resid u then u32 (u_offset u + u_resid u - size) else 0).
    assert (ex = Z.max 0 (u_offset u + u_resid u - size)) as Ex.
    { unfold ex. destruct (Z.ltb_spec size (u_offset u + u_resid u)); [rewrite u32_id by lia|]; lia. }
    clearbody ex. apply wp_bind, wp_kassert. split; [apply orb_true_iff; destruct (Z.eqb_spec ex 0); [by left|right; apply Z.ltb_lt; lia]|].
    assert (0 ≤ u_resid u - ex ≤ u_resid u) as Hex by lia. destruct (set_resid_ready (u_resid u - ex) u Hsm Hex) as (Hsm1 & Hrw1 & Hp1 & Ho1 & Hr1 & Hro1 & Hd1 & _). set (u1 := u_set_resid (u_resid u - ex) u) in *.
    set (n := Z.to_nat (Z.min (u_resid u) (size - u_offset u))). assert (u_resid u1 = Z.of_nat n) as Hn by (unfold n; lia).
    apply wp_bind. eapply wp_mono; [apply (wp_io_blocks R s w I sv x u1 n); try done|].
    { intros _. rewrite Hp1. unfold pos. lia. }
    intros [e u2] s2 (w' & I' & x' & m & Hs2 & _ & _ & _ & Hl & Hm & Hpost). rewrite Hrw1, Hrw, Hp1 in Hpost. cbn [fst snd] in *.
    destruct Hpost as (-> & -> & -> & -> & Hd). cbn [Z.eqb] in Hm. subst m.
    rewrite (ul_rw _ _ _ Hl), Hrw1, Hrw. change (bool_decide (UIO_READ = UIO_WRITE)) with false. rewrite andb_false_r. cbn [andb].
    apply wp_bind. eapply wp_get_sv; [done|done|]. apply wp_bind, wp_ret, wp_ret. cbn [fst snd]. rewrite length_range. destruct Hl as [L1 L2 L3 L4 L5].
    destruct (u_set_resid_law (u_resid u2 + ex) u2 (ur_fine _ L1)) as (K1 & K2 & K3 & K4 & K5 & K6 & K7). split_and!; [done|done| |by rewrite K6, Hd, Hd1].
    split; [split; (done || lia)|..]; rewrite ?K2, ?K3, ?K4, ?K5; (congruence || lia).
Qed.

(** The bytes [bs] were written at [off] of the file of vnode [sv]. *)
Record file_post (w : sview) (I : gmap Z sfs_dinode) (sv : Z) (x : sfs_vnode) (off : nat) (bs : list Z) (w' : sview) (i' : sfs_dinode) : Prop := {
  fp_ok : fs_ok nb w' (<[sv_ino x := i']> I);
  fp_node : ∃ x', w_nodes w' = <[sv := x']> (w_nodes w) ∧ sv_i x' = i' ∧ sv_ino x' = sv_ino x ∧ vn_abs x' = vn_abs x;
  fp_contents : contents (w_disk w') i' =
    if (length bs =? 0)%nat then contents (w_disk w) (sv_i x) else file_write (Z.of_nat off) bs (contents (w_disk w) (sv_i x));
  fp_tidy : tidy (w_disk w') i';
  fp_type : sfi_type i' = sfi_type (sv_i x);
  fp_links : sfi_linkcount i' = sfi_linkcount (sv_i x);
  fp_other ino i k : I !! ino = Some i → ino ≠ sv_ino x → fblock (w_disk w') i k = fblock (w_disk w) i k;
  fp_max : (0 < length bs)%nat → Z.of_nat (off + length bs) ≤ 143 * 512
}.

(** The size is set after the bytes were written. *)
Lemma wp_set_size s w I sv x off bs w2 I2 x2 (c : bool) e :
  tidy (w_disk w) (sv_i x) → 0 ≤ sfi_size (sv_i x) → wrote w I sv x off bs w2 I2 x2 →
  shows R s w2 → fs_ok nb w2 I2 → w_nodes w2 !! sv = Some x2 → c = negb (length bs =? 0)%nat → e = Z.of_nat (off + length bs) → e < 2 ^ 32 →
  wp (if c && (sfi_size (sv_i x2) <? e) then upd_inode sv (set_sfi_size (u32 e)) else mret tt)
    (λ _ s', ∃ w' i', shows R s' w' ∧ file_post w I sv x off bs w' i' ∧ w_bit w' = w_bit w2) s.
Proof using.
  intros Ht Hsz Hw Hs2 Hok2 Hx2 -> He H32. pose proof (wr_size _ _ _ _ _ _ _ _ _ Hw) as Hsz2. pose proof (contents_wrote w I sv x off bs w2 I2 x2) as Hc.
  destruct (negb (length bs =? 0)%nat && (sfi_size (sv_i x2) <? e)) eqn:Ec.
  - apply andb_true_iff in Ec as [E1%negb_true_iff E2%Z.ltb_lt]. unfold upd_inode. eapply wp_upd_sv; [done|done|]. intros s3 Hs3.
    destruct (set_attr_ok nb w2 I2 Hok2 sv x2 (set_sfi_size (u32 e) (sv_i x2)) Hx2) as [Hok3 Hblk]; [|done|done|].
    { destruct (ok_inode _ _ _ Hok2 _ _ (ok_node _ _ _ Hok2 sv x2 Hx2)) as [A1 A2 A3 A4 A5]. split; try done. apply u32_range. }
    destruct (Hc (set_sfi_size (u32 e) (sv_i x2)) Ht Hsz Hw Hblk) as [C1 C2]; [cbn; rewrite E1, u32_id by lia; lia|].
    destruct Hw as [W1 W2 W3 W4 W5 W6 W7 W8 W9 W10]. eexists _, _. split; [exact Hs3|]. split; [|done]. split; try done.
    + by rewrite W3, W2, insert_insert_eq in Hok3.
    + eexists. split_and!; [cbn; by rewrite W1, insert_insert_eq|done..].
  - apply wp_ret. exists w2, (sv_i x2). destruct (Hc (sv_i x2) Ht Hsz Hw ltac:(done)) as [C1 C2].
    { rewrite Hsz2. destruct (Nat.eqb_spec (length bs) 0); [done|]. apply Z.ltb_ge in Ec. lia. }
    destruct Hw as [W1 W2 W3 W4 W5 W6 W7 W8 W9 W10]. split; [done|]. split; [|done]. split; try done; [by rewrite <-W2|by exists x2].
Qed.

(** A write of the bytes of [u]: [m] of them were written, all when the result is 0. *)
Definition sfs_write_post (w : sview) (I : gmap Z sfs_dinode) (sv : Z) (x : sfs_vnode) (u : U) (r : Z * U) (s' : sfs_st) : Prop :=
  ∃ w' i' (m : nat), shows R s' w' ∧ file_post w I sv x (pos u) (take m (u_todo u)) w' i' ∧ Z.of_nat m ≤ u_resid u ∧ u_later (Z.of_nat m) u r.2 ∧
    if r.1 =? 0 then Z.of_nat m = u_resid u else io_error R w' r.1 (pos u + m).

Lemma wp_sfs_io_write s w I sv x u :
  shows R s w → fs_ok nb w I → w_nodes w !! sv = Some x → small u → u_rw u = UIO_WRITE → nb * 512 < 2 ^ 32 → tidy (w_disk w) (sv_i x) →
  wp (sfs_io sv u) (sfs_write_post w I sv x u) s.
Proof using.
  intros Hs Hok Hx Hsm Hrw Hnb Ht. pose proof (proj1 Hsm) as Hu. pose proof (ur_room _ Hu). pose proof (ur_small _ Hu). pose proof (ur_offset _ Hu).
  destruct (ok_inode _ _ _ Hok _ _ (ok_node _ _ _ Hok sv x Hx)) as [Hsz _ _ _ _].
  unfold sfs_io. apply wp_bind. eapply wp_get_sv; [done|done|]. cbn zeta. rewrite Hrw. change (bool_decide (UIO_WRITE = UIO_READ)) with false. cbn [andb].
  apply wp_bind, wp_kassert. split; [done|]. rewrite Z.sub_0_r. assert (0 ≤ u_resid u ≤ u_resid u) as Hres by lia. destruct (set_resid_ready (u_resid u) u Hsm Hres) as (Hsm1 & Hrw1 & Hp1 & Ho1 & Hr1 & Hro1 & _ & Hd1).
  set (u1 := u_set_resid (u_resid u) u) in *. apply wp_bind. eapply wp_mono; [apply (wp_io_blocks R s w I sv x u1 (Z.to_nat (u_resid u))); try done; [|lia]|].
  { intros E. congruence. }
  intros [e u2] s2 (w2 & I2 & x2 & m & Hs2 & Hok2 & Hx2 & Hm & Hl & He & Hpost). rewrite Hrw1, Hrw, Hp1, Hd1 in Hpost. cbn [fst snd] in *. destruct Hpost as [Hw Hd].
  pose proof (ul_offset _ _ _ Hl) as Ho2. pose proof (ul_resid _ _ _ Hl) as Hr2.
  apply wp_bind. eapply wp_get_sv; [done|done|]. rewrite (ul_rw _ _ _ Hl), Hrw1, Hrw. change (bool_decide (UIO_WRITE = UIO_WRITE)) with true. rewrite andb_true_r.
  assert (u_later (Z.of_nat m) u (u_set_resid (u_resid u2 + 0) u2)) as Hlast.
  { destruct Hl as [L1 L2 L3 L4 L5]. destruct (u_set_resid_law (u_resid u2 + 0) u2 (ur_fine _ L1)) as (K1 & K2 & K3 & K4 & K5 & K6 & K7). destruct L1.
    split; [split; (done || lia)|..]; rewrite ?K2, ?K3, ?K4, ?K5; (congruence || lia). }
  assert (length (take m (u_todo u)) = m) as Hlen by (pose proof (todo_length u Hu Hrw); len). assert (Z.of_nat (pos u) = u_offset u) as Ep by (unfold pos; lia).
  apply wp_bind. eapply wp_mono; [eapply (wp_set_size s2 w I sv x (pos u) (take m (u_todo u))); try done; [lia| | |]|].
  - rewrite Hlen. destruct (Z.eqb_spec (u_resid u2) (u_resid u)), (Nat.eqb_spec m 0); (done || lia).
  - rewrite Hlen. lia.
  - destruct Hsm. lia.
  - intros [] s3 (w3 & i3 & Hs3 & Hfp & Hb). apply wp_ret. exists w3, i3, m. cbn [fst snd]. split_and!; try done; [lia|].
    destruct (e =? 0); [lia|]. unfold io_error in *. by rewrite Hb, <-Hp1.
Qed.
End sfs_io.
