(* ===== verification/SfsTrunc.v ===== *)
(** * Truncating files

    [keeps] says which blocks of a file are left after [sfs_itrunc]; the others
    are free afterwards, and no other file changes. *)

From S2P Require Import Prelude Machine Spinlock Pt Kernel Xfer Lhd Bitmap Array Sfs SfsInv SfsOk SfsBmap.

(** Block [k], when [bl] blocks shall remain: the loop over the indirect block
    compares with [<] where the one over the direct blocks has [<=], and the
    indirect block is not looked at from 142 blocks on. *)
Definition keeps (bl k : nat) : bool := if (k <? 15)%nat then (k <? bl)%nat else (142 <=? bl)%nat || (k <=? bl)%nat.

(** The entries [l] of the blocks from [base] on, the first [n] of them done *)
Definition cut (bl base n : nat) (l : list Z) : list Z := imap (λ k b, if (k <? n)%nat && negb (keeps bl (base + k)) then 0 else b) l.

Lemma cut_lookup bl base n l k : cut bl base n l !! k = (λ b, if (k <? n)%nat && negb (keeps bl (base + k)) then 0 else b) <$> l !! k.
Proof. unfold cut. by rewrite list_lookup_imap. Qed.
Lemma length_cut bl base n l : length (cut bl base n l) = length l.
Proof. unfold cut. apply length_imap. Qed.
#[export] Hint Rewrite length_cut : len.
Lemma cut_0 bl base l : cut bl base 0 l = l.
Proof. apply list_eq. intros k. rewrite cut_lookup. by destruct (l !! k). Qed.

Lemma cut_step bl base n l b : l !! n = Some b →
  cut bl base (S n) l = if negb (keeps bl (base + n)) && negb (b =? 0) then <[n := 0]> (cut bl base n l) else cut bl base n l.
Proof.
  intros Hb. apply list_eq. intros k. pose proof (lookup_lt_Some _ _ _ Hb) as Hlt. destruct (decide (k = n)) as [->|Hne].
  - rewrite cut_lookup, Hb, (proj2 (Nat.ltb_lt n (S n))) by lia. cbn [fmap option_fmap option_map andb].
    destruct (negb (keeps bl (base + n))) eqn:Ek; cbn [andb].
    + destruct (Z.eqb_spec b 0) as [->|]; cbn [negb]; [rewrite cut_lookup, Hb; cbn; by destruct (_ && _)|].
      rewrite list_lookup_insert_eq by len. done.
    + rewrite cut_lookup, Hb. cbn. by rewrite Ek, andb_false_r.
  - assert (((k <? S n) = (k <? n))%nat) as E by (destruct (Nat.ltb_spec k (S n)), (Nat.ltb_spec k n); lia).
    destruct (_ && _); rewrite ?list_lookup_insert_ne by done; rewrite !cut_lookup; by rewrite E.
Qed.

(** A loop over [seqZ 0 n] that threads a value *)
Lemma wp_fold_seqZ {St B} (n : nat) (body : Z → B → M St B) (Inv : nat → B → St → Prop) b s :
  Inv 0%nat b s → (∀ k b' s', (k < n)%nat → Inv k b' s' → wp (body (Z.of_nat k) b') (Inv (S k)) s') →
  wp (fold_list (seqZ 0 (Z.of_nat n)) body b) (Inv n) s.
Proof.
  intros H0 Hstep. apply (wp_fold_list _ _ (λ l b' s', ∃ k, (k ≤ n)%nat ∧ l = seqZ (Z.of_nat k) (Z.of_nat (n - k)) ∧ Inv k b' s')).
  - exists 0%nat. split; [lia|]. split; [f_equal; lia|done].
  - intros z l' b' s' (k & Hk & El & Hi). destruct (decide (k = n)) as [->|Hne]; [by rewrite Nat.sub_diag in El|].
    rewrite seqZ_cons in El by lia. injection El as -> ->. eapply wp_mono; [apply Hstep; [lia|done]|]. intros b2 s2 H2. exists (S k). split; [lia|]. split; [f_equal; lia|done].
  - intros b' s' (k & Hk & El & Hi). destruct (decide (k = n)) as [->|Hne]; [done|]. rewrite seqZ_cons in El by lia. done.
Qed.

(** Roles are given up, and only their blocks are free. *)
Lemma use_shrink nb f f' u u' : use_ok nb f u → (∀ r, u' r = None ∨ u' r = u r) →
  (∀ b, f' b = f b ∨ ∃ r, u r = Some b ∧ u' r = None) → use_ok nb f' u'.
Proof.
  intros [H1 H2 H3] Hu Hf. assert (∀ r b, u' r = Some b → u r = Some b) as Hsub by (intros r b Hr; destruct (Hu r); congruence).
  split; [intros r b Hr; by eapply H1, Hsub| |intros r r' b Hr Hr'; eapply H3; by apply Hsub].
  intros r b Hr. destruct (Hf b) as [->|(r2 & E1 & E2)]; [by eapply H2, Hsub|]. pose proof (H3 _ _ _ (Hsub _ _ Hr) E1). congruence.
Qed.

Section trunc.
Context (R : srest).
Abbreviation nb := (r_nblocks R).
Context (w : sview) (I : gmap Z sfs_dinode) (Hok : fs_ok nb w I) (sv : Z) (x : sfs_vnode) (Hx : w_nodes w !! sv = Some x) (bl : nat).
Abbreviation D := (w_disk w).
Abbreviation i := (sv_i x).

(** The free map when the blocks below [n] are done *)
Definition bits_at (n : nat) (f : Z → bool) : Prop :=
  ∀ b, f b = true ↔ w_bit w b = true ∧ ∀ k, (k < n)%nat → keeps bl k = false → bmap_of D i k ≠ 0 → bmap_of D i k ≠ b.

Lemma bmap_marked k : bmap_of D i k ≠ 0 → w_bit w (bmap_of D i k) = true ∧ 0 ≤ bmap_of D i k < nb.
Proof using Hok Hx.
  intros Hne. pose proof (ok_node _ _ _ Hok sv x Hx) as Hi. split; [|by apply (bmap_range nb w I Hok (sv_ino x))].
  apply (uo_marked _ _ _ (ok_use _ _ _ Hok) (RData (sv_ino x) k)). apply uses_data. eauto.
Qed.

Lemma bmap_inj k k' : bmap_of D i k ≠ 0 → bmap_of D i k = bmap_of D i k' → k = k'.
Proof using Hok Hx.
  intros Hne E. pose proof (ok_node _ _ _ Hok sv x Hx) as Hi.
  assert (RData (sv_ino x) k = RData (sv_ino x) k') as H; [|by injection H].
  apply (uo_inj _ _ _ (ok_use _ _ _ Hok) _ _ (bmap_of D i k)); apply uses_data; [eauto|]. exists i. by rewrite <-E.
Qed.

Lemma bits_step n f : bits_at n f → keeps bl n = false → bmap_of D i n ≠ 0 →
  f (bmap_of D i n) = true ∧ bits_at (S n) (set_bit_at (bmap_of D i n) false f).
Proof using Hok Hx.
  intros Hf Hk Hne. split.
  - apply Hf. split; [by apply bmap_marked|]. intros k Hlt _ Hne' E. pose proof (bmap_inj _ _ Hne' E). lia.
  - intros b. unfold set_bit_at. case_decide as E.
    + split; [done|]. intros [_ H]. by destruct (H n ltac:(lia) Hk Hne).
    + rewrite (Hf b). apply and_iff_compat_l. split; [|intros H k Hlt; apply H; lia].
      intros H k Hlt Hk' Hne'. destruct (decide (k = n)) as [->|]; [congruence|]. apply H; (done || lia).
Qed.

Lemma bits_skip n f : bits_at n f → keeps bl n = true ∨ bmap_of D i n = 0 → bits_at (S n) f.
Proof using.
  intros Hf Hn b. rewrite (Hf b). apply and_iff_compat_l. split; [|intros H k Hlt; apply H; lia].
  intros H k Hlt Hk Hne. destruct (decide (k = n)) as [->|]; [destruct Hn; congruence|]. apply H; (done || lia).
Qed.

(** The view after the blocks below [n] are done *)
Record part (n : nat) (w' : sview) (x' : sfs_vnode) (i' : sfs_dinode) : Prop := {
  pt_disk : w_disk w' = D;
  pt_bits : bits_at n (w_bit w');
  pt_nodes : w_nodes w' = <[sv := x']> (w_nodes w);
  pt_node : x' = mk_sv (vn_ops x) (vn_refcount x) i' (sv_ino x) (sv_dirty x');
  pt_map : w_mapdirty w' = false → w_mapdirty w = false ∧ ∀ b, w_bit w' b = w_bit w b
}.

Lemma part_start : part 0 w x i.
Proof using Hx. split; [done| |by rewrite insert_id|by destruct x|done]. intros b. split; [|by intros []]. intros Hb. split; [done|]. lia. Qed.

Lemma part_node n w' x' i' : part n w' x' i' → w_nodes w' !! sv = Some x' ∧ sv_i x' = i'.
Proof using. intros [_ _ -> Hp _]. split; [apply lookup_insert_eq|by rewrite Hp]. Qed.

Lemma part_skip n w' x' i' : part n w' x' i' → keeps bl n = true ∨ bmap_of D i n = 0 → part (S n) w' x' i'.
Proof using. intros [H1 H2 H3 H4 H5] Hk. split; try done. by apply bits_skip. Qed.

Lemma part_free n w' x' i' : part n w' x' i' → keeps bl n = false → bmap_of D i n ≠ 0 →
  w_bit w' (bmap_of D i n) = true ∧ part (S n) (set_w_bit (bmap_of D i n) false w') x' i'.
Proof using Hok Hx. intros [H1 H2 H3 H4 H5] Hk Hne. destruct (bits_step n _ H2 Hk Hne) as [Hb Hf]. split; [done|]. by split. Qed.

Lemma part_inode n w' x' i' i2 x2 : part n w' x' i' → x2 = set_sv_dirty true (set_sv_i i2 x') →
  part n (set_w_nodes (<[sv := x2]> (w_nodes w')) w') x2 i2.
Proof using. intros [H1 H2 H3 H4 H5] ->. split; try done; cbn; [by rewrite H3, insert_insert_eq|by rewrite H4]. Qed.

Lemma direct_entry (n : nat) : (n < 15)%nat → sfi_direct i !! n = Some (bmap_of D i n).
Proof using Hok Hx.
  intros Hn. destruct (ok_inode _ _ _ Hok _ _ (ok_node _ _ _ Hok sv x Hx)) as [_ _ _ Hl _].
  destruct (lookup_lt_is_Some_2 (sfi_direct i) n ltac:(lia)) as [b Hb]. unfold bmap_of. rewrite (proj2 (Nat.ltb_lt n 15)) by done. by rewrite Hb.
Qed.

(** The loop over the direct blocks *)
Lemma wp_trunc_direct s : shows R s w →
  wp (for_list (seqZ 0 SFS_NDIRECT) (λ k,
        x ← get_sv sv;
        block ← deref (sfi_direct (sv_i x) !! Z.to_nat k);
        if (Z.of_nat bl <=? k) && negb (block =? 0) then
          sfs_bfree block ;;
          upd_inode sv (λ ino, set_sfi_direct (<[Z.to_nat k := 0]> (sfi_direct ino)) ino)
        else mret tt))
     (λ _ s', ∃ w' x', shows R s' w' ∧ part 15 w' x' (set_sfi_direct (cut bl 0 15 (sfi_direct i)) i)) s.
Proof using Hok Hx.
  intros Hs. apply (wp_for_seqZ 15 _ (λ k s', ∃ w' x', shows R s' w' ∧ part (Z.to_nat k) w' x' (set_sfi_direct (cut bl 0 (Z.to_nat k) (sfi_direct i)) i))).
  - done.
  - exists w, x. split; [done|]. rewrite cut_0. replace (set_sfi_direct (sfi_direct i) i) with i by (by destruct i). apply part_start.
  - intros k s' Hk (w' & x' & Hs' & Hp). replace (Z.to_nat (k + 1)) with (S (Z.to_nat k)) by lia. set (n := Z.to_nat k) in *.
    assert (k = Z.of_nat n) as Ek by lia. assert (n < 15)%nat as Hn by lia. clearbody n. subst k. pose proof (direct_entry n ltac:(lia)) as Hd.
    destruct (part_node _ _ _ _ Hp) as [Hx' Hi']. apply wp_bind. eapply wp_get_sv; [done|done|]. rewrite Hi'. cbn [sfi_direct set_sfi_direct].
    rewrite cut_lookup, Hd. cbn [fmap option_fmap option_map]. rewrite (proj2 (Nat.ltb_ge n n)) by lia. cbn [andb]. apply wp_bind, wp_ret.
    rewrite (cut_step bl 0 n _ _ Hd), Nat.add_0_l. assert (keeps bl n = negb (Z.of_nat bl <=? Z.of_nat n)) as Hkeep.
    { unfold keeps. rewrite (proj2 (Nat.ltb_lt n 15)) by lia. destruct (Nat.ltb_spec n bl), (Z.leb_spec (Z.of_nat bl) (Z.of_nat n)); (done || lia). }
    rewrite Hkeep, negb_involutive. destruct (Z.of_nat bl <=? Z.of_nat n) eqn:El; cbn [andb negb].
    + destruct (Z.eqb_spec (bmap_of D i n) 0) as [E0|E0]; cbn [negb].
      * apply wp_ret. exists w', x'. split; [done|]. apply part_skip; auto.
      * destruct (part_free _ _ _ _ Hp Hkeep E0) as [Hb Hp2]. destruct (bmap_marked n E0) as [_ Hr]. apply wp_bind. eapply wp_bfree; [done|done|done|].
        intros s2 Hs2. eapply wp_upd_sv; [exact Hs2|exact Hx'|]. intros s3 Hs3. eexists _, _. split; [exact Hs3|].
        eapply part_inode; [exact Hp2|]. by rewrite Hi'.
    + apply wp_ret. exists w', x'. split; [done|]. apply part_skip; auto.
Qed.

(** The loop over the indirect block *)
Lemma wp_trunc_indirect s w0 x0 i0 :
  shows R s w0 → part 15 w0 x0 i0 → sfi_indirect i ≠ 0 → (bl < 142)%nat →
  wp (trunc_indirect (Z.of_nat bl) (ind_words D i))
     (λ '(idbuf, hasnonzero, iddirty) s', ∃ w', shows R s' w' ∧ part 143 w' x0 i0 ∧ idbuf = cut bl 15 128 (ind_words D i) ∧
        (hasnonzero = false → ∀ k, (k < 128)%nat → idbuf !! k = Some 0) ∧ (hasnonzero = true → ∃ k z, (k < 128)%nat ∧ idbuf !! k = Some z ∧ z ≠ 0) ∧ (iddirty = false → idbuf = ind_words D i)) s.
Proof using Hok Hx.
  intros Hs Hp0 Hne Hbl. unfold trunc_indirect. change SFS_DBPERIDB with (Z.of_nat 128).
  apply (wp_fold_seqZ 128 _ (λ n '(idbuf, hasnonzero, iddirty) s', ∃ w', shows R s' w' ∧ part (15 + n) w' x0 i0 ∧ idbuf = cut bl 15 n (ind_words D i) ∧
        (hasnonzero = false → ∀ k, (k < n)%nat → idbuf !! k = Some 0) ∧ (hasnonzero = true → ∃ k z, (k < n)%nat ∧ idbuf !! k = Some z ∧ z ≠ 0) ∧ (iddirty = false → idbuf = ind_words D i))).
  { exists w0. rewrite cut_0. split_and!; try done. lia. }
  intros n [[idbuf nz] dirty] s' Hn (w' & Hs' & Hp & -> & Hnz & Hsome & Hdirty). pose proof (bmap_entry D i n Hn Hne) as Hd. rewrite Nat2Z.id.
  assert (keeps bl (15 + n) = negb (Z.of_nat bl <? SFS_NDIRECT + Z.of_nat n)) as Hk.
  { unfold keeps, SFS_NDIRECT. rewrite (proj2 (Nat.ltb_ge (15 + n) 15)), (proj2 (Nat.leb_gt 142 bl)) by lia. cbn [orb].
    destruct (Nat.leb_spec (15 + n) bl), (Z.ltb_spec (Z.of_nat bl) (15 + Z.of_nat n)); (done || lia). }
  rewrite cut_lookup, Hd. cbn [fmap option_fmap option_map]. rewrite (proj2 (Nat.ltb_ge n n)) by lia. cbn [andb]. apply wp_bind, wp_ret.
  pose proof (cut_step bl 15 n _ _ Hd) as Hstep. rewrite Hk, negb_involutive in Hstep.
  assert (cut bl 15 (S n) (ind_words D i) !! n = Some (if keeps bl (15 + n) then bmap_of D i (15 + n) else 0)) as Hlast.
  { rewrite cut_lookup, Hd, (proj2 (Nat.ltb_lt n (S n))) by lia. cbn [fmap option_fmap option_map andb]. by destruct (keeps bl (15 + n)). }
  assert (∀ k, (k < n)%nat → cut bl 15 (S n) (ind_words D i) !! k = cut bl 15 n (ind_words D i) !! k) as Hsame.
  { intros k Hlt. rewrite !cut_lookup, (proj2 (Nat.ltb_lt k n)), (proj2 (Nat.ltb_lt k (S n))) by lia. done. }
  replace (15 + S n)%nat with (S (15 + n)) by lia. apply wp_bind.
  destruct ((Z.of_nat bl <? SFS_NDIRECT + Z.of_nat n) && negb (bmap_of D i (15 + n) =? 0)) eqn:Ec.
  - apply andb_true_iff in Ec as [E1 E2%negb_true_iff%Z.eqb_neq]. rewrite E1 in Hk. cbn [negb] in Hk.
    destruct (part_free _ _ _ _ Hp Hk E2) as [Hb Hp2]. destruct (bmap_marked _ E2) as [_ Hr]. apply wp_bind. eapply wp_bfree; [done|done|done|].
    intros s2 Hs2. apply wp_ret. cbn [fst snd]. rewrite <-Hstep, Hlast, Hk. apply wp_bind, wp_ret, wp_ret. cbn [Z.eqb negb].
    exists (set_w_bit (bmap_of D i (15 + n)) false w'). rewrite orb_false_r. split_and!; try done; [|intros (k & z & Hlt & Hz & Hz0)%Hsome; exists k, z; rewrite Hsame by done; auto].
    intros Ez k Hlt. destruct (decide (k = n)) as [->|]; [by rewrite Hlast, Hk|]. rewrite Hsame by lia. apply Hnz; (done || lia).
  - apply wp_ret. cbn [fst snd]. rewrite <-Hstep, Hlast. apply wp_bind, wp_ret, wp_ret. exists w'. split_and!; try done.
    + apply part_skip; [done|]. apply andb_false_iff in Ec as [E1|E2%negb_false_iff%Z.eqb_eq]; [left; by rewrite Hk, E1|by right].
    + intros [Ez El]%orb_false_iff k Hlt. apply negb_false_iff, Z.eqb_eq in El. destruct (decide (k = n)) as [->|]; [by rewrite Hlast, El|]. rewrite Hsame by lia. apply Hnz; (done || lia).
    + intros [(k & z & Hlt & Hz & Hz0)%Hsome|Hl%negb_true_iff%Z.eqb_neq]%orb_true_iff; [exists k, z; rewrite Hsame by done; auto|]. eexists n, _. split; [lia|]. split; [exact Hlast|done].
    + intros Ed. rewrite Hstep. by apply Hdirty.
Qed.

Lemma part_skips n m w' x' i' : part n w' x' i' → (n ≤ m)%nat → (∀ k, (n ≤ k < m)%nat → keeps bl k = true ∨ bmap_of D i k = 0) → part m w' x' i'.
Proof using.
  intros Hp Hle. induction Hle as [|m Hle IH]; [done|]. intros H. apply part_skip; [apply IH; intros k Hk; apply H; lia|apply H; lia].
Qed.

(** Each block whose bit changed was given up. *)
Lemma bits_freed f b : bits_at 143 f → f b = w_bit w b ∨ ∃ k, keeps bl k = false ∧ bmap_of D i k = b ∧ b ≠ 0.
Proof using.
  intros Hf. destruct (decide (Exists (λ k, keeps bl k = false ∧ bmap_of D i k = b ∧ b ≠ 0) (seq 0 143))) as [E|E].
  - right. apply Exists_exists in E as (k & _ & H). eauto.
  - left. destruct (w_bit w b) eqn:Hw.
    + apply Hf. split; [done|]. intros k Hk H1 H2 H3. apply E, Exists_exists. exists k. split; [apply elem_of_seq; lia|]. by subst.
    + destruct (f b) eqn:Hb; [|done]. apply Hf in Hb as [Hb _]. congruence.
Qed.

Lemma freed_bits f k : bits_at 143 f → keeps bl k = false → bmap_of D i k ≠ 0 → f (bmap_of D i k) = false.
Proof using.
  intros Hf Hk Hne. apply not_true_is_false. intros [_ H]%Hf. destruct (decide (k < 143)%nat) as [Hlt|Hge]; [by apply (H k)|].
  apply Hne. unfold bmap_of. rewrite (proj2 (Nat.ltb_ge k 15)), (proj2 (Nat.ltb_ge k 143)) by lia. done.
Qed.

(** The blocks of an inode that was cut *)
Lemma trunc_map D' i' : sfi_direct i' = cut bl 0 15 (sfi_direct i) →
  (∀ o, (o < 128)%nat → (if sfi_indirect i' =? 0 then 0 else default 0 (ind_words D' i' !! o)) = if keeps bl (15 + o) then bmap_of D i (15 + o) else 0) →
  ∀ k, bmap_of D' i' k = if keeps bl k then bmap_of D i k else 0.
Proof using Hok Hx.
  intros Hd Hi k. unfold bmap_of at 1. destruct (Nat.ltb_spec k 15) as [Hlt|Hge].
  - rewrite Hd, cut_lookup, direct_entry by done. rewrite (proj2 (Nat.ltb_lt k 15)) by done. cbn [fmap option_fmap option_map andb plus default from_option id].
    by destruct (keeps bl k).
  - destruct (Nat.ltb_spec k 143) as [Hlt2|Hge2].
    + rewrite Hi by lia. by replace (15 + (k - 15))%nat with k by lia.
    + unfold bmap_of. rewrite (proj2 (Nat.ltb_ge k 15)), (proj2 (Nat.ltb_ge k 143)) by lia. by destruct (keeps bl k).
Qed.

Lemma cut_entry o : (o < 128)%nat → sfi_indirect i ≠ 0 →
  cut bl 15 128 (ind_words D i) !! o = Some (if keeps bl (15 + o) then bmap_of D i (15 + o) else 0).
Proof using.
  intros Ho Hne. rewrite cut_lookup, (bmap_entry D i o Ho Hne), (proj2 (Nat.ltb_lt o 128)) by done. cbn [fmap option_fmap option_map andb]. by destruct (keeps bl (15 + o)).
Qed.

Lemma trunc_ok D' f' dm i' :
  (∀ b, f' b = w_bit w b ∨ ∃ r, uses nb D I r = Some b ∧ uses nb D' (<[sv_ino x := i']> I) r = None) →
  (∀ k, bmap_of D' i' k = if keeps bl k then bmap_of D i k else 0) → (sfi_indirect i' = sfi_indirect i ∨ sfi_indirect i' = 0) →
  (∀ n, 0 ≤ n → (sfi_indirect i ≠ 0 → n ≠ sfi_indirect i) → sector D' n = sector D n) →
  inode_wf i' → Forall (λ s, length s = 512%nat) D' → length D' = length D → (dm = false → w_mapdirty w = false ∧ ∀ b, f' b = w_bit w b) →
  fs_ok nb (mk_view D' f' dm (<[sv := set_sv_dirty true (set_sv_i i' x)]> (w_nodes w))) (<[sv_ino x := i']> I) ∧
  (∀ k, fblock D' i' k = if keeps bl k then fblock D i k else zeros) ∧
  ∀ j ij k, I !! j = Some ij → j ≠ sv_ino x → fblock D' ij k = fblock D ij k.
Proof using Hok Hx.
  intros Hf Hm Hind Hsec Hwf Hlen Hsize Hdm. pose proof (ok_node _ _ _ Hok sv x Hx) as Hi.
  assert (∀ r b, uses nb D I r = Some b → r ≠ RInd (sv_ino x) → sector D' b = sector D b) as Hs.
  { intros r b Hr Hne. apply Hsec; [by apply (use_range nb w I Hok r)|]. intros Hn.
    apply (use_differ nb w I Hok r (RInd (sv_ino x))); [done|apply uses_ind; eauto|done]. }
  assert (∀ j ij k, I !! j = Some ij → j ≠ sv_ino x → bmap_of D' ij k = bmap_of D ij k) as Hother.
  { intros j ij k Hj Hne. unfold bmap_of, ind_words. destruct (k <? 15)%nat; [done|]. destruct (k <? 143)%nat; [|done].
    destruct (Z.eqb_spec (sfi_indirect ij) 0); [done|]. rewrite (Hs (RInd j)); [done|apply uses_ind; eauto|congruence]. }
  split_and!.
  - apply (node_upd_ok nb w I Hok); try done.
    + eapply use_shrink; [apply (ok_use _ _ _ Hok)| |exact Hf]. intros [n|j|j|j k]; cbn [uses].
      * by right.
      * right. destruct (decide (j = sv_ino x)) as [->|Hne]; [by rewrite lookup_insert_eq, Hi|by rewrite lookup_insert_ne].
      * destruct (decide (j = sv_ino x)) as [->|Hne]; [|right; by rewrite lookup_insert_ne]. rewrite lookup_insert_eq, Hi. cbn.
        destruct Hind as [->| ->]; auto.
      * destruct (decide (j = sv_ino x)) as [->|Hne].
        -- rewrite lookup_insert_eq, Hi. cbn. rewrite Hm. destruct (keeps bl k); auto.
        -- right. rewrite lookup_insert_ne by done. destruct (I !! j) as [ij|] eqn:Ej; [|done]. cbn. by rewrite (Hother _ _ _ Ej Hne).
    + intros j ij Hj Hne. apply (Hs (RInode j)); [apply uses_inode; eauto|done].
    + eapply meta_frame; [apply (ok_meta _ _ _ Hok)| |done]. intros n c Hc. by apply (Hs (RMeta n)).
  - intros k. unfold fblock. rewrite Hm. destruct (keeps bl k); [|done]. destruct (Z.eqb_spec (bmap_of D i k) 0); [done|].
    apply (Hs (RData (sv_ino x) k)); [apply uses_data; eauto|done].
  - intros j ij k Hj Hne. unfold fblock. rewrite (Hother _ _ _ Hj Hne). destruct (Z.eqb_spec (bmap_of D ij k) 0); [done|].
    apply (Hs (RData j k)); [apply uses_data; eauto|done].
Qed.

(** What is left of the volume *)
Record truncated (len : Z) (w' : sview) (i' : sfs_dinode) : Prop := {
  tr_ok : fs_ok nb w' (<[sv_ino x := i']> I);
  tr_nodes : w_nodes w' = <[sv := set_sv_dirty true (set_sv_i i' x)]> (w_nodes w);
  tr_size : sfi_size i' = u32 len;
  tr_type : sfi_type i' = sfi_type i;
  tr_links : sfi_linkcount i' = sfi_linkcount i;
  tr_map k : bmap_of (w_disk w') i' k = if keeps bl k then bmap_of D i k else 0;
  tr_blocks k : fblock (w_disk w') i' k = if keeps bl k then fblock D i k else zeros;
  tr_freed k : keeps bl k = false → bmap_of D i k ≠ 0 → w_bit w' (bmap_of D i k) = false;
  tr_only b : w_bit w' b = true → w_bit w b = true;
  tr_indirect : sfi_indirect i' = sfi_indirect i ∨ (sfi_indirect i' = 0 ∧ w_bit w' (sfi_indirect i) = false);
  tr_empty : (∀ k, (15 ≤ k)%nat → keeps bl k = false) → sfi_indirect i' = 0;
  tr_other j ij k : I !! j = Some ij → j ≠ sv_ino x → fblock (w_disk w') ij k = fblock D ij k
}.

Lemma bits_only n f b : bits_at n f → f b = true → w_bit w b = true.
Proof using. intros Hf Hb. by apply Hf in Hb as [? _]. Qed.

(** The last step sets the size; [D'] and [i1] are what the loops left. *)
Lemma trunc_done len D' w1 x1 i1 : part 143 w1 x1 i1 →
  sfi_direct i1 = cut bl 0 15 (sfi_direct i) → sfi_type i1 = sfi_type i → sfi_linkcount i1 = sfi_linkcount i → sfi_waste i1 = sfi_waste i →
  (∀ o, (o < 128)%nat → (if sfi_indirect i1 =? 0 then 0 else default 0 (ind_words D' i1 !! o)) = if keeps bl (15 + o) then bmap_of D i (15 + o) else 0) →
  (∀ n, 0 ≤ n → (sfi_indirect i ≠ 0 → n ≠ sfi_indirect i) → sector D' n = sector D n) →
  Forall (λ s, length s = 512%nat) D' → length D' = length D →
  ∀ f' dm, (f' = w_bit w1 ∧ dm = w_mapdirty w1 ∧ sfi_indirect i1 = sfi_indirect i ∧ ((∀ k, (15 ≤ k)%nat → keeps bl k = false) → sfi_indirect i = 0)) ∨ (f' = set_bit_at (sfi_indirect i) false (w_bit w1) ∧ dm = true ∧ sfi_indirect i1 = 0 ∧ sfi_indirect i ≠ 0) →
  truncated len (mk_view D' f' dm (<[sv := set_sv_dirty true (set_sv_i (set_sfi_size (u32 len) i1) x1)]> (w_nodes w1))) (set_sfi_size (u32 len) i1).
Proof using Hok Hx.
  intros Hp Hd Ht Hl Hw Hind Hsec Hlen Hsize f' dm Hf. pose proof (ok_node _ _ _ Hok sv x Hx) as Hi. destruct (ok_inode _ _ _ Hok _ _ Hi) as [V1 V2 V3 V4 V5].
  set (i' := set_sfi_size (u32 len) i1). pose proof (pt_bits _ _ _ _ Hp) as Hbits.
  assert (∀ k, bmap_of D' i' k = if keeps bl k then bmap_of D i k else 0) as Hm by (by apply trunc_map).
  destruct (trunc_ok D' f' dm i') as (Hok' & Hblk & Hother); try done.
  - intros b. assert (f' b = w_bit w1 b ∨ (b = sfi_indirect i ∧ sfi_indirect i1 = 0 ∧ sfi_indirect i ≠ 0)) as [Eb|(-> & E1 & E2)].
    { destruct Hf as [(-> & _)|(-> & _ & E1 & E2)]; [by left|]. unfold set_bit_at. case_decide; auto. }
    + rewrite Eb. destruct (bits_freed _ b Hbits) as [->|(k & Hk & <- & Hne)]; [by left|]. right. exists (RData (sv_ino x) k).
      split; [apply uses_data; eauto|]. cbn. rewrite lookup_insert_eq. cbn. by rewrite Hm, Hk.
    + right. exists (RInd (sv_ino x)). split; [apply uses_ind; eauto|]. cbn. rewrite lookup_insert_eq. cbn. by rewrite E1.
  - destruct Hf as [(_ & _ & E & _)|(_ & _ & E & _)]; [by left|by right].
  - split; cbn; [apply u32_range|congruence|congruence|by rewrite Hd, length_cut|by rewrite Hw].
  - destruct Hf as [(-> & -> & _)|(_ & -> & _)]; [apply (pt_map _ _ _ _ Hp)|done].
  - assert (set_sv_dirty true (set_sv_i i' x1) = set_sv_dirty true (set_sv_i i' x)) as Ex by (rewrite (pt_node _ _ _ _ Hp); done).
    split; cbn; try done.
    + by rewrite Ex, (pt_nodes _ _ _ _ Hp), insert_insert_eq.
    + by rewrite Ex, (pt_nodes _ _ _ _ Hp), insert_insert_eq.
    + intros k Hk Hne. destruct Hf as [(-> & _)|(-> & _)]; [|unfold set_bit_at; case_decide; [done|]]; by apply freed_bits.
    + intros b. destruct Hf as [(-> & _)|(-> & _)]; [by eapply bits_only|]. unfold set_bit_at. case_decide; [done|]. by eapply bits_only.
    + destruct Hf as [(_ & _ & E & _)|(-> & _ & E & _)]; [by left|right]. split; [done|]. unfold set_bit_at. by rewrite decide_True.
    + intros Hall. destruct Hf as [(_ & _ & -> & E)|(_ & _ & E & _)]; auto.
Qed.

(** The end of the function, after the indirect block was handled *)
Lemma wp_trunc_end len s3 D' w3 x3 i3 : shows R s3 (mk_view D' (w_bit w3) (w_mapdirty w3) (w_nodes w3)) → w_nodes w3 !! sv = Some x3 → sv_i x3 = i3 →
  truncated len (mk_view D' (w_bit w3) (w_mapdirty w3) (<[sv := set_sv_dirty true (set_sv_i (set_sfi_size (u32 len) i3) x3)]> (w_nodes w3))) (set_sfi_size (u32 len) i3) →
  wp ((if negb (0 =? 0) then mret tt else upd_inode sv (set_sfi_size (u32 len))) ;; vfs_biglock_release ;; mret 0)
    (λ r s', r = 0 ∧ ∃ w' i', mounted R s' w' ∧ truncated len w' i') s3.
Proof using.
  intros Hs3 Hx3 Hi3 Ht. cbn [Z.eqb negb]. apply wp_bind. unfold upd_inode. eapply wp_upd_sv; [exact Hs3|exact Hx3|]. intros s4 Hs4. rewrite Hi3 in Hs4.
  apply wp_bind. eapply wp_release; [exact Hs4|]. intros s5 Hs5. apply wp_ret. split; [done|]. eexists _, _. split; [exact Hs5|exact Ht].
Qed.

Lemma view_eq w' : w_disk w' = D → w' = mk_view D (w_bit w') (w_mapdirty w') (w_nodes w').
Proof using. intros <-. by destruct w'. Qed.

Definition cut_inode : sfs_dinode := set_sfi_direct (cut bl 0 15 (sfi_direct i)) i.

(** The indirect block was written back, *)
Lemma trunc_written len w4 x2 : part 143 w4 x2 cut_inode → sfi_indirect i ≠ 0 → (∃ k, (15 ≤ k)%nat ∧ keeps bl k = true) →
  let D' := <[Z.to_nat (sfi_indirect i) := bytes_of (cut bl 15 128 (ind_words D i))]> D in
  truncated len (mk_view D' (w_bit w4) (w_mapdirty w4) (<[sv := set_sv_dirty true (set_sv_i (set_sfi_size (u32 len) cut_inode) x2)]> (w_nodes w4)))
    (set_sfi_size (u32 len) cut_inode).
Proof using Hok Hx.
  intros Hp Hne (k0 & Hk0 & Hkeep) D'. pose proof (ok_node _ _ _ Hok sv x Hx) as Hi. pose proof (ind_range nb w I Hok _ _ Hi) as Hir. pose proof (ok_size _ _ _ Hok) as [Hsz _].
  assert (length (cut bl 15 128 (ind_words D i)) = 128%nat) as Hl by (rewrite length_cut; unfold ind_words; len).
  apply (trunc_done len _ w4 x2 cut_inode); try done.
  - intros o Ho. unfold ind_words at 1. cbn [sfi_indirect set_sfi_direct cut_inode]. rewrite (proj2 (Z.eqb_neq _ 0)) by done. unfold D'.
    rewrite sector_insert_eq by lia. rewrite <-Hl at 1. rewrite <-(app_nil_r (bytes_of _)), words_bytes; [by rewrite (cut_entry o Ho Hne)|].
    apply Forall_lookup. intros k z. rewrite cut_lookup. destruct (ind_words D i !! k) as [b|] eqn:Eb; [|done]. cbn [fmap option_fmap option_map]. intros [= <-].
    pose proof (Forall_lookup_1 _ _ _ _ (ind_words_range nb w I Hok (sv_ino x) i Hi Hne) Eb). by destruct (_ && _).
  - intros n Hn Hd. apply sector_insert_ne; [lia|lia|]. apply not_eq_sym. auto.
  - apply Forall_insert; [apply (ok_sectors _ _ _ Hok)|rewrite length_bytes_of; lia].
  - unfold D'. by rewrite length_insert.
  - left. do 3 (split; [done|]). intros Hall. rewrite Hall in Hkeep; done.
Qed.

(** it did not change, *)
Lemma trunc_same len w4 x2 : part 143 w4 x2 cut_inode → ((∀ k, (15 ≤ k)%nat → keeps bl k = false) → sfi_indirect i = 0) → (∀ k, (15 ≤ k)%nat → keeps bl k = true ∨ bmap_of D i k = 0) →
  truncated len (mk_view D (w_bit w4) (w_mapdirty w4) (<[sv := set_sv_dirty true (set_sv_i (set_sfi_size (u32 len) cut_inode) x2)]> (w_nodes w4)))
    (set_sfi_size (u32 len) cut_inode).
Proof using Hok Hx.
  intros Hp Hempty Hk. apply (trunc_done len D w4 x2 cut_inode); try done; [|apply (ok_sectors _ _ _ Hok)|by left].
  intros o Ho. assert ((if sfi_indirect i =? 0 then 0 else default 0 (ind_words D i !! o)) = bmap_of D i (15 + o)) as E.
  { unfold bmap_of. rewrite (proj2 (Nat.ltb_ge (15 + o) 15)), (proj2 (Nat.ltb_lt (15 + o) 143)) by lia. by replace (15 + o - 15)%nat with o by lia. }
  change (ind_words D cut_inode) with (ind_words D i). cbn [sfi_indirect set_sfi_direct cut_inode]. rewrite E. destruct (Hk (15 + o)%nat ltac:(lia)) as [->| ->]; [done|by destruct (keeps bl _)].
Qed.

(** or it was freed. *)
Lemma trunc_freed len w4 x2 : part 143 w4 x2 cut_inode → sfi_indirect i ≠ 0 → (∀ o, (o < 128)%nat → cut bl 15 128 (ind_words D i) !! o = Some 0) →
  let i6 := set_sfi_indirect 0 cut_inode in let x6 := set_sv_dirty true (set_sv_i i6 x2) in
  truncated len (mk_view D (set_bit_at (sfi_indirect i) false (w_bit w4)) true
     (<[sv := set_sv_dirty true (set_sv_i (set_sfi_size (u32 len) i6) x6)]> (<[sv := x6]> (w_nodes w4)))) (set_sfi_size (u32 len) i6).
Proof using Hok Hx.
  intros Hp Hne Hz i6 x6. pose proof (part_inode _ _ _ _ i6 x6 Hp eq_refl) as Hp6.
  change (<[sv := x6]> (w_nodes w4)) with (w_nodes (set_w_nodes (<[sv := x6]> (w_nodes w4)) w4)).
  apply (trunc_done len D (set_w_nodes (<[sv := x6]> (w_nodes w4)) w4) x6 i6); try done; [|apply (ok_sectors _ _ _ Hok)|by right].
  intros o Ho. specialize (Hz o Ho). rewrite (cut_entry o Ho Hne) in Hz. symmetry. by apply (inj Some) in Hz.
Qed.

Lemma wp_itrunc s len : mounted R s w → Z.of_nat bl = u32 (Z.quot (len + SFS_BLOCKSIZE - 1) SFS_BLOCKSIZE) →
  wp (sfs_itrunc sv len) (λ r s', r = 0 ∧ ∃ w' i', mounted R s' w' ∧ truncated len w' i') s.
Proof using Hok Hx.
  intros Hm Hbl. pose proof (ok_node _ _ _ Hok sv x Hx) as Hi. pose proof (ind_range nb w I Hok _ _ Hi) as Hir. pose proof (ok_size _ _ _ Hok) as [Hsz _].
  unfold sfs_itrunc. cbn zeta. rewrite <-Hbl. apply wp_bind. eapply wp_acquire; [done|]. intros s1 Hs1.
  apply wp_bind. eapply wp_mono; [by apply wp_trunc_direct|]. intros [] s2 (w2 & x2 & Hs2 & Hp2). fold cut_inode in Hp2. destruct (part_node _ _ _ _ Hp2) as [Hx2 Hi2].
  apply wp_bind. eapply wp_get_sv; [done|done|]. rewrite Hi2. cbn [sfi_indirect set_sfi_direct cut_inode]. change (SFS_NDIRECT + SFS_DBPERIDB - 1) with 142. apply wp_bind.
  destruct ((Z.of_nat bl <? 142) && negb (sfi_indirect i =? 0)) eqn:Ec.
  - apply andb_true_iff in Ec as [Elt%Z.ltb_lt Ene%negb_true_iff%Z.eqb_neq]. apply wp_bind.
    eapply wp_readblock; [exact Hs2|lia|rewrite (pt_disk _ _ _ _ Hp2); apply sector_lookup; lia|]. intros s3 Hs3. cbn [fst snd Z.eqb negb]. apply wp_bind.
    eapply wp_mono; [apply (wp_trunc_indirect s3 w2 x2 cut_inode); (done || lia)|]. intros [[idbuf nz] dirty] s4 (w4 & Hs4 & Hp4 & -> & Hnz & Hsome & Hdirty).
    destruct (part_node _ _ _ _ Hp4) as [Hx4 _]. pose proof (pt_disk _ _ _ _ Hp4) as HD4. destruct nz; cbn [negb].
    + assert (∃ k, (15 ≤ k)%nat ∧ keeps bl k = true) as Hkept.
      { destruct (Hsome eq_refl) as (k & z & Hk & Hz & Hz0). exists (15 + k)%nat. split; [lia|]. rewrite (cut_entry k Hk Ene) in Hz. apply (inj Some) in Hz.
        destruct (keeps bl (15 + k)); [done|]. congruence. }
      destruct dirty.
      * eapply wp_writeblock; [exact Hs4|rewrite HD4; lia|rewrite length_bytes_of, length_cut; unfold ind_words; len|]. intros s5 Hs5. rewrite HD4 in Hs5.
        eapply wp_trunc_end; [exact Hs5|done|done|]. apply trunc_written; [done|done|]. exact Hkept.
      * apply wp_ret. rewrite (view_eq w4 HD4) in Hs4. eapply wp_trunc_end; [exact Hs4|done|done|]. apply trunc_same; [done|intros Hall; destruct Hkept as (k & Hk & E); rewrite Hall in E; done|]. intros k Hk.
        destruct (decide (k < 143)%nat) as [Hlt|Hge]; [|right; unfold bmap_of; by rewrite (proj2 (Nat.ltb_ge k 15)), (proj2 (Nat.ltb_ge k 143)) by lia].
        pose proof (cut_entry (k - 15) ltac:(lia) Ene) as Hc. rewrite (Hdirty eq_refl), (bmap_entry D i (k - 15)) in Hc by (done || lia).
        replace (15 + (k - 15))%nat with k in Hc by lia. apply (inj Some) in Hc. destruct (keeps bl k); auto.
    + assert (uses nb D I (RInd (sv_ino x)) = Some (sfi_indirect i)) as Hu by (apply uses_ind; eauto). apply wp_bind.
      eapply wp_bfree; [exact Hs4|lia| |].
      { apply (pt_bits _ _ _ _ Hp4). split; [by apply (uo_marked _ _ _ (ok_use _ _ _ Hok) _ _ Hu)|]. intros k _ _ Hne.
        apply (use_differ nb w I Hok (RData (sv_ino x) k) (RInd (sv_ino x))); [apply uses_data; eauto|done|done]. }
      intros s5 Hs5. apply wp_bind. unfold upd_inode at 1. eapply wp_upd_sv; [exact Hs5|exact Hx4|]. intros s6 Hs6. apply wp_ret. rewrite Hi2 in Hs6.
      set (x6 := set_sv_dirty true (set_sv_i (set_sfi_indirect 0 cut_inode) x2)) in Hs6.
      apply (wp_trunc_end len s6 (w_disk w4) (set_w_nodes (<[sv := x6]> (w_nodes w4)) (set_w_bit (sfi_indirect i) false w4)) x6 (set_sfi_indirect 0 cut_inode));
        [exact Hs6|apply lookup_insert_eq|done|]. rewrite HD4. apply trunc_freed; [done|done|]. intros o Ho. by apply Hnz.
  - apply wp_ret. rewrite (view_eq w2 (pt_disk _ _ _ _ Hp2)) in Hs2. eapply wp_trunc_end; [exact Hs2|done|done|].
    assert (∀ k, (15 ≤ k)%nat → keeps bl k = true ∨ bmap_of D i k = 0) as Hk; [|apply trunc_same; [eapply part_skips; [exact Hp2|lia|]; intros; apply Hk; lia| |done]].
    2:{ intros Hall. apply andb_false_iff in Ec as [Ege%Z.ltb_ge|E0%negb_false_iff%Z.eqb_eq]; [|done]. specialize (Hall 15%nat ltac:(lia)).
        unfold keeps in Hall. rewrite (proj2 (Nat.leb_le 142 bl)) in Hall by lia. done. }
    intros k Hk. apply andb_false_iff in Ec as [Ege%Z.ltb_ge|E0%negb_false_iff%Z.eqb_eq].
    + left. unfold keeps. rewrite (proj2 (Nat.ltb_ge k 15)), (proj2 (Nat.leb_le 142 bl)) by lia. done.
    + right. unfold bmap_of. rewrite (proj2 (Nat.ltb_ge k 15)), E0 by lia. by destruct (k <? 143)%nat.
Qed.
End trunc.
