(* ===== verification/SfsDir.v ===== *)
(** * The file system: directories and inodes ([kern/fs/sfs])

    The code of [sfs_dir.c] and [sfs_inode.c], with the parts of
    [kern/vfs/vnode.c] it calls.  The reference count of a vnode is used by
    one thread, so its spin lock has no effect and is left out.  A name is the
    list of the bytes before its terminating zero. *)

From S2P Require Import Prelude Machine Spinlock Pt Kernel Xfer Lhd Bitmap Array Sfs.

(** The string a field holds *)
Fixpoint cstring (l : list Z) : list Z :=
  match l with
  | [] => []
  | b :: l' => if b =? 0 then [] else b :: cstring l'
  end.

(** ** The table of vnodes *)

Definition on_vnodes {A} (m : M array A) : M sfs_st A := zoom (λ s, sfs_vnodes (s_fs s)) (λ a s, set_s_fs (set_vnodes a (s_fs s)) s) m.
Definition vnodearray_num : M sfs_st Z := on_vnodes array_num.
Definition vnodearray_get (i : Z) : M sfs_st Z := on_vnodes (array_get i).
Definition vnodearray_remove (i : Z) : M sfs_st () := on_vnodes (array_remove i).
Definition vnodearray_add (v : Z) : M sfs_st Z :=
  ok ← sfs_malloc;
  r ← on_vnodes (array_add (λ n, if (ok : bool) then Some (replicate (Z.to_nat (n / PTR)) 0) else None) v);
  mret r.1.

(** ** Inodes ([sfs_inode.c]) *)

Definition sfs_sync_inode (sv : Z) : M sfs_st Z :=
  x ← get_sv sv;
  if sv_dirty x then
    result ← sfs_writeblock (sv_ino x) (dinode_bytes (sv_i x));
    if negb (result =? 0) then mret result
    else upd_sv sv (set_sv_dirty false) ;; mret 0
  else mret 0.

(** The index of [sv] in the table, from index [i] on; [num] when there is none *)
Definition find_node (sv num : Z) : M sfs_st Z :=
  while (λ i,
    if i <? num then
      sv2 ← vnodearray_get i;
      if sv2 =? sv then mret (inr i) else mret (inl (i + 1))
    else mret (inr num)) 0.

Definition kfree_node (sv : Z) : M sfs_st () := modify (λ s, set_s_nodes (delete sv (s_nodes s)) s).

(** [vnode_cleanup(&sv->sv_absvn)] *)
Definition cleanup_node (sv : Z) : M sfs_st () :=
  x ← get_sv sv;
  kassert (vn_refcount x =? 1) "vn->vn_refcount == 1" ;;
  upd_sv sv (set_refcount 0).

Definition sfs_reclaim (sv : Z) : M sfs_st Z :=
  vfs_biglock_acquire ;;
  x ← get_sv sv;
  if negb (vn_refcount x =? 1) then
    kassert (1 <? vn_refcount x) "v->vn_refcount>1" ;;
    upd_sv sv (set_refcount (vn_refcount x - 1)) ;;
    vfs_biglock_release ;;
    mret EBUSY
  else
    result ← (if sfi_linkcount (sv_i x) =? 0 then sfs_itrunc sv 0 else mret 0);
    if negb (result =? 0) then vfs_biglock_release ;; mret result
    else
      result ← sfs_sync_inode sv;
      if negb (result =? 0) then vfs_biglock_release ;; mret result
      else
        x ← get_sv sv;
        (if sfi_linkcount (sv_i x) =? 0 then sfs_bfree (sv_ino x) else mret tt) ;;
        num ← vnodearray_num;
        ix ← find_node sv num;
        if ix =? num then halt (Panic "sfs: reclaim vnode not in vnode pool")
        else
          vnodearray_remove ix ;;
          cleanup_node sv ;;
          vfs_biglock_release ;;
          kfree_node sv ;;
          mret 0.

(** [VOP_INCREF] and [VOP_DECREF] of [kern/vfs/vnode.c]; both tables of
    operations have [sfs_reclaim]. The count is an unbounded integer here: the
    [int] of the code would need 2^31 references to one vnode to overflow. *)
Definition sfs_incref (sv : Z) : M sfs_st () := x ← get_sv sv; upd_sv sv (set_refcount (vn_refcount x + 1)).
Definition sfs_decref (sv : Z) : M sfs_st () :=
  x ← get_sv sv;
  kassert (0 <? vn_refcount x) "vn->vn_refcount > 0" ;;
  if 1 <? vn_refcount x then upd_sv sv (set_refcount (vn_refcount x - 1))
  else sfs_reclaim sv ;; mret tt.

(** The vnode of inode [ino] in the table *)
Definition search_node (ino num : Z) : M sfs_st (option Z) :=
  while (λ i,
    if i <? num then
      sv ← vnodearray_get i;
      x ← get_sv sv;
      used ← sfs_bused (sv_ino x);
      if negb used then halt (Panic "sfs: Found inode in unallocated block")
      else if sv_ino x =? ino then mret (inr (Some sv))
      else mret (inl (i + 1))
    else mret (inr None)) 0.

(** A vnode that is not in the table is made from the block of the inode. *)
Definition load_new (ino forcetype : Z) : M sfs_st (Z * Z) :=
  ok ← sfs_malloc;
  if negb ok then mret (ENOMEM, 0)
  else
    sv ← gets s_next;
    modify (set_s_next (sv + 1)) ;;
    used ← sfs_bused ino;
    if negb used then halt (Panic "sfs: Tried to load inode from unallocated block")
    else
      r ← sfs_readblock ino;
      if negb (r.1 =? 0) then mret (r.1, 0)
      else
        let i := dinode_of r.2 in
        d ← (if negb (forcetype =? SFS_TYPE_INVAL) then
               kassert (sfi_type i =? SFS_TYPE_INVAL) "sv->sv_i.sfi_type == SFS_TYPE_INVAL" ;;
               mret (set_sfi_type (u16 forcetype) i, true)
             else mret (i, false));
        let '(i, dirty) := d in
        ops ← (if sfi_type i =? SFS_TYPE_FILE then mret sfs_fileops
               else if sfi_type i =? SFS_TYPE_DIR then mret sfs_dirops
               else halt (Panic "sfs: loadvnode: Invalid inode type"));
        modify (λ s, set_s_nodes (<[sv := mk_sv ops 1 i ino dirty]> (s_nodes s)) s) ;;
        result ← vnodearray_add sv;
        if negb (result =? 0) then
          cleanup_node sv ;;
          kfree_node sv ;;
          mret (result, 0)
        else mret (0, sv).

(** The result and [*ret] *)
Definition sfs_loadvnode (ino forcetype : Z) : M sfs_st (Z * Z) :=
  num ← vnodearray_num;
  f ← search_node ino num;
  match f with
  | Some sv =>
      kassert (forcetype =? SFS_TYPE_INVAL) "forcetype==SFS_TYPE_INVAL" ;;
      sfs_incref sv ;;
      mret (0, sv)
  | None => load_new ino forcetype
  end.

Definition sfs_makeobj (type : Z) : M sfs_st (Z * Z) :=
  r ← sfs_balloc;
  if negb (r.1 =? 0) then mret r
  else
    let ino := r.2 in
    r ← sfs_loadvnode ino type;
    (if negb (r.1 =? 0) then sfs_bfree ino else mret tt) ;;
    mret r.

Definition sfs_getroot : M sfs_st (Z * Z) :=
  vfs_biglock_acquire ;;
  r ← sfs_loadvnode SFS_ROOTDIR_INO SFS_TYPE_INVAL;
  if negb (r.1 =? 0) then vfs_biglock_release ;; mret r
  else
    x ← get_sv r.2;
    if negb (sfi_type (sv_i x) =? SFS_TYPE_DIR) then vfs_biglock_release ;; mret (EINVAL, 0)
    else vfs_biglock_release ;; mret r.

(** ** Directories ([sfs_dir.c]) *)

(** The result and the entry *)
Definition sfs_readdir (sv slot : Z) : M sfs_st (Z * sfs_direntry) :=
  let actualpos := u32 (slot * SIZEOF_DIRENTRY) in
  r ← sfs_metaio sv actualpos (replicate 64 0) UIO_READ;
  mret (r.1, direntry_of r.2).

Definition sfs_writedir (sv slot : Z) (sd : sfs_direntry) : M sfs_st Z :=
  kassert (0 <=? slot) "slot>=0" ;;
  let actualpos := u32 (slot * SIZEOF_DIRENTRY) in
  r ← sfs_metaio sv actualpos (direntry_bytes sd) UIO_WRITE;
  mret r.1.

Definition sfs_dir_nentries (sv : Z) : M sfs_st Z :=
  x ← get_sv sv;
  kassert (sfi_type (sv_i x) =? SFS_TYPE_DIR) "sv->sv_i.sfi_type == SFS_TYPE_DIR" ;;
  let size := sfi_size (sv_i x) in
  if negb (Z.rem size SIZEOF_DIRENTRY =? 0) then halt (Panic "sfs: directory: Invalid size")
  else mret (Z.quot size SIZEOF_DIRENTRY).

(** What [sfs_dir_findname] hands back: [*ino] and [*slot], [*emptyslot] *)
Record found : Type := mk_found { fn_entry : option (Z * Z); fn_empty : option Z }.
Definition fn_ino (f : found) : Z := default 0 (fst <$> fn_entry f).
Definition fn_slot (f : found) : Z := default 0 (snd <$> fn_entry f).

(** One turn of the loop *)
Definition find_step (name : list Z) (i : Z) (tsd : sfs_direntry) (f : found) : M sfs_st found :=
  if sfd_ino tsd =? SFS_NOINO then mret (mk_found (fn_entry f) (Some i))
  else if bool_decide (cstring (<[59%nat := 0]> (sfd_name tsd)) = name) then
    kassert (bool_decide (fn_entry f = None)) "found==0" ;;
    mret (mk_found (Some (sfd_ino tsd, i)) (fn_empty f))
  else mret f.

Definition sfs_dir_findname (sv : Z) (name : list Z) : M sfs_st (Z * found) :=
  nentries ← sfs_dir_nentries sv;
  while (λ '(i, f),
    if i <? nentries then
      r ← sfs_readdir sv i;
      if negb (r.1 =? 0) then mret (inr (r.1, f))
      else
        f ← find_step name i r.2 f;
        mret (inl (i + 1, f))
    else mret (inr (if bool_decide (fn_entry f = None) then ENOENT else 0, f))) (0, mk_found None None).

(** The result and [*slot] *)
Definition sfs_dir_link (sv : Z) (name : list Z) (ino : Z) : M sfs_st (Z * Z) :=
  r ← sfs_dir_findname sv name;
  let '(result, f) := r in
  if negb (result =? 0) && negb (result =? ENOENT) then mret (result, 0)
  else if result =? 0 then mret (EEXIST, 0)
  else if SFS_NAMELEN <? Z.of_nat (length name) + 1 then mret (ENAMETOOLONG, 0)
  else
    emptyslot ← (match fn_empty f with
                 | Some i => mret i
                 | None => sfs_dir_nentries sv
                 end);
    let sd := mk_direntry (u32 ino) (name ++ replicate (60 - length name) 0) in
    result ← sfs_writedir sv emptyslot sd;
    mret (result, emptyslot).

Definition sfs_dir_unlink (sv slot : Z) : M sfs_st Z := sfs_writedir sv slot (mk_direntry SFS_NOINO (replicate 60 0)).

(** The result, [*ret] and [*slot] *)
Definition sfs_lookonce (sv : Z) (name : list Z) : M sfs_st (Z * Z * Z) :=
  r ← sfs_dir_findname sv name;
  let '(result, f) := r in
  if negb (result =? 0) then mret (result, 0, 0)
  else
    r ← sfs_loadvnode (fn_ino f) SFS_TYPE_INVAL;
    if negb (r.1 =? 0) then mret (r.1, 0, 0)
    else
      x ← get_sv r.2;
      if sfi_linkcount (sv_i x) =? 0 then halt (Panic "sfs: name has linkcount 0")
      else mret (0, r.2, fn_slot f).
