(* ===== verification/SfsMeta.v ===== *)
(** * Directories as finite maps

    [dirents] are the entries in the contents of a directory and [dir_of] is
    the map from names to inode numbers they stand for.  The routines of
    [sfs_dir.c] look up, insert and delete in this map. *)

From S2P Require Import Prelude Machine Spinlock Pt Kernel Xfer Lhd Bitmap Array Sfs SfsInv SfsOk SfsBmap SfsFile SfsIo SfsDir.

(** ** Input and output of directory entries *)

Section metaio.
Context (R : srest).
Abbreviation nb := (r_nblocks R).

Lemma meta_block (p : nat) : Z.of_nat p < 2 ^ 31 →
  u32 (Z.quot (Z.of_nat p) SFS_BLOCKSIZE) = Z.of_nat (p / 512) ∧ u32 (Z.rem (Z.of_nat p) SFS_BLOCKSIZE) = Z.of_nat (p `mod` 512).
Proof using.
  intros Hp. pose proof (pos_block p) as [Ep Hm]. unfold SFS_BLOCKSIZE. rewrite Z.quot_div_nonneg, Z.rem_mod_nonneg by lia. change 512 with (Z.of_nat 512).
  rewrite <-Nat2Z.inj_div, <-Nat2Z.inj_mod, !u32_id; [done|lia|]. split; [lia|]. lia.
Qed.

Lemma wp_metaio_read s w I sv x p data Q :
  shows R s w → fs_ok nb w I → w_nodes w !! sv = Some x → (p < 143 * 512)%nat → (p `mod` 512 + length data ≤ 512)%nat →
  (∀ s', shows R s' w → Q (0, range (w_disk w) (sv_i x) p (length data)) s') → wp (sfs_metaio sv (Z.of_nat p) data UIO_READ) Q s.
Proof using.
  intros Hs Hok Hx Hp Hle HQ. destruct (meta_block p ltac:(lia)) as [Eb Eo]. destruct (pos_block p) as [Ep Hm]. pose proof (ok_node _ _ _ Hok sv x Hx) as Hi.
  pose proof (bmap_range nb w I Hok _ _ (p / 512) Hi) as Hbr. pose proof (ok_size _ _ _ Hok) as [Hsz _]. unfold sfs_metaio. cbn zeta. rewrite Eb, Eo.
  apply wp_bind. eapply wp_held; [done|]. apply wp_bind, wp_kassert. split; [done|]. change (bool_decide (UIO_READ = UIO_WRITE)) with false. apply wp_bind.
  eapply wp_bmap_read; [done|done|done|lia|]. intros s1 Hs1. rewrite Nat2Z.id. cbn [Z.eqb negb].
  pose proof (block_range (w_disk w) (sv_i x) (p / 512) (p `mod` 512) (length data) (fblock_length nb w I Hok _ _) Hle) as Hr. rewrite <-Ep in Hr.
  destruct (Z.eqb_spec (bmap_of (w_disk w) (sv_i x) (p / 512)) 0) as [E|E].
  - apply wp_bind, wp_kassert. split; [done|]. apply wp_ret. replace (replicate (length data) 0) with (range (w_disk w) (sv_i x) p (length data)); [by apply HQ|].
    rewrite <-Hr. unfold fblock. rewrite E. cbn [Z.eqb]. unfold zeros. rewrite drop_replicate, take_replicate. f_equal. lia.
  - apply wp_bind. eapply wp_readblock; [exact Hs1|lia|apply sector_lookup; lia|]. intros s2 Hs2. cbn [Z.eqb negb].
    rewrite (proj2 (Z.ltb_ge _ _)) by (unfold SFS_BLOCKSIZE; lia). rewrite decide_True by done. apply wp_ret. rewrite Nat2Z.id.
    replace (sector (w_disk w) (bmap_of (w_disk w) (sv_i x) (p / 512))) with (fblock (w_disk w) (sv_i x) (p / 512)); [rewrite Hr; by apply HQ|].
    unfold fblock. by rewrite (proj2 (Z.eqb_neq _ 0)).
Qed.

Definition meta_post (w : sview) (I : gmap Z sfs_dinode) (sv : Z) (x : sfs_vnode) (p : nat) (data : list Z) (r : Z) (s' : sfs_st) : Prop :=
  ∃ w' i', shows R s' w' ∧ if r =? 0 then file_post R w I sv x p data w' i' ∧ (p < 143 * 512)%nat else file_post R w I sv x p [] w' i' ∧ io_error R w' r p ∧ bmap_of (w_disk w) (sv_i x) (p / 512) = 0.

Lemma wp_metaio_write s w I sv x p data :
  shows R s w → fs_ok nb w I → w_nodes w !! sv = Some x → tidy (w_disk w) (sv_i x) → Z.of_nat p < 2 ^ 30 → (0 < length data)%nat → (p `mod` 512 + length data ≤ 512)%nat →
  wp (sfs_metaio sv (Z.of_nat p) data UIO_WRITE) (λ r, meta_post w I sv x p data r.1) s.
Proof using.
  intros Hs Hok Hx Ht Hp Hpos Hle. destruct (meta_block p ltac:(lia)) as [Eb Eo]. destruct (pos_block p) as [Ep Hm]. pose proof (ok_node _ _ _ Hok sv x Hx) as Hi.
  destruct (ok_inode _ _ _ Hok _ _ Hi) as [Hsize _ _ _ _]. unfold sfs_metaio. cbn zeta. rewrite Eb, Eo.
  apply wp_bind. eapply wp_held; [done|]. apply wp_bind, wp_kassert. split; [done|]. change (bool_decide (UIO_WRITE = UIO_WRITE)) with true. apply wp_bind.
  eapply wp_mono; [apply (wp_bmap_alloc R s w I sv x); (done || lia)|]. intros [e b] s1 (w1 & I1 & x1 & Hs1 & Hok1 & Hg & Hmiss & Hcase). cbn [fst snd] in Hcase, Hmiss. rewrite Nat2Z.id in Hmiss.
  assert (w_nodes w1 !! sv = Some x1) as Hx1 by (rewrite (gr_nodes _ _ _ _ _ _ _ Hg); by rewrite lookup_insert_eq).
  pose proof (wrote_grown _ _ _ _ _ _ _ p Hi Hg) as Hw1. destruct Hcase as [(-> & Hfb & Eb1 & Hb)|Herr].
  2:{ assert (e ≠ 0 ∧ io_error R w1 e p) as [He Hio] by (unfold io_error; destruct Herr as [[-> H]|[-> H]]; (split; [done|]); [by left|right; split; [done|lia]]).
      rewrite (proj2 (Z.eqb_neq e 0)) by done. cbn [negb]. apply wp_ret. exists w1, (sv_i x1). split; [done|]. cbn [fst]. rewrite (proj2 (Z.eqb_neq e 0)) by done. split; [|by auto].
      destruct (contents_wrote w I sv x p [] w1 I1 x1 (sv_i x1) Ht ltac:(lia) Hw1 ltac:(done)) as [C1 C2]; [apply (wr_size _ _ _ _ _ _ _ _ _ Hw1)|].
      destruct Hw1 as [W1 W2 W3 W4 W5 W6 W7 W8 W9 W10]. split; try done; [by rewrite <-W2|by exists x1]. }
  cbn [Z.eqb negb]. rewrite Nat2Z.id in Eb1. subst b. rewrite (proj2 (Z.eqb_neq _ 0)) by done. apply wp_bind.
  pose proof (ok_node _ _ _ Hok1 sv x1 Hx1) as Hi1. pose proof (bmap_range nb w1 I1 Hok1 _ _ (p / 512) Hi1) as Hbr. pose proof (ok_size _ _ _ Hok1) as [Hsz _].
  eapply wp_readblock; [done|lia|apply sector_lookup; lia|]. intros s2 Hs2. cbn [Z.eqb negb]. rewrite (proj2 (Z.ltb_ge _ _)) by (unfold SFS_BLOCKSIZE; lia).
  rewrite decide_False by done. replace (sector (w_disk w1) (bmap_of (w_disk w1) (sv_i x1) (p / 512))) with (fblock (w_disk w1) (sv_i x1) (p / 512)).
  2:{ unfold fblock. by rewrite (proj2 (Z.eqb_neq _ 0)). }
  destruct (wrote_block nb w1 I1 sv x1 (p / 512) (p `mod` 512) data Hok1 Hx1 Hb Hle) as [Hok2 Hwr]. rewrite <-Ep in Hwr.
  pose proof (fblock_length nb w1 I1 Hok1 (sv_i x1) (p / 512)) as Hbl. apply wp_bind. eapply wp_writeblock; [exact Hs2|lia|rewrite length_splice; lia|].
  intros s3 Hs3. cbn [Z.eqb negb]. apply wp_bind. eapply wp_get_sv; [exact Hs3|exact Hx1|]. apply wp_bind.
  eapply wp_mono; [eapply (wp_set_size R s3 w I sv x p data _ I1 x1 true); [done|lia| |exact Hs3|exact Hok2|exact Hx1| |lia|lia]|].
  - rewrite <-(app_nil_l data). eapply wrote_app; [exact Hw1|]. cbn [length]. by rewrite Nat.add_0_r.
  - by rewrite (proj2 (Nat.eqb_neq _ 0)) by lia.
  - intros [] s4 (w4 & i4 & Hs4 & Hfp & _). apply wp_ret. exists w4, i4. split; [done|]. split; [done|]. lia.
Qed.
End metaio.

(** ** Entries *)

Definition live (e : sfs_direntry) : Prop := sfd_ino e ≠ SFS_NOINO.
#[export] Instance live_dec e : Decision (live e).
Proof. unfold live. apply _. Defined.
Definition ename (e : sfs_direntry) : list Z := cstring (<[59%nat := 0]> (sfd_name e)).
Definition entry_wf (e : sfs_direntry) : Prop := 0 ≤ sfd_ino e < 2 ^ 32 ∧ length (sfd_name e) = 60%nat.

Lemma length_direntry_bytes e : entry_wf e → length (direntry_bytes e) = 64%nat.
Proof. intros [_ H]. unfold direntry_bytes. by rewrite length_app, H. Qed.

Lemma direntry_roundtrip e : entry_wf e → direntry_of (direntry_bytes e) = e.
Proof.
  intros [Hi Hn]. unfold direntry_of, direntry_bytes. rewrite be32_bytes_value by done. rewrite drop_app_ge by done. cbn [length be32_bytes].
  rewrite length_be32_bytes. cbn [Nat.sub]. rewrite drop_0, take_ge by lia. by destruct e.
Qed.

Lemma cstring_pad nm n : Forall (λ b, b ≠ 0) nm → cstring (nm ++ replicate (S n) 0) = nm.
Proof. induction 1 as [|b nm Hb _ IH]; [done|]. cbn [app cstring]. rewrite (proj2 (Z.eqb_neq b 0)) by done. by rewrite IH. Qed.

(** The entry [sfs_dir_link] makes *)
Definition new_entry (nm : list Z) (ino : Z) : sfs_direntry := mk_direntry (u32 ino) (nm ++ replicate (60 - length nm) 0).

Lemma new_entry_wf nm ino : (length nm ≤ 59)%nat → entry_wf (new_entry nm ino).
Proof. intros H. split; [apply u32_range|]. cbn. len. Qed.

Lemma new_entry_name nm ino : (length nm ≤ 59)%nat → Forall (λ b, b ≠ 0) nm → ename (new_entry nm ino) = nm.
Proof.
  intros H Hnz. unfold ename, new_entry. cbn [sfd_name]. replace (60 - length nm)%nat with (S (59 - length nm)) by lia.
  rewrite list_insert_id; [by apply cstring_pad|]. rewrite lookup_app_r by lia. apply lookup_replicate_2. lia.
Qed.

(** The entries in the bytes [c] of a directory *)
Definition slot_of (c : list Z) (j : nat) : sfs_direntry := direntry_of (file_read (Z.of_nat (64 * j)) 64 c).
Definition dirents (c : list Z) : list sfs_direntry := slot_of c <$> seq 0 (length c / 64).

Lemma dirents_lookup c n j : length c = (64 * n)%nat → dirents c !! j = if (j <? n)%nat then Some (slot_of c j) else None.
Proof.
  intros Hl. unfold dirents. rewrite list_lookup_fmap, Hl, Nat.mul_comm, Nat.div_mul by done. destruct (Nat.ltb_spec j n); [by rewrite lookup_seq_lt|by rewrite lookup_seq_ge].
Qed.
Lemma length_dirents c n : length c = (64 * n)%nat → length (dirents c) = n.
Proof. intros Hl. unfold dirents. by rewrite length_fmap, length_seq, Hl, Nat.mul_comm, Nat.div_mul. Qed.

(** A slot is overwritten, or added at the end. *)
Lemma dirents_write c n j e : length c = (64 * n)%nat → (j ≤ n)%nat → entry_wf e →
  let c' := file_write (Z.of_nat (64 * j)) (direntry_bytes e) c in
  dirents c' = (if (j <? n)%nat then <[j := e]> (dirents c) else dirents c ++ [e]) ∧ length c' = (64 * Nat.max n (S j))%nat.
Proof.
  intros Hl Hj He c'. pose proof (length_direntry_bytes e He) as Hb.
  assert (length c' = (64 * Nat.max n (S j))%nat) as Hl' by (unfold c'; rewrite length_file_write by lia; lia). split; [|done].
  assert (slot_of c' j = e) as Hje.
  { unfold slot_of, c'. replace 64 with (Z.of_nat (length (direntry_bytes e))) by lia. rewrite file_read_write by lia. by apply direntry_roundtrip. }
  assert (∀ k, (k < n)%nat → k ≠ j → slot_of c' k = slot_of c k) as Hother.
  { intros k Hk Hne. unfold slot_of, c'. rewrite file_read_write_ne; [done|lia..]. }
  apply list_eq. intros k. rewrite (dirents_lookup c' _ k Hl'). destruct (Nat.ltb_spec j n) as [Hlt|Hge].
  - rewrite Nat.max_l by lia. destruct (decide (k = j)) as [->|Hne].
    + rewrite list_lookup_insert_eq by (by rewrite (length_dirents c n)). by rewrite (proj2 (Nat.ltb_lt j n)), Hje.
    + rewrite list_lookup_insert_ne, (dirents_lookup c n) by done. destruct (Nat.ltb_spec k n); [by rewrite Hother|done].
  - assert (j = n) as -> by lia. rewrite Nat.max_r by lia. rewrite lookup_app, (dirents_lookup c n), (length_dirents c n) by done.
    destruct (Nat.ltb_spec k n), (Nat.ltb_spec k (S n)); try lia.
    + by rewrite Hother by lia.
    + assert (k = n) as -> by lia. by rewrite Hje, Nat.sub_diag.
    + rewrite lookup_ge_None_2; [done|cbn; lia].
Qed.

(** ** The map a directory stands for *)

Definition dir_of (l : list sfs_direntry) : gmap (list Z) Z := foldr (λ e m, if decide (live e) then <[ename e := sfd_ino e]> m else m) ∅ l.

Definition names_ok (l : list sfs_direntry) : Prop :=
  ∀ j j' e e', l !! j = Some e → l !! j' = Some e' → live e → live e' → ename e = ename e' → j = j'.

Lemma names_ok_cons e l : names_ok (e :: l) → names_ok l.
Proof. intros H j j' a b Hj Hj' Ha Hb E. pose proof (H (S j) (S j') a b Hj Hj' Ha Hb E). lia. Qed.

Lemma dir_of_lookup l nm ino : names_ok l →
  dir_of l !! nm = Some ino ↔ ∃ j e, l !! j = Some e ∧ live e ∧ ename e = nm ∧ sfd_ino e = ino.
Proof.
  induction l as [|e l IH]; intros Hn; cbn [dir_of foldr].
  - rewrite lookup_empty. split; [done|]. intros (j & e & H & _). by rewrite lookup_nil in H.
  - specialize (IH (names_ok_cons e l Hn)). fold (dir_of l).
    assert ((∃ j e0, (e :: l) !! j = Some e0 ∧ live e0 ∧ ename e0 = nm ∧ sfd_ino e0 = ino) ↔
      (live e ∧ ename e = nm ∧ sfd_ino e = ino) ∨ dir_of l !! nm = Some ino) as ->.
    { rewrite IH. split; [intros ([|j] & a & H & H2); [injection H as <-; by left|right; by exists j, a]|intros [H|(j & a & H)]; [by exists 0%nat, e|by exists (S j), a]]. }
    destruct (decide (live e)) as [Hl|Hl]; [|naive_solver]. destruct (decide (ename e = nm)) as [E|E].
    + rewrite <-E, lookup_insert_eq. split; [intros [= <-]; by left|]. intros [(_ & _ & ->)|Hd]; [done|].
      rewrite E in Hd. apply IH in Hd as (j & a & Hj & Ha & Hna & _). pose proof (Hn 0%nat (S j) e a eq_refl Hj Hl Ha ltac:(congruence)). lia.
    + rewrite lookup_insert_ne by done. naive_solver.
Qed.

Lemma dir_of_ext l l' nm : names_ok l → names_ok l' →
  (∀ ino, (∃ j e, l !! j = Some e ∧ live e ∧ ename e = nm ∧ sfd_ino e = ino) ↔ (∃ j e, l' !! j = Some e ∧ live e ∧ ename e = nm ∧ sfd_ino e = ino)) →
  dir_of l !! nm = dir_of l' !! nm.
Proof. intros H1 H2 H. apply option_eq. intros ino. rewrite !dir_of_lookup by done. apply H. Qed.

(** Slot [j] of the entries replaced, or added *)
Definition put (j : nat) (e : sfs_direntry) (l : list sfs_direntry) : list sfs_direntry := if (j <? length l)%nat then <[j := e]> l else l ++ [e].

Lemma put_lookup j e l k : (j ≤ length l)%nat → put j e l !! k = if decide (k = j) then Some e else l !! k.
Proof.
  intros Hj. unfold put. destruct (Nat.ltb_spec j (length l)); case_decide as E.
  - subst. by rewrite list_lookup_insert_eq.
  - by rewrite list_lookup_insert_ne.
  - subst. assert (j = length l) as -> by lia. by rewrite lookup_app_r, Nat.sub_diag.
  - assert (j = length l) as -> by lia. destruct (decide (k < length l)%nat); [by rewrite lookup_app_l|]. rewrite !lookup_ge_None_2; [done|lia|rewrite length_app; cbn; lia].
Qed.

Section dir_update.
Context (l : list sfs_direntry) (Hl : names_ok l) (j : nat) (e : sfs_direntry) (Hj : (j ≤ length l)%nat).
Abbreviation l' := (put j e l).

(** A live entry in a free slot is an insertion. *)
Lemma dir_insert : (∀ e0, l !! j = Some e0 → ¬ live e0) → live e → dir_of l !! ename e = None →
  names_ok l' ∧ dir_of l' = <[ename e := sfd_ino e]> (dir_of l).
Proof using Hl Hj.
  intros Hfree He Hnew.
  assert (∀ k a, l !! k = Some a → live a → ename a ≠ ename e) as Hdiff.
  { intros k a Hk Ha E. assert (dir_of l !! ename e = Some (sfd_ino a)) as H by (apply dir_of_lookup; [done|]; by exists k, a). congruence. }
  assert (names_ok l') as Hok.
  { intros k k' a b Ha Hb La Lb E. rewrite put_lookup in Ha, Hb by done. destruct (decide (k = j)) as [->|], (decide (k' = j)) as [->|]; simplify_eq; [done|..].
    - by destruct (Hdiff k' b Hb Lb).
    - by destruct (Hdiff k a Ha La).
    - by apply (Hl k k' a b). }
  split; [done|]. apply map_eq. intros nm. apply option_eq. intros ino. rewrite dir_of_lookup by done. destruct (decide (nm = ename e)) as [->|Hne].
  - rewrite lookup_insert_eq. split.
    + intros (k & a & Hk & La & En & <-). rewrite put_lookup in Hk by done. destruct (decide (k = j)); [by injection Hk as <-|]. by destruct (Hdiff k a Hk La).
    + intros [= <-]. exists j, e. by rewrite put_lookup, decide_True by done.
  - rewrite lookup_insert_ne by done. rewrite dir_of_lookup by done. split; intros (k & a & Hk & La & En & <-); exists k, a; rewrite put_lookup in * by done.
    + destruct (decide (k = j)); [congruence|done].
    + rewrite decide_False; [done|]. intros ->. by destruct (Hfree a Hk).
Qed.

(** A free entry over a live one is a deletion. *)
Lemma dir_delete e0 : l !! j = Some e0 → live e0 → ¬ live e → names_ok l' ∧ dir_of l' = delete (ename e0) (dir_of l).
Proof using Hl Hj.
  intros H0 L0 He.
  assert (names_ok l') as Hok.
  { intros k k' a b Ha Hb La Lb E. rewrite put_lookup in Ha, Hb by done. destruct (decide (k = j)) as [->|], (decide (k' = j)) as [->|]; simplify_eq; try done. by apply (Hl k k' a b). }
  split; [done|]. apply map_eq. intros nm. apply option_eq. intros ino. rewrite dir_of_lookup by done. destruct (decide (nm = ename e0)) as [->|Hne].
  - rewrite lookup_delete_eq. split; [|done]. intros (k & a & Hk & La & En & <-). rewrite put_lookup in Hk by done. destruct (decide (k = j)) as [->|Hkj]; [by simplify_eq|].
    by destruct Hkj, (Hl k j a e0).
  - rewrite lookup_delete_ne by done. rewrite dir_of_lookup by done. split; intros (k & a & Hk & La & En & <-); exists k, a; rewrite put_lookup in * by done.
    + destruct (decide (k = j)); [by simplify_eq|done].
    + rewrite decide_False; [done|]. intros ->. congruence.
Qed.
End dir_update.

(** ** The routines of [sfs_dir.c] *)

(** A directory: its size is a number of entries, and no name appears twice. *)
Record dir_wf (D : list (list Z)) (i : sfs_dinode) : Prop := {
  dw_type : sfi_type i = SFS_TYPE_DIR;
  dw_size : ∃ n : nat, sfi_size i = Z.of_nat (64 * n) ∧ (n ≤ 143 * 8)%nat;
  dw_names : names_ok (dirents (contents D i))
}.

Section dir.
Context (R : srest).
Abbreviation nb := (r_nblocks R).
Context (w : sview) (I : gmap Z sfs_dinode) (Hok : fs_ok nb w I) (sv : Z) (x : sfs_vnode) (Hx : w_nodes w !! sv = Some x).
Context (Hdir : dir_wf (w_disk w) (sv_i x)).
Abbreviation c := (contents (w_disk w) (sv_i x)).

Lemma dir_length : ∃ n, length c = (64 * n)%nat ∧ sfi_size (sv_i x) = Z.of_nat (64 * n) ∧ (n ≤ 143 * 8)%nat ∧ length (dirents c) = n.
Proof using Hdir.
  destruct (dw_size _ _ Hdir) as (n & Hn & Hle). exists n. assert (length c = (64 * n)%nat) as Hl by (unfold contents; rewrite length_range; lia).
  split_and!; try done. by apply length_dirents.
Qed.

Lemma wp_nentries s Q : shows R s w → (∀ s', shows R s' w → Q (Z.of_nat (length (dirents c))) s') → wp (sfs_dir_nentries sv) Q s.
Proof using Hok Hx Hdir.
  intros Hs HQ. destruct dir_length as (n & Hl & Hsz & Hn & En). rewrite En in HQ. unfold sfs_dir_nentries. apply wp_bind. eapply wp_get_sv; [done|done|].
  apply wp_bind, wp_kassert. split; [by rewrite (dw_type _ _ Hdir)|]. cbn zeta. rewrite Hsz. unfold SIZEOF_DIRENTRY.
  rewrite Z.rem_mod_nonneg, Z.quot_div_nonneg by lia. replace (Z.of_nat (64 * n)) with (Z.of_nat n * 64) by lia. rewrite Z.mod_mul, Z.div_mul by done. cbn. by apply wp_ret, HQ.
Qed.

Lemma wp_readdir s j Q : shows R s w → (j < length (dirents c))%nat → (∀ s', shows R s' w → Q (0, slot_of c j) s') → wp (sfs_readdir sv (Z.of_nat j)) Q s.
Proof using Hok Hx Hdir.
  intros Hs Hj HQ. destruct dir_length as (n & Hl & Hsz & Hn & En). rewrite En in Hj. unfold sfs_readdir. cbn zeta. unfold SIZEOF_DIRENTRY. rewrite u32_id by lia.
  replace (Z.of_nat j * 64) with (Z.of_nat (64 * j)) by lia. apply wp_bind. eapply wp_metaio_read; [done|done|done|lia| |].
  - rewrite length_replicate. destruct (pos_block (64 * j)) as [E1 E2]. lia.
  - intros s' Hs'. apply wp_ret. cbn [fst snd]. rewrite length_replicate.
    replace (range (w_disk w) (sv_i x) (64 * j) 64) with (file_read (Z.of_nat (64 * j)) 64 c); [by apply HQ|].
    rewrite contents_read by lia. rewrite Nat2Z.id. f_equal. lia.
Qed.

(** What the loop knows after the slots below [k] *)
Record found_upto (nm : list Z) (k : nat) (f : found) : Prop := {
  fu_some ino sl : fn_entry f = Some (ino, sl) → ∃ j e, (j < k)%nat ∧ sl = Z.of_nat j ∧ dirents c !! j = Some e ∧ live e ∧ ename e = nm ∧ sfd_ino e = ino;
  fu_none : fn_entry f = None → ∀ j e, (j < k)%nat → dirents c !! j = Some e → live e → ename e ≠ nm;
  fu_empty sl : fn_empty f = Some sl → ∃ j e, (j < k)%nat ∧ sl = Z.of_nat j ∧ dirents c !! j = Some e ∧ ¬ live e;
  fu_full : fn_empty f = None → ∀ j e, (j < k)%nat → dirents c !! j = Some e → live e
}.

Lemma found_next nm k f : found_upto nm k f → (∀ e, dirents c !! k = Some e → live e ∧ ename e ≠ nm) → found_upto nm (S k) f.
Proof using.
  intros [H1 H2 H3 H4] Hk. split.
  - intros ino sl (j & e & Hj & H)%H1. exists j, e. split; [lia|done].
  - intros E j e Hj He Hl. destruct (decide (j = k)) as [->|]; [by apply Hk|]. apply (H2 E j); (done || lia).
  - intros sl (j & e & Hj & H)%H3. exists j, e. split; [lia|done].
  - intros E j e Hj He. destruct (decide (j = k)) as [->|]; [by apply Hk|]. apply (H4 E j); (done || lia).
Qed.

(** One turn *)
Lemma wp_find_step nm k f (s : sfs_st) Q : (k < length (dirents c))%nat → found_upto nm k f → (∀ f', found_upto nm (S k) f' → Q f' s) → wp (find_step nm (Z.of_nat k) (slot_of c k) f) Q s.
Proof using Hdir.
  intros Hk Hf HQ. destruct (dir_length) as (n & Hl & _ & _ & En). assert (dirents c !! k = Some (slot_of c k)) as He.
  { rewrite (dirents_lookup c n) by done. by rewrite (proj2 (Nat.ltb_lt k n)) by lia. }
  unfold find_step. destruct (Z.eqb_spec (sfd_ino (slot_of c k)) SFS_NOINO) as [E|E].
  - apply wp_ret, HQ. assert (¬ live (slot_of c k)) as Hd by (unfold live; auto). destruct Hf as [H1 H2 H3 H4]. split; cbn [fn_entry fn_empty].
    + intros ino sl (j & e & Hj & H)%H1. exists j, e. split; [lia|done].
    + intros En' j e Hj Hje Hlv. destruct (decide (j = k)) as [->|]; [rewrite He in Hje; by injection Hje as <-|]. apply (H2 En' j); (done || lia).
    + intros sl [= <-]. exists k, (slot_of c k). split; [lia|done].
    + done.
  - assert (live (slot_of c k)) as Hlv by done. fold (ename (slot_of c k)). case_bool_decide as En'.
    + assert (fn_entry f = None) as Hnone.
      { destruct (fn_entry f) as [[ino sl]|] eqn:Ef; [|done]. destruct (fu_some _ _ _ Hf _ _ Ef) as (j & e & Hj & _ & Hje & Hle & Hne & _).
        pose proof (dw_names _ _ Hdir j k e _ Hje He Hle Hlv ltac:(congruence)). lia. }
      apply wp_bind, wp_kassert. split; [by rewrite Hnone|]. apply wp_ret, HQ. destruct Hf as [H1 H2 H3 H4]. split; cbn [fn_entry fn_empty].
      * intros ino sl [= <- <-]. exists k, (slot_of c k). split; [lia|done].
      * done.
      * intros sl (j & e & Hj & H)%H3. exists j, e. split; [lia|done].
      * intros Ee j e Hj Hje. destruct (decide (j = k)) as [->|]; [by simplify_eq|]. apply (H4 Ee j); (done || lia).
    + apply wp_ret, HQ, found_next; [done|]. intros e Hke. by simplify_eq.
Qed.

(** [sfs_dir_findname] looks the name up in the map. *)
Lemma wp_findname s nm Q : shows R s w →
  (∀ s' f j e, shows R s' w → found_upto nm (length (dirents c)) f → dirents c !! j = Some e → live e → ename e = nm →
     fn_entry f = Some (sfd_ino e, Z.of_nat j) → dir_of (dirents c) !! nm = Some (sfd_ino e) → Q (0, f) s') →
  (∀ s' f, shows R s' w → found_upto nm (length (dirents c)) f → dir_of (dirents c) !! nm = None → Q (ENOENT, f) s') →
  wp (sfs_dir_findname sv nm) Q s.
Proof using Hok Hx Hdir.
  intros Hs Hyes Hno. destruct dir_length as (n & Hl & _ & Hn & En). pose proof (dw_names _ _ Hdir) as Hnames. unfold sfs_dir_findname. apply wp_bind.
  eapply wp_nentries; [done|]. intros s1 Hs1. rewrite En in *.
  apply (wp_while _ (λ '(i, f) s', ∃ k, i = Z.of_nat k ∧ (k ≤ n)%nat ∧ shows R s' w ∧ found_upto nm k f) (λ '(i, _) _, Z.of_nat n - i)).
  - exists 0%nat. split_and!; try done; [lia|]. split; cbn; try done; lia.
  - intros [i f] s' (k & -> & Hk & _). lia.
  - lia.
  - intros [i f] s' (k & -> & Hk & Hs' & Hf). destruct (Z.ltb_spec (Z.of_nat k) (Z.of_nat n)) as [Hlt|Hge].
    + apply wp_bind. eapply wp_readdir; [done|lia|]. intros s2 Hs2. cbn [fst snd Z.eqb negb]. apply wp_bind. eapply wp_find_step; [lia|done|].
      intros f' Hf'. apply wp_ret. split; [|lia]. exists (S k). split_and!; (done || lia).
    + apply wp_ret. assert (k = n) as -> by lia. destruct (fn_entry f) as [[ino sl]|] eqn:Ef.
      * rewrite bool_decide_eq_false_2 by done. destruct (fu_some _ _ _ Hf _ _ Ef) as (j & e & _ & -> & Hje & Hle & Hne & <-).
        eapply Hyes; try done. apply dir_of_lookup; [done|]. by exists j, e.
      * rewrite bool_decide_eq_true_2 by done. apply Hno; try done. apply eq_None_not_Some. intros [ino (j & e & Hje & Hle & Hne & _)%dir_of_lookup]; [|done].
        apply lookup_lt_Some in Hje as Hlt. rewrite En in Hlt. by apply (fu_none _ _ _ Hf Ef j e).
Qed.

Context (Htidy : tidy (w_disk w) (sv_i x)).

(** The directory afterwards: its entries are [l]. *)
Record dir_post (l : list sfs_direntry) (w' : sview) (i' : sfs_dinode) : Prop := {
  dp_file : ∃ p bs, file_post R w I sv x p bs w' i';
  dp_wf : dir_wf (w_disk w') i';
  dp_list : dirents (contents (w_disk w') i') = l
}.

Lemma file_post_none p w' i' : file_post R w I sv x p [] w' i' → dir_post (dirents c) w' i'.
Proof using Hdir Hok Hx.
  intros Hp. destruct (fp_ok _ _ _ _ _ _ _ _ _ Hp) as [_ _ _ _ Hwf _ _]. pose proof (fp_contents _ _ _ _ _ _ _ _ _ Hp) as Hc. cbn [length Nat.eqb] in Hc.
  destruct (dw_size _ _ Hdir) as (n & Hn & Hle). split; [by exists p, []| |by rewrite Hc]. split; [|exists n; split; [|done]|rewrite Hc; apply (dw_names _ _ Hdir)].
  - rewrite (fp_type _ _ _ _ _ _ _ _ _ Hp). apply (dw_type _ _ Hdir).
  - apply (f_equal length) in Hc. unfold contents in Hc. rewrite !length_range in Hc.
    destruct (Hwf (sv_ino x) i') as [Hr _ _ _ _]; [apply lookup_insert_eq|]. pose proof (iw_size _ (ok_inode _ _ _ Hok _ _ (ok_node _ _ _ Hok sv x Hx))). lia.
Qed.

Lemma file_post_refl p : file_post R w I sv x p [] w (sv_i x).
Proof using Hok Hx Htidy.
  pose proof (ok_node _ _ _ Hok sv x Hx) as Hi. split; try done; [by rewrite insert_id|..|cbn [length]; lia]. exists x. by rewrite insert_id.
Qed.

Lemma wp_writedir s j e : shows R s w → (j ≤ length (dirents c))%nat → entry_wf e → names_ok (put j e (dirents c)) →
  wp (sfs_writedir sv (Z.of_nat j) e)
    (λ r s', ∃ w' i', shows R s' w' ∧ if r =? 0 then dir_post (put j e (dirents c)) w' i' else dir_post (dirents c) w' i' ∧ io_error R w' r (64 * j) ∧ bmap_of (w_disk w) (sv_i x) (64 * j / 512) = 0) s.
Proof using Hok Hx Hdir Htidy.
  intros Hs Hj He Hnames. destruct dir_length as (n & Hl & Hsz & Hn & En). rewrite En in Hj. pose proof (length_direntry_bytes e He) as Hb. unfold sfs_writedir.
  apply wp_bind, wp_kassert. split; [apply Z.leb_le; lia|]. cbn zeta. unfold SIZEOF_DIRENTRY. rewrite u32_id by lia. replace (Z.of_nat j * 64) with (Z.of_nat (64 * j)) by lia.
  apply wp_bind. eapply wp_mono; [apply (wp_metaio_write R s w I sv x (64 * j)); try done; [lia|lia|destruct (pos_block (64 * j)); lia]|].
  intros r s' (w' & i' & Hs' & Hp). apply wp_ret. exists w', i'. split; [done|]. destruct (r.1 =? 0); [|destruct Hp as (Hp & Hio & Hmiss); split; [by eapply file_post_none|done]].
  destruct Hp as [Hp Hmax]. pose proof (fp_contents _ _ _ _ _ _ _ _ _ Hp) as Hc. rewrite Hb in Hc. cbn [Nat.eqb] in Hc.
  destruct (dirents_write c n j e Hl Hj He) as [Hd Hl']. rewrite <-Hc in Hd, Hl'.
  assert (dirents (contents (w_disk w') i') = put j e (dirents c)) as Hput by (rewrite Hd; unfold put; by rewrite En).
  split; [by exists (64 * j)%nat, (direntry_bytes e)| |done]. split; [|exists (Nat.max n (S j)); split; [|lia]|by rewrite Hput].
  - rewrite (fp_type _ _ _ _ _ _ _ _ _ Hp). apply (dw_type _ _ Hdir).
  - unfold contents in Hl'. rewrite length_range in Hl'. destruct (ok_inode _ _ _ (fp_ok _ _ _ _ _ _ _ _ _ Hp) (sv_ino x) i') as [Hr _ _ _ _]; [apply lookup_insert_eq|]. lia.
Qed.

(** The block of an entry in use is there. *)
Lemma live_block j e : dirents c !! j = Some e → live e → bmap_of (w_disk w) (sv_i x) (64 * j / 512) ≠ 0.
Proof using Hdir Hok.
  intros He Hl E. destruct dir_length as (n & Hlen & Hsz & Hn & En). apply lookup_lt_Some in He as Hlt. rewrite (dirents_lookup c n) in He by done.
  rewrite (proj2 (Nat.ltb_lt j n)) in He by lia. injection He as <-. destruct (pos_block (64 * j)) as [Ep Hp]. apply Hl. unfold slot_of. rewrite contents_read by lia.
  replace (Z.to_nat (Z.min 64 (sfi_size (sv_i x) - Z.of_nat (64 * j)))) with 64%nat by lia. rewrite Nat2Z.id, Ep, <-block_range by (lia || by eapply fblock_length).
  unfold fblock. rewrite E. cbn [Z.eqb]. unfold zeros. rewrite drop_replicate, take_replicate, Nat.min_l by lia. done.
Qed.

(** [sfs_dir_unlink] deletes the name of the entry in the slot; it does not
    fail, because the block of the entry is there. *)
Lemma wp_unlink s j e0 : shows R s w → dirents c !! j = Some e0 → live e0 →
  wp (sfs_dir_unlink sv (Z.of_nat j))
    (λ r s', r = 0 ∧ ∃ w' i' l, shows R s' w' ∧ dir_post l w' i' ∧ dir_of l = delete (ename e0) (dir_of (dirents c))) s.
Proof using Hok Hx Hdir Htidy.
  intros Hs Hj0 Hl0. pose proof (lookup_lt_Some _ _ _ Hj0) as Hlt. set (e := mk_direntry SFS_NOINO (replicate 60 0)).
  assert (¬ live e) as He by (unfold live, e; auto). assert (j ≤ length (dirents c))%nat as Hj by lia.
  destruct (dir_delete (dirents c) (dw_names _ _ Hdir) j e Hj e0 Hj0 Hl0 He) as [Hn Hd].
  eapply wp_mono; [apply wp_writedir; try done; split; done|]. intros r s' (w' & i' & Hs' & Hp). destruct (Z.eqb_spec r 0) as [->|Hr].
  - split; [done|]. exists w', i'. eexists. split; [done|]. split; [exact Hp|done].
  - destruct Hp as (_ & _ & Hmiss). by destruct (live_block j e0 Hj0 Hl0).
Qed.

(** [sfs_dir_link] inserts a name; the entry goes to slot [j]. *)
Definition link_post (nm : list Z) (ino : Z) (r : Z * Z) (s' : sfs_st) : Prop :=
  ∃ w' i' l, shows R s' w' ∧ dir_post l w' i' ∧
    if r.1 =? 0 then dir_of (dirents c) !! nm = None ∧ dir_of l = <[nm := ino]> (dir_of (dirents c)) ∧ (length nm ≤ 59)%nat ∧
      ∃ j, r.2 = Z.of_nat j ∧ l = put j (new_entry nm ino) (dirents c) ∧ (j ≤ length (dirents c))%nat ∧ ∀ e, dirents c !! j = Some e → ¬ live e
    else l = dirents c ∧
      ((r.1 = EEXIST ∧ is_Some (dir_of (dirents c) !! nm)) ∨
       (dir_of (dirents c) !! nm = None ∧ ((r.1 = ENAMETOOLONG ∧ (59 < length nm)%nat) ∨ ∃ j, io_error R w' r.1 (64 * j)))).

Lemma wp_link_slot s nm ino j : shows R s w → Forall (λ b, b ≠ 0) nm → 0 < ino < 2 ^ 32 → (length nm ≤ 59)%nat → dir_of (dirents c) !! nm = None →
  (j ≤ length (dirents c))%nat → (∀ e, dirents c !! j = Some e → ¬ live e) →
  wp (result ← sfs_writedir sv (Z.of_nat j) (new_entry nm ino); mret (result, Z.of_nat j)) (link_post nm ino) s.
Proof using Hok Hx Hdir Htidy.
  intros Hs Hnz Hino Hlen Hnew Hj Hfree. pose proof (new_entry_name nm ino Hlen Hnz) as Hname. assert (sfd_ino (new_entry nm ino) = ino) as Ei by (cbn; by rewrite u32_id by lia).
  assert (live (new_entry nm ino)) as Hlive by (unfold live; rewrite Ei; unfold SFS_NOINO; lia).
  destruct (dir_insert (dirents c) (dw_names _ _ Hdir) j (new_entry nm ino) Hj Hfree Hlive ltac:(by rewrite Hname)) as [Hn Hd']. rewrite Hname, Ei in Hd'.
  apply wp_bind. eapply wp_mono; [apply wp_writedir; try done; by apply new_entry_wf|]. intros r s2 (w' & i' & Hs2 & Hp). apply wp_ret. unfold link_post. cbn [fst snd].
  exists w', i'. destruct (r =? 0); [eexists; split; [done|]; split; [exact Hp|]; split_and!; try done; by exists j|].
  destruct Hp as (Hp & Hio & _). eexists. split; [done|]. split; [exact Hp|]. split; [done|]. right. eauto.
Qed.

Lemma wp_link s nm ino : shows R s w → Forall (λ b, b ≠ 0) nm → 0 < ino < 2 ^ 32 → wp (sfs_dir_link sv nm ino) (link_post nm ino) s.
Proof using Hok Hx Hdir Htidy.
  intros Hs Hnz Hino. unfold sfs_dir_link. apply wp_bind. eapply wp_findname; [done| |].
  - intros s1 f j e Hs1 _ Hj He Hn Hf Hd. cbn [Z.eqb negb andb]. apply wp_ret. exists w, (sv_i x), (dirents c). split; [done|]. split; [apply (file_post_none 0), file_post_refl|].
    change (EEXIST =? 0) with false. split; [done|]. left. split; [done|]. by rewrite Hd.
  - intros s1 f Hs1 Hf Hd. change (ENOENT =? 0) with false. change (ENOENT =? ENOENT) with true. cbn [negb andb]. unfold SFS_NAMELEN.
    destruct (Z.ltb_spec 60 (Z.of_nat (length nm) + 1)) as [Hlong|Hshort].
    + apply wp_ret. exists w, (sv_i x), (dirents c). split; [done|]. split; [apply (file_post_none 0), file_post_refl|]. change (ENAMETOOLONG =? 0) with false.
      split; [done|]. right. split; [done|]. left. split; [done|lia].
    + apply wp_bind. destruct (fn_empty f) as [sl|] eqn:Ef.
      * apply wp_ret. destruct (fu_empty _ _ _ Hf _ Ef) as (j & e & Hj & -> & Hje & Hdead). apply wp_link_slot; try done; [lia|lia|]. intros e' He'. by simplify_eq.
      * eapply wp_nentries; [done|]. intros s2 Hs2. apply wp_link_slot; try done; [lia|]. intros e He. apply lookup_lt_Some in He. lia.
Qed.
End dir.
