(* ===== verification/SfsNode.v ===== *)
(** * Inodes and vnodes in the invariant

    What happens to the invariant of a volume when an inode is written to its
    block, when a vnode is made for an inode or goes away, and when a file is
    made or erased; the table of the vnodes in memory. *)

From S2P Require Import Prelude Machine Pt Spinlock Kernel Bitmap Array Xfer Lhd Sfs SfsInv SfsOk SfsBmap SfsFile SfsIo SfsTrunc SfsDir SfsMeta.

(** ** The bytes of an inode *)

Lemma dinode_roundtrip i : inode_wf i → Forall (λ z, 0 ≤ z < 2 ^ 32) (sfi_direct i) → 0 ≤ sfi_indirect i < 2 ^ 32 → dinode_of (dinode_bytes i) = i.
Proof.
  intros [H1 H2 H3 H4 [H5 H6]] Hd Hi. unfold dinode_of, dinode_bytes.
  set (a := be32_bytes (sfi_size i)). set (b := be16_bytes (sfi_type i)). set (c := be16_bytes (sfi_linkcount i)). set (d := bytes_of (sfi_direct i)).
  set (e := be32_bytes (sfi_indirect i)). set (f := bytes_of (sfi_waste i)).
  assert (length d = 60%nat) as Ed by (unfold d; rewrite length_bytes_of; lia).
  replace (be32 (a ++ b ++ c ++ d ++ e ++ f) 0) with (sfi_size i) by (symmetry; by apply be32_bytes_value).
  replace (be16 (a ++ b ++ c ++ d ++ e ++ f) 4) with (sfi_type i) by (symmetry; rewrite (be16_skip a _ 0); by apply be16_bytes_value).
  replace (be16 (a ++ b ++ c ++ d ++ e ++ f) 6) with (sfi_linkcount i) by (symmetry; rewrite (be16_skip a _ (2 + 0)), (be16_skip b); by apply be16_bytes_value).
  replace (be32 (a ++ b ++ c ++ d ++ e ++ f) 68) with (sfi_indirect i).
  2:{ symmetry. rewrite (be32_skip a _ (2 + (2 + (60 + 0)))), (be32_skip b), (be32_skip c), <-Ed, be32_skip. by apply be32_bytes_value. }
  assert (drop 8 (a ++ b ++ c ++ d ++ e ++ f) = d ++ e ++ f) as -> by done.
  replace (words_of 15 (d ++ e ++ f)) with (sfi_direct i) by (unfold d; rewrite <-H4; symmetry; by apply words_bytes).
  assert (drop 72 (a ++ b ++ c ++ d ++ e ++ f) = f) as ->.
  { change 72%nat with (8 + (60 + 4))%nat. rewrite <-!drop_drop. change (drop 8 (a ++ b ++ c ++ d ++ e ++ f)) with (d ++ e ++ f). rewrite drop_app_ge by lia.
    rewrite Ed. done. }
  replace (words_of 110 f) with (sfi_waste i); [by destruct i|]. unfold f. rewrite <-H5, <-(app_nil_r (bytes_of _)). symmetry. by apply words_bytes.
Qed.

Lemma length_dinode_bytes i : inode_wf i → length (dinode_bytes i) = 512%nat.
Proof. intros [_ _ _ H4 [H5 _]]. unfold dinode_bytes. rewrite !length_app, !length_bytes_of, H4, H5. done. Qed.

Section node.
Context (nb : Z) (w : sview) (I : gmap Z sfs_dinode) (Hok : fs_ok nb w I).
Abbreviation D := (w_disk w).
Abbreviation nodes := (w_nodes w).

(** Other vnodes for the same inodes *)
Lemma nodes_ok nodes' :
  (∀ sv x, nodes' !! sv = Some x → I !! sv_ino x = Some (sv_i x)) →
  (∀ sv sv' x x', nodes' !! sv = Some x → nodes' !! sv' = Some x' → sv_ino x = sv_ino x' → sv = sv') →
  (∀ ino, clean nodes' ino → clean nodes ino) → fs_ok nb (set_w_nodes nodes' w) I.
Proof using Hok. intros H1 H2 H3. destruct Hok as [K1 K2 K3 K4 K5 K6 K7 K8]. split; try done. cbn. intros ino i Hi Hc. by apply K4, H3. Qed.

(** A change of the abstract vnode *)
Lemma node_set_ok sv x y : nodes !! sv = Some x → sv_i y = sv_i x → sv_ino y = sv_ino x → sv_dirty y = sv_dirty x →
  fs_ok nb (set_w_nodes (<[sv := y]> nodes) w) I.
Proof using Hok.
  intros Hx Hi Hino Hd. assert (∀ p z, <[sv := y]> nodes !! p = Some z → ∃ z', nodes !! p = Some z' ∧ sv_i z' = sv_i z ∧ sv_ino z' = sv_ino z) as Hpre.
  { intros p z. destruct (decide (p = sv)) as [->|Hne]; [rewrite lookup_insert_eq; intros [= <-]; by exists x|rewrite lookup_insert_ne by done; eauto]. }
  apply nodes_ok.
  - intros p z (z' & Hz & <- & <-)%Hpre. by apply (ok_node _ _ _ Hok p).
  - intros p q z1 z2 (y1 & H1 & _ & E1)%Hpre (y2 & H2 & _ & E2)%Hpre E. apply (ok_one _ _ _ Hok p q y1 y2); [done|done|congruence].
  - intros ino Hc p z Hz E. destruct (decide (p = sv)) as [->|Hne].
    + rewrite Hx in Hz. injection Hz as <-. rewrite <-Hd. apply (Hc sv); [apply lookup_insert_eq|congruence].
    + apply (Hc p); [by rewrite lookup_insert_ne|done].
Qed.

(** A vnode for an inode that had none *)
Lemma node_add_ok sv x : nodes !! sv = None → I !! sv_ino x = Some (sv_i x) → (∀ p z, nodes !! p = Some z → sv_ino z ≠ sv_ino x) →
  fs_ok nb (set_w_nodes (<[sv := x]> nodes) w) I.
Proof using Hok.
  intros Hnew Hi Hfresh. apply nodes_ok.
  - intros p z. destruct (decide (p = sv)) as [->|Hne]; [rewrite lookup_insert_eq; by intros [= <-]|rewrite lookup_insert_ne by done; apply (ok_node _ _ _ Hok)].
  - intros p q z1 z2. destruct (decide (p = sv)) as [->|H1], (decide (q = sv)) as [->|H2]; rewrite ?lookup_insert_eq, ?lookup_insert_ne by done; [done|..].
    + intros [= <-] Hz E. by destruct (Hfresh _ _ Hz).
    + intros Hz [= <-] E. by destruct (Hfresh _ _ Hz).
    + apply (ok_one _ _ _ Hok).
  - intros ino Hc p z Hz E. apply (Hc p); [|done]. rewrite lookup_insert_ne; [done|]. intros ->. congruence.
Qed.

(** A vnode without changes goes away. *)
Lemma node_del_ok sv x : nodes !! sv = Some x → sv_dirty x = false → fs_ok nb (set_w_nodes (delete sv nodes) w) I.
Proof using Hok.
  intros Hx Hd. apply nodes_ok.
  - intros p z [_ Hz]%lookup_delete_Some. by apply (ok_node _ _ _ Hok p).
  - intros p q z1 z2 [_ H1]%lookup_delete_Some [_ H2]%lookup_delete_Some. by apply (ok_one _ _ _ Hok).
  - intros ino Hc p z Hz E. destruct (decide (p = sv)) as [->|Hne]; [by rewrite Hx in Hz; injection Hz as <-|]. apply (Hc p); [|done]. by rewrite lookup_delete_ne.
Qed.

(** Writing the block of an inode changes no file. *)
Lemma inode_frame ino i0 data : I !! ino = Some i0 →
  let D' := <[Z.to_nat ino := data]> D in
  (∀ j ij k, I !! j = Some ij → bmap_of D' ij k = bmap_of D ij k ∧ fblock D' ij k = fblock D ij k) ∧ ∀ j ij, I !! j = Some ij → j ≠ ino → sector D' j = sector D j.
Proof using Hok.
  intros Hi D'. pose proof (inode_range nb w I Hok _ _ Hi) as Hr. assert (uses nb D I (RInode ino) = Some ino) as Hu by (apply uses_inode; eauto). split.
  - intros j ij k Hj. pose proof (ind_range nb w I Hok _ _ Hj). pose proof (bmap_range nb w I Hok _ _ k Hj).
    assert (sfi_indirect ij ≠ 0 → ino ≠ sfi_indirect ij) as H1 by (intros Hne; apply (use_differ nb w I Hok (RInode ino) (RInd j)); [done|apply uses_ind; eauto|done]).
    assert (bmap_of D ij k ≠ 0 → ino ≠ bmap_of D ij k) as H2 by (intros Hne; apply (use_differ nb w I Hok (RInode ino) (RData j k)); [done|apply uses_data; eauto|done]).
    split; [apply bmap_frame|apply fblock_frame]; (done || lia).
  - intros j ij Hj Hne. pose proof (inode_range nb w I Hok _ _ Hj). apply sector_insert_ne; (done || lia).
Qed.

Lemma uses_frame D' : (∀ j ij k, I !! j = Some ij → bmap_of D' ij k = bmap_of D ij k) → ∀ r, uses nb D' I r = uses nb D I r.
Proof using. intros H [n|j|j|j k]; try done. cbn. destruct (I !! j) as [ij|] eqn:Ej; [|done]. cbn. by rewrite (H _ _ _ Ej). Qed.

Lemma inode_words sv x : nodes !! sv = Some x → Forall (λ z, 0 ≤ z < 2 ^ 32) (sfi_direct (sv_i x)) ∧ 0 ≤ sfi_indirect (sv_i x) < 2 ^ 32.
Proof using Hok.
  intros Hx. pose proof (ok_node _ _ _ Hok sv x Hx) as Hi. pose proof (ok_size _ _ _ Hok) as [_ Hnb]. pose proof (ind_range nb w I Hok _ _ Hi). split; [|lia].
  apply Forall_lookup. intros k z Hz. pose proof (iw_direct _ (ok_inode _ _ _ Hok _ _ Hi)) as Hl. apply lookup_lt_Some in Hz as Hlt.
  pose proof (bmap_range nb w I Hok _ _ k Hi) as Hr. unfold bmap_of in Hr. rewrite (proj2 (Nat.ltb_lt k 15)), Hz in Hr by lia. cbn in Hr. lia.
Qed.

Lemma write_inode_ok sv x : nodes !! sv = Some x →
  let D' := <[Z.to_nat (sv_ino x) := dinode_bytes (sv_i x)]> D in
  fs_ok nb (mk_view D' (w_bit w) (w_mapdirty w) (<[sv := set_sv_dirty false x]> nodes)) I ∧ same_files D I D' I.
Proof using Hok.
  intros Hx D'. pose proof (ok_node _ _ _ Hok sv x Hx) as Hi. pose proof (inode_range nb w I Hok _ _ Hi) as Hr. pose proof (ok_size _ _ _ Hok) as [Hsz _].
  destruct (inode_frame _ _ (dinode_bytes (sv_i x)) Hi) as [Hblk Hsec]. fold D' in Hblk, Hsec. destruct (inode_words sv x Hx) as [Hw1 Hw2].
  pose proof (ok_inode _ _ _ Hok _ _ Hi) as Hwf. split.
  - pose proof Hok as [K1 K2 K3 K4 K5 K6 K7 K8]. split; cbn; try done.
    + eapply use_ext; [|exact K1]. apply uses_frame. intros j ij k Hj. by apply (Hblk j).
    + intros p z. destruct (decide (p = sv)) as [->|Hne]; [rewrite lookup_insert_eq; by intros [= <-]|rewrite lookup_insert_ne by done; apply K2].
    + intros p q z1 z2. destruct (decide (p = sv)) as [->|H1], (decide (q = sv)) as [->|H2]; rewrite ?lookup_insert_eq, ?lookup_insert_ne by done; [done|..|apply K3];
        [intros [= <-] Hz|intros Hz [= <-]]; intros E; [by apply (K3 sv q x z2)|by apply (K3 p sv z1 x)].
    + intros j ij Hj Hc. destruct (decide (j = sv_ino x)) as [->|Hne].
      * unfold D'. rewrite sector_insert_eq by lia. rewrite Hi in Hj. injection Hj as <-. by apply dinode_roundtrip.
      * rewrite (Hsec _ _ Hj Hne). apply K4; [done|]. intros p z Hz E. apply (Hc p); [|done]. rewrite lookup_insert_ne; [done|]. intros <-. congruence.
    + apply Forall_insert; [done|]. by apply length_dinode_bytes.
    + unfold D'. by rewrite length_insert.
    + apply (meta_write nb w I Hok (RInode (sv_ino x))); [apply uses_inode; eauto|done|done].
  - intros j. destruct (I !! j) as [ij|] eqn:Ej; [|done]. split; try done. intros k. by apply (Hblk j).
Qed.

(** An inode without blocks goes away with its vnode. *)
Lemma erase_ok sv x f' : nodes !! sv = Some x → sfi_indirect (sv_i x) = 0 → (∀ k, bmap_of D (sv_i x) k = 0) → (∀ b, f' b = set_bit_at (sv_ino x) false (w_bit w) b) →
  fs_ok nb (mk_view D f' true (delete sv nodes)) (delete (sv_ino x) I).
Proof using Hok.
  intros Hx Hind Hm Hf. pose proof (ok_node _ _ _ Hok sv x Hx) as Hi. pose proof Hok as [K1 K2 K3 K4 K5 K6 K7 K8]. split; cbn; try done.
  - assert (use_ok nb (set_bit_at (sv_ino x) false (w_bit w)) (uses nb D (delete (sv_ino x) I))) as [U1 U2 U3].
    { apply (use_del nb _ (uses nb D I) _ (RInode (sv_ino x))); [done|apply uses_inode; eauto|]. intros [n|j|j|j k]; cbn [uses].
      - by rewrite (decide_False (P := RMeta n = _)).
      - destruct (decide (j = sv_ino x)) as [->|Hne]; [by rewrite lookup_delete_eq, decide_True|]. by rewrite lookup_delete_ne, decide_False by congruence.
      - rewrite decide_False by done. destruct (decide (j = sv_ino x)) as [->|Hne]; [|by rewrite lookup_delete_ne]. rewrite lookup_delete_eq, Hi. cbn. by rewrite Hind.
      - rewrite decide_False by done. destruct (decide (j = sv_ino x)) as [->|Hne]; [|by rewrite lookup_delete_ne]. rewrite lookup_delete_eq, Hi. cbn. by rewrite Hm. }
    split; [done| |done]. intros r b Hr. rewrite Hf. by eapply U2.
  - intros p z [Hne Hz]%lookup_delete_Some. rewrite lookup_delete_ne; [by apply (K2 p)|]. intros E. by apply Hne, (K3 sv p x z).
  - intros p q z1 z2 [_ H1]%lookup_delete_Some [_ H2]%lookup_delete_Some. by apply K3.
  - intros ino i [Hne Hino]%lookup_delete_Some Hc. apply K4; [done|]. intros p z Hz E. apply (Hc p); [|done]. rewrite lookup_delete_ne; [done|]. intros <-. congruence.
  - intros ino i [_ Hino]%lookup_delete_Some. by apply (K5 ino).
  - by eapply meta_frame.
Qed.

(** A free block is cleared, whatever its bit becomes. *)
Lemma cleared_ok b f' : w_bit w b = false → 0 ≤ b < nb → (∀ c, w_bit w c = true → f' c = true) →
  let D' := <[Z.to_nat b := zeros]> D in fs_ok nb (mk_view D' f' true nodes) I ∧ same_files D I D' I.
Proof using Hok.
  intros Hf Hb Hf' D'. destruct (clear_free nb w I Hok b Hf Hb) as (Hmap & Hblk & Hsec). fold D' in Hmap, Hblk, Hsec. split.
  - pose proof Hok as [K1 K2 K3 K4 K5 K6 K7 K8]. split; cbn; try done.
    + apply (use_ext nb f' (uses nb D I)); [apply uses_frame, Hmap|]. destruct K1 as [U1 U2 U3]. split; [done| |done]. intros r c Hr. by eapply Hf', U2.
    + intros j ij Hj Hc. rewrite (Hsec _ _ Hj). by apply K4.
    + by apply Forall_insert.
    + unfold D'. by rewrite length_insert.
    + apply (meta_clear nb w I Hok); [done|lia].
  - intros j. destruct (I !! j) as [ij|] eqn:Ej; [|done]. split; try done. intros k. by eapply Hblk.
Qed.

(** A free block becomes the inode of a new file with no blocks. *)
Lemma make_ok b sv x : w_bit w b = false → 0 ≤ b < nb → nodes !! sv = None → sv_ino x = b → sv_dirty x = true →
  inode_wf (sv_i x) → sfi_direct (sv_i x) = replicate 15 0 → sfi_indirect (sv_i x) = 0 →
  let D' := <[Z.to_nat b := zeros]> D in
  I !! b = None ∧ fs_ok nb (mk_view D' (set_bit_at b true (w_bit w)) true (<[sv := x]> nodes)) (<[b := sv_i x]> I) ∧ same_files D I D' I.
Proof using Hok.
  intros Hf Hb Hnew Hino Hd Hwf Hdir Hind D'. destruct (clear_free nb w I Hok b Hf Hb) as (Hmap & Hblk & Hsec). fold D' in Hmap, Hblk, Hsec.
  assert (I !! b = None) as HI.
  { apply eq_None_not_Some. intros Hi. by destruct (use_free nb w I Hok (RInode b) b b ltac:(by apply uses_inode) Hf). }
  assert (∀ E k, bmap_of E (sv_i x) k = 0) as Hm.
  { intros E k. unfold bmap_of. rewrite Hdir, Hind. destruct (Nat.ltb_spec k 15); [by rewrite lookup_replicate_2|by destruct (k <? 143)%nat]. }
  assert (∀ p z, nodes !! p = Some z → sv_ino z ≠ b) as Hfresh by (intros p z Hz%(ok_node _ _ _ Hok) E; congruence).
  split; [done|]. split; [|intros j; destruct (I !! j) as [ij|] eqn:Ej; [|done]; split; try done; intros k; by eapply Hblk].
  pose proof Hok as [K1 K2 K3 K4 K5 K6 K7 K8]. split; cbn; try done.
  - apply (use_add nb _ (uses nb D I) _ (RInode b)); [done|done|done|]. intros [n|j|j|j k]; cbn [uses].
    + by rewrite (decide_False (P := RMeta n = _)).
    + destruct (decide (j = b)) as [->|Hne]; [by rewrite lookup_insert_eq, decide_True|by rewrite lookup_insert_ne, decide_False by congruence].
    + rewrite decide_False by done. destruct (decide (j = b)) as [->|Hne]; [rewrite lookup_insert_eq, HI; cbn; by rewrite Hind|by rewrite lookup_insert_ne].
    + rewrite decide_False by done. destruct (decide (j = b)) as [->|Hne]; [rewrite lookup_insert_eq, HI; cbn; by rewrite Hm|]. rewrite lookup_insert_ne by done.
      destruct (I !! j) as [ij|] eqn:Ej; [|done]. cbn. by rewrite (Hmap _ _ _ Ej).
  - intros p z. destruct (decide (p = sv)) as [->|Hne]; [rewrite lookup_insert_eq; intros [= <-]; by rewrite Hino, lookup_insert_eq|].
    rewrite lookup_insert_ne by done. intros Hz. rewrite lookup_insert_ne; [by apply (K2 p)|]. by apply not_eq_sym, (Hfresh p).
  - intros p q z1 z2. destruct (decide (p = sv)) as [->|H1], (decide (q = sv)) as [->|H2]; rewrite ?lookup_insert_eq, ?lookup_insert_ne by done; [done|..|apply K3].
    + intros [= <-] Hz E. destruct (Hfresh _ _ Hz). congruence.
    + intros Hz [= <-] E. destruct (Hfresh _ _ Hz). congruence.
  - intros j ij Hj Hc. destruct (decide (j = b)) as [->|Hne].
    + specialize (Hc sv x). rewrite lookup_insert_eq in Hc. rewrite Hc in Hd; done.
    + rewrite lookup_insert_ne in Hj by done. rewrite (Hsec _ _ Hj). apply K4; [done|]. intros p z Hz E. apply (Hc p); [|done]. rewrite lookup_insert_ne; [done|]. intros <-. congruence.
  - intros j ij. destruct (decide (j = b)) as [->|Hne]; [rewrite lookup_insert_eq; by intros [= <-]|rewrite lookup_insert_ne by done; apply K5].
  - by apply Forall_insert.
  - unfold D'. by rewrite length_insert.
  - apply (meta_clear nb w I Hok); [done|lia].
Qed.
End node.

(** ** The vnodes in memory

    [table_ok] relates the array of vnodes of a volume to the vnodes; [vol] is
    the invariant of a volume with its vnodes.  [sfs_loadvnode] finds or loads
    a vnode, [sfs_reclaim] writes it back or erases its file. *)

(** The table of operations of an inode *)
Definition ops_of (i : sfs_dinode) : sfs_optable := if sfi_type i =? SFS_TYPE_FILE then sfs_fileops else sfs_dirops.
Definition typed (i : sfs_dinode) : Prop := sfi_type i = SFS_TYPE_FILE ∨ sfi_type i = SFS_TYPE_DIR.

Record table_ok (nb : Z) (a : array) (nodes : gmap Z sfs_vnode) (next : Z) : Prop := {
  tb_wf : arr_wf a;
  tb_max : a_max a ≤ Z.max 4 (2 * nb);
  tb_elems sv : sv ∈ elems a ↔ is_Some (nodes !! sv);
  tb_nodup : NoDup (elems a);
  tb_next : 0 ≤ next ∧ ∀ sv, is_Some (nodes !! sv) → 0 ≤ sv < next;
  tb_node sv x : nodes !! sv = Some x → 0 < vn_refcount x ∧ vn_ops x = ops_of (sv_i x) ∧ typed (sv_i x)
}.

(** What stays when the table changes *)
Definition set_r_vnodes (a : array) (R : srest) : srest := mk_rest (r_sb R) (r_superdirty R) (r_device R) a (r_next R) (r_mallocs R) (r_depth R).
Definition set_r_next (n : Z) (R : srest) : srest := mk_rest (r_sb R) (r_superdirty R) (r_device R) (r_vnodes R) n (r_mallocs R) (r_depth R).
Definition set_r_mallocs (l : list bool) (R : srest) : srest := mk_rest (r_sb R) (r_superdirty R) (r_device R) (r_vnodes R) (r_next R) l (r_depth R).
Definition stable (R R' : srest) : Prop := r_sb R' = r_sb R ∧ r_superdirty R' = r_superdirty R ∧ r_device R' = r_device R ∧ r_depth R' = r_depth R.

#[export] Instance stable_preorder : PreOrder stable.
Proof. split; [done|]. intros R1 R2 R3 (A1 & A2 & A3 & A4) (B1 & B2 & B3 & B4). split_and!; congruence. Qed.

Lemma stable_nblocks R R' : stable R R' → r_nblocks R' = r_nblocks R.
Proof. intros (H & _). unfold r_nblocks. by rewrite H. Qed.

Record vol (R : srest) (s : sfs_st) (w : sview) (I : gmap Z sfs_dinode) : Prop := {
  vo_shows : shows R s w;
  vo_ok : fs_ok (r_nblocks R) w I;
  vo_table : table_ok (r_nblocks R) (r_vnodes R) (w_nodes w) (r_next R);
  vo_small : r_nblocks R * 512 < 2 ^ 32
}.

(** The number of vnodes is bounded by the number of blocks, and there is room
    for one more when some block has no vnode. *)
Lemma table_room nb a w I next l : fs_ok nb w I → table_ok nb a (w_nodes w) next → NoDup l → (∀ ino, ino ∈ l → 0 ≤ ino < nb ∧ ∀ sv x, w_nodes w !! sv = Some x → sv_ino x ≠ ino) →
  Z.of_nat (length l + length (elems a)) ≤ nb.
Proof.
  intros Hok Ht Hnd Hl. pose proof (ok_size _ _ _ Hok) as [Hsz _]. set (f := λ sv, default 0 (sv_ino <$> w_nodes w !! sv)).
  assert (l ++ (f <$> elems a) ⊆+ seqZ 0 nb) as Hsub.
  { apply NoDup_submseteq.
    - apply NoDup_app. split_and!; [done| |].
      + intros ino [_ Hin]%Hl (sv & E & [y Hy]%(tb_elems _ _ _ _ Ht))%list_elem_of_fmap. apply (Hin sv y Hy). rewrite E. unfold f. by rewrite Hy.
      + apply NoDup_fmap_2_strong; [|apply (tb_nodup _ _ _ _ Ht)]. intros p q [y Hy]%(tb_elems _ _ _ _ Ht) [z Hz]%(tb_elems _ _ _ _ Ht). unfold f. rewrite Hy, Hz. cbn.
        by apply (ok_one _ _ _ Hok p q y z).
    - intros n [Hn|(sv & -> & [y Hy]%(tb_elems _ _ _ _ Ht))%list_elem_of_fmap]%elem_of_app; apply elem_of_seqZ; [apply Hl in Hn as [? _]; lia|].
      unfold f. rewrite Hy. cbn. pose proof (inode_range nb w I Hok _ _ (ok_node _ _ _ Hok sv y Hy)). lia. }
  apply submseteq_length in Hsub. rewrite length_app, length_fmap, length_seqZ in Hsub. lia.
Qed.

Lemma table_length nb a w I next : fs_ok nb w I → table_ok nb a (w_nodes w) next → Z.of_nat (length (elems a)) ≤ nb.
Proof. intros Hok Ht. apply (table_room nb a w I next []); [done|done|apply NoDup_nil_2|]. by intros ino ?%elem_of_nil. Qed.

Lemma table_len nb a w I next : fs_ok nb w I → table_ok nb a (w_nodes w) next → Z.of_nat (length (elems a)) < 2 ^ 31.
Proof. intros Hok Ht. pose proof (table_length _ _ _ _ _ Hok Ht). pose proof (ok_size _ _ _ Hok). lia. Qed.

Lemma table_num nb a nodes next : table_ok nb a nodes next → a_num a = Z.of_nat (length (elems a)).
Proof. intros Ht. by rewrite elems_length by apply (tb_wf _ _ _ _ Ht). Qed.

Section table.
Context (R : srest).

Lemma shows_vnodes s w a : shows R s w → shows (set_r_vnodes a R) (set_s_fs (set_vnodes a (s_fs s)) s) w.
Proof using. intros [H1 H2 H3 H4 H5 H6 H7]. split; try done. by rewrite <-H1. Qed.

Lemma wp_on_vnodes {A} s w (m : M array A) r a' Q : shows R s w → m (r_vnodes R) = Ok (r, a') →
  (∀ s', shows (set_r_vnodes a' R) s' w → Q r s') → wp (on_vnodes m) Q s.
Proof using.
  intros Hs Hm HQ. unfold on_vnodes. apply wp_zoom. assert (sfs_vnodes (s_fs s) = r_vnodes R) as -> by (by rewrite <-(sh_rest _ _ _ Hs)).
  unfold wp. rewrite Hm. apply HQ. by apply shows_vnodes.
Qed.

Lemma rest_vnodes : set_r_vnodes (r_vnodes R) R = R.
Proof using. by destruct R. Qed.

Lemma wp_num s w Q : shows R s w → (∀ s', shows R s' w → Q (a_num (r_vnodes R)) s') → wp vnodearray_num Q s.
Proof using. intros Hs HQ. eapply wp_on_vnodes; [done|done|]. by rewrite rest_vnodes. Qed.

Lemma wp_get s w j sv Q : shows R s w → arr_wf (r_vnodes R) → elems (r_vnodes R) !! j = Some sv → (∀ s', shows R s' w → Q sv s') → wp (vnodearray_get (Z.of_nat j)) Q s.
Proof using.
  intros Hs Hwf Hj HQ. pose proof (array_get_run (Z.of_nat j) (r_vnodes R) Hwf ltac:(lia)) as Hrun. rewrite Nat2Z.id, Hj in Hrun.
  eapply wp_on_vnodes; [done|exact Hrun|]. by rewrite rest_vnodes.
Qed.

Lemma wp_malloc s w Q : shows R s w → (∀ s' b, shows (set_r_mallocs (tail (r_mallocs R)) R) s' w → Q b s') → wp sfs_malloc Q s.
Proof using.
  intros Hs HQ. unfold sfs_malloc. apply wp_bind, wp_gets, wp_bind, wp_modify, wp_ret, HQ.
  destruct Hs as [H1 H2 H3 H4 H5 H6 H7]. split; try done. by rewrite <-H1.
Qed.

(** The search for inode [ino] finds its vnode if there is one. *)
Lemma wp_search s w I ino Q : vol R s w I →
  (∀ s' sv x, shows R s' w → w_nodes w !! sv = Some x → sv_ino x = ino → Q (Some sv) s') →
  (∀ s', shows R s' w → (∀ sv x, w_nodes w !! sv = Some x → sv_ino x ≠ ino) → Q None s') →
  wp (search_node ino (a_num (r_vnodes R))) Q s.
Proof using.
  intros [Hs Hok Ht _] Hyes Hno. pose proof (tb_wf _ _ _ _ Ht) as Hwf. rewrite (table_num _ _ _ _ Ht). set (n := length (elems (r_vnodes R))).
  pose proof (table_length _ _ _ _ _ Hok Ht) as Hlen. pose proof (ok_size _ _ _ Hok) as [Hsz Hnb]. fold n in Hlen. unfold search_node.
  apply (wp_while _ (λ i s', ∃ k, i = Z.of_nat k ∧ (k ≤ n)%nat ∧ shows R s' w ∧ ∀ j sv x, (j < k)%nat → elems (r_vnodes R) !! j = Some sv → w_nodes w !! sv = Some x → sv_ino x ≠ ino)
    (λ i _, Z.of_nat n - i)).
  - exists 0%nat. split_and!; (done || lia).
  - intros i s' (k & -> & Hk & _). lia.
  - lia.
  - intros i s' (k & -> & Hk & Hs' & Hprev). destruct (Z.ltb_spec (Z.of_nat k) (Z.of_nat n)) as [Hlt|Hge].
    + destruct (lookup_lt_is_Some_2 (elems (r_vnodes R)) k ltac:(unfold n in *; lia)) as [sv Hsv]. apply wp_bind. eapply wp_get; [done|done|done|]. intros s1 Hs1.
      destruct (proj1 (tb_elems _ _ _ _ Ht sv)) as [x Hx]; [by eapply list_elem_of_lookup_2|]. pose proof (ok_node _ _ _ Hok sv x Hx) as Hi.
      pose proof (inode_range _ w I Hok _ _ Hi) as Hir. apply wp_bind. eapply wp_get_sv; [done|done|]. apply wp_bind. eapply wp_bused; [done|done|]. intros s2 Hs2.
      assert (w_bit w (sv_ino x) = true) as -> by (apply (uo_marked _ _ _ (ok_use _ _ _ Hok) (RInode (sv_ino x))), uses_inode; by rewrite Hi). cbn [negb].
      destruct (Z.eqb_spec (sv_ino x) ino) as [E|E]; apply wp_ret; [by eapply Hyes|]. split; [|lia]. exists (S k). split_and!; [lia|lia|done|].
      intros j sv' x' Hj Hsv' Hx'. destruct (decide (j = k)) as [->|]; [congruence|]. apply (Hprev j sv'); (done || lia).
    + apply wp_ret. apply Hno; [done|]. intros sv x Hx. assert (sv ∈ elems (r_vnodes R)) as [j Hj]%list_elem_of_lookup_1 by (apply (tb_elems _ _ _ _ Ht); by eexists).
      apply lookup_lt_Some in Hj as Hjn. apply (Hprev j sv x); [unfold n in *; lia|done|done].
Qed.

(** A new vnode in the table *)
Lemma table_add nb a nodes next sv x a' : table_ok nb a nodes next → arr_wf a' → elems a' = elems a ++ [sv] → a_max a' ≤ Z.max 4 (2 * nb) →
  next ≤ sv → 0 < vn_refcount x → vn_ops x = ops_of (sv_i x) → typed (sv_i x) → table_ok nb a' (<[sv := x]> nodes) (sv + 1).
Proof using.
  intros [H1 H2 H3 H4 [H5n H5] H6] Hwf He Hmax Hnext Hr Ho Hty. assert (¬ is_Some (nodes !! sv)) as Hnew by (intros H%H5; lia). split; try done.
  - intros sv'. rewrite He, elem_of_app, list_elem_of_singleton, H3. destruct (decide (sv' = sv)) as [->|Hne]; [rewrite lookup_insert_eq; naive_solver|].
    rewrite lookup_insert_ne by done. naive_solver.
  - rewrite He. apply NoDup_app. split_and!; [done| |apply NoDup_singleton]. intros sv' Hin ->%list_elem_of_singleton. by apply Hnew, H3.
  - split; [lia|]. intros sv'. destruct (decide (sv' = sv)) as [->|Hne]; [lia|]. rewrite lookup_insert_ne by done. intros H%H5. lia.
  - intros sv' y. destruct (decide (sv' = sv)) as [->|Hne]; [rewrite lookup_insert_eq; by intros [= <-]|]. rewrite lookup_insert_ne by done. apply H6.
Qed.

Lemma table_update nb a nodes next sv x y : table_ok nb a nodes next → nodes !! sv = Some x → 0 < vn_refcount y → vn_ops y = ops_of (sv_i y) → typed (sv_i y) →
  table_ok nb a (<[sv := y]> nodes) next.
Proof using.
  intros [H1 H2 H3 H4 [H5n H5] H6] Hx Hr Ho Hty. assert (∀ sv', is_Some (<[sv := y]> nodes !! sv') ↔ is_Some (nodes !! sv')) as Hdom.
  { intros sv'. destruct (decide (sv' = sv)) as [->|Hne]; [by rewrite lookup_insert_eq, Hx|by rewrite lookup_insert_ne]. }
  split; try done.
  - intros sv'. rewrite Hdom. apply H3.
  - split; [done|]. intros sv'. rewrite Hdom. apply H5.
  - intros sv' z. destruct (decide (sv' = sv)) as [->|Hne]; [rewrite lookup_insert_eq; by intros [= <-]|]. rewrite lookup_insert_ne by done. apply H6.
Qed.
End table.

(** *** Loading *)

Section load.
Context (R : srest) (w : sview) (I : gmap Z sfs_dinode).
Abbreviation nb := (r_nblocks R).

Lemma vol_wf s : vol R s w I → arr_wf (r_vnodes R) ∧ a_max (r_vnodes R) < 2 ^ 29 ∧ a_num (r_vnodes R) ≤ nb.
Proof using.
  intros [Hs Hok Ht Hsm]. pose proof (tb_wf _ _ _ _ Ht). pose proof (tb_max _ _ _ _ Ht). rewrite (table_num _ _ _ _ Ht). pose proof (table_length _ _ _ _ _ Hok Ht).
  split_and!; (done || lia).
Qed.

(** The inode that is loaded and whether it is dirty *)
Definition forced (forcetype : Z) (i : sfs_dinode) : sfs_dinode := if forcetype =? SFS_TYPE_INVAL then i else set_sfi_type forcetype i.

Lemma wp_forced forcetype i0 (Q : sfs_dinode * bool → sfs_st → Prop) s :
  (forcetype ≠ SFS_TYPE_INVAL → sfi_type i0 = SFS_TYPE_INVAL) → 0 ≤ forcetype < 2 ^ 16 → Q (forced forcetype i0, negb (forcetype =? SFS_TYPE_INVAL)) s →
  wp (if negb (forcetype =? SFS_TYPE_INVAL) then
        kassert (sfi_type i0 =? SFS_TYPE_INVAL) "sv->sv_i.sfi_type == SFS_TYPE_INVAL" ;;
        mret (set_sfi_type (u16 forcetype) i0, true)
      else mret (i0, false)) Q s.
Proof using.
  intros Hforce Hft HQ. unfold forced in HQ. destruct (Z.eqb_spec forcetype SFS_TYPE_INVAL); cbn [negb] in *; [by apply wp_ret|]. apply wp_bind, wp_kassert.
  split; [apply Z.eqb_eq; auto|]. apply wp_ret. by rewrite u16_id.
Qed.

Lemma wp_ops i (Q : sfs_optable → sfs_st → Prop) s : typed i → Q (ops_of i) s →
  wp (if sfi_type i =? SFS_TYPE_FILE then mret sfs_fileops else if sfi_type i =? SFS_TYPE_DIR then mret sfs_dirops
      else halt (Panic "sfs: loadvnode: Invalid inode type")) Q s.
Proof using. intros Hty HQ. unfold ops_of in HQ. destruct Hty as [E|E]; rewrite E in *; by apply wp_ret. Qed.

Lemma wp_load_new s ino forcetype : vol R s w I → 0 ≤ ino < nb → w_bit w ino = true → (∀ sv x, w_nodes w !! sv = Some x → sv_ino x ≠ ino) →
  let i := forced forcetype (dinode_of (sector (w_disk w) ino)) in
  (forcetype ≠ SFS_TYPE_INVAL → sfi_type (dinode_of (sector (w_disk w) ino)) = SFS_TYPE_INVAL) → 0 ≤ forcetype < 2 ^ 16 → typed i →
  wp (load_new ino forcetype)
    (λ r s', (r.1 = ENOMEM ∧ ∃ R', stable R R' ∧ shows R' s' w ∧ table_ok nb (r_vnodes R') (w_nodes w) (r_next R')) ∨
       (r.1 = 0 ∧ ∃ R', stable R R' ∧ w_nodes w !! r.2 = None ∧
          let nodes := <[r.2 := mk_sv (ops_of i) 1 i ino (negb (forcetype =? SFS_TYPE_INVAL))]> (w_nodes w) in
          shows R' s' (set_w_nodes nodes w) ∧ table_ok nb (r_vnodes R') nodes (r_next R'))) s.
Proof using.
  intros Hv Hino Hbit Hfresh i Hforce Hft Hty. destruct (vol_wf s Hv) as (Hwf & Hmax & _). destruct Hv as [Hs Hok Ht Hsm]. pose proof (ok_size _ _ _ Hok) as [Hsz _].
  unfold load_new. apply wp_bind. eapply wp_malloc; [done|]. intros s1 b Hs1. set (R1 := set_r_mallocs _ R) in Hs1.
  destruct b; cbn [negb]; [|apply wp_ret; left; split; [done|]; exists R1; split; [done|]; by split].
  apply wp_bind, wp_gets. assert (s_next s1 = r_next R) as -> by exact (f_equal r_next (sh_rest _ _ _ Hs1)). apply wp_bind, wp_modify.
  set (sv := r_next R). set (R2 := set_r_next (sv + 1) R1). assert (shows R2 (set_s_next (sv + 1) s1) w) as Hs2.
  { destruct Hs1 as [H1 H2 H3 H4 H5 H6 H7]. split; try done. unfold R2. by rewrite <-H1. }
  assert (stable R R2) as Hst by done. apply wp_bind. eapply wp_bused; [exact Hs2|done|]. intros s3 Hs3. rewrite Hbit. cbn [negb]. apply wp_bind.
  eapply wp_readblock; [exact Hs3|lia|apply sector_lookup; lia|]. intros s4 Hs4. cbn [fst snd Z.eqb negb]. cbn zeta. set (i0 := dinode_of (sector (w_disk w) ino)) in *.
  apply wp_bind, wp_forced; [done|done|]. fold i. apply wp_bind, wp_ops; [done|]. apply wp_bind, wp_modify. set (x := mk_sv (ops_of i) 1 i ino (negb (forcetype =? SFS_TYPE_INVAL))). set (nodes := <[sv := x]> (w_nodes w)).
  assert (w_nodes w !! sv = None) as Hnew by (apply eq_None_not_Some; intros H%(proj2 (tb_next _ _ _ _ Ht)); unfold sv in H; lia).
  set (w5 := set_w_nodes nodes w). match goal with |- wp _ _ ?st => assert (shows R2 st w5) as Hs5 end.
  { destruct Hs4 as [H1 H2 H3 H4 H5 H6 H7]. split; try done. cbn. by rewrite H5. }
  apply wp_bind. unfold vnodearray_add. apply wp_bind. eapply wp_malloc; [exact Hs5|]. intros s6 ok Hs6. set (R3 := set_r_mallocs _ R2) in Hs6. apply wp_bind.
  set (km := λ n : Z, if (ok : bool) then Some (replicate (Z.to_nat (n / PTR)) 0) else None) in *.
  assert (alloc_ok km) as Hkm.
  { intros n l Hn. unfold km. destruct ok; [|done]. intros [= <-]. rewrite length_replicate. unfold PTR. pose proof (Z.div_pos n 4). lia. }
  destruct (array_add_run km sv (r_vnodes R) Hwf Hkm Hmax) as (r & a' & Hrun & Hcase). pose proof (array_add_max _ _ _ _ _ Hrun Hwf Hmax) as Hmax'.
  eapply (wp_on_vnodes R3); [exact Hs6|exact Hrun|]. intros s7 Hs7. apply wp_ret. destruct Hcase as [(-> & ->)|(-> & Hwf' & He)]; cbn [fst snd Z.eqb negb].
  - change (ENOMEM =? 0) with false. cbn [negb]. unfold cleanup_node, kfree_node. apply wp_bind, wp_bind. eapply wp_get_sv; [exact Hs7|apply lookup_insert_eq|].
    apply wp_bind, wp_kassert. split; [done|]. eapply wp_upd_sv; [exact Hs7|apply lookup_insert_eq|]. intros s8 Hs8. apply wp_bind, wp_modify, wp_ret. left. split; [done|].
    exists (set_r_vnodes (r_vnodes R) R3). split; [done|]. destruct Hs8 as [H1 H2 H3 H4 H5 H6 H7]. split.
    + split; try done. cbn. rewrite H5. unfold w5, nodes. cbn [w_nodes set_w_nodes]. rewrite insert_insert_eq, delete_insert_eq. by apply delete_id.
    + destruct Ht as [T1 T2 T3 T4 [T5n T5] T6]. split; try done. cbn. unfold sv. split; [lia|]. intros sv' H%T5. lia.
  - apply wp_ret. right. split; [done|]. exists (set_r_vnodes a' R3). split; [done|]. split; [done|]. split; [exact Hs7|]. cbn. 
    pose proof (tb_max _ _ _ _ Ht). pose proof (table_room _ _ _ _ _ [ino] Hok Ht (NoDup_singleton _)) as Hroom. rewrite (table_num _ _ _ _ Ht) in Hmax'.
    specialize (Hroom ltac:(intros j ->%list_elem_of_singleton; auto)). cbn [length] in Hroom. apply (table_add nb (r_vnodes R) _ (r_next R)); (done || lia).
Qed.

(** [sfs_loadvnode] on an inode of the volume: the vnode [sv] has one more
    reference, and it is a new one when the inode had none. *)
Definition loaded (ino : Z) (i : sfs_dinode) (sv : Z) (x' : sfs_vnode) : Prop :=
  sv_ino x' = ino ∧ sv_i x' = i ∧
  match w_nodes w !! sv with
  | Some x => sv_ino x = ino ∧ x' = set_refcount (vn_refcount x + 1) x
  | None => vn_refcount x' = 1 ∧ ∀ sv' x, w_nodes w !! sv' = Some x → sv_ino x ≠ ino
  end.

Definition load_post (ino : Z) (i : sfs_dinode) (r : Z * Z) (s' : sfs_st) : Prop :=
  ∃ R', stable R R' ∧
    ((r.1 = ENOMEM ∧ vol R' s' w I) ∨ (r.1 = 0 ∧ ∃ x', vol R' s' (set_w_nodes (<[r.2 := x']> (w_nodes w)) w) I ∧ loaded ino i r.2 x')).

Lemma wp_loadvnode s ino i : vol R s w I → I !! ino = Some i → typed i → wp (sfs_loadvnode ino SFS_TYPE_INVAL) (load_post ino i) s.
Proof using.
  intros Hv Hi Hty. pose proof Hv as [Hs Hok Ht Hsm]. unfold sfs_loadvnode. apply wp_bind. eapply wp_num; [done|]. intros s1 Hs1. apply wp_bind.
  eapply wp_search; [by split| |].
  - intros s2 sv x Hs2 Hx Ho. pose proof (ok_node _ _ _ Hok sv x Hx) as Hxi. rewrite Ho, Hi in Hxi. injection Hxi as Hxi. destruct (tb_node _ _ _ _ Ht sv x Hx) as (T1 & T2 & T3).
    apply wp_bind, wp_kassert. split; [done|]. unfold sfs_incref. apply wp_bind, wp_bind. eapply wp_get_sv; [done|done|]. eapply wp_upd_sv; [done|done|]. intros s3 Hs3.
    apply wp_ret. exists R. split; [done|]. right. split; [done|]. exists (set_refcount (vn_refcount x + 1) x). split; [|split; [exact Ho|split; [done|cbn; by rewrite Hx]]].
    split; [exact Hs3|by eapply node_set_ok| |done]. eapply table_update; [done|exact Hx|cbn; lia|done|done].
  - intros s2 Hs2 Hfresh. pose proof (inode_range _ w I Hok _ _ Hi) as Hr. assert (dinode_of (sector (w_disk w) ino) = i) as Hdi.
    { apply (ok_synced _ _ _ Hok); [done|]. intros sv x Hx E. by destruct (Hfresh sv x). }
    eapply wp_mono; [apply wp_load_new; try done|].
    + apply (uo_marked _ _ _ (ok_use _ _ _ Hok) (RInode ino)), uses_inode. by rewrite Hi.
    + by rewrite Hdi.
    + rewrite Hdi. cbn zeta. intros r s3 [(Hr1 & R' & Hst & Hs3 & Ht')|(Hr1 & R' & Hst & Hnew & Hs3 & Ht')]; exists R'; (split; [done|]); pose proof (stable_nblocks _ _ Hst) as En.
      * left. split; [done|]. split; rewrite ?En; done.
      * right. split; [done|]. eexists. split; [split; rewrite ?En; [exact Hs3| |exact Ht'|done]|split; [done|split; [done|by rewrite Hnew]]].
        by apply node_add_ok.
Qed.
End load.

(** *** Making *)

(** The inode of a new file *)
Definition blank (type : Z) : sfs_dinode := mk_dinode 0 type 0 (replicate 15 0) 0 (replicate 110 0).

Lemma blank_wf type : 0 ≤ type < 2 ^ 16 → inode_wf (blank type).
Proof. intros H. split; try done. split; [done|]. by apply Forall_replicate. Qed.
Lemma dinode_zeros : dinode_of zeros = blank SFS_TYPE_INVAL.
Proof. by vm_compute. Qed.

Section make.
Context (R : srest) (w : sview) (I : gmap Z sfs_dinode).
Abbreviation nb := (r_nblocks R).

Definition make_post (type : Z) (r : Z * Z) (s' : sfs_st) : Prop :=
  ∃ R' w', stable R R' ∧ same_files (w_disk w) I (w_disk w') I ∧
    (((r.1 = ENOSPC ∨ r.1 = ENOMEM) ∧ vol R' s' w' I ∧ w_nodes w' = w_nodes w) ∨
     (r.1 = 0 ∧ ∃ ino, I !! ino = None ∧ w_nodes w !! r.2 = None ∧
        let x := mk_sv (ops_of (blank type)) 1 (blank type) ino true in
        w_nodes w' = <[r.2 := x]> (w_nodes w) ∧ vol R' s' w' (<[ino := blank type]> I))).

Lemma wp_makeobj s type : vol R s w I → type = SFS_TYPE_FILE ∨ type = SFS_TYPE_DIR → wp (sfs_makeobj type) (make_post type) s.
Proof using.
  intros [Hs Hok Ht Hsm] Hty. assert (type ≠ SFS_TYPE_INVAL ∧ 0 ≤ type < 2 ^ 16) as [Hinv Hrange] by (destruct Hty as [-> | ->]; done).
  unfold sfs_makeobj. apply wp_bind. eapply wp_balloc; [done| |].
  { intros s' n Hs' _. cbn [fst snd]. change (ENOSPC =? 0) with false. apply wp_ret. exists R, w. split; [done|]. split; [apply same_files_refl|]. left.
    split; [by left|]. by split. }
  intros s1 b Hb Hfree Hs1. cbn [fst snd Z.eqb negb]. set (w1 := set_w_disk _ (set_w_bit b true w)) in Hs1. pose proof (ok_size _ _ _ Hok) as [Hsz _].
  assert (∀ f', (∀ c, w_bit w c = true → f' c = true) → fs_ok nb (mk_view (w_disk w1) f' true (w_nodes w)) I ∧ same_files (w_disk w) I (w_disk w1) I) as Hclear.
  { intros f' Hf'. by apply cleared_ok. }
  assert (∀ c, w_bit w c = true → w_bit w1 c = true) as Hmore by (intros c Hc; cbn; unfold set_bit_at; by case_decide).
  assert (vol R s1 w1 I) as Hv1 by (split; [done|exact (proj1 (Hclear _ Hmore))|done|done]).
  assert (∀ sv x, w_nodes w !! sv = Some x → sv_ino x ≠ b) as Hfresh.
  { intros sv x Hx. apply (use_free nb w I Hok (RInode (sv_ino x))); [|done]. apply uses_inode. rewrite (ok_node _ _ _ Hok sv x Hx). eauto. }
  assert (sector (w_disk w1) b = zeros) as Hz by (apply sector_insert_eq; lia).
  assert (forced type (blank SFS_TYPE_INVAL) = blank type) as Hforced by (unfold forced; by rewrite (proj2 (Z.eqb_neq type SFS_TYPE_INVAL))).
  apply wp_bind. eapply (wp_mono _ (λ r s', ∃ R', stable R R' ∧ ((r.1 = ENOMEM ∧ vol R' s' w1 I) ∨ (r.1 = 0 ∧ w_nodes w !! r.2 = None ∧ ∃ ino, I !! ino = None ∧
      let x := mk_sv (ops_of (blank type)) 1 (blank type) ino true in let w2 := set_w_nodes (<[r.2 := x]> (w_nodes w)) w1 in vol R' s' w2 (<[ino := blank type]> I))))).
  - unfold sfs_loadvnode. apply wp_bind. eapply wp_num; [done|]. intros s2 Hs2. apply wp_bind. eapply wp_search; [destruct Hv1; by split| |].
    { intros s3 sv x Hs3 Hx Ho. by destruct (Hfresh sv x). }
    intros s3 Hs3 Hno. eapply wp_mono; [apply (wp_load_new R w1 I s3 b type); try done|].
    + destruct Hv1. by split.
    + cbn. unfold set_bit_at. by rewrite decide_True.
    + intros _. by rewrite Hz, dinode_zeros.
    + by rewrite Hz, dinode_zeros, Hforced.
    + rewrite Hz, dinode_zeros, Hforced. cbn zeta. rewrite (proj2 (Z.eqb_neq type SFS_TYPE_INVAL)) by done. cbn [negb].
      intros r s4 [(Hr1 & R' & Hst & Hs4 & Ht')|(Hr1 & R' & Hst & Hnew & Hs4 & Ht')]; exists R'; (split; [done|]); pose proof (stable_nblocks _ _ Hst) as En.
      * left. split; [done|]. split; rewrite ?En; try done. apply Hv1.
      * right. split; [done|]. split; [done|]. exists b. destruct (make_ok nb w I Hok b r.2 (mk_sv (ops_of (blank type)) 1 (blank type) b true)) as (HI & Hok2 & _); try done; [by apply blank_wf|].
        split; [done|]. split; rewrite ?En; done.
  - intros r s2 (R' & Hst & [(Hr & Hv)|(Hr & Hnew & ino & HI & Hv)]); rewrite Hr.
    + change (ENOMEM =? 0) with false. cbn [negb]. pose proof (stable_nblocks _ _ Hst) as En. destruct Hv as [Hs2 _ Ht2 Hsm2]. apply wp_bind.
      eapply wp_bfree; [exact Hs2|by rewrite En|cbn; unfold set_bit_at; by rewrite decide_True|]. intros s3 Hs3. apply wp_ret. exists R', (set_w_bit b false w1).
      assert (∀ c, w_bit w c = true → w_bit (set_w_bit b false w1) c = true) as Hmore2.
      { intros c Hc. cbn. unfold set_bit_at. destruct (decide (c = b)) as [->|]; [congruence|done]. }
      destruct (Hclear _ Hmore2) as [Hok2 Hsf]. split; [done|]. split; [exact Hsf|]. left. split; [by right|]. split; [|done]. split; rewrite ?En in *; done.
    + cbn [Z.eqb negb]. apply wp_bind, wp_ret, wp_ret. eexists R', _. split; [done|]. split; [|right; split; [done|]; exists ino; split; [done|]; split; [done|]; split; [|exact Hv]; done].
      exact (proj2 (Hclear _ Hmore)).
Qed.
End make.

(** *** Reclaiming *)

(** The volume between two operations *)
Record mvol (R : srest) (s : sfs_st) (w : sview) (I : gmap Z sfs_dinode) : Prop := {
  mv_mounted : mounted R s w;
  mv_ok : fs_ok (r_nblocks R) w I;
  mv_table : table_ok (r_nblocks R) (r_vnodes R) (w_nodes w) (r_next R);
  mv_small : r_nblocks R * 512 < 2 ^ 32
}.

Lemma wp_acquire_vol R s w I Q : mvol R s w I → (∀ s', vol R s' w I → Q tt s') → wp vfs_biglock_acquire Q s.
Proof. intros [H1 H2 H3 H4] HQ. eapply wp_acquire; [done|]. intros s' Hs'. apply HQ. by split. Qed.
Lemma wp_release_vol R s w I Q : vol R s w I → (∀ s', mvol R s' w I → Q tt s') → wp vfs_biglock_release Q s.
Proof. intros [H1 H2 H3 H4] HQ. eapply wp_release; [done|]. intros s' Hs'. apply HQ. by split. Qed.

(** Operations within others *)
Lemma vol_deeper R s w I : vol R s w I → mvol (deeper R) s w I.
Proof. intros [H1 H2 H3 H4]. split; try done. by apply mounted_deeper. Qed.
Lemma deeper_vol R R' s w I : stable (deeper R) R' → 0 < r_depth R → mvol R' s w I → ∃ R0, stable R R0 ∧ vol R0 s w I.
Proof.
  intros (E1 & E2 & E3 & E4) Hd [H1 H2 H3 H4]. set (R0 := mk_rest (r_sb R') (r_superdirty R') (r_device R') (r_vnodes R') (r_next R') (r_mallocs R') (r_depth R' - 1)).
  assert (deeper R0 = R') as E by (destruct R'; unfold R0, deeper; cbn; f_equal; lia). exists R0. cbn in E4. split; [split_and!; cbn; (done || lia)|].
  split; try done. apply deeper_mounted; [by rewrite E|cbn; lia].
Qed.
Lemma vol_depth R s w I : vol R s w I → 0 < r_depth R.
Proof. intros [H _ _ _]. apply (sh_held _ _ _ H). Qed.

Lemma table_del nb a nodes next sv j a' : table_ok nb a nodes next → elems a !! j = Some sv → arr_wf a' → elems a' = delete j (elems a) → a_max a' = a_max a →
  table_ok nb a' (delete sv nodes) next.
Proof.
  intros [H1 H2 H3 H4 [H5n H5] H6] Hj Hwf He Hmax. split; [done|lia|..].
  - intros sv'. rewrite He, lookup_delete_is_Some, <-H3, list_elem_of_lookup. setoid_rewrite list_elem_of_lookup. split.
    + intros [k Hk]. destruct (decide (k < j)%nat) as [Hlt|Hge].
      * rewrite list_lookup_delete_lt in Hk by done. split; [|eauto]. intros ->. pose proof (NoDup_lookup _ _ _ _ H4 Hj Hk). lia.
      * rewrite list_lookup_delete_ge in Hk by lia. split; [|eauto]. intros ->. pose proof (NoDup_lookup _ _ _ _ H4 Hj Hk). lia.
    + intros [Hne [k Hk]]. destruct (decide (k < j)%nat) as [Hlt|Hge]; [exists k; by rewrite list_lookup_delete_lt|].
      assert (k ≠ j) by (intros ->; congruence). exists (k - 1)%nat. rewrite list_lookup_delete_ge by lia. by replace (S (k - 1)) with k by lia.
  - rewrite He. eapply sublist_NoDup; [done|]. apply sublist_delete.
  - split; [done|]. intros sv' [_ [x Hx]]%lookup_delete_is_Some. apply H5. eauto.
  - intros sv' x [_ Hx]%lookup_delete_Some. by apply (H6 sv').
Qed.

Section reclaim.
Context (R : srest) (w : sview) (I : gmap Z sfs_dinode).
Abbreviation nb := (r_nblocks R).

(** The changes of a vnode go to the disk. *)
Lemma wp_sync_inode s sv x Q : vol R s w I → w_nodes w !! sv = Some x →
  (∀ s' w', vol R s' w' I → same_files (w_disk w) I (w_disk w') I → w_nodes w' = <[sv := set_sv_dirty false x]> (w_nodes w) → Q 0 s') → wp (sfs_sync_inode sv) Q s.
Proof using.
  intros [Hs Hok Ht Hsm] Hx HQ. pose proof (ok_node _ _ _ Hok sv x Hx) as Hi. pose proof (inode_range nb w I Hok _ _ Hi) as Hr. pose proof (ok_size _ _ _ Hok) as [Hsz _].
  destruct (tb_node _ _ _ _ Ht sv x Hx) as (T1 & T2 & T3). unfold sfs_sync_inode. apply wp_bind. eapply wp_get_sv; [done|done|]. destruct (sv_dirty x) eqn:Ed.
  - apply wp_bind. eapply wp_writeblock; [done|lia|apply length_dinode_bytes, (ok_inode _ _ _ Hok _ _ Hi)|]. intros s1 Hs1. cbn [Z.eqb negb]. apply wp_bind.
    eapply wp_upd_sv; [exact Hs1|done|]. intros s2 Hs2. apply wp_ret. destruct (write_inode_ok nb w I Hok sv x Hx) as [Hok2 Hsf].
    assert (∀ w', shows R s2 w' → fs_ok nb w' I → same_files (w_disk w) I (w_disk w') I → w_nodes w' = <[sv := set_sv_dirty false x]> (w_nodes w) → Q 0 s2) as Hgo.
    { intros w' H1 H2 H3 H4. apply (HQ s2 w'); [|done|done]. split; [done|done| |done]. rewrite H4. by eapply table_update. }
    eapply Hgo; [exact Hs2|exact Hok2|exact Hsf|done].
  - apply wp_ret. apply (HQ s w); [by split|apply same_files_refl|]. rewrite insert_id; [done|]. rewrite Hx. destruct x. cbn in *. by rewrite Ed.
Qed.

Lemma wp_find_node s sv x Q : shows R s w → table_ok nb (r_vnodes R) (w_nodes w) (r_next R) → Z.of_nat (length (elems (r_vnodes R))) < 2 ^ 31 → w_nodes w !! sv = Some x →
  (∀ s' j, shows R s' w → elems (r_vnodes R) !! j = Some sv → Q (Z.of_nat j) s') → wp (find_node sv (a_num (r_vnodes R))) Q s.
Proof using.
  intros Hs Ht Hlen Hx HQ. pose proof (tb_wf _ _ _ _ Ht) as Hwf. rewrite (table_num _ _ _ _ Ht). set (n := length (elems (r_vnodes R))). fold n in Hlen.
  assert (sv ∈ elems (r_vnodes R)) as [j0 Hj0]%list_elem_of_lookup_1 by (apply (tb_elems _ _ _ _ Ht); by eexists). apply lookup_lt_Some in Hj0 as Hlt0. unfold find_node.
  apply (wp_while _ (λ i s', ∃ k, i = Z.of_nat k ∧ (k ≤ j0)%nat ∧ shows R s' w) (λ i _, Z.of_nat n - i)).
  - exists 0%nat. split_and!; (done || lia).
  - intros i s' (k & -> & Hk & _). unfold n. lia.
  - lia.
  - intros i s' (k & -> & Hk & Hs'). rewrite (proj2 (Z.ltb_lt _ _)) by (unfold n; lia).
    destruct (lookup_lt_is_Some_2 (elems (r_vnodes R)) k ltac:(lia)) as [p Hp]. apply wp_bind. eapply wp_get; [done|done|done|]. intros s1 Hs1.
    destruct (Z.eqb_spec p sv) as [->|Hne]; apply wp_ret; [by apply HQ|]. split; [|lia]. exists (S k). split_and!; [lia| |done].
    assert (k ≠ j0) by (intros ->; congruence). lia.
Qed.

(** The end of [sfs_reclaim]: the vnode leaves the table. *)
Lemma wp_drop_node s sv x I' (Q : Z → sfs_st → Prop) :
  shows R s w → table_ok nb (r_vnodes R) (w_nodes w) (r_next R) → Z.of_nat (length (elems (r_vnodes R))) < 2 ^ 31 → nb * 512 < 2 ^ 32 → w_nodes w !! sv = Some x → vn_refcount x = 1 →
  fs_ok nb (set_w_nodes (delete sv (w_nodes w)) w) I' →
  (∀ s' R', stable R R' → mvol R' s' (set_w_nodes (delete sv (w_nodes w)) w) I' → Q 0 s') →
  wp (num ← vnodearray_num;
      ix ← find_node sv num;
      if ix =? num then halt (Panic "sfs: reclaim vnode not in vnode pool")
      else
        vnodearray_remove ix ;;
        cleanup_node sv ;;
        vfs_biglock_release ;;
        kfree_node sv ;;
        mret 0) Q s.
Proof using.
  intros Hs Ht Hlen Hsm Hx Hr Hok' HQ. pose proof (tb_wf _ _ _ _ Ht) as Hwf. apply wp_bind. eapply wp_num; [done|]. intros s1 Hs1. apply wp_bind.
  eapply wp_find_node; [done..|]. intros s2 j Hs2 Hj. apply lookup_lt_Some in Hj as Hlt. pose proof (table_num _ _ _ _ Ht) as En.
  rewrite (proj2 (Z.eqb_neq _ _)) by lia. destruct (array_remove_run (Z.of_nat j) (r_vnodes R) Hwf ltac:(lia)) as (a' & Hrun & Hwf' & _ & He & Hmax). rewrite Nat2Z.id in He.
  apply wp_bind. eapply wp_on_vnodes; [exact Hs2|exact Hrun|]. intros s3 Hs3. apply wp_bind. unfold cleanup_node. apply wp_bind. eapply wp_get_sv; [exact Hs3|done|].
  apply wp_bind, wp_kassert. split; [by rewrite Hr|]. eapply wp_upd_sv; [exact Hs3|done|]. intros s4 Hs4. apply wp_bind. eapply wp_release; [exact Hs4|]. intros s5 Hs5.
  apply wp_bind, wp_modify, wp_ret. apply (HQ _ (set_r_vnodes a' R)); [done|]. split; [|done| |done].
  - destruct Hs5 as [H1 H2 H3 H4 H5 H6 H7]. split; try done. cbn in H5. cbn. rewrite H5. apply delete_insert_eq.
  - cbn. by eapply table_del.
Qed.
End reclaim.

Lemma same_files_trunc R w I sv x bl len w' i' : truncated R w I sv x bl len w' i' →
  same_files (w_disk w) (delete (sv_ino x) I) (w_disk w') (delete (sv_ino x) (<[sv_ino x := i']> I)).
Proof.
  intros Ht. rewrite delete_insert_eq. intros j. destruct (delete (sv_ino x) I !! j) as [ij|] eqn:Ej; [|done]. apply lookup_delete_Some in Ej as [Hne Hj].
  split; try done. intros k. apply (tr_other _ _ _ _ _ _ _ _ _ Ht j); [done|congruence].
Qed.

Lemma bmap_noind D D' i k : sfi_indirect i = 0 → bmap_of D i k = bmap_of D' i k.
Proof. intros H. unfold bmap_of. by rewrite H. Qed.

Lemma same_files_delete D I D' I' ino : same_files D I D' I' → same_files D (delete ino I) D' (delete ino I').
Proof. intros H j. destruct (decide (j = ino)) as [->|Hne]; [by rewrite !lookup_delete_eq|]. rewrite !lookup_delete_ne by done. apply H. Qed.

Section reclaim_all.
Context (R : srest) (w : sview) (I : gmap Z sfs_dinode).

(** The last reference goes away: the file is erased when it has no name,
    else its inode is on disk. *)
Definition dropped (x : sfs_vnode) : gmap Z sfs_dinode := if sfi_linkcount (sv_i x) =? 0 then delete (sv_ino x) I else I.
Definition reclaimed (sv : Z) (x : sfs_vnode) (s' : sfs_st) : Prop :=
  ∃ R' w', stable R R' ∧ mvol R' s' w' (dropped x) ∧ w_nodes w' = delete sv (w_nodes w) ∧
    same_files (w_disk w) (dropped x) (w_disk w') (dropped x).

Lemma wp_reclaim s sv x : mvol R s w I → w_nodes w !! sv = Some x → vn_refcount x = 1 → wp (sfs_reclaim sv) (λ r s', r = 0 ∧ reclaimed sv x s') s.
Proof using.
  intros Hm Hx Hr. unfold sfs_reclaim. apply wp_bind. eapply wp_acquire_vol; [done|]. intros s1 Hv1. pose proof Hv1 as [Hs1 Hok Ht Hsm].
  pose proof (vol_depth _ _ _ _ Hv1) as Hd. apply wp_bind. eapply wp_get_sv; [done|done|]. rewrite Hr. cbn [Z.eqb negb]. apply wp_bind. unfold reclaimed, dropped.
  destruct (tb_node _ _ _ _ Ht sv x Hx) as (T1 & T2 & T3). destruct (Z.eqb_spec (sfi_linkcount (sv_i x)) 0) as [El|El].
  - eapply wp_mono; [apply (wp_itrunc (deeper R) w I Hok sv x Hx 0 s1 0); [by apply mounted_deeper|done]|]. intros r s2 (-> & w2 & i2 & Hm2 & Htr). cbn [Z.eqb negb].
    pose proof (tr_ok _ _ _ _ _ _ _ _ _ Htr) as Hok2. change (r_nblocks (deeper R)) with (r_nblocks R) in Hok2. set (x2 := set_sv_dirty true (set_sv_i i2 x)).
    assert (w_nodes w2 !! sv = Some x2) as Hx2 by (rewrite (tr_nodes _ _ _ _ _ _ _ _ _ Htr); apply lookup_insert_eq).
    assert (vol R s2 w2 (<[sv_ino x := i2]> I)) as Hv2.
    { split; [by apply deeper_mounted|done| |done]. rewrite (tr_nodes _ _ _ _ _ _ _ _ _ Htr). eapply table_update; [done|done|done| |].
      - cbn. unfold ops_of. by rewrite (tr_type _ _ _ _ _ _ _ _ _ Htr).
      - unfold typed. cbn. by rewrite (tr_type _ _ _ _ _ _ _ _ _ Htr). }
    apply wp_bind. eapply wp_sync_inode; [exact Hv2|exact Hx2|]. intros s3 w3 Hv3 Hsf3 Hn3. cbn [Z.eqb negb]. set (x3 := set_sv_dirty false x2) in Hn3.
    assert (w_nodes w3 !! sv = Some x3) as Hx3 by (rewrite Hn3; apply lookup_insert_eq). pose proof Hv3 as [Hs3 Hok3 Ht3 _]. apply wp_bind. eapply wp_get_sv; [done|done|].
    cbn [sv_i x3 x2 set_sv_dirty set_sv_i]. rewrite (tr_links _ _ _ _ _ _ _ _ _ Htr), El. cbn [Z.eqb sv_ino]. apply wp_bind.
    pose proof (ok_node _ _ _ Hok3 sv x3 Hx3) as Hi3. cbn in Hi3. eapply wp_bfree; [exact Hs3|by eapply inode_range| |].
    { apply (uo_marked _ _ _ (ok_use _ _ _ Hok3) (RInode (sv_ino x))), uses_inode. rewrite lookup_insert_eq. eauto. }
    intros s4 Hs4. set (w4 := set_w_bit (sv_ino x) false w3) in Hs4.
    assert (∀ k, keeps 0 k = false) as Hk by (intros k; unfold keeps; destruct (Nat.ltb_spec k 15); [done|cbn; apply Nat.leb_gt; lia]).
    pose proof (tr_empty _ _ _ _ _ _ _ _ _ Htr (λ k _, Hk k)) as Hind.
    assert (fs_ok (r_nblocks R) (set_w_nodes (delete sv (w_nodes w4)) w4) (delete (sv_ino x) I)) as Hok4.
    { rewrite <-(delete_insert_eq I (sv_ino x) i2). apply (erase_ok (r_nblocks R) w3 _ Hok3 sv x3); try done. intros k.
      change (sv_i x3) with i2. rewrite (bmap_noind _ (w_disk w2)) by done. by rewrite (tr_map _ _ _ _ _ _ _ _ _ Htr k), Hk. }
    eapply (wp_drop_node R w4 s4 sv x3); [done|done|exact (table_len _ _ w3 _ _ Hok3 Ht3)|done|done|done|exact Hok4|].
    intros s5 R5 Hst5 Hv5. split; [done|]. exists R5, (set_w_nodes (delete sv (w_nodes w4)) w4). split; [done|]. split; [done|]. split.
    + cbn. rewrite Hn3, (tr_nodes _ _ _ _ _ _ _ _ _ Htr). by rewrite !delete_insert_eq.
    + eapply same_files_trans; [by eapply same_files_trunc|]. cbn. rewrite !delete_insert_eq. apply (same_files_delete _ _ _ _ (sv_ino x)) in Hsf3. by rewrite !delete_insert_eq in Hsf3.
  - apply wp_ret. cbn [Z.eqb negb]. apply wp_bind. eapply wp_sync_inode; [exact Hv1|exact Hx|]. intros s3 w3 Hv3 Hsf3 Hn3. cbn [Z.eqb negb]. set (x3 := set_sv_dirty false x) in Hn3.
    assert (w_nodes w3 !! sv = Some x3) as Hx3 by (rewrite Hn3; apply lookup_insert_eq). pose proof Hv3 as [Hs3 Hok3 Ht3 _]. apply wp_bind. eapply wp_get_sv; [done|done|].
    cbn [sv_i x3 set_sv_dirty]. rewrite (proj2 (Z.eqb_neq _ 0)) by done. apply wp_bind, wp_ret.
    eapply (wp_drop_node R w3 s3 sv x3); [done|done|exact (table_len _ _ w3 _ _ Hok3 Ht3)|done|done|done|by eapply node_del_ok|].
    intros s5 R5 Hst5 Hv5. split; [done|]. eexists R5, _. split; [done|]. split; [exact Hv5|]. split; [|exact Hsf3]. cbn. rewrite Hn3. by rewrite delete_insert_eq.
Qed.

(** One reference goes away. *)
Definition unref_post (sv : Z) (x : sfs_vnode) (s' : sfs_st) : Prop :=
  if 1 <? vn_refcount x then ∃ R', stable R R' ∧ mvol R' s' (set_w_nodes (<[sv := set_refcount (vn_refcount x - 1) x]> (w_nodes w)) w) I
  else reclaimed sv x s'.

Lemma wp_sfs_decref s sv x : mvol R s w I → w_nodes w !! sv = Some x → wp (sfs_decref sv) (λ _, unref_post sv x) s.
Proof using.
  intros Hm Hx. pose proof Hm as [Hs Hok Ht Hsm]. destruct (tb_node _ _ _ _ Ht sv x Hx) as (T1 & T2 & T3). unfold sfs_decref, unref_post.
  assert (s_nodes s !! sv = Some x) as Hxs by (by rewrite <-Hx, <-(sh_nodes _ _ _ Hs)).
  apply wp_bind. unfold get_sv at 1. apply wp_bind, wp_gets. rewrite Hxs. apply wp_ret. apply wp_bind, wp_kassert. split; [by apply Z.ltb_lt|].
  destruct (Z.ltb_spec 1 (vn_refcount x)) as [Hgt|Hle].
  - unfold upd_sv, get_sv. apply wp_bind, wp_bind, wp_gets. rewrite Hxs. apply wp_ret, wp_modify. exists R. split; [done|]. split; [|by eapply node_set_ok| |done].
    + destruct Hs as [H1 H2 H3 H4 H5 H6 H7]. split; try done. cbn in H5. cbn. by rewrite H5.
    + eapply table_update; [done|done|cbn; lia|done|done].
  - apply wp_bind. eapply wp_mono; [apply (wp_reclaim s sv x); [done|done|lia]|]. intros r s' [_ H]. by apply wp_ret.
Qed.
End reclaim_all.
