(* ===== verification/Vnode.v ===== *)
(** * Operations of vnodes and file systems ([kern/include/vnode.h], [kern/include/fs.h])

    The tables of operations, for any type [St] of system states and any type
    [U] of transfers.  A vnode is a number.  An operation that hands back a
    vnode returns the result and the vnode, one that moves data the result and
    the transfer afterwards.  The stubs that fail are those of
    [kern/vfs/vfsfail.c]. *)

From S2P Require Import Prelude Machine.

(** The fields of [struct stat] a file system fills in *)
Record stat : Type := mk_stat { st_size : Z; st_mode : Z; st_nlink : Z; st_blocks : Z; st_dev : Z; st_rdev : Z; st_blksize : Z }.
Definition no_stat : stat := mk_stat 0 0 0 0 0 0 0.

Definition S_IFREG : Z := 0x1000.
Definition S_IFDIR : Z := 0x2000.
Definition S_IFCHR : Z := 0x6000.
Definition S_IFBLK : Z := 0x7000.
Definition NAME_MAX : Z := 255.

Abbreviation name := (list Z) (only parsing).

Record vnode_ops (St U : Type) : Type := mk_vnode_ops {
  vop_eachopen : Z → Z → M St Z;
  vop_reclaim : Z → M St Z;
  vop_read : Z → U → M St (Z * U);
  vop_readlink : Z → U → M St (Z * U);
  vop_getdirentry : Z → U → M St (Z * U);
  vop_write : Z → U → M St (Z * U);
  vop_ioctl : Z → Z → Z → M St Z;
  vop_stat : Z → M St (Z * stat);
  vop_gettype : Z → M St (Z * Z);
  vop_isseekable : Z → M St bool;
  vop_fsync : Z → M St Z;
  vop_mmap : Z → M St Z;
  vop_truncate : Z → Z → M St Z;
  vop_namefile : Z → U → M St (Z * U);
  vop_creat : Z → name → bool → Z → M St (Z * Z);
  vop_symlink : Z → name → name → M St Z;
  vop_mkdir : Z → name → Z → M St Z;
  vop_link : Z → name → Z → M St Z;
  vop_remove : Z → name → M St Z;
  vop_rmdir : Z → name → M St Z;
  vop_rename : Z → name → Z → name → M St Z;
  vop_lookup : Z → name → M St (Z * Z);
  vop_lookparent : Z → name → Z → M St (Z * (Z * name))
}.
Arguments mk_vnode_ops {St U}.
Arguments vop_eachopen {St U}.
Arguments vop_reclaim {St U}.
Arguments vop_read {St U}.
Arguments vop_readlink {St U}.
Arguments vop_getdirentry {St U}.
Arguments vop_write {St U}.
Arguments vop_ioctl {St U}.
Arguments vop_stat {St U}.
Arguments vop_gettype {St U}.
Arguments vop_isseekable {St U}.
Arguments vop_fsync {St U}.
Arguments vop_mmap {St U}.
Arguments vop_truncate {St U}.
Arguments vop_namefile {St U}.
Arguments vop_creat {St U}.
Arguments vop_symlink {St U}.
Arguments vop_mkdir {St U}.
Arguments vop_link {St U}.
Arguments vop_remove {St U}.
Arguments vop_rmdir {St U}.
Arguments vop_rename {St U}.
Arguments vop_lookup {St U}.
Arguments vop_lookparent {St U}.

(** A volume name may be missing. *)
Record fs_ops (St : Type) : Type := mk_fs_ops {
  fsop_sync : M St Z;
  fsop_getvolname : M St (option name);
  fsop_getroot : M St (Z * Z);
  fsop_unmount : M St Z
}.
Arguments mk_fs_ops {St}.
Arguments fsop_sync {St}.
Arguments fsop_getvolname {St}.
Arguments fsop_getroot {St}.
Arguments fsop_unmount {St}.

(** ** Operations that fail ([vfsfail.c]) *)

Section vopfail.
Context {St U : Type}.

Definition vopfail_uio_notdir (vn : Z) (u : U) : M St (Z * U) := mret (ENOTDIR, u).
Definition vopfail_uio_isdir (vn : Z) (u : U) : M St (Z * U) := mret (EISDIR, u).
Definition vopfail_uio_inval (vn : Z) (u : U) : M St (Z * U) := mret (EINVAL, u).
Definition vopfail_uio_nosys (vn : Z) (u : U) : M St (Z * U) := mret (ENOSYS, u).
Definition vopfail_mmap_isdir (vn : Z) : M St Z := mret EISDIR.
Definition vopfail_mmap_perm (vn : Z) : M St Z := mret EPERM.
Definition vopfail_mmap_nosys (vn : Z) : M St Z := mret ENOSYS.
Definition vopfail_truncate_isdir (vn pos : Z) : M St Z := mret EISDIR.
Definition vopfail_creat_notdir (vn : Z) (nm : name) (excl : bool) (mode : Z) : M St (Z * Z) := mret (ENOTDIR, 0).
Definition vopfail_symlink_notdir (vn : Z) (contents nm : name) : M St Z := mret ENOTDIR.
Definition vopfail_symlink_nosys (vn : Z) (contents nm : name) : M St Z := mret ENOSYS.
Definition vopfail_mkdir_notdir (vn : Z) (nm : name) (mode : Z) : M St Z := mret ENOTDIR.
Definition vopfail_mkdir_nosys (vn : Z) (nm : name) (mode : Z) : M St Z := mret ENOSYS.
Definition vopfail_link_notdir (dir : Z) (nm : name) (file : Z) : M St Z := mret ENOTDIR.
Definition vopfail_link_nosys (dir : Z) (nm : name) (file : Z) : M St Z := mret ENOSYS.
Definition vopfail_string_notdir (vn : Z) (nm : name) : M St Z := mret ENOTDIR.
Definition vopfail_string_nosys (vn : Z) (nm : name) : M St Z := mret ENOSYS.
Definition vopfail_rename_notdir (fromdir : Z) (fromname : name) (todir : Z) (toname : name) : M St Z := mret ENOTDIR.
Definition vopfail_rename_nosys (fromdir : Z) (fromname : name) (todir : Z) (toname : name) : M St Z := mret ENOSYS.
Definition vopfail_lookup_notdir (vn : Z) (path : name) : M St (Z * Z) := mret (ENOTDIR, 0).
Definition vopfail_lookparent_notdir (vn : Z) (path : name) (len : Z) : M St (Z * (Z * name)) := mret (ENOTDIR, (0, [])).
End vopfail.
