(* ===== verification/SfsSpec.v ===== *)
(** * An abstract file system

    [avol] is what a program can see of a volume: the names of the root
    directory, the contents of the files and the vnodes that are open with
    their references.  [freps] and [reps] say which abstract volume the blocks
    and the vnodes of a volume stand for. *)

From S2P Require Import Prelude Machine Spinlock Pt Kernel Xfer Lhd Bitmap Array Sfs SfsInv SfsOk SfsBmap SfsFile SfsIo SfsTrunc SfsDir SfsMeta SfsNode Vnode.

(** A vnode stands for an inode number and has a number of references. *)
Record avol : Type := mk_avol { a_names : gmap (list Z) Z; a_data : gmap Z (list Z); a_open : gmap Z (Z * Z) }.
Definition set_a_names (x : gmap (list Z) Z) (a : avol) : avol := mk_avol x (a_data a) (a_open a).
Definition set_a_data (x : gmap Z (list Z)) (a : avol) : avol := mk_avol (a_names a) x (a_open a).
Definition set_a_open (x : gmap Z (Z * Z)) (a : avol) : avol := mk_avol (a_names a) (a_data a) x.

(** The number of names of a file *)
Definition links (m : gmap (list Z) Z) (ino : Z) : nat := size (filter (λ p : list Z * Z, p.2 = ino) m).

(** ** Specifications of the operations *)

(** One more reference of the vnode [sv] of the file [ino] *)
Definition a_ref (sv ino : Z) (a : avol) : avol := set_a_open (<[sv := (ino, 1 + default 0 (snd <$> a_open a !! sv))]> (a_open a)) a.
(** [sv] is the vnode of [ino], or will be *)
Definition a_vnode (a : avol) (sv ino : Z) : Prop :=
  match a_open a !! sv with
  | Some (j, _) => j = ino
  | None => ∀ sv' j n, a_open a !! sv' = Some (j, n) → j ≠ ino
  end.
(** A file that has no name and is not open goes away. *)
Definition a_gc (ino : Z) (a : avol) : avol :=
  if decide (links (a_names a) ino = 0%nat ∧ ∀ sv p, a_open a !! sv = Some p → p.1 ≠ ino) then set_a_data (delete ino (a_data a)) a else a.
(** One reference less *)
Definition a_unref (sv ino n : Z) (a : avol) : avol :=
  if 1 <? n then set_a_open (<[sv := (ino, n - 1)]> (a_open a)) a else a_gc ino (set_a_open (delete sv (a_open a)) a).

Definition look_spec (a : avol) (ino : Z) (r : Z * Z) (a' : avol) : Prop :=
  (r.1 = ENOMEM ∧ a' = a) ∨ (r.1 = 0 ∧ a_vnode a r.2 ino ∧ a' = a_ref r.2 ino a).

Definition lookup_spec (a : avol) (nm : list Z) (r : Z * Z) (a' : avol) : Prop :=
  match a_names a !! nm with
  | Some ino => look_spec a ino r a'
  | None => r.1 = ENOENT ∧ a' = a
  end.

Definition creat_spec (a : avol) (nm : list Z) (excl : bool) (r : Z * Z) (a' : avol) : Prop :=
  match a_names a !! nm with
  | Some ino => if excl then r.1 = EEXIST ∧ a' = a else look_spec a ino r a'
  | None =>
      (r.1 ∈ [ENOSPC; ENOMEM; EFBIG; ENAMETOOLONG] ∧ a' = a) ∨
      (r.1 = 0 ∧ (length nm ≤ 59)%nat ∧ ∃ ino, ino ≠ SFS_ROOTDIR_INO ∧ a_data a !! ino = None ∧ a_open a !! r.2 = None ∧ a_vnode a r.2 ino ∧
         a' = mk_avol (<[nm := ino]> (a_names a)) (<[ino := []]> (a_data a)) (<[r.2 := (ino, 1)]> (a_open a)))
  end.

Definition remove_spec (a : avol) (nm : list Z) (r : Z) (a' : avol) : Prop :=
  match a_names a !! nm with
  | Some ino => (r = ENOMEM ∧ a' = a) ∨ (r = 0 ∧ a' = a_gc ino (set_a_names (delete nm (a_names a)) a))
  | None => r = ENOENT ∧ a' = a
  end.

Definition link_spec (a : avol) (nm : list Z) (ino : Z) (r : Z) (a' : avol) : Prop :=
  match a_names a !! nm with
  | Some _ => r = EEXIST ∧ a' = a
  | None => (r ∈ [ENOSPC; EFBIG; ENAMETOOLONG] ∧ a' = a) ∨ (r = 0 ∧ (length nm ≤ 59)%nat ∧ a' = set_a_names (<[nm := ino]> (a_names a)) a)
  end.

(** The name [n2] takes the place of the name [n1] of [ino]. *)
Definition rename_found (a : avol) (n1 n2 : list Z) (ino : Z) (r : Z) (a' : avol) : Prop :=
  (r = ENOMEM ∧ a' = a) ∨
  match a_names a !! n2 with
  | Some _ => r = EEXIST ∧ a' = a
  | None => (r ∈ [ENOSPC; EFBIG; ENAMETOOLONG] ∧ a' = a) ∨ (r = 0 ∧ (length n2 ≤ 59)%nat ∧ a' = set_a_names (delete n1 (<[n2 := ino]> (a_names a))) a)
  end.

Definition rename_spec (a : avol) (n1 n2 : list Z) (r : Z) (a' : avol) : Prop :=
  match a_names a !! n1 with
  | None => r = ENOENT ∧ a' = a
  | Some ino => rename_found a n1 n2 ino r a'
  end.

(** A file of [len] bytes: a longer one is cut, a shorter one is filled up with zeros. *)
Definition trunc_spec (a : avol) (ino : Z) (c : list Z) (len : Z) (r : Z) (a' : avol) : Prop :=
  r = 0 ∧ a' = set_a_data (<[ino := resize (Z.to_nat len) 0 c]> (a_data a)) a.

Definition stat_spec (a : avol) (ino : Z) (r : Z * stat) (a' : avol) : Prop :=
  a' = a ∧ r.1 = 0 ∧
  match a_data a !! ino with
  | Some c => r.2 = mk_stat (Z.of_nat (length c)) S_IFREG (Z.of_nat (links (a_names a) ino)) 0 0 0 0
  | None => st_mode r.2 = S_IFDIR
  end.

Section data_spec.
Context {U : Type} {uops : UioOps U} {ulaws : UioLaws U}.

(** Up to the end of the file *)
Definition read_spec (a : avol) (c : list Z) (u : U) (r : Z * U) (a' : avol) : Prop :=
  let bs := file_read (u_offset u) (u_resid u) c in
  a' = a ∧ r.1 = 0 ∧ u_later (Z.of_nat (length bs)) u r.2 ∧ u_done r.2 = u_done u ++ bs.

(** The first [m] bytes, all of them when the result is 0 *)
Definition write_spec (a : avol) (ino : Z) (c : list Z) (u : U) (r : Z * U) (a' : avol) : Prop :=
  ∃ m : nat, Z.of_nat m ≤ u_resid u ∧ u_later (Z.of_nat m) u r.2 ∧
    (if (m =? 0)%nat then a' = a else a' = set_a_data (<[ino := file_write (u_offset u) (take m (u_todo u)) c]> (a_data a)) a) ∧
    (if r.1 =? 0 then Z.of_nat m = u_resid u else r.1 ∈ [ENOSPC; EFBIG]).
End data_spec.

(** ** Link counts *)

Lemma links_insert m nm ino j : m !! nm = None → links (<[nm := ino]> m) j = (links m j + if decide (j = ino) then 1 else 0)%nat.
Proof.
  intros Hnew. unfold links. rewrite map_filter_insert. cbn [snd]. destruct (decide (ino = j)) as [->|Hne].
  - rewrite decide_True by done. rewrite map_size_insert_None; [lia|]. apply map_lookup_filter_None. by left.
  - rewrite (decide_False (P := j = ino)) by congruence. rewrite delete_id by done. lia.
Qed.
Lemma links_delete m nm ino j : m !! nm = Some ino → links m j = (links (delete nm m) j + if decide (j = ino) then 1 else 0)%nat.
Proof. intros H. rewrite <-(insert_delete_id m nm ino) at 1 by done. apply links_insert. apply lookup_delete_eq. Qed.
Lemma links_pos m nm ino : m !! nm = Some ino → (0 < links m ino)%nat.
Proof. intros H. rewrite (links_delete m nm ino ino H), decide_True by done. lia. Qed.
Lemma links_none m ino : links m ino = 0%nat → ∀ nm, m !! nm ≠ Some ino.
Proof. intros H nm Hnm%links_pos. lia. Qed.
Lemma links_some m ino : links m ino ≠ 0%nat → ∃ nm, m !! nm = Some ino.
Proof.
  unfold links. intros H. destruct (map_choose (filter (λ p : list Z * Z, p.2 = ino) m)) as (nm & j & Hj).
  - intros E. apply H. rewrite E. apply map_size_empty.
  - apply map_lookup_filter_Some in Hj as [Hj E]. cbn in E. subst. eauto.
Qed.
Lemma links_size m ino : (links m ino ≤ size m)%nat.
Proof. unfold links. apply map_subseteq_size, map_filter_subseteq. Qed.

Lemma dir_of_size l : (size (dir_of l) ≤ length l)%nat.
Proof.
  induction l as [|e l IH]; [done|]. cbn [dir_of foldr length]. fold (dir_of l). destruct (decide (live e)); [|lia].
  rewrite map_size_insert. destruct (dir_of l !! ename e); cbn; lia.
Qed.

(** ** The files of a volume *)

Record file_is (D : list (list Z)) (i : sfs_dinode) (c : list Z) (n : nat) : Prop := {
  fi_type : sfi_type i = SFS_TYPE_FILE;
  fi_contents : contents D i = c;
  fi_tidy : tidy D i;
  fi_size : sfi_size i ≤ 143 * 512;
  fi_links : sfi_linkcount i = Z.of_nat n
}.

Record root_is (D : list (list Z)) (i : sfs_dinode) (names : gmap (list Z) Z) : Prop := {
  ro_dir : dir_wf D i;
  ro_tidy : tidy D i;
  ro_links : 0 < sfi_linkcount i;
  ro_names : dir_of (dirents (contents D i)) = names
}.

(** The names and the contents the inodes stand for, with the link counts [L] *)
Record freps (D : list (list Z)) (I : gmap Z sfs_dinode) (names : gmap (list Z) Z) (data : gmap Z (list Z)) (L : Z → nat) : Prop := {
  fr_root : ∃ i, I !! SFS_ROOTDIR_INO = Some i ∧ root_is D i names;
  fr_file ino : ino ≠ SFS_ROOTDIR_INO →
    match I !! ino, data !! ino with
    | Some i, Some c => file_is D i c (L ino)
    | None, None => True
    | _, _ => False
    end;
  fr_data : data !! SFS_ROOTDIR_INO = None
}.

Lemma same_contents D D' i i' : sfi_size i' = sfi_size i → (∀ k, fblock D' i' k = fblock D i k) → contents D' i' = contents D i ∧ (tidy D i → tidy D' i').
Proof.
  intros H1 H4. pose proof (same_raw _ _ _ _ H4) as Hr. split; [unfold contents, range; rewrite H1; apply list_fmap_ext; intros; apply Hr|].
  intros Ht n Hn. rewrite Hr. apply Ht. by rewrite <-H1.
Qed.

Lemma file_same D D' i i' c n : same_inode D D' i i' → file_is D i c n → file_is D' i' c n.
Proof.
  intros Hs [F1 F2 F3 F4 F5]. destruct (same_contents _ _ _ _ (si_size _ _ _ _ Hs) (si_block _ _ _ _ Hs)) as [Hc Ht]. destruct Hs as [S1 S2 S3 S4]. split; [congruence|congruence|auto|lia|congruence].
Qed.

Lemma root_same D D' i i' names : same_inode D D' i i' → root_is D i names → root_is D' i' names.
Proof.
  intros Hs [[W1 W2 W3] F2 F3 F4]. destruct (same_contents _ _ _ _ (si_size _ _ _ _ Hs) (si_block _ _ _ _ Hs)) as [Hc Ht]. destruct Hs as [S1 S2 S3 S4]. split; [|auto|lia|by rewrite Hc].
  split; [congruence|by rewrite S1|by rewrite Hc].
Qed.

Lemma freps_same D I D' I' names data L : same_files D I D' I' → freps D I names data L → freps D' I' names data L.
Proof.
  intros Hs [(i & Hi & Hr) H2 H3]. split; [| |done].
  - specialize (Hs SFS_ROOTDIR_INO). rewrite Hi in Hs. destruct (I' !! SFS_ROOTDIR_INO) as [i'|] eqn:E; [|done]. exists i'. split; [done|]. by eapply root_same.
  - intros ino Hne. specialize (H2 ino Hne). specialize (Hs ino). destruct (I !! ino), (I' !! ino), (data !! ino); try done. by eapply file_same.
Qed.

(** A file changes. *)
Lemma freps_file D I D' names data L ino i' c n :
  freps D I names data L → ino ≠ SFS_ROOTDIR_INO → file_is D' i' c n → (∀ j ij k, I !! j = Some ij → j ≠ ino → fblock D' ij k = fblock D ij k) →
  freps D' (<[ino := i']> I) names (<[ino := c]> data) (λ j, if decide (j = ino) then n else L j).
Proof.
  intros [(i & Hi & Hr) H2 H3] Hne Hf Hother. split.
  - exists i. rewrite lookup_insert_ne by done. split; [done|]. eapply root_same; [|exact Hr]. split; try done. intros k. apply (Hother SFS_ROOTDIR_INO); congruence.
  - intros j Hj. destruct (decide (j = ino)) as [->|Hjne]; [by rewrite !lookup_insert_eq|]. rewrite !lookup_insert_ne by done. specialize (H2 j Hj).
    destruct (I !! j) as [ij|] eqn:Ej, (data !! j); try done. eapply file_same; [|exact H2]. split; try done. intros k. by apply (Hother j).
  - by rewrite lookup_insert_ne.
Qed.

(** The directory changes. *)
Lemma freps_root D I D' names data L i' names' :
  freps D I names data L → root_is D' i' names' → (∀ j ij k, I !! j = Some ij → j ≠ SFS_ROOTDIR_INO → fblock D' ij k = fblock D ij k) →
  freps D' (<[SFS_ROOTDIR_INO := i']> I) names' data L.
Proof.
  intros [_ H2 H3] Hr Hother. split; [|..|done].
  - exists i'. by rewrite lookup_insert_eq.
  - intros j Hj. rewrite lookup_insert_ne by done. specialize (H2 j Hj). destruct (I !! j) as [ij|] eqn:Ej, (data !! j); try done.
    eapply file_same; [|exact H2]. split; try done. intros k. by apply (Hother j).
Qed.

(** A file goes away. *)
Lemma freps_delete D I names data L ino : freps D I names data L → ino ≠ SFS_ROOTDIR_INO → freps D (delete ino I) names (delete ino data) L.
Proof.
  intros [(i & Hi & Hr) H2 H3] Hne. split.
  - exists i. by rewrite lookup_delete_ne.
  - intros j Hj. destruct (decide (j = ino)) as [->|Hjne]; [by rewrite !lookup_delete_eq|]. rewrite !lookup_delete_ne by done. by apply H2.
  - by rewrite lookup_delete_ne.
Qed.

Lemma freps_ext D I names data L L' : (∀ j, is_Some (data !! j) → L' j = L j) → freps D I names data L → freps D I names data L'.
Proof.
  intros HL [H1 H2 H3]. split; [done| |done]. intros j Hj. specialize (H2 j Hj). destruct (I !! j), (data !! j) eqn:Ed; try done. rewrite HL; [done|by rewrite Ed].
Qed.

(** The file of an inode *)
Lemma freps_lookup D I names data L ino c : freps D I names data L → data !! ino = Some c →
  ino ≠ SFS_ROOTDIR_INO ∧ ∃ i, I !! ino = Some i ∧ file_is D i c (L ino).
Proof.
  intros [H1 H2 H3] Hc. assert (ino ≠ SFS_ROOTDIR_INO) as Hne by congruence. specialize (H2 ino Hne). rewrite Hc in H2. destruct (I !! ino) as [i|]; [|done]. eauto.
Qed.

Lemma freps_inode D I names data L ino i : freps D I names data L → I !! ino = Some i →
  typed i ∧ (ino ≠ SFS_ROOTDIR_INO → ∃ c, data !! ino = Some c ∧ file_is D i c (L ino)).
Proof.
  intros [(i0 & Hi0 & Hr) H2 H3] Hi. destruct (decide (ino = SFS_ROOTDIR_INO)) as [->|Hne].
  - rewrite Hi in Hi0. injection Hi0 as <-. split; [|done]. right. apply (dw_type _ _ (ro_dir _ _ _ Hr)).
  - specialize (H2 ino Hne). rewrite Hi in H2. destruct (data !! ino) as [c|]; [|done]. split; [left; apply H2|eauto].
Qed.

(** ** Volumes *)

Definition opens (nodes : gmap Z sfs_vnode) : gmap Z (Z * Z) := (λ x, (sv_ino x, vn_refcount x)) <$> nodes.

(** Every name is the name of a file, and every file has a name or is open. *)
Record a_wf (a : avol) : Prop := {
  aw_names nm ino : a_names a !! nm = Some ino → is_Some (a_data a !! ino);
  aw_data ino : is_Some (a_data a !! ino) → links (a_names a) ino ≠ 0%nat ∨ ∃ sv n, a_open a !! sv = Some (ino, n)
}.

Record reps (w : sview) (I : gmap Z sfs_dinode) (a : avol) : Prop := {
  rp_files : freps (w_disk w) I (a_names a) (a_data a) (links (a_names a));
  rp_open : a_open a = opens (w_nodes w);
  rp_wf : a_wf a
}.

(** The state of a volume between operations stands for [a]. *)
Definition repr (R0 : srest) (s : sfs_st) (a : avol) : Prop := ∃ R w I, stable R0 R ∧ mvol R s w I ∧ reps w I a.

Lemma opens_insert nodes sv x : opens (<[sv := x]> nodes) = <[sv := (sv_ino x, vn_refcount x)]> (opens nodes).
Proof. unfold opens. by rewrite fmap_insert. Qed.
Lemma opens_lookup nodes sv p : opens nodes !! sv = Some p ↔ ∃ x, nodes !! sv = Some x ∧ p = (sv_ino x, vn_refcount x).
Proof. unfold opens. rewrite lookup_fmap, fmap_Some. naive_solver. Qed.
