(* ===== verification/SfsOps.v ===== *)
(** * The file system: operations on files and volumes ([kern/fs/sfs])

    The code of [sfs_vnops.c] and [sfs_fsops.c]: the operations behind the
    tables of [Vnode], [sfs_sync], and mounting and unmounting a volume. *)

From S2P Require Import Prelude Machine Spinlock Pt Kernel Xfer Lhd Bitmap Array Sfs SfsDir Vnode.

(** ** Operations on vnodes ([sfs_vnops.c]) *)

Definition sfs_eachopen (v openflags : Z) : M sfs_st Z := mret 0.

Definition sfs_eachopendir (v openflags : Z) : M sfs_st Z :=
  if negb (Z.land openflags O_ACCMODE =? O_RDONLY) then mret EISDIR
  else if negb (Z.land openflags O_APPEND =? 0) then mret EISDIR
  else mret 0.

Section data.
Context {U : Type} {uops : UioOps U}.

Definition sfs_read (v : Z) (u : U) : M sfs_st (Z * U) :=
  kassert (bool_decide (u_rw u = UIO_READ)) "uio->uio_rw==UIO_READ" ;;
  vfs_biglock_acquire ;;
  r ← sfs_io v u;
  vfs_biglock_release ;;
  mret r.

Definition sfs_write (v : Z) (u : U) : M sfs_st (Z * U) :=
  kassert (bool_decide (u_rw u = UIO_WRITE)) "uio->uio_rw==UIO_WRITE" ;;
  vfs_biglock_acquire ;;
  r ← sfs_io v u;
  vfs_biglock_release ;;
  mret r.

(** The empty string is sent back: nothing is moved. *)
Definition sfs_namefile (v : Z) (u : U) : M sfs_st (Z * U) :=
  x ← get_sv v;
  kassert (sv_ino x =? SFS_ROOTDIR_INO) "sv->sv_ino == SFS_ROOTDIR_INO" ;;
  mret (0, u).
End data.

Definition sfs_ioctl (v op data : Z) : M sfs_st Z := mret EINVAL.

Definition sfs_gettype (v : Z) : M sfs_st (Z * Z) :=
  vfs_biglock_acquire ;;
  x ← get_sv v;
  if sfi_type (sv_i x) =? SFS_TYPE_FILE then vfs_biglock_release ;; mret (0, S_IFREG)
  else if sfi_type (sv_i x) =? SFS_TYPE_DIR then vfs_biglock_release ;; mret (0, S_IFDIR)
  else halt (Panic "sfs: gettype: Invalid inode type").

Definition sfs_stat (v : Z) : M sfs_st (Z * stat) :=
  r ← sfs_gettype v;
  if negb (r.1 =? 0) then mret (r.1, no_stat)
  else
    x ← get_sv v;
    mret (0, mk_stat (sfi_size (sv_i x)) r.2 (sfi_linkcount (sv_i x)) 0 0 0 0).

Definition sfs_isseekable (v : Z) : M sfs_st bool := mret true.

Definition sfs_fsync (v : Z) : M sfs_st Z :=
  vfs_biglock_acquire ;;
  result ← sfs_sync_inode v;
  vfs_biglock_release ;;
  mret result.

Definition sfs_mmap (v : Z) : M sfs_st Z := mret ENOSYS.

Definition sfs_truncate (v len : Z) : M sfs_st Z := sfs_itrunc v len.

(** A change of the link count by [d] *)
Definition add_links (sv d : Z) : M sfs_st () := upd_inode sv (λ i, set_sfi_linkcount (u16 (sfi_linkcount i + d)) i).

Definition sfs_creat (v : Z) (nm : list Z) (excl : bool) (mode : Z) : M sfs_st (Z * Z) :=
  vfs_biglock_acquire ;;
  r ← sfs_dir_findname v nm;
  let '(result, f) := r in
  if negb (result =? 0) && negb (result =? ENOENT) then vfs_biglock_release ;; mret (result, 0)
  else if (result =? 0) && excl then vfs_biglock_release ;; mret (EEXIST, 0)
  else if result =? 0 then
    r ← sfs_loadvnode (fn_ino f) SFS_TYPE_INVAL;
    vfs_biglock_release ;;
    mret r
  else
    r ← sfs_makeobj SFS_TYPE_FILE;
    if negb (r.1 =? 0) then vfs_biglock_release ;; mret r
    else
      let newguy := r.2 in
      x ← get_sv newguy;
      r ← sfs_dir_link v nm (sv_ino x);
      if negb (r.1 =? 0) then
        sfs_decref newguy ;;
        vfs_biglock_release ;;
        mret (r.1, 0)
      else
        add_links newguy 1 ;;
        vfs_biglock_release ;;
        mret (0, newguy).

Definition sfs_link (dir : Z) (nm : list Z) (file : Z) : M sfs_st Z :=
  vfs_biglock_acquire ;;
  f ← get_sv file;
  if sfi_type (sv_i f) =? SFS_TYPE_DIR then vfs_biglock_release ;; mret EINVAL
  else
    r ← sfs_dir_link dir nm (sv_ino f);
    if negb (r.1 =? 0) then vfs_biglock_release ;; mret r.1
    else
      add_links file 1 ;;
      vfs_biglock_release ;;
      mret 0.

Definition sfs_remove (dir : Z) (nm : list Z) : M sfs_st Z :=
  vfs_biglock_acquire ;;
  r ← sfs_lookonce dir nm;
  let '(result, victim, slot) := r in
  if negb (result =? 0) then vfs_biglock_release ;; mret result
  else
    result ← sfs_dir_unlink dir slot;
    (if result =? 0 then
       x ← get_sv victim;
       kassert (0 <? sfi_linkcount (sv_i x)) "victim->sv_i.sfi_linkcount > 0" ;;
       add_links victim (-1)
     else mret tt) ;;
    sfs_decref victim ;;
    vfs_biglock_release ;;
    mret result.

Definition sfs_rename (d1 : Z) (n1 : list Z) (d2 : Z) (n2 : list Z) : M sfs_st Z :=
  vfs_biglock_acquire ;;
  kassert (d1 =? d2) "d1==d2" ;;
  x ← get_sv d1;
  kassert (sv_ino x =? SFS_ROOTDIR_INO) "sv->sv_ino == SFS_ROOTDIR_INO" ;;
  r ← sfs_lookonce d1 n1;
  let '(result, g1, slot1) := r in
  if negb (result =? 0) then vfs_biglock_release ;; mret result
  else
    x ← get_sv g1;
    kassert (sfi_type (sv_i x) =? SFS_TYPE_FILE) "g1->sv_i.sfi_type == SFS_TYPE_FILE" ;;
    r ← sfs_dir_link d1 n2 (sv_ino x);
    let '(result, slot2) := r in
    result ← (if negb (result =? 0) then mret result
      else
        add_links g1 1 ;;
        result ← sfs_dir_unlink d1 slot1;
        if negb (result =? 0) then
          result2 ← sfs_dir_unlink d1 slot2;
          if negb (result2 =? 0) then halt (Panic "sfs: rename: Cannot recover")
          else
            upd_sv g1 (λ x, set_sv_i (set_sfi_linkcount (u16 (sfi_linkcount (sv_i x) - 1)) (sv_i x)) x) ;;
            mret result
        else
          x ← get_sv g1;
          kassert (0 <? sfi_linkcount (sv_i x)) "g1->sv_i.sfi_linkcount>0" ;;
          add_links g1 (-1) ;;
          mret 0);
    sfs_decref g1 ;;
    vfs_biglock_release ;;
    mret result.

(** The result, [*ret] and [buf] *)
Definition sfs_lookparent (v : Z) (path : list Z) (buflen : Z) : M sfs_st (Z * (Z * list Z)) :=
  vfs_biglock_acquire ;;
  x ← get_sv v;
  if negb (sfi_type (sv_i x) =? SFS_TYPE_DIR) then vfs_biglock_release ;; mret (ENOTDIR, (0, []))
  else if buflen <? Z.of_nat (length path) + 1 then vfs_biglock_release ;; mret (ENAMETOOLONG, (0, []))
  else
    sfs_incref v ;;
    vfs_biglock_release ;;
    mret (0, (v, path)).

Definition sfs_lookup (v : Z) (path : list Z) : M sfs_st (Z * Z) :=
  vfs_biglock_acquire ;;
  x ← get_sv v;
  if negb (sfi_type (sv_i x) =? SFS_TYPE_DIR) then vfs_biglock_release ;; mret (ENOTDIR, 0)
  else
    r ← sfs_lookonce v path;
    let '(result, final, _) := r in
    vfs_biglock_release ;;
    if negb (result =? 0) then mret (result, 0) else mret (0, final).

Definition sfs_ops {U} {uops : UioOps U} (t : sfs_optable) : vnode_ops sfs_st U :=
  match t with
  | sfs_fileops => {|
      vop_eachopen := sfs_eachopen;
      vop_reclaim := sfs_reclaim;
      vop_read := sfs_read;
      vop_readlink := vopfail_uio_notdir;
      vop_getdirentry := vopfail_uio_notdir;
      vop_write := sfs_write;
      vop_ioctl := sfs_ioctl;
      vop_stat := sfs_stat;
      vop_gettype := sfs_gettype;
      vop_isseekable := sfs_isseekable;
      vop_fsync := sfs_fsync;
      vop_mmap := sfs_mmap;
      vop_truncate := sfs_truncate;
      vop_namefile := vopfail_uio_notdir;
      vop_creat := vopfail_creat_notdir;
      vop_symlink := vopfail_symlink_notdir;
      vop_mkdir := vopfail_mkdir_notdir;
      vop_link := vopfail_link_notdir;
      vop_remove := vopfail_string_notdir;
      vop_rmdir := vopfail_string_notdir;
      vop_rename := vopfail_rename_notdir;
      vop_lookup := vopfail_lookup_notdir;
      vop_lookparent := vopfail_lookparent_notdir
    |}
  | sfs_dirops => {|
      vop_eachopen := sfs_eachopendir;
      vop_reclaim := sfs_reclaim;
      vop_read := vopfail_uio_isdir;
      vop_readlink := vopfail_uio_inval;
      vop_getdirentry := vopfail_uio_nosys;
      vop_write := vopfail_uio_isdir;
      vop_ioctl := sfs_ioctl;
      vop_stat := sfs_stat;
      vop_gettype := sfs_gettype;
      vop_isseekable := sfs_isseekable;
      vop_fsync := sfs_fsync;
      vop_mmap := vopfail_mmap_isdir;
      vop_truncate := vopfail_truncate_isdir;
      vop_namefile := sfs_namefile;
      vop_creat := sfs_creat;
      vop_symlink := vopfail_symlink_nosys;
      vop_mkdir := vopfail_mkdir_nosys;
      vop_link := sfs_link;
      vop_remove := sfs_remove;
      vop_rmdir := vopfail_string_nosys;
      vop_rename := sfs_rename;
      vop_lookup := sfs_lookup;
      vop_lookparent := sfs_lookparent
    |}
  end.

(** ** Calling an operation ([kern/include/vnode.h]) *)

(** [vnode_check] of [kern/vfs/vnode.c]: the number of a vnode in memory is no
    bad pointer and both tables have the right magic number, which leaves the
    checks of the reference count.  The warning about a large count is only
    printed. *)
Definition vnode_check (v : Z) : M sfs_st () :=
  x ← get_sv v;
  if vn_refcount x <? 0 then halt (Panic "vnode_check: negative refcount")
  else if vn_refcount x =? 0 then halt (Panic "vnode_check: zero refcount")
  else mret tt.

(** [__VOP] *)
Definition VOP {U} {uops : UioOps U} {A} (v : Z) (op : vnode_ops sfs_st U → M sfs_st A) : M sfs_st A :=
  vnode_check v ;;
  x ← get_sv v;
  op (sfs_ops (vn_ops x)).

(** ** Operations on volumes ([sfs_fsops.c]) *)

Definition SFS_FS_NBLOCKS (fs : sfs_fs) : Z := sb_nblocks (sfs_sb fs).
Definition SFS_FS_FREEMAPBITS (fs : sfs_fs) : Z := SFS_FREEMAPBITS (SFS_FS_NBLOCKS fs).
Definition SFS_FS_FREEMAPBLOCKS (fs : sfs_fs) : Z := SFS_FREEMAPBLOCKS (SFS_FS_NBLOCKS fs).

(** Block [j] of the data of the free map, and its replacement *)
Definition map_block (j : Z) : M sfs_st (list Z) :=
  on_freemap (b ← gets id;
              let l := take 512 (drop (Z.to_nat (j * SFS_BLOCKSIZE)) (bitmap_getdata b)) in
              if decide (length l = 512%nat) then mret l else halt BadAccess).
Definition set_map_block (j : Z) (bs : list Z) : M sfs_st () :=
  on_freemap (b ← gets id;
              if decide (j * SFS_BLOCKSIZE + Z.of_nat (length bs) ≤ Z.of_nat (length (v b)))
              then modify (set_v (splice (j * SFS_BLOCKSIZE) bs (v b))) else halt BadAccess).

Definition sfs_freemapio (rw : uio_rw_t) : M sfs_st Z :=
  fs ← gets s_fs;
  let freemapblocks := SFS_FS_FREEMAPBLOCKS fs in
  while (λ j,
    if j <? freemapblocks then
      result ← (if decide (rw = UIO_READ) then
                  r ← sfs_readblock (u32 (SFS_FREEMAP_START + j));
                  (if r.1 =? 0 then set_map_block j r.2 else mret tt) ;;
                  mret r.1
                else
                  bs ← map_block j;
                  sfs_writeblock (u32 (SFS_FREEMAP_START + j)) bs);
      if negb (result =? 0) then mret (inr result) else mret (inl (j + 1))
    else mret (inr 0)) 0.

(** [VOP_FSYNC] is [sfs_fsync] for both tables; its result is not used. *)
Definition sfs_sync_vnodes : M sfs_st Z :=
  num ← vnodearray_num;
  for_list (seqZ 0 num) (λ i, v ← vnodearray_get i; sfs_fsync v ;; mret tt) ;;
  mret 0.

Definition sfs_sync_freemap : M sfs_st Z :=
  fs ← gets s_fs;
  if sfs_freemapdirty fs then
    result ← sfs_freemapio UIO_WRITE;
    if negb (result =? 0) then mret result
    else on_fs (set_freemapdirty false) ;; mret 0
  else mret 0.

Definition sfs_sync_superblock : M sfs_st Z :=
  fs ← gets s_fs;
  if sfs_superdirty fs then
    result ← sfs_writeblock SFS_SUPER_BLOCK (sb_bytes (sfs_sb fs));
    if negb (result =? 0) then mret result
    else on_fs (set_superdirty false) ;; mret 0
  else mret 0.

Definition sfs_sync : M sfs_st Z :=
  vfs_biglock_acquire ;;
  result ← sfs_sync_vnodes;
  if negb (result =? 0) then vfs_biglock_release ;; mret result
  else
    result ← sfs_sync_freemap;
    if negb (result =? 0) then vfs_biglock_release ;; mret result
    else
      result ← sfs_sync_superblock;
      if negb (result =? 0) then vfs_biglock_release ;; mret result
      else vfs_biglock_release ;; mret 0.

Definition sfs_getvolname : M sfs_st (option (list Z)) :=
  vfs_biglock_acquire ;;
  fs ← gets s_fs;
  vfs_biglock_release ;;
  mret (Some (cstring (sb_volname (sfs_sb fs)))).

Definition sfs_fs_destroy : M sfs_st () :=
  on_fs (set_freemap None) ;;
  on_vnodes array_destroy ;;
  fs ← gets s_fs;
  kassert (negb (sfs_device fs)) "sfs->sfs_device == NULL".

Definition sfs_unmount : M sfs_st Z :=
  vfs_biglock_acquire ;;
  num ← vnodearray_num;
  if 0 <? num then vfs_biglock_release ;; mret EBUSY
  else
    fs ← gets s_fs;
    kassert (negb (sfs_superdirty fs)) "sfs->sfs_superdirty == false" ;;
    kassert (negb (sfs_freemapdirty fs)) "sfs->sfs_freemapdirty == false" ;;
    on_fs (set_device false) ;;
    sfs_fs_destroy ;;
    vfs_biglock_release ;;
    mret 0.

Definition sfs_fsops : fs_ops sfs_st := {|
  fsop_sync := sfs_sync;
  fsop_getvolname := sfs_getvolname;
  fsop_getroot := sfs_getroot;
  fsop_unmount := sfs_unmount
|}.

(** Whether the new structure could be allocated; what it holds in place of a
    superblock is not said. *)
Definition sfs_fs_create : M sfs_st bool :=
  ok ← sfs_malloc;
  if negb ok then mret false
  else
    okv ← sfs_malloc;
    match array_create okv with
    | None => mret false
    | Some a =>
        on_fs (λ fs, mk_fs (sfs_sb fs) false false a None false) ;;
        mret true
    end.

(** [sfs->sfs_device = NULL] and [sfs_fs_destroy(sfs)] on the way out *)
Definition mount_fail (result : Z) : M sfs_st Z :=
  on_fs (set_device false) ;;
  sfs_fs_destroy ;;
  vfs_biglock_release ;;
  mret result.

(** [d_blocksize] is that of the device. *)
Definition sfs_domount (d_blocksize : Z) : M sfs_st Z :=
  vfs_biglock_acquire ;;
  if negb (d_blocksize =? SFS_BLOCKSIZE) then vfs_biglock_release ;; mret ENXIO
  else
    ok ← sfs_fs_create;
    if negb ok then vfs_biglock_release ;; mret ENOMEM
    else
      on_fs (set_device true) ;;
      r ← sfs_readblock SFS_SUPER_BLOCK;
      if negb (r.1 =? 0) then mount_fail r.1
      else
        let sb := sb_of r.2 in
        on_fs (set_sfs_sb sb) ;;
        if negb (sb_magic sb =? SFS_MAGIC) then mount_fail EINVAL
        else
          on_fs (set_sfs_sb (mk_sb (sb_magic sb) (sb_nblocks sb) (<[31%nat := 0]> (sb_volname sb)) (sb_reserved sb))) ;;
          fs ← gets s_fs;
          ok1 ← sfs_malloc;
          ok2 ← sfs_malloc;
          match bitmap_create ok1 ok2 (SFS_FS_FREEMAPBITS fs) with
          | Stop e => halt e
          | Ok None => mount_fail ENOMEM
          | Ok (Some b) =>
              on_fs (set_freemap (Some b)) ;;
              result ← sfs_freemapio UIO_READ;
              if negb (result =? 0) then mount_fail result
              else vfs_biglock_release ;; mret 0
          end.
