(* ===== verification/SfsRefine.v ===== *)
(** * The file system implements the abstract file system

    Each operation of [sfs_vnops.c] on a volume that stands for an abstract
    volume does what its specification in [SfsSpec] says, and the volume then
    stands for the new abstract volume. *)

From S2P Require Import Prelude Machine Spinlock Pt Kernel Xfer Lhd Bitmap Array Sfs SfsInv SfsOk SfsBmap SfsFile SfsIo SfsTrunc SfsDir SfsMeta SfsNode Vnode SfsSpec SfsOps.

(** ** References *)

Lemma a_gc_keep ino a : links (a_names a) ino ≠ 0%nat ∨ (∃ sv n, a_open a !! sv = Some (ino, n)) ∨ a_data a !! ino = None → a_gc ino a = a.
Proof.
  intros H. unfold a_gc. case_decide as E; [|done]. destruct E as [E1 E2]. destruct H as [H|[(sv & n & H)|H]]; [done|by destruct (E2 sv (ino, n) H)|].
  unfold set_a_data. rewrite delete_id by done. by destruct a.
Qed.

Lemma a_gc_wf ino a : a_wf a → a_gc ino a = a.
Proof.
  intros [_ H]. apply a_gc_keep. destruct (a_data a !! ino) eqn:E; [|by auto]. destruct (H ino) as [?|?]; [by rewrite E|by left|by right; left].
Qed.

Lemma a_wf_ref a sv ino : a_wf a → a_vnode a sv ino → a_wf (a_ref sv ino a).
Proof.
  intros [H1 H2] Hv. split; [done|]. intros j Hj. destruct (H2 j Hj) as [H|(p & n & Hp)]; [by left|right]. cbn. destruct (decide (p = sv)) as [->|Hne].
  - unfold a_vnode in Hv. rewrite Hp in Hv. subst. exists sv. rewrite lookup_insert_eq. eauto.
  - exists p. rewrite lookup_insert_ne by done. eauto.
Qed.

(** Taking a reference and dropping it *)
Lemma a_unref_ref a sv ino : a_vnode a sv ino → (∀ j n, a_open a !! sv = Some (j, n) → 0 < n) →
  a_unref sv ino (1 + default 0 (snd <$> a_open a !! sv)) (a_ref sv ino a) = a_gc ino a.
Proof.
  intros Hv Hpos. unfold a_unref, a_ref. cbn [a_open set_a_open]. rewrite insert_insert_eq, delete_insert_eq. unfold a_vnode in Hv. destruct (a_open a !! sv) as [[j n]|] eqn:E.
  - subst j. specialize (Hpos ino n eq_refl). change (default 0 (snd <$> Some (ino, n))) with n. rewrite (proj2 (Z.ltb_lt 1 (1 + n))) by lia. rewrite a_gc_keep by eauto.
    replace (1 + n - 1) with n by lia. rewrite insert_id by done. by destruct a.
  - cbn. rewrite delete_id by done. by destruct a.
Qed.

(** ** Steps *)

Lemma wp_acquire_repr R0 s a Q : repr R0 s a → (∀ s' R w I, stable R0 R → vol R s' w I → reps w I a → Q tt s') → wp vfs_biglock_acquire Q s.
Proof. intros (R & w & I & Hst & Hm & Hr) HQ. eapply wp_acquire_vol; [done|]. intros s' Hv. by eapply HQ. Qed.

Lemma wp_release_repr R0 R s w I a Q : stable R0 R → vol R s w I → reps w I a → (∀ s', repr R0 s' a → Q tt s') → wp vfs_biglock_release Q s.
Proof. intros Hst Hv Hr HQ. eapply wp_release_vol; [done|]. intros s' Hm. apply HQ. by exists R, w, I. Qed.

Section steps.
Context (R : srest) (w : sview) (I : gmap Z sfs_dinode) (a : avol).

Lemma open_node sv ino n : reps w I a → a_open a !! sv = Some (ino, n) → ∃ x, w_nodes w !! sv = Some x ∧ sv_ino x = ino ∧ vn_refcount x = n.
Proof using. intros Hr. rewrite (rp_open _ _ _ Hr), opens_lookup. intros (x & Hx & [= -> ->]). eauto. Qed.

Lemma open_pos s sv ino n : vol R s w I → reps w I a → a_open a !! sv = Some (ino, n) → 0 < n.
Proof using. intros Hv Hr (x & Hx & _ & <-)%open_node; [|done]. by apply (tb_node _ _ _ _ (vo_table _ _ _ _ Hv) sv x). Qed.

Definition load_reps (ino : Z) (i : sfs_dinode) (r : Z * Z) (s' : sfs_st) : Prop :=
  ∃ R', stable R R' ∧
    ((r.1 = ENOMEM ∧ vol R' s' w I) ∨
     (r.1 = 0 ∧ a_vnode a r.2 ino ∧ ∃ x', let w' := set_w_nodes (<[r.2 := x']> (w_nodes w)) w in
        vol R' s' w' I ∧ reps w' I (a_ref r.2 ino a) ∧ sv_ino x' = ino ∧ sv_i x' = i)).

Lemma wp_load_reps s ino i : vol R s w I → reps w I a → I !! ino = Some i → wp (sfs_loadvnode ino SFS_TYPE_INVAL) (load_reps ino i) s.
Proof using.
  intros Hv Hr Hi. destruct (freps_inode _ _ _ _ _ _ _ (rp_files _ _ _ Hr) Hi) as [Hty _]. eapply wp_mono; [by apply wp_loadvnode|].
  intros r s' (R' & Hst & [(E & Hv')|(E & x' & Hv' & Ho & Hxi & Hm)]); exists R'; (split; [done|]); [by left|right]. split; [done|].
  assert (a_vnode a r.2 ino ∧ vn_refcount x' = 1 + default 0 (snd <$> a_open a !! r.2)) as [Hvn Hrc].
  { unfold a_vnode. rewrite (rp_open _ _ _ Hr). unfold opens at 1 3. rewrite lookup_fmap. destruct (w_nodes w !! r.2) as [x|]; cbn.
    - destruct Hm as [Hxo ->]. split; [done|]. cbn. lia.
    - destruct Hm as [Hrc Hno]. split; [|lia]. intros sv' j n (y & Hy & [= -> ->])%opens_lookup. by apply (Hno sv'). }
  split; [done|]. exists x'. split; [done|]. split; [|done]. destruct Hr as [F O W]. split; [done| |by apply a_wf_ref].
  cbn. by rewrite opens_insert, O, Ho, Hrc, O.
Qed.

(** One reference less *)
Lemma unref_reps s sv ino n x s' : mvol R s w I → reps w I a → a_open a !! sv = Some (ino, n) → w_nodes w !! sv = Some x → unref_post R w I sv x s' →
  ∃ R' w' I', stable R R' ∧ mvol R' s' w' I' ∧ reps w' I' (a_unref sv ino n a).
Proof using.
  intros Hm Hr Ho Hx Hp. destruct (open_node sv ino n Hr Ho) as (x0 & Hx0 & Hino & Hn). rewrite Hx in Hx0. injection Hx0 as <-. destruct Hr as [F O W].
  pose proof (ok_node _ _ _ (mv_ok _ _ _ _ Hm) sv x Hx) as Hi. rewrite Hino in Hi. unfold unref_post in Hp. unfold a_unref. rewrite Hn in Hp. destruct (1 <? n).
  - destruct Hp as (R' & Hst & Hm'). exists R', (set_w_nodes (<[sv := set_refcount (n - 1) x]> (w_nodes w)) w), I. do 2 (split; [done|]). split; [done| |].
    + cbn. by rewrite opens_insert, O; cbn; rewrite Hino.
    + destruct W as [W1 W2]. split; [done|]. intros j Hj. destruct (W2 j Hj) as [H|(p & m & Hp)]; [by left|right]. cbn. destruct (decide (p = sv)) as [->|Hne].
      * exists sv. rewrite lookup_insert_eq. rewrite Ho in Hp. injection Hp as -> ->. eauto.
      * exists p. rewrite lookup_insert_ne by done. eauto.
  - destruct Hp as (R' & w' & Hst & Hm' & Hn' & Hsf). exists R', w', (dropped I x). do 2 (split; [done|]). set (a1 := set_a_open (delete sv (a_open a)) a).
    assert (a_open a1 = opens (w_nodes w')) as Ho1 by (cbn; rewrite Hn', O; unfold opens; by rewrite fmap_delete).
    assert (∀ p q, a_open a1 !! p = Some q → q.1 ≠ ino) as Hother.
    { intros p q. rewrite Ho1, opens_lookup, Hn'. intros (y & [Hne Hy]%lookup_delete_Some & ->) E. cbn in E. apply Hne, (ok_one _ _ _ (mv_ok _ _ _ _ Hm) sv p x y); [done|done|congruence]. }
    assert (∀ j, j ≠ ino → is_Some (a_data a1 !! j) → links (a_names a1) j ≠ 0%nat ∨ ∃ p m, a_open a1 !! p = Some (j, m)) as Hkeep.
    { intros j Hj Hd. destruct (aw_data _ W j Hd) as [H|(p & m & Hp)]; [by left|right]. exists p, m. cbn. rewrite lookup_delete_ne; [done|]. intros <-. congruence. }
    unfold dropped in *. destruct (Z.eqb_spec (sfi_linkcount (sv_i x)) 0) as [El|El].
    + assert (ino ≠ SFS_ROOTDIR_INO) as Hne.
      { intros ->. destruct (fr_root _ _ _ _ _ F) as (i & Hir & Hroot). rewrite Hi in Hir. injection Hir as <-. pose proof (ro_links _ _ _ Hroot). lia. }
      destruct (proj2 (freps_inode _ _ _ _ _ _ _ F Hi) Hne) as (c & Hc & Hf). pose proof (fi_links _ _ _ _ Hf) as Hl.
      unfold a_gc. rewrite decide_True by (split; [cbn; lia|done]). rewrite Hino in *. split; [|done|].
      * cbn. eapply freps_same; [exact Hsf|]. by apply freps_delete.
      * split; cbn.
        -- intros nm j Hj. rewrite lookup_delete_ne; [by eapply (aw_names _ W)|]. intros <-. apply (links_none (a_names a) ino) in Hj; [done|lia].
        -- intros j [Hj Hd]%lookup_delete_is_Some. apply Hkeep; [congruence|done].
    + assert (a_data a !! ino = None ∨ links (a_names a) ino ≠ 0%nat) as Hgc.
      { destruct (decide (ino = SFS_ROOTDIR_INO)) as [->|Hne]; [left; apply (fr_data _ _ _ _ _ F)|]. destruct (proj2 (freps_inode _ _ _ _ _ _ _ F Hi) Hne) as (c & Hc & Hf).
        right. pose proof (fi_links _ _ _ _ Hf). lia. }
      rewrite a_gc_keep by (destruct Hgc; auto). split; [cbn; by eapply freps_same|done|]. split; [apply W|]. intros j Hd. destruct (decide (j = ino)) as [->|Hj]; [|by apply Hkeep].
      destruct Hgc as [Hg|Hg]; [cbn in Hd; rewrite Hg in Hd; by destruct Hd|by left].
Qed.

End steps.

Lemma wp_unref_reps R w I a s sv ino n Q : vol R s w I → reps w I a → a_open a !! sv = Some (ino, n) →
  (∀ s' R' w' I', stable R R' → vol R' s' w' I' → reps w' I' (a_unref sv ino n a) → Q tt s') → wp (sfs_decref sv) Q s.
Proof.
  intros Hv Hr Ho HQ. pose proof (vol_depth _ _ _ _ Hv) as Hd. destruct (open_node w I a sv ino n Hr Ho) as (x & Hx & _). pose proof (vol_deeper _ _ _ _ Hv) as Hm.
  eapply wp_mono; [by apply (wp_sfs_decref (deeper R) w I s sv x)|]. intros [] s' Hp.
  destruct (unref_reps (deeper R) w I a s sv ino n x s' Hm Hr Ho Hx Hp) as (R' & w' & I' & Hst & Hm' & Hr').
  destruct (deeper_vol R R' s' w' I' Hst Hd Hm') as (R1 & Hst1 & Hv1). by eapply HQ.
Qed.

(** ** The directory *)

Section dir.
Context (R : srest) (w : sview) (I : gmap Z sfs_dinode) (a : avol) (dv n : Z).
Context (Hr : reps w I a) (Hdv : a_open a !! dv = Some (SFS_ROOTDIR_INO, n)).

Lemma dir_node s : vol R s w I → ∃ x, w_nodes w !! dv = Some x ∧ sv_ino x = SFS_ROOTDIR_INO ∧ root_is (w_disk w) (sv_i x) (a_names a).
Proof using Hr Hdv.
  intros Hv. destruct (open_node w I a dv SFS_ROOTDIR_INO n Hr Hdv) as (x & Hx & Ho & _). exists x. split; [done|]. split; [done|].
  destruct (fr_root _ _ _ _ _ (rp_files _ _ _ Hr)) as (i & Hi & Hroot). pose proof (ok_node _ _ _ (vo_ok _ _ _ _ Hv) dv x Hx) as Hxi. rewrite Ho, Hi in Hxi. by injection Hxi as <-.
Qed.

(** Looking a name up and loading its vnode; [j] is the slot of the name. *)
Definition look_post (nm : list Z) (r : Z * Z * Z) (s' : sfs_st) : Prop :=
  match a_names a !! nm with
  | None => r.1.1 = ENOENT ∧ vol R s' w I
  | Some ino => ∃ i x j e, I !! ino = Some i ∧ w_nodes w !! dv = Some x ∧ dirents (contents (w_disk w) (sv_i x)) !! j = Some e ∧ live e ∧ ename e = nm ∧
      load_reps R w I a ino i r.1 s' ∧ (r.1.1 = 0 → r.2 = Z.of_nat j)
  end.

Lemma wp_lookonce s nm : vol R s w I → wp (sfs_lookonce dv nm) (look_post nm) s.
Proof using Hr Hdv.
  intros Hv. pose proof Hv as [Hs Hok Ht Hsm]. destruct (dir_node s Hv) as (x & Hx & Hxo & [Hdir Htidy _ Hnames]). unfold sfs_lookonce. apply wp_bind.
  eapply (wp_findname R w I Hok dv x Hx Hdir); [done| |].
  - intros s1 f j e Hs1 _ Hj Hl Hn Hf Hd. rewrite Hnames in Hd. cbn [Z.eqb negb]. assert (fn_ino f = sfd_ino e ∧ fn_slot f = Z.of_nat j) as [-> ->] by (unfold fn_ino, fn_slot; by rewrite Hf).
    destruct (aw_names _ (rp_wf _ _ _ Hr) _ _ Hd) as [c Hc]. destruct (freps_lookup _ _ _ _ _ _ _ (rp_files _ _ _ Hr) Hc) as (Hne & i & Hi & Hfile).
    assert (vol R s1 w I) as Hv1 by (by split). apply wp_bind. eapply wp_mono; [by apply (wp_load_reps R w I a s1)|]. intros r s2 Hload. pose proof Hload as (R' & Hst & Hcase).
    assert (∀ r', r'.1 = r → (r'.1.1 = 0 → r'.2 = Z.of_nat j) → look_post nm r' s2) as Hpost.
    { intros r' Er Hr'. unfold look_post. rewrite Hd. exists i, x, j, e. rewrite Er. rewrite Er in Hr'. split_and!; done. }
    destruct Hcase as [(E & Hv2)|(E & _ & x' & Hv2 & _ & Hxo' & Hxi')]; rewrite E.
    + change (ENOMEM =? 0) with false. cbn [negb]. apply wp_ret. unfold look_post. rewrite Hd. exists i, x, j, e. split_and!; try done. exists R'. split; [done|]. by left.
    + cbn [Z.eqb negb]. apply wp_bind. eapply wp_get_sv; [apply Hv2|apply lookup_insert_eq|]. rewrite Hxi', (fi_links _ _ _ _ Hfile).
      pose proof (links_pos _ _ _ Hd) as Hpos. rewrite (proj2 (Z.eqb_neq _ 0)) by lia. apply wp_ret. apply Hpost; [by rewrite <-E; destruct r|done].
  - intros s1 f Hs1 _ Hd. rewrite Hnames in Hd. change (ENOENT =? 0) with false. cbn [negb]. apply wp_ret. unfold look_post. rewrite Hd. split; [done|]. by split.
Qed.
End dir.

(** ** Changes of the directory and of link counts *)

(** The invariant and the files, with link counts that need not fit the names *)
Record partly (R : srest) (s : sfs_st) (w : sview) (I : gmap Z sfs_dinode) (names : gmap (list Z) Z) (data : gmap Z (list Z)) (open : gmap Z (Z * Z)) (L : Z → nat) : Prop := {
  pa_vol : vol R s w I;
  pa_files : freps (w_disk w) I names data L;
  pa_open : opens (w_nodes w) = open
}.

Lemma partly_start R s w I a : vol R s w I → reps w I a → partly R s w I (a_names a) (a_data a) (a_open a) (links (a_names a)).
Proof. intros Hv [F O W]. by split. Qed.

Lemma partly_end R s w I a L : partly R s w I (a_names a) (a_data a) (a_open a) L → (∀ j, is_Some (a_data a !! j) → links (a_names a) j = L j) → a_wf a → vol R s w I ∧ reps w I a.
Proof. intros [V F O] HL W. split; [done|]. split; [|done|done]. by eapply freps_ext. Qed.

Lemma links_bound D i names j : root_is D i names → 0 ≤ sfi_size i → (links names j ≤ 143 * 8)%nat.
Proof.
  intros [Hd _ _ <-] Hs. destruct (dw_size _ _ Hd) as (m & Hm & Hle). etransitivity; [apply links_size|]. etransitivity; [apply dir_of_size|].
  rewrite (length_dirents _ m); [done|]. unfold contents. rewrite length_range. lia.
Qed.

Section partly.
Context (R : srest) (w : sview) (I : gmap Z sfs_dinode) (names : gmap (list Z) Z) (data : gmap Z (list Z)) (open : gmap Z (Z * Z)) (L : Z → nat).

Lemma partly_root s dv n : partly R s w I names data open L → open !! dv = Some (SFS_ROOTDIR_INO, n) →
  ∃ x, w_nodes w !! dv = Some x ∧ sv_ino x = SFS_ROOTDIR_INO ∧ root_is (w_disk w) (sv_i x) names ∧ ∀ j, (links names j ≤ 143 * 8)%nat.
Proof using.
  intros [V F <-] (x & Hx & [= Ho Hn])%opens_lookup. exists x. destruct (fr_root _ _ _ _ _ F) as (i & Hi & Hroot). pose proof (ok_node _ _ _ (vo_ok _ _ _ _ V) dv x Hx) as Hxi.
  rewrite <-Ho, Hi in Hxi. injection Hxi as ->. do 2 (split; [done|]). split; [done|]. intros j. eapply links_bound; [done|].
  apply (iw_size _ (ok_inode _ _ _ (vo_ok _ _ _ _ V) _ _ Hi)).
Qed.

(** After a change of the directory *)
Lemma partly_dir s s' dv x l w' i' : partly R s w I names data open L → w_nodes w !! dv = Some x → sv_ino x = SFS_ROOTDIR_INO → root_is (w_disk w) (sv_i x) names →
  shows R s' w' → dir_post R w I dv x l w' i' → partly R s' w' (<[SFS_ROOTDIR_INO := i']> I) (dir_of l) data open L.
Proof using.
  intros [[Hs Hok Ht Hsm] F O] Hx Ho Hroot Hs' [(p & bs & [P1 (x' & P2 & P3 & P4 & P5) P6 P7 P8 P9 P10 P11]) Hwf Hl]. rewrite Ho in *.
  destruct (tb_node _ _ _ _ Ht dv x Hx) as (T1 & T2 & T3). unfold vn_abs in P5. injection P5 as Eo Er. split.
  - split; try done. rewrite P2. eapply table_update; [done|done|lia| |].
    + rewrite Eo, T2, P3. unfold ops_of. by rewrite P8.
    + unfold typed. by rewrite P3, P8.
  - eapply freps_root; [exact F| |exact P10]. split; [done|done|rewrite P9; apply Hroot|by rewrite Hl].
  - rewrite P2, opens_insert, P4, Er. rewrite <-O. apply insert_id. apply opens_lookup. exists x. by rewrite Ho.
Qed.

(** After a change of a link count *)
Lemma wp_add_links s sv ino n d : partly R s w I names data open L → open !! sv = Some (ino, n) → ino ≠ SFS_ROOTDIR_INO → 0 ≤ Z.of_nat (L ino) + d < 2 ^ 16 →
  wp (add_links sv d) (λ _ s', ∃ w' i', w_disk w' = w_disk w ∧ partly R s' w' (<[ino := i']> I) names data open (λ j, if decide (j = ino) then Z.to_nat (Z.of_nat (L ino) + d) else L j)) s.
Proof using.
  intros [[Hs Hok Ht Hsm] F <-] (x & Hx & [= -> ->])%opens_lookup Hne Hd. pose proof (ok_node _ _ _ Hok sv x Hx) as Hi. destruct (tb_node _ _ _ _ Ht sv x Hx) as (T1 & T2 & T3).
  destruct (proj2 (freps_inode _ _ _ _ _ _ _ F Hi) Hne) as (c & Hc & Hf). pose proof (fi_links _ _ _ _ Hf) as Hl.
  unfold add_links, upd_inode. eapply wp_upd_sv; [done|done|]. intros s' Hs'. set (i' := set_sfi_linkcount _ (sv_i x)) in Hs'.
  assert (sfi_linkcount i' = Z.of_nat (L (sv_ino x)) + d) as Hl' by (unfold i'; cbn; rewrite u16_id; lia).
  destruct (set_attr_ok _ w I Hok sv x i' Hx) as [Hok' Hblk]; [|done|done|].
  { destruct (ok_inode _ _ _ Hok _ _ Hi) as [A1 A2 A3 A4 A5]. split; try done. rewrite Hl'. lia. }
  eexists _, i'. split; [|split].
  2:{ split; [exact Hs'|exact Hok'| |done]. by eapply table_update. }
  - done.
  - rewrite <-(insert_id data (sv_ino x) c) by done. eapply freps_file; [exact F|done| |done].
    destruct (same_contents (w_disk w) (w_disk w) (sv_i x) i' eq_refl Hblk) as [Hcc Htt]. destruct Hf as [F1 F2 F3 F4 F5].
    split; [done|by rewrite <-F2|auto|done|]. rewrite Hl'. lia.
  - cbn. rewrite opens_insert. apply insert_id, opens_lookup. eauto.
Qed.

Lemma partly_node s sv ino n : partly R s w I names data open L → open !! sv = Some (ino, n) → ino ≠ SFS_ROOTDIR_INO →
  ∃ x, w_nodes w !! sv = Some x ∧ sv_ino x = ino ∧ sfi_linkcount (sv_i x) = Z.of_nat (L ino) ∧ sfi_type (sv_i x) = SFS_TYPE_FILE.
Proof using.
  intros [V F <-] (x & Hx & [= -> ->])%opens_lookup Hne. exists x. do 2 (split; [done|]). pose proof (ok_node _ _ _ (vo_ok _ _ _ _ V) sv x Hx) as Hi.
  destruct (proj2 (freps_inode _ _ _ _ _ _ _ F Hi) Hne) as (c & Hc & Hf). split; apply Hf.
Qed.
End partly.

(** ** Looking up *)

Section ops.
Context (R0 : srest).

(** What an operation does, by a specification of its result *)
Definition does {A} (m : M sfs_st A) (a : avol) (spec : A → avol → Prop) : Prop := ∀ s, repr R0 s a → wp m (λ r s', ∃ a', repr R0 s' a' ∧ spec r a') s.

Lemma wp_leave {A} R s w I a (r : A) spec : stable R0 R → vol R s w I → reps w I a → spec r a →
  wp (vfs_biglock_release ;; mret r) (λ r s', ∃ a', repr R0 s' a' ∧ spec r a') s.
Proof using. intros Hst Hv Hr Hs. apply wp_bind. eapply wp_release_repr; [done|done|done|]. intros s' Hs'. apply wp_ret. eauto. Qed.

Lemma sfs_getroot_does a : does sfs_getroot a (look_spec a SFS_ROOTDIR_INO).
Proof using.
  intros s Hs. unfold sfs_getroot. apply wp_bind. eapply wp_acquire_repr; [done|]. intros s1 R w I Hst Hv Hr. apply wp_bind.
  destruct (fr_root _ _ _ _ _ (rp_files _ _ _ Hr)) as (i & Hi & Hroot). eapply wp_mono; [by apply (wp_load_reps R w I a s1 SFS_ROOTDIR_INO i)|].
  intros r s2 (R' & Hst' & [(E & Hv2)|(E & Hvn & x' & Hv2 & Hr2 & Hxo & Hxi)]); pose proof (transitivity Hst Hst') as Hst2; rewrite E.
  - change (ENOMEM =? 0) with false. cbn [negb]. eapply wp_leave; [done|done|done|]. by left.
  - cbn [Z.eqb negb]. apply wp_bind. eapply wp_get_sv; [apply Hv2|apply lookup_insert_eq|]. rewrite Hxi, (dw_type _ _ (ro_dir _ _ _ Hroot)). cbn.
    eapply wp_leave; [done|exact Hv2|exact Hr2|]. right. by split.
Qed.

Lemma sfs_lookup_does a dv n nm : a_open a !! dv = Some (SFS_ROOTDIR_INO, n) → does (sfs_lookup dv nm) a (lookup_spec a nm).
Proof using.
  intros Hdv s Hs. unfold sfs_lookup. apply wp_bind. eapply wp_acquire_repr; [done|]. intros s1 R w I Hst Hv Hr. destruct (dir_node R w I a dv n Hr Hdv s1 Hv) as (x & Hx & Hxo & Hroot).
  apply wp_bind. eapply wp_get_sv; [apply Hv|done|]. rewrite (dw_type _ _ (ro_dir _ _ _ Hroot)). cbn [SFS_TYPE_DIR Z.eqb Pos.eqb negb]. apply wp_bind.
  eapply wp_mono; [by apply (wp_lookonce R w I a dv n Hr Hdv)|]. intros [[e sv] sl] s2 Hp. unfold look_post in Hp. unfold lookup_spec.
  destruct (a_names a !! nm) as [ino|] eqn:En; cbn [fst snd] in Hp.
  - destruct Hp as (i & y & j & en & Hi & _ & _ & _ & _ & (R' & Hst' & Hcase) & _). pose proof (transitivity Hst Hst') as Hst2. cbn [fst snd] in Hcase.
    destruct Hcase as [(-> & Hv2)|(-> & Hvn & x' & Hv2 & Hr2 & _)]; apply wp_bind.
    + eapply wp_release_repr; [done|done|done|]. intros s3 Hs3. change (ENOMEM =? 0) with false. cbn [negb]. apply wp_ret. exists a. split; [done|]. by left.
    + eapply wp_release_repr; [done|exact Hv2|exact Hr2|]. intros s3 Hs3. cbn [Z.eqb negb]. apply wp_ret. eexists. split; [done|]. right. by split.
  - destruct Hp as [-> Hv2]. apply wp_bind. eapply wp_release_repr; [done|done|done|]. intros s3 Hs3. change (ENOENT =? 0) with false. cbn [negb]. apply wp_ret. eauto.
Qed.

(** [VOP_DECREF] *)
Lemma sfs_decref_does a sv ino n : a_open a !! sv = Some (ino, n) → does (sfs_decref sv) a (λ _ a', a' = a_unref sv ino n a).
Proof using.
  intros Ho s (R & w & I & Hst & Hm & Hr). destruct (open_node w I a sv ino n Hr Ho) as (x & Hx & _). eapply wp_mono; [by apply (wp_sfs_decref R w I s sv x)|]. intros [] s' Hp.
  destruct (unref_reps R w I a s sv ino n x s' Hm Hr Ho Hx Hp) as (R' & w' & I' & Hst' & Hm' & Hr'). eexists. split; [|done]. exists R', w', I'. split; [|done].
  exact (transitivity Hst Hst').
Qed.

(** [VOP_INCREF] *)
Lemma incref_reps R s w I a sv ino n Q : mvol R s w I → reps w I a → a_open a !! sv = Some (ino, n) →
  (∀ s' w', mvol R s' w' I → reps w' I (a_ref sv ino a) → Q tt s') → wp (sfs_incref sv) Q s.
Proof using.
  intros Hm Hr Ho HQ. destruct (open_node w I a sv ino n Hr Ho) as (x & Hx & Hxo & Hn). pose proof Hm as [Hs Hok Ht Hsm]. destruct (tb_node _ _ _ _ Ht sv x Hx) as (T1 & T2 & T3).
  assert (s_nodes s !! sv = Some x) as Hxs by (by rewrite <-Hx, <-(sh_nodes _ _ _ Hs)). unfold sfs_incref, upd_sv, get_sv. apply wp_bind, wp_bind, wp_gets. rewrite Hxs. apply wp_ret.
  apply wp_bind, wp_bind, wp_gets. rewrite Hxs. apply wp_ret, wp_modify. apply (HQ _ (set_w_nodes (<[sv := set_refcount (vn_refcount x + 1) x]> (w_nodes w)) w)).
  - split; [|by eapply node_set_ok| |done].
    + destruct Hs as [H1 H2 H3 H4 H5 H6 H7]. split; try done. cbn in H5. cbn. by rewrite H5.
    + eapply table_update; [done|done|cbn; lia|done|done].
  - destruct Hr as [F O W]. split; [done| |apply a_wf_ref; [done|by unfold a_vnode; rewrite Ho]]. cbn. rewrite opens_insert, <-O, Ho, Hn. cbn. by rewrite Hxo, Z.add_comm.
Qed.

Lemma sfs_incref_does a sv ino n : a_open a !! sv = Some (ino, n) → does (sfs_incref sv) a (λ _ a', a' = a_ref sv ino a).
Proof using.
  intros Ho s (R & w & I & Hst & Hm & Hr). eapply incref_reps; [done|done|done|]. intros s' w' Hm' Hr'. eexists. split; [|done]. by exists R, w', I.
Qed.

Lemma sfs_lookparent_does a dv n path buflen : a_open a !! dv = Some (SFS_ROOTDIR_INO, n) →
  does (sfs_lookparent dv path buflen) a (λ r a', if decide (Z.of_nat (length path) < buflen) then r = (0, (dv, path)) ∧ a' = a_ref dv SFS_ROOTDIR_INO a else r.1 = ENAMETOOLONG ∧ a' = a).
Proof using.
  intros Ho s Hs. unfold sfs_lookparent. apply wp_bind. eapply wp_acquire_repr; [done|]. intros s1 R w I Hst Hv Hr. destruct (dir_node R w I a dv n Hr Ho s1 Hv) as (x & Hx & Hxo & Hroot).
  apply wp_bind. eapply wp_get_sv; [apply Hv|done|]. rewrite (dw_type _ _ (ro_dir _ _ _ Hroot)). cbn [SFS_TYPE_DIR Z.eqb Pos.eqb negb]. case_decide as Hlen.
  - rewrite (proj2 (Z.ltb_ge buflen (Z.of_nat (length path) + 1))) by lia. apply wp_bind. eapply incref_reps; [by apply vol_deeper|done|done|]. intros s2 w2 Hm2 Hr2.
    destruct (deeper_vol R (deeper R) s2 w2 I) as (R2 & Hst2 & Hv2); [done|apply (sh_held _ _ _ (vo_shows _ _ _ _ Hv))|done|]. eapply wp_leave; [exact (transitivity Hst Hst2)|exact Hv2|exact Hr2|done].
  - rewrite (proj2 (Z.ltb_lt buflen (Z.of_nat (length path) + 1))) by lia. by eapply wp_leave.
Qed.

(** ** Removing *)

Lemma ref_dir a dv n sv ino : a_open a !! dv = Some (SFS_ROOTDIR_INO, n) → a_vnode a sv ino → ino ≠ SFS_ROOTDIR_INO →
  dv ≠ sv ∧ a_open (a_ref sv ino a) !! dv = Some (SFS_ROOTDIR_INO, n).
Proof using.
  intros Hdv Hv Hne. assert (dv ≠ sv) as Hd by (intros ->; unfold a_vnode in Hv; rewrite Hdv in Hv; congruence). split; [done|]. cbn. by rewrite lookup_insert_ne.
Qed.

Lemma ref_open a sv ino : a_open (a_ref sv ino a) !! sv = Some (ino, 1 + default 0 (snd <$> a_open a !! sv)).
Proof using. apply lookup_insert_eq. Qed.

Lemma names_file a nm ino : a_wf a → a_data a !! SFS_ROOTDIR_INO = None → a_names a !! nm = Some ino → ino ≠ SFS_ROOTDIR_INO.
Proof using. intros W Hd Hn ->. destruct (aw_names _ W _ _ Hn) as [c Hc]. congruence. Qed.

(** The name goes away and the link count goes down. *)
Lemma a_wf_remove a nm ino sv n : a_wf a → a_names a !! nm = Some ino → a_open a !! sv = Some (ino, n) → a_wf (set_a_names (delete nm (a_names a)) a).
Proof using.
  intros [W1 W2] Hn Ho. split; cbn.
  - intros m j [_ Hj]%lookup_delete_Some. by eapply W1.
  - intros j Hj. destruct (decide (j = ino)) as [->|Hne]; [right; eauto|]. destruct (W2 j Hj) as [H|H]; [left|by right].
    by rewrite (links_delete _ _ _ j Hn), decide_False, Nat.add_0_r in H.
Qed.

Lemma wp_unname R w I a dv n s x j e sv ino m : vol R s w I → reps w I a → a_open a !! dv = Some (SFS_ROOTDIR_INO, n) → w_nodes w !! dv = Some x →
  dirents (contents (w_disk w) (sv_i x)) !! j = Some e → live e → a_names a !! ename e = Some ino → a_open a !! sv = Some (ino, m) →
  wp (sfs_dir_unlink dv (Z.of_nat j)) (λ r s', r = 0 ∧ ∃ w' y, shows R s' w' ∧ w_nodes w' !! sv = Some y ∧ 0 < sfi_linkcount (sv_i y) ∧
    wp (add_links sv (-1)) (λ _ s2, ∃ w2 I2, vol R s2 w2 I2 ∧ reps w2 I2 (set_a_names (delete (ename e) (a_names a)) a)) s') s.
Proof using.
  intros Hv Hr Hdv Hx Hj Hl En Hsv. pose proof (names_file a _ ino (rp_wf _ _ _ Hr) (fr_data _ _ _ _ _ (rp_files _ _ _ Hr)) En) as Hne. pose proof (partly_start _ _ _ _ _ Hv Hr) as Hp.
  destruct (partly_root _ _ _ _ _ _ _ _ _ _ Hp Hdv) as (x1 & Hx1 & Hxo & Hroot & Hbound). rewrite Hx in Hx1. injection Hx1 as <-.
  eapply wp_mono; [apply (wp_unlink R w I (vo_ok _ _ _ _ Hv) dv x Hx (ro_dir _ _ _ Hroot) (ro_tidy _ _ _ Hroot) s j e); [apply Hv|done|done]|].
  intros r s3 (-> & w3 & i3 & l & Hs3 & Hdp & Hdl). rewrite (ro_names _ _ _ Hroot) in Hdl. split; [done|].
  pose proof (partly_dir _ _ _ _ _ _ _ _ s3 dv x l w3 i3 Hp Hx Hxo Hroot Hs3 Hdp) as Hp3. rewrite Hdl in Hp3. pose proof (links_pos _ _ _ En) as Hlp.
  destruct (partly_node _ _ _ _ _ _ _ _ _ _ _ Hp3 Hsv Hne) as (y & Hy & Hyo & Hyl & _). exists w3, y. do 2 (split; [done|]). split; [lia|].
  eapply wp_mono; [eapply wp_add_links; [exact Hp3|exact Hsv|done|specialize (Hbound ino); cbn in Hbound; lia]|]. intros [] s4 (w4 & i4 & _ & Hp4).
  eexists w4, _. eapply (partly_end R s4 w4 _ (set_a_names (delete (ename e) (a_names a)) a)); [exact Hp4| |by eapply a_wf_remove; [apply Hr|..]].
  intros k _. cbn. rewrite (links_delete _ _ _ k En). destruct (decide (k = ino)) as [->|]; [|lia]. rewrite (links_delete _ _ _ ino En), decide_True by done. lia.
Qed.

Lemma sfs_remove_does a dv n nm : a_open a !! dv = Some (SFS_ROOTDIR_INO, n) → does (sfs_remove dv nm) a (remove_spec a nm).
Proof using.
  intros Hdv s Hs. unfold sfs_remove. apply wp_bind. eapply wp_acquire_repr; [done|]. intros s1 R w I Hst Hv Hr. apply wp_bind.
  eapply wp_mono; [by apply (wp_lookonce R w I a dv n Hr Hdv)|]. intros [[e sv] sl] s2 Hp. unfold look_post in Hp. unfold remove_spec.
  destruct (a_names a !! nm) as [ino|] eqn:En; cbn [fst snd] in Hp.
  2:{ destruct Hp as [-> Hv2]. change (ENOENT =? 0) with false. cbn [negb]. eapply wp_leave; [done|done|done|done]. }
  destruct Hp as (i & x & j & en & Hi & Hx & Hj & Hl & <- & (R' & Hst' & Hcase) & Hsl). pose proof (transitivity Hst Hst') as Hst2. cbn [fst snd] in Hcase.
  destruct Hcase as [(-> & Hv2)|(-> & Hvn & x' & Hv2 & Hr2 & _)].
  { change (ENOMEM =? 0) with false. cbn [negb]. eapply wp_leave; [done|done|done|]. by left. }
  cbn [Z.eqb negb]. rewrite (Hsl eq_refl). pose proof (names_file a _ ino (rp_wf _ _ _ Hr) (fr_data _ _ _ _ _ (rp_files _ _ _ Hr)) En) as Hne.
  destruct (ref_dir a dv n sv ino Hdv Hvn Hne) as [Hdsv Hdv1]. apply wp_bind.
  eapply wp_mono; [eapply (wp_unname R' _ I (a_ref sv ino a) dv n s2 x j en sv ino); [exact Hv2|exact Hr2|done|cbn; by rewrite lookup_insert_ne|done|done|done|apply ref_open]|].
  intros r s3 (-> & w3 & y & Hs3 & Hy & Hyl & Hlinks). cbn [Z.eqb]. apply wp_bind, wp_bind. eapply wp_get_sv; [exact Hs3|exact Hy|]. apply wp_bind, wp_kassert. split; [by apply Z.ltb_lt|].
  eapply wp_mono; [exact Hlinks|]. intros [] s4 (w4 & I4 & Hv4 & Hr4). set (a2 := set_a_names (delete (ename en) (a_names a)) a).
  change (reps w4 I4 (a_ref sv ino a2)) in Hr4. apply wp_bind. eapply wp_unref_reps; [exact Hv4|exact Hr4|apply ref_open|]. intros s5 R5 w5 I5 Hst5 Hv5 Hr5.
  rewrite (a_unref_ref a2 sv ino Hvn) in Hr5 by (intros k m Hk; by eapply (open_pos R w I a s1)).
  eapply wp_leave; [exact (transitivity Hst2 Hst5)|done|done|]. by right.
Qed.

(** ** Creating *)

Lemma inode_nonzero R s w I ino i : vol R s w I → I !! ino = Some i → 0 < ino < 2 ^ 32.
Proof using.
  intros [_ Hok _ _] Hi. pose proof (inode_range _ w I Hok _ _ Hi). pose proof (ok_size _ _ _ Hok). assert (ino ≠ 0); [|lia]. intros ->.
  assert (RMeta 0 = RInode 0) as E; [|done]. eapply (uo_inj _ _ _ (ok_use _ _ _ Hok)); [|apply uses_inode; eauto]. cbn. by rewrite decide_True by auto.
Qed.

Lemma blank_file D : file_is D (blank SFS_TYPE_FILE) [] 0.
Proof using.
  split; try done. intros n _. unfold raw, fblock. assert (bmap_of D (blank SFS_TYPE_FILE) (n / 512) = 0) as ->.
  { unfold bmap_of. cbn [sfi_direct sfi_indirect blank]. destruct (Nat.ltb_spec (n / 512) 15); [by rewrite lookup_replicate_2|by destruct (_ <? 143)%nat]. }
  cbn [Z.eqb]. unfold zeros. by rewrite lookup_replicate_2 by (apply Nat.mod_upper_bound; lia).
Qed.

(** The volume with a new file that has no name yet *)
Definition a_new (sv ino : Z) (a : avol) : avol := mk_avol (a_names a) (<[ino := []]> (a_data a)) (<[sv := (ino, 1)]> (a_open a)).

Lemma a_unref_new sv ino a : a_data a !! ino = None → links (a_names a) ino = 0%nat → a_open a !! sv = None → a_vnode a sv ino → a_unref sv ino 1 (a_new sv ino a) = a.
Proof using.
  intros Hd Hl Ho Hv. unfold a_unref, a_new. cbn. unfold set_a_open. cbn. rewrite delete_insert_id by done. unfold a_gc. cbn. rewrite decide_True.
  - unfold set_a_data. cbn. rewrite delete_insert_id by done. by destruct a.
  - split; [done|]. unfold a_vnode in Hv. rewrite Ho in Hv. intros p [j m] Hp. cbn. by eapply Hv.
Qed.

Lemma new_reps R s w I a sv ino w' R' s' : vol R s w I → reps w I a → I !! ino = None → w_nodes w !! sv = None → same_files (w_disk w) I (w_disk w') I →
  w_nodes w' = <[sv := mk_sv (ops_of (blank SFS_TYPE_FILE)) 1 (blank SFS_TYPE_FILE) ino true]> (w_nodes w) → vol R' s' w' (<[ino := blank SFS_TYPE_FILE]> I) →
  ino ≠ SFS_ROOTDIR_INO ∧ a_data a !! ino = None ∧ links (a_names a) ino = 0%nat ∧ a_open a !! sv = None ∧ a_vnode a sv ino ∧
  reps w' (<[ino := blank SFS_TYPE_FILE]> I) (a_new sv ino a).
Proof using.
  intros Hv [F O W] HI Hsv Hsf Hn Hv'. assert (ino ≠ SFS_ROOTDIR_INO) as Hne by (intros ->; destruct (fr_root _ _ _ _ _ F) as (i & Hi & _); congruence).
  assert (a_data a !! ino = None) as Hd by (pose proof (fr_file _ _ _ _ _ F ino Hne) as H; rewrite HI in H; by destruct (a_data a !! ino)).
  assert (links (a_names a) ino = 0%nat) as Hl.
  { destruct (decide (links (a_names a) ino = 0%nat)) as [|Hl]; [done|]. destruct (links_some _ _ Hl) as (nm & Hnm). destruct (aw_names _ W _ _ Hnm). congruence. }
  assert (a_open a !! sv = None) as Ho by (rewrite O; unfold opens; by rewrite lookup_fmap, Hsv).
  do 4 (split; [done|]). split.
  { unfold a_vnode. rewrite Ho. intros p j m. rewrite O, opens_lookup. intros (y & Hy & [= -> _]) E. pose proof (ok_node _ _ _ (vo_ok _ _ _ _ Hv) p y Hy). congruence. }
  split; cbn.
  - eapply freps_ext; [|eapply freps_file; [by eapply freps_same|done|apply blank_file|done]]. intros j _. cbn. destruct (decide (j = ino)) as [->|]; done.
  - by rewrite Hn, opens_insert, O.
  - destruct W as [W1 W2]. split; cbn.
    + intros nm j Hj. destruct (W1 nm j Hj) as [c Hc]. rewrite lookup_insert_ne by congruence. eauto.
    + intros j Hj. destruct (decide (j = ino)) as [->|Hjne]; [right; exists sv; rewrite lookup_insert_eq; eauto|]. rewrite lookup_insert_ne in Hj by done.
      destruct (W2 j Hj) as [H|(p & m & Hp)]; [by left|right]. exists p. rewrite lookup_insert_ne; [eauto|]. intros ->. congruence.
Qed.

(** ** New names *)

(** The name [nm] for the file [ino], when the directory took it *)
Record named (R : srest) (w : sview) (I : gmap Z sfs_dinode) (a : avol) (dv : Z) (nm : list Z) (ino : Z) (slot : Z) (s' : sfs_st) : Prop := {
  nd_new : a_names a !! nm = None;
  nd_len : (length nm ≤ 59)%nat;
  nd_state : ∃ w' i' x l j, partly R s' w' (<[SFS_ROOTDIR_INO := i']> I) (<[nm := ino]> (a_names a)) (a_data a) (a_open a) (links (a_names a)) ∧
    w_nodes w !! dv = Some x ∧ dirents (contents (w_disk w') i') = l ∧ slot = Z.of_nat j ∧ l !! j = Some (new_entry nm ino) ∧
    ∀ k e, dirents (contents (w_disk w) (sv_i x)) !! k = Some e → live e → l !! k = Some e
}.

Definition name_errors : list Z := [ENOSPC; EFBIG; ENAMETOOLONG].

Lemma wp_name R w I a dv n s nm ino : vol R s w I → reps w I a → a_open a !! dv = Some (SFS_ROOTDIR_INO, n) → Forall (λ b, b ≠ 0) nm → 0 < ino < 2 ^ 32 →
  wp (sfs_dir_link dv nm ino) (λ r s', if r.1 =? 0 then named R w I a dv nm ino r.2 s' else
    (∃ w' I', vol R s' w' I' ∧ reps w' I' a) ∧ match a_names a !! nm with Some _ => r.1 = EEXIST | None => r.1 ∈ name_errors end) s.
Proof using.
  intros Hv Hr Hdv Hnz Hino. pose proof (partly_start _ _ _ _ _ Hv Hr) as Hp. destruct (partly_root _ _ _ _ _ _ _ _ _ _ Hp Hdv) as (x & Hx & Hxo & Hroot & _).
  pose proof Hroot as [Hdir Htidy _ Hnames]. eapply wp_mono; [by apply (wp_link R w I (vo_ok _ _ _ _ Hv) dv x Hx Hdir Htidy); [apply Hv|..]|].
  intros r s' (w' & i' & l & Hs' & Hdp & Hcase). pose proof (partly_dir _ _ _ _ _ _ _ _ s' dv x l w' i' Hp Hx Hxo Hroot Hs' Hdp) as Hp'. rewrite Hnames in Hcase. destruct (r.1 =? 0).
  - destruct Hcase as (Hnew & Hdl & Hlen & j & Ej & El & Hj & Hfree). split; [done|done|]. exists w', i', x, l, j. rewrite <-Hdl. split; [done|]. split; [done|].
    split; [apply (dp_list _ _ _ _ _ _ _ _ Hdp)|]. split; [done|]. rewrite El. split; [by rewrite put_lookup, decide_True by done|].
    intros k e Hk Hl. rewrite put_lookup by done. rewrite decide_False; [done|]. intros ->. by destruct (Hfree e Hk).
  - destruct Hcase as [El Herr]. rewrite El, Hnames in Hp'. destruct (partly_end R s' w' _ a _ Hp' ltac:(done) (rp_wf _ _ _ Hr)) as [Hv' Hr']. split; [by eexists _, _|].
    destruct Herr as [(E & [k ->])|(-> & [(E & _)|(k & [(E & _)|(E & _)])])]; rewrite E; unfold name_errors; set_solver.
Qed.

Lemma a_wf_name a nm ino sv m : a_wf a → a_names a !! nm = None → a_open a !! sv = Some (ino, m) → is_Some (a_data a !! ino) → a_wf (set_a_names (<[nm := ino]> (a_names a)) a).
Proof using.
  intros [W1 W2] Hn Ho Hd. split; cbn.
  - intros k j. destruct (decide (k = nm)) as [->|Hne]; [rewrite lookup_insert_eq; by intros [= <-]|rewrite lookup_insert_ne by done; apply W1].
  - intros j Hj. destruct (W2 j Hj) as [H|H]; [left|by right]. rewrite links_insert by done. lia.
Qed.

(** Then the link count goes up. *)
Lemma wp_named R w I a dv n nm ino slot s s' sv m : vol R s w I → reps w I a → a_open a !! dv = Some (SFS_ROOTDIR_INO, n) → named R w I a dv nm ino slot s' →
  a_open a !! sv = Some (ino, m) → ino ≠ SFS_ROOTDIR_INO →
  wp (add_links sv 1) (λ _ s2, ∃ w2 I2 x x2, let a2 := set_a_names (<[nm := ino]> (a_names a)) a in
    vol R s2 w2 I2 ∧ reps w2 I2 a2 ∧ w_nodes w !! dv = Some x ∧ w_nodes w2 !! dv = Some x2 ∧
    ∀ k e, dirents (contents (w_disk w) (sv_i x)) !! k = Some e → live e → dirents (contents (w_disk w2) (sv_i x2)) !! k = Some e) s'.
Proof using.
  intros Hv Hr Hdv [Hnew _ (w' & i' & x & l & j & Hp & Hx & Hl & _ & _ & Hkeep)] Hsv Hne. pose proof (partly_start _ _ _ _ _ Hv Hr) as Hp0.
  destruct (partly_root _ _ _ _ _ _ _ _ _ _ Hp0 Hdv) as (_ & _ & _ & _ & Hbound). specialize (Hbound ino).
  eapply wp_mono; [eapply wp_add_links; [exact Hp|exact Hsv|done|cbn in Hbound; lia]|]. intros [] s2 (w2 & i2 & HD & Hp2).
  assert (is_Some (a_data a !! ino)) as Hdata.
  { destruct (open_node w I a sv ino m Hr Hsv) as (y & Hy & Hyo & _). pose proof (ok_node _ _ _ (vo_ok _ _ _ _ Hv) sv y Hy) as Hi. rewrite Hyo in Hi.
    destruct (proj2 (freps_inode _ _ _ _ _ _ _ (rp_files _ _ _ Hr) Hi) Hne) as (c & Hc & _). eauto. }
  destruct (partly_root _ _ _ _ _ _ _ _ _ _ Hp2 Hdv) as (x2 & Hx2 & Hxo2 & _ & _).
  destruct (partly_end R s2 w2 _ (set_a_names (<[nm := ino]> (a_names a)) a) _ Hp2) as [Hv2 Hr2].
  { intros k _. cbn. rewrite links_insert by done. destruct (decide (k = ino)) as [->|]; lia. }
  { by eapply a_wf_name; [apply Hr|..]. }
  eexists w2, _, x, x2. split; [exact Hv2|]. split; [exact Hr2|]. split; [done|]. split; [done|]. intros k e Hk He. rewrite <-(Hkeep k e Hk He), <-Hl, HD. f_equal.
  pose proof (ok_node _ _ _ (vo_ok _ _ _ _ Hv2) dv x2 Hx2) as Hi2. rewrite Hxo2, lookup_insert_ne, lookup_insert_eq in Hi2 by done. by injection Hi2 as ->.
Qed.

(** ** [sfs_link] and [sfs_creat] *)

Lemma sfs_link_does a dv n nm file ino m : a_open a !! dv = Some (SFS_ROOTDIR_INO, n) → a_open a !! file = Some (ino, m) → Forall (λ b, b ≠ 0) nm →
  does (sfs_link dv nm file) a (λ r a', if decide (ino = SFS_ROOTDIR_INO) then r = EINVAL ∧ a' = a else link_spec a nm ino r a').
Proof using.
  intros Hdv Hf Hnz s Hs. unfold sfs_link. apply wp_bind. eapply wp_acquire_repr; [done|]. intros s1 R w I Hst Hv Hr. pose proof (partly_start _ _ _ _ _ Hv Hr) as Hp.
  apply wp_bind. destruct (decide (ino = SFS_ROOTDIR_INO)) as [->|Hne].
  - destruct (partly_root _ _ _ _ _ _ _ _ _ _ Hp Hf) as (x & Hx & _ & Hroot & _). eapply wp_get_sv; [apply Hv|done|]. rewrite (dw_type _ _ (ro_dir _ _ _ Hroot)).
    cbn [SFS_TYPE_DIR Z.eqb Pos.eqb]. by eapply wp_leave.
  - destruct (partly_node _ _ _ _ _ _ _ _ _ _ _ Hp Hf Hne) as (x & Hx & Hxo & _ & Hty). eapply wp_get_sv; [apply Hv|done|]. rewrite Hty. change (SFS_TYPE_FILE =? SFS_TYPE_DIR) with false. cbn iota.
    rewrite Hxo. pose proof (ok_node _ _ _ (vo_ok _ _ _ _ Hv) file x Hx) as Hi. rewrite Hxo in Hi. apply wp_bind.
    eapply wp_mono; [apply (wp_name R w I a dv n s1 nm ino); try done; by eapply inode_nonzero|]. intros [r sl] s2 Hcase. cbn [fst snd] in *. unfold link_spec. destruct (Z.eqb_spec r 0) as [->|Hr0]; cbn [negb].
    + apply wp_bind. eapply wp_mono; [by eapply (wp_named R w I a dv n nm ino sl s1 s2 file m)|]. intros [] s3 (w3 & I3 & x0 & x3 & Hv3 & Hr3 & _).
      eapply wp_leave; [done|exact Hv3|exact Hr3|]. rewrite (nd_new _ _ _ _ _ _ _ _ _ Hcase). right. split; [done|]. split; [apply Hcase|done].
    + destruct Hcase as [(w' & I' & Hv' & Hr') Herr]. eapply wp_leave; [done|exact Hv'|exact Hr'|]. destruct (a_names a !! nm); [done|by left].
Qed.

Lemma sfs_creat_does a dv n nm excl mode : a_open a !! dv = Some (SFS_ROOTDIR_INO, n) → Forall (λ b, b ≠ 0) nm → does (sfs_creat dv nm excl mode) a (creat_spec a nm excl).
Proof using.
  intros Hdv Hnz s Hs. unfold sfs_creat. apply wp_bind. eapply wp_acquire_repr; [done|]. intros s1 R w I Hst Hv Hr. destruct (dir_node R w I a dv n Hr Hdv s1 Hv) as (x & Hx & Hxo & [Hdir Htidy _ Hnames]).
  apply wp_bind. unfold creat_spec. eapply (wp_findname R w I (vo_ok _ _ _ _ Hv) dv x Hx Hdir); [apply Hv| |].
  - intros s2 f j e Hs2 _ Hj Hl Hn Hf Hd. rewrite Hnames in Hd. rewrite Hd. cbn [Z.eqb negb andb]. assert (vol R s2 w I) as Hv2 by (destruct Hv; by split).
    destruct excl; [by eapply wp_leave|]. assert (fn_ino f = sfd_ino e) as -> by (unfold fn_ino; by rewrite Hf). apply wp_bind.
    destruct (aw_names _ (rp_wf _ _ _ Hr) _ _ Hd) as [c Hc]. destruct (freps_lookup _ _ _ _ _ _ _ (rp_files _ _ _ Hr) Hc) as (Hne & i & Hi & _).
    eapply wp_mono; [by apply (wp_load_reps R w I a s2)|]. intros r s3 (R' & Hst' & Hcase). pose proof (transitivity Hst Hst') as Hst2.
    destruct Hcase as [(E & Hv3)|(E & Hvn & x' & Hv3 & Hr3 & _)]; [eapply wp_leave; [done|done|done|by left]|]. eapply wp_leave; [done|exact Hv3|exact Hr3|]. right. by split.
  - intros s2 f Hs2 _ Hd. rewrite Hnames in Hd. rewrite Hd. change (ENOENT =? 0) with false. change (ENOENT =? ENOENT) with true. cbn [negb andb].
    assert (vol R s2 w I) as Hv2 by (destruct Hv; by split). apply wp_bind. eapply wp_mono; [apply (wp_makeobj R w I s2 SFS_TYPE_FILE Hv2); by left|].
    intros [r sv] s3 (R3 & w3 & Hst3 & Hsf & Hcase). cbn [fst snd] in *. pose proof (transitivity Hst Hst3) as Hst2.
    destruct Hcase as [(E & Hv3 & Hn3)|(-> & ino & HI & Hsv & Hn3 & Hv3)].
    { assert (r ≠ 0 ∧ r ∈ [ENOSPC; ENOMEM; EFBIG; ENAMETOOLONG]) as [Hr0 Herr] by (destruct E as [-> | ->]; split; [done|set_solver|done|set_solver]).
      rewrite (proj2 (Z.eqb_neq r 0)) by done. cbn [negb]. eapply wp_leave; [done|exact Hv3| |by left]. destruct Hr as [F O W]. split; [by eapply freps_same|by rewrite Hn3|done]. }
    cbn [Z.eqb negb]. destruct (new_reps R s2 w I a sv ino w3 R3 s3 Hv2 Hr HI Hsv Hsf Hn3 Hv3) as (Hne & Hdn & Hln & Hon & Hvn & Hr3). set (a1 := a_new sv ino a) in *.
    assert (a_open a1 !! sv = Some (ino, 1)) as Hsv1 by apply lookup_insert_eq. assert (a_open a1 !! dv = Some (SFS_ROOTDIR_INO, n)) as Hdv1 by (cbn; rewrite lookup_insert_ne; [done|]; intros ->; congruence).
    apply wp_bind. eapply wp_get_sv; [apply Hv3|rewrite Hn3; apply lookup_insert_eq|]. cbn [sv_ino]. apply wp_bind.
    eapply wp_mono; [apply (wp_name R3 w3 _ a1 dv n s3 nm ino Hv3 Hr3 Hdv1 Hnz); eapply inode_nonzero; [exact Hv3|apply lookup_insert_eq]|]. intros [r sl] s4 Hcase. cbn [fst snd] in *.
    destruct (Z.eqb_spec r 0) as [->|Hr0]; cbn [negb].
    + apply wp_bind. eapply wp_mono; [by eapply (wp_named R3 w3 _ a1 dv n nm ino sl s3 s4 sv 1)|]. intros [] s5 (w5 & I5 & x0 & x5 & Hv5 & Hr5 & _).
      eapply wp_leave; [done|exact Hv5|exact Hr5|]. right. cbn [fst snd]. split; [done|]. split; [apply Hcase|]. by exists ino.
    + destruct Hcase as [(w' & I' & Hv' & Hr') Herr]. change (a_names a1) with (a_names a) in Herr. rewrite Hd in Herr. apply wp_bind. eapply wp_unref_reps; [exact Hv'|exact Hr'|exact Hsv1|].
      intros s5 R5 w5 I5 Hst5 Hv5 Hr5. unfold a1 in Hr5. rewrite (a_unref_new sv ino a) in Hr5 by done. eapply wp_leave; [exact (transitivity Hst2 Hst5)|done|done|]. left. cbn [fst]. split; [|done].
      unfold name_errors in Herr. set_solver.
Qed.

(** ** [sfs_rename] *)

(** The end of [sfs_rename]: the reference of [sfs_lookonce] goes away. *)
Lemma wp_rename_end R w I a a0 s sv ino (r : Z) (spec : Z → avol → Prop) : stable R0 R → vol R s w I → reps w I (a_ref sv ino a0) → a_open a0 = a_open a → a_wf a0 → a_vnode a sv ino →
  (∀ j n, a_open a !! sv = Some (j, n) → 0 < n) → spec r a0 → wp (sfs_decref sv ;; vfs_biglock_release ;; mret r) (λ r s', ∃ a', repr R0 s' a' ∧ spec r a') s.
Proof using.
  intros Hst Hv Hr Ho Hw Hvn Hpos Hspec. apply wp_bind. eapply wp_unref_reps; [exact Hv|exact Hr|apply ref_open|]. intros s5 R5 w5 I5 Hst5 Hv5 Hr5.
  rewrite a_unref_ref in Hr5; [|unfold a_vnode; by rewrite Ho|by rewrite Ho]. rewrite a_gc_wf in Hr5 by done. eapply wp_leave; [exact (transitivity Hst Hst5)|done|done|done].
Qed.

Lemma a_wf_rename a n1 n2 ino : a_wf a → a_names a !! n1 = Some ino → a_names a !! n2 = None → a_wf (set_a_names (delete n1 (<[n2 := ino]> (a_names a))) a).
Proof using.
  intros [W1 W2] H1 H2. assert (<[n2 := ino]> (a_names a) !! n1 = Some ino) as H1' by (rewrite lookup_insert_ne; [done|]; intros ->; congruence). split; cbn.
  - intros k j [_ Hk]%lookup_delete_Some. destruct (decide (k = n2)) as [->|Hne]; [rewrite lookup_insert_eq in Hk; injection Hk as <-; by eapply W1|].
    rewrite lookup_insert_ne in Hk by done. by eapply W1.
  - intros j Hj. destruct (W2 j Hj) as [H|H]; [left|by right]. pose proof (links_delete _ _ _ j H1') as E. rewrite links_insert in E by done. destruct (decide (j = ino)); lia.
Qed.

Lemma sfs_rename_does a dv n n1 n2 : a_open a !! dv = Some (SFS_ROOTDIR_INO, n) → Forall (λ b, b ≠ 0) n2 → does (sfs_rename dv n1 dv n2) a (rename_spec a n1 n2).
Proof using.
  intros Hdv Hnz s Hs. unfold sfs_rename. apply wp_bind. eapply wp_acquire_repr; [done|]. intros s1 R w I Hst Hv Hr. apply wp_bind, wp_kassert. split; [apply Z.eqb_refl|].
  destruct (dir_node R w I a dv n Hr Hdv s1 Hv) as (x & Hx & Hxo & _). apply wp_bind. eapply wp_get_sv; [apply Hv|done|]. apply wp_bind, wp_kassert. split; [by rewrite Hxo|].
  apply wp_bind. eapply wp_mono; [by apply (wp_lookonce R w I a dv n Hr Hdv)|]. intros [[e sv] sl] s2 Hp. unfold look_post in Hp. unfold rename_spec.
  destruct (a_names a !! n1) as [ino|] eqn:En; cbn [fst snd] in Hp.
  2:{ destruct Hp as [-> Hv2]. change (ENOENT =? 0) with false. cbn [negb]. eapply wp_leave; [done|done|done|done]. }
  destruct Hp as (i & x0 & j & en & Hi & Hx0 & Hj & Hl & <- & (R' & Hst' & Hcase) & Hsl). rewrite Hx in Hx0. injection Hx0 as <-. pose proof (transitivity Hst Hst') as Hst2. cbn [fst snd] in Hcase.
  destruct Hcase as [(-> & Hv2)|(-> & Hvn & x' & Hv2 & Hr2 & Hxo' & _)].
  { change (ENOMEM =? 0) with false. cbn [negb]. eapply wp_leave; [done|done|done|]. by left. }
  cbn [Z.eqb negb]. rewrite (Hsl eq_refl). set (w1 := set_w_nodes _ w) in *. assert (∀ k q, a_open a !! sv = Some (k, q) → 0 < q) as Hpos by (intros k q Hk; by eapply (open_pos R w I a s1)).
  pose proof (names_file a _ ino (rp_wf _ _ _ Hr) (fr_data _ _ _ _ _ (rp_files _ _ _ Hr)) En) as Hne. destruct (ref_dir a dv n sv ino Hdv Hvn Hne) as [Hdsv Hdv1].
  pose proof (partly_start _ _ _ _ _ Hv2 Hr2) as Hp2. pose proof (ref_open a sv ino) as Hsv1. destruct (partly_node _ _ _ _ _ _ _ _ _ _ _ Hp2 Hsv1 Hne) as (y & Hy & Hyo & _ & Hty).
  apply wp_bind. eapply wp_get_sv; [apply Hv2|exact Hy|]. apply wp_bind, wp_kassert. split; [by rewrite Hty|]. rewrite Hyo. apply wp_bind.
  eapply wp_mono; [apply (wp_name R' w1 I (a_ref sv ino a) dv n s2 n2 ino Hv2 Hr2 Hdv1 Hnz); by eapply inode_nonzero|]. intros [r sl2] s3 Hcase. cbn [fst snd] in *.
  change (a_names (a_ref sv ino a)) with (a_names a) in Hcase. apply wp_bind. destruct (Z.eqb_spec r 0) as [->|Hr0]; cbn [negb].
  2:{ apply wp_ret. destruct Hcase as [(w' & I' & Hv' & Hr') Herr]. eapply (wp_rename_end R' w' I' a a); [done|done|done|done|apply Hr|done|done|]. right.
      destruct (a_names a !! n2); [done|by left]. }
  pose proof (nd_new _ _ _ _ _ _ _ _ _ Hcase) as Hnew. pose proof (nd_len _ _ _ _ _ _ _ _ _ Hcase) as Hlen. change (a_names (a_ref sv ino a)) with (a_names a) in Hnew.
  apply wp_bind. eapply wp_mono; [by eapply (wp_named R' w1 I _ dv n n2 ino sl2 s2 s3 sv)|]. intros [] s4 (w4 & I4 & x1 & x4 & Hv4 & Hr4 & Hx1 & Hx4 & Hkeep).
  assert (x1 = x) as -> by (cbn in Hx1; rewrite lookup_insert_ne in Hx1 by done; congruence). specialize (Hkeep j en Hj Hl). apply wp_bind.
  eapply wp_mono; [eapply (wp_unname R' w4 I4 _ dv n s4 x4 j en sv ino); [exact Hv4|exact Hr4|done|done|done|done| |exact Hsv1]|].
  { cbn. rewrite lookup_insert_ne; [done|]. intros E. rewrite <-E in En. congruence. }
  intros r s5 (-> & w5 & z & Hs5 & Hz & Hzl & Hlinks). cbn [Z.eqb negb]. apply wp_bind. eapply wp_get_sv; [exact Hs5|exact Hz|]. apply wp_bind, wp_kassert. split; [by apply Z.ltb_lt|].
  apply wp_bind. eapply wp_mono; [exact Hlinks|]. intros [] s6 (w6 & I6 & Hv6 & Hr6). apply wp_ret.
  eapply (wp_rename_end R' w6 I6 a (set_a_names (delete (ename en) (<[n2 := ino]> (a_names a))) a)); [done|done|exact Hr6|done|by apply a_wf_rename; [apply Hr|..]|done|done|].
  right. rewrite Hnew. right. done.
Qed.

(** ** Data *)

(** The vnode of a file *)
Lemma file_node R s w I a sv ino n c : vol R s w I → reps w I a → a_open a !! sv = Some (ino, n) → a_data a !! ino = Some c →
  ∃ x, w_nodes w !! sv = Some x ∧ sv_ino x = ino ∧ ino ≠ SFS_ROOTDIR_INO ∧ file_is (w_disk w) (sv_i x) c (links (a_names a) ino).
Proof using.
  intros Hv Hr Ho Hc. destruct (open_node w I a sv ino n Hr Ho) as (x & Hx & Hxo & _). destruct (freps_lookup _ _ _ _ _ _ _ (rp_files _ _ _ Hr) Hc) as (Hne & i & Hi & Hf).
  pose proof (ok_node _ _ _ (vo_ok _ _ _ _ Hv) sv x Hx) as Hxi. rewrite Hxo, Hi in Hxi. injection Hxi as ->. by exists x.
Qed.

(** A file gets new contents. *)
Lemma vol_update R s s' w I sv x w' x' i' : vol R s w I → w_nodes w !! sv = Some x → shows R s' w' → fs_ok (r_nblocks R) w' (<[sv_ino x := i']> I) →
  w_nodes w' = <[sv := x']> (w_nodes w) → sv_i x' = i' → vn_abs x' = vn_abs x → sfi_type i' = sfi_type (sv_i x) → vol R s' w' (<[sv_ino x := i']> I).
Proof using.
  intros [Hs Hok Ht Hsm] Hx Hs' Hok' Hn Hi Ha Hty. destruct (tb_node _ _ _ _ Ht sv x Hx) as (T1 & T2 & T3). unfold vn_abs in Ha. injection Ha as Eo Er. split; try done.
  rewrite Hn. eapply table_update; [done|done|lia| |].
  - rewrite Eo, T2, Hi. unfold ops_of. by rewrite Hty.
  - unfold typed. by rewrite Hi, Hty.
Qed.

Lemma reps_update w I a sv x x' w' i' c ino c0 : reps w I a → w_nodes w !! sv = Some x → sv_ino x = ino → a_data a !! ino = Some c0 → w_nodes w' = <[sv := x']> (w_nodes w) →
  sv_ino x' = ino → vn_abs x' = vn_abs x → file_is (w_disk w') i' c (links (a_names a) ino) →
  (∀ j ij k, I !! j = Some ij → j ≠ ino → fblock (w_disk w') ij k = fblock (w_disk w) ij k) → reps w' (<[ino := i']> I) (set_a_data (<[ino := c]> (a_data a)) a).
Proof using.
  intros [F O W] Hx Hxo Hc Hn Hxo' Ha Hf Hother. destruct (freps_lookup _ _ _ _ _ _ _ F Hc) as (Hne & _). split; cbn.
  - eapply freps_ext; [|eapply freps_file; [exact F|done|exact Hf|exact Hother]]. intros j _. cbn. by destruct (decide (j = ino)) as [->|].
  - unfold vn_abs in Ha. injection Ha as Eo Er. rewrite Hn, opens_insert, Hxo', Er, O. symmetry. apply insert_id, opens_lookup. exists x. by rewrite Hxo.
  - destruct W as [W1 W2]. split; cbn.
    + intros nm j Hj. rewrite lookup_insert_is_Some. destruct (decide (ino = j)); [by left|right; split; [done|by eapply W1]].
    + intros j. rewrite lookup_insert_is_Some. intros [->|[_ H]]; apply W2; [by rewrite Hc|done].
Qed.

(** *** [sfs_truncate] *)

Lemma zeros_raw n : default 0 (zeros !! (n `mod` 512)%nat) = 0.
Proof using. unfold zeros. by rewrite lookup_replicate_2 by (apply Nat.mod_upper_bound; lia). Qed.

Section truncated.
Context (R : srest) (w : sview) (I : gmap Z sfs_dinode) (sv : Z) (x : sfs_vnode) (bl : nat) (len : Z) (w' : sview) (i' : sfs_dinode).
Context (Ht : truncated R w I sv x bl len w' i') (Hlen : 0 ≤ len < 2 ^ 31) (Hbl : Z.of_nat bl = (len + 511) / 512).

Lemma truncated_raw n : raw (w_disk w') i' n = if keeps bl (n / 512) then raw (w_disk w) (sv_i x) n else 0.
Proof using Ht. unfold raw. rewrite (tr_blocks _ _ _ _ _ _ _ _ _ Ht). destruct (keeps bl (n / 512)); [done|apply zeros_raw]. Qed.

(** The bytes of blocks below the new end are kept, and those below [len] are. *)
Lemma truncated_keeps n : Z.of_nat n < len ∨ Z.of_nat n < 512 * Z.of_nat bl → keeps bl (n / 512) = true.
Proof using Hlen Hbl.
  intros Hn. destruct (pos_block n) as [En Hm]. assert (n / 512 < bl)%nat as Hk by (pose proof (Z.div_mod (len + 511) 512 ltac:(lia)); pose proof (Z.mod_pos_bound (len + 511) 512 ltac:(lia)); lia).
  unfold keeps. destruct (n / 512 <? 15)%nat; [by apply Nat.ltb_lt|]. rewrite (proj2 (Nat.leb_le (n / 512) bl)) by lia. apply orb_true_r.
Qed.

Lemma truncated_contents : tidy (w_disk w) (sv_i x) → 0 ≤ sfi_size (sv_i x) → contents (w_disk w') i' = resize (Z.to_nat len) 0 (contents (w_disk w) (sv_i x)).
Proof using Ht Hlen Hbl.
  intros Htidy Hs. unfold contents. rewrite (tr_size _ _ _ _ _ _ _ _ _ Ht), u32_id by lia. apply list_eq. intros n. destruct (decide (Z.of_nat n < len)) as [Hn|Hn].
  - rewrite range_lookup, truncated_raw, truncated_keeps by lia. rewrite Nat.add_0_l. destruct (decide (Z.of_nat n < sfi_size (sv_i x))) as [E|E].
    + rewrite lookup_resize by len. rewrite range_lookup by lia. by rewrite Nat.add_0_l.
    + rewrite lookup_resize_new by len. f_equal. apply Htidy. lia.
  - rewrite !lookup_ge_None_2; [done|rewrite length_resize; lia|len].
Qed.

(** Nothing is left behind when the file is emptied or does not shrink. *)
Lemma truncated_tidy : tidy (w_disk w) (sv_i x) → len = 0 ∨ sfi_size (sv_i x) ≤ len → tidy (w_disk w') i'.
Proof using Ht Hlen Hbl.
  intros Htidy Hcase n Hn. rewrite (tr_size _ _ _ _ _ _ _ _ _ Ht), u32_id in Hn by lia. rewrite truncated_raw. destruct (keeps bl (n / 512)) eqn:Ek; [|done].
  destruct Hcase as [->|Hle]; [|apply Htidy; lia]. assert (bl = 0%nat) as E by (change ((0 + 511) / 512) with 0 in Hbl; lia). rewrite E in Ek. unfold keeps in Ek.
  destruct (Nat.ltb_spec (n / 512) 15); [done|]. cbn [orb Nat.leb] in Ek. apply Nat.leb_le in Ek. lia.
Qed.
End truncated.

(** The blocks [len] bytes take *)
Definition blocks_for (len : Z) : nat := Z.to_nat ((len + 511) / 512).

Lemma blocks_for_code len : 0 ≤ len < 2 ^ 31 → Z.of_nat (blocks_for len) = u32 (Z.quot (len + SFS_BLOCKSIZE - 1) SFS_BLOCKSIZE) ∧ Z.of_nat (blocks_for len) = (len + 511) / 512.
Proof using.
  intros H. assert (0 ≤ (len + 511) / 512 < 2 ^ 32) as Hb by (split; [apply Z.div_pos|apply Z.div_lt_upper_bound]; lia). unfold blocks_for, SFS_BLOCKSIZE.
  rewrite Z2Nat.id by lia. split; [|done]. rewrite Z.quot_div_nonneg by lia. replace (len + 512 - 1) with (len + 511) by lia. by rewrite u32_id.
Qed.

(** The vnode after the file was cut: mounted again, with the table *)
Lemma truncate_mvol R w I v x len s : mvol R s w I → w_nodes w !! v = Some x → 0 ≤ len < 2 ^ 31 →
  wp (sfs_truncate v len) (λ r s', r = 0 ∧ ∃ w' i', mvol R s' w' (<[sv_ino x := i']> I) ∧ truncated R w I v x (blocks_for len) len w' i') s.
Proof using.
  intros [Hs Hok Ht Hsm] Hx Hlen. destruct (blocks_for_code len Hlen) as [Hbl _]. eapply wp_mono; [by apply (wp_itrunc R w I Hok v x Hx (blocks_for len))|].
  intros r s' (-> & w' & i' & Hm & Htr). split; [done|]. exists w', i'. split; [|done]. split; [done|apply Htr| |done].
  pose proof (tr_nodes _ _ _ _ _ _ _ _ _ Htr) as Hn. pose proof (tr_type _ _ _ _ _ _ _ _ _ Htr) as Hty. rewrite Hn. destruct (tb_node _ _ _ _ Ht v x Hx) as (T1 & T2 & T3).
  eapply table_update; [done|done|done| |]; [cbn; unfold ops_of; by rewrite Hty|unfold typed; cbn; by rewrite Hty].
Qed.

Lemma sfs_truncate_does a sv ino n c len : a_open a !! sv = Some (ino, n) → a_data a !! ino = Some c → len = 0 ∨ Z.of_nat (length c) ≤ len ≤ 143 * 512 →
  does (sfs_truncate sv len) a (trunc_spec a ino c len).
Proof using.
  intros Ho Hc Hlen s (R & w & I & Hst & Hm & Hr). destruct (open_node w I a sv ino n Hr Ho) as (x & Hx & Hxo & _).
  destruct (freps_lookup _ _ _ _ _ _ _ (rp_files _ _ _ Hr) Hc) as (Hne & i & Hi & Hf). pose proof (ok_node _ _ _ (mv_ok _ _ _ _ Hm) sv x Hx) as Hxi. rewrite Hxo, Hi in Hxi. injection Hxi as ->.
  destruct Hf as [F1 F2 F3 F4 F5]. destruct (ok_inode _ _ _ (mv_ok _ _ _ _ Hm) _ _ Hi) as [Hsz _ _ _ _].
  assert (sfi_size (sv_i x) = Z.of_nat (length c)) as Hsize by (rewrite <-F2; unfold contents; rewrite length_range; lia). assert (0 ≤ len < 2 ^ 31) as Hl by lia.
  eapply wp_mono; [by apply (truncate_mvol R w I sv x len)|]. intros r s' (-> & w' & i' & Hm' & Htr). destruct (blocks_for_code len Hl) as [_ Hbl].
  assert (file_is (w_disk w') i' (resize (Z.to_nat len) 0 c) (links (a_names a) ino)) as Hf'.
  { split; [by rewrite (tr_type _ _ _ _ _ _ _ _ _ Htr)| | | |by rewrite (tr_links _ _ _ _ _ _ _ _ _ Htr)].
    - rewrite <-F2. eapply truncated_contents; [exact Htr|done|done|done|lia].
    - eapply truncated_tidy; [exact Htr|done|done|done|lia].
    - rewrite (tr_size _ _ _ _ _ _ _ _ _ Htr), u32_id by lia. lia. }
  eexists. split; [|done]. exists R, w', (<[ino := i']> I). split; [done|]. rewrite <-Hxo at 1. split; [done|]. eapply reps_update; [done|done|done|done|exact (tr_nodes _ _ _ _ _ _ _ _ _ Htr)|done|done|done|].
  intros j ij k Hj Hjne. apply (tr_other _ _ _ _ _ _ _ _ _ Htr j); [done|congruence].
Qed.

(** *** [sfs_stat] and [sfs_fsync] *)

Lemma sfs_gettype_does a sv ino n : a_open a !! sv = Some (ino, n) →
  does (sfs_gettype sv) a (λ r a', a' = a ∧ r = (0, if decide (ino = SFS_ROOTDIR_INO) then S_IFDIR else S_IFREG)).
Proof using.
  intros Ho s Hs. unfold sfs_gettype. apply wp_bind. eapply wp_acquire_repr; [done|]. intros s1 R w I Hst Hv Hr. pose proof (partly_start _ _ _ _ _ Hv Hr) as Hp. apply wp_bind.
  destruct (decide (ino = SFS_ROOTDIR_INO)) as [->|Hne].
  - destruct (partly_root _ _ _ _ _ _ _ _ _ _ Hp Ho) as (x & Hx & _ & Hroot & _). eapply wp_get_sv; [apply Hv|done|]. rewrite (dw_type _ _ (ro_dir _ _ _ Hroot)).
    change (SFS_TYPE_DIR =? SFS_TYPE_FILE) with false. change (SFS_TYPE_DIR =? SFS_TYPE_DIR) with true. cbn iota. by eapply wp_leave.
  - destruct (partly_node _ _ _ _ _ _ _ _ _ _ _ Hp Ho Hne) as (x & Hx & _ & _ & Hty). eapply wp_get_sv; [apply Hv|done|]. rewrite Hty. change (SFS_TYPE_FILE =? SFS_TYPE_FILE) with true.
    cbn iota. by eapply wp_leave.
Qed.

Lemma sfs_stat_does a sv ino n : a_open a !! sv = Some (ino, n) → does (sfs_stat sv) a (stat_spec a ino).
Proof using.
  intros Ho s Hs. unfold sfs_stat. apply wp_bind. eapply wp_mono; [by apply (sfs_gettype_does a sv ino n Ho)|]. intros r s1 (a' & Hs1 & -> & ->). cbn [fst snd Z.eqb negb].
  pose proof Hs1 as (R & w & I & Hst & Hm & Hr). destruct (open_node w I a sv ino n Hr Ho) as (x & Hx & Hxo & _). apply wp_bind. unfold get_sv. apply wp_bind, wp_gets.
  assert (s_nodes s1 !! sv = Some x) as -> by (by rewrite <-Hx, <-(sh_nodes _ _ _ (mv_mounted _ _ _ _ Hm))). apply wp_ret, wp_ret. exists a. split; [done|]. split; [done|]. split; [done|]. cbn [snd].
  pose proof (ok_node _ _ _ (mv_ok _ _ _ _ Hm) sv x Hx) as Hi. rewrite Hxo in Hi. destruct (decide (ino = SFS_ROOTDIR_INO)) as [->|Hne].
  - by rewrite (fr_data _ _ _ _ _ (rp_files _ _ _ Hr)).
  - destruct (proj2 (freps_inode _ _ _ _ _ _ _ (rp_files _ _ _ Hr) Hi) Hne) as (c & Hc & [F1 F2 F3 F4 F5]). rewrite Hc, F5. f_equal. rewrite <-F2. unfold contents. rewrite length_range.
    destruct (ok_inode _ _ _ (mv_ok _ _ _ _ Hm) _ _ Hi) as [Hsz _ _ _ _]. lia.
Qed.

(** The name in the superblock *)
Definition volume_name (R : srest) : list Z := cstring (sb_volname (r_sb R)).
Lemma sfs_getvolname_does a : does sfs_getvolname a (λ r a', r = Some (volume_name R0) ∧ a' = a).
Proof using.
  intros s Hs. unfold sfs_getvolname. apply wp_bind. eapply wp_acquire_repr; [done|]. intros s1 R w I Hst Hv Hr. apply wp_bind, wp_gets. eapply wp_leave; [done|done|done|]. split; [|done].
  destruct Hst as (E & _). unfold volume_name. rewrite <-E, <-(sh_rest _ _ _ (vo_shows _ _ _ _ Hv)). done.
Qed.

Lemma sfs_fsync_does a sv ino n : a_open a !! sv = Some (ino, n) → does (sfs_fsync sv) a (λ r a', r = 0 ∧ a' = a).
Proof using.
  intros Ho s Hs. unfold sfs_fsync. apply wp_bind. eapply wp_acquire_repr; [done|]. intros s1 R w I Hst Hv Hr. destruct (open_node w I a sv ino n Hr Ho) as (x & Hx & _). apply wp_bind.
  eapply wp_sync_inode; [done|done|]. intros s2 w2 Hv2 Hsf Hn. eapply wp_leave; [done|exact Hv2| |done]. destruct Hr as [F O W]. split; [by eapply freps_same| |done].
  rewrite Hn, opens_insert, O. symmetry. apply insert_id, opens_lookup. by exists x.
Qed.

Section data.
Context {U : Type} {uops : UioOps U} {ulaws : UioLaws U}.

Lemma sfs_read_does a sv ino n c (u : U) : a_open a !! sv = Some (ino, n) → a_data a !! ino = Some c → small u → u_rw u = UIO_READ → does (sfs_read sv u) a (read_spec a c u).
Proof using ulaws.
  intros Ho Hc Hsm Hrw s Hs. unfold sfs_read. apply wp_bind, wp_kassert. split; [by apply bool_decide_eq_true|]. apply wp_bind. eapply wp_acquire_repr; [done|]. intros s1 R w I Hst Hv Hr.
  destruct (file_node R s1 w I a sv ino n c Hv Hr Ho Hc) as (x & Hx & Hxo & Hne & [F1 F2 F3 F4 F5]). pose proof Hv as [Hs1 Hok Ht Hnb]. apply wp_bind.
  eapply wp_mono; [by apply (wp_sfs_io_read R s1 w I sv x u)|]. cbn zeta. rewrite F2. intros r s2 (E & Hs2 & Hl & Hd). eapply wp_leave; [done| |exact Hr|]; [by split|by split].
Qed.

Lemma sfs_write_does a sv ino n c (u : U) : a_open a !! sv = Some (ino, n) → a_data a !! ino = Some c → small u → u_rw u = UIO_WRITE → does (sfs_write sv u) a (write_spec a ino c u).
Proof using ulaws.
  intros Ho Hc Hsm Hrw s Hs. unfold sfs_write. apply wp_bind, wp_kassert. split; [by apply bool_decide_eq_true|]. apply wp_bind. eapply wp_acquire_repr; [done|]. intros s1 R w I Hst Hv Hr.
  destruct (file_node R s1 w I a sv ino n c Hv Hr Ho Hc) as (x & Hx & Hxo & Hne & [F1 F2 F3 F4 F5]). pose proof Hv as [Hs1 Hok Ht Hnb]. apply wp_bind.
  eapply wp_mono; [by apply (wp_sfs_io_write R s1 w I sv x u)|]. intros r s2 (w' & i' & m & Hs2 & [P1 (x' & P2 & P3 & P4 & P5) P6 P7 P8 P9 P10 P11] & Hm & Hl & He).
  rewrite Hxo, F2 in *. pose proof (ur_offset _ (proj1 Hsm)) as Hoff. assert (length (take m (u_todo u)) = m) as Hlen by (pose proof (todo_length u (proj1 Hsm) Hrw); len). rewrite Hlen in *.
  assert (Z.of_nat (pos u) = u_offset u) as Ep by (unfold pos; lia). rewrite Ep in P6. set (c' := if (m =? 0)%nat then c else file_write (u_offset u) (take m (u_todo u)) c) in P6.
  assert (vol R s2 w' (<[ino := i']> I)) as Hv2 by (rewrite <-Hxo; rewrite <-Hxo in P1; by eapply vol_update).
  assert (file_is (w_disk w') i' c' (links (a_names a) ino)) as Hf.
  { split; [congruence|done|done| |congruence]. destruct (ok_inode _ _ _ P1 ino i') as [Hsz _ _ _ _]; [apply lookup_insert_eq|]. apply (f_equal length) in P6, F2. unfold contents in P6, F2.
    rewrite length_range in P6, F2. unfold c' in P6. destruct (Nat.eqb_spec m 0) as [->|Hm0]; [lia|]. rewrite length_file_write in P6 by lia. specialize (P11 ltac:(lia)). lia. }
  assert (reps w' (<[ino := i']> I) (set_a_data (<[ino := c']> (a_data a)) a)) as Hr2 by (by eapply reps_update).
  eapply wp_leave; [done|exact Hv2|exact Hr2|]. exists m. split; [done|]. split; [done|]. split.
  - unfold c'. destruct (m =? 0)%nat; [|done]. unfold set_a_data. rewrite insert_id by done. by destruct a.
  - destruct (r.1 =? 0); [done|]. destruct He as [[-> _]|[-> _]]; set_solver.
Qed.
End data.
End ops.

(** Vnodes have addresses that are not negative. *)
Lemma repr_nonneg R0 s a v ino n : repr R0 s a → a_open a !! v = Some (ino, n) → 0 ≤ v ∧ is_Some (s_nodes s !! v).
Proof.
  intros (R & w & I & Hst & Hm & Hr) Ho. destruct (open_node w I a v ino n Hr Ho) as (x & Hx & _). split; [by apply (proj2 (tb_next _ _ _ _ (mv_table _ _ _ _ Hm))); rewrite Hx|].
  exists x. by rewrite <-Hx, <-(sh_nodes _ _ _ (mv_mounted _ _ _ _ Hm)).
Qed.

(** ** The big lock around operations *)

Lemma repr_deeper R0 s a Q : repr R0 s a → (∀ s', repr (deeper R0) s' a → Q tt s') → wp vfs_biglock_acquire Q s.
Proof.
  intros (R & w & I & Hst & Hm & Hr) HQ. eapply wp_acquire_vol; [done|]. intros s' Hv. apply HQ. exists (deeper R), w, I. split; [|split; [by apply vol_deeper|done]].
  destruct Hst as (S1 & S2 & S3 & S4). split_and!; cbn; congruence.
Qed.

Lemma deeper_repr R0 s a Q : 0 < r_depth R0 → repr (deeper R0) s a → (∀ s', repr R0 s' a → Q tt s') → wp vfs_biglock_release Q s.
Proof.
  intros Hd (R & w & I & (S1 & S2 & S3 & S4) & Hm & Hr) HQ. cbn in S1, S2, S3, S4. set (R1 := mk_rest (r_sb R) (r_superdirty R) (r_device R) (r_vnodes R) (r_next R) (r_mallocs R) (r_depth R - 1)).
  destruct (deeper_vol R1 R s w I) as (R2 & Hst & Hv); [split_and!; cbn; (done || lia)|cbn; lia|done|]. eapply wp_release_vol; [done|]. intros s' Hm'. apply HQ. exists R2, w, I. split; [|done].
  destruct Hst as (T1 & T2 & T3 & T4). cbn in T1, T2, T3, T4. split_and!; (congruence || lia).
Qed.

Lemma repr_held R0 s a Q : repr (deeper R0) s a → 0 < r_depth R0 → Q true s → wp vfs_biglock_do_i_hold Q s.
Proof.
  intros (R & w & I & (S1 & S2 & S3 & S4) & Hm & Hr) Hd HQ. unfold vfs_biglock_do_i_hold. apply wp_bind, wp_gets, wp_ret.
  pose proof (f_equal r_depth (sh_rest _ _ _ (mv_mounted _ _ _ _ Hm))) as E. cbn in E, S4. by rewrite (proj2 (Z.ltb_lt _ _)) by lia.
Qed.
