(* ===== verification/SfsMount.v ===== *)
(** * Writing a volume back, unmounting and mounting

    [sfs_sync] brings the vnodes and the free map to the disk; unmounting the
    volume and mounting it again then gives the same files ([sfs_fsops.c]). *)

From S2P Require Import Prelude Machine Spinlock Pt Kernel Xfer Lhd Bitmap Array Sfs SfsInv SfsOk SfsBmap SfsFile SfsIo SfsTrunc SfsDir SfsMeta SfsNode Vnode SfsSpec SfsOps SfsRefine.

(** ** The blocks of the free map *)

Definition map_part (l : list Z) (j : nat) : list Z := take 512 (drop (j * 512) l).

Lemma concat_parts l n : length l = (512 * n)%nat → concat (map_part l <$> seq 0 n) = l.
Proof.
  revert l. induction n as [|n IH]; intros l Hl; [symmetry; apply nil_length_inv; lia|]. cbn [seq fmap list_fmap concat]. unfold map_part at 1. cbn [Nat.mul]. rewrite drop_0.
  transitivity (take 512 l ++ drop 512 l); [|apply take_drop]. f_equal. rewrite <-fmap_S_seq, <-list_fmap_compose. rewrite <-(IH (drop 512 l)) by len. f_equal. apply list_fmap_ext.
  intros k j Hj. unfold map_part, compose. by rewrite drop_drop.
Qed.

Lemma map_sizes nb : 0 ≤ nb → nb * 512 < 2 ^ 32 →
  ∃ n : nat, SFS_FREEMAPBLOCKS nb = Z.of_nat n ∧ SFS_FREEMAPBITS nb = Z.of_nat n * 4096 ∧ nb ≤ Z.of_nat n * 4096 < nb + 4096.
Proof.
  intros H0 Hnb. unfold SFS_FREEMAPBLOCKS, SFS_FREEMAPBITS, SFS_ROUNDUP, SFS_BITSPERBLOCK, SFS_BLOCKSIZE. change (512 * 8) with 4096. rewrite (u32_id (nb + 4096 - 1)) by lia.
  pose proof (Z.div_mod (nb + 4096 - 1) 4096 ltac:(lia)) as E. pose proof (Z.mod_pos_bound (nb + 4096 - 1) 4096 ltac:(lia)).
  assert (0 ≤ (nb + 4096 - 1) / 4096) by (apply Z.div_pos; lia). set (q := (nb + 4096 - 1) / 4096) in *. rewrite u32_id by lia. rewrite Z.div_mul by lia.
  exists (Z.to_nat q). lia.
Qed.

Lemma length_map b nb n : bm_wf b → nbits b = SFS_FREEMAPBITS nb → SFS_FREEMAPBITS nb = Z.of_nat n * 4096 → length (v b) = (512 * n)%nat.
Proof.
  intros Hwf Hn En. pose proof (bw_len _ Hwf) as Hl. rewrite Hn, En in Hl. replace (Z.of_nat n * 4096 + 7) with (7 + Z.of_nat n * 512 * 8) in Hl by lia.
  rewrite Z.div_add in Hl by lia. change (7 / 8) with 0 in Hl. lia.
Qed.

(** [D'] is [D] with the first [k] parts of [l] in the blocks of the free map. *)
Definition map_written (D : list (list Z)) (l : list Z) (k : nat) (D' : list (list Z)) : Prop :=
  length D' = length D ∧ Forall (λ s, length s = 512%nat) D' ∧
  ∀ n, 0 ≤ n → sector D' n = if decide (2 ≤ n < 2 + Z.of_nat k) then map_part l (Z.to_nat (n - 2)) else sector D n.

Lemma map_written_step D l k D' : map_written D l k D' → (512 * S k ≤ length l)%nat → 2 + Z.of_nat k < Z.of_nat (length D) →
  map_written D l (S k) (<[Z.to_nat (2 + Z.of_nat k) := map_part l k]> D').
Proof.
  intros (H1 & H2 & H3) Hl Hk. split; [by rewrite length_insert|]. split; [apply Forall_insert; [done|unfold map_part; len]|]. intros n Hn.
  destruct (decide (n = 2 + Z.of_nat k)) as [->|Hne].
  - rewrite sector_insert_eq by lia. rewrite decide_True by lia. f_equal. lia.
  - rewrite sector_insert_ne by lia. rewrite H3 by done. destruct (decide (2 ≤ n < 2 + Z.of_nat k)); [by rewrite decide_True by lia|by rewrite decide_False by lia].
Qed.

Lemma map_written_data nb D l n D' : SFS_FREEMAPBLOCKS nb = Z.of_nat n → length l = (512 * n)%nat → map_written D l n D' → map_data nb D' = l.
Proof.
  intros En Hl (_ & _ & H). unfold map_data. rewrite En, <-(concat_parts l n) at 1 by done. f_equal. unfold seqZ. rewrite Nat2Z.id, <-list_fmap_compose. apply list_fmap_ext.
  intros k j [-> Hj]%lookup_seq. unfold compose, SFS_FREEMAP_START. rewrite H by lia. rewrite decide_True by lia. f_equal. lia.
Qed.

Section sync.
Context (R : srest) (w : sview) (I : gmap Z sfs_dinode).
Abbreviation nb := (r_nblocks R).

(** The map in memory goes to its blocks. *)
Lemma meta_written_ok l n D' : fs_ok nb w I → SFS_FREEMAPBLOCKS nb = Z.of_nat n → length l = (512 * n)%nat → map_written (w_disk w) l n D' →
  bm_wf (mk_bitmap (SFS_FREEMAPBITS nb) l) → (∀ j, 0 ≤ j < SFS_FREEMAPBITS nb → bit (mk_bitmap (SFS_FREEMAPBITS nb) l) j = w_bit w j) →
  fs_ok nb (mk_view D' (w_bit w) false (w_nodes w)) I ∧ same_files (w_disk w) I D' I.
Proof using.
  intros Hok En Hl Hw Hwf Hbit. pose proof (map_written_data _ _ _ _ _ En Hl Hw) as Hdata. destruct Hw as (H1 & H2 & H3).
  assert (∀ r b, uses nb (w_disk w) I r = Some b → (∀ m, 2 ≤ m → r ≠ RMeta m) → sector D' b = sector (w_disk w) b) as Hs.
  { intros r b Hr Hne. rewrite H3 by (by eapply use_range). rewrite decide_False; [done|]. intros Hb. apply (Hne b); [lia|]. eapply (uo_inj _ _ _ (ok_use _ _ _ Hok)); [exact Hr|].
    cbn. by rewrite decide_True by lia. }
  assert (∀ j ij k, I !! j = Some ij → bmap_of D' ij k = bmap_of (w_disk w) ij k) as Hm.
  { intros j ij k Hj. unfold bmap_of, ind_words. destruct (k <? 15)%nat; [done|]. destruct (k <? 143)%nat; [|done]. destruct (Z.eqb_spec (sfi_indirect ij) 0); [done|].
    rewrite (Hs (RInd j)); [done|apply uses_ind; eauto|done]. }
  split.
  - pose proof Hok as [K1 K2 K3 K4 K5 K6 K7 K8]. split; cbn; try done.
    + eapply use_ext; [|exact K1]. by apply uses_frame.
    + intros j ij Hj Hc. rewrite (Hs (RInode j)); [by apply K4|apply uses_inode; eauto|done].
    + by rewrite H1.
    + split; [|intros _; rewrite Hdata; by split]. rewrite (Hs (RMeta 0)); [apply K8|cbn; by rewrite decide_True by auto|]. intros m Hm0 [= E]. lia.
  - intros j. destruct (I !! j) as [ij|] eqn:Ej; [|done]. split; try done. intros k. unfold fblock. rewrite (Hm _ _ _ Ej). destruct (Z.eqb_spec (bmap_of (w_disk w) ij k) 0); [done|].
    apply (Hs (RData j k)); [apply uses_data; eauto|done].
Qed.

Lemma wp_freemap_write s Q : vol R s w I →
  (∀ s' D', shows R s' (set_w_disk D' w) → fs_ok nb (mk_view D' (w_bit w) false (w_nodes w)) I → same_files (w_disk w) I D' I → Q 0 s') → wp (sfs_freemapio UIO_WRITE) Q s.
Proof using.
  intros [Hs Hok Ht Hsm] HQ. pose proof (ok_size _ _ _ Hok) as [Hsz _]. destruct (map_sizes nb ltac:(lia) Hsm) as (n & Eb & Ebits & Hn).
  destruct (sh_map _ _ _ Hs) as (b & Hb & (Hwf & [Hle Hnb] & Hbit) & Hover). pose proof (length_map b nb n Hwf Hnb Ebits) as Hlen.
  assert (∀ k, (k < n)%nat → 2 + Z.of_nat k < nb) as Hrange.
  { intros k Hk. eapply (use_range nb w I Hok (RMeta (2 + Z.of_nat k))). cbn. by rewrite decide_True by lia. }
  unfold sfs_freemapio. apply wp_bind, wp_gets. cbn zeta. unfold SFS_FS_FREEMAPBLOCKS, SFS_FS_NBLOCKS.
  assert (sb_nblocks (sfs_sb (s_fs s)) = nb) as -> by (by rewrite <-(sh_rest _ _ _ Hs)). rewrite Eb.
  apply (wp_while _ (λ j s', ∃ k D', j = Z.of_nat k ∧ (k ≤ n)%nat ∧ shows R s' (set_w_disk D' w) ∧ sfs_freemap (s_fs s') = Some b ∧ map_written (w_disk w) (v b) k D') (λ j _, Z.of_nat n - j)).
  - exists 0%nat, (w_disk w). split_and!; try done; [lia|by destruct w|]. split; [done|]. split; [apply (ok_sectors _ _ _ Hok)|]. intros m Hm. by rewrite decide_False by lia.
  - intros j s' (k & D' & -> & Hk & _). lia.
  - lia.
  - intros j s' (k & D' & -> & Hk & Hs' & Hb' & Hw). pose proof Hw as (L1 & L2 & _). destruct (Z.ltb_spec (Z.of_nat k) (Z.of_nat n)) as [Hlt|Hge].
    + specialize (Hrange k ltac:(lia)). rewrite decide_False by done. apply wp_bind, wp_bind. unfold map_block, bitmap_getdata, SFS_BLOCKSIZE. replace (Z.to_nat (Z.of_nat k * 512)) with (k * 512)%nat by lia.
      fold (map_part (v b) k). eapply wp_on_freemap; [exact Hb'|mred; cbn [id]; fold (map_part (v b) k); rewrite decide_True by (unfold map_part; len); done|].
      set (s1 := set_s_fs _ s'). assert (shows R s1 (set_w_disk D' w)) as Hs1 by (destruct Hs' as [A1 A2 A3 A4 A5 A6 A7]; split; try done; by exists b).
      unfold SFS_FREEMAP_START. rewrite u32_id by lia. eapply (wp_writeblock_raw s1 D'); [apply Hs1|by eapply shows_depth|lia|unfold map_part; len|]. intros l Hl. cbn [Z.eqb negb]. apply wp_ret. split; [|lia].
      exists (S k), (<[Z.to_nat (2 + Z.of_nat k) := map_part (v b) k]> D'). split; [lia|]. split; [lia|].
      split; [apply (shows_lhd R s1 (set_w_disk D' w)); [done|done|by rewrite length_insert]|]. split; [done|]. apply map_written_step; [done|lia|lia].
    + assert (k = n) as -> by lia. apply wp_ret. destruct (meta_written_ok (v b) n D' Hok Eb Hlen Hw) as [Hok' Hsf].
      * rewrite <-Hnb. by destruct b.
      * rewrite <-Hnb. destruct b. exact Hbit.
      * by eapply HQ.
Qed.

Lemma wp_sync_freemap s Q : vol R s w I →
  (∀ s' w', vol R s' w' I → same_files (w_disk w) I (w_disk w') I → w_nodes w' = w_nodes w → w_mapdirty w' = false → Q 0 s') → wp sfs_sync_freemap Q s.
Proof using.
  intros Hv HQ. pose proof Hv as [Hs Hok Ht Hsm]. unfold sfs_sync_freemap. apply wp_bind, wp_gets. rewrite (sh_dirty _ _ _ Hs). destruct (w_mapdirty w) eqn:Ed.
  - apply wp_bind. eapply wp_freemap_write; [done|]. intros s1 D' Hs1 Hok' Hsf. cbn [Z.eqb negb]. apply wp_bind, wp_modify, wp_ret.
    apply (HQ _ (mk_view D' (w_bit w) false (w_nodes w))); try done. split; try done. destruct Hs1 as [A1 A2 A3 A4 A5 A6 A7]. by split.
  - apply wp_ret. by apply (HQ s w); [|apply same_files_refl|..].
Qed.

(** [sfs_fsync] under the lock *)
Lemma wp_fsync_vol s sv x Q : vol R s w I → w_nodes w !! sv = Some x →
  (∀ s' w', vol R s' w' I → same_files (w_disk w) I (w_disk w') I → w_nodes w' = <[sv := set_sv_dirty false x]> (w_nodes w) → Q 0 s') → wp (sfs_fsync sv) Q s.
Proof using.
  intros Hv Hx HQ. pose proof (vol_depth _ _ _ _ Hv) as Hd. unfold sfs_fsync. apply wp_bind. eapply (wp_acquire_vol (deeper R)); [by apply vol_deeper|]. intros s1 Hv1. apply wp_bind.
  eapply wp_sync_inode; [exact Hv1|done|]. intros s2 w2 Hv2 Hsf Hn. apply wp_bind. eapply wp_release_vol; [exact Hv2|]. intros s3 [Hm Hok Ht Hsm]. apply wp_ret.
  eapply HQ; [|exact Hsf|exact Hn]. split; try done. by apply deeper_mounted.
Qed.
End sync.

Definition all_clean (nodes : gmap Z sfs_vnode) : Prop := ∀ sv x, nodes !! sv = Some x → sv_dirty x = false.

Section sync_all.
Context (R : srest) (w : sview) (I : gmap Z sfs_dinode).

(** The vnodes stay but for [sv_dirty]. *)
Definition same_nodes (nodes nodes' : gmap Z sfs_vnode) : Prop := set_sv_dirty false <$> nodes' = set_sv_dirty false <$> nodes.

Lemma wp_sync_vnodes s Q : vol R s w I →
  (∀ s' w', vol R s' w' I → same_files (w_disk w) I (w_disk w') I → same_nodes (w_nodes w) (w_nodes w') → all_clean (w_nodes w') → Q 0 s') → wp sfs_sync_vnodes Q s.
Proof using.
  intros Hv HQ. pose proof Hv as [Hs Hok Ht Hsm]. unfold sfs_sync_vnodes. apply wp_bind. eapply wp_num; [done|]. intros s1 Hs1. rewrite (table_num _ _ _ _ Ht). set (n := length (elems (r_vnodes R))).
  apply wp_bind.
  eapply wp_mono; [apply (wp_for_seqZ (Z.of_nat n) _ (λ k s', ∃ w', vol R s' w' I ∧ same_files (w_disk w) I (w_disk w') I ∧ same_nodes (w_nodes w) (w_nodes w') ∧
    ∀ j sv x, Z.of_nat j < k → elems (r_vnodes R) !! j = Some sv → w_nodes w' !! sv = Some x → sv_dirty x = false)); [lia| |]|].
  - exists w. split; [by split|]. split; [apply same_files_refl|]. split; [done|]. intros; lia.
  - intros k s2 Hk (w2 & Hv2 & Hsf & Hsn & Hcl). destruct (lookup_lt_is_Some_2 (elems (r_vnodes R)) (Z.to_nat k) ltac:(lia)) as [sv Hsv]. pose proof Hv2 as [Hs2 _ Ht2 _].
    destruct (proj1 (tb_elems _ _ _ _ Ht2 sv)) as [x Hx]; [by eapply list_elem_of_lookup_2|]. apply wp_bind. rewrite <-(Z2Nat.id k) at 1 by lia.
    eapply wp_get; [done|apply (tb_wf _ _ _ _ Ht)|done|]. intros s3 Hs3. apply wp_bind. eapply wp_fsync_vol; [destruct Hv2; by split|exact Hx|]. intros s4 w4 Hv4 Hsf4 Hn4. apply wp_ret.
    exists w4. split; [done|]. split; [by eapply same_files_trans|]. split.
    + unfold same_nodes in *. rewrite Hn4, fmap_insert, <-Hsn. apply insert_id. by rewrite lookup_fmap, Hx.
    + intros j p y Hj Hp. rewrite Hn4. destruct (decide (p = sv)) as [->|Hne]; [rewrite lookup_insert_eq; by intros [= <-]|]. rewrite lookup_insert_ne by done. apply (Hcl j); [|done].
      assert (j ≠ Z.to_nat k) by (intros ->; congruence). lia.
  - intros [] s2 (w2 & Hv2 & Hsf & Hsn & Hcl). apply wp_ret. eapply HQ; [done|done|done|]. intros sv x Hx. pose proof Hv2 as [_ _ Ht2 _].
    assert (sv ∈ elems (r_vnodes R)) as [j Hj]%list_elem_of_lookup_1 by (apply (tb_elems _ _ _ _ Ht2); by eexists). apply lookup_lt_Some in Hj as Hlt. apply (Hcl j sv); [lia|done|done].
Qed.

Lemma same_nodes_opens nodes nodes' : same_nodes nodes nodes' → opens nodes' = opens nodes.
Proof using.
  intros E. apply map_eq. intros sv. unfold opens. rewrite !lookup_fmap. apply (f_equal (lookup sv)) in E. rewrite !lookup_fmap in E.
  destruct (nodes' !! sv) as [x'|], (nodes !! sv) as [x|]; cbn in *; try done. injection E as E1 E2 E3 E4. by rewrite E2, E4.
Qed.
End sync_all.

(** ** [sfs_sync] *)

(** The volume is on the disk. *)
Definition synced (w : sview) : Prop := w_mapdirty w = false ∧ all_clean (w_nodes w).

Lemma wp_sfs_sync R0 s a : repr R0 s a → r_superdirty R0 = false →
  wp sfs_sync (λ r s', r = 0 ∧ ∃ R w I, stable R0 R ∧ mvol R s' w I ∧ reps w I a ∧ synced w) s.
Proof.
  intros Hs Hsd. unfold sfs_sync. apply wp_bind. eapply wp_acquire_repr; [done|]. intros s1 R w I Hst Hv Hr. apply wp_bind. eapply wp_sync_vnodes; [done|].
  intros s2 w2 Hv2 Hsf2 Hsn2 Hcl2. cbn [Z.eqb negb]. apply wp_bind. eapply wp_sync_freemap; [done|]. intros s3 w3 Hv3 Hsf3 Hn3 Hmd. cbn [Z.eqb negb]. apply wp_bind. unfold sfs_sync_superblock.
  apply wp_bind, wp_gets. assert (sfs_superdirty (s_fs s3) = false) as ->.
  { transitivity (r_superdirty R); [by rewrite <-(sh_rest _ _ _ (vo_shows _ _ _ _ Hv3))|]. destruct Hst as (_ & -> & _). done. }
  apply wp_ret. cbn [Z.eqb negb]. apply wp_bind. eapply wp_release_vol; [done|]. intros s4 Hm4. apply wp_ret. split; [done|]. exists R, w3, I. split; [done|]. split; [done|].
  destruct Hr as [F O W]. split; [split; [exact (freps_same _ _ _ _ _ _ _ (same_files_trans _ _ _ _ _ _ Hsf2 Hsf3) F)| |done]|].
  - by rewrite Hn3, (same_nodes_opens _ _ Hsn2).
  - split; [done|]. by rewrite Hn3.
Qed.

(** ** Unmounting *)

(** The disk holds the names and the files. *)
Definition on_disk (nb : Z) (D : list (list Z)) (names : gmap (list Z) Z) (data : gmap Z (list Z)) : Prop :=
  ∃ f I, fs_ok nb (mk_view D f false ∅) I ∧ nb * 512 < 2 ^ 32 ∧ (∀ j, nb ≤ j < SFS_FREEMAPBITS nb → f j = true) ∧
    freps D I names data (links names) ∧ a_wf (mk_avol names data ∅).

Lemma opens_empty nodes : opens nodes = ∅ → nodes = ∅.
Proof. unfold opens. apply fmap_empty_inv. Qed.

Lemma synced_on_disk R s w I a : mvol R s w I → reps w I a → synced w → a_open a = ∅ → on_disk (r_nblocks R) (w_disk w) (a_names a) (a_data a) ∧ w_nodes w = ∅.
Proof.
  intros [Hs Hok Ht Hsm] [F O W] [Hmd _] Ho. rewrite Ho in O. symmetry in O. apply opens_empty in O. split; [|done]. exists (w_bit w), I. split_and!; try done.
  - destruct w. cbn in *. by subst.
  - intros j Hj. destruct (sh_map _ _ _ Hs) as (b & Hb & (Hwf & [Hle Hnb] & Hbit) & Hover). pose proof (sh_size _ _ _ Hs). rewrite <-Hbit, Hover by lia. done.
  - destruct a. cbn in *. by subst.
Qed.

(** A volume with open vnodes is busy. *)
Lemma wp_unmount_busy R0 s a : repr R0 s a → a_open a ≠ ∅ → wp sfs_unmount (λ r s', r = EBUSY ∧ repr R0 s' a) s.
Proof.
  intros Hs Ho. unfold sfs_unmount. apply wp_bind. eapply wp_acquire_repr; [done|]. intros s1 R w I Hst Hv Hr. pose proof Hv as [Hs1 Hok Ht Hsm]. apply wp_bind.
  eapply wp_num; [done|]. intros s2 Hs2. assert (0 < a_num (r_vnodes R)) as Hpos.
  { rewrite (table_num _ _ _ _ Ht). destruct (elems (r_vnodes R)) eqn:E; [|cbn; lia]. destruct Ho. rewrite (rp_open _ _ _ Hr). assert (w_nodes w = ∅) as ->; [|done].
    apply map_eq. intros sv. rewrite lookup_empty. apply eq_None_not_Some. intros Hin%(tb_elems _ _ _ _ Ht). rewrite E in Hin. by apply elem_of_nil in Hin. }
  rewrite (proj2 (Z.ltb_lt _ _)) by done. apply wp_bind. eapply wp_release_repr; [done|by split|done|]. intros s3 Hs3. by apply wp_ret.
Qed.

(** [sfs_fs_destroy], when there are no vnodes and the device is not set *)
Lemma wp_fs_destroy s Q : a_num (sfs_vnodes (s_fs s)) = 0 → sfs_device (s_fs s) = false →
  (∀ fs, Q tt (set_s_fs fs s)) → wp sfs_fs_destroy Q s.
Proof.
  intros Hnum Hdev HQ. unfold sfs_fs_destroy. apply wp_bind, wp_modify. apply wp_bind. unfold on_vnodes. apply wp_zoom. unfold array_destroy, array_cleanup. apply wp_bind, wp_gets. cbn [id].
  apply wp_bind, wp_kassert. split; [cbn; by rewrite Hnum|]. apply wp_modify. apply wp_bind, wp_gets, wp_kassert. split; [cbn; by rewrite Hdev|]. apply HQ.
Qed.

Lemma wp_release_raw s Q : 0 < vfs_biglock_depth s → Q tt (set_depth (vfs_biglock_depth s - 1) s) → wp vfs_biglock_release Q s.
Proof. intros Hd HQ. unfold vfs_biglock_release. apply wp_bind, wp_gets, wp_bind, wp_kassert. split; [by apply Z.ltb_lt|]. by apply wp_modify. Qed.

Lemma wp_unmount R s w I : mvol R s w I → w_nodes w = ∅ → w_mapdirty w = false → r_superdirty R = false →
  wp sfs_unmount (λ r s', r = 0 ∧ lhd_ready (w_disk w) (s_lhd s') ∧ s_nodes s' = ∅ ∧ vfs_biglock_depth s' = vfs_biglock_depth s ∧ s_next s' = s_next s) s.
Proof.
  intros [Hs Hok Ht Hsm] Hn Hmd Hsd. pose proof (sh_held _ _ _ Hs) as Hd. rewrite <-(sh_rest _ _ _ Hs) in Hd. cbn in Hd.
  assert (a_num (sfs_vnodes (s_fs s)) = 0) as Hnum.
  { transitivity (a_num (r_vnodes R)); [by rewrite <-(sh_rest _ _ _ Hs)|]. rewrite (table_num _ _ _ _ Ht). destruct (elems (r_vnodes R)) as [|sv l] eqn:E; [done|].
    assert (is_Some (w_nodes w !! sv)) as [y Hy]; [apply (tb_elems _ _ _ _ Ht); rewrite E; apply list_elem_of_here|]. by rewrite Hn in Hy. }
  unfold sfs_unmount. apply wp_bind, wp_modify. apply wp_bind. unfold vnodearray_num, on_vnodes, array_num. apply wp_zoom, wp_gets. cbn [s_fs set_depth sfs_vnodes]. rewrite Hnum. cbn [Z.ltb Z.compare].
  apply wp_bind, wp_gets. apply wp_bind, wp_kassert. split.
  { cbn. assert (sfs_superdirty (s_fs s) = r_superdirty R) as -> by (by rewrite <-(sh_rest _ _ _ Hs)). by rewrite Hsd. }
  apply wp_bind, wp_kassert. split; [pose proof (sh_dirty _ _ _ Hs) as Hdd; cbn in Hdd |- *; by rewrite Hdd, Hmd|]. apply wp_bind, wp_modify. apply wp_bind, wp_fs_destroy; [done|done|]. intros fs.
  apply wp_bind, wp_release_raw; [cbn; lia|]. apply wp_ret. cbn. split; [done|]. split; [apply Hs|]. split; [|split; [lia|done]]. rewrite <-Hn. apply (sh_nodes _ _ _ Hs).
Qed.

(** ** Mounting *)

Lemma part_concat (L : list (list Z)) k x : Forall (λ s, length s = 512%nat) L → L !! k = Some x → map_part (concat L) k = x.
Proof.
  intros HL. revert k. induction HL as [|y L Hy HL IH]; intros k Hk; [done|]. destruct k as [|k]; cbn [concat].
  - injection Hk as <-. unfold map_part. cbn [Nat.mul]. rewrite drop_0, take_app_le by lia. by rewrite take_ge by lia.
  - rewrite <-(IH k Hk). unfold map_part. rewrite drop_app_ge by lia. do 2 f_equal. lia.
Qed.

Lemma map_data_part nb D n k : Forall (λ s, length s = 512%nat) D → SFS_FREEMAPBLOCKS nb = Z.of_nat n → (k < n)%nat → map_part (map_data nb D) k = sector D (2 + Z.of_nat k).
Proof.
  intros HD En Hk. unfold map_data. apply part_concat.
  - apply Forall_fmap, Forall_true. intros j. cbn. unfold sector. destruct (D !! _) eqn:E; [|done]. cbn. by apply (Forall_lookup_1 _ _ _ _ HD E).
  - rewrite list_lookup_fmap, En. rewrite lookup_seqZ_lt by lia. cbn. unfold SFS_FREEMAP_START. do 2 f_equal. 
Qed.

(** One block of the free map is filled in. *)
Lemma splice_parts (l m : list Z) k : (length l = length m)%nat → (512 * S k ≤ length m)%nat → take (k * 512) l = take (k * 512) m →
  let l' := splice (Z.of_nat k * 512) (map_part m k) l in length l' = length m ∧ take (S k * 512) l' = take (S k * 512) m.
Proof.
  intros Hl Hk E l'. unfold l', splice, map_part. replace (Z.to_nat (Z.of_nat k * 512)) with (k * 512)%nat by lia. assert (length (take 512 (drop (k * 512) m)) = 512%nat) as H5 by len.
  split; [len|]. rewrite E. rewrite app_assoc, take_app_le by (rewrite length_app, H5; len). rewrite take_ge by (rewrite length_app, H5; len).
  replace (S k * 512)%nat with (k * 512 + 512)%nat by lia. by rewrite take_take_drop.
Qed.

Section mount.
Context (D : list (list Z)) (nb : Z) (n : nat) (fs : sfs_fs) (s : sfs_st).
Context (Hnb : sb_nblocks (sfs_sb fs) = nb) (En : SFS_FREEMAPBLOCKS nb = Z.of_nat n) (Hlen : length (map_data nb D) = (512 * n)%nat).
Context (HD : Forall (λ s, length s = 512%nat) D) (Hrange : 2 + Z.of_nat n ≤ Z.of_nat (length D)) (Hd : 0 < vfs_biglock_depth s) (Hl : lhd_ready D (s_lhd s)).
Context (Hmax : Z.of_nat (length D) < 2 ^ 32).

Lemma wp_freemap_read b Q : length (v b) = (512 * n)%nat → s_fs s = set_freemap (Some b) fs →
  (∀ l, lhd_ready D l → Q 0 (set_s_fs (set_freemap (Some (mk_bitmap (nbits b) (map_data nb D))) fs) (set_s_lhd l s))) → wp (sfs_freemapio UIO_READ) Q s.
Proof using All.
  intros Hb Hfs HQ. unfold sfs_freemapio. apply wp_bind, wp_gets. cbn zeta. unfold SFS_FS_FREEMAPBLOCKS, SFS_FS_NBLOCKS. rewrite Hfs. cbn [sfs_sb set_freemap]. rewrite Hnb, En.
  apply (wp_while _ (λ j s', ∃ k l m, j = Z.of_nat k ∧ (k ≤ n)%nat ∧ lhd_ready D l ∧ s' = set_s_fs (set_freemap (Some (mk_bitmap (nbits b) m)) fs) (set_s_lhd l s) ∧
    length m = length (map_data nb D) ∧ take (k * 512) m = take (k * 512) (map_data nb D)) (λ j _, Z.of_nat n - j)).
  - exists 0%nat, (s_lhd s), (v b). split_and!; try done; [lia| |lia]. destruct s, b. cbn in *. by rewrite <-Hfs.
  - intros j s' (k & l & m & -> & Hk & _). lia.
  - lia.
  - intros j s' (k & l & m & -> & Hk & Hl' & -> & Hm & Em). destruct (Z.ltb_spec (Z.of_nat k) (Z.of_nat n)) as [Hlt|Hge].
    + rewrite decide_True by done. unfold SFS_FREEMAP_START. rewrite u32_id by lia. apply wp_bind, wp_bind.
      eapply (wp_readblock_raw _ D); [done|done|lia|apply sector_lookup; lia|]. intros l2 Hl2. cbn [fst snd Z.eqb]. apply wp_bind.
      pose proof (map_data_part nb D n k HD En ltac:(lia)) as Hp. destruct (splice_parts m (map_data nb D) k Hm ltac:(lia) Em) as [Hm' Em']. rewrite Hp in Hm', Em'.
      eapply wp_on_freemap; [done| |].
      { mred. cbn [id v]. unfold SFS_BLOCKSIZE. rewrite decide_True; [done|]. rewrite <-Hp. assert (length (map_part (map_data nb D) k) = 512%nat) by (unfold map_part; len). lia. }
      apply wp_ret. cbn [Z.eqb negb]. apply wp_ret. split; [|lia]. exists (S k), l2, (splice (Z.of_nat k * 512) (sector D (2 + Z.of_nat k)) m). split_and!; try done; lia.
    + assert (k = n) as -> by lia. apply wp_ret. rewrite !take_ge in Em by lia. rewrite Em. by apply HQ.
Qed.
End mount.

Lemma wp_malloc_raw s Q : (∀ b l, Q b (set_s_mallocs l s)) → wp sfs_malloc Q s.
Proof. intros HQ. unfold sfs_malloc. apply wp_bind, wp_gets, wp_bind, wp_modify, wp_ret, HQ. Qed.

(** The free map of a volume has whole bytes. *)
Lemma bitmap_create_map ok1 ok2 n : (0 < n)%nat → Z.of_nat n * 4096 < 2 ^ 32 - 8 →
  bitmap_create ok1 ok2 (Z.of_nat n * 4096) = Ok (if ok1 && ok2 then Some (mk_bitmap (Z.of_nat n * 4096) (replicate (512 * n) 0)) else None).
Proof.
  intros Hn Hmax. unfold bitmap_create, DIVROUNDUP, BITS_PER_WORD. destruct ok1, ok2; try done. cbn [negb andb]. rewrite (u32_id (Z.of_nat n * 4096 + 8 - 1)) by lia.
  replace (Z.of_nat n * 4096 + 8 - 1) with (7 + Z.of_nat n * 512 * 8) by lia. replace (Z.of_nat n * 4096) with (Z.of_nat n * 512 * 8) by lia. rewrite Z.div_add, Z.div_mul by lia.
  change (7 / 8) with 0. rewrite Z.add_0_l, Z.ltb_irrefl. do 3 f_equal. f_equal. lia.
Qed.

(** Giving up: the device is cleared and the volume destroyed. *)
Lemma wp_mount_fail s e (Q : Z → sfs_st → Prop) : 0 < vfs_biglock_depth s → a_num (sfs_vnodes (s_fs s)) = 0 →
  (∀ fs, Q e (set_depth (vfs_biglock_depth s - 1) (set_s_fs fs s))) → wp (mount_fail e) Q s.
Proof.
  intros Hd Hn HQ. unfold mount_fail. apply wp_bind, wp_modify. apply wp_bind, wp_fs_destroy; [done|done|]. intros fs. apply wp_bind, wp_release_raw; [done|]. apply wp_ret, HQ.
Qed.

(** Mounting the volume on the disk, with no vnodes left from before *)
Lemma wp_domount s D nb names data : lhd_ready D (s_lhd s) → s_nodes s = ∅ → 0 ≤ vfs_biglock_depth s → 0 ≤ s_next s → on_disk nb D names data →
  wp (sfs_domount SFS_BLOCKSIZE) (λ r s', r = ENOMEM ∨ (r = 0 ∧ ∃ R, r_nblocks R = nb ∧ r_superdirty R = false ∧ repr R s' (mk_avol names data ∅))) s.
Proof.
  intros Hl Hn Hd Hnx (f & I & Hok & Hsm & Hover & F & W). pose proof (ok_meta _ _ _ Hok) as [[Hmagic Hnb] Hmap]. specialize (Hmap eq_refl). destruct Hmap as [Hbw Hbit]. cbn [w_disk w_bit w_mapdirty nbits] in Hmagic, Hnb, Hbw, Hbit.
  pose proof (ok_size _ _ _ Hok) as [Hsz _]. cbn in Hsz. pose proof (ok_sectors _ _ _ Hok) as HD. cbn in HD.
  assert (0 < nb) as Hpos by (pose proof (use_range nb _ I Hok (RMeta 0) 0 ltac:(cbn; by rewrite decide_True by auto)); lia).
  destruct (map_sizes nb ltac:(lia) Hsm) as (n & En & Ebits & Hnn). pose proof (length_map _ nb n Hbw eq_refl Ebits) as Hlen. cbn [v] in Hlen.
  assert (2 + Z.of_nat n ≤ Z.of_nat (length D)) as Hrange.
  { assert (0 < n)%nat by lia. pose proof (use_range nb _ I Hok (RMeta (1 + Z.of_nat n)) (1 + Z.of_nat n) ltac:(cbn; by rewrite decide_True by lia)). lia. }
  unfold sfs_domount. apply wp_bind, wp_modify. change (SFS_BLOCKSIZE =? SFS_BLOCKSIZE) with true. cbn [negb]. apply wp_bind. unfold sfs_fs_create.
  apply wp_bind, wp_malloc_raw. intros b1 l1. destruct b1; cbn [negb]; [|apply wp_ret; cbn [negb]; apply wp_bind, wp_release_raw; [cbn; lia|]; apply wp_ret; by left].
  apply wp_bind, wp_malloc_raw. intros b2 l2. destruct b2; cbn [array_create]; [|apply wp_ret; cbn [negb]; apply wp_bind, wp_release_raw; [cbn; lia|]; apply wp_ret; by left].
  apply wp_bind, wp_modify, wp_ret. cbn [negb]. apply wp_bind, wp_modify. apply wp_bind.
  eapply (wp_readblock_raw _ D); [done|cbn; lia|done|apply (sector_lookup D 0); lia|]. intros l Hl'. cbn [fst snd Z.eqb negb]. change SFS_SUPER_BLOCK with 0 in *.
  apply wp_bind, wp_modify. rewrite Hmagic, Z.eqb_refl. cbn [negb]. apply wp_bind, wp_modify. apply wp_bind, wp_gets. apply wp_bind, wp_malloc_raw. intros b3 l3.
  apply wp_bind, wp_malloc_raw. intros b4 l4. unfold SFS_FS_FREEMAPBITS, SFS_FS_NBLOCKS. cbn [s_fs set_s_fs set_s_mallocs set_s_lhd set_device set_sfs_sb sfs_sb sb_nblocks]. rewrite Hnb, Ebits.
  rewrite bitmap_create_map by lia. destruct (b3 && b4); [|apply wp_mount_fail; [cbn; lia|done|]; intros; by left].
  apply wp_bind, wp_modify. apply wp_bind. set (fs1 := set_sfs_sb _ _). match goal with |- wp _ _ ?st => set (s1 := st) end.
  eapply (wp_freemap_read D nb n fs1 s1); try done.
  { cbn. lia. }
  { pose proof (lr_max _ _ Hl). lia. }
  { cbn [v]. by rewrite length_replicate. }
  intros l5 Hl5. cbn [Z.eqb negb]. apply wp_bind, wp_release_raw; [cbn; lia|]. apply wp_ret. right. split; [done|]. match goal with |- ∃ R, _ ∧ _ ∧ repr R ?st _ => set (s2 := st) end.
  exists (rest_of (set_depth (vfs_biglock_depth s2 + 1) s2)). split; [done|]. split; [done|].
  eexists _, (mk_view D f false ∅), I. split; [reflexivity|]. split; [|by split].
  assert (r_nblocks (rest_of (set_depth (vfs_biglock_depth s2 + 1) s2)) = nb) as Er by done. split; rewrite ?Er; try done.
  - split; try done.
    + rewrite Er. cbn [nbits]. exists (mk_bitmap (Z.of_nat n * 4096) (map_data nb D)). rewrite Ebits in Hbw, Hbit, Hover. split; [done|].
      split; [split; [done|]; split; [cbn; lia|done]|]. intros j Hj. cbn [nbits] in Hj. rewrite Hbit by lia. by apply Hover.
    + cbn. lia.
  - split; try done; cbn; [lia|..].
    + intros sv. rewrite lookup_empty. split; [by intros ?%elem_of_nil|by intros []].
    + apply NoDup_nil_2.
    + split; [done|]. by intros sv [x Hx].
Qed.

(** ** Round trip *)

(** Writing back, unmounting and mounting again *)
Definition remount : M sfs_st (Z * Z * Z) :=
  r1 ← sfs_sync;
  r2 ← sfs_unmount;
  r3 ← sfs_domount SFS_BLOCKSIZE;
  mret (r1, r2, r3).

Lemma wp_remount R0 s a : repr R0 s a → r_superdirty R0 = false → a_open a = ∅ →
  wp remount (λ r s', r.1 = (0, 0) ∧ (r.2 = ENOMEM ∨ (r.2 = 0 ∧ ∃ R, r_nblocks R = r_nblocks R0 ∧ r_superdirty R = false ∧ repr R s' a))) s.
Proof.
  intros Hs Hsd Ho. unfold remount. apply wp_bind. eapply wp_mono; [by apply (wp_sfs_sync R0)|]. intros r s1 (-> & R & w & I & Hst & Hm & Hr & Hsy). apply wp_bind.
  destruct (synced_on_disk R s1 w I a Hm Hr Hsy Ho) as [Hdisk Hn]. eapply wp_mono; [apply (wp_unmount R s1 w I Hm Hn (proj1 Hsy)); destruct Hst as (_ & -> & _); done|].
  intros r s2 (-> & Hl & Hn2 & Hd2 & Hx2). apply wp_bind. eapply wp_mono; [apply (wp_domount s2 (w_disk w)); [done|done| | |exact Hdisk]|].
  { rewrite Hd2. pose proof (sh_held _ _ _ (mv_mounted _ _ _ _ Hm)) as Hd. rewrite <-(sh_rest _ _ _ (mv_mounted _ _ _ _ Hm)) in Hd. cbn in Hd. lia. }
  { rewrite Hx2. pose proof (proj1 (tb_next _ _ _ _ (mv_table _ _ _ _ Hm))) as Hnx. rewrite <-(sh_rest _ _ _ (mv_mounted _ _ _ _ Hm)) in Hnx. done. }
  intros r s3 Hcase. apply wp_ret. split; [done|]. cbn [snd]. destruct Hcase as [?|(? & R' & E1 & E2 & Hs3)]; [by left|right]. split; [done|]. exists R'.
  split; [by rewrite E1, (stable_nblocks _ _ Hst)|]. split; [done|]. replace a with (mk_avol (a_names a) (a_data a) ∅); [done|]. rewrite <-Ho. by destruct a.
Qed.
