(* ===== verification/SfsClient.v ===== *)
(** * Programs that use the file system

    A program calls operations of vnodes one after the other and may look at
    the answers.  The calls go through the tables of operations, so any
    operation may be tried on any open vnode.  [call_spec] is what a call does
    to the abstract volume, [permitted] what the caller has to respect, and
    [perform_does] shows that a call that respects it does so on a volume of
    the real file system.  The programs are those of any interface of
    calls, the class [Calls]. *)

From S2P Require Import Prelude Machine Pt Spinlock Kernel Bitmap Array Xfer Lhd Sfs SfsInv SfsOk SfsBmap SfsFile SfsIo SfsTrunc SfsDir SfsMeta SfsNode Vnode SfsSpec SfsOps SfsRefine SfsMount.

(** ** Programs over an interface of calls

    A program makes calls one after the other and may look at the answers.
    [Calls] is an interface: what a call runs, what its caller has to respect
    and what it does to an abstract state.  When every call does what the
    interface says, so do programs. *)

(** States, abstract states, calls and answers *)
Class Calls (St A C R : Type) : Type := {
  do_call : C → M St R;
  may : A → C → Prop;
  effect : A → C → R → A → Prop
}.

(** A program ends or makes a call and goes on in a way that depends on the
    answer. *)
Inductive prog (C R : Type) : Type := PEnd | PCall (c : C) (k : R → prog C R).
Arguments PEnd {C R}.
Arguments PCall {C R} c k.

Section client.
Context {St A C R : Type} {calls : Calls St A C R}.

Fixpoint run (p : prog C R) : M St (list R) :=
  match p with
  | PEnd => mret []
  | PCall c k => r ← do_call c; rs ← run (k r); mret (r :: rs)
  end.

(** The program respects the conditions whatever the answers are. *)
Fixpoint respects (a : A) (p : prog C R) : Prop :=
  match p with
  | PEnd => True
  | PCall c k => may a c ∧ ∀ r a', effect a c r a' → respects a' (k r)
  end.

(** The answers the abstract state may give, and the one at the end *)
Fixpoint session (a : A) (p : prog C R) (rs : list R) (a' : A) : Prop :=
  match p with
  | PEnd => rs = [] ∧ a' = a
  | PCall c k => ∃ r a1 rs', rs = r :: rs' ∧ effect a c r a1 ∧ session a1 (k r) rs' a'
  end.

(** Reasoning about programs on the abstract state *)
Fixpoint ensures (a : A) (p : prog C R) (Q : list R → A → Prop) : Prop :=
  match p with
  | PEnd => Q [] a
  | PCall c k => may a c ∧ ∀ r a', effect a c r a' → ensures a' (k r) (λ rs, Q (r :: rs))
  end.

Lemma ensures_respects p : ∀ a Q, ensures a p Q → respects a p.
Proof using. induction p as [|c k IH]; intros a Q; cbn; [done|]. intros [Hc Hk]. split; [done|]. intros r a' Hr. by eapply IH, Hk. Qed.

Lemma ensures_session p : ∀ a Q rs a', ensures a p Q → session a p rs a' → Q rs a'.
Proof using.
  induction p as [|c k IH]; intros a Q rs a'; cbn; [by intros H [-> ->]|]. intros [_ Hk] (r & a1 & rs' & -> & Hr & Hs).
  by apply (IH r a1 (λ rs, Q (r :: rs)) rs' a' (Hk r a1 Hr)).
Qed.

(** The states that stand for abstract states, and that calls keep the promise *)
Context (rep : St → A → Prop).
Context (Hcalls : ∀ a c s, may a c → rep s a → wp (do_call c) (λ r s', ∃ a', rep s' a' ∧ effect a c r a') s).

Lemma run_session p : ∀ a s, respects a p → rep s a → wp (run p) (λ rs s', ∃ a', rep s' a' ∧ session a p rs a') s.
Proof using Hcalls.
  induction p as [|c k IH]; intros a s Hp Hs; cbn [run respects session] in *.
  - apply wp_ret. eauto.
  - destruct Hp as [Hc Hk]. apply wp_bind. eapply wp_mono; [by apply Hcalls|]. intros r s1 (a1 & Hs1 & Hr). apply wp_bind.
    eapply wp_mono; [eapply IH; [by apply Hk|done]|]. intros rs s2 (a2 & Hs2 & Hrs). apply wp_ret. exists a2. split; [done|]. by exists r, a1, rs.
Qed.

(** What holds on the abstract state holds on the real one. *)
Lemma run_ensures p a s Q : ensures a p Q → rep s a → wp (run p) (λ rs s', ∃ a', rep s' a' ∧ Q rs a') s.
Proof using Hcalls.
  intros H Hs. eapply wp_mono; [eapply run_session; [by eapply ensures_respects|done]|]. intros rs s' (a' & Hs' & Hr). exists a'. split; [done|]. by eapply ensures_session.
Qed.
End client.

Section client.
Context {U : Type} {uops : UioOps U} {ulaws : UioLaws U}.

Inductive call : Type :=
| CGetroot
| CIncref (v : Z)
| CDecref (v : Z)
| CRead (v : Z) (u : U)
| CWrite (v : Z) (u : U)
| CStat (v : Z)
| CGettype (v : Z)
| CFsync (v : Z)
| CTruncate (v len : Z)
| CLookup (v : Z) (nm : list Z)
| CLookparent (v : Z) (nm : list Z) (buflen : Z)
| CCreat (v : Z) (nm : list Z) (excl : bool) (mode : Z)
| CLink (v : Z) (nm : list Z) (file : Z)
| CRemove (v : Z) (nm : list Z)
| CRename (v : Z) (n1 n2 : list Z).

(** The result, and a vnode, a transfer, the type or the status of a file *)
Inductive answer : Type :=
| ADone
| ACode (r : Z)
| AVnode (r : Z * Z)
| AMoved (r : Z * U)
| AStat (r : Z * stat)
| AType (r : Z * Z)
| AParent (r : Z * (Z * list Z)).

Definition answering {A} (f : A → answer) (m : M sfs_st A) : M sfs_st answer := x ← m; mret (f x).

Definition perform (c : call) : M sfs_st answer :=
  match c with
  | CGetroot => answering AVnode sfs_getroot
  | CIncref v => answering (λ _, ADone) (sfs_incref v)
  | CDecref v => answering (λ _, ADone) (sfs_decref v)
  | CRead v u => answering AMoved (VOP v (λ o, vop_read o v u))
  | CWrite v u => answering AMoved (VOP v (λ o, vop_write o v u))
  | CStat v => answering AStat (VOP (U := U) v (λ o, vop_stat o v))
  | CGettype v => answering AType (VOP (U := U) v (λ o, vop_gettype o v))
  | CFsync v => answering ACode (VOP (U := U) v (λ o, vop_fsync o v))
  | CTruncate v len => answering ACode (VOP (U := U) v (λ o, vop_truncate o v len))
  | CLookup v nm => answering AVnode (VOP (U := U) v (λ o, vop_lookup o v nm))
  | CLookparent v nm buflen => answering AParent (VOP (U := U) v (λ o, vop_lookparent o v nm buflen))
  | CCreat v nm excl mode => answering AVnode (VOP (U := U) v (λ o, vop_creat o v nm excl mode))
  | CLink v nm file => answering ACode (VOP (U := U) v (λ o, vop_link o v nm file))
  | CRemove v nm => answering ACode (VOP (U := U) v (λ o, vop_remove o v nm))
  | CRename v n1 n2 => answering ACode (VOP (U := U) v (λ o, vop_rename o v n1 v n2))
  end.

(** The file a vnode stands for *)
Definition vnode_of (a : avol) (v : Z) : option Z := fst <$> a_open a !! v.
Definition is_root (a : avol) (v : Z) : bool := bool_decide (vnode_of a v = Some SFS_ROOTDIR_INO).
(** The inode number and the contents of an open file *)
Definition file_of (a : avol) (v : Z) : Z * list Z :=
  let ino := default 0 (vnode_of a v) in (ino, default [] (a_data a !! ino)).

Definition is_answer {A} (f : A → answer) (spec : A → avol → Prop) (r : answer) (a' : avol) : Prop := ∃ x, r = f x ∧ spec x a'.

Definition refused (a : avol) (e : Z) (r : Z) (a' : avol) : Prop := r = e ∧ a' = a.
Definition refused1 {A} (a : avol) (e : Z) (r : Z * A) (a' : avol) : Prop := r.1 = e ∧ a' = a.

(** What a caller has to respect: vnodes are open, names hold no zero byte,
    transfers are in order and stay below 2 GB.  Cutting a file in the middle
    is left out: see [sfs_truncate_reveals]. *)
Definition permitted (a : avol) (c : call) : Prop :=
  match c with
  | CGetroot => True
  | CIncref v | CDecref v | CStat v | CGettype v | CFsync v | CLookup v _ | CLookparent v _ _ | CRemove v _ => is_Some (a_open a !! v)
  | CRead v u => is_Some (a_open a !! v) ∧ small u ∧ u_rw u = UIO_READ
  | CWrite v u => is_Some (a_open a !! v) ∧ small u ∧ u_rw u = UIO_WRITE
  | CTruncate v len => is_Some (a_open a !! v) ∧ (len = 0 ∨ Z.of_nat (length (file_of a v).2) ≤ len ≤ 143 * 512)
  | CCreat v nm _ _ => is_Some (a_open a !! v) ∧ Forall (λ b, b ≠ 0) nm
  | CLink v nm file => is_Some (a_open a !! v) ∧ is_Some (a_open a !! file) ∧ Forall (λ b, b ≠ 0) nm
  | CRename v _ n2 => is_Some (a_open a !! v) ∧ Forall (λ b, b ≠ 0) n2
  end.

Definition call_spec (a : avol) (c : call) : answer → avol → Prop :=
  match c with
  | CGetroot => is_answer AVnode (look_spec a SFS_ROOTDIR_INO)
  | CIncref v => λ r a', r = ADone ∧ a' = a_ref v (default 0 (vnode_of a v)) a
  | CDecref v => λ r a', r = ADone ∧ ∃ ino n, a_open a !! v = Some (ino, n) ∧ a' = a_unref v ino n a
  | CRead v u => is_answer AMoved (if is_root a v then λ r a', r = (EISDIR, u) ∧ a' = a else read_spec a (file_of a v).2 u)
  | CWrite v u => is_answer AMoved (if is_root a v then λ r a', r = (EISDIR, u) ∧ a' = a else write_spec a (file_of a v).1 (file_of a v).2 u)
  | CStat v => is_answer AStat (stat_spec a (file_of a v).1)
  | CGettype v => is_answer AType (λ r a', r = (0, if is_root a v then S_IFDIR else S_IFREG) ∧ a' = a)
  | CFsync v => is_answer ACode (refused a 0)
  | CTruncate v len => is_answer ACode (if is_root a v then refused a EISDIR else trunc_spec a (file_of a v).1 (file_of a v).2 len)
  | CLookup v nm => is_answer AVnode (if is_root a v then lookup_spec a nm else refused1 a ENOTDIR)
  | CLookparent v nm buflen => is_answer AParent (if negb (is_root a v) then refused1 a ENOTDIR
      else if decide (Z.of_nat (length nm) < buflen) then λ r a', r = (0, (v, nm)) ∧ a' = a_ref v SFS_ROOTDIR_INO a else refused1 a ENAMETOOLONG)
  | CCreat v nm excl _ => is_answer AVnode (if is_root a v then creat_spec a nm excl else refused1 a ENOTDIR)
  | CLink v nm file => is_answer ACode (if negb (is_root a v) then refused a ENOTDIR else if is_root a file then refused a EINVAL else link_spec a nm (file_of a file).1)
  | CRemove v nm => is_answer ACode (if is_root a v then remove_spec a nm else refused a ENOTDIR)
  | CRename v n1 n2 => is_answer ACode (if is_root a v then rename_spec a n1 n2 else refused a ENOTDIR)
  end.

(** ** Every call does what its specification says *)

Section calls.
Context (R0 : srest).

Lemma answering_does {A} (f : A → answer) m a spec : does R0 m a spec → does R0 (answering f m) a (is_answer f spec).
Proof using.
  intros Hm s Hs. unfold answering. apply wp_bind. eapply wp_mono; [by apply Hm|]. intros x s' (a' & Hs' & Hx). apply wp_ret. exists a'. split; [done|]. by exists x.
Qed.

Lemma does_mono {A} (m : M sfs_st A) a (spec spec' : A → avol → Prop) : (∀ r a', spec r a' → spec' r a') → does R0 m a spec → does R0 m a spec'.
Proof using. intros H Hm s Hs. eapply wp_mono; [by apply Hm|]. intros r s' (a' & Hs' & Hr). eauto. Qed.

(** The table of a vnode is the one of its type. *)
Lemma VOP_does {A} (op : vnode_ops sfs_st U → M sfs_st A) v ino n a spec : a_open a !! v = Some (ino, n) →
  does R0 (op (sfs_ops (if decide (ino = SFS_ROOTDIR_INO) then sfs_dirops else sfs_fileops))) a spec → does R0 (VOP v op) a spec.
Proof using.
  intros Ho Hop s Hs. pose proof Hs as (R & w & I & Hst & Hm & Hr). destruct (open_node w I a v ino n Hr Ho) as (x & Hx & Hxo & _). pose proof Hm as [Hsh Hok Ht Hsm].
  destruct (tb_node _ _ _ _ Ht v x Hx) as (T1 & T2 & T3). assert (s_nodes s !! v = Some x) as Hxs by (by rewrite <-Hx, <-(sh_nodes _ _ _ Hsh)).
  unfold VOP, vnode_check, get_sv. apply wp_bind, wp_bind, wp_bind, wp_gets. rewrite Hxs. apply wp_ret. rewrite (proj2 (Z.ltb_ge (vn_refcount x) 0)), (proj2 (Z.eqb_neq (vn_refcount x) 0)) by lia.
  apply wp_ret. apply wp_bind, wp_bind, wp_gets. rewrite Hxs. apply wp_ret. replace (vn_ops x) with (if decide (ino = SFS_ROOTDIR_INO) then sfs_dirops else sfs_fileops); [by apply Hop|].
  rewrite T2. pose proof (ok_node _ _ _ Hok v x Hx) as Hi. rewrite Hxo in Hi. unfold ops_of. destruct (decide (ino = SFS_ROOTDIR_INO)) as [->|Hne].
  - destruct (fr_root _ _ _ _ _ (rp_files _ _ _ Hr)) as (i & Hi' & Hroot). rewrite Hi in Hi'. injection Hi' as <-. by rewrite (dw_type _ _ (ro_dir _ _ _ Hroot)).
  - destruct (proj2 (freps_inode _ _ _ _ _ _ _ (rp_files _ _ _ Hr) Hi) Hne) as (c & Hc & Hf). by rewrite (fi_type _ _ _ _ Hf).
Qed.

Lemma does_ret {A} (r : A) a (spec : A → avol → Prop) : spec r a → does R0 (mret r) a spec.
Proof using. intros H s Hs. apply wp_ret. eauto. Qed.

(** An open vnode that is not the root directory stands for a file. *)
Lemma open_data s a v ino n : repr R0 s a → a_open a !! v = Some (ino, n) → ino ≠ SFS_ROOTDIR_INO → ∃ c, a_data a !! ino = Some c.
Proof using.
  intros (R & w & I & Hst & Hm & Hr) Ho Hne. destruct (open_node w I a v ino n Hr Ho) as (x & Hx & Hxo & _). pose proof (ok_node _ _ _ (mv_ok _ _ _ _ Hm) v x Hx) as Hi. rewrite Hxo in Hi.
  destruct (proj2 (freps_inode _ _ _ _ _ _ _ (rp_files _ _ _ Hr) Hi) Hne) as (c & Hc & _). eauto.
Qed.

Lemma does_data {A} (m : M sfs_st A) a v ino n spec : a_open a !! v = Some (ino, n) → ino ≠ SFS_ROOTDIR_INO →
  (∀ c, a_data a !! ino = Some c → does R0 m a (spec c)) → does R0 m a (spec (default [] (a_data a !! ino))).
Proof using. intros Ho Hne Hm s Hs. destruct (open_data s a v ino n Hs Ho Hne) as [c Hc]. rewrite Hc. by apply Hm. Qed.

(** The cases of an operation on the vnode [v] *)
Ltac vop_cases v :=
  let ino := fresh "ino" in let n := fresh "n" in let Ho := fresh "Ho" in
  match goal with H : is_Some (a_open _ !! v) |- _ => destruct H as [[ino n] Ho] end;
  unfold is_root, file_of, vnode_of; apply answering_does; eapply VOP_does; [exact Ho|]; rewrite ?Ho; cbn [fmap option_fmap option_map fst snd default];
  let Hne := fresh "Hne" in destruct (decide (ino = SFS_ROOTDIR_INO)) as [->|Hne];
  [rewrite ?bool_decide_eq_true_2 by done|rewrite ?(bool_decide_eq_false_2 (Some ino = _)) by congruence]; cbn.

Lemma perform_does a c : permitted a c → does R0 (perform c) a (call_spec a c).
Proof using.
  destruct c as [|v|v|v u|v u|v|v|v|v len|v nm|v nm buflen|v nm excl mode|v nm file|v nm|v n1 n2]; cbn [permitted perform call_spec].
  - intros _. apply answering_does, sfs_getroot_does.
  - intros [[ino n] Ho]. unfold vnode_of. rewrite Ho. cbn. eapply does_mono; [|apply answering_does; by eapply sfs_incref_does]. intros r a' (x & -> & ->). done.
  - intros [[ino n] Ho]. eapply does_mono; [|apply answering_does; by eapply sfs_decref_does]. intros r a' (x & -> & ->). eauto.
  - intros (Ho & Hu & Hrw). vop_cases v; [by apply does_ret|]. by eapply (does_data _ _ v ino n (λ c, read_spec a c u)); [done|done|intros c Hc; eapply sfs_read_does].
  - intros (Ho & Hu & Hrw). vop_cases v; [by apply does_ret|]. by eapply (does_data _ _ v ino n (λ c, write_spec a ino c u)); [done|done|intros c Hc; eapply sfs_write_does].
  - intros Ho. vop_cases v; by eapply sfs_stat_does.
  - intros Ho. vop_cases v; (eapply does_mono; [|by eapply sfs_gettype_does]); intros r a' [-> ->]; [by rewrite decide_True|by rewrite decide_False].
  - intros Ho. vop_cases v; by eapply sfs_fsync_does.
  - intros [Ho Hlen]. unfold file_of, vnode_of in Hlen. vop_cases v; [by apply does_ret|]. rewrite Ho0 in Hlen. cbn in Hlen.
    eapply (does_data _ _ v ino n (λ c, trunc_spec a ino c len)); [done|done|]. intros c Hc. rewrite Hc in Hlen. by eapply sfs_truncate_does.
  - intros Ho. vop_cases v; [by eapply sfs_lookup_does|by apply does_ret].
  - intros Ho. vop_cases v; [|by apply does_ret]. eapply does_mono; [|by eapply sfs_lookparent_does]. intros r a'. by case_decide.
  - intros [Ho Hnm]. vop_cases v; [by eapply sfs_creat_does|by apply does_ret].
  - intros (Ho & [[j m] Hf] & Hnm). vop_cases v; [|by apply does_ret]. rewrite Hf. cbn. eapply does_mono; [|by eapply sfs_link_does]. intros r a'. cbn.
    case_decide as E; [subst; by rewrite bool_decide_eq_true_2|]. by rewrite bool_decide_eq_false_2 by congruence.
  - intros Ho. vop_cases v; [by eapply sfs_remove_does|by apply does_ret].
  - intros [Ho Hnm]. vop_cases v; [by eapply sfs_rename_does|by apply does_ret].
Qed.

End calls.

#[export] Instance sfs_calls : Calls sfs_st avol call answer := {| do_call := perform; may := permitted; effect := call_spec |}.

(** Calls keep the promise of the interface. *)
Lemma sfs_calls_do R0 a c s : may a c → repr R0 s a → wp (do_call c) (λ r s', ∃ a', repr R0 s' a' ∧ effect a c r a') s.
Proof using ulaws. intros Hc. by apply perform_does. Qed.
End client.
Arguments call : clear implicits.
Arguments answer : clear implicits.
