(* ===== verification/SfsProps.v ===== *)
(** * Properties of the file system

    What programs can rely on when they use a volume, what reaches the disk,
    and three ways to lose or to see data that the code allows; a small volume
    on which the theorems are applied. *)

From S2P Require Import Prelude Machine Pt Spinlock Kernel Bitmap Array Xfer Lhd Sfs SfsInv SfsOk SfsBmap SfsFile SfsIo SfsTrunc SfsDir SfsMeta SfsNode Vnode SfsSpec SfsOps SfsRefine SfsMount SfsClient.

(** ** A small volume

    A disk of 8 blocks with one file, [a], which holds [hello].  The vnodes of
    the root directory and of the file are open. *)

Definition name_a : list Z := [97].
Definition hello : list Z := [104; 101; 108; 108; 111].

Definition demo_sb : sfs_superblock := mk_sb SFS_MAGIC 8 (replicate 32 0) (replicate 118 0).
Definition root_i : sfs_dinode := mk_dinode 64 SFS_TYPE_DIR 1 (5 :: replicate 14 0) 0 (replicate 110 0).
Definition file_i : sfs_dinode := mk_dinode 5 SFS_TYPE_FILE 1 (4 :: replicate 14 0) 0 (replicate 110 0).
Definition demo_map : list Z := 63 :: replicate 511 255.
Definition demo_disk : list (list Z) :=
  [sb_bytes demo_sb; dinode_bytes root_i; demo_map; dinode_bytes file_i; hello ++ replicate 507 0; direntry_bytes (new_entry name_a 3) ++ replicate 448 0; zeros; zeros].

Definition root_v : sfs_vnode := mk_sv sfs_dirops 1 root_i 1 false.
Definition file_v : sfs_vnode := mk_sv sfs_fileops 1 file_i 3 false.
Definition demo_nodes : gmap Z sfs_vnode := {[100 := root_v; 101 := file_v]}.
Definition demo_inodes : gmap Z sfs_dinode := {[1 := root_i; 3 := file_i]}.
Definition demo_bit (j : Z) : bool := bool_decide (0 ≤ j < 6 ∨ 8 ≤ j).
Definition demo_view : sview := mk_view demo_disk demo_bit false demo_nodes.
Definition demo_array : array := mk_array [100; 101; 0; 0] 2 4.
Definition demo_lhd : lhd_softc := mk_lhd (mk_card demo_disk [] 0 0 zeros) 0 1 0 8.
Definition demo_rest : srest := mk_rest demo_sb false true demo_array 102 [] 1.
Definition demo_st : sfs_st := mk_st (mk_fs demo_sb false true demo_array (Some (mk_bitmap 4096 demo_map)) false) demo_lhd demo_nodes 102 [] 0.
Definition demo_avol : avol := mk_avol {[name_a := 3]} {[3 := hello]} {[100 := (1, 1); 101 := (3, 1)]}.

(** The blocks of the two files *)
Lemma demo_bmap D i b k : sfi_direct i = b :: replicate 14 0 → sfi_indirect i = 0 → bmap_of D i k = if (k =? 0)%nat then b else 0.
Proof.
  intros Hd Hi. unfold bmap_of. rewrite Hd, Hi. destruct k as [|k]; [done|]. cbn [Nat.eqb]. destruct (Nat.ltb_spec (S k) 15); [|by destruct (_ <? 143)%nat].
  change ((b :: replicate 14 0) !! S k) with (replicate 14 0 !! k). by rewrite lookup_replicate_2 by lia.
Qed.

Lemma demo_inode ino i : demo_inodes !! ino = Some i ↔ (ino = 1 ∧ i = root_i) ∨ (ino = 3 ∧ i = file_i).
Proof. unfold demo_inodes. rewrite lookup_insert_Some, lookup_singleton_Some. naive_solver lia. Qed.

Lemma demo_node sv x : demo_nodes !! sv = Some x ↔ (sv = 100 ∧ x = root_v) ∨ (sv = 101 ∧ x = file_v).
Proof. unfold demo_nodes. rewrite lookup_insert_Some, lookup_singleton_Some. naive_solver lia. Qed.

Lemma demo_uses r b : uses 8 demo_disk demo_inodes r = Some b →
  (r, b) ∈ [(RMeta 0, 0); (RMeta 2, 2); (RInode 1, 1); (RInode 3, 3); (RData 1 0, 5); (RData 3 0, 4)].
Proof.
  destruct r as [n|j|j|j k]; cbn [uses].
  - change (SFS_FREEMAPBLOCKS 8) with 1. case_decide as H; [|done]. intros [= <-]. assert (n = 0 ∨ n = 2) as [->| ->] by lia; set_solver.
  - rewrite bind_Some. intros (i & [[-> ->]|[-> ->]]%demo_inode & [= <-]); set_solver.
  - rewrite bind_Some. intros (i & [[-> ->]|[-> ->]]%demo_inode & H); done.
  - rewrite bind_Some. intros (i & [[-> ->]|[-> ->]]%demo_inode & [H Hb]%nonzero_Some).
    + rewrite (demo_bmap _ root_i 5 k) in H by done. destruct (Nat.eqb_spec k 0) as [->|]; [subst; set_solver|done].
    + rewrite (demo_bmap _ file_i 4 k) in H by done. destruct (Nat.eqb_spec k 0) as [->|]; [subst; set_solver|done].
Qed.

Lemma demo_use_ok : use_ok 8 demo_bit (uses 8 demo_disk demo_inodes).
Proof.
  assert (∀ r b, (r, b) ∈ [(RMeta 0, 0); (RMeta 2, 2); (RInode 1, 1); (RInode 3, 3); (RData 1 0, 5); (RData 3 0, 4)] →
    0 ≤ b < 6 ∧ ∀ r', (r', b) ∈ [(RMeta 0, 0); (RMeta 2, 2); (RInode 1, 1); (RInode 3, 3); (RData 1 0, 5); (RData 3 0, 4)] → r = r') as H.
  { intros r b Hr. repeat setoid_rewrite elem_of_cons in Hr. repeat setoid_rewrite elem_of_cons. setoid_rewrite elem_of_nil. rewrite elem_of_nil in Hr. split; naive_solver lia. }
  split.
  - intros r b [Hb _]%demo_uses%H. lia.
  - intros r b [Hb _]%demo_uses%H. apply bool_decide_eq_true. lia.
  - intros r r' b Hr%demo_uses Hr'%demo_uses. by apply (H r b).
Qed.

Lemma demo_bits : bm_wf (mk_bitmap 4096 demo_map) ∧ ∀ j, 0 ≤ j < 4096 → bit (mk_bitmap 4096 demo_map) j = demo_bit j.
Proof.
  split.
  - split; [cbn; lia|done|apply Forall_cons; split; [lia|]; by apply Forall_replicate|]. cbn. lia.
  - assert (Forall (λ j, bit (mk_bitmap 4096 demo_map) j = demo_bit j) (seqZ 0 4096)) as H; [|intros j Hj; rewrite Forall_forall in H; apply H, elem_of_seqZ; lia].
    apply (bool_decide_unpack _). by vm_compute.
Qed.

Lemma demo_fs_ok nodes : nodes ⊆ demo_nodes → fs_ok 8 (mk_view demo_disk demo_bit false nodes) demo_inodes.
Proof.
  intros Hsub. assert (∀ sv x, nodes !! sv = Some x → (sv = 100 ∧ x = root_v) ∨ (sv = 101 ∧ x = file_v)) as Hnode by (intros sv x Hx; apply demo_node; by eapply lookup_weaken).
  split; cbn.
  - apply demo_use_ok.
  - intros sv x [[-> ->]|[-> ->]]%Hnode; done.
  - intros sv sv' x x' [[-> ->]|[-> ->]]%Hnode [[-> ->]|[-> ->]]%Hnode; done.
  - intros ino i [[-> ->]|[-> ->]]%demo_inode _; by vm_compute.
  - intros ino i [[-> ->]|[-> ->]]%demo_inode; (split; try done; split; [done|]; by apply Forall_replicate).
  - apply (bool_decide_unpack _). by vm_compute.
  - lia.
  - split; [by vm_compute|]. intros _. change (SFS_FREEMAPBITS 8) with 4096. change (map_data 8 demo_disk) with (sector demo_disk 2 ++ []). rewrite app_nil_r. apply demo_bits.
Qed.

Lemma demo_lhd_ready : lhd_ready demo_disk demo_lhd.
Proof. split; try done. apply (bool_decide_unpack _). by vm_compute. Qed.

Lemma demo_mvol : mvol demo_rest demo_st demo_view demo_inodes.
Proof.
  split; [|by apply demo_fs_ok| |done].
  - split; try done; [apply demo_lhd_ready|]. exists (mk_bitmap 4096 demo_map). destruct demo_bits as [H1 H2]. split; [done|]. split; [split; [done|split; [done|done]]|].
    intros j Hj. change (8 ≤ j < 4096) in Hj. rewrite H2 by lia. apply bool_decide_eq_true. lia.
  - change (r_nblocks demo_rest) with 8. split; [split; cbn; (done || lia)|cbn; lia|..].
    + intros sv. change (elems (r_vnodes demo_rest)) with [100; 101]. rewrite !elem_of_cons, elem_of_nil. split; [intros [->|[->|[]]]; by eexists|]. intros [x [[-> ->]|[-> ->]]%demo_node]; auto.
    + apply (bool_decide_unpack _). by vm_compute.
    + split; [cbn; lia|]. intros sv [x [[-> ->]|[-> ->]]%demo_node]; cbn; lia.
    + intros sv x [[-> ->]|[-> ->]]%demo_node; (split; [cbn; lia|]; split; [done|]); [by right|by left].
Qed.

(** The rest of the only block of a file *)
Lemma demo_tidy i b : sfi_direct i = b :: replicate 14 0 → sfi_indirect i = 0 → Forall (λ z, z = 0) (drop (Z.to_nat (sfi_size i)) (sector demo_disk b)) → b ≠ 0 → tidy demo_disk i.
Proof.
  intros Hd Hi Hz Hb n Hn. unfold raw, fblock. rewrite (demo_bmap _ i b _ Hd Hi). destruct (pos_block n) as [En Hm]. destruct (Nat.eqb_spec (n / 512) 0) as [E|E].
  - rewrite (proj2 (Z.eqb_neq b 0)) by done. replace (n `mod` 512)%nat with n by lia. destruct (sector demo_disk b !! n) as [z|] eqn:Ez; [|done].
    rewrite Forall_forall in Hz. cbn. apply Hz. apply list_elem_of_lookup. exists (n - Z.to_nat (sfi_size i))%nat. rewrite lookup_drop. by replace (Z.to_nat (sfi_size i) + (n - Z.to_nat (sfi_size i)))%nat with n by lia.
  - cbn [Z.eqb]. apply zeros_raw.
Qed.

Lemma demo_freps : freps demo_disk demo_inodes {[name_a := 3]} {[3 := hello]} (links {[name_a := 3]}).
Proof.
  split.
  - exists root_i. split; [by apply demo_inode; left|]. split.
    + split; [done|exists 1%nat; split; [done|lia]|]. assert (dirents (contents demo_disk root_i) = [new_entry name_a 3]) as -> by (by vm_compute). intros [|j] [|j'] e e' He He'; cbn in *; try done.
    + apply (demo_tidy _ 5); try done. apply (bool_decide_unpack _). by vm_compute.
    + done.
    + by vm_compute.
  - intros ino Hne. unfold demo_inodes. rewrite lookup_insert_ne by (by apply not_eq_sym). destruct (decide (ino = 3)) as [->|H3]; [|by rewrite !lookup_singleton_ne].
    rewrite !lookup_singleton_eq. split; try done. apply (demo_tidy _ 4); try done. apply (bool_decide_unpack _). by vm_compute.
  - done.
Qed.

Lemma demo_wf o : a_wf (mk_avol {[name_a := 3]} {[3 := hello]} o).
Proof.
  split; cbn.
  - intros nm ino [<- <-]%lookup_singleton_Some. by eexists.
  - intros ino [c [<- <-]%lookup_singleton_Some]. left. by vm_compute.
Qed.

Lemma demo_reps : reps demo_view demo_inodes demo_avol.
Proof. split; cbn; [apply demo_freps|by vm_compute|apply demo_wf]. Qed.

Lemma demo_repr : repr demo_rest demo_st demo_avol.
Proof. exists demo_rest, demo_view, demo_inodes. split; [reflexivity|]. split; [apply demo_mvol|apply demo_reps]. Qed.

(** *** The same volume with no open files *)

Definition quiet_view : sview := mk_view demo_disk demo_bit false ∅.
Definition quiet_rest : srest := mk_rest demo_sb false true array_init 102 [] 1.
Definition quiet_st : sfs_st := mk_st (mk_fs demo_sb false true array_init (Some (mk_bitmap 4096 demo_map)) false) demo_lhd ∅ 102 [] 0.
Definition quiet_avol : avol := mk_avol {[name_a := 3]} {[3 := hello]} ∅.

Lemma quiet_mvol : mvol quiet_rest quiet_st quiet_view demo_inodes.
Proof.
  split; [|apply demo_fs_ok, map_empty_subseteq| |done].
  - split; try done; [apply demo_lhd_ready|]. exists (mk_bitmap 4096 demo_map). split; [done|]. destruct demo_bits as [H1 H2]. split; [split; [done|split; [done|done]]|].
    intros j Hj. change (8 ≤ j < 4096) in Hj. rewrite H2 by lia. apply bool_decide_eq_true. lia.
  - change (r_nblocks quiet_rest) with 8. split; [split; cbn; (done || lia)|cbn; lia|..].
    + intros sv. change (elems (r_vnodes quiet_rest)) with (@nil Z). cbn. rewrite lookup_empty, elem_of_nil. split; [done|by intros [? ?]].
    + apply NoDup_nil_2.
    + split; [cbn; lia|]. intros sv. cbn. rewrite lookup_empty. by intros [? ?].
    + intros sv x. cbn. by rewrite lookup_empty.
Qed.

Lemma quiet_repr : repr quiet_rest quiet_st quiet_avol.
Proof. exists quiet_rest, quiet_view, demo_inodes. split; [reflexivity|]. split; [apply quiet_mvol|]. split; cbn; [apply demo_freps|done|apply demo_wf]. Qed.

(** ** Programs *)

(** A new file is written and closed, looked up and read. *)
Definition store_fetch {U} (dv : Z) (nm : list Z) (u u' : U) : prog (call U) (answer U) :=
  PCall (CCreat dv nm true 0) (λ r,
    match r with
    | AVnode (Z0, v) =>
        PCall (CWrite v u) (λ _, PCall (CDecref v) (λ _, PCall (CLookup dv nm) (λ r,
          match r with
          | AVnode (Z0, v') => PCall (CRead v' u') (λ _, PEnd)
          | _ => PEnd
          end)))
    | _ => PEnd
    end).

(** The file [nm] with the inode number [ino] holds [c]. *)
Record stored (a : avol) (nm : list Z) (ino : Z) (c : list Z) : Prop := {
  st_name : a_names a !! nm = Some ino;
  st_data : a_data a !! ino = Some c;
  st_file : ino ≠ SFS_ROOTDIR_INO
}.

Lemma creat_stored a nm r a' : creat_spec a nm true r a' → r.1 = 0 →
  ∃ ino, stored a' nm ino [] ∧ a_open a !! r.2 = None ∧ a_open a' = <[r.2 := (ino, 1)]> (a_open a).
Proof.
  unfold creat_spec. destruct (a_names a !! nm) as [j|]; [intros [E _] E'; by rewrite E' in E|]. intros [[Hin _]|(_ & _ & ino & Hne & Hd & Ho & Hv & ->)] E; [rewrite E in Hin; set_solver|].
  exists ino. split; [|done]. split; cbn; [apply lookup_insert_eq|apply lookup_insert_eq|done].
Qed.

Section store.
Context {U : Type} {uops : UioOps U} {ulaws : UioLaws U}.

Lemma write_stored a nm ino (u : U) r a' : stored a nm ino [] → u_ready u → u_rw u = UIO_WRITE → u_offset u = 0 → write_spec a ino [] u r a' →
  a_open a' = a_open a ∧ ∃ c, stored a' nm ino c ∧ (r.1 = 0 → c = take (Z.to_nat (u_resid u)) (u_todo u)).
Proof using.
  intros [H1 H2 H3] Hu Hrw Ho (m & Hm & _ & Ha & Hr). destruct (Nat.eqb_spec m 0) as [->|Hm0]; subst a'.
  - split; [done|]. exists []. split; [done|]. intros E. rewrite E in Hr. cbn in Hr. by rewrite <-Hr.
  - split; [done|]. exists (take m (u_todo u)). split.
    + split; [done| |done]. cbn. rewrite lookup_insert_eq, Ho. unfold file_write. cbn. by rewrite drop_nil, app_nil_r.
    + intros E. rewrite E in Hr. cbn in Hr. by rewrite <-Hr, Nat2Z.id.
Qed.

Lemma unref_stored a nm ino c v : stored a nm ino c → a_open a !! v = Some (ino, 1) → stored (a_unref v ino 1 a) nm ino c ∧ a_open (a_unref v ino 1 a) = delete v (a_open a).
Proof using.
  intros [H1 H2 H3] Hv. unfold a_unref. cbn [Z.ltb Z.compare Pos.compare Pos.compare_cont]. rewrite a_gc_keep.
  - done.
  - left. cbn. pose proof (links_pos _ _ _ H1). lia.
Qed.

Lemma look_stored a nm ino c r a' : stored a nm ino c → lookup_spec a nm r a' → r.1 = 0 → vnode_of a' r.2 = Some ino ∧ a_data a' !! ino = Some c ∧ is_Some (a_open a' !! r.2).
Proof using.
  intros [H1 H2 H3]. unfold lookup_spec, look_spec. rewrite H1. intros [[-> _]|(_ & Hv & ->)] E; [done|]. unfold vnode_of. cbn. rewrite lookup_insert_eq. by split.
Qed.

Lemma not_root a v ino : vnode_of a v = Some ino → ino ≠ SFS_ROOTDIR_INO → is_root a v = false ∧ (file_of a v).1 = ino.
Proof using. intros Hv Hne. unfold is_root, file_of. rewrite Hv. split; [|done]. apply bool_decide_eq_false. congruence. Qed.

(** The answers of [store_fetch] when nothing fails, with the transfer of the
    read at the end *)
Definition fetched (rs : list (answer U)) (u2 : U) : Prop :=
  ∃ v u1 v' e, rs = [AVnode (0, v); AMoved (0, u1); ADone; AVnode (0, v'); AMoved (e, u2)].

Definition all_fine (rs : list (answer U)) : bool :=
  match rs with [AVnode (Z0, _); AMoved (Z0, _); ADone; AVnode (Z0, _); AMoved _] => true | _ => false end.
Lemma all_fine_fetched rs : all_fine rs = true → ∃ u2, fetched rs u2.
Proof using. intros H. unfold all_fine in H. repeat (case_match; try done). subst. match goal with r : Z * U |- _ => destruct r end. unfold fetched. by eexists _, _, _, _, _. Qed.

Lemma store_fetch_ensures a dv n nm (u u' : U) : a_open a !! dv = Some (SFS_ROOTDIR_INO, n) → a_names a !! nm = None → Forall (λ b, b ≠ 0) nm →
  small u → u_rw u = UIO_WRITE → u_offset u = 0 → small u' → u_rw u' = UIO_READ → u_offset u' = 0 →
  ensures a (store_fetch dv nm u u') (λ rs _, ∀ u2, fetched rs u2 →
    u_done u2 = u_done u' ++ take (Z.to_nat (u_resid u')) (take (Z.to_nat (u_resid u)) (u_todo u))).
Proof using.
  intros Hdv Hnm Hnz Hu Hrw Ho Hu' Hrw' Ho'. cbn [store_fetch ensures may sfs_calls permitted]. split; [by rewrite Hdv|].
  intros r a1 Hr. cbn [effect sfs_calls call_spec] in Hr. assert (is_root a dv = true) as Hroot by (unfold is_root, vnode_of; rewrite Hdv; by apply bool_decide_eq_true).
  rewrite Hroot in Hr. destruct Hr as ([e v] & -> & Hr). destruct e as [|e|e]; [|intros u2 (? & ? & ? & ? & E); by injection E..].
  destruct (creat_stored a nm _ a1 Hr eq_refl) as (ino & Hst & Hnew & Eo1). cbn [snd] in Hnew, Eo1. assert (a_open a1 !! v = Some (ino, 1)) as Hv by (rewrite Eo1; apply lookup_insert_eq). cbn [ensures may sfs_calls permitted]. split; [by rewrite Hv|].
  intros r a2 Hr2. cbn [effect sfs_calls call_spec] in Hr2. destruct (not_root a1 v ino) as [Hnr Hf]; [by unfold vnode_of; rewrite Hv|apply Hst|].
  rewrite Hnr in Hr2. unfold file_of in Hr2, Hf. unfold vnode_of in Hr2, Hf. rewrite Hv in Hr2. cbn in Hr2. rewrite (st_data _ _ _ _ Hst) in Hr2. destruct Hr2 as (r2 & -> & Hr2).
  destruct (write_stored a1 nm ino u r2 a2 Hst (proj1 Hu) Hrw Ho Hr2) as (Eo & c & Hst2 & Hc). cbn [ensures may sfs_calls permitted]. split; [by rewrite Eo, Hv|].
  intros r a3 [-> (j & m & Hj & ->)]. rewrite Eo, Hv in Hj. injection Hj as <- <-. assert (a_open a2 !! v = Some (ino, 1)) as Hv2 by (by rewrite Eo).
  destruct (unref_stored _ _ _ _ _ Hst2 Hv2) as [Hst3 Eo3]. assert (a_open (a_unref v ino 1 a2) !! dv = Some (SFS_ROOTDIR_INO, n)) as Hn3 by (assert (dv ≠ v) by congruence; rewrite Eo3, lookup_delete_ne, Eo, Eo1, lookup_insert_ne by done; done). cbn [ensures may sfs_calls permitted]. split; [by rewrite Hn3|].
  intros r a4 Hr4. cbn [effect sfs_calls call_spec] in Hr4. assert (is_root (a_unref v ino 1 a2) dv = true) as Hroot3 by (unfold is_root, vnode_of; rewrite Hn3; by apply bool_decide_eq_true).
  rewrite Hroot3 in Hr4. destruct Hr4 as ([e v'] & -> & Hr4). destruct e as [|e|e]; [|intros u2 (? & ? & ? & ? & E); by injection E..].
  destruct (look_stored _ _ _ _ _ _ Hst3 Hr4 eq_refl) as (Hv4 & Hd4 & Hop4). cbn [snd] in *. cbn [ensures may sfs_calls permitted]. split; [done|].
  intros r a5 Hr5. cbn [effect sfs_calls call_spec] in Hr5. destruct (not_root a4 v' ino Hv4 (st_file _ _ _ _ Hst)) as [Hnr5 _]. rewrite Hnr5 in Hr5. unfold file_of in Hr5. rewrite Hv4 in Hr5. cbn in Hr5.
  rewrite Hd4 in Hr5. destruct Hr5 as ([e u5] & -> & (_ & _ & _ & Hd)). intros u2 (v1 & u1 & v2 & e2 & E). injection E as _ E2 _ _ E5. subst r2 u5. cbn in Hd. rewrite Hd, Ho', <-(Hc eq_refl). done.
Qed.
End store.

(** ** Theorems *)

(** C7. A program that uses vnodes of a mounted volume, through the tables of
    operations and with any reaction to the answers, gets the answers of the
    abstract file system: the names of the directory, the contents of the
    files, link counts and references behave as the specification says, on
    success and on the errors it lists, no assertion fails and every operation
    returns. *)
Theorem sfs_refines {U} {uops : UioOps U} {ulaws : UioLaws U} R0 s a (p : prog (call U) (answer U)) :
  repr R0 s a → respects a p → ∃ rs s' a', run p s = Ok (rs, s') ∧ repr R0 s' a' ∧ session a p rs a'.
Proof. intros Hs Hp. destruct (proj1 (wp_run _ _ _) (run_session _ (sfs_calls_do R0) p a s Hp Hs)) as (rs & s' & E & a' & H1 & H2). eauto 6. Qed.

(** A new file that is written, closed, looked up by its name and read
    gives back the bytes that were written, unless one of the calls reports an
    error. *)
Theorem sfs_store_fetch {U} {uops : UioOps U} {ulaws : UioLaws U} R0 s a dv n nm (u u' : U) :
  repr R0 s a → a_open a !! dv = Some (SFS_ROOTDIR_INO, n) → a_names a !! nm = None → Forall (λ b, b ≠ 0) nm →
  small u → u_rw u = UIO_WRITE → u_offset u = 0 → small u' → u_rw u' = UIO_READ → u_offset u' = 0 →
  ∃ rs s', run (store_fetch dv nm u u') s = Ok (rs, s') ∧
    ∀ u2, fetched rs u2 → u_done u2 = u_done u' ++ take (Z.to_nat (u_resid u')) (take (Z.to_nat (u_resid u)) (u_todo u)).
Proof.
  intros Hs Hdv Hnm Hnz Hu Hrw Ho Hu' Hrw' Ho'. pose proof (store_fetch_ensures a dv n nm u u' Hdv Hnm Hnz Hu Hrw Ho Hu' Hrw' Ho') as Hp.
  destruct (proj1 (wp_run _ _ _) (run_ensures _ (sfs_calls_do R0) _ a s _ Hp Hs)) as (rs & s' & E & a' & _ & H). eauto.
Qed.

Definition name_b : list Z := [98].
Definition world : list Z := [119; 111; 114; 108; 100].
Definition put_world : kbuf := kuio world 5 0 UIO_WRITE.
Definition get_five : kbuf := kuio [] 5 0 UIO_READ.

Lemma put_world_small : small put_world.
Proof. split; [split|]; cbn; (done || lia). Qed.
Lemma get_five_small : small get_five.
Proof. split; [split|]; cbn; (done || lia). Qed.
Lemma name_b_nonzero : Forall (λ b, b ≠ 0) name_b.
Proof. by apply Forall_singleton. Qed.

Lemma sfs_refines_witness : ∃ rs s' a', run (store_fetch 100 name_b put_world get_five) demo_st = Ok (rs, s') ∧ repr demo_rest s' a' ∧ session demo_avol (store_fetch 100 name_b put_world get_five) rs a'.
Proof.
  apply (sfs_refines demo_rest demo_st demo_avol); [apply demo_repr|]. eapply ensures_respects.
  exact (store_fetch_ensures demo_avol 100 1 name_b put_world get_five eq_refl eq_refl name_b_nonzero put_world_small eq_refl eq_refl get_five_small eq_refl eq_refl).
Defined.

Lemma sfs_store_fetch_witness : ∃ rs s' u2, run (store_fetch 100 name_b put_world get_five) demo_st = Ok (rs, s') ∧ fetched rs u2 ∧ u_done u2 = world.
Proof.
  destruct (sfs_store_fetch demo_rest demo_st demo_avol 100 1 name_b put_world get_five demo_repr eq_refl eq_refl name_b_nonzero put_world_small eq_refl eq_refl get_five_small eq_refl eq_refl)
    as (rs & s' & E & H).
  assert (match run (store_fetch 100 name_b put_world get_five) demo_st with Ok (rs, _) => all_fine rs | _ => false end = true) as Hrun by (by vm_compute).
  rewrite E in Hrun. destruct (all_fine_fetched rs Hrun) as [u2 H2].
  exists rs, s', u2. split; [exact E|]. split; [exact H2|]. rewrite (H u2 H2). reflexivity.
Defined.

(** ** Blocks *)

(** The blocks of the disk of a volume *)
Definition disk_of (s : sfs_st) : list (list Z) := sectors (lh_card (s_lhd s)).

(** The inodes [I] are those of the vnodes in memory and of the disk, with
    the root directory and the files its names lead to. *)
Record inodes_of (s : sfs_st) (I : gmap Z sfs_dinode) : Prop := {
  io_memory v x : s_nodes s !! v = Some x → I !! sv_ino x = Some (sv_i x);
  io_disk ino i : I !! ino = Some i → (∀ v x, s_nodes s !! v = Some x → sv_ino x ≠ ino) → dinode_of (sector (disk_of s) ino) = i;
  io_root : ∃ i, I !! SFS_ROOTDIR_INO = Some i ∧ ∀ nm ino, dir_of (dirents (contents (disk_of s) i)) !! nm = Some ino → is_Some (I !! ino)
}.

Lemma repr_blocks R0 s a : repr R0 s a → ∃ I b, inodes_of s I ∧ sfs_freemap (s_fs s) = Some b ∧ use_ok (r_nblocks R0) (bit b) (uses (r_nblocks R0) (disk_of s) I).
Proof.
  intros (R & w & I & Hst & [Hs Hok Ht Hsm] & [F O W]). rewrite <-(stable_nblocks _ _ Hst). destruct Hs as [S1 S2 S3 S4 S5 S6 S7]. destruct S3 as (b & Hb & (Hbw & [Hnb _] & Hbit) & _).
  assert (disk_of s = w_disk w) as HD by (by rewrite <-(lr_sectors _ _ S2)). assert (s_nodes s = w_nodes w) as HN by done. exists I, b. split.
  - split; rewrite ?HD, ?HN; [apply (ok_node _ _ _ Hok)|intros ino i Hi Hc; apply (ok_synced _ _ _ Hok); [done|]; intros v x Hx E; by destruct (Hc v x)|]. destruct (fr_root _ _ _ _ _ F) as (i & Hi & Hr). exists i. split; [done|]. intros nm ino. rewrite (ro_names _ _ _ Hr). intros Hnm.
    destruct (aw_names _ W _ _ Hnm) as [c Hc]. destruct (freps_lookup _ _ _ _ _ _ _ F Hc) as (_ & i' & Hi' & _). by rewrite Hi'.
  - split; [done|]. rewrite HD. destruct (ok_use _ _ _ Hok) as [U1 U2 U3]. split; [done| |done]. intros r x Hx. rewrite Hbit; [by eapply U2|]. specialize (U1 _ _ Hx). lia.
Qed.

(** C9. Whatever a program does, no two uses share a block: the superblock, the
    free map, the inodes, the indirect blocks and the data blocks of all files
    are different blocks inside the volume, and the free map in memory marks
    each of them. *)
Theorem sfs_blocks_safe {U} {uops : UioOps U} {ulaws : UioLaws U} R0 s a (p : prog (call U) (answer U)) :
  repr R0 s a → respects a p →
  ∃ rs s' I b, run p s = Ok (rs, s') ∧ inodes_of s' I ∧ sfs_freemap (s_fs s') = Some b ∧ use_ok (r_nblocks R0) (bit b) (uses (r_nblocks R0) (disk_of s') I).
Proof.
  intros Hs Hp. destruct (proj1 (wp_run _ _ _) (run_session _ (sfs_calls_do R0) p a s Hp Hs)) as (rs & s' & E & a' & Hs' & _). destruct (repr_blocks _ _ _ Hs') as (I & b & H). by exists rs, s', I, b.
Qed.

Lemma sfs_blocks_safe_witness : ∃ rs s' I b, run (store_fetch 100 name_b put_world get_five) demo_st = Ok (rs, s') ∧ inodes_of s' I ∧ sfs_freemap (s_fs s') = Some b ∧ use_ok 8 (bit b) (uses 8 (disk_of s') I).
Proof.
  apply (sfs_blocks_safe demo_rest demo_st demo_avol (store_fetch 100 name_b put_world get_five) demo_repr). eapply ensures_respects.
  exact (store_fetch_ensures demo_avol 100 1 name_b put_world get_five eq_refl eq_refl name_b_nonzero put_world_small eq_refl eq_refl get_five_small eq_refl eq_refl).
Defined.

(** ** Mounting *)

(** C8. A volume without open files that is synchronized, unmounted and mounted
    again has the same names and contents; only a lack of memory can prevent
    the mount. *)
Theorem sfs_remount R0 s a : repr R0 s a → r_superdirty R0 = false → a_open a = ∅ →
  ∃ r s', remount s = Ok ((0, 0, r), s') ∧ (r = ENOMEM ∨ (r = 0 ∧ ∃ R, r_nblocks R = r_nblocks R0 ∧ repr R s' a)).
Proof.
  intros Hs Hd Ho. destruct (proj1 (wp_run _ _ _) (wp_remount R0 s a Hs Hd Ho)) as ([r1 r] & s' & E & E1 & H). cbn in E1, H. subst r1. exists r, s'. split; [done|].
  destruct H as [?|(? & R & H1 & _ & H2)]; eauto 6.
Qed.

Lemma sfs_remount_witness : ∃ s' R, remount quiet_st = Ok ((0, 0, 0), s') ∧ r_nblocks R = 8 ∧ repr R s' quiet_avol.
Proof.
  destruct (sfs_remount quiet_rest quiet_st quiet_avol quiet_repr eq_refl eq_refl) as (r & s' & E & H).
  assert (match remount quiet_st with Ok (r, _) => r.2 | _ => 1 end = 0) as Hrun by (by vm_compute). rewrite E in Hrun. cbn in Hrun. subst r.
  destruct H as [H|(_ & R & H1 & H2)]; [discriminate H|]. exists s', R. split; [exact E|]. split; [exact H1|exact H2].
Defined.

(** A volume with open vnodes is not unmounted: the result is [EBUSY] and
    nothing changes for its users. *)
Theorem sfs_unmount_busy R0 s a : repr R0 s a → a_open a ≠ ∅ → ∃ s', sfs_unmount s = Ok (EBUSY, s') ∧ repr R0 s' a.
Proof. intros Hs Ho. destruct (proj1 (wp_run _ _ _) (wp_unmount_busy R0 s a Hs Ho)) as (r & s' & E & -> & H). eauto. Qed.

(** ** Truncating *)

(** C34. [sfs_itrunc] sets the size and frees exactly these blocks: of the 15
    direct blocks those from the new end on, of the indirect ones those behind
    the first block past the new end, and none of them when the new end is in
    the last two blocks.  Freed blocks are free in the map, and the blocks of
    other files stay. *)
Theorem sfs_itrunc_blocks R s w I v x len : mvol R s w I → w_nodes w !! v = Some x → 0 ≤ len < 2 ^ 31 →
  let kept k := if (k <? 15)%nat then (k <? blocks_for len)%nat else (142 <=? blocks_for len)%nat || (k <=? blocks_for len)%nat in
  ∃ s' w' i', sfs_itrunc v len s = Ok (0, s') ∧ mounted R s' w' ∧ fs_ok (r_nblocks R) w' (<[sv_ino x := i']> I) ∧ sfi_size i' = len ∧
    (∀ k, bmap_of (w_disk w') i' k = if kept k then bmap_of (w_disk w) (sv_i x) k else 0) ∧
    (∀ k, kept k = false → bmap_of (w_disk w) (sv_i x) k ≠ 0 → w_bit w' (bmap_of (w_disk w) (sv_i x) k) = false) ∧
    (∀ j ij k, I !! j = Some ij → j ≠ sv_ino x → fblock (w_disk w') ij k = fblock (w_disk w) ij k).
Proof.
  intros [Hs Hok Ht Hsm] Hx Hlen kept. destruct (blocks_for_code len Hlen) as [Hbl _].
  destruct (proj1 (wp_run _ _ _) (wp_itrunc R w I Hok v x Hx (blocks_for len) s len Hs Hbl)) as (r & s' & E & -> & w' & i' & Hm & Htr). exists s', w', i'.
  split; [done|]. split; [done|]. split; [apply Htr|]. split; [rewrite (tr_size _ _ _ _ _ _ _ _ _ Htr); apply u32_id; lia|]. split; [apply (tr_map _ _ _ _ _ _ _ _ _ Htr)|].
  split; [apply (tr_freed _ _ _ _ _ _ _ _ _ Htr)|apply (tr_other _ _ _ _ _ _ _ _ _ Htr)].
Qed.

Lemma sfs_itrunc_blocks_witness : ∃ s' w' i', sfs_itrunc 101 0 demo_st = Ok (0, s') ∧ mounted demo_rest s' w' ∧ sfi_size i' = 0 ∧ bmap_of (w_disk w') i' 0 = 0 ∧ w_bit w' 4 = false.
Proof.
  destruct (sfs_itrunc_blocks demo_rest demo_st demo_view demo_inodes 101 file_v 0 demo_mvol eq_refl ltac:(lia)) as (s' & w' & i' & H1 & H2 & _ & H3 & H4 & H5 & _).
  exists s', w', i'. split; [exact H1|]. split; [exact H2|]. split; [exact H3|]. split; [exact (H4 0%nat)|]. apply (H5 0%nat); [reflexivity|discriminate].
Defined.

(** A file that is cut inside its last block and grows back has its old bytes. *)
Lemma cut_and_grown R w I v x len w1 i1 R' I' v' x1 l w2 i2 c n :
  truncated R w I v x (blocks_for len) len w1 i1 → truncated R' w1 I' v' x1 (blocks_for l) l w2 i2 → sv_i x1 = i1 →
  file_is (w_disk w) (sv_i x) c n → 0 ≤ sfi_size (sv_i x) → l = Z.of_nat (length c) → 0 ≤ len ≤ l → l ≤ 512 * Z.of_nat (blocks_for len) → file_is (w_disk w2) i2 c n.
Proof.
  intros H1 H2 Ex [F1 F2 F3 F4 F5] Hpos -> Hlen Hb. subst i1. assert (sfi_size (sv_i x) = Z.of_nat (length c)) as Hsz by (rewrite <-F2; unfold contents; rewrite length_range; lia).
  destruct (blocks_for_code len ltac:(lia)) as [_ B1]. destruct (blocks_for_code (Z.of_nat (length c)) ltac:(lia)) as [_ B2].
  assert (∀ m, Z.of_nat m < Z.of_nat (length c) → raw (w_disk w2) i2 m = raw (w_disk w) (sv_i x) m) as Hraw.
  { intros m Hm. rewrite (truncated_raw _ _ _ _ _ _ _ _ _ H2), (truncated_keeps _ (Z.of_nat (length c)) ltac:(lia) B2), (truncated_raw _ _ _ _ _ _ _ _ _ H1) by (by left).
    by rewrite (truncated_keeps _ len ltac:(lia) B1) by (right; lia). }
  split; [by rewrite (tr_type _ _ _ _ _ _ _ _ _ H2), (tr_type _ _ _ _ _ _ _ _ _ H1)| | | |by rewrite (tr_links _ _ _ _ _ _ _ _ _ H2), (tr_links _ _ _ _ _ _ _ _ _ H1)].
  - rewrite <-F2 at 1. unfold contents. rewrite (tr_size _ _ _ _ _ _ _ _ _ H2), u32_id, Hsz by lia. unfold range. apply list_fmap_ext. intros k m Hm%lookup_seq. apply Hraw. lia.
  - intros m. rewrite (tr_size _ _ _ _ _ _ _ _ _ H2), u32_id by lia. intros Hm. rewrite (truncated_raw _ _ _ _ _ _ _ _ _ H2). destruct (keeps _ _); [|done].
    rewrite (truncated_raw _ _ _ _ _ _ _ _ _ H1). destruct (keeps _ _); [|done]. apply F3. lia.
  - rewrite (tr_size _ _ _ _ _ _ _ _ _ H2), u32_id by lia. lia.
Qed.

(** C35. Cutting a file does not erase the rest of its last block: when a file is
    cut to [len] bytes and then set to its old size with [sfs_truncate], the
    bytes that were cut off are back instead of zeros, provided the old end is
    in the same block. *)
Theorem sfs_truncate_reveals R0 s a v ino n c len :
  repr R0 s a → a_open a !! v = Some (ino, n) → a_data a !! ino = Some c → 0 ≤ len ≤ Z.of_nat (length c) → Z.of_nat (length c) ≤ 512 * Z.of_nat (blocks_for len) →
  ∃ s1 x1 s2, sfs_truncate v len s = Ok (0, s1) ∧ s_nodes s1 !! v = Some x1 ∧ sfi_size (sv_i x1) = len ∧
    sfs_truncate v (Z.of_nat (length c)) s1 = Ok (0, s2) ∧ repr R0 s2 a.
Proof.
  intros (R & w & I & Hst & Hm & Hr) Ho Hc Hlen Hb. destruct (open_node w I a v ino n Hr Ho) as (x & Hx & Hxo & _).
  destruct (freps_lookup _ _ _ _ _ _ _ (rp_files _ _ _ Hr) Hc) as (Hne & i & Hi & Hf). pose proof (ok_node _ _ _ (mv_ok _ _ _ _ Hm) v x Hx) as Hxi. rewrite Hxo, Hi in Hxi. injection Hxi as ->.
  destruct (ok_inode _ _ _ (mv_ok _ _ _ _ Hm) _ _ Hi) as [Hsz _ _ _ _].
  assert (sfi_size (sv_i x) = Z.of_nat (length c)) as Hsize by (rewrite <-(fi_contents _ _ _ _ Hf); unfold contents; rewrite length_range; lia). pose proof (fi_size _ _ _ _ Hf) as Hmax.
  destruct (proj1 (wp_run _ _ _) (truncate_mvol R w I v x len s Hm Hx ltac:(lia))) as (r & s1 & E1 & -> & w1 & i1 & Hm1 & H1). pose proof (tr_nodes _ _ _ _ _ _ _ _ _ H1) as Hn1.
  set (x1 := set_sv_dirty true (set_sv_i i1 x)) in *. assert (w_nodes w1 !! v = Some x1) as Hx1 by (rewrite Hn1; apply lookup_insert_eq).
  destruct (proj1 (wp_run _ _ _) (truncate_mvol R w1 _ v x1 (Z.of_nat (length c)) s1 Hm1 Hx1 ltac:(lia))) as (r & s2 & E2 & -> & w2 & i2 & Hm2 & H2). pose proof (tr_nodes _ _ _ _ _ _ _ _ _ H2) as Hn2.
  exists s1, x1, s2. split; [done|]. split; [by rewrite <-Hx1, <-(sh_nodes _ _ _ (mv_mounted _ _ _ _ Hm1))|]. split; [cbn; rewrite (tr_size _ _ _ _ _ _ _ _ _ H1); apply u32_id; lia|]. split; [done|].
  change (sv_ino x1) with (sv_ino x) in Hm2. rewrite insert_insert_eq, Hxo in Hm2. exists R, w2, (<[ino := i2]> I). split; [done|]. split; [done|].
  replace a with (set_a_data (<[ino := c]> (a_data a)) a) by (unfold set_a_data; rewrite insert_id by done; by destruct a).
  eapply (reps_update w I a v x); [done|done|done|done|rewrite Hn2, Hn1; apply insert_insert_eq|done|done|exact (cut_and_grown R w I v x len w1 i1 R _ v x1 _ w2 i2 c _ H1 H2 eq_refl Hf ltac:(lia) eq_refl Hlen Hb)|].
  intros j ij k Hj Hjne. rewrite (tr_other _ _ _ _ _ _ _ _ _ H2 j ij k); [|by rewrite lookup_insert_ne by congruence|cbn; congruence]. apply (tr_other _ _ _ _ _ _ _ _ _ H1 j); [done|congruence].
Qed.

Lemma sfs_truncate_reveals_witness : ∃ s1 x1 s2, sfs_truncate 101 2 demo_st = Ok (0, s1) ∧ s_nodes s1 !! 101 = Some x1 ∧ sfi_size (sv_i x1) = 2 ∧ sfs_truncate 101 5 s1 = Ok (0, s2) ∧ repr demo_rest s2 demo_avol.
Proof. apply (sfs_truncate_reveals demo_rest demo_st demo_avol 101 3 1 hello 2 demo_repr eq_refl eq_refl); [cbn; lia|by vm_compute]. Defined.

(** ** Errors of the disk *)

(** C36. A write error of the disk is lost: when the card reports a media error
    for the block, [sfs_writeblock] returns 0 although the disk is as before. *)
Theorem sfs_write_lost s D l n data : lhd_ready D l → s_lhd s = push_code LHD_MEDIA l → 0 < vfs_biglock_depth s → 0 ≤ n < Z.of_nat (length D) → length data = 512%nat →
  ∃ s', sfs_writeblock n data s = Ok (0, s') ∧ disk_of s' = D.
Proof.
  intros Hl Es Hd Hn Hlen. apply (wp_writeblock_media s D l n data (λ r s', r = 0 ∧ disk_of s' = D)) in Hd; [|done..|].
  - destruct (proj1 (wp_run _ _ _) Hd) as (r & s' & E & -> & H). eauto.
  - intros l' Hl'. split; [done|]. apply Hl'.
Qed.

Lemma sfs_write_lost_witness : ∃ s', sfs_writeblock 6 (replicate 512 1) (set_depth 1 (set_s_lhd (push_code LHD_MEDIA demo_lhd) demo_st)) = Ok (0, s') ∧ disk_of s' = demo_disk.
Proof. apply (sfs_write_lost _ demo_disk demo_lhd); [apply demo_lhd_ready|reflexivity|cbn; lia|cbn; lia|reflexivity]. Defined.
