(* ===== verification/Device.v ===== *)
(** * Devices as files ([kern/vfs/device.c], [kern/vfs/devnull.c])

    A device has a driver, which is one of the tables of operations of
    [kern/include/device.h], and a vnode whose operations hand off to the
    driver.  The code works on any state [St] that holds the devices and
    their vnodes. *)

From S2P Require Import Prelude Machine Spinlock Pt Kernel Xfer Vnode.

(** [struct device]; [dev_driver] stands for [d_ops] and [d_data] *)
Record device : Type := mk_device { dev_driver : Z; dev_blocks : Z; dev_blocksize : Z; dev_devnumber : Z }.
Definition set_dev_devnumber (x : Z) (d : device) : device := mk_device (dev_driver d) (dev_blocks d) (dev_blocksize d) x.

(** [struct device_ops] *)
Record device_ops (St U : Type) : Type := mk_device_ops {
  devop_eachopen : Z → Z → M St Z;
  devop_io : Z → U → M St (Z * U);
  devop_ioctl : Z → Z → Z → M St Z
}.
Arguments mk_device_ops {St U}.
Arguments devop_eachopen {St U}.
Arguments devop_io {St U}.
Arguments devop_ioctl {St U}.

(** The vnode of a device: its references and [vn_data], which is NULL for a
    file system that is no device *)
Record dvnode : Type := mk_dvnode { dn_refcount : Z; dn_data : option Z }.

Record devices : Type := mk_devices { dv_devs : gmap Z device; dv_nodes : gmap Z dvnode; dv_next : Z }.
Definition set_dv_devs (x : gmap Z device) (s : devices) : devices := mk_devices x (dv_nodes s) (dv_next s).
Definition set_dv_nodes (x : gmap Z dvnode) (s : devices) : devices := mk_devices (dv_devs s) x (dv_next s).
Definition set_dv_next (x : Z) (s : devices) : devices := mk_devices (dv_devs s) (dv_nodes s) x.

(** ** Vnodes of devices *)

(** Addresses of vnodes that are in use are never handed out again. *)
Definition dev_create_vnode (kmalloc : bool) (dev : option Z) : M devices (option Z) :=
  if negb kmalloc then mret None
  else
    v ← gets dv_next;
    modify (λ s, set_dv_next (v - 1) (set_dv_nodes (<[v := mk_dvnode 1 dev]> (dv_nodes s)) s)) ;;
    mret (Some v).

Definition get_dvnode (v : Z) : M devices dvnode := m ← gets dv_nodes; deref (m !! v).

Definition dev_uncreate_vnode (v : Z) : M devices () :=
  n ← get_dvnode v;
  kassert (dn_refcount n =? 1) "vn->vn_refcount == 1" ;;
  modify (λ s, set_dv_nodes (delete v (dv_nodes s)) s).

Definition dev_incref (v : Z) : M devices () :=
  n ← get_dvnode v;
  modify (λ s, set_dv_nodes (<[v := mk_dvnode (dn_refcount n + 1) (dn_data n)]> (dv_nodes s)) s).

(** The last reference goes to [dev_reclaim], which does nothing. *)
Definition dev_reclaim (v : Z) : M devices Z := mret 0.
Definition dev_decref (v : Z) : M devices () :=
  n ← get_dvnode v;
  kassert (0 <? dn_refcount n) "vn->vn_refcount > 0" ;;
  if 1 <? dn_refcount n then modify (λ s, set_dv_nodes (<[v := mk_dvnode (dn_refcount n - 1) (dn_data n)]> (dv_nodes s)) s)
  else dev_reclaim v ;; mret tt.

Definition dev_check (v : Z) : M devices () :=
  n ← get_dvnode v;
  if dn_refcount n <? 0 then halt (Panic "vnode_check: negative refcount")
  else if dn_refcount n =? 0 then halt (Panic "vnode_check: zero refcount")
  else mret tt.

(** The device of a vnode *)
Definition get_dev (v : Z) : M devices (Z * device) :=
  n ← get_dvnode v;
  d ← deref (dn_data n);
  m ← gets dv_devs;
  dev ← deref (m !! d);
  mret (d, dev).

(** A block device needs aligned positions on the device. *)
Definition dev_tryseek (d : device) (pos : Z) : Z :=
  if 0 <? dev_blocks d then
    if negb (Z.rem pos (dev_blocksize d) =? 0) then EINVAL
    else if dev_blocks d <=? Z.quot pos (dev_blocksize d) then EINVAL
    else 0
  else 0.

Definition dev_gettype (v : Z) : M devices (Z * Z) :=
  d ← get_dev v;
  mret (0, if 0 <? dev_blocks d.2 then S_IFBLK else S_IFCHR).

Definition dev_stat (v : Z) : M devices (Z * stat) :=
  d ← get_dev v;
  let d := d.2 in
  let size := if 0 <? dev_blocks d then u32 (dev_blocks d * dev_blocksize d) else 0 in
  let blksize := if 0 <? dev_blocks d then dev_blocksize d else 0 in
  dev_check v ;;
  r ← dev_gettype v;
  if negb (r.1 =? 0) then mret (r.1, mk_stat size 0 0 0 0 0 blksize)
  else mret (0, mk_stat size (Z.lor r.2 0x180) 1 (dev_blocks d) 0 (dev_devnumber d) blksize).

Definition dev_isseekable (v : Z) : M devices bool :=
  d ← get_dev v;
  mret (negb (dev_blocks d.2 =? 0)).

Definition null_fsync (v : Z) : M devices Z := mret 0.
Definition dev_mmap (v : Z) : M devices Z := mret ENOSYS.

Definition dev_truncate (v len : Z) : M devices Z :=
  d ← get_dev v;
  mret (if (0 <? dev_blocks d.2) && (u32 (dev_blocks d.2 * dev_blocksize d.2) =? len) then 0 else EINVAL).

(** The path of a device itself is empty. *)
Definition dev_lookup (dir : Z) (pathname : list Z) : M devices (Z * Z) :=
  if (0 <? Z.of_nat (length pathname)) then mret (ENOENT, 0)
  else
    dev_incref dir ;;
    mret (0, dir).

Section dev.
Context {St U : Type} {uops : UioOps U}.
Context (dget : St → devices) (dset : devices → St → St) (drivers : Z → device_ops St U).

Definition on_devs {A} (m : M devices A) : M St A := zoom dget dset m.

Definition dev_eachopen (v flags : Z) : M St Z :=
  d ← on_devs (get_dev v);
  if negb (Z.land flags (Z.lor (Z.lor O_CREAT O_TRUNC) (Z.lor O_EXCL O_APPEND)) =? 0) then mret EINVAL
  else devop_eachopen (drivers (dev_driver d.2)) d.1 flags.

Definition dev_read (v : Z) (u : U) : M St (Z * U) :=
  d ← on_devs (get_dev v);
  let result := dev_tryseek d.2 (u_offset u) in
  if negb (result =? 0) then mret (result, u)
  else
    kassert (bool_decide (u_rw u = UIO_READ)) "uio->uio_rw == UIO_READ" ;;
    devop_io (drivers (dev_driver d.2)) d.1 u.

Definition dev_write (v : Z) (u : U) : M St (Z * U) :=
  d ← on_devs (get_dev v);
  let result := dev_tryseek d.2 (u_offset u) in
  if negb (result =? 0) then mret (result, u)
  else
    kassert (bool_decide (u_rw u = UIO_WRITE)) "uio->uio_rw == UIO_WRITE" ;;
    devop_io (drivers (dev_driver d.2)) d.1 u.

Definition dev_ioctl (v op data : Z) : M St Z :=
  d ← on_devs (get_dev v);
  devop_ioctl (drivers (dev_driver d.2)) d.1 op data.

Definition dev_namefile (v : Z) (u : U) : M St (Z * U) := mret (0, u).

Definition dev_vnode_ops : vnode_ops St U := {|
  vop_eachopen := dev_eachopen;
  vop_reclaim v := on_devs (dev_reclaim v);
  vop_read := dev_read;
  vop_readlink := vopfail_uio_inval;
  vop_getdirentry := vopfail_uio_notdir;
  vop_write := dev_write;
  vop_ioctl := dev_ioctl;
  vop_stat v := on_devs (dev_stat v);
  vop_gettype v := on_devs (dev_gettype v);
  vop_isseekable v := on_devs (dev_isseekable v);
  vop_fsync v := on_devs (null_fsync v);
  vop_mmap v := on_devs (dev_mmap v);
  vop_truncate v len := on_devs (dev_truncate v len);
  vop_namefile := dev_namefile;
  vop_creat := vopfail_creat_notdir;
  vop_symlink := vopfail_symlink_notdir;
  vop_mkdir := vopfail_mkdir_notdir;
  vop_link := vopfail_link_notdir;
  vop_remove := vopfail_string_notdir;
  vop_rmdir := vopfail_string_notdir;
  vop_rename := vopfail_rename_notdir;
  vop_lookup dir path := on_devs (dev_lookup dir path);
  vop_lookparent := vopfail_lookparent_notdir
|}.

(** ** The null device *)

Definition nullopen (dev openflags : Z) : M St Z := mret 0.
Definition nullio (dev : Z) (u : U) : M St (Z * U) :=
  mret (0, if decide (u_rw u = UIO_WRITE) then u_set_resid 0 u else u).
Definition nullioctl (dev op data : Z) : M St Z := mret EINVAL.
Definition null_devops : device_ops St U := mk_device_ops nullopen nullio nullioctl.
End dev.
