(* ===== verification/Vfs.v ===== *)
(** * The VFS layer: devices and mounts ([kern/vfs/vfslist.c])

    The list of known devices with the file systems mounted on them, for any
    system [St] of vnodes, file systems and devices that provides [VfsSys].
    The state adds to the system the global variables of the VFS layer and,
    of the current process, its lock and its current directory. *)

From S2P Require Import Prelude Machine Spinlock Pt Kernel Xfer Array Vnode.

(** What the VFS layer uses of the rest of the kernel: the table of a vnode
    after [vnode_check], its references and its file system, the table of a
    file system, the big lock, and the vnodes and numbers of devices.  A
    vnode, a file system and a device are numbers. *)
Class VfsSys (St U : Type) : Type := {
  sys_ops : Z → M St (vnode_ops St U);
  sys_incref : Z → M St ();
  sys_decref : Z → M St ();
  sys_fs : Z → M St (option Z);
  sys_fsops : Z → M St (fs_ops St);
  sys_acquire : M St ();
  sys_release : M St ();
  sys_held : M St bool;
  sys_create : bool → option Z → M St (option Z);
  sys_uncreate : Z → M St ();
  sys_setnumber : Z → Z → M St ()
}.

(** [kd_fs]: NULL, the placeholder of a swap device, or a file system *)
Inductive mounted_fs : Type := NO_FS | SWAP_FS | FS (fs : Z).
#[export] Instance mounted_fs_eq_dec : EqDecision mounted_fs.
Proof. solve_decision. Defined.

Record knowndev : Type := mk_kd { kd_name : list Z; kd_rawname : option (list Z); kd_device : option Z; kd_vnode : Z; kd_fs : mounted_fs }.
Definition set_kd_fs (x : mounted_fs) (k : knowndev) : knowndev := mk_kd (kd_name k) (kd_rawname k) (kd_device k) (kd_vnode k) x.

(** [knowndevs] is an array of pointers to the structures in [v_kds]; the next
    one gets the address [v_next]. *)
Record vfs (St : Type) : Type := mk_vfs {
  v_sys : St;
  knowndevs : array;
  v_kds : gmap Z knowndev;
  v_next : Z;
  v_mallocs : list bool;
  bootfs_vnode : option Z;
  v_cpu : cpu;
  cur_lock : spinlock;
  cur_cwd : option Z
}.
Arguments mk_vfs {St}.
Arguments v_sys {St}.
Arguments knowndevs {St}.
Arguments v_kds {St}.
Arguments v_next {St}.
Arguments v_mallocs {St}.
Arguments bootfs_vnode {St}.
Arguments v_cpu {St}.
Arguments cur_lock {St}.
Arguments cur_cwd {St}.

Section setters.
Context {St : Type}.
Definition set_v_sys (x : St) (s : vfs St) : vfs St := mk_vfs x (knowndevs s) (v_kds s) (v_next s) (v_mallocs s) (bootfs_vnode s) (v_cpu s) (cur_lock s) (cur_cwd s).
Definition set_knowndevs (x : array) (s : vfs St) : vfs St := mk_vfs (v_sys s) x (v_kds s) (v_next s) (v_mallocs s) (bootfs_vnode s) (v_cpu s) (cur_lock s) (cur_cwd s).
Definition set_v_kds (x : gmap Z knowndev) (s : vfs St) : vfs St := mk_vfs (v_sys s) (knowndevs s) x (v_next s) (v_mallocs s) (bootfs_vnode s) (v_cpu s) (cur_lock s) (cur_cwd s).
Definition set_v_next (x : Z) (s : vfs St) : vfs St := mk_vfs (v_sys s) (knowndevs s) (v_kds s) x (v_mallocs s) (bootfs_vnode s) (v_cpu s) (cur_lock s) (cur_cwd s).
Definition set_v_mallocs (x : list bool) (s : vfs St) : vfs St := mk_vfs (v_sys s) (knowndevs s) (v_kds s) (v_next s) x (bootfs_vnode s) (v_cpu s) (cur_lock s) (cur_cwd s).
Definition set_bootfs (x : option Z) (s : vfs St) : vfs St := mk_vfs (v_sys s) (knowndevs s) (v_kds s) (v_next s) (v_mallocs s) x (v_cpu s) (cur_lock s) (cur_cwd s).
Definition set_locks (x : cpu * spinlock) (s : vfs St) : vfs St := mk_vfs (v_sys s) (knowndevs s) (v_kds s) (v_next s) (v_mallocs s) (bootfs_vnode s) x.1 x.2 (cur_cwd s).
Definition set_cwd (x : option Z) (s : vfs St) : vfs St := mk_vfs (v_sys s) (knowndevs s) (v_kds s) (v_next s) (v_mallocs s) (bootfs_vnode s) (v_cpu s) (cur_lock s) x.
End setters.

Section vfs.
Context {St U : Type} {sys : VfsSys St U}.

Definition on_sys {A} (m : M St A) : M (vfs St) A := zoom v_sys set_v_sys m.

(** [__VOP], [VOP_INCREF], [VOP_DECREF] and the calls of a file system *)
Definition vop {A} (v : Z) (op : vnode_ops St U → M St A) : M (vfs St) A := on_sys (o ← sys_ops v; op o).
Definition vop_incref (v : Z) : M (vfs St) () := on_sys (sys_incref v).
Definition vop_decref (v : Z) : M (vfs St) () := on_sys (sys_decref v).
Definition fsop {A} (fs : Z) (op : fs_ops St → M St A) : M (vfs St) A := on_sys (o ← sys_fsops fs; op o).

Definition biglock_acquire : M (vfs St) () := on_sys sys_acquire.
Definition biglock_release : M (vfs St) () := on_sys sys_release.
Definition biglock_held : M (vfs St) bool := on_sys sys_held.

Definition v_malloc : M (vfs St) bool :=
  l ← gets v_mallocs;
  modify (set_v_mallocs (tail l)) ;;
  mret (default true (head l)).

(** ** The array of devices *)

Definition on_knowndevs {A} (m : M array A) : M (vfs St) A := zoom knowndevs set_knowndevs m.
Definition knowndevarray_num : M (vfs St) Z := on_knowndevs array_num.
Definition knowndevarray_get (i : Z) : M (vfs St) Z := on_knowndevs (array_get i).
Definition knowndevarray_add (kd : Z) : M (vfs St) (Z * option Z) :=
  ok ← v_malloc;
  on_knowndevs (array_add (λ n, if (ok : bool) then Some (replicate (Z.to_nat (n / PTR)) 0) else None) kd).
Definition get_kd (p : Z) : M (vfs St) knowndev := m ← gets v_kds; deref (m !! p).
Definition put_kd_fs (p : Z) (x : mounted_fs) : M (vfs St) () :=
  k ← get_kd p;
  modify (λ s, set_v_kds (<[p := set_kd_fs x k]> (v_kds s)) s).

(** ** Names *)

Definition named (name : list Z) (o : option (list Z)) : bool := bool_decide (o = Some name).

Definition vfs_sync : M (vfs St) Z :=
  biglock_acquire ;;
  num ← knowndevarray_num;
  for_list (seqZ 0 num) (λ i,
    p ← knowndevarray_get i;
    dev ← get_kd p;
    match kd_fs dev with
    | FS fs => fsop fs fsop_sync ;; mret tt
    | _ => mret tt
    end) ;;
  biglock_release ;;
  mret 0.

(** The file system or the device called [devname]; [None] when this is
    another one *)
Definition root_of_dev (kd : knowndev) (devname : list Z) : M (vfs St) (option (Z * Z)) :=
  let same := bool_decide (kd_name kd = devname) in
  r ← match kd_fs kd with
      | FS fs =>
          volname ← fsop fs fsop_getvolname;
          if same || named devname volname then r ← fsop fs fsop_getroot; mret (Some r)
          else mret None
      | _ => if negb (bool_decide (kd_rawname kd = None)) && same then mret (Some (ENXIO, 0)) else mret None
      end;
  match r with
  | Some r => mret (Some r)
  | None =>
      if same then
        kassert (bool_decide (kd_fs kd = NO_FS)) "kd->kd_fs == NULL" ;;
        kassert (bool_decide (kd_rawname kd = None)) "kd->kd_rawname == NULL" ;;
        kassert (negb (bool_decide (kd_device kd = None))) "kd->kd_device != NULL" ;;
        vop_incref (kd_vnode kd) ;;
        mret (Some (0, kd_vnode kd))
      else if named devname (kd_rawname kd) then
        kassert (negb (bool_decide (kd_device kd = None))) "kd->kd_device != NULL" ;;
        vop_incref (kd_vnode kd) ;;
        mret (Some (0, kd_vnode kd))
      else mret None
  end.

Definition vfs_getroot (devname : list Z) : M (vfs St) (Z * Z) :=
  held ← biglock_held;
  kassert held "vfs_biglock_do_i_hold()" ;;
  num ← knowndevarray_num;
  r ← for_some (seqZ 0 num) (λ i,
    p ← knowndevarray_get i;
    kd ← get_kd p;
    root_of_dev kd devname);
  mret (default (ENODEV, 0) r).

Definition vfs_getdevname (fs : Z) : M (vfs St) (option (list Z)) :=
  held ← biglock_held;
  kassert held "vfs_biglock_do_i_hold()" ;;
  num ← knowndevarray_num;
  for_some (seqZ 0 num) (λ i,
    p ← knowndevarray_get i;
    kd ← get_kd p;
    mret (if decide (kd_fs kd = FS fs) then Some (kd_name kd) else None)).

Definition raw_suffix : list Z := [114; 97; 119].

(** [kstrdup] and [mkrawname]: a copy, or NULL without memory *)
Definition v_strdup (s : list Z) : M (vfs St) (option (list Z)) := ok ← v_malloc; mret (if (ok : bool) then Some s else None).
Definition mkrawname (name : list Z) : M (vfs St) (option (list Z)) := ok ← v_malloc; mret (if (ok : bool) then Some (name ++ raw_suffix) else None).

Definition samestring (a b : option (list Z)) : bool :=
  match a, b with
  | Some a, Some b => bool_decide (a = b)
  | _, _ => false
  end.
Definition samestring3 (a b c d : option (list Z)) : bool := samestring a b || samestring a c || samestring a d.

Definition badnames (n1 n2 n3 : option (list Z)) : M (vfs St) bool :=
  held ← biglock_held;
  kassert held "vfs_biglock_do_i_hold()" ;;
  num ← knowndevarray_num;
  r ← for_some (seqZ 0 num) (λ i,
    p ← knowndevarray_get i;
    kd ← get_kd p;
    vol ← match kd_fs kd with
          | FS fs => volname ← fsop fs fsop_getvolname; mret (samestring3 volname n1 n2 n3)
          | _ => mret false
          end;
    if (vol : bool) then mret (Some tt)
    else if samestring3 (kd_rawname kd) n1 n2 n3 || samestring3 (Some (kd_name kd)) n1 n2 n3 then mret (Some tt)
    else mret None);
  mret (bool_decide (r = Some tt)).

(** [fail]: what was allocated is given back *)
Definition doadd_fail (vnode : option Z) (result : Z) : M (vfs St) Z :=
  (match vnode with Some v => on_sys (sys_uncreate v) | None => mret tt end) ;;
  biglock_release ;;
  mret result.

Definition vfs_doadd (dname : list Z) (mountable : bool) (dev : option Z) (fs : option Z) : M (vfs St) Z :=
  biglock_acquire ;;
  name ← v_strdup dname;
  match name with
  | None => doadd_fail None ENOMEM
  | Some name =>
      rawname ← (if mountable then mkrawname name else mret None);
      if mountable && bool_decide (rawname = None) then doadd_fail None ENOMEM
      else
        okv ← v_malloc;
        vnode ← on_sys (sys_create okv dev);
        match vnode with
        | None => doadd_fail None ENOMEM
        | Some v =>
            ok ← v_malloc;
            if negb ok then doadd_fail (Some v) ENOMEM
            else
              let kd := mk_kd name rawname dev v (match fs with Some f => FS f | None => NO_FS end) in
              volname ← match fs with Some f => fsop f fsop_getvolname | None => mret None end;
              bad ← badnames (Some name) rawname volname;
              if (bad : bool) then doadd_fail (Some v) EEXIST
              else
                p ← gets v_next;
                modify (λ s, set_v_next (p + 1) (set_v_kds (<[p := kd]> (v_kds s)) s)) ;;
                r ← knowndevarray_add p;
                if negb (r.1 =? 0) then
                  modify (λ s, set_v_kds (delete p (v_kds s)) s) ;;
                  doadd_fail (Some v) r.1
                else
                  (match dev with Some d => on_sys (sys_setnumber d (u32 (default 0 r.2 + 1))) | None => mret tt end) ;;
                  biglock_release ;;
                  mret 0
        end
  end.

Definition vfs_adddev (devname : list Z) (dev : Z) (mountable : bool) : M (vfs St) Z := vfs_doadd devname mountable (Some dev) None.
Definition vfs_addfs (devname : list Z) (fs : Z) : M (vfs St) Z := vfs_doadd devname false None (Some fs).

(** ** Mounting *)

(** The result and the device *)
Definition findmount (devname : list Z) : M (vfs St) (Z * Z) :=
  held ← biglock_held;
  kassert held "vfs_biglock_do_i_hold()" ;;
  num ← knowndevarray_num;
  r ← for_some (seqZ 0 num) (λ i,
    p ← knowndevarray_get i;
    dev ← get_kd p;
    if bool_decide (kd_rawname dev = None) then mret None
    else mret (if bool_decide (devname = kd_name dev) then Some p else None));
  mret (match r with Some p => (0, p) | None => (ENODEV, 0) end).

(** [mountfunc] returns its result and the file system. *)
Definition vfs_mount (devname : list Z) (mountfunc : Z → M St (Z * Z)) : M (vfs St) Z :=
  biglock_acquire ;;
  r ← findmount devname;
  if negb (r.1 =? 0) then biglock_release ;; mret r.1
  else
    kd ← get_kd r.2;
    if negb (bool_decide (kd_fs kd = NO_FS)) then biglock_release ;; mret EBUSY
    else
      kassert (negb (bool_decide (kd_rawname kd = None))) "kd->kd_rawname != NULL" ;;
      dev ← assert_some (kd_device kd) "kd->kd_device != NULL";
      m ← on_sys (mountfunc dev);
      if negb (m.1 =? 0) then biglock_release ;; mret m.1
      else
        put_kd_fs r.2 (FS m.2) ;;
        fsop m.2 fsop_getvolname ;;
        biglock_release ;;
        mret 0.

Definition colon : Z := 58.
Definition slash : Z := 47.

(** The result and [*ret]; a colon at the end of the name is tolerated *)
Definition vfs_swapon (devname : list Z) : M (vfs St) (Z * Z) :=
  devname ← (if bool_decide (last devname = Some colon) then
               myname ← v_strdup devname;
               mret (take (length devname - 1) <$> myname)
             else mret (Some devname));
  match devname with
  | None => mret (ENOMEM, 0)
  | Some devname =>
      biglock_acquire ;;
      r ← findmount devname;
      if negb (r.1 =? 0) then biglock_release ;; mret (r.1, 0)
      else
        kd ← get_kd r.2;
        if negb (bool_decide (kd_fs kd = NO_FS)) then biglock_release ;; mret (EBUSY, 0)
        else
          kassert (negb (bool_decide (kd_rawname kd = None))) "kd->kd_rawname != NULL" ;;
          assert_some (kd_device kd) "kd->kd_device != NULL" ;;
          put_kd_fs r.2 SWAP_FS ;;
          vop_incref (kd_vnode kd) ;;
          biglock_release ;;
          mret (0, kd_vnode kd)
  end.

Definition vfs_unmount (devname : list Z) : M (vfs St) Z :=
  biglock_acquire ;;
  r ← findmount devname;
  result ← (if negb (r.1 =? 0) then mret r.1
    else
      kd ← get_kd r.2;
      match kd_fs kd with
      | FS fs =>
          kassert (negb (bool_decide (kd_rawname kd = None))) "kd->kd_rawname != NULL" ;;
          assert_some (kd_device kd) "kd->kd_device != NULL" ;;
          result ← fsop fs fsop_sync;
          if negb (result =? 0) then mret result
          else
            result ← fsop fs fsop_unmount;
            if negb (result =? 0) then mret result
            else
              put_kd_fs r.2 NO_FS ;;
              mret 0
      | _ => mret EINVAL
      end);
  biglock_release ;;
  mret result.

Definition vfs_swapoff (devname : list Z) : M (vfs St) Z :=
  biglock_acquire ;;
  r ← findmount devname;
  result ← (if negb (r.1 =? 0) then mret r.1
    else
      kd ← get_kd r.2;
      if negb (bool_decide (kd_fs kd = SWAP_FS)) then mret EINVAL
      else
        put_kd_fs r.2 NO_FS ;;
        mret 0);
  biglock_release ;;
  mret result.

Definition vfs_unmountall : M (vfs St) Z :=
  biglock_acquire ;;
  num ← knowndevarray_num;
  for_list (seqZ 0 num) (λ i,
    p ← knowndevarray_get i;
    dev ← get_kd p;
    if bool_decide (kd_rawname dev = None) then mret tt
    else
      match kd_fs dev with
      | NO_FS => mret tt
      | SWAP_FS => put_kd_fs p NO_FS
      | FS fs =>
          result ← fsop fs fsop_sync;
          result ← (if negb (result =? 0) then fsop fs fsop_sync else mret 0);
          if negb (result =? 0) then mret tt
          else
            result ← fsop fs fsop_unmount;
            if negb (result =? 0) then mret tt else put_kd_fs p NO_FS
      end) ;;
  biglock_release ;;
  mret 0.
End vfs.
