(* ===== verification/VfsPath.v ===== *)
(** * The VFS layer: paths ([kern/vfs/vfscwd.c], [vfslookup.c], [vfspath.c])

    The current directory, the meaning of paths, and the operations on paths.
    A path is the list of its characters without the terminator.  The code
    may overwrite the path it was given, which no caller looks at again. *)

From S2P Require Import Prelude Machine Spinlock Pt Kernel Xfer Array Vnode Vfs.

Section path.
Context {St U : Type} {uops : UioOps U} {sys : VfsSys St U}.

(** ** The current directory *)

Definition on_cur_lock (m : M (cpu * spinlock) ()) : M (vfs St) () := zoom (λ s, (v_cpu s, cur_lock s)) set_locks m.

Definition vfs_getcurdir : M (vfs St) (Z * Z) :=
  on_cur_lock spinlock_acquire ;;
  cwd ← gets cur_cwd;
  r ← match cwd with
      | Some v => vop_incref v ;; mret (0, v)
      | None => mret (ENOENT, 0)
      end;
  on_cur_lock spinlock_release ;;
  mret r.

(** The old directory is given back. *)
Definition put_old (old : option Z) : M (vfs St) () :=
  match old with
  | Some v => vop_decref v
  | None => mret tt
  end.

Definition vfs_setcurdir (dir : Z) : M (vfs St) Z :=
  r ← vop dir (λ o, vop_gettype o dir);
  if negb (r.1 =? 0) then mret r.1
  else if negb (r.2 =? S_IFDIR) then mret ENOTDIR
  else
    vop_incref dir ;;
    on_cur_lock spinlock_acquire ;;
    old ← gets cur_cwd;
    modify (set_cwd (Some dir)) ;;
    on_cur_lock spinlock_release ;;
    put_old old ;;
    mret 0.

Definition vfs_clearcurdir : M (vfs St) Z :=
  on_cur_lock spinlock_acquire ;;
  old ← gets cur_cwd;
  modify (set_cwd None) ;;
  on_cur_lock spinlock_release ;;
  put_old old ;;
  mret 0.

(** ** Looking up a path *)

(** [path[i]]; the terminator is the last character that may be read. *)
Definition char_at (path : list Z) (i : Z) : M (vfs St) Z :=
  if decide (0 ≤ i ≤ Z.of_nat (length path)) then mret (default 0 (path !! Z.to_nat i)) else halt BadAccess.

(** The first colon or slash: the values of [colon] and [slash] *)
Definition find_mark (path : list Z) : M (vfs St) (Z * Z) :=
  while (λ i,
    c ← char_at path i;
    if c =? 0 then mret (inr (-1, -1))
    else if c =? colon then mret (inr (i, -1))
    else if c =? slash then mret (inr (-1, i))
    else mret (inl (i + 1))) 0.

(** [while (path[i+1]=='/') i++] *)
Definition skip_slashes (path : list Z) (i : Z) : M (vfs St) Z :=
  while (λ i,
    c ← char_at path (i + 1);
    if c =? slash then mret (inl (i + 1)) else mret (inr i)) i.

(** The part of the path from position [i] on *)
Definition from (i : Z) (path : list Z) : list Z := drop (Z.to_nat i) path.

(** The result, the rest of the path and the vnode to start from.  The code
    ends the name of a device with a zero in place of the colon; the caller's
    string is not used again. *)
Definition getdevice (path : list Z) : M (vfs St) (Z * list Z * Z) :=
  held ← biglock_held;
  kassert held "vfs_biglock_do_i_hold()" ;;
  c0 ← char_at path 0;
  if c0 =? 0 then mret (EINVAL, [], 0)
  else
    m ← find_mark path;
    let '(col, sl) := m in
    if (col <? 0) && negb (sl =? 0) then
      r ← vfs_getcurdir;
      mret (r.1, path, r.2)
    else if 0 <? col then
      i ← skip_slashes path col;
      r ← vfs_getroot (take (Z.to_nat col) path);
      if negb (r.1 =? 0) then mret (r.1, [], 0) else mret (0, from (i + 1) path, r.2)
    else
      kassert ((col =? 0) || (sl =? 0)) "colon==0 || slash==0" ;;
      r ← (if c0 =? slash then
             boot ← gets bootfs_vnode;
             match boot with
             | None => mret (ENOENT, 0)
             | Some v => vop_incref v ;; mret (0, v)
             end
           else
             kassert (c0 =? colon) "path[0]==':'" ;;
             r ← vfs_getcurdir;
             if negb (r.1 =? 0) then mret (r.1, 0)
             else
               fs ← on_sys (sys_fs r.2);
               fs ← assert_some fs "vn->vn_fs!=NULL";
               root ← fsop fs fsop_getroot;
               vop_decref r.2 ;;
               mret root);
      if negb (r.1 =? 0) then mret (r.1, [], 0)
      else
        i ← skip_slashes path 0;
        mret (0, from (i + 1) path, r.2).

(** The result, the directory and the name in it *)
Definition vfs_lookparent (path : list Z) (buflen : Z) : M (vfs St) (Z * (Z * list Z)) :=
  biglock_acquire ;;
  r ← getdevice path;
  let '(result, path, startvn) := r in
  if negb (result =? 0) then biglock_release ;; mret (result, (0, []))
  else
    r ← (if Z.of_nat (length path) =? 0 then mret (EINVAL, (0, []))
         else vop startvn (λ o, vop_lookparent o startvn path buflen));
    vop_decref startvn ;;
    biglock_release ;;
    mret r.

Definition vfs_lookup (path : list Z) : M (vfs St) (Z * Z) :=
  biglock_acquire ;;
  r ← getdevice path;
  let '(result, path, startvn) := r in
  if negb (result =? 0) then biglock_release ;; mret (result, 0)
  else if Z.of_nat (length path) =? 0 then biglock_release ;; mret (0, startvn)
  else
    r ← vop startvn (λ o, vop_lookup o startvn path);
    vop_decref startvn ;;
    biglock_release ;;
    mret r.

Definition vfs_chdir (path : list Z) : M (vfs St) Z :=
  r ← vfs_lookup path;
  if negb (r.1 =? 0) then mret r.1
  else
    result ← vfs_setcurdir r.2;
    vop_decref r.2 ;;
    mret result.

Definition vfs_getcwd (u : U) : M (vfs St) (Z * U) :=
  kassert (bool_decide (u_rw u = UIO_READ)) "uio->uio_rw==UIO_READ" ;;
  r ← vfs_getcurdir;
  if negb (r.1 =? 0) then mret (r.1, u)
  else
    let cwd := r.2 in
    fs ← on_sys (sys_fs cwd);
    fs ← assert_some fs "cwd->vn_fs != NULL";
    name ← fsop fs fsop_getvolname;
    name ← match name with
           | Some name => mret (Some name)
           | None =>
               biglock_acquire ;;
               name ← vfs_getdevname fs;
               biglock_release ;;
               mret name
           end;
    name ← assert_some name "name != NULL";
    r ← moving (u_to name) u;
    r ← (if negb (r.1 =? 0) then mret r
         else
           r ← moving (u_to [colon]) r.2;
           if negb (r.1 =? 0) then mret r
           else vop cwd (λ o, vop_namefile o cwd r.2));
    vop_decref cwd ;;
    mret r.

(** ** The boot file system *)

Definition change_bootfs (newvn : option Z) : M (vfs St) () :=
  oldvn ← gets bootfs_vnode;
  modify (set_bootfs newvn) ;;
  put_old oldvn.

(** [strchr]: the rest of the string from the character on *)
Definition strchr_in (s : list Z) (c : Z) : option (list Z) := (λ p, drop p.1 s) <$> list_find (λ x, x = c) s.

(** [snprintf] cuts the name to the 254 characters that fit. *)
Definition vfs_setbootfs (fsname : list Z) : M (vfs St) Z :=
  biglock_acquire ;;
  let tmp := take (Z.to_nat (NAME_MAX - 1)) fsname in
  let s := strchr_in tmp colon in
  if match s with Some s => 0 <? Z.of_nat (length s) | None => false end then biglock_release ;; mret EINVAL
  else
    result ← vfs_chdir (match s with Some _ => tmp | None => tmp ++ [colon] end);
    if negb (result =? 0) then biglock_release ;; mret result
    else
      r ← vfs_getcurdir;
      if negb (r.1 =? 0) then biglock_release ;; mret r.1
      else
        change_bootfs (Some r.2) ;;
        biglock_release ;;
        mret 0.

Definition vfs_clearbootfs : M (vfs St) () :=
  biglock_acquire ;;
  change_bootfs None ;;
  biglock_release.

(** ** Operations on paths ([vfspath.c]) *)

Definition NAMEBUF : Z := NAME_MAX + 1.

Definition vfs_open (path : list Z) (openflags mode : Z) : M (vfs St) (Z * Z) :=
  let how := Z.land openflags O_ACCMODE in
  if negb ((how =? O_RDONLY) || (how =? O_WRONLY) || (how =? O_RDWR)) then mret (EINVAL, 0)
  else
    let canwrite := negb (how =? O_RDONLY) in
    r ← (if negb (Z.land openflags O_CREAT =? 0) then
           let excl := negb (Z.land openflags O_EXCL =? 0) in
           r ← vfs_lookparent path NAMEBUF;
           let '(result, (dir, name)) := r in
           if negb (result =? 0) then mret (result, 0)
           else
             r ← vop dir (λ o, vop_creat o dir name excl mode);
             vop_decref dir ;;
             mret r
         else vfs_lookup path);
    if negb (r.1 =? 0) then mret (r.1, 0)
    else
      let vn := r.2 in
      result ← vop vn (λ o, vop_eachopen o vn openflags);
      if negb (result =? 0) then vop_decref vn ;; mret (result, 0)
      else if negb (Z.land openflags O_TRUNC =? 0) then
        result ← (if negb canwrite then mret EINVAL else vop vn (λ o, vop_truncate o vn 0));
        if negb (result =? 0) then vop_decref vn ;; mret (result, 0) else mret (0, vn)
      else mret (0, vn).

Definition vfs_close (vn : Z) : M (vfs St) () := vop_decref vn.

(** An operation on the parent directory and the name *)
Definition on_parent (path : list Z) (op : Z → list Z → M (vfs St) Z) : M (vfs St) Z :=
  r ← vfs_lookparent path NAMEBUF;
  let '(result, (dir, name)) := r in
  if negb (result =? 0) then mret result
  else
    result ← op dir name;
    vop_decref dir ;;
    mret result.

Definition vfs_remove (path : list Z) : M (vfs St) Z := on_parent path (λ dir name, vop dir (λ o, vop_remove o dir name)).

(** Both vnodes are on the same file system. *)
Definition same_fs (v1 v2 : Z) : M (vfs St) bool :=
  f1 ← on_sys (sys_fs v1);
  f2 ← on_sys (sys_fs v2);
  mret (bool_decide (f1 ≠ None ∧ f1 = f2)).

Definition vfs_rename (oldpath newpath : list Z) : M (vfs St) Z :=
  r ← vfs_lookparent oldpath NAMEBUF;
  let '(result, (olddir, oldname)) := r in
  if negb (result =? 0) then mret result
  else
    r ← vfs_lookparent newpath NAMEBUF;
    let '(result, (newdir, newname)) := r in
    if negb (result =? 0) then vop_decref olddir ;; mret result
    else
      same ← same_fs olddir newdir;
      result ← (if (same : bool) then vop olddir (λ o, vop_rename o olddir oldname newdir newname) else mret EXDEV);
      vop_decref newdir ;;
      vop_decref olddir ;;
      mret result.

Definition vfs_link (oldpath newpath : list Z) : M (vfs St) Z :=
  r ← vfs_lookup oldpath;
  let '(result, oldfile) := r in
  if negb (result =? 0) then mret result
  else
    r ← vfs_lookparent newpath NAMEBUF;
    let '(result, (newdir, newname)) := r in
    if negb (result =? 0) then vop_decref oldfile ;; mret result
    else
      same ← same_fs oldfile newdir;
      result ← (if (same : bool) then vop newdir (λ o, vop_link o newdir newname oldfile) else mret EXDEV);
      vop_decref newdir ;;
      vop_decref oldfile ;;
      mret result.

(** [VOP_SYMLINK(newdir, newname, contents)] hands the name to the parameter
    for the contents. *)
Definition vfs_symlink (contents path : list Z) : M (vfs St) Z := on_parent path (λ dir name, vop dir (λ o, vop_symlink o dir name contents)).

Definition vfs_readlink (path : list Z) (u : U) : M (vfs St) (Z * U) :=
  r ← vfs_lookup path;
  if negb (r.1 =? 0) then mret (r.1, u)
  else
    res ← vop r.2 (λ o, vop_readlink o r.2 u);
    vop_decref r.2 ;;
    mret res.

Definition vfs_mkdir (path : list Z) (mode : Z) : M (vfs St) Z := on_parent path (λ dir name, vop dir (λ o, vop_mkdir o dir name mode)).
Definition vfs_rmdir (path : list Z) : M (vfs St) Z := on_parent path (λ dir name, vop dir (λ o, vop_rmdir o dir name)).
End path.
