(* ===== verification/OneDisk.v ===== *)
(** * A machine with one disk

    The system the VFS layer runs on: an SFS volume, which is file system
    number [SFS_VOLUME], and the devices.  The driver of a device is the null
    device or the disk of the volume.  This is the instance of [VfsSys] that
    connects the paths of the VFS layer with the operations of SFS. *)

From S2P Require Import Prelude Machine Spinlock Pt Kernel Xfer Lhd Bitmap Array Sfs SfsDir Vnode SfsOps Device Vfs VfsPath.

Record machine : Type := mk_machine { y_sfs : sfs_st; y_dev : devices }.
Definition set_y_sfs (x : sfs_st) (s : machine) : machine := mk_machine x (y_dev s).
Definition set_y_dev (x : devices) (s : machine) : machine := mk_machine (y_sfs s) x.
Definition on_sfs {A} (m : M sfs_st A) : M machine A := zoom y_sfs set_y_sfs m.
Definition on_dev {A} (m : M devices A) : M machine A := zoom y_dev set_y_dev m.

Definition SFS_VOLUME : Z := 1.

Section machine.
Context {U : Type} {uops : UioOps U}.

(** The operations of the volume in the machine *)
Definition lift_ops (o : vnode_ops sfs_st U) : vnode_ops machine U := {|
  vop_eachopen v f := on_sfs (vop_eachopen o v f);
  vop_reclaim v := on_sfs (vop_reclaim o v);
  vop_read v u := on_sfs (vop_read o v u);
  vop_readlink v u := on_sfs (vop_readlink o v u);
  vop_getdirentry v u := on_sfs (vop_getdirentry o v u);
  vop_write v u := on_sfs (vop_write o v u);
  vop_ioctl v op d := on_sfs (vop_ioctl o v op d);
  vop_stat v := on_sfs (vop_stat o v);
  vop_gettype v := on_sfs (vop_gettype o v);
  vop_isseekable v := on_sfs (vop_isseekable o v);
  vop_fsync v := on_sfs (vop_fsync o v);
  vop_mmap v := on_sfs (vop_mmap o v);
  vop_truncate v len := on_sfs (vop_truncate o v len);
  vop_namefile v u := on_sfs (vop_namefile o v u);
  vop_creat v nm e m := on_sfs (vop_creat o v nm e m);
  vop_symlink v c nm := on_sfs (vop_symlink o v c nm);
  vop_mkdir v nm m := on_sfs (vop_mkdir o v nm m);
  vop_link v nm f := on_sfs (vop_link o v nm f);
  vop_remove v nm := on_sfs (vop_remove o v nm);
  vop_rmdir v nm := on_sfs (vop_rmdir o v nm);
  vop_rename v1 n1 v2 n2 := on_sfs (vop_rename o v1 n1 v2 n2);
  vop_lookup v p := on_sfs (vop_lookup o v p);
  vop_lookparent v p n := on_sfs (vop_lookparent o v p n)
|}.
Definition lift_fsops (o : fs_ops sfs_st) : fs_ops machine := {|
  fsop_sync := on_sfs (fsop_sync o);
  fsop_getvolname := on_sfs (fsop_getvolname o);
  fsop_getroot := on_sfs (fsop_getroot o);
  fsop_unmount := on_sfs (fsop_unmount o)
|}.

(** ** Drivers *)

Definition DRIVER_NULL : Z := 0.

Definition lhd_devops : device_ops machine U :=
  mk_device_ops (λ _ flags, on_sfs (on_lhd (lhd_eachopen flags))) (λ _ u, on_sfs (on_lhd (lhd_io u))) (λ _ op data, on_sfs (on_lhd (lhd_ioctl op data))).
Definition drivers (d : Z) : device_ops machine U := if d =? DRIVER_NULL then null_devops else lhd_devops.

(** ** Vnodes and file systems *)

Definition is_sfs (v : Z) : M machine bool := gets (λ s, bool_decide (is_Some (s_nodes (y_sfs s) !! v))).

#[global] Instance machine_sys : VfsSys machine U := {
  sys_ops v :=
    b ← is_sfs v;
    if (b : bool) then
      on_sfs (vnode_check v) ;;
      x ← on_sfs (get_sv v);
      mret (lift_ops (sfs_ops (vn_ops x)))
    else
      on_dev (dev_check v) ;;
      mret (dev_vnode_ops y_dev set_y_dev drivers);
  sys_incref v := b ← is_sfs v; if (b : bool) then on_sfs (sfs_incref v) else on_dev (dev_incref v);
  sys_decref v := b ← is_sfs v; if (b : bool) then on_sfs (sfs_decref v) else on_dev (dev_decref v);
  sys_fs v := b ← is_sfs v; if (b : bool) then mret (Some SFS_VOLUME) else on_dev (get_dvnode v) ;; mret None;
  sys_fsops fs := if fs =? SFS_VOLUME then mret (lift_fsops sfs_fsops) else halt BadAccess;
  sys_acquire := on_sfs vfs_biglock_acquire;
  sys_release := on_sfs vfs_biglock_release;
  sys_held := on_sfs vfs_biglock_do_i_hold;
  sys_create ok dev := on_dev (dev_create_vnode ok dev);
  sys_uncreate v := on_dev (dev_uncreate_vnode v);
  sys_setnumber d n :=
    m ← gets (λ s, dv_devs (y_dev s));
    x ← deref (m !! d);
    on_dev (modify (λ s, set_dv_devs (<[d := set_dev_devnumber n x]> (dv_devs s)) s))
}.

(** [devnull_create] ([devnull.c]); [kmalloc] is the address of the new
    [struct device], or NULL *)
Definition devnull_create (kmalloc : option Z) : M (vfs machine) () :=
  match kmalloc with
  | None => halt (Panic "Could not add null device: out of memory")
  | Some dev =>
      on_sys (on_dev (modify (λ s, set_dv_devs (<[dev := mk_device DRIVER_NULL 0 1 0]> (dv_devs s)) s))) ;;
      result ← vfs_adddev [110; 117; 108; 108] dev false;
      if negb (result =? 0) then halt (Panic "Could not add null device") else mret tt
  end.

(** [sfs_mount] ([sfs_fsops.c]): the device is the disk of the volume. *)
Definition sfs_mount (devname : list Z) : M (vfs machine) Z :=
  vfs_mount devname (λ dev,
    m ← gets (λ s, dv_devs (y_dev s));
    d ← deref (m !! dev);
    r ← on_sfs (sfs_domount (dev_blocksize d));
    mret (r, SFS_VOLUME)).
End machine.
