(* ===== verification/VfsRefine.v ===== *)
(** * Paths lead to the volume

    What paths mean, and the VFS layer on the machine of [OneDisk]: what device names and paths
    stand for, and the operations on paths of the volume.  The abstract state
    is the abstract volume, the vnodes of the devices, the list of devices,
    the current directory and the boot file system. *)

From S2P Require Import Prelude Machine Pt Spinlock Kernel Bitmap Array Xfer Lhd Sfs SfsInv SfsOk SfsBmap SfsFile SfsIo SfsTrunc SfsDir SfsMeta SfsNode Vnode SfsSpec SfsOps SfsRefine SfsMount SfsClient Device Vfs VfsPath OneDisk.

(** ** The meaning of paths

    [parse] says where a path starts and what is left of it; [find_root] says
    what a device name stands for.  The loops of the VFS layer compute
    them. *)

(** *** Paths *)

Inductive start : Type :=
| SCurrent (* the current directory *)
| SRoot (* the root of the current file system *)
| SBoot (* the root of the boot file system *)
| SDevice (name : list Z). (* a device or a volume *)

Definition is_mark (c : Z) : Prop := c = colon ∨ c = slash.
#[export] Instance is_mark_dec c : Decision (is_mark c).
Proof. apply _. Defined.

Fixpoint strip (l : list Z) : list Z :=
  match l with
  | c :: l' => if c =? slash then strip l' else l
  | [] => []
  end.

Definition parse (path : list Z) : option (start * list Z) :=
  match path with
  | [] => None
  | _ =>
      match list_find is_mark path with
      | None => Some (SCurrent, path)
      | Some (i, c) =>
          if c =? slash then if (i =? 0)%nat then Some (SBoot, strip (drop 1 path)) else Some (SCurrent, path)
          else if (i =? 0)%nat then Some (SRoot, strip (drop 1 path))
          else Some (SDevice (take i path), strip (drop (S i) path))
      end
  end.

(** A path of the code: no zero inside, and short enough for an [int] *)
Definition path_ok (path : list Z) : Prop := Forall (λ c, c ≠ 0) path ∧ Z.of_nat (length path) < 2 ^ 31.

Lemma strip_drop path i : path !! i = Some slash → strip (drop i path) = strip (drop (S i) path).
Proof. intros H. by rewrite (drop_S path slash i H). Qed.

Section loops.
Context {St : Type}.
Implicit Types s : vfs St.

Lemma wp_char_at path i Q s : 0 ≤ i ≤ Z.of_nat (length path) → Q (default 0 (path !! Z.to_nat i)) s → wp (char_at path i) Q s.
Proof using. intros Hi HQ. unfold char_at. rewrite decide_True by done. by apply wp_ret. Qed.

(** [colon] and [slash] after the loop *)
Definition marks (path : list Z) : Z * Z :=
  match list_find is_mark path with
  | None => (-1, -1)
  | Some (i, c) => if c =? colon then (Z.of_nat i, -1) else (-1, Z.of_nat i)
  end.

Lemma wp_find_mark path Q s : path_ok path → Q (marks path) s → wp (find_mark path) Q s.
Proof using.
  intros [Hnz Hlen] HQ. unfold find_mark.
  apply (wp_while _ (λ i s', s' = s ∧ 0 ≤ i ≤ Z.of_nat (length path) ∧ ∀ k c, (Z.of_nat k < i) → path !! k = Some c → ¬ is_mark c) (λ i _, Z.of_nat (length path) - i)).
  - split; [done|]. split; [lia|]. intros. lia.
  - intros i s' (_ & Hi & _). lia.
  - lia.
  - intros i s' (-> & Hi & Hno). apply wp_bind, wp_char_at; [done|]. destruct (path !! Z.to_nat i) as [c|] eqn:Ec; cbn [from_option id].
    + assert (c ≠ 0) as Hc by (rewrite Forall_lookup in Hnz; by eapply Hnz). rewrite (proj2 (Z.eqb_neq c 0)) by done. pose proof (lookup_lt_Some _ _ _ Ec) as Hlt.
      assert (is_mark c → list_find is_mark path = Some (Z.to_nat i, c)) as Hfind.
      { intros Hm. apply list_find_Some. split_and!; [done|done|]. intros j y Hy Hj. apply (Hno j); [lia|done]. }
      unfold marks in HQ. destruct (Z.eqb_spec c colon) as [->|Hcol]; [|destruct (Z.eqb_spec c slash) as [->|Hsl]].
      * apply wp_ret. rewrite Hfind in HQ by (by left). rewrite Z.eqb_refl, Z2Nat.id in HQ by lia. done.
      * apply wp_ret. rewrite Hfind in HQ by (by right). rewrite (proj2 (Z.eqb_neq slash colon)), Z2Nat.id in HQ by (done || lia). done.
      * apply wp_ret. split; [|lia]. split; [done|]. split; [lia|]. intros k d Hk Hd. destruct (decide (Z.of_nat k < i)); [by eapply Hno|].
        assert (k = Z.to_nat i) as -> by lia. rewrite Ec in Hd. injection Hd as <-. by intros [?|?].
    + apply lookup_ge_None in Ec. cbn [Z.eqb]. apply wp_ret. unfold marks in HQ. rewrite (proj2 (list_find_None _ _)) in HQ; [done|].
      apply Forall_lookup. intros k c Hk. apply (Hno k); [|done]. pose proof (lookup_lt_Some _ _ _ Hk). lia.
Qed.

Lemma wp_skip_slashes path i Q s : path_ok path → 0 ≤ i < Z.of_nat (length path) →
  (∀ j, 0 ≤ j → from (j + 1) path = strip (from (i + 1) path) → Q j s) → wp (skip_slashes path i) Q s.
Proof using.
  intros [Hnz Hlen] Hi HQ. unfold skip_slashes.
  apply (wp_while _ (λ j s', s' = s ∧ 0 ≤ j < Z.of_nat (length path) ∧ strip (from (j + 1) path) = strip (from (i + 1) path)) (λ j _, Z.of_nat (length path) - j)).
  - done.
  - intros j s' (_ & Hj & _). lia.
  - lia.
  - intros j s' (-> & Hj & E). apply wp_bind, wp_char_at; [lia|]. unfold from in *. replace (Z.to_nat (j + 1)) with (S (Z.to_nat j)) in * by lia. destruct (path !! S (Z.to_nat j)) as [c|] eqn:Ec; cbn [from_option id].
    + destruct (Z.eqb_spec c slash) as [->|Hne].
      * apply wp_ret. pose proof (lookup_lt_Some _ _ _ Ec) as Hlt. split; [|lia]. split; [done|]. split; [lia|]. rewrite <-E, (strip_drop path (S (Z.to_nat j)) Ec). f_equal. f_equal. lia.
      * apply wp_ret. apply HQ; [lia|]. replace (Z.to_nat (j + 1)) with (S (Z.to_nat j)) by lia. rewrite <-E, (drop_S path c _ Ec). cbn [strip]. by rewrite (proj2 (Z.eqb_neq c slash)).
    + change (0 =? slash) with false. cbn iota. apply wp_ret. apply HQ; [lia|]. replace (Z.to_nat (j + 1)) with (S (Z.to_nat j)) by lia. rewrite <-E. apply lookup_ge_None in Ec. by rewrite drop_ge.
Qed.
End loops.

Record avfs : Type := mk_avfs { f_vol : avol; f_devs : devices; f_list : list knowndev; f_cwd : option Z; f_boot : option Z }.
Definition set_f_vol (x : avol) (F : avfs) : avfs := mk_avfs x (f_devs F) (f_list F) (f_cwd F) (f_boot F).
Definition set_f_devs (x : devices) (F : avfs) : avfs := mk_avfs (f_vol F) x (f_list F) (f_cwd F) (f_boot F).
Definition set_f_cwd (x : option Z) (F : avfs) : avfs := mk_avfs (f_vol F) (f_devs F) (f_list F) x (f_boot F).
Definition set_f_boot (x : option Z) (F : avfs) : avfs := mk_avfs (f_vol F) (f_devs F) (f_list F) (f_cwd F) x.

(** An entry of the list: mounted file systems are the volume, swap devices
    and raw names belong to devices, and the vnode is that of a device. *)
Record kd_ok (dv : devices) (kd : knowndev) : Prop := {
  ko_fs f : kd_fs kd = FS f → f = SFS_VOLUME;
  ko_swap : kd_fs kd = SWAP_FS → kd_rawname kd ≠ None;
  ko_dev : kd_fs kd = NO_FS ∨ kd_rawname kd ≠ None → kd_device kd ≠ None;
  ko_vnode : ∃ n, dv_nodes dv !! kd_vnode kd = Some n ∧ 0 < dn_refcount n
}.

Record vrepr (R0 : srest) (s : vfs machine) (F : avfs) : Prop := {
  vr_vol : repr R0 (y_sfs (v_sys s)) (f_vol F);
  vr_devs : y_dev (v_sys s) = f_devs F;
  vr_neg : dv_next (f_devs F) < 0 ∧ ∀ v, is_Some (dv_nodes (f_devs F) !! v) → dv_next (f_devs F) < v < 0;
  vr_arr : arr_wf (knowndevs s);
  vr_elems : Forall2 (λ p kd, v_kds s !! p = Some kd) (elems (knowndevs s)) (f_list F);
  vr_kds : Forall (kd_ok (f_devs F)) (f_list F);
  vr_cpu : cpu_ok (v_cpu s) ∧ c_spinlocks (v_cpu s) + 1 < 2 ^ 30;
  vr_lock : lock_free (cur_lock s);
  vr_cwd : cur_cwd s = f_cwd F;
  vr_boot : bootfs_vnode s = f_boot F;
  vr_max : a_max (knowndevs s) ≤ Z.max 4 (2 * Z.of_nat (length (f_list F)));
  vr_fresh p : is_Some (v_kds s !! p) → p < v_next s
}.

(** The current directory and the boot file system are open directories. *)
Definition dir_open (a : avol) (o : option Z) : Prop := ∀ v, o = Some v → ∃ n, a_open a !! v = Some (SFS_ROOTDIR_INO, n).
Definition dirs_open (F : avfs) : Prop := dir_open (f_vol F) (f_cwd F) ∧ dir_open (f_vol F) (f_boot F).

(** ** Device names *)

Inductive root : Type := RVolume | RVnode (v : Z) | RError (e : Z).

Definition root_of (vol : list Z) (nm : list Z) (kd : knowndev) : option root :=
  let raw := if bool_decide (kd_rawname kd = Some nm) then Some (RVnode (kd_vnode kd)) else None in
  match kd_fs kd with
  | FS _ => if bool_decide (kd_name kd = nm ∨ vol = nm) then Some RVolume else raw
  | _ => if bool_decide (kd_name kd = nm) then Some (match kd_rawname kd with None => RVnode (kd_vnode kd) | Some _ => RError ENXIO end) else raw
  end.

(** The first entry with that name *)
Fixpoint find_root (vol : list Z) (nm : list Z) (l : list knowndev) : root :=
  match l with
  | [] => RError ENODEV
  | kd :: l' => default (find_root vol nm l') (root_of vol nm kd)
  end.

(** ** Steps *)

Section vsteps.
Context {U : Type} {uops : UioOps U} {ulaws : UioLaws U}.
Context (R0 : srest).

Definition vdoes {A} (m : M (vfs machine) A) (F : avfs) (spec : A → avfs → Prop) : Prop := ∀ s, vrepr R0 s F → wp m (λ r s', ∃ F', vrepr R0 s' F' ∧ spec r F') s.

Lemma vrepr_vol s F s' a : vrepr R0 s F → repr R0 s' a → vrepr R0 (set_v_sys (set_y_sfs s' (v_sys s)) s) (set_f_vol a F).
Proof using. intros [H1 H2 H3 H4 H5 H6 H7 H8 H9 H10 H11 H12] Hs'. by split. Qed.

(** An operation of the volume *)
Lemma vdoes_sfs {A} (m : M sfs_st A) F spec : does R0 m (f_vol F) spec → vdoes (on_sys (on_sfs m)) F (λ r F', ∃ a', F' = set_f_vol a' F ∧ spec r a').
Proof using.
  intros Hm s Hs. unfold on_sys, on_sfs. apply wp_zoom, wp_zoom. eapply wp_mono; [apply Hm, Hs|]. intros r s' (a' & Hs' & Hr). exists (set_f_vol a' F). split; [by apply vrepr_vol|]. eauto.
Qed.

Lemma vdoes_mono {A} (m : M (vfs machine) A) F (spec spec' : A → avfs → Prop) : (∀ r F', spec r F' → spec' r F') → vdoes m F spec → vdoes m F spec'.
Proof using. intros H Hm s Hs. eapply wp_mono; [by apply Hm|]. intros r s' (F' & Hs' & Hr). eauto. Qed.

Lemma vdoes_bind {A B} (m : M (vfs machine) A) (k : A → M (vfs machine) B) F spec spec' :
  vdoes m F spec → (∀ r F', spec r F' → vdoes (k r) F' spec') → vdoes (r ← m; k r) F spec'.
Proof using. intros Hm Hk s Hs. apply wp_bind. eapply wp_mono; [by apply Hm|]. intros r s' (F' & Hs' & Hr). by eapply Hk. Qed.

Lemma vdoes_ret {A} (r : A) F (spec : A → avfs → Prop) : spec r F → vdoes (mret r) F spec.
Proof using. intros H s Hs. apply wp_ret. eauto. Qed.

(** The table of an open vnode of the volume *)
Lemma vop_sfs {A} v (op : vnode_ops machine U → M machine A) (op' : vnode_ops sfs_st U → M sfs_st A) s :
  is_Some (s_nodes (y_sfs (v_sys s)) !! v) → (∀ o, op (lift_ops o) = on_sfs (op' o)) → vop v op s = on_sys (on_sfs (VOP v op')) s.
Proof using.
  intros Hv Hop. unfold vop, on_sys, zoom. cbn [sys_ops machine_sys]. unfold mbind, M_bind, is_sfs, gets. rewrite bool_decide_eq_true_2 by done.
  unfold VOP. unfold on_sfs, zoom, mbind, M_bind. destruct (vnode_check v (y_sfs (v_sys s))) as [[[] s1]|e]; [|done]. cbn [y_sfs set_y_sfs]. destruct (get_sv v s1) as [[x s2]|e]; [|done].
  unfold mret, M_ret. rewrite Hop. unfold on_sfs, zoom. cbn [y_sfs set_y_sfs]. destruct (op' (sfs_ops (vn_ops x)) s2) as [[r s3]|e]; done.
Qed.

Lemma vdoes_vop {A} v ino n (op : vnode_ops machine U → M machine A) (op' : vnode_ops sfs_st U → M sfs_st A) F spec :
  a_open (f_vol F) !! v = Some (ino, n) → (∀ o, op (lift_ops o) = on_sfs (op' o)) →
  does R0 (op' (sfs_ops (if decide (ino = SFS_ROOTDIR_INO) then sfs_dirops else sfs_fileops))) (f_vol F) spec →
  vdoes (vop v op) F (λ r F', ∃ a', F' = set_f_vol a' F ∧ spec r a').
Proof using.
  intros Ho Hop Hd s Hs. assert (wp (on_sys (on_sfs (VOP v op'))) (λ r s', ∃ F', vrepr R0 s' F' ∧ ∃ a', F' = set_f_vol a' F ∧ spec r a') s) as H.
  { eapply vdoes_sfs; [by eapply VOP_does|done]. }
  unfold wp in *. erewrite vop_sfs; [exact H| |done]. by eapply repr_nonneg; [apply Hs|].
Qed.

Lemma wp_incref v ino n a s Q : repr R0 (y_sfs (v_sys s)) a → a_open a !! v = Some (ino, n) →
  (∀ s', repr R0 s' (a_ref v ino a) → Q tt (set_v_sys (set_y_sfs s' (v_sys s)) s)) → wp (vop_incref v) Q s.
Proof using.
  intros Hs Ho HQ. destruct (repr_nonneg _ _ _ _ _ _ Hs Ho) as [_ Hv]. unfold vop_incref, on_sys. cbn [sys_incref machine_sys]. apply wp_zoom. unfold is_sfs. apply wp_bind, wp_gets.
  rewrite bool_decide_eq_true_2 by done. unfold on_sfs. apply wp_zoom. eapply wp_mono; [by eapply sfs_incref_does|]. intros [] s' (a' & Hs' & ->). by apply HQ.
Qed.

Lemma vdoes_decref v ino n F : a_open (f_vol F) !! v = Some (ino, n) → vdoes (vop_decref v) F (λ _ F', F' = set_f_vol (a_unref v ino n (f_vol F)) F).
Proof using.
  intros Ho s Hs. destruct (repr_nonneg _ _ _ _ _ _ (vr_vol _ _ _ Hs) Ho) as [_ Hv]. unfold vop_decref, on_sys. cbn [sys_decref machine_sys]. apply wp_zoom. unfold is_sfs. apply wp_bind, wp_gets.
  rewrite bool_decide_eq_true_2 by done. unfold on_sfs. apply wp_zoom. eapply wp_mono; [eapply sfs_decref_does; [done|apply Hs]|]. intros r s' (a' & Hs' & ->). eexists. split; [by apply vrepr_vol|done].
Qed.

Lemma wp_vdecref s F v ino n Q : vrepr R0 s F → a_open (f_vol F) !! v = Some (ino, n) → (∀ s', vrepr R0 s' (set_f_vol (a_unref v ino n (f_vol F)) F) → Q tt s') → wp (vop_decref v) Q s.
Proof using. intros Hs Ho HQ. eapply wp_mono; [by apply (vdoes_decref v ino n F Ho)|]. intros [] s' (F' & Hs' & ->). by apply HQ. Qed.

Lemma wp_vop {A} s a F v ino n (op : vnode_ops machine U → M machine A) (op' : vnode_ops sfs_st U → M sfs_st A) (spec : A → avol → Prop) Q :
  vrepr R0 s (set_f_vol a F) → a_open a !! v = Some (ino, n) → (∀ o, op (lift_ops o) = on_sfs (op' o)) →
  does R0 (op' (sfs_ops (if decide (ino = SFS_ROOTDIR_INO) then sfs_dirops else sfs_fileops))) a spec →
  (∀ r s' a', vrepr R0 s' (set_f_vol a' F) → spec r a' → Q r s') → wp (vop v op) Q s.
Proof using.
  intros Hs Ho Hop Hd HQ. eapply wp_mono; [by apply (vdoes_vop v ino n op op' (set_f_vol a F) spec Ho Hop Hd)|]. intros r s' (F' & Hs' & a' & -> & Hr). by eapply HQ.
Qed.

(** *** Locks *)

(** While the lock of the process is held *)
Record vlocked (s : vfs machine) (F : avfs) : Prop := {
  vl_repr : vrepr R0 (set_locks (cpu_raise (-1) (v_cpu s), SPINLOCK_INITIALIZER) s) F;
  vl_cpu : cpu_ok (v_cpu s) ∧ 0 < c_spinlocks (v_cpu s);
  vl_mine : lock_mine (v_cpu s) (cur_lock s)
}.

Lemma wp_cur_acquire s F Q : vrepr R0 s F → (∀ s', vlocked s' F → Q tt s') → wp (on_cur_lock spinlock_acquire) Q s.
Proof using.
  intros Hs HQ. pose proof Hs as [_ _ _ _ _ _ [Hc Hb] Hl _ _]. pose proof (cpu_locks _ Hc) as Hlk. unfold on_cur_lock. apply wp_zoom. erewrite wp_eq by exact (spinlock_acquire_ok _ _ Hc Hb Hl).
  apply HQ. split; [|split; [apply cpu_raise_ok; [done|lia]|cbn; lia]|done]. cbn [v_cpu set_locks fst snd]. rewrite cpu_raise_raise, cpu_raise_0 by done.
  replace (set_locks _ _) with s; [done|]. unfold lock_free in Hl. destruct s. cbn in *. by subst.
Qed.

Lemma wp_cur_release s F Q : vlocked s F → (∀ s', vrepr R0 s' F → Q tt s') → wp (on_cur_lock spinlock_release) Q s.
Proof using.
  intros [Hs [Hc Hb] Hl] HQ. unfold on_cur_lock. apply wp_zoom. erewrite wp_eq by (by apply spinlock_release_ok). by apply HQ.
Qed.

Lemma wp_incref_locked v ino n s F Q : vlocked s F → a_open (f_vol F) !! v = Some (ino, n) → (∀ s', vlocked s' (set_f_vol (a_ref v ino (f_vol F)) F) → Q tt s') → wp (vop_incref v) Q s.
Proof using.
  intros [Hs Hc Hl] Ho HQ. eapply wp_incref; [apply (vr_vol _ _ _ Hs)|done|]. intros s' Hs'. apply HQ. split; [exact (vrepr_vol _ F s' _ Hs Hs')|done|done].
Qed.

(** The current directory with one more reference *)
Definition curdir_spec (F : avfs) (r : Z * Z) (F' : avfs) : Prop :=
  match f_cwd F with
  | None => r.1 = ENOENT ∧ F' = F
  | Some v => r = (0, v) ∧ F' = set_f_vol (a_ref v SFS_ROOTDIR_INO (f_vol F)) F
  end.

Lemma vfs_getcurdir_does F : dir_open (f_vol F) (f_cwd F) → vdoes vfs_getcurdir F (curdir_spec F).
Proof using.
  intros Hd s Hs. unfold vfs_getcurdir, curdir_spec. apply wp_bind. eapply wp_cur_acquire; [done|]. intros s1 Hs1. apply wp_bind, wp_gets.
  assert (cur_cwd s1 = f_cwd F) as -> by (exact (vr_cwd _ _ _ (vl_repr _ _ Hs1))). apply wp_bind. destruct (f_cwd F) as [v|] eqn:Ev.
  - destruct (Hd v eq_refl) as [n Ho]. apply wp_bind. eapply wp_incref_locked; [done|done|]. intros s2 Hs2. apply wp_ret, wp_bind. eapply wp_cur_release; [done|]. intros s3 Hs3. apply wp_ret. eauto.
  - apply wp_ret, wp_bind. eapply wp_cur_release; [done|]. intros s3 Hs3. apply wp_ret. eauto.
Qed.

(** *** File systems and devices *)

Lemma vdoes_fsop {A} (op : fs_ops machine → M machine A) (m : M sfs_st A) F spec : op (lift_fsops sfs_fsops) = on_sfs m → does R0 m (f_vol F) spec →
  vdoes (fsop SFS_VOLUME op) F (λ r F', ∃ a', F' = set_f_vol a' F ∧ spec r a').
Proof using.
  intros Hop Hm s Hs. assert (wp (on_sys (on_sfs m)) (λ r s', ∃ F', vrepr R0 s' F' ∧ ∃ a', F' = set_f_vol a' F ∧ spec r a') s) as H by (by eapply vdoes_sfs).
  unfold fsop, on_sys in *. apply wp_zoom. apply wp_bind. cbn [sys_fsops machine_sys]. change (SFS_VOLUME =? SFS_VOLUME) with true. cbn iota. apply wp_ret. rewrite Hop. by apply wp_zoom in H.
Qed.

(** A device with one more reference *)
Definition dev_ref (v : Z) (dv : devices) : devices :=
  set_dv_nodes (alter (λ n, mk_dvnode (dn_refcount n + 1) (dn_data n)) v (dv_nodes dv)) dv.

Lemma kd_ok_ref v dv kd : kd_ok dv kd → kd_ok (dev_ref v dv) kd.
Proof using.
  intros [H1 H2 H3 (n & Hn & Hp)]. split; [done..|]. cbn. destruct (decide (kd_vnode kd = v)) as [<-|Hne].
  - rewrite lookup_alter_eq, Hn. eexists. split; [done|]. cbn. lia.
  - rewrite lookup_alter_ne by done. eauto.
Qed.

Lemma repr_not_node s a v : repr R0 s a → v < 0 → s_nodes s !! v = None.
Proof using.
  intros (R & w & I & Hst & Hm & Hr) Hv. apply eq_None_not_Some. intros Hn. assert (s_nodes s = w_nodes w) as E by (exact (sh_nodes _ _ _ (mv_mounted _ _ _ _ Hm))). rewrite E in Hn.
  pose proof (proj2 (tb_next _ _ _ _ (mv_table _ _ _ _ Hm)) v Hn). lia.
Qed.

Lemma vdoes_dev_incref kd F : kd ∈ f_list F → vdoes (vop_incref (kd_vnode kd)) F (λ _ F', F' = set_f_devs (dev_ref (kd_vnode kd) (f_devs F)) F).
Proof using.
  intros Hin s Hs. pose proof Hs as [H1 H2 H3 H4 H5 H6 H7 H8 H9 H10 H11 H12]. destruct (ko_vnode _ _ (proj1 (Forall_forall _ _) H6 _ Hin)) as (n & Hn & Hp).
  pose proof (repr_not_node _ _ (kd_vnode kd) H1 (proj2 (proj2 H3 _ ltac:(by rewrite Hn)))) as Hnone. unfold vop_incref, on_sys. cbn [sys_incref machine_sys]. apply wp_zoom. unfold is_sfs. apply wp_bind, wp_gets.
  rewrite bool_decide_eq_false_2 by (rewrite Hnone; by intros [? ?]). unfold on_dev. apply wp_zoom. rewrite H2. unfold dev_incref, get_dvnode. apply wp_bind, wp_bind, wp_gets. rewrite Hn. apply wp_ret.
  apply wp_modify. eexists. split; [|done]. split; try done.
  - cbn. unfold dev_ref. f_equal. apply map_eq. intros k. destruct (decide (k = kd_vnode kd)) as [->|Hne]; [by rewrite lookup_insert_eq, lookup_alter_eq, Hn|by rewrite lookup_insert_ne, lookup_alter_ne].
  - split; [exact (proj1 H3)|]. intros v. cbn. rewrite lookup_alter_is_Some. apply H3.
  - eapply Forall_impl; [exact H6|]. intros k. apply kd_ok_ref.
Qed.

(** What the name [nm] of a device gives *)
Definition root_spec (F : avfs) (rt : root) (r : Z * Z) (F' : avfs) : Prop :=
  match rt with
  | RVolume => ∃ a', F' = set_f_vol a' F ∧ look_spec (f_vol F) SFS_ROOTDIR_INO r a'
  | RVnode v => r = (0, v) ∧ F' = set_f_devs (dev_ref v (f_devs F)) F
  | RError e => r.1 = e ∧ e ≠ 0 ∧ F' = F
  end.

Lemma set_f_vol_id F : set_f_vol (f_vol F) F = F.
Proof using. by destruct F. Qed.

(** The raw name of the entry *)
Definition raw_root (nm : list Z) (kd : knowndev) : option root := if bool_decide (kd_rawname kd = Some nm) then Some (RVnode (kd_vnode kd)) else None.
Definition found (F : avfs) (rt : option root) (r : option (Z * Z)) (F' : avfs) : Prop :=
  match rt with Some rt => ∃ x, r = Some x ∧ root_spec F rt x F' | None => r = None ∧ F' = F end.

Lemma hand_out F kd : kd ∈ f_list F → vdoes (vop_incref (kd_vnode kd) ;; mret (Some (0, kd_vnode kd))) F (found F (Some (RVnode (kd_vnode kd)))).
Proof using.
  intros Hin s Hs. apply wp_bind. eapply wp_mono; [by apply vdoes_dev_incref|]. intros [] s' (F' & Hs' & ->). apply wp_ret. eexists. split; [done|]. eexists. by split.
Qed.

Lemma raw_name_does F kd nm : kd ∈ f_list F → kd_ok (f_devs F) kd →
  vdoes (if named nm (kd_rawname kd) then kassert (negb (bool_decide (kd_device kd = None))) "kd->kd_device != NULL" ;; vop_incref (kd_vnode kd) ;; mret (Some (0, kd_vnode kd)) else mret None) F
    (found F (raw_root nm kd)).
Proof using.
  intros Hin [K1 K2 K3 K4]. unfold named, raw_root. case_bool_decide as Er; [|by apply vdoes_ret]. intros s Hs. apply wp_bind, wp_kassert.
  split; [rewrite bool_decide_eq_false_2; [done|]; apply K3; right; congruence|]. by apply hand_out.
Qed.

Lemma volume_root_does F kd nm (spec : option (Z * Z) → avfs → Prop) :
  (if bool_decide (kd_name kd = nm ∨ volume_name R0 = nm) then ∀ r a', look_spec (f_vol F) SFS_ROOTDIR_INO r a' → spec (Some r) (set_f_vol a' F) else spec None F) →
  vdoes (volname ← fsop SFS_VOLUME fsop_getvolname; if bool_decide (kd_name kd = nm) || named nm volname then r ← fsop SFS_VOLUME fsop_getroot; mret (Some r) else mret None) F spec.
Proof using.
  intros Hspec. eapply vdoes_bind; [eapply (vdoes_fsop _ sfs_getvolname); [done|apply sfs_getvolname_does]|]. intros r F' (a' & -> & -> & ->). rewrite set_f_vol_id. unfold named.
  assert (bool_decide (Some (volume_name R0) = Some nm) = bool_decide (volume_name R0 = nm)) as -> by (apply bool_decide_ext; split; congruence). rewrite <-bool_decide_or. case_bool_decide.
  - eapply vdoes_bind; [eapply (vdoes_fsop _ sfs_getroot); [done|apply sfs_getroot_does]|]. intros r F' (a' & -> & Hr). apply vdoes_ret. by apply Hspec.
  - by apply vdoes_ret.
Qed.

Lemma vdoes_bind_ret {A B} (x : A) (k : A → M (vfs machine) B) F spec : vdoes (k x) F spec → vdoes (r ← mret x; k r) F spec.
Proof using. intros H s Hs. apply wp_bind, wp_ret. by apply H. Qed.

Lemma root_of_dev_does F kd nm : kd ∈ f_list F → kd_ok (f_devs F) kd → vdoes (root_of_dev kd nm) F (found F (root_of (volume_name R0) nm kd)).
Proof using.
  intros Hin Hok. pose proof (raw_name_does F kd nm Hin Hok) as Hraw. destruct Hok as [K1 K2 K3 K4]. unfold root_of_dev, root_of. cbn zeta. fold (raw_root nm kd). destruct (kd_fs kd) as [| |f] eqn:Ef.
  - destruct (bool_decide_reflect (kd_name kd = nm)) as [En|En]; [|rewrite andb_false_r; by apply vdoes_bind_ret]. destruct (kd_rawname kd) as [raw|] eqn:Er; apply vdoes_bind_ret.
    + apply vdoes_ret. eexists. split; [done|]. by split.
    + intros s Hs. apply wp_bind, wp_kassert. split; [done|]. apply wp_bind, wp_kassert. split; [done|].
      apply wp_bind, wp_kassert. split; [rewrite bool_decide_eq_false_2; [done|]; apply K3; by left|]. by apply hand_out.
  - specialize (K2 eq_refl). destruct (bool_decide_reflect (kd_name kd = nm)) as [En|En]; [|rewrite andb_false_r; by apply vdoes_bind_ret]. destruct (kd_rawname kd) as [raw|] eqn:Er; [|done].
    apply vdoes_bind_ret, vdoes_ret. eexists. split; [done|]. by split.
  - rewrite (K1 f eq_refl). eapply vdoes_bind; [apply (volume_root_does F kd nm (λ r F', if bool_decide (kd_name kd = nm ∨ volume_name R0 = nm)
      then ∃ x a', r = Some x ∧ F' = set_f_vol a' F ∧ look_spec (f_vol F) SFS_ROOTDIR_INO x a' else r = None ∧ F' = F)); destruct (decide (kd_name kd = nm ∨ volume_name R0 = nm)); [rewrite !bool_decide_eq_true_2 by done; intros r a' Hr; by exists r, a'|by rewrite !bool_decide_eq_false_2]|].
    intros r F'. cbn beta. destruct (decide (kd_name kd = nm ∨ volume_name R0 = nm)) as [E|E].
    + rewrite !(bool_decide_eq_true_2 (_ ∨ _)) by done. intros (x & a' & -> & -> & Hx). apply vdoes_ret. eexists. split; [done|]. cbn. eauto.
    + rewrite !(bool_decide_eq_false_2 (_ ∨ _)) by done. intros [-> ->]. by rewrite (bool_decide_eq_false_2 (kd_name kd = nm)) by (intros ?; apply E; by left).
Qed.

(** *** Loops over the devices *)

Lemma wp_kd_num s F Q : vrepr R0 s F → Q (Z.of_nat (length (f_list F))) s → wp knowndevarray_num Q s.
Proof using.
  intros Hs HQ. unfold knowndevarray_num, on_knowndevs, array_num. apply wp_zoom, wp_gets. rewrite <-(elems_length _ (vr_arr _ _ _ Hs)), (Forall2_length _ _ _ (vr_elems _ _ _ Hs)). by destruct s.
Qed.

Lemma wp_kd_get s F j kd Q : vrepr R0 s F → f_list F !! j = Some kd → (∀ p, v_kds s !! p = Some kd → Q p s) → wp (knowndevarray_get (Z.of_nat j)) Q s.
Proof using.
  intros Hs Hj HQ. destruct (Forall2_lookup_r _ _ _ _ _ (vr_elems _ _ _ Hs) Hj) as (p & Hp & Hkd). pose proof (array_get_run (Z.of_nat j) _ (vr_arr _ _ _ Hs) ltac:(lia)) as Hrun.
  rewrite Nat2Z.id, Hp in Hrun. unfold knowndevarray_get, on_knowndevs. apply wp_zoom. erewrite wp_eq by exact Hrun. replace (set_knowndevs _ s) with s by (by destruct s). by apply HQ.
Qed.

Lemma wp_each {B} (body : knowndev → M (vfs machine) (option B)) F (I : list knowndev → Prop) Q s : vrepr R0 s F → I (f_list F) →
  (∀ kd l s', kd ∈ f_list F → I (kd :: l) → vrepr R0 s' F → wp (body kd) (λ r s'', match r with Some b => Q (Some b) s'' | None => I l ∧ vrepr R0 s'' F end) s') →
  (∀ s', I [] → vrepr R0 s' F → Q None s') →
  wp (for_some (seqZ 0 (Z.of_nat (length (f_list F)))) (λ i, p ← knowndevarray_get i; kd ← get_kd p; body kd)) Q s.
Proof using.
  intros Hs HI Hbody HQ. apply (wp_for_some _ _ (λ l s', vrepr R0 s' F ∧ ∃ j, (j ≤ length (f_list F))%nat ∧ l = seqZ (Z.of_nat j) (Z.of_nat (length (f_list F) - j)) ∧ I (drop j (f_list F)))).
  - split; [done|]. exists 0%nat. split; [lia|]. split; [by rewrite Nat.sub_0_r|done].
  - intros i l' s' (Hs' & j & Hj & El & HIj). destruct (decide (j = length (f_list F))) as [->|Hne]; [by rewrite Nat.sub_diag in El|]. rewrite seqZ_cons in El by lia. injection El as -> ->.
    destruct (lookup_lt_is_Some_2 (f_list F) j ltac:(lia)) as [kd Hkd]. rewrite (drop_S _ _ _ Hkd) in HIj. apply wp_bind. eapply wp_kd_get; [done|done|]. intros p Hp. apply wp_bind. unfold get_kd.
    apply wp_bind, wp_gets. rewrite Hp. apply wp_ret. eapply wp_mono; [apply (Hbody kd (drop (S j) (f_list F)) s'); [by eapply list_elem_of_lookup_2|done|done]|].
    intros [b|] s'' Hb; [done|]. destruct Hb as [HI' Hs'']. split; [done|]. exists (S j). split; [lia|]. split; [|done]. f_equal; lia.
  - intros s' (Hs' & j & Hj & El & HIj). apply (HQ s'); [|done]. destruct (decide (j = length (f_list F))) as [->|Hne]; [by rewrite drop_all in HIj|]. by rewrite seqZ_cons in El by lia.
Qed.
End vsteps.

(** ** References *)

Lemma repr_pos R0 s a v ino n : repr R0 s a → a_open a !! v = Some (ino, n) → 0 < n.
Proof.
  intros (R & w & I & Hst & Hm & Hr) Ho. destruct (open_node w I a v ino n Hr Ho) as (x & Hx & _ & <-). by apply (tb_node _ _ _ _ (mv_table _ _ _ _ Hm) v x).
Qed.

(** One more reference *)
Lemma ref_more a v ino n : a_open a !! v = Some (ino, n) → a_open (a_ref v ino a) !! v = Some (ino, 1 + n).
Proof. intros Ho. cbn. rewrite lookup_insert_eq. by rewrite Ho. Qed.

(** A reference that is taken and given back *)
Lemma unref_ref a v ino n : a_open a !! v = Some (ino, n) → 0 < n → a_unref v ino (1 + n) (a_ref v ino a) = a.
Proof.
  intros Ho Hn. unfold a_unref. rewrite (proj2 (Z.ltb_lt 1 (1 + n))) by lia. unfold a_ref, set_a_open. cbn. rewrite insert_insert_eq, insert_id; [by destruct a|]. rewrite Ho. do 2 f_equal. lia.
Qed.

(** ... while another one is taken *)
Lemma ref_unref a v ino n v' : a_open a !! v = Some (ino, n) → 0 < n → a_vnode (a_ref v ino a) v' ino →
  ∃ m, a_open (a_ref v' ino (a_ref v ino a)) !! v = Some (ino, m) ∧ a_unref v ino m (a_ref v' ino (a_ref v ino a)) = a_ref v' ino a ∧ a_vnode a v' ino.
Proof.
  intros Ho Hn Hv. unfold a_vnode in *. cbn in Hv |- *. rewrite Ho. cbn. destruct (decide (v' = v)) as [->|Hne].
  - exists (2 + n). rewrite !lookup_insert_eq, Ho. split; [do 2 f_equal; cbn; lia|]. split; [|done]. unfold a_unref. rewrite (proj2 (Z.ltb_lt 1 (2 + n))) by lia. unfold a_ref, set_a_open. cbn.
    rewrite !insert_insert_eq, Ho. cbn. do 3 f_equal. lia.
  - exists (1 + n). rewrite lookup_insert_ne in Hv by done. rewrite !(lookup_insert_ne _ v' v), lookup_insert_eq by done. split; [done|]. split.
    + unfold a_unref. rewrite (proj2 (Z.ltb_lt 1 (1 + n))) by lia. unfold a_ref, set_a_open. cbn. rewrite Ho, lookup_insert_ne by done. cbn. f_equal.
      rewrite (insert_insert_ne _ v v') by done. rewrite insert_insert_eq. rewrite (insert_id (a_open a) v); [done|]. rewrite Ho. do 2 f_equal. lia.
    + destruct (a_open a !! v') as [[j m]|] eqn:E; [done|]. exfalso. by eapply (Hv v ino); [apply lookup_insert_eq|].
Qed.

Section biglock.
Context {U : Type} {uops : UioOps U} {ulaws : UioLaws U}.
Context (R0 : srest).

Lemma vrepr_depth s F : vrepr R0 s F → 0 < r_depth R0.
Proof using.
  intros [(R & w & I & (_ & _ & _ & E) & Hm & _) _ _ _ _ _ _ _ _ _]. rewrite <-E. apply (sh_held _ _ _ (mv_mounted _ _ _ _ Hm)).
Qed.

Lemma wp_biglock_acquire s F Q : vrepr R0 s F → (∀ s', vrepr (deeper R0) s' F → Q tt s') → wp biglock_acquire Q s.
Proof using.
  intros Hs HQ. unfold biglock_acquire, on_sys. cbn [sys_acquire machine_sys]. unfold on_sfs. apply wp_zoom, wp_zoom. eapply repr_deeper; [apply Hs|]. intros s' Hs'. apply HQ.
  destruct Hs as [H1 H2 H3 H4 H5 H6 H7 H8 H9 H10 H11 H12]. by split.
Qed.

Lemma wp_biglock_release s F Q : 0 < r_depth R0 → vrepr (deeper R0) s F → (∀ s', vrepr R0 s' F → Q tt s') → wp biglock_release Q s.
Proof using.
  intros Hd Hs HQ. unfold biglock_release, on_sys. cbn [sys_release machine_sys]. unfold on_sfs. apply wp_zoom, wp_zoom. eapply (deeper_repr R0); [done|apply Hs|]. intros s' Hs'. apply HQ.
  destruct Hs as [H1 H2 H3 H4 H5 H6 H7 H8 H9 H10 H11 H12]. by split.
Qed.

Lemma wp_vleave {A} s F (r : A) (spec : A → avfs → Prop) : 0 < r_depth R0 → vrepr (deeper R0) s F → spec r F →
  wp (biglock_release ;; mret r) (λ r s', ∃ F', vrepr R0 s' F' ∧ spec r F') s.
Proof using. intros Hd Hs Hr. apply wp_bind. eapply wp_biglock_release; [done|done|]. intros s' Hs'. apply wp_ret. eauto. Qed.

Lemma wp_biglock_held s F Q : 0 < r_depth R0 → vrepr (deeper R0) s F → Q true s → wp biglock_held Q s.
Proof using.
  intros Hd Hs HQ. unfold biglock_held, on_sys. cbn [sys_held machine_sys]. unfold on_sfs. apply wp_zoom, wp_zoom. eapply (repr_held R0); [apply Hs|done|]. by destruct s as [[] ? ? ? ? ? ? ? ?].
Qed.

(** *** [vfs_getroot] and [getdevice], with the lock held *)

Lemma vfs_getroot_does F nm : 0 < r_depth R0 → vdoes (deeper R0) (vfs_getroot nm) F (root_spec F (find_root (volume_name R0) nm (f_list F))).
Proof using.
  intros Hd s Hs. unfold vfs_getroot. apply wp_bind. eapply wp_biglock_held; [done|done|]. apply wp_bind, wp_kassert. split; [done|]. apply wp_bind. eapply wp_kd_num; [done|]. apply wp_bind.
  apply (wp_each (deeper R0) (λ kd, root_of_dev kd nm) F (λ l, find_root (volume_name R0) nm l = find_root (volume_name R0) nm (f_list F))); [done|done| |].
  - intros kd l s' Hin Hl Hs'. pose proof (proj1 (Forall_forall _ _) (vr_kds _ _ _ Hs') kd Hin) as Hok. eapply wp_mono; [by apply (root_of_dev_does (deeper R0) F kd nm Hin Hok)|].
    intros r s'' (F' & Hs'' & Hr). change (volume_name (deeper R0)) with (volume_name R0) in Hr. cbn [find_root] in Hl. rewrite <-Hl. unfold found in Hr. destruct (root_of (volume_name R0) nm kd) as [rt|].
    + destruct Hr as (x & -> & Hx). apply wp_ret. eauto.
    + destruct Hr as [-> ->]. done.
  - intros s' Hl Hs'. apply wp_ret. rewrite <-Hl. exists F. split; [done|]. by split.
Qed.

(** The vnode a path starts from, with a reference *)
Definition start_spec (F : avfs) (st : start) (r : Z * Z) (F' : avfs) : Prop :=
  match st with
  | SCurrent => curdir_spec F r F'
  | SRoot => match f_cwd F with None => r.1 = ENOENT ∧ F' = F | Some _ => ∃ a', F' = set_f_vol a' F ∧ look_spec (f_vol F) SFS_ROOTDIR_INO r a' end
  | SBoot => match f_boot F with None => r.1 = ENOENT ∧ F' = F | Some v => r = (0, v) ∧ F' = set_f_vol (a_ref v SFS_ROOTDIR_INO (f_vol F)) F end
  | SDevice nm => root_spec F (find_root (volume_name R0) nm (f_list F)) r F'
  end.

Definition getdevice_spec (F : avfs) (path : list Z) (r : Z * list Z * Z) (F' : avfs) : Prop :=
  match parse path with
  | None => r.1.1 = EINVAL ∧ F' = F
  | Some (st, rest) => start_spec F st (r.1.1, r.2) F' ∧ (r.1.1 = 0 → r.1.2 = rest)
  end.

(** After an error there is no vnode. *)
Lemma start_error F st r F' x : start_spec F st r F' → r.1 ≠ 0 → start_spec F st (r.1, x) F'.
Proof using.
  unfold start_spec, curdir_spec, root_spec, look_spec. destruct st as [| | |nm].
  - destruct (f_cwd F); [|done]. by intros [-> _].
  - destruct (f_cwd F); [|done]. intros (a' & -> & [[E ->]|[E _]]) Hne; [|done]. exists (f_vol F). split; [done|]. by left.
  - destruct (f_boot F); [|done]. by intros [-> _].
  - destruct (find_root _ _ _); [|by intros [-> _]|done]. intros (a' & -> & [[E ->]|[E _]]) Hne; [|done]. exists (f_vol F). split; [done|]. by left.
Qed.

(** [:path] *)
Lemma root_of_current F : dirs_open F → vdoes (deeper R0)
  (r ← vfs_getcurdir;
   if negb (r.1 =? 0) then mret (r.1, 0)
   else
     fs ← on_sys (sys_fs r.2);
     fs ← assert_some fs "vn->vn_fs!=NULL";
     root ← fsop fs fsop_getroot;
     vop_decref r.2 ;;
     mret root) F (start_spec F SRoot).
Proof using.
  intros [Hcwd _] s0 Hs0. apply wp_bind. eapply wp_mono; [by apply vfs_getcurdir_does|]. intros r s (F1 & Hs & Hr). unfold curdir_spec in Hr. unfold start_spec. destruct (f_cwd F) as [v|] eqn:Ev.
  - destruct Hr as [-> ->]. cbn [fst snd Z.eqb negb]. destruct (Hcwd v eq_refl) as [n Ho]. pose proof (ref_more _ _ _ _ Ho) as Ho1. pose proof (repr_pos _ _ _ _ _ _ (vr_vol _ _ _ Hs0) Ho) as Hn.
    cbn [f_vol set_f_vol] in *. apply wp_bind. unfold on_sys. apply wp_zoom. cbn [sys_fs machine_sys]. unfold is_sfs. apply wp_bind, wp_gets.
    destruct (repr_nonneg _ _ _ _ _ _ (vr_vol _ _ _ Hs) Ho1) as [_ Hnode]. rewrite bool_decide_eq_true_2 by done. apply wp_ret. replace (set_v_sys (v_sys s) s) with s by (by destruct s).
    apply wp_bind. unfold assert_some. apply wp_ret. apply wp_bind. eapply wp_mono; [eapply (vdoes_fsop _ _ sfs_getroot); [done|apply sfs_getroot_does|exact Hs]|].
    intros rt s2 (F2 & Hs2 & a2 & -> & Hlook). cbn [f_vol set_f_vol] in *. apply wp_bind. destruct Hlook as [[E ->]|(E & Hvn & ->)].
    + eapply wp_vdecref; [exact Hs2|exact Ho1|]. intros s3 Hs3. apply wp_ret. eexists. split; [exact Hs3|]. exists (f_vol F). cbn. rewrite (unref_ref _ _ _ _ Ho Hn). split; [done|]. by left.
    + destruct (ref_unref _ _ _ _ _ Ho Hn Hvn) as (m & Hm & Em & Hv0). eapply wp_vdecref; [exact Hs2|exact Hm|]. intros s3 Hs3. apply wp_ret. eexists. split; [exact Hs3|].
      eexists. cbn. rewrite Em. split; [done|]. by right.
  - destruct Hr as [E ->]. rewrite E. apply wp_ret. eauto.
Qed.

(** [/path] and [:path]: the vnode is [r], and the slashes are skipped. *)
Lemma after_start F st path s r F1 : path_ok path → path ≠ [] → vrepr (deeper R0) s F1 → start_spec F st r F1 →
  parse path = Some (st, strip (drop 1 path)) →
  wp (if negb (r.1 =? 0) then mret (r.1, [], 0) else i ← skip_slashes path 0; mret (0, from (i + 1) path, r.2))
    (λ r s', ∃ F', vrepr (deeper R0) s' F' ∧ getdevice_spec F path r F') s.
Proof using.
  intros Hp Hne Hs Hr Hparse. unfold getdevice_spec. rewrite Hparse. destruct (Z.eqb_spec r.1 0) as [E|E]; cbn [negb].
  - apply wp_bind. apply wp_skip_slashes; [done|destruct path; [done|cbn; lia]|]. intros j Hj Ej. apply wp_ret. exists F1. split; [done|]. cbn. split; [|by intros _].
    replace (0, r.2) with r by (rewrite <-E; by destruct r). done.
  - apply wp_ret. exists F1. split; [done|]. cbn. split; [by apply start_error|done].
Qed.

Lemma getdevice_does F path : 0 < r_depth R0 → path_ok path → dirs_open F → vdoes (deeper R0) (getdevice path) F (getdevice_spec F path).
Proof using.
  intros Hd Hp Ho s Hs. unfold getdevice. apply wp_bind. eapply wp_biglock_held; [done|done|]. apply wp_bind, wp_kassert. split; [done|]. apply wp_bind, wp_char_at; [lia|].
  destruct (decide (path = [])) as [->|Hne]; [change (default 0 ([] !! Z.to_nat 0)) with 0; cbn [Z.eqb]; apply wp_ret; exists F; by split|].
  assert (∃ c p, path = c :: p) as (c & p & Ep) by (destruct path; [done|eauto]). assert (path !! 0%nat = Some c) as H0 by (by subst). change (Z.to_nat 0) with 0%nat. rewrite H0.
  cbn [from_option id]. assert (c ≠ 0) as Hc by (destruct Hp as [Hnz _]; rewrite Ep in Hnz; by apply Forall_cons in Hnz as [? _]). rewrite (proj2 (Z.eqb_neq c 0)) by done. apply wp_bind, wp_find_mark; [done|].
  assert (∀ rest, parse path = Some (SCurrent, rest) → rest = path → wp (r ← vfs_getcurdir; mret (r.1, path, r.2)) (λ r s', ∃ F', vrepr (deeper R0) s' F' ∧ getdevice_spec F path r F') s) as Hcur.
  { intros rest Hparse ->. apply wp_bind. eapply wp_mono; [apply vfs_getcurdir_does; [apply Ho|done]|]. intros r s1 (F1 & Hs1 & Hr). apply wp_ret. exists F1. split; [done|]. unfold getdevice_spec. rewrite Hparse. split; [by destruct r|done]. }
  unfold marks. unfold parse in Hcur. destruct (list_find is_mark path) as [[i ch]|] eqn:Ef.
  2:{ cbn [Z.ltb Z.compare Z.eqb andb negb]. eapply Hcur; [by rewrite Ep at 1|done]. }
  apply list_find_Some in Ef as Ef'. destruct Ef' as (Hi & Hmark & _). pose proof (lookup_lt_Some _ _ _ Hi) as Hlt. destruct Hmark as [->| ->].
  - rewrite Z.eqb_refl. assert (parse path = if (i =? 0)%nat then Some (SRoot, strip (drop 1 path)) else Some (SDevice (take i path), strip (drop (S i) path))) as Hparse by (unfold parse; rewrite Ef; by rewrite Ep at 1).
    rewrite (proj2 (Z.ltb_ge (Z.of_nat i) 0)) by lia. cbn [andb]. destruct (Nat.eqb_spec i 0) as [->|Hi0].
    + rewrite H0 in Hi. injection Hi as ->. cbn [Z.of_nat Z.ltb Z.compare Z.eqb orb]. apply wp_bind, wp_kassert. split; [done|]. apply wp_bind. change (colon =? slash) with false. cbn iota.
      apply wp_bind, wp_kassert. split; [done|]. eapply wp_mono; [by apply root_of_current|]. intros r s1 (F1 & Hs1 & Hr). by eapply after_start.
    + rewrite (proj2 (Z.ltb_lt 0 (Z.of_nat i))) by lia. apply wp_bind. apply wp_skip_slashes; [done|lia|]. intros j Hj Ej. apply wp_bind. rewrite Nat2Z.id.
      eapply wp_mono; [by apply vfs_getroot_does|]. intros r s1 (F1 & Hs1 & Hr). unfold getdevice_spec. rewrite Hparse. destruct (Z.eqb_spec r.1 0) as [E|E]; cbn [negb]; apply wp_ret; exists F1; (split; [done|]); cbn.
      * split; [replace (0, r.2) with r by (rewrite <-E; by destruct r); done|]. intros _. rewrite Ej. unfold from. do 2 f_equal. lia.
      * split; [by apply (start_error F (SDevice (take i path)))|done].
  - rewrite (proj2 (Z.eqb_neq slash colon)) by done. destruct (Nat.eqb_spec i 0) as [->|Hi0].
    + rewrite H0 in Hi. injection Hi as ->. cbn [Z.of_nat Z.ltb Z.compare Z.eqb orb andb negb]. apply wp_bind, wp_kassert. split; [done|]. apply wp_bind. rewrite Z.eqb_refl. apply wp_bind, wp_gets. rewrite (vr_boot _ _ _ Hs).
      assert (parse path = Some (SBoot, strip (drop 1 path))) as Hparse by (unfold parse; rewrite Ef; by rewrite Ep at 1). destruct (f_boot F) as [v|] eqn:Eb.
      * destruct (proj2 Ho v Eb) as [n Hv]. apply wp_bind. eapply wp_incref; [apply Hs|exact Hv|]. intros s' Hs'. apply wp_ret. eapply after_start; [done|done|exact (vrepr_vol _ _ _ _ _ Hs Hs')| |done]. cbn. by rewrite Eb.
      * apply wp_ret. eapply after_start; [done|done|exact Hs| |done]. cbn. by rewrite Eb.
    + rewrite (proj2 (Z.eqb_neq (Z.of_nat i) 0)) by lia. cbn [Z.ltb Z.compare andb negb]. eapply Hcur; [by rewrite Ep at 1|done].
Qed.
End biglock.
