(* ===== verification/VfsVolume.v ===== *)
(** * Operations on paths of the volume

    A path that leads to the volume names a file of its directory.  The
    specifications of [SfsSpec] are lifted to paths: the references that the
    VFS layer takes on the way are given back.  The current directory and the
    boot file system. *)

From S2P Require Import Prelude Machine Pt Spinlock Kernel Bitmap Array Xfer Lhd Sfs SfsInv SfsOk SfsBmap SfsFile SfsIo SfsTrunc SfsDir SfsMeta SfsNode Vnode SfsSpec SfsOps SfsRefine SfsMount SfsClient Device Vfs VfsPath OneDisk VfsRefine.

Local Abbreviation ROOT := SFS_ROOTDIR_INO.

(** ** One more reference of the root directory *)

(** What is known of an abstract volume between calls *)
Record a_good (a : avol) : Prop := {
  ag_wf : a_wf a;
  ag_root : a_data a !! ROOT = None;
  ag_pos v ino n : a_open a !! v = Some (ino, n) → 0 < n
}.

Lemma repr_good R0 s a : repr R0 s a → a_good a.
Proof.
  intros Hs. split; [..|intros v ino n; by eapply repr_pos].
  - destruct Hs as (R & w & I & _ & _ & Hr). apply Hr.
  - destruct Hs as (R & w & I & _ & _ & Hr). apply (fr_data _ _ _ _ _ (rp_files _ _ _ Hr)).
Qed.

Lemma named_file a nm ino : a_good a → a_names a !! nm = Some ino → ino ≠ ROOT.
Proof. intros [H1 H2 _]. by apply names_file. Qed.

(** The reference is given back. *)
Lemma unref_root a v : a_good a → a_vnode a v ROOT → a_unref v ROOT (1 + default 0 (snd <$> a_open a !! v)) (a_ref v ROOT a) = a.
Proof. intros [H1 H2 H3] Hv. rewrite a_unref_ref; [|done|intros j n; apply H3]. apply a_gc_keep. auto. Qed.

Lemma ref_comm a v ino v' ino' : v ≠ v' → a_ref v ino (a_ref v' ino' a) = a_ref v' ino' (a_ref v ino a).
Proof. intros Hne. unfold a_ref, set_a_open. cbn. rewrite !lookup_insert_ne by done. f_equal. by apply insert_insert_ne. Qed.

Section frame.
Context (a : avol) (v : Z).
Context (Ha : a_good a) (Hv : a_vnode a v ROOT).
Local Abbreviation a1 := (a_ref v ROOT a).

Lemma ref_vnode : a_open a1 !! v = Some (ROOT, 1 + default 0 (snd <$> a_open a !! v)).
Proof using. cbn. by rewrite lookup_insert_eq. Qed.

(** The vnode of another file *)
Lemma frame_vnode v' ino : ino ≠ ROOT → a_vnode a1 v' ino → v' ≠ v ∧ a_vnode a v' ino.
Proof using Hv.
  intros Hne Hv'. unfold a_vnode in *. assert (v' ≠ v) as Hn by (intros ->; rewrite ref_vnode in Hv'; congruence). split; [done|]. cbn in Hv'. rewrite lookup_insert_ne in Hv' by done.
  destruct (a_open a !! v'); [done|]. intros sv j n Hsv. destruct (decide (sv = v)) as [->|Hsn].
  - unfold a_vnode in Hv. rewrite Hsv in Hv. congruence.
  - apply (Hv' sv j n). by rewrite lookup_insert_ne by done.
Qed.

Lemma frame_ref v' ino : ino ≠ ROOT → a_vnode a v' ino → v' ≠ v → a_vnode (a_ref v' ino a) v ROOT.
Proof using Hv.
  intros Hne Hv' Hn. unfold a_vnode in *. cbn. rewrite lookup_insert_ne by done. destruct (a_open a !! v); [done|]. intros sv j n. destruct (decide (sv = v')) as [->|Hsn].
  - rewrite lookup_insert_eq. by intros [= <- _].
  - rewrite lookup_insert_ne by done. apply Hv.
Qed.

Definition framed {A} (spec1 spec : A → avol → Prop) : Prop := ∀ r a2, spec1 r a2 → ∃ a', a2 = a_ref v ROOT a' ∧ spec r a' ∧ a_vnode a' v ROOT ∧ a_open a' !! v = a_open a !! v.

Lemma frame_look ino : ino ≠ ROOT → framed (look_spec a1 ino) (look_spec a ino).
Proof using Hv.
  intros Hne r a2 [[E ->]|(E & Hvn & ->)].
  - exists a. split; [done|]. split; [by left|done].
  - destruct (frame_vnode _ _ Hne Hvn) as [Hn Hv']. exists (a_ref r.2 ino a). split; [by apply ref_comm|]. split; [by right|]. split; [by apply frame_ref|]. cbn. by rewrite lookup_insert_ne.
Qed.

Lemma frame_lookup nm : framed (lookup_spec a1 nm) (lookup_spec a nm).
Proof using Hv Ha.
  intros r a2. unfold lookup_spec. cbn [a_names a_ref set_a_open]. destruct (a_names a !! nm) as [ino|] eqn:E.
  - apply frame_look. by eapply named_file.
  - intros [Hr ->]. by exists a.
Qed.

Lemma frame_creat nm excl : framed (creat_spec a1 nm excl) (creat_spec a nm excl).
Proof using Hv Ha.
  intros r a2. unfold creat_spec. cbn [a_names a_data a_ref set_a_open]. destruct (a_names a !! nm) as [ino|] eqn:E.
  - destruct excl; [intros [Hr ->]; by exists a|]. apply frame_look. by eapply named_file.
  - intros [[Hr ->]|(Hr & Hlen & ino & Hne & Hd & Ho & Hvn & ->)]; [exists a; split; [done|]; split; [by left|done]|].
    assert (r.2 ≠ v) as Hn by (intros E2; rewrite E2, ref_vnode in Ho; done).
    destruct (frame_vnode _ _ Hne Hvn) as [_ Hvn']. assert (a_open a !! r.2 = None) as Ho' by (cbn in Ho; by rewrite lookup_insert_ne in Ho by done).
    exists (mk_avol (<[nm := ino]> (a_names a)) (<[ino := []]> (a_data a)) (<[r.2 := (ino, 1)]> (a_open a))). split; [|split; [|split; [|cbn; by rewrite lookup_insert_ne]]].
    + unfold a_ref, set_a_open. cbn. rewrite (lookup_insert_ne _ r.2 v) by done. f_equal. by apply insert_insert_ne.
    + right. split; [done|]. split; [done|]. by exists ino.
    + pose proof (frame_ref r.2 ino Hne Hvn' Hn) as Hf. unfold a_vnode in *. cbn in *. rewrite lookup_insert_ne in * by done. destruct (a_open a !! v); [done|].
      intros sv j n. destruct (decide (sv = r.2)) as [->|Hsn]; [rewrite lookup_insert_eq; by intros [= <- _]|]. rewrite lookup_insert_ne by done. apply Hv.
Qed.

Lemma frame_remove nm : framed (remove_spec a1 nm) (remove_spec a nm).
Proof using Hv Ha.
  intros r a2. unfold remove_spec. cbn [a_names a_ref set_a_open]. destruct (a_names a !! nm) as [ino|] eqn:E; [|intros [Hr ->]; by exists a].
  intros [[Hr ->]|[Hr ->]]; [exists a; split; [done|]; split; [by left|done]|]. eexists. split; [|split; [by right|]].
  - unfold a_gc. cbn. pose proof (named_file a nm ino Ha E) as Hne.
    assert ((links (delete nm (a_names a)) ino = 0%nat ∧ ∀ sv p, <[v := (ROOT, 1 + default 0 (snd <$> a_open a !! v))]> (a_open a) !! sv = Some p → p.1 ≠ ino) ↔
      (links (delete nm (a_names a)) ino = 0%nat ∧ ∀ sv p, a_open a !! sv = Some p → p.1 ≠ ino)) as Heq.
    { split; intros [H1 H2]; (split; [done|]); intros sv p Hp.
      - destruct (decide (sv = v)) as [->|Hn]; [|apply (H2 sv); by rewrite lookup_insert_ne]. unfold a_vnode in Hv. rewrite Hp in Hv. destruct p as [j q]. cbn. congruence.
      - destruct (decide (sv = v)) as [->|Hn]; [rewrite lookup_insert_eq in Hp; injection Hp as <-; cbn; congruence|]. rewrite lookup_insert_ne in Hp by done. by apply (H2 sv). }
    do 2 case_decide; (done || tauto).
  - unfold a_gc, a_vnode in *. by case_decide.
Qed.

Lemma frame_rename n1 n2 : framed (rename_spec a1 n1 n2) (rename_spec a n1 n2).
Proof using Hv.
  intros r a2. unfold rename_spec, rename_found. cbn [a_names a_ref set_a_open]. destruct (a_names a !! n1) as [ino|]; [|intros [Hr ->]; by exists a].
  intros [[Hr ->]|H]; [exists a; split; [done|]; split; [by left|done]|]. destruct (a_names a !! n2).
  - destruct H as [Hr ->]. exists a. split; [done|]. split; [by right|done].
  - destruct H as [[Hr ->]|(Hr & Hl & ->)]; [exists a; split; [done|]; split; [right; by left|done]|]. eexists. split; [|split; [right; right; done|done]]. done.
Qed.
End frame.

(** ** Paths of the volume *)

Section volume.
Context {U : Type} {uops : UioOps U} {ulaws : UioLaws U}.
Context (R0 : srest).

(** The path leads to the volume, and [rest] is left of it. *)
Definition on_volume (F : avfs) (path rest : list Z) : Prop :=
  ∃ st, parse path = Some (st, rest) ∧
    match st with
    | SCurrent | SRoot => f_cwd F ≠ None
    | SBoot => f_boot F ≠ None
    | SDevice nm => find_root (volume_name R0) nm (f_list F) = RVolume
    end.

Lemma open_vnode a o v : dir_open a o → o = Some v → a_vnode a v ROOT.
Proof using. intros Hd ->. destruct (Hd v eq_refl) as [n Ho]. unfold a_vnode. by rewrite Ho. Qed.

Lemma wp_getdevice s F path rest Q : vrepr (deeper R0) s F → 0 < r_depth R0 → path_ok path → dirs_open F → on_volume F path rest →
  (∀ s' sub x, vrepr (deeper R0) s' F → Q (ENOMEM, sub, x) s') →
  (∀ s' v, vrepr (deeper R0) s' (set_f_vol (a_ref v ROOT (f_vol F)) F) → a_vnode (f_vol F) v ROOT → Q (0, rest, v) s') → wp (getdevice path) Q s.
Proof using.
  intros Hs Hd Hp Ho (st & Hparse & Hst) Herr HQ. eapply wp_mono; [by apply getdevice_does|]. intros [[r sub] v] s' (F' & Hs' & Hr). unfold getdevice_spec in Hr. rewrite Hparse in Hr. cbn in Hr. destruct Hr as [Hr Hsub].
  assert (∀ a', F' = set_f_vol a' F → look_spec (f_vol F) ROOT (r, v) a' → Q (r, sub, v) s') as Hlook.
  { intros a' -> [[E ->]|(E & Hv & ->)]; cbn in E; subst r; [apply Herr; by rewrite set_f_vol_id in Hs'|]. rewrite (Hsub eq_refl). by apply HQ. }
  assert (∀ o v0, dir_open (f_vol F) o → o = Some v0 → (r, v) = (0, v0) → F' = set_f_vol (a_ref v0 ROOT (f_vol F)) F → Q (r, sub, v) s') as Hdir.
  { intros o v0 Hdo Eo [= -> ->] ->. rewrite (Hsub eq_refl). apply HQ; [done|]. by eapply open_vnode. }
  destruct Ho as [Ho1 Ho2]. unfold start_spec, curdir_spec in Hr. destruct st as [| | |nm].
  - destruct (f_cwd F) as [w|]; [|done]. destruct Hr as [E ->]. exact (Hdir _ w Ho1 eq_refl E eq_refl).
  - destruct (f_cwd F) as [w|] eqn:Ew; [|done]. destruct Hr as (a' & -> & Hl). by eapply Hlook.
  - destruct (f_boot F) as [w|]; [|done]. destruct Hr as [E ->]. exact (Hdir _ w Ho2 eq_refl E eq_refl).
  - rewrite Hst in Hr. destruct Hr as (a' & -> & Hl). by eapply Hlook.
Qed.

(** The reference of the root directory is given back. *)
Lemma wp_give_back R s F a a' v Q : vrepr R s (set_f_vol (a_ref v ROOT a') F) → a_good a → a_vnode a' v ROOT → a_open a' !! v = a_open a !! v →
  (∀ s', vrepr R s' (set_f_vol a' F) → Q tt s') → wp (vop_decref v) Q s.
Proof using.
  intros Hs Ha Hv Ho HQ. eapply wp_vdecref; [exact Hs|apply ref_open|]. intros s'. cbn [f_vol set_f_vol]. rewrite a_unref_ref; [|done|intros j n; rewrite Ho; apply Ha].
  rewrite a_gc_keep; [apply HQ|]. right; right. apply (ag_root _ (repr_good _ _ _ (vr_vol _ _ _ Hs))).
Qed.

Definition path_lookup (a : avol) (rest : list Z) (r : Z * Z) (a' : avol) : Prop :=
  (r.1 = ENOMEM ∧ a' = a) ∨ if decide (rest = []) then look_spec a ROOT r a' else lookup_spec a rest r a'.

Definition lifted {A} (F : avfs) (spec : A → avol → Prop) (r : A) (F' : avfs) : Prop := ∃ a', F' = set_f_vol a' F ∧ spec r a'.

Lemma vfs_lookup_does F path rest : path_ok path → dirs_open F → on_volume F path rest → vdoes R0 (vfs_lookup path) F (lifted F (path_lookup (f_vol F) rest)).
Proof using.
  intros Hp Ho Hvol s Hs. pose proof (vrepr_depth _ _ _ Hs) as Hd. pose proof (repr_good _ _ _ (vr_vol _ _ _ Hs)) as Hg. unfold vfs_lookup, path_lookup. apply wp_bind. eapply wp_biglock_acquire; [done|]. intros s1 Hs1. apply wp_bind.
  eapply wp_getdevice; [done|done|done|done|done| |].
  - intros s2 sub x Hs2. change (ENOMEM =? 0) with false. cbn [negb]. eapply wp_vleave; [done|exact Hs2|]. exists (f_vol F). rewrite set_f_vol_id. split; [done|]. by left.
  - intros s2 v Hs2 Hv. cbn [Z.eqb negb]. destruct (decide (rest = [])) as [->|Hne].
    + cbn [length Z.of_nat Z.eqb]. eapply wp_vleave; [done|exact Hs2|]. eexists. split; [done|]. right. by right.
    + rewrite (proj2 (Z.eqb_neq (Z.of_nat (length rest)) 0)) by (destruct rest; cbn; (done || lia)). apply wp_bind.
      eapply (wp_vop _ _ _ _ v ROOT _ _ (λ o, vop_lookup o v rest)); [exact Hs2|apply ref_open|done|eapply (sfs_lookup_does _ _ v); apply ref_open|]. intros r s3 a2 Hs3 Hr. destruct (frame_lookup _ v Hg Hv rest r a2 Hr) as (a' & -> & Hr' & Hv' & Ho'). apply wp_bind. eapply wp_give_back; [exact Hs3|exact Hg|done|done|].
      intros s4 Hs4. eapply wp_vleave; [done|exact Hs4|]. exists a'. split; [done|]. by right.
Qed.

(** *** The parent directory *)

(** An operation [spec] on the name [rest]; the name has to fit into the
    buffer. *)
Definition in_parent {A} (code : A → Z) (a : avol) (rest : list Z) (spec : A → avol → Prop) (r : A) (a' : avol) : Prop :=
  (code r = ENOMEM ∧ a' = a) ∨
  if decide (rest = []) then code r = EINVAL ∧ a' = a
  else if decide (Z.of_nat (length rest) < NAMEBUF) then spec r a'
  else code r = ENAMETOOLONG ∧ a' = a.

Lemma wp_lookparent s F path rest Q : vrepr R0 s F → path_ok path → dirs_open F → on_volume F path rest →
  (∀ s' e x, vrepr R0 s' F → e ≠ 0 → (∀ A code (spec : A → avol → Prop) r, code r = e → in_parent code (f_vol F) rest spec r (f_vol F)) → Q (e, x) s') →
  (∀ s' v, vrepr R0 s' (set_f_vol (a_ref v ROOT (f_vol F)) F) → a_vnode (f_vol F) v ROOT → (∀ A code (spec : A → avol → Prop) r a', spec r a' → in_parent code (f_vol F) rest spec r a') → Q (0, (v, rest)) s') →
  wp (vfs_lookparent path NAMEBUF) Q s.
Proof using.
  intros Hs Hp Ho Hvol Herr HQ. pose proof (vrepr_depth _ _ _ Hs) as Hd. pose proof (repr_good _ _ _ (vr_vol _ _ _ Hs)) as Hg. unfold vfs_lookparent. apply wp_bind. eapply wp_biglock_acquire; [done|]. intros s1 Hs1. apply wp_bind.
  eapply wp_getdevice; [done|done|done|done|done| |].
  - intros s2 sub x Hs2. change (ENOMEM =? 0) with false. cbn [negb]. apply wp_bind. eapply wp_biglock_release; [done|done|]. intros s3 Hs3. apply wp_ret. apply Herr; [done|done|]. intros; by left.
  - intros s2 v Hs2 Hv. cbn [Z.eqb negb]. apply wp_bind. assert (∀ s3 e x, vrepr (deeper R0) s3 (set_f_vol (a_ref v ROOT (f_vol F)) F) → e ≠ 0 → (∀ A code (spec : A → avol → Prop) r, code r = e → in_parent code (f_vol F) rest spec r (f_vol F)) →
      wp (vop_decref v ;; biglock_release ;; mret (e, x)) Q s3) as Hback.
    { intros s3 e x Hs3 He Hin. apply wp_bind. eapply wp_give_back; [exact Hs3|exact Hg|done|done|]. intros s4 Hs4. apply wp_bind. eapply wp_biglock_release; [done|exact Hs4|]. intros s5 Hs5. apply wp_ret.
      apply Herr; [|done|done]. by rewrite set_f_vol_id in Hs5. }
    destruct (decide (rest = [])) as [->|Hne]; [cbn [length Z.of_nat Z.eqb]; apply wp_ret; apply Hback; [done|done|]; intros; by right|].
    rewrite (proj2 (Z.eqb_neq (Z.of_nat (length rest)) 0)) by (destruct rest; cbn; (done || lia)).
    eapply (wp_vop _ _ _ _ v ROOT _ _ (λ o, vop_lookparent o v rest NAMEBUF)); [exact Hs2|apply ref_open|done|eapply (sfs_lookparent_does _ _ v); apply ref_open|]. intros r s3 a2 Hs3 Hr.
    cbn beta in Hr. case_decide as Hlen.
    + destruct Hr as [-> ->]. apply wp_bind. pose proof (repr_good _ _ _ (vr_vol _ _ _ Hs2)) as Hg2. eapply (wp_give_back _ _ F (a_ref v ROOT (f_vol F))); [exact Hs3|exact Hg2|unfold a_vnode; by rewrite ref_open|done|].
      intros s4 Hs4. apply wp_bind. eapply wp_biglock_release; [done|exact Hs4|]. intros s5 Hs5. apply wp_ret. apply HQ; [done|done|]. intros A code spec r a' Hspec. right. by rewrite decide_False, decide_True by done.
    + destruct Hr as [Hr ->]. destruct r as [e x]. cbn in Hr. subst e. apply Hback; [done|done|]. intros A code spec r Hr. right. by rewrite decide_False, decide_False by done.
Qed.

Lemma vfs_remove_does F path rest : path_ok path → dirs_open F → on_volume F path rest →
  vdoes R0 (vfs_remove path) F (lifted F (in_parent id (f_vol F) rest (remove_spec (f_vol F) rest))).
Proof using.
  intros Hp Ho Hvol s Hs. pose proof (repr_good _ _ _ (vr_vol _ _ _ Hs)) as Hg. unfold vfs_remove, on_parent. apply wp_bind. eapply wp_lookparent; [done|done|done|done| |].
  - intros s1 e x Hs1 He Hin. destruct x as [y z]. rewrite (proj2 (Z.eqb_neq e 0)) by done. cbn [negb]. apply wp_ret. exists F. split; [done|]. exists (f_vol F). rewrite set_f_vol_id. split; [done|]. by apply Hin.
  - intros s1 v Hs1 Hv Hin. cbn [Z.eqb negb]. apply wp_bind. eapply (wp_vop _ _ _ _ v ROOT _ _ (λ o, vop_remove o v rest)); [exact Hs1|apply ref_open|done|eapply (sfs_remove_does _ _ v); apply ref_open|].
    intros r s2 a2 Hs2 Hr. destruct (frame_remove _ v Hg Hv rest r a2 Hr) as (a' & -> & Hr' & Hv' & Ho'). apply wp_bind. eapply wp_give_back; [exact Hs2|exact Hg|done|done|]. intros s3 Hs3. apply wp_ret.
    eexists. split; [exact Hs3|]. exists a'. split; [done|]. by apply Hin.
Qed.

(** *** Opening a file *)

(** The vnode [v] was found: it is opened as the flags say. *)
Definition opening (a : avol) (v flags : Z) (r : Z * Z) (a' : avol) : Prop :=
  let rdonly := Z.land flags O_ACCMODE =? O_RDONLY in
  let trunc := negb (Z.land flags O_TRUNC =? 0) in
  ∃ ino n, a_open a !! v = Some (ino, n) ∧
    if bool_decide (ino = ROOT) && (negb rdonly || negb (Z.land flags O_APPEND =? 0)) then r.1 = EISDIR ∧ a' = a_unref v ino n a
    else if trunc && rdonly then r.1 = EINVAL ∧ a' = a_unref v ino n a
    else if trunc then r = (0, v) ∧ a' = set_a_data (<[ino := []]> (a_data a)) a
    else r = (0, v) ∧ a' = a.

(** The file that the path names, or a new one *)
Definition file_named (a : avol) (rest : list Z) (flags : Z) : Z * Z → avol → Prop :=
  if negb (Z.land flags O_CREAT =? 0) then in_parent fst a rest (creat_spec a rest (negb (Z.land flags O_EXCL =? 0))) else path_lookup a rest.

Definition open_spec (a : avol) (rest : list Z) (flags : Z) (r : Z * Z) (a' : avol) : Prop :=
  if Z.land flags O_ACCMODE =? 3 then r.1 = EINVAL ∧ a' = a
  else ∃ r1 a1, file_named a rest flags r1 a1 ∧ if r1.1 =? 0 then opening a1 r1.2 flags r a' else r.1 = r1.1 ∧ a' = a1.

Lemma strip_nonzero l : Forall (λ c, c ≠ 0) l → Forall (λ c, c ≠ 0) (strip l).
Proof using. induction 1 as [|c l Hc Hl IH]; cbn; [done|]. destruct (c =? slash); [done|by constructor]. Qed.

Lemma parse_nonzero path st rest : path_ok path → parse path = Some (st, rest) → Forall (λ c, c ≠ 0) rest.
Proof using.
  intros [Hnz _] Hp. assert (∀ k, Forall (λ c, c ≠ 0) (strip (drop k path))) as Hd by (intros k; by apply strip_nonzero, Forall_drop). unfold parse in Hp. destruct path as [|c p] eqn:Ep; [done|]. rewrite <-Ep in *.
  destruct (list_find is_mark path) as [[i ch]|]; [|by injection Hp as _ <-]. destruct (ch =? slash), (i =? 0)%nat; injection Hp as _ <-; auto.
Qed.

Lemma eachopen_does R a v ino n flags : a_open a !! v = Some (ino, n) →
  does R (vop_eachopen (sfs_ops (U := U) (if decide (ino = ROOT) then sfs_dirops else sfs_fileops)) v flags) a
    (λ r a', a' = a ∧ r = if bool_decide (ino = ROOT) && (negb (Z.land flags O_ACCMODE =? O_RDONLY) || negb (Z.land flags O_APPEND =? 0)) then EISDIR else 0).
Proof using.
  intros Ho s Hs. destruct (decide (ino = ROOT)) as [->|Hne]; [rewrite bool_decide_eq_true_2 by done|rewrite bool_decide_eq_false_2 by done]; cbn [vop_eachopen sfs_ops andb].
  - unfold sfs_eachopendir. destruct (Z.land flags O_ACCMODE =? O_RDONLY); cbn [negb orb]; [|apply wp_ret; eauto]. destruct (Z.land flags O_APPEND =? 0); cbn [negb]; apply wp_ret; eauto.
  - apply wp_ret. eauto.
Qed.

Lemma wp_opening s F a v ino n flags : vrepr R0 s (set_f_vol a F) → a_open a !! v = Some (ino, n) →
  wp (result ← vop v (λ o, vop_eachopen o v flags);
      if negb (result =? 0) then vop_decref v ;; mret (result, 0)
      else if negb (Z.land flags O_TRUNC =? 0) then
        result ← (if negb (negb (Z.land flags O_ACCMODE =? O_RDONLY)) then mret EINVAL else vop v (λ o, vop_truncate o v 0));
        if negb (result =? 0) then vop_decref v ;; mret (result, 0) else mret (0, v)
      else mret (0, v)) (λ r s', ∃ F', vrepr R0 s' F' ∧ lifted F (opening a v flags) r F') s.
Proof using.
  intros Hs Ho. apply wp_bind. eapply (wp_vop _ _ _ _ v ino n _ (λ o, vop_eachopen o v flags)); [exact Hs|exact Ho|done|by eapply eachopen_does|]. intros r s1 a1 Hs1 [-> ->].
  assert (∀ s2 (e : Z), vrepr R0 s2 (set_f_vol a F) → wp (vop_decref v ;; mret (e, 0)) (λ (r : Z * Z) s', r = (e, 0) ∧ vrepr R0 s' (set_f_vol (a_unref v ino n a) F)) s2) as Hback.
  { intros s2 e Hs2. apply wp_bind. eapply wp_vdecref; [exact Hs2|exact Ho|]. intros s3 Hs3. by apply wp_ret. }
  unfold lifted, opening. cbn zeta. destruct (bool_decide (ino = ROOT) && _) eqn:Edir.
  - change (EISDIR =? 0) with false. cbn [negb]. eapply wp_mono; [by apply Hback|]. intros r s2 [-> Hs2]. eexists. split; [exact Hs2|]. eexists. split; [done|]. exists ino, n. split; [done|]. by rewrite Edir.
  - cbn [Z.eqb negb]. destruct (negb (Z.land flags O_TRUNC =? 0)) eqn:Et.
    + rewrite negb_involutive. destruct (Z.land flags O_ACCMODE =? O_RDONLY) eqn:Er; cbn [negb] in *.
      * apply wp_bind, wp_ret. change (EINVAL =? 0) with false. cbn [negb]. eapply wp_mono; [by apply Hback|]. intros r s2 [-> Hs2]. eexists. split; [exact Hs2|]. eexists. split; [done|]. exists ino, n. split; [done|]. by rewrite Edir.
      * assert (ino ≠ ROOT) as Hne by (intros ->; by rewrite bool_decide_eq_true_2 in Edir). destruct (open_data R0 _ a v ino n (vr_vol _ _ _ Hs1) Ho Hne) as [c Hc].
        apply wp_bind. eapply (wp_vop _ _ _ _ v ino n _ (λ o, vop_truncate o v 0)); [exact Hs1|exact Ho|done|rewrite decide_False by done; eapply (sfs_truncate_does _ _ v); [exact Ho|exact Hc|by left]|].
        intros r s2 a2 Hs2 [-> ->]. cbn [Z.eqb negb]. apply wp_ret. eexists. split; [exact Hs2|]. eexists. split; [done|]. exists ino, n. split; [done|]. rewrite Edir. change (Z.to_nat 0) with 0%nat. by rewrite resize_0.
    + apply wp_ret. eexists. split; [exact Hs1|]. eexists. split; [done|]. exists ino, n. split; [done|]. by rewrite Edir.
Qed.

(** A vnode that was found is open. *)
Lemma named_open a rest flags r a1 : a_good a → file_named a rest flags r a1 → r.1 = 0 → ∃ ino n, a_open a1 !! r.2 = Some (ino, n).
Proof using.
  intros Hg Hf E. assert (∀ ino, look_spec a ino r a1 → ∃ ino n, a_open a1 !! r.2 = Some (ino, n)) as Hlook.
  { intros ino [[E' _]|(_ & _ & ->)]; [by rewrite E in E'|]. rewrite ref_open. eauto. }
  unfold file_named in Hf. destruct (negb (Z.land flags O_CREAT =? 0)).
  - destruct Hf as [[E' _]|Hf]; [by rewrite E in E'|]. case_decide; [destruct Hf as [E' _]; by rewrite E in E'|]. case_decide; [|destruct Hf as [E' _]; by rewrite E in E'].
    unfold creat_spec in Hf. destruct (a_names a !! rest) as [ino|]; [destruct (negb _); [destruct Hf as [E' _]; by rewrite E in E'|by eapply Hlook]|].
    destruct Hf as [[Hin _]|(_ & _ & ino & _ & _ & _ & _ & ->)]; [rewrite E in Hin; set_solver|]. cbn. rewrite lookup_insert_eq. eauto.
  - destruct Hf as [[E' _]|Hf]; [by rewrite E in E'|]. case_decide; [by eapply Hlook|]. unfold lookup_spec in Hf. destruct (a_names a !! rest); [by eapply Hlook|]. destruct Hf as [E' _]. by rewrite E in E'.
Qed.

(** Looking up or creating the file of the path *)
Lemma file_named_does F path rest flags mode : path_ok path → dirs_open F → on_volume F path rest →
  vdoes R0 (if negb (Z.land flags O_CREAT =? 0) then
              r ← vfs_lookparent path NAMEBUF;
              let '(result, (dir, name)) := r in
              if negb (result =? 0) then mret (result, 0)
              else
                r ← vop dir (λ o, vop_creat o dir name (negb (Z.land flags O_EXCL =? 0)) mode);
                vop_decref dir ;;
                mret r
            else vfs_lookup path) F (lifted F (file_named (f_vol F) rest flags)).
Proof using.
  intros Hp Ho Hvol s Hs. pose proof (repr_good _ _ _ (vr_vol _ _ _ Hs)) as Hg. unfold file_named. destruct (negb (Z.land flags O_CREAT =? 0)); [|by apply vfs_lookup_does]. apply wp_bind.
  assert (Forall (λ c, c ≠ 0) rest) as Hnz by (destruct Hvol as (st & Hparse & _); by eapply parse_nonzero). eapply wp_lookparent; [done|done|done|done| |].
  - intros s1 e x Hs1 He Hin. destruct x as [y z]. rewrite (proj2 (Z.eqb_neq e 0)) by done. cbn [negb]. apply wp_ret. exists F. split; [done|]. exists (f_vol F). rewrite set_f_vol_id. split; [done|]. by apply Hin.
  - intros s1 v Hs1 Hv Hin. cbn [Z.eqb negb]. apply wp_bind. eapply (wp_vop _ _ _ _ v ROOT _ _ (λ o, vop_creat o v rest _ mode)); [exact Hs1|apply ref_open|done|eapply (sfs_creat_does _ _ v); [apply ref_open|done]|].
    intros r s2 a2 Hs2 Hr. destruct (frame_creat _ v Hg Hv rest _ r a2 Hr) as (a' & -> & Hr' & Hv' & Ho'). apply wp_bind. eapply wp_give_back; [exact Hs2|exact Hg|done|done|]. intros s3 Hs3. apply wp_ret.
    eexists. split; [exact Hs3|]. exists a'. split; [done|]. by apply Hin.
Qed.

Lemma accmode_cases flags : (Z.land flags O_ACCMODE =? O_RDONLY) || (Z.land flags O_ACCMODE =? O_WRONLY) || (Z.land flags O_ACCMODE =? O_RDWR) = negb (Z.land flags O_ACCMODE =? 3).
Proof using.
  assert (0 ≤ Z.land flags O_ACCMODE < 4) as H by (change O_ACCMODE with (Z.ones 2); rewrite Z.land_ones by lia; apply Z.mod_pos_bound; lia).
  assert (Z.land flags O_ACCMODE = 0 ∨ Z.land flags O_ACCMODE = 1 ∨ Z.land flags O_ACCMODE = 2 ∨ Z.land flags O_ACCMODE = 3) as [-> |[-> |[-> | ->]]] by lia; done.
Qed.

Lemma vfs_open_does F path rest flags mode : path_ok path → dirs_open F → on_volume F path rest → vdoes R0 (vfs_open path flags mode) F (lifted F (open_spec (f_vol F) rest flags)).
Proof using.
  intros Hp Ho Hvol s Hs. unfold vfs_open, open_spec. cbn zeta. rewrite accmode_cases, negb_involutive. destruct (Z.land flags O_ACCMODE =? 3).
  { apply wp_ret. exists F. split; [done|]. exists (f_vol F). by rewrite set_f_vol_id. }
  apply wp_bind. eapply wp_mono; [by apply (file_named_does F path rest flags mode)|]. intros r s1 (F1 & Hs1 & a1 & -> & Hr). pose proof (repr_good _ _ _ (vr_vol _ _ _ Hs)) as Hg. destruct (Z.eqb_spec r.1 0) as [E|E]; cbn [negb].
  - destruct (named_open _ _ _ _ _ Hg Hr E) as (ino & n & Hopen). eapply wp_mono; [by eapply wp_opening|]. intros r' s2 (F2 & Hs2 & a2 & -> & Hr2). eexists. split; [exact Hs2|]. exists a2. split; [done|].
    exists r, a1. split; [done|]. by rewrite E.
  - apply wp_ret. eexists. split; [exact Hs1|]. exists a1. split; [done|]. exists r, a1. split; [done|]. by rewrite (proj2 (Z.eqb_neq r.1 0)).
Qed.

(** *** Renaming *)

(** An open file has one vnode. *)
Lemma repr_unique s a v v' ino n : repr R0 s a → a_open a !! v = Some (ino, n) → a_vnode a v' ino → v' = v.
Proof using.
  intros (R & w & I & _ & Hm & Hr) Hv Hv'. unfold a_vnode in Hv'. destruct (a_open a !! v') as [[j k]|] eqn:E; [subst j|exfalso; by eapply Hv'].
  destruct (open_node w I a v ino n Hr Hv) as (x & Hx & Hxo & _), (open_node w I a v' ino k Hr E) as (y & Hy & Hyo & _). apply (ok_one _ _ _ (mv_ok _ _ _ _ Hm) v' v y x Hy Hx). congruence.
Qed.

Lemma ref_dir_open a v o : a_vnode a v ROOT → dir_open a o → dir_open (a_ref v ROOT a) o.
Proof using. intros Hv Hd w Hw. destruct (decide (w = v)) as [->|Hne]; [eexists; apply ref_open|]. destruct (Hd w Hw) as [n Hn]. exists n. cbn. by rewrite lookup_insert_ne. Qed.

Lemma wp_same_fs s F v ino n Q : vrepr R0 s F → a_open (f_vol F) !! v = Some (ino, n) → Q true s → wp (same_fs v v) Q s.
Proof using.
  intros Hs Ho HQ. destruct (repr_nonneg _ _ _ _ _ _ (vr_vol _ _ _ Hs) Ho) as [_ Hv].
  assert (∀ Q' : option Z → vfs machine → Prop, Q' (Some SFS_VOLUME) s → wp (on_sys (sys_fs v)) Q' s) as Hfs.
  { intros Q' HQ'. unfold on_sys. cbn [sys_fs machine_sys]. apply wp_zoom. unfold is_sfs. apply wp_bind, wp_gets. rewrite bool_decide_eq_true_2 by done. apply wp_ret. by destruct s. }
  unfold same_fs. apply wp_bind, Hfs, wp_bind, Hfs, wp_ret. by rewrite bool_decide_eq_true_2.
Qed.

Definition rename_path (a : avol) (rest1 rest2 : list Z) : Z → avol → Prop := in_parent id a rest1 (in_parent id a rest2 (rename_spec a rest1 rest2)).

(** The outcome of [vfs_lookparent] does not depend on the volume. *)
Lemma in_parent_fail {A} (code : A → Z) a a1 rest spec r : in_parent code a1 rest (λ _ _, False) r a1 → in_parent code a rest spec r a.
Proof using. intros [[H _]|H]; [by left|right]. case_decide; [by destruct H|]. case_decide; [done|by destruct H]. Qed.

Lemma in_parent_at {A} (code : A → Z) a a1 rest (spec : A → avol → Prop) r a' : in_parent (λ _ : (), 0) a1 rest (λ _ _, True) tt a1 → spec r a' → in_parent code a rest spec r a'.
Proof using. intros [[H _]|H] Hs; [done|right]. case_decide; [by destruct H|]. case_decide; [done|by destruct H]. Qed.

Lemma vfs_rename_does F path1 rest1 path2 rest2 : path_ok path1 → path_ok path2 → dirs_open F → on_volume F path1 rest1 → on_volume F path2 rest2 →
  vdoes R0 (vfs_rename path1 path2) F (lifted F (rename_path (f_vol F) rest1 rest2)).
Proof using.
  intros Hp1 Hp2 Ho Hvol1 Hvol2 s Hs. pose proof (repr_good _ _ _ (vr_vol _ _ _ Hs)) as Hg. unfold vfs_rename, rename_path. apply wp_bind. eapply wp_lookparent; [done|done|done|exact Hvol1| |].
  - intros s1 e x Hs1 He Hin. destruct x as [y z]. rewrite (proj2 (Z.eqb_neq e 0)) by done. cbn [negb]. apply wp_ret. exists F. split; [done|]. exists (f_vol F). rewrite set_f_vol_id. split; [done|]. by apply Hin.
  - intros s1 v Hs1 Hv Hin1. cbn [Z.eqb negb]. apply wp_bind. pose proof (repr_good _ _ _ (vr_vol _ _ _ Hs1)) as Hg1. cbn [f_vol set_f_vol] in Hg1.
    assert (a_vnode (a_ref v ROOT (f_vol F)) v ROOT) as Hv1 by (unfold a_vnode; by rewrite ref_open).
    eapply (wp_lookparent _ _ path2 rest2); [exact Hs1|done|destruct Ho; split; by apply ref_dir_open|exact Hvol2| |].
    + intros s2 e x Hs2 He Hin2. destruct x as [y z]. rewrite (proj2 (Z.eqb_neq e 0)) by done. cbn [negb]. apply wp_bind. eapply wp_give_back; [exact Hs2|exact Hg|done|done|]. intros s3 Hs3. apply wp_ret. eexists. split; [exact Hs3|].
      exists (f_vol F). split; [done|]. apply Hin1. eapply in_parent_fail, (Hin2 _ id). done.
    + intros s2 v2 Hs2 Hv2 Hin2. assert (v2 = v) as -> by (eapply repr_unique; [apply (vr_vol _ _ _ Hs1)|apply ref_open|done]). cbn [Z.eqb negb]. apply wp_bind. eapply wp_same_fs; [exact Hs2|apply ref_open|]. apply wp_bind.
      assert (Forall (λ c, c ≠ 0) rest2) as Hnz by (destruct Hvol2 as (st & Hparse & _); by eapply parse_nonzero).
      eapply (wp_vop _ _ _ F v ROOT _ (λ o, vop_rename o v rest1 v rest2)); [exact Hs2|apply ref_open|done|eapply (sfs_rename_does _ _ v); [apply ref_open|done]|].
      intros r s3 a3 Hs3 Hr. destruct (frame_rename _ v Hv1 _ _ r a3 Hr) as (a' & -> & Hr' & Hv' & Ho'). destruct (frame_rename _ v Hv _ _ r a' Hr') as (a'' & -> & Hr'' & Hv'' & Ho'').
      apply wp_bind. eapply wp_give_back; [exact Hs3|exact Hg1|done|done|]. intros s4 Hs4. apply wp_bind. eapply wp_give_back; [exact Hs4|exact Hg|done|done|]. intros s5 Hs5. apply wp_ret.
      eexists. split; [exact Hs5|]. exists a''. split; [done|]. apply Hin1. eapply in_parent_at; [by apply Hin2|done].
Qed.
End volume.

(** ** The current directory and the boot file system

    Changing to a directory of the volume, and making the volume the boot file
    system. *)

(** The directory [v] with the reference that a variable holds: it had one
    already if the variable was set. *)
Definition held (old : option Z) (v : Z) (a : avol) : avol := match old with Some _ => a | None => a_ref v ROOT a end.

Definition chdir_spec (F : avfs) (rest : list Z) (r : Z) (F' : avfs) : Prop :=
  (r = ENOMEM ∧ F' = F) ∨
  if decide (rest = []) then r = 0 ∧ ∃ v, a_vnode (f_vol F) v ROOT ∧ F' = set_f_cwd (Some v) (set_f_vol (held (f_cwd F) v (f_vol F)) F)
  else r = (if decide (is_Some (a_names (f_vol F) !! rest)) then ENOTDIR else ENOENT) ∧ F' = F.

Definition setbootfs_spec (F : avfs) (r : Z) (F' : avfs) : Prop :=
  (r = ENOMEM ∧ F' = F) ∨
  (r = 0 ∧ ∃ v, a_vnode (f_vol F) v ROOT ∧ F' = set_f_boot (Some v) (set_f_cwd (Some v) (set_f_vol (held (f_boot F) v (held (f_cwd F) v (f_vol F))) F))).

Section cwd.
Context {U : Type} {uops : UioOps U} {ulaws : UioLaws U}.
Context (R0 : srest).

Lemma vlocked_cwd s F o : vlocked R0 s F → vlocked R0 (set_cwd o s) (set_f_cwd o F).
Proof using. intros [[H1 H2 H3 H4 H5 H6 H7 H8 H9 H10 H11 H12] Hc Hl]. split; [|done|done]. by split. Qed.

Lemma vrepr_boot s F o : vrepr R0 s F → vrepr R0 (set_bootfs o s) (set_f_boot o F).
Proof using. intros [H1 H2 H3 H4 H5 H6 H7 H8 H9 H10 H11 H12]. by split. Qed.

(** A reference of the directory that was taken is given back. *)
Lemma wp_drop s F a v Q : vrepr R0 s (set_f_vol (a_ref v ROOT a) F) → a_good a → a_vnode a v ROOT → (∀ s', vrepr R0 s' (set_f_vol a F) → Q tt s') → wp (vop_decref v) Q s.
Proof using. intros Hs Hg Hv HQ. by eapply (wp_give_back R0 s F a a). Qed.

Lemma wp_drop_file s F a v nm ino Q : vrepr R0 s (set_f_vol (a_ref v ino a) F) → a_good a → a_vnode a v ino → a_names a !! nm = Some ino → (∀ s', vrepr R0 s' (set_f_vol a F) → Q tt s') → wp (vop_decref v) Q s.
Proof using.
  intros Hs Hg Hv Hnm HQ. eapply wp_vdecref; [exact Hs|apply ref_open|]. intros s'. cbn [f_vol set_f_vol]. rewrite a_unref_ref; [|done|intros j n; apply Hg]. rewrite a_gc_keep; [apply HQ|]. left. pose proof (links_pos _ _ _ Hnm). lia.
Qed.

(** The old value of a variable is given back when [v] has two references more. *)
Lemma wp_put_old s F a v old Q : vrepr R0 s (set_f_vol (a_ref v ROOT a) F) → a_good a → a_vnode a v ROOT → dir_open a old →
  (∀ s', vrepr R0 s' (set_f_vol (held old v a) F) → Q tt s') → wp (put_old old) Q s.
Proof using.
  intros Hs Hg Hv Ho HQ. unfold put_old. destruct old as [w|]; [|apply wp_ret; by apply HQ]. destruct (Ho w eq_refl) as [n Hn].
  assert (w = v) as ->; [|by eapply wp_drop]. eapply (repr_unique R0); [apply (vr_vol _ _ _ Hs)|apply ref_open|]. unfold a_vnode. cbn. destruct (decide (w = v)) as [->|Hne]; [by rewrite lookup_insert_eq|by rewrite lookup_insert_ne, Hn].
Qed.

Lemma held_open s a v old : repr R0 s a → a_vnode a v ROOT → dir_open a old → ∃ n, a_open (held old v a) !! v = Some (ROOT, n).
Proof using.
  intros Hs Hv Ho. destruct old as [w|]; cbn [held]; [|eexists; apply ref_open]. destruct (Ho w eq_refl) as [n Hn]. assert (v = w) as -> by (by eapply (repr_unique R0); [exact Hs|exact Hn|]). eauto.
Qed.

Lemma held_kept a v old o : a_vnode a v ROOT → dir_open a o → dir_open (held old v a) o.
Proof using. intros Hv Ho. destruct old; [done|]. by apply ref_dir_open. Qed.

Lemma wp_setcurdir s F a v n Q : vrepr R0 s (set_f_vol a F) → a_good a → a_open a !! v = Some (ROOT, n) → dir_open a (f_cwd F) →
  (∀ s', vrepr R0 s' (set_f_cwd (Some v) (set_f_vol (held (f_cwd F) v a) F)) → Q 0 s') → wp (vfs_setcurdir v) Q s.
Proof using.
  intros Hs Hg Ho Hd HQ. assert (a_vnode a v ROOT) as Hv by (unfold a_vnode; by rewrite Ho). unfold vfs_setcurdir. apply wp_bind.
  eapply (wp_vop _ _ _ _ v ROOT n (λ o, vop_gettype o v)); [exact Hs|exact Ho|done|eapply (sfs_gettype_does _ _ v); exact Ho|]. intros r s1 a1 Hs1 [-> ->]. cbn [decide]. rewrite decide_True by done. cbn [fst snd Z.eqb negb]. change (S_IFDIR =? S_IFDIR) with true. cbn [negb].
  apply wp_bind. eapply wp_incref; [apply (vr_vol _ _ _ Hs1)|exact Ho|]. intros s2 Hs2. pose proof (vrepr_vol _ _ _ _ _ Hs1 Hs2) as Hs3. apply wp_bind. eapply wp_cur_acquire; [exact Hs3|]. intros s4 Hs4. apply wp_bind, wp_gets.
  assert (cur_cwd s4 = f_cwd F) as -> by (exact (vr_cwd _ _ _ (vl_repr _ _ _ Hs4))). apply wp_bind, wp_modify. apply (vlocked_cwd _ _ (Some v)) in Hs4. apply wp_bind. eapply wp_cur_release; [exact Hs4|]. intros s5 Hs5. apply wp_bind.
  eapply (wp_put_old _ (set_f_cwd (Some v) F)); [exact Hs5|done|done|done|]. intros s6 Hs6. apply wp_ret. by apply HQ.
Qed.

Lemma wp_setcurdir_file s F a v ino n Q : vrepr R0 s (set_f_vol a F) → a_open a !! v = Some (ino, n) → ino ≠ ROOT → (∀ s', vrepr R0 s' (set_f_vol a F) → Q ENOTDIR s') → wp (vfs_setcurdir v) Q s.
Proof using.
  intros Hs Ho Hne HQ. unfold vfs_setcurdir. apply wp_bind. eapply (wp_vop _ _ _ _ v ino n (λ o, vop_gettype o v)); [exact Hs|exact Ho|done|rewrite decide_False by done; eapply (sfs_gettype_does _ _ v); exact Ho|].
  intros r s1 a1 Hs1 [-> ->]. rewrite decide_False by done. cbn [fst snd Z.eqb negb]. change (S_IFREG =? S_IFDIR) with false. cbn [negb]. apply wp_ret. by apply HQ.
Qed.

Lemma vfs_chdir_does F path rest : path_ok path → dirs_open F → on_volume R0 F path rest → vdoes R0 (vfs_chdir path) F (chdir_spec F rest).
Proof using.
  intros Hp Ho Hvol s Hs. pose proof (repr_good _ _ _ (vr_vol _ _ _ Hs)) as Hg. unfold vfs_chdir, chdir_spec. apply wp_bind. eapply wp_mono; [by apply (vfs_lookup_does R0 F path rest)|]. intros [r v] s1 (F1 & Hs1 & a1 & -> & Hr). cbn [fst snd].
  unfold path_lookup, lookup_spec, look_spec in Hr. cbn [fst snd] in Hr. destruct (Z.eqb_spec r 0) as [->|Hne]; cbn [negb].
  2:{ apply wp_ret. exists (set_f_vol a1 F). split; [done|]. destruct Hr as [[-> ->]|Hr]; [left; by rewrite set_f_vol_id|]. destruct (decide (rest = [])) as [->|Hn].
      - destruct Hr as [[-> ->]|[? _]]; [left; by rewrite set_f_vol_id|done].
      - destruct (a_names (f_vol F) !! rest) as [ino|]; [destruct Hr as [[-> ->]|[? _]]; [left; by rewrite set_f_vol_id|done]|]. destruct Hr as [-> ->]. right. rewrite set_f_vol_id. by rewrite decide_False by (by intros [? ?]). }
  destruct Hr as [[? _]|Hr]; [done|]. destruct (decide (rest = [])) as [->|Hn].
  - destruct Hr as [[? _]|(_ & Hv & ->)]; [done|]. apply wp_bind. eapply wp_setcurdir; [exact Hs1|exact (repr_good _ _ _ (vr_vol _ _ _ Hs1))|apply ref_open|apply ref_dir_open; [done|apply Ho]|]. intros s2 Hs2. apply wp_bind.
    assert (held (f_cwd F) v (a_ref v ROOT (f_vol F)) = a_ref v ROOT (held (f_cwd F) v (f_vol F))) as E by (by destruct (f_cwd F)). rewrite E in Hs2.
    assert (a_vnode (held (f_cwd F) v (f_vol F)) v ROOT ∧ a_good (held (f_cwd F) v (f_vol F))) as [Hv2 Hg2].
    { destruct (f_cwd F); cbn; [done|]. split; [unfold a_vnode; by rewrite ref_open|exact (repr_good _ _ _ (vr_vol _ _ _ Hs1))]. }
    eapply (wp_drop _ (set_f_cwd (Some v) F)); [exact Hs2|done|done|]. intros s3 Hs3. apply wp_ret. eexists. split; [exact Hs3|]. right. split; [done|]. exists v. by split.
  - destruct (a_names (f_vol F) !! rest) as [ino|] eqn:En; [|by destruct Hr as [? _]]. destruct Hr as [[? _]|(_ & Hv & ->)]; [done|]. pose proof (named_file _ _ _ Hg En) as Hino.
    apply wp_bind. eapply wp_setcurdir_file; [exact Hs1|apply ref_open|done|]. intros s2 Hs2. apply wp_bind. eapply wp_drop_file; [exact Hs2|done|done|exact En|]. intros s3 Hs3. apply wp_ret.
    exists F. split; [by rewrite set_f_vol_id in Hs3|]. right. by rewrite decide_True by done.
Qed.
End cwd.

(** *** [vfs_setbootfs] *)

(** The name as it is copied *)
Definition boot_name (fsname : list Z) : list Z := take (Z.to_nat (NAME_MAX - 1)) fsname.

Lemma strchr_none s c : c ∉ s → strchr_in s c = None.
Proof. intros H. unfold strchr_in. rewrite (proj2 (list_find_None _ _)); [done|]. apply Forall_forall. intros x Hx ->. done. Qed.

(** The rest from a character on begins with that character. *)
Lemma strchr_some s c : c ∈ s → ∃ t, strchr_in s c = Some (c :: t).
Proof.
  intros (i & Hi)%list_elem_of_lookup. unfold strchr_in. destruct (list_find_elem_of (λ x, x = c) s c) as [[j x] Hj]; [by eapply list_elem_of_lookup_2|done|].
  rewrite Hj. apply list_find_Some in Hj as (Hj & -> & _). exists (drop (S j) s). cbn. by rewrite (drop_S _ _ _ Hj).
Qed.

Section boot.
Context {U : Type} {uops : UioOps U} {ulaws : UioLaws U}.
Context (R0 : srest).

Lemma setbootfs_colon_does F fsname : colon ∈ boot_name fsname → vdoes R0 (vfs_setbootfs fsname) F (λ r F', r = EINVAL ∧ F' = F).
Proof using.
  intros Hc s Hs. pose proof (vrepr_depth _ _ _ Hs) as Hd. unfold vfs_setbootfs. apply wp_bind. eapply wp_biglock_acquire; [done|]. intros s1 Hs1. destruct (strchr_some _ _ Hc) as [t E]. unfold boot_name in E. cbn zeta. rewrite E.
  rewrite (proj2 (Z.ltb_lt 0 _)) by (cbn [length]; lia). by eapply wp_vleave.
Qed.

Lemma setbootfs_does F fsname : colon ∉ boot_name fsname → path_ok fsname → dirs_open F → on_volume R0 F (boot_name fsname ++ [colon]) [] → vdoes R0 (vfs_setbootfs fsname) F (setbootfs_spec F).
Proof using.
  intros Hc Hp Ho Hvol s Hs. pose proof (vrepr_depth _ _ _ Hs) as Hd. pose proof (repr_good _ _ _ (vr_vol _ _ _ Hs)) as Hg. unfold vfs_setbootfs. apply wp_bind. eapply wp_biglock_acquire; [done|]. intros s1 Hs1. cbn zeta. fold (boot_name fsname). rewrite (strchr_none _ _ Hc).
  assert (path_ok (boot_name fsname ++ [colon])) as Hp2.
  { destruct Hp as [H1 H2]. unfold boot_name. split; [apply Forall_app; split; [by apply Forall_take|by apply Forall_singleton]|]. rewrite length_app, length_take. cbn. change (Z.to_nat (NAME_MAX - 1)) with 254%nat. lia. }
  apply wp_bind. eapply wp_mono; [by apply (vfs_chdir_does (deeper R0) F _ [])|]. unfold chdir_spec, setbootfs_spec. intros r s2 (F2 & Hs2 & [[-> ->]|[-> (v & Hv & ->)]]).
  { change (ENOMEM =? 0) with false. cbn [negb]. eapply wp_vleave; [done|exact Hs2|by left]. }
  cbn [Z.eqb negb]. apply wp_bind. set (a := held (f_cwd F) v (f_vol F)) in *. pose proof (repr_good _ _ _ (vr_vol _ _ _ Hs2)) as Hga. cbn in Hga.
  destruct (held_open R0 _ _ v (f_cwd F) (vr_vol _ _ _ Hs) Hv (proj1 Ho)) as [n Hn]. fold a in Hn.
  assert (a_vnode a v ROOT) as Hva by (unfold a_vnode; by rewrite Hn). assert (dir_open a (f_boot F)) as Hboot by (apply held_kept; [done|apply Ho]).
  eapply wp_mono; [eapply vfs_getcurdir_does; [|exact Hs2]; intros w [= <-]; by exists n|]. intros r s3 (F3 & Hs3 & [-> ->]). cbn [fst snd Z.eqb negb]. apply wp_bind. unfold change_bootfs. apply wp_bind, wp_gets, wp_bind, wp_modify.
  assert (bootfs_vnode s3 = f_boot F) as -> by (exact (vr_boot _ _ _ Hs3)). apply (vrepr_boot _ _ _ (Some v)) in Hs3. eapply (wp_put_old _ _ (set_f_boot (Some v) (set_f_cwd (Some v) F)) a v); [exact Hs3|done|done|done|].
  intros s4 Hs4. eapply wp_vleave; [done|exact Hs4|]. right. split; [done|]. by exists v.
Qed.
End boot.
