(* ===== verification/VfsAdd.v ===== *)
(** * Adding devices

    [vfs_adddev] refuses a device whose name or raw name is taken; otherwise
    the list of devices gets a new entry at its end, which its names lead to,
    and all other names mean what they meant before. *)

From S2P Require Import Prelude Machine Spinlock Pt Kernel Xfer Lhd Bitmap Array Sfs SfsInv SfsOk SfsBmap SfsFile SfsIo SfsTrunc SfsDir SfsMeta SfsNode Vnode SfsSpec SfsOps SfsRefine SfsMount SfsClient Device Vfs VfsPath OneDisk VfsRefine.

(** ** Names that are taken *)

(** One of the names [n1], [n2], [n3] is a name of the entry. *)
Definition clash (vol : list Z) (n1 n2 n3 : option (list Z)) (kd : knowndev) : bool :=
  match kd_fs kd with FS _ => samestring3 (Some vol) n1 n2 n3 | _ => false end || (samestring3 (kd_rawname kd) n1 n2 n3 || samestring3 (Some (kd_name kd)) n1 n2 n3).

Lemma samestring_true a b : samestring a b = true ↔ ∃ n, a = Some n ∧ b = Some n.
Proof. unfold samestring. destruct a, b; rewrite ?bool_decide_eq_true; naive_solver. Qed.

(** A name without a clash leads nowhere. *)
Lemma clash_root vol n1 n2 n3 kd n : clash vol n1 n2 n3 kd = false → n1 = Some n ∨ n2 = Some n → root_of vol n kd = None.
Proof.
  unfold clash, samestring3. rewrite !orb_false_iff. intros (Hvol & ((R1 & R1') & _) & ((N1 & N2) & _)) Hn.
  assert (∀ o, samestring o n1 = false → samestring o n2 = false → o ≠ Some n) as Hne.
  { intros o H1 H2 ->. destruct Hn as [-> | ->]; [rewrite (proj2 (samestring_true _ _)) in H1|rewrite (proj2 (samestring_true _ _)) in H2]; naive_solver. }
  pose proof (Hne _ R1 R1') as Hr. pose proof (Hne _ N1 N2) as Hk. unfold root_of. rewrite (bool_decide_eq_false_2 (kd_rawname kd = Some n)) by done.
  destruct (kd_fs kd); rewrite bool_decide_eq_false_2; try done; [congruence|congruence|]. rewrite !orb_false_iff in Hvol. destruct Hvol as [[V1 V2] _]. pose proof (Hne _ V1 V2). intros [?|?]; congruence.
Qed.

Lemma find_root_app vol nm l l' : (∀ kd, kd ∈ l → root_of vol nm kd = None) → find_root vol nm (l ++ l') = find_root vol nm l'.
Proof.
  induction l as [|kd l IH]; intros H; cbn; [done|]. rewrite (H kd) by set_solver. cbn. apply IH. set_solver.
Qed.

Lemma find_root_other vol nm l kd : root_of vol nm kd = None → find_root vol nm (l ++ [kd]) = find_root vol nm l.
Proof. intros H. induction l as [|k l IH]; cbn; [by rewrite H|]. by rewrite IH. Qed.

(** ** Steps *)

Section steps.
Context {U : Type} {uops : UioOps U} {ulaws : UioLaws U}.
Context (R : srest).

Lemma wp_v_malloc s F Q : vrepr R s F → (∀ b s', vrepr R s' F → Q b s') → wp v_malloc Q s.
Proof using. intros [H1 H2 H3 H4 H5 H6 H7 H8 H9 H10 H11 H12] HQ. unfold v_malloc. apply wp_bind, wp_gets, wp_bind, wp_modify, wp_ret, HQ. by split. Qed.

Lemma vrepr_devs s F dv : vrepr R s F → dv_next dv < 0 → (∀ v, is_Some (dv_nodes dv !! v) → dv_next dv < v < 0) → Forall (kd_ok dv) (f_list F) → vrepr R (set_v_sys (set_y_dev dv (v_sys s)) s) (set_f_devs dv F).
Proof using. intros [H1 H2 H3 H4 H5 H6 H7 H8 H9 H10 H11 H12] Hn Hd Hk. by split. Qed.

(** A new vnode of the device *)
Definition new_vnode (dev : option Z) (dv : devices) : devices := mk_devices (dv_devs dv) (<[dv_next dv := mk_dvnode 1 dev]> (dv_nodes dv)) (dv_next dv - 1).

Lemma kd_ok_nodes dv dv' kd : kd_ok dv kd → dv_nodes dv ⊆ dv_nodes dv' → kd_ok dv' kd.
Proof using. intros [H1 H2 H3 (n & Hn & Hp)] Hsub. split; [done..|]. exists n. split; [|done]. by eapply lookup_weaken. Qed.

Lemma next_none s F : vrepr R s F → dv_nodes (f_devs F) !! dv_next (f_devs F) = None.
Proof using. intros Hs. apply eq_None_not_Some. intros Hx. apply (vr_neg _ _ _ Hs) in Hx. lia. Qed.

Lemma wp_create s F dev ok Q : vrepr R s F → (∀ s', vrepr R s' F → Q None s') →
  (∀ s', vrepr R s' (set_f_devs (new_vnode dev (f_devs F)) F) → Q (Some (dv_next (f_devs F))) s') → wp (on_sys (sys_create ok dev)) Q s.
Proof using.
  intros Hs HN HQ. pose proof (vr_neg _ _ _ Hs) as [Hn Hd]. unfold on_sys. cbn [sys_create machine_sys]. unfold on_dev. apply wp_zoom, wp_zoom. unfold dev_create_vnode.
  destruct ok; cbn [negb]; [|apply wp_ret; replace (set_v_sys _ s) with s by (by destruct s as [[] ? ? ? ? ? ? ? ?]); by apply HN]. apply wp_bind, wp_gets, wp_bind, wp_modify, wp_ret. rewrite (vr_devs _ _ _ Hs).
  apply HQ. apply vrepr_devs; [done|cbn; lia| |].
  - intros v. cbn. destruct (decide (v = dv_next (f_devs F))) as [->|Hne]; [intros _; lia|]. rewrite lookup_insert_ne by done. intros Hv%Hd. lia.
  - eapply Forall_impl; [apply (vr_kds _ _ _ Hs)|]. intros kd Hk. eapply kd_ok_nodes; [done|]. apply insert_subseteq. by eapply next_none.
Qed.

(** Addresses were used up, nothing else happened. *)
Definition skipped (F : avfs) : avfs := set_f_devs (set_dv_next (dv_next (f_devs F) - 1) (f_devs F)) F.

Lemma wp_uncreate s F dev Q : dv_nodes (f_devs F) !! dv_next (f_devs F) = None → Forall (kd_ok (f_devs F)) (f_list F) → vrepr R s (set_f_devs (new_vnode dev (f_devs F)) F) →
  (∀ s', vrepr R s' (skipped F) → Q tt s') → wp (on_sys (sys_uncreate (dv_next (f_devs F)))) Q s.
Proof using.
  intros Hnone Hkds Hs HQ. unfold on_sys. cbn [sys_uncreate machine_sys]. unfold on_dev. apply wp_zoom, wp_zoom. unfold dev_uncreate_vnode, get_dvnode. apply wp_bind, wp_bind, wp_gets.
  rewrite (vr_devs _ _ _ Hs). cbn [f_devs set_f_devs new_vnode dv_nodes]. rewrite lookup_insert_eq. apply wp_ret, wp_bind, wp_kassert. split; [done|]. apply wp_modify, HQ.
  assert (set_dv_nodes (delete (dv_next (f_devs F)) (<[dv_next (f_devs F) := mk_dvnode 1 dev]> (dv_nodes (f_devs F)))) (new_vnode dev (f_devs F)) = set_dv_next (dv_next (f_devs F) - 1) (f_devs F)) as E.
  { unfold set_dv_nodes, set_dv_next, new_vnode. cbn. f_equal. by apply delete_insert_id. }
  pose proof (vr_neg _ _ _ Hs) as [Hn Hd]. cbn in Hn, Hd. unfold skipped. cbn [new_vnode dv_nodes] in *. rewrite E.
  apply (vrepr_devs s (set_f_devs (new_vnode dev (f_devs F)) F)); [done|cbn; lia| |eapply Forall_impl; [apply Hkds|]; intros kd Hk; by eapply kd_ok_nodes].
  intros v Hv. cbn in *. apply Hd. destruct (decide (v = dv_next (f_devs F))) as [->|Hne]; [by rewrite lookup_insert_eq|by rewrite lookup_insert_ne].
Qed.

(** The new entry is put at the end of the list. *)
Definition with_entry (kd : knowndev) (F : avfs) : avfs := mk_avfs (f_vol F) (f_devs F) (f_list F ++ [kd]) (f_cwd F) (f_boot F).

Lemma wp_enter s F kd (kf : Z → M (vfs machine) Z) (ks : option Z → M (vfs machine) Z) Q :
  vrepr R s F → kd_ok (f_devs F) kd → Z.of_nat (length (f_list F)) < 2 ^ 27 → (∀ s', vrepr R s' F → wp (kf ENOMEM) Q s') →
  (∀ s', vrepr R s' (with_entry kd F) → wp (ks (Some (Z.of_nat (length (f_list F))))) Q s') →
  wp (p ← gets v_next; modify (λ s, set_v_next (p + 1) (set_v_kds (<[p := kd]> (v_kds s)) s)) ;; r ← knowndevarray_add p;
      if negb (r.1 =? 0) then modify (λ s, set_v_kds (delete p (v_kds s)) s) ;; kf r.1 else ks r.2) Q s.
Proof using.
  intros [H1 H2 H3 H4 H5 H6 H7 H8 H9 H10 H11 H12] Hkd Hlen Hf Hs. apply wp_bind, wp_gets, wp_bind, wp_modify, wp_bind. unfold knowndevarray_add, v_malloc. apply wp_bind, wp_bind, wp_gets, wp_bind, wp_modify, wp_ret.
  assert (Forall2 (λ q k, v_kds s !! q = Some k ∧ q ≠ v_next s) (elems (knowndevs s)) (f_list F)) as Hel.
  { eapply Forall2_impl; [exact H5|]. intros q k Hq. split; [done|]. pose proof (H12 q ltac:(by rewrite Hq)). lia. }
  unfold on_knowndevs. apply wp_zoom. cbn [knowndevs set_knowndevs set_v_mallocs set_v_next set_v_kds]. set (al := λ n : Z, if (default true (head (v_mallocs s)) : bool) then Some (replicate (Z.to_nat (n / PTR)) 0) else None).
  assert (alloc_ok al) as Hal. { intros n b Hn. unfold al. destruct (default true (head (v_mallocs s))); [|done]. intros [= <-]. rewrite length_replicate. pose proof (Z.div_pos n PTR Hn ltac:(done)). lia. }
  assert (a_max (knowndevs s) < 2 ^ 29) as Hmax by lia. destruct (array_add_run al (v_next s) _ H4 Hal Hmax) as (r & a' & Hrun & Hcase). pose proof (array_add_max _ _ _ _ _ Hrun H4 Hmax) as Hm.
  erewrite wp_eq by exact Hrun. pose proof (elems_length _ H4) as Hnum. rewrite (Forall2_length _ _ _ H5) in Hnum. destruct Hcase as [[-> ->]|(-> & Hwf & He)]; cbn [fst snd].
  - change (ENOMEM =? 0) with false. cbn [negb]. apply wp_bind, wp_modify, Hf. split; try done; cbn.
    + eapply Forall2_impl; [exact Hel|]. intros q k [Hq Hne]. by rewrite delete_insert_eq, lookup_delete_ne.
    + intros q. destruct (decide (q = v_next s)) as [->|Hne]; [lia|]. rewrite lookup_delete_ne, lookup_insert_ne by done. intros Hq%H12. lia.
  - cbn [Z.eqb negb]. rewrite <-Hnum. apply Hs. split; try done; cbn.
    + rewrite He. apply Forall2_app; [|by apply Forall2_cons; split; [apply lookup_insert_eq|]]. eapply Forall2_impl; [exact Hel|]. intros q k [Hq Hne]. by rewrite lookup_insert_ne.
    + apply Forall_app. by split; [|apply Forall_singleton].
    + rewrite length_app. cbn. lia.
    + intros q. destruct (decide (q = v_next s)) as [->|Hne]; [lia|]. rewrite lookup_insert_ne by done. intros Hq%H12. lia.
Qed.

(** The number of the device *)
Definition numbered (dev n : Z) (d : device) (dv : devices) : devices := set_dv_devs (<[dev := set_dev_devnumber n d]> (dv_devs dv)) dv.

Lemma wp_setnumber s F dev n d Q : vrepr R s F → dv_devs (f_devs F) !! dev = Some d → (∀ s', vrepr R s' (set_f_devs (numbered dev n d (f_devs F)) F) → Q tt s') → wp (on_sys (sys_setnumber dev n)) Q s.
Proof using.
  intros Hs Hd HQ. unfold on_sys. cbn [sys_setnumber machine_sys]. apply wp_zoom, wp_bind, wp_gets, wp_bind. rewrite (vr_devs _ _ _ Hs), Hd. apply wp_ret. unfold on_dev. apply wp_zoom, wp_modify. rewrite (vr_devs _ _ _ Hs).
  apply HQ. pose proof (vr_neg _ _ _ Hs) as [H1 H2]. apply vrepr_devs; [done|done|done|]. eapply Forall_impl; [apply (vr_kds _ _ _ Hs)|]. intros kd Hk. by eapply kd_ok_nodes.
Qed.
End steps.

(** ** [vfs_adddev] *)

Section adddev.
Context {U : Type} {uops : UioOps U} {ulaws : UioLaws U}.
Context (R0 : srest).

Lemma wp_badnames s F n1 n2 n3 Q : 0 < r_depth R0 → vrepr (deeper R0) s F → (∀ s', vrepr (deeper R0) s' F → Q (existsb (clash (volume_name R0) n1 n2 n3) (f_list F)) s') → wp (badnames n1 n2 n3) Q s.
Proof using.
  intros Hd Hs HQ. unfold badnames. apply wp_bind. eapply wp_biglock_held; [done|done|]. apply wp_bind, wp_kassert. split; [done|]. apply wp_bind. eapply wp_kd_num; [done|]. apply wp_bind.
  set (c := clash (volume_name R0) n1 n2 n3) in *. apply (wp_each (deeper R0) (λ kd, vol ← match kd_fs kd with FS fs => volname ← fsop fs fsop_getvolname; mret (samestring3 volname n1 n2 n3) | _ => mret false end;
    if (vol : bool) then mret (Some tt) else if samestring3 (kd_rawname kd) n1 n2 n3 || samestring3 (Some (kd_name kd)) n1 n2 n3 then mret (Some tt) else mret None) F (λ l, existsb c (f_list F) = existsb c l)); [done|done| |].
  - intros kd l s' Hin Hl Hs'. pose proof (proj1 (Forall_forall _ _) (vr_kds _ _ _ Hs') kd Hin) as Hok. apply wp_bind.
    assert (wp (match kd_fs kd with FS fs => volname ← fsop fs fsop_getvolname; mret (samestring3 volname n1 n2 n3) | _ => mret false end)
      (λ b s2, vrepr (deeper R0) s2 F ∧ b = match kd_fs kd with FS _ => samestring3 (Some (volume_name R0)) n1 n2 n3 | _ => false end) s') as Hvol.
    { destruct (kd_fs kd) as [| |f] eqn:Ef; [by apply wp_ret|by apply wp_ret|]. rewrite (ko_fs _ _ Hok f Ef). apply wp_bind. eapply wp_mono; [eapply (vdoes_fsop _ _ sfs_getvolname); [done|apply sfs_getvolname_does|exact Hs']|].
      intros r s2 (F' & Hs2 & a' & -> & -> & ->). apply wp_ret. rewrite set_f_vol_id in Hs2. by split. }
    eapply wp_mono; [exact Hvol|]. intros b s2 [Hs2 ->]. cbn [existsb] in Hl. unfold c at 2, clash in Hl.
    destruct (match kd_fs kd with FS _ => _ | _ => false end); cbn [orb] in Hl; [apply wp_ret, wp_ret; rewrite bool_decide_eq_true_2 by done; rewrite <-Hl; by apply HQ|].
    destruct (samestring3 (kd_rawname kd) n1 n2 n3 || _); cbn [orb] in Hl; apply wp_ret; [|done]. apply wp_ret. rewrite bool_decide_eq_true_2 by done. rewrite <-Hl. by apply HQ.
  - intros s' Hl Hs'. apply wp_ret. rewrite bool_decide_eq_false_2 by done. cbn [existsb] in Hl. rewrite <-Hl. by apply HQ.
Qed.

Definition raw_of (name : list Z) (mountable : bool) : option (list Z) := if mountable then Some (name ++ raw_suffix) else None.

(** The state with the new device *)
Definition added (name : list Z) (mountable : bool) (dev : Z) (d : device) (F : avfs) : avfs :=
  mk_avfs (f_vol F) (numbered dev (Z.of_nat (length (f_list F)) + 1) d (new_vnode (Some dev) (f_devs F)))
    (f_list F ++ [mk_kd name (raw_of name mountable) (Some dev) (dv_next (f_devs F)) NO_FS]) (f_cwd F) (f_boot F).

Definition adddev_spec (F : avfs) (name : list Z) (mountable : bool) (dev : Z) (d : device) (r : Z) (F' : avfs) : Prop :=
  (r = ENOMEM ∧ (F' = F ∨ F' = skipped F)) ∨
  if existsb (clash (volume_name R0) (Some name) (raw_of name mountable) None) (f_list F) then r = EEXIST ∧ F' = skipped F
  else r = 0 ∧ F' = added name mountable dev d F.

Lemma wp_fail s F r (spec : Z → avfs → Prop) : 0 < r_depth R0 → vrepr (deeper R0) s F → spec r F → wp (doadd_fail None r) (λ r s', ∃ F', vrepr R0 s' F' ∧ spec r F') s.
Proof using. intros Hd Hs Hr. unfold doadd_fail. apply wp_bind, wp_ret. by eapply wp_vleave. Qed.

Lemma vfs_adddev_does F name dev mountable d : dv_devs (f_devs F) !! dev = Some d → Z.of_nat (length (f_list F)) < 2 ^ 27 →
  vdoes R0 (vfs_adddev name dev mountable) F (adddev_spec F name mountable dev d).
Proof using.
  intros Hdev Hlen s Hs. pose proof (vrepr_depth _ _ _ Hs) as Hd. pose proof (next_none _ _ _ Hs) as Hnone. pose proof (vr_kds _ _ _ Hs) as Hkds. unfold vfs_adddev, vfs_doadd. apply wp_bind. eapply wp_biglock_acquire; [done|].
  intros s1 Hs1. unfold v_strdup. apply wp_bind, wp_bind. eapply wp_v_malloc; [done|]. intros [] s2 Hs2; apply wp_ret; [|eapply wp_fail; [done|done|left; by auto]]. apply wp_bind.
  assert (wp (if mountable then mkrawname name else mret None) (λ raw s', vrepr (deeper R0) s' F ∧ (raw = raw_of name mountable ∨ mountable = true ∧ raw = None)) s2) as Hraw.
  { destruct mountable; [|apply wp_ret; by auto]. unfold mkrawname. apply wp_bind. eapply wp_v_malloc; [done|]. intros b s' Hs'. apply wp_ret. destruct b; auto. }
  eapply wp_mono; [exact Hraw|]. intros raw s3 [Hs3 Hcase]. destruct (mountable && bool_decide (raw = None)) eqn:Em; [eapply wp_fail; [done|done|left; by auto]|].
  assert (raw = raw_of name mountable) as ->. { destruct Hcase as [?|[-> ->]]; [done|]. by rewrite bool_decide_eq_true_2 in Em. } clear Hcase Em.
  apply wp_bind. eapply wp_v_malloc; [done|]. intros okv s4 Hs4. apply wp_bind. eapply wp_create; [exact Hs4| |]; [intros s5 Hs5; eapply wp_fail; [done|done|left; by auto]|]. intros s5 Hs5.
  assert (∀ s' e, vrepr (deeper R0) s' (set_f_devs (new_vnode (Some dev) (f_devs F)) F) → adddev_spec F name mountable dev d e (skipped F) →
    wp (doadd_fail (Some (dv_next (f_devs F))) e) (λ r s', ∃ F', vrepr R0 s' F' ∧ adddev_spec F name mountable dev d r F') s') as Hfail.
  { intros s' e Hs' He. unfold doadd_fail. apply wp_bind. eapply wp_uncreate; [done|done|exact Hs'|]. intros s6 Hs6. by eapply wp_vleave. }
  apply wp_bind. eapply wp_v_malloc; [exact Hs5|]. intros [] s6 Hs6; cbn [negb]; [|apply Hfail; [done|left; by auto]]. apply wp_bind, wp_ret, wp_bind. eapply wp_badnames; [done|exact Hs6|]. cbn [f_list set_f_devs]. intros s7 Hs7.
  unfold adddev_spec in *. destruct (existsb _ (f_list F)); [apply Hfail; [done|by right]|].
  eapply (wp_enter _ _ _ _ (doadd_fail (Some (dv_next (f_devs F)))) (λ i, on_sys (sys_setnumber dev (u32 (default 0 i + 1))) ;; biglock_release ;; mret 0)); [exact Hs7|split; cbn; [done|done|done|exists (mk_dvnode 1 (Some dev)); by rewrite lookup_insert_eq]|done| |].
  - intros s8 Hs8. apply Hfail; [done|left; by auto].
  - intros s8 Hs8. cbn [f_list set_f_devs from_option id]. apply wp_bind. eapply wp_setnumber; [exact Hs8|done|]. intros s9 Hs9. rewrite u32_id in Hs9 by lia. eapply wp_vleave; [done|exact Hs9|]. by right.
Qed.

(** *** What names mean afterwards *)

Lemma added_name F name mountable dev d : existsb (clash (volume_name R0) (Some name) (raw_of name mountable) None) (f_list F) = false →
  let v := dv_next (f_devs F) in let l' := f_list (added name mountable dev d F) in
  find_root (volume_name R0) name l' = (if mountable then RError ENXIO else RVnode v) ∧
  (mountable = true → find_root (volume_name R0) (name ++ raw_suffix) l' = RVnode v) ∧
  (∀ nm, nm ≠ name → raw_of name mountable ≠ Some nm → find_root (volume_name R0) nm l' = find_root (volume_name R0) nm (f_list F)).
Proof using.
  intros Hno v l'. assert (∀ kd n, kd ∈ f_list F → Some name = Some n ∨ raw_of name mountable = Some n → root_of (volume_name R0) n kd = None) as Hold.
  { intros kd n Hin Hn. eapply clash_root; [|exact Hn]. apply not_true_is_false. intros Hc. apply not_true_iff_false in Hno. apply Hno, existsb_exists. exists kd. by rewrite list_elem_of_In in Hin. }
  unfold l', added. cbn [f_list]. split; [|split].
  - rewrite find_root_app by (intros kd Hin; apply Hold; auto). cbn. unfold root_of. cbn. rewrite bool_decide_eq_true_2 by done. by destruct mountable.
  - intros ->. rewrite find_root_app by (intros kd Hin; apply Hold; auto). cbn. unfold root_of. cbn. rewrite bool_decide_eq_false_2; [by rewrite bool_decide_eq_true_2|].
    intros E%(f_equal length). rewrite length_app in E. cbn in E. lia.
  - intros nm Hne Hraw. apply find_root_other. unfold root_of. cbn [kd_fs kd_name kd_rawname]. by rewrite !bool_decide_eq_false_2.
Qed.
End adddev.
