(* ===== verification/VfsClient.v ===== *)
(** * Programs that use paths

    The calls of a program on the whole machine: the calls on vnodes of
    [SfsClient], through the VFS layer, and the operations on paths.  Between
    calls the current directory and the boot file system stay open; the calls
    keep the promise of [Calls]. *)

From S2P Require Import Prelude Machine Spinlock Pt Kernel Xfer Lhd Bitmap Array Sfs SfsInv SfsOk SfsBmap SfsFile SfsIo SfsTrunc SfsDir SfsMeta SfsNode Vnode SfsSpec SfsOps SfsRefine SfsMount SfsClient Device Vfs VfsPath OneDisk VfsRefine VfsVolume VfsAdd.

Local Abbreviation ROOT := SFS_ROOTDIR_INO.

(** ** The directory stays open *)

Definition kept (a a' : avol) : Prop := ∀ w n, a_open a !! w = Some (ROOT, n) → ∃ n', a_open a' !! w = Some (ROOT, n').

Lemma kept_dir a a' o : kept a a' → dir_open a o → dir_open a' o.
Proof. intros Hk Hd v Hv. destruct (Hd v Hv) as [n Hn]. by eapply Hk. Qed.

Lemma kept_dirs F a' : kept (f_vol F) a' → dirs_open F → dirs_open (set_f_vol a' F).
Proof. intros Hk [H1 H2]. split; by eapply kept_dir. Qed.

Lemma kept_same a a' : a_open a' = a_open a → kept a a'.
Proof. intros E w n Hw. exists n. by rewrite E. Qed.

(** The vnode [v] got one more reference. *)
Definition kept_more (v : Z) (a a' : avol) : Prop := ∀ w n, a_open a !! w = Some (ROOT, n) → ∃ n', a_open a' !! w = Some (ROOT, n') ∧ (w = v → n < n').

Lemma kept_more_kept v a a' : kept_more v a a' → kept a a'.
Proof. intros Hk w n Hw. destruct (Hk w n Hw) as (n' & H & _). eauto. Qed.

Lemma kept_ref v ino a : a_vnode a v ino → kept_more v a (a_ref v ino a).
Proof.
  intros Hv w n Hw. cbn. destruct (decide (w = v)) as [->|Hne].
  - unfold a_vnode in Hv. rewrite Hw in Hv. subst ino. rewrite lookup_insert_eq, Hw. cbn. exists (1 + n). split; [done|lia].
  - rewrite lookup_insert_ne by done. by exists n.
Qed.

Lemma kept_look a ino r a' : look_spec a ino r a' → kept a a' ∧ (r.1 = 0 → kept_more r.2 a a').
Proof. intros [[E ->]|(E & Hv & ->)]; [split; [by apply kept_same|by rewrite E]|]. pose proof (kept_ref _ _ _ Hv) as Hk. split; [by eapply kept_more_kept|done]. Qed.

Lemma kept_creat a nm excl r a' : creat_spec a nm excl r a' → kept a a' ∧ (r.1 = 0 → kept_more r.2 a a').
Proof.
  unfold creat_spec. destruct (a_names a !! nm) as [ino|].
  - destruct excl; [intros [E ->]; split; [by apply kept_same|by rewrite E]|apply kept_look].
  - intros [[E ->]|(E & _ & ino & _ & _ & Ho & _ & ->)]; [split; [by apply kept_same|intros E'; rewrite E' in E; set_solver]|].
    assert (kept_more r.2 a (mk_avol (<[nm := ino]> (a_names a)) (<[ino := []]> (a_data a)) (<[r.2 := (ino, 1)]> (a_open a)))) as Hk.
    { intros w n Hw. cbn. assert (w ≠ r.2) as Hne by congruence. rewrite lookup_insert_ne by done. by exists n. }
    split; [by eapply kept_more_kept|done].
Qed.

Lemma gc_open ino a : a_open (a_gc ino a) = a_open a.
Proof. unfold a_gc. by case_decide. Qed.

(** A reference is given back that is not the last one of a directory in use. *)
Lemma kept_unref a a1 v ino n : a_good a → kept_more v a a1 → a_open a1 !! v = Some (ino, n) → kept a (a_unref v ino n a1).
Proof.
  intros Hg Hk Ho w m Hw. destruct (Hk w m Hw) as (m' & Hm & Hlt). unfold a_unref. destruct (decide (w = v)) as [->|Hne].
  - rewrite Hm in Ho. injection Ho as <- <-. pose proof (ag_pos _ Hg _ _ _ Hw). rewrite (proj2 (Z.ltb_lt 1 m')) by (specialize (Hlt eq_refl); lia). cbn. rewrite lookup_insert_eq. eauto.
  - destruct (1 <? n); [cbn; rewrite lookup_insert_ne by done; eauto|]. rewrite gc_open. cbn. rewrite lookup_delete_ne by done. eauto.
Qed.

Lemma kept_remove a nm r a' : remove_spec a nm r a' → kept a a'.
Proof.
  unfold remove_spec. destruct (a_names a !! nm); [|by intros [_ ->]; apply kept_same]. intros [[_ ->]|[_ ->]]; [by apply kept_same|]. apply kept_same. by rewrite gc_open.
Qed.

Lemma kept_rename a n1 n2 r a' : rename_spec a n1 n2 r a' → kept a a'.
Proof. unfold rename_spec, rename_found. intros H. apply kept_same. repeat case_match; naive_solver. Qed.

Lemma kept_parent {A} (code : A → Z) a rest spec r a' : (∀ r a', spec r a' → kept a a') → in_parent code a rest spec r a' → kept a a'.
Proof. intros Hk [[_ ->]|H]; [by apply kept_same|]. case_decide; [destruct H as [_ ->]; by apply kept_same|]. case_decide; [by eapply Hk|destruct H as [_ ->]; by apply kept_same]. Qed.

Lemma kept_lookup a nm r a' : lookup_spec a nm r a' → kept a a' ∧ (r.1 = 0 → kept_more r.2 a a').
Proof. unfold lookup_spec. destruct (a_names a !! nm); [apply kept_look|]. intros [E ->]. split; [by apply kept_same|by rewrite E]. Qed.

Lemma kept_path a rest r a' : path_lookup a rest r a' → kept a a' ∧ (r.1 = 0 → kept_more r.2 a a').
Proof.
  intros [[E ->]|H]; [split; [by apply kept_same|by rewrite E]|]. case_decide; [by eapply kept_look|by eapply kept_lookup].
Qed.

Lemma kept_named a rest flags r a' : file_named a rest flags r a' → kept a a' ∧ (r.1 = 0 → kept_more r.2 a a').
Proof.
  unfold file_named. destruct (negb _); [|apply kept_path]. intros H. split.
  - eapply kept_parent; [|exact H]. intros r' a1 Hc. by eapply kept_creat.
  - intros E. destruct H as [[E' _]|H]; [by rewrite E in E'|]. case_decide; [destruct H as [E' _]; by rewrite E in E'|]. case_decide; [by eapply kept_creat|destruct H as [E' _]; by rewrite E in E'].
Qed.

Lemma kept_opening a a1 v flags r a' : a_good a → kept_more v a a1 → opening a1 v flags r a' → kept a a'.
Proof.
  intros Hg Hk (ino & n & Ho & H). pose proof (kept_unref a a1 v ino n Hg Hk Ho) as Hu. pose proof (kept_more_kept _ _ _ Hk) as Hk'. destruct (bool_decide (ino = ROOT) && _); [by destruct H as [_ ->]|].
  destruct (negb (Z.land flags O_TRUNC =? 0)); cbn [andb] in H; [destruct (Z.land flags O_ACCMODE =? O_RDONLY)|]; by destruct H as [_ ->].
Qed.

Lemma kept_open a rest flags r a' : a_good a → open_spec a rest flags r a' → kept a a'.
Proof.
  intros Hg. unfold open_spec. destruct (_ =? 3); [intros [_ ->]; by apply kept_same|]. intros (r1 & a1 & Hf & H). destruct (kept_named _ _ _ _ _ Hf) as [Hk Hm]. destruct (Z.eqb_spec r1.1 0) as [E|E].
  - by eapply kept_opening; [|apply Hm|].
  - by destruct H as [_ ->].
Qed.

(** ** Calls *)

Section client.
Context {U : Type} {uops : UioOps U} {ulaws : UioLaws U}.

Inductive vcall : Type :=
| VDo (c : call U)
| VLookup (path : list Z)
| VOpen (path : list Z) (flags mode : Z)
| VRemove (path : list Z)
| VRename (path1 path2 : list Z)
| VChdir (path : list Z)
| VSetboot (fsname : list Z)
| VAdddev (name : list Z) (dev : Z) (mountable : bool).

Definition asking {A} (f : A → answer U) (m : M (vfs machine) A) : M (vfs machine) (answer U) := x ← m; mret (f x).

(** The calls on vnodes go through the VFS layer. *)
Definition vnode_call (c : call U) : M (vfs machine) (answer U) :=
  match c with
  | CGetroot => asking AVnode (fsop SFS_VOLUME fsop_getroot)
  | CIncref v => asking (λ _, ADone) (vop_incref v)
  | CDecref v => asking (λ _, ADone) (vfs_close v)
  | CRead v u => asking AMoved (vop v (λ o, vop_read o v u))
  | CWrite v u => asking AMoved (vop v (λ o, vop_write o v u))
  | CStat v => asking AStat (vop v (λ o, vop_stat o v))
  | CGettype v => asking AType (vop v (λ o, vop_gettype o v))
  | CFsync v => asking ACode (vop v (λ o, vop_fsync o v))
  | CTruncate v len => asking ACode (vop v (λ o, vop_truncate o v len))
  | CLookup v nm => asking AVnode (vop v (λ o, vop_lookup o v nm))
  | CLookparent v nm buflen => asking AParent (vop v (λ o, vop_lookparent o v nm buflen))
  | CCreat v nm excl mode => asking AVnode (vop v (λ o, vop_creat o v nm excl mode))
  | CLink v nm file => asking ACode (vop v (λ o, vop_link o v nm file))
  | CRemove v nm => asking ACode (vop v (λ o, vop_remove o v nm))
  | CRename v n1 n2 => asking ACode (vop v (λ o, vop_rename o v n1 v n2))
  end.

Definition vperform (c : vcall) : M (vfs machine) (answer U) :=
  match c with
  | VDo c => vnode_call c
  | VLookup path => asking AVnode (vfs_lookup path)
  | VOpen path flags mode => asking AVnode (vfs_open path flags mode)
  | VRemove path => asking ACode (vfs_remove path)
  | VRename path1 path2 => asking ACode (vfs_rename path1 path2)
  | VChdir path => asking ACode (vfs_chdir path)
  | VSetboot fsname => asking ACode (vfs_setbootfs fsname)
  | VAdddev name dev mountable => asking ACode (vfs_adddev name dev mountable)
  end.

(** What is left of a path after its start *)
Definition rest_of (path : list Z) : list Z := default [] (snd <$> parse path).

Section calls.
Context (R0 : srest).

(** The answer is a result code. *)
Definition is_code (spec : Z → avfs → Prop) (r : answer U) (F' : avfs) : Prop := ∃ x, r = ACode x ∧ spec x F'.

Definition vcall_spec (F : avfs) (c : vcall) : answer U → avfs → Prop :=
  match c with
  | VDo c => lifted F (call_spec (f_vol F) c)
  | VLookup path => lifted F (is_answer AVnode (path_lookup (f_vol F) (rest_of path)))
  | VOpen path flags _ => lifted F (is_answer AVnode (open_spec (f_vol F) (rest_of path) flags))
  | VRemove path => lifted F (is_answer ACode (in_parent id (f_vol F) (rest_of path) (remove_spec (f_vol F) (rest_of path))))
  | VRename path1 path2 => lifted F (is_answer ACode (rename_path (f_vol F) (rest_of path1) (rest_of path2)))
  | VChdir path => is_code (chdir_spec F (rest_of path))
  | VSetboot fsname => is_code (if decide (colon ∈ boot_name fsname) then λ r F', r = EINVAL ∧ F' = F else setbootfs_spec F)
  | VAdddev name dev mountable => is_code (λ r F', ∃ d, dv_devs (f_devs F) !! dev = Some d ∧ adddev_spec R0 F name mountable dev d r F')
  end.

Definition path_may (F : avfs) (path : list Z) : Prop := path_ok path ∧ on_volume R0 F path (rest_of path).

(** A reference of a directory that is in use is given back only if it is not
    the last one. *)
Definition spare (F : avfs) (c : call U) : Prop :=
  match c with
  | CDecref v => f_cwd F = Some v ∨ f_boot F = Some v → ∃ ino n, a_open (f_vol F) !! v = Some (ino, n) ∧ 1 < n
  | _ => True
  end.

Definition vmay (F : avfs) (c : vcall) : Prop :=
  match c with
  | VDo c => permitted (f_vol F) c ∧ spare F c
  | VLookup path | VOpen path _ _ | VRemove path | VChdir path => path_may F path
  | VRename path1 path2 => path_may F path1 ∧ path_may F path2
  | VSetboot fsname => colon ∉ boot_name fsname → path_ok fsname ∧ on_volume R0 F (boot_name fsname ++ [colon]) []
  | VAdddev _ dev _ => is_Some (dv_devs (f_devs F) !! dev) ∧ Z.of_nat (length (f_list F)) < 2 ^ 27
  end.

Definition vfs_calls : Calls (vfs machine) avfs vcall (answer U) := {| do_call := vperform; may := vmay; effect := vcall_spec |}.

(** *** Every call does what its specification says *)

Lemma asking_does {A} (f : A → answer U) m F (spec : A → avol → Prop) : vdoes R0 m F (lifted F spec) → vdoes R0 (asking f m) F (lifted F (is_answer f spec)).
Proof using.
  intros Hm s Hs. unfold asking. apply wp_bind. eapply wp_mono; [by apply Hm|]. intros x s' (F' & Hs' & a' & -> & Hx). apply wp_ret. eexists. split; [exact Hs'|]. exists a'. split; [done|]. by exists x.
Qed.

Lemma asking_code m F (spec : Z → avfs → Prop) : vdoes R0 m F spec → vdoes R0 (asking ACode m) F (is_code spec).
Proof using. intros Hm s Hs. unfold asking. apply wp_bind. eapply wp_mono; [by apply Hm|]. intros x s' (F' & Hs' & Hx). apply wp_ret. exists F'. split; [done|]. by exists x. Qed.

(** A call on an open vnode of the volume is the one of [SfsClient]. *)
Lemma asking_vop {A} (f : A → answer U) v (op : vnode_ops machine U → M machine A) op' F (spec : answer U → avol → Prop) :
  is_Some (a_open (f_vol F) !! v) → (∀ o, op (lift_ops o) = on_sfs (op' o)) → does R0 (answering f (VOP v op')) (f_vol F) spec → vdoes R0 (asking f (vop v op)) F (lifted F spec).
Proof using.
  intros [[ino n] Ho] Hop Hd s Hs. pose proof (vdoes_sfs R0 _ F _ Hd s Hs) as H. unfold wp in *.
  assert (asking f (vop v op) s = on_sys (on_sfs (answering f (VOP v op'))) s) as ->; [|exact H].
  unfold asking, answering, mbind, M_bind. erewrite vop_sfs; [|by eapply repr_nonneg; [apply Hs|]|exact Hop]. unfold on_sys, on_sfs, zoom. by destruct (VOP v op' (y_sfs (v_sys s))) as [[r s1]|e].
Qed.

Lemma vnode_call_does F c : permitted (f_vol F) c → vdoes R0 (vnode_call c) F (lifted F (call_spec (f_vol F) c)).
Proof using ulaws.
  intros Hp. pose proof (perform_does R0 (f_vol F) c Hp) as Hd. destruct c as [|v|v|v u|v u|v|v|v|v len|v nm|v nm buflen|v nm excl mode|v nm file|v nm|v n1 n2]; cbn [permitted perform vnode_call] in *; [| | |by (eapply asking_vop; [apply Hp| |exact Hd])..].
  - apply asking_does, (vdoes_fsop _ _ sfs_getroot); [done|apply sfs_getroot_does].
  - destruct Hp as [[ino n] Ho]. intros s Hs. unfold asking. apply wp_bind. eapply wp_incref; [apply Hs|exact Ho|]. intros s' Hs'. apply wp_ret. eexists. split; [by apply (vrepr_vol _ s)|]. eexists. split; [done|].
    cbn. unfold vnode_of. by rewrite Ho.
  - destruct Hp as [[ino n] Ho]. intros s Hs. unfold asking, vfs_close. apply wp_bind. eapply wp_vdecref; [exact Hs|exact Ho|]. intros s' Hs'. apply wp_ret. eexists. split; [exact Hs'|]. eexists. split; [done|]. cbn. eauto.
Qed.

Lemma vperform_does F c : vmay F c → dirs_open F → vdoes R0 (vperform c) F (vcall_spec F c).
Proof using ulaws.
  destruct c as [c|p|p fl m|p|p1 p2|p|nm|nm dev b]; cbn [vmay vperform vcall_spec].
  - intros [Hc _] _. by apply vnode_call_does.
  - intros [Hp Hv] Ho. by apply asking_does, vfs_lookup_does.
  - intros [Hp Hv] Ho. by apply asking_does, vfs_open_does.
  - intros [Hp Hv] Ho. by apply asking_does, vfs_remove_does.
  - intros [[Hp1 Hv1] [Hp2 Hv2]] Ho. by apply asking_does, vfs_rename_does.
  - intros [Hp Hv] Ho. by apply asking_code, vfs_chdir_does.
  - intros Hm Ho. apply asking_code. case_decide as Hc; [by apply setbootfs_colon_does|]. destruct (Hm Hc). by apply setbootfs_does.
  - intros [[d Hd] Hlen] Ho. apply asking_code. eapply vdoes_mono; [|by apply vfs_adddev_does]. intros r F' Hr. by exists d.
Qed.

(** *** The directories in use stay open *)

Lemma kept_unref_spare F v ino n : a_open (f_vol F) !! v = Some (ino, n) → spare F (CDecref v) → dirs_open F → dirs_open (set_f_vol (a_unref v ino n (f_vol F)) F).
Proof using.
  intros Ho Hsp [H1 H2]. assert (∀ o, (o = Some v → 1 < n) → dir_open (f_vol F) o → dir_open (a_unref v ino n (f_vol F)) o) as H.
  { intros o Hn Hd w ->. destruct (Hd w eq_refl) as [m Hm]. unfold a_unref. destruct (decide (w = v)) as [->|Hne].
    - rewrite (proj2 (Z.ltb_lt 1 n)) by auto. rewrite Ho in Hm. injection Hm as -> <-. cbn. rewrite lookup_insert_eq. eauto.
    - destruct (1 <? n); [cbn; rewrite lookup_insert_ne by done; eauto|]. rewrite gc_open. cbn. rewrite lookup_delete_ne by done. eauto. }
  cbn in Hsp. rewrite Ho in Hsp. split; apply H; try done; intros E; destruct Hsp as (j & k & [= <- <-] & Hk); auto.
Qed.

Lemma kept_call a c r a' : permitted a c → (∀ v, c ≠ CDecref v) → call_spec (U := U) a c r a' → kept a a'.
Proof using.
  intros Hp Hc. assert (∀ A (f : A → answer U) spec, (∀ x a', spec x a' → kept a a') → is_answer f spec r a' → kept a a') as Hans by (intros A f spec Hk (x & _ & Hx); by eapply Hk).
  assert (∀ e (x : Z) a', refused a e x a' → kept a a') as Hrf by (intros e x b [_ ->]; by apply kept_same).
  assert (∀ A e (x : Z * A) a', refused1 a e x a' → kept a a') as Hrf1 by (intros A e x b [_ ->]; by apply kept_same).
  destruct c as [|v|v|v u|v u|v|v|v|v len|v nm|v nm buflen|v nm excl mode|v nm file|v nm|v n1 n2]; cbn [permitted call_spec] in *.
  - apply Hans. intros x b Hx. by eapply kept_look.
  - intros [_ ->]. destruct Hp as [[ino n] Ho]. unfold vnode_of. rewrite Ho. cbn. eapply kept_more_kept, kept_ref. unfold a_vnode. by rewrite Ho.
  - by destruct (Hc v).
  - apply Hans. intros x b. destruct (is_root a v); [intros [_ ->]; by apply kept_same|]. intros Hx. apply kept_same. unfold read_spec in Hx. naive_solver.
  - apply Hans. intros x b. destruct (is_root a v); [intros [_ ->]; by apply kept_same|]. intros (m & _ & _ & Ha & _). apply kept_same. destruct (m =? 0)%nat; by subst b.
  - apply Hans. intros x b [-> _]. by apply kept_same.
  - apply Hans. intros x b [_ ->]. by apply kept_same.
  - apply Hans, Hrf.
  - apply Hans. intros x b. destruct (is_root a v); [apply Hrf|]. intros [_ ->]. by apply kept_same.
  - apply Hans. intros x b. destruct (is_root a v); [|apply Hrf1]. intros Hx. by eapply kept_lookup.
  - apply Hans. intros x b. destruct (is_root a v) eqn:Er; cbn [negb]; [|apply Hrf1]. case_decide; [|apply Hrf1]. intros [_ ->]. eapply kept_more_kept, kept_ref. unfold is_root, vnode_of in Er. apply bool_decide_eq_true in Er.
    unfold a_vnode. destruct (a_open a !! v) as [[j m]|]; [|done]. by injection Er.
  - apply Hans. intros x b. destruct (is_root a v); [|apply Hrf1]. intros Hx. by eapply kept_creat.
  - apply Hans. intros x b. destruct (negb _); [apply Hrf|]. destruct (is_root a file); [apply Hrf|]. intros Hx. apply kept_same. unfold link_spec in Hx. repeat case_match; naive_solver.
  - apply Hans. intros x b. destruct (is_root a v); [apply kept_remove|apply Hrf].
  - apply Hans. intros x b. destruct (is_root a v); [apply kept_rename|apply Hrf].
Qed.

Lemma vcall_kept s F c r F' : vrepr R0 s F → vmay F c → dirs_open F → vcall_spec F c r F' → dirs_open F'.
Proof using.
  intros Hs Hm Ho Hr. pose proof (repr_good _ _ _ (vr_vol _ _ _ Hs)) as Hg. destruct c as [c|p|p fl m|p|p1 p2|p|nm|nm dev b]; cbn [vmay vcall_spec] in *.
  - destruct Hr as (a' & -> & Hr), Hm as [Hp Hsp]. assert ((∃ v, c = CDecref v) ∨ ∀ v, c ≠ CDecref v) as [[v ->]|Hc] by (destruct c; naive_solver); [|apply kept_dirs; [|done]; eapply kept_call; naive_solver].
    destruct Hr as (_ & ino & n & Hv & ->). by apply kept_unref_spare.
  - destruct Hr as (a' & -> & x & _ & Hx). apply kept_dirs; [|done]. by eapply kept_path.
  - destruct Hr as (a' & -> & x & _ & Hx). apply kept_dirs; [|done]. by eapply kept_open.
  - destruct Hr as (a' & -> & x & _ & Hx). apply kept_dirs; [|done]. eapply kept_parent; [|done]. intros. by eapply kept_remove.
  - destruct Hr as (a' & -> & x & _ & Hx). apply kept_dirs; [|done]. eapply kept_parent; [|done]. intros r1 a1 Hx1. eapply kept_parent; [|exact Hx1]. intros. by eapply kept_rename.
  - destruct Hr as (x & _ & [[_ ->]|Hx]); [done|]. case_decide; [|by destruct Hx as [_ ->]]. destruct Hx as (_ & v & Hv & ->), Ho as [H1 H2]. split; [|by apply held_kept]. intros w [= <-]. by eapply held_open; [apply (vr_vol _ _ _ Hs)|..].
  - destruct Hr as (x & _ & Hx). case_decide; [by destruct Hx as [_ ->]|]. destruct Hx as [[_ ->]|(_ & v & Hv & ->)]; [done|]. destruct Ho as [H1 H2].
    destruct (held_open R0 _ _ v (f_cwd F) (vr_vol _ _ _ Hs) Hv H1) as [n Hn]. assert (dir_open (held (f_cwd F) v (f_vol F)) (Some v)) as Hd by (intros w [= <-]; eauto).
    assert (a_vnode (held (f_cwd F) v (f_vol F)) v ROOT) as Hv2 by (unfold a_vnode; by rewrite Hn). split; by apply held_kept.
  - destruct Hr as (x & _ & d & _ & [[_ [-> | ->]]|Hx]); [done|done|]. destruct (existsb _ _); by destruct Hx as [_ ->].
Qed.

(** The calls keep the promise of the interface. *)
Lemma vfs_calls_do F c s : may (Calls := vfs_calls) F c → vrepr R0 s F ∧ dirs_open F →
  wp (do_call (Calls := vfs_calls) c) (λ r s', ∃ F', (vrepr R0 s' F' ∧ dirs_open F') ∧ effect (Calls := vfs_calls) F c r F') s.
Proof using ulaws.
  intros Hc [Hs Ho]. eapply wp_mono; [by apply (vperform_does F c)|]. intros r s' (F' & Hs' & Hr). exists F'. split; [|done]. split; [done|]. exact (vcall_kept s F c r F' Hs Hc Ho Hr).
Qed.
End calls.
End client.
Arguments vcall : clear implicits.
