(* ===== verification/VfsProps.v ===== *)
(** * Properties of the VFS layer

    Programs that use paths on a machine with one disk: what they get, that
    what they store under one path is found under another, and how devices get
    their names. *)

From S2P Require Import Prelude Machine Spinlock Pt Kernel Xfer Lhd Bitmap Array Sfs SfsInv SfsOk SfsBmap SfsFile SfsIo SfsTrunc SfsDir SfsMeta SfsNode Vnode SfsSpec SfsOps SfsRefine SfsMount SfsClient SfsProps Device Vfs VfsPath OneDisk VfsRefine VfsVolume VfsAdd VfsClient.

(** ** A machine *)

Definition lhd0 : list Z := [108; 104; 100; 48].
Definition null : list Z := [110; 117; 108; 108].
Definition demo_devices : devices :=
  mk_devices {[10 := mk_device 1 8 512 1; 11 := mk_device DRIVER_NULL 0 1 2; 12 := mk_device 1 8 512 0]} {[-1 := mk_dvnode 1 (Some 10); -2 := mk_dvnode 1 (Some 11)]} (-3).
Definition demo_kds : list knowndev := [mk_kd lhd0 (Some (lhd0 ++ raw_suffix)) (Some 10) (-1) (FS SFS_VOLUME); mk_kd null None (Some 11) (-2) NO_FS].
Definition demo_vfs : vfs machine :=
  mk_vfs (mk_machine demo_st demo_devices) (mk_array [200; 201; 0; 0] 2 4) {[200 := mk_kd lhd0 (Some (lhd0 ++ raw_suffix)) (Some 10) (-1) (FS SFS_VOLUME); 201 := mk_kd null None (Some 11) (-2) NO_FS]} 202 []
    (Some 100) (mk_cpu true 0 0 0 0 false true) SPINLOCK_INITIALIZER (Some 100).
Definition demo_avfs : avfs := mk_avfs demo_avol demo_devices demo_kds (Some 100) (Some 100).

Lemma demo_vrepr : vrepr demo_rest demo_vfs demo_avfs.
Proof.
  split; try done; cbn.
  - apply demo_repr.
  - split; [done|]. intros v [x Hx]. apply lookup_insert_Some in Hx as [[<- _]|[_ Hx]]; [lia|]. apply lookup_singleton_Some in Hx as [<- _]. lia.
  - repeat constructor.
  - repeat constructor; cbn; try done; try (by intros f [= <-]); by eexists.
  - split; [|cbn; lia]. split; cbn; (done || lia || auto).
  - intros p [x Hx]. apply lookup_insert_Some in Hx as [[<- _]|[_ Hx]]; [lia|]. apply lookup_singleton_Some in Hx as [<- _]. lia.
Qed.

Lemma demo_dirs : dirs_open demo_avfs.
Proof. split; intros v [= <-]; by exists 1. Qed.

(** ** Storing under one path, fetching under another *)

Definition CREATE : Z := Z.lor O_WRONLY (Z.lor O_CREAT O_EXCL).

(** A new file is written and closed, renamed, opened by its new path and read. *)
Definition store_move_fetch {U} (p1 p2 : list Z) (u u' : U) : prog (vcall U) (answer U) :=
  PCall (VOpen p1 CREATE 0) (λ r,
    match r with
    | AVnode (Z0, v) =>
        PCall (VDo (CWrite v u)) (λ _, PCall (VDo (CDecref v)) (λ _, PCall (VRename p1 p2) (λ r,
          match r with
          | ACode Z0 =>
              PCall (VOpen p2 O_RDONLY 0) (λ r,
                match r with
                | AVnode (Z0, v') => PCall (VDo (CRead v' u')) (λ _, PEnd)
                | _ => PEnd
                end)
          | _ => PEnd
          end)))
    | _ => PEnd
    end).

(** The answers when nothing fails, with the transfer of the read at the end *)
Definition moved {U} (rs : list (answer U)) (u2 : U) : Prop :=
  ∃ v u1 v' e, rs = [AVnode (0, v); AMoved (0, u1); ADone; ACode 0; AVnode (0, v'); AMoved (e, u2)].

Definition all_moved {U} (rs : list (answer U)) : bool :=
  match rs with [AVnode (Z0, _); AMoved (Z0, _); ADone; ACode Z0; AVnode (Z0, _); AMoved _] => true | _ => false end.
Lemma all_moved_moved {U} (rs : list (answer U)) : all_moved rs = true → ∃ u2, moved rs u2.
Proof. intros H. unfold all_moved in H. repeat (case_match; try done). subst. match goal with r : Z * U |- _ => destruct r end. unfold moved. by eexists _, _, _, _, _. Qed.

Lemma parent_done {A} (code : A → Z) a rest spec r a' : in_parent code a rest spec r a' → code r = 0 → rest ≠ [] ∧ spec r a'.
Proof. intros [[E _]|H] E'; [by rewrite E' in E|]. case_decide; [destruct H as [E _]; by rewrite E' in E|]. case_decide; [done|destruct H as [E _]; by rewrite E' in E]. Qed.

Lemma open_created a rest r a' : open_spec a rest CREATE r a' → r.1 = 0 → ∃ ino, stored a' rest ino [] ∧ a_open a !! r.2 = None ∧ a_open a' = <[r.2 := (ino, 1)]> (a_open a).
Proof.
  unfold open_spec. change (Z.land CREATE O_ACCMODE =? 3) with false. cbn iota. intros (r1 & a1 & Hf & H) E. destruct (Z.eqb_spec r1.1 0) as [E1|E1]; [|destruct H as [E2 _]; by rewrite E in E2].
  unfold file_named in Hf. change (negb (Z.land CREATE O_CREAT =? 0)) with true in Hf. cbn iota in Hf. apply parent_done in Hf as [_ Hc]; [|done]. change (negb (Z.land CREATE O_EXCL =? 0)) with true in Hc.
  destruct (creat_stored _ _ _ _ Hc E1) as (ino & Hst & Hn & Eo). unfold opening in H. change (negb (Z.land CREATE O_TRUNC =? 0)) with false in H. cbn [andb] in H. destruct H as (j & n & Hj & H).
  rewrite Eo, lookup_insert_eq in Hj. injection Hj as <- <-. rewrite bool_decide_eq_false_2 in H by apply Hst. cbn [andb] in H. destruct H as [-> ->]. by exists ino.
Qed.

Lemma rename_stored a n1 n2 ino c r a' : stored a n1 ino c → rename_path a n1 n2 r a' → r = 0 → n2 ≠ [] ∧ stored a' n2 ino c ∧ a_open a' = a_open a.
Proof.
  intros [H1 H2 H3] Hr ->. apply parent_done in Hr as [_ Hr]; [|done]. apply parent_done in Hr as [Hne Hr]; [|done]. split; [done|]. unfold rename_spec, rename_found in Hr. rewrite H1 in Hr.
  destruct Hr as [[? _]|Hr]; [done|]. destruct (a_names a !! n2) eqn:En; [by destruct Hr|]. destruct Hr as [[Hin _]|(_ & _ & ->)]; [set_solver|]. split; [|done]. assert (n1 ≠ n2) as Hn by congruence.
  split; cbn; [by rewrite lookup_delete_ne, lookup_insert_eq by done|done|done].
Qed.

Lemma open_stored a nm ino c r a' : stored a nm ino c → nm ≠ [] → open_spec a nm O_RDONLY r a' → r.1 = 0 → vnode_of a' r.2 = Some ino ∧ a_data a' !! ino = Some c ∧ is_Some (a_open a' !! r.2).
Proof.
  intros Hst Hne Ho E. unfold open_spec in Ho. change (Z.land O_RDONLY O_ACCMODE =? 3) with false in Ho. cbn iota in Ho. destruct Ho as (r1 & a1 & Hf & H). destruct (Z.eqb_spec r1.1 0) as [E1|E1]; [|destruct H as [E2 _]; by rewrite E in E2].
  unfold file_named in Hf. change (negb (Z.land O_RDONLY O_CREAT =? 0)) with false in Hf. cbn iota in Hf. destruct Hf as [[E2 _]|Hf]; [by rewrite E1 in E2|]. rewrite decide_False in Hf by done.
  pose proof (look_stored _ _ _ _ _ _ Hst Hf E1) as Hl. unfold opening in H. change (negb (Z.land O_RDONLY O_TRUNC =? 0)) with false in H. cbn [andb] in H. destruct H as (j & n & Hj & H).
  assert (j = ino) as ->. { destruct Hl as [Hv _]. unfold vnode_of in Hv. rewrite Hj in Hv. by injection Hv. }
  rewrite bool_decide_eq_false_2 in H by apply Hst. cbn [andb] in H. destruct H as [-> ->]. done.
Qed.

Section moving.
Context {U : Type} {uops : UioOps U} {ulaws : UioLaws U}.
Context (R0 : srest).
#[local] Instance the_calls : Calls (vfs machine) avfs (vcall U) (answer U) := vfs_calls R0.

Lemma not_in_use F v : dirs_open F → a_open (f_vol F) !! v = None → ¬ (f_cwd F = Some v ∨ f_boot F = Some v).
Proof using. intros [H1 H2] Hv [E|E]; [destruct (H1 v E) as [n Hn]|destruct (H2 v E) as [n Hn]]; congruence. Qed.

(** The file that was opened is written and read as a file. *)
Lemma write_call F v ino c n (u : U) r F' : a_open (f_vol F) !! v = Some (ino, n) → ino ≠ SFS_ROOTDIR_INO → a_data (f_vol F) !! ino = Some c →
  effect F (VDo (CWrite v u)) r F' → ∃ x a', F' = set_f_vol a' F ∧ r = AMoved x ∧ write_spec (f_vol F) ino c u x a'.
Proof using.
  intros Ho Hne Hc. cbn. intros (a' & -> & x & -> & Hx). assert (vnode_of (f_vol F) v = Some ino) as Hv by (unfold vnode_of; by rewrite Ho). destruct (not_root _ _ _ Hv Hne) as [Hr _].
  rewrite Hr in Hx. unfold file_of in Hx. rewrite Hv in Hx. cbn in Hx. rewrite Hc in Hx. eauto.
Qed.

Lemma read_call F v ino c (u : U) r F' : vnode_of (f_vol F) v = Some ino → ino ≠ SFS_ROOTDIR_INO → a_data (f_vol F) !! ino = Some c →
  effect F (VDo (CRead v u)) r F' → ∃ x a', F' = set_f_vol a' F ∧ r = AMoved x ∧ read_spec (f_vol F) c u x a'.
Proof using.
  intros Hv Hne Hc. cbn. intros (a' & -> & x & -> & Hx). destruct (not_root _ _ _ Hv Hne) as [Hr _]. rewrite Hr in Hx. unfold file_of in Hx. rewrite Hv in Hx. cbn in Hx. rewrite Hc in Hx. eauto.
Qed.

Lemma store_move_ensures F p1 p2 (u u' : U) : dirs_open F → path_may R0 F p1 → path_may R0 F p2 →
  small u → u_rw u = UIO_WRITE → u_offset u = 0 → small u' → u_rw u' = UIO_READ → u_offset u' = 0 →
  ensures F (store_move_fetch p1 p2 u u') (λ rs _, ∀ u2, moved rs u2 → u_done u2 = u_done u' ++ take (Z.to_nat (u_resid u')) (take (Z.to_nat (u_resid u)) (u_todo u))).
Proof using.
  intros Hdirs Hp1 Hp2 Hu Hrw Ho Hu' Hrw' Ho'. cbn [store_move_fetch ensures]. split; [exact Hp1|]. intros r F1 (a1 & -> & [e v] & -> & Hr). destruct e as [|e|e]; [|intros u2 (? & ? & ? & ? & E); by injection E..].
  destruct (open_created _ _ _ _ Hr eq_refl) as (ino & Hst & Hnew & Eo1). cbn [snd] in Hnew, Eo1. assert (a_open a1 !! v = Some (ino, 1)) as Hv by (rewrite Eo1; apply lookup_insert_eq).
  cbn [ensures]. split; [split; [|done]; split; [by exists (ino, 1)|done]|]. intros r F2 Hr2. destruct (write_call (set_f_vol a1 F) v ino [] 1 u r F2 Hv (st_file _ _ _ _ Hst) (st_data _ _ _ _ Hst) Hr2) as (r2 & a2 & -> & -> & Hw). cbn [f_vol set_f_vol] in Hw.
  destruct (write_stored a1 _ ino u r2 a2 Hst (proj1 Hu) Hrw Ho Hw) as (Eo & c & Hst2 & Hc). assert (a_open a2 !! v = Some (ino, 1)) as Hv2 by (by rewrite Eo).
  cbn [ensures]. split; [split; [by exists (ino, 1)|intros Hin; by destruct (not_in_use _ _ Hdirs Hnew)]|]. intros r F3 (a3 & -> & -> & j & m & Hj & ->). cbn [f_vol set_f_vol] in Hj. rewrite Hv2 in Hj. injection Hj as <- <-.
  destruct (unref_stored _ _ _ _ _ Hst2 Hv2) as [Hst3 _]. cbn [ensures]. split; [by split|]. intros r F4 (a4 & -> & x & -> & Hx). cbn [f_vol set_f_vol] in Hx. destruct x as [|x|x]; [|intros u2 (? & ? & ? & ? & E); by injection E..].
  destruct (rename_stored _ _ _ _ _ _ _ Hst3 Hx eq_refl) as (Hne & Hst4 & _). cbn [ensures]. split; [exact Hp2|]. intros r F5 (a5 & -> & [e v'] & -> & Hr5). destruct e as [|e|e]; [|intros u2 (? & ? & ? & ? & E); by injection E..].
  cbn [f_vol set_f_vol] in Hr5. destruct (open_stored _ _ _ _ _ _ Hst4 Hne Hr5 eq_refl) as (Hv5 & Hd5 & Hop5). cbn [snd] in Hv5, Hop5. cbn [ensures]. split; [split; [|done]; split; [exact Hop5|done]|].
  intros r F6 Hr6. destruct (read_call (set_f_vol a5 F) v' ino c u' r F6 Hv5 (st_file _ _ _ _ Hst) Hd5 Hr6) as ([e u5] & a6 & -> & -> & (_ & _ & _ & Hd)).
  intros u2 (v1 & u1 & v2 & e2 & E). injection E as _ E2 _ E5. subst r2 u5. cbn in Hd. rewrite Hd, Ho', <-(Hc eq_refl). done.
Qed.
End moving.

(** ** Theorems *)

(** C10. A program that opens, looks up, removes and renames files by their
    paths, changes the current directory, sets the boot file system, adds
    devices and uses the vnodes it got, with any reaction to the answers, gets
    the answers of the abstract file system: every call returns, no assertion
    fails, and the vnodes the layer takes on the way are given back. *)
Theorem vfs_refines {U} {uops : UioOps U} {ulaws : UioLaws U} R0 s F (p : prog (vcall U) (answer U)) :
  vrepr R0 s F → dirs_open F → respects (calls := vfs_calls R0) F p →
  ∃ rs s' F', run (calls := vfs_calls R0) p s = Ok (rs, s') ∧ vrepr R0 s' F' ∧ dirs_open F' ∧ session (calls := vfs_calls R0) F p rs F'.
Proof.
  intros Hs Ho Hp. destruct (proj1 (wp_run _ _ _) (run_session (calls := vfs_calls R0) _ (vfs_calls_do R0) p F s Hp (conj Hs Ho))) as (rs & s' & E & F' & [H1 H2] & H3). eauto 8.
Qed.

(** C11. What is written to a new file under one path is read back from the
    file after it was renamed to another path, unless one of the calls reports
    an error.  Both paths may start at the current directory, at the boot file
    system or at a device. *)
Theorem vfs_store_fetch {U} {uops : UioOps U} {ulaws : UioLaws U} R0 s F p1 p2 (u u' : U) :
  vrepr R0 s F → dirs_open F → path_may R0 F p1 → path_may R0 F p2 →
  small u → u_rw u = UIO_WRITE → u_offset u = 0 → small u' → u_rw u' = UIO_READ → u_offset u' = 0 →
  ∃ rs s', run (calls := vfs_calls R0) (store_move_fetch p1 p2 u u') s = Ok (rs, s') ∧
    ∀ u2, moved rs u2 → u_done u2 = u_done u' ++ take (Z.to_nat (u_resid u')) (take (Z.to_nat (u_resid u)) (u_todo u)).
Proof.
  intros Hs Ho Hp1 Hp2 Hu Hrw Hof Hu' Hrw' Hof'. pose proof (store_move_ensures R0 F p1 p2 u u' Ho Hp1 Hp2 Hu Hrw Hof Hu' Hrw' Hof') as Hp.
  destruct (proj1 (wp_run _ _ _) (run_ensures (calls := vfs_calls R0) _ (vfs_calls_do R0) _ F s _ Hp (conj Hs Ho))) as (rs & s' & E & F' & _ & H). eauto.
Qed.

(** C12. The loops of [getdevice] over the path and the list of devices compute
    what [parse] and [find_root] say: the path starts at the current
    directory, at the root of its file system, at the boot file system or at
    the first device with that name, and the rest of the path has no leading
    slashes. *)
Theorem getdevice_parses {U} {uops : UioOps U} {ulaws : UioLaws U} R0 s F path :
  vrepr (deeper R0) s F → 0 < r_depth R0 → path_ok path → dirs_open F →
  ∃ r s' F', getdevice (U := U) path s = Ok (r, s') ∧ vrepr (deeper R0) s' F' ∧ getdevice_spec R0 F path r F'.
Proof. intros Hs Hd Hp Ho. destruct (proj1 (wp_run _ _ _) (getdevice_does R0 F path Hd Hp Ho s Hs)) as (r & s' & E & F' & H1 & H2). eauto 6. Qed.

(** C13. A new device is refused if its name or its raw name is taken.  If it
    is added, its names lead to its vnode, the name of a mountable device
    without a file system to an error, and every other name means what it
    meant before; otherwise the list of devices and their vnodes are as
    before. *)
Theorem vfs_adddev_names {U} {uops : UioOps U} {ulaws : UioLaws U} R0 s F name dev mountable :
  vrepr R0 s F → is_Some (dv_devs (f_devs F) !! dev) → Z.of_nat (length (f_list F)) < 2 ^ 27 →
  let vol := volume_name R0 in let v := dv_next (f_devs F) in
  ∃ r s' F', vfs_adddev (U := U) name dev mountable s = Ok (r, s') ∧ vrepr R0 s' F' ∧
    (existsb (clash vol (Some name) (raw_of name mountable) None) (f_list F) = true → r = EEXIST ∨ r = ENOMEM) ∧
    if r =? 0 then
      find_root vol name (f_list F') = (if mountable then RError ENXIO else RVnode v) ∧
      (mountable = true → find_root vol (name ++ raw_suffix) (f_list F') = RVnode v) ∧
      (∀ nm, nm ≠ name → raw_of name mountable ≠ Some nm → find_root vol nm (f_list F') = find_root vol nm (f_list F)) ∧
      dv_nodes (f_devs F') !! v = Some (mk_dvnode 1 (Some dev)) ∧
      dev_devnumber <$> dv_devs (f_devs F') !! dev = Some (Z.of_nat (length (f_list F')))
    else f_list F' = f_list F ∧ dv_nodes (f_devs F') = dv_nodes (f_devs F) ∧ dv_devs (f_devs F') = dv_devs (f_devs F).
Proof.
  intros Hs [d Hd] Hlen vol v. destruct (proj1 (wp_run _ _ _) (vfs_adddev_does R0 F name dev mountable d Hd Hlen s Hs)) as (r & s' & E & F' & Hs' & Hr). exists r, s', F'. split; [done|]. split; [done|].
  destruct Hr as [(-> & HF)|Hr]; [split; [by right|]; cbn; by destruct HF as [-> | ->]|]. unfold vol. destruct (existsb _ _) eqn:Ec; destruct Hr as [-> ->]; [split; [by left|done]|]. split; [done|]. cbn [Z.eqb].
  destruct (added_name R0 F name mountable dev d Ec) as (H1 & H2 & H3). split; [done|]. split; [done|]. split; [done|]. cbn. rewrite !lookup_insert_eq. split; [done|]. cbn. rewrite length_app. cbn. f_equal. lia.
Qed.

(** C37. [vfs_setbootfs] refuses every name that has a colon among the
    characters it looks at, also one with a single colon at its end, which the
    comment in the code allows. *)
Theorem setbootfs_colon {U} {uops : UioOps U} {ulaws : UioLaws U} R0 s F fsname :
  vrepr R0 s F → colon ∈ boot_name fsname → ∃ s', vfs_setbootfs (U := U) fsname s = Ok (EINVAL, s') ∧ vrepr R0 s' F.
Proof. intros Hs Hc. destruct (proj1 (wp_run _ _ _) (setbootfs_colon_does R0 F fsname Hc s Hs)) as (r & s' & E & F' & H1 & -> & ->). eauto. Qed.

(** ** Witnesses *)

(** [lhd0:b] and [/c] *)
Definition path_b : list Z := lhd0 ++ [colon] ++ name_b.
Definition path_c : list Z := [slash; 99].

Lemma path_b_may : path_may demo_rest demo_avfs path_b.
Proof. split; [split; [by repeat constructor|done]|]. exists (SDevice lhd0). by split. Qed.
Lemma path_c_may : path_may demo_rest demo_avfs path_c.
Proof. split; [split; [by repeat constructor|done]|]. by exists SBoot. Qed.

Lemma vfs_refines_witness : ∃ rs s' F', run (calls := vfs_calls demo_rest) (store_move_fetch path_b path_c put_world get_five) demo_vfs = Ok (rs, s') ∧ vrepr demo_rest s' F' ∧ dirs_open F' ∧
  session (calls := vfs_calls demo_rest) demo_avfs (store_move_fetch path_b path_c put_world get_five) rs F'.
Proof.
  apply (vfs_refines demo_rest demo_vfs demo_avfs _ demo_vrepr demo_dirs). eapply (ensures_respects (calls := vfs_calls demo_rest)).
  exact (store_move_ensures demo_rest demo_avfs path_b path_c put_world get_five demo_dirs path_b_may path_c_may put_world_small eq_refl eq_refl get_five_small eq_refl eq_refl).
Defined.

Lemma vfs_store_fetch_witness : ∃ rs s' u2, run (calls := vfs_calls demo_rest) (store_move_fetch path_b path_c put_world get_five) demo_vfs = Ok (rs, s') ∧ moved rs u2 ∧ u_done u2 = world.
Proof.
  destruct (vfs_store_fetch demo_rest demo_vfs demo_avfs path_b path_c put_world get_five demo_vrepr demo_dirs path_b_may path_c_may put_world_small eq_refl eq_refl get_five_small eq_refl eq_refl) as (rs & s' & E & H).
  assert (match run (calls := vfs_calls demo_rest) (store_move_fetch path_b path_c put_world get_five) demo_vfs with Ok (rs, _) => all_moved rs | _ => false end = true) as Hrun by (by vm_compute).
  rewrite E in Hrun. destruct (all_moved_moved rs Hrun) as [u2 H2]. exists rs, s', u2. split; [exact E|]. split; [exact H2|]. rewrite (H u2 H2). reflexivity.
Defined.

Lemma getdevice_parses_witness : ∃ s1 r s' F', biglock_acquire (U := kbuf) demo_vfs = Ok (tt, s1) ∧ getdevice (U := kbuf) path_b s1 = Ok (r, s') ∧ vrepr (deeper demo_rest) s' F' ∧ getdevice_spec demo_rest demo_avfs path_b r F' ∧ r = (0, name_b, 100).
Proof.
  destruct (proj1 (wp_run _ _ _) (wp_biglock_acquire (U := kbuf) demo_rest demo_vfs demo_avfs (λ _ s', vrepr (deeper demo_rest) s' demo_avfs) demo_vrepr (λ s' H, H))) as ([] & s1 & E1 & Hs1).
  destruct (getdevice_parses (U := kbuf) demo_rest s1 demo_avfs path_b Hs1 ltac:(by vm_compute) (proj1 path_b_may) demo_dirs) as (r & s' & F' & E & H1 & H2).
  exists s1, r, s', F'. split; [exact E1|]. split; [exact E|]. split; [exact H1|]. split; [exact H2|].
  assert (match biglock_acquire (U := kbuf) demo_vfs with Ok (_, s1) => match getdevice (U := kbuf) path_b s1 with Ok (r, _) => bool_decide (r = (0, name_b, 100)) | _ => false end | _ => false end = true) as Hrun by (by vm_compute).
  rewrite E1, E in Hrun. exact (proj1 (bool_decide_eq_true _) Hrun).
Defined.

Lemma vfs_adddev_names_witness : ∃ r s' F', vfs_adddev (U := kbuf) [108; 104; 100; 49] 12 true demo_vfs = Ok (r, s') ∧ vrepr demo_rest s' F' ∧ r = 0.
Proof.
  destruct (vfs_adddev_names (U := kbuf) demo_rest demo_vfs demo_avfs [108; 104; 100; 49] 12 true demo_vrepr ltac:(by eexists) ltac:(cbn; lia)) as (r & s' & F' & E & H1 & _).
  exists r, s', F'. split; [exact E|]. split; [exact H1|]. assert (match vfs_adddev (U := kbuf) [108; 104; 100; 49] 12 true demo_vfs with Ok (r, _) => r =? 0 | _ => false end = true) as Hrun by (by vm_compute). rewrite E in Hrun. by apply Z.eqb_eq.
Defined.

Lemma setbootfs_colon_witness : ∃ s', vfs_setbootfs (U := kbuf) (lhd0 ++ [colon]) demo_vfs = Ok (EINVAL, s') ∧ vrepr demo_rest s' demo_avfs.
Proof. apply (setbootfs_colon (U := kbuf) demo_rest demo_vfs demo_avfs (lhd0 ++ [colon]) demo_vrepr). apply list_elem_of_lookup. by exists 4%nat. Defined.
